(* ===== verification/_CoqProject ===== *)
-Q . S2P
Prelude.v
GoStrings.v
Utf8Json.v
Netip.v
Netguard.v
IPPool.v
Domain.v
Tunnel.v
Paths.v
Hosts.v
AccessRules.v
AccessPolicy.v
LRU.v
Routing.v
RateLimit.v
SecretBox.v
Requests.v
AuditChain.v
Resilience.v
Handler.v
ReverseProxy.v
Proxy.v
AuthStore.v
AuthHistory.v
AuthCache.v
Tokens.v
Sessions.v
LoginCodes.v
Redirects.v
Login.v
LoginSafety.v
System.v
Csrf.v
ApiGuard.v
UserAdmin.v
Groups.v
Nodes.v
RouteAuth.v
CrowdSec.v
AuditSink.v
Webhooks.v
Oidc.v
Config.v
Catalog.v
CatalogRoutes.v
CatalogHistory.v
CertStore.v
CertStorage.v
DnsProviders.v
Certificates.v
CertIssuance.v
Handshake.v
Explain.v
SelfUpdate.v
Settings.v
AccessLog.v
Exposure.v
SignIn.v
