(* ===== verification/Prelude.v ===== *)
(** * Portlyn: a verification development

    Portlyn is a self-hosted reverse proxy in Go: it publishes services behind hosts and paths, decides who may reach
    them, reaches private ones through a WireGuard tunnel to node agents, and is administered over an HTTP API.  This library
    models the parts of src/internal that make those decisions and proves what makes them correct.  Every definition
    follows the Go function of the same name (or the one its comment names), early returns and error paths included.

    ** Conventions

    A Go function returning [(T, error)] is a function into [result E T] or [option T]; stateful code passes its state
    explicitly, through a small monad where the source threads it through many calls ([act] in Handler.v, [auth] in Sessions.v).
    Instants and durations are nanoseconds in [Z] and every operation that reads the clock takes the instant as an argument;
    random bytes are arguments.  Strings are byte strings.  A database table is the list of its rows and a statement an
    operation on it; a handler that reads, decides and later writes is split there, so that histories can interleave other
    requests.  Cryptographic primitives, URL parsing and the database layer are parameters; what is relied on is a named
    hypothesis or the laws of a class with an instance that satisfies them; where a law idealises (no collisions, nothing opens under
    another key) the class says so.  Folding of case and trimming are those of ASCII (GoStrings.v).  There is no fuel except in loops over a bounded range,
    where the bound is the range: the address pool of IPPool.v (its size) and batches of AuditChain.v (the number of rows); the
    theorems there show the bound is enough.

    ** Files

    - Prelude: results, time, tactics, generic lemmas.  GoStrings: package strings.  Utf8Json: UTF-8 and JSON text.  Netip:
      netip.Addr and Prefix, strconv.  Domain: rows of domain/models.go.
    - Netguard: netguard/netguard.go, http/upstream_validation.go, the dial control of proxy/transport.go (SSRF guard).
    - IPPool, Tunnel: tunnel/pool.go, tunnel/manager.go and the forwarding filter of tunnel/server.go.
    - Paths, Hosts: canonical paths, hosts, certificate coverage.  AccessRules, AccessPolicy: proxy/access_rules.go and the
      policy half of proxy/access.go.
    - LRU, Routing: proxy/lru.go, proxy/routing_runtime.go, proxy/config_cache.go, store/routing_store.go.
    - RateLimit: rate/local.go.  Requests: what is read off a request, stripping of credentials.  Resilience: circuit
      breaker, retries, denial throttle (a Module each).
    - AuditChain: store/audit_store.go and store/audit_retention.go.
    - Handler: Manager.Handler of proxy/manager.go with access.go, magic_link.go and route_access_bridge.go, against the classes
      [Router] and [AuthService].  ReverseProxy: the director of proxy/transport.go and the header handling of
      net/http/httputil.  Proxy: Handler on Routing.v.
    - SecretBox: secureconfig.  AuthStore, AuthHistory: the tables of store/*_store.go for users, sessions, codes and API
      tokens, and histories of statements on them.  AuthCache: the identity cache of auth/service.go.  Tokens: signed tokens of
      auth/sessions.go and auth/route_access.go.  Sessions: sessions, refresh tokens, API tokens.  LoginCodes: one-time codes
      and magic links.  Redirects: addresses of the login pages.  Login, LoginSafety: auth/service.go and auth/mfa.go.
    - System: the authentication service as the instance of [AuthService] the handler runs on.
    - Csrf: the CSRF check of http/security.go.  ApiGuard: auth/middleware.go over the route table of http/server.go.
      UserAdmin: http/users.go and http/api_tokens.go.  Groups: user groups of http/groups.go.  Nodes: enrollment and heartbeats of node agents.
    - RouteAuth: http/route_auth.go and http/access_methods.go, sign-in to a route by PIN, mailed code or session.  Oidc:
      auth/oidc.go and auth/oidc_login.go over a provider that is a parameter.
    - CrowdSec: security/crowdsec.go and crowdsec_metrics.go.  AuditSink: audit/logger.go, the buffered sink with producers and
      worker as interleaved steps.  Webhooks: audit/webhook.go with its store and handlers.  Config: config/config.go.
    - Catalog: domains, services and service groups with the handlers of http/resources.go, upsert.go, groups.go and
      domains_certificates.go that change them.  CatalogRoutes: each handler clears the cached routes its change makes stale.
      CatalogHistory: histories of requests and lookups over Catalog and Routing.
    - CertStore: acme/certificate_store.go with the cache of acme/certificate_cache.go, as goroutines that interleave.
      CertStorage: acme/certmagic_storage.go, its values and (Module Locks) its locks.
    - DnsProviders: DNS providers, key rotation and alerts (http/certificates_dns.go, http/security_rotation.go).  Certificates: orders
      for certificates and the code that fulfils them (http/domains_certificates.go, certificate_ops.go, auto_cert.go, acme/manager.go,
      retry.go, worker.go) over certmagic as a parameter.  CertIssuance: what syncs and the worker do to the tables.  Handshake:
      GetCertificate of acme/manager.go and the self-signed certificates.
    - Explain: the access tester of http/diagnostics.go beside the decision of the proxy.  SelfUpdate: internal/selfupdate and the
      commands over it, on a file system whose calls may fail, and internal/updatecheck.
    - Settings: store/app_settings_store.go and the requests that change its row, which interleave between read and write.
    - AccessLog: internal/accesslog, the entry of a proxied request (logAccess) and the console's listing.  Exposure: the detector of untrusted
      forwarders (proxy/forwarders.go) and internal/scanner with the table of its reports.
    - SignIn: the handlers of http/auth.go, break_glass.go, mfa.go, sessions.go and magic_link.go over the authentication service.

    ** What the theorems show

    - The proxy as a whole: a request is forwarded only for a reason that is traced to the tables and the configuration
      (System), after every check of the handler (Handler), on routes that are current through two caches (Routing), with
      the identity headers, forwarding headers and path the proxy decided on (Handler, ReverseProxy, Paths), and deny rules
      cannot be evaded by spelling (AccessRules).
    - Credentials: revoked sessions stay revoked, refresh tokens, codes, links, TOTP steps and enrollment tokens are used once in
      every interleaving, the kinds of signed tokens are separate, logins check what they must and their tokens work,
      API tokens live from creation to revocation, cached identities and their groups are current, credentials are not handed on.
    - The console: a break-glass login passes all its checks and spends its token, replies show no token that is not asked for,
      signing out ends the session of the token it came with (SignIn).
    - Sign-in from outside: a route grants access only after its PIN, its mailed code or the user's own session was
      checked, the form and the check agree on allowed addresses (RouteAuth), a single sign-on came back with the state it
      left with and an admitted address (Oidc).
    - Background work: the reputation list is what the received decisions say (CrowdSec), every audit event is in the table, on
      its way or reported lost (AuditSink), a hook is told of what it asked for (Webhooks).
    - Configuration: exactly which settings the server starts with (Config).
    - The catalogue: after any history of administrative requests and lookups a host resolves to the routes of the services
      stored now, exactly when they compile, and everything stored passed the checks of the API (CatalogHistory).
    - Certificates: a handshake gets the certificate stored now however loads and writes interleave (CertStore), private
      keys are sealed where certmagic keeps them, once the table was migrated, and a lock that is renewed in time excludes everyone else (CertStorage).  What is
      ordered is well formed, the server orders what its services lack and nothing twice (Certificates), a certificate said to be issued is
      stored and a failed one is left alone for its delay (CertIssuance), covered hosts are served from the store and
      handshakes that race for a self-signed certificate get the one the cache keeps for their name (Handshake).
    - Key rotation: after re-encryption the active secret alone opens every DNS provider, as the dry run announced (DnsProviders).
    - The access tester gives the answer of the proxy on services of a described shape (Explain).  Self update: the executable is
      at every moment the old one, or in its backup, or one the release workflow signed (SelfUpdate).
    - Settings: no interleaving of requests stores a row nobody can sign in with, and the secrets are those of
      the last write, sealed (Settings).
    - The access log: the console lists the latest entries that match, no entry is lost uncounted, and on a disk that works the
      files hold an end of what was written, within their limits (AccessLog).  The report on untrusted forwarders has the exact counts of
      its window, a scan says what it found and each service has one report (Exposure).
    - Administration: every handler of the API runs behind its guards, an administrator is always left, sealed secrets open again.
    - Data structures against abstract specifications: LRU cache, rate limiter, denial throttle, circuit breaker, address pool.
    - The audit log: every history of writes that do not overlap verifies on a database that keeps the timestamps, and a changed log
      does not, unless two messages with one HMAC are at hand.
    - The tunnel: addresses are unique, forwarding follows the grants.
    - Some theorems state behaviour that is not intended, each with the input that shows it: zoned addresses pass the SSRF
      guard, a failed write keeps a revoked peer, the breaker is blind behind a node, the Connection header drops identity
      headers, public suffixes count as one site, recovery codes and the protection of the last administrator race, an API
      token in a cookie reaches personal routes, an account created inactive is active, a failed first fetch of the
      reputation list is not repeated, audit events written after the sink is closed are lost, a late webhook result undoes
      changes to the hook, the issuer of a linked account is not compared, 127.example.com counts as loopback, an address list
      that does not parse takes a host down, a revoked tunnel is used until cached routes expire, console and proxy disagree on
      a restricted policy that names nobody, purging a wildcard certificate deletes others, a lapsed holder unlocks the next, a
      removed member may keep the group in the cache of identities, failed codes count twice for the alert, a renamed certificate waits
      for its renewal, deleting one purges names it shares, the access tester opens a restricted policy that names nobody and reads no
      domain or group, a release candidate is no downgrade, the swap of the binary has a moment without one, a secret
      that looks sealed makes the settings unreadable, overlapping settings requests undo each other, migration leaves two keys in the clear,
      a rotation of the access log that failed once ends it, a certificate on its last day scores full,
      break-glass requests race for their token, a request for a code reveals accounts, signing out late keeps the session, a timestamp
      the database rounds and two writes at once break the audit chain, a lookup of routes overtakes an invalidation, a failed Stat makes
      the self update restore an old backup, the access tester knows no pins, a window over an hour is cut short by the limiter's sweep,
      and a subnet that covers the tunnel lets clients reach each other.

    ** Not modelled

    The Redis variants of caches, bus and limiter (scripts and network), passkeys (a third-party protocol library), certmagic
    and the DNS clients, mail, metrics and GeoIP (input and output), the user-space network stack and the text of
    WireGuard files, the HTTP handlers that only read, and HTML.  The
    remaining state-changing handlers are those of the console for nodes and tunnel clients and the start of a single sign-on; the
    commands under cmd/ other than the updates only put the components together. *)
From stdpp Require Export base tactics list gmap strings pretty sorting.
From Stdlib Require Export ZArith Lia Ascii.

(** * Results

    A Go function returning [(T, error)] is a function into [result E T]: the
    error values the code distinguishes are constructors of a per-component type
    [E]. *)
Inductive result (E A : Type) : Type :=
| Ok (a : A)
| Err (e : E).
Arguments Ok {E A} a.
Arguments Err {E A} e.

Definition result_bind {E A B} (m : result E A) (k : A → result E B) : result E B :=
  match m with
  | Ok a => k a
  | Err e => Err e
  end.

Definition is_ok {E A} (m : result E A) : bool :=
  match m with
  | Ok _ => true
  | Err _ => false
  end.

Declare Scope go_scope.
Delimit Scope go_scope with go.
Notation "'try' x <- m ; k" := (result_bind m (fun x => k))
  (at level 10, x name, m at level 100, k at level 200) : go_scope.

#[global] Instance result_eq_dec `{EqDecision E, EqDecision A} : EqDecision (result E A).
Proof. solve_decision. Defined.

(** [mapM] over a list for a Go loop that returns at the first error. *)
Fixpoint result_mapM {E A B} (f : A → result E B) (l : list A) : result E (list B) :=
  match l with
  | [] => Ok []
  | x :: l' =>
      match f x with
      | Err e => Err e
      | Ok y =>
          match result_mapM f l' with
          | Err e => Err e
          | Ok ys => Ok (y :: ys)
          end
      end
  end.

(** * Time

    [time.Time] is an instant in nanoseconds and [time.Duration] a number of
    nanoseconds; both are [Z].  Every operation that reads the clock takes the
    instant as an argument. *)
Definition Millisecond : Z := 1000000.
Definition Second : Z := 1000 * Millisecond.
Definition Minute : Z := 60 * Second.
Definition Hour : Z := 60 * Minute.

(** * Tactics *)

(** Split the boolean connectives of the hypotheses. *)
Ltac destruct_bools :=
  repeat match goal with
  | H : _ && _ = true |- _ => apply andb_true_iff in H as [? ?]
  | H : _ || _ = false |- _ => apply orb_false_iff in H as [? ?]
  | H : negb _ = true |- _ => apply negb_true_iff in H
  | H : negb _ = false |- _ => apply negb_false_iff in H
  end.

(** Case on the scrutinee of a [match] or an [if] of the goal, then of the
    hypotheses, closing the impossible branches. *)
Ltac case_goal :=
  match goal with
  | |- context [match ?x with _ => _ end] => destruct x eqn:?; simplify_eq/=
  end.
Ltac case_hyp H :=
  match type of H with
  | context [match ?x with _ => _ end] => destruct x eqn:?; simplify_eq/=
  end.

Create HintDb portlyn.
Create Rewrite HintDb portlyn_simpl.

(** * Generic lemmas *)

Lemma result_mapM_Ok_Forall2 {E A B} (f : A → result E B) l ys :
  result_mapM f l = Ok ys ↔ Forall2 (λ x y, f x = Ok y) l ys.
Proof.
  revert ys. induction l as [|x l IH]; intros ys; simpl.
  - split; [intros; simplify_eq; constructor | by inversion 1].
  - split.
    + intros H. destruct (f x) as [y|] eqn:Hx; [|done].
      destruct (result_mapM f l) as [ys'|] eqn:Hl; simplify_eq.
      constructor; [done|]. by apply IH.
    + inversion 1 as [|? y ? ys' Hx Hl]; subst. rewrite Hx.
      by apply IH in Hl as ->.
Qed.

Lemma result_mapM_length {E A B} (f : A → result E B) l ys :
  result_mapM f l = Ok ys → length ys = length l.
Proof. intros H%result_mapM_Ok_Forall2. by apply Forall2_length in H. Qed.

Lemma result_mapM_lookup {E A B} (f : A → result E B) l ys i y :
  result_mapM f l = Ok ys → ys !! i = Some y →
  ∃ x, l !! i = Some x ∧ f x = Ok y.
Proof.
  intros H%result_mapM_Ok_Forall2 Hy.
  by destruct (Forall2_lookup_r _ _ _ _ _ H Hy) as (x & ? & ?); eauto.
Qed.

Lemma existsb_exists_elem {A} (f : A → bool) l :
  existsb f l = true ↔ ∃ x, x ∈ l ∧ f x = true.
Proof.
  rewrite existsb_exists. split; intros (x & Hx & Hf); exists x; split; auto;
    by apply list_elem_of_In.
Qed.

Lemma existsb_false_elem {A} (f : A → bool) l :
  existsb f l = false ↔ ∀ x, x ∈ l → f x = false.
Proof.
  split.
  - intros H x Hx. destruct (f x) eqn:Hf; [|done].
    assert (existsb f l = true) by (apply existsb_exists_elem; eauto). congruence.
  - intros H. destruct (existsb f l) eqn:He; [|done].
    apply existsb_exists_elem in He as (x & Hx & Hf). rewrite H in Hf; done.
Qed.

Lemma forallb_forall_elem {A} (f : A → bool) l :
  forallb f l = true ↔ ∀ x, x ∈ l → f x = true.
Proof.
  rewrite forallb_forall. split; intros H x Hx; apply H; by apply list_elem_of_In.
Qed.

Lemma omap_ext_elem {A B} (f g : A → option B) (l : list A) :
  (∀ x, x ∈ l → f x = g x) → omap f l = omap g l.
Proof.
  induction l as [|x l IH]; intros Hfg; [done|]. simpl.
  rewrite (Hfg x) by constructor.
  assert (omap f l = omap g l) as IH' by (apply IH; intros; apply Hfg; by constructor).
  destruct (g x); [f_equal|]; exact IH'.
Qed.

Lemma find_filter_id {A} (f : A → bool) (P : A → Prop) `{∀ x, Decision (P x)} (l : list A) :
  (∀ x, x ∈ l → f x = true → P x) → List.find f (filter P l) = List.find f l.
Proof.
  induction l as [|x l IH]; intros Hp; [done|].
  assert (List.find f (filter P l) = List.find f l) as IH' by (apply IH; intros; apply Hp; [by constructor|done]).
  rewrite filter_cons. simpl. destruct (decide (P x)); simpl; [by rewrite IH'|].
  destruct (f x) eqn:Hx; [|done]. exfalso. apply n, Hp; [constructor | done].
Qed.

(** A filter that drops nothing keeps the list. *)
Lemma filter_full {A} (P : A → Prop) `{∀ x, Decision (P x)} (l : list A) :
  length (filter P l) = length l → filter P l = l.
Proof.
  induction l as [|x l IH]; [done|]. rewrite filter_cons. pose proof (length_filter P l).
  destruct (decide (P x)); simpl; intros Hlen; [|lia]. f_equal. apply IH. lia.
Qed.
