(* ===== verification/GoStrings.v ===== *)
(** Go strings.

    A Go string is a sequence of bytes, here [String.string].  This file models
    the functions of package [strings] the sources call.  Letter case and white
    space are those of ASCII; bytes above 127 are neither letters nor spaces, so
    on ASCII text the functions are Go's own. *)
From S2P Require Import Prelude.

#[local] Open Scope string_scope.
#[local] Open Scope list_scope.
#[global] Arguments String.append !_ _ / : simpl nomatch.

(** * Characters *)

Definition is_space (a : ascii) : bool :=
  let n := nat_of_ascii a in (9 <=? n)%nat && (n <=? 13)%nat || (n =? 32)%nat.

Definition is_upper (a : ascii) : bool :=
  let n := nat_of_ascii a in (65 <=? n)%nat && (n <=? 90)%nat.

Definition is_digit (a : ascii) : bool :=
  let n := nat_of_ascii a in (48 <=? n)%nat && (n <=? 57)%nat.

Definition lower_ascii (a : ascii) : ascii :=
  if is_upper a then ascii_of_nat (nat_of_ascii a + 32) else a.

Definition upper_ascii (a : ascii) : ascii :=
  let n := nat_of_ascii a in
  if (97 <=? n)%nat && (n <=? 122)%nat then ascii_of_nat (n - 32) else a.

(** * Functions of package strings *)

Fixpoint string_map (f : ascii → ascii) (s : string) : string :=
  match s with
  | EmptyString => ""
  | String a s' => String (f a) (string_map f s')
  end.

Fixpoint string_all (p : ascii → bool) (s : string) : bool :=
  match s with
  | EmptyString => true
  | String a s' => p a && string_all p s'
  end.

Definition ToLower (s : string) : string := string_map lower_ascii s.
Definition ToUpper (s : string) : string := string_map upper_ascii s.

Fixpoint TrimLeftFunc (p : ascii → bool) (s : string) : string :=
  match s with
  | EmptyString => ""
  | String a s' => if p a then TrimLeftFunc p s' else s
  end.

Fixpoint TrimRightFunc (p : ascii → bool) (s : string) : string :=
  match s with
  | EmptyString => ""
  | String a s' =>
      match TrimRightFunc p s' with
      | EmptyString => if p a then "" else String a ""
      | s'' => String a s''
      end
  end.

Definition TrimSpace (s : string) : string :=
  TrimLeftFunc is_space (TrimRightFunc is_space s).

(** [TrimRight(s, c)] and [Trim(s, c)] for a one-byte cutset. *)
Definition TrimRight (s : string) (c : ascii) : string := TrimRightFunc (Ascii.eqb c) s.
Definition Trim (s : string) (c : ascii) : string :=
  TrimLeftFunc (Ascii.eqb c) (TrimRightFunc (Ascii.eqb c) s).

(** [strings.Split] for a one-byte separator: always at least one piece. *)
Fixpoint Split (s : string) (sep : ascii) : list string :=
  match s with
  | EmptyString => [""]
  | String a s' =>
      if Ascii.eqb a sep then "" :: Split s' sep
      else match Split s' sep with
           | h :: t => String a h :: t
           | [] => [String a ""]
           end
  end.

Fixpoint Join (l : list string) (sep : string) : string :=
  match l with
  | [] => ""
  | [s] => s
  | s :: l' => s +:+ sep +:+ Join l' sep
  end.

(** [before, after, found := strings.Cut(s, sep)] for a one-byte separator. *)
Fixpoint Cut (s : string) (sep : ascii) : string * string * bool :=
  match s with
  | EmptyString => ("", "", false)
  | String a s' =>
      if Ascii.eqb a sep then ("", s', true)
      else let '(before, after, found) := Cut s' sep in (String a before, after, found)
  end.

Definition cut_before (s : string) (sep : ascii) : string := (Cut s sep).1.1.

Fixpoint HasPrefix (s prefix : string) {struct prefix} : bool :=
  match prefix, s with
  | EmptyString, _ => true
  | String b p', String a s' => Ascii.eqb a b && HasPrefix s' p'
  | String _ _, EmptyString => false
  end.

Fixpoint drop_bytes (n : nat) (s : string) : string :=
  match n, s with
  | S n', String _ s' => drop_bytes n' s'
  | _, _ => s
  end.

Definition TrimPrefix (s prefix : string) : string :=
  if HasPrefix s prefix then drop_bytes (String.length prefix) s else s.

Fixpoint string_rev_app (s acc : string) : string :=
  match s with
  | EmptyString => acc
  | String a s' => string_rev_app s' (String a acc)
  end.

Definition HasSuffix (s suffix : string) : bool :=
  HasPrefix (string_rev_app s "") (string_rev_app suffix "").

(** [strings.Contains(s, c)] for a one-byte [c]. *)
Fixpoint ContainsByte (s : string) (c : ascii) : bool :=
  match s with
  | EmptyString => false
  | String a s' => Ascii.eqb a c || ContainsByte s' c
  end.

(** [strings.Contains(s, sub)]. *)
Fixpoint Contains (s sub : string) : bool :=
  HasPrefix s sub ||
  match s with
  | EmptyString => false
  | String _ s' => Contains s' sub
  end.

Fixpoint CountByte (s : string) (c : ascii) : nat :=
  match s with
  | EmptyString => 0
  | String a s' => (if Ascii.eqb a c then 1 else 0) + CountByte s' c
  end.

Definition ReplaceByte (s : string) (old new : ascii) : string :=
  string_map (fun a => if Ascii.eqb a old then new else a) s.

Definition EqualFold (s t : string) : bool := String.eqb (ToLower s) (ToLower t).

(** [strings.FieldsFunc(s, func(r) { return r == sep })]. *)
Definition non_empty (s : string) : bool := negb (String.eqb s "").
Definition FieldsByte (s : string) (sep : ascii) : list string :=
  List.filter non_empty (Split s sep).

(** [fmt.Sprintf("%d", n)] for an unsigned integer. *)
Definition FormatUint (n : N) : string := pretty n.

(** * Lemmas *)

Lemma string_app_assoc s t u : (s +:+ t) +:+ u = s +:+ t +:+ u.
Proof. induction s as [|a s IH]; simpl; [done | by rewrite IH]. Qed.

Lemma string_app_nil_r s : s +:+ "" = s.
Proof. induction s as [|a s IH]; simpl; [done | by rewrite IH]. Qed.

Lemma string_app_length s t : String.length (s +:+ t) = (String.length s + String.length t)%nat.
Proof. induction s as [|a s IH]; simpl; [done | by rewrite IH]. Qed.

Lemma string_app_inj_l s t u : s +:+ t = s +:+ u → t = u.
Proof. induction s as [|a s IH]; simpl; [done | intros; simplify_eq; auto]. Qed.

Lemma string_all_app p s t : string_all p (s +:+ t) = string_all p s && string_all p t.
Proof. induction s as [|a s IH]; simpl; [done | by rewrite IH, andb_assoc]. Qed.

Lemma non_empty_true s : non_empty s = true ↔ s ≠ "".
Proof. unfold non_empty. rewrite negb_true_iff, String.eqb_neq. done. Qed.

(** ** Case *)

Lemma lower_ascii_idem a : lower_ascii (lower_ascii a) = lower_ascii a.
Proof. destruct a as [[] [] [] [] [] [] [] []]; reflexivity. Qed.

Lemma is_space_lower a : is_space (lower_ascii a) = is_space a.
Proof. destruct a as [[] [] [] [] [] [] [] []]; reflexivity. Qed.

Lemma ToLower_idem s : ToLower (ToLower s) = ToLower s.
Proof.
  unfold ToLower. induction s as [|a s IH]; simpl; [done|].
  by rewrite lower_ascii_idem, IH.
Qed.

Lemma ToLower_app s t : ToLower (s +:+ t) = ToLower s +:+ ToLower t.
Proof. unfold ToLower. induction s as [|a s IH]; simpl; [done | by rewrite IH]. Qed.

Lemma ToLower_length s : String.length (ToLower s) = String.length s.
Proof. unfold ToLower. induction s as [|a s IH]; simpl; [done | by rewrite IH]. Qed.

Lemma ToLower_empty s : ToLower s = "" ↔ s = "".
Proof. by destruct s. Qed.

Lemma EqualFold_refl s : EqualFold s s = true.
Proof. apply String.eqb_refl. Qed.

Lemma EqualFold_true s t : EqualFold s t = true ↔ ToLower s = ToLower t.
Proof. apply String.eqb_eq. Qed.

(** ** White space *)

Lemma TrimLeftFunc_idem p s : TrimLeftFunc p (TrimLeftFunc p s) = TrimLeftFunc p s.
Proof.
  induction s as [|a s IH]; simpl; [done|].
  destruct (p a) eqn:Ha; simpl; [done | by rewrite Ha].
Qed.

Lemma TrimRightFunc_idem p s : TrimRightFunc p (TrimRightFunc p s) = TrimRightFunc p s.
Proof.
  induction s as [|a s IH]; simpl; [done|].
  destruct (TrimRightFunc p s) as [|b s'] eqn:Hs.
  - destruct (p a) eqn:Ha; simpl; [done | by rewrite Ha].
  - cbn [TrimRightFunc] in IH |- *. by rewrite IH.
Qed.

Lemma TrimRightFunc_map p f s :
  (∀ a, p (f a) = p a) → TrimRightFunc p (string_map f s) = string_map f (TrimRightFunc p s).
Proof.
  intros Hp. induction s as [|a s IH]; simpl; [done|]. rewrite IH.
  destruct (TrimRightFunc p s); simpl; [rewrite Hp; by destruct (p a) | done].
Qed.

Lemma TrimLeftFunc_map p f s :
  (∀ a, p (f a) = p a) → TrimLeftFunc p (string_map f s) = string_map f (TrimLeftFunc p s).
Proof.
  intros Hp. induction s as [|a s IH]; simpl; [done|]. rewrite Hp. by destruct (p a).
Qed.

Lemma TrimSpace_ToLower s : TrimSpace (ToLower s) = ToLower (TrimSpace s).
Proof.
  unfold TrimSpace, ToLower. rewrite TrimRightFunc_map by apply is_space_lower.
  apply TrimLeftFunc_map, is_space_lower.
Qed.

(** A string that does not end in a [p] byte is left alone from the right, and
    trimming on the left keeps that. *)
Lemma TrimRight_TrimLeft p s :
  TrimRightFunc p (TrimLeftFunc p (TrimRightFunc p s)) = TrimLeftFunc p (TrimRightFunc p s).
Proof.
  assert (∀ t, TrimRightFunc p t = t → TrimRightFunc p (TrimLeftFunc p t) = TrimLeftFunc p t).
  { induction t as [|a t IH]; intros Ht; [done|]. cbn [TrimLeftFunc].
    destruct (p a) eqn:Ha; [|done]. apply IH. cbn [TrimRightFunc] in Ht.
    destruct (TrimRightFunc p t) eqn:Ht'; [rewrite Ha in Ht; done | by simplify_eq]. }
  auto using TrimRightFunc_idem.
Qed.

Lemma TrimSpace_idem s : TrimSpace (TrimSpace s) = TrimSpace s.
Proof.
  unfold TrimSpace. by rewrite TrimRight_TrimLeft, TrimLeftFunc_idem.
Qed.

Lemma TrimFunc_none p s :
  string_all (λ a, negb (p a)) s = true → TrimLeftFunc p s = s ∧ TrimRightFunc p s = s.
Proof.
  induction s as [|a s IH]; simpl; [done|]. intros H. destruct_bools.
  destruct IH as [_ IH]; [done|]. rewrite IH.
  destruct (p a); [done|]. split; [done|]. by destruct s.
Qed.

Lemma TrimSpace_none s :
  string_all (λ a, negb (is_space a)) s = true → TrimSpace s = s.
Proof.
  intros H. unfold TrimSpace. destruct (TrimFunc_none _ _ H) as [? ->]. done.
Qed.

Lemma TrimLeftFunc_app p s t :
  TrimLeftFunc p s = s → s ≠ "" → TrimLeftFunc p (s +:+ t) = s +:+ t.
Proof.
  destruct s as [|a s]; [done|]. simpl. destruct (p a) eqn:Ha; [|done].
  intros H _. assert (String.length (TrimLeftFunc p s) ≤ String.length s)%nat as Hlen.
  { clear. induction s as [|b s IH]; simpl; [done|]. destruct (p b); simpl; lia. }
  rewrite H in Hlen. simpl in Hlen. lia.
Qed.

Lemma TrimRightFunc_app p s t :
  TrimRightFunc p t = t → t ≠ "" → TrimRightFunc p (s +:+ t) = s +:+ t.
Proof.
  intros Ht Hne. induction s as [|a s IH]; [done|]. simpl. rewrite IH.
  destruct t; [done|]. by destruct s.
Qed.

Lemma TrimSpace_fix s : TrimSpace s = s → TrimLeftFunc is_space s = s ∧ TrimRightFunc is_space s = s.
Proof.
  intros H. split; [by rewrite <-H at 2; unfold TrimSpace; rewrite <-H at 1; unfold TrimSpace; rewrite TrimLeftFunc_idem|].
  rewrite <-H. unfold TrimSpace. apply TrimRight_TrimLeft.
Qed.

(** Text that starts and ends with trimmed, non-empty text is trimmed. *)
Lemma TrimSpace_app s m t :
  TrimSpace s = s → s ≠ "" → TrimSpace t = t → t ≠ "" → TrimSpace (s +:+ m +:+ t) = s +:+ m +:+ t.
Proof.
  intros [Hs _]%TrimSpace_fix Hs0 [_ Ht]%TrimSpace_fix Ht0. unfold TrimSpace.
  rewrite <-string_app_assoc, (TrimRightFunc_app _ (s +:+ m)), string_app_assoc by done.
  by apply TrimLeftFunc_app.
Qed.

(** ** Splitting and joining *)

Lemma Split_nonempty s sep : Split s sep ≠ [].
Proof.
  destruct s as [|a s]; simpl; [done|]. destruct (Ascii.eqb a sep); [done|].
  by destruct (Split s sep).
Qed.

Lemma Join_cons s l sep : l ≠ [] → Join (s :: l) sep = s +:+ sep +:+ Join l sep.
Proof. by destruct l. Qed.

Lemma Join_Split s sep : Join (Split s sep) (String sep "") = s.
Proof.
  induction s as [|a s IH]; [done|]. cbn [Split].
  destruct (Ascii.eqb_spec a sep) as [->|].
  - rewrite Join_cons by apply Split_nonempty. by rewrite IH.
  - pose proof (Split_nonempty s sep). destruct (Split s sep) as [|h [|h' t]]; [done|..].
    + simpl in *. by rewrite IH.
    + cbn [Join] in *. rewrite <-IH. done.
Qed.

Lemma Split_no_sep s sep x : x ∈ Split s sep → ContainsByte x sep = false.
Proof.
  revert x. induction s as [|a s IH]; intros x; cbn [Split].
  - rewrite list_elem_of_singleton. by intros ->.
  - destruct (Ascii.eqb a sep) eqn:Ha.
    + rewrite elem_of_cons. intros [->|Hx]; [done | auto].
    + destruct (Split s sep) as [|h t]; [by rewrite list_elem_of_singleton; intros ->; simpl; rewrite Ha|].
      rewrite elem_of_cons. intros [->|Hx].
      * cbn [ContainsByte]. rewrite Ha, (IH h); [done | by constructor].
      * apply IH. by constructor.
Qed.

Lemma Split_app_sep s t sep :
  ContainsByte s sep = false → Split (s +:+ String sep t) sep = s :: Split t sep.
Proof.
  induction s as [|a s IH]; cbn [ContainsByte]; intros H; simpl.
  - by rewrite Ascii.eqb_refl.
  - destruct_bools. by rewrite IH, H.
Qed.

Lemma Split_app s t sep : Split (s +:+ String sep t) sep = Split s sep ++ Split t sep.
Proof.
  induction s as [|a s IH]; simpl; [by rewrite Ascii.eqb_refl|].
  rewrite IH. destruct (Ascii.eqb a sep); [done|].
  pose proof (Split_nonempty s sep). by destruct (Split s sep).
Qed.

Lemma Split_sep t sep : Split (String sep t) sep = "" :: Split t sep.
Proof. simpl. by rewrite Ascii.eqb_refl. Qed.

Lemma Split_none s sep : ContainsByte s sep = false → Split s sep = [s].
Proof.
  induction s as [|a s IH]; cbn [ContainsByte]; intros H; simpl; [done|].
  destruct_bools. by rewrite H, IH.
Qed.

Lemma Split_Join l sep :
  l ≠ [] → (∀ x, x ∈ l → ContainsByte x sep = false) →
  Split (Join l (String sep "")) sep = l.
Proof.
  induction l as [|x l IH]; [done|]. intros _ Hl.
  destruct l as [|y l].
  - apply Split_none, Hl. by constructor.
  - rewrite Join_cons by done. simpl (String sep "" +:+ _).
    rewrite Split_app_sep by (apply Hl; by constructor).
    f_equal. apply IH; [done|]. intros z Hz. apply Hl. by constructor.
Qed.

Lemma Split_length s sep : length (Split s sep) = S (CountByte s sep).
Proof.
  induction s as [|a s IH]; [done|]. cbn [Split CountByte].
  destruct (Ascii.eqb a sep); simpl; [by f_equal|].
  pose proof (Split_nonempty s sep). by destruct (Split s sep).
Qed.

(** ** Cut *)

Lemma Cut_found s sep before after :
  Cut s sep = (before, after, true) ↔
  s = before +:+ String sep after ∧ ContainsByte before sep = false.
Proof.
  revert before after. induction s as [|a s IH]; intros before after; cbn [Cut].
  - split; [done | by destruct before; intros [? _]].
  - destruct (Ascii.eqb_spec a sep) as [->|Hne].
    + split; [intros; by simplify_eq|]. intros [H1 H2]. destruct before as [|b before].
      * by simplify_eq/=.
      * simplify_eq/=. by rewrite Ascii.eqb_refl in H2.
    + destruct (Cut s sep) as [[b' a'] f] eqn:Hc. split.
      * intros ?; simplify_eq. destruct (IH b' after) as [IH' _].
        destruct IH' as [-> Hb]; [done|]. split; [done|]. cbn [ContainsByte].
        rewrite Hb. by apply Ascii.eqb_neq in Hne as ->.
      * intros [H1 H2]. destruct before as [|b before]; [by simplify_eq/=|].
        simplify_eq/=. destruct_bools. destruct (IH before after) as [_ IH'].
        specialize (IH' (conj eq_refl H0)). by simplify_eq.
Qed.

Lemma Cut_not_found s sep before after :
  Cut s sep = (before, after, false) ↔
  before = s ∧ after = "" ∧ ContainsByte s sep = false.
Proof.
  revert before after. induction s as [|a s IH]; intros before after; cbn [Cut ContainsByte].
  - split; [intros; by simplify_eq | by intros (-> & -> & _)].
  - destruct (Ascii.eqb a sep); simpl; [split; [done | by intros (_ & _ & ?)]|].
    destruct (Cut s sep) as [[b' a'] f]. split.
    + intros ?; simplify_eq. by destruct (proj1 (IH b' after)) as (-> & -> & ?).
    + intros (-> & -> & H). pose proof (proj2 (IH s "") (conj eq_refl (conj eq_refl H))).
      by simplify_eq.
Qed.

Lemma cut_before_no_sep s sep : ContainsByte (cut_before s sep) sep = false.
Proof.
  unfold cut_before. destruct (Cut s sep) as [[b a] []] eqn:H; simpl.
  - by apply Cut_found in H as [_ ?].
  - by apply Cut_not_found in H as (-> & _ & ?).
Qed.

Lemma cut_before_id s sep : ContainsByte s sep = false → cut_before s sep = s.
Proof.
  intros H. unfold cut_before. by rewrite (proj2 (Cut_not_found s sep s "")).
Qed.

(** ** Prefixes *)

Lemma HasPrefix_spec s p : HasPrefix s p = true ↔ ∃ t, s = p +:+ t.
Proof.
  revert s. induction p as [|b p IH]; intros s.
  - split; [by exists s | by destruct s].
  - destruct s as [|a s]; [split; [done | by intros [t ?]]|].
    simpl. split.
    + intros H. destruct_bools. apply Ascii.eqb_eq in H as ->.
      apply IH in H0 as [t ->]. by exists t.
    + intros [t ?]; simplify_eq/=. rewrite Ascii.eqb_refl. apply IH. by exists t.
Qed.

Lemma drop_bytes_app s t : drop_bytes (String.length s) (s +:+ t) = t.
Proof. induction s as [|a s IH]; simpl; [by destruct t | done]. Qed.

Lemma TrimPrefix_app p t : TrimPrefix (p +:+ t) p = t.
Proof.
  unfold TrimPrefix. replace (HasPrefix (p +:+ t) p) with true.
  - apply drop_bytes_app.
  - symmetry. apply HasPrefix_spec. by exists t.
Qed.

(** ** Bytes that do not occur *)

Lemma ContainsByte_app s t c : ContainsByte (s +:+ t) c = ContainsByte s c || ContainsByte t c.
Proof. induction s as [|a s IH]; simpl; [done | by rewrite IH, orb_assoc]. Qed.

Lemma ContainsByte_ReplaceByte s old new c :
  c ≠ new → ContainsByte (ReplaceByte s old new) c = true → ContainsByte s c = true.
Proof.
  intros Hne. unfold ReplaceByte. induction s as [|a s IH]; simpl; [done|].
  rewrite !orb_true_iff. intros [H|H]; [|auto]. left.
  destruct (Ascii.eqb_spec a old); [|done]. apply Ascii.eqb_eq in H. congruence.
Qed.

Lemma ReplaceByte_absent s old new :
  old ≠ new → ContainsByte (ReplaceByte s old new) old = false.
Proof.
  intros Hne. unfold ReplaceByte. induction s as [|a s IH]; simpl; [done|].
  rewrite IH, orb_false_r. destruct (Ascii.eqb_spec a old); apply Ascii.eqb_neq; congruence.
Qed.

Lemma ReplaceByte_none s old new : ContainsByte s old = false → ReplaceByte s old new = s.
Proof.
  unfold ReplaceByte. induction s as [|a s IH]; simpl; [done|]. intros H. destruct_bools.
  by rewrite H, IH.
Qed.

(** ** Predicates on all bytes *)

Lemma string_all_ContainsByte s c :
  string_all (λ a, negb (Ascii.eqb a c)) s = negb (ContainsByte s c).
Proof. induction s as [|a s IH]; simpl; [done | by rewrite IH, negb_orb]. Qed.

Lemma string_all_Split p s sep x :
  string_all p s = true → x ∈ Split s sep → string_all p x = true.
Proof.
  revert x. induction s as [|a s IH]; intros x; cbn [Split string_all].
  - intros _. rewrite list_elem_of_singleton. by intros ->.
  - intros H. destruct_bools. destruct (Ascii.eqb a sep).
    + rewrite elem_of_cons. intros [->|Hx]; auto.
    + destruct (Split s sep) as [|h t]; [rewrite list_elem_of_singleton; intros ->; simpl; by rewrite H|].
      rewrite elem_of_cons. intros [->|Hx]; simpl.
      * rewrite H. apply IH; [done | by constructor].
      * apply IH; [done | by constructor].
Qed.

Lemma string_all_Join p l sep :
  string_all p sep = true → (∀ x, x ∈ l → string_all p x = true) →
  string_all p (Join l sep) = true.
Proof.
  intros Hsep. induction l as [|x l IH]; intros Hl; [done|].
  destruct l as [|y l]; [apply Hl; by constructor|].
  rewrite Join_cons by done. rewrite !string_all_app, Hsep, IH, (Hl x); [done|..].
  - by constructor.
  - intros z Hz. apply Hl. by constructor.
Qed.

Lemma string_all_map p f s :
  (∀ a, p a = true → p (f a) = true) → string_all p s = true → string_all p (string_map f s) = true.
Proof.
  intros Hf. induction s as [|a s IH]; simpl; [done|]. intros H. destruct_bools.
  by rewrite Hf, IH.
Qed.

Lemma ContainsByte_Join l sep c :
  ContainsByte sep c = false → (∀ x, x ∈ l → ContainsByte x c = false) →
  ContainsByte (Join l sep) c = false.
Proof.
  intros Hsep Hl. apply negb_true_iff. rewrite <-string_all_ContainsByte.
  apply string_all_Join; [|intros x Hx; specialize (Hl x Hx)];
    rewrite string_all_ContainsByte; by apply negb_true_iff.
Qed.

Lemma ContainsByte_Split s sep c x :
  ContainsByte s c = false → x ∈ Split s sep → ContainsByte x c = false.
Proof.
  intros Hs Hx. apply negb_true_iff. rewrite <-string_all_ContainsByte.
  eapply string_all_Split; [|done]. rewrite string_all_ContainsByte. by apply negb_true_iff.
Qed.

(** ** Suffixes *)

Lemma string_rev_app_app s t acc :
  string_rev_app (s +:+ t) acc = string_rev_app t (string_rev_app s acc).
Proof. revert acc. induction s as [|a s IH]; intros acc; simpl; [done | apply IH]. Qed.

Lemma HasSuffix_byte s c : HasSuffix (s +:+ String c "") (String c "") = true.
Proof. unfold HasSuffix. rewrite string_rev_app_app. simpl. rewrite Ascii.eqb_refl. by destruct (string_rev_app s ""). Qed.

(** ** Fields *)

Lemma FieldsByte_elem s sep x :
  x ∈ FieldsByte s sep ↔ x ∈ Split s sep ∧ x ≠ "".
Proof.
  unfold FieldsByte. rewrite !list_elem_of_In, List.filter_In, non_empty_true. done.
Qed.

#[global] Arguments Join : simpl never.
#[export] Hint Rewrite TrimSpace_idem ToLower_idem TrimSpace_ToLower EqualFold_refl : portlyn_simpl.

(** ** Numbers *)

Lemma FormatUint_digits n : string_all is_digit (FormatUint n) = true.
Proof.
  assert (∀ x s, string_all is_digit s = true → string_all is_digit (pretty_N_go x s) = true) as Hgo.
  { intros x. induction (N.lt_wf_0 x) as [x _ IH]; intros s Hs.
    destruct (decide (0 < x)%N) as [Hx|Hx].
    - rewrite pretty_N_go_step by done. apply IH; [by apply N.div_lt|].
      simpl. rewrite Hs, andb_true_r. unfold pretty_N_char. by repeat case_match.
    - by replace x with 0%N by lia. }
  unfold FormatUint, pretty, pretty_N. case_decide; [done|]. by apply Hgo.
Qed.

(** Two strings of one class of bytes, each followed by a byte outside it. *)
Lemma string_all_delim p s s' d d' r r' :
  string_all p s = true → string_all p s' = true → p d = false → p d' = false →
  s +:+ String d r = s' +:+ String d' r' → s = s' ∧ String d r = String d' r'.
Proof.
  intros Hs Hs' Hd Hd'. revert s' Hs Hs'.
  induction s as [|a s IH]; intros [|b s'] Hs Hs' Heq; simpl in *; simplify_eq; auto.
  - simpl in Hs'. by rewrite Hd in Hs'.
  - by rewrite Hd' in Hs.
  - destruct_bools. destruct (IH s') as [-> ?]; auto.
Qed.

Lemma string_all_impl (p q : ascii → bool) s :
  (∀ a, p a = true → q a = true) → string_all p s = true → string_all q s = true.
Proof. intros Hpq. induction s as [|a s IH]; simpl; [done|]. rewrite !andb_true_iff. intuition. Qed.
