(* ===== verification/Utf8Json.v ===== *)
(** UTF-8 and the part of encoding/json the audit chain signs with: [utf8.ValidString],
    [utf8.DecodeRuneInString], the string literal writer of [json.Marshal] (HTML
    escaping on, as the package has it by default), integers and null, and
    [bytes.ReplaceAll].  A Go string is the sequence of its bytes.

    The writer is proved injective on valid UTF-8, with a reader of string
    literals as the witness of what was written. *)
From S2P Require Import Prelude GoStrings.

#[local] Open Scope string_scope.
#[local] Open Scope list_scope.

(** * Definitions *)

Definition byte (a : ascii) : N := N_of_ascii a.
Definition chr (n : N) : ascii := ascii_of_N n.

Definition between (lo hi : N) (a : ascii) : bool := (lo <=? byte a)%N && (byte a <=? hi)%N.
Definition continuation (a : ascii) : bool := between 128 191 a.

(** The range the second byte must be in, by the first byte (the table
    [acceptRanges] of unicode/utf8). *)
Definition second_ok (c0 c1 : ascii) : bool :=
  if (byte c0 =? 224)%N then between 160 191 c1
  else if (byte c0 =? 237)%N then between 128 159 c1
  else if (byte c0 =? 240)%N then between 144 191 c1
  else if (byte c0 =? 244)%N then between 128 143 c1
  else continuation c1.

(** [DecodeRuneInString]: the number of bytes of the first rune, [None] when the
    encoding is invalid (the result [(RuneError, 1)]). *)
Definition rune_size (s : string) : option nat :=
  match s with
  | "" => None
  | String c0 s0 =>
      if (byte c0 <? 128)%N then Some 1 else
      match s0 with
      | "" => None
      | String c1 s1 =>
          if between 194 223 c0 then if continuation c1 then Some 2 else None else
          match s1 with
          | "" => None
          | String c2 s2 =>
              if between 224 239 c0 then
                if second_ok c0 c1 && continuation c2 then Some 3 else None else
              match s2 with
              | "" => None
              | String c3 _ =>
                  if between 240 244 c0 && second_ok c0 c1 && continuation c2 && continuation c3
                  then Some 4 else None
              end
          end
      end
  end.

Definition RuneError : string := String (chr 239) (String (chr 191) (String (chr 189) "")).

(** A string cut into the bytes of its runes; an invalid byte is a chunk marked [false]. *)
Fixpoint chunks (s : string) : list (bool * string) :=
  match s with
  | "" => []
  | String c0 s0 =>
      match rune_size s with
      | Some 1 => (true, String c0 "") :: chunks s0
      | Some 2 => match s0 with
                  | String c1 s1 => (true, String c0 (String c1 "")) :: chunks s1
                  | _ => [] end
      | Some 3 => match s0 with
                  | String c1 (String c2 s2) =>
                      (true, String c0 (String c1 (String c2 ""))) :: chunks s2
                  | _ => [] end
      | Some 4 => match s0 with
                  | String c1 (String c2 (String c3 s3)) =>
                      (true, String c0 (String c1 (String c2 (String c3 "")))) :: chunks s3
                  | _ => [] end
      | _ => (false, String c0 "") :: chunks s0
      end
  end.

Definition concat_strings (l : list string) : string := foldr String.append "" l.

Definition ValidString (s : string) : bool := forallb fst (chunks s).

(** ** json.Marshal *)

Definition hex_digit (n : N) : ascii := if (n <? 10)%N then chr (48 + n) else chr (87 + n).

(** What the encoder writes for an ASCII byte of a string. *)
Definition escape_ascii (c : ascii) : string :=
  let n := byte c in
  let bs := chr 92 in
  if (n =? 34)%N || (n =? 92)%N then String bs (String c "")
  else if (n =? 8)%N then String bs "b"
  else if (n =? 12)%N then String bs "f"
  else if (n =? 10)%N then String bs "n"
  else if (n =? 13)%N then String bs "r"
  else if (n =? 9)%N then String bs "t"
  else if (n <? 32)%N || (n =? 60)%N || (n =? 62)%N || (n =? 38)%N
  then String bs ("u00" +:+ String (hex_digit (n / 16)) (String (hex_digit (n mod 16)) ""))
  else String c "".

Definition line_separator : string := String (chr 226) (String (chr 128) (String (chr 168) "")).
Definition paragraph_separator : string := String (chr 226) (String (chr 128) (String (chr 169) "")).

Definition escape_chunk (c : bool * string) : string :=
  match c with
  | (false, _) => String (chr 92) "ufffd"
  | (true, String a "") => escape_ascii a
  | (true, s) =>
      if String.eqb s line_separator then String (chr 92) "u2028"
      else if String.eqb s paragraph_separator then String (chr 92) "u2029"
      else s
  end.

Definition json_string (s : string) : string :=
  String (chr 34) (concat_strings (escape_chunk <$> chunks s) +:+ String (chr 34) "").

Definition FormatInt (n : Z) : string := pretty n.

Definition json_optional (n : option Z) : string :=
  match n with None => "null" | Some n => FormatInt n end.

(** [bytes.ReplaceAll], for a non-empty [old]. *)
Fixpoint replace_from (skip : nat) (old new s : string) : string :=
  match s with
  | "" => ""
  | String c s' =>
      match skip with
      | S k => replace_from k old new s'
      | O => if HasPrefix s old then new +:+ replace_from (pred (String.length old)) old new s'
             else String c (replace_from 0 old new s')
      end
  end.

Definition ReplaceAll (s old new : string) : string := replace_from 0 old new s.

(** ** Reading a literal back *)

Definition hex_value (c : ascii) : N :=
  if between 48 57 c then byte c - 48 else if between 97 102 c then byte c - 87 else 0.

Fixpoint read_literal (s : string) : option (string * string) :=
  match s with
  | "" => None
  | String c s0 =>
      if (byte c =? 34)%N then Some ("", s0)
      else if (byte c =? 92)%N then
        match s0 with
        | "" => None
        | String e s1 =>
            let simple x := match read_literal s1 with
                            | Some (v, rest) => Some (String (chr x) v, rest)
                            | None => None end in
            if (byte e =? 117)%N then
              match s1 with
              | String h3 (String h2 (String h1 (String h0 s2))) =>
                  match read_literal s2 with
                  | None => None
                  | Some (v, rest) =>
                      if (hex_value h3 =? 2)%N
                      then Some (String (chr 226) (String (chr 128) (String (chr (160 + hex_value h0)) v)), rest)
                      else Some (String (chr (16 * hex_value h1 + hex_value h0)) v, rest)
                  end
              | _ => None
              end
            else if (byte e =? 98)%N then simple 8%N
            else if (byte e =? 102)%N then simple 12%N
            else if (byte e =? 110)%N then simple 10%N
            else if (byte e =? 114)%N then simple 13%N
            else if (byte e =? 116)%N then simple 9%N
            else simple (byte e)
        end
      else match read_literal s0 with
           | Some (v, rest) => Some (String c v, rest)
           | None => None end
  end.

(** * Lemmas *)

Lemma concat_strings_app l k : concat_strings (l ++ k) = concat_strings l +:+ concat_strings k.
Proof. induction l as [|a l IH]; simpl; [done|]. by rewrite IH, string_app_assoc. Qed.

(** A valid rune is recognised whatever follows it. *)
Lemma rune_size_app t n x : rune_size t = Some n → rune_size (t +:+ x) = Some n.
Proof.
  destruct t as [|c0 [|c1 [|c2 [|c3 t]]]]; simpl; try done;
    repeat (case_match; simplify_eq; try done).
Qed.

Lemma rune_size_bound t n : rune_size t = Some n → (1 ≤ n ≤ 4 ∧ n ≤ String.length t)%nat.
Proof.
  destruct t as [|c0 [|c1 [|c2 [|c3 t]]]]; simpl; try done;
    repeat (case_match; simplify_eq; try done); simpl; intros; simplify_eq; lia.
Qed.

Lemma chunks_rune t s :
  rune_size t = Some (String.length t) → chunks (t +:+ s) = (true, t) :: chunks s.
Proof.
  intros Ht. pose proof (rune_size_app _ _ s Ht) as Hs. pose proof (rune_size_bound _ _ Ht) as Hb.
  destruct t as [|c0 [|c1 [|c2 [|c3 [|c4 t]]]]]; simpl in Hb; try lia;
    cbn [String.append] in *; cbn [chunks]; rewrite Hs; done.
Qed.

(** Splitting off the first chunk. *)
Lemma chunks_step s :
  s ≠ "" → ∃ b t s', s = t +:+ s' ∧ chunks s = (b, t) :: chunks s' ∧ t ≠ "" ∧
    (b = true → rune_size t = Some (String.length t)).
Proof.
  intros Hs. destruct (rune_size s) as [n|] eqn:Hr.
  - pose proof (rune_size_bound _ _ Hr) as Hb.
    assert (∃ t s', s = t +:+ s' ∧ String.length t = n ∧ rune_size t = Some n) as (t & s' & -> & <- & Ht).
    { destruct s as [|c0 [|c1 [|c2 [|c3 s]]]]; simpl in Hr; try done;
        repeat (case_match; simplify_eq; try done);
        first [ by exists (String c0 ""); eexists; repeat split; simpl; repeat case_match; simplify_eq
              | by exists (String c0 (String c1 "")); eexists; repeat split; simpl; repeat case_match; simplify_eq
              | by exists (String c0 (String c1 (String c2 ""))); eexists; repeat split; simpl; repeat case_match; simplify_eq
              | by exists (String c0 (String c1 (String c2 (String c3 "")))); eexists; repeat split; simpl; repeat case_match; simplify_eq ]. }
    exists true, t, s'. rewrite chunks_rune by done. repeat split; try done. by intros ->.
  - destruct s as [|c s]; [done|]. exists false, (String c ""), s.
    repeat split; try done. cbn [chunks]. by rewrite Hr.
Qed.

(** Induction along the chunks of a string. *)
Lemma chunks_ind (P : string → list (bool * string) → Prop) :
  P "" [] →
  (∀ b t s, t ≠ "" → (b = true → rune_size t = Some (String.length t)) →
     P s (chunks s) → P (t +:+ s) ((b, t) :: chunks s)) →
  ∀ s, P s (chunks s).
Proof.
  intros Hnil Hstep s. remember (String.length s) as n eqn:Hn.
  revert s Hn. induction (lt_wf n) as [n _ IH]; intros s ->.
  destruct (decide (s = "")) as [->|Hs]; [exact Hnil|].
  destruct (chunks_step s Hs) as (b & t & s' & -> & -> & Ht & Hb).
  apply Hstep; auto. eapply IH; [|done]. rewrite string_app_length.
  destruct t; [done|]. simpl. lia.
Qed.

Lemma chunks_concat s : concat_strings (snd <$> chunks s) = s.
Proof.
  apply (chunks_ind (λ s l, concat_strings (snd <$> l) = s)); [done|].
  intros b t s' _ _ IH. rewrite fmap_cons. unfold concat_strings in *. cbn [foldr snd]. by f_equal.
Qed.

Lemma ValidString_app_rune t s :
  rune_size t = Some (String.length t) → ValidString (t +:+ s) = ValidString s.
Proof. intros Ht. unfold ValidString. by rewrite chunks_rune. Qed.

Definition high (a : ascii) : bool := (128 <=? byte a)%N.

Lemma between_high lo hi a : (128 <= lo)%N → between lo hi a = true → high a = true.
Proof. unfold between, high. intros ? [H _]%andb_true_iff. rewrite !N.leb_le in *. lia. Qed.

Lemma second_ok_high c0 c1 : second_ok c0 c1 = true → high c1 = true.
Proof. unfold second_ok, continuation. repeat case_match; apply between_high; lia. Qed.

Lemma rune_shape t :
  rune_size t = Some (String.length t) →
  (∃ a, t = String a "" ∧ high a = false) ∨ (2 ≤ String.length t ∧ string_all high t = true)%nat.
Proof.
  destruct t as [|c0 [|c1 [|c2 [|c3 [|c4 t]]]]]; simpl; try done;
    repeat (case_match; simplify_eq; try done); intros; simplify_eq;
    destruct_bools;
    first [ left; eexists; split; [done|]; unfold high; rewrite N.leb_gt; by apply N.ltb_lt
          | right; split; [lia|] ];
    unfold continuation in *;
    repeat match goal with
    | H : between _ _ ?c = true |- _ => apply between_high in H; [|lia]
    | H : second_ok _ _ = true |- _ => apply second_ok_high in H
    end;
    repeat match goal with H : high _ = true |- _ => rewrite H; clear H end; try done.
Qed.

(** ** The literal writer is injective *)

Lemma read_ascii a rest :
  high a = false →
  read_literal (escape_ascii a +:+ rest) =
  match read_literal rest with Some (v, r) => Some (String a v, r) | None => None end.
Proof. destruct a as [[] [] [] [] [] [] [] []]; intros H; try discriminate H; reflexivity. Qed.

Lemma read_high t rest :
  string_all high t = true →
  read_literal (t +:+ rest) =
  match read_literal rest with Some (v, r) => Some (t +:+ v, r) | None => None end.
Proof.
  induction t as [|a t IH]; simpl; intros H; [by destruct (read_literal rest) as [[]|]|].
  apply andb_true_iff in H as [Ha Ht]. unfold high in Ha. apply N.leb_le in Ha.
  rewrite (proj2 (N.eqb_neq (byte a) 34)) by lia. rewrite (proj2 (N.eqb_neq (byte a) 92)) by lia.
  rewrite IH by done. by destruct (read_literal rest) as [[]|].
Qed.

Lemma read_chunk t rest :
  rune_size t = Some (String.length t) →
  read_literal (escape_chunk (true, t) +:+ rest) =
  match read_literal rest with Some (v, r) => Some (t +:+ v, r) | None => None end.
Proof.
  intros [(a & -> & Ha)|[Hl Hh]]%rune_shape; [by apply read_ascii|].
  destruct t as [|a [|b t]]; [simpl in Hl; lia..|]. cbn [escape_chunk].
  destruct (String.eqb_spec (String a (String b t)) line_separator) as [->|_]; [done|].
  destruct (String.eqb_spec (String a (String b t)) paragraph_separator) as [->|_]; [done|].
  by apply read_high.
Qed.

Lemma read_written s rest :
  ValidString s = true →
  read_literal (concat_strings (escape_chunk <$> chunks s) +:+ String (chr 34) rest) = Some (s, rest).
Proof.
  unfold ValidString.
  apply (chunks_ind (λ s l, forallb fst l = true →
    read_literal (concat_strings (escape_chunk <$> l) +:+ String (chr 34) rest) = Some (s, rest)));
    [done|].
  intros [] t s' _ Hr IH Hv; [|done]. simpl in Hv. specialize (IH Hv). specialize (Hr eq_refl).
  change (concat_strings (escape_chunk <$> (true, t) :: chunks s'))
    with (escape_chunk (true, t) +:+ concat_strings (escape_chunk <$> chunks s')).
  rewrite string_app_assoc, read_chunk, IH by done. done.
Qed.

Lemma json_string_inj s s' r r' :
  ValidString s = true → ValidString s' = true →
  json_string s +:+ r = json_string s' +:+ r' → s = s' ∧ r = r'.
Proof.
  intros Hs Hs' Heq. unfold json_string in Heq. cbn [String.append] in Heq.
  apply (f_equal (drop_bytes 1)) in Heq. cbn [drop_bytes] in Heq. rewrite !string_app_assoc in Heq. cbn [String.append] in Heq.
  pose proof (read_written s r Hs) as H1. pose proof (read_written s' r' Hs') as H2.
  rewrite Heq in H1. rewrite H2 in H1. by simplify_eq.
Qed.

(** ** Numbers *)

Definition number_byte (a : ascii) : bool := is_digit a || Ascii.eqb a "-" || ContainsByte "nul" a.

Lemma FormatInt_bytes n : string_all number_byte (FormatInt n) = true.
Proof.
  assert (∀ p, string_all number_byte (pretty (Npos p)) = true) as Hp.
  { intros p. eapply string_all_impl; [|apply (FormatUint_digits (Npos p))].
    intros a Ha. unfold number_byte. by rewrite Ha. }
  destruct n; [done | apply Hp | apply Hp].
Qed.

Lemma json_optional_bytes n : string_all number_byte (json_optional n) = true.
Proof. destruct n; [apply FormatInt_bytes | done]. Qed.

Lemma FormatInt_not_null n : FormatInt n ≠ "null".
Proof.
  assert (∀ p, pretty (Npos p) ≠ "null") as Hp.
  { intros p Heq. pose proof (FormatUint_digits (Npos p)) as H. unfold FormatUint in H. by rewrite Heq in H. }
  destruct n; [done | apply Hp |]. intros [=].
Qed.

Lemma json_optional_inj n n' : json_optional n = json_optional n' → n = n'.
Proof.
  destruct n, n'; simpl; intros H; try done.
  - f_equal. by apply (inj pretty).
  - by apply FormatInt_not_null in H.
  - symmetry in H. by apply FormatInt_not_null in H.
Qed.

(** Members of an object, each followed by a comma or the closing brace. *)

Lemma json_int_inj n n' d d' r r' :
  number_byte d = false → number_byte d' = false →
  FormatInt n +:+ String d r = FormatInt n' +:+ String d' r' → n = n' ∧ String d r = String d' r'.
Proof.
  intros Hd Hd' H. apply (string_all_delim number_byte) in H as [H ?]; auto using FormatInt_bytes.
  split; [|done]. by apply (inj pretty).
Qed.

Lemma json_optional_delim_inj n n' d d' r r' :
  number_byte d = false → number_byte d' = false →
  json_optional n +:+ String d r = json_optional n' +:+ String d' r' →
  n = n' ∧ String d r = String d' r'.
Proof.
  intros Hd Hd' H. apply (string_all_delim number_byte) in H as [H ?]; auto using json_optional_bytes.
  split; [|done]. by apply json_optional_inj.
Qed.
