(* ===== verification/Netip.v ===== *)
(** IP addresses and prefixes: the part of packages [net/netip], [net] and [strconv]
    the sources call.

    An address is a 32-bit or 128-bit number, the latter with a zone, or the
    zero [Addr]; a prefix is an address with a number of leading bits.  The
    predicates follow Go 1.26 (go.mod), which unmaps IPv4-mapped IPv6 addresses
    before classifying them. *)
From S2P Require Import Prelude GoStrings.

#[local] Open Scope Z_scope.

(** * Addresses *)

Inductive Addr : Type :=
| AddrZero                                   (* netip.Addr{} *)
| Addr4 (n : Z)
| Addr6 (n : Z) (zone : string).

#[global] Instance Addr_eq_dec : EqDecision Addr.
Proof. solve_decision. Defined.

(** An address as [netip] builds it: its number fits its width. *)
Definition addr_wf (a : Addr) : Prop :=
  match a with
  | AddrZero => True
  | Addr4 n => 0 ≤ n < 2 ^ 32
  | Addr6 n _ => 0 ≤ n < 2 ^ 128
  end.

Definition IsValid (a : Addr) : bool := match a with AddrZero => false | _ => true end.
Definition Is4 (a : Addr) : bool := match a with Addr4 _ => true | _ => false end.
Definition Is6 (a : Addr) : bool := match a with Addr6 _ _ => true | _ => false end.
Definition BitLen (a : Addr) : Z :=
  match a with AddrZero => 0 | Addr4 _ => 32 | Addr6 _ _ => 128 end.
Definition addr_num (a : Addr) : Z :=
  match a with AddrZero => 0 | Addr4 n => n | Addr6 n _ => n end.
Definition hasZone (a : Addr) : bool :=
  match a with Addr6 _ z => non_empty z | _ => false end.

(** [Is4In6]: the first 96 bits are ::ffff. *)
Definition Is4In6 (a : Addr) : bool :=
  match a with Addr6 n _ => Z.shiftr n 32 =? 65535 | _ => false end.

Definition Unmap (a : Addr) : Addr :=
  match a with
  | Addr6 n _ => if Z.shiftr n 32 =? 65535 then Addr4 (n mod 2 ^ 32) else a
  | _ => a
  end.

(** Byte [i] of an IPv4 number and 16-bit group [i] of an IPv6 number, counted
    from the most significant. *)
Definition v4byte (n i : Z) : Z := Z.shiftr n (24 - 8 * i) mod 256.
Definition v6byte (n i : Z) : Z := Z.shiftr n (120 - 8 * i) mod 256.
Definition v6u16 (n i : Z) : Z := Z.shiftr n (112 - 16 * i) mod 65536.

Definition IsUnspecified (a : Addr) : bool :=
  match a with Addr4 n => n =? 0 | Addr6 n z => (n =? 0) && negb (non_empty z) | AddrZero => false end.

Definition IsLoopback (a : Addr) : bool :=
  match Unmap a with
  | Addr4 n => v4byte n 0 =? 127
  | Addr6 n _ => n =? 1
  | AddrZero => false
  end.

Definition IsMulticast (a : Addr) : bool :=
  match Unmap a with
  | Addr4 n => Z.land (v4byte n 0) 240 =? 224
  | Addr6 n _ => v6byte n 0 =? 255
  | AddrZero => false
  end.

Definition IsLinkLocalUnicast (a : Addr) : bool :=
  match Unmap a with
  | Addr4 n => (v4byte n 0 =? 169) && (v4byte n 1 =? 254)
  | Addr6 n _ => Z.land (v6u16 n 0) 65472 =? 65152
  | AddrZero => false
  end.

Definition IsLinkLocalMulticast (a : Addr) : bool :=
  match Unmap a with
  | Addr4 n => (v4byte n 0 =? 224) && (v4byte n 1 =? 0) && (v4byte n 2 =? 0)
  | Addr6 n _ => Z.land (v6u16 n 0) 65295 =? 65282
  | AddrZero => false
  end.

Definition IsInterfaceLocalMulticast (a : Addr) : bool :=
  match a with
  | Addr6 n _ => negb (Is4In6 a) && (Z.land (v6u16 n 0) 65295 =? 65281)
  | _ => false
  end.

Definition IsPrivate (a : Addr) : bool :=
  match Unmap a with
  | Addr4 n =>
      (v4byte n 0 =? 10)
      || ((v4byte n 0 =? 172) && (Z.land (v4byte n 1) 240 =? 16))
      || ((v4byte n 0 =? 192) && (v4byte n 1 =? 168))
  | Addr6 n _ => Z.land (v6byte n 0) 254 =? 252
  | AddrZero => false
  end.

(** * Prefixes *)

Record Prefix := mkPrefix { p_addr : Addr; p_bits : Z }.

#[global] Instance Prefix_eq_dec : EqDecision Prefix.
Proof. solve_decision. Defined.

Definition prefix_valid (p : Prefix) : bool :=
  IsValid (p_addr p) && (0 <=? p_bits p) && (p_bits p <=? BitLen (p_addr p)).

(** [PrefixFrom]: the zone is dropped; an out-of-range length gives -1. *)
Definition PrefixFrom (a : Addr) (bits : Z) : Prefix :=
  let a' := match a with Addr6 n _ => Addr6 n "" | _ => a end in
  if IsValid a && (0 <=? bits) && (bits <=? BitLen a) then mkPrefix a' bits
  else mkPrefix a' (-1).

Definition mask_num (width bits n : Z) : Z :=
  Z.shiftl (Z.shiftr n (width - bits)) (width - bits).

Definition Masked (p : Prefix) : Prefix :=
  if prefix_valid p then
    match p_addr p with
    | Addr4 n => mkPrefix (Addr4 (mask_num 32 (p_bits p) n)) (p_bits p)
    | Addr6 n _ => mkPrefix (Addr6 (mask_num 128 (p_bits p) n) "") (p_bits p)
    | AddrZero => mkPrefix AddrZero 0
    end
  else mkPrefix AddrZero 0.

(** [Prefix.Contains]: never across families, never for a zoned address. *)
Definition PrefixContains (p : Prefix) (ip : Addr) : bool :=
  prefix_valid p && negb (hasZone ip) && IsValid ip
  && (BitLen (p_addr p) =? BitLen ip)
  && (Z.shiftr (addr_num (p_addr p)) (BitLen ip - p_bits p)
      =? Z.shiftr (addr_num ip) (BitLen ip - p_bits p)).

(** * Parsing *)

Definition digit_val (a : ascii) : Z := Z.of_nat (nat_of_ascii a) - 48.

Fixpoint dec_val (acc : Z) (s : string) : Z :=
  match s with
  | EmptyString => acc
  | String a s' => dec_val (acc * 10 + digit_val a) s'
  end.

(** A decimal number of at most [max]; a leading zero only in "0". *)
Definition parse_dec (max : Z) (s : string) : option Z :=
  match s with
  | EmptyString => None
  | String a s' =>
      if string_all is_digit s && (negb (Ascii.eqb a "0") || negb (non_empty s'))
         && (dec_val 0 s <=? max)
      then Some (dec_val 0 s) else None
  end.

Definition parse_octet : string → option Z := parse_dec 255.

Definition parseIPv4Fields (s : string) : option Z :=
  match Split s "." with
  | [a; b; c; d] =>
      match parse_octet a, parse_octet b, parse_octet c, parse_octet d with
      | Some a, Some b, Some c, Some d => Some (a * 2 ^ 24 + b * 2 ^ 16 + c * 2 ^ 8 + d)
      | _, _, _, _ => None
      end
  | _ => None
  end.

Definition hex_val (a : ascii) : option Z :=
  let n := Z.of_nat (nat_of_ascii a) in
  if (48 <=? n) && (n <=? 57) then Some (n - 48)
  else if (97 <=? n) && (n <=? 102) then Some (n - 87)
  else if (65 <=? n) && (n <=? 70) then Some (n - 55)
  else None.

(** The leading hex digits of [s]: how many, their value, the rest. *)
Fixpoint hex_run (acc : Z) (count : nat) (s : string) : nat * Z * string :=
  match s with
  | EmptyString => (count, acc, "")
  | String a s' =>
      match hex_val a with
      | Some d => hex_run (acc * 16 + d) (S count) s'
      | None => (count, acc, s)
      end
  end.

(** The field loop of [parseIPv6].  [groups] are the 16-bit groups read so far,
    last first; [ellipsis] is the number of groups before "::".  A pass adds at
    least one group and at most eight are allowed, so nine passes of fuel are
    enough. *)
Fixpoint parse6_loop (fuel : nat) (s : string) (groups : list Z) (ellipsis : option nat)
    : option (list Z * option nat) :=
  match fuel with
  | O => None
  | S fuel' =>
      if (8 <=? length groups)%nat then (if non_empty s then None else Some (groups, ellipsis))
      else
      let '(count, v, rest) := hex_run 0 0 s in
      if (count =? 0)%nat || (4 <? count)%nat then None
      else
      match rest with
      | String "." _ =>
          let i := length groups in
          if (match ellipsis with None => negb (i =? 6)%nat | Some _ => false end)
             || (8 <? i + 2)%nat then None
          else match parseIPv4Fields s with
               | Some n => Some ((n mod 2 ^ 16) :: (n / 2 ^ 16) :: groups, ellipsis)
               | None => None
               end
      | EmptyString => Some (v :: groups, ellipsis)
      | String ":" (EmptyString) => None
      | String ":" (String ":" rest') =>
          match ellipsis with
          | Some _ => None
          | None =>
              let e := Some (S (length groups)) in
              if non_empty rest' then parse6_loop fuel' rest' (v :: groups) e
              else Some (v :: groups, e)
          end
      | String ":" rest' => parse6_loop fuel' rest' (v :: groups) ellipsis
      | _ => None
      end
  end.

Definition groups_num (l : list Z) : Z := fold_left (λ acc g, acc * 65536 + g) l 0.

Definition expand6 (groups : list Z) (ellipsis : option nat) : option Z :=
  let l := rev groups in
  if (length l =? 8)%nat then
    match ellipsis with None => Some (groups_num l) | Some _ => None end
  else match ellipsis with
       | None => None
       | Some e => Some (groups_num (take e l ++ replicate (8 - length l) 0 ++ drop e l))
       end.

Definition parseIPv6 (s : string) : option Addr :=
  let '(body, zone, found) := Cut s "%" in
  if found && negb (non_empty zone) then None
  else
  let run := match body with
             | String ":" (String ":" rest) =>
                 if non_empty rest then parse6_loop 9 rest [] (Some 0%nat) else Some ([], Some 0%nat)
             | _ => parse6_loop 9 body [] None
             end in
  match run with
  | None => None
  | Some (groups, ellipsis) =>
      match expand6 groups ellipsis with
      | Some n => Some (Addr6 n zone)
      | None => None
      end
  end.

(** [ParseAddr] looks for the first of '.', ':' and '%'. *)
Fixpoint parse_addr_kind (s whole : string) : option Addr :=
  match s with
  | EmptyString => None
  | String "." _ => match parseIPv4Fields whole with Some n => Some (Addr4 n) | None => None end
  | String ":" _ => parseIPv6 whole
  | String "%" _ => None
  | String _ s' => parse_addr_kind s' whole
  end.
Definition ParseAddr (s : string) : option Addr := parse_addr_kind s s.

(** The bytes before and after the last occurrence of [c]. *)
Fixpoint cut_last (s : string) (c : ascii) : option (string * string) :=
  match s with
  | EmptyString => None
  | String a s' =>
      match cut_last s' c with
      | Some (b, e) => Some (String a b, e)
      | None => if Ascii.eqb a c then Some ("", s') else None
      end
  end.

Definition ParsePrefix (s : string) : option Prefix :=
  match cut_last s "/" with
  | None => None
  | Some (ipstr, bitsstr) =>
      match ParseAddr ipstr with
      | None => None
      | Some ip =>
          if hasZone ip then None
          else match parse_dec (BitLen ip) bitsstr with
               | Some bits => Some (PrefixFrom ip bits)
               | None => None
               end
      end
  end.

(** [net.SplitHostPort]: the host, or nothing on an error. *)
Definition SplitHostPort (hostport : string) : option (string * string) :=
  match cut_last hostport ":" with
  | None => None
  | Some (before, port) =>
      match before with
      | String "[" inner =>
          (* the bracket must close right before the last colon *)
          match Cut inner "]" with
          | (host, EmptyString, true) =>
              if ContainsByte host "[" || ContainsByte port "[" || ContainsByte port "]"
              then None else Some (host, port)
          | _ => None
          end
      | _ =>
          if ContainsByte before ":" || ContainsByte hostport "[" || ContainsByte hostport "]"
          then None else Some (before, port)
      end
  end.

(** * Printing (IPv4) *)

Definition string4 (n : Z) : string :=
  pretty (v4byte n 0) +:+ "." +:+ pretty (v4byte n 1) +:+ "."
  +:+ pretty (v4byte n 2) +:+ "." +:+ pretty (v4byte n 3).

#[global] Arguments string4 : simpl never.

(** * Printing (IPv6) *)

Definition hex_char (d : Z) : ascii := ascii_of_nat (Z.to_nat (if d <? 10 then 48 + d else 87 + d)).

(** A 16-bit group in hexadecimal, without leading zeros. *)
Definition hex_u16 (g : Z) : string :=
  let d i := String (hex_char (Z.shiftr g (4 * i) mod 16)) "" in
  if g <? 16 then d 0
  else if g <? 256 then d 1 +:+ d 0
  else if g <? 4096 then d 2 +:+ d 1 +:+ d 0
  else d 3 +:+ d 2 +:+ d 1 +:+ d 0.

Fixpoint zero_run (groups : list Z) : nat :=
  match groups with 0 :: rest => S (zero_run rest) | _ => O end.

(** The first longest run of at least two zero groups: its start and length. *)
Fixpoint longest_run (i : nat) (groups : list Z) (best : nat * nat) : nat * nat :=
  match groups with
  | [] => best
  | _ :: rest =>
      let l := zero_run groups in
      longest_run (S i) rest (if (2 <=? l)%nat && (best.2 <? l)%nat then (i, l) else best)
  end.

Definition string6 (n : Z) : string :=
  let groups := v6u16 n <$> [0; 1; 2; 3; 4; 5; 6; 7] in
  let '(start, len) := longest_run 0 groups (0%nat, 0%nat) in
  if (len =? 0)%nat then Join (hex_u16 <$> groups) ":"
  else Join (hex_u16 <$> take start groups) ":" +:+ "::" +:+ Join (hex_u16 <$> drop (start + len) groups) ":".

(** [Addr.String]. *)
Definition AddrString (a : Addr) : string :=
  let suffix zone := if non_empty zone then "%" +:+ zone else "" in
  match a with
  | AddrZero => "invalid IP"
  | Addr4 n => string4 n
  | Addr6 n zone =>
      (if Is4In6 a then "::ffff:" +:+ string4 (n mod 2 ^ 32) else string6 n) +:+ suffix zone
  end.

(** [Prefix.String]. *)
Definition PrefixString (p : Prefix) : string :=
  if prefix_valid p then AddrString (p_addr p) +:+ "/" +:+ pretty (p_bits p) else "invalid Prefix".

Example string6_documentation : AddrString (default AddrZero (ParseAddr "2001:db8:0:0:1:0:0:1")) = "2001:db8::1:0:0:1".
Proof. vm_compute. reflexivity. Qed.
Example string6_short : AddrString (default AddrZero (ParseAddr "::1")) = "::1".
Proof. vm_compute. reflexivity. Qed.

(** * strconv *)

Definition digit_in (base : Z) (a : ascii) : option Z :=
  match hex_val a with
  | Some d => if d <? base then Some d else None
  | None => None
  end.

Fixpoint digits_val (base acc : Z) (s : string) : option Z :=
  match s with
  | EmptyString => Some acc
  | String a s' => match digit_in base a with Some d => digits_val base (acc * base + d) s' | None => None end
  end.

(** [strconv.ParseUint(s, base, 64)] for an explicit base of 8, 10 or 16. *)
Definition ParseUint (s : string) (base : Z) : option Z :=
  if non_empty s then
    match digits_val base 0 s with
    | Some v => if v <? 2 ^ 64 then Some v else None
    | None => None
    end
  else None.

(** * Lemmas *)

(** A fact about every byte, by evaluation. *)
Lemma byte_cases (P : Z → bool) x :
  forallb P (seqZ 0 256) = true → 0 ≤ x < 256 → P x = true.
Proof. rewrite forallb_forall_elem. intros H Hx. apply H, elem_of_seqZ. lia. Qed.

Lemma bytes_num n :
  0 ≤ n < 2 ^ 32 →
  v4byte n 0 * 2 ^ 24 + v4byte n 1 * 2 ^ 16 + v4byte n 2 * 2 ^ 8 + v4byte n 3 = n.
Proof.
  intros Hn. unfold v4byte. rewrite !Z.shiftr_div_pow2 by lia.
  change (2 ^ (24 - 8 * 0)) with 16777216. change (2 ^ (24 - 8 * 1)) with 65536.
  change (2 ^ (24 - 8 * 2)) with 256. change (2 ^ (24 - 8 * 3)) with 1.
  change (2 ^ 24) with 16777216. change (2 ^ 16) with 65536. change (2 ^ 8) with 256.
  change (2 ^ 32) with 4294967296 in Hn.
  Z.to_euclidean_division_equations. lia.
Qed.

Lemma v4byte_bound n i : 0 ≤ v4byte n i < 256.
Proof. unfold v4byte. apply Z.mod_pos_bound. lia. Qed.

Lemma parse_octet_pretty b : 0 ≤ b < 256 → parse_octet (pretty b) = Some b.
Proof.
  intros Hb. pose proof (byte_cases (λ b, bool_decide (parse_octet (pretty b) = Some b)) b) as H.
  apply (bool_decide_eq_true (parse_octet (pretty b) = Some b)), H; [vm_compute; reflexivity | done].
Qed.

Lemma octet_no_sep b c : 0 ≤ b < 256 → c = "."%char ∨ c = ":"%char ∨ c = "%"%char ∨ c = "/"%char ∨ c = ","%char →
  ContainsByte (pretty b) c = false.
Proof.
  intros Hb Hc.
  pose proof (byte_cases (λ b : Z, forallb (λ c, negb (ContainsByte (pretty b) c)) ["."; ":"; "%"; "/"; ","]%char) b) as H.
  specialize (H ltac:(vm_compute; reflexivity) Hb). cbv beta in H.
  rewrite forallb_forall_elem in H. apply negb_true_iff, H. set_solver.
Qed.

Lemma string4_join n :
  string4 n = Join (pretty <$> [v4byte n 0; v4byte n 1; v4byte n 2; v4byte n 3]) ".".
Proof. done. Qed.

Lemma string4_Split n :
  Split (string4 n) "." = pretty <$> [v4byte n 0; v4byte n 1; v4byte n 2; v4byte n 3].
Proof.
  rewrite string4_join. apply Split_Join; [done|]. apply Forall_forall, Forall_fmap.
  repeat constructor; apply octet_no_sep; auto using v4byte_bound.
Qed.

Lemma parseIPv4Fields_string4 n : 0 ≤ n < 2 ^ 32 → parseIPv4Fields (string4 n) = Some n.
Proof.
  intros Hn. unfold parseIPv4Fields. rewrite string4_Split. cbn [fmap list_fmap].
  rewrite !parse_octet_pretty by apply v4byte_bound. f_equal. by apply bytes_num.
Qed.

Lemma parse_addr_kind_digits s t whole :
  string_all is_digit s = true →
  parse_addr_kind (s +:+ String "." t) whole =
  match parseIPv4Fields whole with Some n => Some (Addr4 n) | None => None end.
Proof.
  induction s as [|a s IH]; [done|]. intros [Ha Hs]%andb_true_iff.
  cbn [String.append]. destruct a as [[] [] [] [] [] [] [] []]; try discriminate Ha; by apply IH.
Qed.

Lemma octet_digits b : 0 ≤ b < 256 → string_all is_digit (pretty b) = true.
Proof. intros Hb. by apply (byte_cases (λ b, string_all is_digit (pretty b)) b); [vm_compute|]. Qed.

(** Printing and parsing an IPv4 address are inverse. *)
Lemma ParseAddr_string4 n : 0 ≤ n < 2 ^ 32 → ParseAddr (string4 n) = Some (Addr4 n).
Proof.
  intros Hn. unfold ParseAddr, string4 at 1.
  change ("." +:+ ?x) with (String "." x). rewrite parse_addr_kind_digits.
  - by rewrite parseIPv4Fields_string4.
  - apply octet_digits, v4byte_bound.
Qed.

Lemma string4_inj n m : 0 ≤ n < 2 ^ 32 → 0 ≤ m < 2 ^ 32 → string4 n = string4 m → n = m.
Proof.
  intros Hn Hm Heq. pose proof (ParseAddr_string4 n Hn) as H1. rewrite Heq, ParseAddr_string4 in H1 by done.
  congruence.
Qed.

(** Printing and parsing an unsigned number are inverse. *)
Lemma digits_val_FormatUint n : digits_val 10 0 (FormatUint n) = Some (Z.of_N n).
Proof.
  assert (∀ x s, digits_val 10 0 (pretty_N_go x s) = digits_val 10 (Z.of_N x) s) as Hgo.
  { intros x. induction (N.lt_wf_0 x) as [x _ IH]; intros s.
    destruct (decide (0 < x)%N) as [Hx|Hx].
    - rewrite pretty_N_go_step by done. rewrite IH by (by apply N.div_lt). cbn [digits_val].
      assert (digit_in 10 (pretty_N_char (x mod 10)) = Some (Z.of_N (x mod 10))) as ->.
      { pose proof (N.mod_lt x 10 ltac:(done)) as Hd. generalize dependent (x mod 10)%N. intros d Hd.
        assert (d = 0 ∨ d = 1 ∨ d = 2 ∨ d = 3 ∨ d = 4 ∨ d = 5 ∨ d = 6 ∨ d = 7 ∨ d = 8 ∨ d = 9)%N by lia.
        by destruct_or!; subst d. }
      f_equal. pose proof (N.div_mod x 10 ltac:(done)). lia.
    - by replace x with 0%N by lia. }
  unfold FormatUint, pretty, pretty_N. case_decide; [by subst|]. by rewrite Hgo.
Qed.

Lemma FormatUint_nonempty n : FormatUint n ≠ "".
Proof.
  intros Heq. pose proof (digits_val_FormatUint n) as H. rewrite Heq in H. cbn [digits_val] in H.
  assert (n = 0)%N as -> by (injection H as H; lia). by vm_compute in Heq.
Qed.

Lemma ParseUint_FormatUint n : (Z.of_N n < 2 ^ 64) → ParseUint (FormatUint n) 10 = Some (Z.of_N n).
Proof.
  intros Hn. unfold ParseUint. rewrite (proj2 (non_empty_true _) (FormatUint_nonempty n)).
  rewrite digits_val_FormatUint. by rewrite (proj2 (Z.ltb_lt _ _)).
Qed.
