(* ===== verification/Netguard.v ===== *)
(** Egress control: internal/netguard/netguard.go, the dial control of
    internal/proxy/transport.go and the URL checks of internal/http/upstream_validation.go.

    An upstream may not be a link-local, multicast, unspecified, shared or metadata
    address, in any of the spellings that reach one: IPv4-mapped, NAT64 and 6to4 IPv6,
    and the octal, hexadecimal and short dotted forms.  [url.Parse] and the resolver
    are parameters. *)
From S2P Require Import Prelude GoStrings Netip.

#[local] Open Scope Z_scope.

(** * Definitions *)

Definition BlockedHostNames : list string :=
  ["metadata.google.internal"; "metadata"; "metadata.goog"; "instance-data"; "instance-data.ec2.internal"].

Definition blockedCIDRs : list Prefix :=
  omap ParsePrefix
    ["169.254.0.0/16"; "fe80::/10"; "fd00:ec2::/32"; "224.0.0.0/4"; "ff00::/8";
     "255.255.255.255/32"; "0.0.0.0/8"; "::/128"; "100.64.0.0/10"].

Definition MustParsePrefix (s : string) : Prefix := default (mkPrefix AddrZero (-1)) (ParsePrefix s).
Definition nat64Prefix : Prefix := MustParsePrefix "64:ff9b::/96".
Definition sixToFourPrefix : Prefix := MustParsePrefix "2002::/16".

(** [AddrFrom4]: four bytes, most significant first. *)
Definition AddrFrom4 (a b c d : Z) : Addr := Addr4 (a * 2 ^ 24 + b * 2 ^ 16 + c * 2 ^ 8 + d).

Definition embeddedIPv4 (addr : Addr) : option Addr :=
  if negb (Is6 addr) then None
  else
    let b i := v6byte (addr_num addr) i in
    if PrefixContains nat64Prefix addr then Some (AddrFrom4 (b 12) (b 13) (b 14) (b 15))
    else if PrefixContains sixToFourPrefix addr then Some (AddrFrom4 (b 2) (b 3) (b 4) (b 5))
    else None.

Definition canonicalAddr (addr : Addr) : Addr :=
  let addr := Unmap addr in
  match embeddedIPv4 addr with Some embedded => embedded | None => addr end.

Definition IsBlockedHostName (host : string) : bool :=
  existsb (String.eqb (ToLower (TrimSpace host))) BlockedHostNames.

Definition IsBlockedAddr (addr : Addr) : bool :=
  if negb (IsValid addr) then true
  else
    let addr := canonicalAddr addr in
    if IsUnspecified addr || IsMulticast addr || IsLinkLocalUnicast addr || IsLinkLocalMulticast addr
       || IsInterfaceLocalMulticast addr then true
    else existsb (λ prefix, PrefixContains prefix addr) blockedCIDRs.

Definition IsBlockedAddrStrict (addr : Addr) : bool :=
  if IsBlockedAddr addr then true
  else let addr := canonicalAddr addr in IsLoopback addr || IsPrivate addr.

Definition Blocked (addr : Addr) (allowPrivate : bool) : bool :=
  if IsBlockedAddr addr then true
  else
    let canonical := canonicalAddr addr in
    if IsLoopback canonical then true
    else if allowPrivate then false
    else IsPrivate canonical.

Inductive dial_error := ErrInvalidDialAddress | ErrUnresolvedDialAddress | ErrDialBlocked.

(** The check before a connection is made, on the address the dialer resolved. *)
Definition dial_control (blocked : Addr → bool) (address : string) : result dial_error unit :=
  match SplitHostPort address with
  | None => Err ErrInvalidDialAddress
  | Some (host, _) =>
      match ParseAddr host with
      | None => Err ErrUnresolvedDialAddress
      | Some addr => if blocked addr then Err ErrDialBlocked else Ok tt
      end
  end.

Definition DialControl (allowPrivate : bool) (address : string) : result dial_error unit :=
  dial_control (λ addr, Blocked addr allowPrivate) address.

(** [makeDialControl] of the proxy's transport. *)
Definition makeDialControl (blockPrivate : bool) (address : string) : result dial_error unit :=
  dial_control (λ addr, if blockPrivate then IsBlockedAddrStrict addr else IsBlockedAddr addr) address.

(** ** Legacy spellings of IPv4 *)

Definition parseLegacyPart (part : string) : option Z :=
  if negb (non_empty part) then None
  else
    let '(base, part) :=
      if (2 <? String.length part)%nat && (HasPrefix part "0x" || HasPrefix part "0X")
      then (16, drop_bytes 2 part)
      else if (1 <? String.length part)%nat && HasPrefix part "0" then (8, drop_bytes 1 part)
      else (10, part) in
    ParseUint (if non_empty part then part else "0") base.

Definition u64 (n : Z) : Z := n mod 2 ^ 64.

Definition parseLegacyIPv4 (host : string) : option Addr :=
  if negb (non_empty host) then None
  else
    match mapM parseLegacyPart (Split host ".") with
    | None => None
    | Some values =>
        let n :=
          match values with
          | [a] => Some a
          | [a; b] => if (255 <? a) || (16777215 <? b) then None
                      else Some (Z.lor (u64 (Z.shiftl a 24)) b)
          | [a; b; c] => if (255 <? a) || (255 <? b) || (65535 <? c) then None
                         else Some (Z.lor (Z.lor (u64 (Z.shiftl a 24)) (u64 (Z.shiftl b 16))) c)
          | [a; b; c; d] => if existsb (λ v, 255 <? v) values then None
                            else Some (Z.lor (Z.lor (Z.lor (u64 (Z.shiftl a 24)) (u64 (Z.shiftl b 16)))
                                                    (u64 (Z.shiftl c 8))) d)
          | _ => None
          end in
        match n with
        | None => None
        | Some n =>
            if 4294967295 <? n then None
            else Some (AddrFrom4 (Z.shiftr n 24 mod 256) (Z.shiftr n 16 mod 256) (Z.shiftr n 8 mod 256) (n mod 256))
        end
    end.

(** ** Checking a configured URL *)

Inductive url_error := ErrURLInvalid | ErrURLScheme | ErrURLHostEmpty | ErrURLHostBlocked
  | ErrURLUnresolved | ErrURLResolvesBlocked.

Section urls.
(** [url.Parse]: the scheme and [Hostname()]; the configured resolver. *)
Variable url_Parse : string → option (string * string).
Variable resolveTargetHost : string → option (list Addr).

Definition validateTargetURL (raw : string) (blocked : Addr → bool) (strictResolve : bool)
  : result url_error unit :=
  match url_Parse (TrimSpace raw) with
  | None => Err ErrURLInvalid
  | Some (scheme, hostname) =>
      if negb (String.eqb scheme "http") && negb (String.eqb scheme "https") then Err ErrURLScheme
      else
        let host := ToLower (TrimSpace hostname) in
        if negb (non_empty host) then Err ErrURLHostEmpty
        else if IsBlockedHostName host then Err ErrURLHostBlocked
        else
          match ParseAddr host with
          | Some addr => if blocked addr then Err ErrURLHostBlocked else Ok tt
          | None =>
              match parseLegacyIPv4 host with
              | Some addr => if blocked addr then Err ErrURLHostBlocked else Ok tt
              | None =>
                  match resolveTargetHost host with
                  | None => if strictResolve then Err ErrURLUnresolved else Ok tt
                  | Some addrs => if existsb blocked addrs then Err ErrURLResolvesBlocked else Ok tt
                  end
              end
          end
  end.

Definition validateServiceTargetURL (raw : string) : result url_error unit :=
  validateTargetURL raw IsBlockedAddr false.

Definition validateOutboundURL (raw : string) (allowPrivate : bool) : result url_error unit :=
  validateTargetURL raw (λ addr, Blocked addr allowPrivate) true.
End urls.

Example blocked_metadata : IsBlockedAddr (default AddrZero (ParseAddr "169.254.169.254")) = true.
Proof. vm_compute. reflexivity. Qed.
Example blocked_metadata_nat64 : IsBlockedAddr (default AddrZero (ParseAddr "64:ff9b::a9fe:a9fe")) = true.
Proof. vm_compute. reflexivity. Qed.
Example legacy_octal : parseLegacyIPv4 "0251.254.0xa9.0376" = ParseAddr "169.254.169.254".
Proof. vm_compute. reflexivity. Qed.

(** * Lemmas *)

Definition block4 (base bits : Z) : Prefix := mkPrefix (Addr4 base) bits.

Lemma blockedCIDRs_eq :
  blockedCIDRs = [block4 2851995648 16; mkPrefix (Addr6 (Z.shiftl 65152 112) "") 10;
    mkPrefix (Addr6 (Z.shiftl 4244639426 96) "") 32; block4 3758096384 4;
    mkPrefix (Addr6 (Z.shiftl 65280 112) "") 8; block4 4294967295 32; block4 0 8;
    mkPrefix (Addr6 0 "") 128; block4 1681915904 10].
Proof. vm_compute. reflexivity. Qed.

Lemma nat64Prefix_eq : nat64Prefix = mkPrefix (Addr6 (Z.shiftl 6619035 96) "") 96.
Proof. vm_compute. reflexivity. Qed.

Lemma sixToFourPrefix_eq : sixToFourPrefix = mkPrefix (Addr6 (Z.shiftl 8194 112) "") 16.
Proof. vm_compute. reflexivity. Qed.

Lemma contains4 base bits n :
  0 ≤ bits ≤ 32 →
  PrefixContains (block4 base bits) (Addr4 n) = (base / 2 ^ (32 - bits) =? n / 2 ^ (32 - bits)).
Proof.
  intros Hb. unfold PrefixContains, prefix_valid, block4. simpl.
  rewrite (proj2 (Z.leb_le 0 bits)), (proj2 (Z.leb_le bits 32)) by lia. simpl.
  by rewrite !Z.shiftr_div_pow2 by lia.
Qed.

Lemma contains64 base bits n : PrefixContains (mkPrefix (Addr6 base "") bits) (Addr4 n) = false.
Proof. unfold PrefixContains. simpl. by rewrite andb_false_r. Qed.

(** The sources' predicates, restricted to IPv4, fall in the ranges of the list. *)
Lemma multicast4 n : 0 ≤ n < 2 ^ 32 → IsMulticast (Addr4 n) = (224 <=? v4byte n 0) && (v4byte n 0 <=? 239).
Proof.
  intros _. unfold IsMulticast. simpl Unmap. cbv iota.
  pose proof (byte_cases (λ b, Bool.eqb (Z.land b 240 =? 224) ((224 <=? b) && (b <=? 239))) (v4byte n 0)
                ltac:(vm_compute; reflexivity) (v4byte_bound _ _)) as H.
  by apply Bool.eqb_prop in H.
Qed.

Lemma v4byte0 n : 0 ≤ n < 2 ^ 32 → v4byte n 0 = n / 2 ^ 24.
Proof.
  intros Hn. unfold v4byte. rewrite Z.shiftr_div_pow2 by lia. change (24 - 8 * 0) with 24.
  apply Z.mod_small. change (2 ^ 32) with (256 * 2 ^ 24) in Hn. split; [apply Z.div_pos; lia|].
  apply Z.div_lt_upper_bound; lia.
Qed.

Lemma v4byte01 n : 0 ≤ n < 2 ^ 32 → v4byte n 0 * 256 + v4byte n 1 = n / 2 ^ 16.
Proof.
  intros Hn. rewrite v4byte0 by done. unfold v4byte. rewrite Z.shiftr_div_pow2 by lia.
  change (24 - 8 * 1) with 16. change (2 ^ 24) with (2 ^ 16 * 256). rewrite <-Z.div_div by lia.
  pose proof (Z.div_mod (n / 2 ^ 16) 256). lia.
Qed.

(** The IPv4 addresses that may not be dialled. *)
Definition reserved4 (n : Z) : bool :=
  (n / 2 ^ 24 =? 0) ||                                     (* 0.0.0.0/8 *)
  (n / 2 ^ 22 =? 401) ||                                   (* 100.64.0.0/10 *)
  (n / 2 ^ 16 =? 43518) ||                                 (* 169.254.0.0/16 *)
  (n / 2 ^ 28 =? 14) ||                                    (* 224.0.0.0/4 *)
  (n =? 4294967295).                                       (* 255.255.255.255 *)

Lemma canonical4 n : canonicalAddr (Addr4 n) = Addr4 n.
Proof. done. Qed.

Lemma listed4 n :
  0 ≤ n < 2 ^ 32 → existsb (λ prefix, PrefixContains prefix (Addr4 n)) blockedCIDRs = reserved4 n.
Proof.
  intros Hn. rewrite blockedCIDRs_eq. cbn [existsb].
  rewrite !contains64, !contains4 by lia. unfold reserved4.
  change (32 - 16) with 16. change (32 - 4) with 28. change (32 - 32) with 0. change (32 - 8) with 24.
  change (32 - 10) with 22. change (2851995648 / 2 ^ 16) with 43518. change (3758096384 / 2 ^ 28) with 14.
  change (4294967295 / 2 ^ 0) with 4294967295. change (0 / 2 ^ 24) with 0. change (1681915904 / 2 ^ 22) with 401.
  change (2 ^ 0) with 1. rewrite Z.div_1_r.
  rewrite (Z.eqb_sym 43518), (Z.eqb_sym 14), (Z.eqb_sym 4294967295), (Z.eqb_sym 0), (Z.eqb_sym 401).
  rewrite !orb_false_l, !orb_false_r.
  destruct (n / 2 ^ 24 =? 0), (n / 2 ^ 22 =? 401), (n / 2 ^ 16 =? 43518), (n / 2 ^ 28 =? 14), (n =? 4294967295); done.
Qed.

Lemma classified4 n :
  0 ≤ n < 2 ^ 32 →
  IsUnspecified (Addr4 n) || IsMulticast (Addr4 n) || IsLinkLocalUnicast (Addr4 n)
    || IsLinkLocalMulticast (Addr4 n) || IsInterfaceLocalMulticast (Addr4 n) = true →
  reserved4 n = true.
Proof.
  intros Hn. pose proof (v4byte0 n Hn) as H0. pose proof (v4byte01 n Hn) as H1.
  pose proof (v4byte_bound n 0). pose proof (v4byte_bound n 1).
  rewrite multicast4 by done. unfold reserved4.
  assert (n / 2 ^ 28 = v4byte n 0 / 16) as H28.
  { rewrite H0. rewrite Z.div_div by lia. done. }
  rewrite !orb_true_iff, !andb_true_iff, !Z.leb_le, !Z.eqb_eq.
  unfold IsUnspecified, IsLinkLocalUnicast, IsLinkLocalMulticast, IsInterfaceLocalMulticast. simpl Unmap. cbv iota.
  rewrite !andb_true_iff, !Z.eqb_eq. intros [[[[->|Hm]|Hl]|Hl]|Hl]; [by left; left; left; left| | | |done].
  - left; right. rewrite H28. Z.to_euclidean_division_equations. lia.
  - left; left; right. lia.
  - left; right. rewrite H28. destruct Hl as [[-> _] _]. done.
Qed.

Lemma IsBlockedAddr4 n : 0 ≤ n < 2 ^ 32 → IsBlockedAddr (Addr4 n) = reserved4 n.
Proof.
  intros Hn. unfold IsBlockedAddr. simpl IsValid. cbv iota zeta. cbn [negb]. rewrite canonical4, listed4 by done.
  pose proof (classified4 n Hn) as Hc.
  destruct (IsUnspecified (Addr4 n) || _ || _ || _ || _); [|done]. by rewrite Hc.
Qed.

(** ** IPv6 spellings of an IPv4 address *)

Definition mapped (n : Z) (zone : string) : Addr := Addr6 (65535 * 2 ^ 32 + n) zone.
Definition nat64 (n : Z) : Addr := Addr6 (6619035 * 2 ^ 96 + n) "".
Definition sixToFour (n rest : Z) : Addr := Addr6 (8194 * 2 ^ 112 + n * 2 ^ 80 + rest) "".

Lemma canonical_mapped n zone : 0 ≤ n < 2 ^ 32 → canonicalAddr (mapped n zone) = Addr4 n.
Proof.
  intros Hn. unfold canonicalAddr, mapped, Unmap. rewrite Z.shiftr_div_pow2 by lia.
  rewrite Z.div_add_l, (Z.div_small n) by lia. simpl Z.eqb. cbv iota.
  rewrite Z.add_comm, Z.mod_add, Z.mod_small by lia. done.
Qed.


Lemma embedded_byte N n hi lo k b :
  0 ≤ lo < 2 ^ k → 0 ≤ k → 0 ≤ b ≤ 24 → 0 ≤ n < 2 ^ 32 →
  N = hi * 2 ^ (k + 32) + n * 2 ^ k + lo →
  Z.shiftr N (k + b) mod 256 = Z.shiftr n b mod 256.
Proof.
  intros Hlo Hk Hb Hn ->. rewrite <-Z.shiftr_shiftr by lia. rewrite (Z.shiftr_div_pow2 (_ + lo)) by lia.
  rewrite Z.pow_add_r by lia.
  replace (hi * (2 ^ k * 2 ^ 32) + n * 2 ^ k + lo) with ((hi * 2 ^ 32 + n) * 2 ^ k + lo) by ring.
  rewrite Z.div_add_l, (Z.div_small lo), Z.add_0_r by lia.
  rewrite !Z.shiftr_div_pow2 by lia.
  replace (hi * 2 ^ 32) with (hi * 2 ^ (32 - b) * 2 ^ b)
    by (rewrite <-Z.mul_assoc, <-Z.pow_add_r by lia; do 2 f_equal; lia).
  rewrite Z.div_add_l by lia.
  replace (hi * 2 ^ (32 - b)) with (hi * 2 ^ (24 - b) * 256).
  2: { change 256 with (2 ^ 8). rewrite <-Z.mul_assoc, <-Z.pow_add_r by lia. do 2 f_equal. lia. }
  rewrite Z.add_comm. apply Z.mod_add. lia.
Qed.

Lemma embedded_addr N n hi lo k :
  0 ≤ lo < 2 ^ k → 0 ≤ k → 0 ≤ n < 2 ^ 32 → N = hi * 2 ^ (k + 32) + n * 2 ^ k + lo →
  AddrFrom4 (Z.shiftr N (k + 24) mod 256) (Z.shiftr N (k + 16) mod 256)
            (Z.shiftr N (k + 8) mod 256) (Z.shiftr N (k + 0) mod 256) = Addr4 n.
Proof.
  intros Hlo Hk Hn HN. rewrite !(embedded_byte N n hi lo k) by (done || lia).
  unfold AddrFrom4. f_equal. exact (bytes_num n Hn).
Qed.

Lemma contains6 base bits n :
  0 ≤ bits ≤ 128 →
  PrefixContains (mkPrefix (Addr6 base "") bits) (Addr6 n "") =
  (Z.shiftr base (128 - bits) =? Z.shiftr n (128 - bits)).
Proof.
  intros Hb. unfold PrefixContains, prefix_valid. simpl.
  by rewrite (proj2 (Z.leb_le 0 bits)), (proj2 (Z.leb_le bits 128)) by lia.
Qed.

Lemma canonical_nat64 n : 0 ≤ n < 2 ^ 32 → canonicalAddr (nat64 n) = Addr4 n.
Proof.
  intros Hn. unfold canonicalAddr, nat64.
  change (6619035 * 2 ^ 96) with (6619035 * 2 ^ 64 * 2 ^ 32).
  assert ((6619035 * 2 ^ 64 * 2 ^ 32 + n) / 2 ^ 32 = 6619035 * 2 ^ 64) as Hdiv
    by (rewrite Z.div_add_l, (Z.div_small n) by lia; lia).
  pose proof (embedded_addr _ n (6619035 * 2 ^ 64) 0 0 ltac:(lia) ltac:(lia) Hn eq_refl) as He.
  replace (6619035 * 2 ^ 64 * 2 ^ (0 + 32) + n * 2 ^ 0 + 0) with (6619035 * 2 ^ 64 * 2 ^ 32 + n) in He by lia.
  revert Hdiv He. generalize (6619035 * 2 ^ 64 * 2 ^ 32 + n) as N. intros N Hdiv He.
  assert (Unmap (Addr6 N "") = Addr6 N "") as ->.
  { unfold Unmap. by rewrite Z.shiftr_div_pow2, Hdiv by lia. }
  cbv zeta. unfold embeddedIPv4. simpl Is6. cbn [negb addr_num].
  rewrite nat64Prefix_eq, contains6 by lia.
  rewrite (Z.shiftr_div_pow2 N) by lia. change (128 - 96) with 32. rewrite Hdiv.
  rewrite (proj2 (Z.eqb_eq _ _)) by (vm_compute; done). exact He.
Qed.

Lemma canonical_6to4 n rest : 0 ≤ n < 2 ^ 32 → 0 ≤ rest < 2 ^ 80 → canonicalAddr (sixToFour n rest) = Addr4 n.
Proof.
  intros Hn Hr. unfold canonicalAddr, sixToFour.
  pose proof (embedded_addr _ n 8194 rest 80 Hr ltac:(lia) Hn eq_refl) as He.
  change (80 + 32) with 112 in He.
  assert (2 ^ 112 * 8194 ≤ 8194 * 2 ^ 112 + n * 2 ^ 80 + rest < 2 ^ 112 * 8195) as HN.
  { change (2 ^ 112) with (2 ^ 32 * 2 ^ 80). nia. }
  revert HN He. generalize (8194 * 2 ^ 112 + n * 2 ^ 80 + rest) as N. intros N HN He.
  assert (Unmap (Addr6 N "") = Addr6 N "") as ->.
  { unfold Unmap. rewrite Z.shiftr_div_pow2 by lia. rewrite (proj2 (Z.eqb_neq _ _)); [done|].
    intros Heq. Z.to_euclidean_division_equations. lia. }
  cbv zeta. unfold embeddedIPv4. simpl Is6. cbn [negb addr_num].
  rewrite nat64Prefix_eq, sixToFourPrefix_eq, !contains6 by lia.
  rewrite (proj2 (Z.eqb_neq _ _)).
  2: { rewrite (Z.shiftr_div_pow2 N) by lia. intros Heq. symmetry in Heq.
       change (Z.shiftr (Z.shiftl 6619035 96) (128 - 96)) with (6619035 * 2 ^ 64) in Heq.
       change (128 - 96) with 32 in Heq. Z.to_euclidean_division_equations. lia. }
  rewrite (proj2 (Z.eqb_eq _ _)).
  2: { rewrite (Z.shiftr_div_pow2 N) by lia. change (Z.shiftr (Z.shiftl 8194 112) (128 - 16)) with 8194.
       change (128 - 16) with 112. apply (Z.div_unique_pos N (2 ^ 112) 8194 (N - 2 ^ 112 * 8194)); lia. }
  exact He.
Qed.

Lemma blocked_canonical a b allowPrivate :
  IsValid a = true → IsValid b = true → canonicalAddr a = canonicalAddr b →
  IsBlockedAddr a = IsBlockedAddr b ∧ IsBlockedAddrStrict a = IsBlockedAddrStrict b ∧
  Blocked a allowPrivate = Blocked b allowPrivate.
Proof.
  intros Ha Hb Hab.
  assert (IsBlockedAddr a = IsBlockedAddr b) as Heq by (unfold IsBlockedAddr; by rewrite Ha, Hb, Hab).
  unfold IsBlockedAddrStrict, Blocked. by rewrite Heq, Hab.
Qed.

Lemma mapM_legacy_octets l :
  Forall (λ b, 0 ≤ b < 256) l → mapM parseLegacyPart (pretty <$> l) = Some l.
Proof.
  induction 1 as [|b l Hb Hl IH]; [done|]. cbn [fmap list_fmap mapM].
  pose proof (byte_cases (λ b : Z, bool_decide (parseLegacyPart (pretty b) = Some b)) b) as H.
  specialize (H ltac:(vm_compute; reflexivity) Hb). apply bool_decide_eq_true in H.
  rewrite H. simpl. by rewrite IH.
Qed.

Lemma lor_disjoint a b k : 0 ≤ k → 0 ≤ b < 2 ^ k → Z.lor (Z.shiftl a k) b = a * 2 ^ k + b.
Proof.
  intros Hk Hb.
  assert (Z.land (Z.shiftl a k) b = 0) as Hland.
  { apply Z.bits_inj'. intros i Hi. rewrite Z.land_spec, Z.shiftl_spec, Z.bits_0 by done.
    destruct (Z.ltb_spec i k); [by rewrite (Z.testbit_neg_r a) by lia|].
    rewrite <-(Z.mod_small b (2 ^ k)), Z.mod_pow2_bits_high by lia. apply andb_false_r. }
  rewrite <-Z.lxor_lor, <-Z.add_nocarry_lxor by done. by rewrite Z.shiftl_mul_pow2.
Qed.

(** The four octets put together by the shifts of [parseLegacyIPv4]. *)
Lemma lor_octets a b c d :
  0 ≤ a < 256 → 0 ≤ b < 256 → 0 ≤ c < 256 → 0 ≤ d < 256 →
  Z.lor (Z.lor (Z.lor (u64 (Z.shiftl a 24)) (u64 (Z.shiftl b 16))) (u64 (Z.shiftl c 8))) d =
  a * 2 ^ 24 + b * 2 ^ 16 + c * 2 ^ 8 + d.
Proof.
  intros Ha Hb Hc Hd. unfold u64. rewrite !Z.mod_small by (rewrite Z.shiftl_mul_pow2 by lia; lia).
  rewrite <-!Z.lor_assoc. rewrite (lor_disjoint c d) by lia.
  rewrite (lor_disjoint b) by lia. rewrite (lor_disjoint a) by lia. lia.
Qed.

(** * Theorems *)

(** Among IPv4 addresses exactly 0.0.0.0/8, 100.64.0.0/10, 169.254.0.0/16, 224.0.0.0/4
    and 255.255.255.255 are blocked. *)
Theorem blocked_ipv4_ranges n : 0 ≤ n < 2 ^ 32 → IsBlockedAddr (Addr4 n) = reserved4 n.
Proof. apply IsBlockedAddr4. Qed.

Lemma blocked_ipv4_ranges_witness : IsBlockedAddr (Addr4 2852039166) = true.
Proof. rewrite blocked_ipv4_ranges; [vm_compute; reflexivity | lia]. Defined.

(** The IPv4-mapped (with any zone), NAT64 and 6to4 spellings of an IPv4 address are
    blocked exactly when the address is, by all three checks. *)
Theorem embedded_spellings_blocked n rest zone allowPrivate :
  0 ≤ n < 2 ^ 32 → 0 ≤ rest < 2 ^ 80 →
  Forall (λ a, IsBlockedAddr a = IsBlockedAddr (Addr4 n) ∧
               IsBlockedAddrStrict a = IsBlockedAddrStrict (Addr4 n) ∧
               Blocked a allowPrivate = Blocked (Addr4 n) allowPrivate)
    [mapped n zone; nat64 n; sixToFour n rest].
Proof.
  intros Hn Hr. repeat constructor; apply blocked_canonical; try done;
    rewrite canonical4; auto using canonical_mapped, canonical_nat64, canonical_6to4.
Qed.

Lemma embedded_spellings_blocked_witness :
  Forall (λ a, IsBlockedAddr a = IsBlockedAddr (Addr4 2852039166) ∧
               IsBlockedAddrStrict a = IsBlockedAddrStrict (Addr4 2852039166) ∧
               Blocked a true = Blocked (Addr4 2852039166) true)
    [mapped 2852039166 "eth0"; nat64 2852039166; sixToFour 2852039166 1].
Proof. apply (embedded_spellings_blocked 2852039166 1 "eth0" true); lia. Defined.

(** The check on dialled addresses lets through no blocked address, whichever of the
    policies is configured, and the stricter policy refuses at least what the other does. *)
Theorem dial_control_sound allowPrivate blockPrivate address :
  (DialControl allowPrivate address = Ok tt →
     ∃ host port addr, SplitHostPort address = Some (host, port) ∧ ParseAddr host = Some addr ∧
       IsBlockedAddr addr = false ∧ IsLoopback (canonicalAddr addr) = false ∧
       (allowPrivate = false → IsBlockedAddrStrict addr = false)) ∧
  (makeDialControl blockPrivate address = Ok tt →
     ∃ host port addr, SplitHostPort address = Some (host, port) ∧ ParseAddr host = Some addr ∧
       IsBlockedAddr addr = false ∧ (blockPrivate = true → IsBlockedAddrStrict addr = false)).
Proof.
  unfold DialControl, makeDialControl, dial_control.
  destruct (SplitHostPort address) as [[host port]|]; [|done].
  destruct (ParseAddr host) as [addr|] eqn:Hp; [|done].
  unfold Blocked, IsBlockedAddrStrict. split.
  - destruct (IsBlockedAddr addr) eqn:Hb; [done|]. destruct (IsLoopback (canonicalAddr addr)) eqn:Hl; [done|].
    intros H. exists host, port, addr. split_and!; [done..|]. intros ->. rewrite Hb, Hl. by destruct (IsPrivate (canonicalAddr addr)).
  - destruct (IsBlockedAddr addr) eqn:Hb; [by destruct blockPrivate|]. intros H.
    exists host, port, addr. split_and!; [done..|]. intros ->. rewrite Hb in *. by destruct (_ || _).
Qed.

(** The reader of legacy spellings agrees with the strict one on every dotted quad, so the
    order in which [validateTargetURL] tries them cannot change the address it judges. *)
Theorem legacy_ipv4_agrees n :
  0 ≤ n < 2 ^ 32 →
  parseLegacyIPv4 (string4 n) = Some (Addr4 n) ∧ ParseAddr (string4 n) = Some (Addr4 n).
Proof.
  intros Hn. split; [|by apply ParseAddr_string4]. unfold parseLegacyIPv4.
  rewrite (proj2 (non_empty_true (string4 n))).
  2: { intros Heq. pose proof (string4_Split n) as H. by rewrite Heq in H. }
  cbn [negb]. rewrite string4_Split.
  pose proof (v4byte_bound n 0) as H0. pose proof (v4byte_bound n 1) as H1.
  pose proof (v4byte_bound n 2) as H2. pose proof (v4byte_bound n 3) as H3.
  rewrite mapM_legacy_octets by (by rewrite !Forall_cons, Forall_nil). cbv iota. cbn [existsb].
  rewrite !(proj2 (Z.ltb_ge 255 _)) by lia. cbn [orb]. cbv iota zeta. rewrite lor_octets by done.
  rewrite bytes_num by done. rewrite (proj2 (Z.ltb_ge _ n)) by lia.
  pose proof (bytes_num n Hn) as Hb. unfold AddrFrom4. do 2 f_equal. rewrite <-Hb at 5.
  unfold v4byte. change (24 - 8 * 0) with 24. change (24 - 8 * 1) with 16. change (24 - 8 * 2) with 8.
  change (24 - 8 * 3) with 0. by rewrite Z.shiftr_0_r.
Qed.

Lemma legacy_ipv4_agrees_witness : parseLegacyIPv4 "192.0.2.1" = Some (Addr4 3221225985).
Proof. apply (legacy_ipv4_agrees 3221225985). lia. Defined.

(** A zone defeats the prefix checks: the same NAT64 metadata address is blocked without
    a zone and passes with one, since a prefix contains no zoned address. *)
Theorem zoned_nat64_not_blocked zone :
  zone ≠ "" → IsBlockedAddr (nat64 2852039166) = true ∧
  IsBlockedAddrStrict (Addr6 (6619035 * 2 ^ 96 + 2852039166) zone) = false.
Proof.
  intros Hz. split; [vm_compute; reflexivity|].
  destruct zone as [|a zone]; [done|]. vm_compute. reflexivity.
Qed.

Lemma zoned_nat64_not_blocked_witness :
  makeDialControl true "[64:ff9b::a9fe:a9fe%eth0]:80" = Ok tt ∧ IsBlockedAddr (nat64 2852039166) = true.
Proof. split; [vm_compute; reflexivity | apply (zoned_nat64_not_blocked "eth0"); discriminate]. Defined.
