(* ===== verification/IPPool.v ===== *)
(** The address pool of the tunnel: internal/tunnel/pool.go.

    Both sets of the pool are keyed by the printed address.  [Allocate] walks the
    host part with 32-bit arithmetic, from the third address to the one before
    the last. *)
From S2P Require Import Prelude GoStrings Netip.

#[local] Open Scope Z_scope.

(** * Definitions *)

Record IPPool := {
  pool_prefix : Prefix;
  reserved : gset string;
  allocated : gset string;
}.

Inductive pool_error := ErrParseCIDR | ErrOnlyIPv4 | ErrPoolExhausted | ErrIPNotInPool.

Definition NewIPPool (cidr : string) (reserved_addrs : list Addr) : result pool_error IPPool :=
  match ParsePrefix cidr with
  | None => Err ErrParseCIDR
  | Some prefix =>
      let prefix := Masked prefix in
      if negb (Is4 (p_addr prefix)) then Err ErrOnlyIPv4
      else Ok {| pool_prefix := prefix; reserved := list_to_set (AddrString <$> reserved_addrs); allocated := ∅ |}
  end.

Definition mark (p : IPPool) (key : string) : IPPool :=
  {| pool_prefix := pool_prefix p; reserved := reserved p; allocated := {[ key ]} ∪ allocated p |}.

Definition MarkAllocated (p : IPPool) (addr : Addr) : result pool_error IPPool :=
  if negb (PrefixContains (pool_prefix p) addr) then Err ErrIPNotInPool
  else Ok (mark p (AddrString addr)).

Definition Release (p : IPPool) (addr : Addr) : IPPool :=
  {| pool_prefix := pool_prefix p; reserved := reserved p;
     allocated := allocated p ∖ {[ AddrString addr ]} |}.

Definition u32 (n : Z) : Z := n mod 2 ^ 32.

(** [uint32(1) << hostBits]: zero when the shift is the whole width. *)
Definition pool_total (hostBits : Z) : Z := u32 (Z.shiftl 1 hostBits).

Definition candidate (baseInt offset : Z) : Addr := Addr4 (u32 (baseInt + offset)).

Definition taken (p : IPPool) (key : string) : bool :=
  bool_decide (key ∈ allocated p) || bool_decide (key ∈ reserved p).

(** The loop; [fuel] is the number of offsets left. *)
Fixpoint alloc_loop (fuel : nat) (p : IPPool) (baseInt offset : Z) : result pool_error (Addr * IPPool) :=
  match fuel with
  | O => Err ErrPoolExhausted
  | S fuel' =>
      let key := AddrString (candidate baseInt offset) in
      if taken p key then alloc_loop fuel' p baseInt (offset + 1)
      else Ok (candidate baseInt offset, mark p key)
  end.

Definition Allocate (p : IPPool) : result pool_error (Addr * IPPool) :=
  let baseInt := addr_num (p_addr (pool_prefix p)) in
  let hostBits := 32 - p_bits (pool_prefix p) in
  if hostBits <=? 1 then Err ErrPoolExhausted
  else
    let total := pool_total hostBits in
    alloc_loop (Z.to_nat (u32 (total - 1) - 2)) p baseInt 2.

Definition AllocatedCount (p : IPPool) : nat := size (allocated p).

(** * The pool's invariant *)

(** A prefix of IPv4 with no host bits set, as [NewIPPool] leaves it. *)
Definition pool_wf (p : IPPool) : Prop :=
  ∃ base bits, pool_prefix p = mkPrefix (Addr4 base) bits ∧ 0 ≤ bits ≤ 32 ∧ 0 ≤ base < 2 ^ 32 ∧
    base mod 2 ^ (32 - bits) = 0.

(** The addresses the pool may hand out. *)
Definition usable (p : IPPool) (n : Z) : Prop :=
  let base := addr_num (p_addr (pool_prefix p)) in
  let hostBits := 32 - p_bits (pool_prefix p) in
  base + 2 ≤ n < base + 2 ^ hostBits - 1.

(** * Lemmas *)

Lemma mask_num_range bits n :
  0 ≤ bits ≤ 32 → 0 ≤ n < 2 ^ 32 →
  0 ≤ mask_num 32 bits n < 2 ^ 32 ∧ mask_num 32 bits n mod 2 ^ (32 - bits) = 0.
Proof.
  intros Hb Hn. unfold mask_num. rewrite Z.shiftl_mul_pow2, Z.shiftr_div_pow2 by lia.
  assert (0 < 2 ^ (32 - bits)) by (apply Z.pow_pos_nonneg; lia).
  split; [|apply Z.mod_mul; lia]. split; [apply Z.mul_nonneg_nonneg; [apply Z.div_pos; lia|lia]|].
  pose proof (Z.mul_div_le n (2 ^ (32 - bits))). lia.
Qed.

Lemma parse_octet_bound s b : parse_octet s = Some b → 0 ≤ b < 256.
Proof.
  unfold parse_octet, parse_dec. destruct s as [|a s]; [done|].
  destruct (string_all is_digit (String a s)) eqn:Hd; [|done]. cbn [andb].
  case_match eqn:Hc; [|done]. intros [= <-]. apply andb_true_iff in Hc as [_ Hle]. apply Z.leb_le in Hle.
  cbn [dec_val] in Hle |- *. split; [|lia].
  assert (∀ s acc, string_all is_digit s = true → 0 ≤ acc → 0 ≤ dec_val acc s) as Hdec.
  { induction s0 as [|c s0 IH]; intros acc Hs Ha; [done|]. simpl in Hs. apply andb_true_iff in Hs as [Hcd Hs].
    cbn [dec_val]. apply IH; [done|]. unfold digit_val. unfold is_digit in Hcd.
    apply andb_true_iff in Hcd as [H1 _]. apply Nat.leb_le in H1. lia. }
  apply (Hdec (String a s) 0); [done|lia].
Qed.

Lemma parseIPv4Fields_bound s n : parseIPv4Fields s = Some n → 0 ≤ n < 2 ^ 32.
Proof.
  unfold parseIPv4Fields. destruct (Split s ".") as [|a [|b [|c [|d [|]]]]]; try done.
  destruct (parse_octet a) eqn:Ha; [|done]. destruct (parse_octet b) eqn:Hb; [|done].
  destruct (parse_octet c) eqn:Hc; [|done]. destruct (parse_octet d) eqn:Hd; [|done].
  intros [= <-]. apply parse_octet_bound in Ha, Hb, Hc, Hd. lia.
Qed.

Lemma parse_addr_kind_4 s whole n : parse_addr_kind s whole = Some (Addr4 n) → 0 ≤ n < 2 ^ 32.
Proof.
  assert (∀ t, parseIPv6 t ≠ Some (Addr4 n)) as H6.
  { intros t. unfold parseIPv6. destruct (Cut t "%") as [[body zone] found]. case_match; [done|].
    generalize (match body with String ":" (String ":" rest) =>
      if non_empty rest then parse6_loop 9 rest [] (Some 0%nat) else Some ([], Some 0%nat)
      | _ => parse6_loop 9 body [] None end).
    intros [[groups ellipsis]|]; [|done]. by destruct (expand6 groups ellipsis). }
  induction s as [|a s IH]; [done|]. cbn [parse_addr_kind].
  destruct a as [[] [] [] [] [] [] [] []]; try exact IH; try done;
    try (intros H; by apply H6 in H).
  destruct (parseIPv4Fields whole) eqn:Hp; [|done]. intros [= <-]. by eapply parseIPv4Fields_bound.
Qed.

Lemma ParseAddr_4 s n : ParseAddr s = Some (Addr4 n) → 0 ≤ n < 2 ^ 32.
Proof. apply parse_addr_kind_4. Qed.

Lemma NewIPPool_wf cidr res p : NewIPPool cidr res = Ok p → pool_wf p.
Proof.
  unfold NewIPPool, ParsePrefix. destruct (cut_last cidr "/") as [[ipstr bitsstr]|]; [|done].
  destruct (ParseAddr ipstr) as [ip|] eqn:Hip; [|done]. destruct (hasZone ip); [done|].
  destruct (parse_dec (BitLen ip) bitsstr) as [bits|]; [|done].
  unfold PrefixFrom. destruct (IsValid ip && (0 <=? bits) && (bits <=? BitLen ip)) eqn:Hv.
  - unfold Masked, prefix_valid. simpl. destruct ip as [|n|n z]; [done| |].
    + simpl in Hv. simpl. rewrite Hv. simpl. intros [= <-].
      apply andb_true_iff in Hv as [H1 H2]. apply Z.leb_le in H1, H2.
      apply ParseAddr_4 in Hip. destruct (mask_num_range bits n) as [H3 H4]; [lia|done|].
      by exists (mask_num 32 bits n), bits.
    + simpl in Hv. simpl. rewrite Hv. done.
  - unfold Masked, prefix_valid. simpl. rewrite andb_false_r. done.
Qed.

Lemma pool_total_spec h : 2 ≤ h ≤ 32 → u32 (pool_total h - 1) = 2 ^ h - 1.
Proof.
  intros Hh. unfold pool_total, u32. rewrite Z.shiftl_mul_pow2, Z.mul_1_l by lia.
  destruct (decide (h = 32)) as [->|]; [done|].
  assert (2 ^ h < 2 ^ 32) by (apply Z.pow_lt_mono_r; lia).
  assert (0 < 2 ^ h) by (apply Z.pow_pos_nonneg; lia).
  rewrite (Z.mod_small (2 ^ h)) by lia. apply Z.mod_small. lia.
Qed.

(** The block of the pool does not wrap around. *)
Lemma pool_block base bits :
  0 ≤ bits ≤ 32 → 0 ≤ base < 2 ^ 32 → base mod 2 ^ (32 - bits) = 0 → base + 2 ^ (32 - bits) ≤ 2 ^ 32.
Proof.
  intros Hb Hbase Hm. assert (0 < 2 ^ (32 - bits)) as Hpos by (apply Z.pow_pos_nonneg; lia).
  pose proof (Z.div_mod base (2 ^ (32 - bits)) ltac:(lia)) as Hd. rewrite Hm in Hd.
  assert (2 ^ 32 = 2 ^ (32 - bits) * 2 ^ bits) as Hpow by (rewrite <-Z.pow_add_r by lia; f_equal; lia).
  assert (base / 2 ^ (32 - bits) < 2 ^ bits) by (apply Z.div_lt_upper_bound; lia). nia.
Qed.

Lemma alloc_loop_spec fuel p base offset :
  0 ≤ base → 0 ≤ offset → base + offset + Z.of_nat fuel ≤ 2 ^ 32 →
  match alloc_loop fuel p base offset with
  | Ok (a, p') =>
      ∃ n, a = Addr4 n ∧ base + offset ≤ n < base + offset + Z.of_nat fuel ∧
        taken p (string4 n) = false ∧ p' = mark p (string4 n) ∧
        ∀ m, base + offset ≤ m < n → taken p (string4 m) = true
  | Err e => e = ErrPoolExhausted ∧
      ∀ m, base + offset ≤ m < base + offset + Z.of_nat fuel → taken p (string4 m) = true
  end.
Proof.
  revert offset. induction fuel as [|fuel IH]; intros offset Hb Ho Hf; cbn [alloc_loop].
  { split; [done|]. lia. }
  unfold candidate, u32. rewrite Z.mod_small by lia. cbn [AddrString].
  destruct (taken p (string4 (base + offset))) eqn:Ht.
  - specialize (IH (offset + 1) Hb ltac:(lia) ltac:(lia)).
    destruct (alloc_loop fuel p base (offset + 1)) as [[a p']|e].
    + destruct IH as (n & -> & Hn & Hfree & -> & Hlow). exists n. split_and!; try done; try lia.
      intros m Hm. destruct (decide (m = base + offset)) as [->|]; [done|]. apply Hlow. lia.
    + destruct IH as [-> Hall]. split; [done|]. intros m Hm.
      destruct (decide (m = base + offset)) as [->|]; [done|]. apply Hall. lia.
  - exists (base + offset). split_and!; try done; try lia.
Qed.

Lemma usable_contained p n : pool_wf p → usable p n → PrefixContains (pool_prefix p) (Addr4 n) = true ∧ 0 ≤ n < 2 ^ 32.
Proof.
  intros (base & bits & Hp & Hb & Hbase & Hm) Hu. unfold usable in Hu. rewrite Hp in *. simpl in Hu.
  pose proof (pool_block base bits Hb Hbase Hm) as Hblock. split; [|lia].
  unfold PrefixContains, prefix_valid. simpl.
  rewrite (proj2 (Z.leb_le 0 bits)), (proj2 (Z.leb_le bits 32)) by lia. simpl.
  rewrite !Z.shiftr_div_pow2 by lia. apply Z.eqb_eq.
  pose proof (Z.div_mod base (2 ^ (32 - bits)) ltac:(lia)) as Hd. rewrite Hm in Hd.
  apply Z.div_unique_pos with (r := n - base); lia.
Qed.

Lemma Allocate_cases p :
  pool_wf p →
  match Allocate p with
  | Ok (a, p') =>
      ∃ n, a = Addr4 n ∧ usable p n ∧ taken p (string4 n) = false ∧ p' = mark p (string4 n) ∧
        ∀ m, usable p m → m < n → taken p (string4 m) = true
  | Err e => e = ErrPoolExhausted ∧ ∀ m, usable p m → taken p (string4 m) = true
  end.
Proof.
  intros Hwf. pose proof Hwf as (base & bits & Hp & Hb & Hbase & Hm).
  unfold Allocate, usable. rewrite Hp. cbn [p_addr p_bits addr_num].
  pose proof (pool_block base bits Hb Hbase Hm) as Hblock.
  destruct (Z.leb_spec (32 - bits) 1) as [Hsmall|Hbig].
  { split; [done|]. intros m Hu. exfalso.
    assert (2 ^ (32 - bits) ≤ 2 ^ 1) by (apply Z.pow_le_mono_r; lia). lia. }
  rewrite pool_total_spec by lia.
  assert (2 ^ 2 ≤ 2 ^ (32 - bits)) by (apply Z.pow_le_mono_r; lia).
  pose proof (alloc_loop_spec (Z.to_nat (2 ^ (32 - bits) - 1 - 2)) p base 2 ltac:(lia) ltac:(lia) ltac:(lia)) as Hs.
  destruct (alloc_loop _ p base 2) as [[a p']|e].
  - destruct Hs as (n & -> & Hn & Hfree & -> & Hlow). exists n. split_and!; try done; try lia.
    intros m Hu Hmn. apply Hlow. lia.
  - destruct Hs as [-> Hall]. split; [done|]. intros m Hu. apply Hall. lia.
Qed.

(** * Theorems *)

(** [Allocate] hands out the lowest free address of the pool: inside the prefix, neither the
    network, the first host nor the broadcast address, neither reserved nor allocated before,
    and marks it; it fails only when every usable address is taken. *)
Theorem Allocate_lowest_free cidr res p0 p :
  NewIPPool cidr res = Ok p0 → pool_prefix p = pool_prefix p0 →
  match Allocate p with
  | Ok (a, p') =>
      ∃ n, a = Addr4 n ∧ usable p n ∧ PrefixContains (pool_prefix p) a = true ∧
        AddrString a ∉ allocated p ∧ AddrString a ∉ reserved p ∧
        allocated p' = {[ AddrString a ]} ∪ allocated p ∧ reserved p' = reserved p ∧
        ∀ m, usable p m → m < n → string4 m ∈ allocated p ∪ reserved p
  | Err e => e = ErrPoolExhausted ∧ ∀ m, usable p m → string4 m ∈ allocated p ∪ reserved p
  end.
Proof.
  intros Hnew Hprefix.
  assert (pool_wf p) as Hwf by (apply NewIPPool_wf in Hnew; unfold pool_wf in *; by rewrite Hprefix).
  assert (∀ k, taken p k = true → k ∈ allocated p ∪ reserved p) as Htaken.
  { intros k. unfold taken. rewrite orb_true_iff, !bool_decide_eq_true. set_solver. }
  pose proof (Allocate_cases p Hwf) as Hs. destruct (Allocate p) as [[a p']|e].
  - destruct Hs as (n & -> & Hu & Hfree & -> & Hlow). exists n.
    unfold taken in Hfree. apply orb_false_iff in Hfree as [H1 H2]. apply bool_decide_eq_false in H1, H2.
    destruct (usable_contained p n Hwf Hu) as [Hc _]. split_and!; auto.
  - destruct Hs as [-> Hall]. auto.
Qed.

Definition sample_pool : IPPool :=
  {| pool_prefix := mkPrefix (Addr4 170524672) 29; reserved := {[ "10.42.0.1" ]}; allocated := {[ "10.42.0.2" ]} |}.

Lemma Allocate_lowest_free_witness :
  ∃ p', Allocate sample_pool = Ok (Addr4 170524675, p').
Proof.
  assert (NewIPPool "10.42.0.0/29" [Addr4 170524673] =
            Ok {| pool_prefix := mkPrefix (Addr4 170524672) 29; reserved := {[ "10.42.0.1" ]}; allocated := ∅ |}) as Hnew
    by (vm_compute; reflexivity).
  pose proof (Allocate_lowest_free "10.42.0.0/29" [Addr4 170524673] _ sample_pool Hnew eq_refl) as H.
  destruct (Allocate sample_pool) as [[a p']|e] eqn:Ha.
  - exists p'. vm_compute in Ha. congruence.
  - vm_compute in Ha. discriminate Ha.
Defined.
