(* ===== verification/Domain.v ===== *)
(** The data model: internal/domain/models.go and internal/routing/types.go.

    A record per struct, with the struct's fields; [time.Time] is [Z], a nilable
    pointer an [option], [uint] an [N], a JSON slice a list, and [JSONObject] a
    finite map.  Timestamps kept only by the database layer ([CreatedAt],
    [UpdatedAt]) and back references that would make the types recursive
    ([ServiceGroup.Services]) are left out. *)
From S2P Require Import Prelude GoStrings.

#[local] Open Scope string_scope.

(** * Constants *)

Definition RoleAdmin := "admin".
Definition RoleViewer := "viewer".

Definition AuthPolicyPublic := "public".
Definition AuthPolicyAuthenticated := "authenticated".
Definition AuthPolicyAdminOnly := "admin_only".

Definition AccessModePublic := "public".
Definition AccessModeAuthenticated := "authenticated".
Definition AccessModeRestricted := "restricted".

Definition AccessMethodSession := "session".
Definition AccessMethodOIDCOnly := "oidc_only".
Definition AccessMethodPIN := "pin".
Definition AccessMethodEmailCode := "email_code".

Definition AuthProviderLocal := "local".
Definition AuthProviderOIDC := "oidc".

Definition AccessRuleAllow := "allow".
Definition AccessRuleAuthenticate := "authenticate".
Definition AccessRuleDeny := "deny".

Definition NodeStatusOnline : string := "online".
Definition NodeStatusOffline : string := "offline".
Definition TunnelStatusInactive : string := "inactive".
Definition TunnelStatusProvisioned : string := "provisioned".
Definition TunnelStatusConnected : string := "connected".
Definition TunnelStatusStale : string := "stale".

(** * JSON values

    [map[string]any] as the JSON decoder fills it; [AnyStrings] is a [[]string]
    set by Go code. *)
Inductive Any : Type :=
| AnyString (s : string)
| AnyStrings (l : list string)
| AnySlice (l : list Any)
| AnyOther.

Abbreviation JSONObject := (gmap string Any).

(** * Structs *)

Record AccessWindow := {
  aw_Name : string;
  aw_DaysOfWeek : list string;
  aw_StartTime : string;
  aw_EndTime : string;
  aw_Timezone : string;
}.

Record AccessRule := {
  ar_Name : string;
  ar_Action : string;
  ar_Sources : list string;
  ar_Paths : list string;
}.

Record AccessPolicy := {
  ap_AccessMode : string;
  ap_AllowedRoles : list string;
  ap_AllowedGroups : list N;
  ap_AllowedServiceGroups : list N;
}.

Record User := {
  u_ID : N;
  u_Email : string;
  u_PasswordHash : string;
  u_Role : string;
  u_Active : bool;
  u_MustChangePassword : bool;
  u_MFAEnabled : bool;
  u_MFASecret : string;
  u_MFAPendingSecret : string;
  u_MFARecoveryCodes : list string;
  u_MFAPendingRecoveryCodes : list string;
  u_MFALastTOTPCounter : Z;
  u_AuthProvider : string;
  u_AuthProviderRef : string;
  u_AuthIssuer : string;
  u_DisplayName : string;
  u_Username : string;
  u_LastLoginAt : option Z;
}.

Record DomainRow := {
  d_ID : N;
  d_Name : string;
  d_Type : string;
  d_Provider : string;
  d_Notes : string;
  d_IPAllowlist : list string;
  d_IPBlocklist : list string;
}.

Record ServiceGroup := {
  sg_ID : N;
  sg_Name : string;
  sg_Description : string;
  sg_DefaultAccessPolicy : AccessPolicy;
  sg_AccessMethod : string;
  sg_AccessMethodConfig : JSONObject;
}.

(** The columns of [Node] the tunnel and the proxy read or write. *)
Record Node := {
  n_ID : N;
  n_Name : string;
  n_WGPublicKey : string;
  n_WGPresharedKey : string;
  n_WGEndpoint : string;
  n_WGAllowedIPs : string;
  n_WGTunnelIP : string;
  n_WGLastHandshake : option Z;
  n_AdvertisedSubnets : string;
  n_TunnelStatus : string;
}.

Record Service := {
  s_ID : N;
  s_Name : string;
  s_DomainID : N;
  s_Domain : DomainRow;
  s_Subdomain : string;
  s_Path : string;
  s_TargetURL : string;
  s_TLSMode : string;
  s_PassHostHeader : bool;
  s_UpstreamSkipVerify : bool;
  s_UpstreamCAPEM : string;
  s_UpstreamServerName : string;
  s_AuthPolicy : string;
  s_AccessMode : string;
  s_AllowedRoles : list string;
  s_AllowedGroups : list N;
  s_AllowedServiceGroups : list N;
  s_UseGroupPolicy : bool;
  s_AccessMethod : string;
  s_AccessMethodConfig : JSONObject;
  s_AccessMessage : string;
  s_IPAllowlist : list string;
  s_IPBlocklist : list string;
  s_AllowedCountries : list string;
  s_BlockedCountries : list string;
  s_AccessWindows : list AccessWindow;
  s_AccessRules : list AccessRule;
  s_LoginHosts : list string;
  s_LastDeployedAt : option Z;
  s_DeploymentRevision : Z;
  s_Enabled : bool;
  s_NodeID : option N;
  s_Node : option Node;
  s_ServiceGroups : list ServiceGroup;
}.

Record Certificate := {
  c_PrimaryDomain : string;
  c_SANs : list string;             (* CertificateSAN.DomainName *)
}.

(** internal/routing/types.go. *)
Record RouteConfig := {
  rc_ID : string;
  rc_ServiceID : N;
  rc_ServiceName : string;
  rc_DomainID : N;
  rc_Host : string;
  rc_Path : string;
  rc_TargetURL : string;
  rc_TLSMode : string;
  rc_AccessMessage : string;
  rc_Service : Service;
  rc_EffectivePolicy : AccessPolicy;
  rc_EffectiveMethod : string;
  rc_EffectiveMethodConfig : JSONObject;
  rc_InheritedFromGroup : option ServiceGroup;
  rc_AllowCIDRs : list string;
  rc_BlockCIDRs : list string;
  rc_AllowedCountries : list string;
  rc_BlockedCountries : list string;
  rc_AccessWindows : list AccessWindow;
  rc_AccessRules : list AccessRule;
  rc_DeploymentRevision : Z;
  rc_LastDeployedAt : option Z;
}.

(** * Rows of the authentication service

    The associations ([User] of a session, of a login token), the session's label and the time stamps
    nothing reads are left out. *)

Record Session := {
  ss_ID : N;
  ss_UserID : N;
  ss_TokenID : string;
  ss_RefreshTokenHash : string;
  ss_UserAgent : string;
  ss_RemoteAddr : string;
  ss_LastSeenAt : option Z;
  ss_ExpiresAt : Z;
  ss_RevokedAt : option Z;
  ss_BootstrapDismissed : bool;
}.

Definition LoginTokenScopeAccountLogin := "account_login".
Definition LoginTokenScopeRouteAccess := "route_access".
Definition LoginTokenScopeMagicLink := "magic_link".

Record LoginToken := {
  lt_ID : N;
  lt_UserID : option N;
  lt_ServiceID : option N;
  lt_Email : string;
  lt_Token : string;
  lt_Scope : string;
  lt_ExpiresAt : Z;
  lt_UsedAt : option Z;
  lt_AttemptCount : Z;
  lt_RemoteAddr : string;
  lt_UserAgent : string;
  lt_CreatedAt : Z;
}.

Record APIToken := {
  at_ID : N;
  at_Name : string;
  at_Prefix : string;
  at_TokenHash : string;
  at_Role : string;
  at_CreatedByID : option N;
  at_LastUsedAt : option Z;
  at_ExpiresAt : option Z;
  at_RevokedAt : option Z;
}.

(** The columns of [AppSettings] the authentication service reads. *)
Record AppSettings := {
  as_FrontendBaseURL : string;
  as_OIDCEnabled : bool;
  as_OIDCRedirectURL : string;
  as_LocalLoginDisabled : bool;
  as_OTPEnabled : bool;
  as_OTPTokenTTLSeconds : Z;
  as_OTPRequestLimit : Z;
  as_OTPRequestWindowSeconds : Z;
  as_RequireMFAForAdmins : bool;
  as_SMTPEnabled : bool;
}.
