(* ===== verification/Tunnel.v ===== *)
(** The tunnel manager: internal/tunnel/manager.go with the peer rules of
    internal/tunnel/server.go and the rendering of config.go.

    The manager serialises its operations with a mutex, so each is one transition of
    the tables of nodes and clients.  Keys come from an environment (the random
    generator and the file system may fail), base64 decoding of a submitted key is a
    parameter. *)
From S2P Require Import Prelude GoStrings Netip IPPool Domain.

#[local] Open Scope string_scope.
#[local] Open Scope list_scope.
#[local] Open Scope go_scope.

(** * Data *)

Record Client := {
  cl_ID : N;
  cl_Name : string;
  cl_Description : string;
  cl_WGPublicKey : string;
  cl_WGTunnelIP : string;
  cl_WGAllowedIPs : string;
  cl_AllowedNodeIDs : string;
  cl_Enabled : bool;
  cl_TunnelStatus : string;
}.

(** The columns of [AppSettings] the manager reads. *)
Record TunnelSettings := {
  TunnelEnabled : bool;
  TunnelServerPrivateKey : string;
  TunnelServerPublicKey : string;
  TunnelServerEndpoint : string;
  TunnelServerTunnelIP : string;
  TunnelCIDR : string;
  TunnelListenPort : Z;
  TunnelConfigPath : string;
}.

Record KeyPair := { PrivateKey : string; PublicKey : string }.

Record PeerSpec := { ps_PublicKey : string; ps_PresharedKey : string; ps_AllowedIPs : list string }.
Record ForwardRule := { Sources : list Prefix; Destinations : list Prefix }.

Record PeerConfig := {
  pc_Name : string;
  pc_PublicKey : string;
  pc_PresharedKey : string;
  pc_AllowedIPs : list string;
  pc_Keepalive : Z;
}.

Record ServerConfig := {
  sc_PrivateKey : string;
  sc_Address : string;
  sc_ListenPort : Z;
  sc_MTU : Z;
  sc_Peers : list PeerConfig;
}.

(** The tables, what the running server was last given ([None] when it is not started),
    and the configuration last written to the file. *)
Record tunnel_state := {
  nodes : list Node;
  clients : list Client;
  nextClientID : N;
  settings : TunnelSettings;
  server : option (list PeerSpec * list ForwardRule);
  configFile : option ServerConfig;
}.

Record ClientBundle := {
  b_PrivateKey : string;
  b_PublicKey : string;
  b_Address : string;
  b_DNS : string;
  b_ServerPublicKey : string;
  b_ServerEndpoint : string;
  b_PresharedKey : string;
  b_AllowedIPs : list string;
  b_Keepalive : Z;
}.

Inductive tunnel_error :=
  | ErrNotFound
  | ErrNodeAlreadyProvisioned
  | ErrInvalidServerSettings
  | ErrPeerKeyDuplicate
  | ErrAllowedIPsNotPermitted
  | ErrInvalidClientKey
  | ErrServerTunnelIP
  | ErrPool (e : pool_error)
  | ErrRandom
  | ErrUpdate
  | ErrWriteConfig.

(** What the outside answers during one operation. *)
Record env := {
  gen_keys : option KeyPair;        (* GenerateKeyPair *)
  gen_psk : option string;          (* GeneratePresharedKey *)
  update_ok : bool;                 (* the repository's Update or Create *)
  write_ok : bool;                  (* the directory, the file and the rename *)
}.

(** * Lists in text *)

Definition splitCSV (value : string) : list string :=
  filter (λ part, part ≠ "") (TrimSpace <$> Split value ",").

Definition parsePrefixes (values : list string) : list Prefix :=
  Masked <$> omap (λ value, ParsePrefix (TrimSpace value)) values.

Definition parseUintCSV (value : string) : list N :=
  omap (λ part, match ParseUint part 10 with
                | None => None
                | Some id => if (id =? 0)%Z then None else Some (Z.to_N id)
                end) (splitCSV value).

Definition joinUintCSV (values : list N) : string := Join (FormatUint <$> values) ",".

(** * Checks *)

(** One requested entry against the allowed ranges. *)
Definition requested_prefix (entry : string) : option Prefix :=
  match ParsePrefix entry with
  | Some prefix => Some (Masked prefix)
  | None => match ParseAddr entry with
            | Some addr => Some (Masked (PrefixFrom addr (BitLen addr)))
            | None => None
            end
  end.

Definition permitted (allowedRanges : list Prefix) (prefix : Prefix) : bool :=
  existsb (λ allowed, (p_bits allowed <=? p_bits prefix)%Z && PrefixContains allowed (p_addr prefix)) allowedRanges.

Fixpoint allowed_ips_loop (allowedRanges : list Prefix) (requested : list string) : result tunnel_error (list string) :=
  match requested with
  | [] => Ok []
  | raw :: requested' =>
      let entry := TrimSpace raw in
      if negb (non_empty entry) then allowed_ips_loop allowedRanges requested'
      else
        match requested_prefix entry with
        | None => Err ErrAllowedIPsNotPermitted
        | Some prefix =>
            if permitted allowedRanges prefix then
              try out <- allowed_ips_loop allowedRanges requested' ;
              Ok (PrefixString prefix :: out)
            else Err ErrAllowedIPsNotPermitted
        end
  end.

Definition allowed_ranges (tunnelPrefix : Prefix) (advertised : list string) : list Prefix :=
  Masked tunnelPrefix :: (Masked <$> omap (λ adv, ParsePrefix (TrimSpace adv)) advertised).

Definition validateClientAllowedIPs (requested : list string) (tunnelCIDR : string) (advertised : list string)
  : result tunnel_error (list string) :=
  match ParsePrefix (TrimSpace tunnelCIDR) with
  | None => Err ErrInvalidServerSettings
  | Some tunnelPrefix =>
      try out <- allowed_ips_loop (allowed_ranges tunnelPrefix advertised) requested ;
      match out with
      | [] => Ok [PrefixString (Masked tunnelPrefix)]
      | _ => Ok out
      end
  end.

Definition ensureUniquePeerKey (st : tunnel_state) (key : string) (excludeNodeID excludeClientID : N)
  : result tunnel_error unit :=
  let key := TrimSpace key in
  if negb (non_empty key) then Ok tt
  else if existsb (λ n, negb (n_ID n =? excludeNodeID)%N && String.eqb (TrimSpace (n_WGPublicKey n)) key) (nodes st)
  then Err ErrPeerKeyDuplicate
  else if existsb (λ c, negb (cl_ID c =? excludeClientID)%N && String.eqb (TrimSpace (cl_WGPublicKey c)) key) (clients st)
  then Err ErrPeerKeyDuplicate
  else Ok tt.

Definition composeServerEndpoint (endpoint : string) (listenPort : Z) : string :=
  let endpoint := TrimSpace endpoint in
  if negb (non_empty endpoint) then ""
  else match SplitHostPort endpoint with
       | Some _ => endpoint
       | None => endpoint +:+ ":" +:+ pretty (if (listenPort <=? 0)%Z then 51820%Z else listenPort)
       end.

(** * The pool of a state *)

Definition mark_ip (pool : IPPool) (ip : string) : IPPool :=
  let raw := TrimSpace ip in
  if negb (non_empty raw) then pool
  else match ParseAddr raw with
       | None => pool
       | Some addr => match MarkAllocated pool addr with Ok pool' => pool' | Err _ => pool end
       end.

Definition loadPool (st : tunnel_state) : result tunnel_error IPPool :=
  match ParseAddr (TrimSpace (TunnelServerTunnelIP (settings st))) with
  | None => Err ErrServerTunnelIP
  | Some serverAddr =>
      match NewIPPool (TrimSpace (TunnelCIDR (settings st))) [serverAddr] with
      | Err e => Err (ErrPool e)
      | Ok pool => Ok (foldl mark_ip (foldl mark_ip pool (n_WGTunnelIP <$> nodes st)) (cl_WGTunnelIP <$> clients st))
      end
  end.

(** * Peers and forwarding rules *)

Definition node_allowed (node : Node) : list string :=
  (TrimSpace (n_WGTunnelIP node) +:+ "/32") :: splitCSV (n_AdvertisedSubnets node).

Definition node_active (node : Node) : bool :=
  non_empty (TrimSpace (n_WGPublicKey node)) && non_empty (TrimSpace (n_WGTunnelIP node)).

Definition node_spec (node : Node) : PeerSpec :=
  {| ps_PublicKey := TrimSpace (n_WGPublicKey node); ps_PresharedKey := TrimSpace (n_WGPresharedKey node);
     ps_AllowedIPs := node_allowed node |}.

(** [nodeRanges]: the last node of an id wins, as in a map. *)
Definition nodeRanges (ns : list Node) (nodeID : N) : list Prefix :=
  foldl (λ acc node, if (n_ID node =? nodeID)%N then parsePrefixes (node_allowed node) else acc)
    [] (filter (λ node, node_active node = true) ns).

Definition client_active (c : Client) : bool :=
  non_empty (TrimSpace (cl_WGPublicKey c)) && non_empty (TrimSpace (cl_WGTunnelIP c)) && cl_Enabled c.

Definition client_spec (c : Client) : PeerSpec :=
  {| ps_PublicKey := TrimSpace (cl_WGPublicKey c); ps_PresharedKey := "";
     ps_AllowedIPs := [TrimSpace (cl_WGTunnelIP c) +:+ "/32"] |}.

Definition client_rules (ns : list Node) (c : Client) : list ForwardRule :=
  match ParseAddr (TrimSpace (cl_WGTunnelIP c)) with
  | None => []
  | Some clientAddr =>
      let clientPrefix := [PrefixFrom clientAddr (BitLen clientAddr)] in
      mbind (λ nodeID,
        match nodeRanges ns nodeID with
        | [] => []
        | ranges => [{| Sources := clientPrefix; Destinations := ranges |};
                     {| Sources := ranges; Destinations := clientPrefix |}]
        end) (parseUintCSV (cl_AllowedNodeIDs c))
  end.

Definition buildPeerState (st : tunnel_state) : list PeerSpec * list ForwardRule :=
  let ns := filter (λ node, node_active node = true) (nodes st) in
  let cs := filter (λ c, client_active c = true) (clients st) in
  ((node_spec <$> ns) ++ (client_spec <$> cs), cs ≫= client_rules (nodes st)).

Definition ClientSourcesForNode (st : tunnel_state) (nodeID : N) : list string :=
  omap (λ c, if client_active c && bool_decide (nodeID ∈ parseUintCSV (cl_AllowedNodeIDs c))
             then Some (TrimSpace (cl_WGTunnelIP c)) else None) (clients st).

Definition prefixesContain (prefixes : list Prefix) (addr : Addr) : bool :=
  existsb (λ prefix, PrefixContains prefix addr) prefixes.

(** [forwardAllowed] of the server, on the rules it was given. *)
Definition forwardAllowed (rules : list ForwardRule) (src dst : Addr) : bool :=
  existsb (λ rule, prefixesContain (Sources rule) src && prefixesContain (Destinations rule) dst) rules.

(** [applyPeersLocked]: nothing happens when the server is not started. *)
Definition applyPeersLocked (st : tunnel_state) : tunnel_state :=
  match server st with
  | None => st
  | Some _ => {| nodes := nodes st; clients := clients st; nextClientID := nextClientID st;
                 settings := settings st; server := Some (buildPeerState st); configFile := configFile st |}
  end.

(** * Operations *)

Definition with_nodes (st : tunnel_state) (ns : list Node) : tunnel_state :=
  {| nodes := ns; clients := clients st; nextClientID := nextClientID st;
     settings := settings st; server := server st; configFile := configFile st |}.

Definition with_clients (st : tunnel_state) (cs : list Client) (next : N) : tunnel_state :=
  {| nodes := nodes st; clients := cs; nextClientID := next;
     settings := settings st; server := server st; configFile := configFile st |}.

Definition get_node (st : tunnel_state) (id : N) : option Node := list_find (λ n, n_ID n = id) (nodes st) ≫= λ p, Some p.2.
Definition get_client (st : tunnel_state) (id : N) : option Client :=
  list_find (λ c, cl_ID c = id) (clients st) ≫= λ p, Some p.2.

(** [Update] saves a row under its id. *)
Definition save_node (ns : list Node) (node : Node) : list Node :=
  (λ n, if (n_ID n =? n_ID node)%N then node else n) <$> ns.
Definition save_client (cs : list Client) (c : Client) : list Client :=
  (λ x, if (cl_ID x =? cl_ID c)%N then c else x) <$> cs.

Definition cidrMask (cidr : string) : string :=
  match Cut cidr "/" with
  | (_, after, true) => String "/" after
  | _ => "/32"
  end.

Definition node_peer (node : Node) : PeerConfig :=
  {| pc_Name := "node-" +:+ FormatUint (n_ID node) +:+ "-" +:+ n_Name node;
     pc_PublicKey := n_WGPublicKey node; pc_PresharedKey := TrimSpace (n_WGPresharedKey node);
     pc_AllowedIPs := [n_WGTunnelIP node +:+ "/32"]; pc_Keepalive := 25 |}.

Definition writeServerConfigLocked (e : env) (st : tunnel_state) : result tunnel_error tunnel_state :=
  if negb (non_empty (TrimSpace (TunnelConfigPath (settings st)))) then Ok st
  else if negb (write_ok e) then Err ErrWriteConfig
  else
    let s := settings st in
    let cfg := {| sc_PrivateKey := TunnelServerPrivateKey s;
                  sc_Address := TunnelServerTunnelIP s +:+ cidrMask (TunnelCIDR s);
                  sc_ListenPort := TunnelListenPort s; sc_MTU := 1420;
                  sc_Peers := node_peer <$> filter (λ n, node_active n = true) (nodes st) |} in
    Ok {| nodes := nodes st; clients := clients st; nextClientID := nextClientID st;
          settings := settings st; server := server st; configFile := Some cfg |}.

Record BootstrapOptions := {
  ForceReissue : bool;
  ClientAllowedIPs : list string;
  ClientPublicKey : string;
}.

Record BootstrapResult := {
  br_Node : Node;
  br_ClientBundle : ClientBundle;
  br_ServerPublicKey : string;
  br_ServerTunnelIP : string;
  br_AdvertisedSubnets : list string;
}.


Section manager.
(** [base64.StdEncoding.DecodeString]. *)
Variable base64_decode : string → option string.

Definition ValidatePublicKey (value : string) : bool :=
  match base64_decode value with
  | None => false
  | Some decoded => (String.length decoded =? 32)%nat
  end.

Definition client_keys (e : env) (opts : BootstrapOptions) : result tunnel_error KeyPair :=
  let key := TrimSpace (ClientPublicKey opts) in
  if non_empty key then
    if ValidatePublicKey key then Ok {| PrivateKey := ""; PublicKey := key |} else Err ErrInvalidClientKey
  else match gen_keys e with Some keys => Ok keys | None => Err ErrRandom end.

Definition release_ip (pool : IPPool) (ip : string) : IPPool :=
  let raw := TrimSpace ip in
  if non_empty raw then match ParseAddr raw with Some addr => Release pool addr | None => pool end else pool.

Definition provisioned (node : Node) (key psk ip endpoint : string) : Node :=
  {| n_ID := n_ID node; n_Name := n_Name node; n_WGPublicKey := key; n_WGPresharedKey := psk;
     n_WGEndpoint := endpoint; n_WGAllowedIPs := ip +:+ "/32"; n_WGTunnelIP := ip;
     n_WGLastHandshake := n_WGLastHandshake node; n_AdvertisedSubnets := n_AdvertisedSubnets node;
     n_TunnelStatus := TunnelStatusProvisioned |}.

(** The new state is returned with the outcome: an error after [Update] leaves the node
    provisioned. *)
Definition BootstrapNode (e : env) (st : tunnel_state) (nodeID : N) (opts : BootstrapOptions)
  : tunnel_state * result tunnel_error BootstrapResult :=
  let s := settings st in
  let checked :=
    if negb (non_empty (TrimSpace (TunnelServerPublicKey s))) then Err ErrInvalidServerSettings
    else if negb (non_empty (TrimSpace (TunnelServerEndpoint s))) then Err ErrInvalidServerSettings
    else
    match get_node st nodeID with
    | None => Err ErrNotFound
    | Some node =>
        try pool <- loadPool st ;
        if non_empty (TrimSpace (n_WGTunnelIP node)) && negb (ForceReissue opts) then Err ErrNodeAlreadyProvisioned
        else
        try keys <- client_keys e opts ;
        try _ <- ensureUniquePeerKey st (PublicKey keys) (n_ID node) 0 ;
        match Allocate (release_ip pool (n_WGTunnelIP node)) with
        | Err pe => Err (ErrPool pe)
        | Ok (assignedIP, _) =>
            try allowedIPs <-
              (match ClientAllowedIPs opts with
               | [] => Ok [TrimSpace (TunnelCIDR s)]
               | requested => validateClientAllowedIPs requested (TunnelCIDR s) (splitCSV (n_AdvertisedSubnets node))
               end) ;
            match gen_psk e with
            | None => Err ErrRandom
            | Some psk => Ok (node, keys, AddrString assignedIP, allowedIPs, psk)
            end
        end
    end in
  match checked with
  | Err er => (st, Err er)
  | Ok (node, keys, ip, allowedIPs, psk) =>
      let endpoint := composeServerEndpoint (TunnelServerEndpoint s) (TunnelListenPort s) in
      let bundle := {| b_PrivateKey := PrivateKey keys; b_PublicKey := PublicKey keys; b_Address := ip +:+ "/32";
                       b_DNS := ""; b_ServerPublicKey := TunnelServerPublicKey s; b_ServerEndpoint := endpoint;
                       b_PresharedKey := psk; b_AllowedIPs := allowedIPs; b_Keepalive := 25 |} in
      let node' := provisioned node (PublicKey keys) psk ip endpoint in
      if negb (update_ok e) then (st, Err ErrUpdate)
      else
        let st1 := with_nodes st (save_node (nodes st) node') in
        match writeServerConfigLocked e st1 with
        | Err er => (st1, Err er)
        | Ok st2 =>
            (applyPeersLocked st2,
             Ok {| br_Node := node'; br_ClientBundle := bundle; br_ServerPublicKey := TunnelServerPublicKey s;
                   br_ServerTunnelIP := TrimSpace (TunnelServerTunnelIP s);
                   br_AdvertisedSubnets := splitCSV (n_AdvertisedSubnets node') |})
        end
  end.

Definition revoked (node : Node) : Node :=
  {| n_ID := n_ID node; n_Name := n_Name node; n_WGPublicKey := ""; n_WGPresharedKey := "";
     n_WGEndpoint := ""; n_WGAllowedIPs := ""; n_WGTunnelIP := ""; n_WGLastHandshake := None;
     n_AdvertisedSubnets := n_AdvertisedSubnets node; n_TunnelStatus := TunnelStatusInactive |}.

Definition RevokeNode (e : env) (st : tunnel_state) (nodeID : N) : tunnel_state * result tunnel_error unit :=
  match get_node st nodeID with
  | None => (st, Err ErrNotFound)
  | Some node =>
      if negb (update_ok e) then (st, Err ErrUpdate)
      else
        let st1 := with_nodes st (save_node (nodes st) (revoked node)) in
        match writeServerConfigLocked e st1 with
        | Err er => (st1, Err er)
        | Ok st2 => (applyPeersLocked st2, Ok tt)
        end
  end.

(** The advertised subnets of the wanted nodes, each once. *)
Definition add_subnet (out : list string) (subnet : string) : list string :=
  if bool_decide (subnet ∈ out) then out else out ++ [subnet].

Definition subnetsForNodes (st : tunnel_state) (nodeIDs : list N) : list string :=
  match nodeIDs with
  | [] => []
  | _ => foldl add_subnet []
           (filter (λ node, n_ID node ∈ nodeIDs) (nodes st) ≫= λ node, splitCSV (n_AdvertisedSubnets node))
  end.

Definition ProvisionClient (e : env) (st : tunnel_state) (name description : string) (allowedNodeIDs : list N)
  : tunnel_state * result tunnel_error (ClientBundle * Client) :=
  let s := settings st in
  let checked :=
    if negb (non_empty (TrimSpace (TunnelServerPublicKey s))) || negb (non_empty (TrimSpace (TunnelServerEndpoint s)))
    then Err ErrInvalidServerSettings
    else
      try pool <- loadPool st ;
      match Allocate pool with
      | Err pe => Err (ErrPool pe)
      | Ok (assignedIP, _) =>
          match gen_keys e with
          | None => Err ErrRandom
          | Some keys => Ok (AddrString assignedIP, keys)
          end
      end in
  match checked with
  | Err er => (st, Err er)
  | Ok (ip, keys) =>
      let allowedSubnets := subnetsForNodes st allowedNodeIDs in
      let bundle := {| b_PrivateKey := PrivateKey keys; b_PublicKey := PublicKey keys; b_Address := ip +:+ "/32";
                       b_DNS := ""; b_ServerPublicKey := TunnelServerPublicKey s;
                       b_ServerEndpoint := composeServerEndpoint (TunnelServerEndpoint s) (TunnelListenPort s);
                       b_PresharedKey := ""; b_AllowedIPs := allowedSubnets; b_Keepalive := 25 |} in
      let client := {| cl_ID := nextClientID st; cl_Name := TrimSpace name; cl_Description := TrimSpace description;
                       cl_WGPublicKey := PublicKey keys; cl_WGTunnelIP := ip;
                       cl_WGAllowedIPs := Join allowedSubnets ","; cl_AllowedNodeIDs := joinUintCSV allowedNodeIDs;
                       cl_Enabled := true; cl_TunnelStatus := TunnelStatusProvisioned |} in
      if negb (update_ok e) then (st, Err ErrUpdate)
      else (applyPeersLocked (with_clients st (clients st ++ [client]) (nextClientID st + 1)), Ok (bundle, client))
  end.

Definition rotated (c : Client) (key : string) : Client :=
  {| cl_ID := cl_ID c; cl_Name := cl_Name c; cl_Description := cl_Description c; cl_WGPublicKey := key;
     cl_WGTunnelIP := cl_WGTunnelIP c; cl_WGAllowedIPs := cl_WGAllowedIPs c;
     cl_AllowedNodeIDs := cl_AllowedNodeIDs c; cl_Enabled := cl_Enabled c;
     cl_TunnelStatus := TunnelStatusProvisioned |}.

Definition RotateClient (e : env) (st : tunnel_state) (clientID : N)
  : tunnel_state * result tunnel_error (ClientBundle * Client) :=
  let s := settings st in
  match get_client st clientID with
  | None => (st, Err ErrNotFound)
  | Some c =>
      match gen_keys e with
      | None => (st, Err ErrRandom)
      | Some keys =>
          let c' := rotated c (PublicKey keys) in
          if negb (update_ok e) then (st, Err ErrUpdate)
          else
            let bundle := {| b_PrivateKey := PrivateKey keys; b_PublicKey := PublicKey keys;
                             b_Address := cl_WGTunnelIP c' +:+ "/32"; b_DNS := "";
                             b_ServerPublicKey := TunnelServerPublicKey s;
                             b_ServerEndpoint := composeServerEndpoint (TunnelServerEndpoint s) (TunnelListenPort s);
                             b_PresharedKey := ""; b_AllowedIPs := splitCSV (cl_WGAllowedIPs c); b_Keepalive := 25 |} in
            (applyPeersLocked (with_clients st (save_client (clients st) c') (nextClientID st)), Ok (bundle, c'))
      end
  end.

Definition RevokeClient (st : tunnel_state) (clientID : N) : tunnel_state * result tunnel_error unit :=
  match get_client st clientID with
  | None => (st, Err ErrNotFound)
  | Some _ =>
      (applyPeersLocked (with_clients st (filter (λ c, cl_ID c ≠ clientID) (clients st)) (nextClientID st)), Ok tt)
  end.
End manager.

(** * Unique tunnel addresses *)

(** The address a row holds, if any. *)
Definition own_ip (ip : string) : list string := filter (λ s, s ≠ "") [TrimSpace ip].
Definition node_ips (ns : list Node) : list string := ns ≫= λ n, own_ip (n_WGTunnelIP n).
Definition client_ips (cs : list Client) : list string := cs ≫= λ c, own_ip (cl_WGTunnelIP c).
Definition ips (st : tunnel_state) : list string := node_ips (nodes st) ++ client_ips (clients st).

(** The empty pool the settings describe. *)
Definition base_pool (s : TunnelSettings) : option (Addr * IPPool) :=
  match ParseAddr (TrimSpace (TunnelServerTunnelIP s)) with
  | None => None
  | Some serverAddr =>
      match NewIPPool (TrimSpace (TunnelCIDR s)) [serverAddr] with
      | Ok pool => Some (serverAddr, pool)
      | Err _ => None
      end
  end.

(** An address from the pool that is not the server's own. *)
Definition assigned (s : TunnelSettings) (ip : string) : Prop :=
  ∀ serverAddr pool, base_pool s = Some (serverAddr, pool) →
    ∃ n, usable pool n ∧ ip = string4 n ∧ ip ≠ AddrString serverAddr.

Record tunnel_inv (st : tunnel_state) : Prop := {
  inv_node_ids : NoDup (n_ID <$> nodes st);
  inv_client_ids : NoDup (cl_ID <$> clients st);
  inv_next_client : Forall (λ c, (cl_ID c < nextClientID st)%N) (clients st);
  inv_ips : NoDup (ips st);
  inv_assigned : Forall (assigned (settings st)) (ips st);
}.

(** ** Lemmas *)

Lemma string4_TrimSpace n : TrimSpace (string4 n) = string4 n.
Proof.
  apply TrimSpace_none.
  assert (∀ b, (0 ≤ b < 256)%Z → string_all (λ a, negb (is_space a)) (pretty b) = true) as Hb.
  { intros b Hb. eapply string_all_impl; [|by apply octet_digits].
    intros a Ha. by destruct a as [[] [] [] [] [] [] [] []]. }
  unfold string4. rewrite !string_all_app, !Hb by apply v4byte_bound. done.
Qed.

Lemma own_ip_string4 n : own_ip (string4 n) = [string4 n].
Proof.
  unfold own_ip. rewrite string4_TrimSpace. rewrite filter_cons_True; [done|].
  intros Heq. pose proof (string4_Split n) as H. by rewrite Heq in H.
Qed.

Lemma node_ips_app a b : node_ips (a ++ b) = node_ips a ++ node_ips b.
Proof. apply bind_app. Qed.

Lemma client_ips_app a b : client_ips (a ++ b) = client_ips a ++ client_ips b.
Proof. apply bind_app. Qed.

Lemma list_find_split {A} (P : A → Prop) `{∀ x, Decision (P x)} l x :
  list_find P l ≫= (λ p, Some p.2) = Some x → P x ∧ ∃ a b, l = a ++ x :: b.
Proof.
  destruct (list_find P l) as [[i y]|] eqn:Hf; simpl; [|done]. intros [= <-].
  apply list_find_Some in Hf as (Hi & HP & _). split; [done|].
  exists (take i l), (drop (S i) l). symmetry. by apply take_drop_middle.
Qed.

(** Replacing the row of an id that occurs once. *)
Lemma save_middle {A} (key : A → N) a n b (x : A) :
  NoDup (key <$> a ++ n :: b) → key x = key n →
  (λ y, if (key y =? key x)%N then x else y) <$> a ++ n :: b = a ++ x :: b.
Proof.
  rewrite fmap_app, fmap_cons. intros (Ha & Hdis & Hb)%NoDup_app Hid.
  apply NoDup_cons in Hb as [Hnb _]. rewrite fmap_app, fmap_cons, Hid, N.eqb_refl.
  assert (∀ l : list A, (∀ y, y ∈ l → key y ≠ key n) → (λ y, if (key y =? key n)%N then x else y) <$> l = l) as Hl.
  { intros l Hl. rewrite <-(list_fmap_id l) at 2. apply list_fmap_ext. intros i y Hy.
    rewrite (proj2 (N.eqb_neq (key y) (key n))); [done|]. apply Hl. by eapply list_elem_of_lookup_2. }
  rewrite !Hl; [done|..].
  - intros y Hy Heq. apply Hnb. rewrite <-Heq. by apply list_elem_of_fmap_2.
  - intros y Hy Heq. apply (Hdis (key y)); [by apply list_elem_of_fmap_2|]. rewrite Heq. by constructor.
Qed.

(** Marking keeps what is marked and the shape of the pool. *)
Lemma mark_ip_mono pool ip :
  allocated pool ⊆ allocated (mark_ip pool ip) ∧ reserved (mark_ip pool ip) = reserved pool ∧
  pool_prefix (mark_ip pool ip) = pool_prefix pool.
Proof.
  unfold mark_ip, MarkAllocated. repeat (case_match; simplify_eq; try done).
  simpl. split; [set_solver|done].
Qed.

Lemma mark_ips_mono pool l :
  allocated pool ⊆ allocated (foldl mark_ip pool l) ∧ reserved (foldl mark_ip pool l) = reserved pool ∧
  pool_prefix (foldl mark_ip pool l) = pool_prefix pool.
Proof.
  revert pool. induction l as [|ip l IH]; intros pool; simpl; [done|].
  destruct (mark_ip_mono pool ip) as (H1 & H2 & H3). destruct (IH (mark_ip pool ip)) as (H4 & H5 & H6).
  rewrite H5, H6, H2, H3. split; [set_solver|done].
Qed.

Lemma mark_ips_marked pool l n :
  pool_wf pool → usable pool n → string4 n ∈ (l ≫= own_ip) → string4 n ∈ allocated (foldl mark_ip pool l).
Proof.
  revert pool. induction l as [|ip l IH]; intros pool Hwf Hu Hin; [by apply elem_of_nil in Hin|].
  cbn [foldl]. rewrite bind_cons in Hin. apply elem_of_app in Hin as [Hin|Hin].
  - apply (mark_ips_mono (mark_ip pool ip) l). unfold own_ip in Hin.
    apply list_elem_of_filter in Hin as [Hne Hin]. apply list_elem_of_singleton in Hin.
    unfold mark_ip. rewrite <-Hin, (proj2 (non_empty_true _) Hne). cbn [negb].
    destruct (usable_contained pool n Hwf Hu) as [Hc Hn]. rewrite ParseAddr_string4 by done.
    unfold MarkAllocated. rewrite Hc. simpl. set_solver.
  - destruct (mark_ip_mono pool ip) as (_ & _ & Hp). apply IH; [|by unfold usable in *; rewrite Hp|done].
    unfold pool_wf in *. by rewrite Hp.
Qed.

Lemma ips_bind st :
  ips st = ((n_WGTunnelIP <$> nodes st) ≫= own_ip) ++ ((cl_WGTunnelIP <$> clients st) ≫= own_ip).
Proof.
  unfold ips, node_ips, client_ips. f_equal.
  - induction (nodes st) as [|n l IH]; [done|]. rewrite fmap_cons, !bind_cons. by f_equal.
  - induction (clients st) as [|c l IH]; [done|]. rewrite fmap_cons, !bind_cons. by f_equal.
Qed.

(** What a loaded pool knows. *)
Lemma loadPool_spec st pool :
  loadPool st = Ok pool → tunnel_inv st →
  ∃ serverAddr pool0, base_pool (settings st) = Some (serverAddr, pool0) ∧ pool_wf pool ∧
    (∀ n, usable pool n ↔ usable pool0 n) ∧ reserved pool = {[ AddrString serverAddr ]} ∧
    ∀ ip, ip ∈ ips st → ip ∈ allocated pool.
Proof.
  unfold loadPool, base_pool. intros Hload Hinv. pose proof (inv_assigned st Hinv) as Has.
  unfold assigned, base_pool in Has.
  destruct (ParseAddr (TrimSpace (TunnelServerTunnelIP (settings st)))) as [serverAddr|]; [|done].
  destruct (NewIPPool (TrimSpace (TunnelCIDR (settings st))) [serverAddr]) as [pool0|e] eqn:Hnew; [|done].
  injection Hload as <-. exists serverAddr, pool0.
  pose proof (NewIPPool_wf _ _ _ Hnew) as Hwf.
  rewrite <-foldl_app. set (l := (n_WGTunnelIP <$> nodes st) ++ (cl_WGTunnelIP <$> clients st)).
  destruct (mark_ips_mono pool0 l) as (_ & Hres & Hpre).
  split; [done|]. split; [unfold pool_wf in *; by rewrite Hpre|].
  split; [intros n; unfold usable; by rewrite Hpre|]. split.
  - rewrite Hres. unfold NewIPPool in Hnew. repeat case_match; simplify_eq. simpl. set_solver.
  - intros ip Hip. eapply Forall_forall in Has; [|done]. destruct (Has serverAddr pool0 eq_refl) as (n & Hu & -> & _).
    apply mark_ips_marked; [done|done|]. unfold l. by rewrite bind_app, <-ips_bind.
Qed.

Lemma release_ip_spec pool ip :
  pool_prefix (release_ip pool ip) = pool_prefix pool ∧ reserved (release_ip pool ip) = reserved pool ∧
  ∀ k, k ∈ allocated pool → k ∈ allocated (release_ip pool ip) ∨
    (∃ addr, ParseAddr (TrimSpace ip) = Some addr ∧ k = AddrString addr).
Proof.
  unfold release_ip. case_match; [|auto]. destruct (ParseAddr (TrimSpace ip)) as [addr|]; [|auto].
  split_and!; try done. intros k Hk. simpl. destruct (decide (k = AddrString addr)); [eauto|set_solver].
Qed.

(** An address [Allocate] gives after releasing [old] is new to every other row. *)
Lemma allocate_fresh st pool old a pool' rest :
  loadPool st = Ok pool → tunnel_inv st →
  ips st ≡ₚ own_ip old ++ rest →
  Allocate (release_ip pool old) = Ok (a, pool') →
  ∃ n, a = Addr4 n ∧ assigned (settings st) (string4 n) ∧ string4 n ∉ rest.
Proof.
  intros Hload Hinv Hperm Halloc.
  destruct (loadPool_spec st pool Hload Hinv) as (sa & pool0 & Hbase & Hwf & Hus & Hres & Hall).
  destruct (release_ip_spec pool old) as (Hpre & Hres' & Hrel).
  assert (pool_wf (release_ip pool old)) as Hwf' by (unfold pool_wf in *; by rewrite Hpre).
  pose proof (Allocate_cases _ Hwf') as Hcase. rewrite Halloc in Hcase.
  destruct Hcase as (n & -> & Hu & Hfree & _). exists n. split; [done|].
  unfold taken in Hfree. apply orb_false_iff in Hfree as [Hna Hnr]. apply bool_decide_eq_false in Hna, Hnr.
  assert (usable pool0 n) as Hu0 by (apply Hus; unfold usable in *; by rewrite <-Hpre).
  split.
  - intros sa' pool1 Hb. rewrite Hbase in Hb. simplify_eq. exists n. split_and!; [done..|].
    rewrite Hres', Hres in Hnr. set_solver.
  - intros Hin. assert (string4 n ∈ ips st) as Hips by (rewrite Hperm; set_solver).
    destruct (Hrel _ (Hall _ Hips)) as [|(addr & Hp & Heq)]; [done|].
    pose proof (inv_ips st Hinv) as Hnd. rewrite Hperm in Hnd. apply NoDup_app in Hnd as (_ & Hdis & _).
    apply (Hdis (string4 n)); [|done].
    destruct (usable_contained pool0 n) as [_ Hn]; [|done|].
    { unfold base_pool in Hbase. repeat case_match; simplify_eq. by eapply NewIPPool_wf. }
    pose proof (inv_assigned st Hinv) as Has.
    unfold own_ip. destruct (decide (TrimSpace old = "")) as [He|Hne]; [by rewrite He in Hp|].
    rewrite filter_cons_True by done. rewrite Hperm in Has. apply Forall_app in Has as [Has _].
    unfold own_ip in Has. rewrite filter_cons_True in Has by done. apply Forall_cons in Has as [Has _].
    destruct (Has _ _ Hbase) as (m & Hum & Hm & _). rewrite Hm in Hp |- *.
    destruct (usable_contained pool0 m) as [_ Hm']; [|done|].
    { unfold base_pool in Hbase. repeat case_match; simplify_eq. by eapply NewIPPool_wf. }
    rewrite ParseAddr_string4 in Hp by done. injection Hp as <-. simpl in Heq. rewrite Heq. by constructor.
Qed.

(** Replacing the address of one node. *)
Lemma replace_node_ips st id node :
  get_node st id = Some node → tunnel_inv st →
  ∃ rest, ips st ≡ₚ own_ip (n_WGTunnelIP node) ++ rest ∧
    ∀ node', n_ID node' = n_ID node →
      ips (with_nodes st (save_node (nodes st) node')) ≡ₚ own_ip (n_WGTunnelIP node') ++ rest ∧
      n_ID <$> save_node (nodes st) node' = n_ID <$> nodes st.
Proof.
  intros Hget Hinv. destruct (list_find_split _ _ _ Hget) as (_ & a & b & Hl).
  exists (node_ips a ++ node_ips b ++ client_ips (clients st)).
  assert (∀ x, node_ips (a ++ x :: b) ++ client_ips (clients st) ≡ₚ
    own_ip (n_WGTunnelIP x) ++ node_ips a ++ node_ips b ++ client_ips (clients st)) as Hx.
  { intros x. rewrite node_ips_app. change (node_ips (x :: b)) with (own_ip (n_WGTunnelIP x) ++ node_ips b).
    solve_Permutation. }
  split; [unfold ips; rewrite Hl; apply Hx|].
  intros node' Hid. pose proof (inv_node_ids st Hinv) as Hnd.
  unfold ips, save_node. simpl. rewrite Hl in *. rewrite save_middle by done.
  split; [apply Hx|]. by rewrite !fmap_app, !fmap_cons, Hid.
Qed.

(** Only the tables and the settings matter to the invariant. *)
Lemma tunnel_inv_same st st' :
  nodes st' = nodes st → clients st' = clients st → nextClientID st' = nextClientID st →
  settings st' = settings st → tunnel_inv st → tunnel_inv st'.
Proof.
  intros Hn Hc Hx Hs [H1 H2 H3 H4 H5]. unfold ips in *.
  split; unfold ips; by rewrite ?Hn, ?Hc, ?Hx, ?Hs.
Qed.

Lemma applyPeersLocked_inv st : tunnel_inv st → tunnel_inv (applyPeersLocked st).
Proof. apply tunnel_inv_same; unfold applyPeersLocked; by case_match. Qed.

Lemma writeServerConfigLocked_inv e st st' :
  writeServerConfigLocked e st = Ok st' → tunnel_inv st → tunnel_inv st'.
Proof.
  unfold writeServerConfigLocked. intros Hw Hinv. repeat case_match; simplify_eq; [done|].
  by apply (tunnel_inv_same st).
Qed.

Lemma save_node_inv st id node node' :
  get_node st id = Some node → tunnel_inv st → n_ID node' = n_ID node →
  (∀ rest, ips st ≡ₚ own_ip (n_WGTunnelIP node) ++ rest →
     NoDup (own_ip (n_WGTunnelIP node') ++ rest) ∧ Forall (assigned (settings st)) (own_ip (n_WGTunnelIP node'))) →
  tunnel_inv (with_nodes st (save_node (nodes st) node')).
Proof.
  intros Hget Hinv Hid Hnew. destruct (replace_node_ips st id node Hget Hinv) as (rest & Hperm & Hrep).
  destruct (Hrep node' Hid) as [Hips Hids]. destruct (Hnew rest Hperm) as [Hnd Has].
  pose proof Hinv as [H1 H2 H3 H4 H5]. split; simpl; try done.
  - by rewrite Hids.
  - by rewrite Hips.
  - rewrite Hips. apply Forall_app. split; [done|]. rewrite Hperm in H5. by apply Forall_app in H5 as [_ ?].
Qed.

Section preservation.
Variable base64_decode : string → option string.

Lemma BootstrapNode_inv e st id opts :
  tunnel_inv st → tunnel_inv (BootstrapNode base64_decode e st id opts).1.
Proof.
  intros Hinv. unfold BootstrapNode. cbv zeta.
  match goal with |- tunnel_inv (match ?c with _ => _ end).1 => destruct c as [[[[[node keys] ip] allowedIPs] psk]|er] eqn:Hc end;
    [|done].
  destruct (update_ok e); cbn [negb]; [|done].
  set (node' := provisioned node (PublicKey keys) psk ip _).
  assert (tunnel_inv (with_nodes st (save_node (nodes st) node'))) as Hinv1.
  { destruct (negb (non_empty (TrimSpace (TunnelServerPublicKey (settings st))))); [done|].
    destruct (negb (non_empty (TrimSpace (TunnelServerEndpoint (settings st))))); [done|].
    destruct (get_node st id) as [node0|] eqn:Hget; [|done].
    destruct (loadPool st) as [pool|] eqn:Hload; [|done]. cbn [result_bind] in Hc.
    case_match; [done|]. destruct (client_keys _ _ _); [|done]. cbn [result_bind] in Hc.
    destruct (ensureUniquePeerKey _ _ _ _); [|done]. cbn [result_bind] in Hc.
    destruct (Allocate (release_ip pool (n_WGTunnelIP node0))) as [[addr pool']|] eqn:Halloc; [|done].
    match type of Hc with result_bind ?m _ = _ => destruct m; [|done] end. cbn [result_bind] in Hc.
    destruct (gen_psk e); [|done]. injection Hc as <- <- <- <- <-.
    apply (save_node_inv st id node0); [done|done|done|]. intros rest Hperm.
    destruct (allocate_fresh _ _ _ _ _ _ Hload Hinv Hperm Halloc) as (n & -> & Has & Hfresh).
    change (n_WGTunnelIP _) with (string4 n). rewrite own_ip_string4. split; [|by constructor].
    pose proof (inv_ips st Hinv) as Hnd. rewrite Hperm in Hnd. apply NoDup_app in Hnd as (_ & _ & Hnd).
    simpl. by constructor. }
  destruct (writeServerConfigLocked e _) as [st2|] eqn:Hw; [|done].
  simpl. apply applyPeersLocked_inv. by eapply writeServerConfigLocked_inv.
Qed.

Lemma RevokeNode_inv e st id : tunnel_inv st → tunnel_inv (RevokeNode e st id).1.
Proof.
  intros Hinv. unfold RevokeNode. destruct (get_node st id) as [node|] eqn:Hget; [|done].
  destruct (update_ok e); cbn [negb]; [|done].
  assert (tunnel_inv (with_nodes st (save_node (nodes st) (revoked node)))) as Hinv1.
  { apply (save_node_inv st id node); [done..|]. intros rest Hperm. split; [|constructor].
    pose proof (inv_ips st Hinv) as Hnd. rewrite Hperm in Hnd. by apply NoDup_app in Hnd as (_ & _ & ?). }
  destruct (writeServerConfigLocked e _) as [st2|] eqn:Hw; [|done].
  simpl. apply applyPeersLocked_inv. by eapply writeServerConfigLocked_inv.
Qed.

Lemma ProvisionClient_inv e st name description ids :
  tunnel_inv st → tunnel_inv (ProvisionClient e st name description ids).1.
Proof.
  intros Hinv. unfold ProvisionClient. cbv zeta.
  match goal with |- tunnel_inv (match ?c with _ => _ end).1 => destruct c as [[ip keys]|er] eqn:Hc end; [|done].
  destruct (update_ok e); cbn [negb]; [|done]. simpl. apply applyPeersLocked_inv.
  case_match; [done|]. destruct (loadPool st) as [pool|] eqn:Hload; [|done]. cbn [result_bind] in Hc.
  destruct (Allocate pool) as [[a pool']|] eqn:Halloc; [|done]. destruct (gen_keys e); [|done].
  injection Hc as <- <-.
  destruct (allocate_fresh st pool "" a pool' (ips st) Hload Hinv) as (n & -> & Has & Hfresh); [done|done|].
  pose proof Hinv as [H1 H2 H3 H4 H5].
  split; simpl; try done.
  - rewrite fmap_app. apply NoDup_app. split_and!; [done| |by apply NoDup_singleton].
    intros x Hx ->%list_elem_of_singleton. apply list_elem_of_fmap in Hx as (c & Hid & Hc).
    eapply Forall_forall in H3; [|done]. simpl in *. lia.
  - apply Forall_app. split; [eapply Forall_impl; [done|]; simpl; lia|]. repeat constructor. simpl. lia.
  - unfold ips. simpl. rewrite client_ips_app, (assoc_L (++)). fold (ips st).
    change (client_ips [_]) with (own_ip (string4 n) ++ []). rewrite own_ip_string4. simpl.
    apply NoDup_app. split_and!; [done| |by apply NoDup_singleton]. intros x Hx ->%list_elem_of_singleton. done.
  - unfold ips. simpl. rewrite client_ips_app, (assoc_L (++)). fold (ips st).
    change (client_ips [_]) with (own_ip (string4 n) ++ []). rewrite own_ip_string4. simpl.
    apply Forall_app. split; [done|]. by repeat constructor.
Qed.

Lemma RotateClient_inv e st id : tunnel_inv st → tunnel_inv (RotateClient e st id).1.
Proof.
  intros Hinv. unfold RotateClient. destruct (get_client st id) as [c|] eqn:Hget; [|done].
  destruct (gen_keys e) as [keys|]; [|done]. destruct (update_ok e); cbn [negb]; [|done]. simpl.
  apply applyPeersLocked_inv. destruct (list_find_split _ _ _ Hget) as (_ & a & b & Hl).
  destruct Hinv as [H1 H2 H3 H4 H5]. unfold ips in *. rewrite Hl in *.
  assert (save_client (a ++ c :: b) (rotated c (PublicKey keys)) = a ++ rotated c (PublicKey keys) :: b) as Hsave
    by (unfold save_client; by apply save_middle).
  split; simpl; unfold ips; simpl; rewrite ?Hl, ?Hsave; try done.
  - by rewrite fmap_app, fmap_cons in *.
  - rewrite Forall_app, Forall_cons in *. done.
  - by rewrite client_ips_app in *.
  - by rewrite client_ips_app in *.
Qed.

Lemma client_ips_filter (P : Client → Prop) `{∀ c, Decision (P c)} cs : client_ips (filter P cs) `sublist_of` client_ips cs.
Proof.
  induction cs as [|c cs IH]; [done|]. rewrite filter_cons.
  change (client_ips (c :: cs)) with (own_ip (cl_WGTunnelIP c) ++ client_ips cs).
  case_decide; [|by apply sublist_inserts_l].
  change (client_ips (c :: filter P cs)) with (own_ip (cl_WGTunnelIP c) ++ client_ips (filter P cs)).
  by apply sublist_app.
Qed.

Lemma RevokeClient_inv st id : tunnel_inv st → tunnel_inv (RevokeClient st id).1.
Proof.
  intros Hinv. unfold RevokeClient. destruct (get_client st id) as [c|] eqn:Hget; [|done]. simpl.
  apply applyPeersLocked_inv. destruct Hinv as [H1 H2 H3 H4 H5].
  pose proof (client_ips_filter (λ c, cl_ID c ≠ id) (clients st)) as Hsub.
  split; simpl; try done.
  - eapply sublist_NoDup; [exact H2|]. apply fmap_sublist, sublist_filter.
  - apply Forall_forall. intros x [_ Hx]%list_elem_of_filter. by eapply Forall_forall in H3.
  - eapply sublist_NoDup; [exact H4|]. unfold ips. simpl. by apply sublist_app.
  - apply Forall_forall. intros x Hx. eapply Forall_forall in H5; [done|].
    eapply elem_of_sublist; [exact Hx|]. unfold ips. simpl. by apply sublist_app.
Qed.
End preservation.

(** * Theorems *)

Section theorems.
Variable base64_decode : string → option string.

(** The operations of the manager, whatever the environment answers. *)
Inductive tunnel_step : tunnel_state → tunnel_state → Prop :=
  | step_bootstrap e st id opts : tunnel_step st (BootstrapNode base64_decode e st id opts).1
  | step_revoke_node e st id : tunnel_step st (RevokeNode e st id).1
  | step_provision e st name description ids : tunnel_step st (ProvisionClient e st name description ids).1
  | step_rotate e st id : tunnel_step st (RotateClient e st id).1
  | step_revoke_client st id : tunnel_step st (RevokeClient st id).1.

(** C15 No history of provisioning, reissuing, rotating and revoking, with any failures of the
    environment, gives two peers one tunnel address or a peer the server's address. *)
Theorem tunnel_addresses_unique st st' :
  tunnel_inv st → rtc tunnel_step st st' →
  NoDup (ips st') ∧ Forall (assigned (settings st')) (ips st').
Proof.
  intros Hinv Hsteps. assert (tunnel_inv st') as []; [|done].
  revert st' Hsteps. apply rtc_ind_r; [done|].
  intros a b _ Hstep Ha. destruct Hstep;
    eauto using BootstrapNode_inv, RevokeNode_inv, ProvisionClient_inv, RotateClient_inv, RevokeClient_inv.
Qed.
End theorems.

(** ** Text round trip *)

Lemma FormatUint_no_comma n : ContainsByte (FormatUint n) "," = false.
Proof.
  apply negb_true_iff. rewrite <-string_all_ContainsByte. eapply string_all_impl; [|apply FormatUint_digits].
  intros a Ha. by destruct a as [[] [] [] [] [] [] [] []].
Qed.

Lemma FormatUint_TrimSpace n : TrimSpace (FormatUint n) = FormatUint n.
Proof.
  apply TrimSpace_none. eapply string_all_impl; [|apply FormatUint_digits].
  intros a Ha. by destruct a as [[] [] [] [] [] [] [] []].
Qed.

(** The list of node ids written by [joinUintCSV] is read back by [parseUintCSV], less the
    zeros that stand for no node. *)
Theorem node_ids_roundtrip (l : list N) :
  Forall (λ id, Z.of_N id < 2 ^ 64)%Z l → parseUintCSV (joinUintCSV l) = filter (λ id, id ≠ 0%N) l.
Proof.
  intros Hl. unfold parseUintCSV, joinUintCSV, splitCSV. destruct l as [|id0 l0] eqn:Heq; [done|].
  rewrite <-Heq in *. rewrite Split_Join.
  - clear Heq. induction Hl as [|id l Hid Hl IH]; [done|]. cbn [fmap list_fmap].
    rewrite FormatUint_TrimSpace, filter_cons_True by apply FormatUint_nonempty. cbn [omap list_omap].
    rewrite ParseUint_FormatUint by done. rewrite filter_cons.
    destruct (decide (id = 0%N)) as [->|Hne]; [done|].
    rewrite (proj2 (Z.eqb_neq (Z.of_N id) 0)) by lia. rewrite N2Z.id, decide_True by done. by f_equal.
  - by rewrite Heq.
  - intros x (n & -> & _)%list_elem_of_fmap. apply FormatUint_no_comma.
Qed.

Lemma node_ids_roundtrip_witness : parseUintCSV (joinUintCSV [3%N; 0%N; 17%N]) = [3%N; 17%N].
Proof. rewrite node_ids_roundtrip; [reflexivity|]. repeat constructor; lia. Defined.

(** ** Who may talk to whom *)

(** The addresses of a node: the tunnel address it has and the subnets it advertises. *)
Definition node_covers (node : Node) (a : Addr) : Prop :=
  ∃ text p, text ∈ (TrimSpace (n_WGTunnelIP node) +:+ "/32") :: splitCSV (n_AdvertisedSubnets node) ∧
    ParsePrefix (TrimSpace text) = Some p ∧ PrefixContains (Masked p) a = true.

(** An enabled client with a key and a tunnel address, and a node it was granted that has both. *)
Definition granted (st : tunnel_state) (c : Client) (node : Node) (addr : Addr) : Prop :=
  c ∈ clients st ∧ cl_Enabled c = true ∧ TrimSpace (cl_WGPublicKey c) ≠ "" ∧ ParseAddr (TrimSpace (cl_WGTunnelIP c)) = Some addr ∧
  node ∈ nodes st ∧ n_ID node ∈ parseUintCSV (cl_AllowedNodeIDs c) ∧ TrimSpace (n_WGPublicKey node) ≠ "" ∧ TrimSpace (n_WGTunnelIP node) ≠ "".

Lemma node_covers_spec node a : prefixesContain (parsePrefixes (node_allowed node)) a = true ↔ node_covers node a.
Proof.
  unfold prefixesContain, parsePrefixes, node_covers. rewrite existsb_exists_elem. setoid_rewrite list_elem_of_fmap. setoid_rewrite list_elem_of_omap.
  unfold node_allowed. naive_solver.
Qed.

Lemma same_node (l : list Node) a b : NoDup (n_ID <$> l) → a ∈ l → b ∈ l → n_ID a = n_ID b → a = b.
Proof.
  intros Hnd [i Ha]%list_elem_of_lookup [j Hb]%list_elem_of_lookup He.
  assert (i = j) as -> by (eapply (NoDup_lookup (n_ID <$> l)); [done|by rewrite list_lookup_fmap, Ha|rewrite list_lookup_fmap, Hb; cbn; by rewrite He]). congruence.
Qed.

Lemma nodeRanges_last (l : list Node) id acc :
  foldl (λ acc node, if (n_ID node =? id)%N then parsePrefixes (node_allowed node) else acc) acc l =
  match last (filter (λ node, n_ID node = id) l) with Some node => parsePrefixes (node_allowed node) | None => acc end.
Proof.
  revert acc. induction l as [|x l IH]; intros acc; [done|]. cbn [foldl]. rewrite IH, filter_cons. destruct (N.eqb_spec (n_ID x) id) as [He|He].
  - rewrite decide_True by done. rewrite last_cons. by destruct (last _).
  - by rewrite decide_False.
Qed.

Lemma nodeRanges_spec st id a :
  NoDup (n_ID <$> nodes st) →
  prefixesContain (nodeRanges (nodes st) id) a = true ↔
  ∃ node, node ∈ nodes st ∧ n_ID node = id ∧ TrimSpace (n_WGPublicKey node) ≠ "" ∧ TrimSpace (n_WGTunnelIP node) ≠ "" ∧ node_covers node a.
Proof.
  intros Hnd. unfold nodeRanges. rewrite nodeRanges_last.
  assert (∀ node, node ∈ filter (λ node, n_ID node = id) (filter (λ node, node_active node = true) (nodes st)) ↔
    node ∈ nodes st ∧ n_ID node = id ∧ TrimSpace (n_WGPublicKey node) ≠ "" ∧ TrimSpace (n_WGTunnelIP node) ≠ "") as Hel.
  { intros node. rewrite !list_elem_of_filter. unfold node_active. rewrite andb_true_iff, !non_empty_true. tauto. }
  destruct (last _) as [node|] eqn:Hl.
  - apply last_Some_elem_of in Hl. apply Hel in Hl as (Hin & Hid & Hk & Hip). rewrite node_covers_spec. split; [by eauto 10|].
    intros (node' & Hin' & Hid' & _ & _ & Hc). by rewrite (same_node (nodes st) node node') by congruence.
  - apply last_None in Hl. rewrite Hl in Hel. split; [done|]. intros (node & ? & ? & ? & ? & _).
    exfalso. apply (not_elem_of_nil node), Hel. done.
Qed.

(** C30 The server forwards a packet exactly between a client that is enabled, has a key and a tunnel address, and a node that has both
    and is in the list of nodes the client was granted: in one direction the source is the client's address and the destination is
    the node's tunnel address or in a subnet the node advertises, in the other the reverse.  Node ids are the table's primary keys.
    Other clients are kept out only as long as no such subnet covers them ([covering_subnet_joins_clients]). *)
Theorem forwarding_only_as_granted st src dst :
  NoDup (n_ID <$> nodes st) →
  forwardAllowed (buildPeerState st).2 src dst = true ↔
  ∃ c node addr, granted st c node addr ∧
    let self := PrefixFrom addr (BitLen addr) in
    (PrefixContains self src = true ∧ node_covers node dst) ∨ (node_covers node src ∧ PrefixContains self dst = true).
Proof.
  intros Hnd. unfold forwardAllowed. rewrite existsb_exists_elem. simpl. split.
  - intros (rule & Hrule & Hm). apply list_elem_of_bind in Hrule as (c & Hrule & Hc). apply list_elem_of_filter in Hc as [Hact Hc].
    unfold client_active in Hact. rewrite !andb_true_iff, !non_empty_true in Hact. destruct Hact as [[Hkey _] Hen]. unfold client_rules in Hrule.
    destruct (ParseAddr (TrimSpace (cl_WGTunnelIP c))) as [addr|] eqn:Ha; [|by apply elem_of_nil in Hrule].
    apply list_elem_of_bind in Hrule as (nodeID & Hrule & Hid). apply andb_true_iff in Hm as [H1 H2].
    assert ((PrefixContains (PrefixFrom addr (BitLen addr)) src = true ∧ prefixesContain (nodeRanges (nodes st) nodeID) dst = true) ∨
            (prefixesContain (nodeRanges (nodes st) nodeID) src = true ∧ PrefixContains (PrefixFrom addr (BitLen addr)) dst = true)) as Hdir.
    { destruct (nodeRanges (nodes st) nodeID) as [|r rs]; [by apply elem_of_nil in Hrule|].
      apply elem_of_cons in Hrule as [->|Hrule]; [left|apply list_elem_of_singleton in Hrule as ->; right]; simpl in H1, H2; rewrite ?orb_false_r in *; done. }
    rewrite !nodeRanges_spec in Hdir by done.
    destruct Hdir as [[Hs (node & ? & <- & ? & ? & ?)]|[(node & ? & <- & ? & ? & ?) Hd]]; exists c, node, addr; (split; [by split_and!|tauto]).
  - intros (c & node & addr & (Hc & Hen & Hkey & Ha & Hn & Hid & Hnk & Hni) & Hm). cbv zeta in Hm.
    assert (∀ a, node_covers node a → prefixesContain (nodeRanges (nodes st) (n_ID node)) a = true) as Hcov by (intros a ?; apply nodeRanges_spec; eauto 10).
    assert (TrimSpace (cl_WGTunnelIP c) ≠ "") as Hip by (intros He; by rewrite He in Ha).
    assert (∀ rule, rule ∈ (match nodeRanges (nodes st) (n_ID node) with
        | [] => []
        | ranges => [{| Sources := [PrefixFrom addr (BitLen addr)]; Destinations := ranges |};
                     {| Sources := ranges; Destinations := [PrefixFrom addr (BitLen addr)] |}]
        end) → rule ∈ filter (λ c, client_active c = true) (clients st) ≫= client_rules (nodes st)) as Hin.
    { intros rule Hrule. apply list_elem_of_bind. exists c. split.
      - unfold client_rules. rewrite Ha. apply list_elem_of_bind. by exists (n_ID node).
      - apply list_elem_of_filter. split; [|done]. unfold client_active. by rewrite !andb_true_iff, !non_empty_true. }
    assert (nodeRanges (nodes st) (n_ID node) ≠ []) as Hne by (intros He; rewrite He in Hcov; destruct Hm as [[_ Hx]|[Hx _]]; by apply Hcov in Hx).
    destruct (nodeRanges (nodes st) (n_ID node)) as [|r rs]; [done|].
    destruct Hm as [[H1 H2%Hcov]|[H1%Hcov H2]].
    + eexists. split; [apply Hin; by left|]. cbn [Sources Destinations prefixesContain existsb] in *. by rewrite H1, H2.
    + eexists. split; [apply Hin; right; by left|]. cbn [Sources Destinations prefixesContain existsb] in *. by rewrite H1, H2.
Qed.

(** ** Requested routes stay inside the granted ranges *)

Lemma shiftr_coarser x y w b b' :
  (0 ≤ b ≤ b')%Z → Z.shiftr x (w - b') = Z.shiftr y (w - b') → (b' ≤ w)%Z →
  Z.shiftr x (w - b) = Z.shiftr y (w - b).
Proof.
  intros Hb Heq Hw. replace (w - b)%Z with (w - b' + (b' - b))%Z by lia.
  rewrite <-!Z.shiftr_shiftr by lia. by rewrite Heq.
Qed.

(** A prefix that is longer and starts inside another one lies in it. *)
Lemma prefix_nested allowed p a :
  (p_bits allowed ≤ p_bits p)%Z → PrefixContains allowed (p_addr p) = true →
  PrefixContains p a = true → PrefixContains allowed a = true.
Proof.
  unfold PrefixContains. intros Hbits H1 H2. rewrite !andb_true_iff in *.
  destruct H1 as [[[[Hv1 Hz1] Hi1] Hl1] He1]. destruct H2 as [[[[Hv2 Hz2] Hi2] Hl2] He2].
  apply Z.eqb_eq in Hl1, Hl2, He1, He2. unfold prefix_valid in Hv1, Hv2.
  rewrite !andb_true_iff in Hv1, Hv2. destruct Hv1 as [[Hv1 H3] H4]. destruct Hv2 as [[Hv2 H5] H6].
  apply Z.leb_le in H3, H4, H5, H6.
  split_and!; try done.
  - unfold prefix_valid. rewrite Hv1. by rewrite (proj2 (Z.leb_le _ _) H3), (proj2 (Z.leb_le _ _) H4).
  - apply Z.eqb_eq. congruence.
  - apply Z.eqb_eq. rewrite <-Hl2 in *. rewrite He1.
    eapply shiftr_coarser; [|exact He2|]; lia.
Qed.

Lemma allowed_ips_loop_spec ranges requested out :
  allowed_ips_loop ranges requested = Ok out →
  Forall (λ s, ∃ p, s = PrefixString p ∧ permitted ranges p = true) out.
Proof.
  revert out. induction requested as [|raw requested IH]; intros out; cbn [allowed_ips_loop].
  - intros [= <-]. constructor.
  - cbv zeta. case_match; [apply IH|]. destruct (requested_prefix (TrimSpace raw)) as [p|]; [|done].
    destruct (permitted ranges p) eqn:Hp; [|done].
    destruct (allowed_ips_loop ranges requested) as [out'|]; [|done]. intros [= <-].
    constructor; [by exists p|]. by apply IH.
Qed.



(** Whatever a client asks for, the routes it is given lie inside the tunnel network or a
    subnet its node advertises: every address of a route is an address of such a range. *)
Theorem client_routes_contained requested tunnelCIDR advertised out :
  validateClientAllowedIPs requested tunnelCIDR advertised = Ok out →
  ∃ tunnelPrefix, ParsePrefix (TrimSpace tunnelCIDR) = Some tunnelPrefix ∧
  Forall (λ s, ∃ p, s = PrefixString p ∧
    ∀ a, PrefixContains p a = true →
      ∃ range, range ∈ allowed_ranges tunnelPrefix advertised ∧ PrefixContains range a = true) out.
Proof.
  unfold validateClientAllowedIPs. destruct (ParsePrefix (TrimSpace tunnelCIDR)) as [tp|] eqn:Htp; [|done].
  destruct (allowed_ips_loop (allowed_ranges tp advertised) requested) as [l|] eqn:Hl; [|done].
  apply allowed_ips_loop_spec in Hl. cbn [result_bind]. intros Hout. exists tp. split; [done|].
  destruct l as [|s l].
  - injection Hout as <-. repeat constructor. exists (Masked tp). split; [done|].
    intros a Ha. exists (Masked tp). split; [by left|done].
  - injection Hout as <-. eapply Forall_impl; [exact Hl|]. intros x (p & -> & Hp). exists p. split; [done|].
    intros a Ha. unfold permitted in Hp. rewrite existsb_exists_elem in Hp. destruct Hp as (range & Hr & Hc).
    apply andb_true_iff in Hc as [Hb Hc]. apply Z.leb_le in Hb.
    exists range. split; [done|]. by eapply prefix_nested.
Qed.

Lemma client_routes_contained_witness :
  ∃ tunnelPrefix, ParsePrefix "10.42.0.0/16" = Some tunnelPrefix ∧
    Forall (λ s, ∃ p, s = PrefixString p ∧ ∀ a, PrefixContains p a = true →
      ∃ range, range ∈ allowed_ranges tunnelPrefix ["192.168.1.0/24"] ∧ PrefixContains range a = true)
      ["10.42.7.0/24"; "192.168.1.9/32"].
Proof.
  apply (client_routes_contained [" 10.42.7.9/24"; ""; "192.168.1.9"] "10.42.0.0/16" ["192.168.1.0/24"]).
  vm_compute. reflexivity.
Defined.

(** ** Keys and revocation *)

Lemma ensureUniquePeerKey_spec st key exn exc :
  ensureUniquePeerKey st key exn exc = Ok tt → TrimSpace key ≠ "" →
  (∀ n, n ∈ nodes st → n_ID n ≠ exn → TrimSpace (n_WGPublicKey n) ≠ TrimSpace key) ∧
  (∀ c, c ∈ clients st → cl_ID c ≠ exc → TrimSpace (cl_WGPublicKey c) ≠ TrimSpace key).
Proof.
  unfold ensureUniquePeerKey. cbv zeta. intros Hu Hne. rewrite (proj2 (non_empty_true _) Hne) in Hu.
  cbn [negb] in Hu.
  destruct (existsb _ (nodes st)) eqn:Hn; [done|]. destruct (existsb _ (clients st)) eqn:Hc; [done|].
  rewrite existsb_false_elem in Hn. rewrite existsb_false_elem in Hc. split.
  - intros n Hin Hid Heq. specialize (Hn n Hin). rewrite Heq, String.eqb_refl, andb_true_r in Hn.
    apply negb_false_iff, N.eqb_eq in Hn. done.
  - intros c Hin Hid Heq. specialize (Hc c Hin). rewrite Heq, String.eqb_refl, andb_true_r in Hc.
    apply negb_false_iff, N.eqb_eq in Hc. done.
Qed.

Lemma get_node_saved st id node node' :
  get_node st id = Some node → n_ID node' = n_ID node →
  get_node (with_nodes st (save_node (nodes st) node')) id = Some node'.
Proof.
  unfold get_node, save_node. simpl. intros Hget Hid.
  destruct (list_find (λ n, n_ID n = id) (nodes st)) as [[i x]|] eqn:Hf; [|done]. injection Hget as ->.
  apply list_find_Some in Hf as (Hi & HP & Hmin).
  assert (list_find (λ n, n_ID n = id) ((λ n, if (n_ID n =? n_ID node')%N then node' else n) <$> nodes st) =
    Some (i, node')) as ->; [|done].
  apply list_find_Some. split_and!; [|congruence|].
  - by rewrite list_lookup_fmap, Hi, Hid; simpl; rewrite N.eqb_refl.
  - intros j y Hj Hlt. rewrite list_lookup_fmap in Hj. destruct (nodes st !! j) as [z|] eqn:Hz; [|done].
    injection Hj as <-. specialize (Hmin j z Hz Hlt). case_match eqn:Heq; [|done].
    apply N.eqb_eq in Heq. congruence.
Qed.

Lemma written_tables e st st' :
  writeServerConfigLocked e st = Ok st' →
  nodes st' = nodes st ∧ clients st' = clients st ∧ settings st' = settings st ∧ server st' = server st.
Proof. unfold writeServerConfigLocked. intros H. by repeat case_match; simplify_eq. Qed.

(** The running server has what the tables say. *)
Definition synced (st : tunnel_state) : Prop := ∀ x, server st = Some x → x = buildPeerState st.

Lemma applyPeersLocked_synced st : synced (applyPeersLocked st).
Proof. intros x. unfold applyPeersLocked. destruct (server st) eqn:Hs; simpl; [by intros [= <-]|by rewrite Hs]. Qed.

(** A node is issued a tunnel only when it has none or reissuing is forced; the key is held by no
    other node and no client, the stored row and the returned bundle agree, and the running
    server has the new peers. *)
Theorem BootstrapNode_issues base64_decode e st id opts st' r :
  BootstrapNode base64_decode e st id opts = (st', Ok r) →
  ∃ node, get_node st id = Some node ∧
    (TrimSpace (n_WGTunnelIP node) = "" ∨ ForceReissue opts = true) ∧
    get_node st' id = Some (br_Node r) ∧ synced st' ∧
    b_PublicKey (br_ClientBundle r) = n_WGPublicKey (br_Node r) ∧
    b_Address (br_ClientBundle r) = n_WGTunnelIP (br_Node r) +:+ "/32" ∧
    (TrimSpace (n_WGPublicKey (br_Node r)) ≠ "" →
      (∀ n, n ∈ nodes st → n_ID n ≠ n_ID node → TrimSpace (n_WGPublicKey n) ≠ TrimSpace (n_WGPublicKey (br_Node r))) ∧
      (∀ c, c ∈ clients st → cl_ID c ≠ 0%N → TrimSpace (cl_WGPublicKey c) ≠ TrimSpace (n_WGPublicKey (br_Node r)))).
Proof.
  unfold BootstrapNode. cbv zeta. intros H.
  match type of H with (match ?c with _ => _ end) = _ => destruct c as [[[[[node keys] ip] allowedIPs] psk]|er] eqn:Hc end;
    [|done].
  destruct (update_ok e); cbn [negb] in H; [|done].
  destruct (negb (non_empty (TrimSpace (TunnelServerPublicKey (settings st))))); [done|].
  destruct (negb (non_empty (TrimSpace (TunnelServerEndpoint (settings st))))); [done|].
  destruct (get_node st id) as [node0|] eqn:Hget; [|done].
  destruct (loadPool st) as [pool|] eqn:Hload; [|done]. cbn [result_bind] in Hc.
  destruct (non_empty (TrimSpace (n_WGTunnelIP node0)) && negb (ForceReissue opts)) eqn:Hprov; [done|]. destruct (client_keys _ _ _) as [keys0|]; [|done]. cbn [result_bind] in Hc.
  destruct (ensureUniquePeerKey _ _ _ _) as [[]|] eqn:Huniq; [|done]. cbn [result_bind] in Hc.
  destruct (Allocate _) as [[addr pool']|]; [|done].
  match type of Hc with result_bind ?m _ = _ => destruct m; [|done] end. cbn [result_bind] in Hc.
  destruct (gen_psk e); [|done]. injection Hc as <- <- <- <- <-.
  destruct (writeServerConfigLocked e _) as [st2|] eqn:Hw; [|done]. injection H as <- <-.
  destruct (written_tables _ _ _ Hw) as (Hn & _).
  exists node0. split; [done|]. split_and!.
  - apply andb_false_iff in Hprov as [Hp|Hp]; [left|right; by apply negb_false_iff].
    destruct (decide (TrimSpace (n_WGTunnelIP node0) = "")) as [|Hne]; [done|].
    by rewrite (proj2 (non_empty_true _) Hne) in Hp.
  - assert (nodes (applyPeersLocked st2) = nodes st2) as Ha by (unfold applyPeersLocked; by case_match).
    unfold get_node. rewrite Ha, Hn. by apply (get_node_saved st id node0).
  - apply applyPeersLocked_synced.
  - done.
  - done.
  - simpl. intros Hne. by apply ensureUniquePeerKey_spec.
Qed.

Lemma revoked_inactive node : node_active (revoked node) = false.
Proof. done. Qed.

Lemma nodeRanges_inactive ns id :
  (∀ n, n ∈ ns → n_ID n = id → node_active n = false) → nodeRanges ns id = [].
Proof.
  intros Hin. unfold nodeRanges.
  assert (∀ l acc, (∀ n, n ∈ l → n_ID n ≠ id) →
    foldl (λ acc node, if (n_ID node =? id)%N then parsePrefixes (node_allowed node) else acc) acc l = acc) as Hf.
  { induction l as [|n l IH]; intros acc Hl; [done|]. simpl.
    rewrite (proj2 (N.eqb_neq (n_ID n) id)) by (apply Hl; by left). apply IH. intros m Hm. apply Hl. by right. }
  apply Hf. intros n [Hact Hn]%list_elem_of_filter Heq. by rewrite (Hin n Hn Heq) in Hact.
Qed.

(** When revoking a node succeeds, the running server has neither a peer nor a forwarding range
    for it. *)
Theorem RevokeNode_effective e st id st' :
  RevokeNode e st id = (st', Ok tt) → NoDup (n_ID <$> nodes st) →
  synced st' ∧ nodeRanges (nodes st') id = [] ∧
  (∃ n, get_node st' id = Some n ∧ node_active n = false) ∧
  ∀ n, n ∈ nodes st' → n_ID n = id → node_active n = false.
Proof.
  unfold RevokeNode. intros H Hnd. destruct (get_node st id) as [node|] eqn:Hget; [|done].
  destruct (update_ok e); cbn [negb] in H; [|done].
  destruct (writeServerConfigLocked e _) as [st2|] eqn:Hw; [|done]. injection H as <-.
  destruct (written_tables _ _ _ Hw) as (Hn & _). simpl in Hn.
  assert (nodes (applyPeersLocked st2) = save_node (nodes st) (revoked node)) as Ha
    by (unfold applyPeersLocked; by case_match).
  destruct (list_find_split _ _ _ Hget) as (Hid & a & b & Hl).
  assert (∀ n, n ∈ nodes (applyPeersLocked st2) → n_ID n = id → node_active n = false) as Hall.
  { rewrite Ha. unfold save_node. intros n (m & -> & Hm)%list_elem_of_fmap Heq.
    case_match eqn:He; [done|]. simpl in He. apply N.eqb_neq in He. congruence. }
  split; [apply applyPeersLocked_synced|]. split; [by apply nodeRanges_inactive|]. split; [|done].
  exists (revoked node). split; [|done]. unfold get_node. rewrite Ha. by apply (get_node_saved st id node).
Qed.

(** When the configuration file cannot be written, revoking a node fails after the row was
    cleared: the running server keeps the peers and the ranges it had before. *)
Theorem RevokeNode_failed_write e st id node :
  get_node st id = Some node → update_ok e = true → write_ok e = false →
  TrimSpace (TunnelConfigPath (settings st)) ≠ "" →
  ∃ st', RevokeNode e st id = (st', Err ErrWriteConfig) ∧ server st' = server st ∧
    get_node st' id = Some (revoked node).
Proof.
  intros Hget Hu Hw Hp. unfold RevokeNode. rewrite Hget, Hu. cbn [negb].
  unfold writeServerConfigLocked at 1. simpl settings.
  rewrite (proj2 (non_empty_true _) Hp), Hw. cbn [negb].
  eexists. split; [done|]. split; [done|]. by apply (get_node_saved st id node).
Qed.

(** * Witnesses *)

Definition sample_settings : TunnelSettings :=
  {| TunnelEnabled := true; TunnelServerPrivateKey := "sk"; TunnelServerPublicKey := "pk";
     TunnelServerEndpoint := "vpn.example.com"; TunnelServerTunnelIP := "10.42.0.1"; TunnelCIDR := "10.42.0.0/28";
     TunnelListenPort := 51820; TunnelConfigPath := "/etc/wg.conf" |}.

Definition sample_node (id : N) : Node :=
  {| n_ID := id; n_Name := "edge"; n_WGPublicKey := ""; n_WGPresharedKey := ""; n_WGEndpoint := "";
     n_WGAllowedIPs := ""; n_WGTunnelIP := ""; n_WGLastHandshake := None;
     n_AdvertisedSubnets := "192.168.1.0/24"; n_TunnelStatus := "inactive" |}.

Definition sample_state : tunnel_state :=
  {| nodes := [sample_node 1; sample_node 2]; clients := []; nextClientID := 1; settings := sample_settings;
     server := Some ([], []); configFile := None |}.

Definition sample_env : env :=
  {| gen_keys := Some {| PrivateKey := "a"; PublicKey := "A" |}; gen_psk := Some "psk"; update_ok := true; write_ok := true |}.

Definition sample_decode (s : string) : option string := None.
Definition sample_opts : BootstrapOptions := {| ForceReissue := false; ClientAllowedIPs := []; ClientPublicKey := "" |}.
Definition sample_bootstrapped : tunnel_state := (BootstrapNode sample_decode sample_env sample_state 1 sample_opts).1.

Lemma sample_state_inv : tunnel_inv sample_state.
Proof. split; simpl; repeat constructor; set_solver. Qed.

Lemma tunnel_addresses_unique_witness :
  ips sample_bootstrapped = ["10.42.0.2"] ∧ NoDup (ips sample_bootstrapped).
Proof.
  split; [vm_compute; reflexivity|].
  apply (tunnel_addresses_unique sample_decode sample_state); [apply sample_state_inv|].
  apply rtc_once. constructor.
Defined.

Definition sample_granted : tunnel_state := (ProvisionClient sample_env sample_bootstrapped "laptop" "" [1%N]).1.

Lemma forwarding_only_as_granted_witness :
  forwardAllowed (buildPeerState sample_granted).2 (Addr4 3232235785) (Addr4 170524675) = true.
Proof.
  apply (forwarding_only_as_granted sample_granted); [vm_compute; repeat constructor; set_solver|].
  destruct (clients sample_granted) as [|c l] eqn:Hc; [vm_compute in Hc; discriminate Hc|].
  destruct (nodes sample_granted) as [|n k] eqn:Hn; [vm_compute in Hn; discriminate Hn|].
  exists c, n, (Addr4 170524675). unfold granted. rewrite Hc, Hn. vm_compute in Hc, Hn. injection Hc as <- <-. injection Hn as <- <-. split.
  - split_and!; first [by left|vm_compute; reflexivity|vm_compute; discriminate|vm_compute; by left].
  - right. split; [|vm_compute; reflexivity]. exists "192.168.1.0/24". eexists. split; [right; vm_compute; by left|]. split; vm_compute; reflexivity.
Defined.

(** A node that advertises the range of the tunnel lets every client it was granted to reach the other clients: here the client at
    10.42.0.3 reaches the one at 10.42.0.4, which was granted nothing. *)
Theorem covering_subnet_joins_clients :
  let node := {| n_ID := 1; n_Name := "edge"; n_WGPublicKey := "N"; n_WGPresharedKey := ""; n_WGEndpoint := ""; n_WGAllowedIPs := "";
                 n_WGTunnelIP := "10.42.0.2"; n_WGLastHandshake := None; n_AdvertisedSubnets := "10.42.0.0/24"; n_TunnelStatus := "" |} in
  let client id ip granted := {| cl_ID := id; cl_Name := ""; cl_Description := ""; cl_WGPublicKey := "C"; cl_WGTunnelIP := ip; cl_WGAllowedIPs := "";
                 cl_AllowedNodeIDs := granted; cl_Enabled := true; cl_TunnelStatus := "" |} in
  let st := {| nodes := [node]; clients := [client 1%N "10.42.0.3" "1"; client 2%N "10.42.0.4" ""]; nextClientID := 3; settings := sample_settings;
               server := None; configFile := None |} in
  forwardAllowed (buildPeerState st).2 (Addr4 170524675) (Addr4 170524676) = true.
Proof. vm_compute. reflexivity. Qed.

Lemma BootstrapNode_issues_witness : synced sample_bootstrapped.
Proof.
  unfold sample_bootstrapped.
  destruct (BootstrapNode sample_decode sample_env sample_state 1 sample_opts) as [st' [r|er]] eqn:H.
  - destruct (BootstrapNode_issues sample_decode sample_env sample_state 1 sample_opts st' r H)
      as (node & _ & _ & _ & Hs & _). exact Hs.
  - vm_compute in H. discriminate H.
Defined.

Lemma RevokeNode_effective_witness :
  nodeRanges (nodes (RevokeNode sample_env sample_bootstrapped 1).1) 1 = [].
Proof.
  destruct (RevokeNode sample_env sample_bootstrapped 1) as [st' [[]|er]] eqn:H.
  - apply (RevokeNode_effective sample_env sample_bootstrapped 1 st' H).
    vm_compute. repeat constructor; set_solver.
  - vm_compute in H. discriminate H.
Defined.

Lemma RevokeNode_failed_write_witness :
  ∃ st', RevokeNode {| gen_keys := None; gen_psk := None; update_ok := true; write_ok := false |} sample_bootstrapped 1
           = (st', Err ErrWriteConfig) ∧ server st' = server sample_bootstrapped.
Proof.
  destruct (get_node sample_bootstrapped 1) as [node|] eqn:Hn; [|vm_compute in Hn; discriminate Hn].
  destruct (RevokeNode_failed_write {| gen_keys := None; gen_psk := None; update_ok := true; write_ok := false |}
              sample_bootstrapped 1 node Hn) as (st' & H1 & H2 & _).
  - reflexivity.
  - reflexivity.
  - vm_compute. discriminate.
  - exists st'. split; [exact H1 | exact H2].
Defined.
