(* ===== verification/Paths.v ===== *)
(** Request paths: [normalizePath], [canonicalRequestPath], [stripPathParams],
    [matchesPath] and [stripRoutePrefix] of internal/proxy (manager.go and
    routing_runtime.go), and the redirect guard of magic_link.go.

    Every access decision of the proxy is taken on a normalized path, while the
    upstream receives a canonical one: the theorems say when the two name the
    same resource, and that neither can leave the host or climb out of a route. *)
From S2P Require Import Prelude GoStrings.

#[local] Open Scope string_scope.
#[local] Open Scope list_scope.

(** * Definitions *)

(** [strings.ReplaceAll(value, `\`, "/")]. *)
Definition slashes (value : string) : string := ReplaceByte value "\" "/".

Definition normalizePath (value : string) : string :=
  let segments := List.filter non_empty (Split (slashes (TrimSpace value)) "/") in
  match segments with
  | [] => "/"
  | _ => "/" +:+ Join segments "/"
  end.

(** The loop of [canonicalRequestPath]: the non-empty segments, or nothing when
    one of them, without its parameters, is "." or "..". *)
Fixpoint canonicalSegments (segments : list string) : option (list string) :=
  match segments with
  | [] => Some []
  | segment :: rest =>
      if negb (non_empty segment) then canonicalSegments rest
      else
        let name := cut_before segment ";" in
        if String.eqb name "." || String.eqb name ".." then None
        else match canonicalSegments rest with
             | Some out => Some (segment :: out)
             | None => None
             end
  end.

Definition canonicalRequestPath (value : string) : option string :=
  let cleaned := slashes value in
  match canonicalSegments (Split cleaned "/") with
  | None => None
  | Some [] => Some "/"
  | Some segments =>
      let canonical := "/" +:+ Join segments "/" in
      Some (if HasSuffix cleaned "/" then canonical +:+ "/" else canonical)
  end.

Definition stripPathParams (value : string) : string :=
  Join (map (λ segment, cut_before segment ";") (Split value "/")) "/".

Definition matchesPath (routePath requestPath : string) : bool :=
  if String.eqb routePath "/" then true
  else if String.eqb requestPath routePath then true
  else HasPrefix requestPath (TrimRight routePath "/" +:+ "/").

Definition stripRoutePrefix (routePath requestPath : string) : string :=
  if String.eqb requestPath "" || String.eqb routePath "/" then
    if String.eqb requestPath "" then "/" else requestPath
  else if String.eqb requestPath routePath then "/"
  else
    let trimmedRoutePath := TrimRight routePath "/" in
    if HasPrefix requestPath (trimmedRoutePath +:+ "/") then
      let trimmed := TrimPrefix requestPath trimmedRoutePath in
      if String.eqb trimmed "" then "/" else trimmed
    else requestPath.

Definition safeRedirectPath (value : string) : string :=
  let path := TrimSpace value in
  if negb (HasPrefix path "/") || HasPrefix path "//" || HasPrefix path "/\" then "/"
  else path.

(** * The shape of a normalized path

    [path_of segments] is "/" followed by the segments joined with "/". *)

Definition path_of (segments : list string) : string :=
  match segments with
  | [] => "/"
  | _ => "/" +:+ Join segments "/"
  end.

Definition segment_ok (s : string) : Prop :=
  s ≠ "" ∧ ContainsByte s "/" = false ∧ ContainsByte s "\" = false.

(** The segments of a path, as the decisions see them. *)
Definition segments_of (value : string) : list string :=
  List.filter non_empty (Split (slashes value) "/").

Lemma normalizePath_path_of value : normalizePath value = path_of (segments_of (TrimSpace value)).
Proof. reflexivity. Qed.

Lemma segments_of_ok value : Forall segment_ok (segments_of value).
Proof.
  apply Forall_forall. intros s Hs. apply FieldsByte_elem in Hs as [Hin Hne].
  split; [done|]. split; [by eapply Split_no_sep|].
  eapply ContainsByte_Split; [|exact Hin]. by apply ReplaceByte_absent.
Qed.

Lemma filter_non_empty_nil l : List.filter non_empty ("" :: l) = List.filter non_empty l.
Proof. reflexivity. Qed.

Lemma filter_non_empty_cons s l :
  s ≠ "" → List.filter non_empty (s :: l) = s :: List.filter non_empty l.
Proof. intros Hs. simpl. by apply non_empty_true in Hs as ->. Qed.

Lemma filter_non_empty_id l : Forall segment_ok l → List.filter non_empty l = l.
Proof.
  induction 1 as [|s l [Hs _] _ IH]; simpl; [done|].
  apply non_empty_true in Hs as ->. by rewrite IH.
Qed.

Lemma path_of_no_backslash l : Forall segment_ok l → ContainsByte (path_of l) "\" = false.
Proof.
  intros Hl. destruct l as [|s l]; [done|]. unfold path_of. rewrite ContainsByte_app.
  apply ContainsByte_Join; [done|]. intros x Hx.
  eapply Forall_forall in Hl as (_ & _ & ?); eauto.
Qed.

Lemma filter_Split_path_of l :
  Forall segment_ok l → List.filter non_empty (Split (path_of l) "/") = l.
Proof.
  intros Hl. destruct l as [|s l]; [done|].
  change (path_of (s :: l)) with (String "/" (Join (s :: l) "/")).
  rewrite Split_sep, Split_Join; [exact (filter_non_empty_id _ Hl) | done |].
  intros x Hx. eapply Forall_forall in Hl as (_ & ? & _); eauto.
Qed.

Lemma segments_of_path_of l : Forall segment_ok l → segments_of (path_of l) = l.
Proof.
  intros Hl. unfold segments_of, slashes.
  rewrite ReplaceByte_none by (by apply path_of_no_backslash). by apply filter_Split_path_of.
Qed.

Lemma path_of_cons s l : path_of (s :: l) = String "/" (Join (s :: l) "/").
Proof. reflexivity. Qed.

Lemma path_of_app_sep l s :
  l ≠ [] → path_of (l ++ [s]) = path_of l +:+ "/" +:+ s.
Proof.
  intros Hl. destruct l as [|x l]; [done|]. clear Hl.
  change (path_of ((x :: l) ++ [s])) with (String "/" (Join ((x :: l) ++ [s]) "/")).
  change (path_of (x :: l) +:+ "/" +:+ s) with (String "/" (Join (x :: l) "/" +:+ "/" +:+ s)).
  f_equal. revert x. induction l as [|y l IH]; intros x; [done|].
  rewrite <-app_comm_cons, !Join_cons by (by destruct l). by rewrite IH, !string_app_assoc.
Qed.

Lemma path_of_inj l1 l2 :
  Forall segment_ok l1 → Forall segment_ok l2 → path_of l1 = path_of l2 → l1 = l2.
Proof.
  intros H1 H2 Heq. by rewrite <-(segments_of_path_of l1), Heq, segments_of_path_of.
Qed.

#[export] Hint Resolve segments_of_ok : portlyn.

(** ** Prefixes of paths *)

Lemma TrimRight_no_slash s t :
  t ≠ "" → ContainsByte t "/" = false → TrimRight (s +:+ t) "/" = s +:+ t.
Proof.
  intros Hne Ht. unfold TrimRight.
  assert (TrimRightFunc (Ascii.eqb "/") t = t) as Htrim.
  { apply TrimFunc_none. clear Hne. revert Ht.
    induction t as [|a t IH]; [done|]. cbn [ContainsByte string_all]. intros H. destruct_bools.
    rewrite Ascii.eqb_sym, H, IH; done. }
  induction s as [|a s IH]; [done|]. simpl. rewrite IH.
  destruct t; [done|]. by destruct s.
Qed.

Lemma path_of_last l : l ≠ [] → Forall segment_ok l →
  ∃ s t, path_of l = s +:+ t ∧ segment_ok t.
Proof.
  intros Hl Hok. destruct l as [|x l] using rev_ind; [done|].
  apply Forall_app in Hok as [_ [Hx _]%Forall_cons]. destruct l as [|y l].
  - exists "/", x. done.
  - exists (path_of (y :: l) +:+ "/"), x. split; [|done].
    rewrite path_of_app_sep by done. by rewrite string_app_assoc.
Qed.

Lemma TrimRight_path_of l : l ≠ [] → Forall segment_ok l → TrimRight (path_of l) "/" = path_of l.
Proof.
  intros Hl Hok. destruct (path_of_last l Hl Hok) as (s & t & -> & (? & ? & _)).
  by apply TrimRight_no_slash.
Qed.

Lemma path_of_app l1 l2 :
  l1 ≠ [] → l2 ≠ [] → path_of (l1 ++ l2) = path_of l1 +:+ path_of l2.
Proof.
  revert l1. induction l2 as [|s l2 IH]; intros l1 H1 H2; [done|].
  destruct l2 as [|s' l2]; [by rewrite path_of_app_sep|].
  replace (l1 ++ s :: s' :: l2) with ((l1 ++ [s]) ++ s' :: l2) by (by rewrite <-app_assoc).
  rewrite IH, path_of_app_sep by (try done; by destruct l1).
  rewrite string_app_assoc. done.
Qed.

(** A path that starts with a whole path and a slash starts with its segments. *)
Lemma path_of_prefix rs ps t :
  rs ≠ [] → Forall segment_ok rs → Forall segment_ok ps →
  path_of ps = path_of rs +:+ "/" +:+ t → ∃ qs, qs ≠ [] ∧ ps = rs ++ qs.
Proof.
  intros Hne Hrs Hps Heq. exists (List.filter non_empty (Split t "/")).
  assert (ps = rs ++ List.filter non_empty (Split t "/")) as Hseg.
  { rewrite <-(filter_Split_path_of ps), Heq by done.
    change (path_of rs +:+ "/" +:+ t) with (path_of rs +:+ String "/" t).
    by rewrite Split_app, List.filter_app, filter_Split_path_of. }
  split; [|done]. intros Hnil. rewrite Hnil, app_nil_r in Hseg. subst ps.
  apply (f_equal String.length) in Heq. rewrite string_app_length in Heq. simpl in Heq. lia.
Qed.

Lemma HasPrefix_refl_app s t : HasPrefix (s +:+ t) s = true.
Proof. apply HasPrefix_spec. by exists t. Qed.

(** * Theorems *)

(** A normalized path starts with one slash and is never protocol-relative. *)
Theorem normalizePath_not_protocol_relative value :
  HasPrefix (normalizePath value) "/" = true ∧
  HasPrefix (normalizePath value) "//" = false ∧
  HasPrefix (normalizePath value) "/\" = false ∧
  ContainsByte (normalizePath value) "\" = false.
Proof.
  rewrite normalizePath_path_of. pose proof (segments_of_ok (TrimSpace value)) as Hok.
  destruct (segments_of (TrimSpace value)) as [|x l]; [done|].
  rewrite path_of_cons.
  assert (ContainsByte (Join (x :: l) "/") "\" = false) as Hno.
  { apply ContainsByte_Join; [done|]. intros y Hy.
    eapply Forall_forall in Hok as (_ & _ & ?); eauto. }
  apply Forall_cons in Hok as [(Hx & Hs & Hb) _].
  destruct x as [|a x]; [done|]. cbn [ContainsByte] in Hs, Hb.
  apply orb_false_iff in Hs as [Hs _]. apply orb_false_iff in Hb as [Hb _].
  split_and!; [done | | | simpl; by rewrite Hno].
  - destruct l; simpl; by rewrite Hs.
  - destruct l; simpl; by rewrite Hb.
Qed.

(** Route matching is by whole segments. *)
Theorem matchesPath_segments rs ps :
  Forall segment_ok rs → Forall segment_ok ps →
  matchesPath (path_of rs) (path_of ps) = true ↔ rs `prefix_of` ps.
Proof.
  intros Hrs Hps. unfold matchesPath.
  destruct (String.eqb_spec (path_of rs) "/") as [Hroot|Hroot].
  { assert (rs = []) as -> by (apply (path_of_inj rs []); [done | constructor | done]).
    split; [intros _; apply prefix_nil | done]. }
  assert (rs ≠ []) as Hne by (by intros ->).
  destruct (String.eqb_spec (path_of ps) (path_of rs)) as [Heq|Hneq].
  { apply path_of_inj in Heq as ->; [|done..]. split; [intros _; reflexivity | done]. }
  rewrite TrimRight_path_of by done. split.
  - intros [t Ht]%HasPrefix_spec. rewrite string_app_assoc in Ht.
    destruct (path_of_prefix rs ps t) as (qs & _ & ->); [done..|]. by apply prefix_app_r.
  - intros [qs ->]. destruct qs as [|q qs]; [by rewrite app_nil_r in Hneq|].
    rewrite path_of_app by done. rewrite path_of_cons.
    change (String "/" ?u) with ("/" +:+ u). rewrite <-string_app_assoc. apply HasPrefix_refl_app.
Qed.

Lemma matchesPath_segments_witness :
  (matchesPath "/api" "/api/users" = true ↔ ["api"] `prefix_of` ["api"; "users"]) ∧
  (matchesPath "/api" "/apis" = true ↔ ["api"] `prefix_of` ["apis"]).
Proof.
  split; [apply (matchesPath_segments ["api"] ["api"; "users"])|apply (matchesPath_segments ["api"] ["apis"])];
    repeat constructor; done.
Defined.

(** Stripping a route prefix leaves the remaining segments, rooted. *)
Theorem stripRoutePrefix_segments rs ps :
  Forall segment_ok rs → Forall segment_ok ps →
  stripRoutePrefix (path_of rs) (path_of (rs ++ ps)) = path_of ps.
Proof.
  intros Hrs Hps. unfold stripRoutePrefix.
  assert (∀ l, String.eqb (path_of l) "" = false) as Hpe by (by intros []).
  rewrite Hpe. cbn [orb].
  destruct (String.eqb_spec (path_of rs) "/") as [Hroot|Hroot].
  { by assert (rs = []) as -> by (apply (path_of_inj rs []); [done | constructor | done]). }
  assert (rs ≠ []) as Hne by (by intros ->).
  destruct (String.eqb_spec (path_of (rs ++ ps)) (path_of rs)) as [Heq|Hneq].
  { apply path_of_inj in Heq; [|by apply Forall_app|done].
    rewrite <-(app_nil_r rs) in Heq at 2. by apply app_inv_head in Heq as ->. }
  destruct ps as [|p ps]; [by rewrite app_nil_r in Hneq|].
  rewrite TrimRight_path_of, path_of_app by done.
  rewrite TrimPrefix_app, Hpe. rewrite path_of_cons.
  change (String "/" ?u) with ("/" +:+ u). by rewrite <-string_app_assoc, HasPrefix_refl_app.
Qed.

(** ** The canonical path *)

Definition dot_segment (s : string) : bool :=
  String.eqb (cut_before s ";") "." || String.eqb (cut_before s ";") "..".

Lemma canonicalSegments_spec l out :
  canonicalSegments l = Some out ↔
  out = List.filter non_empty l ∧ Forall (λ s, dot_segment s = false) out.
Proof.
  revert out. induction l as [|s l IH]; intros out; cbn [canonicalSegments].
  - split; [intros; simplify_eq; done | by intros [-> _]].
  - destruct (non_empty s) eqn:Hs; simpl; rewrite Hs; [|apply IH].
    destruct (String.eqb (cut_before s ";") "." || String.eqb (cut_before s ";") "..") eqn:Hd.
    + split; [done|]. intros [-> [H _]%Forall_cons]. unfold dot_segment in H. congruence.
    + destruct (canonicalSegments l) as [out'|] eqn:Hl.
      * destruct (proj1 (IH out') eq_refl) as [-> Hf]. split.
        -- intros; simplify_eq. split; [done | by constructor].
        -- by intros [-> _].
      * split; [done|]. intros [-> [_ Hf]%Forall_cons].
        discriminate (proj2 (IH _) (conj eq_refl Hf)).
Qed.

Lemma segments_of_trailing_slash l :
  Forall segment_ok l → segments_of (path_of l +:+ "/") = l.
Proof.
  intros Hl. unfold segments_of, slashes. rewrite ReplaceByte_none.
  - rewrite (Split_app _ "" "/"), List.filter_app, filter_Split_path_of by done. apply app_nil_r.
  - by rewrite ContainsByte_app, path_of_no_backslash.
Qed.

Lemma canonicalRequestPath_same value canonical :
  canonicalRequestPath value = Some canonical →
  segments_of canonical = segments_of value ∧
  Forall (λ s, dot_segment s = false) (segments_of canonical) ∧
  HasPrefix canonical "/" = true.
Proof.
  unfold canonicalRequestPath. intros H.
  destruct (canonicalSegments (Split (slashes value) "/")) as [segs|] eqn:Hc; [|done].
  apply canonicalSegments_spec in Hc as [Hsegs Hdot].
  change (segs = segments_of value) in Hsegs. pose proof (segments_of_ok value) as Hok.
  rewrite <-Hsegs in *. assert (segments_of canonical = segs ∧ HasPrefix canonical "/" = true) as [-> ?].
  { destruct segs as [|s segs]; simplify_eq; [done|].
    change ("/" +:+ Join (s :: segs) "/") with (path_of (s :: segs)).
    destruct (HasSuffix _ _); [|by rewrite segments_of_path_of].
    by rewrite segments_of_trailing_slash. }
  done.
Qed.

(** The path handed to the upstream has exactly the segments the decisions
    saw, and none of them climbs. *)
Theorem canonicalRequestPath_same_segments value canonical :
  canonicalRequestPath value = Some canonical →
  segments_of canonical = segments_of value ∧
  Forall (λ s, dot_segment s = false) (segments_of canonical) ∧
  HasPrefix canonical "/" = true.
Proof. apply canonicalRequestPath_same. Qed.

Lemma canonicalRequestPath_same_segments_witness :
  canonicalRequestPath "//api\users//7;v=1/" = Some "/api/users/7;v=1/" ∧
  segments_of "/api/users/7;v=1/" = segments_of "//api\users//7;v=1/".
Proof.
  assert (canonicalRequestPath "//api\users//7;v=1/" = Some "/api/users/7;v=1/") as H by (vm_compute; reflexivity).
  split; [exact H|]. apply (canonicalRequestPath_same_segments _ _ H).
Defined.

(** The canonicalizer accepts exactly the paths without dot segments. *)
Theorem canonicalRequestPath_total value :
  is_Some (canonicalRequestPath value) ↔
  Forall (λ s, dot_segment s = false) (segments_of value).
Proof.
  unfold canonicalRequestPath. change (List.filter non_empty (Split (slashes value) "/")) with (segments_of value).
  destruct (canonicalSegments (Split (slashes value) "/")) as [segs|] eqn:Hc.
  - apply canonicalSegments_spec in Hc as [-> Hdot]. split; [by intros _|].
    intros _. destruct (List.filter _ _); eauto.
  - split; [by intros [? ?]|]. intros Hdot.
    by rewrite (proj2 (canonicalSegments_spec _ _) (conj eq_refl Hdot)) in Hc.
Qed.

Lemma segments_of_no_space value :
  string_all (λ a, negb (is_space a)) value = true →
  string_all (λ a, negb (is_space a)) (path_of (segments_of value)) = true.
Proof.
  intros H. unfold path_of. destruct (segments_of value) as [|s l] eqn:Hs; [done|].
  rewrite string_all_app. apply string_all_Join; [done|]. intros x Hx.
  rewrite <-Hs in Hx. apply FieldsByte_elem in Hx as [Hx _].
  eapply string_all_Split; [|exact Hx]. apply string_all_map; [|done].
  intros a Ha. by destruct (Ascii.eqb a "\").
Qed.

(** On a path without white space, normalizing twice is normalizing once. *)
Theorem normalizePath_idempotent value :
  string_all (λ a, negb (is_space a)) value = true →
  normalizePath (normalizePath value) = normalizePath value.
Proof.
  intros H. rewrite !normalizePath_path_of, (TrimSpace_none value) by done.
  rewrite TrimSpace_none by (by apply segments_of_no_space).
  by rewrite segments_of_path_of by apply segments_of_ok.
Qed.

(** Without that hypothesis it is not: the last segment may be a space. *)
Example normalizePath_space_segment :
  normalizePath "/a/ /" = "/a/ " ∧ normalizePath "/a/ " = "/a".
Proof. vm_compute. done. Qed.

(** A redirect target is a path on the same host. *)
Theorem safeRedirectPath_local value :
  HasPrefix (safeRedirectPath value) "/" = true ∧
  HasPrefix (safeRedirectPath value) "//" = false ∧
  HasPrefix (safeRedirectPath value) "/\" = false.
Proof.
  unfold safeRedirectPath.
  destruct (negb (HasPrefix (TrimSpace value) "/") || HasPrefix (TrimSpace value) "//"
            || HasPrefix (TrimSpace value) "/\") eqn:H; [done|]. by destruct_bools.
Qed.

(** ** Path parameters *)

Lemma stripPathParams_no_param value : ContainsByte (stripPathParams value) ";" = false.
Proof.
  unfold stripPathParams. apply ContainsByte_Join; [done|].
  intros x (y & -> & _)%list_elem_of_fmap. apply cut_before_no_sep.
Qed.

Lemma stripPathParams_id value : ContainsByte value ";" = false → stripPathParams value = value.
Proof.
  intros H. unfold stripPathParams.
  rewrite (map_ext_in _ id), map_id; [apply Join_Split|].
  intros x Hx%list_elem_of_In. apply cut_before_id. by eapply ContainsByte_Split.
Qed.

#[export] Hint Resolve stripPathParams_no_param : portlyn.
