(* ===== verification/Hosts.v ===== *)
(** Host names: internal/domain/service_host.go and cert_coverage.go, the host
    normalisation of internal/proxy/routing_runtime.go and internal/auth, and the
    host pre-selection of internal/store/routing_store.go. *)
From S2P Require Import Prelude GoStrings Domain.

#[local] Open Scope string_scope.
#[local] Open Scope list_scope.

(** * Definitions *)

(** [normalizeHost] (proxy): lower case, trimmed, cut at the first colon. *)
Definition normalizeHost (value : string) : string :=
  cut_before (TrimSpace (ToLower value)) ":".

(** [normalizeBridgeHost] (auth). *)
Definition normalizeBridgeHost (host : string) : string :=
  cut_before (ToLower (TrimSpace host)) ":".

Definition validRouteHost (host : string) : bool :=
  if String.eqb host "" || (253 <? String.length host)%nat || (127 <? CountByte host "." + 1)%nat
  then false
  else forallb non_empty (Split host ".").

Inductive SubdomainError :=
| SubdomainEmptyLabel
| SubdomainLabelTooLong
| SubdomainHyphen
| SubdomainCharacter.

Definition label_char (ch : ascii) : bool :=
  let n := nat_of_ascii ch in
  ((97 <=? n)%nat && (n <=? 122)%nat) || is_digit ch || Ascii.eqb ch "-".

(** The checks of one label, in the order of the code. *)
Definition check_label (label : string) : result SubdomainError unit :=
  if (String.length label =? 0)%nat then Err SubdomainEmptyLabel
  else if (63 <? String.length label)%nat then Err SubdomainLabelTooLong
  else if HasPrefix label "-" || HasSuffix label "-" then Err SubdomainHyphen
  else if negb (string_all label_char label) then Err SubdomainCharacter
  else Ok tt.

Fixpoint check_labels (i : nat) (labels : list string) : result SubdomainError unit :=
  match labels with
  | [] => Ok tt
  | label :: rest =>
      if String.eqb label "*" && (i =? 0)%nat then check_labels (S i) rest
      else match check_label label with
           | Err e => Err e
           | Ok _ => check_labels (S i) rest
           end
  end.

Definition NormalizeSubdomain (value : string) : result SubdomainError string :=
  let normalized := ToLower (TrimSpace value) in
  if String.eqb normalized "" then Ok ""
  else match check_labels 0 (Split normalized ".") with
       | Err e => Err e
       | Ok _ => Ok normalized
       end.

Definition ServiceHostname (rootDomain subdomain : string) : string :=
  let root := ToLower (TrimSpace rootDomain) in
  if String.eqb root "" then ""
  else match NormalizeSubdomain subdomain with
       | Err _ => root
       | Ok prefix => if String.eqb prefix "" then root else prefix +:+ "." +:+ root
       end.

Definition ServiceHost (service : Service) : string :=
  ServiceHostname (d_Name (s_Domain service)) (s_Subdomain service).

Definition IsWildcardHost (host : string) : bool := HasPrefix host "*.".

Definition LoginAllowedOnHost (service : Service) (host : string) : bool :=
  if negb (IsWildcardHost (ServiceHost service)) then true
  else
    let '(label, _, ok) := Cut (ToLower (TrimSpace host)) "." in
    if negb ok || String.eqb label "" then false
    else existsb (λ allowed, EqualFold (TrimSpace allowed) label) (s_LoginHosts service).

Fixpoint login_hosts_loop (values : list string) (seen out : list string)
    : result string (list string) :=
  match values with
  | [] => Ok (rev out)
  | raw :: rest =>
      let label := ToLower (TrimSpace raw) in
      if String.eqb label "" then login_hosts_loop rest seen out
      else
      let bad := match NormalizeSubdomain label with
                 | Err _ => true
                 | Ok normalized =>
                     negb (String.eqb normalized label)
                     || ContainsByte label "." || ContainsByte label "*"
                 end in
      if bad then Err raw
      else if bool_decide (label ∈ seen) then login_hosts_loop rest seen out
      else login_hosts_loop rest (label :: seen) (label :: out)
  end.

Definition NormalizeLoginHosts (values : list string) : result string (list string) :=
  login_hosts_loop values [] [].

Definition HostMatches (pattern host : string) : bool :=
  let pattern := ToLower (TrimSpace pattern) in
  let host := ToLower (TrimSpace host) in
  if String.eqb pattern "" || String.eqb host "" then false
  else if negb (IsWildcardHost pattern) then String.eqb pattern host
  else
    let '(label, parent, ok) := Cut host "." in
    ok && negb (String.eqb label "") && negb (String.eqb label "*")
    && String.eqb ("*." +:+ parent) pattern.

Definition WildcardForHost (host : string) : string :=
  let labels := Split host "." in
  if (length labels <? 3)%nat then ""
  else "*." +:+ Join (drop 1 labels) ".".

Definition HostCoveredByCertificates (host : string) (certs : list Certificate) : bool :=
  let host := ToLower (TrimSpace host) in
  let wildcard := WildcardForHost host in
  let covers name :=
    let name := ToLower (TrimSpace name) in
    String.eqb name host || (negb (String.eqb wildcard "") && String.eqb name wildcard) in
  existsb (λ cert, covers (c_PrimaryDomain cert) || existsb covers (c_SANs cert)) certs.

(** The suffixes of a host at label boundaries: [normalizedHost[offset:]] for
    the offsets of the labels. *)
Fixpoint candidates_from (host : string) (parts : list string) : list string :=
  match parts with
  | [] => []
  | part :: rest => host :: candidates_from (drop_bytes (String.length part + 1) host) rest
  end.

Definition domainCandidatesForHost (host : string) : list string :=
  let normalizedHost := ToLower (TrimSpace host) in
  if String.eqb normalizedHost "" then []
  else if (253 <? String.length normalizedHost)%nat || (127 <? CountByte normalizedHost "." + 1)%nat
  then []
  else
    let parts := Split normalizedHost "." in
    if existsb (λ part, String.eqb part "") parts then []
    else candidates_from normalizedHost parts.

Definition filterRoutesByHost (routes : list RouteConfig) (host : string) : list RouteConfig :=
  let normalizedHost := ToLower (TrimSpace host) in
  if String.eqb normalizedHost "" then routes
  else
    let route_host route := ToLower (TrimSpace (rc_Host route)) in
    let exact := List.filter (λ route, String.eqb (route_host route) normalizedHost) routes in
    let wildcard := List.filter (λ route,
      negb (String.eqb (route_host route) normalizedHost)
      && IsWildcardHost (route_host route) && HostMatches (route_host route) normalizedHost) routes in
    match exact with
    | [] => wildcard
    | _ => exact
    end.

(** * Lemmas *)

(** A string in the form every comparison uses: lower case, trimmed. *)
Definition canonical_host (s : string) : Prop := ToLower (TrimSpace s) = s.

Lemma canonical_host_intro s : canonical_host (ToLower (TrimSpace s)).
Proof. unfold canonical_host. by rewrite TrimSpace_ToLower, TrimSpace_idem, ToLower_idem. Qed.

Lemma canonical_host_eq s : canonical_host s → ToLower (TrimSpace s) = s.
Proof. done. Qed.

Lemma IsWildcardHost_spec s : IsWildcardHost s = true ↔ ∃ parent, s = "*." +:+ parent.
Proof. apply HasPrefix_spec. Qed.

#[export] Hint Resolve canonical_host_intro : portlyn.

(** The candidates of a host are its suffixes at label boundaries. *)
Lemma candidates_from_head h : h ∈ candidates_from h (Split h ".").
Proof.
  pose proof (Split_nonempty h "."). destruct (Split h "."); [done|]. by constructor.
Qed.

Lemma candidates_from_suffix p s :
  s ∈ candidates_from (p +:+ "." +:+ s) (Split (p +:+ "." +:+ s) ".").
Proof.
  remember (String.length p) as n eqn:Hn. revert p Hn.
  induction (lt_wf n) as [n _ IH]. intros p ->.
  destruct (Cut p ".") as [[a b] f] eqn:Hc. destruct f.
  - apply Cut_found in Hc as [-> Ha].
    rewrite string_app_assoc. cbn [String.append].
    rewrite Split_app_sep by done. cbn [candidates_from]. right.
    replace (String.length a + 1)%nat with (String.length (a +:+ ".")) by (by rewrite string_app_length).
    replace (a +:+ String "." (b +:+ String "." s)) with ((a +:+ ".") +:+ b +:+ String "." s)
      by (by rewrite string_app_assoc).
    rewrite drop_bytes_app. apply (IH (String.length b)); [|done].
    rewrite string_app_length. simpl. lia.
  - apply Cut_not_found in Hc as (-> & -> & Hp). cbn [String.append].
    rewrite Split_app_sep by done. cbn [candidates_from]. right.
    replace (String.length p + 1)%nat with (String.length (p +:+ ".")) by (by rewrite string_app_length).
    replace (p +:+ String "." s) with ((p +:+ ".") +:+ s) by (by rewrite string_app_assoc).
    rewrite drop_bytes_app. apply candidates_from_head.
Qed.

Lemma validRouteHost_candidates host :
  canonical_host host → validRouteHost host = true →
  domainCandidatesForHost host = candidates_from host (Split host ".").
Proof.
  intros Hc Hv. unfold domainCandidatesForHost. rewrite Hc. unfold validRouteHost in Hv.
  destruct (String.eqb host "") eqn:He; [done|].
  cbn [orb] in Hv. destruct (_ || _)%nat; [done|].
  replace (existsb _ _) with false; [done|]. symmetry. apply existsb_false_elem.
  intros x Hx. rewrite forallb_forall_elem in Hv. apply Hv, non_empty_true in Hx.
  by apply String.eqb_neq.
Qed.

(** What the wildcard case of [HostMatches] means. *)
Lemma HostMatches_wildcard parent host :
  canonical_host ("*." +:+ parent) → canonical_host host →
  HostMatches ("*." +:+ parent) host = true ↔
  ∃ label, host = label +:+ "." +:+ parent ∧ ContainsByte label "." = false ∧ label ≠ "" ∧ label ≠ "*".
Proof.
  intros Hp Hh. unfold HostMatches. rewrite Hp, Hh.
  change (IsWildcardHost ("*." +:+ parent)) with true. simpl (String.eqb ("*." +:+ parent) "").
  cbn [orb negb]. split.
  - intros H. destruct (String.eqb host ""); [done|].
    destruct (Cut host ".") as [[label par] ok] eqn:Hc. destruct_bools. subst ok.
    apply Cut_found in Hc as [-> Hl]. apply String.eqb_eq, (string_app_inj_l "*.") in H0 as ->.
    exists label. repeat split; [done|..]; by apply String.eqb_neq.
  - intros (label & -> & Hl & Hne & Hstar).
    replace (String.eqb (label +:+ "." +:+ parent) "") with false by (by destruct label).
    rewrite (proj2 (Cut_found _ "." label parent)) by done.
    rewrite String.eqb_refl. apply String.eqb_neq in Hne as ->. by apply String.eqb_neq in Hstar as ->.
Qed.

Lemma HostMatches_exact pattern host :
  canonical_host pattern → canonical_host host → IsWildcardHost pattern = false →
  HostMatches pattern host = true ↔ pattern = host ∧ host ≠ "".
Proof.
  intros Hp Hh Hw. unfold HostMatches. rewrite Hp, Hh, Hw. cbn [negb].
  destruct (String.eqb_spec pattern ""), (String.eqb_spec host ""); simpl; subst;
    rewrite ?String.eqb_eq; naive_solver.
Qed.

(** ** Subdomains *)

Lemma NormalizeSubdomain_result v s :
  NormalizeSubdomain v = Ok s → s = ToLower (TrimSpace v).
Proof.
  unfold NormalizeSubdomain. destruct (String.eqb_spec (ToLower (TrimSpace v)) "") as [->|].
  - intros; by simplify_eq.
  - destruct (check_labels _ _); intros; by simplify_eq.
Qed.

(** The root domain of a service is a suffix of its host. *)
Lemma ServiceHostname_suffix root sub :
  let r := ToLower (TrimSpace root) in
  r ≠ "" → ServiceHostname root sub = r ∨ ∃ prefix, ServiceHostname root sub = prefix +:+ "." +:+ r.
Proof.
  intros r Hr. unfold ServiceHostname. fold r. apply String.eqb_neq in Hr as ->.
  destruct (NormalizeSubdomain sub) as [prefix|]; [|by left].
  destruct (String.eqb prefix ""); [by left | right; by exists prefix].
Qed.

Lemma canonical_host_app p r :
  canonical_host p → p ≠ "" → canonical_host r → r ≠ "" → canonical_host (p +:+ "." +:+ r).
Proof.
  unfold canonical_host. intros Hp Hp0 Hr Hr0.
  assert (∀ s, ToLower (TrimSpace s) = s → TrimSpace s = s ∧ ToLower s = s) as Hsplit.
  { intros s Hs. split; rewrite <-Hs at 1.
    - by rewrite TrimSpace_ToLower, TrimSpace_idem.
    - by rewrite ToLower_idem. }
  destruct (Hsplit p Hp) as [Hp1 Hp2], (Hsplit r Hr) as [Hr1 Hr2].
  rewrite TrimSpace_app by done. by rewrite !ToLower_app, Hp2, Hr2.
Qed.

Lemma ServiceHostname_canonical root sub : canonical_host (ServiceHostname root sub).
Proof.
  unfold ServiceHostname. destruct (String.eqb_spec (ToLower (TrimSpace root)) ""); [done|].
  destruct (NormalizeSubdomain sub) as [prefix|] eqn:Hn; [|apply canonical_host_intro].
  destruct (String.eqb_spec prefix ""); [apply canonical_host_intro|].
  apply NormalizeSubdomain_result in Hn. subst prefix.
  apply canonical_host_app; auto with portlyn.
Qed.

(** A host with a wildcard in front of a non-wildcard root: the root ends the
    part after the wildcard. *)
Lemma wildcard_root_suffix prefix r parent :
  prefix +:+ "." +:+ r = "*." +:+ parent →
  prefix ≠ "" → parent = r ∨ ∃ q, parent = q +:+ "." +:+ r.
Proof.
  intros H Hne. destruct prefix as [|a [|b prefix]]; [done|..].
  - left. by simplify_eq/=.
  - right. exists prefix. by simplify_eq/=.
Qed.

(** * Theorems *)

(** The SQL pre-selection by domain name keeps every service whose host
    matches the request. *)
Lemma domainCandidates_complete root sub host :
  canonical_host host → validRouteHost host = true →
  canonical_host root → root ≠ "" → IsWildcardHost root = false →
  HostMatches (ServiceHostname root sub) host = true →
  root ∈ domainCandidatesForHost host.
Proof.
  intros Hh Hv Hr Hr0 Hw Hm. rewrite validRouteHost_candidates by done.
  pose proof (ServiceHostname_canonical root sub) as Hc.
  assert (∃ p, host = p +:+ "." +:+ root ∨ host = root) as [p [->| ->]].
  2: { apply candidates_from_suffix. } 2: { apply candidates_from_head. }
  pose proof (ServiceHostname_suffix root sub) as Hs. cbv zeta in Hs.
  rewrite (canonical_host_eq root Hr) in Hs. specialize (Hs Hr0).
  destruct (IsWildcardHost (ServiceHostname root sub)) eqn:Hwild.
  - destruct Hs as [Hs|[prefix Hs]]; rewrite Hs in *; [congruence|].
    apply IsWildcardHost_spec in Hwild as [parent Hp]. rewrite Hp in Hm, Hc.
    apply HostMatches_wildcard in Hm as (label & -> & _); [|done..].
    destruct (decide (prefix = "")) as [->|]; [by simplify_eq/=|].
    destruct (wildcard_root_suffix prefix root parent) as [->|[q ->]]; [done|done|..].
    + exists label. by left.
    + exists (label +:+ "." +:+ q). left. by rewrite !string_app_assoc.
  - apply HostMatches_exact in Hm as [<- _]; [|done..].
    destruct Hs as [->|[prefix ->]]; [exists ""; by right | exists prefix; by left].
Qed.

(** A normalized subdomain is a fixed point of the normalisation. *)
Theorem NormalizeSubdomain_idempotent v s :
  NormalizeSubdomain v = Ok s → NormalizeSubdomain s = Ok s.
Proof.
  intros H. pose proof (NormalizeSubdomain_result _ _ H) as ->.
  unfold NormalizeSubdomain in *. by rewrite canonical_host_intro.
Qed.

(** The proxy and the token issuer agree on what a host is. *)
Theorem normalizeHost_bridge_agree host : normalizeHost host = normalizeBridgeHost host.
Proof. unfold normalizeHost, normalizeBridgeHost. by rewrite TrimSpace_ToLower. Qed.

(** Exact routes shadow wildcard routes, and nothing else is returned. *)
Lemma filterRoutesByHost_spec routes host r :
  let norm s := ToLower (TrimSpace s) in
  norm host ≠ "" →
  r ∈ filterRoutesByHost routes host ↔
  r ∈ routes ∧
  (norm (rc_Host r) = norm host ∨
   (∀ r', r' ∈ routes → norm (rc_Host r') ≠ norm host) ∧
   IsWildcardHost (norm (rc_Host r)) = true ∧ HostMatches (norm (rc_Host r)) (norm host) = true).
Proof.
  intros norm Hne. unfold filterRoutesByHost. fold (norm host).
  rewrite (proj2 (String.eqb_neq (norm host) "")) by done. fold norm.
  set (exact := List.filter _ routes).
  assert (∀ x, x ∈ exact ↔ x ∈ routes ∧ norm (rc_Host x) = norm host) as Hexact.
  { intros x. unfold exact. rewrite !list_elem_of_In, List.filter_In, String.eqb_eq. done. }
  destruct exact as [|e exact'] eqn:He.
  - assert (∀ r', r' ∈ routes → norm (rc_Host r') ≠ norm host) as Hnone.
    { intros r' Hr' Heq. eapply not_elem_of_nil, Hexact; eauto. }
    rewrite !list_elem_of_In, List.filter_In, <-!list_elem_of_In. fold (norm (rc_Host r)).
    rewrite !andb_true_iff, negb_true_iff, String.eqb_neq. split.
    + intros (Hr & (Hx & ?) & ?). split; [done|]. by right.
    + intros (Hr & [Heq|(_ & ? & ?)]); [by destruct (Hnone r)|]. auto.
  - rewrite Hexact. split.
    + intros [? ?]; auto.
    + intros [Hr [?|[Hnone _]]]; [done|]. destruct (proj1 (Hexact e)) as [He1 He2]; [by constructor|].
      by destruct (Hnone e).
Qed.

(** One certificate name against one host, as [HostCoveredByCertificates] does it. *)
Lemma covers_HostMatches h name :
  canonical_host h → (3 ≤ length (Split h "."))%nat →
  (∀ l, l ∈ Split h "." → l ≠ "" ∧ l ≠ "*") →
  let n := ToLower (TrimSpace name) in
  String.eqb n h || (negb (String.eqb (WildcardForHost h) "") && String.eqb n (WildcardForHost h))
  = HostMatches name h.
Proof.
  intros Hh Hlen Hlab n. destruct (Split h ".") as [|l0 rest] eqn:Hs; [simpl in Hlen; lia|].
  destruct (Hlab l0) as [Hl0 Hstar]; [by constructor|].
  assert (rest ≠ []) as Hrest by (destruct rest; [simpl in Hlen; lia | done]).
  assert (h = l0 +:+ "." +:+ Join rest ".") as Hj
    by (rewrite <-Join_cons by done; rewrite <-Hs; symmetry; apply Join_Split).
  assert (WildcardForHost h = "*." +:+ Join rest ".") as ->.
  { unfold WildcardForHost. rewrite Hs. by destruct (Nat.ltb_spec (length (l0 :: rest)) 3); [lia|]. }
  assert (Cut h "." = (l0, Join rest ".", true)) as Hcut.
  { apply Cut_found. split; [done|]. apply (Split_no_sep h). rewrite Hs. by constructor. }
  assert (h ≠ "") as Hh0 by (rewrite Hj; by destruct l0).
  unfold HostMatches. fold n. rewrite Hh, Hcut.
  rewrite (proj2 (String.eqb_neq h "") Hh0), (proj2 (String.eqb_neq l0 "") Hl0),
    (proj2 (String.eqb_neq l0 "*") Hstar). rewrite orb_false_r. simpl (negb _). cbn [andb].
  destruct (String.eqb_spec n "") as [->|Hn].
  { by rewrite (proj2 (String.eqb_neq "" h)). }
  destruct (IsWildcardHost n) eqn:Hw; cbn [negb].
  - rewrite (String.eqb_sym n ("*." +:+ _)). replace (String.eqb n h) with false; [done|].
    symmetry. apply String.eqb_neq. intros ->. apply IsWildcardHost_spec in Hw as [parent Hp].
    rewrite Hp in Hcut. by simplify_eq/=.
  - replace (String.eqb n ("*." +:+ Join rest ".")) with false; [apply orb_false_r|].
    symmetry. apply String.eqb_neq. intros ->. done.
Qed.

(** A certificate covers a host of three or more labels exactly when one of
    its names matches the host the way a wildcard route does. *)
Theorem HostCovered_matches host certs :
  let h := ToLower (TrimSpace host) in
  (3 ≤ length (Split h "."))%nat → (∀ l, l ∈ Split h "." → l ≠ "" ∧ l ≠ "*") →
  HostCoveredByCertificates host certs = true ↔
  ∃ c name, c ∈ certs ∧ (name = c_PrimaryDomain c ∨ name ∈ c_SANs c) ∧ HostMatches name h = true.
Proof.
  intros h Hlen Hlab. unfold HostCoveredByCertificates. fold h.
  pose proof (λ name, covers_HostMatches h name (canonical_host_intro host) Hlen Hlab) as Hcov.
  cbv zeta in Hcov.
  setoid_rewrite existsb_exists_elem. setoid_rewrite orb_true_iff.
  split.
  - intros (c & Hc & [Hp|(san & Hsan & Hp)%existsb_exists_elem]);
      rewrite Hcov in Hp; eauto 10.
  - intros (c & name & Hc & [->|Hsan] & Hm); exists c; (split; [done|]).
    + left. by rewrite Hcov.
    + right. apply existsb_exists_elem. exists name. split; [done|].
      by rewrite Hcov.
Qed.

(** ** Login hosts *)

Lemma login_hosts_loop_spec values seen out res :
  login_hosts_loop values seen out = Ok res →
  (∀ x, x ∈ seen ↔ x ∈ out) → NoDup out →
  (∀ x, x ∈ out → NormalizeSubdomain x = Ok x ∧ ContainsByte x "." = false ∧ ContainsByte x "*" = false ∧ x ≠ "") →
  NoDup res ∧
  (∀ x, x ∈ res → NormalizeSubdomain x = Ok x ∧ ContainsByte x "." = false ∧ ContainsByte x "*" = false ∧ x ≠ "") ∧
  (∀ x, x ∈ res ↔ x ∈ out ∨ ∃ v, v ∈ values ∧ x = ToLower (TrimSpace v) ∧ x ≠ "").
Proof.
  revert seen out. induction values as [|raw values IH]; intros seen out H Hseen Hnd Hok; simpl in H.
  - simplify_eq. split_and!.
    + by apply NoDup_ListNoDup, NoDup_rev, NoDup_ListNoDup.
    + intros x Hx. apply Hok. by rewrite list_elem_of_In, <-in_rev, <-list_elem_of_In in Hx.
    + intros x. rewrite list_elem_of_In, <-in_rev, <-list_elem_of_In.
      split; [by left | intros [?|(v & Hv & _)]; [done | by apply not_elem_of_nil in Hv]].
  - set (label := ToLower (TrimSpace raw)) in *.
    destruct (String.eqb_spec label "") as [Hl|Hl].
    { destruct (IH _ _ H Hseen Hnd Hok) as (? & ? & Hr). split_and!; [done..|].
      intros x. rewrite Hr. setoid_rewrite elem_of_cons. naive_solver. }
    destruct (NormalizeSubdomain label) as [normalized|] eqn:Hn; [|done].
    destruct (negb (String.eqb normalized label) || ContainsByte label "." || ContainsByte label "*") eqn:Hbad; [done|].
    destruct_bools. apply String.eqb_eq in H0. subst normalized.
    case_bool_decide as Hin.
    + destruct (IH _ _ H Hseen Hnd Hok) as (? & ? & Hr). split_and!; [done..|].
      intros x. rewrite Hr. setoid_rewrite elem_of_cons. split; [naive_solver|].
      intros [?|(v & [->|?] & -> & ?)]; [by left | left; by apply Hseen | right; eauto].
    + destruct (IH _ _ H) as (? & ? & Hr).
      * intros x. rewrite !elem_of_cons, Hseen. done.
      * constructor; [by rewrite <-Hseen | done].
      * intros x [->|Hx]%elem_of_cons; auto.
      * split_and!; [done..|]. intros x. rewrite Hr. setoid_rewrite elem_of_cons.
        split; [intros [[->|?]|?]; naive_solver|].
        intros [?|(v & [->|?] & -> & ?)]; [by left; right | by left; left | right; eauto].
Qed.

(** The login hosts kept are the distinct labels given, each one valid. *)
Theorem NormalizeLoginHosts_spec values res :
  NormalizeLoginHosts values = Ok res →
  NoDup res ∧
  (∀ x, x ∈ res ↔ ∃ v, v ∈ values ∧ x = ToLower (TrimSpace v) ∧ x ≠ "") ∧
  (∀ x, x ∈ res → NormalizeSubdomain x = Ok x ∧ ContainsByte x "." = false ∧ ContainsByte x "*" = false).
Proof.
  intros H. destruct (login_hosts_loop_spec _ _ _ _ H) as (Hnd & Hok & Hr).
  - done.
  - constructor.
  - by intros x Hx%not_elem_of_nil.
  - split_and!; [done | | intros x Hx; by destruct (Hok x Hx) as (? & ? & ? & _)].
    intros x. rewrite Hr. split; [intros [Hx|?]; [by apply not_elem_of_nil in Hx | done] | by right].
Qed.
