(* ===== verification/AccessRules.v ===== *)
(** Access rules: internal/proxy/access_rules.go, with [compileCIDRs]
    (manager.go) and [matchesAnyPrefix] (access.go).

    Rules are tried in order against the client address and the request path,
    both as received and with its path parameters stripped. *)
From S2P Require Import Prelude GoStrings Netip Domain Paths.

#[local] Open Scope string_scope.
#[local] Open Scope list_scope.

(** * Definitions *)

Inductive CIDRError := BadCIDR (value : string).

(** One value of the list: nothing when blank. *)
Definition compileCIDR (value : string) : result CIDRError (option Prefix) :=
  let trimmed := TrimSpace value in
  if String.eqb trimmed "" then Ok None
  else if ContainsByte trimmed "/" then
    match ParsePrefix trimmed with
    | None => Err (BadCIDR trimmed)
    | Some prefix => Ok (Some (Masked prefix))
    end
  else
    match ParseAddr trimmed with
    | None => Err (BadCIDR trimmed)
    | Some addr => Ok (Some (PrefixFrom addr (BitLen addr)))
    end.

Fixpoint compileCIDRs (values : list string) : result CIDRError (list Prefix) :=
  match values with
  | [] => Ok []
  | value :: rest =>
      match compileCIDR value with
      | Err e => Err e
      | Ok None => compileCIDRs rest
      | Ok (Some prefix) =>
          match compileCIDRs rest with
          | Err e => Err e
          | Ok prefixes => Ok (prefix :: prefixes)
          end
      end
  end.

Definition matchesAnyPrefix (ip : Addr) (prefixes : list Prefix) : bool :=
  existsb (λ prefix, PrefixContains prefix ip) prefixes.

Record compiledAccessRule := {
  cr_Index : nat;
  cr_Name : string;
  cr_Action : string;
  cr_Include : list Prefix;
  cr_Exclude : list Prefix;
  cr_Patterns : list (list string);
  cr_AnyPath : bool;
}.

Inductive AccessRuleError :=
| UnknownAction (index : nat) (action : string)
| InvalidSource (index : nat) (raw : string).

(** [ParseAccessRuleSources]: the error is the offending source. *)
Fixpoint ParseAccessRuleSources (values : list string) : result string (list Prefix * list Prefix) :=
  match values with
  | [] => Ok ([], [])
  | raw :: rest =>
      let value := TrimSpace raw in
      if String.eqb value "" then ParseAccessRuleSources rest
      else
      let negate := HasPrefix value "!" in
      let value := TrimSpace (TrimPrefix value "!") in
      match compileCIDRs [value] with
      | Err _ | Ok [] => Err raw
      | Ok prefixes =>
          match ParseAccessRuleSources rest with
          | Err e => Err e
          | Ok (include, exclude) =>
              Ok (if negate then (include, prefixes ++ exclude) else (prefixes ++ include, exclude))
          end
      end
  end.

Definition compileAccessRulePath (raw : string) : option (list string) :=
  let value := TrimSpace raw in
  if String.eqb value "" then None else Some (FieldsByte value "/").

Definition compileAccessRule (i : nat) (rule : AccessRule) : result AccessRuleError compiledAccessRule :=
  let action := ToLower (TrimSpace (ar_Action rule)) in
  if negb (String.eqb action AccessRuleAllow || String.eqb action AccessRuleAuthenticate
           || String.eqb action AccessRuleDeny)
  then Err (UnknownAction (i + 1) (ar_Action rule))
  else
  match ParseAccessRuleSources (ar_Sources rule) with
  | Err raw => Err (InvalidSource (i + 1) raw)
  | Ok (include, exclude) =>
      let patterns := omap compileAccessRulePath (ar_Paths rule) in
      Ok {| cr_Index := i + 1;
            cr_Name := TrimSpace (ar_Name rule);
            cr_Action := action;
            cr_Include := include;
            cr_Exclude := exclude;
            cr_Patterns := patterns;
            cr_AnyPath := (length patterns =? 0)%nat |}
  end.

Fixpoint compileAccessRules_from (i : nat) (rules : list AccessRule)
    : result AccessRuleError (list compiledAccessRule) :=
  match rules with
  | [] => Ok []
  | rule :: rest =>
      match compileAccessRule i rule with
      | Err e => Err e
      | Ok compiled =>
          match compileAccessRules_from (S i) rest with
          | Err e => Err e
          | Ok out => Ok (compiled :: out)
          end
      end
  end.
Definition compileAccessRules := compileAccessRules_from 0.

(** The segment loop of [accessRulePathMatches], after its length check. *)
Fixpoint segments_match (pattern segments : list string) (foldCase : bool) : bool :=
  match pattern, segments with
  | [], _ => true
  | part :: pattern', segment :: segments' =>
      (String.eqb part "*" || (foldCase && EqualFold part segment) || String.eqb part segment)
      && segments_match pattern' segments' foldCase
  | _ :: _, [] => false
  end.

Definition accessRulePathMatches (pattern segments : list string) (foldCase : bool) : bool :=
  if (length segments <? length pattern)%nat then false
  else segments_match pattern segments foldCase.

(** [strings.Split(strings.Trim(path, "/"), "/")], empty for the root. *)
Definition rule_segments (path : string) : list string :=
  let segments := Split (Trim path "/") "/" in
  match segments with
  | [s] => if String.eqb s "" then [] else segments
  | _ => segments
  end.

Definition matches (r : compiledAccessRule) (ip : Addr) (path : string) : bool :=
  if (0 <? length (cr_Include r))%nat && negb (matchesAnyPrefix ip (cr_Include r)) then false
  else if matchesAnyPrefix ip (cr_Exclude r) then false
  else if cr_AnyPath r then true
  else existsb (λ pattern,
         accessRulePathMatches pattern (rule_segments path)
           (negb (String.eqb (cr_Action r) AccessRuleAllow))) (cr_Patterns r).

(** The body of the loop of [matchAccessRule]. *)
Definition rule_hit (r : compiledAccessRule) (ip : Addr) (path : string) : bool :=
  let stripped := stripPathParams path in
  let raw := matches r ip path in
  let plain := if String.eqb stripped path then raw else matches r ip stripped in
  if String.eqb (cr_Action r) AccessRuleAllow then raw && plain else raw || plain.

Definition matchAccessRule (rules : list compiledAccessRule) (ip : Addr) (path : string)
    : option compiledAccessRule :=
  List.find (λ r, rule_hit r ip path) rules.

Definition FirstMatchingAccessRule (rules : list AccessRule) (ip : Addr) (path : string) : option nat :=
  match compileAccessRules rules with
  | Err _ => None
  | Ok compiled =>
      match matchAccessRule compiled ip path with
      | Some rule => Some (cr_Index rule)
      | None => None
      end
  end.

(** * Lemmas *)

Lemma find_first {A} (f : A → bool) l x :
  List.find f l = Some x ↔
  ∃ i, l !! i = Some x ∧ f x = true ∧ ∀ j y, (j < i)%nat → l !! j = Some y → f y = false.
Proof.
  induction l as [|y l IH]; simpl.
  - split; [done | by intros (? & ? & _)].
  - destruct (f y) eqn:Hy.
    + split.
      * intros ?; simplify_eq. exists 0. split_and!; [done..|lia].
      * intros ([|i] & Hi & Hx & Hj); simplify_eq/=; [done|].
        by rewrite (Hj 0 y) in Hy by (done || lia).
    + rewrite IH. split.
      * intros (i & Hi & Hx & Hj). exists (S i). split_and!; [done..|].
        intros [|j] z Hlt Hz; simplify_eq/=; [done | apply (Hj j); [lia|done]].
      * intros ([|i] & Hi & Hx & Hj); simplify_eq/=; [congruence|].
        exists i. split_and!; [done..|]. intros j z Hlt. apply (Hj (S j)). lia.
Qed.

Lemma find_none {A} (f : A → bool) l :
  List.find f l = None ↔ ∀ i x, l !! i = Some x → f x = false.
Proof.
  induction l as [|y l IH]; simpl; [done|]. destruct (f y) eqn:Hy.
  - split; [done|]. intros H. by rewrite (H 0 y) in Hy.
  - rewrite IH. split; [intros H [|i] x Hx; simplify_eq/=; eauto | intros H i; apply (H (S i))].
Qed.

(** What a hit is, with the short cut for paths without parameters removed. *)
Lemma rule_hit_spec r ip path :
  rule_hit r ip path =
  if String.eqb (cr_Action r) AccessRuleAllow
  then matches r ip path && matches r ip (stripPathParams path)
  else matches r ip path || matches r ip (stripPathParams path).
Proof.
  unfold rule_hit. by destruct (String.eqb_spec (stripPathParams path) path) as [->|].
Qed.

Lemma rule_hit_stripped r ip path :
  rule_hit r ip (stripPathParams path) = matches r ip (stripPathParams path).
Proof.
  rewrite rule_hit_spec, (stripPathParams_id (stripPathParams path)) by apply stripPathParams_no_param.
  destruct (String.eqb _ _); [apply andb_diag | apply orb_diag].
Qed.

Lemma segments_match_fold p s s' :
  ToLower <$> s = ToLower <$> s' → segments_match p s true = segments_match p s' true.
Proof.
  revert s s'. induction p as [|part p IH]; intros s s' H; [by destruct s, s'|].
  destruct s as [|x s], s' as [|x' s']; simplify_eq/=; [done|].
  match goal with Hx : ToLower x = ToLower x' |- _ => rename Hx into Hxx end.
  rewrite (IH s s') by done. f_equal. unfold EqualFold. rewrite Hxx.
  destruct (String.eqb part "*"); [done|]. simpl.
  destruct (String.eqb_spec (ToLower part) (ToLower x')) as [|Hne]; [done|]. simpl.
  destruct (String.eqb_spec part x), (String.eqb_spec part x'); congruence.
Qed.

Lemma accessRulePathMatches_length p s fold :
  accessRulePathMatches p s fold = segments_match p s fold.
Proof.
  unfold accessRulePathMatches. destruct (Nat.ltb_spec (length s) (length p)) as [Hlt|]; [|done].
  symmetry. revert s Hlt. induction p as [|part p IH]; intros s Hlt; [simpl in Hlt; lia|].
  destruct s as [|x s]; [done|]. simpl. rewrite IH by (simpl in Hlt; lia). apply andb_false_r.
Qed.

(** ** Case variants of a path *)

Lemma ToLower_Split s sep :
  lower_ascii sep = sep → (∀ a, lower_ascii a = sep → a = sep) →
  Split (ToLower s) sep = ToLower <$> Split s sep.
Proof.
  intros Hsep Hinv. induction s as [|a s IH]; [done|].
  change (ToLower (String a s)) with (String (lower_ascii a) (ToLower s)). cbn [Split].
  rewrite IH. destruct (Ascii.eqb_spec a sep) as [->|Hne].
  - by rewrite Hsep, Ascii.eqb_refl.
  - destruct (Ascii.eqb_spec (lower_ascii a) sep) as [Heq|]; [by apply Hinv in Heq|].
    by destruct (Split s sep).
Qed.

Lemma lower_ascii_slash a : lower_ascii a = "/"%char → a = "/"%char.
Proof. by destruct a as [[] [] [] [] [] [] [] []]. Qed.

Lemma lower_ascii_semi a : lower_ascii a = ";"%char → a = ";"%char.
Proof. by destruct a as [[] [] [] [] [] [] [] []]. Qed.

Lemma eqb_lower_slash a : Ascii.eqb "/" (lower_ascii a) = Ascii.eqb "/" a.
Proof. by destruct a as [[] [] [] [] [] [] [] []]. Qed.

Lemma rule_segments_lower path : rule_segments (ToLower path) = ToLower <$> rule_segments path.
Proof.
  unfold rule_segments, Trim.
  assert (TrimLeftFunc (Ascii.eqb "/") (TrimRightFunc (Ascii.eqb "/") (ToLower path)) =
          ToLower (TrimLeftFunc (Ascii.eqb "/") (TrimRightFunc (Ascii.eqb "/") path))) as ->.
  { unfold ToLower. rewrite TrimRightFunc_map by apply eqb_lower_slash.
    apply TrimLeftFunc_map, eqb_lower_slash. }
  rewrite ToLower_Split by (done || apply lower_ascii_slash).
  destruct (Split _ "/") as [|s [|s' l]]; simpl; [done| |done].
  by destruct s.
Qed.

Lemma cut_before_lower s : cut_before (ToLower s) ";" = ToLower (cut_before s ";").
Proof.
  unfold cut_before. induction s as [|a s IH]; [done|].
  change (ToLower (String a s)) with (String (lower_ascii a) (ToLower s)). cbn [Cut].
  destruct (Ascii.eqb_spec a ";") as [->|Hne]; [done|].
  destruct (Ascii.eqb_spec (lower_ascii a) ";") as [Heq|]; [by apply lower_ascii_semi in Heq|].
  destruct (Cut (ToLower s) ";") as [[b1 ?] ?], (Cut s ";") as [[b2 ?] ?].
  simpl in *. by rewrite IH.
Qed.

Lemma Join_lower l : Join (ToLower <$> l) "/" = ToLower (Join l "/").
Proof.
  induction l as [|s l IH]; [done|]. destruct l as [|s' l]; [done|].
  change (ToLower <$> (s :: s' :: l)) with (ToLower s :: ToLower s' :: (ToLower <$> l)).
  rewrite (Join_cons (ToLower s)), (Join_cons s), !ToLower_app, <-IH by done. done.
Qed.

Lemma stripPathParams_lower path : stripPathParams (ToLower path) = ToLower (stripPathParams path).
Proof.
  unfold stripPathParams. rewrite ToLower_Split by (done || apply lower_ascii_slash).
  rewrite <-Join_lower. f_equal. rewrite <-!list_fmap_compose. apply list_fmap_ext.
  intros i x _. apply cut_before_lower.
Qed.

(** Rules that restrict match every case variant of a path. *)
Lemma matches_fold r ip p q :
  cr_Action r ≠ AccessRuleAllow → ToLower p = ToLower q → matches r ip p = matches r ip q.
Proof.
  intros Ha Hpq. unfold matches. apply String.eqb_neq in Ha as ->. simpl (negb false).
  destruct (_ && _); [done|]. destruct (matchesAnyPrefix _ _); [done|].
  destruct (cr_AnyPath r); [done|].
  assert (∀ pat, accessRulePathMatches pat (rule_segments p) true =
                 accessRulePathMatches pat (rule_segments q) true) as H.
  { intros pat. rewrite !accessRulePathMatches_length. apply segments_match_fold.
    by rewrite <-!rule_segments_lower, Hpq. }
  induction (cr_Patterns r) as [|pat pats IH]; simpl; [done|]. by rewrite H, IH.
Qed.

(** * Theorems *)

(** C23 Path parameters cannot evade a deny rule: when the request without its
    parameters is denied by rule [i], the request with them is decided by a rule
    at or before [i], and not by an allow rule. *)
Theorem path_params_cannot_evade_deny rules ip path i deny :
  rules !! i = Some deny → cr_Action deny = AccessRuleDeny →
  rule_hit deny ip (stripPathParams path) = true →
  (∀ j r, (j < i)%nat → rules !! j = Some r → rule_hit r ip (stripPathParams path) = false) →
  ∃ k r, (k ≤ i)%nat ∧ rules !! k = Some r ∧
    matchAccessRule rules ip path = Some r ∧ cr_Action r ≠ AccessRuleAllow.
Proof.
  intros Hi Hdeny Hhit Hbefore.
  assert (rule_hit deny ip path = true) as Hhit'.
  { rewrite rule_hit_spec, Hdeny. rewrite rule_hit_stripped in Hhit. simpl. by rewrite Hhit, orb_true_r. }
  destruct (matchAccessRule rules ip path) as [r|] eqn:Hm.
  2: { unfold matchAccessRule in Hm. rewrite find_none in Hm. by rewrite (Hm i deny) in Hhit'. }
  apply find_first in Hm as (k & Hk & Hrhit & Hfirst).
  assert (k ≤ i)%nat as Hki.
  { destruct (decide (k ≤ i)%nat); [done|]. rewrite (Hfirst i deny) in Hhit' by (done || lia). done. }
  exists k, r. split_and!; [done..|]. intros Hallow.
  destruct (decide (k = i)) as [->|Hne]; [rewrite Hk in Hi; simplify_eq; by rewrite Hallow in Hdeny|].
  pose proof (Hbefore k r ltac:(lia) Hk) as Hno. rewrite rule_hit_stripped in Hno.
  rewrite rule_hit_spec, Hallow in Hrhit. simpl in Hrhit. by rewrite Hno, andb_false_r in Hrhit.
Qed.

Definition sample_rule (action : string) (path : list string) : compiledAccessRule :=
  {| cr_Index := 0; cr_Name := ""; cr_Action := action; cr_Include := []; cr_Exclude := [];
     cr_Patterns := [path]; cr_AnyPath := false |}.

Definition sample_rules : list compiledAccessRule :=
  [sample_rule AccessRuleDeny ["admin"; "*"]; sample_rule AccessRuleAllow ["*"]].

Lemma path_params_cannot_evade_deny_witness :
  ∃ k r, (k ≤ 0)%nat ∧ sample_rules !! k = Some r ∧
    matchAccessRule sample_rules (Addr4 16843009) "/admin;x=1/users" = Some r ∧ cr_Action r ≠ AccessRuleAllow.
Proof.
  apply (path_params_cannot_evade_deny sample_rules (Addr4 16843009) "/admin;x=1/users" 0
           (sample_rule AccessRuleDeny ["admin"; "*"])); [reflexivity|reflexivity|vm_compute; reflexivity|].
  intros; lia.
Defined.

(** Letter case cannot evade a deny rule: when a path is denied by rule [i],
    every case variant of it is decided at or before [i]. *)
Theorem case_variant_cannot_skip_deny rules ip p q i deny :
  ToLower p = ToLower q → rules !! i = Some deny → cr_Action deny = AccessRuleDeny →
  rule_hit deny ip p = true →
  ∃ k r, (k ≤ i)%nat ∧ rules !! k = Some r ∧ matchAccessRule rules ip q = Some r.
Proof.
  intros Hpq Hi Hdeny Hhit.
  assert (rule_hit deny ip q = true) as Hhit'.
  { rewrite rule_hit_spec in *. rewrite Hdeny in *. simpl in *.
    rewrite <-(matches_fold deny ip p q), <-(matches_fold deny ip (stripPathParams p) (stripPathParams q));
      rewrite ?Hdeny; try done. by rewrite <-!stripPathParams_lower, Hpq. }
  destruct (matchAccessRule rules ip q) as [r|] eqn:Hm.
  2: { unfold matchAccessRule in Hm. rewrite find_none in Hm. by rewrite (Hm i deny) in Hhit'. }
  apply find_first in Hm as (k & Hk & _ & Hfirst). exists k, r. split_and!; [|done..].
  destruct (decide (k ≤ i)%nat); [done|]. by rewrite (Hfirst i deny) in Hhit' by (done || lia).
Qed.

Lemma case_variant_cannot_skip_deny_witness :
  ∃ k r, (k ≤ 0)%nat ∧ sample_rules !! k = Some r ∧
    matchAccessRule sample_rules (Addr4 16843009) "/ADMIN/users" = Some r.
Proof.
  apply (case_variant_cannot_skip_deny sample_rules (Addr4 16843009) "/admin/users" "/ADMIN/users" 0
           (sample_rule AccessRuleDeny ["admin"; "*"])); vm_compute; reflexivity.
Defined.
