(* ===== verification/AccessPolicy.v ===== *)
(** Access policies: internal/proxy/access.go (effective policy, restricted
    policy, e-mail allow lists, countries, access windows) and the compilation of
    access windows in manager.go.  internal/store/routing_store.go repeats
    [effectiveAccessForService], [normalizedPolicy], [normalizedAccessMethod] and
    [cloneJSONObject] word for word. *)
From S2P Require Import Prelude GoStrings Domain.

#[local] Open Scope string_scope.
#[local] Open Scope list_scope.

(** * Effective policy *)

(** [cloneJSONObject]: a fresh map with the same entries; maps are values here. *)
Definition cloneJSONObject (value : JSONObject) : JSONObject :=
  map_fold (λ key item out, <[key := item]> out) ∅ value.

Definition normalizedPolicy (policy : AccessPolicy) (legacy : string) : AccessPolicy :=
  if String.eqb (TrimSpace (ap_AccessMode policy)) "" then
    if String.eqb legacy AuthPolicyPublic then
      {| ap_AccessMode := AccessModePublic;
         ap_AllowedRoles := ap_AllowedRoles policy;
         ap_AllowedGroups := ap_AllowedGroups policy;
         ap_AllowedServiceGroups := ap_AllowedServiceGroups policy |}
    else if String.eqb legacy AuthPolicyAdminOnly then
      {| ap_AccessMode := AccessModeRestricted;
         ap_AllowedRoles := [RoleAdmin];
         ap_AllowedGroups := ap_AllowedGroups policy;
         ap_AllowedServiceGroups := ap_AllowedServiceGroups policy |}
    else
      {| ap_AccessMode := AccessModeAuthenticated;
         ap_AllowedRoles := ap_AllowedRoles policy;
         ap_AllowedGroups := ap_AllowedGroups policy;
         ap_AllowedServiceGroups := ap_AllowedServiceGroups policy |}
  else policy.

Definition normalizedAccessMethod (value : string) : string :=
  let v := TrimSpace value in
  if String.eqb v "" || String.eqb v AccessMethodSession then AccessMethodSession
  else if String.eqb v AccessMethodOIDCOnly then AccessMethodOIDCOnly
  else if String.eqb v AccessMethodPIN then AccessMethodPIN
  else if String.eqb v AccessMethodEmailCode then AccessMethodEmailCode
  else AccessMethodSession.

Definition emptyPolicy : AccessPolicy := {|
  ap_AccessMode := ""; ap_AllowedRoles := []; ap_AllowedGroups := []; ap_AllowedServiceGroups := [] |}.

Definition group_le (a b : ServiceGroup) : Prop := (sg_ID a ≤ sg_ID b)%N.
#[global] Instance group_le_dec : RelDecision group_le := λ a b, N.le_dec (sg_ID a) (sg_ID b).

(** A group takes part when it sets an access mode or an access method. *)
Definition group_applies (group : ServiceGroup) : bool :=
  negb (String.eqb (TrimSpace (ap_AccessMode (sg_DefaultAccessPolicy group))) "")
  || negb (String.eqb (TrimSpace (sg_AccessMethod group)) "").

Definition EffectiveAccessForService (service : Service)
    : AccessPolicy * string * JSONObject * option ServiceGroup :=
  let groups := merge_sort group_le (s_ServiceGroups service) in
  let serviceMethod := TrimSpace (s_AccessMethod service) in
  if negb (s_UseGroupPolicy service) then
    (normalizedPolicy {| ap_AccessMode := s_AccessMode service;
                         ap_AllowedRoles := s_AllowedRoles service;
                         ap_AllowedGroups := s_AllowedGroups service;
                         ap_AllowedServiceGroups := s_AllowedServiceGroups service |}
                      (s_AuthPolicy service),
     normalizedAccessMethod serviceMethod,
     cloneJSONObject (s_AccessMethodConfig service),
     None)
  else
    match List.find group_applies groups with
    | Some group =>
        let '(method, config) :=
          if negb (String.eqb serviceMethod "")
          then (serviceMethod, cloneJSONObject (s_AccessMethodConfig service))
          else (TrimSpace (sg_AccessMethod group), cloneJSONObject (sg_AccessMethodConfig group)) in
        (normalizedPolicy (sg_DefaultAccessPolicy group) (s_AuthPolicy service),
         normalizedAccessMethod method, config, Some group)
    | None =>
        (normalizedPolicy emptyPolicy (s_AuthPolicy service),
         normalizedAccessMethod serviceMethod,
         cloneJSONObject (s_AccessMethodConfig service),
         None)
    end.

(** * Restricted policies *)

Definition isAllowedByRestrictedPolicy (user : option User) (groupIDs : list N) (policy : AccessPolicy) : bool :=
  match user with
  | None => false
  | Some user =>
      existsb (λ role, String.eqb role (u_Role user)) (ap_AllowedRoles policy)
      || (let groupSet : gset N := list_to_set groupIDs in
          existsb (λ groupID, bool_decide (groupID ∈ groupSet)) (ap_AllowedGroups policy))
  end.

(** * E-mail allow lists *)

Definition allowed_emails (config : JSONObject) : list string :=
  match config !! "allowed_emails" with
  | Some (AnySlice raw) =>
      omap (λ entry, match entry with AnyString s => Some (ToLower (TrimSpace s)) | _ => None end) raw
  | Some (AnyStrings raw) => map (λ entry, ToLower (TrimSpace entry)) raw
  | _ => []
  end.

Definition routeEmailAllowed (email : string) (config : JSONObject) : bool :=
  let normalized := ToLower (TrimSpace email) in
  let allowedEmails := allowed_emails config in
  if (0 <? length allowedEmails)%nat then
    existsb (λ allowed, negb (String.eqb allowed "") && String.eqb allowed normalized) allowedEmails
  else
    match config !! "allowed_email_domain" with
    | Some (AnyString raw) =>
        let allowed := TrimPrefix (ToLower (TrimSpace raw)) "@" in
        if String.eqb allowed "" then true
        else match Split normalized "@" with
             | [_; dom] => String.eqb dom allowed
             | _ => false
             end
    | _ => true
    end.

(** * Countries *)

Inductive CountryVerdict := CountryAllowed | BlockedCountry | CountryNotAllowed.

Definition countryAllowedByRoute (country : string) (allowed blocked : list string) : CountryVerdict :=
  if String.eqb country "" then CountryAllowed
  else if existsb (λ c, EqualFold c country) blocked then BlockedCountry
  else if (length allowed =? 0)%nat then CountryAllowed
  else if existsb (λ c, EqualFold c country) allowed then CountryAllowed
  else CountryNotAllowed.

(** * Access windows

    A [*time.Location] is the offset from UTC, in seconds, at each Unix second;
    the zone database behind [time.LoadLocation] is a parameter. *)

Definition Location := Z → Z.
Definition UTC : Location := λ _, 0%Z.

Record compiledAccessWindow := {
  cw_Name : string;
  cw_Weekdays : list Z;            (* Sunday = 0, ..., Saturday = 6 *)
  cw_StartMinutes : Z;
  cw_EndMinutes : Z;
  cw_Location : Location;
}.

Inductive WindowError := BadTime (value : string) | BadZone (value : string).

Definition parseWeekday (value : string) : option Z :=
  let v := ToLower (TrimSpace value) in
  if String.eqb v "sunday" then Some 0%Z
  else if String.eqb v "monday" then Some 1%Z
  else if String.eqb v "tuesday" then Some 2%Z
  else if String.eqb v "wednesday" then Some 3%Z
  else if String.eqb v "thursday" then Some 4%Z
  else if String.eqb v "friday" then Some 5%Z
  else if String.eqb v "saturday" then Some 6%Z
  else None.

Definition digit (a : ascii) : Z := (Z.of_nat (nat_of_ascii a) - 48)%Z.

(** [time.Parse("15:04", s)], as minutes since midnight: an hour of one or two
    digits below 24, a colon, and a two-digit minute below 60. *)
Definition parseClock (s : string) : option Z :=
  let finish h m1 m2 :=
    if is_digit m1 && is_digit m2 then
      let m := (digit m1 * 10 + digit m2)%Z in
      if (h <? 24)%Z && (m <? 60)%Z then Some (h * 60 + m)%Z else None
    else None in
  match s with
  | String h1 (String ":" (String m1 (String m2 EmptyString))) =>
      if is_digit h1 then finish (digit h1) m1 m2 else None
  | String h1 (String h2 (String ":" (String m1 (String m2 EmptyString)))) =>
      if is_digit h1 && is_digit h2 then finish (digit h1 * 10 + digit h2)%Z m1 m2 else None
  | _ => None
  end.

(** Weekday and minute of the day of an instant (nanoseconds) in a location.
    1 January 1970 was a Thursday. *)
Definition local_seconds (loc : Location) (now : Z) : Z :=
  let s := (now / Second)%Z in (s + loc s)%Z.
Definition local_weekday (loc : Location) (now : Z) : Z :=
  ((local_seconds loc now / 86400 + 4) mod 7)%Z.
Definition local_minutes (loc : Location) (now : Z) : Z :=
  ((local_seconds loc now mod 86400) / 60)%Z.

Definition accessWindowMatches (window : compiledAccessWindow) (now : Z) : bool :=
  if (0 <? length (cw_Weekdays window))%nat
     && negb (existsb (Z.eqb (local_weekday (cw_Location window) now)) (cw_Weekdays window))
  then false
  else
    let currentMinutes := local_minutes (cw_Location window) now in
    if (cw_StartMinutes window <=? cw_EndMinutes window)%Z
    then (cw_StartMinutes window <=? currentMinutes)%Z && (currentMinutes <=? cw_EndMinutes window)%Z
    else (cw_StartMinutes window <=? currentMinutes)%Z || (currentMinutes <=? cw_EndMinutes window)%Z.

(** The test of [enforceAccessWindows]. *)
Definition withinAccessWindows (windows : list compiledAccessWindow) (now : Z) : bool :=
  match windows with
  | [] => true
  | _ => existsb (λ window, accessWindowMatches window now) windows
  end.

Section WithZones.
Context (LoadLocation : string → option Location).

Definition compileAccessWindow (value : AccessWindow) : result WindowError compiledAccessWindow :=
  match parseClock (aw_StartTime value) with
  | None => Err (BadTime (aw_StartTime value))
  | Some start =>
  match parseClock (aw_EndTime value) with
  | None => Err (BadTime (aw_EndTime value))
  | Some end_ =>
  match (if negb (String.eqb (TrimSpace (aw_Timezone value)) "") then LoadLocation (aw_Timezone value)
         else Some UTC) with
  | None => Err (BadZone (aw_Timezone value))
  | Some location =>
      Ok {| cw_Name := aw_Name value;
            cw_Weekdays := omap parseWeekday (aw_DaysOfWeek value);
            cw_StartMinutes := start;
            cw_EndMinutes := end_;
            cw_Location := location |}
  end end end.

Definition compileAccessWindows (values : list AccessWindow) : result WindowError (list compiledAccessWindow) :=
  result_mapM compileAccessWindow values.

End WithZones.

(** * Lemmas *)

Lemma cloneJSONObject_id value : cloneJSONObject value = value.
Proof.
  unfold cloneJSONObject. apply (map_fold_weak_ind (λ r m, r = m)); [done|].
  intros k x m r _ ->. done.
Qed.

Lemma normalizedPolicy_mode policy legacy :
  ap_AccessMode (normalizedPolicy policy legacy) =
  if String.eqb (TrimSpace (ap_AccessMode policy)) "" then
    if String.eqb legacy AuthPolicyPublic then AccessModePublic
    else if String.eqb legacy AuthPolicyAdminOnly then AccessModeRestricted else AccessModeAuthenticated
  else ap_AccessMode policy.
Proof. unfold normalizedPolicy. repeat case_match; done. Qed.

Lemma digit_bound a : is_digit a = true → (0 ≤ digit a ≤ 9)%Z.
Proof.
  unfold is_digit, digit. intros H. destruct_bools.
  apply Nat.leb_le in H, H0. lia.
Qed.

Lemma parseClock_bound s m : parseClock s = Some m → (0 ≤ m < 1440)%Z.
Proof.
  unfold parseClock. intros H. repeat case_match; simplify_eq; destruct_bools;
    repeat match goal with
           | Hd : is_digit _ = true |- _ => apply digit_bound in Hd
           | Hl : (_ <? _)%Z = true |- _ => apply Z.ltb_lt in Hl
           end; lia.
Qed.

Lemma local_minutes_bound loc now : (0 ≤ local_minutes loc now < 1440)%Z.
Proof.
  unfold local_minutes. pose proof (Z.mod_pos_bound (local_seconds loc now) 86400 ltac:(lia)).
  split; [apply Z.div_pos; lia | apply Z.div_lt_upper_bound; lia].
Qed.

#[global] Instance group_le_total : Total group_le.
Proof. intros a b. unfold group_le. lia. Qed.
#[global] Instance group_le_trans : Transitive group_le.
Proof. intros a b c. unfold group_le. lia. Qed.

(** The first applicable group of the sorted list is the applicable group with
    the least identifier. *)
Lemma find_sorted_least f l g :
  StronglySorted group_le l → List.find f l = Some g →
  g ∈ l ∧ f g = true ∧ ∀ g', g' ∈ l → f g' = true → (sg_ID g ≤ sg_ID g')%N.
Proof.
  induction 1 as [|x l Hs IH Hall]; simpl; [done|].
  destruct (f x) eqn:Hx.
  - intros ?; simplify_eq. split_and!; [by constructor | done |].
    intros g' [->|Hg']%elem_of_cons _; [lia|].
    eapply Forall_forall in Hall; [|done]. exact Hall.
  - intros Hg. destruct (IH Hg) as (? & ? & Hmin). split_and!; [by constructor | done |].
    intros g' [->|Hg']%elem_of_cons Hf; [congruence | auto].
Qed.

Lemma find_exists {A} (f : A → bool) l : (∃ x, x ∈ l ∧ f x = true) → is_Some (List.find f l).
Proof.
  intros (x & Hx & Hf). induction Hx as [|x y l Hx IH]; simpl; [rewrite Hf; eauto|].
  destruct (f y); eauto.
Qed.

Lemma find_in {A} (f : A → bool) l x : List.find f l = Some x → x ∈ l ∧ f x = true.
Proof. intros H%List.find_some. by rewrite list_elem_of_In. Qed.

Definition chosen_group (groups : list ServiceGroup) : option ServiceGroup :=
  List.find group_applies (merge_sort group_le groups).

Lemma chosen_group_spec groups g :
  chosen_group groups = Some g →
  g ∈ groups ∧ group_applies g = true ∧
  ∀ g', g' ∈ groups → group_applies g' = true → (sg_ID g ≤ sg_ID g')%N.
Proof.
  intros H. apply find_sorted_least in H as (Hin & Ha & Hmin).
  - split_and!; [|done|].
    + by rewrite merge_sort_Permutation in Hin.
    + intros g' Hg'. apply Hmin. by rewrite merge_sort_Permutation.
  - apply Sorted_StronglySorted; [apply _|]. apply Sorted_merge_sort, _.
Qed.

Lemma chosen_group_perm groups groups' :
  groups ≡ₚ groups' → NoDup (sg_ID <$> groups) → chosen_group groups = chosen_group groups'.
Proof.
  intros Hp Hnd. destruct (chosen_group groups) as [g|] eqn:Hg.
  - apply chosen_group_spec in Hg as (Hin & Ha & Hmin).
    destruct (chosen_group groups') as [g'|] eqn:Hg'.
    + apply chosen_group_spec in Hg' as (Hin' & Ha' & Hmin'). f_equal.
      rewrite <-Hp in Hin'. assert (sg_ID g = sg_ID g') as Hid.
      { apply N.le_antisymm; [by apply Hmin | apply Hmin'; [by rewrite <-Hp|done]]. }
      apply list_elem_of_lookup in Hin as [i Hi], Hin' as [j Hj].
      assert (i = j) as ->; [|congruence].
      eapply NoDup_lookup; [done|..]; rewrite list_lookup_fmap; [by rewrite Hi | by rewrite Hj, Hid].
    + unfold chosen_group in Hg'. destruct (find_exists group_applies (merge_sort group_le groups')) as [? ?].
      { exists g. split; [|done]. by rewrite merge_sort_Permutation, <-Hp. }
      congruence.
  - destruct (chosen_group groups') as [g'|] eqn:Hg'; [|done].
    apply chosen_group_spec in Hg' as (Hin' & Ha' & _). unfold chosen_group in Hg.
    destruct (find_exists group_applies (merge_sort group_le groups)) as [? ?]; [|congruence].
    exists g'. split; [|done]. by rewrite merge_sort_Permutation, Hp.
Qed.

(** * Theorems *)

(** A service whose groups are listed in another order. *)
Definition with_groups (groups : list ServiceGroup) (s : Service) : Service :=
  {| s_ID := s_ID s; s_Name := s_Name s; s_DomainID := s_DomainID s; s_Domain := s_Domain s;
     s_Subdomain := s_Subdomain s; s_Path := s_Path s; s_TargetURL := s_TargetURL s;
     s_TLSMode := s_TLSMode s; s_PassHostHeader := s_PassHostHeader s;
     s_UpstreamSkipVerify := s_UpstreamSkipVerify s; s_UpstreamCAPEM := s_UpstreamCAPEM s;
     s_UpstreamServerName := s_UpstreamServerName s; s_AuthPolicy := s_AuthPolicy s;
     s_AccessMode := s_AccessMode s; s_AllowedRoles := s_AllowedRoles s;
     s_AllowedGroups := s_AllowedGroups s; s_AllowedServiceGroups := s_AllowedServiceGroups s;
     s_UseGroupPolicy := s_UseGroupPolicy s; s_AccessMethod := s_AccessMethod s;
     s_AccessMethodConfig := s_AccessMethodConfig s; s_AccessMessage := s_AccessMessage s;
     s_IPAllowlist := s_IPAllowlist s; s_IPBlocklist := s_IPBlocklist s;
     s_AllowedCountries := s_AllowedCountries s; s_BlockedCountries := s_BlockedCountries s;
     s_AccessWindows := s_AccessWindows s; s_AccessRules := s_AccessRules s;
     s_LoginHosts := s_LoginHosts s; s_LastDeployedAt := s_LastDeployedAt s;
     s_DeploymentRevision := s_DeploymentRevision s; s_Enabled := s_Enabled s;
     s_NodeID := s_NodeID s; s_Node := s_Node s; s_ServiceGroups := groups |}.

(** The effective access of a service does not depend on the order in which
    its groups are listed; it comes from the applicable group of least identifier. *)
Theorem effective_access_order_independent service groups :
  s_ServiceGroups service ≡ₚ groups → NoDup (sg_ID <$> s_ServiceGroups service) →
  EffectiveAccessForService (with_groups groups service) = EffectiveAccessForService service ∧
  ∀ g, (EffectiveAccessForService service).2 = Some g →
    g ∈ s_ServiceGroups service ∧ group_applies g = true ∧
    ∀ g', g' ∈ s_ServiceGroups service → group_applies g' = true → (sg_ID g ≤ sg_ID g')%N.
Proof.
  intros Hp Hnd. pose proof (chosen_group_perm _ _ Hp Hnd) as Heq. unfold chosen_group in Heq.
  unfold EffectiveAccessForService. simpl. rewrite <-Heq. split; [done|]. intros g.
  destruct (negb (s_UseGroupPolicy service)); [done|].
  destruct (List.find group_applies (merge_sort group_le (s_ServiceGroups service))) as [g0|] eqn:Hf; [|done].
  destruct (negb (String.eqb (TrimSpace (s_AccessMethod service)) "")); simpl; intros ?; simplify_eq;
    by apply chosen_group_spec.
Qed.

Definition sample_group (id : N) (mode : string) : ServiceGroup :=
  {| sg_ID := id; sg_Name := "group"; sg_Description := "";
     sg_DefaultAccessPolicy := {| ap_AccessMode := mode; ap_AllowedRoles := []; ap_AllowedGroups := [];
                                  ap_AllowedServiceGroups := [] |};
     sg_AccessMethod := ""; sg_AccessMethodConfig := ∅ |}.

Definition sample_grouped_service : Service :=
  {| s_ID := 1; s_Name := "app"; s_DomainID := 1;
     s_Domain := {| d_ID := 1; d_Name := "example.com"; d_Type := ""; d_Provider := ""; d_Notes := "";
                    d_IPAllowlist := []; d_IPBlocklist := [] |};
     s_Subdomain := "app"; s_Path := "/"; s_TargetURL := "http://10.0.0.2"; s_TLSMode := ""; s_PassHostHeader := false;
     s_UpstreamSkipVerify := false; s_UpstreamCAPEM := ""; s_UpstreamServerName := ""; s_AuthPolicy := "";
     s_AccessMode := ""; s_AllowedRoles := []; s_AllowedGroups := []; s_AllowedServiceGroups := [];
     s_UseGroupPolicy := true; s_AccessMethod := ""; s_AccessMethodConfig := ∅; s_AccessMessage := "";
     s_IPAllowlist := []; s_IPBlocklist := []; s_AllowedCountries := []; s_BlockedCountries := [];
     s_AccessWindows := []; s_AccessRules := []; s_LoginHosts := []; s_LastDeployedAt := None;
     s_DeploymentRevision := 0; s_Enabled := true; s_NodeID := None; s_Node := None;
     s_ServiceGroups := [sample_group 7 AccessModePublic; sample_group 3 AccessModeRestricted] |}.

Lemma effective_access_order_independent_witness :
  EffectiveAccessForService
    (with_groups [sample_group 3 AccessModeRestricted; sample_group 7 AccessModePublic] sample_grouped_service)
  = EffectiveAccessForService sample_grouped_service.
Proof.
  destruct (effective_access_order_independent sample_grouped_service
              [sample_group 3 AccessModeRestricted; sample_group 7 AccessModePublic]) as [H _].
  - apply Permutation_swap.
  - apply (bool_decide_unpack _). vm_compute. exact I.
  - exact H.
Defined.

Lemma effective_mode_public service :
  let mode := ap_AccessMode (EffectiveAccessForService service).1.1.1 in
  TrimSpace mode ≠ "" ∧
  (mode = AccessModePublic →
    s_AuthPolicy service = AuthPolicyPublic ∨
    (s_UseGroupPolicy service = false ∧ s_AccessMode service = AccessModePublic) ∨
    (∃ g, (EffectiveAccessForService service).2 = Some g ∧
          ap_AccessMode (sg_DefaultAccessPolicy g) = AccessModePublic)).
Proof.
  assert (∀ p legacy, TrimSpace (ap_AccessMode (normalizedPolicy p legacy)) ≠ "" ∧
    (ap_AccessMode (normalizedPolicy p legacy) = AccessModePublic →
     legacy = AuthPolicyPublic ∨ ap_AccessMode p = AccessModePublic)) as Hn.
  { intros p legacy. rewrite normalizedPolicy_mode.
    destruct (String.eqb_spec (TrimSpace (ap_AccessMode p)) ""); [|by auto].
    destruct (String.eqb_spec legacy AuthPolicyPublic) as [->|]; [by auto|].
    by destruct (String.eqb legacy AuthPolicyAdminOnly). }
  intros mode. unfold mode, EffectiveAccessForService.
  destruct (s_UseGroupPolicy service); simpl.
  - destruct (List.find _ _) as [g|].
    + destruct (negb (String.eqb (TrimSpace (s_AccessMethod service)) "")); simpl;
        destruct (Hn (sg_DefaultAccessPolicy g) (s_AuthPolicy service)) as [? Hm];
        (split; [done|]); intros [|]%Hm; eauto 10.
    + destruct (Hn emptyPolicy (s_AuthPolicy service)) as [? Hm]. split; [done|].
      intros [|]%Hm; [eauto | done].
  - match goal with |- context [normalizedPolicy ?p _] => destruct (Hn p (s_AuthPolicy service)) as [? Hm] end.
    split; [done|]. intros [|]%Hm; eauto.
Qed.

(** A service is public only when something says so: its own mode, the mode
    of the group it inherits from, or its legacy policy.  The mode is never blank. *)
Theorem effective_mode_public_only_if_configured service :
  let mode := ap_AccessMode (EffectiveAccessForService service).1.1.1 in
  TrimSpace mode ≠ "" ∧
  (mode = AccessModePublic →
    s_AuthPolicy service = AuthPolicyPublic ∨
    (s_UseGroupPolicy service = false ∧ s_AccessMode service = AccessModePublic) ∨
    (∃ g, (EffectiveAccessForService service).2 = Some g ∧
          ap_AccessMode (sg_DefaultAccessPolicy g) = AccessModePublic)).
Proof. apply effective_mode_public. Qed.

(** A window matches when the weekday is listed (or none is) and the minute
    lies on the arc of the clock from its start to its end, midnight included. *)
Theorem accessWindowMatches_arc window now :
  (0 ≤ cw_StartMinutes window < 1440)%Z → (0 ≤ cw_EndMinutes window < 1440)%Z →
  accessWindowMatches window now = true ↔
  (cw_Weekdays window = [] ∨ local_weekday (cw_Location window) now ∈ cw_Weekdays window) ∧
  ((local_minutes (cw_Location window) now - cw_StartMinutes window) mod 1440
   ≤ (cw_EndMinutes window - cw_StartMinutes window) mod 1440)%Z.
Proof.
  intros Hs He. pose proof (local_minutes_bound (cw_Location window) now) as Hm.
  unfold accessWindowMatches.
  set (t := local_minutes (cw_Location window) now) in *.
  set (s := cw_StartMinutes window) in *. set (e := cw_EndMinutes window) in *.
  assert (∀ a b, (0 ≤ a < 1440)%Z → (0 ≤ b < 1440)%Z →
    ((a - b) mod 1440 = if b <=? a then a - b else a - b + 1440)%Z) as Hmod.
  { intros a b Ha Hb. destruct (Z.leb_spec b a).
    - apply Z.mod_small. lia.
    - rewrite <-(Z.mod_add _ 1) by lia. apply Z.mod_small. lia. }
  assert (((0 <? length (cw_Weekdays window))%nat
           && negb (existsb (Z.eqb (local_weekday (cw_Location window) now)) (cw_Weekdays window))) = false
          ↔ cw_Weekdays window = [] ∨ local_weekday (cw_Location window) now ∈ cw_Weekdays window) as Hday.
  { rewrite andb_false_iff, negb_false_iff, existsb_exists_elem.
    setoid_rewrite Z.eqb_eq. destruct (cw_Weekdays window); simpl; [naive_solver|]. naive_solver. }
  rewrite <-Hday, !Hmod by done.
  destruct (_ && _); [split; [done | by intros [? _]]|].
  destruct (Z.leb_spec s e), (Z.leb_spec s t), (Z.leb_spec t e); simpl; split; intros; try done; try lia;
    by split; [|lia].
Qed.

(** Fridays from 22:00 to 02:00, at 23:30 on Friday 2 January 1970. *)
Lemma accessWindowMatches_arc_witness :
  let window := {| cw_Name := "night"; cw_Weekdays := [5%Z]; cw_StartMinutes := 1320; cw_EndMinutes := 120;
                   cw_Location := UTC |} in
  let now := ((86400 + 84600) * Second)%Z in
  accessWindowMatches window now = true.
Proof.
  intros window now. apply (accessWindowMatches_arc window now); [simpl; lia|simpl; lia|].
  split; [right; vm_compute; left|vm_compute; discriminate].
Defined.

(** With an allow list of addresses only those pass; otherwise the domain
    after the single "@" must be the allowed one. *)
Theorem routeEmailAllowed_spec email config :
  let e := ToLower (TrimSpace email) in
  routeEmailAllowed email config = true ↔
  (allowed_emails config ≠ [] ∧ e ≠ "" ∧ e ∈ allowed_emails config) ∨
  (allowed_emails config = [] ∧
   ∀ raw, config !! "allowed_email_domain" = Some (AnyString raw) →
     TrimPrefix (ToLower (TrimSpace raw)) "@" = "" ∨
     ∃ name, e = name +:+ "@" +:+ TrimPrefix (ToLower (TrimSpace raw)) "@" ∧
       ContainsByte name "@" = false ∧ ContainsByte (TrimPrefix (ToLower (TrimSpace raw)) "@") "@" = false).
Proof.
  intros e. unfold routeEmailAllowed. fold e.
  destruct (allowed_emails config) as [|a l] eqn:Hl.
  - change (0 <? length [])%nat with false. cbv iota.
    destruct (config !! "allowed_email_domain") as [[raw| | |]|] eqn:Hd;
      try (split; [right; split; [done|]; intros; simplify_eq | done]).
    set (d := TrimPrefix (ToLower (TrimSpace raw)) "@").
    destruct (String.eqb_spec d "") as [Hd0|Hne].
    { split; [|done]. intros _. right. split; [done|]. intros ? [= <-]. left. exact Hd0. }
    split.
    + intros H. right. split; [done|]. intros ? [= <-]. right.
      pose proof (Join_Split e "@") as Hj.
      destruct (Split e "@") as [|n [|dom [|]]] eqn:Hs; try done.
      apply String.eqb_eq in H as ->. exists n. split_and!.
      * symmetry. exact Hj.
      * apply (Split_no_sep e). rewrite Hs. by constructor.
      * apply (Split_no_sep e). rewrite Hs. by do 2 constructor.
    + intros [[? _]|[_ H]]; [done|]. destruct (H raw eq_refl) as [?|(n & -> & Hn & Hdn)]; [done|].
      fold d in Hdn |- *. change ("@" +:+ d) with (String "@" d).
      rewrite Split_app_sep, Split_none by done. by apply String.eqb_eq.
  - change (0 <? length (a :: l))%nat with true. cbv iota. rewrite existsb_exists_elem. split.
    + intros (x & Hx & H). destruct_bools. apply String.eqb_eq in H0 as ->.
      apply String.eqb_neq in H. left. by split.
    + intros [(_ & He & Hin)|[? _]]; [|done]. exists e. split; [done|].
      apply String.eqb_neq in He as ->. by rewrite String.eqb_refl.
Qed.
