(* ===== verification/LRU.v ===== *)
(** The route cache of the proxy: internal/proxy/lru.go.

    [ttlLRU] is a doubly linked list ([container/list]) of entries and a map from
    keys to list elements.  An element is an identity [elem] in a small heap, so
    that the map and the list share entries by reference as the code does; the
    list holds identities, front first.  The abstract specification [Spec] is a
    list of entries, most recently used first; the theorems prove that every
    operation keeps the representation invariant and refines its specification. *)
From S2P Require Import Prelude.

#[local] Open Scope Z_scope.

(** * Definitions *)

(** The zero [time.Time], in nanoseconds since 1970. *)
Definition zeroTime : Z := -62135596800 * Second.

Section LRU.
Context {K V : Type} `{Countable K}.

Record ttlEntry := { te_key : K; te_value : V; te_expiresAt : Z }.

Record ttlLRU := {
  ll : list positive;                (* elements, front first *)
  elems : gmap positive ttlEntry;    (* what each element's Value points to *)
  cache : gmap K positive;
  capacity : Z;
  defaultTTL : Z;
}.

Definition newTTLLRU (capacity ttl : Z) : ttlLRU := {|
  ll := [];
  elems := ∅;
  cache := ∅;
  capacity := if capacity <=? 0 then 1 else capacity;
  defaultTTL := ttl |}.

(** [list.Remove] and [list.MoveToFront] on identities. *)
Definition list_remove (e : positive) (l : list positive) : list positive :=
  filter (λ x, x ≠ e) l.

Definition removeElement (c : ttlLRU) (element : positive) : ttlLRU :=
  match elems c !! element with
  | None => c
  | Some entry =>
      {| ll := list_remove element (ll c);
         elems := delete element (elems c);
         cache := delete (te_key entry) (cache c);
         capacity := capacity c;
         defaultTTL := defaultTTL c |}
  end.

Definition moveToFront (c : ttlLRU) (element : positive) : ttlLRU :=
  {| ll := element :: list_remove element (ll c);
     elems := elems c; cache := cache c; capacity := capacity c; defaultTTL := defaultTTL c |}.

Definition expired (entry : ttlEntry) (now : Z) : bool :=
  negb (te_expiresAt entry =? zeroTime) && (te_expiresAt entry <? now).

Definition Get (c : ttlLRU) (now : Z) (key : K) : option V * ttlLRU :=
  match cache c !! key with
  | None => (None, c)
  | Some element =>
      match elems c !! element with
      | None => (None, c)
      | Some entry =>
          if expired entry now then (None, removeElement c element)
          else (Some (te_value entry), moveToFront c element)
      end
  end.

Definition Add (c : ttlLRU) (now : Z) (key : K) (value : V) : ttlLRU :=
  let entry := {| te_key := key; te_value := value; te_expiresAt := now + defaultTTL c |} in
  match cache c !! key with
  | Some element =>
      (* the entry is updated in place, then moved *)
      {| ll := element :: list_remove element (ll c);
         elems := <[element := entry]> (elems c);
         cache := cache c; capacity := capacity c; defaultTTL := defaultTTL c |}
  | None =>
      let element := fresh (dom (elems c)) in
      let c' := {| ll := element :: ll c;
                   elems := <[element := entry]> (elems c);
                   cache := <[key := element]> (cache c);
                   capacity := capacity c; defaultTTL := defaultTTL c |} in
      if capacity c <? Z.of_nat (length (ll c')) then
        match last (ll c') with
        | Some back => removeElement c' back
        | None => c'
        end
      else c'
  end.

Definition Remove (c : ttlLRU) (key : K) : ttlLRU :=
  match cache c !! key with
  | Some element => removeElement c element
  | None => c
  end.

Definition Purge (c : ttlLRU) : ttlLRU := {|
  ll := []; elems := ∅; cache := ∅; capacity := capacity c; defaultTTL := defaultTTL c |}.

(** * Specification

    Entries, most recently used first. *)

Definition without (key : K) (l : list ttlEntry) : list ttlEntry := filter (λ e, te_key e ≠ key) l.
Definition spec_find (key : K) (l : list ttlEntry) : option ttlEntry :=
  List.find (λ e, bool_decide (te_key e = key)) l.

Definition spec_get (now : Z) (key : K) (l : list ttlEntry) : option V * list ttlEntry :=
  match spec_find key l with
  | None => (None, l)
  | Some entry =>
      if expired entry now then (None, without key l)
      else (Some (te_value entry), entry :: without key l)
  end.

Definition spec_add (cap ttl now : Z) (key : K) (value : V) (l : list ttlEntry) : list ttlEntry :=
  take (Z.to_nat cap) ({| te_key := key; te_value := value; te_expiresAt := now + ttl |} :: without key l).

(** The entries of the list, front first. *)
Definition abs (c : ttlLRU) : list ttlEntry := omap (λ e, elems c !! e) (ll c).

(** The list, the heap and the map agree ... *)
Record lru_core (c : ttlLRU) : Prop := {
  inv_nodup : NoDup (ll c);
  inv_elems : ∀ e, e ∈ ll c ↔ is_Some (elems c !! e);
  inv_cache : ∀ k e, cache c !! k = Some e ↔
    ∃ v x, elems c !! e = Some {| te_key := k; te_value := v; te_expiresAt := x |};
}.

(** ... and the list is within its capacity: the representation invariant. *)
Record lru_inv (c : ttlLRU) : Prop := {
  inv_core : lru_core c;
  inv_capacity : 1 ≤ capacity c;
  inv_length : Z.of_nat (length (ll c)) ≤ capacity c;
}.

(** * Lemmas *)

Implicit Types (c : ttlLRU) (e : positive) (k : K).

Lemma list_remove_elem e x l : x ∈ list_remove e l ↔ x ∈ l ∧ x ≠ e.
Proof. unfold list_remove. rewrite list_elem_of_filter. tauto. Qed.

Lemma list_remove_NoDup e l : NoDup l → NoDup (list_remove e l).
Proof. apply NoDup_filter. Qed.

Lemma list_remove_length e l : NoDup l → e ∈ l → S (length (list_remove e l)) = length l.
Proof.
  intros Hnd He. induction He as [e l|e y l He IH]; unfold list_remove in *.
  - apply NoDup_cons in Hnd as [Hni Hnd]. rewrite filter_cons_False by (intros Hn; by destruct Hn).
    simpl. f_equal. clear -Hni. induction l as [|y l IH]; [done|].
    rewrite filter_cons_True by (intros ->; set_solver). simpl. f_equal. apply IH. set_solver.
  - apply NoDup_cons in Hnd as [Hni Hnd]. rewrite filter_cons_True by (intros ->; done).
    simpl. by rewrite IH.
Qed.

(** Elements with the same key are the same element. *)
Lemma inv_key_inj c e1 e2 x1 x2 :
  lru_core c → elems c !! e1 = Some x1 → elems c !! e2 = Some x2 → te_key x1 = te_key x2 → e1 = e2.
Proof.
  intros Hinv H1 H2 Hk. destruct x1 as [k1 v1 t1], x2 as [k2 v2 t2]. simpl in Hk. subst k2.
  assert (cache c !! k1 = Some e1) as Hc1 by (apply (inv_cache c Hinv); eauto).
  assert (cache c !! k1 = Some e2) as Hc2 by (apply (inv_cache c Hinv); eauto).
  congruence.
Qed.

Lemma inv_cache_elem c k e :
  lru_core c → cache c !! k = Some e →
  e ∈ ll c ∧ ∃ v x, elems c !! e = Some {| te_key := k; te_value := v; te_expiresAt := x |}.
Proof.
  intros Hinv Hc. apply (inv_cache c Hinv) in Hc as (v & x & He).
  split; [apply (inv_elems c Hinv); eauto | eauto].
Qed.

Lemma removeElement_core c e : lru_core c → lru_core (removeElement c e).
Proof.
  intros Hinv. unfold removeElement. destruct (elems c !! e) as [entry|] eqn:He; [|done].
  constructor; simpl.
  - by apply list_remove_NoDup, inv_nodup.
  - intros x. rewrite list_remove_elem, (inv_elems c Hinv), lookup_delete.
    case_decide; [subst|]; split; try tauto; by intros [? ?].
  - intros k x. rewrite !lookup_delete. destruct (decide (te_key entry = k)) as [Hk|Hk].
    + split; [done|]. intros (v & t & Hx). case_decide; [done|].
      destruct (inv_key_inj c e x entry _ Hinv He Hx); done.
    + rewrite (inv_cache c Hinv). case_decide as Hex; [subst|done].
      split; [|by intros (? & ? & ?)]. intros (v & t & Hx). rewrite He in Hx. by simplify_eq/=.
Qed.

Lemma omap_list_remove c e entry :
  lru_core c → elems c !! e = Some entry →
  omap (λ x, elems c !! x) (list_remove e (ll c)) = without (te_key entry) (abs c).
Proof.
  intros Hinv He. unfold abs.
  assert (∀ x, x ∈ ll c → is_Some (elems c !! x)) as Hall by (intros; by apply (inv_elems c Hinv)).
  induction (ll c) as [|x l IH]; [done|].
  destruct (Hall x) as [ex Hx]; [by constructor|].
  unfold list_remove, without in *. simpl. rewrite Hx. simpl.
  assert (∀ y, y ∈ l → is_Some (elems c !! y)) as Hall' by (intros; apply Hall; by constructor).
  destruct (decide (x = e)) as [->|Hne].
  - rewrite filter_cons_False by (intros Hn; by destruct Hn).
    rewrite He in Hx. simplify_eq. rewrite filter_cons_False by (intros Hn; by destruct Hn). auto.
  - rewrite filter_cons_True by done. simpl. rewrite Hx. simpl.
    rewrite filter_cons_True; [f_equal; by apply IH|].
    intros Hk. destruct Hne. by eapply inv_key_inj.
Qed.
(** The abstract list after an element is removed. *)
Lemma removeElement_abs c e entry :
  lru_core c → elems c !! e = Some entry → abs (removeElement c e) = without (te_key entry) (abs c).
Proof.
  intros Hinv He. rewrite <-(omap_list_remove c e entry) by done.
  unfold abs, removeElement. rewrite He. simpl. apply omap_ext_elem.
  intros x [_ Hx]%list_remove_elem. by rewrite lookup_delete_ne.
Qed.

Lemma abs_elem c x : x ∈ abs c → ∃ e, e ∈ ll c ∧ elems c !! e = Some x.
Proof. intros (e & He & Hx)%list_elem_of_omap. eauto. Qed.

(** The map finds what the specification finds. *)
Lemma spec_find_cache c k :
  lru_core c → spec_find k (abs c) = match cache c !! k with Some e => elems c !! e | None => None end.
Proof.
  intros Hinv. unfold spec_find. destruct (List.find _ (abs c)) as [entry|] eqn:Hf.
  - apply List.find_some in Hf as [Hin Hk]. apply list_elem_of_In in Hin.
    apply abs_elem in Hin as (e & He & Hx). apply bool_decide_eq_true in Hk. subst k.
    assert (cache c !! te_key entry = Some e) as ->; [|done].
    apply (inv_cache c Hinv). destruct entry. eauto.
  - destruct (cache c !! k) as [e|] eqn:Hc; [|done].
    destruct (inv_cache_elem c k e Hinv Hc) as (Hin & v & x & He). rewrite He.
    assert ({| te_key := k; te_value := v; te_expiresAt := x |} ∈ abs c) as Habs
      by (apply list_elem_of_omap; eauto).
    apply list_elem_of_In in Habs. pose proof (List.find_none _ _ Hf _ Habs) as Hn.
    simpl in Hn. by rewrite bool_decide_true in Hn.
Qed.

Lemma abs_length c : lru_core c → length (abs c) = length (ll c).
Proof.
  intros Hinv. unfold abs.
  assert (∀ x, x ∈ ll c → is_Some (elems c !! x)) as Hall by (intros; by apply (inv_elems c Hinv)).
  induction (ll c) as [|x l IH]; [done|]. simpl.
  destruct (Hall x) as [ex ->]; [by constructor|]. simpl. f_equal. apply IH.
  intros y Hy. apply Hall. by constructor.
Qed.

Lemma moveToFront_core c e : lru_core c → e ∈ ll c → lru_core (moveToFront c e).
Proof.
  intros Hinv He. constructor; simpl; try apply Hinv.
  - apply NoDup_cons. split; [rewrite list_remove_elem; tauto|]. by apply list_remove_NoDup, inv_nodup.
  - intros x. rewrite elem_of_cons, list_remove_elem, <-(inv_elems c Hinv).
    destruct (decide (x = e)); naive_solver.
Qed.

Lemma removeElement_length c e :
  lru_core c → e ∈ ll c → S (length (ll (removeElement c e))) = length (ll c).
Proof.
  intros Hinv Hin. destruct (proj1 (inv_elems c Hinv e) Hin) as [entry He].
  unfold removeElement. rewrite He. simpl. apply list_remove_length; [apply Hinv | done].
Qed.

(** Replacing the entry of an element by one with the same key. *)
Definition update (c : ttlLRU) (e : positive) (entry : ttlEntry) : ttlLRU :=
  {| ll := ll c; elems := <[e := entry]> (elems c);
     cache := cache c; capacity := capacity c; defaultTTL := defaultTTL c |}.

Lemma update_core c e old entry :
  lru_core c → elems c !! e = Some old → te_key entry = te_key old → lru_core (update c e entry).
Proof.
  intros Hinv He Hk. constructor; simpl; try apply Hinv.
  - intros y. rewrite (inv_elems c Hinv), lookup_insert. case_decide; [subst|done].
    rewrite He. split; eauto.
  - intros k' y. rewrite (inv_cache c Hinv), lookup_insert. case_decide; [subst|done].
    rewrite He. destruct old, entry; simpl in *; subst.
    split; intros (? & ? & ?); simplify_eq; eauto.
Qed.

(** Pushing an entry for a new key. *)
Definition push (c : ttlLRU) (entry : ttlEntry) : ttlLRU :=
  let element := fresh (dom (elems c)) in
  {| ll := element :: ll c; elems := <[element := entry]> (elems c);
     cache := <[te_key entry := element]> (cache c);
     capacity := capacity c; defaultTTL := defaultTTL c |}.

Lemma push_fresh c : elems c !! fresh (dom (elems c)) = None.
Proof. apply not_elem_of_dom, is_fresh. Qed.

Lemma push_core c entry :
  lru_core c → cache c !! te_key entry = None → lru_core (push c entry).
Proof.
  intros Hinv Hc. pose proof (push_fresh c) as Hf. constructor; simpl.
  - apply NoDup_cons. split; [|apply Hinv]. rewrite (inv_elems c Hinv), Hf. by intros [? ?].
  - intros e. rewrite elem_of_cons, (inv_elems c Hinv), lookup_insert.
    case_decide; [subst; split; eauto | split; [by intros [->|]|eauto]].
  - intros k e. rewrite !lookup_insert. destruct (decide (te_key entry = k)) as [<-|Hk].
    + split.
      * intros [= <-]. rewrite decide_True by done. destruct entry; simpl; eauto.
      * intros (v & x & He). case_decide; [by subst|].
        assert (cache c !! te_key entry = Some e) by (apply (inv_cache c Hinv); eauto). congruence.
    + case_decide as Hfe; [subst|apply (inv_cache c Hinv)]. rewrite (inv_cache c Hinv), Hf.
      split; [by intros (? & ? & ?)|]. intros (? & ? & ?); simplify_eq/=.
Qed.

Lemma push_abs c entry : lru_core c → abs (push c entry) = entry :: abs c.
Proof.
  intros Hinv. unfold abs, push. simpl. rewrite lookup_insert_eq. f_equal.
  apply omap_ext_elem. intros x Hx. apply (inv_elems c Hinv) in Hx.
  rewrite lookup_insert_ne; [done|]. intros <-. rewrite push_fresh in Hx. by destruct Hx.
Qed.

Lemma without_notin k l : (∀ x, x ∈ l → te_key x ≠ k) → without k l = l.
Proof.
  intros Hl. unfold without. induction l as [|x l IH]; [done|].
  rewrite filter_cons_True by (apply Hl; constructor). f_equal. apply IH.
  intros y Hy. apply Hl. by constructor.
Qed.

Lemma abs_without_absent c k : lru_core c → cache c !! k = None → without k (abs c) = abs c.
Proof.
  intros Hinv Hc. apply without_notin. intros x (e & _ & He)%abs_elem <-.
  assert (cache c !! te_key x = Some e); [|congruence].
  apply (inv_cache c Hinv). destruct x; eauto.
Qed.

Lemma abs_NoDup_keys c : lru_core c → NoDup (te_key <$> abs c).
Proof.
  intros Hinv. unfold abs. pose proof (inv_nodup c Hinv) as Hnd.
  induction (ll c) as [|e l IH]; [constructor|]. apply NoDup_cons in Hnd as [Hni Hnd]. simpl.
  destruct (elems c !! e) as [x|] eqn:He; [|by apply IH]. simpl. apply NoDup_cons. split; [|by apply IH].
  intros (y & Hk & (e' & He' & Hy)%list_elem_of_omap)%list_elem_of_fmap.
  destruct Hni. by rewrite (inv_key_inj c e e' x y) by (done || by symmetry).
Qed.

Lemma without_last k l x :
  NoDup (te_key <$> (l ++ [x])) → te_key x = k → without k (l ++ [x]) = l.
Proof.
  intros Hnd Hk. unfold without. rewrite filter_app, filter_cons_False, filter_nil, app_nil_r
    by (intros Hn; by apply Hn).
  apply without_notin. intros y Hy Hyk. rewrite fmap_app in Hnd.
  apply NoDup_app in Hnd as (_ & Hd & _). apply (Hd k).
  - rewrite <-Hyk. by apply list_elem_of_fmap_2.
  - rewrite <-Hk. constructor.
Qed.

(** ** Each operation keeps the invariant and refines its specification *)

Lemma newTTLLRU_inv cap ttl : lru_inv (newTTLLRU cap ttl) ∧ abs (newTTLLRU cap ttl) = [].
Proof.
  split; [|done]. constructor; simpl.
  - constructor; simpl; [constructor | |].
    + intros e. rewrite lookup_empty. split; [by intros ?%not_elem_of_nil | by intros [? ?]].
    + intros k e. rewrite !lookup_empty. split; [done | by intros (? & ? & ?)].
  - destruct (Z.leb_spec cap 0); lia.
  - destruct (Z.leb_spec cap 0); lia.
Qed.

Lemma moveToFront_abs c e entry :
  lru_core c → elems c !! e = Some entry →
  abs (moveToFront c e) = entry :: without (te_key entry) (abs c).
Proof.
  intros Hinv He. rewrite <-(omap_list_remove c e entry) by done.
  unfold abs. simpl. by rewrite He.
Qed.

Lemma Get_refines c now key :
  lru_inv c →
  lru_inv (Get c now key).2 ∧
  ((Get c now key).1, abs (Get c now key).2) = spec_get now key (abs c) ∧
  capacity (Get c now key).2 = capacity c ∧ defaultTTL (Get c now key).2 = defaultTTL c.
Proof.
  intros [Hcore Hcap Hlen]. unfold Get, spec_get. rewrite spec_find_cache by done.
  destruct (cache c !! key) as [e|] eqn:Hc; [|done].
  destruct (inv_cache_elem c key e Hcore Hc) as (Hin & v & x & He). rewrite He.
  destruct (expired _ now); simpl.
  - pose proof (removeElement_length c e Hcore Hin) as Hrl.
    pose proof (removeElement_core c e Hcore) as Hrc.
    pose proof (removeElement_abs c e _ Hcore He) as Hra.
    split_and!; [constructor; [done|..] | by rewrite Hra | ..]; unfold removeElement in *;
      rewrite He in *; simpl in *; (done || lia).
  - split_and!; [constructor | by rewrite (moveToFront_abs _ _ _ Hcore He) | done..].
    + by apply moveToFront_core.
    + done.
    + simpl. rewrite list_remove_length; [done | apply Hcore | done].
Qed.

Lemma Add_unfold c now key value :
  let entry := {| te_key := key; te_value := value; te_expiresAt := now + defaultTTL c |} in
  Add c now key value =
  match cache c !! key with
  | Some element => moveToFront (update c element entry) element
  | None =>
      let c' := push c entry in
      if capacity c <? Z.of_nat (length (ll c')) then
        match last (ll c') with Some back => removeElement c' back | None => c' end
      else c'
  end.
Proof. reflexivity. Qed.

Lemma update_without c e entry old :
  lru_core c → elems c !! e = Some old → te_key entry = te_key old →
  without (te_key entry) (abs (update c e entry)) = without (te_key entry) (abs c).
Proof.
  intros Hcore He Hk. rewrite Hk at 2.
  rewrite <-(omap_list_remove c e old) by done.
  rewrite <-(omap_list_remove (update c e entry) e entry).
  - simpl. apply omap_ext_elem. intros x [_ Hx]%list_remove_elem. by rewrite lookup_insert_ne.
  - by eapply update_core.
  - simpl. apply lookup_insert_eq.
Qed.

Lemma Add_evict c entry :
  lru_inv c → cache c !! te_key entry = None → Z.of_nat (length (ll c)) = capacity c →
  ∃ back, last (ll (push c entry)) = Some back ∧
    lru_core (removeElement (push c entry) back) ∧
    length (ll (removeElement (push c entry) back)) = length (ll c) ∧
    abs (removeElement (push c entry) back) = take (length (ll c)) (entry :: abs c) ∧
    capacity (removeElement (push c entry) back) = capacity c ∧
    defaultTTL (removeElement (push c entry) back) = defaultTTL c.
Proof.
  intros [Hcore Hcap Hlen] Hc Hfull. pose proof (push_core c entry Hcore Hc) as Hpc.
  destruct (last (ll (push c entry))) as [back|] eqn:Hlast; [|by apply last_None in Hlast].
  exists back. apply last_Some in Hlast as [l Hl].
  assert (back ∈ ll (push c entry)) as Hin by (rewrite Hl; set_solver).
  destruct (proj1 (inv_elems _ Hpc back) Hin) as [x Hx].
  assert (abs (push c entry) = omap (λ e, elems (push c entry) !! e) l ++ [x]) as Habs.
  { unfold abs at 1. rewrite Hl, omap_app. f_equal.
    change (match elems (push c entry) !! back with Some y => [y] | None => [] end = [x]). by rewrite Hx. }
  pose proof (removeElement_length _ _ Hpc Hin) as Hrl.
  change (length (ll (push c entry))) with (S (length (ll c))) in Hrl.
  pose proof (abs_length _ Hpc) as Hal. change (length (ll (push c entry))) with (S (length (ll c))) in Hal.
  revert Habs. generalize (omap (λ e, elems (push c entry) !! e) l) as l'. intros l' Habs.
  split_and!; [done | by apply removeElement_core | lia | | |].
  - rewrite (removeElement_abs _ _ _ Hpc Hx), <-push_abs, Habs by done.
    rewrite without_last; [|rewrite <-Habs; by apply abs_NoDup_keys|done].
    rewrite Habs, length_app in Hal. simpl in Hal.
    rewrite take_app_le, take_ge; [done|..]; lia.
  - unfold removeElement. by rewrite Hx.
  - unfold removeElement. by rewrite Hx.
Qed.

Lemma Add_refines c now key value :
  lru_inv c →
  lru_inv (Add c now key value) ∧
  abs (Add c now key value) = spec_add (capacity c) (defaultTTL c) now key value (abs c) ∧
  capacity (Add c now key value) = capacity c ∧ defaultTTL (Add c now key value) = defaultTTL c.
Proof.
  intros Hinv. pose proof Hinv as [Hcore Hcap Hlen]. rewrite Add_unfold. cbv zeta. unfold spec_add.
  set (entry := {| te_key := key; te_value := value; te_expiresAt := now + defaultTTL c |}).
  pose proof (abs_length c Hcore) as Hal.
  destruct (cache c !! key) as [e|] eqn:Hc.
  - destruct (inv_cache_elem c key e Hcore Hc) as (Hin & v & x & He).
    pose proof (update_core c e _ entry Hcore He eq_refl) as Huc.
    assert (elems (update c e entry) !! e = Some entry) as Hue by apply lookup_insert_eq.
    split_and!; [constructor; [by apply moveToFront_core | done | simpl] | | done..].
    + rewrite list_remove_length; [done | apply Hcore | done].
    + pose proof (moveToFront_abs _ _ _ Huc Hue) as Hma.
      rewrite (update_without c e entry _ Hcore He eq_refl) in Hma.
      pose proof (abs_length _ (moveToFront_core _ e Huc Hin)) as Hml. rewrite Hma in Hml |- *.
      simpl in Hml. rewrite list_remove_length in Hml by (done || apply Hcore).
      rewrite take_ge; [done|]. simpl. lia.
  - rewrite abs_without_absent by done. simpl (length (ll (push c entry))).
    destruct (Z.ltb_spec (capacity c) (Z.of_nat (S (length (ll c))))) as [Hfull|Hroom].
    + destruct (Add_evict c entry Hinv Hc) as (back & -> & ? & Hl & -> & -> & ->); [lia|].
      split_and!; [constructor; [done|..] | f_equal; lia | done..].
      * unfold removeElement; case_match; done.
      * rewrite Hl. unfold removeElement; case_match; simpl; lia.
    + split_and!; [constructor; [by apply push_core | done | simpl; lia] | | done..].
      rewrite push_abs by done. rewrite take_ge; [done|]. simpl. lia.
Qed.

Lemma Remove_refines c key :
  lru_inv c →
  lru_inv (Remove c key) ∧ abs (Remove c key) = without key (abs c) ∧
  capacity (Remove c key) = capacity c ∧ defaultTTL (Remove c key) = defaultTTL c.
Proof.
  intros [Hcore Hcap Hlen]. unfold Remove. destruct (cache c !! key) as [e|] eqn:Hc.
  - destruct (inv_cache_elem c key e Hcore Hc) as (Hin & v & x & He).
    pose proof (removeElement_length c e Hcore Hin).
    pose proof (removeElement_core c e Hcore).
    pose proof (removeElement_abs c e _ Hcore He).
    split_and!; [constructor; [done|..] | done |..]; unfold removeElement in *;
      rewrite He in *; simpl in *; (done || lia).
  - by rewrite abs_without_absent.
Qed.

Lemma Purge_refines c :
  lru_inv c → lru_inv (Purge c) ∧ abs (Purge c) = [].
Proof.
  intros [_ Hcap _]. destruct (newTTLLRU_inv (capacity c) (defaultTTL c)) as [[Hcore _ _] _].
  split; [|done]. constructor; [|done|simpl; lia]. constructor; apply Hcore.
Qed.

(** ** Sequences of operations *)

Inductive lru_op :=
| OpGet (now : Z) (key : K)
| OpAdd (now : Z) (key : K) (value : V)
| OpRemove (key : K)
| OpPurge.

Definition lru_step (c : ttlLRU) (op : lru_op) : option V * ttlLRU :=
  match op with
  | OpGet now key => Get c now key
  | OpAdd now key value => (None, Add c now key value)
  | OpRemove key => (None, Remove c key)
  | OpPurge => (None, Purge c)
  end.

Definition spec_step (cap ttl : Z) (l : list ttlEntry) (op : lru_op) : option V * list ttlEntry :=
  match op with
  | OpGet now key => spec_get now key l
  | OpAdd now key value => (None, spec_add cap ttl now key value l)
  | OpRemove key => (None, without key l)
  | OpPurge => (None, [])
  end.

Fixpoint lru_run (c : ttlLRU) (ops : list lru_op) : list (option V) * ttlLRU :=
  match ops with
  | [] => ([], c)
  | op :: ops' =>
      let '(r, c') := lru_step c op in
      let '(rs, c'') := lru_run c' ops' in (r :: rs, c'')
  end.

Fixpoint spec_run (cap ttl : Z) (l : list ttlEntry) (ops : list lru_op) : list (option V) * list ttlEntry :=
  match ops with
  | [] => ([], l)
  | op :: ops' =>
      let '(r, l') := spec_step cap ttl l op in
      let '(rs, l'') := spec_run cap ttl l' ops' in (r :: rs, l'')
  end.

Lemma lru_step_refines c op :
  lru_inv c →
  lru_inv (lru_step c op).2 ∧
  ((lru_step c op).1, abs (lru_step c op).2) = spec_step (capacity c) (defaultTTL c) (abs c) op ∧
  capacity (lru_step c op).2 = capacity c ∧ defaultTTL (lru_step c op).2 = defaultTTL c.
Proof.
  intros Hinv. destruct op as [now key|now key value|key|]; simpl.
  - by apply Get_refines.
  - destruct (Add_refines c now key value Hinv) as (? & -> & ? & ?). done.
  - destruct (Remove_refines c key Hinv) as (? & -> & ? & ?). done.
  - destruct (Purge_refines c Hinv) as [? ->]. done.
Qed.

Lemma lru_run_refines c ops :
  lru_inv c →
  lru_inv (lru_run c ops).2 ∧
  ((lru_run c ops).1, abs (lru_run c ops).2) = spec_run (capacity c) (defaultTTL c) (abs c) ops ∧
  capacity (lru_run c ops).2 = capacity c.
Proof.
  revert c. induction ops as [|op ops IH]; intros c Hinv; [done|]. simpl.
  destruct (lru_step_refines c op Hinv) as (Hi & Hs & Hcap & Httl).
  destruct (lru_step c op) as [r c'] eqn:Hstep. simpl in *.
  destruct (IH c' Hi) as (Hi' & Hs' & Hcap'). rewrite <-Hs.
  rewrite Hcap, Httl in Hs'. rewrite <-Hs'.
  destruct (lru_run c' ops) as [rs c'']. simpl in *. split_and!; [done | done | congruence].
Qed.

(** * Theorems *)

(** C25 Whatever the sequence of operations on a new cache, the answers and the
    contents are those of the specification, and it never exceeds its capacity. *)
Theorem lru_refines_spec cap ttl ops :
  let run := lru_run (newTTLLRU cap ttl) ops in
  let size := if cap <=? 0 then 1 else cap in
  (run.1, abs run.2) = spec_run size ttl [] ops ∧
  Z.of_nat (length (ll run.2)) ≤ size.
Proof.
  intros run size. destruct (newTTLLRU_inv cap ttl) as [Hinv Habs].
  destruct (lru_run_refines (newTTLLRU cap ttl) ops Hinv) as (Hi & Hs & Hcap).
  rewrite Habs in Hs. split; [exact Hs|].
  pose proof (inv_length _ Hi) as Hl. rewrite Hcap in Hl. exact Hl.
Qed.

Lemma spec_find_without_ne k k' l : k ≠ k' → spec_find k (without k' l) = spec_find k l.
Proof.
  intros Hne. apply find_filter_id. intros x _ Hx%bool_decide_eq_true. congruence.
Qed.

(** A value just added is returned until its lifetime ends, and not after. *)
Theorem Get_after_Add c now later key value :
  lru_inv c → now + defaultTTL c ≠ zeroTime →
  (Get (Add c now key value) later key).1 =
    if later <=? now + defaultTTL c then Some value else None.
Proof.
  intros Hinv Hz. destruct (Add_refines c now key value Hinv) as (Hi & Habs & Hcap & _).
  destruct (Get_refines _ later key Hi) as (_ & Hget & _).
  apply (f_equal fst) in Hget. simpl in Hget. rewrite Hget, Habs. unfold spec_add.
  pose proof (inv_capacity c Hinv). destruct (Z.to_nat (capacity c)) as [|n] eqn:Hn; [lia|].
  unfold spec_get, spec_find. simpl. rewrite bool_decide_true by done. unfold expired. simpl.
  apply Z.eqb_neq in Hz as ->. simpl.
  destruct (Z.ltb_spec (now + defaultTTL c) later), (Z.leb_spec later (now + defaultTTL c)); (done || lia).
Qed.

(** After a key is removed it is not found, and other keys keep their entry. *)
Theorem Get_after_Remove c now key other :
  lru_inv c →
  (Get (Remove c key) now key).1 = None ∧
  (other ≠ key → (Get (Remove c key) now other).1 = (Get c now other).1).
Proof.
  intros Hinv. destruct (Remove_refines c key Hinv) as (Hi & Habs & _).
  assert (∀ c k, lru_inv c → (Get c now k).1 =
    match spec_find k (abs c) with Some e => if expired e now then None else Some (te_value e) | None => None end) as Hg.
  { intros c0 k Hc0. destruct (Get_refines c0 now k Hc0) as (_ & Hget & _).
    apply (f_equal fst) in Hget. simpl in Hget. rewrite Hget. unfold spec_get. by repeat case_match. }
  split.
  - rewrite Hg, Habs by done. destruct (spec_find key (without key (abs c))) as [e|] eqn:Hf; [|done].
    apply List.find_some in Hf as [Hin Hk]. apply list_elem_of_In, list_elem_of_filter in Hin as [Hne _].
    by apply bool_decide_eq_true in Hk.
  - intros Hne. by rewrite !Hg, Habs, spec_find_without_ne.
Qed.

End LRU.

#[global] Arguments ttlEntry K V : clear implicits.
