(* ===== verification/Routing.v ===== *)
(** From a host to its routes: the SQL routing store (internal/store/routing_store.go), the
    shared cache (internal/proxy/config_cache.go), the compilation of routes
    (internal/proxy/routing_runtime.go, tunnel.go) and the invalidation that follows a change
    (internal/proxy/manager.go).

    The services table is a list of rows, each with its domain and groups, as the joins and
    preloads deliver it.  [ORDER BY path] and [sort.Slice] leave the order of ties open, so
    both are parameters of which only what they guarantee is assumed.  [net/url] and the PEM
    reader are parameters too. *)
From S2P Require Import Prelude GoStrings Netip Domain Paths Hosts AccessRules AccessPolicy LRU.

#[local] Open Scope string_scope.
#[local] Open Scope list_scope.
#[local] Open Scope go_scope.

(** * The routing store *)

Definition toRouteConfig (service : Service) : option RouteConfig :=
  if negb (non_empty (TrimSpace (d_Name (s_Domain service)))) then None
  else
    let '(policy, method, methodConfig, inherited) := EffectiveAccessForService service in
    Some {| rc_ID := FormatUint (s_ID service); rc_ServiceID := s_ID service; rc_ServiceName := s_Name service;
            rc_DomainID := s_DomainID service; rc_Host := ServiceHost service; rc_Path := s_Path service;
            rc_TargetURL := s_TargetURL service; rc_TLSMode := s_TLSMode service;
            rc_AccessMessage := s_AccessMessage service; rc_Service := service;
            rc_EffectivePolicy := policy; rc_EffectiveMethod := method;
            rc_EffectiveMethodConfig := cloneJSONObject methodConfig; rc_InheritedFromGroup := inherited;
            rc_AllowCIDRs := d_IPAllowlist (s_Domain service) ++ s_IPAllowlist service;
            rc_BlockCIDRs := d_IPBlocklist (s_Domain service) ++ s_IPBlocklist service;
            rc_AllowedCountries := s_AllowedCountries service; rc_BlockedCountries := s_BlockedCountries service;
            rc_AccessWindows := s_AccessWindows service; rc_AccessRules := s_AccessRules service;
            rc_DeploymentRevision := s_DeploymentRevision service; rc_LastDeployedAt := s_LastDeployedAt service |}.

Definition toRouteConfigs (services : list Service) : list RouteConfig := omap toRouteConfig services.

(** The rows the WHERE clauses keep. *)
Definition selected (candidates : list string) (service : Service) : bool :=
  existsb (String.eqb (ToLower (d_Name (s_Domain service)))) candidates && s_Enabled service.

Section store.
(** ORDER BY services.path. *)
Variable order_by_path : list Service → list Service.

Definition GetRoutesForHost (services : list Service) (host : string) : list RouteConfig :=
  let host := ToLower (TrimSpace host) in
  let candidates := domainCandidatesForHost host in
  match candidates with
  | [] => []
  | _ => filterRoutesByHost (toRouteConfigs (order_by_path (List.filter (selected candidates) services))) host
  end.
End store.

(** * The shared cache *)

Record memoryCacheEntry := { me_routes : list RouteConfig; me_expiresAt : Z }.
Abbreviation config_cache := (gmap string memoryCacheEntry).

Definition cache_get (c : config_cache) (now : Z) (host : string) : option (list RouteConfig) * config_cache :=
  let host := normalizeHost host in
  match c !! host with
  | None => (None, c)
  | Some entry => if (me_expiresAt entry <? now)%Z then (None, delete host c) else (Some (me_routes entry), c)
  end.

Definition cache_invalidate (c : config_cache) (host : string) : config_cache := delete (normalizeHost host) c.
Definition cache_invalidate_all (c : config_cache) : config_cache := ∅.

Definition cache_set (c : config_cache) (now : Z) (host : string) (routes : list RouteConfig) (ttl : Z) : config_cache :=
  if (ttl <=? 0)%Z then cache_invalidate c host
  else <[normalizeHost host := {| me_routes := routes; me_expiresAt := now + ttl |}]> c.

(** * Compiled routes *)

(** The transport a route is proxied through. *)
Inductive tls_choice := DefaultTLS | PinnedTLS (ca serverName : string) | InsecureTLS | ServerNameTLS (serverName : string).
Record transport := { via_tunnel : bool; tls : tls_choice }.

Record Route := {
  ServiceID : N;
  ServiceName : string;
  Host : string;
  Path : string;
  TargetURL : string;
  TLSMode : string;
  RService : Service;
  EffectivePolicy : AccessPolicy;
  EffectiveMethod : string;
  EffectiveMethodConfig : JSONObject;
  InheritedFromGroup : option ServiceGroup;
  AllowPrefixes : list Prefix;
  BlockPrefixes : list Prefix;
  AllowedCountries : list string;
  BlockedCountries : list string;
  CompiledWindows : list compiledAccessWindow;
  RAccessRules : list compiledAccessRule;
  DeploymentRevision : Z;
  (* what the reverse proxy closes over *)
  proxyTransport : transport;
  breakerTarget : string;
}.

Inductive route_error :=
  | ErrTargetURL | ErrAllowlist (e : CIDRError) | ErrBlocklist (e : CIDRError)
  | ErrWindows (e : WindowError) | ErrRules (e : AccessRuleError) | ErrInvalidRouteHost.

Definition with_error {E F A} (f : E → F) (m : result E A) : result F A :=
  match m with Ok a => Ok a | Err e => Err (f e) end.

Record URL := { u_Scheme : string; u_Host : string; u_Rest : string }.

Section runtime.
Variable url_Parse : string → option URL.
Variable url_String : URL → string.
Variable url_Port url_Hostname : URL → string.
Variable valid_pem : string → bool.
Variable LoadLocation : string → option Location.
(** The tunnel transport is configured and its dialer started. *)
Variable tunnelReady : bool.
Variable order_by_path : list Service → list Service.
(** [sort.Slice] by decreasing length of the path. *)
Variable sort_routes : list Route → list Route.

Definition rewriteTargetForTunnel (rawTarget : string) (service : Service) : string * bool :=
  match s_NodeID service, s_Node service with
  | Some _, Some node =>
      let tunnelIP := TrimSpace (n_WGTunnelIP node) in
      if negb (non_empty tunnelIP) then (rawTarget, false)
      else match url_Parse (TrimSpace rawTarget) with
           | None => (rawTarget, false)
           | Some parsed =>
               if negb (non_empty (u_Host parsed)) then (rawTarget, false)
               else
                 let port := url_Port parsed in
                 let host := if non_empty port then tunnelIP +:+ ":" +:+ port else tunnelIP in
                 (url_String {| u_Scheme := u_Scheme parsed; u_Host := host; u_Rest := u_Rest parsed |}, true)
           end
  | _, _ => (rawTarget, false)
  end.

Definition upstreamTLSServerName (svc : Service) (originalTargetURL : string) : string :=
  let override := TrimSpace (s_UpstreamServerName svc) in
  if non_empty override then override
  else match url_Parse (TrimSpace originalTargetURL) with Some u => url_Hostname u | None => "" end.

Definition choose_transport (config : RouteConfig) (target : URL) (viaNode : bool) : transport :=
  let base := viaNode && tunnelReady in
  let svc := rc_Service config in
  let name := upstreamTLSServerName svc (rc_TargetURL config) in
  let ca := TrimSpace (s_UpstreamCAPEM svc) in
  {| via_tunnel := base;
     tls := if non_empty ca then (if valid_pem ca then PinnedTLS ca name else DefaultTLS)
            else if s_UpstreamSkipVerify svc then InsecureTLS
            else if viaNode && non_empty name && String.eqb (u_Scheme target) "https" then ServerNameTLS name
            else DefaultTLS |}.

(** [routeFromConfig]; the counter [m.revision] is passed along. *)
Definition routeFromConfig (revision : Z) (config : RouteConfig) : result route_error Route * Z :=
  let '(targetURL, viaNode) := rewriteTargetForTunnel (rc_TargetURL config) (rc_Service config) in
  match url_Parse targetURL with
  | None => (Err ErrTargetURL, revision)
  | Some target =>
      let compiled :=
        try allow <- with_error ErrAllowlist (compileCIDRs (rc_AllowCIDRs config)) ;
        try block <- with_error ErrBlocklist (compileCIDRs (rc_BlockCIDRs config)) ;
        try windows <- with_error ErrWindows (compileAccessWindows LoadLocation (rc_AccessWindows config)) ;
        try rules <- with_error ErrRules (compileAccessRules (rc_AccessRules config)) ;
        Ok (allow, block, windows, rules) in
      match compiled with
      | Err e => (Err e, revision)
      | Ok (allow, block, windows, rules) =>
          let fresh := (rc_DeploymentRevision config =? 0)%Z in
          let revision' := if fresh then (revision + 1)%Z else revision in
          (Ok {| ServiceID := rc_ServiceID config; ServiceName := rc_ServiceName config;
                 Host := normalizeHost (rc_Host config); Path := normalizePath (rc_Path config);
                 TargetURL := targetURL; TLSMode := rc_TLSMode config; RService := rc_Service config;
                 EffectivePolicy := normalizedPolicy (rc_EffectivePolicy config) (s_AuthPolicy (rc_Service config));
                 EffectiveMethod := normalizedAccessMethod (rc_EffectiveMethod config);
                 EffectiveMethodConfig := cloneJSONObject (rc_EffectiveMethodConfig config);
                 InheritedFromGroup := rc_InheritedFromGroup config;
                 AllowPrefixes := allow; BlockPrefixes := block;
                 AllowedCountries := rc_AllowedCountries config; BlockedCountries := rc_BlockedCountries config;
                 CompiledWindows := windows; RAccessRules := rules;
                 DeploymentRevision := if fresh then revision' else rc_DeploymentRevision config;
                 proxyTransport := choose_transport config target viaNode;
                 breakerTarget := rc_TargetURL config |}, revision')
      end
  end.

Fixpoint compile_routes (revision : Z) (configs : list RouteConfig) : result route_error (list Route) * Z :=
  match configs with
  | [] => (Ok [], revision)
  | config :: configs' =>
      match routeFromConfig revision config with
      | (Err e, revision') => (Err e, revision')
      | (Ok route, revision') =>
          match compile_routes revision' configs' with
          | (Err e, revision'') => (Err e, revision'')
          | (Ok routes, revision'') => (Ok (route :: routes), revision'')
          end
      end
  end.

Record proxy_state := {
  services : list Service;
  localCache : @ttlLRU string (list Route) _ _;
  sharedCache : option config_cache;
  revision : Z;
}.

Definition with_local (st : proxy_state) (c : @ttlLRU string (list Route) _ _) : proxy_state :=
  {| services := services st; localCache := c; sharedCache := sharedCache st; revision := revision st |}.

(** A lookup that missed the local cache: the configurations it read, and whether they come from the store. *)
Record pending_lookup := { pl_host : string; pl_configs : list RouteConfig; pl_store : bool }.

(** The first half of [resolveRoutesForHost]: the local cache, then the shared one, then the store. *)
Definition resolve_read (st : proxy_state) (now : Z) (host0 : string)
  : (result route_error (list Route) + pending_lookup) * proxy_state :=
  let host := normalizeHost host0 in
  if negb (validRouteHost host) then (inl (Err ErrInvalidRouteHost), st)
  else
    match Get (localCache st) now host with
    | (Some cached, local) => (inl (Ok cached), with_local st local)
    | (None, local) =>
        let '(hit, shared) :=
          match sharedCache st with
          | None => (None, None)
          | Some c => let '(hit, c') := cache_get c now host in (hit, Some c')
          end in
        let st' := {| services := services st; localCache := local; sharedCache := shared; revision := revision st |} in
        match hit with
        | Some configs => (inr {| pl_host := host; pl_configs := configs; pl_store := false |}, st')
        | None => (inr {| pl_host := host; pl_configs := GetRoutesForHost order_by_path (services st) host; pl_store := true |}, st')
        end
    end.

(** The second half, which no lock joins to the first: what the store answered goes into the shared cache, the routes are compiled and
    go into the local one. *)
Definition resolve_finish (st : proxy_state) (now : Z) (p : pending_lookup) : result route_error (list Route) * proxy_state :=
  let shared := if pl_store p then (λ c, cache_set c now (pl_host p) (pl_configs p) (30 * Second)) <$> sharedCache st else sharedCache st in
  let '(compiled, revision') := compile_routes (revision st) (pl_configs p) in
  let st' := {| services := services st; localCache := localCache st; sharedCache := shared; revision := revision' |} in
  match compiled with
  | Err e => (Err e, st')
  | Ok routes => (Ok (sort_routes routes), with_local st' (Add (localCache st) now (pl_host p) (sort_routes routes)))
  end.

(** [resolveRoutesForHost] when nothing happens between its halves. *)
Definition resolveRoutesForHost (st : proxy_state) (now : Z) (host : string) : result route_error (list Route) * proxy_state :=
  match resolve_read st now host with
  | (inl answer, st') => (answer, st')
  | (inr p, st') => resolve_finish st' now p
  end.

(** The two halves in one piece. *)
Lemma resolveRoutesForHost_eq st now host0 : resolveRoutesForHost st now host0 =
  let host := normalizeHost host0 in
  if negb (validRouteHost host) then (Err ErrInvalidRouteHost, st)
  else
    match Get (localCache st) now host with
    | (Some cached, local) => (Ok cached, with_local st local)
    | (None, local) =>
        let '(hit, shared) :=
          match sharedCache st with
          | None => (None, None)
          | Some c => let '(hit, c') := cache_get c now host in (hit, Some c')
          end in
        let configs := match hit with
                       | Some configs => configs
                       | None => GetRoutesForHost order_by_path (services st) host
                       end in
        let shared' := match hit, shared with
                       | None, Some c => Some (cache_set c now host configs (30 * Second))
                       | _, _ => shared
                       end in
        let '(compiled, revision') := compile_routes (revision st) configs in
        let st' := {| services := services st; localCache := local; sharedCache := shared'; revision := revision' |} in
        match compiled with
        | Err e => (Err e, st')
        | Ok routes => (Ok (sort_routes routes), with_local st' (Add local now host (sort_routes routes)))
        end
    end.
Proof.
  unfold resolveRoutesForHost, resolve_read, resolve_finish. cbv zeta. destruct (negb _); [done|].
  destruct (Get _ _ _) as [[cached|] local]; [done|]. destruct (sharedCache st) as [c|]; cbn.
  - destruct (cache_get c now _) as [[configs|] c']; cbn; by destruct (compile_routes _ _) as [[] ?].
  - by destruct (compile_routes _ _) as [[] ?].
Qed.

Definition matchRoute (st : proxy_state) (now : Z) (host path : string) : option Route * proxy_state :=
  match resolveRoutesForHost st now host with
  | (Err _, st') => (None, st')
  | (Ok routes, st') => (List.find (λ route, matchesPath (Path route) path) routes, st')
  end.

(** [InvalidateHost], without the message to other instances. *)
Definition InvalidateHost (st : proxy_state) (host0 : string) : proxy_state :=
  let host := normalizeHost host0 in
  let wildcard := IsWildcardHost host in
  {| services := services st;
     localCache := if wildcard then Purge (localCache st) else Remove (localCache st) host;
     sharedCache := match sharedCache st with
                    | None => None
                    | Some c => Some (if wildcard then cache_invalidate_all c else cache_invalidate c host)
                    end;
     revision := revision st |}.
End runtime.

(** * Lemmas *)

(** ** The store *)

Definition route_norm (r : RouteConfig) : string := ToLower (TrimSpace (rc_Host r)).
Definition exact_for (host : string) (r : RouteConfig) : bool := String.eqb (route_norm r) host.
Definition wildcard_for (host : string) (r : RouteConfig) : bool :=
  negb (String.eqb (route_norm r) host) && IsWildcardHost (route_norm r) && HostMatches (route_norm r) host.

Lemma filterRoutesByHost_unfold routes host :
  canonical_host host → host ≠ "" →
  filterRoutesByHost routes host =
  match List.filter (exact_for host) routes with
  | [] => List.filter (wildcard_for host) routes
  | exact => exact
  end.
Proof.
  intros Hc Hne. unfold filterRoutesByHost. rewrite Hc, (proj2 (String.eqb_neq host "") Hne).
  cbv zeta. change (List.filter (λ route, String.eqb (ToLower (TrimSpace (rc_Host route))) host) routes)
    with (List.filter (exact_for host) routes).
  by destruct (List.filter (exact_for host) routes).
Qed.

Lemma filterRoutesByHost_perm X Y host :
  canonical_host host → host ≠ "" →
  List.filter (exact_for host) X ≡ₚ List.filter (exact_for host) Y →
  List.filter (wildcard_for host) X ≡ₚ List.filter (wildcard_for host) Y →
  filterRoutesByHost X host ≡ₚ filterRoutesByHost Y host.
Proof.
  intros Hc Hne He Hw. rewrite !filterRoutesByHost_unfold by done.
  destruct (List.filter (exact_for host) X) as [|x X'], (List.filter (exact_for host) Y) as [|y Y']; try done.
  - by apply Permutation_nil_cons in He.
  - symmetry in He. by apply Permutation_nil_cons in He.
Qed.

Lemma List_filter_perm {A} (p : A → bool) l k : l ≡ₚ k → List.filter p l ≡ₚ List.filter p k.
Proof.
  induction 1; simpl; repeat case_match; try done; try (by constructor); by etrans.
Qed.

Lemma toRouteConfigs_perm l k : l ≡ₚ k → toRouteConfigs l ≡ₚ toRouteConfigs k.
Proof. apply omap_Permutation. Qed.

Lemma toRouteConfig_host service r :
  toRouteConfig service = Some r → rc_Host r = ServiceHost service ∧ TrimSpace (d_Name (s_Domain service)) ≠ "" ∧
  rc_Service r = service.
Proof.
  unfold toRouteConfig. destruct (non_empty (TrimSpace (d_Name (s_Domain service)))) eqn:Hne; [|done].
  apply non_empty_true in Hne. cbn [negb]. destruct (EffectiveAccessForService service) as [[[? ?] ?] ?].
  by intros [= <-].
Qed.

(** A route that survives the filter belongs to a domain among the candidates. *)
Lemma kept_selected host service r :
  canonical_host host → validRouteHost host = true →
  TrimSpace (d_Name (s_Domain service)) = d_Name (s_Domain service) →
  IsWildcardHost (ToLower (d_Name (s_Domain service))) = false →
  toRouteConfig service = Some r → exact_for host r = true ∨ wildcard_for host r = true →
  ToLower (d_Name (s_Domain service)) ∈ domainCandidatesForHost host.
Proof.
  intros Hc Hv Htrim Hw Hr Hkept. destruct (toRouteConfig_host service r Hr) as (Hhost & Hne & _).
  set (name := d_Name (s_Domain service)) in *.
  pose proof (ServiceHostname_canonical name (s_Subdomain service)) as Hcan.
  assert (canonical_host (ToLower name)) as Hcn by (rewrite <-Htrim; apply canonical_host_intro).
  assert (ToLower name ≠ "") as Hne' by (rewrite ToLower_empty; by rewrite <-Htrim).
  assert (ServiceHost service = ServiceHostname (ToLower name) (s_Subdomain service)) as Hsh.
  { unfold ServiceHost, ServiceHostname. fold name. by rewrite Hcn, Htrim. }
  destruct Hkept as [He|Hwild].
  - apply String.eqb_eq in He. unfold route_norm in He. rewrite Hhost in He.
    unfold ServiceHost in He. fold name in He. rewrite Hcan in He.
    rewrite validRouteHost_candidates by done.
    pose proof (ServiceHostname_suffix name (s_Subdomain service)) as Hs. cbv zeta in Hs.
    rewrite Htrim in Hs. destruct (Hs Hne') as [Heq|[prefix Heq]]; rewrite Heq in He; subst host.
    + apply candidates_from_head.
    + apply candidates_from_suffix.
  - unfold wildcard_for in Hwild. rewrite !andb_true_iff in Hwild. destruct Hwild as [_ Hm].
    unfold route_norm in Hm. rewrite Hhost in Hm. unfold ServiceHost in Hm. fold name in Hm. rewrite Hcan in Hm.
    eapply (domainCandidates_complete (ToLower name) (s_Subdomain service)); try done.
    unfold ServiceHost in Hsh. fold name in Hsh. by rewrite <-Hsh.
Qed.

(** The names of the domains table: trimmed, and no wildcards. *)
Definition plain_domain (service : Service) : Prop :=
  TrimSpace (d_Name (s_Domain service)) = d_Name (s_Domain service) ∧
  IsWildcardHost (ToLower (d_Name (s_Domain service))) = false.

Lemma preselection_filter (p : RouteConfig → bool) host l :
  canonical_host host → validRouteHost host = true → Forall plain_domain l →
  (∀ r, p r = true → exact_for host r = true ∨ wildcard_for host r = true) →
  List.filter p (toRouteConfigs (List.filter (selected (domainCandidatesForHost host)) l)) =
  List.filter p (toRouteConfigs (List.filter s_Enabled l)).
Proof.
  intros Hc Hv Hl Hp. induction Hl as [|s l [Htrim Hw] Hl IH]; [done|]. cbn [List.filter].
  unfold selected at 1. destruct (s_Enabled s); [|by rewrite andb_false_r]. rewrite andb_true_r.
  destruct (existsb (String.eqb (ToLower (d_Name (s_Domain s)))) (domainCandidatesForHost host)) eqn:Hsel.
  - unfold toRouteConfigs. cbn [omap list_omap]. destruct (toRouteConfig s); [|exact IH].
    cbn [List.filter]. case_match; [f_equal|]; exact IH.
  - unfold toRouteConfigs. cbn [omap list_omap]. destruct (toRouteConfig s) as [r|] eqn:Hr; [|exact IH].
    cbn [List.filter]. destruct (p r) eqn:Hpr; [|exact IH]. exfalso.
    pose proof (kept_selected host s r Hc Hv Htrim Hw Hr (Hp r Hpr)) as Hin.
    rewrite existsb_false_elem in Hsel. specialize (Hsel _ Hin). by rewrite String.eqb_refl in Hsel.
Qed.

Lemma GetRoutesForHost_spec order services host :
  (∀ l, order l ≡ₚ l) → canonical_host host → validRouteHost host = true → Forall plain_domain services →
  GetRoutesForHost order services host ≡ₚ
  filterRoutesByHost (toRouteConfigs (List.filter s_Enabled services)) host.
Proof.
  intros Hord Hc Hv Hplain. unfold GetRoutesForHost. rewrite Hc.
  assert (host ≠ "") as Hne by (intros ->; done).
  destruct (domainCandidatesForHost host) as [|c cs] eqn:Hcand.
  { rewrite validRouteHost_candidates in Hcand by done. pose proof (candidates_from_head host) as Hin.
    rewrite Hcand in Hin. by apply elem_of_nil in Hin. }
  rewrite <-Hcand. apply filterRoutesByHost_perm; [done|done|..].
  - etrans; [apply List_filter_perm, toRouteConfigs_perm, Hord|]. by rewrite preselection_filter by auto.
  - etrans; [apply List_filter_perm, toRouteConfigs_perm, Hord|]. by rewrite preselection_filter by auto.
Qed.

(** ** Hosts as cache keys *)

(** net/http refuses a Host header with white space. *)
Definition clean_host (h : string) : Prop := string_all (λ a, negb (is_space a)) h = true.

Lemma string_all_cut_before q s c : string_all q s = true → string_all q (cut_before s c) = true.
Proof.
  unfold cut_before. induction s as [|a s IH]; [done|]. cbn [Cut string_all]. intros [Ha Hs]%andb_true_iff.
  destruct (Ascii.eqb a c); [done|]. destruct (Cut s c) as [[b r] f]. simpl in *. by rewrite Ha, IH.
Qed.

Lemma cut_colon_lower s : cut_before (ToLower s) ":" = ToLower (cut_before s ":").
Proof.
  assert (∀ a, Ascii.eqb (lower_ascii a) ":" = Ascii.eqb a ":") as Hcolon
    by (intros a; by destruct a as [[] [] [] [] [] [] [] []]).
  unfold cut_before. induction s as [|a s IH]; [done|].
  change (ToLower (String a s)) with (String (lower_ascii a) (ToLower s)). cbn [Cut]. rewrite Hcolon.
  destruct (Ascii.eqb a ":"); [done|].
  destruct (Cut (ToLower s) ":") as [[b1 ?] ?], (Cut s ":") as [[b2 ?] ?]. simpl in *. by rewrite IH.
Qed.

Lemma clean_lower h : clean_host h → clean_host (ToLower h).
Proof.
  unfold clean_host. induction h as [|a h IH]; [done|]. simpl. intros [Ha Hh]%andb_true_iff.
  rewrite is_space_lower, Ha. by apply IH.
Qed.

(** The key of a clean host is clean, trimmed, in lower case, without a port, and its own key. *)
Lemma normalizeHost_key h :
  clean_host h →
  clean_host (normalizeHost h) ∧ canonical_host (normalizeHost h) ∧ normalizeHost (normalizeHost h) = normalizeHost h.
Proof.
  intros Hh. unfold normalizeHost.
  pose proof (clean_lower h Hh) as Hl. rewrite (TrimSpace_none (ToLower h)) by done.
  pose proof (string_all_cut_before _ _ ":" Hl) as Hc. fold (clean_host (cut_before (ToLower h) ":")) in Hc.
  assert (ToLower (cut_before (ToLower h) ":") = cut_before (ToLower h) ":") as Hlow
    by (by rewrite cut_colon_lower, ToLower_idem).
  split; [done|]. unfold canonical_host. rewrite (TrimSpace_none (cut_before _ _)) by done.
  split; [done|]. rewrite Hlow, (TrimSpace_none (cut_before _ _)) by done.
  apply cut_before_id, cut_before_no_sep.
Qed.

(** A service whose host neither is the key nor is a wildcard does not matter to the key. *)
Definition concerns (key : string) (service : Service) : Prop :=
  IsWildcardHost (normalizeHost (ServiceHost service)) = true ∨ normalizeHost (ServiceHost service) = key.

Lemma IsWildcardHost_normalize h : canonical_host h → IsWildcardHost (normalizeHost h) = IsWildcardHost h.
Proof.
  intros Hc. unfold normalizeHost. rewrite TrimSpace_ToLower, Hc.
  destruct h as [|a [|b h]]; [done| |]; unfold IsWildcardHost.
  - unfold cut_before. cbn [Cut]. destruct (Ascii.eqb a ":"); simpl; by rewrite ?andb_false_r.
  - unfold cut_before. cbn [Cut].
    destruct (Ascii.eqb_spec a ":") as [->|Ha]; [done|].
    destruct (Ascii.eqb_spec b ":") as [->|Hb]; [simpl; by rewrite ?andb_false_r|].
    destruct (Cut h ":") as [[x y] z]. simpl. by destruct h, x.
Qed.

Lemma unconcerned_dropped key service r :
  canonical_host key → normalizeHost key = key → ¬ concerns key service → toRouteConfig service = Some r →
  exact_for key r = false ∧ wildcard_for key r = false.
Proof.
  intros Hc Hk Hnc Hr. destruct (toRouteConfig_host service r Hr) as (Hhost & _ & _).
  assert (route_norm r = ServiceHost service) as Hn.
  { unfold route_norm. rewrite Hhost. apply ServiceHostname_canonical. }
  unfold exact_for, wildcard_for, concerns in *. rewrite Hn.
  rewrite IsWildcardHost_normalize in Hnc by apply ServiceHostname_canonical.
  destruct (String.eqb_spec (ServiceHost service) key) as [Heq|Hne]; [destruct Hnc; right; by rewrite Heq|].
  split; [done|]. destruct (IsWildcardHost (ServiceHost service)); [by destruct Hnc; left|done].
Qed.

(** ** Coherence of the caches *)

Section coherence.
Variable url_Parse : string → option URL.
Variable url_String : URL → string.
Variable url_Port url_Hostname : URL → string.
Variable valid_pem : string → bool.
Variable LoadLocation : string → option Location.
Variable tunnelReady : bool.
Variable order_by_path : list Service → list Service.
Variable sort_routes : list Route → list Route.
Hypothesis order_perm : ∀ l, order_by_path l ≡ₚ l.
Hypothesis sort_perm : ∀ l, sort_routes l ≡ₚ l.

Abbreviation resolve := (resolveRoutesForHost url_Parse url_String url_Port url_Hostname valid_pem LoadLocation
  tunnelReady order_by_path sort_routes).
Abbreviation compile := (compile_routes url_Parse url_String url_Port url_Hostname valid_pem LoadLocation tunnelReady).
Abbreviation stored := (GetRoutesForHost order_by_path).

(** Routes compiled from what the store holds for a host. *)
Definition fresh_routes (services : list Service) (host : string) (routes : list Route) : Prop :=
  ∃ rev configs rev' compiled, configs ≡ₚ stored services host ∧
    compile rev configs = (Ok compiled, rev') ∧ routes ≡ₚ compiled.

Definition is_key (k : string) : Prop := canonical_host k ∧ normalizeHost k = k.

(** Every cached entry whose key is not excepted is what the store would answer. *)
Record coherent_except (stale : string → Prop) (st : proxy_state) : Prop := {
  co_lru : lru_inv (localCache st);
  co_local : ∀ e, e ∈ abs (localCache st) →
    is_key (te_key e) ∧ (¬ stale (te_key e) → fresh_routes (services st) (te_key e) (te_value e));
  co_shared : ∀ c host entry, sharedCache st = Some c → c !! host = Some entry →
    is_key host ∧ (¬ stale host → me_routes entry ≡ₚ stored (services st) host);
}.

Definition coherent : proxy_state → Prop := coherent_except (λ _, False).

Lemma without_subset {V} k (l : list (ttlEntry string V)) x : x ∈ without k l → x ∈ l ∧ te_key x ≠ k.
Proof. unfold without. by intros [? ?]%list_elem_of_filter. Qed.

Lemma spec_find_elem {V} k (l : list (ttlEntry string V)) e : spec_find k l = Some e → e ∈ l ∧ te_key e = k.
Proof.
  unfold spec_find. intros [Hin Hk]%List.find_some. apply list_elem_of_In in Hin.
  by apply bool_decide_eq_true in Hk.
Qed.

Lemma spec_get_subset {V} now k (l : list (ttlEntry string V)) x : x ∈ (spec_get now k l).2 → x ∈ l.
Proof.
  unfold spec_get. destruct (spec_find k l) as [e|] eqn:Hf; [|done].
  apply spec_find_elem in Hf as [He _]. case_match; simpl; [by intros [? _]%without_subset|].
  intros [->|Hx]%elem_of_cons; [done|]. by apply without_subset in Hx as [? _].
Qed.

Lemma spec_get_hit {V} now k (l : list (ttlEntry string V)) v :
  (spec_get now k l).1 = Some v → ∃ e, e ∈ l ∧ te_key e = k ∧ te_value e = v.
Proof.
  unfold spec_get. destruct (spec_find k l) as [e|] eqn:Hf; [|done].
  apply spec_find_elem in Hf as [He Hk]. case_match; [done|]. simpl. intros [= <-]. eauto.
Qed.

(** A lookup in the local cache. *)
Lemma local_get stale st now k hit local :
  coherent_except stale st → Get (localCache st) now k = (hit, local) →
  coherent_except stale (with_local st local) ∧ capacity local = capacity (localCache st) ∧
  ∀ v, hit = Some v → ¬ stale k → fresh_routes (services st) k v.
Proof.
  intros [Hlru Hloc Hsh] Hget. pose proof (Get_refines (localCache st) now k Hlru) as (Hinv & Hspec & Hcap & _).
  rewrite Hget in *. simpl in *. split; [|split; [done|]].
  - split; simpl; [done| |done]. intros e He. apply Hloc.
    apply (f_equal snd) in Hspec. simpl in Hspec. rewrite Hspec in He. by eapply spec_get_subset.
  - intros v -> Hk. apply (f_equal fst) in Hspec. simpl in Hspec. symmetry in Hspec.
    apply spec_get_hit in Hspec as (e & He & Hek & <-). destruct (Hloc e He) as [_ Hf].
    rewrite Hek in Hf. by apply Hf.
Qed.

(** Resolving keeps the caches coherent and answers fresh routes. *)
Lemma resolve_coherent st now host res st' :
  coherent st → clean_host host → resolve st now host = (res, st') →
  coherent st' ∧ services st' = services st ∧
  ∀ routes, res = Ok routes → fresh_routes (services st) (normalizeHost host) routes.
Proof.
  intros Hco Hclean Hres. destruct (normalizeHost_key host Hclean) as (_ & Hcan & Hidem).
  rewrite resolveRoutesForHost_eq in Hres. cbv zeta in Hres.
  destruct (validRouteHost (normalizeHost host)); cbn [negb] in Hres; [|by simplify_eq].
  destruct (Get (localCache st) now (normalizeHost host)) as [[cached|] local] eqn:Hget;
    destruct (local_get _ st now _ _ _ Hco Hget) as (Hco1 & _ & Hhit).
  { simplify_eq. split; [done|]. split; [done|]. intros routes [= <-]. apply Hhit; auto. }
  clear Hhit. destruct Hco1 as [Hlru Hloc Hsh]. simpl in Hlru, Hloc, Hsh.
  set (key := normalizeHost host) in *.
  (* what the shared cache gives and becomes *)
  assert (∃ hit shared, (match sharedCache st with
    | None => (None, None)
    | Some c => let '(hit, c') := cache_get c now key in (hit, Some c')
    end) = (hit, shared) ∧
    (∀ configs, hit = Some configs → configs ≡ₚ stored (services st) key) ∧
    (∀ c h entry, shared = Some c → c !! h = Some entry → is_key h ∧ me_routes entry ≡ₚ stored (services st) h))
    as (hit & shared & Heq & Hhit & Hshared).
  { destruct (sharedCache st) as [c|] eqn:Hc; [|by exists None, None].
    unfold cache_get. rewrite Hidem. destruct (c !! key) as [entry|] eqn:He.
    - destruct (Hsh c key entry eq_refl He) as [_ Hfresh]. destruct (me_expiresAt entry <? now)%Z.
      + exists None, (Some (delete key c)). split; [done|]. split; [done|].
        intros c' h entry' [= <-] [_ Hl]%lookup_delete_Some. destruct (Hsh c h entry' eq_refl Hl) as [? Hf]. auto.
      + exists (Some (me_routes entry)), (Some c). split_and!; [done| |].
        * intros configs [= <-]. auto.
        * intros c' h entry' [= <-] Hl. destruct (Hsh c h entry' eq_refl Hl) as [? Hf]. auto.
    - exists None, (Some c). split; [done|]. split; [done|].
      intros c' h entry' [= <-] Hl. destruct (Hsh c h entry' eq_refl Hl) as [? Hf]. auto. }
  rewrite Heq in Hres.
  set (configs := match hit with Some configs => configs | None => stored (services st) key end) in *.
  assert (configs ≡ₚ stored (services st) key) as Hconf by (unfold configs; destruct hit; auto).
  set (shared' := match hit, shared with
                  | None, Some c => Some (cache_set c now key configs (30 * Second))
                  | _, _ => shared end) in *.
  assert (∀ c h entry, shared' = Some c → c !! h = Some entry → is_key h ∧ me_routes entry ≡ₚ stored (services st) h)
    as Hshared'.
  { unfold shared'. destruct hit, shared as [c|]; try done. intros c' h entry [= <-].
    unfold cache_set. simpl Z.leb. cbv iota. rewrite Hidem. intros [[<- <-]|[_ Hl]]%lookup_insert_Some.
    - split; [done|]. exact Hconf.
    - by apply (Hshared c). }
  destruct (compile (revision st) configs) as [compiled rev'] eqn:Hcomp.
  destruct compiled as [routes|e]; injection Hres as <- <-.
  - assert (fresh_routes (services st) key (sort_routes routes)) as Hfresh.
    { exists (revision st), configs, rev', routes. auto. }
    split; [|split; [done|]]; [|by intros routes' [= <-]].
    pose proof (Add_refines local now key (sort_routes routes) Hlru) as (Hinv & Habs & _).
    split; simpl; [done| |].
    + intros e He. rewrite Habs in He. unfold spec_add in He. apply elem_of_take in He as (i & Hi & _).
      apply list_elem_of_lookup_2, elem_of_cons in Hi as [->|He]; [done|].
      apply without_subset in He as [He _]. destruct (Hloc e He) as [? Hf]. auto.
    + intros c h entry Hc Hl. destruct (Hshared' c h entry Hc Hl). auto.
  - split; [|done]. split; simpl; [done| |].
    + intros e' He. destruct (Hloc e' He) as [? Hf]. auto.
    + intros c h entry Hc Hl. destruct (Hshared' c h entry Hc Hl). auto.
Qed.

(** *** Changes of the services table *)

Definition with_services (st : proxy_state) (l : list Service) : proxy_state :=
  {| services := l; localCache := localCache st; sharedCache := sharedCache st; revision := revision st |}.

(** Keys a host to invalidate covers. *)
Definition covered (hosts : list string) (key : string) : Prop :=
  ∃ h, h ∈ hosts ∧ (IsWildcardHost (normalizeHost h) = true ∨ normalizeHost h = key).

Lemma filter_unconcerned (p : RouteConfig → bool) key l :
  is_key key → Forall (λ s, ¬ concerns key s) l →
  (∀ r, p r = true → exact_for key r = true ∨ wildcard_for key r = true) →
  List.filter p (toRouteConfigs (List.filter (selected (domainCandidatesForHost key)) l)) = [].
Proof.
  intros [Hc Hk] Hl Hp. induction Hl as [|s l Hs Hl IH]; [done|]. cbn [List.filter].
  destruct (selected _ s); [|done]. unfold toRouteConfigs. cbn [omap list_omap].
  destruct (toRouteConfig s) as [r|] eqn:Hr; [|exact IH]. cbn [List.filter].
  destruct (unconcerned_dropped key s r Hc Hk Hs Hr) as [He Hw].
  destruct (p r) eqn:Hpr; [|exact IH]. by destruct (Hp r Hpr) as [?|?]; congruence.
Qed.

Lemma List_filter_app {A} (p : A → bool) l k : List.filter p (l ++ k) = List.filter p l ++ List.filter p k.
Proof. induction l as [|x l IH]; simpl; [done|]. case_match; simpl; by rewrite IH. Qed.

Lemma toRouteConfigs_app l k : toRouteConfigs (l ++ k) = toRouteConfigs l ++ toRouteConfigs k.
Proof. apply omap_app. Qed.

Lemma stored_unchanged key a old new b :
  is_key key → key ≠ "" → Forall (λ s, ¬ concerns key s) (old ++ new) →
  stored (a ++ old ++ b) key ≡ₚ stored (a ++ new ++ b) key.
Proof.
  intros Hkey Hne [Hold Hnew]%Forall_app. destruct Hkey as [Hc Hk].
  unfold GetRoutesForHost. rewrite Hc. destruct (domainCandidatesForHost key) as [|c cs] eqn:Hcand; [done|].
  rewrite <-Hcand.
  assert (∀ p mid, (∀ r, p r = true → exact_for key r = true ∨ wildcard_for key r = true) →
    Forall (λ s, ¬ concerns key s) mid →
    List.filter p (toRouteConfigs (order_by_path (List.filter (selected (domainCandidatesForHost key)) (a ++ mid ++ b)))) ≡ₚ
    List.filter p (toRouteConfigs (List.filter (selected (domainCandidatesForHost key)) a)) ++
    List.filter p (toRouteConfigs (List.filter (selected (domainCandidatesForHost key)) b))) as Hp.
  { intros p mid Hp Hmid. etrans; [apply List_filter_perm, toRouteConfigs_perm, order_perm|].
    rewrite !List_filter_app, !toRouteConfigs_app, !List_filter_app.
    by rewrite (filter_unconcerned p key mid). }
  apply filterRoutesByHost_perm; [done|done|..]; rewrite !Hp by auto; done.
Qed.

(** After a change only the keys covered by the hosts involved may be stale. *)
Lemma change_except st a old new b :
  coherent st → services st = a ++ old ++ b →
  coherent_except (covered (ServiceHost <$> old ++ new)) (with_services st (a ++ new ++ b)).
Proof.
  intros [Hlru Hloc Hsh] Hsv.
  assert (∀ k, is_key k → ¬ covered (ServiceHost <$> old ++ new) k →
    stored (services st) k ≡ₚ stored (a ++ new ++ b) k) as Hsame.
  { intros k Hk Hnc. rewrite Hsv. destruct (decide (k = "")) as [->|Hne]; [done|].
    apply stored_unchanged; [done|done|]. apply Forall_forall. intros s Hs Hcon. apply Hnc.
    exists (ServiceHost s). split; [by apply list_elem_of_fmap_2|]. done. }
  split; simpl; [done| |].
  - intros e He. destruct (Hloc e He) as [Hk Hf]. split; [done|]. intros Hnc.
    destruct (Hf ltac:(tauto)) as (rev & configs & rev' & compiled & Hcf & Hcm & Hp).
    exists rev, configs, rev', compiled. split; [|done]. etrans; [exact Hcf|]. by apply Hsame.
  - intros c h entry Hc Hl. destruct (Hsh c h entry Hc Hl) as [Hk Hf]. split; [done|]. intros Hnc.
    etrans; [apply Hf; tauto|]. by apply Hsame.
Qed.

(** Invalidating a host removes the entries it covers. *)
Lemma invalidate_except st h hosts :
  coherent_except (covered (h :: hosts)) st → coherent_except (covered hosts) (InvalidateHost st h).
Proof.
  intros [Hlru Hloc Hsh]. unfold InvalidateHost. cbv zeta.
  destruct (IsWildcardHost (normalizeHost h)) eqn:Hw; split; simpl.
  - by apply Purge_refines.
  - destruct (Purge_refines (localCache st) Hlru) as [_ Habs]. rewrite Habs. intros e He. by apply elem_of_nil in He.
  - destruct (sharedCache st); [|done]. intros c k entry [= <-]. unfold cache_invalidate_all. by rewrite lookup_empty.
  - by apply Remove_refines.
  - destruct (Remove_refines (localCache st) (normalizeHost h) Hlru) as (_ & Habs & _). rewrite Habs.
    intros e [He Hne]%without_subset. destruct (Hloc e He) as [Hk Hf]. split; [done|]. intros Hnc. apply Hf.
    intros (h' & [->|Hin]%elem_of_cons & Hcov); [|by apply Hnc; exists h'].
    destruct Hcov as [?|?]; [congruence|done].
  - destruct (sharedCache st) as [c0|]; [|done]. intros c k entry [= <-]. unfold cache_invalidate.
    intros [Hne Hl]%lookup_delete_Some.
    destruct (Hsh c0 k entry eq_refl Hl) as [Hk Hf]. split; [done|]. intros Hnc. apply Hf.
    intros (h' & [->|Hin]%elem_of_cons & Hcov); [|by apply Hnc; exists h'].
    destruct Hcov as [?|Heq]; [congruence|]. apply Hne. rewrite Heq. apply Hk.
Qed.

Lemma coherent_except_weaken (P Q : string → Prop) st :
  (∀ k, P k → Q k) → coherent_except P st → coherent_except Q st.
Proof.
  intros HPQ [Hlru Hloc Hsh]. split; [done| |].
  - intros e He. destruct (Hloc e He) as [? Hf]. split; [done|]. intros Hn. apply Hf. auto.
  - intros c k entry Hc Hl. destruct (Hsh c k entry Hc Hl) as [? Hf]. split; [done|]. intros Hn. apply Hf. auto.
Qed.

Lemma invalidate_all_coherent hosts st :
  coherent_except (covered hosts) st → coherent (foldl InvalidateHost st hosts).
Proof.
  revert st. induction hosts as [|h hosts IH]; intros st Hco; simpl.
  - eapply coherent_except_weaken; [|exact Hco]. intros k (h & Hin & _). by apply elem_of_nil in Hin.
  - apply IH. by apply invalidate_except.
Qed.

(** Requests and administrative changes, in any order. *)
Inductive routing_step : proxy_state → proxy_state → Prop :=
  | step_resolve st now host res st' :
      clean_host host → resolve st now host = (res, st') → routing_step st st'
  | step_change st a old new b :
      services st = a ++ old ++ b →
      routing_step st (foldl InvalidateHost (with_services st (a ++ new ++ b)) (ServiceHost <$> old ++ new)).

Lemma routing_step_coherent st st' : routing_step st st' → coherent st → coherent st'.
Proof.
  intros [s now host res s' Hclean Hres|s a old new b Hsv] Hco.
  - by eapply resolve_coherent in Hres as [? _].
  - by apply invalidate_all_coherent, change_except.
Qed.

Definition initial_state (svcs : list Service) (cap ttl : Z) (shared : bool) : proxy_state :=
  {| services := svcs; localCache := newTTLLRU cap ttl; sharedCache := if shared then Some ∅ else None; revision := 0 |}.

Lemma initial_coherent svcs cap ttl shared : coherent (initial_state svcs cap ttl shared).
Proof.
  destruct (newTTLLRU_inv (K := string) (V := list Route) cap ttl) as [Hinv Habs].
  split; simpl; [done| |].
  - rewrite Habs. intros e He. by apply elem_of_nil in He.
  - intros c k entry. destruct shared; [|done]. intros [= <-]. by rewrite lookup_empty.
Qed.

(** * Theorems *)

(** Through both caches, with any interleaving of requests and of administrative changes
    followed by the invalidation of the hosts involved, a host resolves to the routes
    compiled from the services the table holds at that moment. *)
Theorem resolved_routes_are_current svcs cap ttl shared st now host routes st' :
  rtc routing_step (initial_state svcs cap ttl shared) st → clean_host host →
  resolve st now host = (Ok routes, st') →
  fresh_routes (services st) (normalizeHost host) routes.
Proof.
  intros Hsteps Hclean Hres. assert (coherent st) as Hco.
  { revert st Hsteps Hres. intros st Hsteps _. revert st Hsteps. apply rtc_ind_r; [apply initial_coherent|].
    eauto using routing_step_coherent. }
  destruct (resolve_coherent st now host _ _ Hco Hclean Hres) as (_ & _ & Hf). by apply Hf.
Qed.
End coherence.

(** Selecting by the domains a host may belong to before filtering by host loses no route:
    the query answers, up to the order of ties, what a scan of all enabled services would. *)
Theorem store_preselection_complete order services host :
  (∀ l, order l ≡ₚ l) → canonical_host host → validRouteHost host = true → Forall plain_domain services →
  GetRoutesForHost order services host ≡ₚ
  filterRoutesByHost (toRouteConfigs (List.filter s_Enabled services)) host.
Proof. apply GetRoutesForHost_spec. Qed.

(** Longer paths first. *)
Definition longer (a b : Route) : Prop := (String.length (Path b) ≤ String.length (Path a))%nat.

Lemma find_longest (path : string) (l : list Route) :
  StronglySorted longer l →
  match List.find (λ route, matchesPath (Path route) path) l with
  | Some r => r ∈ l ∧ matchesPath (Path r) path = true ∧
      ∀ r', r' ∈ l → matchesPath (Path r') path = true → longer r r'
  | None => ∀ r', r' ∈ l → matchesPath (Path r') path = false
  end.
Proof.
  induction 1 as [|r l Hl IH Hr]; simpl; [intros r' Hr'; by apply elem_of_nil in Hr'|].
  destruct (matchesPath (Path r) path) eqn:Hm.
  - split; [by left|]. split; [done|]. intros r' [->|Hr']%elem_of_cons Hm'; [unfold longer; lia|].
    by eapply Forall_forall in Hr.
  - destruct (List.find _ l) as [x|].
    + destruct IH as (Hx & Hmx & Hmax). split; [by right|]. split; [done|].
      intros r' [->|Hr']%elem_of_cons Hm'; [congruence|auto].
    + intros r' [->|Hr']%elem_of_cons; auto.
Qed.

(** When a host resolves from the store, a request goes to a route whose path is a prefix of the
    request's in whole segments, and to the longest such path; without such a route it goes
    nowhere.  The order [sort.Slice] leaves open does not matter. *)
Theorem matchRoute_longest url_Parse url_String url_Port url_Hostname valid_pem LoadLocation ready order
    (sort : list Route → list Route) svcs cap ttl shared now host path compiled rev' :
  (∀ l, sort l ≡ₚ l ∧ StronglySorted longer (sort l)) →
  clean_host host → validRouteHost (normalizeHost host) = true →
  compile_routes url_Parse url_String url_Port url_Hostname valid_pem LoadLocation ready 0
    (GetRoutesForHost order svcs (normalizeHost host)) = (Ok compiled, rev') →
  match (matchRoute url_Parse url_String url_Port url_Hostname valid_pem LoadLocation ready order sort
           (initial_state svcs cap ttl shared) now host path).1 with
  | Some r => r ∈ compiled ∧ matchesPath (Path r) path = true ∧
      ∀ r', r' ∈ compiled → matchesPath (Path r') path = true → longer r r'
  | None => ∀ r', r' ∈ compiled → matchesPath (Path r') path = false
  end.
Proof.
  intros Hsort Hclean Hv Hcomp. unfold matchRoute. rewrite resolveRoutesForHost_eq. cbv zeta. rewrite Hv. cbn [negb].
  destruct (newTTLLRU_inv (K := string) (V := list Route) cap ttl) as [Hinv Habs].
  pose proof (Get_refines _ now (normalizeHost host) Hinv) as (_ & Hget & _). rewrite Habs in Hget.
  apply (f_equal fst) in Hget. simpl in Hget. cbn [localCache initial_state sharedCache services revision].
  destruct (Get (newTTLLRU cap ttl) now (normalizeHost host)) as [hit local]. simpl in Hget. subst hit.
  assert ((match (if shared then Some (∅ : config_cache) else None) with
    | None => (None, None)
    | Some c => let '(hit, c') := cache_get c now (normalizeHost host) in (hit, Some c')
    end) = (None, if shared then Some (∅ : config_cache) else None)) as ->.
  { destruct shared; [|done]. unfold cache_get. by rewrite lookup_empty. }
  rewrite Hcomp. simpl. destruct (Hsort compiled) as [Hperm Hsorted].
  pose proof (find_longest path _ Hsorted) as Hf.
  destruct (List.find _ (sort compiled)) as [r|].
  - destruct Hf as (Hr & Hm & Hmax). split; [by rewrite <-Hperm|]. split; [done|].
    intros r' Hr'. apply Hmax. by rewrite Hperm.
  - intros r' Hr'. apply Hf. by rewrite Hperm.
Qed.

(** * Witnesses *)

#[local] Instance longer_dec a b : Decision (longer a b).
Proof. unfold longer. apply _. Defined.

Definition sort_by_length (l : list Route) : list Route := merge_sort longer l.

Lemma sort_by_length_spec l : sort_by_length l ≡ₚ l ∧ StronglySorted longer (sort_by_length l).
Proof.
  split; [apply merge_sort_Permutation|]. apply StronglySorted_merge_sort.
  - intros a b c. unfold longer. lia.
  - intros a b. unfold longer. lia.
Qed.

Definition sample_domain : DomainRow :=
  {| d_ID := 1; d_Name := "Example.com"; d_Type := "root"; d_Provider := ""; d_Notes := ""; d_IPAllowlist := [];
     d_IPBlocklist := ["192.0.2.0/24"] |}.

Definition sample_service (id : N) (sub path : string) : Service :=
  {| s_ID := id; s_Name := "svc"; s_DomainID := 1; s_Domain := sample_domain; s_Subdomain := sub; s_Path := path;
     s_TargetURL := "http://10.0.0.5:8080"; s_TLSMode := ""; s_PassHostHeader := false; s_UpstreamSkipVerify := false;
     s_UpstreamCAPEM := ""; s_UpstreamServerName := ""; s_AuthPolicy := "authenticated"; s_AccessMode := "restricted";
     s_AllowedRoles := ["admin"]; s_AllowedGroups := []; s_AllowedServiceGroups := []; s_UseGroupPolicy := false;
     s_AccessMethod := ""; s_AccessMethodConfig := ∅; s_AccessMessage := ""; s_IPAllowlist := []; s_IPBlocklist := [];
     s_AllowedCountries := []; s_BlockedCountries := []; s_AccessWindows := []; s_AccessRules := [];
     s_LoginHosts := []; s_LastDeployedAt := None; s_DeploymentRevision := 3; s_Enabled := true; s_NodeID := None;
     s_Node := None; s_ServiceGroups := [] |}.

Definition sample_services : list Service :=
  [sample_service 1 "app" "/"; sample_service 2 "app" "/api"; sample_service 3 "*" "/"].

Definition sample_parse (s : string) : option URL := Some {| u_Scheme := "http"; u_Host := s; u_Rest := "" |}.
Definition sample_compile :=
  compile_routes sample_parse u_Host u_Host u_Host (λ _, true) (λ _, None) false 0
    (GetRoutesForHost (λ l, l) sample_services "app.example.com").

Lemma store_preselection_complete_witness :
  length (GetRoutesForHost (λ l, l) sample_services "app.example.com") = 2%nat ∧
  GetRoutesForHost (λ l, l) sample_services "app.example.com" ≡ₚ
  filterRoutesByHost (toRouteConfigs (List.filter s_Enabled sample_services)) "app.example.com".
Proof.
  split; [vm_compute; reflexivity|].
  apply (store_preselection_complete (λ l, l) sample_services "app.example.com").
  - intros l. reflexivity.
  - reflexivity.
  - reflexivity.
  - repeat constructor; reflexivity.
Defined.

Lemma matchRoute_longest_witness :
  option_map ServiceID (matchRoute sample_parse u_Host u_Host u_Host (λ _, true) (λ _, None) false (λ l, l) sort_by_length
    (initial_state sample_services 10 (30 * Second) true) 0 "App.example.com:443" "/api/users").1 = Some 2%N ∧
  ∃ compiled rev', sample_compile = (Ok compiled, rev') ∧
  match (matchRoute sample_parse u_Host u_Host u_Host (λ _, true) (λ _, None) false (λ l, l) sort_by_length
           (initial_state sample_services 10 (30 * Second) true) 0 "App.example.com:443" "/api/users").1 with
  | Some r => r ∈ compiled ∧ matchesPath (Path r) "/api/users" = true ∧
      ∀ r', r' ∈ compiled → matchesPath (Path r') "/api/users" = true → longer r r'
  | None => ∀ r', r' ∈ compiled → matchesPath (Path r') "/api/users" = false
  end.
Proof.
  split; [vm_compute; reflexivity|].
  destruct sample_compile as [[compiled|e] rev'] eqn:Hc; [|vm_compute in Hc; discriminate Hc].
  exists compiled, rev'. split; [reflexivity|].
  apply (matchRoute_longest sample_parse u_Host u_Host u_Host (λ _, true) (λ _, None) false (λ l, l) sort_by_length
           sample_services 10 (30 * Second) true 0 "App.example.com:443" "/api/users" compiled rev').
  - apply sort_by_length_spec.
  - reflexivity.
  - reflexivity.
  - exact Hc.
Defined.

Lemma resolved_routes_are_current_witness :
  ∃ st routes st',
    rtc (routing_step sample_parse u_Host u_Host u_Host (λ _, true) (λ _, None) false (λ l, l) sort_by_length)
      (initial_state sample_services 10 (30 * Second) true) st ∧
    resolveRoutesForHost sample_parse u_Host u_Host u_Host (λ _, true) (λ _, None) false (λ l, l) sort_by_length
      st 1 "app.example.com" = (Ok routes, st') ∧ length routes = 1%nat ∧
    fresh_routes sample_parse u_Host u_Host u_Host (λ _, true) (λ _, None) false (λ l, l)
      (services st) (normalizeHost "app.example.com") routes.
Proof.
  set (changed := foldl InvalidateHost
    (with_services (initial_state sample_services 10 (30 * Second) true)
       ([sample_service 1 "app" "/"] ++ [] ++ [sample_service 3 "*" "/"]))
    (ServiceHost <$> [sample_service 2 "app" "/api"] ++ [])).
  assert (rtc (routing_step sample_parse u_Host u_Host u_Host (λ _, true) (λ _, None) false (λ l, l) sort_by_length)
            (initial_state sample_services 10 (30 * Second) true) changed) as Hsteps.
  { apply rtc_once. apply (step_change _ _ _ _ _ _ _ _ _ _ [sample_service 1 "app" "/"]
      [sample_service 2 "app" "/api"] [] [sample_service 3 "*" "/"]). reflexivity. }
  destruct (resolveRoutesForHost sample_parse u_Host u_Host u_Host (λ _, true) (λ _, None) false (λ l, l) sort_by_length
      changed 1 "app.example.com") as [[routes|e] st'] eqn:Hr; [|vm_compute in Hr; discriminate Hr].
  exists changed, routes, st'. split; [exact Hsteps|]. split; [exact Hr|]. split.
  - vm_compute in Hr. injection Hr as <- _. reflexivity.
  - apply (resolved_routes_are_current sample_parse u_Host u_Host u_Host (λ _, true) (λ _, None) false (λ l, l) sort_by_length
             (λ l, ltac:(reflexivity)) (λ l, proj1 (sort_by_length_spec l)) sample_services 10 (30 * Second) true
             changed 1 "app.example.com" routes st' Hsteps); [reflexivity | exact Hr].
Defined.
