(* ===== verification/RateLimit.v ===== *)
(** Rate limiting: internal/rate/local.go, and the two users of it in
    internal/auth that need more than a counter ([isRateLimited] in service.go,
    [ConsumeBridgeToken] in route_access.go).

    [LocalLimiter] keeps, per key, the instants of the calls of the last window,
    and forgets idle keys in a periodic sweep.  The specification is the whole
    history of calls: a call is allowed when at most [limit] calls, itself
    included, fall in the window that ends with it. *)
From S2P Require Import Prelude GoStrings.

#[local] Open Scope Z_scope.

(** * Definitions *)

Definition localSweepInterval : Z := 5 * Minute.
Definition localStaleAfter : Z := Hour.

Record LocalLimiter := {
  buckets : gmap string (list Z);
  lastSweep : Z;
}.

Definition NewLocalLimiter (now : Z) : LocalLimiter := {| buckets := ∅; lastSweep := now |}.

(** [sweepLocked]: a bucket survives when its last instant is after the cutoff. *)
Definition bucket_live (staleCutoff : Z) (items : list Z) : bool :=
  match last items with
  | None => false
  | Some ts => staleCutoff <? ts
  end.

Definition sweepLocked (now : Z) (b : gmap string (list Z)) : gmap string (list Z) :=
  filter (λ kv, bucket_live (now - localStaleAfter) kv.2 = true) b.

Definition bucket (l : LocalLimiter) (key : string) : list Z := default [] (buckets l !! key).

(** The instants after the cutoff. *)
Definition recent (cutoff : Z) (items : list Z) : list Z := filter (λ ts, cutoff < ts) items.

Record AllowResult := { allowed : bool; remaining : Z; reset : Z }.

Definition Allow (l : LocalLimiter) (now : Z) (key : string) (limit window : Z) : AllowResult * LocalLimiter :=
  if (limit <=? 0) || (window <=? 0) then ({| allowed := true; remaining := 0; reset := now |}, l)
  else
    let items := recent (now - window) (bucket l key) ++ [now] in
    let b := <[key := items]> (buckets l) in
    let l' := if localSweepInterval <=? now - lastSweep l
              then {| buckets := sweepLocked now b; lastSweep := now |}
              else {| buckets := b; lastSweep := lastSweep l |} in
    let n := Z.of_nat (length items) in
    ({| allowed := n <=? limit;
        remaining := Z.max 0 (limit - n);
        reset := match items with ts :: _ => ts + window | [] => now + window end |}, l').

(** ** Users in internal/auth

    The distributed limiter answers a decision or an error; on an error the
    local fallback decides. *)

Record RateConfig := { LoginAttempts : Z; Window : Z }.

(** [isRateLimited]: [distributed] is the answer of the configured limiter, [None]
    when no limiter is configured; the fallback may be missing. *)
Definition isRateLimited (cfg : RateConfig) (distributed : option (result unit bool))
    (fallback : option LocalLimiter) (now : Z) (key : string) : bool * option LocalLimiter :=
  match distributed with
  | None => (false, fallback)
  | Some (Ok ok) => (negb ok, fallback)
  | Some (Err _) =>
      match fallback with
      | None => (true, None)
      | Some l =>
          let '(r, l') := Allow l now key (LoginAttempts cfg) (Window cfg) in
          (negb (allowed r), Some l')
      end
  end.

Definition ConsumeBridgeToken (distributed : option (result unit bool))
    (fallback : option LocalLimiter) (now : Z) (jti : string) : bool * option LocalLimiter :=
  if negb (non_empty (TrimSpace jti)) then (false, fallback)
  else
  match distributed with
  | None => (true, fallback)
  | Some (Ok ok) => (ok, fallback)
  | Some (Err _) =>
      match fallback with
      | None => (false, None)
      | Some l =>
          let '(r, l') := Allow l now ("bridge-jti:" +:+ jti) 1 (5 * Minute) in
          (allowed r, Some l')
      end
  end.

(** * Histories *)

Record call := { c_now : Z; c_key : string; c_limit : Z; c_window : Z }.

Fixpoint limiter_run (l : LocalLimiter) (calls : list call) : list bool * LocalLimiter :=
  match calls with
  | [] => ([], l)
  | c :: calls' =>
      let '(r, l') := Allow l (c_now c) (c_key c) (c_limit c) (c_window c) in
      let '(rs, l'') := limiter_run l' calls' in (allowed r :: rs, l'')
  end.

(** The calls of one key, as instants. *)
Definition times (key : string) (calls : list call) : list Z :=
  c_now <$> filter (λ c, c_key c = key) calls.

(** A clock that does not go back. *)
Definition chronological (calls : list call) : Prop := StronglySorted Z.le (c_now <$> calls).

(** Every call has a positive limit, and a window given by its key, of at most
    the hour after which idle keys are dropped. *)
Definition well_configured (limitOf windowOf : string → Z) (calls : list call) : Prop :=
  Forall (λ c, c_limit c = limitOf (c_key c) ∧ c_window c = windowOf (c_key c) ∧
               1 ≤ limitOf (c_key c) ∧ 0 < windowOf (c_key c) ≤ localStaleAfter) calls.

(** * Lemmas *)

Lemma recent_elem cutoff items x : x ∈ recent cutoff items ↔ x ∈ items ∧ cutoff < x.
Proof. unfold recent. rewrite list_elem_of_filter. tauto. Qed.

Lemma recent_recent c c' items : c ≤ c' → recent c' (recent c items) = recent c' items.
Proof.
  intros Hc. unfold recent. rewrite list_filter_filter. apply list_filter_iff. intros x. lia.
Qed.

Lemma recent_app c l1 l2 : recent c (l1 ++ l2) = recent c l1 ++ recent c l2.
Proof. apply filter_app. Qed.

Lemma recent_none c items : Forall (λ x, x ≤ c) items → recent c items = [].
Proof.
  intros Hf. unfold recent. induction Hf as [|x l Hx Hf IH]; [done|].
  rewrite filter_cons_False by lia. done.
Qed.

Lemma last_max items x : StronglySorted Z.le items → last items = Some x → Forall (λ y, y ≤ x) items.
Proof.
  intros Hs [l ->]%last_Some. apply Forall_app. split; [|by constructor].
  apply Forall_forall. intros y Hy. eapply StronglySorted_app_1_elem_of; [done..|by constructor].
Qed.

Lemma recent_sorted c items : StronglySorted Z.le items → StronglySorted Z.le (recent c items).
Proof.
  induction 1 as [|x l Hs IH Hx]; [constructor|]. unfold recent in *. rewrite filter_cons.
  destruct (decide _); [|done]. constructor; [done|]. apply Forall_forall.
  intros y [_ Hy]%list_elem_of_filter. by eapply Forall_forall in Hx.
Qed.

Lemma times_snoc key calls c :
  times key (calls ++ [c]) = times key calls ++ (if decide (c_key c = key) then [c_now c] else []).
Proof.
  unfold times. rewrite filter_app, fmap_app. f_equal. rewrite filter_cons.
  by destruct (decide _).
Qed.

(** The state after the calls [h], the last of them no later than [now]. *)
Record limiter_inv (windowOf : string → Z) (l : LocalLimiter) (h : list call) (now : Z) : Prop := {
  li_sorted : ∀ k, StronglySorted Z.le (bucket l k);
  li_bound : ∀ k x, x ∈ bucket l k → x ≤ now;
  li_same : ∀ k t, now ≤ t → 0 < windowOf k ≤ localStaleAfter →
    recent (t - windowOf k) (bucket l k) = recent (t - windowOf k) (times k h);
}.

(** The sweep drops only what no window reaches any more. *)
Lemma sweep_bucket now l k :
  StronglySorted Z.le (bucket l k) →
  let swept := {| buckets := sweepLocked now (buckets l); lastSweep := now |} in
  bucket swept k = bucket l k ∨
  (bucket swept k = [] ∧ Forall (λ x, x ≤ now - localStaleAfter) (bucket l k)).
Proof.
  unfold bucket, sweepLocked. simpl. intros Hs.
  destruct (buckets l !! k) as [items|] eqn:Hk; simpl in *.
  - rewrite map_lookup_filter, Hk. simpl. case_guard as Hd; [by left|]. right. split; [done|].
    unfold bucket_live in Hd. simpl in Hd. destruct (last items) as [x|] eqn:Hl.
    + apply not_true_is_false, Z.ltb_ge in Hd. eapply Forall_impl; [by apply last_max|]. simpl. lia.
    + by apply last_None in Hl as ->.
  - left. by rewrite map_lookup_filter, Hk.
Qed.

Lemma bool_decide_ext_leb (x y : Z) : bool_decide (x ≤ y) = (x <=? y).
Proof.
  destruct (Z.leb_spec x y); [by apply bool_decide_eq_true|apply bool_decide_eq_false; lia].
Qed.

Lemma Allow_inv windowOf l h now c r l' :
  limiter_inv windowOf l h now → now ≤ c_now c →
  1 ≤ c_limit c → c_window c = windowOf (c_key c) → 0 < c_window c ≤ localStaleAfter →
  Allow l (c_now c) (c_key c) (c_limit c) (c_window c) = (r, l') →
  limiter_inv windowOf l' (h ++ [c]) (c_now c) ∧
  allowed r = bool_decide
    (Z.of_nat (length (recent (c_now c - c_window c) (times (c_key c) (h ++ [c])))) ≤ c_limit c).
Proof.
  intros [Hs Hb Hsame] Hnow Hlim Hwin Hw Hallow. unfold Allow in Hallow.
  destruct (Z.leb_spec (c_limit c) 0); [lia|]. destruct (Z.leb_spec (c_window c) 0); [lia|].
  cbn [orb] in Hallow. injection Hallow as <- <-. cbn [allowed].
  set (items := recent (c_now c - c_window c) (bucket l (c_key c)) ++ [c_now c]).
  set (l1 := {| buckets := <[c_key c := items]> (buckets l); lastSweep := lastSweep l |}).
  assert (∀ k, bucket l1 k = if decide (c_key c = k) then items else bucket l k) as Hl1.
  { intros k. unfold bucket, l1. simpl. rewrite lookup_insert. by case_decide. }
  assert (limiter_inv windowOf l1 (h ++ [c]) (c_now c)) as Hinv1.
  { constructor.
    - intros k. rewrite Hl1. case_decide; [|done]. apply StronglySorted_app. split_and!.
      + intros x1 x2 [Hx _]%recent_elem ->%list_elem_of_singleton. specialize (Hb _ _ Hx). lia.
      + by apply recent_sorted.
      + repeat constructor.
    - intros k x. rewrite Hl1. case_decide.
      + unfold items. rewrite elem_of_app, recent_elem, list_elem_of_singleton.
        intros [[Hx _]| ->]; [|lia]. specialize (Hb _ _ Hx). lia.
      + intros Hx. specialize (Hb _ _ Hx). lia.
    - intros k t Ht Hk. rewrite Hl1, times_snoc. case_decide as Hck.
      + subst k. unfold items. rewrite !recent_app, <-Hwin. f_equal.
        rewrite recent_recent by lia. rewrite Hwin. apply Hsame; lia.
      + rewrite app_nil_r. apply Hsame; [lia|done]. }
  split.
  - destruct (localSweepInterval <=? c_now c - lastSweep l); [|exact Hinv1].
    change (sweepLocked (c_now c) (<[c_key c := items]> (buckets l))) with (sweepLocked (c_now c) (buckets l1)).
    destruct Hinv1 as [Hs1 Hb1 Hsame1].
    pose proof (λ k, sweep_bucket (c_now c) l1 k (Hs1 k)) as Hsw. cbv zeta in Hsw.
    constructor.
    + intros k. destruct (Hsw k) as [->|[-> _]]; [done | constructor].
    + intros k x. destruct (Hsw k) as [->|[-> _]]; [apply Hb1 | by intros ?%not_elem_of_nil].
    + intros k t Ht Hk. rewrite <-Hsame1 by done. destruct (Hsw k) as [->|[-> Hold]]; [done|].
      symmetry. rewrite recent_none; [done|]. eapply Forall_impl; [done|]. simpl. lia.
  - assert (recent (c_now c - c_window c) items = items) as Hitems.
    { unfold items. rewrite recent_app, recent_recent by lia. f_equal.
      unfold recent. by rewrite filter_cons_True by lia. }
    assert (bucket l1 (c_key c) = items) as Hb1 by (rewrite Hl1; by rewrite decide_True).
    rewrite Hwin, <-(li_same _ _ _ _ Hinv1 (c_key c) (c_now c)), Hb1, <-Hwin, Hitems by lia.
    fold items. symmetry. apply bool_decide_ext_leb.
Qed.

(** The verdict of a call, from the history alone. *)
Definition spec_allowed (h : list call) (c : call) : bool :=
  bool_decide (Z.of_nat (length (recent (c_now c - c_window c) (times (c_key c) (h ++ [c])))) ≤ c_limit c).

Fixpoint spec_verdicts (h calls : list call) : list bool :=
  match calls with
  | [] => []
  | c :: calls' => spec_allowed h c :: spec_verdicts (h ++ [c]) calls'
  end.

Lemma limiter_run_spec limitOf windowOf l h now calls :
  limiter_inv windowOf l h now → Forall (λ c, now ≤ c_now c) calls →
  chronological calls → well_configured limitOf windowOf calls →
  (limiter_run l calls).1 = spec_verdicts h calls.
Proof.
  revert l h now. induction calls as [|c calls IH]; intros l h now Hinv Hnow Hch Hcfg; [done|].
  apply Forall_cons in Hnow as [Hc _]. apply Forall_cons in Hcfg as [(Hl & Hw & Hl1 & Hw1) Hcfg].
  inversion Hch as [|? ? Hch' Hle]; subst. simpl.
  destruct (Allow l (c_now c) (c_key c) (c_limit c) (c_window c)) as [r l'] eqn:Ha.
  destruct (Allow_inv windowOf l h now c r l') as [Hinv' Hr]; [done|done|lia|done|lia|done|].
  specialize (IH l' (h ++ [c]) (c_now c) Hinv').
  destruct (limiter_run l' calls) as [rs l'']. simpl in *. rewrite IH, Hr; [done| |done|done].
  rewrite Forall_fmap in Hle. exact Hle.
Qed.

Lemma NewLocalLimiter_inv windowOf now : limiter_inv windowOf (NewLocalLimiter now) [] now.
Proof.
  constructor; unfold bucket; simpl; intros; [constructor | by apply not_elem_of_nil in H | done].
Qed.

(** * Theorems *)

(** C26 With a clock that does not go back, and for keys that are always asked for with the same positive limit and the same positive window of
    at most one hour, the limiter decides as the whole history does: forgetting old instants and sweeping idle keys changes no
    verdict.  The hour is where the sweep forgets a key; the configured windows have no upper bound, and a longer one is cut short by
    it ([long_window_forgotten]). *)
Theorem limiter_refines_history limitOf windowOf start calls :
  Forall (λ c, start ≤ c_now c) calls → chronological calls →
  well_configured limitOf windowOf calls →
  (limiter_run (NewLocalLimiter start) calls).1 = spec_verdicts [] calls.
Proof. intros. eapply limiter_run_spec; eauto using NewLocalLimiter_inv. Qed.

Definition sample_calls : list call :=
  (λ t, {| c_now := t; c_key := "login"; c_limit := 2; c_window := Minute |}) <$> [0; 1; 2; Minute + 3].

Lemma limiter_refines_history_witness :
  (limiter_run (NewLocalLimiter 0) sample_calls).1 = [true; true; false; true].
Proof.
  rewrite (limiter_refines_history (λ _, 2) (λ _, Minute) 0 sample_calls).
  - vm_compute. reflexivity.
  - repeat constructor; simpl; discriminate.
  - repeat constructor; simpl; discriminate.
  - repeat constructor; simpl; (discriminate || done).
Defined.

(** A window of two hours: after an hour without calls a sweep, which a call of any other key sets off, forgets the key, and one more call is
    allowed than the limit. *)
Definition long_calls : list call :=
  [{| c_now := 0; c_key := "login"; c_limit := 1; c_window := 2 * Hour |}; {| c_now := Hour; c_key := "other"; c_limit := 1; c_window := 2 * Hour |};
   {| c_now := Hour + 1; c_key := "login"; c_limit := 1; c_window := 2 * Hour |}].

Theorem long_window_forgotten :
  (limiter_run (NewLocalLimiter 0) long_calls).1 = [true; true; true] ∧ spec_verdicts [] long_calls = [true; true; false].
Proof. vm_compute. split; reflexivity. Qed.

(** The instants at which calls of [key] were allowed. *)
Definition granted (key : string) (calls : list call) (verdicts : list bool) : list Z :=
  c_now <$> (filter (λ cv, c_key cv.1 = key ∧ cv.2 = true) (zip calls verdicts)).*1.

Definition in_window (a w : Z) (items : list Z) : list Z := filter (λ t, a < t ∧ t ≤ a + w) items.

Lemma in_window_recent a w c items :
  c ≤ a → (length (in_window a w items) ≤ length (recent c items))%nat.
Proof.
  intros Hc. unfold in_window, recent. induction items as [|x l IH]; [done|].
  rewrite !filter_cons. repeat case_decide; simpl; lia.
Qed.

Lemma in_window_snoc a w key h c :
  length (in_window a w (times key (h ++ [c]))) =
  (length (in_window a w (times key h)) +
   if decide (c_key c = key ∧ (a < c_now c)%Z ∧ (c_now c ≤ a + w)%Z) then 1 else 0)%nat.
Proof.
  rewrite times_snoc. unfold in_window. rewrite filter_app, length_app. f_equal.
  destruct (decide (c_key c = key)) as [Hk|Hk].
  - rewrite filter_cons. repeat case_decide; simpl; tauto.
  - rewrite decide_False by tauto. done.
Qed.

Lemma granted_cons key c calls v vs :
  granted key (c :: calls) (v :: vs) =
  if decide (c_key c = key ∧ v = true) then c_now c :: granted key calls vs else granted key calls vs.
Proof. unfold granted. simpl. rewrite filter_cons. simpl. by case_decide. Qed.

Lemma granted_bound limitOf windowOf a key h calls :
  well_configured limitOf windowOf calls →
  Z.of_nat (length (in_window a (windowOf key) (granted key calls (spec_verdicts h calls)))
            + length (in_window a (windowOf key) (times key h)))
  ≤ Z.max (limitOf key) (Z.of_nat (length (in_window a (windowOf key) (times key h)))).
Proof.
  revert h. induction calls as [|c calls IH]; intros h Hcfg; [simpl; lia|].
  apply Forall_cons in Hcfg as [(Hl & Hw & Hl1 & Hw1) Hcfg]. specialize (IH (h ++ [c]) Hcfg).
  simpl spec_verdicts. rewrite granted_cons. unfold spec_allowed at 1.
  case_decide as Hg; pose proof (in_window_snoc a (windowOf key) key h c) as Hsn.
  - destruct Hg as [Hk Hd]. apply bool_decide_eq_true in Hd.
    subst key. rewrite Hl, Hw in Hd.
    unfold in_window at 1. rewrite filter_cons. fold (in_window a (windowOf (c_key c))
      (granted (c_key c) calls (spec_verdicts (h ++ [c]) calls))).
    destruct (decide (a < c_now c ∧ c_now c ≤ a + windowOf (c_key c))) as [Hin|Hin].
    + rewrite decide_True in Hsn by tauto.
      pose proof (in_window_recent a (windowOf (c_key c)) (c_now c - windowOf (c_key c))
                    (times (c_key c) (h ++ [c])) ltac:(lia)). simpl length. lia.
    + rewrite decide_False in Hsn by tauto. rewrite Hsn in IH. lia.
  - case_decide; rewrite Hsn in IH; lia.
Qed.

Lemma limiter_window_bound limitOf windowOf start calls key a :
  Forall (λ c, start ≤ c_now c) calls → chronological calls →
  well_configured limitOf windowOf calls → 0 ≤ limitOf key →
  Z.of_nat (length (in_window a (windowOf key)
    (granted key calls (limiter_run (NewLocalLimiter start) calls).1))) ≤ limitOf key.
Proof.
  intros Hs Hch Hcfg Hpos.
  rewrite (limiter_run_spec limitOf windowOf _ [] start) by eauto using NewLocalLimiter_inv.
  pose proof (granted_bound limitOf windowOf a key [] calls Hcfg) as Hb. simpl in Hb. lia.
Qed.

(** In any span of one window, at most [limit] calls of a key are allowed. *)
Theorem limiter_sliding_window limitOf windowOf start calls key a :
  Forall (λ c, start ≤ c_now c) calls → chronological calls →
  well_configured limitOf windowOf calls → 0 ≤ limitOf key →
  let verdicts := (limiter_run (NewLocalLimiter start) calls).1 in
  Z.of_nat (length (in_window a (windowOf key) (granted key calls verdicts))) ≤ limitOf key.
Proof. intros. by apply limiter_window_bound. Qed.

Lemma limiter_sliding_window_witness :
  Z.of_nat (length (in_window (-1) Minute
    (granted "login" sample_calls (limiter_run (NewLocalLimiter 0) sample_calls).1))) ≤ 2.
Proof.
  apply (limiter_sliding_window (λ _, 2) (λ _, Minute) 0 sample_calls "login" (-1)).
  - repeat constructor; simpl; discriminate.
  - repeat constructor; simpl; discriminate.
  - repeat constructor; simpl; (discriminate || done).
  - lia.
Defined.

(** ** Bridge tokens *)

(** Successive presentations of bridge tokens to the fallback limiter. *)
Fixpoint bridge_run (l : LocalLimiter) (uses : list (Z * string)) : list bool :=
  match uses with
  | [] => []
  | (now, jti) :: uses' =>
      match ConsumeBridgeToken (Some (Err tt)) (Some l) now jti with
      | (ok, Some l') => ok :: bridge_run l' uses'
      | (ok, None) => [ok]
      end
  end.

Definition bridge_call (use : Z * string) : call :=
  {| c_now := use.1; c_key := "bridge-jti:" +:+ use.2; c_limit := 1; c_window := 5 * Minute |}.

Lemma bridge_run_limiter l uses :
  Forall (λ use, TrimSpace use.2 ≠ "") uses →
  bridge_run l uses = (limiter_run l (bridge_call <$> uses)).1.
Proof.
  revert l. induction uses as [|[now jti] uses IH]; intros l Hne; [done|].
  apply Forall_cons in Hne as [Hj Hne]. simpl in Hj. apply non_empty_true in Hj.
  cbn [bridge_run fmap list_fmap limiter_run bridge_call fst snd c_now c_key c_limit c_window].
  unfold ConsumeBridgeToken. rewrite Hj. cbn [negb].
  destruct (Allow l now ("bridge-jti:" +:+ jti) 1 (5 * Minute)) as [r l'].
  rewrite IH by done. by destruct (limiter_run l' _) as [rs l''].
Qed.

(** A bridge token is accepted at most once in five minutes, however often
    and in whatever company it is presented; it expires after two. *)
Theorem bridge_token_single_use start uses jti a :
  Forall (λ use, start ≤ use.1 ∧ TrimSpace use.2 ≠ "") uses → StronglySorted Z.le uses.*1 →
  (length (in_window a (5 * Minute)
     (granted ("bridge-jti:" +:+ jti) (bridge_call <$> uses) (bridge_run (NewLocalLimiter start) uses))) ≤ 1)%nat.
Proof.
  intros Hu Hs. rewrite bridge_run_limiter.
  2: { eapply Forall_impl; [done|]. by intros ? [_ ?]. }
  pose proof (limiter_window_bound (λ _, 1) (λ _, 5 * Minute) start (bridge_call <$> uses)
                ("bridge-jti:" +:+ jti) a) as H. cbv zeta beta in H.
  apply Nat2Z.inj_le. apply H; [| | |lia].
  - apply Forall_fmap. eapply Forall_impl; [done|]. by intros ? [? _].
  - unfold chronological. rewrite <-list_fmap_compose. exact Hs.
  - apply Forall_fmap, Forall_forall. intros u _. simpl. unfold localStaleAfter, Hour, Minute, Second, Millisecond. lia.
Qed.

Lemma bridge_token_single_use_witness :
  (length (in_window (-1) (5 * Minute)
     (granted "bridge-jti:abc" (bridge_call <$> [(0%Z, "abc"); (1%Z, "abc")])
        (bridge_run (NewLocalLimiter 0) [(0%Z, "abc"); (1%Z, "abc")]))) ≤ 1)%nat.
Proof.
  apply (bridge_token_single_use 0 [(0%Z, "abc"); (1%Z, "abc")] "abc" (-1)).
  - repeat constructor; simpl; (discriminate || done).
  - repeat constructor; simpl; discriminate.
Defined.
