(* ===== verification/SecretBox.v ===== *)
(** Secrets at rest: internal/secureconfig (secrets.go, v2.go).

    A value is sealed with AES-GCM under a key derived from a configured secret: version 1 by SHA-256,
    version 2 by Argon2 with a salt of its own, whose keys are memoised.  Decryption tries the
    configured secrets in order, so that a secret can be rotated.  The primitives are an interface;
    byte strings are strings, and the salts and nonces drawn are arguments. *)
From S2P Require Import Prelude GoStrings.

#[local] Open Scope string_scope.
#[local] Open Scope list_scope.

Inductive box_error := ErrNotEncrypted | ErrBase64 | ErrTooShort | ErrOpen | ErrNoSecrets | ErrJSON.

#[global] Instance box_error_eq_dec : EqDecision box_error.
Proof. solve_decision. Defined.

Class Primitives := {
  sha256 : string → string;
  argon2 : string → string → string;                       (* secret, salt *)
  gcm_Seal : string → string → string → string;            (* key, nonce, plaintext *)
  gcm_Open : string → string → string → option string;     (* key, nonce, ciphertext *)
  b64_Encode : string → string;
  b64_Decode : string → option string;
}.

Definition nonceSize : nat := 12.
Definition argon2SaltLen : nat := 16.
Definition argon2CacheMax : Z := 512.
Definition EncryptedPrefixV1 := "enc:v1:".
Definition EncryptedPrefixV2 := "enc:v2:".

(** [argon2KeyCache] with its counter. *)
Record key_cache := { argon2KeyCache : gmap string string; argon2CacheCount : Z }.

Section box.
Context `{Primitives}.

(** ** Keys *)

Definition argon2CacheKey (secret salt : string) : string := sha256 (secret +:+ String "000" "" +:+ salt).

Definition deriveArgon2Key (secret salt : string) (c : key_cache) : string * key_cache :=
  let cacheKey := argon2CacheKey secret salt in
  match argon2KeyCache c !! cacheKey with
  | Some value => (value, c)
  | None =>
      let derived := argon2 secret salt in
      let c := if (argon2CacheMax <=? argon2CacheCount c)%Z then {| argon2KeyCache := ∅; argon2CacheCount := 0 |} else c in
      (derived, {| argon2KeyCache := <[cacheKey := derived]> (argon2KeyCache c);
                   argon2CacheCount := (argon2CacheCount c + 1)%Z |})
  end.

Definition deriveSecretKey (secret : string) : string := sha256 secret.

(** ** Encryption *)

Definition EncryptString (secret value nonce : string) : string :=
  b64_Encode (nonce +:+ gcm_Seal (deriveSecretKey secret) nonce value).

Definition EncryptStringV1 (secret value nonce : string) : string := EncryptedPrefixV1 +:+ EncryptString secret value nonce.

Definition EncryptStringV2 (secret value salt nonce : string) (c : key_cache) : string * key_cache :=
  let '(key, c) := deriveArgon2Key secret salt c in
  (EncryptedPrefixV2 +:+ b64_Encode (salt +:+ nonce +:+ gcm_Seal key nonce value), c).

Definition IsEncryptedValueV1 (value : string) : bool := HasPrefix (TrimSpace value) EncryptedPrefixV1.
Definition IsEncryptedValueV2 (value : string) : bool := HasPrefix (TrimSpace value) EncryptedPrefixV2.
Definition IsEncryptedValue (value : string) : bool := IsEncryptedValueV1 value || IsEncryptedValueV2 value.

(** ** Decryption *)

Definition open_box (key nonce ciphertext : string) : result box_error string :=
  match gcm_Open key nonce ciphertext with Some plaintext => Ok plaintext | None => Err ErrOpen end.

Definition DecryptString (secret value : string) : result box_error string :=
  match b64_Decode value with
  | None => Err ErrBase64
  | Some raw =>
      if (String.length raw <? nonceSize)%nat then Err ErrTooShort
      else open_box (deriveSecretKey secret) (String.substring 0 nonceSize raw) (drop_bytes nonceSize raw)
  end.

Definition DecryptStringV2 (secret value : string) (c : key_cache) : result box_error string * key_cache :=
  let trimmed := TrimSpace value in
  if negb (IsEncryptedValueV2 trimmed) then (Err ErrNotEncrypted, c)
  else
    match b64_Decode (TrimPrefix trimmed EncryptedPrefixV2) with
    | None => (Err ErrBase64, c)
    | Some raw =>
        if (String.length raw <? argon2SaltLen + 12)%nat then (Err ErrTooShort, c)
        else
          let '(key, c) := deriveArgon2Key secret (String.substring 0 argon2SaltLen raw) c in
          (open_box key (String.substring argon2SaltLen nonceSize raw) (drop_bytes (argon2SaltLen + nonceSize) raw), c)
    end.

(** The loop over the configured secrets: empty ones are skipped, the first that opens the value wins,
    the last error is reported. *)
Fixpoint try_secrets {S} (decrypt : string → S → result box_error string * S) (secrets : list string)
    (lastErr : box_error) (c : S) : result box_error string * S :=
  match secrets with
  | [] => (Err lastErr, c)
  | secret :: rest =>
      if negb (non_empty secret) then try_secrets decrypt rest lastErr c
      else
        match decrypt secret c with
        | (Ok out, c) => (Ok out, c)
        | (Err e, c) => try_secrets decrypt rest e c
        end
  end.

Definition DecryptStringWithSecrets (secrets : list string) (value : string) : result box_error string :=
  (try_secrets (λ secret (u : unit), (DecryptString secret value, u)) secrets ErrNoSecrets tt).1.

Definition DecryptStringV1WithSecrets (secrets : list string) (value : string) : result box_error string :=
  let trimmed := TrimSpace value in
  if negb (IsEncryptedValueV1 trimmed) then Err ErrNotEncrypted
  else DecryptStringWithSecrets secrets (TrimPrefix trimmed EncryptedPrefixV1).

Definition decryptStringV2WithSecrets (secrets : list string) (value : string) (c : key_cache)
  : result box_error string * key_cache :=
  try_secrets (λ secret, DecryptStringV2 secret value) secrets ErrNoSecrets c.

Definition DecryptStringAuto (secrets : list string) (value : string) (c : key_cache) : result box_error string * key_cache :=
  let trimmed := TrimSpace value in
  if IsEncryptedValueV2 trimmed then decryptStringV2WithSecrets secrets trimmed c
  else if IsEncryptedValueV1 trimmed then (DecryptStringV1WithSecrets secrets trimmed, c)
  else (Err ErrNotEncrypted, c).

(** ** JSON objects; [json_Marshal] and [json_Unmarshal] of a [map[string]string] are parameters *)

Variable json_Marshal : gmap string string → string.
Variable json_Unmarshal : string → option (gmap string string).

Definition unmarshal (plaintext : string) : result box_error (gmap string string) :=
  match json_Unmarshal plaintext with Some out => Ok out | None => Err ErrJSON end.

Definition EncryptJSONV2 (secret : string) (value : gmap string string) (salt nonce : string) (c : key_cache)
  : string * key_cache := EncryptStringV2 secret (json_Marshal value) salt nonce c.

Definition DecryptJSONAuto (secrets : list string) (value : string) (c : key_cache)
  : result box_error (gmap string string) * key_cache :=
  let trimmed := TrimSpace value in
  if negb (non_empty trimmed) then (Ok ∅, c)
  else
    let '(r, c) := if IsEncryptedValueV2 trimmed then decryptStringV2WithSecrets secrets trimmed c
                   else (DecryptStringWithSecrets secrets trimmed, c) in
    (result_bind r unmarshal, c).

(** [MaskConfig]: what of a configuration is shown. *)
Definition MaskConfig (config : gmap string string) : gmap string string :=
  (λ value, if non_empty (TrimSpace value) then "***" else "") <$> config.
End box.

(** * What the primitives promise

    The round trips are documented behaviour.  That different secrets give different keys, that SHA-256 has no collisions and that
    a sealed value opens under no other key are idealisations: the real functions make the exceptions infeasible to find, not impossible. *)

Class PrimitivesLaws `{Primitives} := {
  open_seal : ∀ key nonce value, gcm_Open key nonce (gcm_Seal key nonce value) = Some value;
  open_other : ∀ key key' nonce value, key ≠ key' → gcm_Open key' nonce (gcm_Seal key nonce value) = None;
  b64_round : ∀ s, b64_Decode (b64_Encode s) = Some s;
  b64_text : ∀ s, string_all (λ a, negb (is_space a)) (b64_Encode s) = true;
  sha256_inj : ∀ s s', sha256 s = sha256 s' → s = s';
  argon2_inj : ∀ secret secret' salt, argon2 secret salt = argon2 secret' salt → secret = secret';
}.

Lemma string_app_inj_length a b x y : String.length a = String.length b → a +:+ x = b +:+ y → a = b ∧ x = y.
Proof.
  revert b. induction a as [|c a IH]; intros [|d b] Hl Heq; try done. injection Heq as -> Heq. injection Hl as Hl.
  by destruct (IH b Hl Heq) as [-> ->].
Qed.

Lemma substring_app a b : String.substring 0 (String.length a) (a +:+ b) = a.
Proof. induction a as [|c a IH]; [by destruct b|]. cbn. by rewrite IH. Qed.

Lemma substring_skip a b n : String.substring (String.length a) n (a +:+ b) = String.substring 0 n b.
Proof. induction a as [|c a IH]; [done|]. exact IH. Qed.

(** * The memoised keys *)

Section laws.
Context `{PrimitivesLaws}.

Record cache_ok (c : key_cache) : Prop := {
  ok_keys : ∀ secret salt key, String.length salt = argon2SaltLen →
    argon2KeyCache c !! argon2CacheKey secret salt = Some key → key = argon2 secret salt;
  ok_count : argon2CacheCount c = Z.of_nat (size (argon2KeyCache c));
  ok_bound : (argon2CacheCount c ≤ argon2CacheMax)%Z;
}.

Lemma argon2CacheKey_inj secret salt secret' salt' :
  String.length salt = argon2SaltLen → String.length salt' = argon2SaltLen →
  argon2CacheKey secret salt = argon2CacheKey secret' salt' → secret = secret' ∧ salt = salt'.
Proof.
  intros Hs Hs' Heq%sha256_inj. assert (String.length secret = String.length secret') as Hl.
  { apply (f_equal String.length) in Heq. rewrite !string_app_length in Heq. lia. }
  destruct (string_app_inj_length _ _ _ _ Hl Heq) as [-> Hrest]. by injection Hrest as ->.
Qed.

Lemma cache_empty_ok : cache_ok {| argon2KeyCache := ∅; argon2CacheCount := 0 |}.
Proof. split; [intros ????; cbn [argon2KeyCache]; by rewrite lookup_empty|done|done]. Qed.

Lemma cache_insert_ok secret salt c :
  String.length salt = argon2SaltLen → cache_ok c → (argon2CacheCount c < argon2CacheMax)%Z →
  argon2KeyCache c !! argon2CacheKey secret salt = None →
  cache_ok {| argon2KeyCache := <[argon2CacheKey secret salt := argon2 secret salt]> (argon2KeyCache c);
              argon2CacheCount := argon2CacheCount c + 1 |}.
Proof.
  intros Hl [Hk Hc Hb] Hlt Hnone. split; cbn.
  - intros secret' salt' key Hl' [[Heq <-]|[_ Hkey]]%lookup_insert_Some; [|by apply Hk].
    by destruct (argon2CacheKey_inj _ _ _ _ Hl Hl' Heq) as [-> ->].
  - rewrite map_size_insert_None by done. lia.
  - lia.
Qed.

Lemma derive_ok secret salt c :
  String.length salt = argon2SaltLen → cache_ok c →
  (deriveArgon2Key secret salt c).1 = argon2 secret salt ∧ cache_ok (deriveArgon2Key secret salt c).2.
Proof.
  intros Hl Hok. unfold deriveArgon2Key. destruct (argon2KeyCache c !! _) as [key|] eqn:Hkey; cbn.
  - split; [by apply (ok_keys c Hok)|done].
  - split; [done|]. destruct (Z.leb_spec argon2CacheMax (argon2CacheCount c)).
    + apply (cache_insert_ok secret salt _ Hl cache_empty_ok); [done|apply lookup_empty].
    + by apply cache_insert_ok.
Qed.

(** The cache of a process that has derived these keys, for secrets and salts in any order and with repetitions. *)
Definition memoised (requests : list (string * string)) : key_cache :=
  foldl (λ c r, (deriveArgon2Key r.1 r.2 c).2) {| argon2KeyCache := ∅; argon2CacheCount := 0 |} requests.

Lemma memoised_ok requests : Forall (λ r, String.length r.2 = argon2SaltLen) requests → cache_ok (memoised requests).
Proof.
  unfold memoised. intros Hr. pose proof cache_empty_ok as Hc. revert Hc. generalize {| argon2KeyCache := ∅; argon2CacheCount := 0 |}.
  induction Hr as [|r rest Hlr Hrest IH]; intros c0 Hc; [done|]. cbn. apply IH. by apply derive_ok.
Qed.

(** Memoising the derived keys changes nothing: from an empty cache, after any sequence of
    derivations with salts of the fixed length, the key for a secret and a salt is the one Argon2
    derives, and the cache holds at most [argon2CacheMax] keys. *)
Theorem key_cache_transparent requests secret salt :
  Forall (λ r, String.length r.2 = argon2SaltLen) requests → String.length salt = argon2SaltLen →
  (deriveArgon2Key secret salt (memoised requests)).1 = argon2 secret salt ∧
  (Z.of_nat (size (argon2KeyCache (memoised requests))) ≤ argon2CacheMax)%Z.
Proof.
  intros Hr Hl. pose proof (memoised_ok requests Hr) as Hok.
  split; [by apply derive_ok|]. rewrite <- (ok_count _ Hok). apply (ok_bound _ Hok).
Qed.

(** * Round trips *)

Lemma text_trim p s : string_all (λ a, negb (is_space a)) p = true → TrimSpace (p +:+ b64_Encode s) = p +:+ b64_Encode s.
Proof. intros Hp. apply TrimSpace_none. by rewrite string_all_app, Hp, b64_text. Qed.

Lemma raw_parts salt nonce ct :
  String.length salt = argon2SaltLen → String.length nonce = nonceSize →
  let raw := salt +:+ nonce +:+ ct in
  (String.length raw <? argon2SaltLen + 12)%nat = false ∧ String.substring 0 argon2SaltLen raw = salt ∧
  String.substring argon2SaltLen nonceSize raw = nonce ∧ drop_bytes (argon2SaltLen + nonceSize) raw = ct.
Proof.
  intros Hs Hn raw. unfold raw. rewrite <- Hs, <- Hn. split_and!.
  - apply Nat.ltb_ge. rewrite !string_app_length, Hn. unfold nonceSize. lia.
  - apply substring_app.
  - rewrite substring_skip. apply substring_app.
  - rewrite <- string_app_length, <- string_app_assoc. apply drop_bytes_app.
Qed.

(** One secret on a version 2 value. *)
Lemma decrypt_v2 secret secret' value salt nonce c :
  String.length salt = argon2SaltLen → String.length nonce = nonceSize → cache_ok c →
  let sealed := EncryptedPrefixV2 +:+ b64_Encode (salt +:+ nonce +:+ gcm_Seal (argon2 secret salt) nonce value) in
  (DecryptStringV2 secret' sealed c).1 = (if decide (secret = secret') then Ok value else Err ErrOpen) ∧
  cache_ok (DecryptStringV2 secret' sealed c).2.
Proof.
  intros Hs Hn Hok sealed. unfold DecryptStringV2, IsEncryptedValueV2. cbv zeta. unfold sealed.
  rewrite !text_trim by done. rewrite (proj2 (HasPrefix_spec _ _)) by eauto. cbn [negb].
  rewrite TrimPrefix_app, b64_round. set (ct := gcm_Seal _ _ _).
  destruct (raw_parts salt nonce ct Hs Hn) as (-> & -> & -> & ->).
  destruct (derive_ok secret' salt c Hs Hok) as [Hk Hc]. destruct (deriveArgon2Key secret' salt c) as [key c'].
  cbn in Hk, Hc |- *. subst key. split; [|done]. unfold open_box, ct. destruct (decide (secret = secret')) as [->|Hne].
  - by rewrite open_seal.
  - rewrite open_other; [done|]. by intros ?%argon2_inj.
Qed.

Lemma try_secrets_finds {S} (inv : S → Prop) decrypt secret (value : string) secrets e (c : S) :
  (∀ secret' c, inv c → inv (decrypt secret' c).2 ∧ (secret' = secret → (decrypt secret' c).1 = Ok value) ∧
     (secret' ≠ secret → is_ok (decrypt secret' c).1 = false)) →
  secret ∈ secrets → secret ≠ "" → inv c → (try_secrets decrypt secrets e c).1 = Ok value.
Proof.
  intros Hd Hin Hne. revert e c. induction secrets as [|x rest IH]; intros e c Hinv; [by apply not_elem_of_nil in Hin|].
  cbn [try_secrets]. destruct (non_empty x) eqn:Hx; cbn [negb].
  - destruct (Hd x c Hinv) as (Hc & Heq & Hother). destruct (decrypt x c) as [[out|e'] c'] eqn:Hdx; cbn in *.
    + destruct (decide (x = secret)) as [Hxs|Hxs]; [by rewrite (Heq Hxs)|by specialize (Hother Hxs)].
    + apply elem_of_cons in Hin as [<-|Hin]; [by specialize (Heq eq_refl)|]. by apply IH.
  - apply elem_of_cons in Hin as [<-|Hin]; [by destruct secret|]. by apply IH.
Qed.

Lemma decrypt_v1 secret secret' value nonce :
  String.length nonce = nonceSize →
  DecryptString secret' (EncryptString secret value nonce) = if decide (secret = secret') then Ok value else Err ErrOpen.
Proof.
  intros Hn. unfold DecryptString, EncryptString. rewrite b64_round, string_app_length, Hn.
  rewrite (proj2 (Nat.ltb_ge _ _)) by lia. rewrite <- Hn, substring_app, drop_bytes_app.
  unfold open_box, deriveSecretKey. destruct (decide (secret = secret')) as [->|Hne]; [by rewrite open_seal|].
  rewrite open_other; [done|]. by intros ?%sha256_inj.
Qed.

Lemma sealed_v2_opens secrets secret value salt nonce c c' :
  secret ∈ secrets → secret ≠ "" → String.length salt = argon2SaltLen → String.length nonce = nonceSize →
  cache_ok c → cache_ok c' →
  (DecryptStringAuto secrets (EncryptStringV2 secret value salt nonce c).1 c').1 = Ok value ∧
  IsEncryptedValue (EncryptStringV2 secret value salt nonce c).1 = true ∧ cache_ok (EncryptStringV2 secret value salt nonce c).2.
Proof.
  intros Hin Hne Hs Hn Hok Hok'. unfold EncryptStringV2. destruct (derive_ok secret salt c Hs Hok) as [Hk Hc1].
  destruct (deriveArgon2Key secret salt c) as [key c1]. cbn [fst snd] in Hk, Hc1 |- *. subst key.
  unfold DecryptStringAuto, decryptStringV2WithSecrets, IsEncryptedValue, IsEncryptedValueV2. cbv zeta. rewrite !text_trim by done.
  rewrite (proj2 (HasPrefix_spec _ _)) by eauto. rewrite orb_true_r. split; [|done].
  apply (try_secrets_finds cache_ok _ secret); [|done|done|done]. intros secret' c2 Hc2.
  destruct (decrypt_v2 secret secret' value salt nonce c2 Hs Hn Hc2) as [-> Hc3]. split; [done|].
  split; [by intros ->; rewrite decide_True|]. intros Hd. by rewrite decide_False.
Qed.

(** The text that carries a plaintext sealed under a secret: the salt, the nonce and what AES-GCM makes of the plaintext under the
    key Argon2 derives. *)
Definition sealed_text (secret plaintext text : string) : Prop :=
  ∃ salt nonce, String.length salt = 16%nat ∧ String.length nonce = 12%nat ∧
    text = "enc:v2:" +:+ b64_Encode (salt +:+ nonce +:+ gcm_Seal (argon2 secret salt) nonce plaintext).

Lemma EncryptStringV2_text secret value salt nonce c :
  String.length salt = argon2SaltLen → String.length nonce = nonceSize → cache_ok c →
  sealed_text secret value (EncryptStringV2 secret value salt nonce c).1 ∧ cache_ok (EncryptStringV2 secret value salt nonce c).2.
Proof.
  intros Hs Hn Hok. unfold EncryptStringV2. destruct (derive_ok secret salt c Hs Hok) as [Hk Hc]. destruct (deriveArgon2Key secret salt c) as [key c'].
  cbn [fst snd] in *. subst key. split; [|done]. by exists salt, nonce.
Qed.

Lemma sealed_text_marked secret plaintext text : sealed_text secret plaintext text → IsEncryptedValue text = true.
Proof.
  intros (salt & nonce & _ & _ & ->). unfold IsEncryptedValue, IsEncryptedValueV2. change "enc:v2:" with EncryptedPrefixV2.
  rewrite !text_trim by done. rewrite (proj2 (HasPrefix_spec _ EncryptedPrefixV2)) by eauto. apply orb_true_r.
Qed.

(** C27 A value sealed under a configured secret is read back, in both formats, whatever the position of the secret among the configured
    ones, and whatever keys the process that seals it and the process that reads it have derived and memoised before, for any secrets
    and salts: rotating in a new secret in front keeps the old values readable.  The primitives are idealised as in [PrimitivesLaws]:
    no two secrets collide, and nothing opens under a key it was not sealed with. *)
Theorem sealed_values_open secrets secret value salt nonce before before' :
  secret ∈ secrets → secret ≠ "" → String.length salt = 16%nat → String.length nonce = 12%nat →
  Forall (λ r, String.length r.2 = 16%nat) before → Forall (λ r, String.length r.2 = 16%nat) before' →
  (DecryptStringAuto secrets (EncryptStringV2 secret value salt nonce (memoised before)).1 (memoised before')).1 = Ok value ∧
  (DecryptStringAuto secrets (EncryptStringV1 secret value nonce) (memoised before')).1 = Ok value.
Proof.
  intros Hin Hne Hs Hn Hok%memoised_ok Hok'%memoised_ok. split.
  - by apply sealed_v2_opens.
  - unfold EncryptStringV1, DecryptStringAuto, IsEncryptedValueV2, IsEncryptedValueV1, DecryptStringV1WithSecrets,
      IsEncryptedValueV1, EncryptString. cbv zeta.
    rewrite !text_trim by done. 
    assert (∀ x, HasPrefix (EncryptedPrefixV1 +:+ x) EncryptedPrefixV2 = false) as -> by done.
    rewrite (proj2 (HasPrefix_spec _ _)) by eauto. cbn [negb fst]. rewrite TrimPrefix_app. fold (EncryptString secret value nonce). unfold DecryptStringWithSecrets.
    apply (try_secrets_finds (λ _, True) _ secret); [|done|done|done]. intros secret' [] _. cbn. split; [done|].
    rewrite decrypt_v1 by done. split; [by intros ->; rewrite decide_True|]. intros Hd. by rewrite decide_False.
Qed.
End laws.

(** * A concrete instance: the key and the nonce in front of the plaintext, and hexadecimal text *)

Definition hex_of (n : N) : ascii := ascii_of_N (65 + n).
Fixpoint hex (s : string) : string :=
  match s with
  | EmptyString => ""
  | String a s' => String (hex_of (N_of_ascii a / 16)) (String (hex_of (N_of_ascii a mod 16)) (hex s'))
  end.
Definition unhex_of (a : ascii) : N := N_of_ascii a - 65.
Fixpoint unhex (s : string) : option string :=
  match s with
  | EmptyString => Some ""
  | String a (String b s') =>
      match unhex s' with
      | Some t => Some (String (ascii_of_N (unhex_of a * 16 + unhex_of b)) t)
      | None => None
      end
  | _ => None
  end.

Lemma hex_byte a :
  ascii_of_N (unhex_of (hex_of (N_of_ascii a / 16)) * 16 + unhex_of (hex_of (N_of_ascii a mod 16))) = a
  ∧ is_space (hex_of (N_of_ascii a / 16)) = false ∧ is_space (hex_of (N_of_ascii a mod 16)) = false.
Proof. by destruct a as [[] [] [] [] [] [] [] []]; vm_compute. Qed.

#[export] Instance sample_primitives : Primitives := {
  sha256 s := s;
  argon2 secret salt := secret +:+ salt;
  gcm_Seal key nonce value := hex key +:+ "!" +:+ value;
  gcm_Open key nonce ct := if HasPrefix ct (hex key +:+ "!") then Some (TrimPrefix ct (hex key +:+ "!")) else None;
  b64_Encode := hex;
  b64_Decode := unhex;
}.

Lemma hex_no_mark s : ContainsByte (hex s) "!" = false.
Proof.
  induction s as [|a s IH]; [done|]. cbn [hex ContainsByte]. rewrite IH.
  by destruct a as [[] [] [] [] [] [] [] []]; vm_compute.
Qed.

Lemma unhex_hex s : unhex (hex s) = Some s.
Proof. induction s as [|a s IH]; [done|]. cbn [hex unhex]. rewrite IH. by rewrite (proj1 (hex_byte a)). Qed.

#[export] Instance sample_primitives_laws : PrimitivesLaws.
Proof.
  split.
  - intros key nonce value. cbn [gcm_Open gcm_Seal sample_primitives]. rewrite <- string_app_assoc.
    rewrite (proj2 (HasPrefix_spec _ _)) by eauto. by rewrite TrimPrefix_app.
  - intros key key' nonce value Hne. cbn [gcm_Open gcm_Seal sample_primitives].
    destruct (HasPrefix _ _) eqn:Hp; [|done]. apply HasPrefix_spec in Hp as [t Ht]. rewrite string_app_assoc in Ht.
    exfalso. apply Hne. 
    assert (∀ k v, Cut (hex k +:+ "!" +:+ v) "!" = (hex k, v, true)) as Hcut
      by (intros k v; apply Cut_found; split; [done|apply hex_no_mark]).
    pose proof (Hcut key value) as Hc. rewrite Ht, Hcut in Hc. injection Hc as Hc _. symmetry in Hc. clear Ht. rename Hc into Ht.
    apply (f_equal unhex) in Ht. rewrite !unhex_hex in Ht. by injection Ht.
  - exact unhex_hex.
  - intros s. cbn [b64_Encode sample_primitives]. induction s as [|a s IH]; [done|]. cbn [hex string_all].
    destruct (hex_byte a) as (_ & -> & ->). exact IH.
  - done.
  - intros secret secret' salt Heq. assert (String.length secret = String.length secret') as Hl.
    { apply (f_equal String.length) in Heq. cbn in Heq. rewrite !string_app_length in Heq. lia. }
    by destruct (string_app_inj_length _ _ _ _ Hl Heq).
Qed.

(** The process that reads the value has derived another key with the same secret before, and one with the same salt. *)
Lemma sealed_values_open_witness :
  (DecryptStringAuto ["new"; "old"] (EncryptStringV2 "old" "s3cret" "0123456789abcdef" "nonce-nonce-" (memoised [("old", "fedcba9876543210")])).1
     (memoised [("old", "fedcba9876543210"); ("new", "0123456789abcdef")])).1 = Ok "s3cret".
Proof.
  apply (sealed_values_open ["new"; "old"] "old" "s3cret" "0123456789abcdef" "nonce-nonce-" [("old", "fedcba9876543210")]
           [("old", "fedcba9876543210"); ("new", "0123456789abcdef")]); try reflexivity; try discriminate; [by right; left|by repeat constructor..].
Defined.

Lemma key_cache_transparent_witness :
  (deriveArgon2Key "a" "0123456789abcdef" (memoised [("a", "0123456789abcdef"); ("b", "0123456789abcdef")])).1 = argon2 "a" "0123456789abcdef".
Proof.
  apply (key_cache_transparent [("a", "0123456789abcdef"); ("b", "0123456789abcdef")] "a" "0123456789abcdef");
    [repeat constructor|reflexivity].
Defined.
