(* ===== verification/Requests.v ===== *)
(** A request as the proxy sees it: headers, the client's address behind trusted proxies
    (internal/proxy/access.go and manager.go, and the same functions of the API in
    internal/http/trusted_proxy.go), and the removal of Portlyn's own credentials and identity
    headers before a request is forwarded (internal/proxy/transport.go, routing_runtime.go).

    A header map has canonical keys, as net/http builds it. *)
From S2P Require Import Prelude GoStrings Netip.

#[local] Open Scope string_scope.
#[local] Open Scope list_scope.

(** * Headers *)

Abbreviation Header := (gmap string (list string)).

Definition Values (h : Header) (key : string) : list string := default [] (h !! key).
(** [Header.Get]: the first value. *)
Definition HGet (h : Header) (key : string) : string := default "" (head (Values h key)).
Definition HSet (h : Header) (key value : string) : Header := <[key := [value]]> h.
Definition HDel (h : Header) (key : string) : Header := delete key h.

Record Request := {
  r_Method : string;
  r_Host : string;
  r_Path : string;              (* URL.Path *)
  r_RawPath : string;           (* URL.RawPath *)
  r_RequestURI : string;        (* URL.RequestURI() *)
  r_Token : string;             (* URL.Query().Get("token") *)
  r_Header : Header;
  r_RemoteAddr : string;
  r_TLS : bool;
  r_ClientCert : string;        (* hex SHA-256 of the first peer certificate, or empty *)
}.

(** ** Cookies of a request *)

Definition token_byte (a : ascii) : bool :=
  is_digit a || is_upper a || is_upper (upper_ascii a) || ContainsByte "!#$%&'*+-.^_`|~" a.

Definition ascii_space (a : ascii) : bool := ContainsByte (String " " (String "009" (String "010" (String "013" "")))) a.
Definition TrimString (s : string) : string := TrimLeftFunc ascii_space (TrimRightFunc ascii_space s).

(** The value without its quotes, if every byte may occur in a cookie. *)
Definition cookie_value_byte (a : ascii) : bool :=
  let n := nat_of_ascii a in
  (32 <=? n)%nat && (n <? 127)%nat && negb (n =? 34)%nat && negb (n =? 59)%nat && negb (n =? 92)%nat.

Definition unquote (raw : string) : string :=
  let quote := String "034" "" in
  if (1 <? String.length raw)%nat && HasPrefix raw quote && HasSuffix raw quote
  then String.substring 1 (String.length raw - 2) raw else raw.

Definition parseCookieValue (raw : string) : option string :=
  let value := unquote raw in if string_all cookie_value_byte value then Some value else None.

(** One [name=value] of a header line. *)
Definition read_cookie (part : string) : option (string * string) :=
  let '(name, value, _) := Cut part "=" in
  let name := TrimString name in
  if negb (non_empty name && string_all token_byte name) then None
  else match parseCookieValue value with Some v => Some (name, v) | None => None end.

(** [r.Cookie(name)]: the first cookie of that name. *)
Definition RCookie (h : Header) (name : string) : option string :=
  let parts := filter (λ part, part ≠ "") (TrimString <$> (Values h "Cookie" ≫= λ line, Split line ";")) in
  match List.find (λ nv, String.eqb nv.1 name) (omap read_cookie parts) with
  | Some (_, value) => Some value
  | None => None
  end.

(** * The client's address *)

Definition addrInTrustedCIDRs (addr : Addr) (cidrs : list string) : bool :=
  existsb (λ raw, match ParsePrefix (TrimSpace raw) with
                  | Some prefix => PrefixContains prefix addr
                  | None => false
                  end) cidrs.

(** From the last entry to the first: the first address that is not a trusted proxy. *)
Fixpoint chain_loop (reversed : list string) (trustedCIDRs : list string) : option Addr :=
  match reversed with
  | [] => None
  | part :: rest =>
      match ParseAddr (TrimSpace part) with
      | None => chain_loop rest trustedCIDRs
      | Some addr => if negb (addrInTrustedCIDRs addr trustedCIDRs) then Some addr else chain_loop rest trustedCIDRs
      end
  end.

Definition clientIPFromForwardedChain (header : string) (trustedCIDRs : list string) : option Addr :=
  let header := TrimSpace header in
  if negb (non_empty header) then None else chain_loop (rev (Split header ",")) trustedCIDRs.

Definition remote_host (r : Request) : string :=
  match SplitHostPort (TrimSpace (r_RemoteAddr r)) with
  | Some (host, _) => host
  | None => TrimSpace (r_RemoteAddr r)
  end.

Definition remoteAddrFromRequest (r : Request) : option Addr := ParseAddr (remote_host r).

Definition requestFromTrustedProxy (trusted : list string) (r : Request) : bool :=
  match trusted with
  | [] => false
  | _ => match remoteAddrFromRequest r with
         | None => false
         | Some addr => addrInTrustedCIDRs addr trusted
         end
  end.

Definition parseClientIP (remoteAddr : string) : option Addr :=
  match SplitHostPort remoteAddr with
  | Some (host, _) => ParseAddr host
  | None => ParseAddr remoteAddr
  end.

(** The address a trusted proxy reports, if it reports one. *)
Definition forwarded_ip (trusted : list string) (r : Request) : option Addr :=
  match clientIPFromForwardedChain (HGet (r_Header r) "X-Forwarded-For") trusted with
  | Some addr => Some addr
  | None =>
      let realIP := TrimSpace (HGet (r_Header r) "X-Real-Ip") in
      if non_empty realIP then ParseAddr realIP else None
  end.

Definition realClientIP (trusted : list string) (r : Request) : option Addr :=
  if requestFromTrustedProxy trusted r then
    match forwarded_ip trusted r with
    | Some addr => Some addr
    | None => parseClientIP (r_RemoteAddr r)
    end
  else parseClientIP (r_RemoteAddr r).

Definition authoritativeClientIP (trusted : list string) (r : Request) : string :=
  match realClientIP trusted r with
  | None => ""
  | Some addr => if IsValid addr then AddrString addr else ""
  end.

(** [clientIPForRequest] of the API: the address as text. *)
Definition clientIPForRequest (trusted : list string) (r : Request) : string :=
  if requestFromTrustedProxy trusted r then
    match forwarded_ip trusted r with
    | Some addr => AddrString addr
    | None => remote_host r
    end
  else remote_host r.

Definition firstForwardedValue (value : string) : string :=
  let value := TrimSpace value in
  if negb (non_empty value) then "" else TrimSpace (default "" (head (Split value ","))).

Definition forwardedProto (trusted : list string) (r : Request) : string :=
  if r_TLS r then "https"
  else if requestFromTrustedProxy trusted r then
    let proto := firstForwardedValue (HGet (r_Header r) "X-Forwarded-Proto") in
    if non_empty proto then ToLower proto else "http"
  else "http".

Definition requestSecure (trusted : list string) (r : Request) : bool :=
  if r_TLS r then true
  else if negb (requestFromTrustedProxy trusted r) then false
  else EqualFold (firstForwardedValue (HGet (r_Header r) "X-Forwarded-Proto")) "https".

Definition requestURL (trusted : list string) (r : Request) : string :=
  forwardedProto trusted r +:+ "://" +:+ r_Host r +:+ r_RequestURI r.

Definition isBootstrapAdminHost (host : string) : bool :=
  String.eqb host "" || String.eqb host "localhost" || String.eqb host "127.0.0.1" || String.eqb host "::1"
  || match ParseAddr host with Some _ => true | None => false end.

Definition isLocalRequestSource (r : Request) : bool :=
  match remoteAddrFromRequest r with
  | None => false
  | Some addr => IsLoopback addr || IsPrivate addr || IsLinkLocalUnicast addr
  end.

Definition wantsHTML (r : Request) : bool := Contains (ToLower (HGet (r_Header r) "Accept")) "text/html".
Definition expectsTokenAuth (r : Request) : bool := non_empty (TrimSpace (HGet (r_Header r) "Authorization")).

(** * Identity headers and credentials *)

Definition portlyn_header (name : string) : bool :=
  HasPrefix (ReplaceByte (ToLower name) "_" "-") "x-portlyn-".

Definition sanitizePortlynIdentityHeaders (h : Header) : Header :=
  filter (λ kv, portlyn_header kv.1 = false) h.

Definition bearerToken (header : string) : string :=
  let header := TrimSpace header in
  if (String.length header <? 7)%nat || negb (EqualFold (String.substring 0 7 header) "Bearer ") then ""
  else TrimSpace (drop_bytes 7 header).

Definition SessionCookieName : string := "portlyn_session".
Definition RefreshCookieName : string := "portlyn_refresh".
Definition CSRFCookieName : string := "portlyn_csrf".

Definition isPortlynCookieName (name : string) : bool :=
  let name := ToLower (TrimSpace name) in
  String.eqb name SessionCookieName || String.eqb name RefreshCookieName || String.eqb name CSRFCookieName
  || HasPrefix name "portlyn_route_access_".

(** The cookies of the header lines, trimmed, empty parts left out. *)
Definition cookie_parts (lines : list string) : list string :=
  filter (λ part, part ≠ "") (TrimSpace <$> (lines ≫= λ line, Split line ";")).

Definition cookie_name (part : string) : string := cut_before part "=".

Definition stripPortlynCookies (h : Header) : Header :=
  let parts := cookie_parts (Values h "Cookie") in
  let kept := filter (λ part, isPortlynCookieName (cookie_name part) = false) parts in
  if (length kept =? length parts)%nat then h
  else
    let h' := HDel h "Cookie" in
    match kept with
    | [] => h'
    | _ => HSet h' "Cookie" (Join kept "; ")
    end.

Definition stripPortlynCredentials (IsPortlynCredential : string → bool) (h : Header) : Header :=
  let token := bearerToken (HGet h "Authorization") in
  let h' := if non_empty token && IsPortlynCredential token then HDel h "Authorization" else h in
  stripPortlynCookies h'.

(** * Theorems about addresses *)

(** A peer that is not a trusted proxy cannot choose its address: whatever headers it sends, the
    address is that of the connection. *)
Theorem untrusted_peer_cannot_spoof trusted r h :
  requestFromTrustedProxy trusted r = false →
  let r' := {| r_Method := r_Method r; r_Host := r_Host r; r_Path := r_Path r; r_RawPath := r_RawPath r;
               r_RequestURI := r_RequestURI r; r_Token := r_Token r; r_Header := h; r_RemoteAddr := r_RemoteAddr r;
               r_TLS := r_TLS r; r_ClientCert := r_ClientCert r |} in
  realClientIP trusted r' = parseClientIP (r_RemoteAddr r) ∧
  clientIPForRequest trusted r' = remote_host r ∧
  requestSecure trusted r' = r_TLS r ∧ forwardedProto trusted r' = (if r_TLS r then "https" else "http").
Proof.
  intros Hu r'. assert (requestFromTrustedProxy trusted r' = false) as Hu' by exact Hu.
  unfold realClientIP, clientIPForRequest, requestSecure, forwardedProto. rewrite Hu'. simpl.
  by destruct (r_TLS r).
Qed.

Lemma chain_loop_app l k trusted :
  chain_loop (l ++ k) trusted = match chain_loop l trusted with Some a => Some a | None => chain_loop k trusted end.
Proof.
  induction l as [|x l IH]; [done|]. simpl. destruct (ParseAddr (TrimSpace x)) as [a|]; [|done].
  by destruct (negb (addrInTrustedCIDRs a trusted)).
Qed.

(** Entries that name trusted proxies. *)
Definition trusted_entry (trusted : list string) (part : string) : Prop :=
  ∃ addr, ParseAddr (TrimSpace part) = Some addr ∧ addrInTrustedCIDRs addr trusted = true.

Lemma chain_loop_trusted l trusted : Forall (trusted_entry trusted) l → chain_loop l trusted = None.
Proof. induction 1 as [|x l (a & Ha & Ht) Hl IH]; [done|]. simpl. by rewrite Ha, Ht. Qed.

(** Behind trusted proxies the client is the last address they did not vouch for: what stands
    before it in the chain, which the client may have written, does not matter. *)
Theorem forwarded_chain_ignores_prefix trusted forged client proxies addr :
  ParseAddr (TrimSpace client) = Some addr → addrInTrustedCIDRs addr trusted = false →
  ContainsByte client "," = false →
  Forall (λ p, trusted_entry trusted p ∧ ContainsByte p "," = false) proxies →
  TrimSpace (forged +:+ "," +:+ Join (client :: proxies) ",") = forged +:+ "," +:+ Join (client :: proxies) "," →
  clientIPFromForwardedChain (forged +:+ "," +:+ Join (client :: proxies) ",") trusted = Some addr.
Proof.
  intros Hc Hu Hcomma Hp Htrim. unfold clientIPFromForwardedChain. rewrite Htrim.
  rewrite (proj2 (non_empty_true _)) by (by destruct forged). cbn [negb].
  change (forged +:+ "," +:+ Join (client :: proxies) ",") with (forged +:+ String "," (Join (client :: proxies) ",")).
  rewrite Split_app, (Split_Join (client :: proxies)); [|done|].
  2: { intros x [->|Hx]%elem_of_cons; [done|]. eapply Forall_forall in Hp; [|done]. apply Hp. }
  rewrite rev_app_distr. simpl rev. rewrite <-app_assoc.
  rewrite chain_loop_app, chain_loop_trusted.
  - simpl. by rewrite Hc, Hu.
  - apply Forall_forall. intros x Hx%list_elem_of_In%in_rev%list_elem_of_In.
    eapply Forall_forall in Hp; [|done]. apply Hp.
Qed.

Lemma forwarded_chain_ignores_prefix_witness :
  clientIPFromForwardedChain "8.8.8.8, 1.1.1.1,203.0.113.9, 10.0.0.2" ["10.0.0.0/8"] = Some (Addr4 3405803785).
Proof.
  apply (forwarded_chain_ignores_prefix ["10.0.0.0/8"] "8.8.8.8, 1.1.1.1" "203.0.113.9" [" 10.0.0.2"]).
  - vm_compute. reflexivity.
  - vm_compute. reflexivity.
  - reflexivity.
  - constructor; [|constructor]. split; [|reflexivity]. exists (Addr4 167772162). split; vm_compute; reflexivity.
  - vm_compute. reflexivity.
Defined.

Definition sample_request (h : Header) : Request :=
  {| r_Method := "GET"; r_Host := "app.example.com"; r_Path := "/api"; r_RawPath := ""; r_RequestURI := "/api";
     r_Token := ""; r_Header := h; r_RemoteAddr := "198.51.100.7:4711"; r_TLS := true; r_ClientCert := "" |}.

Lemma untrusted_peer_cannot_spoof_witness :
  realClientIP ["10.0.0.0/8"] (sample_request {["X-Forwarded-For" := ["10.1.2.3"]]}) = Some (Addr4 3325256711).
Proof.
  destruct (untrusted_peer_cannot_spoof ["10.0.0.0/8"] (sample_request ∅) {["X-Forwarded-For" := ["10.1.2.3"]]})
    as (H & _); [vm_compute; reflexivity|].
  unfold sample_request in H. simpl in H. unfold sample_request. rewrite H. vm_compute. reflexivity.
Defined.

(** Only the first X-Forwarded-For line of a request is read: when a trusted proxy adds its own
    line after the client's instead of extending it, the client chooses the address. *)
Theorem forwarded_for_first_line_only trusted r line lines addr :
  requestFromTrustedProxy trusted r = true → r_Header r !! "X-Forwarded-For" = Some (line :: lines) →
  clientIPFromForwardedChain line trusted = Some addr → realClientIP trusted r = Some addr.
Proof.
  intros Ht Hh Hc. unfold realClientIP, forwarded_ip, HGet, Values. rewrite Ht, Hh. simpl. by rewrite Hc.
Qed.

Lemma forwarded_for_first_line_only_witness :
  realClientIP ["198.51.100.0/24"] (sample_request {["X-Forwarded-For" := ["8.8.8.8"; "203.0.113.9"]]}) = Some (Addr4 134744072).
Proof.
  apply (forwarded_for_first_line_only ["198.51.100.0/24"] _ "8.8.8.8" ["203.0.113.9"]); vm_compute; reflexivity.
Defined.

(** * Theorems about headers *)

Lemma sanitize_lookup h name :
  sanitizePortlynIdentityHeaders h !! name = if portlyn_header name then None else h !! name.
Proof.
  unfold sanitizePortlynIdentityHeaders. destruct (portlyn_header name) eqn:Hp.
  - apply map_lookup_filter_None. right. intros ? _. simpl. congruence.
  - destruct (h !! name) as [v|] eqn:Hl; [by apply map_lookup_filter_Some|]. apply map_lookup_filter_None. by left.
Qed.

Lemma sanitize_set h name value :
  portlyn_header name = true →
  sanitizePortlynIdentityHeaders (HSet h name value) = sanitizePortlynIdentityHeaders h.
Proof.
  intros Hp. apply map_eq. intros k. rewrite !sanitize_lookup. destruct (portlyn_header k) eqn:Hk; [done|].
  unfold HSet. rewrite lookup_insert_ne; [done|congruence].
Qed.

Lemma sanitize_idem h : sanitizePortlynIdentityHeaders (sanitizePortlynIdentityHeaders h) = sanitizePortlynIdentityHeaders h.
Proof. apply map_eq. intros k. rewrite !sanitize_lookup. by destruct (portlyn_header k). Qed.

Lemma string_all_TrimLeft p q s : string_all p s = true → string_all p (TrimLeftFunc q s) = true.
Proof. induction s as [|a s IH]; simpl; [done|]. intros ?. destruct (q a); [|done]. destruct_bools. auto. Qed.

Lemma string_all_TrimRight p q s : string_all p s = true → string_all p (TrimRightFunc q s) = true.
Proof.
  induction s as [|a s IH]; simpl; [done|]. intros [Ha Hs]%andb_true_iff. specialize (IH Hs).
  destruct (TrimRightFunc q s); [destruct (q a); simpl; by rewrite ?Ha|]. simpl in *. by rewrite Ha.
Qed.

Lemma TrimSpace_no_byte s c : ContainsByte s c = false → ContainsByte (TrimSpace s) c = false.
Proof.
  rewrite <-!negb_true_iff, <-!string_all_ContainsByte. intros. by apply string_all_TrimLeft, string_all_TrimRight.
Qed.

(** A cookie as [cookie_parts] gives it. *)
Definition cookie_clean (part : string) : Prop :=
  part ≠ "" ∧ TrimSpace part = part ∧ ContainsByte part ";" = false.

Lemma cookie_parts_clean lines : Forall cookie_clean (cookie_parts lines).
Proof.
  apply Forall_forall. unfold cookie_parts. intros part [Hne Hin]%list_elem_of_filter.
  apply list_elem_of_fmap in Hin as (raw & -> & Hraw). apply list_elem_of_bind in Hraw as (line & Hraw & _).
  split_and!; [done|apply TrimSpace_idem|]. by eapply TrimSpace_no_byte, Split_no_sep.
Qed.

Lemma TrimSpace_cons_space s : s ≠ "" → TrimSpace s = s → TrimSpace (String " " s) = s.
Proof.
  intros Hne [Hl Hr]%TrimSpace_fix. unfold TrimSpace. simpl. rewrite Hr. by destruct s.
Qed.

Lemma Split_Join_cookies x l :
  Forall cookie_clean (x :: l) → Split (Join (x :: l) "; ") ";" = x :: (String " " <$> l).
Proof.
  revert x. induction l as [|y l IH]; intros x [Hx Hl]%Forall_cons; [by apply Split_none, Hx|].
  rewrite Join_cons by done. change ("; " +:+ ?u) with (String ";" (" " +:+ u)).
  rewrite Split_app_sep by apply Hx. f_equal.
  specialize (IH y Hl). cbn [Split fmap list_fmap]. change (" " +:+ ?u) with (String " " u). cbn [Split].
  change (Ascii.eqb " " ";") with false. cbv iota. by rewrite IH.
Qed.

Lemma cookie_parts_Join l : Forall cookie_clean l → l ≠ [] → cookie_parts [Join l "; "] = l.
Proof.
  intros Hl Hne. destruct l as [|x l]; [done|]. unfold cookie_parts. cbn [mbind list_bind]. rewrite app_nil_r.
  rewrite Split_Join_cookies by done. apply Forall_cons in Hl as [Hx Hl]. cbn [fmap list_fmap].
  assert (TrimSpace <$> (String " " <$> l) = l) as Hmap.
  { induction Hl as [|y l Hy Hl IH]; [done|]. cbn [fmap list_fmap]. f_equal; [by apply TrimSpace_cons_space; apply Hy|].
    apply IH. done. }
  change (list_fmap _ _ TrimSpace (list_fmap _ _ (String " ") l)) with (TrimSpace <$> (String " " <$> l)). rewrite Hmap.
  destruct Hx as (Hx0 & -> & _). rewrite filter_cons_True by done. f_equal.
  clear Hmap. induction Hl as [|y l Hy Hl IH]; [done|]. rewrite filter_cons_True by apply Hy. f_equal. by apply IH.
Qed.

(** Portlyn's own cookies are removed, the others stay, in order. *)
Lemma stripPortlynCookies_parts h :
  cookie_parts (Values (stripPortlynCookies h) "Cookie") =
  filter (λ part, isPortlynCookieName (cookie_name part) = false) (cookie_parts (Values h "Cookie")).
Proof.
  unfold stripPortlynCookies. set (parts := cookie_parts (Values h "Cookie")).
  set (kept := filter _ parts). destruct (Nat.eqb_spec (length kept) (length parts)) as [Hlen|Hlen].
  { symmetry. by apply filter_full. }
  assert (Forall cookie_clean kept) as Hk.
  { apply Forall_forall. intros x [_ Hx]%list_elem_of_filter. by eapply Forall_forall; [apply cookie_parts_clean|]. }
  destruct kept as [|x l] eqn:Hkept; unfold Values, HSet, HDel; [by rewrite lookup_delete_eq|].
  rewrite lookup_insert_eq. simpl. by apply cookie_parts_Join.
Qed.

Lemma stripPortlynCookies_other h name : name ≠ "Cookie" → stripPortlynCookies h !! name = h !! name.
Proof.
  intros Hn. unfold stripPortlynCookies, HSet, HDel. repeat case_match; [done|by rewrite lookup_delete_ne|].
  by rewrite lookup_insert_ne, lookup_delete_ne.
Qed.
