(* ===== verification/AuditChain.v ===== *)
(** The audit log of internal/store/audit_store.go and audit_retention.go: every row
    is signed together with the hash of the row before it; retention deletes a
    prefix and leaves a signed checkpoint; compaction removes access noise and
    signs what is left again.

    The table is the list of its rows in the order of their ids, with the next id
    of the autoincrement column, and the one row of distributed_kv that holds the
    checkpoint.  HMAC-SHA-256 and the reader of the JSON details are parameters.
    A failed statement rolls the transaction back, so only the errors the code
    itself raises appear here.  What the timestamp column gives back for an instant is a parameter
    too: SQLite keeps every nanosecond, PostgreSQL's timestamps have microseconds.  A write is the read of
    the latest hash and an insert, which the default isolation does not make one step. *)
From S2P Require Import Prelude GoStrings Utf8Json.

#[local] Open Scope string_scope.
#[local] Open Scope list_scope.
#[local] Open Scope go_scope.

(** * Data *)

Record AuditLog := {
  ID : Z;
  Timestamp : Z;            (* nanoseconds of Unix time *)
  RequestID : string;
  UserID : option Z;
  Action : string;
  ResourceType : string;
  ResourceID : option Z;
  Method : string;
  Host : string;
  Path : string;
  StatusCode : Z;
  LatencyMs : Z;
  RemoteAddr : string;
  UserAgent : string;
  Details : string;
  PrevHash : string;
  Hash : string;
}.

Record AuditCheckpoint := {
  LastID : Z;
  LastHash : string;
  Pruned : Z;
  PrunedAt : Z;
  Signature : string;
}.

Record AuditDB := {
  rows : list AuditLog;
  nextID : Z;
  checkpoint : option AuditCheckpoint;
}.

Inductive audit_error :=
  | ErrChainMismatch (id : Z)
  | ErrHashMismatch (id : Z)
  | ErrCheckpointSignature
  | ErrCancelled
  | ErrFuel.

(** * Time and text *)

Section text.
#[local] Open Scope Z_scope.

(** The civil date of a day counted from 1970-01-01. *)
Definition civil_from_days (days : Z) : Z * Z * Z :=
  let z := days + 719468 in
  let era := z / 146097 in
  let doe := z mod 146097 in
  let yoe := (doe - doe / 1460 + doe / 36524 - doe / 146096) / 365 in
  let doy := doe - (365 * yoe + yoe / 4 - yoe / 100) in
  let mp := (5 * doy + 2) / 153 in
  let d := doy - (153 * mp + 2) / 5 + 1 in
  let m := if mp <? 10 then mp + 3 else mp - 9 in
  (yoe + era * 400 + (if m <=? 2 then 1 else 0), m, d).

Fixpoint zeros (n : nat) : string := match n with O => "" | S n => String "0" (zeros n) end.

Definition pad (width : nat) (n : Z) : string :=
  let body := FormatInt (Z.abs n) in
  (if n <? 0 then "-" else "") +:+ zeros (width - String.length body) +:+ body.

(** [Format(time.RFC3339Nano)] of a time in UTC. *)
Definition RFC3339Nano (t : Z) : string :=
  let '(y, m, d) := civil_from_days (t / (86400 * Second)) in
  let sec := t / Second mod 86400 in
  let frac := t mod Second in
  pad 4 y +:+ "-" +:+ pad 2 m +:+ "-" +:+ pad 2 d +:+ "T" +:+
  pad 2 (sec / 3600) +:+ ":" +:+ pad 2 (sec / 60 mod 60) +:+ ":" +:+ pad 2 (sec mod 60) +:+
  (if frac =? 0 then "" else "." +:+ TrimRight (pad 9 frac) "0") +:+ "Z".

Fixpoint hex_encode (s : string) : string :=
  match s with
  | "" => ""
  | String c s' => String (hex_digit (byte c / 16)) (String (hex_digit (byte c mod 16)) (hex_encode s'))
  end.
End text.

Definition legacyInvalidUTF8Marker : string := String (chr 239) (String (chr 183) (String (chr 144) "")).
Definition legacyInvalidUTF8Escape : string := String (chr 92) "ufffd".

Definition replaceInvalidUTF8 (value replacement : string) : string :=
  if ValidString value then value
  else concat_strings ((λ c : bool * string, if c.1 then c.2 else replacement) <$> chunks value).

Definition audit_strings (item : AuditLog) : list string :=
  [RequestID item; Action item; ResourceType item; Method item; Host item; Path item;
   RemoteAddr item; UserAgent item; Details item].

Definition auditLogHasInvalidUTF8 (item : AuditLog) : bool :=
  existsb (λ value, negb (ValidString value)) (audit_strings item).

Definition sanitizeAuditLog (item : AuditLog) : AuditLog :=
  let valid value := replaceInvalidUTF8 value RuneError in
  {| ID := ID item; Timestamp := Timestamp item; RequestID := valid (RequestID item);
     UserID := UserID item; Action := valid (Action item); ResourceType := valid (ResourceType item);
     ResourceID := ResourceID item; Method := valid (Method item); Host := valid (Host item);
     Path := valid (Path item); StatusCode := StatusCode item; LatencyMs := LatencyMs item;
     RemoteAddr := valid (RemoteAddr item); UserAgent := valid (UserAgent item);
     Details := valid (Details item); PrevHash := PrevHash item; Hash := Hash item |}.

Definition with_hashes (item : AuditLog) (prev hash : string) : AuditLog :=
  {| ID := ID item; Timestamp := Timestamp item; RequestID := RequestID item;
     UserID := UserID item; Action := Action item; ResourceType := ResourceType item;
     ResourceID := ResourceID item; Method := Method item; Host := Host item;
     Path := Path item; StatusCode := StatusCode item; LatencyMs := LatencyMs item;
     RemoteAddr := RemoteAddr item; UserAgent := UserAgent item;
     Details := Details item; PrevHash := prev; Hash := hash |}.

Definition with_id (item : AuditLog) (id : Z) : AuditLog :=
  {| ID := id; Timestamp := Timestamp item; RequestID := RequestID item;
     UserID := UserID item; Action := Action item; ResourceType := ResourceType item;
     ResourceID := ResourceID item; Method := Method item; Host := Host item;
     Path := Path item; StatusCode := StatusCode item; LatencyMs := LatencyMs item;
     RemoteAddr := RemoteAddr item; UserAgent := UserAgent item;
     Details := Details item; PrevHash := PrevHash item; Hash := Hash item |}.

(** [json.Marshal(auditHashPayload(...))]: the keys of the map in sorted order. *)
Definition auditHashPayload (prevHash : string) (item : AuditLog) (invalid : string) : string :=
  let clean value := json_string (replaceInvalidUTF8 value invalid) in
  let q := String (chr 34) "" in
  let key k := q +:+ k +:+ q +:+ ":" in
  "{" +:+ key "action" +:+ clean (Action item) +:+ "," +:+
  key "details" +:+ clean (Details item) +:+ "," +:+
  key "host" +:+ clean (Host item) +:+ "," +:+
  key "latency_ms" +:+ FormatInt (LatencyMs item) +:+ "," +:+
  key "method" +:+ clean (Method item) +:+ "," +:+
  key "path" +:+ clean (Path item) +:+ "," +:+
  key "prev_hash" +:+ json_string prevHash +:+ "," +:+
  key "remote_addr" +:+ clean (RemoteAddr item) +:+ "," +:+
  key "request_id" +:+ clean (RequestID item) +:+ "," +:+
  key "resource_id" +:+ json_optional (ResourceID item) +:+ "," +:+
  key "resource_type" +:+ clean (ResourceType item) +:+ "," +:+
  key "status_code" +:+ FormatInt (StatusCode item) +:+ "," +:+
  key "timestamp" +:+ json_string (RFC3339Nano (Timestamp item)) +:+ "," +:+
  key "user_agent" +:+ clean (UserAgent item) +:+ "," +:+
  key "user_id" +:+ json_optional (UserID item) +:+ "}".

Definition with_time (item : AuditLog) (t : Z) : AuditLog :=
  {| ID := ID item; Timestamp := t; RequestID := RequestID item;
     UserID := UserID item; Action := Action item; ResourceType := ResourceType item;
     ResourceID := ResourceID item; Method := Method item; Host := Host item;
     Path := Path item; StatusCode := StatusCode item; LatencyMs := LatencyMs item;
     RemoteAddr := RemoteAddr item; UserAgent := UserAgent item;
     Details := Details item; PrevHash := PrevHash item; Hash := Hash item |}.

(** * Operations *)

Section operations.
#[local] Open Scope Z_scope.

(** crypto/hmac with crypto/sha256: the 32 bytes of the sum. *)
Variable hmac_sha256 : string → string → string.
(** [json.Unmarshal] of the details into [outcome] and [reason]. *)
Variable unmarshal_outcome : string → option (string * string).
(** [AuditStore.hmacKey]. *)
Variable hmacKey : string.

(** What the timestamp column holds after an instant was written to it. *)
Variable stored_time : Z → Z.

Definition signAuditPayload (encoded : string) : string := hex_encode (hmac_sha256 hmacKey encoded).

Definition computeAuditHash (prevHash : string) (item : AuditLog) : string :=
  signAuditPayload (auditHashPayload prevHash item RuneError).

Definition computeLegacyAuditHash (prevHash : string) (item : AuditLog) : string :=
  signAuditPayload (ReplaceAll (auditHashPayload prevHash item legacyInvalidUTF8Marker)
                      legacyInvalidUTF8Marker legacyInvalidUTF8Escape).

(** ** Writing *)

(** The hash of the row with the greatest id; the empty string in an empty table. *)
Definition latestAuditHash (db : AuditDB) : string :=
  match last (rows db) with None => "" | Some latest => Hash latest end.

(** The row the table holds for an item that is inserted. *)
Definition stored_row (item : AuditLog) (id : Z) : AuditLog := with_id (with_time item (stored_time (Timestamp item))) id.

(** INSERT: the database gives the row its id and keeps the timestamp as precisely as its column does. *)
Definition insert_row (db : AuditDB) (item : AuditLog) : AuditDB :=
  {| rows := rows db ++ [stored_row item (nextID db)]; nextID := nextID db + 1; checkpoint := checkpoint db |}.

(** [Create] after the latest hash was read. *)
Definition create_after (prevHash : string) (db : AuditDB) (item : AuditLog) : AuditDB :=
  let item := sanitizeAuditLog item in
  insert_row db (with_hashes item prevHash (computeAuditHash prevHash item)).

Definition Create (db : AuditDB) (item : AuditLog) : AuditDB := create_after (latestAuditHash db) db item.

Fixpoint sign_batch (prevHash : string) (items : list AuditLog) : list AuditLog :=
  match items with
  | [] => []
  | item :: items' =>
      let item := sanitizeAuditLog item in
      let hash := computeAuditHash prevHash item in
      with_hashes item prevHash hash :: sign_batch hash items'
  end.

Definition CreateBatch (db : AuditDB) (items : list AuditLog) : AuditDB :=
  match items with
  | [] => db
  | _ => foldl insert_row db (sign_batch (latestAuditHash db) items)
  end.

(** ** Verifying *)

Fixpoint verifyAuditChainSegment (prevHash : string) (items : list AuditLog)
  : result audit_error string :=
  match items with
  | [] => Ok prevHash
  | item :: items' =>
      if negb (String.eqb (PrevHash item) prevHash) then Err (ErrChainMismatch (ID item))
      else if negb (String.eqb (Hash item) (computeAuditHash prevHash item)) &&
              (negb (auditLogHasInvalidUTF8 item) ||
               negb (String.eqb (Hash item) (computeLegacyAuditHash prevHash item)))
      then Err (ErrHashMismatch (ID item))
      else verifyAuditChainSegment (Hash item) items'
  end.

Fixpoint verify_rows (prevHash : string) (items : list AuditLog) : result audit_error unit :=
  match items with
  | [] => Ok tt
  | item :: items' =>
      try next <- verifyAuditChainSegment prevHash [item] ;
      verify_rows next items'
  end.

Definition VerifyAuditHashChain (items : list AuditLog) : result audit_error unit :=
  verify_rows "" items.

Definition checkpointSignature (c : AuditCheckpoint) : string :=
  let q := String (chr 34) "" in
  let key k := q +:+ k +:+ q +:+ ":" in
  signAuditPayload
    ("{" +:+ key "kind" +:+ json_string "audit_checkpoint" +:+ "," +:+
     key "last_hash" +:+ json_string (LastHash c) +:+ "," +:+
     key "last_id" +:+ FormatInt (LastID c) +:+ "," +:+
     key "pruned" +:+ FormatInt (Pruned c) +:+ "," +:+
     key "pruned_at" +:+ json_string (RFC3339Nano (PrunedAt c)) +:+ "}").

Definition loadCheckpoint (db : AuditDB) : result audit_error (option AuditCheckpoint) :=
  match checkpoint db with
  | None => Ok None
  | Some c => if String.eqb (Signature c) (checkpointSignature c) then Ok (Some c)
              else Err ErrCheckpointSignature
  end.

Definition saveCheckpoint (db : AuditDB) (c : AuditCheckpoint) : AuditDB :=
  let signed := {| LastID := LastID c; LastHash := LastHash c; Pruned := Pruned c;
                   PrunedAt := PrunedAt c; Signature := checkpointSignature c |} in
  {| rows := rows db; nextID := nextID db; checkpoint := Some signed |}.

Definition deleteAuditCheckpoint (db : AuditDB) : AuditDB :=
  {| rows := rows db; nextID := nextID db; checkpoint := None |}.

(** WHERE id > lastID ORDER BY id LIMIT n. *)
Definition rows_after (lastID : Z) (limit : nat) (table : list AuditLog) : list AuditLog :=
  take limit (filter (λ r, lastID < ID r) table).

Record AuditChainResult := {
  Verified : Z; LatestID : Z; LatestHash : string; AnchorID : Z; PrunedBefore : Z;
}.

Definition last_id (batch : list AuditLog) (default_id : Z) : Z :=
  match last batch with Some r => ID r | None => default_id end.

Definition batchSize : nat := 500.

Fixpoint verify_loop (fuel : nat) (table : list AuditLog) (prevHash : string) (lastID verified : Z)
  : result audit_error (string * Z * Z) :=
  match fuel with
  | O => Err ErrFuel
  | S fuel' =>
      let batch := rows_after lastID batchSize table in
      match batch with
      | [] => Ok (prevHash, lastID, verified)
      | _ :: _ =>
          try next <- verifyAuditChainSegment prevHash batch ;
          let lastID' := last_id batch lastID in
          let verified' := verified + Z.of_nat (length batch) in
          if (length batch <? batchSize)%nat then Ok (next, lastID', verified')
          else verify_loop fuel' table next lastID' verified'
      end
  end.

Definition VerifyChain (db : AuditDB) : result audit_error AuditChainResult :=
  try c <- loadCheckpoint db ;
  let '(prevHash, lastID, pruned) :=
    match c with None => ("", 0, 0) | Some c => (LastHash c, LastID c, Pruned c) end in
  try r <- verify_loop (S (length (rows db))) (rows db) prevHash lastID 0 ;
  let '(hash, id, verified) := r in
  Ok {| Verified := verified; LatestID := id; LatestHash := hash;
        AnchorID := lastID; PrunedBefore := pruned |}.

(** ** Retention *)

Definition auditPruneBatchSize : nat := 1000.

(** The leading rows older than [before]. *)
Fixpoint older_prefix (before : Z) (batch : list AuditLog) : list AuditLog :=
  match batch with
  | [] => []
  | r :: batch' => if Timestamp r <? before then r :: older_prefix before batch' else []
  end.

Definition pruneBatch (db : AuditDB) (before now : Z) : result audit_error (AuditDB * Z * Z * bool) :=
  let newestID := last_id (rows db) 0 in
  let batch := take auditPruneBatchSize (filter (λ r, ID r < newestID) (rows db)) in
  let cut := older_prefix before batch in
  match last cut with
  | None => Ok (db, 0, 0, true)
  | Some l =>
      let kept := filter (λ r, ¬ (ID r ≤ ID l)) (rows db) in
      let affected := Z.of_nat (length (filter (λ r, ID r ≤ ID l) (rows db))) in
      if affected =? 0 then Ok (db, 0, 0, true)
      else
        try previous <- loadCheckpoint db ;
        let next := {| LastID := ID l; LastHash := Hash l;
                       Pruned := affected + match previous with Some p => Pruned p | None => 0 end;
                       PrunedAt := now; Signature := "" |} in
        let db' := saveCheckpoint {| rows := kept; nextID := nextID db; checkpoint := checkpoint db |} next in
        let done := (length cut <? length batch)%nat || (length batch <? auditPruneBatchSize)%nat in
        Ok (db', affected, ID l, done)
  end.

Record AuditPruneResult := { Removed : Z; PruneLastID : Z }.

(** [cancelled] is what [ctx.Err()] answers after the batch with that number;
    [clock] the time of the batch.  Batches already committed stay. *)
Fixpoint prune_loop (fuel : nat) (cancelled : nat → bool) (clock : nat → Z) (before : Z) (i : nat)
    (db : AuditDB) (res : AuditPruneResult) : AuditDB * AuditPruneResult * option audit_error :=
  match fuel with
  | O => (db, res, Some ErrFuel)
  | S fuel' =>
      match pruneBatch db before (clock i) with
      | Err e => (db, res, Some e)
      | Ok (db', removed, lastID, done) =>
          let res' := {| Removed := Removed res + removed;
                         PruneLastID := if 0 <? lastID then lastID else PruneLastID res |} in
          if (done : bool) then (db', res', None)
          else if cancelled i then (db', res', Some ErrCancelled)
          else prune_loop fuel' cancelled clock before (S i) db' res'
      end
  end.

Definition PruneBefore (cancelled : nat → bool) (clock : nat → Z) (db : AuditDB) (before : Z) :=
  prune_loop (S (length (rows db))) cancelled clock before 0 db {| Removed := 0; PruneLastID := 0 |}.

(** ** Compaction *)

Definition auditDetailOutcome (raw : string) : string * string :=
  if String.eqb (TrimSpace raw) "" then ("", "")
  else default ("", "") (unmarshal_outcome raw).

Definition auditRowIsAccessNoise (item : AuditLog) : bool :=
  if String.eqb (ResourceType item) "http_request" then true
  else if String.eqb (Action item) "proxy_access" then
    let '(outcome, reason) := auditDetailOutcome (Details item) in
    if negb (String.eqb outcome "denied") then true
    else String.eqb reason "login_required" || (String.eqb reason "authz" && (StatusCode item =? 302))
  else false.

Record AuditCompactionResult := { Scanned : Z; CRemoved : Z; Kept : Z; CLatestHash : string }.

Record compact_state := {
  c_rows : list AuditLog; c_prev : string; c_scanned : Z; c_removed : Z; c_kept : Z;
}.

Definition compact_row (st : compact_state) (row : AuditLog) : compact_state :=
  if auditRowIsAccessNoise row then
    {| c_rows := filter (λ r, ID r ≠ ID row) (c_rows st); c_prev := c_prev st;
       c_scanned := c_scanned st + 1; c_removed := c_removed st + 1; c_kept := c_kept st |}
  else
    let newHash := computeAuditHash (c_prev st) row in
    let rows' :=
      if negb (String.eqb (PrevHash row) (c_prev st)) || negb (String.eqb (Hash row) newHash)
      then (λ r, if ID r =? ID row then with_hashes r (c_prev st) newHash else r) <$> c_rows st
      else c_rows st in
    {| c_rows := rows'; c_prev := newHash;
       c_scanned := c_scanned st + 1; c_removed := c_removed st; c_kept := c_kept st + 1 |}.

Fixpoint compact_loop (fuel : nat) (lastID : Z) (st : compact_state) : option compact_state :=
  match fuel with
  | O => None
  | S fuel' =>
      let batch := rows_after lastID batchSize (c_rows st) in
      match batch with
      | [] => Some st
      | _ :: _ =>
          let st' := foldl compact_row st batch in
          if (length batch <? batchSize)%nat then Some st'
          else compact_loop fuel' (last_id batch lastID) st'
      end
  end.

Definition Compact (db : AuditDB) : result audit_error (AuditDB * AuditCompactionResult) :=
  let db := deleteAuditCheckpoint db in
  match compact_loop (S (length (rows db))) 0
          {| c_rows := rows db; c_prev := ""; c_scanned := 0; c_removed := 0; c_kept := 0 |} with
  | None => Err ErrFuel
  | Some st =>
      Ok ({| rows := c_rows st; nextID := nextID db; checkpoint := checkpoint db |},
          {| Scanned := c_scanned st; CRemoved := c_removed st; Kept := c_kept st;
             CLatestHash := c_prev st |})
  end.

(** * The invariant of the table *)

Definition ordered (table : list AuditLog) : Prop := StronglySorted (λ a b, ID a < ID b) table.

(** The hash and the id the chain starts after. *)
Definition anchor (db : AuditDB) : string * Z :=
  match checkpoint db with None => ("", 0) | Some c => (LastHash c, LastID c) end.

Record audit_inv (db : AuditDB) : Prop := {
  inv_ordered : ordered (rows db);
  inv_ids : Forall (λ r, (anchor db).2 < ID r < nextID db) (rows db);
  inv_next : 0 < nextID db;
  inv_anchor : 0 ≤ (anchor db).2;
  inv_signed : ∀ c, checkpoint db = Some c → Signature c = checkpointSignature c ∧ rows db ≠ [];
  inv_chain : ∃ h, verifyAuditChainSegment (anchor db).1 (rows db) = Ok h;
}.

Definition emptyAuditDB : AuditDB := {| rows := []; nextID := 1; checkpoint := None |}.

(** What compaction leaves: the rows that are not noise, signed from the start. *)
Fixpoint rechain (prevHash : string) (table : list AuditLog) : list AuditLog :=
  match table with
  | [] => []
  | r :: table' =>
      if auditRowIsAccessNoise r then rechain prevHash table'
      else let h := computeAuditHash prevHash r in with_hashes r prevHash h :: rechain h table'
  end.

Definition chain_end (prevHash : string) (table : list AuditLog) : string :=
  match last table with None => prevHash | Some r => Hash r end.

(** The column gives the timestamp of the item back as it was signed. *)
Definition time_kept (item : AuditLog) : Prop := stored_time (Timestamp item) = Timestamp item.

(** The operations of the store, one after another, on items whose timestamps survive the column. *)
Inductive audit_step : AuditDB → AuditDB → Prop :=
  | step_create db item : time_kept item → audit_step db (Create db item)
  | step_batch db items : Forall time_kept items → audit_step db (CreateBatch db items)
  | step_prune db cancelled clock before db' res err :
      PruneBefore cancelled clock db before = (db', res, err) → audit_step db db'
  | step_compact db db' res : Compact db = Ok (db', res) → audit_step db db'.

(** * Lemmas *)

(** ** Verification *)

Lemma verify_app p a b :
  verifyAuditChainSegment p (a ++ b) =
  result_bind (verifyAuditChainSegment p a) (λ h, verifyAuditChainSegment h b).
Proof.
  revert p. induction a as [|r a IH]; intros p; [done|]. simpl.
  by repeat case_match.
Qed.

Lemma verify_end p l h : verifyAuditChainSegment p l = Ok h → h = chain_end p l.
Proof.
  revert p. induction l as [|r l IH]; intros p; simpl; [by intros [=]|].
  intros Hv. repeat case_match; simplify_eq. rewrite (IH _ Hv). unfold chain_end.
  rewrite last_cons. by destruct (last l).
Qed.

Lemma chain_end_app p a b : chain_end p (a ++ b) = chain_end (chain_end p a) b.
Proof. unfold chain_end. rewrite last_app. by destruct (last b). Qed.

(** A row signed after [p]. *)
Definition signed_after (p : string) (r : AuditLog) : Prop :=
  PrevHash r = p ∧ Hash r = computeAuditHash p r.

Lemma verify_signed_cons p r l :
  signed_after p r → verifyAuditChainSegment p (r :: l) = verifyAuditChainSegment (Hash r) l.
Proof. intros [Hp Hh]. simpl. by rewrite Hp, <-Hh, !String.eqb_refl. Qed.

Lemma verify_rows_segment p l :
  verify_rows p l = match verifyAuditChainSegment p l with Ok _ => Ok tt | Err e => Err e end.
Proof.
  revert p. induction l as [|r l IH]; intros p; [done|]. simpl.
  by repeat (case_match; simpl; try done).
Qed.

Lemma rechain_verifies p l :
  verifyAuditChainSegment p (rechain p l) = Ok (chain_end p (rechain p l)).
Proof.
  assert (∃ h, verifyAuditChainSegment p (rechain p l) = Ok h) as [h Hh].
  { revert p. induction l as [|r l IH]; intros p; simpl; [eauto|].
    case_match; [apply IH|]. rewrite verify_signed_cons by done. apply IH. }
  rewrite Hh. f_equal. by apply verify_end.
Qed.

(** ** Order *)

Lemma ordered_app a b :
  ordered (a ++ b) ↔ ordered a ∧ ordered b ∧ ∀ x y, x ∈ a → y ∈ b → ID x < ID y.
Proof.
  unfold ordered. rewrite StronglySorted_app. split; intros (? & ? & ?); auto.
Qed.

Lemma ordered_snoc l r : ordered l → Forall (λ x, ID x < ID r) l → ordered (l ++ [r]).
Proof.
  intros Hl Hr. apply ordered_app. repeat split; [done | by repeat constructor |].
  intros x y Hx ->%list_elem_of_singleton. by eapply Forall_forall in Hr.
Qed.

Lemma ordered_filter (P : AuditLog → Prop) `{∀ r, Decision (P r)} l : ordered l → ordered (filter P l).
Proof.
  intros Hl. induction Hl as [|r l Hl IH Hr]; [constructor|].
  rewrite filter_cons. case_decide; [|done]. constructor; [done|].
  apply Forall_forall. intros x [_ Hx]%list_elem_of_filter. by eapply Forall_forall in Hr.
Qed.

Lemma ordered_last l r : ordered l → last l = Some r → Forall (λ x, ID x ≤ ID r) l.
Proof.
  intros Hl [l' ->]%last_Some. apply ordered_app in Hl as (_ & _ & Hl).
  apply Forall_app. split; [|by repeat constructor; lia].
  apply Forall_forall. intros x Hx. specialize (Hl x r Hx ltac:(set_solver)). lia.
Qed.

Lemma filter_all (P : AuditLog → Prop) `{∀ r, Decision (P r)} l : Forall P l → filter P l = l.
Proof. induction 1 as [|x l Hx _ IH]; [done|]. by rewrite filter_cons_True, IH. Qed.

Lemma filter_none (P : AuditLog → Prop) `{∀ r, Decision (P r)} l :
  Forall (λ x, ¬ P x) l → filter P l = [].
Proof. induction 1 as [|x l Hx _ IH]; [done|]. by rewrite filter_cons_False. Qed.

(** Cutting an ordered table at the last row of a prefix. *)
Lemma filter_after_prefix a b r :
  ordered (a ++ b) → last a = Some r →
  filter (λ x, ID r < ID x) (a ++ b) = b ∧
  filter (λ x, ID x ≤ ID r) (a ++ b) = a ∧ filter (λ x, ¬ ID x ≤ ID r) (a ++ b) = b.
Proof.
  intros (Ha & Hb & Hab)%ordered_app Hr. pose proof (ordered_last _ _ Ha Hr) as Hle.
  assert (r ∈ a) as Hin by (apply last_Some in Hr as [? ->]; set_solver).
  assert (Forall (λ x, ID r < ID x) b) as Hlt by (apply Forall_forall; eauto).
  rewrite !filter_app.
  rewrite (filter_none (λ x, ID r < ID x) a), (filter_all (λ x, ID r < ID x) b),
    (filter_all (λ x, ID x ≤ ID r) a), (filter_none (λ x, ID x ≤ ID r) b),
    (filter_none (λ x, ¬ ID x ≤ ID r) a), (filter_all (λ x, ¬ ID x ≤ ID r) b);
    try (eapply Forall_impl; [done|]; simpl; intros; lia).
  by rewrite app_nil_r.
Qed.

Lemma rows_after_rest lastID table n r :
  ordered table → last (rows_after lastID n table) = Some r →
  filter (λ x, ID r < ID x) table = drop n (filter (λ x, lastID < ID x) table).
Proof.
  intros Ht Hr. unfold rows_after in Hr.
  assert (lastID < ID r) as Hlt.
  { assert (r ∈ take n (filter (λ x, lastID < ID x) table)) as Hin.
    { apply last_Some in Hr as [? ->]. set_solver. }
    assert (r ∈ filter (λ x, lastID < ID x) table) as Hf.
    { rewrite <-(take_drop n (filter _ _)). set_solver. }
    by apply list_elem_of_filter in Hf as [? _]. }
  pose proof (ordered_filter (λ x, lastID < ID x) _ Ht) as Hf.
  rewrite <-(take_drop n (filter (λ x, lastID < ID x) table)) in Hf.
  destruct (filter_after_prefix _ _ _ Hf Hr) as (Heq & _).
  rewrite take_drop in Heq. rewrite <-Heq, list_filter_filter.
  apply list_filter_iff. intros x. lia.
Qed.

(** ** The batched loops visit every row *)

Lemma last_id_app a b d : last_id (a ++ b) d = last_id b (last_id a d).
Proof. unfold last_id. rewrite last_app. by destruct (last b). Qed.

Lemma verify_loop_spec fuel table p lastID v :
  ordered table → (length (filter (λ r, (lastID < ID r)%Z) table) < fuel)%nat →
  verify_loop fuel table p lastID v =
  (try h <- verifyAuditChainSegment p (filter (λ r, lastID < ID r) table) ;
   Ok (h, last_id (filter (λ r, lastID < ID r) table) lastID,
       v + Z.of_nat (length (filter (λ r, lastID < ID r) table)))).
Proof.
  intros Ht. revert p lastID v. induction fuel as [|fuel IH]; intros p lastID v Hf; [lia|].
  set (todo := filter (λ r, lastID < ID r) table) in *. cbn [verify_loop].
  change (rows_after lastID batchSize table) with (take batchSize todo).
  pose proof (length_take todo batchSize) as Hlen. unfold batchSize in *.
  destruct (last (take 500 todo)) as [r|] eqn:Hr.
  - pose proof (rows_after_rest lastID table 500 r Ht Hr) as Hrest.
    destruct (take 500 todo) as [|x b] eqn:Hb; [done|]. rewrite <-Hb in *. cbv iota.
    replace (verifyAuditChainSegment p todo)
      with (verifyAuditChainSegment p (take 500 todo ++ drop 500 todo)) by (by rewrite take_drop).
    replace (last_id todo lastID)
      with (last_id (take 500 todo ++ drop 500 todo) lastID) by (by rewrite take_drop).
    rewrite verify_app, last_id_app.
    destruct (verifyAuditChainSegment p (take 500 todo)) as [h|e]; [|done]. simpl result_bind.
    destruct (Nat.ltb_spec (length (take 500 todo)) 500) as [Hlt|Hge].
    + rewrite drop_ge by lia. simpl. do 3 f_equal. lia.
    + assert (last_id (take 500 todo) lastID = ID r) as Hid by (unfold last_id; by rewrite Hr).
      rewrite Hid, IH by (rewrite Hrest, length_drop; fold todo; lia).
      rewrite Hrest. fold todo. rewrite length_drop.
      destruct (verifyAuditChainSegment h (drop 500 todo)); [|done]. simpl. do 2 f_equal. lia.
  - destruct (take 500 todo) as [|x b] eqn:Hb; [|by rewrite last_cons in Hr; destruct (last b)].
    assert (todo = []) as -> by (destruct todo; [done | simpl in Hb; done]).
    simpl. by rewrite Z.add_0_r.
Qed.

Lemma filter_after_anchor db :
  audit_inv db → filter (λ r, (anchor db).2 < ID r) (rows db) = rows db.
Proof.
  intros [_ Hids _ _ _ _]. apply filter_all. eapply Forall_impl; [done|]. simpl. lia.
Qed.

Lemma inv_verifies db :
  audit_inv db →
  VerifyChain db = Ok {| Verified := Z.of_nat (length (rows db));
    LatestID := last_id (rows db) (anchor db).2;
    LatestHash := chain_end (anchor db).1 (rows db); AnchorID := (anchor db).2;
    PrunedBefore := match checkpoint db with Some c => Pruned c | None => 0 end |}.
Proof.
  intros Hinv. pose proof (filter_after_anchor db Hinv) as Hall.
  destruct Hinv as [Hord _ _ _ Hsig [h Hh]]. pose proof (verify_end _ _ _ Hh) as He.
  unfold VerifyChain, loadCheckpoint, anchor in *.
  destruct (checkpoint db) as [c|]; cbn [fst snd result_bind] in *.
  - destruct (Hsig c eq_refl) as [Hs _]. rewrite <-Hs, String.eqb_refl. cbn [result_bind].
    rewrite verify_loop_spec by (first [done | rewrite Hall; lia]). rewrite Hall, Hh. simpl. by rewrite He.
  - rewrite verify_loop_spec by (first [done | rewrite Hall; lia]). rewrite Hall, Hh. simpl. by rewrite He.
Qed.

(** ** Writing keeps the chain *)

Lemma latestAuditHash_end db : audit_inv db → latestAuditHash db = chain_end (anchor db).1 (rows db).
Proof.
  intros [_ _ _ _ Hsig _]. unfold latestAuditHash, chain_end, anchor.
  destruct (last (rows db)) eqn:Hl; [done|]. apply last_None in Hl.
  destruct (checkpoint db) as [c|]; [|done]. by destruct (Hsig c eq_refl).
Qed.

(** Whatever is inserted, the rows stay in order after the anchor. *)
Lemma insert_row_ordered db r :
  audit_inv db → ordered (rows (insert_row db r)) ∧ Forall (λ x, (anchor db).2 < ID x < nextID db + 1) (rows (insert_row db r)).
Proof.
  intros [Hord Hids Hn Ha Hsig _]. simpl. split.
  - apply ordered_snoc; [done|]. eapply Forall_impl; [done|]. simpl. lia.
  - apply Forall_app. split; [eapply Forall_impl; [done|]; simpl; lia|].
    repeat constructor; simpl; [|lia].
    unfold anchor in *. destruct (checkpoint db) as [c|] eqn:Hc; simpl in *; [|lia].
    destruct (rows db) as [|x l]; [by destruct (Hsig c eq_refl)|].
    apply Forall_cons in Hids as [? _]. lia.
Qed.

Lemma stored_row_kept r id : time_kept r → stored_row r id = with_id r id.
Proof. unfold stored_row. intros ->. by destruct r. Qed.

Lemma insert_row_latest db r : latestAuditHash (insert_row db r) = Hash r.
Proof. unfold latestAuditHash. simpl. by rewrite last_snoc. Qed.

Lemma insert_row_inv db r :
  audit_inv db → time_kept r → signed_after (latestAuditHash db) r → audit_inv (insert_row db r).
Proof.
  intros Hinv Ht Hr. pose proof (latestAuditHash_end db Hinv) as Hl. destruct (insert_row_ordered db r Hinv) as [Hord Hids].
  destruct Hinv as [_ _ Hn Ha Hsig [h Hh]]. pose proof (verify_end _ _ _ Hh) as He.
  assert (anchor (insert_row db r) = anchor db) as Hanc by done.
  split; rewrite ?Hanc; [done|done|simpl; lia|done| |]; simpl.
  - intros c Hc. destruct (Hsig c Hc). split; [done|]. by destruct (rows db).
  - rewrite stored_row_kept, verify_app, Hh by done. cbn [result_bind]. rewrite He, <-Hl.
    exists (Hash r). rewrite (verify_signed_cons _ (with_id r (nextID db)) []); [done|exact Hr].
Qed.

(** A row that does not fit the log it is appended to is what the verification stops at. *)
Lemma insert_row_refused db r e :
  audit_inv db → verifyAuditChainSegment (latestAuditHash db) [stored_row r (nextID db)] = Err e → VerifyChain (insert_row db r) = Err e.
Proof.
  intros Hinv Hbad. pose proof (latestAuditHash_end db Hinv) as Hl. destruct (insert_row_ordered db r Hinv) as [Hord Hids].
  assert (filter (λ x, (anchor db).2 < ID x) (rows (insert_row db r)) = rows (insert_row db r)) as Hall.
  { apply filter_all. eapply Forall_impl; [done|]. simpl. lia. }
  destruct Hinv as [_ _ _ _ Hsig [h Hh]]. pose proof (verify_end _ _ _ Hh) as He.
  assert (verifyAuditChainSegment (anchor db).1 (rows (insert_row db r)) = Err e) as Hv.
  { simpl rows. rewrite verify_app, Hh. cbn [result_bind]. by rewrite He, <-Hl. }
  unfold VerifyChain, loadCheckpoint, anchor in *. change (checkpoint (insert_row db r)) with (checkpoint db).
  destruct (checkpoint db) as [c|]; cbn [fst snd] in *.
  - destruct (Hsig c eq_refl) as [Hs _]. rewrite <-Hs, String.eqb_refl. cbn [result_bind].
    rewrite verify_loop_spec by (first [done | rewrite Hall; lia]). by rewrite Hall, Hv.
  - cbn [result_bind]. rewrite verify_loop_spec by (first [done | rewrite Hall; lia]). by rewrite Hall, Hv.
Qed.

Lemma Create_inv db item : audit_inv db → time_kept item → audit_inv (Create db item).
Proof. intros Hinv Ht. by apply insert_row_inv. Qed.

Lemma sign_batch_inv items db :
  audit_inv db → Forall time_kept items → audit_inv (foldl insert_row db (sign_batch (latestAuditHash db) items)).
Proof.
  intros Hinv Hk. revert db Hinv. induction Hk as [|i items Hi _ IH]; intros db Hinv; [done|]. cbn [sign_batch foldl].
  set (r := with_hashes _ _ _). pose proof (IH (insert_row db r)) as Hrest. rewrite insert_row_latest in Hrest.
  by apply Hrest, insert_row_inv.
Qed.

Lemma CreateBatch_inv db items : audit_inv db → Forall time_kept items → audit_inv (CreateBatch db items).
Proof. intros Hinv Hk. destruct items; [done|]. by apply sign_batch_inv. Qed.

(** ** Retention *)

(** Nothing left to prune: the first row is recent, or it is the only one. *)
Definition prune_complete (before : Z) (table : list AuditLog) : Prop :=
  match table with [] => True | r :: rest => before ≤ Timestamp r ∨ rest = [] end.

Lemma older_prefix_spec before batch :
  ∃ rest, batch = older_prefix before batch ++ rest ∧
    Forall (λ r, Timestamp r < before) (older_prefix before batch) ∧
    match rest with [] => True | r :: _ => before ≤ Timestamp r end.
Proof.
  induction batch as [|r l (rest & Hl & Hf & Hm)]; simpl; [by exists []|].
  destruct (Z.ltb_spec (Timestamp r) before) as [Hlt|Hge].
  - exists rest. simpl. by rewrite <-Hl; auto.
  - exists (r :: l). by auto.
Qed.

Lemma filter_below_newest l r :
  ordered (l ++ [r]) → filter (λ x, ID x < ID r) (l ++ [r]) = l.
Proof.
  intros (_ & _ & Hlt)%ordered_app. rewrite filter_app, filter_all, filter_none.
  - apply app_nil_r.
  - repeat constructor. lia.
  - apply Forall_forall. intros x Hx. apply Hlt; set_solver.
Qed.

(** Deleting a non-empty prefix and leaving its last hash as the checkpoint. *)
Lemma checkpoint_inv db a b l c :
  audit_inv db → rows db = a ++ b → b ≠ [] → last a = Some l →
  LastID c = ID l → LastHash c = Hash l →
  audit_inv (saveCheckpoint {| rows := b; nextID := nextID db; checkpoint := checkpoint db |} c).
Proof.
  intros [Hord Hids Hn Ha Hsig [h Hh]] Hrows Hb Hl Hid Hhash. rewrite Hrows in Hord, Hids, Hh. clear Hsig.
  apply ordered_app in Hord as (Horda & Hordb & Hab). apply Forall_app in Hids as [Hidsa Hidsb].
  assert (l ∈ a) as Hla by (apply last_Some in Hl as [? ->]; set_solver).
  rewrite verify_app in Hh.
  destruct (verifyAuditChainSegment (anchor db).1 a) as [ha|] eqn:Hva; [|done].
  apply verify_end in Hva. unfold chain_end in Hva. rewrite Hl in Hva.
  assert ((anchor db).2 < ID l) as Hlt by (eapply Forall_forall in Hidsa; [|done]; simpl in Hidsa; lia).
  split; simpl; try done.
  - rewrite Hid. apply Forall_forall. intros x Hx. split; [by apply Hab|].
    eapply Forall_forall in Hidsb; [|done]. simpl in Hidsb. lia.
  - lia.
  - by intros ? [= <-].
  - exists h. by rewrite Hhash, <-Hva.
Qed.

Lemma pruneBatch_spec db before now :
  audit_inv db →
  ∃ db' cut id done, pruneBatch db before now = Ok (db', Z.of_nat (length cut), id, done) ∧
    rows db = cut ++ rows db' ∧ Forall (λ r, Timestamp r < before) cut ∧ audit_inv db' ∧
    (rows db ≠ [] → rows db' ≠ []) ∧
    (if done : bool then prune_complete before (rows db') else cut ≠ []).
Proof.
  intros Hinv. pose proof (inv_ordered db Hinv) as Hord. unfold pruneBatch.
  destruct (rows db) as [|x0 l0] eqn:Hrows0.
  { exists db, [], 0, true. rewrite Hrows0. split_and!; done. }
  destruct (exists_last (l := x0 :: l0)) as (init & newest & Hrows); [done|]. rewrite Hrows in *. clear x0 l0 Hrows.
  assert (last_id (init ++ [newest]) 0 = ID newest) as -> by (unfold last_id; by rewrite last_snoc).
  rewrite filter_below_newest by done. unfold auditPruneBatchSize.
  destruct (older_prefix_spec before (take 1000 init)) as (rest & Hbatch & Hold & Hmax).
  set (cut := older_prefix before (take 1000 init)) in *.
  assert (init ++ [newest] = cut ++ (rest ++ drop 1000 init ++ [newest])) as Hsplit.
  { rewrite <-(take_drop 1000 init) at 1. rewrite Hbatch at 1. by rewrite <-!(assoc_L (++)). }
  assert (length (take 1000 init) = length cut + length rest)%nat as Hlen
    by (rewrite Hbatch at 1; apply length_app).
  destruct (last cut) as [l|] eqn:Hl.
  - rewrite Hsplit in Hord. destruct (filter_after_prefix _ _ _ Hord Hl) as (_ & Hle & Hgt).
    rewrite Hsplit, Hle, Hgt.
    assert (0 < length cut)%nat as Hpos by (destruct cut; [done|simpl; lia]).
    rewrite (proj2 (Z.eqb_neq (Z.of_nat (length cut)) 0)) by lia.
    assert (∃ previous, loadCheckpoint db = Ok previous) as [previous ->].
    { unfold loadCheckpoint. destruct (checkpoint db) as [c|] eqn:Hc; [|eauto].
      destruct (inv_signed db Hinv c Hc) as [<- _]. rewrite String.eqb_refl. eauto. }
    cbn [result_bind]. eexists _, cut, (ID l), _. split; [done|]. simpl rows.
    split; [done|]. split; [done|]. split.
    { eapply checkpoint_inv; [done| |by destruct rest, (drop 1000 init)|done..].
      by rewrite Hrows0, Hsplit. }
    split; [by destruct rest, (drop 1000 init)|].
    destruct (Nat.ltb_spec (length cut) (length (take 1000 init))) as [Hc|Hc]; simpl orb; cbv iota.
    + destruct rest as [|r rest]; [simpl in Hlen; lia|]. simpl. by left.
    + assert (rest = []) as -> by (apply length_zero_iff_nil; lia).
      destruct (Nat.ltb_spec (length (take 1000 init)) 1000) as [Hd|Hd]; [|by destruct cut].
      rewrite length_take in Hd. rewrite drop_ge by lia. simpl. by right.
  - apply last_None in Hl. exists db, [], 0, true. rewrite Hrows0.
    split_and!; try done. simpl.
    rewrite Hl in Hbatch. simpl in Hbatch.
    destruct init as [|r init]; [by right|]. simpl in Hbatch. subst rest. by left.
Qed.

Lemma prune_loop_spec fuel cancelled clock before i db res :
  audit_inv db → (length (rows db) < fuel)%nat →
  ∃ db' cut id err,
    prune_loop fuel cancelled clock before i db res =
      (db', {| Removed := Removed res + Z.of_nat (length cut); PruneLastID := id |}, err) ∧
    rows db = cut ++ rows db' ∧ Forall (λ r, Timestamp r < before) cut ∧ audit_inv db' ∧
    (rows db ≠ [] → rows db' ≠ []) ∧
    (err = None ∧ prune_complete before (rows db') ∨ err = Some ErrCancelled).
Proof.
  revert i db res. induction fuel as [|fuel IH]; intros i db res Hinv Hf; [lia|]. simpl.
  destruct (pruneBatch_spec db before (clock i) Hinv)
    as (db1 & cut1 & id1 & fin & -> & Hrows & Hold & Hinv1 & Hne1 & Hdone).
  destruct fin; [exists db1, cut1; eauto 10|].
  destruct (cancelled i); [exists db1, cut1; eauto 10|].
  destruct (IH (S i) db1 {| Removed := Removed res + Z.of_nat (length cut1);
              PruneLastID := if 0 <? id1 then id1 else PruneLastID res |} Hinv1)
    as (db2 & cut2 & id2 & err & -> & Hrows2 & Hold2 & Hinv2 & Hne2 & Herr).
  { rewrite Hrows, length_app in Hf. destruct cut1; [done|]. simpl in Hf. lia. }
  exists db2, (cut1 ++ cut2), id2, err. split; [|split; [|split; [|split; [done|split; [auto|done]]]]].
  - simpl. rewrite length_app. do 3 f_equal. lia.
  - by rewrite Hrows, Hrows2, (assoc_L (++)).
  - by apply Forall_app.
Qed.

(** ** Compaction *)

Lemma rechain_app p a b :
  rechain p (a ++ b) = rechain p a ++ rechain (chain_end p (rechain p a)) b.
Proof.
  revert p. induction a as [|r a IH]; intros p; [done|]. simpl.
  case_match; [apply IH|]. simpl. rewrite IH. do 3 f_equal.
  unfold chain_end. rewrite last_cons. by destruct (last _).
Qed.

Lemma rechain_ids p l : Forall (λ r, ∃ r', r' ∈ l ∧ ID r = ID r') (rechain p l).
Proof.
  revert p. induction l as [|r l IH]; intros p; simpl; [constructor|].
  assert (∀ p, Forall (λ r0, ∃ r', r' ∈ r :: l ∧ ID r0 = ID r') (rechain p l)) as H.
  { intros p'. eapply Forall_impl; [apply IH|]. intros x (y & ? & ?). exists y. set_solver. }
  case_match; [apply H|]. constructor; [|apply H]. exists r. set_solver.
Qed.

Lemma rechain_elem p l r : r ∈ rechain p l → ∃ r', r' ∈ l ∧ ID r = ID r'.
Proof. intros Hr. pose proof (rechain_ids p l) as Hf. rewrite Forall_forall in Hf. by apply Hf. Qed.

Lemma rechain_ordered p l : ordered l → ordered (rechain p l).
Proof.
  unfold ordered. intros Hl. revert p. induction Hl as [|r l Hl IH Hr]; intros p; simpl; [constructor|].
  case_match; [apply IH|]. constructor; [apply IH|].
  eapply Forall_impl; [apply rechain_ids|]. simpl. intros x (y & Hy & ->).
  by eapply Forall_forall in Hr.
Qed.

Lemma ordered_swap a r r' l : ID r = ID r' → ordered (a ++ r :: l) → ordered (a ++ r' :: l).
Proof.
  intros Hid. rewrite !ordered_app. intros (Ha & Hl & Hal). repeat split; [done| |].
  - inversion Hl; subst. constructor; [done|]. by rewrite <-Hid.
  - intros x y Hx [->|Hy]%elem_of_cons; [rewrite <-Hid|]; apply Hal; set_solver.
Qed.

Lemma ordered_other a r l x :
  ordered (a ++ r :: l) → x ∈ a ∨ x ∈ l → ID x ≠ ID r.
Proof.
  intros (_ & Hl & Hal)%ordered_app [Hx|Hx].
  - specialize (Hal x r Hx ltac:(set_solver)). lia.
  - inversion Hl as [|?? _ Hr]; subst. eapply Forall_forall in Hr; [|done]. simpl in Hr. lia.
Qed.

Lemma delete_row a r l : ordered (a ++ r :: l) → filter (λ x, ID x ≠ ID r) (a ++ r :: l) = a ++ l.
Proof.
  intros Ho. rewrite filter_app, filter_cons_False by tauto.
  rewrite !filter_all; [done|apply Forall_forall; intros x Hx; by eapply ordered_other; eauto..].
Qed.

Lemma update_row a r l p h :
  ordered (a ++ r :: l) →
  (λ x, if ID x =? ID r then with_hashes x p h else x) <$> (a ++ r :: l) = a ++ with_hashes r p h :: l.
Proof.
  intros Ho. rewrite fmap_app, fmap_cons, Z.eqb_refl.
  assert (∀ k : list AuditLog, (∀ x, x ∈ k → ID x ≠ ID r) →
    (λ x, if ID x =? ID r then with_hashes x p h else x) <$> k = k) as Hk.
  { intros k Hk. rewrite <-(list_fmap_id k) at 2. apply list_fmap_ext. intros i x Hx.
    rewrite (proj2 (Z.eqb_neq (ID x) (ID r))); [done|]. apply Hk. by eapply list_elem_of_lookup_2. }
  by rewrite !Hk by (intros x Hx; eapply ordered_other; eauto).
Qed.

Lemma compact_fold b a c p sc rm kp :
  ordered (a ++ b ++ c) →
  foldl compact_row {| c_rows := a ++ b ++ c; c_prev := p; c_scanned := sc; c_removed := rm; c_kept := kp |} b =
  {| c_rows := a ++ rechain p b ++ c; c_prev := chain_end p (rechain p b);
     c_scanned := sc + Z.of_nat (length b);
     c_removed := rm + Z.of_nat (length b) - Z.of_nat (length (rechain p b));
     c_kept := kp + Z.of_nat (length (rechain p b)) |}.
Proof.
  revert a p sc rm kp. induction b as [|r b IH]; intros a p sc rm kp Ho.
  { simpl. f_equal; lia. }
  cbn [foldl rechain app] in *. unfold compact_row at 2; cbn [c_rows c_prev c_scanned c_removed c_kept].
  destruct (auditRowIsAccessNoise r) eqn:Hnoise.
  - rewrite delete_row by done. rewrite IH; [f_equal; cbn [length]; lia|].
    apply ordered_app in Ho as (Ha & Hb & Hab). apply ordered_app. inversion Hb; subst.
    split_and!; [done|done|]. intros x y Hx Hy. apply Hab; [done | by constructor].
  - set (h := computeAuditHash p r). cbv zeta.
    assert ((if negb (String.eqb (PrevHash r) p) || negb (String.eqb (Hash r) h)
             then (λ x, if ID x =? ID r then with_hashes x p h else x) <$> a ++ r :: b ++ c
             else a ++ r :: b ++ c) = (a ++ [with_hashes r p h]) ++ b ++ c) as ->.
    { rewrite <-(assoc_L (++)). simpl. destruct (String.eqb_spec (PrevHash r) p) as [Hp|];
        [destruct (String.eqb_spec (Hash r) h) as [Hh|]|]; simpl; try by apply update_row.
      do 2 f_equal. rewrite <-Hp, <-Hh. by destruct r. }
    rewrite IH by (rewrite <-(assoc_L (++)); exact (ordered_swap a r (with_hashes r p h) (b ++ c) eq_refl Ho)).
    rewrite <-(assoc_L (++)). cbn [length app].
    f_equal; try lia. unfold chain_end. rewrite last_cons. by destruct (last _).
Qed.

Lemma compact_loop_spec fuel lastID don todo p sc rm kp :
  ordered (don ++ todo) → Forall (λ r, ID r ≤ lastID) don → Forall (λ r, lastID < ID r) todo →
  (length todo < fuel)%nat →
  compact_loop fuel lastID
    {| c_rows := don ++ todo; c_prev := p; c_scanned := sc; c_removed := rm; c_kept := kp |} =
  Some {| c_rows := don ++ rechain p todo; c_prev := chain_end p (rechain p todo);
     c_scanned := sc + Z.of_nat (length todo);
     c_removed := rm + Z.of_nat (length todo) - Z.of_nat (length (rechain p todo));
     c_kept := kp + Z.of_nat (length (rechain p todo)) |}.
Proof.
  revert lastID don todo p sc rm kp.
  induction fuel as [|fuel IH]; intros lastID don todo p sc rm kp Ho Hd Ht Hf; [lia|].
  cbn [compact_loop c_rows]. unfold rows_after, batchSize.
  rewrite filter_app, filter_none, filter_all by (first [done | eapply Forall_impl; [done|]; simpl; lia]).
  rewrite app_nil_l. pose proof (length_take todo 500) as Hlen.
  destruct (last (take 500 todo)) as [l|] eqn:Hl.
  2: { apply last_None in Hl. rewrite Hl. destruct todo; [|done]. simpl. do 2 f_equal; lia. }
  destruct (take 500 todo) as [|x b] eqn:Hb; [done|]. rewrite <-Hb in *. cbv iota. clear Hb x b.
  pose proof (take_drop 500 todo) as Htd. set (b := take 500 todo) in *. set (c := drop 500 todo) in *.
  rewrite <-Htd in Ho, Ht, Hf |- *. rewrite compact_fold by done.
  apply Forall_app in Ht as [Htb Htc].
  destruct (Nat.ltb_spec (length b) 500) as [Hlt|Hge].
  - assert (c = []) as -> by (apply drop_ge; lia). by rewrite !app_nil_r.
  - unfold last_id. rewrite Hl, (assoc_L (++) don).
    apply ordered_app in Ho as (Hod & Hobc & Hdbc).
    pose proof (proj1 (ordered_app b c) Hobc) as (Hob & Hoc & Hbc).
    pose proof (ordered_last _ _ Hob Hl) as Hle.
    assert (l ∈ b) as Hlb by (apply last_Some in Hl as [? Hl']; rewrite Hl'; set_solver).
    rewrite IH.
    + rewrite rechain_app, !length_app, <-(assoc_L (++)), chain_end_app. do 2 f_equal; lia.
    + rewrite <-(assoc_L (++)). apply ordered_app. split_and!; [done| |].
      * apply ordered_app. split_and!; [by apply rechain_ordered|done|].
        intros x y Hx Hy. destruct (rechain_elem _ _ _ Hx) as (x' & ? & ->). by apply Hbc.
      * intros x y Hx [Hy|Hy]%elem_of_app; [|apply Hdbc; set_solver].
        destruct (rechain_elem _ _ _ Hy) as (y' & ? & ->).
        apply Hdbc; set_solver.
    + apply Forall_app. split.
      * apply Forall_forall. intros x Hx. apply Z.lt_le_incl, Hdbc; set_solver.
      * eapply Forall_impl; [apply rechain_ids|]. intros x (x' & Hx' & ->). by eapply Forall_forall in Hle.
    + apply Forall_forall. intros y Hy. by apply Hbc.
    + rewrite length_app in Hf. lia.
Qed.

Lemma Compact_result db :
  ordered (rows db) → Forall (λ r, 0 < ID r) (rows db) →
  let out := rechain "" (rows db) in
  Compact db = Ok ({| rows := out; nextID := nextID db; checkpoint := None |},
    {| Scanned := Z.of_nat (length (rows db));
       CRemoved := Z.of_nat (length (rows db)) - Z.of_nat (length out);
       Kept := Z.of_nat (length out); CLatestHash := chain_end "" out |}).
Proof.
  intros Ho Hpos out. unfold Compact, deleteAuditCheckpoint. cbn [rows].
  pose proof (compact_loop_spec (S (length (rows db))) 0 [] (rows db) "" 0 0 0 Ho) as H.
  cbn [app] in H. rewrite H by (first [done | constructor | lia]). done.
Qed.

Lemma PruneBefore_spec cancelled clock db before db' res err :
  audit_inv db → PruneBefore cancelled clock db before = (db', res, err) →
  ∃ cut, rows db = cut ++ rows db' ∧ Forall (λ r, Timestamp r < before) cut ∧
    Removed res = Z.of_nat (length cut) ∧ audit_inv db' ∧
    (rows db ≠ [] → rows db' ≠ []) ∧
    (err = None ∧ prune_complete before (rows db') ∨ err = Some ErrCancelled).
Proof.
  intros Hinv Hp. unfold PruneBefore in Hp.
  destruct (prune_loop_spec (S (length (rows db))) cancelled clock before 0 db
              {| Removed := 0; PruneLastID := 0 |} Hinv ltac:(lia))
    as (db1 & cut & id & err1 & Heq & Hrows & Hold & Hinv1 & Hne & Herr).
  rewrite Heq in Hp. simplify_eq. exists cut. split_and!; done.
Qed.

Lemma Compact_inv db db' res :
  ordered (rows db) → Forall (λ r, 0 < ID r < nextID db) (rows db) → 0 < nextID db →
  Compact db = Ok (db', res) → audit_inv db'.
Proof.
  intros Ho Hids Hn HC. rewrite Compact_result in HC; [|done|eapply Forall_impl; [done|]; simpl; lia].
  simplify_eq. split; simpl; try done.
  - by apply rechain_ordered.
  - eapply Forall_impl; [apply rechain_ids|]. simpl. intros x (y & Hy & ->).
    by eapply Forall_forall in Hids.
  - eexists. apply rechain_verifies.
Qed.

Lemma audit_step_inv db db' : audit_step db db' → audit_inv db → audit_inv db'.
Proof.
  intros [? ?|? ?|? ? ? ? ? ? ? Hp|? ? ? Hc] Hinv; auto using Create_inv, CreateBatch_inv.
  - by destruct (PruneBefore_spec _ _ _ _ _ _ _ Hinv Hp) as (? & _ & _ & _ & ? & _).
  - eapply Compact_inv; [apply Hinv| |apply Hinv|done].
    pose proof (inv_anchor _ Hinv). eapply Forall_impl; [apply Hinv|]. simpl. lia.
Qed.

Lemma emptyAuditDB_inv : audit_inv emptyAuditDB.
Proof. split; simpl; try done; try constructor. by exists "". Qed.

(** ** What a hash commits to *)

Lemma ValidString_ascii s : string_all (λ a, negb (high a)) s = true → ValidString s = true.
Proof.
  induction s as [|a s IH]; [done|]. simpl. intros [Ha Hs]%andb_true_iff.
  change (String a s) with (String a "" +:+ s). rewrite ValidString_app_rune; [by apply IH|].
  simpl. unfold high in Ha. rewrite <-N.ltb_antisym in Ha. by rewrite Ha.
Qed.

Lemma hex_pair c :
  high (hex_digit (byte c / 16)) = false ∧ high (hex_digit (byte c mod 16)) = false ∧
  ascii_of_N (16 * hex_value (hex_digit (byte c / 16)) + hex_value (hex_digit (byte c mod 16))) = c.
Proof. by destruct c as [[] [] [] [] [] [] [] []]. Qed.

Lemma hex_encode_valid s : ValidString (hex_encode s) = true.
Proof.
  apply ValidString_ascii. induction s as [|c s IH]; [done|].
  cbn [hex_encode string_all]. destruct (hex_pair c) as (-> & -> & _). by rewrite IH.
Qed.

Lemma hex_encode_inj s s' : hex_encode s = hex_encode s' → s = s'.
Proof.
  revert s'. induction s as [|c s IH]; intros [|c' s'] H; try done. cbn [hex_encode] in H.
  pose proof (hex_pair c) as (_ & _ & Hc). pose proof (hex_pair c') as (_ & _ & Hc').
  injection H as H1 H2 H3. rewrite H1, H2, Hc' in Hc. rewrite <-Hc. f_equal. auto.
Qed.

Definition ascii_only (s : string) : Prop := string_all (λ a, negb (high a)) s = true.

Lemma ascii_app s t : ascii_only s → ascii_only t → ascii_only (s +:+ t).
Proof. unfold ascii_only. intros Hs Ht. by rewrite string_all_app, Hs, Ht. Qed.

Lemma ascii_FormatInt n : ascii_only (FormatInt n).
Proof.
  eapply string_all_impl; [|apply FormatInt_bytes].
  intros a. destruct a as [[] [] [] [] [] [] [] []]; intros H; by try discriminate H.
Qed.

Lemma ascii_TrimRight s c : ascii_only s → ascii_only (TrimRight s c).
Proof.
  unfold ascii_only, TrimRight. induction s as [|a s IH]; [done|]. simpl. intros [Ha Hs]%andb_true_iff.
  specialize (IH Hs). destruct (TrimRightFunc (Ascii.eqb c) s) as [|b t] eqn:Ht; simpl in *.
  - case_match; simpl; by rewrite ?Ha.
  - by rewrite Ha, IH.
Qed.

Lemma ascii_pad w n : ascii_only (pad w n).
Proof.
  unfold pad. apply ascii_app; [by case_match|]. apply ascii_app; [|apply ascii_FormatInt].
  generalize (w - String.length (FormatInt (Z.abs n)))%nat as k. by induction k.
Qed.

Lemma RFC3339Nano_valid t : ValidString (RFC3339Nano t) = true.
Proof.
  apply ValidString_ascii. unfold RFC3339Nano. destruct (civil_from_days _) as [[y m] d].
  repeat first [apply ascii_pad | apply ascii_TrimRight | case_match | done | apply ascii_app].
Qed.

(** The content a hash commits to: every column but the id, the timestamp as the
    text that is signed. *)
Definition signed_content (p : string) (r : AuditLog) :=
  (p, RFC3339Nano (Timestamp r), audit_strings r, UserID r, ResourceID r, StatusCode r, LatencyMs r).

Definition valid_row (r : AuditLog) : Prop := auditLogHasInvalidUTF8 r = false.

Lemma valid_row_strings r v : valid_row r → v ∈ audit_strings r → ValidString v = true.
Proof.
  intros Hr Hv. unfold valid_row, auditLogHasInvalidUTF8 in Hr.
  rewrite existsb_false_elem in Hr. specialize (Hr v Hv). by apply negb_false_iff.
Qed.

Lemma clean_valid v rep : ValidString v = true → replaceInvalidUTF8 v rep = v.
Proof. unfold replaceInvalidUTF8. by intros ->. Qed.

Lemma peel_int n n' r r' :
  FormatInt n +:+ "," +:+ r = FormatInt n' +:+ "," +:+ r' → n = n' ∧ "," +:+ r = "," +:+ r'.
Proof. intros H. by apply json_int_inj in H. Qed.

Lemma peel_optional n n' r r' :
  json_optional n +:+ "," +:+ r = json_optional n' +:+ "," +:+ r' → n = n' ∧ "," +:+ r = "," +:+ r'.
Proof. intros H. by apply json_optional_delim_inj in H. Qed.

Lemma peel_last n n' : json_optional n +:+ "}" = json_optional n' +:+ "}" → n = n'.
Proof. intros H. by apply json_optional_delim_inj in H as [? _]. Qed.

Ltac peel Heq :=
  repeat first
    [ apply json_string_inj in Heq as [? Heq]; [|by auto..]
    | apply peel_int in Heq as [? Heq]
    | apply peel_optional in Heq as [? Heq]
    | apply peel_last in Heq
    | apply string_app_inj_l in Heq ].

Lemma auditHashPayload_inj p p' r r' :
  ValidString p = true → ValidString p' = true → valid_row r → valid_row r' →
  auditHashPayload p r RuneError = auditHashPayload p' r' RuneError →
  signed_content p r = signed_content p' r'.
Proof.
  intros Hp Hp' Hr Hr' Heq.
  assert (∀ v, v ∈ audit_strings r → ValidString v = true) as Hv by eauto using valid_row_strings.
  assert (∀ v, v ∈ audit_strings r' → ValidString v = true) as Hv' by eauto using valid_row_strings.
  unfold audit_strings in Hv, Hv'. rewrite <-Forall_forall in Hv, Hv'.
  repeat (apply Forall_cons in Hv as [? Hv]). repeat (apply Forall_cons in Hv' as [? Hv']).
  pose proof (RFC3339Nano_valid (Timestamp r)). pose proof (RFC3339Nano_valid (Timestamp r')).
  unfold auditHashPayload in Heq. cbv zeta in Heq. rewrite !clean_valid in Heq by done.
  peel Heq. unfold signed_content, audit_strings. congruence.
Qed.

Lemma verify_snoc p l r h :
  verifyAuditChainSegment p (l ++ [r]) = Ok h → valid_row r →
  verifyAuditChainSegment p l = Ok (PrevHash r) ∧ h = Hash r ∧ Hash r = computeAuditHash (PrevHash r) r.
Proof.
  rewrite verify_app. destruct (verifyAuditChainSegment p l) as [q|] eqn:Hl; [|done].
  cbn [result_bind verifyAuditChainSegment]. intros Hv Hr. rewrite Hr in Hv. cbn [negb orb] in Hv.
  destruct (String.eqb_spec (PrevHash r) q) as [<-|]; [|done].
  destruct (String.eqb_spec (Hash r) (computeAuditHash (PrevHash r) r)) as [Heq|]; [|done].
  simpl in Hv. by simplify_eq.
Qed.

Lemma chain_end_valid l h :
  verifyAuditChainSegment "" l = Ok h → Forall valid_row l → ValidString h = true.
Proof.
  destruct l as [|r l _] using rev_ind; [by intros [= <-]|].
  intros Hv [_ [Hr _]%Forall_cons]%Forall_app. destruct (verify_snoc _ _ _ _ Hv Hr) as (_ & -> & ->).
  apply hex_encode_valid.
Qed.

Definition same_row (r r' : AuditLog) : Prop :=
  signed_content (PrevHash r) r = signed_content (PrevHash r') r' ∧ Hash r = Hash r'.

(** The message that is signed for a row. *)
Definition signed_message (r : AuditLog) : string := auditHashPayload (PrevHash r) r RuneError.

(** A row of the one log and a row of the other were signed for different messages that have one HMAC. *)
Definition hmac_collision (l l' : list AuditLog) : Prop :=
  ∃ r r', r ∈ l ∧ r' ∈ l' ∧ signed_message r ≠ signed_message r' ∧
    hmac_sha256 hmacKey (signed_message r) = hmac_sha256 hmacKey (signed_message r').

Lemma segment_tamper_evident l l' h :
  (∀ m, String.length (hmac_sha256 hmacKey m) = 32%nat) →
  Forall valid_row l → Forall valid_row l' →
  verifyAuditChainSegment "" l = Ok h → verifyAuditChainSegment "" l' = Ok h →
  Forall2 same_row l l' ∨ hmac_collision l l'.
Proof.
  intros Hmac. revert l' h. induction l as [|r l IH] using rev_ind; intros l' h Hf Hf' Hv Hv'.
  - destruct l' as [|r' l' _] using rev_ind; [by left|].
    apply Forall_app in Hf' as [_ [Hr' _]%Forall_cons].
    destruct (verify_snoc _ _ _ _ Hv' Hr') as (_ & Hh & He). injection Hv as <-.
    rewrite <-Hh in He. unfold computeAuditHash, signAuditPayload in He.
    pose proof (Hmac (auditHashPayload (PrevHash r') r' RuneError)) as Hl.
    by destruct (hmac_sha256 hmacKey _).
  - apply Forall_app in Hf as [Hf [Hr _]%Forall_cons].
    destruct (verify_snoc _ _ _ _ Hv Hr) as (Hvl & -> & He).
    destruct l' as [|r' l' _] using rev_ind.
    { injection Hv' as Hh. rewrite <-Hh in He. unfold computeAuditHash, signAuditPayload in He.
      pose proof (Hmac (auditHashPayload (PrevHash r) r RuneError)) as Hl.
      by destruct (hmac_sha256 hmacKey _). }
    apply Forall_app in Hf' as [Hf' [Hr' _]%Forall_cons].
    destruct (verify_snoc _ _ _ _ Hv' Hr') as (Hvl' & Hh & He').
    assert (computeAuditHash (PrevHash r) r = computeAuditHash (PrevHash r') r') as Hsame by congruence.
    apply hex_encode_inj in Hsame.
    destruct (decide (signed_message r = signed_message r')) as [Hpay|Hne].
    2:{ right. exists r, r'. split_and!; [set_solver..|done|done]. }
    apply auditHashPayload_inj in Hpay; [|eauto using chain_end_valid..].
    assert (PrevHash r = PrevHash r') as Hprev by (by injection Hpay).
    rewrite <-Hprev in Hvl'. destruct (IH l' _ Hf Hf' Hvl Hvl') as [Hall|(x & x' & Hx & Hx' & Hcol)].
    2:{ right. exists x, x'. split_and!; [set_solver..|apply Hcol|apply Hcol]. }
    left. apply Forall2_app; [done|]. constructor; [|constructor]. by split.
Qed.

(** ** Rows are stored sanitized *)

Lemma replaceInvalidUTF8_valid v : ValidString (replaceInvalidUTF8 v RuneError) = true.
Proof.
  unfold replaceInvalidUTF8. destruct (ValidString v) eqn:Hv; [done|]. clear Hv.
  apply (chunks_ind (λ _ l, ValidString
    (concat_strings ((λ c : bool * string, if c.1 then c.2 else RuneError) <$> l)) = true)); [done|].
  intros b t s _ Hr IH. rewrite fmap_cons.
  set (tail := (λ c : bool * string, if c.1 then c.2 else RuneError) <$> chunks s) in *.
  change (ValidString ((if b then t else RuneError) +:+ concat_strings tail) = true).
  rewrite ValidString_app_rune; [done|]. destruct b; [by apply Hr|done].
Qed.

Lemma sanitize_valid item : valid_row (sanitizeAuditLog item).
Proof.
  unfold valid_row, auditLogHasInvalidUTF8, audit_strings, sanitizeAuditLog. simpl.
  by rewrite !replaceInvalidUTF8_valid.
Qed.

Lemma insert_rows_rows items db :
  ∃ rs, rows (foldl insert_row db items) = rows db ++ rs ∧
    (Forall valid_row items → Forall valid_row rs).
Proof.
  revert db. induction items as [|i items IH]; intros db; simpl; [exists []; by rewrite app_nil_r|].
  destruct (IH (insert_row db i)) as (rs & Hrs & Hval).
  exists (stored_row i (nextID db) :: rs). rewrite Hrs. simpl. rewrite <-(assoc_L (++)). split; [done|].
  intros [? ?]%Forall_cons. constructor; auto.
Qed.

Lemma sign_batch_valid items p : Forall valid_row (sign_batch p items).
Proof.
  revert p. induction items as [|i items IH]; intros p; constructor; [apply (sanitize_valid i) | apply IH].
Qed.

Lemma rechain_valid l p : Forall valid_row l → Forall valid_row (rechain p l).
Proof.
  intros Hl. revert p. induction Hl as [|r l Hr Hl IH]; intros p; simpl; [constructor|].
  case_match; [apply IH|]. constructor; [exact Hr | apply IH].
Qed.

Lemma audit_step_valid db db' :
  audit_step db db' → audit_inv db → Forall valid_row (rows db) → Forall valid_row (rows db').
Proof.
  intros Hstep Hinv Hval. destruct Hstep as [? i|? items|? ? ? ? ? ? ? Hp|? ? ? Hc].
  - apply Forall_app. split; [done|]. repeat constructor. apply (sanitize_valid i).
  - destruct items as [|i items]; [done|].
    destruct (insert_rows_rows (sign_batch (latestAuditHash db) (i :: items)) db) as (rs & Hrs & Hv).
    cbn [CreateBatch]. rewrite Hrs. apply Forall_app. split; [done|]. apply Hv, sign_batch_valid.
  - destruct (PruneBefore_spec _ _ _ _ _ _ _ Hinv Hp) as (cut & Hrows & _).
    rewrite Hrows in Hval. by apply Forall_app in Hval as [_ ?].
  - pose proof (inv_anchor _ Hinv).
    rewrite Compact_result in Hc; [|apply Hinv|eapply Forall_impl; [apply Hinv|]; simpl; lia].
    simplify_eq. by apply rechain_valid.
Qed.

Lemma unanchored_verify db res :
  checkpoint db = None → ordered (rows db) → Forall (λ r, 0 < ID r) (rows db) →
  VerifyChain db = Ok res → verifyAuditChainSegment "" (rows db) = Ok (LatestHash res).
Proof.
  intros Hc Ho Hpos. unfold VerifyChain, loadCheckpoint. rewrite Hc. cbn [result_bind].
  rewrite verify_loop_spec by (first [done | rewrite filter_all by done; lia]).
  rewrite filter_all by done.
  destruct (verifyAuditChainSegment "" (rows db)) as [h|]; simpl; intros H; by simplify_eq.
Qed.

Lemma rechain_content p l :
  (λ r, with_hashes r "" "") <$> rechain p l =
  (λ r, with_hashes r "" "") <$> filter (λ r, auditRowIsAccessNoise r = false) l.
Proof.
  revert p. induction l as [|r l IH]; intros p; [done|]. cbn [rechain]. rewrite filter_cons.
  destruct (auditRowIsAccessNoise r); [by rewrite decide_False|].
  rewrite decide_True by done. rewrite !fmap_cons. by rewrite IH.
Qed.

(** * Theorems *)

(** C14 Every history of writes, batches, retention runs (cancelled ones included) and compactions from the empty table, one after
    another and with timestamps the column of the database gives back as they were signed, leaves a log that [VerifyChain] accepts
    whole, with every row in valid UTF-8.  Both conditions are needed: [rounded_timestamp_breaks_chain] is what a
    column without nanoseconds does (PostgreSQL), [concurrent_writes_fork_chain] what two writes at once do. *)
Theorem audit_history_verifies db :
  rtc audit_step emptyAuditDB db →
  Forall valid_row (rows db) ∧
  ∃ res, VerifyChain db = Ok res ∧ Verified res = Z.of_nat (length (rows db)) ∧
    LatestHash res = chain_end (anchor db).1 (rows db).
Proof.
  intros Hsteps.
  assert (audit_inv db ∧ Forall valid_row (rows db)) as [Hinv Hval].
  { revert db Hsteps. apply rtc_ind_r.
    - split; [apply emptyAuditDB_inv | constructor].
    - intros a b _ Hstep [Ha Hv]. eauto using audit_step_inv, audit_step_valid. }
  split; [done|]. eexists. split; [by apply inv_verifies|]. done.
Qed.

(** C2 Two logs without a checkpoint, in valid UTF-8, that [VerifyChain] accepts with the same latest hash hold the same rows in the
    same order, in every column that is signed (all but the id; the timestamp as the text that is signed), unless some row of
    the one and some row of the other were signed for two different messages that have the same HMAC: altering, inserting, removing or
    reordering rows takes such a collision between two messages that are at hand. *)
Theorem audit_tamper_evident db db' res res' :
  (∀ m, String.length (hmac_sha256 hmacKey m) = 32%nat) →
  checkpoint db = None → checkpoint db' = None →
  ordered (rows db) → ordered (rows db') →
  Forall (λ r, 0 < ID r ∧ valid_row r) (rows db) → Forall (λ r, 0 < ID r ∧ valid_row r) (rows db') →
  VerifyChain db = Ok res → VerifyChain db' = Ok res' → LatestHash res = LatestHash res' →
  Forall2 same_row (rows db) (rows db') ∨ hmac_collision (rows db) (rows db').
Proof.
  intros Hmac Hc Hc' Ho Ho' Hf Hf' Hv Hv' Heq.
  apply Forall_and in Hf as [Hid Hval]. apply Forall_and in Hf' as [Hid' Hval'].
  eapply segment_tamper_evident; eauto using unanchored_verify.
  rewrite Heq. by apply unanchored_verify.
Qed.

(** Writing a batch is writing its items one by one. *)
Theorem CreateBatch_is_Create db items : CreateBatch db items = foldl Create db items.
Proof.
  assert (foldl insert_row db (sign_batch (latestAuditHash db) items) = foldl Create db items) as H.
  { revert db. induction items as [|i items IH]; intros db; [done|]. cbn [sign_batch foldl].
    rewrite <-IH. unfold Create, create_after at 2. by rewrite insert_row_latest. }
  by destruct items.
Qed.

(** Where the column rounds a timestamp that was signed in nanoseconds, the row that was just written does not verify, unless the
    messages before and after the rounding have one HMAC. *)
Theorem rounded_timestamp_breaks_chain db item :
  audit_inv db →
  let written := sanitizeAuditLog item in
  let read := with_time written (stored_time (Timestamp item)) in
  computeAuditHash (latestAuditHash db) read ≠ computeAuditHash (latestAuditHash db) written →
  VerifyChain (Create db item) = Err (ErrHashMismatch (nextID db)).
Proof.
  intros Hinv written read Hne. apply insert_row_refused; [done|]. set (r := stored_row _ _).
  assert (PrevHash r = latestAuditHash db) as Hp by done. assert (Hash r = computeAuditHash (latestAuditHash db) written) as Hh by done.
  assert (computeAuditHash (latestAuditHash db) r = computeAuditHash (latestAuditHash db) read) as Hc by done.
  assert (auditLogHasInvalidUTF8 r = false) as Hv by exact (sanitize_valid item).
  cbn [verifyAuditChainSegment]. rewrite Hp, Hh, Hc, Hv, String.eqb_refl. cbn [negb orb]. rewrite andb_true_r.
  destruct (String.eqb_spec (computeAuditHash (latestAuditHash db) written) (computeAuditHash (latestAuditHash db) read)) as [Heq|]; [by rewrite Heq in Hne|done].
Qed.

(** Two writes that read the same latest hash both extend it: the second row does not follow the first, and the log verifies no more. *)
Theorem concurrent_writes_fork_chain db a b :
  audit_inv db → time_kept a →
  let prevHash := latestAuditHash db in
  computeAuditHash prevHash (sanitizeAuditLog a) ≠ prevHash →
  VerifyChain (create_after prevHash (create_after prevHash db a) b) = Err (ErrChainMismatch (nextID db + 1)).
Proof.
  intros Hinv Ht prevHash Hne. apply insert_row_refused; [by apply Create_inv|].
  cbn [verifyAuditChainSegment stored_row PrevHash with_id with_time with_hashes]. unfold create_after at 1. rewrite insert_row_latest.
  cbn [Hash with_hashes]. destruct (String.eqb_spec prevHash (computeAuditHash prevHash (sanitizeAuditLog a))); [by destruct Hne|done].
Qed.

(** C24 Retention removes a prefix of the log, only rows older than the limit, never
    the newest row, counts what it removed, and stops early only when cancelled;
    the rest still verifies against the checkpoint it leaves. *)
Theorem PruneBefore_prefix cancelled clock db before db' res err :
  audit_inv db → PruneBefore cancelled clock db before = (db', res, err) →
  ∃ cut chain, rows db = cut ++ rows db' ∧ Forall (λ r, Timestamp r < before) cut ∧
    Removed res = Z.of_nat (length cut) ∧ (rows db ≠ [] → rows db' ≠ []) ∧
    VerifyChain db' = Ok chain ∧ Verified chain = Z.of_nat (length (rows db')) ∧
    (err = None ∧ prune_complete before (rows db') ∨ err = Some ErrCancelled).
Proof.
  intros Hinv Hp. destruct (PruneBefore_spec _ _ _ _ _ _ _ Hinv Hp) as (cut & H1 & H2 & H3 & Hinv' & H4 & H5).
  exists cut. eexists. split_and!; [done..|by apply inv_verifies|done|done].
Qed.

(** Compaction, run batch by batch on the table it changes, keeps exactly the rows
    that are not access noise, in order and with their content, and signs them anew;
    the result verifies whatever the hashes were before. *)
Theorem Compact_rechains db :
  ordered (rows db) → Forall (λ r, 0 < ID r < nextID db) (rows db) → 0 < nextID db →
  ∃ db' res chain, Compact db = Ok (db', res) ∧
    (λ r, with_hashes r "" "") <$> rows db' =
      (λ r, with_hashes r "" "") <$> filter (λ r, auditRowIsAccessNoise r = false) (rows db) ∧
    Scanned res = Z.of_nat (length (rows db)) ∧ CRemoved res + Kept res = Scanned res ∧
    Kept res = Z.of_nat (length (rows db')) ∧
    VerifyChain db' = Ok chain ∧ Verified chain = Kept res ∧ LatestHash chain = CLatestHash res.
Proof.
  intros Ho Hids Hn.
  assert (Forall (λ r, 0 < ID r) (rows db)) as Hpos by (eapply Forall_impl; [done|]; simpl; lia).
  pose proof (Compact_result db Ho Hpos) as HC. cbv zeta in HC.
  pose proof (Compact_inv db _ _ Ho Hids Hn HC) as Hinv.
  do 3 eexists. split; [exact HC|].
  split; [|split_and!; simpl; [lia|lia|lia|by apply inv_verifies|done|done]].
  apply rechain_content.
Qed.
End operations.

(** * Witnesses *)

(** A stand-in for the MAC: the first 32 bytes of the message. *)
Fixpoint first_bytes (n : nat) (s : string) : string :=
  match n, s with
  | O, _ => ""
  | S n, "" => String "0" (first_bytes n "")
  | S n, String c s => String c (first_bytes n s)
  end.

Lemma first_bytes_length n s : String.length (first_bytes n s) = n.
Proof. revert s. induction n as [|n IH]; intros [|c s]; simpl; [done..|by rewrite IH|by rewrite IH]. Qed.

Definition sample_mac (key message : string) : string := first_bytes 32 message.
Definition sample_outcome (details : string) : option (string * string) :=
  if String.eqb details "denied" then Some ("denied", "authz") else None.

Definition sample_log (action : string) (ts : Z) : AuditLog :=
  {| ID := 0; Timestamp := ts; RequestID := "r1"; UserID := Some 7%Z; Action := action;
     ResourceType := "user"; ResourceID := None; Method := "POST"; Host := "admin.example.com";
     Path := "/api/v1/login"; StatusCode := 200; LatencyMs := 3; RemoteAddr := "192.0.2.1";
     UserAgent := "curl"; Details := ""; PrevHash := ""; Hash := "" |}.

Definition sample_db : AuditDB :=
  CreateBatch sample_mac "k" (λ t, t) emptyAuditDB [sample_log "login" 0; sample_log "proxy_access" 10; sample_log "logout" 20].

Lemma audit_history_verifies_witness :
  ∃ res, VerifyChain sample_mac "k" sample_db = Ok res ∧ Verified res = 3%Z.
Proof.
  destruct (audit_history_verifies sample_mac sample_outcome "k" (λ t, t) sample_db) as (_ & res & Hv & Hn & _).
  - apply rtc_once. constructor. repeat constructor.
  - exists res. split; [exact Hv|]. rewrite Hn. reflexivity.
Defined.

Lemma audit_tamper_evident_witness :
  Forall2 same_row (rows sample_db) (rows sample_db) ∨ hmac_collision sample_mac "k" (rows sample_db) (rows sample_db).
Proof.
  assert (ordered (rows sample_db)) as Ho.
  { repeat constructor; vm_compute; reflexivity. }
  assert (Forall (λ r, (0 < ID r)%Z ∧ valid_row r) (rows sample_db)) as Hf.
  { repeat constructor; vm_compute; reflexivity. }
  eapply (audit_tamper_evident sample_mac sample_outcome "k" (λ t, t) sample_db sample_db).
  - intros m. apply first_bytes_length.
  - reflexivity.
  - reflexivity.
  - exact Ho.
  - exact Ho.
  - exact Hf.
  - exact Hf.
  - vm_compute. reflexivity.
  - vm_compute. reflexivity.
  - reflexivity.
Defined.

Lemma PruneBefore_prefix_witness :
  ∃ cut, rows sample_db = cut ++ rows (PruneBefore sample_mac "k" (λ _, false) (λ _, 0%Z) sample_db 15).1.1.
Proof.
  destruct (PruneBefore_prefix sample_mac sample_outcome "k" (λ t, t) (λ _, false) (λ _, 0%Z) sample_db 15
              (PruneBefore sample_mac "k" (λ _, false) (λ _, 0%Z) sample_db 15).1.1
              (PruneBefore sample_mac "k" (λ _, false) (λ _, 0%Z) sample_db 15).1.2
              (PruneBefore sample_mac "k" (λ _, false) (λ _, 0%Z) sample_db 15).2) as (cut & _ & Hrows & _).
  - apply CreateBatch_inv; [apply emptyAuditDB_inv|repeat constructor].
  - destruct (PruneBefore sample_mac "k" (λ _, false) (λ _, 0%Z) sample_db 15) as [[? ?] ?]. reflexivity.
  - exists cut. exact Hrows.
Defined.

Lemma Compact_rechains_witness :
  ∃ db' res, Compact sample_mac sample_outcome "k" sample_db = Ok (db', res) ∧ Scanned res = 3%Z.
Proof.
  destruct (Compact_rechains sample_mac sample_outcome "k" (λ t, t) sample_db)
    as (db' & res & chain & HC & _ & Hs & _).
  - repeat constructor; vm_compute; reflexivity.
  - repeat constructor; vm_compute; reflexivity.
  - vm_compute. reflexivity.
  - exists db', res. split; [exact HC|]. rewrite Hs. reflexivity.
Defined.

(** PostgreSQL keeps microseconds. *)
Definition postgres_time (t : Z) : Z := (t / 1000 * 1000)%Z.
(** A stand-in for the MAC that keeps the whole message. *)
Definition long_mac (key message : string) : string := message.

Lemma rounded_timestamp_breaks_chain_witness :
  VerifyChain long_mac "k" (Create long_mac "k" postgres_time emptyAuditDB (sample_log "login" 1234567)) = Err (ErrHashMismatch 1) ∧
  is_ok (VerifyChain long_mac "k" (Create long_mac "k" postgres_time emptyAuditDB (sample_log "login" 1234000))) = true.
Proof.
  split; [|vm_compute; reflexivity].
  apply (rounded_timestamp_breaks_chain long_mac sample_outcome "k" postgres_time emptyAuditDB (sample_log "login" 1234567)).
  - apply emptyAuditDB_inv.
  - vm_compute. discriminate.
Defined.

Lemma concurrent_writes_fork_chain_witness :
  VerifyChain sample_mac "k" (create_after sample_mac "k" (λ t, t) "" (create_after sample_mac "k" (λ t, t) "" emptyAuditDB (sample_log "login" 0))
    (sample_log "logout" 1)) = Err (ErrChainMismatch 2).
Proof.
  apply (concurrent_writes_fork_chain sample_mac sample_outcome "k" (λ t, t) emptyAuditDB (sample_log "login" 0) (sample_log "logout" 1)).
  - apply emptyAuditDB_inv.
  - reflexivity.
  - vm_compute. discriminate.
Defined.
