(* ===== verification/Resilience.v ===== *)
(** Three small state machines of internal/proxy that bound what the proxy does under
    stress: the throttle on denial records (denial_throttle.go), the circuit breaker of
    a target ([isTargetDegraded], [recordTargetFailure], [recordTargetSuccess] in
    transport.go) and the retrying transport ([RoundTrip] there).

    Each is related to the history of the calls made on it. *)
From S2P Require Import Prelude GoStrings.

#[local] Open Scope Z_scope.

(** * The denial throttle *)

Module Throttle.

Record denialThrottle := {
  window : Z;
  limit : Z;
  windowStart : Z;
  written : Z;
  current : gmap string Z;
  previous : gmap string Z;
}.

(** [time.Time{}], the first instant of the year 1, and [Sub], which saturates. *)
Definition zeroTime : Z := -62135596800 * Second.
Definition maxDuration : Z := 2 ^ 63 - 1.
Definition Sub (t u : Z) : Z := Z.max (- 2 ^ 63) (Z.min maxDuration (t - u)).

Definition newDenialThrottle (window limit : Z) : denialThrottle :=
  {| window := window; limit := limit; windowStart := zeroTime; written := 0;
     current := ∅; previous := ∅ |}.

(** The start of a new window. *)
Definition roll (t : denialThrottle) (now : Z) : denialThrottle :=
  if window t <=? Sub now (windowStart t) then
    {| window := window t; limit := limit t; windowStart := now; written := 0; current := ∅;
       previous := if Sub now (windowStart t) <? 2 * window t
                   then filter (λ kv, 0 < kv.2) (current t) else ∅ |}
  else t.

Definition allow (t0 : denialThrottle) (key : string) (now : Z) : bool * Z * denialThrottle :=
  let t := roll t0 now in
  match current t !! key with
  | Some n =>
      (false, 0, {| window := window t; limit := limit t; windowStart := windowStart t; written := written t;
                    current := <[key := n + 1]> (current t); previous := previous t |})
  | None =>
      if limit t <=? written t then (false, 0, t)
      else
        (true, default 0 (previous t !! key),
         {| window := window t; limit := limit t; windowStart := windowStart t; written := written t + 1;
            current := <[key := 0]> (current t); previous := delete key (previous t) |})
  end.

(** ** Specification: the calls of the current window and of the one before. *)

(** The calls of a key that were suppressed after the one that was written. *)
Fixpoint suppressed_after (key : string) (events : list (string * bool)) : option Z :=
  match events with
  | [] => None
  | (k, b) :: rest =>
      if decide (k = key ∧ b = true)
      then Some (Z.of_nat (length (filter (λ e, e = (key, false)) rest)))
      else suppressed_after key rest
  end.

Record history := {
  h_start : Z;                          (* start of the window *)
  h_events : list (string * bool);      (* its calls and their verdicts *)
  h_before : list (string * bool);      (* the calls of the adjacent window before *)
}.

Definition granted (events : list (string * bool)) : list string :=
  fst <$> filter (λ e, e.2 = true) events.

Definition spec_roll (w : Z) (h : history) (now : Z) : history :=
  if w <=? Sub now (h_start h) then
    {| h_start := now; h_events := [];
       h_before := if Sub now (h_start h) <? 2 * w then h_events h else [] |}
  else h.

(** A record is written for the first call of a key in a window while the budget
    lasts; it carries the number of calls suppressed in the window before. *)
Definition spec_allow (w lim : Z) (h0 : history) (key : string) (now : Z) : bool * Z * history :=
  let h := spec_roll w h0 now in
  let ok := bool_decide (key ∉ granted (h_events h)) && (Z.of_nat (length (granted (h_events h))) <? lim) in
  (ok, if ok then default 0 (suppressed_after key (h_before h)) else 0,
   {| h_start := h_start h; h_events := h_events h ++ [(key, ok)]; h_before := h_before h |}).

Fixpoint run (t : denialThrottle) (calls : list (string * Z)) : list (bool * Z) :=
  match calls with
  | [] => []
  | (key, now) :: calls' =>
      let '(ok, n, t') := allow t key now in (ok, n) :: run t' calls'
  end.

Fixpoint spec_run (w lim : Z) (h : history) (calls : list (string * Z)) : list (bool * Z) :=
  match calls with
  | [] => []
  | (key, now) :: calls' =>
      let '(ok, n, h') := spec_allow w lim h key now in (ok, n) :: spec_run w lim h' calls'
  end.

Definition no_history : history := {| h_start := zeroTime; h_events := []; h_before := [] |}.

(** ** Lemmas *)

Lemma granted_app e1 e2 : granted (e1 ++ e2) = granted e1 ++ granted e2.
Proof. unfold granted. by rewrite filter_app, fmap_app. Qed.

Lemma suppressed_snoc key events k b :
  suppressed_after key (events ++ [(k, b)]) =
  match suppressed_after key events with
  | Some n => Some (n + if decide ((k, b) = (key, false)) then 1 else 0)
  | None => if decide (k = key ∧ b = true) then Some 0 else None
  end.
Proof.
  induction events as [|[k' b'] events IH]; simpl; [by case_decide|].
  destruct (decide (k' = key ∧ b' = true)); [|done].
  rewrite filter_app, length_app. rewrite filter_cons, filter_nil. f_equal.
  case_decide; simpl; lia.
Qed.

Lemma suppressed_granted key events : is_Some (suppressed_after key events) ↔ key ∈ granted events.
Proof.
  unfold granted. rewrite list_elem_of_fmap. induction events as [|[k b] events IH]; simpl.
  - split; [by intros [? ?]|]. intros (? & _ & H). set_solver.
  - rewrite filter_cons. simpl. destruct (decide (k = key ∧ b = true)) as [[-> ->]|Hne].
    + rewrite decide_True by done. split; [|eauto]. intros _. exists (key, true). set_solver.
    + rewrite IH. case_decide; subst; set_solver.
Qed.

(** The counters of the throttle are those of the history. *)
Record related (t : denialThrottle) (h : history) : Prop := {
  rel_start : windowStart t = h_start h;
  rel_written : written t = Z.of_nat (length (granted (h_events h)));
  rel_current : ∀ k, current t !! k = suppressed_after k (h_events h);
  rel_previous : ∀ k, k ∉ granted (h_events h) →
    default 0 (previous t !! k) = default 0 (suppressed_after k (h_before h));
}.

Lemma suppressed_nonneg key events n : suppressed_after key events = Some n → 0 ≤ n.
Proof.
  induction events as [|[k b] events IH]; simpl; [done|]. case_decide; [|done]. intros [= <-]. lia.
Qed.

Lemma roll_related t h now : related t h → related (roll t now) (spec_roll (window t) h now).
Proof.
  intros [Hs Hw Hc Hp]. unfold roll, spec_roll. rewrite <-Hs. case_match; [|by split].
  split; simpl; try done. intros k _. case_match; [|done].
  rewrite map_lookup_filter, Hc. destruct (suppressed_after k (h_events h)) as [n|] eqn:Hn; simpl; [|done].
  apply suppressed_nonneg in Hn. case_guard; simpl in *; [done|lia].
Qed.

Lemma allow_related t h key now ok n t' :
  related t h → allow t key now = (ok, n, t') →
  ∃ h', spec_allow (window t) (limit t) h key now = (ok, n, h') ∧ related t' h' ∧
    window t' = window t ∧ limit t' = limit t.
Proof.
  intros Hrel. pose proof (roll_related t h now Hrel) as [Hs Hw Hc Hp].
  unfold allow, spec_allow.
  assert (window (roll t now) = window t ∧ limit (roll t now) = limit t) as [Hwin Hlim]
    by (unfold roll; by case_match).
  set (t1 := roll t now) in *. set (h1 := spec_roll (window t) h now) in *.
  pose proof (suppressed_granted key (h_events h1)) as Hg. rewrite <-Hc in Hg.
  destruct (current t1 !! key) as [m|] eqn:Hm.
  - intros [= <- <- <-]. rewrite bool_decide_eq_false_2 by (intros Hn; apply Hn, Hg; eauto).
    eexists. split; [done|]. split; [|done]. split; simpl; [done| |..].
    + rewrite granted_app. simpl. by rewrite app_nil_r.
    + intros k. rewrite suppressed_snoc, <-Hc. destruct (decide (k = key)) as [->|Hk].
      * by rewrite lookup_insert_eq, Hm, decide_True.
      * rewrite lookup_insert_ne by done. destruct (current t1 !! k); simpl.
        -- rewrite decide_False by congruence. by rewrite Z.add_0_r.
        -- by rewrite decide_False by naive_solver.
    + intros k. rewrite granted_app. simpl. rewrite app_nil_r. apply Hp.
  - assert (key ∉ granted (h_events h1)) as Hng by (intros [? ?]%Hg; done).
    rewrite bool_decide_eq_true_2 by done. rewrite <-Hw, Hlim. simpl andb.
    destruct (Z.leb_spec (limit t) (written t1)) as [Hl|Hl]; intros [= <- <- <-].
    + rewrite (proj2 (Z.ltb_ge _ _)) by lia. eexists. split; [done|]. split; [|done]. split; simpl.
      * done.
      * rewrite granted_app. simpl. by rewrite app_nil_r.
      * intros k. rewrite suppressed_snoc, <-Hc. destruct (current t1 !! k) as [m|] eqn:Hk.
        -- rewrite decide_False by congruence. by rewrite Z.add_0_r.
        -- by rewrite decide_False by naive_solver.
      * intros k. rewrite granted_app. simpl. rewrite app_nil_r. apply Hp.
    + rewrite (proj2 (Z.ltb_lt _ _)) by lia. eexists. split; [by rewrite Hp|]. split; [|done]. split; simpl.
      * done.
      * rewrite granted_app, length_app. simpl. lia.
      * intros k. rewrite suppressed_snoc, <-Hc. destruct (decide (k = key)) as [->|Hk].
        -- by rewrite lookup_insert_eq, Hm, decide_True.
        -- rewrite lookup_insert_ne by done. destruct (current t1 !! k); simpl.
           ++ rewrite decide_False by congruence. by rewrite Z.add_0_r.
           ++ by rewrite decide_False by naive_solver.
      * intros k Hk. rewrite granted_app in Hk. simpl in Hk.
        rewrite lookup_delete_ne by set_solver. apply Hp. set_solver.
Qed.

Lemma run_related t h calls : related t h → run t calls = spec_run (window t) (limit t) h calls.
Proof.
  revert t h. induction calls as [|[key now] calls IH]; intros t h Hrel; [done|]. cbn [run spec_run].
  destruct (allow t key now) as [[ok n] t'] eqn:Ha.
  destruct (allow_related _ _ _ _ _ _ _ Hrel Ha) as (h' & Hspec & Hrel' & Hw & Hl).
  rewrite Hspec, <-Hw, <-Hl. f_equal. by apply IH.
Qed.

(** Over any sequence of calls the throttle writes the first denial of each key in a
    window while the window has budget left, and the count it reports is the number of
    denials of that key suppressed in the window before. *)
Theorem throttle_refines_history w lim calls :
  run (newDenialThrottle w lim) calls = spec_run w lim no_history calls.
Proof. by apply (run_related (newDenialThrottle w lim) no_history). Qed.

End Throttle.

(** * The circuit breaker *)

Module Breaker.

Record targetCircuitState := {
  consecutiveFailures : Z;
  degradedUntil : Z;
  lastError : string;
}.

Abbreviation breakers := (gmap string targetCircuitState).

(** The state of a target never seen: the zero time has long passed. *)
Definition closed : targetCircuitState :=
  {| consecutiveFailures := 0; degradedUntil := Throttle.zeroTime; lastError := "" |}.

Fixpoint firstNonEmpty (values : list string) : string :=
  match values with
  | [] => ""
  | value :: values' => if non_empty (TrimSpace value) then TrimSpace value else firstNonEmpty values'
  end.

Definition isTargetDegraded (m : breakers) (now : Z) (target : string) : bool * string :=
  match m !! target with
  | None => (false, "")
  | Some state => if now <? degradedUntil state then (true, firstNonEmpty [lastError state; "circuit_open"])
                  else (false, "")
  end.

Definition recordTargetFailure (m : breakers) (now : Z) (target : string) (err : option string) : breakers :=
  let state := default closed (m !! target) in
  let failures := consecutiveFailures state + 1 in
  <[target := {| consecutiveFailures := failures;
                 degradedUntil := if 3 <=? failures then now + 30 * Second else degradedUntil state;
                 lastError := match err with Some e => e | None => lastError state end |}]> m.

Definition recordTargetSuccess (m : breakers) (target : string) : breakers := delete target m.

(** ** Histories *)

Inductive event :=
  | Failed (now : Z) (target : string) (err : option string)
  | Succeeded (target : string).

Definition record_event (m : breakers) (e : event) : breakers :=
  match e with
  | Failed now target err => recordTargetFailure m now target err
  | Succeeded target => recordTargetSuccess m target
  end.

(** The instants of the failures of a target since its last success, latest first. *)
Fixpoint streak (target : string) (latest_first : list event) : list Z :=
  match latest_first with
  | [] => []
  | Failed now t _ :: rest => if decide (t = target) then now :: streak target rest else streak target rest
  | Succeeded t :: rest => if decide (t = target) then [] else streak target rest
  end.

Definition degraded_spec (target : string) (now : Z) (latest_first : list event) : bool :=
  match streak target latest_first with
  | last_failure :: _ :: _ :: _ => now <? last_failure + 30 * Second
  | _ => false
  end.

Definition after (latest_first : list event) : breakers := foldr (λ e m, record_event m e) ∅ latest_first.

Lemma after_state events target :
  let fs := streak target events in
  match after events !! target with
  | None => fs = []
  | Some s => fs ≠ [] ∧ consecutiveFailures s = Z.of_nat (length fs) ∧
      degradedUntil s = match fs with t :: _ :: _ :: _ => t + 30 * Second | _ => Throttle.zeroTime end
  end.
Proof.
  cbv zeta. induction events as [|[now t err|t] events IH]; simpl; [done| |].
  - unfold recordTargetFailure. destruct (decide (t = target)) as [->|Hne].
    + rewrite lookup_insert_eq. split; [done|].
      destruct (after events !! target) as [s|]; simpl.
      * destruct IH as (Hne & -> & Hd). split; [simpl; lia|]. rewrite Hd.
        destruct (streak target events) as [|a [|b fs]]; [done|done|].
        by rewrite (proj2 (Z.leb_le _ _)) by (simpl; lia).
      * by rewrite IH.
    + by rewrite lookup_insert_ne.
  - unfold recordTargetSuccess. destruct (decide (t = target)) as [->|Hne].
    + by rewrite lookup_delete_eq.
    + by rewrite lookup_delete_ne.
Qed.

(** A target is degraded exactly when it failed at least three times since its last
    success and the latest failure is less than thirty seconds old; other targets do
    not matter. *)
Theorem breaker_opens_on_streak events target now :
  Throttle.zeroTime ≤ now →
  (isTargetDegraded (after events) now target).1 = degraded_spec target now events.
Proof.
  intros Hnow. pose proof (after_state events target) as Hs. cbv zeta in Hs.
  unfold isTargetDegraded, degraded_spec. destruct (after events !! target) as [s|]; simpl.
  - destruct Hs as (Hne & _ & ->). destruct (streak target events) as [|a [|b [|c fs]]]; simpl; [done|..].
    1-2: by rewrite (proj2 (Z.ltb_ge _ _)) by lia.
    by case_match.
  - by rewrite Hs.
Qed.

Lemma breaker_opens_on_streak_witness :
  (isTargetDegraded (after [Failed (3 * Second) "u" None; Failed 2 "v" None; Failed 1 "u" None;
                            Failed 0 "u" (Some "refused")]) (4 * Second) "u").1 = true.
Proof. rewrite (breaker_opens_on_streak _ "u" (4 * Second)); [reflexivity|]. vm_compute. discriminate. Defined.

End Breaker.

(** * The retrying transport *)

Module Retry.

Definition isIdempotentMethod (method : string) : bool :=
  String.eqb method "GET" || String.eqb method "HEAD" || String.eqb method "OPTIONS".

Section round_trip.
(** The base transport: what the attempt with that number answers. *)
Context {Response Error : Type} (base : nat → result Error Response).

(** The loop from [attempt], with [fuel] attempts left; the number of requests sent
    is returned with the answer. *)
Fixpoint attempt_loop (fuel attempt : nat) (method : string) (lastErr : option Error)
  : nat * result (option Error) Response :=
  match fuel with
  | O => (attempt, Err lastErr)
  | S fuel' =>
      match base attempt with
      | Ok resp => (S attempt, Ok resp)
      | Err e =>
          if negb (isIdempotentMethod method) || (fuel' =? 0)%nat then (S attempt, Err (Some e))
          else attempt_loop fuel' (S attempt) method (Some e)
      end
  end.

Definition RoundTrip (retries : nat) (method : string) : nat * result (option Error) Response :=
  attempt_loop (1 + retries) 0 method None.

Lemma attempt_loop_step fuel attempt method lastErr :
  attempt_loop (S fuel) attempt method lastErr =
  match base attempt with
  | Ok resp => (S attempt, Ok resp)
  | Err e => if negb (isIdempotentMethod method) || (fuel =? 0)%nat then (S attempt, Err (Some e))
             else attempt_loop fuel (S attempt) method (Some e)
  end.
Proof. done. Qed.

Lemma attempt_loop_spec fuel attempt method lastErr sent r :
  attempt_loop (S fuel) attempt method lastErr = (sent, r) →
  (attempt < sent ≤ attempt + S fuel)%nat ∧
  (isIdempotentMethod method = false → sent = S attempt) ∧
  (∀ i, attempt ≤ i → i < pred sent → is_ok (base i) = false)%nat ∧
  r = match base (pred sent) with Ok resp => Ok resp | Err e => Err (Some e) end.
Proof.
  revert attempt lastErr. induction fuel as [|fuel IH]; intros attempt lastErr; rewrite attempt_loop_step.
  - destruct (base attempt) as [resp|e] eqn:Hb; rewrite ?orb_true_r; intros [= <- <-];
      simpl; rewrite Hb; split_and!; try done; intros; lia.
  - destruct (base attempt) as [resp|e] eqn:Hb.
    + intros [= <- <-]. simpl. rewrite Hb. split_and!; try done; intros; lia.
    + simpl Nat.eqb. destruct (isIdempotentMethod method) eqn:Hm; simpl orb; cbv iota.
      * intros H. destruct (IH _ _ H) as (Hs & _ & Hf & Hr).
        split_and!; [lia|lia|done| |done]. intros i Hi1 Hi2.
        destruct (decide (i = attempt)) as [->|]; [by rewrite Hb|]. apply Hf; lia.
      * intros [= <- <-]. simpl. rewrite Hb. split_and!; try done; intros; lia.
Qed.

(** A request is sent at least once and at most [1 + retries] times, a request whose
    method is not idempotent exactly once; every attempt but the last failed, and the
    answer is that of the last attempt. *)
Theorem RoundTrip_bounded retries method :
  let '(sent, r) := RoundTrip retries method in
  (1 ≤ sent ≤ 1 + retries)%nat ∧ (isIdempotentMethod method = false → sent = 1%nat) ∧
  (∀ i, i < pred sent → is_ok (base i) = false)%nat ∧
  r = match base (pred sent) with Ok resp => Ok resp | Err e => Err (Some e) end.
Proof.
  destruct (RoundTrip retries method) as [sent r] eqn:H.
  destruct (attempt_loop_spec _ _ _ _ _ _ H) as (Hs & Hi & Hf & Hr).
  split_and!; [lia|lia|done| |done]. intros i Hlt. apply Hf; lia.
Qed.
End round_trip.
End Retry.
