(* ===== verification/Handler.v ===== *)
(** The request handler of the proxy (internal/proxy/manager.go [Handler] and the functions it
    calls in access.go, magic_link.go and route_access_bridge.go): every guard in the order of the
    code, each early return a reply, and the request handed to the reverse proxy of the route
    (transport.go [reverseProxyForTarget]).

    The handler runs against two interfaces: [Router], what the routing component offers, and
    [AuthService], what the authentication service offers.  The clock is read once per request.
    Logging ([logAccess]) is left out; the outcome and the reason it would log are part of the
    reply. *)
From S2P Require Import Prelude GoStrings Netip Domain Paths Hosts AccessRules AccessPolicy Routing Requests.
From S2P Require Import Resilience.

#[local] Open Scope string_scope.
#[local] Open Scope list_scope.

(** * What the handler needs of the other components *)

(** The claims that cross the interface. *)
Record RouteAccessClaims := { ra_ServiceID : N; ra_Method : string; ra_Email : string }.
Record SessionBridgeClaims := { sb_HostToken : string; sb_Host : string; sb_ID : string }.
Record RouteAccessBridgeClaims := {
  rb_ServiceID : N; rb_Host : string; rb_Method : string; rb_Email : string; rb_ReturnTo : string; rb_ID : string;
}.

(** A [Set-Cookie] of the response: HttpOnly and path "/" throughout. *)
Record Cookie := { ck_Name : string; ck_Value : string; ck_Domain : string; ck_Secure : bool; ck_MaxAge : Z }.

Abbreviation identity := (User * list N * option Session)%type.

(** [matchRoute]: state, clock, host, path. *)
Class Router (R : Type) := route_for : R → Z → string → string → option Route * R.

Class AuthService (A : Type) := {
  AuthenticateRequest : A → Z → Request → option identity * A;
  AuthenticateHostRequest : A → Z → Request → string → option identity * A;
  BootstrapAccessAllowed : A → User → option Session → bool;
  RouteAccessCookieClaims : A → Z → Request → N → option RouteAccessClaims;
  ParseSessionBridgeToken : A → Z → string → option SessionBridgeClaims;
  ParseRouteAccessBridgeToken : A → Z → string → option RouteAccessBridgeClaims;
  consume_bridge_token : A → Z → string → bool * A;
  ConsumeMagicLink : A → Z → N → string → string → bool * A;
  SetSessionCookieForHost : A → string → string → bool → list Cookie;
  SetRouteAccessCookie : A → Z → N → string → string → option Cookie;
  BuildRouteLoginURL : A → N → string → string;
  BuildRouteForbiddenURL : A → N → string → string;
  IsPortlynCredential : A → string → bool;
}.

(** What the router promises: it answers from the routes it [serves] now, and only changes its
    caches. *)
Class RouterLaws (R : Type) `{Router R} := {
  router_ok : R → Prop;
  serves : R → string → Route → Prop;
  route_for_ok : ∀ st now host path, router_ok st → clean_host host → router_ok (route_for st now host path).2;
  route_for_serves : ∀ st now host path route st', router_ok st → clean_host host →
    route_for st now host path = (Some route, st') → serves st host route ∧ matchesPath (Path route) path = true;
  route_for_same : ∀ st now host path h route, router_ok st → clean_host host →
    serves (route_for st now host path).2 h route ↔ serves st h route;
}.

(** [CountryLookup] and [ReputationBlocklist]. *)
Record CountryLookup := { Available : bool; CountryISO : Addr → string }.
Record ReputationBlocklist := { Enabled : bool; Healthy : bool; IsBlocked : Addr → bool * string }.

(** * The manager *)

Record Manager := {
  adminHost : string;
  trustedProxyCIDRs : list string;
  bootstrapAdminEnabled : bool;
  bootstrapAdminAllowRemote : bool;
  adminUI : bool;                              (* a handler is set *)
  adminAPI : bool;
  countryLookup : option CountryLookup;
  reputation : option ReputationBlocklist;
  geoIPFailOpen : bool;
  crowdSecFailOpen : bool;
  clientCertHeaderSecret : string;
}.

Inductive response :=
  | ProxyError (status : Z) (code message : string)
  | AccessDeniedPage
  | BootstrapHint
  | NotFound
  | Redirect (location : string) (cookies : list Cookie) (noReferrer : bool)   (* 302 *)
  | ServeAdminAPI (r : Request)
  | ServeAdminUI (r : Request)
  | Upstream (route : Route) (r : Request).

Record reply := { rp_response : response; rp_outcome : string; rp_reason : string }.

Section handler.
Context {R A : Type} `{Router R} `{AuthService A}.
Variable url_Parse : string → option URL.
Variable url_String : URL → string.
Variable url_RequestURI : URL → string.
(** [clientcert.Sign]. *)
Variable Sign : string → string → string.
Variable m : Manager.

Record world := { w_routes : R; w_auth : A; w_breakers : Breaker.breakers }.

(** A step may end the request with a reply. *)
Definition act (X : Type) : Type := world → result reply X * world.
Definition ret {X} (x : X) : act X := λ w, (Ok x, w).
Definition stop {X} (rp : reply) : act X := λ w, (Err rp, w).
Definition bind {X Y} (c : act X) (k : X → act Y) : act Y :=
  λ w, match c w with (Ok x, w') => k x w' | (Err e, w') => (Err e, w') end.

Local Notation "'do' x <- c ; k" := (bind c (fun x => k))
  (at level 10, x name, c at level 100, k at level 200).

Definition with_header (r : Request) (h : Header) : Request :=
  {| r_Method := r_Method r; r_Host := r_Host r; r_Path := r_Path r; r_RawPath := r_RawPath r;
     r_RequestURI := r_RequestURI r; r_Token := r_Token r; r_Header := h; r_RemoteAddr := r_RemoteAddr r;
     r_TLS := r_TLS r; r_ClientCert := r_ClientCert r |}.
Definition with_path (r : Request) (path : string) : Request :=
  {| r_Method := r_Method r; r_Host := r_Host r; r_Path := path; r_RawPath := "";
     r_RequestURI := r_RequestURI r; r_Token := r_Token r; r_Header := r_Header r; r_RemoteAddr := r_RemoteAddr r;
     r_TLS := r_TLS r; r_ClientCert := r_ClientCert r |}.

Definition on_routes {X} (f : R → X * R) : act X := λ w,
  let '(x, s) := f (w_routes w) in (Ok x, {| w_routes := s; w_auth := w_auth w; w_breakers := w_breakers w |}).
Definition on_auth {X} (f : A → X * A) : act X := λ w,
  let '(x, a) := f (w_auth w) in (Ok x, {| w_routes := w_routes w; w_auth := a; w_breakers := w_breakers w |}).
Definition ask {X} (f : A → X) : act X := λ w, (Ok (f (w_auth w)), w).

(** ** Admin hosts *)

Definition isAdminHost (host : string) : bool :=
  let normalized := normalizeHost host in
  if non_empty (adminHost m) && String.eqb normalized (adminHost m) then true
  else bootstrapAdminEnabled m && isBootstrapAdminHost normalized.

Definition allowAdminHost (host : string) (r : Request) : bool :=
  let normalized := normalizeHost host in
  if non_empty (adminHost m) && String.eqb normalized (adminHost m) then true
  else if negb (bootstrapAdminEnabled m) || negb (isBootstrapAdminHost normalized) then false
  else if bootstrapAdminAllowRemote m then true
  else isLocalRequestSource r.

Definition handleAdminHost (r : Request) (path : string) : option response :=
  if HasPrefix path "/api/" || String.eqb path "/livez" || String.eqb path "/readyz" || String.eqb path "/healthz"
     || String.eqb path "/metrics" || String.eqb path "/install.sh"
  then if adminAPI m then Some (ServeAdminAPI r) else None
  else if adminUI m then Some (ServeAdminUI r) else None.

(** ** Hand-over of sessions and of route access *)

Definition handleSessionBridge (now : Z) (r : Request) : act (option response) :=
  if negb (String.eqb (normalizePath (r_Path r)) "/_portlyn/session-bridge") then ret None
  else
    let token := TrimSpace (r_Token r) in
    if String.eqb token "" then ret (Some (ProxyError 400 "invalid_token" "missing session bridge token"))
    else
      do parsed <- ask (λ a, ParseSessionBridgeToken a now token);
      match parsed with
      | None => ret (Some (ProxyError 401 "invalid_token" "invalid session bridge token"))
      | Some claims =>
          if negb (String.eqb (normalizeHost (sb_Host claims)) (normalizeHost (r_Host r)))
          then ret (Some (ProxyError 403 "forbidden" "session bridge host mismatch"))
          else
            do consumed <- on_auth (λ a, consume_bridge_token a now (sb_ID claims));
            if negb consumed then ret (Some (ProxyError 401 "invalid_token" "session bridge token already used"))
            else
              do cookies <- ask (λ a, SetSessionCookieForHost a (sb_HostToken claims) (normalizeHost (r_Host r))
                                        (String.eqb (forwardedProto (trustedProxyCIDRs m) r) "https"));
              ret (Some (Redirect "/" cookies true))
      end.

Definition sanitizeReturnPath (returnTo host scheme : string) : string :=
  let value := TrimSpace returnTo in
  if String.eqb value "" then ""
  else
    match url_Parse value with
    | None => ""
    | Some parsed =>
        if String.eqb (u_Scheme parsed) "" && String.eqb (u_Host parsed) "" then url_RequestURI parsed
        else if negb (String.eqb (normalizeHost (u_Host parsed)) (normalizeHost host)) then ""
        else url_String {| u_Scheme := scheme; u_Host := u_Host parsed; u_Rest := u_Rest parsed |}
    end.

Definition handleRouteAccessBridge (now : Z) (r : Request) : act (option response) :=
  if negb (String.eqb (normalizePath (r_Path r)) "/_portlyn/route-access") then ret None
  else
    let token := TrimSpace (r_Token r) in
    if String.eqb token "" then ret (Some (ProxyError 400 "invalid_token" "missing route access bridge token"))
    else
      do parsed <- ask (λ a, ParseRouteAccessBridgeToken a now token);
      match parsed with
      | None => ret (Some (ProxyError 401 "invalid_token" "invalid route access bridge token"))
      | Some claims =>
          if negb (String.eqb (normalizeHost (rb_Host claims)) (normalizeHost (r_Host r)))
          then ret (Some (ProxyError 403 "forbidden" "route access bridge host mismatch"))
          else
            do consumed <- on_auth (λ a, consume_bridge_token a now (rb_ID claims));
            if negb consumed then ret (Some (ProxyError 401 "invalid_token" "route access bridge token already used"))
            else
              do cookie <- ask (λ a, SetRouteAccessCookie a now (rb_ServiceID claims) (rb_Method claims) (rb_Email claims));
              match cookie with
              | None => ret (Some (ProxyError 500 "cookie_error" "could not establish route access"))
              | Some cookie =>
                  let target := sanitizeReturnPath (rb_ReturnTo claims) (r_Host r) (forwardedProto (trustedProxyCIDRs m) r) in
                  let target := if String.eqb target "" then "/" else target in
                  ret (Some (Redirect target [cookie] true))
              end
      end.

Definition magicLinkMethod (route : Route) : string :=
  if String.eqb (EffectiveMethod route) AccessMethodPIN || String.eqb (EffectiveMethod route) AccessMethodEmailCode
  then EffectiveMethod route else AccessMethodEmailCode.

Definition handleMagicLink (now : Z) (r : Request) : act (option response) :=
  let path := normalizePath (r_Path r) in
  let prefix := "/_portlyn/magic/" in
  if negb (HasPrefix path prefix) then ret None
  else
    let token := TrimSpace (cut_before (TrimPrefix path prefix) "/") in
    if String.eqb token "" then ret (Some (ProxyError 400 "invalid_token" "missing magic link token"))
    else
      do found <- on_routes (λ s, route_for s now (normalizeHost (r_Host r)) "/");
      match found with
      | None => ret (Some (ProxyError 404 "route_not_found" "no service matches this host"))
      | Some route =>
          let remoteAddr := match realClientIP (trustedProxyCIDRs m) r with
                            | Some ip => AddrString ip
                            | None => r_RemoteAddr r
                            end in
          do consumed <- on_auth (λ a, ConsumeMagicLink a now (ServiceID route) token remoteAddr);
          if negb consumed then ret (Some (ProxyError 403 "invalid_magic_link" "magic link is invalid or expired"))
          else
            do cookie <- ask (λ a, SetRouteAccessCookie a now (ServiceID route) (magicLinkMethod route) "");
            match cookie with
            | None => ret (Some (ProxyError 500 "cookie_error" "could not establish route access"))
            | Some cookie => ret (Some (Redirect (safeRedirectPath (Path route)) [cookie] false))
            end
      end.

(** ** Network rules *)

Definition check_reputation (clientIP : Addr) : result response unit :=
  match reputation m with
  | None => Ok tt
  | Some list =>
      if negb (Enabled list) then Ok tt
      else if negb (Healthy list) && negb (crowdSecFailOpen m)
      then Err (ProxyError 503 "reputation_unavailable" "reputation cannot be evaluated")
      else match IsBlocked list clientIP with
           | (true, reason) => Err (ProxyError 403 "forbidden" ("reputation block: " +:+ reason))
           | (false, _) => Ok tt
           end
  end.

Definition check_country (clientIP : Addr) (route : Route) : result response unit :=
  if negb ((0 <? length (AllowedCountries route))%nat || (0 <? length (BlockedCountries route))%nat) then Ok tt
  else
    let unavailable := if geoIPFailOpen m then Ok tt
                       else Err (ProxyError 503 "geoip_unavailable" "geo restriction cannot be evaluated") in
    match countryLookup m with
    | None => unavailable
    | Some lookup =>
        if negb (Available lookup) then unavailable
        else match countryAllowedByRoute (CountryISO lookup clientIP) (AllowedCountries route) (BlockedCountries route) with
             | CountryAllowed => Ok tt
             | BlockedCountry => Err (ProxyError 403 "forbidden" "geoip: blocked_country")
             | CountryNotAllowed => Err (ProxyError 403 "forbidden" "geoip: country_not_allowed")
             end
    end.

Definition enforceNetworkRules (r : Request) (route : Route) : result response unit :=
  match realClientIP (trustedProxyCIDRs m) r with
  | None => Err (ProxyError 403 "forbidden" "unable to determine client ip")
  | Some clientIP =>
      if matchesAnyPrefix clientIP (BlockPrefixes route) then Err (ProxyError 403 "forbidden" "client ip is blocked")
      else if (0 <? length (AllowPrefixes route))%nat && negb (matchesAnyPrefix clientIP (AllowPrefixes route))
      then Err (ProxyError 403 "forbidden" "client ip is not allowed")
      else match check_reputation clientIP with
           | Err e => Err e
           | Ok _ => check_country clientIP route
           end
  end.

(** ** Authorization *)

Definition redirectToRouteLogin (a : A) (r : Request) (route : Route) : response :=
  if negb (LoginAllowedOnHost (RService route) (normalizeHost (r_Host r)))
  then ProxyError 403 "login_not_enabled" "login is not enabled for this subdomain"
  else Redirect (BuildRouteLoginURL a (ServiceID route) (requestURL (trustedProxyCIDRs m) r)) [] false.

Definition redirectToRouteForbidden (a : A) (r : Request) (route : Route) : response :=
  Redirect (BuildRouteForbiddenURL a (ServiceID route) (requestURL (trustedProxyCIDRs m) r)) [] false.

(** The identity, or the status of the refusal. *)
Definition authenticateProxyRequest (now : Z) (r : Request) (a : A) : result Z (User * list N) * A :=
  let host := normalizeHost (r_Host r) in
  let '(answer, a') := if isAdminHost host then AuthenticateRequest a now r
                       else AuthenticateHostRequest a now r host in
  match answer with
  | None => (Err 401%Z, a')
  | Some (user, groupIDs, session) =>
      if negb (BootstrapAccessAllowed a' user session) then (Err 403%Z, a') else (Ok (user, groupIDs), a')
  end.

Definition statusCode (status : Z) : string := if (status =? 401)%Z then "unauthorized" else "forbidden".
Definition statusMessage (status : Z) : string :=
  if (status =? 401)%Z then "missing or invalid bearer token" else "insufficient permissions".

Definition enforceAccessMethod (now : Z) (r : Request) (route : Route) (a : A)
  : result response (option User * list N) * A :=
  let method := normalizedAccessMethod (EffectiveMethod route) in
  if String.eqb method AccessMethodSession then (Ok (None, []), a)
  else if String.eqb method AccessMethodOIDCOnly then
    match authenticateProxyRequest now r a with
    | (Ok (user, groupIDs), a') =>
        if negb (String.eqb (u_AuthProvider user) AuthProviderOIDC) || negb (u_Active user)
        then (Err (redirectToRouteLogin a' r route), a')
        else (Ok (Some user, groupIDs), a')
    | (Err _, a') => (Err (redirectToRouteLogin a' r route), a')
    end
  else if String.eqb method AccessMethodPIN || String.eqb method AccessMethodEmailCode then
    match RouteAccessCookieClaims a now r (ServiceID route) with
    | None => (Err (redirectToRouteLogin a r route), a)
    | Some claims =>
        if negb (String.eqb (ra_Method claims) method) then (Err (redirectToRouteLogin a r route), a)
        else if String.eqb method AccessMethodEmailCode && negb (routeEmailAllowed (ra_Email claims) (EffectiveMethodConfig route))
        then (Err (redirectToRouteLogin a r route), a)
        else (Ok (None, []), a)
    end
  else (Err (ProxyError 403 "forbidden" "unsupported access method"), a).

Definition authorizeRequest (now : Z) (r : Request) (route : Route) (mode : string) (a : A)
  : result response (option User * list N) * A :=
  match enforceAccessMethod now r route a with
  | (Err e, a') => (Err e, a')
  | (Ok (user, groupIDs), a') =>
      let method := normalizedAccessMethod (EffectiveMethod route) in
      let methodIsSelfSufficient := String.eqb method AccessMethodPIN || String.eqb method AccessMethodEmailCode in
      if String.eqb mode "" || String.eqb mode AccessModePublic then (Ok (user, groupIDs), a')
      else if String.eqb mode AccessModeAuthenticated || String.eqb mode AccessModeRestricted then
        match user with
        | Some _ => (Ok (user, groupIDs), a')
        | None =>
            if methodIsSelfSufficient then (Ok (user, groupIDs), a')
            else match authenticateProxyRequest now r a' with
                 | (Ok (user, groupIDs), a'') => (Ok (Some user, groupIDs), a'')
                 | (Err status, a'') =>
                     if String.eqb method AccessMethodSession && expectsTokenAuth r
                     then (Err (ProxyError status (statusCode status) (statusMessage status)), a'')
                     else (Err (redirectToRouteLogin a'' r route), a'')
                 end
        end
      else (Err (ProxyError 403 "forbidden" "unsupported access policy"), a')
  end.

Definition writeAccessDenied (r : Request) : response :=
  if negb (wantsHTML r) then ProxyError 403 "forbidden" "access denied" else AccessDeniedPage.

(** ** Identity headers, under the canonical names [Header.Set] gives them *)

Definition UserEmailHeader : string := "X-Portlyn-User-Email".
Definition UserRoleHeader : string := "X-Portlyn-User-Role".
Definition UserIDHeader : string := "X-Portlyn-User-Id".
Definition FingerprintHeader : string := "X-Portlyn-Client-Cert-Sha256".
Definition SignatureHeader : string := "X-Portlyn-Client-Cert-Signature".

Definition identity_headers (h : Header) (user : option User) (fingerprint : string) : Header :=
  let h := match user with
           | None => h
           | Some u => HSet (HSet (HSet h UserEmailHeader (u_Email u)) UserRoleHeader (u_Role u)) UserIDHeader (FormatUint (u_ID u))
           end in
  if non_empty fingerprint then HSet h FingerprintHeader fingerprint else HDel h FingerprintHeader.

Definition admin_headers (r : Request) : Header :=
  let h := sanitizePortlynIdentityHeaders (r_Header r) in
  if non_empty (r_ClientCert r) then
    let h := HSet h FingerprintHeader (r_ClientCert r) in
    if non_empty (clientCertHeaderSecret m) then HSet h SignatureHeader (Sign (clientCertHeaderSecret m) (r_ClientCert r)) else h
  else h.

(** ** The handler *)

Definition finish {X} (outcome reason : string) (resp : response) : act X :=
  stop {| rp_response := resp; rp_outcome := outcome; rp_reason := reason |}.

Definition unless_handled (outcome : string) (c : act (option response)) : act unit :=
  do handled <- c;
  match handled with
  | Some resp => finish outcome outcome resp
  | None => ret tt
  end.

Definition serve_admin (host path : string) (r : Request) : act Request :=
  if allowAdminHost host r then
    let r := with_header r (admin_headers r) in
    match handleAdminHost r path with
    | Some resp => finish "admin" "admin_host" resp
    | None => ret r
    end
  else ret r.

(** The route of the request; a request whose path parameters change the route is refused. *)
Definition find_route (now : Z) (host path : string) : act Route :=
  do found <- on_routes (λ s, route_for s now host path);
  match found with
  | None => finish "not_found" "route_miss" NotFound
  | Some route =>
      if Contains path ";" then
        do again <- on_routes (λ s, route_for s now host (normalizePath (stripPathParams path)));
        match again with
        | Some paramRoute =>
            if negb (N.eqb (ServiceID paramRoute) (ServiceID route)) || negb (String.eqb (Path paramRoute) (Path route))
            then finish "denied" "ambiguous_path" (ProxyError 400 "invalid_path" "request path parameters change the matched route")
            else ret route
        | None => finish "denied" "ambiguous_path" (ProxyError 400 "invalid_path" "request path parameters change the matched route")
        end
      else ret route
  end.

Definition matched_rule (r : Request) (route : Route) (path : string) : option compiledAccessRule :=
  if (0 <? length (RAccessRules route))%nat then
    match realClientIP (trustedProxyCIDRs m) r with
    | Some clientIP => matchAccessRule (RAccessRules route) clientIP path
    | None => None
    end
  else None.

Definition rule_is (action : string) (rule : option compiledAccessRule) : bool :=
  match rule with Some rule => String.eqb (cr_Action rule) action | None => false end.

(** The access mode after an authenticate rule. *)
Definition mode_after (rule : option compiledAccessRule) (mode : string) : string :=
  if rule_is AccessRuleAuthenticate rule && (String.eqb mode "" || String.eqb mode AccessModePublic)
  then AccessModeAuthenticated else mode.

(** The identity the request is forwarded under. *)
Definition authorize (now : Z) (r : Request) (route : Route) (rule : option compiledAccessRule) : act (option User) :=
  let mode := mode_after rule (ap_AccessMode (EffectivePolicy route)) in
  let allowedByRule := rule_is AccessRuleAllow rule in
  do verdict <- (if allowedByRule then ret (Ok (None, [])) else on_auth (authorizeRequest now r route mode));
  match verdict with
  | Err resp => finish "denied" (match resp with Redirect _ _ _ => "login_required" | _ => "authz" end) resp
  | Ok (user, groupIDs) =>
      if negb (withinAccessWindows (CompiledWindows route) now)
      then finish "denied" "access_window" (ProxyError 403 "outside_access_window" "service is outside its configured access window")
      else if String.eqb mode AccessModeRestricted && negb allowedByRule
              && negb (isAllowedByRestrictedPolicy user groupIDs (EffectivePolicy route))
      then
        do resp <- ask (λ a, if expectsTokenAuth r || negb (wantsHTML r)
                              then ProxyError 403 "forbidden" "restricted service policy denied access"
                              else redirectToRouteForbidden a r route);
        finish "denied" "restricted_policy" resp
      else ret user
  end.

(** The last steps: identity headers, the circuit breaker, credentials, the canonical path. *)
Definition forward (now : Z) (r : Request) (route : Route) (user : option User) (canonicalPath : string) : act reply :=
  let r := with_header r (identity_headers (r_Header r) user (r_ClientCert r)) in
  λ w,
    match Breaker.isTargetDegraded (w_breakers w) now (TargetURL route) with
    | (true, degradedReason) =>
        finish "degraded" degradedReason
          (ProxyError 503 "target_degraded" "target temporarily degraded after repeated upstream failures") w
    | (false, _) =>
        let r := with_header r (stripPortlynCredentials (IsPortlynCredential (w_auth w)) (r_Header r)) in
        let r := if HasPrefix (r_Path r) "/" && negb (String.eqb canonicalPath (r_Path r))
                 then with_path r canonicalPath else r in
        ret {| rp_response := Upstream route r; rp_outcome := "proxied"; rp_reason := "upstream" |} w
    end.

Definition Handler_steps (now : Z) (r : Request) : act reply :=
  match canonicalRequestPath (r_Path r) with
  | None => finish "denied" "non_canonical_path" (ProxyError 400 "invalid_path" "request path must not contain dot segments")
  | Some canonicalPath =>
      do _ <- unless_handled "session_bridge" (handleSessionBridge now r);
      do _ <- unless_handled "route_access_bridge" (handleRouteAccessBridge now r);
      do _ <- unless_handled "magic_link" (handleMagicLink now r);
      let host := normalizeHost (r_Host r) in
      let path := normalizePath (r_Path r) in
      do r <- serve_admin host path r;
      if bootstrapAdminEnabled m && negb (bootstrapAdminAllowRemote m) && isBootstrapAdminHost host && negb (isLocalRequestSource r)
      then finish "denied" "bootstrap_admin_local_only" BootstrapHint
      else
        do route <- find_route now host path;
        let r := with_header r (sanitizePortlynIdentityHeaders (r_Header r)) in
        match enforceNetworkRules r route with
        | Err resp => finish "denied" "network_policy" resp
        | Ok _ =>
            let rule := matched_rule r route path in
            if rule_is AccessRuleDeny rule then finish "denied" "access_rule_deny" (writeAccessDenied r)
            else
              do user <- authorize now r route rule;
              forward now r route user canonicalPath
        end
  end.

Definition Handler (now : Z) (r : Request) (w : world) : reply * world :=
  match Handler_steps now r w with
  | (Ok rp, w') => (rp, w')
  | (Err rp, w') => (rp, w')
  end.

(** * What a forwarded request has satisfied *)

(** The network rules, as conditions. *)
Record network_permits (route : Route) (ip : Addr) : Prop := {
  np_block : matchesAnyPrefix ip (BlockPrefixes route) = false;
  np_allow : AllowPrefixes route = [] ∨ matchesAnyPrefix ip (AllowPrefixes route) = true;
  np_reputation : ∀ list, reputation m = Some list → Enabled list = true →
    (Healthy list = true ∨ crowdSecFailOpen m = true) ∧ (IsBlocked list ip).1 = false;
  np_country : AllowedCountries route = [] ∧ BlockedCountries route = [] ∨
    match countryLookup m with
    | Some lookup =>
        if Available lookup
        then countryAllowedByRoute (CountryISO lookup ip) (AllowedCountries route) (BlockedCountries route) = CountryAllowed
        else geoIPFailOpen m = true
    | None => geoIPFailOpen m = true
    end;
}.

(** Who may pass, by access mode and access method, with the identity the request gets. *)
Inductive admitted (a : A) (now : Z) (r : Request) (route : Route) (mode : string) : option User → list N → Prop :=
  | adm_public :
      mode ∈ [""; AccessModePublic] → normalizedAccessMethod (EffectiveMethod route) = AccessMethodSession →
      admitted a now r route mode None []
  | adm_session user groupIDs a' :
      mode ∈ [AccessModeAuthenticated; AccessModeRestricted] →
      normalizedAccessMethod (EffectiveMethod route) = AccessMethodSession →
      authenticateProxyRequest now r a = (Ok (user, groupIDs), a') →
      admitted a now r route mode (Some user) groupIDs
  | adm_oidc user groupIDs a' :
      mode ∈ [""; AccessModePublic; AccessModeAuthenticated; AccessModeRestricted] →
      normalizedAccessMethod (EffectiveMethod route) = AccessMethodOIDCOnly →
      authenticateProxyRequest now r a = (Ok (user, groupIDs), a') →
      u_AuthProvider user = AuthProviderOIDC → u_Active user = true →
      admitted a now r route mode (Some user) groupIDs
  | adm_code claims :
      mode ∈ [""; AccessModePublic; AccessModeAuthenticated; AccessModeRestricted] →
      normalizedAccessMethod (EffectiveMethod route) ∈ [AccessMethodPIN; AccessMethodEmailCode] →
      RouteAccessCookieClaims a now r (ServiceID route) = Some claims →
      ra_Method claims = normalizedAccessMethod (EffectiveMethod route) →
      (ra_Method claims = AccessMethodEmailCode → routeEmailAllowed (ra_Email claims) (EffectiveMethodConfig route) = true) →
      admitted a now r route mode None [].

(** * Lemmas *)

Lemma check_reputation_spec ip :
  check_reputation ip = Ok tt ↔
  ∀ list, reputation m = Some list → Enabled list = true →
    (Healthy list = true ∨ crowdSecFailOpen m = true) ∧ (IsBlocked list ip).1 = false.
Proof.
  unfold check_reputation. destruct (reputation m) as [l|]; [|by split].
  destruct (Enabled l) eqn:He; cbn [negb]; [|by split; [intros _ l' [= <-]; rewrite He|]].
  split.
  - intros Hx l' [= <-] _. destruct (IsBlocked l ip) as [[] reason]; simpl;
      destruct (Healthy l), (crowdSecFailOpen m); simpl in Hx; done || auto.
  - intros Hx. destruct (Hx l eq_refl He) as [Hh Hb]. destruct (IsBlocked l ip) as [[] reason]; simpl in Hb; [done|].
    destruct Hh as [-> | ->]; [done|]. by rewrite andb_false_r.
Qed.

Lemma check_country_spec ip route :
  check_country ip route = Ok tt ↔
  AllowedCountries route = [] ∧ BlockedCountries route = [] ∨
  match countryLookup m with
  | Some lookup =>
      if Available lookup
      then countryAllowedByRoute (CountryISO lookup ip) (AllowedCountries route) (BlockedCountries route) = CountryAllowed
      else geoIPFailOpen m = true
  | None => geoIPFailOpen m = true
  end.
Proof.
  unfold check_country.
  assert ((0 <? length (AllowedCountries route))%nat || (0 <? length (BlockedCountries route))%nat = false ↔
          AllowedCountries route = [] ∧ BlockedCountries route = []) as Hc.
  { destruct (AllowedCountries route), (BlockedCountries route); simpl; naive_solver. }
  destruct (_ || _); cbn [negb]; [|by split; [left; apply Hc|]].
  assert (¬ (AllowedCountries route = [] ∧ BlockedCountries route = [])) as Hn by (intros ?%Hc; done).
  clear Hc. destruct (countryLookup m) as [l|]; [destruct (Available l)|]; cbn [negb].
  - destruct (countryAllowedByRoute _ _ _); split; intros; try done; auto; by destruct_or?.
  - destruct (geoIPFailOpen m); split; intros; try done; auto; by destruct_or?.
  - destruct (geoIPFailOpen m); split; intros; try done; auto; by destruct_or?.
Qed.

Lemma enforceNetworkRules_spec r route :
  enforceNetworkRules r route = Ok tt ↔
  ∃ ip, realClientIP (trustedProxyCIDRs m) r = Some ip ∧ network_permits route ip.
Proof.
  unfold enforceNetworkRules. destruct (realClientIP _ r) as [ip|]; [|by split; [|intros (? & ? & _)]].
  assert (∀ l : list Prefix, (0 <? length l)%nat && negb (matchesAnyPrefix ip l) = false ↔
            l = [] ∨ matchesAnyPrefix ip l = true) as Hallow.
  { intros [|p l]; [simpl; naive_solver|]. simpl length. destruct (matchesAnyPrefix ip (p :: l)); simpl; naive_solver. }
  destruct (matchesAnyPrefix ip (BlockPrefixes route)) eqn:Hb.
  { split; [done|]. intros (? & [= <-] & [Hb' _ _ _]). congruence. }
  destruct (_ && _) eqn:Ha.
  { split; [done|]. intros (? & [= <-] & [_ Ha' _ _]). apply Hallow in Ha'. congruence. }
  apply Hallow in Ha. destruct (check_reputation ip) as [[]|] eqn:Hr.
  - pose proof (proj1 (check_reputation_spec ip) Hr) as Hr'. rewrite check_country_spec. split.
    + intros Hc. exists ip. split; [done|]. split; done.
    + by intros (? & [= <-] & [_ _ _ Hc]).
  - split; [done|]. intros (? & [= <-] & [_ _ Hr' _]). pose proof (proj2 (check_reputation_spec ip) Hr'). congruence.
Qed.

Lemma eqb_in2 (s x y : string) : String.eqb s x || String.eqb s y = true ↔ s ∈ [x; y].
Proof.
  rewrite orb_true_iff, !String.eqb_eq. split; [intros [-> | ->]; set_solver|].
  intros [?|[?|?%elem_of_nil]%elem_of_cons]%elem_of_cons; auto; done.
Qed.

Lemma enforceAccessMethod_cases now r route a user groupIDs a' :
  enforceAccessMethod now r route a = (Ok (user, groupIDs), a') →
  let method := normalizedAccessMethod (EffectiveMethod route) in
  (method = AccessMethodSession ∧ user = None ∧ groupIDs = [] ∧ a' = a) ∨
  (∃ u, method = AccessMethodOIDCOnly ∧ user = Some u ∧ authenticateProxyRequest now r a = (Ok (u, groupIDs), a') ∧
     u_AuthProvider u = AuthProviderOIDC ∧ u_Active u = true) ∨
  (∃ claims, method ∈ [AccessMethodPIN; AccessMethodEmailCode] ∧ user = None ∧ groupIDs = [] ∧ a' = a ∧
     RouteAccessCookieClaims a now r (ServiceID route) = Some claims ∧ ra_Method claims = method ∧
     (ra_Method claims = AccessMethodEmailCode → routeEmailAllowed (ra_Email claims) (EffectiveMethodConfig route) = true)).
Proof.
  intros Hm method. unfold enforceAccessMethod in Hm. fold method in Hm.
  destruct (String.eqb_spec method AccessMethodSession) as [Hs|_]; [left; by simplify_eq|].
  destruct (String.eqb_spec method AccessMethodOIDCOnly) as [Ho|_].
  - destruct (authenticateProxyRequest now r a) as [[[u g]|] a1]; [|done].
    destruct (String.eqb_spec (u_AuthProvider u) AuthProviderOIDC), (u_Active u) eqn:Ha; simplify_eq/=. eauto 10.
  - right. right. destruct (_ || _) eqn:Hpe in Hm; [|done]. apply eqb_in2 in Hpe.
    destruct (RouteAccessCookieClaims a now r (ServiceID route)) as [claims|]; [|done].
    destruct (String.eqb_spec (ra_Method claims) method) as [Hc|]; [|done]. cbn [negb] in Hm.
    destruct (String.eqb_spec method AccessMethodEmailCode) as [He|He]; cbn [andb] in Hm.
    + destruct (routeEmailAllowed _ _) eqn:Hr; simplify_eq/=. by exists claims.
    + simplify_eq/=. exists claims. split_and!; try done. congruence.
Qed.

Lemma authorizeRequest_admitted now r route mode a user groupIDs a' :
  authorizeRequest now r route mode a = (Ok (user, groupIDs), a') → admitted a now r route mode user groupIDs.
Proof.
  unfold authorizeRequest.
  destruct (enforceAccessMethod now r route a) as [[[u g]|] a1] eqn:He; [|done].
  apply enforceAccessMethod_cases in He. cbv zeta in He.
  destruct (String.eqb mode "" || String.eqb mode AccessModePublic) eqn:Hp.
  { apply eqb_in2 in Hp. intros [= -> -> ->].
    destruct He as [(? & -> & -> & ->)|[(u & ? & -> & ? & ? & ?)|(c & ? & -> & -> & -> & ? & ? & ?)]].
    - by apply adm_public.
    - eapply adm_oidc; eauto. set_solver.
    - eapply adm_code; eauto. set_solver. }
  destruct (String.eqb mode AccessModeAuthenticated || String.eqb mode AccessModeRestricted) eqn:Ha; [|done].
  apply eqb_in2 in Ha.
  destruct He as [(Hm & -> & -> & ->)|[(u' & ? & -> & ? & ? & ?)|(c & Hm & -> & -> & -> & ? & ? & ?)]].
  - rewrite Hm. cbn [orb String.eqb]. simpl String.eqb. cbv iota.
    destruct (authenticateProxyRequest now r a) as [[[u g']|] a2] eqn:Hauth; [|by destruct (expectsTokenAuth r)].
    intros [= <- <- _]. eapply adm_session; eauto.
  - intros [= <- -> ->]. eapply adm_oidc; eauto. set_solver.
  - rewrite (proj2 (eqb_in2 _ _ _) Hm). intros [= <- <- _]. eapply adm_code; eauto. set_solver.
Qed.

(** Only the last step answers with the upstream. *)
Definition early_stop {X} (c : act X) : Prop :=
  ∀ w rp w', c w = (Err rp, w') → ∀ route r, rp_response rp ≠ Upstream route r.

Definition local_response (resp : response) : Prop := ∀ route r, resp ≠ Upstream route r.

Lemma early_ret {X} (x : X) : early_stop (ret x).
Proof. done. Qed.
Lemma early_bind {X Y} (c : act X) (k : X → act Y) :
  early_stop c → (∀ x, early_stop (k x)) → early_stop (bind c k).
Proof.
  intros Hc Hk w rp w'. unfold bind. destruct (c w) as [[x|e] w1] eqn:He; [apply Hk|].
  intros [= -> ->]. by eapply Hc.
Qed.
Lemma early_finish {X} outcome reason resp : local_response resp → early_stop (@finish X outcome reason resp).
Proof. intros Hl w rp w' [= <- _] route r. apply Hl. Qed.
Lemma early_on_routes {X} (f : R → X * R) : early_stop (on_routes f).
Proof. intros w rp w'. unfold on_routes. by destruct (f (w_routes w)). Qed.
Lemma early_on_auth {X} (f : A → X * A) : early_stop (on_auth f).
Proof. intros w rp w'. unfold on_auth. by destruct (f (w_auth w)). Qed.
Lemma early_ask {X} (f : A → X) : early_stop (ask f).
Proof. done. Qed.

Lemma bind_Ok {X Y} (c : act X) (k : X → act Y) w y w' :
  bind c k w = (Ok y, w') ↔ ∃ x w1, c w = (Ok x, w1) ∧ k x w1 = (Ok y, w').
Proof.
  unfold bind. destruct (c w) as [[x|e] w1]; split; [eauto|by intros (? & ? & [= <- <-] & ?)|done|by intros (? & ? & ? & _)].
Qed.

Lemma redirectToRouteLogin_local a r route : local_response (redirectToRouteLogin a r route).
Proof. unfold redirectToRouteLogin. by destruct (negb _). Qed.

Lemma enforceNetworkRules_local r route resp : enforceNetworkRules r route = Err resp → local_response resp.
Proof.
  unfold enforceNetworkRules, check_reputation, check_country. intros Hn.
  repeat case_match; simplify_eq; done.
Qed.

Lemma enforceAccessMethod_local now r route a resp a' :
  enforceAccessMethod now r route a = (Err resp, a') → local_response resp.
Proof.
  unfold enforceAccessMethod. intros He. repeat case_match; simplify_eq; auto using redirectToRouteLogin_local; done.
Qed.

Lemma authorizeRequest_local now r route mode a resp a' :
  authorizeRequest now r route mode a = (Err resp, a') → local_response resp.
Proof.
  unfold authorizeRequest. intros Ha.
  destruct (enforceAccessMethod now r route a) as [[[u g]|e] a1] eqn:He.
  - repeat case_match; simplify_eq; auto using redirectToRouteLogin_local; done.
  - simplify_eq. by eapply enforceAccessMethod_local.
Qed.

(** ** Each step, when it lets the request go on *)

Lemma handlers_pass now r w w' :
  (handleSessionBridge now r w = (Ok None, w') → w' = w) ∧
  (handleRouteAccessBridge now r w = (Ok None, w') → w' = w) ∧
  (handleMagicLink now r w = (Ok None, w') → w' = w).
Proof.
  unfold handleSessionBridge, handleRouteAccessBridge, handleMagicLink, bind, ask, ret, on_auth, on_routes.
  split_and!; intros Hh; repeat case_match; by simplify_eq.
Qed.

Lemma unless_handled_Ok outcome c w u w' : unless_handled outcome c w = (Ok u, w') → c w = (Ok None, w').
Proof.
  unfold unless_handled. rewrite bind_Ok. intros ([resp|] & w1 & Hc & Hk); [done|]. by injection Hk as <- <-.
Qed.

Lemma serve_admin_Ok host path r w r' w' :
  serve_admin host path r w = (Ok r', w') → w' = w ∧ (r' = r ∨ r' = with_header r (admin_headers r)).
Proof. unfold serve_admin, finish, stop, ret. intros Hs. repeat case_match; simplify_eq; auto. Qed.

Lemma find_route_Ok now host path w route w' :
  find_route now host path w = (Ok route, w') →
  (∃ s, route_for (w_routes w) now host path = (Some route, s)) ∧ w_auth w' = w_auth w ∧ w_breakers w' = w_breakers w.
Proof.
  unfold find_route, bind, on_routes, finish, stop, ret. intros Hf.
  destruct (route_for (w_routes w) now host path) as [[route0|] s] eqn:Hr; [|done]. simpl in Hf.
  repeat case_match; simplify_eq; eauto.
Qed.

Lemma authorize_Ok now r route rule w user w' :
  authorize now r route rule w = (Ok user, w') →
  let mode := mode_after rule (ap_AccessMode (EffectivePolicy route)) in
  w_breakers w' = w_breakers w ∧ withinAccessWindows (CompiledWindows route) now = true ∧
  (rule_is AccessRuleAllow rule = true ∧ user = None ∨
   ∃ groupIDs, admitted (w_auth w) now r route mode user groupIDs ∧
     (mode = AccessModeRestricted → isAllowedByRestrictedPolicy user groupIDs (EffectivePolicy route) = true)).
Proof.
  intros Ha mode. unfold authorize in Ha. fold mode in Ha. rewrite bind_Ok in Ha. destruct Ha as (verdict & w1 & Hv & Hk).
  destruct verdict as [[u g]|resp]; [|done].
  destruct (withinAccessWindows (CompiledWindows route) now) eqn:Hw; [|done]. cbn [negb] in Hk.
  destruct (_ && _ && _) eqn:Hres in Hk; [rewrite bind_Ok in Hk; destruct Hk as (? & ? & _ & Hk); done|].
  injection Hk as -> ->. destruct (rule_is AccessRuleAllow rule) eqn:Hallow.
  { injection Hv as <- <- <-. auto. }
  unfold on_auth in Hv. destruct (authorizeRequest now r route mode (w_auth w)) as [x a'] eqn:Hauth.
  injection Hv as -> <-. split_and!; [done|done|]. right. exists g.
  split; [by eapply authorizeRequest_admitted|]. intros Hm. rewrite Hm in Hres. cbn [negb] in Hres.
  destruct (isAllowedByRestrictedPolicy user g (EffectivePolicy route)); [done|]. by rewrite andb_false_iff in Hres; destruct Hres.
Qed.

Lemma handlers_early now r :
  early_stop (handleSessionBridge now r) ∧ early_stop (handleRouteAccessBridge now r) ∧ early_stop (handleMagicLink now r).
Proof.
  unfold handleSessionBridge, handleRouteAccessBridge, handleMagicLink.
  split_and!; repeat (case_match || apply early_ret || apply early_bind || apply early_ask || apply early_on_auth
                      || apply early_on_routes || intros ?).
Qed.

Definition handled_locally (c : act (option response)) : Prop :=
  ∀ w resp w', c w = (Ok (Some resp), w') → local_response resp.

Lemma handlers_local now r :
  handled_locally (handleSessionBridge now r) ∧ handled_locally (handleRouteAccessBridge now r) ∧
  handled_locally (handleMagicLink now r).
Proof.
  unfold handled_locally, handleSessionBridge, handleRouteAccessBridge, handleMagicLink, bind, ask, ret, on_auth, on_routes.
  split_and!; intros w resp w' Hh; repeat case_match; by simplify_eq.
Qed.

Lemma unless_handled_early outcome c : early_stop c → handled_locally c → early_stop (unless_handled outcome c).
Proof.
  intros He Hl w rp w'. unfold unless_handled, bind. destruct (c w) as [[[resp|]|e] w1] eqn:Hc.
  - apply early_finish. by eapply Hl.
  - done.
  - intros [= <- <-]. by eapply He.
Qed.

Lemma serve_admin_early host path r : early_stop (serve_admin host path r).
Proof.
  unfold serve_admin, handleAdminHost. repeat case_match; simplify_eq; apply early_ret || by apply early_finish.
Qed.

Lemma find_route_early now host path : early_stop (find_route now host path).
Proof.
  unfold find_route. apply early_bind; [apply early_on_routes|]. intros [route|]; [|by apply early_finish].
  destruct (Contains path ";"); [|apply early_ret]. apply early_bind; [apply early_on_routes|].
  intros [p|]; [|by apply early_finish]. case_match; [by apply early_finish|apply early_ret].
Qed.

Lemma authorize_early now r route rule : early_stop (authorize now r route rule).
Proof.
  intros w rp w' Ha route' r'. unfold authorize, bind in Ha.
  destruct (rule_is AccessRuleAllow rule); [|unfold on_auth in Ha].
  - cbn [ret] in Ha. unfold ret, finish, stop, ask, redirectToRouteForbidden in Ha. repeat case_match; by simplify_eq.
  - destruct (authorizeRequest now r route _ (w_auth w)) as [[[u g]|resp] a'] eqn:Hauth.
    + unfold ret, finish, stop, ask, redirectToRouteForbidden in Ha. repeat case_match; by simplify_eq.
    + injection Ha as <- <-. simpl. by eapply authorizeRequest_local.
Qed.

Lemma Handler_early now r : early_stop (Handler_steps now r).
Proof.
  destruct (handlers_early now r) as (E1 & E2 & E3), (handlers_local now r) as (L1 & L2 & L3).
  unfold Handler_steps. destruct (canonicalRequestPath (r_Path r)) as [canonical|]; [|by apply early_finish].
  do 3 (apply early_bind; [by apply unless_handled_early|intros _]).
  apply early_bind; [apply serve_admin_early|]. intros r1. case_match; [by apply early_finish|].
  apply early_bind; [apply find_route_early|]. intros route.
  destruct (enforceNetworkRules _ route) as [|resp] eqn:Hn; [|apply early_finish; by eapply enforceNetworkRules_local].
  case_match; [apply early_finish; unfold writeAccessDenied; by case_match|].
  apply early_bind; [apply authorize_early|]. intros user w rp w'. unfold forward.
  destruct (Breaker.isTargetDegraded _ _ _) as [[] reason]; [|done]. by apply early_finish.
Qed.

(** The request as the decisions see it: without identity headers of its own. *)
Definition sanitized (r : Request) : Request := with_header r (sanitizePortlynIdentityHeaders (r_Header r)).

Lemma admin_headers_sanitized r :
  sanitizePortlynIdentityHeaders (admin_headers r) = sanitizePortlynIdentityHeaders (r_Header r).
Proof.
  unfold admin_headers. repeat case_match; rewrite ?sanitize_set by reflexivity; apply sanitize_idem.
Qed.

Lemma realClientIP_sanitized trusted r : realClientIP trusted (sanitized r) = realClientIP trusted r.
Proof.
  unfold realClientIP, forwarded_ip, HGet, Values. simpl. rewrite !sanitize_lookup. reflexivity.
Qed.

(** What a request handed to the upstream of [route] under [user] has passed. *)
Record cleared (now : Z) (r : Request) (w : world) (route : Route) (user : option User) (ip : Addr) : Prop := {
  cl_path : Forall (λ s, dot_segment s = false) (segments_of (r_Path r));
  cl_route : ∃ s, route_for (w_routes w) now (normalizeHost (r_Host r)) (normalizePath (r_Path r)) = (Some route, s);
  cl_ip : realClientIP (trustedProxyCIDRs m) r = Some ip;
  cl_network : network_permits route ip;
  cl_rule : rule_is AccessRuleDeny (matchAccessRule (RAccessRules route) ip (normalizePath (r_Path r))) = false;
  cl_window : withinAccessWindows (CompiledWindows route) now = true;
  cl_breaker : (Breaker.isTargetDegraded (w_breakers w) now (TargetURL route)).1 = false;
  cl_access :
    let rule := matchAccessRule (RAccessRules route) ip (normalizePath (r_Path r)) in
    let mode := mode_after rule (ap_AccessMode (EffectivePolicy route)) in
    rule_is AccessRuleAllow rule = true ∧ user = None ∨
    ∃ groupIDs, admitted (w_auth w) now (sanitized r) route mode user groupIDs ∧
      (mode = AccessModeRestricted → isAllowedByRestrictedPolicy user groupIDs (EffectivePolicy route) = true);
}.

(** The identity headers Portlyn itself sets. *)
Inductive vouched (user : option User) (cert : string) : string → list string → Prop :=
  | vouched_email u : user = Some u → vouched user cert UserEmailHeader [u_Email u]
  | vouched_role u : user = Some u → vouched user cert UserRoleHeader [u_Role u]
  | vouched_id u : user = Some u → vouched user cert UserIDHeader [FormatUint (u_ID u)]
  | vouched_cert : cert ≠ "" → vouched user cert FingerprintHeader [cert].

Lemma matched_rule_ip r route path ip :
  realClientIP (trustedProxyCIDRs m) r = Some ip →
  matched_rule (sanitized r) route path = matchAccessRule (RAccessRules route) ip path.
Proof.
  intros Hip. unfold matched_rule. rewrite realClientIP_sanitized, Hip. by destruct (RAccessRules route).
Qed.

(** The decisions of a request that reaches the end of the handler. *)
Lemma Handler_steps_Ok now r w rp w' :
  Handler_steps now r w = (Ok rp, w') →
  ∃ canonical route user ip a,
    canonicalRequestPath (r_Path r) = Some canonical ∧ cleared now r w route user ip ∧
    let h := stripPortlynCredentials (IsPortlynCredential a)
               (identity_headers (sanitizePortlynIdentityHeaders (r_Header r)) user (r_ClientCert r)) in
    rp_response rp = Upstream route
      (if HasPrefix (r_Path r) "/" && negb (String.eqb canonical (r_Path r))
       then with_path (with_header r h) canonical else with_header r h).
Proof.
  intros Hs. unfold Handler_steps in Hs.
  destruct (canonicalRequestPath (r_Path r)) as [canonical|] eqn:Hcan; [|done].
  rewrite bind_Ok in Hs. destruct Hs as ([] & w1 & H1%unless_handled_Ok & Hs).
  rewrite bind_Ok in Hs. destruct Hs as ([] & w2 & H2%unless_handled_Ok & Hs).
  rewrite bind_Ok in Hs. destruct Hs as ([] & w3 & H3%unless_handled_Ok & Hs).
  apply handlers_pass in H1 as ->. apply handlers_pass in H2 as ->. apply handlers_pass in H3 as ->.
  rewrite bind_Ok in Hs. destruct Hs as (r1 & w4 & [-> Hr1]%serve_admin_Ok & Hs).
  destruct (_ && _ && _ && _) in Hs; [done|].
  rewrite bind_Ok in Hs. destruct Hs as (route & w5 & (Hroute & Hauth & Hbr)%find_route_Ok & Hs).
  assert (with_header r1 (sanitizePortlynIdentityHeaders (r_Header r1)) = sanitized r) as Hsan.
  { destruct Hr1 as [-> | ->]; [done|]. unfold sanitized, with_header. simpl. by rewrite admin_headers_sanitized. }
  cbv zeta in Hs. rewrite Hsan in Hs.
  destruct (enforceNetworkRules (sanitized r) route) as [[]|] eqn:Hnet; [|done].
  apply enforceNetworkRules_spec in Hnet as (ip & Hip & Hnet). rewrite realClientIP_sanitized in Hip.
  rewrite (matched_rule_ip r route _ ip Hip) in Hs.
  destruct (rule_is AccessRuleDeny _) eqn:Hdeny; [done|].
  rewrite bind_Ok in Hs. destruct Hs as (user & w6 & (Hbr' & Hwin & Hacc)%authorize_Ok & Hs).
  unfold forward in Hs. rewrite Hbr', Hbr in Hs.
  destruct (Breaker.isTargetDegraded (w_breakers w) now (TargetURL route)) as [[] reason] eqn:Hdeg; [done|].
  injection Hs as <- <-. rewrite Hauth in Hacc.
  exists canonical, route, user, ip, (w_auth w6). split_and!; [done| |done].
  constructor; try done; [|by rewrite Hdeg].
  apply canonicalRequestPath_total. eauto.
Qed.

Lemma Handler_upstream now r w rp w' route r' :
  Handler now r w = (rp, w') → rp_response rp = Upstream route r' → Handler_steps now r w = (Ok rp, w').
Proof.
  unfold Handler. intros Hh Hup. destruct (Handler_steps now r w) as [[rp0|rp0] w0] eqn:Hs; injection Hh as <- <-; [done|].
  exfalso. by eapply (Handler_early now r).
Qed.

Lemma identity_headers_vouched h user cert name vs :
  identity_headers (sanitizePortlynIdentityHeaders h) user cert !! name = Some vs →
  portlyn_header name = true → vouched user cert name vs.
Proof.
  intros Hl Hp. assert (sanitizePortlynIdentityHeaders h !! name = None) as Hs by (by rewrite sanitize_lookup, Hp).
  unfold identity_headers, HSet, HDel in Hl.
  assert (match user with
          | Some u => <[UserIDHeader:=[FormatUint (u_ID u)]]> (<[UserRoleHeader:=[u_Role u]]>
              (<[UserEmailHeader:=[u_Email u]]> (sanitizePortlynIdentityHeaders h)))
          | None => sanitizePortlynIdentityHeaders h
          end !! name = Some vs → vouched user cert name vs) as Huser.
  { destruct user as [u|]; [|congruence]. rewrite !lookup_insert_Some.
    intros [[<- <-]|[_ [[<- <-]|[_ [[<- <-]|[_ ?]]]]]]; [by constructor..|congruence]. }
  destruct (non_empty cert) eqn:Hc.
  - apply lookup_insert_Some in Hl as [[<- <-]|[_ Hl]]; [constructor; by apply non_empty_true|]. by apply Huser.
  - apply lookup_delete_Some in Hl as [_ Hl]. by apply Huser.
Qed.

Lemma stripPortlynCredentials_lookup cred h name vs :
  name ≠ "Cookie" → stripPortlynCredentials cred h !! name = Some vs → h !! name = Some vs.
Proof.
  intros Hn. unfold stripPortlynCredentials. rewrite stripPortlynCookies_other by done.
  case_match; [|done]. unfold HDel. by intros [_ ?]%lookup_delete_Some.
Qed.

(** * Theorems *)

Lemma Handler_cleared now r w rp w' route r' :
  Handler now r w = (rp, w') → rp_response rp = Upstream route r' → ∃ user ip, cleared now r w route user ip.
Proof.
  intros Hh Hup. destruct (Handler_steps_Ok _ _ _ _ _ (Handler_upstream _ _ _ _ _ _ _ Hh Hup))
    as (canonical & route0 & user & ip & a & _ & Hc & Hr).
  cbv zeta in Hr. rewrite Hup in Hr. injection Hr as <- _. eauto.
Qed.

(** C4 Whatever the request, it reaches an upstream only through the route matched for its host and
    path, from a client address the network rules permit, when no deny rule comes first, inside the
    access windows, with the target not degraded, and either an allow rule matched or the caller
    satisfied the access method and mode of the service, and the restricted policy if there is one. *)
Theorem handler_forwards_only_cleared now r w rp w' route r' :
  Handler now r w = (rp, w') → rp_response rp = Upstream route r' →
  ∃ user ip, cleared now r w route user ip.
Proof. apply Handler_cleared. Qed.

(** The request the upstream gets carries no identity header but those Portlyn sets for the user
    it admitted and the client certificate of the connection, none of Portlyn's cookies, the other
    cookies in order, and the same path segments, none of which climbs. *)
Theorem handler_upstream_request now r w rp w' route r' :
  Handler now r w = (rp, w') → rp_response rp = Upstream route r' →
  ∃ user ip, cleared now r w route user ip ∧
    (∀ name vs, r_Header r' !! name = Some vs → portlyn_header name = true → vouched user (r_ClientCert r) name vs) ∧
    cookie_parts (Values (r_Header r') "Cookie") =
      filter (λ part, isPortlynCookieName (cookie_name part) = false) (cookie_parts (Values (r_Header r) "Cookie")) ∧
    segments_of (r_Path r') = segments_of (r_Path r) ∧ r_RemoteAddr r' = r_RemoteAddr r.
Proof.
  intros Hh Hup. destruct (Handler_steps_Ok _ _ _ _ _ (Handler_upstream _ _ _ _ _ _ _ Hh Hup))
    as (canonical & route0 & user & ip & a & Hcan & Hc & Hr).
  cbv zeta in Hr. rewrite Hup in Hr. injection Hr as <- Hr.
  set (ids := identity_headers (sanitizePortlynIdentityHeaders (r_Header r)) user (r_ClientCert r)) in *.
  assert (r_Header r' = stripPortlynCredentials (IsPortlynCredential a) ids ∧ r_RemoteAddr r' = r_RemoteAddr r ∧
          (r_Path r' = r_Path r ∨ r_Path r' = canonical)) as (Hhd & Hra & Hp).
  { rewrite Hr. case_match; simpl; auto. }
  exists user, ip. split_and!; [done| | | |done].
  - intros name vs Hl Hpn. rewrite Hhd in Hl.
    apply stripPortlynCredentials_lookup in Hl; [|by intros ->]. by eapply identity_headers_vouched.
  - rewrite Hhd. unfold stripPortlynCredentials. rewrite stripPortlynCookies_parts. f_equal. f_equal.
    assert (ids !! "Cookie" = r_Header r !! "Cookie") as Hck.
    { unfold ids, identity_headers, HSet, HDel.
      destruct (non_empty (r_ClientCert r)), user; rewrite ?lookup_insert_ne, ?lookup_delete_ne by done;
        rewrite ?lookup_insert_ne by done; by rewrite sanitize_lookup. }
    unfold Values, HDel. destruct (non_empty _ && _); [rewrite lookup_delete_ne by done|]; by rewrite Hck.
  - destruct Hp as [-> | ->]; [done|]. by apply canonicalRequestPath_same in Hcan as [-> _].
Qed.

End handler.

(** * Witnesses *)

Definition sample_user (role : string) : User :=
  {| u_ID := 7; u_Email := "ada@example.com"; u_PasswordHash := ""; u_Role := role; u_Active := true;
     u_MustChangePassword := false; u_MFAEnabled := false; u_MFASecret := ""; u_MFAPendingSecret := "";
     u_MFARecoveryCodes := []; u_MFAPendingRecoveryCodes := []; u_MFALastTOTPCounter := 0; u_AuthProvider := "local";
     u_AuthProviderRef := ""; u_AuthIssuer := ""; u_DisplayName := ""; u_Username := ""; u_LastLoginAt := None |}.

(** An authentication service that knows one bearer token. *)
Instance sample_auth : AuthService unit := {
  AuthenticateRequest a now r := (None, a);
  AuthenticateHostRequest a now r host :=
    ((if String.eqb (HGet (r_Header r) "Authorization") "Bearer secret" then Some (sample_user RoleAdmin, [], None) else None), a);
  BootstrapAccessAllowed a user session := true;
  RouteAccessCookieClaims a now r id := None;
  ParseSessionBridgeToken a now token := None;
  ParseRouteAccessBridgeToken a now token := None;
  consume_bridge_token a now jti := (false, a);
  ConsumeMagicLink a now id token addr := (false, a);
  SetSessionCookieForHost a token host secure := [];
  SetRouteAccessCookie a now id method email := None;
  BuildRouteLoginURL a id to := "https://portlyn.example.com/route-login";
  BuildRouteForbiddenURL a id to := "https://portlyn.example.com/route-forbidden";
  IsPortlynCredential a token := String.eqb token "secret";
}.

Definition sample_manager : Manager :=
  {| adminHost := "portlyn.example.com"; trustedProxyCIDRs := []; bootstrapAdminEnabled := false;
     bootstrapAdminAllowRemote := false; adminUI := true; adminAPI := true; countryLookup := None; reputation := None;
     geoIPFailOpen := false; crowdSecFailOpen := false; clientCertHeaderSecret := "" |}.

Definition sample_router (routes : list Route) : Router unit :=
  λ st now host path, (List.find (λ route, matchesPath (Path route) path) routes, st).

Definition sample_routes : list Route := match sample_compile with (Ok routes, _) => routes | _ => [] end.

Definition sample_world : world (R := unit) (A := unit) := {| w_routes := tt; w_auth := tt; w_breakers := ∅ |}.

(** A request with a forged identity, a Portlyn cookie and a bearer token. *)
Definition sample_call : Request :=
  sample_request (list_to_map [("Authorization", ["Bearer secret"]); ("X-Portlyn-User-Role", ["root"]);
                               ("Cookie", ["a=1; portlyn_session=x; b=2"])]).

Definition sample_reply : reply :=
  (@Handler unit unit (sample_router sample_routes) sample_auth sample_parse u_Host u_Host (λ _ _, "") sample_manager
     0 sample_call sample_world).1.

Lemma handler_forwards_only_cleared_witness :
  ∃ route r', rp_response sample_reply = Upstream route r' ∧
  ∃ user ip, @cleared unit unit (sample_router sample_routes) sample_auth sample_manager 0 sample_call sample_world route user ip.
Proof.
  destruct (rp_response sample_reply) as [| | | | | | |route r'] eqn:Hr; try (vm_compute in Hr; discriminate Hr).
  exists route, r'. split; [reflexivity|].
  apply (@handler_forwards_only_cleared unit unit (sample_router sample_routes) sample_auth sample_parse u_Host u_Host (λ _ _, "")
           sample_manager 0 sample_call sample_world sample_reply
           (@Handler unit unit (sample_router sample_routes) sample_auth sample_parse u_Host u_Host (λ _ _, "") sample_manager
              0 sample_call sample_world).2 route r').
  - unfold sample_reply. destruct (Handler _ _ _ _ _ _ _ _). reflexivity.
  - exact Hr.
Defined.

Lemma handler_upstream_request_witness :
  ∃ route r', rp_response sample_reply = Upstream route r' ∧
    cookie_parts (Values (r_Header r') "Cookie") = ["a=1"; "b=2"] ∧
    ∀ vs, r_Header r' !! "X-Portlyn-User-Role" = Some vs → vs ≠ ["root"].
Proof.
  destruct (rp_response sample_reply) as [| | | | | | |route r'] eqn:Hr; try (vm_compute in Hr; discriminate Hr).
  exists route, r'. split; [reflexivity|].
  destruct (@handler_upstream_request unit unit (sample_router sample_routes) sample_auth sample_parse u_Host u_Host (λ _ _, "")
           sample_manager 0 sample_call sample_world sample_reply
           (@Handler unit unit (sample_router sample_routes) sample_auth sample_parse u_Host u_Host (λ _ _, "") sample_manager
              0 sample_call sample_world).2 route r') as (user & ip & Hc & Hv & Hck & _ & _).
  - unfold sample_reply. destruct (Handler _ _ _ _ _ _ _ _). reflexivity.
  - exact Hr.
  - split; [rewrite Hck; vm_compute; reflexivity|]. intros vs Hl Hroot.
    vm_compute in Hr. injection Hr as <- <-. vm_compute in Hl. subst vs. discriminate Hl.
Defined.
