(* ===== verification/ReverseProxy.v ===== *)
(** The request a route's reverse proxy sends (internal/proxy/transport.go [reverseProxyForTarget])
    and what net/http/httputil does to its headers afterwards: the hop-by-hop headers are removed
    after the director ran, so the headers a client names in [Connection] are removed too, those the
    proxy has just set included.

    The rewriting of the URL to the target is left out; it touches no header. *)
From S2P Require Import Prelude GoStrings Netip Domain Paths Hosts Requests Routing Handler.

#[local] Open Scope string_scope.
#[local] Open Scope list_scope.

(** * The standard library *)

Fixpoint canonical_from (upper : bool) (s : string) : string :=
  match s with
  | EmptyString => ""
  | String a s' => String (if upper then upper_ascii a else lower_ascii a) (canonical_from (Ascii.eqb a "-") s')
  end.

(** [textproto.CanonicalMIMEHeaderKey]: unchanged when a byte is not a token byte. *)
Definition CanonicalHeaderKey (s : string) : string :=
  if string_all token_byte s then canonical_from true s else s.

Definition header_tokens (h : Header) (name : string) : list string :=
  filter (λ t, t ≠ "") (TrimString <$> (Values h name ≫= λ line, Split line ",")).

Definition hopHeaders : list string :=
  ["Connection"; "Proxy-Connection"; "Keep-Alive"; "Proxy-Authenticate"; "Proxy-Authorization"; "Te"; "Trailer";
   "Transfer-Encoding"; "Upgrade"].

Definition delete_all (names : list string) (h : Header) : Header := foldl HDel h names.

Definition removeHopByHopHeaders (h : Header) : Header :=
  delete_all hopHeaders (delete_all (CanonicalHeaderKey <$> header_tokens h "Connection") h).

Definition upgradeType (h : Header) : string :=
  if existsb (λ t, EqualFold t "Upgrade") (header_tokens h "Connection") then HGet h "Upgrade" else "".

(** [ReverseProxy.ServeHTTP] on the headers the director left: [incoming] are those of the request. *)
Definition after_director (incoming outgoing : Header) (remoteAddr : string) : Header :=
  let upType := upgradeType outgoing in
  let h := removeHopByHopHeaders outgoing in
  let h := if existsb (λ t, EqualFold t "trailers") (header_tokens incoming "Te") then HSet h "Te" "trailers" else h in
  let h := if non_empty upType then HSet (HSet h "Connection" "Upgrade") "Upgrade" upType else h in
  let h := match SplitHostPort remoteAddr with
           | None => h
           | Some (clientIP, _) =>
               let prior := Values h "X-Forwarded-For" in
               let clientIP := match prior with [] => clientIP | _ => Join prior ", " +:+ ", " +:+ clientIP end in
               HSet h "X-Forwarded-For" clientIP
           end in
  match h !! "User-Agent" with None => HSet h "User-Agent" "" | Some _ => h end.

(** * The director *)

Record Outgoing := { o_Host : string; o_Path : string; o_RawPath : string; o_Header : Header }.

Definition directProto (r : Request) : string := if r_TLS r then "https" else "http".

Section director.
Variable trusted : list string.

(** [protoForRequest] and [clientIPForRequest] are [forwardedProto] and [authoritativeClientIP], as
    [routeFromConfig] passes them. *)
Definition director (targetHost routePath : string) (passHostHeader : bool) (r : Request) : Outgoing :=
  let normalizedRoutePath := normalizePath routePath in
  let authoritative := authoritativeClientIP trusted r in
  let set_or_del name h := if non_empty authoritative then HSet h name authoritative else HDel h name in
  let h := set_or_del "X-Forwarded-For" (r_Header r) in
  let h := set_or_del "X-Real-Ip" h in
  let h := HSet h "X-Forwarded-Host" (normalizeHost (r_Host r)) in
  let h := HSet h "X-Forwarded-Proto" (forwardedProto trusted r) in
  let h := HSet h "X-Forwarded-Uri" (r_RequestURI r) in
  let h := if String.eqb normalizedRoutePath "/" then HDel h "X-Forwarded-Prefix"
           else HSet h "X-Forwarded-Prefix" normalizedRoutePath in
  {| o_Host := if passHostHeader then r_Host r else targetHost;
     o_Path := stripRoutePrefix normalizedRoutePath (r_Path r);
     o_RawPath := if non_empty (r_RawPath r) then stripRoutePrefix normalizedRoutePath (r_RawPath r) else r_RawPath r;
     o_Header := h |}.

Definition sent (targetHost routePath : string) (passHostHeader : bool) (r : Request) : Header :=
  after_director (r_Header r) (o_Header (director targetHost routePath passHostHeader r)) (r_RemoteAddr r).

End director.

(** * Lemmas *)

Lemma delete_all_lookup names h name : delete_all names h !! name = if decide (name ∈ names) then None else h !! name.
Proof.
  unfold delete_all. revert h. induction names as [|x names IH]; intros h; cbn [foldl].
  - by rewrite decide_False by apply not_elem_of_nil.
  - rewrite IH. unfold HDel. destruct (decide (name ∈ names)) as [Hin|Hn].
    + by rewrite decide_True by (by right).
    + destruct (decide (name = x)) as [->|Hne].
      * rewrite decide_True by (by left). by rewrite lookup_delete_eq.
      * rewrite decide_False; [by rewrite lookup_delete_ne|]. intros [?|?]%elem_of_cons; done.
Qed.

Lemma removeHopByHopHeaders_lookup h name :
  removeHopByHopHeaders h !! name =
  if decide (name ∈ hopHeaders ∨ name ∈ (CanonicalHeaderKey <$> header_tokens h "Connection")) then None else h !! name.
Proof.
  unfold removeHopByHopHeaders. rewrite !delete_all_lookup. repeat case_decide; tauto.
Qed.

(** What survives of a header that is neither a hop-by-hop header nor set by [ServeHTTP]. *)
Lemma after_director_lookup incoming h remote name :
  name ∉ hopHeaders → name ∉ ["X-Forwarded-For"; "User-Agent"] →
  after_director incoming h remote !! name =
  if decide (name ∈ (CanonicalHeaderKey <$> header_tokens h "Connection")) then None else h !! name.
Proof.
  intros Hhop Hset. assert (name ≠ "X-Forwarded-For" ∧ name ≠ "User-Agent") as [Hx Hu] by set_solver.
  assert (name ≠ "Te" ∧ name ≠ "Connection" ∧ name ≠ "Upgrade") as (Ht & Hc & Hup) by (unfold hopHeaders in Hhop; set_solver).
  unfold after_director, HSet. cbv zeta.
  match goal with |- context [SplitHostPort remote] => destruct (SplitHostPort remote) as [[ip port]|] end;
    destruct (existsb (λ t, EqualFold t "trailers") _), (non_empty (upgradeType h)); case_match;
    rewrite ?lookup_insert_ne by done; rewrite removeHopByHopHeaders_lookup; repeat case_decide; tauto.
Qed.

Lemma director_lookup trusted target path pass r name :
  o_Header (director trusted target path pass r) !! name =
  if decide (name ∈ ["X-Forwarded-For"; "X-Real-Ip"; "X-Forwarded-Host"; "X-Forwarded-Proto"; "X-Forwarded-Uri"; "X-Forwarded-Prefix"])
  then o_Header (director trusted target path pass r) !! name else r_Header r !! name.
Proof.
  case_decide as Hn; [done|].
  assert (name ≠ "X-Forwarded-For" ∧ name ≠ "X-Real-Ip" ∧ name ≠ "X-Forwarded-Host" ∧ name ≠ "X-Forwarded-Proto" ∧
          name ≠ "X-Forwarded-Uri" ∧ name ≠ "X-Forwarded-Prefix") as (? & ? & ? & ? & ? & ?) by set_solver.
  unfold director, HSet, HDel. simpl. repeat case_match; rewrite ?lookup_insert_ne, ?lookup_delete_ne by done;
    rewrite ?lookup_insert_ne, ?lookup_delete_ne by done; rewrite ?lookup_insert_ne by done; done.
Qed.

(** * Theorems *)

(** The name is reached through [Connection]. *)
Definition named_in_connection (r : Request) (name : string) : Prop :=
  name ∈ (CanonicalHeaderKey <$> header_tokens (r_Header r) "Connection").

Lemma director_connection trusted target path pass r :
  header_tokens (o_Header (director trusted target path pass r)) "Connection" = header_tokens (r_Header r) "Connection".
Proof.
  unfold header_tokens, Values. rewrite director_lookup, decide_False; [done|]. set_solver.
Qed.

(** What an upstream is to see of the addresses: the client's, then the peer's, without a part that is unknown. *)
Definition forwarded_for (clientIP remoteAddr : string) : option (list string) :=
  match (if String.eqb clientIP "" then [] else [clientIP]) ++ match SplitHostPort remoteAddr with Some (host, _) => [host] | None => [] end with
  | [] => None
  | hops => Some [Join hops ", "]
  end.

Lemma after_director_forwarded incoming h clientIP remoteAddr :
  h !! "X-Forwarded-For" = (if String.eqb clientIP "" then None else Some [clientIP]) →
  "X-Forwarded-For" ∉ (CanonicalHeaderKey <$> header_tokens h "Connection") →
  after_director incoming h remoteAddr !! "X-Forwarded-For" = forwarded_for clientIP remoteAddr.
Proof.
  intros Hh Hc. assert ("X-Forwarded-For" ∉ hopHeaders) as Hhop by (apply (bool_decide_unpack _); vm_compute; exact I).
  assert (∀ h' : Header, (match h' !! "User-Agent" with None => HSet h' "User-Agent" "" | Some _ => h' end) !! "X-Forwarded-For" = h' !! "X-Forwarded-For") as Hua.
  { intros h'. destruct (h' !! "User-Agent"); [done|]. unfold HSet. by rewrite lookup_insert_ne. }
  unfold after_director. cbv zeta. rewrite Hua. unfold forwarded_for.
  set (h1 := if existsb _ _ then _ else _). set (h2 := if non_empty _ then _ else _).
  assert (h2 !! "X-Forwarded-For" = if String.eqb clientIP "" then None else Some [clientIP]) as H2.
  { unfold h2, h1, HSet. destruct (non_empty (upgradeType h)), (existsb _ _); rewrite ?lookup_insert_ne by done;
      rewrite removeHopByHopHeaders_lookup, decide_False by tauto; exact Hh. }
  destruct (SplitHostPort remoteAddr) as [[host port]|].
  - unfold HSet, Values. rewrite lookup_insert_eq, H2. by destruct (String.eqb clientIP "").
  - rewrite H2. by destruct (String.eqb clientIP "").
Qed.

(** C31 Unless the client names them in [Connection], the upstream gets the forwarding headers of the
    proxy and not those of the client: the client's address as the trusted-proxy rules determine it, in X-Real-Ip and, followed by the
    address of the peer, in X-Forwarded-For, the host, the scheme and the URI of the request, and the prefix of the route.  When no address
    can be determined, X-Real-Ip is removed and X-Forwarded-For has the peer alone, if that. *)
Theorem forwarding_headers_authoritative trusted target path pass r :
  (∀ name, name ∈ ["X-Forwarded-For"; "X-Real-Ip"; "X-Forwarded-Host"; "X-Forwarded-Proto"; "X-Forwarded-Uri"; "X-Forwarded-Prefix"] →
     ¬ named_in_connection r name) →
  let h := sent trusted target path pass r in
  let ip := authoritativeClientIP trusted r in
  h !! "X-Forwarded-For" = forwarded_for ip (r_RemoteAddr r) ∧
  h !! "X-Real-Ip" = (if String.eqb ip "" then None else Some [ip]) ∧
  h !! "X-Forwarded-Host" = Some [normalizeHost (r_Host r)] ∧
  h !! "X-Forwarded-Proto" = Some [forwardedProto trusted r] ∧
  h !! "X-Forwarded-Uri" = Some [r_RequestURI r] ∧
  h !! "X-Forwarded-Prefix" = (if String.eqb (normalizePath path) "/" then None else Some [normalizePath path]).
Proof.
  intros Hconn h ip. unfold h, sent.
  assert (∀ name, name ∈ ["X-Real-Ip"; "X-Forwarded-Host"; "X-Forwarded-Proto"; "X-Forwarded-Uri"; "X-Forwarded-Prefix"] →
    after_director (r_Header r) (o_Header (director trusted target path pass r)) (r_RemoteAddr r) !! name =
    o_Header (director trusted target path pass r) !! name) as Hsame.
  { intros name Hn. rewrite after_director_lookup by set_solver. rewrite director_connection, decide_False; [done|].
    apply Hconn. set_solver. }
  rewrite (after_director_forwarded _ _ ip); [split; [done|]| |rewrite director_connection; apply Hconn; by left].
  - rewrite !Hsame by set_solver. unfold director, HSet, HDel. cbn [o_Header]. fold ip. unfold non_empty.
    destruct (String.eqb (normalizePath path) "/"), (String.eqb ip ""); cbn [negb]; split_and!;
      repeat first [rewrite lookup_insert_eq | rewrite lookup_delete_eq | rewrite lookup_insert_ne by done | rewrite lookup_delete_ne by done]; done.
  - unfold director, HSet, HDel. cbn [o_Header]. fold ip. unfold non_empty.
    destruct (String.eqb (normalizePath path) "/"), (String.eqb ip ""); cbn [negb];
      repeat first [rewrite lookup_insert_eq | rewrite lookup_delete_eq | rewrite lookup_insert_ne by done | rewrite lookup_delete_ne by done]; done.
Qed.

(** A client that names an identity header in [Connection] removes it: the upstream then sees a
    request without the identity Portlyn established, although it was forwarded for that user. *)
Theorem connection_drops_identity trusted target path pass r name :
  portlyn_header name = true → named_in_connection r name → sent trusted target path pass r !! name = None.
Proof.
  intros Hp Hn. unfold sent. rewrite after_director_lookup.
  - rewrite director_connection. by rewrite decide_True.
  - intros Hin. assert (Forall (λ n, portlyn_header n = false) hopHeaders) as Hf by (repeat constructor).
    eapply Forall_forall in Hf; [|done]. congruence.
  - intros Hin. assert (Forall (λ n, portlyn_header n = false) ["X-Forwarded-For"; "User-Agent"]) as Hf by (repeat constructor).
    eapply Forall_forall in Hf; [|done]. congruence.
Qed.

Lemma forwarding_headers_authoritative_witness :
  let h := sent [] "10.0.0.5:8080" "/" false
    (sample_request (list_to_map [("X-Real-Ip", ["1.1.1.1"]); ("X-Forwarded-For", ["1.1.1.1"]); ("Connection", ["keep-alive"])])) in
  h !! "X-Real-Ip" = Some ["198.51.100.7"] ∧ h !! "X-Forwarded-For" = Some ["198.51.100.7, 198.51.100.7"].
Proof.
  destruct (forwarding_headers_authoritative [] "10.0.0.5:8080" "/" false
              (sample_request (list_to_map [("X-Real-Ip", ["1.1.1.1"]); ("X-Forwarded-For", ["1.1.1.1"]); ("Connection", ["keep-alive"])]))) as (Hf & Hi & _).
  - intros name Hname. unfold named_in_connection.
    assert (CanonicalHeaderKey <$> header_tokens (r_Header
      (sample_request (list_to_map [("X-Real-Ip", ["1.1.1.1"]); ("X-Forwarded-For", ["1.1.1.1"]); ("Connection", ["keep-alive"])]))) "Connection" = ["Keep-Alive"])
      as -> by (vm_compute; reflexivity).
    intros ->%list_elem_of_singleton. revert Hname. apply (bool_decide_unpack (_ ∉ _)). vm_compute. exact I.
  - cbv zeta. rewrite Hf, Hi. split; vm_compute; reflexivity.
Defined.

Lemma connection_drops_identity_witness :
  sent [] "10.0.0.5:8080" "/" false
    (sample_request (list_to_map [(UserEmailHeader, ["ada@example.com"]); ("Connection", ["close, x-portlyn-user-email"])]))
    !! UserEmailHeader = None.
Proof.
  apply (connection_drops_identity [] "10.0.0.5:8080" "/" false
    (sample_request (list_to_map [(UserEmailHeader, ["ada@example.com"]); ("Connection", ["close, x-portlyn-user-email"])]))
    UserEmailHeader); [reflexivity|].
  unfold named_in_connection. apply (bool_decide_unpack (_ ∈ (_ : list string))). vm_compute. exact I.
Defined.
