(* ===== verification/Proxy.v ===== *)
(** The proxy put together: the routing component behind the [Router] interface of the handler,
    with the laws the interface asks for, and what follows for whole requests: what is forwarded
    goes to an enabled service of the table, under the policy the table holds at that moment. *)
From S2P Require Import Prelude GoStrings Netip Domain Paths Hosts AccessRules AccessPolicy LRU Routing.
From S2P Require Import Requests Resilience Handler.

#[local] Open Scope string_scope.
#[local] Open Scope list_scope.

(** * Routes and the services they come from *)

Lemma normalizedPolicy_idem policy legacy :
  normalizedPolicy (normalizedPolicy policy legacy) legacy = normalizedPolicy policy legacy.
Proof.
  unfold normalizedPolicy.
  destruct (String.eqb (TrimSpace (ap_AccessMode policy)) "") eqn:He; [|by rewrite He].
  destruct (String.eqb legacy AuthPolicyPublic); [done|]. by destruct (String.eqb legacy AuthPolicyAdminOnly).
Qed.

Lemma EffectiveAccess_normal service :
  let policy := (EffectiveAccessForService service).1.1.1 in
  normalizedPolicy policy (s_AuthPolicy service) = policy.
Proof.
  unfold EffectiveAccessForService. repeat case_match; simplify_eq/=; apply normalizedPolicy_idem.
Qed.

Section proxy.
Context (url_Parse : string → option URL) (url_String : URL → string) (url_Port url_Hostname : URL → string)
  (valid_pem : string → bool) (LoadLocation : string → option Location) (tunnelReady : bool)
  (order_by_path : list Service → list Service) (sort_routes : list Route → list Route).
Context (order_perm : ∀ l, order_by_path l ≡ₚ l) (sort_perm : ∀ l, sort_routes l ≡ₚ l).

Abbreviation fresh := (fresh_routes url_Parse url_String url_Port url_Hostname valid_pem LoadLocation tunnelReady order_by_path).
Abbreviation route_of := (routeFromConfig url_Parse url_String url_Port url_Hostname valid_pem LoadLocation tunnelReady).
Abbreviation ok_state := (coherent url_Parse url_String url_Port url_Hostname valid_pem LoadLocation tunnelReady order_by_path).

Instance proxy_router : Router proxy_state :=
  matchRoute url_Parse url_String url_Port url_Hostname valid_pem LoadLocation tunnelReady order_by_path sort_routes.

(** [route] is compiled from a row of the table that serves [host]. *)
Definition serves_from (st : proxy_state) (host : string) (route : Route) : Prop :=
  ∃ routes, fresh (services st) (normalizeHost host) routes ∧ route ∈ routes.

Lemma matchRoute_resolve st now host path route st' :
  route_for st now host path = (route, st') →
  ∃ res, resolveRoutesForHost url_Parse url_String url_Port url_Hostname valid_pem LoadLocation tunnelReady
           order_by_path sort_routes st now host = (res, st') ∧
    match route with
    | Some route => ∃ routes, res = Ok routes ∧ route ∈ routes ∧ matchesPath (Path route) path = true
    | None => True
    end.
Proof.
  unfold route_for, proxy_router, matchRoute.
  destruct (resolveRoutesForHost _ _ _ _ _ _ _ _ _ st now host) as [[routes|] s]; intros [= <- <-]; [|eauto].
  exists (Ok routes). split; [done|]. destruct (List.find _ routes) as [x|] eqn:Hf; [|done].
  apply List.find_some in Hf as [Hin%list_elem_of_In Hm]. eauto.
Qed.

#[refine] Instance proxy_router_laws : RouterLaws proxy_state :=
  {| router_ok := ok_state; serves := serves_from |}.
Proof.
  - intros st now host path Hok Hc. destruct (route_for st now host path) as [route st'] eqn:Hr.
    apply matchRoute_resolve in Hr as (res & Hres & _).
    by eapply resolve_coherent in Hres as [? _].
  - intros st now host path route st' Hok Hc Hr.
    apply matchRoute_resolve in Hr as (res & Hres & routes & -> & Hin & Hm).
    eapply resolve_coherent in Hres as (_ & _ & Hf); [|done..].
    split; [|done]. exists routes. auto.
  - intros st now host path h route Hok Hc. destruct (route_for st now host path) as [found st'] eqn:Hr.
    apply matchRoute_resolve in Hr as (res & Hres & _).
    eapply resolve_coherent in Hres as (_ & Hs & _); [|done..].
    unfold serves_from. simpl. by rewrite Hs.
Defined.

(** What a compiled route takes over from the row of its service. *)
Record route_for_service (service : Service) (route : Route) : Prop := {
  rs_id : ServiceID route = s_ID service;
  rs_path : Path route = normalizePath (s_Path service);
  rs_policy : EffectivePolicy route = (EffectiveAccessForService service).1.1.1;
  rs_method : EffectiveMethod route = normalizedAccessMethod (EffectiveAccessForService service).1.1.2;
  rs_allow : compileCIDRs (d_IPAllowlist (s_Domain service) ++ s_IPAllowlist service) = Ok (AllowPrefixes route);
  rs_block : compileCIDRs (d_IPBlocklist (s_Domain service) ++ s_IPBlocklist service) = Ok (BlockPrefixes route);
  rs_windows : compileAccessWindows LoadLocation (s_AccessWindows service) = Ok (CompiledWindows route);
  rs_rules : compileAccessRules (s_AccessRules service) = Ok (RAccessRules route);
  rs_target : TargetURL route = (rewriteTargetForTunnel url_Parse url_String url_Port (s_TargetURL service) service).1;
  rs_breaker : breakerTarget route = s_TargetURL service;
}.

Lemma routeFromConfig_service rev service config route rev' :
  toRouteConfig service = Some config → route_of rev config = (Ok route, rev') → route_for_service service route.
Proof.
  unfold toRouteConfig. destruct (negb _); [done|]. pose proof (EffectiveAccess_normal service) as Hnorm.
  destruct (EffectiveAccessForService service) as [[[policy method] conf] inherited] eqn:He. simpl in Hnorm.
  intros [= <-]. unfold routeFromConfig. cbn [rc_TargetURL rc_Service].
  destruct (rewriteTargetForTunnel _ _ _ (s_TargetURL service) service) as [target via] eqn:Ht.
  destruct (url_Parse target); [|done]. cbn [rc_AllowCIDRs rc_BlockCIDRs rc_AccessWindows rc_AccessRules].
  destruct (compileCIDRs (_ ++ s_IPAllowlist service)) as [allow|] eqn:Ha; simpl; [|done].
  destruct (compileCIDRs (_ ++ s_IPBlocklist service)) as [block|] eqn:Hb; simpl; [|done].
  destruct (compileAccessWindows LoadLocation (s_AccessWindows service)) as [windows|] eqn:Hw; simpl; [|done].
  destruct (compileAccessRules (s_AccessRules service)) as [rules|] eqn:Hr; simpl; [|done].
  intros [= <- _]. constructor; simpl; rewrite ?He, ?Ht; done.
Qed.

Lemma compile_routes_elem rev configs routes rev' route :
  compile_routes url_Parse url_String url_Port url_Hostname valid_pem LoadLocation tunnelReady rev configs = (Ok routes, rev') →
  route ∈ routes → ∃ config r1 r2, config ∈ configs ∧ route_of r1 config = (Ok route, r2).
Proof.
  revert rev routes rev'. induction configs as [|c configs IH]; intros rev routes rev'; simpl.
  - intros [= <- _] Hin. by apply elem_of_nil in Hin.
  - destruct (route_of rev c) as [[x|] r1] eqn:Hc; [|done].
    destruct (compile_routes _ _ _ _ _ _ _ r1 configs) as [[xs|] r2] eqn:Hcs; [|done].
    intros [= <- _] [->|Hin]%elem_of_cons; [exists c, rev, r1; split; [by left|done]|].
    destruct (IH _ _ _ Hcs Hin) as (config & ? & ? & ? & ?). exists config. eauto using list_elem_of_further.
Qed.

(** A served route belongs to an enabled service of that host. *)
Lemma serves_service st host route :
  clean_host host → serves_from st host route →
  ∃ service, service ∈ services st ∧ s_Enabled service = true ∧ route_for_service service route ∧
    (ServiceHost service = normalizeHost host ∨
     IsWildcardHost (ServiceHost service) = true ∧ HostMatches (ServiceHost service) (normalizeHost host) = true).
Proof.
  intros Hclean (routes & (rev & configs & rev' & compiled & Hconf & Hcomp & Hperm) & Hin).
  rewrite Hperm in Hin. destruct (compile_routes_elem _ _ _ _ _ Hcomp Hin) as (config & r1 & r2 & Hc & Hr).
  rewrite Hconf in Hc. unfold GetRoutesForHost in Hc. cbv zeta in Hc.
  destruct (normalizeHost_key host Hclean) as (_ & Hcan & Hidem).
  set (key := normalizeHost host) in *. rewrite Hcan in Hc.
  destruct (domainCandidatesForHost key) as [|cand cands] eqn:Hcands; [by apply elem_of_nil in Hc|].
  rewrite <-Hcands in Hc.
  destruct (decide (key = "")) as [Hk0|Hk0]; [rewrite Hk0 in Hcands; done|].
  apply filterRoutesByHost_spec in Hc as [Hc Hhost]; [|by rewrite Hcan].
  unfold toRouteConfigs in Hc. apply list_elem_of_omap in Hc as (service & Hs & Htr).
  rewrite order_perm in Hs. apply list_elem_of_In, List.filter_In in Hs as [Hs%list_elem_of_In Hsel].
  exists service. unfold selected in Hsel. destruct_bools.
  split_and!; [done|done|by eapply routeFromConfig_service|].
  assert (rc_Host config = ServiceHost service) as Hrc by (by apply toRouteConfig_host).
  rewrite Hrc, Hcan, (ServiceHostname_canonical _ _ : ToLower (TrimSpace (ServiceHost service)) = _) in Hhost.
  destruct Hhost as [?|(_ & ? & ?)]; auto.
Qed.

(** * Whole requests *)

Context {A : Type} `{AuthService A} (url_RequestURI : URL → string) (Sign : string → string → string) (m : Manager).

Abbreviation handle := (Handler url_Parse url_String url_RequestURI Sign m).

Lemma proxied_service svcs cap ttl shared now r (w w' : world (R := proxy_state) (A := A)) rp route r' :
  rtc (routing_step url_Parse url_String url_Port url_Hostname valid_pem LoadLocation tunnelReady order_by_path sort_routes)
    (initial_state svcs cap ttl shared) (w_routes w) →
  clean_host (r_Host r) → handle now r w = (rp, w') → rp_response rp = Upstream route r' →
  ∃ service user ip, service ∈ services (w_routes w) ∧ s_Enabled service = true ∧
    route_for_service service route ∧
    (ServiceHost service = normalizeHost (r_Host r) ∨ HostMatches (ServiceHost service) (normalizeHost (r_Host r)) = true) ∧
    matchesPath (normalizePath (s_Path service)) (normalizePath (r_Path r)) = true ∧
    cleared m now r w route user ip.
Proof.
  intros Hsteps Hclean Hh Hup. destruct (Handler_cleared _ _ _ _ _ _ _ _ _ _ _ _ Hh Hup) as (user & ip & Hc).
  assert (router_ok (w_routes w)) as Hok.
  { simpl. revert Hsteps. generalize (w_routes w). apply rtc_ind_r; [apply initial_coherent|].
    intros. eapply routing_step_coherent; eauto. }
  destruct (normalizeHost_key _ Hclean) as (Hclean' & Hcan & Hidem).
  destruct (cl_route _ _ _ _ _ _ _ Hc) as (s & Hr).
  destruct (route_for_serves _ _ _ _ _ _ Hok Hclean' Hr) as (Hs & Hm).
  destruct (serves_service _ _ _ Hclean' Hs) as (service & Hin & Hen & Hrs & Hhost).
  exists service, user, ip. rewrite Hidem in Hhost. rewrite (rs_path _ _ Hrs) in Hm.
  split_and!; [done..| |done|done]. destruct Hhost as [?|[_ ?]]; auto.
Qed.

(** After any history of requests and of administrative changes with their invalidations, a
    request that is forwarded goes to a service that is in the table now, is enabled, has a host
    name matching the request and a path that is a prefix of the request's in whole segments; the
    policy, the access method, the address lists, the windows and the rules it was checked against
    are those of that row. *)
Theorem proxied_to_current_service svcs cap ttl shared now r (w w' : world (R := proxy_state) (A := A)) rp route r' :
  rtc (routing_step url_Parse url_String url_Port url_Hostname valid_pem LoadLocation tunnelReady order_by_path sort_routes)
    (initial_state svcs cap ttl shared) (w_routes w) →
  clean_host (r_Host r) → handle now r w = (rp, w') → rp_response rp = Upstream route r' →
  ∃ service user ip, service ∈ services (w_routes w) ∧ s_Enabled service = true ∧
    route_for_service service route ∧
    (ServiceHost service = normalizeHost (r_Host r) ∨ HostMatches (ServiceHost service) (normalizeHost (r_Host r)) = true) ∧
    matchesPath (normalizePath (s_Path service)) (normalizePath (r_Path r)) = true ∧
    cleared m now r w route user ip.
Proof. apply proxied_service. Qed.

(** Why a request is forwarded. *)
Lemma access_causes svcs cap ttl shared now r (w w' : world (R := proxy_state) (A := A)) rp route r' :
  rtc (routing_step url_Parse url_String url_Port url_Hostname valid_pem LoadLocation tunnelReady order_by_path sort_routes)
    (initial_state svcs cap ttl shared) (w_routes w) →
  clean_host (r_Host r) → handle now r w = (rp, w') → rp_response rp = Upstream route r' →
  ∃ service, service ∈ services (w_routes w) ∧ ServiceID route = s_ID service ∧
    ((∃ ip rule, realClientIP (trustedProxyCIDRs m) r = Some ip ∧ rule ∈ RAccessRules route ∧
        cr_Action rule = AccessRuleAllow ∧ rule_hit rule ip (normalizePath (r_Path r)) = true) ∨
     (∃ user groupIDs a', authenticateProxyRequest m now (sanitized r) (w_auth w) = (Ok (user, groupIDs), a')) ∨
     (∃ claims, RouteAccessCookieClaims (w_auth w) now (sanitized r) (s_ID service) = Some claims ∧
        ra_Method claims ∈ [AccessMethodPIN; AccessMethodEmailCode]) ∨
     s_AuthPolicy service = AuthPolicyPublic ∨
     (s_UseGroupPolicy service = false ∧ s_AccessMode service = AccessModePublic) ∨
     (∃ g, (EffectiveAccessForService service).2 = Some g ∧ ap_AccessMode (sg_DefaultAccessPolicy g) = AccessModePublic)).
Proof.
  intros Hsteps Hclean Hh Hup.
  destruct (proxied_service _ _ _ _ _ _ _ _ _ _ _ Hsteps Hclean Hh Hup) as (service & user & ip & Hin & _ & Hrs & _ & _ & Hc).
  exists service. split; [done|]. split; [apply Hrs|].
  pose proof (cl_access _ _ _ _ _ _ _ Hc) as Hacc. cbv zeta in Hacc.
  destruct Hacc as [[Hallow _]|(groupIDs & Hadm & _)].
  { left. unfold rule_is in Hallow. destruct (matchAccessRule _ ip _) as [rule|] eqn:Hm; [|done].
    apply List.find_some in Hm as [Hr%list_elem_of_In Hhit]. apply String.eqb_eq in Hallow.
    exists ip, rule. split_and!; [apply Hc|done..]. }
  destruct Hadm as [Hmode _|u g a' _ _ Hauth|u g a' _ _ Hauth|claims _ Hm Hcl Hcm _]; [|by eauto 10..|].
  2: { right. right. left. exists claims. rewrite <-(rs_id _ _ Hrs). split; [done|]. by rewrite Hcm. }
  do 3 right. rewrite (rs_policy _ _ Hrs) in Hmode.
  destruct (effective_mode_public service) as [Hblank Hpub]. cbv zeta in Hblank, Hpub. apply Hpub.
  unfold mode_after in Hmode. case_match; [set_solver|].
  apply elem_of_cons in Hmode as [Hm|Hm]; [rewrite Hm in Hblank; done|by apply list_elem_of_singleton in Hm].
Qed.

(** No request is forwarded without cause: an allow rule matched, or the caller was authenticated,
    or it carries an access cookie for the service's pin or e-mail code, or the service is configured
    as public by its own mode, by the group it inherits from or by its legacy policy. *)
Theorem no_unconfigured_access svcs cap ttl shared now r (w w' : world (R := proxy_state) (A := A)) rp route r' :
  rtc (routing_step url_Parse url_String url_Port url_Hostname valid_pem LoadLocation tunnelReady order_by_path sort_routes)
    (initial_state svcs cap ttl shared) (w_routes w) →
  clean_host (r_Host r) → handle now r w = (rp, w') → rp_response rp = Upstream route r' →
  ∃ service, service ∈ services (w_routes w) ∧ ServiceID route = s_ID service ∧
    ((∃ ip rule, realClientIP (trustedProxyCIDRs m) r = Some ip ∧ rule ∈ RAccessRules route ∧
        cr_Action rule = AccessRuleAllow ∧ rule_hit rule ip (normalizePath (r_Path r)) = true) ∨
     (∃ user groupIDs a', authenticateProxyRequest m now (sanitized r) (w_auth w) = (Ok (user, groupIDs), a')) ∨
     (∃ claims, RouteAccessCookieClaims (w_auth w) now (sanitized r) (s_ID service) = Some claims ∧
        ra_Method claims ∈ [AccessMethodPIN; AccessMethodEmailCode]) ∨
     s_AuthPolicy service = AuthPolicyPublic ∨
     (s_UseGroupPolicy service = false ∧ s_AccessMode service = AccessModePublic) ∨
     (∃ g, (EffectiveAccessForService service).2 = Some g ∧ ap_AccessMode (sg_DefaultAccessPolicy g) = AccessModePublic)).
Proof. apply access_causes. Qed.

(** * The circuit breaker and the routes *)

(** What the upstream did: no answer, or an answer with a status. *)
Inductive upstream_result := UpstreamFailed (err : string) | UpstreamAnswered (status : Z).

(** [proxy.ErrorHandler] and [proxy.ModifyResponse] of [routeFromConfig]. *)
Definition after_upstream (route : Route) (b : Breaker.breakers) (now : Z) (answer : upstream_result) : Breaker.breakers :=
  match answer with
  | UpstreamFailed err => Breaker.recordTargetFailure b now (breakerTarget route) (Some err)
  | UpstreamAnswered status =>
      if (502 <=? status)%Z
      then Breaker.recordTargetFailure b now (breakerTarget route) (Some ("returned status " +:+ pretty status))
      else Breaker.recordTargetSuccess b (breakerTarget route)
  end.

(** For a service behind a node the circuit breaker never opens: the handler asks for the target
    rewritten to the tunnel address, the failures are recorded under the configured one, so no
    sequence of upstream failures changes what the handler sees. *)
Theorem breaker_blind_behind_node service route b now (answers : list (Z * upstream_result)) :
  route_for_service service route →
  (rewriteTargetForTunnel url_Parse url_String url_Port (s_TargetURL service) service).1 ≠ s_TargetURL service →
  Breaker.isTargetDegraded (foldl (λ b a, after_upstream route b a.1 a.2) b answers) now (TargetURL route) =
  Breaker.isTargetDegraded b now (TargetURL route).
Proof.
  intros Hrs Hne. rewrite <-(rs_target _ _ Hrs), <-(rs_breaker _ _ Hrs) in Hne.
  assert (∀ a t b', (after_upstream route b' t a) !! TargetURL route = b' !! TargetURL route) as Hstep.
  { intros a t b'. unfold after_upstream, Breaker.recordTargetFailure, Breaker.recordTargetSuccess.
    repeat case_match; by rewrite ?lookup_insert_ne, ?lookup_delete_ne. }
  assert (foldl (λ b a, after_upstream route b a.1 a.2) b answers !! TargetURL route = b !! TargetURL route) as Heq.
  { revert b. induction answers as [|a l IH]; intros b; [done|]. simpl. by rewrite IH, Hstep. }
  unfold Breaker.isTargetDegraded. by rewrite Heq.
Qed.

End proxy.

(** * Witnesses *)

Definition sample_proxy : Router proxy_state :=
  proxy_router sample_parse u_Host u_Host u_Host (λ _, true) (λ _, None) false (λ l, l) sort_by_length.

Definition proxy_world : @world proxy_state unit :=
  {| w_routes := initial_state sample_services 10 (30 * Second) true; w_auth := tt; w_breakers := ∅ |}.

Definition proxy_answer : reply * world :=
  @Handler proxy_state unit sample_proxy sample_auth sample_parse u_Host u_Host (λ _ _, "") sample_manager 0 sample_call proxy_world.

Lemma proxied_to_current_service_witness :
  ∃ route r', rp_response proxy_answer.1 = Upstream route r' ∧
  ∃ service, service ∈ sample_services ∧ s_Enabled service = true ∧ s_ID service = 2%N.
Proof.
  destruct (rp_response proxy_answer.1) as [| | | | | | |route r'] eqn:Hr; try (vm_compute in Hr; discriminate Hr).
  exists route, r'. split; [reflexivity|].
  destruct (proxied_to_current_service sample_parse u_Host u_Host u_Host (λ _, true) (λ _, None) false (λ l, l) sort_by_length
              (λ l, ltac:(reflexivity)) (λ l, proj1 (sort_by_length_spec l)) (A := unit) u_Host (λ _ _, "") sample_manager
              sample_services 10 (30 * Second) true 0 sample_call proxy_world proxy_answer.2 proxy_answer.1 route r')
    as (service & user & ip & Hin & Hen & Hrs & _).
  - apply rtc_refl.
  - reflexivity.
  - apply surjective_pairing.
  - exact Hr.
  - exists service. split_and!; [exact Hin|exact Hen|]. rewrite <-(rs_id _ _ _ _ _ _ Hrs).
    vm_compute in Hr. injection Hr as <- _. reflexivity.
Defined.

Lemma no_unconfigured_access_witness :
  ∃ route r', rp_response proxy_answer.1 = Upstream route r' ∧
  ∃ service, service ∈ sample_services ∧ ServiceID route = s_ID service.
Proof.
  destruct (rp_response proxy_answer.1) as [| | | | | | |route r'] eqn:Hr; try (vm_compute in Hr; discriminate Hr).
  exists route, r'. split; [reflexivity|].
  destruct (no_unconfigured_access sample_parse u_Host u_Host u_Host (λ _, true) (λ _, None) false (λ l, l) sort_by_length
              (λ l, ltac:(reflexivity)) (λ l, proj1 (sort_by_length_spec l)) (A := unit) u_Host (λ _ _, "") sample_manager
              sample_services 10 (30 * Second) true 0 sample_call proxy_world proxy_answer.2 proxy_answer.1 route r')
    as (service & Hin & Hid & _).
  - apply rtc_refl.
  - reflexivity.
  - apply surjective_pairing.
  - exact Hr.
  - exists service. split; [exact Hin|exact Hid].
Defined.

(** A service behind a node with the tunnel address 10.42.0.7. *)
Definition node_service : Service :=
  {| s_ID := 5; s_Name := "behind"; s_DomainID := 1; s_Domain := sample_domain; s_Subdomain := "node"; s_Path := "/";
     s_TargetURL := "http://192.168.1.9"; s_TLSMode := ""; s_PassHostHeader := false; s_UpstreamSkipVerify := false;
     s_UpstreamCAPEM := ""; s_UpstreamServerName := ""; s_AuthPolicy := "public"; s_AccessMode := "public";
     s_AllowedRoles := []; s_AllowedGroups := []; s_AllowedServiceGroups := []; s_UseGroupPolicy := false;
     s_AccessMethod := ""; s_AccessMethodConfig := ∅; s_AccessMessage := ""; s_IPAllowlist := []; s_IPBlocklist := [];
     s_AllowedCountries := []; s_BlockedCountries := []; s_AccessWindows := []; s_AccessRules := [];
     s_LoginHosts := []; s_LastDeployedAt := None; s_DeploymentRevision := 1; s_Enabled := true; s_NodeID := Some 1%N;
     s_Node := Some {| n_ID := 1; n_Name := "edge"; n_WGPublicKey := "k"; n_WGPresharedKey := ""; n_WGEndpoint := "";
                       n_WGAllowedIPs := ""; n_WGTunnelIP := "10.42.0.7"; n_WGLastHandshake := None;
                       n_AdvertisedSubnets := ""; n_TunnelStatus := "connected" |};
     s_ServiceGroups := [] |}.

Lemma breaker_blind_behind_node_witness :
  ∃ route, TargetURL route = "10.42.0.7" ∧
    Breaker.isTargetDegraded
      (foldl (λ b a, after_upstream route b a.1 a.2) ∅
         [(0%Z, UpstreamFailed "refused"); (1%Z, UpstreamFailed "refused"); (2%Z, UpstreamAnswered 502)])
      3 (TargetURL route) = (false, "").
Proof.
  destruct (toRouteConfig node_service) as [config|] eqn:Hc; [|vm_compute in Hc; discriminate Hc].
  destruct (routeFromConfig sample_parse u_Host (λ _, "") u_Host (λ _, true) (λ _, None) true 0 config)
    as [[route|] rev] eqn:Hr; [|vm_compute in Hc; injection Hc as <-; vm_compute in Hr; discriminate Hr].
  pose proof (routeFromConfig_service _ _ _ _ _ _ _ _ _ _ _ _ Hc Hr) as Hrs.
  exists route. split; [rewrite (rs_target _ _ _ _ _ _ Hrs); vm_compute; reflexivity|].
  rewrite (breaker_blind_behind_node sample_parse u_Host (λ _, "") (λ _, None) node_service route ∅ 3 _ Hrs).
  - reflexivity.
  - vm_compute. discriminate.
Defined.
