(* ===== verification/AuthStore.v ===== *)
(** The tables of the authentication service and the operations on them: internal/store/
    user_store.go, session_store.go, login_token_store.go and api_token_store.go.

    A table is the list of its rows in the order of their identifiers.  Every operation is one SQL
    statement, hence one step; a conditional UPDATE says whether it found a row.  The database itself
    does not fail here. *)
From S2P Require Import Prelude GoStrings Domain RateLimit.

#[local] Open Scope string_scope.
#[local] Open Scope list_scope.

Inductive auth_error :=
  | ErrNotFound | ErrConflict | ErrAlreadyUsed | ErrStale
  | ErrInactiveUser | ErrInvalidCredentials | ErrInvalidToken | ErrLocalLoginDisabled | ErrOTPDisabled
  | ErrRateLimited | ErrOTPExpired | ErrOTPUsed | ErrSMTPNotConfigured | ErrSMTPDeliveryFailed | ErrSessionRevoked | ErrRefreshExpired
  | ErrMFACodeInvalid | ErrMFASetupRequired | ErrBreakGlassRejected | ErrAccountSetupDone
  | ErrMagicLinkUsed | ErrMagicLinkExpired | ErrBcrypt.

#[global] Instance auth_error_eq_dec : EqDecision auth_error.
Proof. solve_decision. Defined.

(** [cachedAuthResult]. *)
Record cachedAuthResult := { ca_user : User; ca_groupIDs : list N; ca_expiresAt : Z }.

Record auth_state := {
  users : list User;
  memberships : gmap N (list N);               (* group ids by user id *)
  sessions : list Session;
  nextSession : N;
  loginTokens : list LoginToken;
  nextToken : N;
  apiTokens : list APIToken;
  authCache : gmap string cachedAuthResult;
  userTokens : gmap N (gset string);
  limiter : LocalLimiter;                      (* the limiter [NewService] installs *)
  settings : option AppSettings;               (* [settings.Get], [None] when it fails *)
  passkeys : gset N;                           (* the users with a registered passkey *)
}.

Definition with_users (st : auth_state) (l : list User) : auth_state :=
  {| users := l; memberships := memberships st; sessions := sessions st; nextSession := nextSession st;
     loginTokens := loginTokens st; nextToken := nextToken st; apiTokens := apiTokens st;
     authCache := authCache st; userTokens := userTokens st; limiter := limiter st; settings := settings st; passkeys := passkeys st |}.
Definition with_sessions (st : auth_state) (l : list Session) (next : N) : auth_state :=
  {| users := users st; memberships := memberships st; sessions := l; nextSession := next;
     loginTokens := loginTokens st; nextToken := nextToken st; apiTokens := apiTokens st;
     authCache := authCache st; userTokens := userTokens st; limiter := limiter st; settings := settings st; passkeys := passkeys st |}.
Definition with_tokens (st : auth_state) (l : list LoginToken) (next : N) : auth_state :=
  {| users := users st; memberships := memberships st; sessions := sessions st; nextSession := nextSession st;
     loginTokens := l; nextToken := next; apiTokens := apiTokens st;
     authCache := authCache st; userTokens := userTokens st; limiter := limiter st; settings := settings st; passkeys := passkeys st |}.
Definition with_api_tokens (st : auth_state) (l : list APIToken) : auth_state :=
  {| users := users st; memberships := memberships st; sessions := sessions st; nextSession := nextSession st;
     loginTokens := loginTokens st; nextToken := nextToken st; apiTokens := l;
     authCache := authCache st; userTokens := userTokens st; limiter := limiter st; settings := settings st; passkeys := passkeys st |}.
Definition with_cache (st : auth_state) (c : gmap string cachedAuthResult) (u : gmap N (gset string)) : auth_state :=
  {| users := users st; memberships := memberships st; sessions := sessions st; nextSession := nextSession st;
     loginTokens := loginTokens st; nextToken := nextToken st; apiTokens := apiTokens st;
     authCache := c; userTokens := u; limiter := limiter st; settings := settings st; passkeys := passkeys st |}.
Definition with_limiter (st : auth_state) (l : LocalLimiter) : auth_state :=
  {| users := users st; memberships := memberships st; sessions := sessions st; nextSession := nextSession st;
     loginTokens := loginTokens st; nextToken := nextToken st; apiTokens := apiTokens st;
     authCache := authCache st; userTokens := userTokens st; limiter := l; settings := settings st; passkeys := passkeys st |}.

(** * Conditional updates *)

(** UPDATE ... WHERE: every row the condition holds of, and whether there was one. *)
Definition update_where {X} (cond : X → bool) (f : X → X) (rows : list X) : list X * bool :=
  ((λ x, if cond x then f x else x) <$> rows, existsb cond rows).

(** * Users *)

Definition users_GetByID (st : auth_state) (id : N) : result auth_error User :=
  match List.find (λ u, N.eqb (u_ID u) id) (users st) with Some u => Ok u | None => Err ErrNotFound end.

Definition users_GetByEmail (st : auth_state) (email : string) : result auth_error User :=
  match List.find (λ u, String.eqb (ToLower (u_Email u)) (ToLower email)) (users st) with
  | Some u => Ok u
  | None => Err ErrNotFound
  end.

(** [UpdateFieldsIf]: [copy] writes the selected columns of the struct to a row that satisfies
    [guard]; without a guard a missing row is [ErrNotFound], with one [ErrStale]. *)
Definition users_UpdateFieldsIf (st : auth_state) (user : User) (guard : option (User → bool)) (copy : User → User)
  : result auth_error auth_state :=
  let cond row := N.eqb (u_ID row) (u_ID user) && match guard with Some g => g row | None => true end in
  let '(rows, found) := update_where cond copy (users st) in
  if found then Ok (with_users st rows)
  else Err (match guard with Some _ => ErrStale | None => ErrNotFound end).

Definition users_UpdateLastLogin (st : auth_state) (id : N) (now : Z) : auth_state :=
  let touch u := {| u_ID := u_ID u; u_Email := u_Email u; u_PasswordHash := u_PasswordHash u; u_Role := u_Role u;
    u_Active := u_Active u; u_MustChangePassword := u_MustChangePassword u; u_MFAEnabled := u_MFAEnabled u;
    u_MFASecret := u_MFASecret u; u_MFAPendingSecret := u_MFAPendingSecret u; u_MFARecoveryCodes := u_MFARecoveryCodes u;
    u_MFAPendingRecoveryCodes := u_MFAPendingRecoveryCodes u; u_MFALastTOTPCounter := u_MFALastTOTPCounter u;
    u_AuthProvider := u_AuthProvider u; u_AuthProviderRef := u_AuthProviderRef u; u_AuthIssuer := u_AuthIssuer u;
    u_DisplayName := u_DisplayName u; u_Username := u_Username u; u_LastLoginAt := Some now |} in
  with_users st (update_where (λ u, N.eqb (u_ID u) id) touch (users st)).1.

(** * Sessions *)

Definition find_session (cond : Session → bool) (st : auth_state) : result auth_error Session :=
  match List.find cond (sessions st) with Some s => Ok s | None => Err ErrNotFound end.

Definition sessions_GetByID (st : auth_state) (id : N) := find_session (λ s, N.eqb (ss_ID s) id) st.
Definition sessions_GetByTokenID (st : auth_state) (tokenID : string) := find_session (λ s, String.eqb (ss_TokenID s) tokenID) st.
Definition sessions_GetByRefreshHash (st : auth_state) (hash : string) :=
  find_session (λ s, String.eqb (ss_RefreshTokenHash s) hash) st.

(** The unique indexes on token_id and refresh_token_hash refuse a duplicate. *)
Definition sessions_Create (st : auth_state) (item : Session) : result auth_error (Session * auth_state) :=
  if existsb (λ s, String.eqb (ss_TokenID s) (ss_TokenID item) || String.eqb (ss_RefreshTokenHash s) (ss_RefreshTokenHash item)) (sessions st)
  then Err ErrConflict
  else
    let row := {| ss_ID := nextSession st; ss_UserID := ss_UserID item; ss_TokenID := ss_TokenID item;
                  ss_RefreshTokenHash := ss_RefreshTokenHash item; ss_UserAgent := ss_UserAgent item;
                  ss_RemoteAddr := ss_RemoteAddr item; ss_LastSeenAt := ss_LastSeenAt item; ss_ExpiresAt := ss_ExpiresAt item;
                  ss_RevokedAt := ss_RevokedAt item; ss_BootstrapDismissed := ss_BootstrapDismissed item |} in
    Ok (row, with_sessions st (sessions st ++ [row]) (N.succ (nextSession st))).

Definition not_revoked (s : Session) : bool := match ss_RevokedAt s with None => true | Some _ => false end.

Definition set_revoked (at_ : Z) (s : Session) : Session :=
  {| ss_ID := ss_ID s; ss_UserID := ss_UserID s; ss_TokenID := ss_TokenID s; ss_RefreshTokenHash := ss_RefreshTokenHash s;
     ss_UserAgent := ss_UserAgent s; ss_RemoteAddr := ss_RemoteAddr s; ss_LastSeenAt := ss_LastSeenAt s;
     ss_ExpiresAt := ss_ExpiresAt s; ss_RevokedAt := Some at_; ss_BootstrapDismissed := ss_BootstrapDismissed s |}.

Definition set_seen (at_ : Z) (s : Session) : Session :=
  {| ss_ID := ss_ID s; ss_UserID := ss_UserID s; ss_TokenID := ss_TokenID s; ss_RefreshTokenHash := ss_RefreshTokenHash s;
     ss_UserAgent := ss_UserAgent s; ss_RemoteAddr := ss_RemoteAddr s; ss_LastSeenAt := Some at_;
     ss_ExpiresAt := ss_ExpiresAt s; ss_RevokedAt := ss_RevokedAt s; ss_BootstrapDismissed := ss_BootstrapDismissed s |}.

(** The columns [Rotate] writes. *)
Definition set_rotated (item s : Session) : Session :=
  {| ss_ID := ss_ID s; ss_UserID := ss_UserID s; ss_TokenID := ss_TokenID item; ss_RefreshTokenHash := ss_RefreshTokenHash item;
     ss_UserAgent := ss_UserAgent item; ss_RemoteAddr := ss_RemoteAddr item; ss_LastSeenAt := ss_LastSeenAt item;
     ss_ExpiresAt := ss_ExpiresAt item; ss_RevokedAt := ss_RevokedAt s; ss_BootstrapDismissed := ss_BootstrapDismissed s |}.

Definition set_dismissed (s : Session) : Session :=
  {| ss_ID := ss_ID s; ss_UserID := ss_UserID s; ss_TokenID := ss_TokenID s; ss_RefreshTokenHash := ss_RefreshTokenHash s;
     ss_UserAgent := ss_UserAgent s; ss_RemoteAddr := ss_RemoteAddr s; ss_LastSeenAt := ss_LastSeenAt s;
     ss_ExpiresAt := ss_ExpiresAt s; ss_RevokedAt := ss_RevokedAt s; ss_BootstrapDismissed := true |}.

Definition update_sessions (st : auth_state) (cond : Session → bool) (f : Session → Session) : result auth_error auth_state :=
  let '(rows, found) := update_where cond f (sessions st) in
  if found then Ok (with_sessions st rows (nextSession st)) else Err ErrNotFound.

Definition sessions_Rotate (st : auth_state) (item : Session) (previousRefreshHash : string) : result auth_error auth_state :=
  if existsb (λ s, negb (N.eqb (ss_ID s) (ss_ID item))
                   && (String.eqb (ss_TokenID s) (ss_TokenID item) || String.eqb (ss_RefreshTokenHash s) (ss_RefreshTokenHash item)))
       (sessions st) then Err ErrConflict
  else
    update_sessions st (λ s, N.eqb (ss_ID s) (ss_ID item) && not_revoked s && String.eqb (ss_RefreshTokenHash s) previousRefreshHash)
      (set_rotated item).

Definition sessions_Touch (st : auth_state) (id : N) (at_ : Z) : result auth_error auth_state :=
  update_sessions st (λ s, N.eqb (ss_ID s) id && not_revoked s) (set_seen at_).

Definition sessions_MarkBootstrapDismissed (st : auth_state) (id : N) : result auth_error auth_state :=
  update_sessions st (λ s, N.eqb (ss_ID s) id) set_dismissed.

Definition sessions_Revoke (st : auth_state) (id : N) (at_ : Z) : result auth_error auth_state :=
  update_sessions st (λ s, N.eqb (ss_ID s) id && not_revoked s) (set_revoked at_).

(** The bulk updates do not report whether they found a row. *)
Definition sessions_RevokeByUser (st : auth_state) (userID : N) (at_ : Z) : auth_state :=
  with_sessions st (update_where (λ s, N.eqb (ss_UserID s) userID && not_revoked s) (set_revoked at_) (sessions st)).1 (nextSession st).

Definition sessions_RevokeByUserExcept (st : auth_state) (userID exceptID : N) (at_ : Z) : auth_state :=
  with_sessions st
    (update_where (λ s, N.eqb (ss_UserID s) userID && not_revoked s && (N.eqb exceptID 0 || negb (N.eqb (ss_ID s) exceptID)))
       (set_revoked at_) (sessions st)).1 (nextSession st).

(** * Login tokens *)

Definition unused (t : LoginToken) : bool := match lt_UsedAt t with None => true | Some _ => false end.

Definition set_used (at_ : Z) (t : LoginToken) : LoginToken :=
  {| lt_ID := lt_ID t; lt_UserID := lt_UserID t; lt_ServiceID := lt_ServiceID t; lt_Email := lt_Email t; lt_Token := lt_Token t;
     lt_Scope := lt_Scope t; lt_ExpiresAt := lt_ExpiresAt t; lt_UsedAt := Some at_; lt_AttemptCount := lt_AttemptCount t;
     lt_RemoteAddr := lt_RemoteAddr t; lt_UserAgent := lt_UserAgent t; lt_CreatedAt := lt_CreatedAt t |}.

Definition bump_attempts (t : LoginToken) : LoginToken :=
  {| lt_ID := lt_ID t; lt_UserID := lt_UserID t; lt_ServiceID := lt_ServiceID t; lt_Email := lt_Email t; lt_Token := lt_Token t;
     lt_Scope := lt_Scope t; lt_ExpiresAt := lt_ExpiresAt t; lt_UsedAt := lt_UsedAt t; lt_AttemptCount := (lt_AttemptCount t + 1)%Z;
     lt_RemoteAddr := lt_RemoteAddr t; lt_UserAgent := lt_UserAgent t; lt_CreatedAt := lt_CreatedAt t |}.

Definition loginTokens_Create (st : auth_state) (now : Z) (item : LoginToken) : auth_state :=
  let row := {| lt_ID := nextToken st; lt_UserID := lt_UserID item; lt_ServiceID := lt_ServiceID item; lt_Email := lt_Email item;
                lt_Token := lt_Token item; lt_Scope := lt_Scope item; lt_ExpiresAt := lt_ExpiresAt item;
                lt_UsedAt := lt_UsedAt item; lt_AttemptCount := lt_AttemptCount item; lt_RemoteAddr := lt_RemoteAddr item;
                lt_UserAgent := lt_UserAgent item; lt_CreatedAt := now |} in
  with_tokens st (loginTokens st ++ [row]) (N.succ (nextToken st)).

Definition same_service (serviceID : option N) (t : LoginToken) : bool :=
  match serviceID, lt_ServiceID t with
  | None, None => true
  | Some a, Some b => N.eqb a b
  | _, _ => false
  end.

Definition loginTokens_CountRecentByEmailAndScope (st : auth_state) (email scope : string) (serviceID : option N) (since : Z) : Z :=
  Z.of_nat (length (List.filter (λ t,
    String.eqb (ToLower (lt_Email t)) (ToLower (TrimSpace email)) && String.eqb (lt_Scope t) (TrimSpace scope)
    && (since <=? lt_CreatedAt t)%Z && same_service serviceID t) (loginTokens st))).

Definition loginTokens_CountRecentByEmail (st : auth_state) (email : string) (since : Z) : Z :=
  loginTokens_CountRecentByEmailAndScope st email LoginTokenScopeAccountLogin None since.

Section hashes.
(** [hashLoginToken]: SHA-256 in hexadecimal. *)
Variable hashToken : string → string.

Definition latest_token (cond : LoginToken → bool) (st : auth_state) : result auth_error LoginToken :=
  match List.find cond (rev (loginTokens st)) with Some t => Ok t | None => Err ErrNotFound end.

Definition loginTokens_GetValidTokenByScope (st : auth_state) (email token scope : string) (serviceID : option N)
  : result auth_error LoginToken :=
  latest_token (λ t,
    String.eqb (lt_Scope t) (TrimSpace scope) && String.eqb (lt_Token t) (hashToken (TrimSpace token))
    && (negb (non_empty (TrimSpace email)) || String.eqb (ToLower (lt_Email t)) (ToLower (TrimSpace email)))
    && same_service serviceID t) st.

Definition loginTokens_GetValidToken (st : auth_state) (email token : string) : result auth_error LoginToken :=
  loginTokens_GetValidTokenByScope st email token LoginTokenScopeAccountLogin None.

Definition loginTokens_GetMagicLink (st : auth_state) (serviceID : N) (token : string) : result auth_error LoginToken :=
  latest_token (λ t,
    String.eqb (lt_Scope t) LoginTokenScopeMagicLink && same_service (Some serviceID) t
    && String.eqb (lt_Token t) (hashToken (TrimSpace token))) st.
End hashes.

Definition loginTokens_InvalidateOutstandingByUserScope (st : auth_state) (userID : N) (scope : string) (at_ : Z) : auth_state :=
  with_tokens st
    (update_where (λ t, bool_decide (lt_UserID t = Some userID) && String.eqb (lt_Scope t) (TrimSpace scope) && unused t)
       (set_used at_) (loginTokens st)).1 (nextToken st).

Definition loginTokens_MarkUsed (st : auth_state) (id : N) (at_ : Z) : result auth_error auth_state :=
  let '(rows, found) := update_where (λ t, N.eqb (lt_ID t) id && unused t) (set_used at_) (loginTokens st) in
  if found then Ok (with_tokens st rows (nextToken st)) else Err ErrAlreadyUsed.

(** The new count is read back from the row. *)
Definition loginTokens_IncrementAttempts (st : auth_state) (id : N) : result auth_error (Z * auth_state) :=
  let st' := with_tokens st (update_where (λ t, N.eqb (lt_ID t) id) bump_attempts (loginTokens st)).1 (nextToken st) in
  match List.find (λ t, N.eqb (lt_ID t) id) (loginTokens st') with
  | Some t => Ok (lt_AttemptCount t, st')
  | None => Err ErrNotFound
  end.

(** * API tokens *)

Definition apiTokens_FindActiveByPrefix (st : auth_state) (prefix : string) : result auth_error APIToken :=
  match List.find (λ t, String.eqb (at_Prefix t) prefix && match at_RevokedAt t with None => true | Some _ => false end) (apiTokens st) with
  | Some t => Ok t
  | None => Err ErrNotFound
  end.

Definition apiTokens_TouchLastUsed (st : auth_state) (id : N) (at_ : Z) : auth_state :=
  let touch t := {| at_ID := at_ID t; at_Name := at_Name t; at_Prefix := at_Prefix t; at_TokenHash := at_TokenHash t;
                    at_Role := at_Role t; at_CreatedByID := at_CreatedByID t; at_LastUsedAt := Some at_;
                    at_ExpiresAt := at_ExpiresAt t; at_RevokedAt := at_RevokedAt t |} in
  with_api_tokens st (update_where (λ t, N.eqb (at_ID t) id) touch (apiTokens st)).1.

Definition apiTokens_Revoke (st : auth_state) (id : N) (at_ : Z) : result auth_error auth_state :=
  let revoke t := {| at_ID := at_ID t; at_Name := at_Name t; at_Prefix := at_Prefix t; at_TokenHash := at_TokenHash t;
                     at_Role := at_Role t; at_CreatedByID := at_CreatedByID t; at_LastUsedAt := at_LastUsedAt t;
                     at_ExpiresAt := at_ExpiresAt t; at_RevokedAt := Some at_ |} in
  let '(rows, found) :=
    update_where (λ t, N.eqb (at_ID t) id && match at_RevokedAt t with None => true | Some _ => false end) revoke (apiTokens st) in
  if found then Ok (with_api_tokens st rows) else Err ErrNotFound.
