(* ===== verification/AuthHistory.v ===== *)
(** Histories of the tables of the authentication service: the statements of AuthStore.v as steps,
    what every sequence of them keeps (the keys, the finality of a revocation) and what happens at
    most once in it (the rotation of a refresh token, the use of a login token). *)
From S2P Require Import Prelude GoStrings Domain RateLimit AuthStore.

#[local] Open Scope string_scope.
#[local] Open Scope list_scope.

(** * Histories of the tables

    One SQL statement or one write of a field is one step; a statement that fails changes nothing.
    Requests are served concurrently, so their statements interleave: a property of every list of
    steps holds of every interleaving. *)

Inductive store_op :=
  | UsersWrite (l : list User)
  | SessionCreate (item : Session)
  | SessionRotate (item : Session) (previousRefreshHash : string)
  | SessionTouch (id : N) (at_ : Z)
  | SessionDismiss (id : N)
  | SessionRevoke (id : N) (at_ : Z)
  | SessionRevokeByUser (userID : N) (at_ : Z)
  | SessionRevokeByUserExcept (userID exceptID : N) (at_ : Z)
  | TokenCreate (now : Z) (item : LoginToken)
  | TokenInvalidate (userID : N) (scope : string) (at_ : Z)
  | TokenMarkUsed (id : N) (at_ : Z)
  | TokenIncrement (id : N)
  | APITokenTouch (id : N) (at_ : Z)
  | CacheWrite (c : gmap string cachedAuthResult) (u : gmap N (gset string))
  | LimiterWrite (l : LocalLimiter).

Definition or_same (st : auth_state) (r : result auth_error auth_state) : auth_state :=
  match r with Ok st' => st' | Err _ => st end.

Definition store_apply (st : auth_state) (o : store_op) : auth_state :=
  match o with
  | UsersWrite l => with_users st l
  | SessionCreate item => match sessions_Create st item with Ok (_, st') => st' | Err _ => st end
  | SessionRotate item prev => or_same st (sessions_Rotate st item prev)
  | SessionTouch id at_ => or_same st (sessions_Touch st id at_)
  | SessionDismiss id => or_same st (sessions_MarkBootstrapDismissed st id)
  | SessionRevoke id at_ => or_same st (sessions_Revoke st id at_)
  | SessionRevokeByUser uid at_ => sessions_RevokeByUser st uid at_
  | SessionRevokeByUserExcept uid ex at_ => sessions_RevokeByUserExcept st uid ex at_
  | TokenCreate now item => loginTokens_Create st now item
  | TokenInvalidate uid scope at_ => loginTokens_InvalidateOutstandingByUserScope st uid scope at_
  | TokenMarkUsed id at_ => or_same st (loginTokens_MarkUsed st id at_)
  | TokenIncrement id => match loginTokens_IncrementAttempts st id with Ok (_, st') => st' | Err _ => st end
  | APITokenTouch id at_ => apiTokens_TouchLastUsed st id at_
  | CacheWrite c u => with_cache st c u
  | LimiterWrite l => with_limiter st l
  end.

Definition store_run (st : auth_state) (ops : list store_op) : auth_state := foldl store_apply st ops.

(** What one step does to the sessions: rows are appended or rewritten, never removed. *)
Definition rewrite_rows {X} (cond : X → bool) (f : X → X) (rows : list X) : list X :=
  (λ x, if cond x then f x else x) <$> rows.

Definition session_edit (o : store_op) : option ((Session → bool) * (Session → Session)) :=
  match o with
  | SessionRotate item prev =>
      Some (λ s, N.eqb (ss_ID s) (ss_ID item) && not_revoked s && String.eqb (ss_RefreshTokenHash s) prev, set_rotated item)
  | SessionTouch id at_ => Some (λ s, N.eqb (ss_ID s) id && not_revoked s, set_seen at_)
  | SessionDismiss id => Some (λ s, N.eqb (ss_ID s) id, set_dismissed)
  | SessionRevoke id at_ => Some (λ s, N.eqb (ss_ID s) id && not_revoked s, set_revoked at_)
  | SessionRevokeByUser uid at_ => Some (λ s, N.eqb (ss_UserID s) uid && not_revoked s, set_revoked at_)
  | SessionRevokeByUserExcept uid ex at_ =>
      Some (λ s, N.eqb (ss_UserID s) uid && not_revoked s && (N.eqb ex 0 || negb (N.eqb (ss_ID s) ex)), set_revoked at_)
  | _ => None
  end.

Lemma rewrite_rows_none {X} (cond : X → bool) f l : existsb cond l = false → rewrite_rows cond f l = l.
Proof.
  intros Hc. unfold rewrite_rows. rewrite <- (list_fmap_id l) at 2. apply list_fmap_ext.
  intros i x Hx%list_elem_of_lookup_2. by rewrite (proj1 (existsb_false_elem cond l) Hc x Hx).
Qed.

Lemma update_sessions_spec st cond f st' :
  update_sessions st cond f = Ok st' →
  st' = with_sessions st (rewrite_rows cond f (sessions st)) (nextSession st) ∧ existsb cond (sessions st) = true.
Proof. unfold update_sessions, update_where. destruct (existsb _ _); [|done]. by intros [= <-]. Qed.

Lemma session_edit_apply st o cond f :
  session_edit o = Some (cond, f) →
  (sessions (store_apply st o) = rewrite_rows cond f (sessions st) ∨ sessions (store_apply st o) = sessions st)
  ∧ nextSession (store_apply st o) = nextSession st.
Proof.
  destruct o; intros [= <- <-]; cbn [store_apply]; try (by split; [left|]);
    repeat match goal with
    | |- context [or_same _ (sessions_Rotate ?s ?i ?p)] => unfold sessions_Rotate; destruct (existsb _ _) eqn:?; [by split; [right|]|]
    | |- context [or_same _ ?r] => destruct r as [st'|] eqn:Hr; [|by split; [right|]];
        apply update_sessions_spec in Hr as [-> _]; by split; [left|]
    end.
Qed.

(** Steps that neither create nor edit a session leave the sessions alone. *)
Lemma session_other st o :
  session_edit o = None → (∀ item, o ≠ SessionCreate item) →
  sessions (store_apply st o) = sessions st ∧ nextSession (store_apply st o) = nextSession st.
Proof.
  destruct o; intros Ho Hc; try done; cbn [store_apply]; try by destruct (Hc item).
  - unfold loginTokens_MarkUsed, update_where. by destruct (existsb _ _).
  - unfold loginTokens_IncrementAttempts. by destruct (List.find _ _).
Qed.

Lemma sessions_Create_spec st item row st' :
  sessions_Create st item = Ok (row, st') →
  st' = with_sessions st (sessions st ++ [row]) (N.succ (nextSession st)) ∧
  ss_ID row = nextSession st ∧ ss_TokenID row = ss_TokenID item ∧ ss_RefreshTokenHash row = ss_RefreshTokenHash item ∧
  ∀ s, s ∈ sessions st → ss_TokenID s ≠ ss_TokenID item ∧ ss_RefreshTokenHash s ≠ ss_RefreshTokenHash item.
Proof.
  unfold sessions_Create. destruct (existsb _ _) eqn:He; [done|]. intros [= <- <-]. split_and!; try done.
  intros s Hs. pose proof (proj1 (existsb_false_elem _ _) He s Hs) as Hn.
  apply orb_false_iff in Hn as [H1 H2]. split; by apply String.eqb_neq.
Qed.

(** The invariant the primary keys and the unique indexes give. *)
Record sessions_ok (st : auth_state) : Prop := {
  ok_ids : NoDup (ss_ID <$> sessions st);
  ok_below : ∀ s, s ∈ sessions st → (ss_ID s < nextSession st)%N;
  ok_tokens : NoDup (ss_TokenID <$> sessions st);
  ok_refresh : NoDup (ss_RefreshTokenHash <$> sessions st);
}.

Lemma rewrite_rows_same {X Y} (k : X → Y) cond f l :
  (∀ x, cond x = true → k (f x) = k x) → k <$> rewrite_rows cond f l = k <$> l.
Proof.
  intros Hk. unfold rewrite_rows. rewrite <- list_fmap_compose. apply list_fmap_ext. intros i x _. simpl.
  destruct (cond x) eqn:Hc; auto.
Qed.

(** Writing the key [v] to the row with identifier [i] keeps the keys distinct when no other row has it. *)
Lemma rewrite_rows_NoDup {X Y} (k : X → Y) (ident : X → N) cond f l i v :
  NoDup (ident <$> l) → NoDup (k <$> l) →
  (∀ x, cond x = true → ident x = i ∧ k (f x) = v) → (∀ x, x ∈ l → ident x ≠ i → k x ≠ v) →
  NoDup (k <$> rewrite_rows cond f l).
Proof.
  intros Hid Hk Hc Ho. induction l as [|x l IH]; [constructor|]. cbn in Hid, Hk.
  apply NoDup_cons in Hid as [Hxi Hid]. apply NoDup_cons in Hk as [Hxk Hk]. cbn. constructor.
  2: { apply IH; [done|done|]. intros y Hy. apply Ho. by right. }
  intros (z & Hz & (y & -> & Hy)%list_elem_of_fmap)%list_elem_of_fmap.
  assert (ident x ≠ ident y) as Hne.
  { intros Heq. apply Hxi. rewrite Heq. by apply list_elem_of_fmap_2. }
  destruct (cond x) eqn:Hcx, (cond y) eqn:Hcy.
  - destruct (Hc x Hcx), (Hc y Hcy). congruence.
  - destruct (Hc x Hcx) as [Hi Hv]. rewrite Hv in Hz. apply (Ho y); [by right|congruence|done].
  - destruct (Hc y Hcy) as [Hi Hv]. rewrite Hv in Hz. apply (Ho x); [by left|congruence|done].
  - apply Hxk. rewrite Hz. by apply list_elem_of_fmap_2.
Qed.

Lemma session_edit_id o cond f s : session_edit o = Some (cond, f) → ss_ID (f s) = ss_ID s ∧ ss_UserID (f s) = ss_UserID s.
Proof. by destruct o; intros [= <- <-]. Qed.

Lemma rotate_clash st item prev :
  sessions (store_apply st (SessionRotate item prev)) = sessions st ∨
  ∀ s, s ∈ sessions st → ss_ID s ≠ ss_ID item →
    ss_TokenID s ≠ ss_TokenID item ∧ ss_RefreshTokenHash s ≠ ss_RefreshTokenHash item.
Proof.
  cbn [store_apply]. unfold sessions_Rotate. destruct (existsb _ _) eqn:He; [by left|]. right. intros s Hs Hne.
  pose proof (proj1 (existsb_false_elem _ _) He s Hs) as Hn. cbv beta in Hn.
  rewrite (proj2 (N.eqb_neq _ _) Hne), andb_true_l in Hn. apply orb_false_iff in Hn as [H1 H2]. split; by apply String.eqb_neq.
Qed.

Lemma ok_edit st o cond f :
  sessions_ok st → session_edit o = Some (cond, f) → sessions_ok (store_apply st o).
Proof.
  intros [Hids Hbelow Htok Href] Ho. destruct (session_edit_apply st o cond f Ho) as [[Hs|Hs] Hn].
  2: { constructor; rewrite ?Hs, ?Hn; done. }
  assert (∀ s, s ∈ sessions (store_apply st o) → ∃ s0, s0 ∈ sessions st ∧ ss_ID s = ss_ID s0) as Hold.
  { rewrite Hs. intros s (s0 & -> & H0)%list_elem_of_fmap. exists s0. split; [done|].
    destruct (cond s0); [|done]. by apply (session_edit_id o cond f). }
  assert (NoDup (ss_TokenID <$> sessions (store_apply st o)) ∧ NoDup (ss_RefreshTokenHash <$> sessions (store_apply st o)))
    as [Ht Hr].
  { destruct o; try discriminate Ho; try (rewrite Hs; injection Ho as <- <-; by rewrite !rewrite_rows_same).
    destruct (rotate_clash st item previousRefreshHash) as [->|Hclash]; [done|]. rewrite Hs.
    injection Ho as <- <-. split;
      (eapply (rewrite_rows_NoDup _ ss_ID); [done|done| |intros x Hx Hne; by apply (Hclash x Hx Hne)]);
      intros x Hx; destruct_bools; split; [by apply N.eqb_eq|done|by apply N.eqb_eq|done]. }
  constructor; [|rewrite Hn|done|done].
  - rewrite Hs, rewrite_rows_same; [done|]. intros x _. by apply (session_edit_id o cond f).
  - intros s (s0 & H0 & ->)%Hold. by apply Hbelow.
Qed.

Lemma NoDup_snoc {X Y} (k : X → Y) l x : NoDup (k <$> l) → (∀ y, y ∈ l → k y ≠ k x) → NoDup (k <$> l ++ [x]).
Proof.
  intros Hl Hx. rewrite fmap_app. apply NoDup_app. split_and!; [done| |apply NoDup_singleton].
  intros v (y & -> & Hy)%list_elem_of_fmap Hv. apply list_elem_of_singleton in Hv. by destruct (Hx y Hy).
Qed.

Lemma ok_apply st o : sessions_ok st → sessions_ok (store_apply st o).
Proof.
  intros Hok. destruct (session_edit o) as [[cond f]|] eqn:Ho; [by eapply ok_edit|].
  assert ((∃ item, o = SessionCreate item) ∨ ∀ item, o ≠ SessionCreate item) as [[item ->]|Hc] by (destruct o; naive_solver).
  2: { destruct (session_other st o Ho Hc) as [Hs Hn], Hok. by constructor; rewrite ?Hs, ?Hn. }
  cbn [store_apply]. destruct (sessions_Create st item) as [[row st']|] eqn:Hr; [|done].
  destruct (sessions_Create_spec _ _ _ _ Hr) as (-> & Hid & Ht & Hh & Hnew), Hok as [Hids Hbelow Htok Href].
  constructor; cbn [with_sessions sessions nextSession].
  - apply NoDup_snoc; [done|]. intros s Hs. specialize (Hbelow s Hs). rewrite Hid. lia.
  - intros s [Hs| ->%list_elem_of_singleton]%elem_of_app; [specialize (Hbelow s Hs)|]; lia.
  - apply NoDup_snoc; [done|]. intros s Hs. rewrite Ht. by apply Hnew.
  - apply NoDup_snoc; [done|]. intros s Hs. rewrite Hh. by apply Hnew.
Qed.

Lemma ok_run ops st : sessions_ok st → sessions_ok (store_run st ops).
Proof. revert st. induction ops as [|o ops IH]; intros st Hok; [done|]. by apply IH, ok_apply. Qed.

(** ** Revocation is final *)

(** What identifies a session to its tokens. *)
Definition session_key (s : Session) : N * N * string * string := (ss_ID s, ss_UserID s, ss_TokenID s, ss_RefreshTokenHash s).

Definition revoked_session (st : auth_state) (s0 : Session) : Prop :=
  ∃ s, s ∈ sessions st ∧ session_key s = session_key s0 ∧ not_revoked s = false.

Lemma session_edit_revoked o cond f s :
  session_edit o = Some (cond, f) → not_revoked s = false → cond s = true →
  session_key (f s) = session_key s ∧ not_revoked (f s) = false.
Proof. destruct o; intros [= <- <-] Hr Hc; destruct_bools; try congruence; done. Qed.

Lemma revoked_apply st o s0 : revoked_session st s0 → revoked_session (store_apply st o) s0.
Proof.
  intros (s & Hs & Hkey & Hr). destruct (session_edit o) as [[cond f]|] eqn:Ho.
  - destruct (session_edit_apply st o cond f Ho) as [[Hrows|Hrows] _]; [|exists s; by rewrite Hrows].
    exists (if cond s then f s else s). rewrite Hrows. split; [by apply (list_elem_of_fmap_2 (λ x, if cond x then f x else x))|].
    destruct (cond s) eqn:Hc; [|done]. by destruct (session_edit_revoked o cond f s Ho Hr Hc) as [-> ->].
  - assert ((∃ item, o = SessionCreate item) ∨ ∀ item, o ≠ SessionCreate item) as [[item ->]|Hc] by (destruct o; naive_solver).
    + cbn [store_apply]. destruct (sessions_Create st item) as [[row st']|] eqn:Hc; [|by exists s].
      destruct (sessions_Create_spec _ _ _ _ Hc) as (-> & _). exists s. split; [|done]. apply elem_of_app. by left.
    + destruct (session_other st o Ho Hc) as [Hrows _]. exists s. by rewrite Hrows.
Qed.

Lemma revoked_run ops st s0 : revoked_session st s0 → revoked_session (store_run st ops) s0.
Proof. revert st. induction ops as [|o ops IH]; intros st Hr; [done|]. by apply IH, revoked_apply. Qed.

(** A row is found by a key that is unique. *)
Lemma find_unique {X Y} (k : X → Y) (eqb : Y → Y → bool) (eqb_eq : ∀ a b, eqb a b = true ↔ a = b) (l : list X) x :
  NoDup (k <$> l) → x ∈ l → List.find (λ y, eqb (k y) (k x)) l = Some x.
Proof.
  intros Hnd Hx. induction l as [|y l IH]; [by apply not_elem_of_nil in Hx|]. cbn in Hnd |- *.
  apply NoDup_cons in Hnd as [Hy Hnd]. destruct (eqb (k y) (k x)) eqn:He.
  - apply eqb_eq in He. apply elem_of_cons in Hx as [->|Hx]; [done|].
    exfalso. apply Hy. rewrite He. by apply list_elem_of_fmap_2.
  - apply elem_of_cons in Hx as [->|Hx]; [|by apply IH]. by rewrite (proj2 (eqb_eq _ _) eq_refl) in He.
Qed.

Lemma session_lookups st s :
  sessions_ok st → s ∈ sessions st →
  sessions_GetByID st (ss_ID s) = Ok s ∧ sessions_GetByTokenID st (ss_TokenID s) = Ok s ∧
  sessions_GetByRefreshHash st (ss_RefreshTokenHash s) = Ok s.
Proof.
  intros [Hi _ Ht Hr] Hs. unfold sessions_GetByID, sessions_GetByTokenID, sessions_GetByRefreshHash, find_session.
  rewrite (find_unique ss_ID N.eqb N.eqb_eq), (find_unique ss_TokenID String.eqb String.eqb_eq),
    (find_unique ss_RefreshTokenHash String.eqb String.eqb_eq); done.
Qed.

(** ** Refresh tokens *)

(** The step writes the refresh hash [h]. *)
Definition installs (h : string) (o : store_op) : bool :=
  match o with
  | SessionCreate item | SessionRotate item _ => String.eqb (ss_RefreshTokenHash item) h
  | _ => false
  end.

(** No session has the refresh hash any more. *)
Definition refresh_spent (st : auth_state) (h : string) : Prop := ∀ s, s ∈ sessions st → ss_RefreshTokenHash s ≠ h.

Lemma session_edit_refresh o cond f s h :
  session_edit o = Some (cond, f) → installs h o = false → ss_RefreshTokenHash s ≠ h → ss_RefreshTokenHash (f s) ≠ h.
Proof. destruct o; intros [= <- <-] Hi Hs; cbn in *; try done. by apply String.eqb_neq. Qed.

Lemma spent_apply st o h : refresh_spent st h → installs h o = false → refresh_spent (store_apply st o) h.
Proof.
  intros Hsp Hi. destruct (session_edit o) as [[cond f]|] eqn:Ho.
  - destruct (session_edit_apply st o cond f Ho) as [[Hrows|Hrows] _]; unfold refresh_spent; rewrite Hrows; [|done].
    intros s (s0 & -> & H0)%list_elem_of_fmap. destruct (cond s0); [|by apply Hsp].
    eapply session_edit_refresh; [done|done|by apply Hsp].
  - assert ((∃ item, o = SessionCreate item) ∨ ∀ item, o ≠ SessionCreate item) as [[item ->]|Hc] by (destruct o; naive_solver).
    + cbn [store_apply]. destruct (sessions_Create st item) as [[row st']|] eqn:Hc; [|done].
      destruct (sessions_Create_spec _ _ _ _ Hc) as (-> & _ & _ & Hh & _).
      intros s [Hs| ->%list_elem_of_singleton]%elem_of_app; [by apply Hsp|]. rewrite Hh. by apply String.eqb_neq.
    + destruct (session_other st o Ho Hc) as [Hrows _]. unfold refresh_spent. by rewrite Hrows.
Qed.

Lemma spent_run ops st h :
  refresh_spent st h → existsb (installs h) ops = false → refresh_spent (store_run st ops) h.
Proof.
  revert st. induction ops as [|o ops IH]; intros st Hsp Hi; [done|]. apply orb_false_iff in Hi as [Ho Hi].
  apply IH; [by apply spent_apply|done].
Qed.

(** A rotation consumes the hash it names. *)
Lemma Rotate_spends st item h st' :
  sessions_ok st → sessions_Rotate st item h = Ok st' → ss_RefreshTokenHash item ≠ h → refresh_spent st' h.
Proof.
  intros [_ _ _ Href]. unfold sessions_Rotate. destruct (existsb _ _); [done|].
  intros [-> Hex]%update_sessions_spec Hne s (s0 & -> & H0)%list_elem_of_fmap Heq.
  apply existsb_exists_elem in Hex as (r & Hr & Hc). destruct_bools.
  assert (ss_RefreshTokenHash r = h) as Hrh by by apply String.eqb_eq.
  destruct (_ && _) eqn:Hc0; [done|]. assert (s0 = r) as ->.
  { apply list_elem_of_lookup in H0 as [i Hi], Hr as [j Hj]. assert (i = j) as ->; [|congruence].
    eapply (NoDup_lookup _ i j h Href); rewrite list_lookup_fmap, ?Hi, ?Hj; simpl; congruence. }
  rewrite !andb_false_iff in Hc0. destruct Hc0 as [[?|?]|?]; congruence.
Qed.

(** The rotations of [h] that find their row. *)
Fixpoint rotations (h : string) (st : auth_state) (ops : list store_op) : nat :=
  match ops with
  | [] => 0
  | o :: ops' =>
      (match o with
       | SessionRotate item prev => if String.eqb prev h && is_ok (sessions_Rotate st item prev) then 1 else 0
       | _ => 0
       end + rotations h (store_apply st o) ops')%nat
  end.

Lemma rotations_spent h ops st :
  refresh_spent st h → existsb (installs h) ops = false → rotations h st ops = 0%nat.
Proof.
  revert st. induction ops as [|o ops IH]; intros st Hsp Hi; [done|]. apply orb_false_iff in Hi as [Ho Hi].
  cbn [rotations]. rewrite IH by (done || by apply spent_apply). destruct o; try done.
  destruct (String.eqb_spec previousRefreshHash h) as [->|]; [|done]. cbn. unfold sessions_Rotate.
  destruct (existsb _ (sessions st)); [done|]. unfold update_sessions, update_where.
  destruct (existsb _ (sessions st)) eqn:Hex; [|done]. apply existsb_exists_elem in Hex as (s & Hs & Hc).
  destruct_bools. exfalso. apply (Hsp s Hs). by apply String.eqb_eq.
Qed.

Lemma rotations_once h ops st :
  sessions_ok st → existsb (installs h) ops = false → (rotations h st ops ≤ 1)%nat.
Proof.
  revert st. induction ops as [|o ops IH]; intros st Hok Hi; cbn [rotations]; [lia|].
  apply orb_false_iff in Hi as [Ho Hi]. pose proof (IH (store_apply st o) (ok_apply st o Hok) Hi) as Hrest.
  destruct o; try (cbn in *; lia). destruct (String.eqb_spec previousRefreshHash h) as [->|]; [|cbn in *; lia].
  destruct (sessions_Rotate st item h) as [st'|] eqn:Hr; [|cbn in *; lia].
  assert (store_apply st (SessionRotate item h) = st') as Heq by (cbn; by rewrite Hr).
  rewrite Heq, (rotations_spent h ops st'); [done| |done]. eapply Rotate_spends; [done|done|by apply String.eqb_neq].
Qed.

(** ** Login tokens are used once *)

Definition token_edit (o : store_op) : option ((LoginToken → bool) * (LoginToken → LoginToken)) :=
  match o with
  | TokenInvalidate uid scope at_ =>
      Some (λ t, bool_decide (lt_UserID t = Some uid) && String.eqb (lt_Scope t) (TrimSpace scope) && unused t, set_used at_)
  | TokenMarkUsed id at_ => Some (λ t, N.eqb (lt_ID t) id && unused t, set_used at_)
  | TokenIncrement id => Some (λ t, N.eqb (lt_ID t) id, bump_attempts)
  | _ => None
  end.

(** The columns a token is looked up by. *)
Definition token_key (t : LoginToken) : string * string * string * option N :=
  (lt_Scope t, lt_Token t, lt_Email t, lt_ServiceID t).
Definition keyed (cond : LoginToken → bool) : Prop := ∀ t t', token_key t = token_key t' → cond t = cond t'.

Definition creates (cond : LoginToken → bool) (o : store_op) : bool :=
  match o with TokenCreate _ item => cond item | _ => false end.

Lemma find_fmap {X} (p : X → bool) (f : X → X) l :
  (∀ x, p (f x) = p x) → List.find p (f <$> l) = f <$> List.find p l.
Proof. intros Hp. induction l as [|x l IH]; [done|]. cbn. rewrite Hp. by destruct (p x). Qed.

Lemma token_edit_apply st o cond f :
  token_edit o = Some (cond, f) →
  (loginTokens (store_apply st o) = rewrite_rows cond f (loginTokens st) ∨ loginTokens (store_apply st o) = loginTokens st)
  ∧ nextToken (store_apply st o) = nextToken st.
Proof.
  destruct o; intros [= <- <-]; cbn [store_apply]; [by split; [left|]| |].
  - unfold loginTokens_MarkUsed, update_where. destruct (existsb _ _); split; [by left|done|by right|done].
  - unfold loginTokens_IncrementAttempts, update_where. destruct (List.find _ _); split; [by left|done|by right|done].
Qed.

Lemma token_edit_same o cond f t :
  token_edit o = Some (cond, f) →
  lt_ID (f t) = lt_ID t ∧ token_key (f t) = token_key t ∧ (unused t = false → unused (f t) = false).
Proof. by destruct o; intros [= <- <-]. Qed.

Lemma token_other st o :
  token_edit o = None → (∀ now item, o ≠ TokenCreate now item) →
  loginTokens (store_apply st o) = loginTokens st ∧ nextToken (store_apply st o) = nextToken st.
Proof.
  intros Ho Hc. destruct o; try done; cbn [store_apply]; try (by destruct (Hc now item));
    unfold sessions_Create, sessions_Rotate, sessions_Touch, sessions_MarkBootstrapDismissed, sessions_Revoke,
      update_sessions, update_where; by repeat destruct (existsb _ _).
Qed.

(** The latest token for the key has been used. *)
Definition latest_used (cond : LoginToken → bool) (st : auth_state) : Prop :=
  ∃ t, latest_token cond st = Ok t ∧ unused t = false.

Lemma latest_token_Some cond st t : latest_token cond st = Ok t ↔ List.find cond (rev (loginTokens st)) = Some t.
Proof. unfold latest_token. destruct (List.find _ _); naive_solver. Qed.

Lemma latest_used_apply cond st o :
  keyed cond → latest_used cond st → creates cond o = false → latest_used cond (store_apply st o).
Proof.
  intros Hk (t & Ht & Hu) Hc. apply latest_token_Some in Ht. destruct (token_edit o) as [[c f]|] eqn:Ho.
  - destruct (token_edit_apply st o c f Ho) as [[Hrows|Hrows] _]; [|exists t; by rewrite latest_token_Some, Hrows].
    set (g := λ x, if c x then f x else x). exists (g t). rewrite latest_token_Some, Hrows. unfold rewrite_rows.
    fold g. split.
    + change (g <$> loginTokens st) with (List.map g (loginTokens st)). rewrite <- List.map_rev.
      change (List.map g) with (fmap (M := list) g). rewrite find_fmap; [by rewrite Ht|].
      intros x. unfold g. destruct (c x); [|done]. apply Hk. by apply (token_edit_same o c f).
    + unfold g. destruct (c t); [|done]. by apply (token_edit_same o c f).
  - assert ((∃ now item, o = TokenCreate now item) ∨ ∀ now item, o ≠ TokenCreate now item) as [(now & item & ->)|Hn]
      by (destruct o; naive_solver).
    + exists t. split; [|done]. apply latest_token_Some. cbn. rewrite rev_app_distr. cbn [rev app].
      cbn [List.find]. rewrite (Hk _ item) by done. cbn in Hc. by rewrite Hc.
    + destruct (token_other st o Ho Hn) as [Hrows _]. exists t. by rewrite latest_token_Some, Hrows.
Qed.

Lemma latest_used_run cond ops st :
  keyed cond → latest_used cond st → existsb (creates cond) ops = false → latest_used cond (store_run st ops).
Proof.
  intros Hk. revert st. induction ops as [|o ops IH]; intros st Hu Hc; [done|]. apply orb_false_iff in Hc as [Ho Hc].
  apply IH; [|done]. by apply latest_used_apply.
Qed.

(** The row with this identifier exists and is used. *)
Definition row_used (id : N) (st : auth_state) : Prop :=
  (id < nextToken st)%N ∧ ∀ t, t ∈ loginTokens st → lt_ID t = id → unused t = false.

Lemma nextToken_mono st o id : (id < nextToken st)%N → (id < nextToken (store_apply st o))%N.
Proof.
  intros Hid. destruct (token_edit o) as [[c f]|] eqn:Ho; [by destruct (token_edit_apply st o c f Ho) as [_ ->]|].
  assert ((∃ now item, o = TokenCreate now item) ∨ ∀ now item, o ≠ TokenCreate now item) as [(now & item & ->)|Hn]
    by (destruct o; naive_solver).
  - cbn. lia.
  - by destruct (token_other st o Ho Hn) as [_ ->].
Qed.

Lemma row_used_apply id st o : row_used id st → row_used id (store_apply st o).
Proof.
  intros [Hid Hu]. split; [by apply nextToken_mono|]. destruct (token_edit o) as [[c f]|] eqn:Ho.
  - destruct (token_edit_apply st o c f Ho) as [[Hrows|Hrows] _]; rewrite Hrows; [|done].
    intros t (t0 & -> & H0)%list_elem_of_fmap. destruct (token_edit_same o c f t0 Ho) as (Hi & _ & Hk).
    destruct (c t0); [rewrite Hi|]; auto.
  - assert ((∃ now item, o = TokenCreate now item) ∨ ∀ now item, o ≠ TokenCreate now item) as [(now & item & ->)|Hn]
      by (destruct o; naive_solver).
    + intros t [Ht| ->%list_elem_of_singleton]%elem_of_app; [by apply Hu|]. cbn. intros <-. lia.
    + destruct (token_other st o Ho Hn) as [Hrows _]. by rewrite Hrows.
Qed.

Lemma MarkUsed_spec st id at_ st' :
  loginTokens_MarkUsed st id at_ = Ok st' →
  st' = with_tokens st (rewrite_rows (λ t, N.eqb (lt_ID t) id && unused t) (set_used at_) (loginTokens st)) (nextToken st)
  ∧ ∀ t, t ∈ loginTokens st' → lt_ID t = id → unused t = false.
Proof.
  unfold loginTokens_MarkUsed, update_where. destruct (existsb _ _); [|done]. intros [= <-]. split; [done|].
  cbn. intros t (t0 & -> & H0)%list_elem_of_fmap. destruct (N.eqb_spec (lt_ID t0) id) as [|Hne]; cbn.
  - by destruct (unused t0) eqn:Hu.
  - done.
Qed.

(** The uses of the row that succeed. *)
Fixpoint uses (id : N) (st : auth_state) (ops : list store_op) : nat :=
  match ops with
  | [] => 0
  | o :: ops' =>
      (match o with
       | TokenMarkUsed i at_ => if N.eqb i id && is_ok (loginTokens_MarkUsed st i at_) then 1 else 0
       | _ => 0
       end + uses id (store_apply st o) ops')%nat
  end.

Lemma uses_none id ops st : row_used id st → uses id st ops = 0%nat.
Proof.
  revert st. induction ops as [|o ops IH]; intros st Hu; [done|]. cbn [uses].
  rewrite IH by by apply row_used_apply. destruct o; try done. destruct (N.eqb_spec id0 id) as [->|]; [|done]. cbn.
  unfold loginTokens_MarkUsed, update_where. destruct (existsb _ (loginTokens st)) eqn:Hex; [|done].
  apply existsb_exists_elem in Hex as (t & Ht & Hc). destruct_bools. destruct Hu as [_ Hu].
  rewrite (Hu t Ht) in *; [done|by apply N.eqb_eq].
Qed.

Lemma uses_once id ops st : (id < nextToken st)%N → (uses id st ops ≤ 1)%nat.
Proof.
  revert st. induction ops as [|o ops IH]; intros st Hid; cbn [uses]; [lia|].
  pose proof (IH (store_apply st o) (nextToken_mono st o id Hid)) as Hrest. destruct o; try (cbn in *; lia).
  destruct (N.eqb_spec id0 id) as [->|]; [|cbn in *; lia].
  destruct (loginTokens_MarkUsed st id at_) as [st'|] eqn:Hr; [|cbn in *; lia].
  assert (store_apply st (TokenMarkUsed id at_) = st') as Heq by (cbn [store_apply]; by rewrite Hr).
  rewrite Heq, uses_none; [done|]. apply MarkUsed_spec in Hr as [-> Hused]. by split.
Qed.
