(* ===== verification/AuthCache.v ===== *)
(** The in-process cache of authentication results (internal/auth/service.go): results by token
    hash, with an index of the hashes by user so that one user's results can be dropped.  The shared
    cache in Redis is not part of the model. *)
From S2P Require Import Prelude GoStrings Domain RateLimit AuthStore.

#[local] Open Scope string_scope.
#[local] Open Scope list_scope.
#[local] Open Scope Z_scope.

Definition authCacheMaxEntries : nat := Z.to_nat 10000.

(** * Operations *)

Definition InvalidateUser (st : auth_state) (userID : N) : auth_state :=
  let keys := default ∅ (userTokens st !! userID) in
  with_cache st (filter (λ kv, kv.1 ∉ keys) (authCache st)) (delete userID (userTokens st)).

Definition InvalidateAll (st : auth_state) : auth_state := with_cache st ∅ ∅.

(** An expired entry is dropped, its key stays in the index. *)
Definition getCachedAuthResult (cacheTTL : Z) (st : auth_state) (now : Z) (tokenKey : string)
  : option (User * list N) * auth_state :=
  if cacheTTL <=? 0 then (None, st)
  else
    match authCache st !! tokenKey with
    | None => (None, st)
    | Some cached =>
        if ca_expiresAt cached <? now then (None, with_cache st (delete tokenKey (authCache st)) (userTokens st))
        else (Some (ca_user cached, ca_groupIDs cached), st)
    end.

(** [expiresAt] is the expiry of the token, if it has one. *)
Definition storeCachedAuthResult (cacheTTL : Z) (st : auth_state) (now : Z) (tokenKey : string) (user : User)
    (groupIDs : list N) (expiresAt : option Z) : auth_state :=
  if cacheTTL <=? 0 then st
  else
    let cacheExpiry := match expiresAt with
                       | Some e => if e <? now + cacheTTL then e else now + cacheTTL
                       | None => now + cacheTTL
                       end in
    if negb (now <? cacheExpiry) then st
    else
      let tokens := default ∅ (userTokens st !! u_ID user) in
      with_cache st
        (<[tokenKey := {| ca_user := user; ca_groupIDs := groupIDs; ca_expiresAt := cacheExpiry |}]> (authCache st))
        (<[u_ID user := {[tokenKey]} ∪ tokens]> (userTokens st)).

(** Removal of one key from both maps; a user without keys leaves the index. *)
Definition unindex (key : string) (userID : N) (index : gmap N (gset string)) : gmap N (gset string) :=
  match index !! userID with
  | None => index
  | Some tokens =>
      let tokens := tokens ∖ {[key]} in
      if decide (tokens = ∅) then delete userID index else <[userID := tokens]> index
  end.

Definition drop_entry (st : auth_state) (kv : string * cachedAuthResult) : auth_state :=
  with_cache st (delete kv.1 (authCache st)) (unindex kv.1 (u_ID (ca_user kv.2)) (userTokens st)).

Section sweep.
(** [sort.Slice] by expiry over the entries in the order the map gives them. *)
Variable by_expiry : list (string * cachedAuthResult) → list (string * cachedAuthResult).

Definition sweepAuthCache (st : auth_state) (now : Z) : auth_state :=
  let expired := List.filter (λ kv : string * cachedAuthResult, ca_expiresAt kv.2 <? now) (map_to_list (authCache st)) in
  let st := foldl drop_entry st expired in
  if (size (authCache st) <=? authCacheMaxEntries)%nat then st
  else
    let entries := by_expiry (map_to_list (authCache st)) in
    foldl drop_entry st (take (length entries - authCacheMaxEntries) entries).
End sweep.

(** * Lemmas *)

(** Every cached result is indexed under its user. *)
Definition cache_inv (st : auth_state) : Prop :=
  ∀ key e, authCache st !! key = Some e →
    ∃ tokens, userTokens st !! u_ID (ca_user e) = Some tokens ∧ key ∈ tokens.

Lemma unindex_keeps key uid index uid' key' tokens :
  index !! uid' = Some tokens → key' ∈ tokens → key' ≠ key →
  ∃ tokens', unindex key uid index !! uid' = Some tokens' ∧ key' ∈ tokens'.
Proof.
  intros Hi Hk Hne. unfold unindex. destruct (index !! uid) as [ts|] eqn:Hu; [|eauto].
  destruct (decide (uid = uid')) as [->|Hu'].
  - simplify_eq. assert (key' ∈ tokens ∖ {[key]}) as Hin by (apply elem_of_difference; split; [done|by rewrite elem_of_singleton]).
    case_decide as Hempty; [by rewrite Hempty in Hin|]. rewrite lookup_insert_eq. eauto.
  - case_decide; rewrite ?lookup_delete_ne, ?lookup_insert_ne by done; eauto.
Qed.

Lemma drop_entry_inv st kv : cache_inv st → cache_inv (drop_entry st kv).
Proof.
  intros Hinv key e Hkey. cbn in Hkey. apply lookup_delete_Some in Hkey as [Hne Hl].
  destruct (Hinv key e Hl) as (tokens & Ht & Hk). by eapply unindex_keeps.
Qed.

Lemma drop_entries_inv l st : cache_inv st → cache_inv (foldl drop_entry st l).
Proof. revert st. induction l as [|kv l IH]; intros st Hinv; [done|]. by apply IH, drop_entry_inv. Qed.

Lemma drop_entries_lookup l st key :
  authCache (foldl drop_entry st l) !! key = if decide (key ∈ l.*1) then None else authCache st !! key.
Proof.
  revert st. induction l as [|[k e] l IH]; intros st; cbn [foldl fmap list_fmap fst].
  - by rewrite decide_False by apply not_elem_of_nil.
  - rewrite IH. cbn [drop_entry with_cache authCache fst]. destruct (decide (key ∈ l.*1)) as [Hin|Hn].
    + by rewrite decide_True by (by right).
    + destruct (decide (key = k)) as [->|Hne].
      * rewrite decide_True by (by left). by rewrite lookup_delete_eq.
      * rewrite decide_False; [by rewrite lookup_delete_ne|]. by intros [?|?]%elem_of_cons.
Qed.

Lemma InvalidateUser_inv st uid : cache_inv st → cache_inv (InvalidateUser st uid).
Proof.
  intros Hinv key e Hkey. cbn in Hkey. apply map_lookup_filter_Some in Hkey as [Hl Hk].
  destruct (Hinv key e Hl) as (tokens & Ht & Hin). exists tokens. split; [|done]. cbn in *. rewrite lookup_delete_ne; [done|]. intros ->. by rewrite Ht in Hk.
Qed.

Lemma InvalidateUser_none st uid key e :
  cache_inv st → authCache (InvalidateUser st uid) !! key = Some e → u_ID (ca_user e) ≠ uid.
Proof.
  intros Hinv Hkey <-. cbn in Hkey. apply map_lookup_filter_Some in Hkey as [Hl Hk].
  destruct (Hinv key e Hl) as (tokens & Ht & Hin). cbn in Hk. by rewrite Ht in Hk.
Qed.

Lemma getCached_inv ttl st now key : cache_inv st → cache_inv (getCachedAuthResult ttl st now key).2.
Proof.
  intros Hinv. unfold getCachedAuthResult. repeat case_match; simpl; try done.
  intros k e Hk. cbn in Hk. apply lookup_delete_Some in Hk as [_ Hl]. by apply Hinv.
Qed.

Lemma store_inv ttl st now key user groups exp :
  cache_inv st → cache_inv (storeCachedAuthResult ttl st now key user groups exp).
Proof.
  intros Hinv. unfold storeCachedAuthResult. destruct (ttl <=? 0); [done|].
  cbv zeta. destruct (negb _); [done|]. intros k e. cbn [with_cache authCache userTokens].
  intros [[<- <-]|[Hne Hl]]%lookup_insert_Some; cbn [ca_user].
  - rewrite lookup_insert_eq. eexists. split; [done|]. set_solver.
  - destruct (Hinv k e Hl) as (tokens & Ht & Hk). destruct (decide (u_ID (ca_user e) = u_ID user)) as [Hu|Hu].
    + rewrite Hu in Ht |- *. rewrite Ht, lookup_insert_eq. eexists. split; [done|]. set_solver.
    + rewrite lookup_insert_ne by done. eauto.
Qed.

Section sweep_lemmas.
Context (by_expiry : list (string * cachedAuthResult) → list (string * cachedAuthResult))
        (by_expiry_perm : ∀ l, by_expiry l ≡ₚ l).

Lemma sweep_inv st now : cache_inv st → cache_inv (sweepAuthCache by_expiry st now).
Proof. intros Hinv. unfold sweepAuthCache. case_match; by repeat apply drop_entries_inv. Qed.

Lemma sweep_lookup st now key e :
  authCache (sweepAuthCache by_expiry st now) !! key = Some e → authCache st !! key = Some e ∧ now ≤ ca_expiresAt e.
Proof.
  unfold sweepAuthCache. set (expired := List.filter _ _).
  assert (authCache (foldl drop_entry st expired) !! key = Some e →
            authCache st !! key = Some e ∧ now ≤ ca_expiresAt e) as Hfirst.
  { intros Hl. rewrite drop_entries_lookup in Hl. case_decide as Hn; [done|]. split; [done|].
    destruct (Z.lt_ge_cases (ca_expiresAt e) now) as [Hlt|]; [|done]. exfalso. apply Hn.
    apply list_elem_of_fmap. exists (key, e). split; [done|]. unfold expired. apply list_elem_of_In, List.filter_In.
    split; [|simpl; by apply Z.ltb_lt]. by apply list_elem_of_In, elem_of_map_to_list. }
  cbv zeta. destruct (_ <=? _)%nat; [exact Hfirst|]. rewrite drop_entries_lookup. case_decide; [done|exact Hfirst].
Qed.

(** The domain after dropping a list of the entries. *)
Lemma drop_entries_size l st :
  (∀ key, key ∈ l.*1 → is_Some (authCache st !! key)) → NoDup l.*1 →
  size (authCache (foldl drop_entry st l)) = (size (authCache st) - length l)%nat.
Proof.
  revert st. induction l as [|[k e] l IH]; intros st Hin Hnd; cbn [foldl length]; [lia|].
  apply NoDup_cons in Hnd as [Hk Hnd]. rewrite IH; [| |done].
  - cbn [drop_entry with_cache authCache fst]. rewrite map_size_delete.
    destruct (Hin k ltac:(by left)) as [x Hx]. rewrite Hx. simpl. lia.
  - intros key Hkey. cbn [drop_entry with_cache authCache fst]. rewrite lookup_delete_ne; [|by intros ->].
    apply Hin. by right.
Qed.

Lemma sweep_bound st now : (size (authCache (sweepAuthCache by_expiry st now)) ≤ authCacheMaxEntries)%nat.
Proof.
  unfold sweepAuthCache. set (st1 := foldl drop_entry st _). destruct (Nat.leb_spec (size (authCache st1)) authCacheMaxEntries) as [Hle|Hgt].
  { done. }
  set (entries := by_expiry (map_to_list (authCache st1))). rewrite drop_entries_size.
  - rewrite length_take. assert (length entries = size (authCache st1)) as ->; [|lia].
    unfold entries. rewrite by_expiry_perm. apply length_map_to_list.
  - intros key (kv & -> & Hkv)%list_elem_of_fmap. apply elem_of_take in Hkv as (i & Hi & _).
    apply list_elem_of_lookup_2 in Hi. unfold entries in Hi. rewrite by_expiry_perm in Hi. destruct kv as [k e].
    apply elem_of_map_to_list in Hi. simpl. eauto.
  - rewrite fmap_take. apply (sublist_NoDup _ (entries.*1)); [|apply sublist_take].
    unfold entries. rewrite by_expiry_perm. apply NoDup_fst_map_to_list.
Qed.
End sweep_lemmas.

(** * Histories of the cache *)

Inductive cache_op :=
  | OpGet (tokenKey : string)
  | OpStore (tokenKey : string) (user : User) (groupIDs : list N) (expiresAt : option Z)
  | OpInvalidateUser (userID : N)
  | OpInvalidateAll
  | OpSweep.

Section history.
Context (by_expiry : list (string * cachedAuthResult) → list (string * cachedAuthResult)) (cacheTTL : Z).

Definition cache_step (st : auth_state) (o : Z * cache_op) : auth_state :=
  match o.2 with
  | OpGet key => (getCachedAuthResult cacheTTL st o.1 key).2
  | OpStore key user groups exp => storeCachedAuthResult cacheTTL st o.1 key user groups exp
  | OpInvalidateUser uid => InvalidateUser st uid
  | OpInvalidateAll => InvalidateAll st
  | OpSweep => sweepAuthCache by_expiry st o.1
  end.

Definition cache_run (st : auth_state) (ops : list (Z * cache_op)) : auth_state := foldl cache_step st ops.

(** An operation that withdraws the results of the user. *)
Definition withdraws (userID : N) (o : Z * cache_op) : bool :=
  match o.2 with OpInvalidateUser uid => N.eqb uid userID | OpInvalidateAll => true | _ => false end.

(** The entry was stored by an operation of the history and not withdrawn since. *)
Definition stored_in (ops : list (Z * cache_op)) (key : string) (e : cachedAuthResult) : Prop :=
  ∃ pre t exp post,
    ops = pre ++ (t, OpStore key (ca_user e) (ca_groupIDs e) exp) :: post ∧
    ca_expiresAt e ≤ t + cacheTTL ∧ (∀ x, exp = Some x → ca_expiresAt e ≤ x) ∧
    forallb (λ o, negb (withdraws (u_ID (ca_user e)) o)) post = true.

Lemma stored_in_snoc ops key e o :
  stored_in ops key e → withdraws (u_ID (ca_user e)) o = false → stored_in (ops ++ [o]) key e.
Proof.
  intros (pre & t & exp & post & -> & Ht & Hx & Hp) Ho. exists pre, t, exp, (post ++ [o]).
  rewrite <- app_assoc, forallb_app, Hp. simpl. by rewrite Ho.
Qed.

Lemma cache_step_inv st o : cache_inv st → cache_inv (cache_step st o).
Proof.
  intros Hinv. destruct o as [t []]; cbn [cache_step fst snd].
  - by apply getCached_inv.
  - by apply store_inv.
  - by apply InvalidateUser_inv.
  - intros k e Hk. cbn in Hk. by rewrite lookup_empty in Hk.
  - by apply sweep_inv.
Qed.

(** An entry after a step was there before it and is not withdrawn, or the step stores it. *)
Lemma cache_step_lookup st t o key e :
  cache_inv st → authCache (cache_step st (t, o)) !! key = Some e →
  (authCache st !! key = Some e ∧ withdraws (u_ID (ca_user e)) (t, o) = false) ∨
  (∃ exp, o = OpStore key (ca_user e) (ca_groupIDs e) exp ∧ ca_expiresAt e ≤ t + cacheTTL ∧
     ∀ x, exp = Some x → ca_expiresAt e ≤ x).
Proof.
  intros Hinv. destruct o as [k|k user groups exp|uid| |]; cbn [cache_step fst snd withdraws].
  - unfold getCachedAuthResult. repeat case_match; cbn; try by left.
    intros [_ Hl]%lookup_delete_Some. by left.
  - unfold storeCachedAuthResult. destruct (cacheTTL <=? 0); [by left|]. cbv zeta. destruct (negb _); [by left|].
    cbn [with_cache authCache]. intros [[<- <-]|[_ Hl]]%lookup_insert_Some; [|by left]. right. exists exp.
    cbn. split; [done|]. split; [case_match; [case_match|]; lia|].
    intros x ->. destruct (Z.ltb_spec x (t + cacheTTL)); lia.
  - intros Hl. left. split; [by apply map_lookup_filter_Some in Hl as [Hl _]|].
    apply InvalidateUser_none in Hl; [|done]. by apply N.eqb_neq.
  - cbn. by rewrite lookup_empty.
  - intros [Hl _]%sweep_lookup. by left.
Qed.

Lemma cache_run_stored st ops :
  authCache st = ∅ →
  cache_inv (cache_run st ops) ∧
  ∀ key e, authCache (cache_run st ops) !! key = Some e → stored_in ops key e.
Proof.
  intros Hst. induction ops as [|[t o] ops [Hinv IH]] using rev_ind.
  { split; intros k e Hk; cbn in Hk; by rewrite Hst, lookup_empty in Hk. }
  unfold cache_run. rewrite foldl_app. split; [by apply cache_step_inv|].
  intros key e [[Hl Hw]|(exp & -> & Ht & Hx)]%cache_step_lookup; [| |done].
  - apply stored_in_snoc; [by apply IH|done].
  - exists ops, t, exp, []. done.
Qed.

(** A cached authentication is one that was stored for exactly this token at most [cacheTTL]
    before, has not outlived the token, and was not withdrawn since by [InvalidateUser] of its user
    or [InvalidateAll]: for every sequence of lookups, stores, invalidations and sweeps that starts
    with an empty cache. *)
Theorem cache_answers_are_current st ops now key user groups st' :
  authCache st = ∅ →
  getCachedAuthResult cacheTTL (cache_run st ops) now key = (Some (user, groups), st') →
  ∃ pre t exp post,
    ops = pre ++ (t, OpStore key user groups exp) :: post ∧ now ≤ t + cacheTTL ∧
    (∀ x, exp = Some x → now ≤ x) ∧ forallb (λ o, negb (withdraws (u_ID user) o)) post = true.
Proof.
  intros Hst. destruct (cache_run_stored st ops Hst) as [_ Hs]. unfold getCachedAuthResult.
  destruct (_ <=? _); [done|]. destruct (authCache _ !! key) as [e|] eqn:Hl; [|done].
  destruct (Z.ltb_spec (ca_expiresAt e) now) as [|Hnow]; [done|]. intros [= <- <- <-].
  destruct (Hs key e Hl) as (pre & t & exp & post & -> & Ht & Hx & Hp).
  exists pre, t, exp, post. split_and!; [done|lia| |done]. intros x Hex. specialize (Hx x Hex). lia.
Qed.
End history.

(** A sweep leaves at most [authCacheMaxEntries] results and none that has expired, and keeps
    every result reachable from its user, so that [InvalidateUser] still finds it. *)
Theorem sweep_bounds_cache by_expiry st now :
  (∀ l, by_expiry l ≡ₚ l) → cache_inv st →
  let st' := sweepAuthCache by_expiry st now in
  (size (authCache st') ≤ authCacheMaxEntries)%nat ∧ cache_inv st' ∧
  ∀ key e, authCache st' !! key = Some e → authCache st !! key = Some e ∧ now ≤ ca_expiresAt e.
Proof.
  intros Hperm Hinv. split_and!; [by apply sweep_bound|by apply sweep_inv|]. intros key e. apply sweep_lookup.
Qed.

(** * Witnesses *)

Definition cached_user : User :=
  {| u_ID := 7; u_Email := "ada@example.com"; u_PasswordHash := ""; u_Role := RoleViewer; u_Active := true;
     u_MustChangePassword := false; u_MFAEnabled := false; u_MFASecret := ""; u_MFAPendingSecret := "";
     u_MFARecoveryCodes := []; u_MFAPendingRecoveryCodes := []; u_MFALastTOTPCounter := 0; u_AuthProvider := "local";
     u_AuthProviderRef := ""; u_AuthIssuer := ""; u_DisplayName := ""; u_Username := ""; u_LastLoginAt := None |}.

Definition empty_auth : auth_state :=
  {| users := [cached_user]; memberships := ∅; sessions := []; nextSession := 1; loginTokens := []; nextToken := 1;
     apiTokens := []; authCache := ∅; userTokens := ∅; limiter := NewLocalLimiter 0; settings := None; passkeys := ∅ |}.

Definition sample_ops : list (Z * cache_op) :=
  [(1, OpInvalidateUser 7); (2, OpStore "k" cached_user [3%N] (Some 50)); (3, OpSweep); (4, OpInvalidateUser 8)].

Lemma cache_answers_are_current_witness :
  (getCachedAuthResult 30 (cache_run (λ l, l) 30 empty_auth sample_ops) 20 "k").1 = Some (cached_user, [3%N]) ∧
  ∃ pre t exp post,
    sample_ops = pre ++ (t, OpStore "k" cached_user [3%N] exp) :: post ∧ 20 ≤ t + 30 ∧
    (∀ x, exp = Some x → 20 ≤ x) ∧ forallb (λ o, negb (withdraws (u_ID cached_user) o)) post = true.
Proof.
  split; [vm_compute; reflexivity|].
  apply (cache_answers_are_current (λ l, l) 30 empty_auth sample_ops 20 "k" cached_user [3%N]
           (getCachedAuthResult 30 (cache_run (λ l, l) 30 empty_auth sample_ops) 20 "k").2);
    vm_compute; reflexivity.
Defined.

Definition sample_cache : auth_state := cache_run (λ l, l) 30 empty_auth sample_ops.

Lemma sweep_bounds_cache_witness :
  size (authCache sample_cache) = 1%nat ∧ size (authCache (sweepAuthCache (λ l, l) sample_cache 40)) = 0%nat ∧
  (size (authCache (sweepAuthCache (λ l, l) sample_cache 40)) ≤ authCacheMaxEntries)%nat.
Proof.
  split_and!; [vm_compute; reflexivity|vm_compute; reflexivity|].
  apply (sweep_bounds_cache (λ l, l) sample_cache 40); [done|]. by apply cache_run_stored.
Defined.
