(* ===== verification/Tokens.v ===== *)
(** The signed tokens of the authentication service: what internal/auth/sessions.go and
    route_access.go put in them, how they are checked, and the cookies that carry them.

    The JWT library and the key derivation are interfaces.  The payload is a JSON object: decoding it
    into a struct takes the members the struct names and leaves the others, so one record has the
    members of all claim structs, with the zero value for an absent one.  Times in a payload are in
    seconds. *)
From S2P Require Import Prelude GoStrings Utf8Json Netip Domain Hosts Routing Requests RateLimit Handler.
From S2P Require Import AuthStore AuthCache.

#[local] Open Scope string_scope.
#[local] Open Scope list_scope.

(** * Payloads *)

Record RegisteredClaims := {
  Issuer : string; Subject : string; Audience : list string; ID : string; IssuedAt : option Z; ExpiresAt : option Z;
}.

Record jwt_claims := {
  cl_UserID : N; cl_SessionID : N; cl_TokenID : string; cl_Role : string; cl_Email : string;
  cl_ServiceID : N; cl_Method : string; cl_HostToken : string; cl_Host : string; cl_TokenType : string;
  cl_ReturnTo : string; cl_Registered : RegisteredClaims;
}.

(** [jwt.NewNumericDate]: whole seconds. *)
Definition NewNumericDate (t : Z) : Z := (t / Second)%Z.

(** The structs [Claims] and [HostSessionClaims]; those of the other tokens are in Handler.v. *)
Record Claims := {
  k_UserID : N; k_SessionID : N; k_TokenID : string; k_Role : string; k_Email : string; k_ExpiresAt : option Z;
}.
Record HostSessionClaims := { h_UserID : N; h_SessionID : N; h_TokenType : string; h_ExpiresAt : option Z }.

Definition as_Claims (c : jwt_claims) : Claims :=
  {| k_UserID := cl_UserID c; k_SessionID := cl_SessionID c; k_TokenID := cl_TokenID c; k_Role := cl_Role c;
     k_Email := cl_Email c; k_ExpiresAt := ExpiresAt (cl_Registered c) |}.
Definition as_HostSessionClaims (c : jwt_claims) : HostSessionClaims :=
  {| h_UserID := cl_UserID c; h_SessionID := cl_SessionID c; h_TokenType := cl_TokenType c; h_ExpiresAt := ExpiresAt (cl_Registered c) |}.
Definition as_RouteAccessClaims (c : jwt_claims) : RouteAccessClaims :=
  {| ra_ServiceID := cl_ServiceID c; ra_Method := cl_Method c; ra_Email := cl_Email c |}.
Definition as_SessionBridgeClaims (c : jwt_claims) : SessionBridgeClaims :=
  {| sb_HostToken := cl_HostToken c; sb_Host := cl_Host c; sb_ID := ID (cl_Registered c) |}.
Definition as_RouteAccessBridgeClaims (c : jwt_claims) : RouteAccessBridgeClaims :=
  {| rb_ServiceID := cl_ServiceID c; rb_Host := cl_Host c; rb_Method := cl_Method c; rb_Email := cl_Email c;
     rb_ReturnTo := cl_ReturnTo c; rb_ID := ID (cl_Registered c) |}.

(** * Interfaces *)

(** [SignedString] with HS256; [jwt_payload]: the payload of a token whose HS256 signature is right for
    the key. *)
Class JWT := {
  SignedString : string → jwt_claims → string;
  jwt_payload : string → string → option jwt_claims;
}.

(** A text survives the JSON encoding when it is valid UTF-8. *)
Definition claims_text (c : jwt_claims) : bool :=
  forallb ValidString
    ([cl_TokenID c; cl_Role c; cl_Email c; cl_Method c; cl_HostToken c; cl_Host c; cl_TokenType c; cl_ReturnTo c;
      Issuer (cl_Registered c); Subject (cl_Registered c); ID (cl_Registered c)] ++ Audience (cl_Registered c)).

(** The bytes of the compact serialization. *)
Definition jwt_byte (a : ascii) : bool :=
  is_digit a || between 65 90 a || between 97 122 a || Ascii.eqb a "-" || Ascii.eqb a "_" || Ascii.eqb a ".".

Class JWTLaws `{JWT} := {
  signed_bytes : ∀ key c, string_all jwt_byte (SignedString key c) = true ∧ SignedString key c ≠ "";
  (** A signed payload verifies under its key. *)
  payload_signed : ∀ key c, claims_text c = true → jwt_payload key (SignedString key c) = Some c;
}.

(** The fields of [Service] that do not change while it runs.  [NewService] is given a session store,
    an API token store and a settings store. *)
Record OTPConfig := {
  otp_Enabled : bool; otp_TokenTTL : Z; otp_RequestLimit : Z; otp_RequestWindow : Z; otp_ResponseIncludesCode : bool;
}.

Record AuthConfig := {
  jwtSigningSecret : string;
  sessionBridgeSecret : string;
  issuer : string;
  tokenTTL : Z;
  refreshTokenTTL : Z;
  routeAuthTTL : Z;
  rateLimit : RateConfig;
  cacheTTL : Z;
  fallbackFrontendBaseURL : string;
  fallbackOTP : OTPConfig;
  fallbackOIDC_Enabled : bool;
  fallbackOIDC_RedirectURL : string;
  allowInsecureDevMode : bool;
}.

Definition sessionBridgeSubject := "session_bridge".
Definition hostSessionTokenType := "host_session".
Definition hostSessionKeyContext := "portlyn host session v1".

Section tokens.
Context `{JWT}.
(** HMAC-SHA256 of a key and a message. *)
Variable hmac : string → string → string.
Variable url_Parse : string → option URL.
Variable url_String : URL → string.
Variable cfg : AuthConfig.

(** [jwt.ParseWithClaims]: signature, expiry, and the audience where one is required. *)
Definition ParseWithClaims (key : string) (now : Z) (audience : option string) (expirationRequired : bool)
    (tokenString : string) : option jwt_claims :=
  match jwt_payload key tokenString with
  | None => None
  | Some c =>
      let fresh := match ExpiresAt (cl_Registered c) with
                   | Some e => (now <? e * Second)%Z
                   | None => negb expirationRequired
                   end in
      let addressed := match audience with
                       | Some a => existsb (String.eqb a) (Audience (cl_Registered c))
                       | None => true
                       end in
      if fresh && addressed then Some c else None
  end.

Definition hostSessionSecret : string := hmac (jwtSigningSecret cfg) hostSessionKeyContext.

(** ** Session tokens *)

Definition ParseToken (now : Z) (tokenString : string) : option Claims :=
  as_Claims <$> ParseWithClaims (jwtSigningSecret cfg) now None false tokenString.

Definition issueToken (now : Z) (user : User) (session : option Session) : string :=
  let tokenID := match session with Some s => ss_TokenID s | None => "" end in
  let sessionID := match session with Some s => ss_ID s | None => 0%N end in
  SignedString (jwtSigningSecret cfg)
    {| cl_UserID := u_ID user; cl_SessionID := sessionID; cl_TokenID := tokenID; cl_Role := u_Role user;
       cl_Email := u_Email user; cl_ServiceID := 0; cl_Method := ""; cl_HostToken := ""; cl_Host := "";
       cl_TokenType := ""; cl_ReturnTo := "";
       cl_Registered := {| Issuer := issuer cfg; Subject := FormatUint (u_ID user); Audience := []; ID := tokenID;
                           IssuedAt := Some (NewNumericDate now); ExpiresAt := Some (NewNumericDate (now + tokenTTL cfg)) |} |}.

(** ** Host session tokens; [jti] is the identifier drawn for the token *)

Definition issueHostSessionToken (now : Z) (user : User) (session : option Session) (host jti : string) : string :=
  let sessionID := match session with Some s => ss_ID s | None => 0%N end in
  SignedString hostSessionSecret
    {| cl_UserID := u_ID user; cl_SessionID := sessionID; cl_TokenID := ""; cl_Role := ""; cl_Email := "";
       cl_ServiceID := 0; cl_Method := ""; cl_HostToken := ""; cl_Host := ""; cl_TokenType := hostSessionTokenType;
       cl_ReturnTo := "";
       cl_Registered := {| Issuer := issuer cfg; Subject := FormatUint (u_ID user); Audience := [host]; ID := jti;
                           IssuedAt := Some (NewNumericDate now); ExpiresAt := Some (NewNumericDate (now + tokenTTL cfg)) |} |}.

Definition parseHostSessionToken (now : Z) (tokenString host : string) : option HostSessionClaims :=
  let host := normalizeBridgeHost host in
  if negb (non_empty host) then None
  else
    match ParseWithClaims hostSessionSecret now (Some host) true tokenString with
    | None => None
    | Some c =>
        if String.eqb (cl_TokenType c) hostSessionTokenType && negb (N.eqb (cl_UserID c) 0)
        then Some (as_HostSessionClaims c) else None
    end.

Definition IssueSessionBridgeToken (now : Z) (user : User) (session : option Session) (host hostJti jti : string)
  : option string :=
  let host := normalizeBridgeHost host in
  if N.eqb (u_ID user) 0 || negb (non_empty host) then None
  else
    match session with
    | None => None
    | Some _ =>
        let hostToken := issueHostSessionToken now user session host hostJti in
        Some (SignedString (sessionBridgeSecret cfg)
          {| cl_UserID := 0; cl_SessionID := 0; cl_TokenID := ""; cl_Role := ""; cl_Email := ""; cl_ServiceID := 0;
             cl_Method := ""; cl_HostToken := hostToken; cl_Host := host; cl_TokenType := ""; cl_ReturnTo := "";
             cl_Registered := {| Issuer := issuer cfg; Subject := sessionBridgeSubject; Audience := []; ID := jti;
                                 IssuedAt := Some (NewNumericDate now);
                                 ExpiresAt := Some (NewNumericDate (now + 2 * Minute)) |} |})
    end.

Definition parse_session_bridge (now : Z) (tokenString : string) : option SessionBridgeClaims :=
  match ParseWithClaims (sessionBridgeSecret cfg) now None false tokenString with
  | None => None
  | Some c =>
      if String.eqb (Subject (cl_Registered c)) sessionBridgeSubject && non_empty (TrimSpace (cl_HostToken c))
      then Some (as_SessionBridgeClaims c) else None
  end.

(** ** Route access: the cookie of one service, and the token that carries it to the service's host *)

Definition SessionCookieNameForService (serviceID : N) : string := "portlyn_route_access_" +:+ FormatUint serviceID.

Definition route_access_claims (now : Z) (r : Request) (serviceID : N) : option RouteAccessClaims :=
  match RCookie (r_Header r) (SessionCookieNameForService serviceID) with
  | None => None
  | Some value =>
      match ParseWithClaims (jwtSigningSecret cfg) now None false value with
      | None => None
      | Some c => if N.eqb (cl_ServiceID c) serviceID then Some (as_RouteAccessClaims c) else None
      end
  end.

Definition route_access_token (now : Z) (serviceID : N) (method email : string) : string :=
  SignedString (jwtSigningSecret cfg)
    {| cl_UserID := 0; cl_SessionID := 0; cl_TokenID := ""; cl_Role := ""; cl_Email := ToLower (TrimSpace email);
       cl_ServiceID := serviceID; cl_Method := TrimSpace method; cl_HostToken := ""; cl_Host := ""; cl_TokenType := "";
       cl_ReturnTo := "";
       cl_Registered := {| Issuer := issuer cfg; Subject := "route:" +:+ FormatUint serviceID; Audience := []; ID := "";
                           IssuedAt := Some (NewNumericDate now); ExpiresAt := Some (NewNumericDate (now + routeAuthTTL cfg)) |} |}.

(** [int(d.Seconds())]. *)
Definition max_age (d : Z) : Z := Z.quot d Second.

Definition route_access_cookie (now : Z) (serviceID : N) (method email : string) : Cookie :=
  {| ck_Name := SessionCookieNameForService serviceID; ck_Value := route_access_token now serviceID method email;
     ck_Domain := ""; ck_Secure := negb (allowInsecureDevMode cfg); ck_MaxAge := max_age (routeAuthTTL cfg) |}.

Definition session_cookies_for_host (token host : string) (secure : bool) : list Cookie :=
  let host := TrimSpace host in
  (if non_empty host
   then [{| ck_Name := SessionCookieName; ck_Value := ""; ck_Domain := host; ck_Secure := secure; ck_MaxAge := -1 |}]
   else []) ++
  [{| ck_Name := SessionCookieName; ck_Value := token; ck_Domain := ""; ck_Secure := secure; ck_MaxAge := max_age (tokenTTL cfg) |}].

Definition sanitizeReturnTo (value : string) : string :=
  let value := TrimSpace value in
  if negb (non_empty value) then ""
  else
    match url_Parse value with
    | None => ""
    | Some parsed =>
        if negb (non_empty (u_Host parsed)) || negb (non_empty (u_Scheme parsed)) then ""
        else if negb (String.eqb (u_Scheme parsed) "http") && negb (String.eqb (u_Scheme parsed) "https") then ""
        else url_String parsed
    end.

Definition IssueRouteAccessBridgeToken (now : Z) (serviceID : N) (host method email returnTo jti : string) : option string :=
  let host := normalizeBridgeHost host in
  if N.eqb serviceID 0 || negb (non_empty host) then None
  else
    Some (SignedString (sessionBridgeSecret cfg)
      {| cl_UserID := 0; cl_SessionID := 0; cl_TokenID := ""; cl_Role := ""; cl_Email := ToLower (TrimSpace email);
         cl_ServiceID := serviceID; cl_Method := TrimSpace method; cl_HostToken := ""; cl_Host := host; cl_TokenType := "";
         cl_ReturnTo := sanitizeReturnTo returnTo;
         cl_Registered := {| Issuer := issuer cfg; Subject := "route_bridge:" +:+ FormatUint serviceID; Audience := [];
                             ID := jti; IssuedAt := Some (NewNumericDate now);
                             ExpiresAt := Some (NewNumericDate (now + 2 * Minute)) |} |}).

Definition parse_route_access_bridge (now : Z) (tokenString : string) : option RouteAccessBridgeClaims :=
  as_RouteAccessBridgeClaims <$> ParseWithClaims (sessionBridgeSecret cfg) now None false tokenString.

(** ** Which tokens are Portlyn's own *)

Definition apiTokenScheme := "plyn".
Definition LooksLikeAPIToken (token : string) : bool := HasPrefix (TrimSpace token) (apiTokenScheme +:+ "_").

(** [IsPortlynCredential] verifies the signature only. *)
Definition is_portlyn_credential (token : string) : bool :=
  let token := TrimSpace token in
  if negb (non_empty token) then false
  else if LooksLikeAPIToken token then true
  else existsb (λ key, match jwt_payload key token with Some _ => true | None => false end)
         [jwtSigningSecret cfg; hostSessionSecret].
End tokens.

(** * Lemmas *)

Lemma jwt_byte_plain a : jwt_byte a = true → (byte a < 128)%N ∧ is_space a = false.
Proof. destruct a as [[] [] [] [] [] [] [] []]; vm_compute; done. Qed.

Lemma ValidString_plain s : string_all (λ a, byte a <? 128)%N s = true → ValidString s = true.
Proof.
  induction s as [|a s IH]; [done|]. cbn [string_all]. intros [Ha Hs]%andb_true_iff.
  change (String a s) with (String a "" +:+ s). rewrite ValidString_app_rune; [by apply IH|]. simpl. by rewrite Ha.
Qed.

Lemma jwt_text s : string_all jwt_byte s = true → ValidString s = true ∧ TrimSpace s = s.
Proof.
  intros Hs. split; [apply ValidString_plain|apply TrimSpace_none]; (eapply string_all_impl; [|exact Hs]);
    intros a [Ha Hsp]%jwt_byte_plain; [by apply N.ltb_lt|by rewrite Hsp].
Qed.

Lemma ValidString_FormatUint n : ValidString (FormatUint n) = true.
Proof.
  apply jwt_text. eapply string_all_impl; [|apply FormatUint_digits]. intros a Ha. unfold jwt_byte. by rewrite Ha.
Qed.

Section laws.
Context `{JWTLaws} (hmac : string → string → string) (url_Parse : string → option URL) (url_String : URL → string)
        (cfg : AuthConfig).

Lemma parse_signed key now aud req c :
  claims_text c = true →
  ParseWithClaims key now aud req (SignedString key c) =
    if match ExpiresAt (cl_Registered c) with Some e => (now <? e * Second)%Z | None => negb req end
       && match aud with Some a => existsb (String.eqb a) (Audience (cl_Registered c)) | None => true end
    then Some c else None.
Proof. intros Hc. unfold ParseWithClaims. by rewrite payload_signed. Qed.

(** What is signed under the one key does not verify under the other. *)
Definition foreign (key key' : string) : Prop := ∀ c, jwt_payload key' (SignedString key c) = None.

Lemma parse_other key key' now aud req c : foreign key key' → ParseWithClaims key' now aud req (SignedString key c) = None.
Proof. intros Hk. unfold ParseWithClaims. by rewrite Hk. Qed.

(** No token signed under one of the three keys of the configuration verifies under another of them. *)
Definition keys_separate : Prop :=
  Forall (λ key, Forall (λ key', key = key' ∨ foreign key key') [jwtSigningSecret cfg; sessionBridgeSecret cfg; hostSessionSecret hmac cfg])
    [jwtSigningSecret cfg; sessionBridgeSecret cfg; hostSessionSecret hmac cfg] ∧
  NoDup [jwtSigningSecret cfg; sessionBridgeSecret cfg; hostSessionSecret hmac cfg].

Lemma keys_foreign : keys_separate →
  (foreign (jwtSigningSecret cfg) (sessionBridgeSecret cfg) ∧ foreign (jwtSigningSecret cfg) (hostSessionSecret hmac cfg)) ∧
  (foreign (sessionBridgeSecret cfg) (jwtSigningSecret cfg) ∧ foreign (sessionBridgeSecret cfg) (hostSessionSecret hmac cfg)) ∧
  (foreign (hostSessionSecret hmac cfg) (jwtSigningSecret cfg) ∧ foreign (hostSessionSecret hmac cfg) (sessionBridgeSecret cfg)).
Proof.
  unfold keys_separate. rewrite !Forall_cons, !NoDup_cons. intros [Hf Hd].
  destruct Hf as ((_ & ? & ? & _) & (? & _ & ? & _) & (? & ? & _ & _) & _). set_solver.
Qed.

Lemma ValidString_subject p n : string_all (λ a, byte a <? 128)%N p = true → ValidString (p +:+ FormatUint n) = true.
Proof.
  intros Hp. apply ValidString_plain. rewrite string_all_app, Hp. eapply string_all_impl; [|apply FormatUint_digits].
  intros a Ha. apply N.ltb_lt, jwt_byte_plain. unfold jwt_byte. by rewrite Ha.
Qed.

(** What a token of each kind can be taken for. *)
Definition only_for (session host sessionBridge routeBridge : bool) (routes : N → Prop) (now : Z) (tok : string) : Prop :=
  (session = false → ∀ k, ParseToken cfg now tok = Some k → k_UserID k = 0%N) ∧
  (host = false → ∀ h, parseHostSessionToken hmac cfg now tok h = None) ∧
  (sessionBridge = false → parse_session_bridge cfg now tok = None) ∧
  (routeBridge = false → ∀ k, parse_route_access_bridge cfg now tok = Some k → rb_ServiceID k = 0%N) ∧
  (∀ r id k, RCookie (r_Header r) (SessionCookieNameForService id) = Some tok →
     route_access_claims cfg now r id = Some k → id = 0%N ∨ routes id).

(** A token under the signing key, by its payload. *)
Lemma only_for_signing now routes (c : jwt_claims) :
  keys_separate → claims_text c = true → (∀ id, cl_ServiceID c = id → id = 0%N ∨ routes id) →
  only_for (negb (N.eqb (cl_UserID c) 0)) false false false routes now (SignedString (jwtSigningSecret cfg) c).
Proof.
  intros ((Hb & Hh) & _)%keys_foreign Hc Hr. unfold only_for, ParseToken, parseHostSessionToken, parse_session_bridge,
    parse_route_access_bridge, route_access_claims. rewrite !(parse_other (jwtSigningSecret cfg) (sessionBridgeSecret cfg)) by done.
  split_and!; intros.
  - apply fmap_Some in H2 as (x & Hx & ->). rewrite parse_signed in Hx by done. case_match; simplify_eq. cbn.
    by apply negb_false_iff, N.eqb_eq in H1.
  - cbv zeta. destruct (negb _); [done|]. by rewrite parse_other by done.
  - done.
  - done.
  - rewrite H1, parse_signed in H2 by done. repeat case_match; simplify_eq;
      by apply Hr, N.eqb_eq.
Qed.

(** A token under the key of the bridges. *)
Lemma only_for_bridge now (c : jwt_claims) :
  keys_separate → claims_text c = true →
  only_for false false (String.eqb (Subject (cl_Registered c)) sessionBridgeSubject) (negb (N.eqb (cl_ServiceID c) 0))
    (λ _, False) now (SignedString (sessionBridgeSecret cfg) c).
Proof.
  intros (_ & (Hb & Hh) & _)%keys_foreign Hc. unfold only_for, ParseToken, parseHostSessionToken, parse_session_bridge,
    parse_route_access_bridge, route_access_claims. rewrite !(parse_other (sessionBridgeSecret cfg) (jwtSigningSecret cfg)) by done.
  split_and!; intros.
  - done.
  - cbv zeta. destruct (negb _); [done|]. by rewrite parse_other by done.
  - rewrite parse_signed by done. destruct (_ && _); [|done]. by rewrite H1.
  - apply fmap_Some in H2 as (x & Hx & ->). rewrite parse_signed in Hx by done. case_match; simplify_eq. cbn.
    by apply negb_false_iff, N.eqb_eq in H1.
  - by rewrite H1, parse_other in H2.
Qed.

(** A host session token. *)
Lemma only_for_host now c : keys_separate → only_for false true false false (λ _, False) now (SignedString (hostSessionSecret hmac cfg) c).
Proof.
  intros (_ & _ & Hh & Hb)%keys_foreign. unfold only_for, ParseToken, parse_session_bridge, parse_route_access_bridge, route_access_claims.
  rewrite !(parse_other (hostSessionSecret hmac cfg) (sessionBridgeSecret cfg)), !(parse_other (hostSessionSecret hmac cfg) (jwtSigningSecret cfg)) by done. split_and!; try done. intros r id k -> Hk.
  by rewrite parse_other in Hk.
Qed.
End laws.

(** The claims of a token are text when their parts are. *)
Ltac text :=
  unfold claims_text;
  cbn [cl_TokenID cl_Role cl_Email cl_Method cl_HostToken cl_Host cl_TokenType cl_ReturnTo cl_Registered
       Issuer Subject ID Audience Datatypes.app forallb];
  repeat match goal with Hv : ValidString _ = true |- _ => rewrite Hv end;
  change (ValidString "") with true; change (ValidString hostSessionTokenType) with true;
  change (ValidString sessionBridgeSubject) with true;
  rewrite ?ValidString_FormatUint; rewrite ?ValidString_subject by done; done.

(** * Theorems *)

Section theorems.
Context `{JWTLaws} (hmac : string → string → string) (url_Parse : string → option URL) (url_String : URL → string)
        (cfg : AuthConfig).

(** C8 Where nothing signed under one of the three keys verifies under another of them, a token of one kind is of no use where
    another is asked for, at any time after it was issued.  A session token is no host session and no bridge.  A host session token is only that.
    The cookie of one service is no host session and no bridge, unlocks no other service, and read as a session token it
    names user 0.  A session bridge token is no session, no host session and no route cookie, and read as a route bridge token it names
    service 0.  A route bridge token is no session, no host session, no session bridge and no route cookie.  The id 0, which an absent
    number reads as and no row has, is the exception throughout: a session token passes for the cookie of service 0. *)
Theorem token_kinds_separate now issued :
  keys_separate hmac cfg → ValidString (issuer cfg) = true →
  (∀ user session, ValidString (u_Role user) = true → ValidString (u_Email user) = true →
     ValidString (ss_TokenID session) = true →
     only_for hmac cfg true false false false (λ _, False) now (issueToken cfg issued user (Some session))) ∧
  (∀ user session host jti,
     only_for hmac cfg false true false false (λ _, False) now (issueHostSessionToken hmac cfg issued user session host jti)) ∧
  (∀ id method email, ValidString (TrimSpace method) = true → ValidString (ToLower (TrimSpace email)) = true →
     only_for hmac cfg false false false false (eq id) now (route_access_token cfg issued id method email)) ∧
  (∀ user session host hostJti jti tok, ValidString (normalizeBridgeHost host) = true → ValidString jti = true →
     IssueSessionBridgeToken hmac cfg issued user session host hostJti jti = Some tok →
     only_for hmac cfg false false true false (λ _, False) now tok) ∧
  (∀ id host method email returnTo jti tok, ValidString (normalizeBridgeHost host) = true → ValidString jti = true →
     ValidString (TrimSpace method) = true → ValidString (ToLower (TrimSpace email)) = true →
     ValidString (sanitizeReturnTo url_Parse url_String returnTo) = true →
     IssueRouteAccessBridgeToken url_Parse url_String cfg issued id host method email returnTo jti = Some tok →
     only_for hmac cfg false false false true (λ _, False) now tok).
Proof.
  intros Hk Hi. split_and!.
  - intros user session Hr He Ht. unfold issueToken. cbv zeta.
    match goal with |- only_for _ _ _ _ _ _ ?routes _ (SignedString _ ?c) =>
      destruct (only_for_signing hmac cfg now routes c Hk ltac:(text) ltac:(cbn; by left)) as (_ & ?) end. by split.
  - intros user session host jti. by apply only_for_host.
  - intros id method email Hm He. unfold route_access_token.
    match goal with |- only_for _ _ _ _ _ _ ?routes _ (SignedString _ ?c) =>
      apply (only_for_signing hmac cfg now routes c Hk ltac:(text)) end.
    intros id' <-. by right.
  - intros user session host hostJti jti tok Hh Hj Htok. unfold IssueSessionBridgeToken in Htok.
    destruct (_ || _); [done|]. destruct session; [|done]. injection Htok as <-.
    match goal with |- only_for _ _ _ _ _ _ _ _ (SignedString _ ?c) => apply (only_for_bridge hmac cfg now c Hk) end.
    unfold issueHostSessionToken. cbv zeta.
    match goal with |- context [SignedString (hostSessionSecret hmac cfg) ?c] =>
      pose proof (proj1 (jwt_text _ (proj1 (signed_bytes (hostSessionSecret hmac cfg) c)))) as Hv;
      set (tok := SignedString _ c) in * end. text.
  - intros id host method email returnTo jti tok Hh Hj Hm He Hr Htok. unfold IssueRouteAccessBridgeToken in Htok.
    destruct (_ || _) eqn:Hid; [done|]. apply orb_false_iff in Hid as [Hid _].
    apply (inj Some) in Htok. subst tok.
    match goal with |- only_for _ _ _ _ _ _ _ _ (SignedString _ ?c) =>
      pose proof (only_for_bridge hmac cfg now c Hk ltac:(text)) as Hb end. cbn in Hb. by rewrite Hid in Hb.
Qed.

(** The host token inside a bridge token is accepted exactly for the host it was issued for, until it
    expires. *)
Lemma host_token_accepted issued user session host jti now host' :
  ValidString (issuer cfg) = true → ValidString host = true → ValidString jti = true → host ≠ "" →
  parseHostSessionToken hmac cfg now (issueHostSessionToken hmac cfg issued user (Some session) host jti) host' =
    if String.eqb (normalizeBridgeHost host') host && (now <? NewNumericDate (issued + tokenTTL cfg) * Second)%Z
       && negb (N.eqb (u_ID user) 0)
    then Some {| h_UserID := u_ID user; h_SessionID := ss_ID session; h_TokenType := hostSessionTokenType;
                 h_ExpiresAt := Some (NewNumericDate (issued + tokenTTL cfg)) |}
    else None.
Proof.
  intros Hi Hh Hj Hne. unfold parseHostSessionToken, issueHostSessionToken. cbv zeta.
  destruct (String.eqb_spec (normalizeBridgeHost host') host) as [Heq|Hneq].
  - rewrite Heq. assert (non_empty host = true) as -> by by destruct host. cbn [negb]. rewrite parse_signed by text. cbn. rewrite String.eqb_refl. cbn.
    destruct (now <? _)%Z; [|done]. cbn. by destruct (u_ID user =? 0)%N.
  - destruct (negb _); [done|]. rewrite parse_signed by text. cbn.
    rewrite (proj2 (String.eqb_neq _ _) Hneq). by rewrite andb_false_r.
Qed.

(** Handing a session to another host: the bridge token issued for a user with a session is
    accepted within its two minutes and carries a host token that names the user and the session, and
    that is accepted on exactly the host it was issued for until the session token's lifetime is over. *)
Theorem session_bridge_roundtrip issued user session host hostJti jti now :
  ValidString (issuer cfg) = true → ValidString (normalizeBridgeHost host) = true →
  ValidString hostJti = true → ValidString jti = true →
  u_ID user ≠ 0%N → normalizeBridgeHost host ≠ "" → (now < NewNumericDate (issued + 2 * Minute) * Second)%Z →
  ∃ tok k,
    IssueSessionBridgeToken hmac cfg issued user (Some session) host hostJti jti = Some tok ∧
    parse_session_bridge cfg now tok = Some k ∧ sb_Host k = normalizeBridgeHost host ∧ sb_ID k = jti ∧
    ∀ later host',
      parseHostSessionToken hmac cfg later (sb_HostToken k) host' =
        if String.eqb (normalizeBridgeHost host') (normalizeBridgeHost host)
           && (later <? NewNumericDate (issued + tokenTTL cfg) * Second)%Z
        then Some {| h_UserID := u_ID user; h_SessionID := ss_ID session; h_TokenType := hostSessionTokenType;
                     h_ExpiresAt := Some (NewNumericDate (issued + tokenTTL cfg)) |}
        else None.
Proof.
  intros Hi Hh Hhj Hj Hu Hne Hnow. unfold IssueSessionBridgeToken.
  rewrite (proj2 (N.eqb_neq _ _) Hu). assert (non_empty (normalizeBridgeHost host) = true) as -> by by destruct (normalizeBridgeHost host).
  cbn [negb orb]. eexists _, _. split; [reflexivity|].
  pose proof (host_token_accepted issued user session (normalizeBridgeHost host) hostJti) as Hacc.
  set (ht := issueHostSessionToken hmac cfg issued user (Some session) (normalizeBridgeHost host) hostJti) in *.
  assert (string_all jwt_byte ht = true ∧ ht ≠ "") as [Hb Hht] by apply signed_bytes.
  destruct (jwt_text ht Hb) as [Hvalid Htrim]. unfold parse_session_bridge. rewrite parse_signed by text.
  cbn [cl_Registered ExpiresAt]. rewrite (proj2 (Z.ltb_lt _ _) Hnow).
  cbn [andb cl_Registered Subject cl_HostToken]. rewrite String.eqb_refl, Htrim.
  assert (non_empty ht = true) as -> by by destruct ht. cbn [andb].
  split_and!; [done|done|done|]. intros later host'. cbn [as_SessionBridgeClaims sb_HostToken cl_HostToken]. rewrite Hacc by done.
  rewrite (proj2 (N.eqb_neq _ _) Hu), andb_true_r. done.
Qed.
End theorems.

(** * A concrete library

    The payload and the key as a list of numbers, in binary digits. *)

Fixpoint binary (p : positive) : string :=
  match p with xH => "1" | xO q => String "0" (binary q) | xI q => String "1" (binary q) end.

Fixpoint unbinary (s : string) : option positive :=
  match s with
  | EmptyString => None
  | String a s' =>
      match s' with
      | EmptyString => if Ascii.eqb a "1" then Some xH else None
      | _ => match unbinary s' with
             | Some p => Some (if Ascii.eqb a "1" then xI p else xO p)
             | None => None
             end
      end
  end.

Lemma unbinary_binary p : unbinary (binary p) = Some p.
Proof.
  induction p as [p IH|p IH|]; [| |done]; cbn [binary unbinary]; destruct (binary p) eqn:Hb;
    [by destruct p| |by destruct p|]; cbn [unbinary] in *; by rewrite IH.
Qed.

Definition list_of_claims (c : jwt_claims) : list positive :=
  let reg := cl_Registered c in
  [encode (cl_UserID c); encode (cl_SessionID c); encode (cl_TokenID c); encode (cl_Role c); encode (cl_Email c);
   encode (cl_ServiceID c); encode (cl_Method c); encode (cl_HostToken c); encode (cl_Host c); encode (cl_TokenType c);
   encode (cl_ReturnTo c); encode (Issuer reg); encode (Subject reg); encode (Audience reg); encode (ID reg);
   encode (IssuedAt reg); encode (ExpiresAt reg)].

Definition claims_of_list (l : list positive) : option jwt_claims :=
  match l with
  | [a; b; c; d; e; f; g; h; i; j; k; m; n; o; p; q; r] =>
      decode a ≫= λ a, decode b ≫= λ b, decode c ≫= λ c, decode d ≫= λ d, decode e ≫= λ e, decode f ≫= λ f,
      decode g ≫= λ g, decode h ≫= λ h, decode i ≫= λ i, decode j ≫= λ j, decode k ≫= λ k, decode m ≫= λ m,
      decode n ≫= λ n, decode o ≫= λ o, decode p ≫= λ p, decode q ≫= λ q, decode r ≫= λ r,
      Some {| cl_UserID := a; cl_SessionID := b; cl_TokenID := c; cl_Role := d; cl_Email := e; cl_ServiceID := f;
              cl_Method := g; cl_HostToken := h; cl_Host := i; cl_TokenType := j; cl_ReturnTo := k;
              cl_Registered := {| Issuer := m; Subject := n; Audience := o; ID := p; IssuedAt := q; ExpiresAt := r |} |}
  | _ => None
  end.

Lemma claims_of_list_of c : claims_of_list (list_of_claims c) = Some c.
Proof. destruct c as [????? ????? ? [??????]]. cbn [claims_of_list list_of_claims]. by rewrite !decode_encode. Qed.

#[export] Instance sample_jwt : JWT := {
  SignedString key c := binary (encode (encode key :: list_of_claims c));
  jwt_payload key tok :=
    unbinary tok ≫= λ p,
    match decode p with
    | Some (k :: l) => if Pos.eqb k (encode key) then claims_of_list l else None
    | _ => None
    end;
}.

#[export] Instance sample_jwt_laws : JWTLaws.
Proof.
  split.
  - intros key c. cbn [SignedString sample_jwt]. generalize (encode (encode key :: list_of_claims c)). intros p.
    split; [|by destruct p]. induction p as [p IH|p IH|]; [exact IH|exact IH|done].
  - intros key c _. cbn. rewrite unbinary_binary. cbn. rewrite decode_encode, Pos.eqb_refl. apply claims_of_list_of.
Qed.

Definition sample_config : AuthConfig :=
  {| jwtSigningSecret := "signing"; sessionBridgeSecret := "bridge"; issuer := "portlyn"; tokenTTL := (15 * Minute)%Z;
     refreshTokenTTL := (24 * Hour)%Z; routeAuthTTL := Hour; rateLimit := {| LoginAttempts := 5; Window := Minute |};
     cacheTTL := (30 * Second)%Z; fallbackFrontendBaseURL := "https://portal.example.com";
     fallbackOTP := {| otp_Enabled := true; otp_TokenTTL := (10 * Minute)%Z; otp_RequestLimit := 5;
                       otp_RequestWindow := (15 * Minute)%Z; otp_ResponseIncludesCode := false |};
     fallbackOIDC_Enabled := false; fallbackOIDC_RedirectURL := ""; allowInsecureDevMode := false |}.
Definition sample_hmac (key msg : string) : string := key +:+ "/" +:+ msg.

Definition sample_session : Session :=
  {| ss_ID := 4; ss_UserID := 7; ss_TokenID := "tid"; ss_RefreshTokenHash := "rh"; ss_UserAgent := "";
     ss_RemoteAddr := ""; ss_LastSeenAt := None; ss_ExpiresAt := (24 * Hour)%Z; ss_RevokedAt := None;
     ss_BootstrapDismissed := false |}.

Lemma sample_foreign key key' : key = key' ∨ foreign key key'.
Proof.
  destruct (decide (key = key')) as [|Hk]; [by left|]. right. intros c. cbn. rewrite unbinary_binary. cbn. rewrite decode_encode.
  destruct (Pos.eqb_spec (encode key) (encode key')) as [Heq|]; [|done]. by apply (inj encode) in Heq.
Qed.

Lemma sample_keys : keys_separate sample_hmac sample_config.
Proof.
  split; [repeat (constructor; [repeat (constructor; [apply sample_foreign|]); constructor|]); constructor|].
  apply (bool_decide_eq_true_1 (NoDup _)). vm_compute. reflexivity.
Qed.

Lemma token_kinds_separate_witness :
  (∀ h, parseHostSessionToken sample_hmac sample_config 5 (issueToken sample_config 0 cached_user (Some sample_session)) h = None) ∧
  ParseToken sample_config 5 (issueToken sample_config 0 cached_user (Some sample_session)) ≠ None.
Proof.
  split; [|vm_compute; discriminate].
  destruct (token_kinds_separate sample_hmac (λ _, None) (λ _, "") sample_config 5 0 sample_keys eq_refl) as (Hs & _).
  apply (Hs cached_user sample_session); reflexivity.
Defined.

Lemma session_bridge_roundtrip_witness :
  normalizeBridgeHost "App.Example.com:443" = "app.example.com" ∧
  ∃ tok k,
    IssueSessionBridgeToken sample_hmac sample_config 0 cached_user (Some sample_session) "App.Example.com:443" "j1" "j2" = Some tok ∧
    parse_session_bridge sample_config Minute tok = Some k ∧ sb_Host k = "app.example.com".
Proof.
  split; [vm_compute; reflexivity|].
  destruct (session_bridge_roundtrip sample_hmac sample_config 0 cached_user sample_session "App.Example.com:443" "j1" "j2" Minute)
    as (tok & k & Htok & Hk & Hh & _); try reflexivity; try (vm_compute; discriminate).
  exists tok, k. by rewrite Hh.
Defined.
