(* ===== verification/Sessions.v ===== *)
(** Sessions and authentication: internal/auth/sessions.go, api_token.go and the request side of
    route_access.go.

    An operation is a state transformer with an error: the state is kept on an error too, since the
    statements before it have run.  The clock is read once per operation; the random identifiers are
    arguments.  The JWT library's own errors are [ErrInvalidToken]. *)
From S2P Require Import Prelude GoStrings Utf8Json Netip Domain Hosts Routing Requests RateLimit Handler.
From S2P Require Import AuthStore AuthHistory AuthCache Tokens.

#[local] Open Scope string_scope.
#[local] Open Scope list_scope.

(** * Operations with errors *)

Definition auth (X : Type) : Type := auth_state → result auth_error X * auth_state.
Definition done_with {X} (x : X) : auth X := λ st, (Ok x, st).
Definition fail {X} (e : auth_error) : auth X := λ st, (Err e, st).
Definition auth_bind {X Y} (c : auth X) (k : X → auth Y) : auth Y :=
  λ st, match c st with (Ok x, st') => k x st' | (Err e, st') => (Err e, st') end.
(** A read, a read that may fail, a write, and a statement that may fail. *)
Definition read {X} (f : auth_state → X) : auth X := λ st, (Ok (f st), st).
Definition query {X} (f : auth_state → result auth_error X) : auth X := λ st, (f st, st).
Definition write (f : auth_state → auth_state) : auth unit := λ st, (Ok tt, f st).
Definition exec (f : auth_state → result auth_error auth_state) : auth unit :=
  λ st, match f st with Ok st' => (Ok tt, st') | Err e => (Err e, st) end.
(** Another error in place of the one raised. *)
Definition or_error {X} (c : auth X) (e : auth_error) : auth X :=
  λ st, match c st with (Ok x, st') => (Ok x, st') | (Err _, st') => (Err e, st') end.
Definition guard_auth (ok : bool) (e : auth_error) : auth unit := if ok then done_with tt else fail e.

Declare Scope auth_scope.
Delimit Scope auth_scope with auth.
Notation "'let!' x <- c ; k" := (auth_bind c (fun x => k)) (at level 10, x pattern, c at level 100, k at level 200) : auth_scope.
Notation "c ;;; k" := (auth_bind c (fun _ => k)) (at level 100, k at level 200, right associativity) : auth_scope.
#[local] Open Scope auth_scope.

Record RequestMetadata := { m_RemoteAddr : string; m_UserAgent : string }.

Record LoginResult := {
  lr_Token : string; lr_RefreshToken : string; lr_User : User; lr_Session : option Session;
  lr_MFARequired : bool; lr_MFAToken : string; lr_MFAExpiresAt : Z; lr_BootstrapRequired : bool;
}.

Definition rateLimitRemoteAddr (remoteAddr : string) : string :=
  match SplitHostPort (TrimSpace remoteAddr) with
  | Some (host, _) => host
  | None => TrimSpace remoteAddr
  end.

(** [firstNonEmpty] of two values. *)
Definition firstNonEmpty (a b : string) : string :=
  if non_empty (TrimSpace a) then TrimSpace a else TrimSpace b.

Section service.
Context `{JWT}.
Variable hmac : string → string → string.
(** SHA-256 in hexadecimal. *)
Variable hashToken : string → string.
Variable cfg : AuthConfig.

(** [isRateLimited] on the limiter [NewService] installs, which does not fail. *)
Definition rate_limited (now : Z) (key : string) : auth bool := λ st,
  let '(r, l) := Allow (limiter st) now key (LoginAttempts (rateLimit cfg)) (Window (rateLimit cfg)) in
  (Ok (isRateLimited (rateLimit cfg) (Some (Ok (allowed r))) None now key).1, with_limiter st l).

Definition GetUserGroupIDs (st : auth_state) (id : N) : list N := default [] (memberships st !! id).

Definition cached_result (now : Z) (tokenString : string) : auth (option (User * list N)) := λ st,
  let '(r, st') := getCachedAuthResult (cacheTTL cfg) st now (hashToken tokenString) in (Ok r, st').

Definition store_result (now : Z) (tokenString : string) (user : User) (groupIDs : list N) (expiresAt : option Z) : auth unit :=
  write (λ st, storeCachedAuthResult (cacheTTL cfg) st now (hashToken tokenString) user groupIDs
                 ((λ e, e * Second)%Z <$> expiresAt)).

(** ** Session tokens *)

(** The session a token names must be stored, not revoked and not expired. *)
Definition live_session (now : Z) (tokenID : string) : auth Session :=
  let! s2 <- or_error (query (λ st, sessions_GetByTokenID st tokenID)) ErrInvalidToken;
  guard_auth (not_revoked s2) ErrSessionRevoked ;;;
  guard_auth (negb (ss_ExpiresAt s2 <? now)%Z) ErrRefreshExpired ;;;
  done_with s2.

Definition AuthenticateAccessToken (now : Z) (tokenString : string) : auth identity :=
  match ParseToken cfg now tokenString with
  | None => fail ErrInvalidToken
  | Some claims =>
      let! cached <- cached_result now tokenString;
      match cached with
      | Some (user, groupIDs) =>
          guard_auth (u_Active user) ErrInactiveUser ;;;
          let! session <- (if negb (N.eqb (k_SessionID claims) 0)
                           then let! s2 <- live_session now (k_TokenID claims); done_with (Some s2)
                           else done_with None);
          done_with (user, groupIDs, session)
      | None =>
          let! user <- query (λ st, users_GetByID st (k_UserID claims));
          guard_auth (u_Active user) ErrInactiveUser ;;;
          let! session <- (if negb (N.eqb (k_SessionID claims) 0)
                           then let! s2 <- live_session now (k_TokenID claims);
                                or_error (exec (λ st, sessions_Touch st (ss_ID s2) now)) ErrSessionRevoked ;;;
                                done_with (Some (set_seen now s2))
                           else done_with None);
          let! groupIDs <- read (λ st, GetUserGroupIDs st (u_ID user));
          store_result now tokenString user groupIDs (k_ExpiresAt claims) ;;;
          done_with (user, groupIDs, session)
      end
  end.

Definition createSession (now : Z) (user : User) (meta : RequestMetadata) (tokenID refreshToken : string) : auth Session :=
  λ st,
    let item := {| ss_ID := 0; ss_UserID := u_ID user; ss_TokenID := tokenID; ss_RefreshTokenHash := hashToken refreshToken;
                   ss_UserAgent := TrimSpace (m_UserAgent meta); ss_RemoteAddr := rateLimitRemoteAddr (m_RemoteAddr meta);
                   ss_LastSeenAt := Some now; ss_ExpiresAt := (now + refreshTokenTTL cfg)%Z; ss_RevokedAt := None;
                   ss_BootstrapDismissed := false |} in
    match sessions_Create st item with
    | Ok (row, st') => (Ok row, st')
    | Err e => (Err e, st)
    end.

Definition RefreshSession (now : Z) (refreshToken : string) (meta : RequestMetadata) (newTokenID newRefreshToken : string)
  : auth LoginResult :=
  let! session <- or_error (query (λ st, sessions_GetByRefreshHash st (hashToken refreshToken))) ErrInvalidToken;
  guard_auth (not_revoked session) ErrSessionRevoked ;;;
  guard_auth (negb (ss_ExpiresAt session <? now)%Z) ErrRefreshExpired ;;;
  let! user <- query (λ st, users_GetByID st (ss_UserID session));
  guard_auth (u_Active user) ErrInactiveUser ;;;
  let rotated := {| ss_ID := ss_ID session; ss_UserID := ss_UserID session; ss_TokenID := newTokenID;
                    ss_RefreshTokenHash := hashToken newRefreshToken;
                    ss_UserAgent := firstNonEmpty (TrimSpace (m_UserAgent meta)) (ss_UserAgent session);
                    ss_RemoteAddr := firstNonEmpty (rateLimitRemoteAddr (m_RemoteAddr meta)) (ss_RemoteAddr session);
                    ss_LastSeenAt := Some now; ss_ExpiresAt := (now + refreshTokenTTL cfg)%Z;
                    ss_RevokedAt := ss_RevokedAt session; ss_BootstrapDismissed := ss_BootstrapDismissed session |} in
  exec (λ st, match sessions_Rotate st rotated (ss_RefreshTokenHash session) with
              | Err ErrNotFound => Err ErrSessionRevoked
              | r => r
              end) ;;;
  write (λ st, InvalidateUser st (u_ID user)) ;;;
  done_with {| lr_Token := issueToken cfg now user (Some rotated); lr_RefreshToken := newRefreshToken; lr_User := user;
               lr_Session := Some rotated; lr_MFARequired := false; lr_MFAToken := ""; lr_MFAExpiresAt := 0;
               lr_BootstrapRequired := false |}.

Definition RevokeSession (now : Z) (userID sessionID : N) : auth unit :=
  let! session <- query (λ st, sessions_GetByID st sessionID);
  guard_auth (N.eqb (ss_UserID session) userID) ErrNotFound ;;;
  exec (λ st, sessions_Revoke st sessionID now) ;;;
  write (λ st, InvalidateUser st userID).

Definition RevokeAllUserSessions (now : Z) (userID : N) : auth unit :=
  write (λ st, sessions_RevokeByUser st userID now) ;;;
  write (λ st, InvalidateUser st userID).

Definition RevokeOtherUserSessions (now : Z) (userID keepSessionID : N) : auth unit :=
  write (λ st, sessions_RevokeByUserExcept st userID keepSessionID now) ;;;
  write (λ st, InvalidateUser st userID).

(** ** API tokens *)

(** [SplitN(token, "_", 3)] with its checks. *)
Definition apiTokenPrefix (token : string) : option string :=
  let '(p0, rest, found) := Cut (TrimSpace token) "_" in
  let '(p1, p2, found') := Cut rest "_" in
  if found && found' && String.eqb p0 apiTokenScheme && non_empty p1 && non_empty p2
  then Some (p0 +:+ "_" +:+ p1) else None.

(** [HashAPIToken] is the same digest as [hashToken]. *)
Definition authenticateAPIToken (now : Z) (token : string) : auth identity :=
  match apiTokenPrefix token with
  | None => fail ErrInvalidToken
  | Some prefix =>
      let! rec <- or_error (query (λ st, apiTokens_FindActiveByPrefix st prefix)) ErrInvalidToken;
      guard_auth (String.eqb (hashToken token) (at_TokenHash rec)) ErrInvalidToken ;;;
      guard_auth (match at_RevokedAt rec with None => true | Some _ => false end
                  && match at_ExpiresAt rec with None => true | Some e => (now <? e)%Z end) ErrInvalidToken ;;;
      write (λ st, apiTokens_TouchLastUsed st (at_ID rec) now) ;;;
      let role := if String.eqb (at_Role rec) RoleAdmin || String.eqb (at_Role rec) RoleViewer then at_Role rec else RoleViewer in
      done_with
        ({| u_ID := default 0%N (at_CreatedByID rec); u_Email := "api-token:" +:+ at_Name rec; u_PasswordHash := "";
            u_Role := role; u_Active := true; u_MustChangePassword := false; u_MFAEnabled := false; u_MFASecret := "";
            u_MFAPendingSecret := ""; u_MFARecoveryCodes := []; u_MFAPendingRecoveryCodes := []; u_MFALastTOTPCounter := 0;
            u_AuthProvider := ""; u_AuthProviderRef := ""; u_AuthIssuer := ""; u_DisplayName := ""; u_Username := "";
            u_LastLoginAt := None |}, [], None)
  end.

(** ** Requests *)

Definition bearerTokenFromHeader (header : string) : string :=
  let header := TrimSpace header in
  if negb (HasPrefix header "Bearer ") then "" else TrimSpace (TrimPrefix header "Bearer ").

Definition authenticate_request (now : Z) (r : Request) : auth identity :=
  let bearer := TrimSpace (bearerTokenFromHeader (HGet (r_Header r) "Authorization")) in
  let token := if non_empty bearer then bearer
               else match RCookie (r_Header r) SessionCookieName with Some v => TrimSpace v | None => "" end in
  if negb (non_empty token) then fail ErrInvalidToken
  else if LooksLikeAPIToken token then authenticateAPIToken now token
  else AuthenticateAccessToken now token.

(** ** Host sessions *)

Definition hostSessionFor (now : Z) (claims : HostSessionClaims) : auth Session :=
  guard_auth (negb (N.eqb (h_SessionID claims) 0)) ErrInvalidToken ;;;
  let! session <- or_error (query (λ st, sessions_GetByID st (h_SessionID claims))) ErrInvalidToken;
  guard_auth (N.eqb (ss_UserID session) (h_UserID claims)) ErrInvalidToken ;;;
  guard_auth (not_revoked session) ErrSessionRevoked ;;;
  guard_auth (negb (ss_ExpiresAt session <? now)%Z) ErrRefreshExpired ;;;
  done_with session.

Definition AuthenticateHostSessionToken (now : Z) (tokenString host : string) : auth identity :=
  match parseHostSessionToken hmac cfg now tokenString host with
  | None => fail ErrInvalidToken
  | Some claims =>
      let! session <- hostSessionFor now claims;
      let! cached <- cached_result now tokenString;
      match cached with
      | Some (user, groupIDs) =>
          guard_auth (u_Active user) ErrInactiveUser ;;;
          done_with (user, groupIDs, Some session)
      | None =>
          let! user <- query (λ st, users_GetByID st (h_UserID claims));
          guard_auth (u_Active user) ErrInactiveUser ;;;
          let! groupIDs <- read (λ st, GetUserGroupIDs st (u_ID user));
          store_result now tokenString user groupIDs (h_ExpiresAt claims) ;;;
          done_with (user, groupIDs, Some session)
      end
  end.

(** A bearer token that is no host session for this host is tried as a session token. *)
Definition authenticate_host_request (now : Z) (r : Request) (host : string) : auth identity :=
  let bearer := TrimSpace (bearerTokenFromHeader (HGet (r_Header r) "Authorization")) in
  if non_empty bearer then
    if LooksLikeAPIToken bearer then authenticateAPIToken now bearer
    else λ st,
      match AuthenticateHostSessionToken now bearer host st with
      | (Ok id, st') => (Ok id, st')
      | (Err _, st') => AuthenticateAccessToken now bearer st'
      end
  else
    match RCookie (r_Header r) SessionCookieName with
    | None => fail ErrInvalidToken
    | Some v =>
        if non_empty (TrimSpace v) then AuthenticateHostSessionToken now (TrimSpace v) host else fail ErrInvalidToken
    end.
End service.

(** * Lemmas *)

Lemma auth_bind_Ok {X Y} (c : auth X) (k : X → auth Y) st y st' :
  auth_bind c k st = (Ok y, st') ↔ ∃ x st1, c st = (Ok x, st1) ∧ k x st1 = (Ok y, st').
Proof.
  unfold auth_bind. destruct (c st) as [[x|e] st1].
  - split; [by eauto|]. by intros (? & ? & [= <- <-] & ?).
  - split; [done|]. by intros (? & ? & ? & ?).
Qed.

Lemma guard_auth_Ok b e st x st' : guard_auth b e st = (Ok x, st') ↔ b = true ∧ st' = st.
Proof. destruct x. unfold guard_auth, done_with, fail. destruct b; (split; [intros [=]; subst; done|by intros [? ->]]). Qed.

Lemma or_error_Ok {X} (c : auth X) e st x st' : or_error c e st = (Ok x, st') ↔ c st = (Ok x, st').
Proof. unfold or_error. by destruct (c st) as [[]]. Qed.

Lemma query_Ok {X} (f : auth_state → result auth_error X) st x st' : query f st = (Ok x, st') ↔ f st = Ok x ∧ st' = st.
Proof. unfold query. split; [by intros [= -> ->]|by intros [-> ->]]. Qed.

Lemma exec_Ok f st x st' : exec f st = (Ok x, st') ↔ f st = Ok st'.
Proof. destruct x. unfold exec. destruct (f st); (split; [intros [=]; subst; done|by intros [= ->]]). Qed.

Lemma done_with_Ok {X} (x y : X) st st' : done_with x st = (Ok y, st') ↔ y = x ∧ st' = st.
Proof. unfold done_with. split; [by intros [= -> ->]|by intros [-> ->]]. Qed.

Lemma read_Ok {X} (f : auth_state → X) st x st' : read f st = (Ok x, st') ↔ x = f st ∧ st' = st.
Proof. unfold read. split; [by intros [= -> ->]|by intros [-> ->]]. Qed.

Lemma write_Ok f st x st' : write f st = (Ok x, st') ↔ st' = f st.
Proof. destruct x. unfold write. split; [by intros [= ->]|by intros ->]. Qed.

Lemma fail_Ok {X} e st (x : X) st' : fail e st = (Ok x, st') ↔ False.
Proof. unfold fail. split; [done|by intros []]. Qed.

(** Invert a successful run. *)
Ltac auth_inv H :=
  repeat match type of H with
  | auth_bind _ _ _ = (Ok _, _) =>
      let H1 := fresh "Hstep" in apply auth_bind_Ok in H as (? & ? & H1 & H); auth_inv H1
  | guard_auth _ _ _ = (Ok _, _) => apply guard_auth_Ok in H as [? ->]
  | or_error _ _ _ = (Ok _, _) => apply or_error_Ok in H
  | query _ _ = (Ok _, _) => apply query_Ok in H as [H ->]
  | exec _ _ = (Ok _, _) => apply exec_Ok in H
  | done_with _ _ = (Ok _, _) => apply done_with_Ok in H as [H ->]; try subst
  | read _ _ = (Ok _, _) => apply read_Ok in H as [H ->]; try subst
  | store_result _ _ _ _ _ _ _ _ = (Ok _, _) => unfold store_result in H
  | write _ _ = (Ok _, _) => apply write_Ok in H as ->
  | fail _ _ = (Ok _, _) => by apply fail_Ok in H
  end.

(** Operations whose effect is a history of the tables. *)
Class History {X} (c : auth X) := history : ∀ st, ∃ ops, (c st).2 = store_run st ops.

Lemma store_run_app st l k : store_run st (l ++ k) = store_run (store_run st l) k.
Proof. unfold store_run. apply foldl_app. Qed.

#[export] Instance bind_history {X Y} (c : auth X) (k : X → auth Y) :
  History c → (∀ x, History (k x)) → History (auth_bind c k).
Proof.
  intros Hc Hk st. unfold auth_bind. destruct (Hc st) as [ops Hops]. destruct (c st) as [[x|e] st1]; cbn in *; [|by exists ops].
  destruct (Hk x st1) as [ops' Hops']. exists (ops ++ ops'). by rewrite store_run_app, <- Hops.
Qed.
#[export] Instance done_history {X} (x : X) : History (done_with x).
Proof. intros st. by exists []. Qed.
#[export] Instance fail_history {X} e : History (@fail X e).
Proof. intros st. by exists []. Qed.
#[export] Instance read_history {X} (f : auth_state → X) : History (read f).
Proof. intros st. by exists []. Qed.
#[export] Instance query_history {X} (f : auth_state → result auth_error X) : History (query f).
Proof. intros st. by exists []. Qed.
#[export] Instance guard_history b e : History (guard_auth b e).
Proof. intros st. exists []. by destruct b. Qed.
#[export] Instance or_error_history {X} (c : auth X) e : History c → History (or_error c e).
Proof. intros Hc st. destruct (Hc st) as [ops Hops]. exists ops. unfold or_error. by destruct (c st) as [[]]. Qed.
#[export] Instance if_history {X} (b : bool) (c d : auth X) : History c → History d → History (if b then c else d).
Proof. by destruct b. Qed.
#[export] Instance option_history {X Y} (o : option Y) (c : Y → auth X) (d : auth X) :
  (∀ y, History (c y)) → History d → History (match o with Some y => c y | None => d end).
Proof. by destruct o. Qed.
#[export] Instance pair_history {X Y Z} (p : Y * Z) (c : Y → Z → auth X) :
  (∀ y z, History (c y z)) → History (match p with (y, z) => c y z end).
Proof. by destruct p. Qed.

(** A write or a statement that is one step. *)
Lemma write_step f : (∀ st, ∃ o, f st = store_apply st o) → History (write f).
Proof. intros Hf st. destruct (Hf st) as [o Ho]. exists [o]. by cbn. Qed.
Lemma exec_step f : (∀ st st', f st = Ok st' → ∃ o, st' = store_apply st o) → History (exec f).
Proof.
  intros Hf st. unfold exec. destruct (f st) as [st'|e] eqn:Hs; [|by exists []].
  destruct (Hf st st' Hs) as [o ->]. by exists [o].
Qed.

Section histories.
Context `{JWT} (hmac : string → string → string) (hashToken : string → string) (cfg : AuthConfig).

#[export] Instance rate_limited_history now key : History (rate_limited cfg now key).
Proof. intros st. unfold rate_limited. destruct (Allow _ _ _ _ _) as [r l]. by exists [LimiterWrite l]. Qed.

#[export] Instance cached_result_history now tok : History (cached_result hashToken cfg now tok).
Proof.
  intros st. unfold cached_result, getCachedAuthResult. repeat case_match; simplify_eq; try (by exists []).
  by eexists [CacheWrite _ _].
Qed.

#[export] Instance store_result_history now tok user groups exp : History (store_result hashToken cfg now tok user groups exp).
Proof.
  intros st. unfold store_result, write, storeCachedAuthResult. cbv zeta. destruct (_ <=? _)%Z; [by exists []|].
  destruct (negb _); [by exists []|]. by eexists [CacheWrite _ _].
Qed.

#[export] Instance invalidate_history uid : History (write (λ st, InvalidateUser st uid)).
Proof. apply write_step. intros st. by eexists (CacheWrite _ _). Qed.

#[export] Instance touch_history id now : History (exec (λ st, sessions_Touch st id now)).
Proof. apply exec_step. intros st st' Hs. exists (SessionTouch id now). cbn [store_apply]. by rewrite Hs. Qed.

#[export] Instance revoke_history id now : History (exec (λ st, sessions_Revoke st id now)).
Proof. apply exec_step. intros st st' Hs. exists (SessionRevoke id now). cbn [store_apply]. by rewrite Hs. Qed.

#[export] Instance revoke_user_history uid now : History (write (λ st, sessions_RevokeByUser st uid now)).
Proof. apply write_step. intros st. by exists (SessionRevokeByUser uid now). Qed.

#[export] Instance revoke_others_history uid ex now : History (write (λ st, sessions_RevokeByUserExcept st uid ex now)).
Proof. apply write_step. intros st. by exists (SessionRevokeByUserExcept uid ex now). Qed.

#[export] Instance touch_api_history id now : History (write (λ st, apiTokens_TouchLastUsed st id now)).
Proof. apply write_step. intros st. by exists (APITokenTouch id now). Qed.

#[export] Instance rotate_history item prev :
  History (exec (λ st, match sessions_Rotate st item prev with Err ErrNotFound => Err ErrSessionRevoked | r => r end)).
Proof.
  apply exec_step. intros st st' Hs. exists (SessionRotate item prev). cbn [store_apply].
  destruct (sessions_Rotate st item prev) as [|[]]; by simplify_eq.
Qed.

#[export] Instance createSession_history now user meta tid rt : History (createSession hashToken cfg now user meta tid rt).
Proof.
  intros st. unfold createSession. cbv zeta. match goal with |- context [sessions_Create st ?i] => set (item := i) end.
  destruct (sessions_Create st item) as [[row st']|e] eqn:Hc; [|by exists []]. exists [SessionCreate item]. cbn [store_run foldl store_apply]. by rewrite Hc.
Qed.

#[export] Instance AuthenticateAccessToken_history now tok : History (AuthenticateAccessToken hashToken cfg now tok).
Proof. unfold AuthenticateAccessToken, live_session. apply _. Qed.

#[export] Instance authenticateAPIToken_history now tok : History (authenticateAPIToken hashToken now tok).
Proof. unfold authenticateAPIToken. apply _. Qed.

#[export] Instance AuthenticateHostSessionToken_history now tok host :
  History (AuthenticateHostSessionToken hmac hashToken cfg now tok host).
Proof. unfold AuthenticateHostSessionToken, hostSessionFor. apply _. Qed.

#[export] Instance authenticate_request_history now r : History (authenticate_request hashToken cfg now r).
Proof. unfold authenticate_request. apply _. Qed.

#[export] Instance authenticate_host_request_history now r host : History (authenticate_host_request hmac hashToken cfg now r host).
Proof.
  unfold authenticate_host_request. destruct (non_empty _); [|apply _]. apply if_history; [apply _|].
  intros st. match goal with |- context [AuthenticateHostSessionToken ?a ?b ?c ?d ?e ?f st] =>
    destruct (AuthenticateHostSessionToken_history d e f st) as [ops Hops];
    destruct (AuthenticateHostSessionToken a b c d e f st) as [[id|e'] st1] end; cbn in *; [by exists ops|].
  match goal with |- context [AuthenticateAccessToken ?a ?b ?c ?d st1] =>
    destruct (AuthenticateAccessToken_history c d st1) as [ops' Hops'] end.
  exists (ops ++ ops'). by rewrite store_run_app, <- Hops.
Qed.

#[export] Instance RefreshSession_history now rt meta tid nrt : History (RefreshSession hashToken cfg now rt meta tid nrt).
Proof. unfold RefreshSession. apply _. Qed.
#[export] Instance RevokeSession_history now uid sid : History (RevokeSession now uid sid).
Proof. unfold RevokeSession. apply _. Qed.
#[export] Instance RevokeAll_history now uid : History (RevokeAllUserSessions now uid).
Proof. unfold RevokeAllUserSessions. apply _. Qed.
#[export] Instance RevokeOther_history now uid keep : History (RevokeOtherUserSessions now uid keep).
Proof. unfold RevokeOtherUserSessions. apply _. Qed.
End histories.

(** * Theorems *)

Section theorems.
Context `{JWT} (hmac : string → string → string) (hashToken : string → string) (cfg : AuthConfig).

Lemma cached_result_Ok now tok st r st' :
  cached_result hashToken cfg now tok st = (r, st') →
  ∃ x, r = Ok x ∧ getCachedAuthResult (cacheTTL cfg) st now (hashToken tok) = (x, st') ∧
       sessions st' = sessions st ∧ users st' = users st ∧ memberships st' = memberships st.
Proof.
  unfold cached_result. destruct (getCachedAuthResult _ _ _ _) as [x st1] eqn:Hg. intros [= <- <-]. exists x.
  split_and!; try done; unfold getCachedAuthResult in Hg; repeat case_match; by simplify_eq.
Qed.

Lemma live_session_Ok now tid st s st' :
  live_session now tid st = (Ok s, st') ↔
  st' = st ∧ sessions_GetByTokenID st tid = Ok s ∧ not_revoked s = true ∧ (now ≤ ss_ExpiresAt s)%Z.
Proof.
  unfold live_session. split.
  - intros Hl. auth_inv Hl. split_and!; try done. destruct_bools. by apply Z.ltb_ge.
  - intros (-> & Hg & Hr & He). unfold auth_bind, or_error, query. rewrite Hg, Hr. cbn.
    by rewrite (proj2 (Z.ltb_ge _ _) He).
Qed.

(** What a successful authentication with a session token has checked. *)
Lemma access_token_facts now tok st user groups sess st' :
  AuthenticateAccessToken hashToken cfg now tok st = (Ok (user, groups, sess), st') →
  ∃ k, ParseToken cfg now tok = Some k ∧ u_Active user = true ∧
    (k_SessionID k = 0%N ∧ sess = None ∨
     ∃ s, k_SessionID k ≠ 0%N ∧ sessions_GetByTokenID st (k_TokenID k) = Ok s ∧ not_revoked s = true ∧
          (now ≤ ss_ExpiresAt s)%Z ∧ (sess = Some s ∨ sess = Some (set_seen now s))) ∧
    ((getCachedAuthResult (cacheTTL cfg) st now (hashToken tok)).1 = Some (user, groups) ∨
     users_GetByID st (k_UserID k) = Ok user ∧ groups = GetUserGroupIDs st (u_ID user)).
Proof.
  unfold AuthenticateAccessToken. destruct (ParseToken cfg now tok) as [k|]; [|done]. intros Ha. exists k. split; [done|].
  apply auth_bind_Ok in Ha as (r & st1 & Hr & Ha). apply cached_result_Ok in Hr as (x & [= ->] & Hg & Hs & Hu & Hm).
  rewrite Hg. unfold sessions_GetByTokenID, find_session, users_GetByID, GetUserGroupIDs. rewrite <- Hs, <- Hu, <- Hm.
  destruct x as [[user' groups']|]; auth_inv Ha; simplify_eq; (split; [done|]);
    destruct (N.eqb_spec (k_SessionID k) 0) as [Hz|Hz]; cbn [negb] in *;
    repeat match goal with Hx : _ = (Ok _, _) |- _ => auth_inv Hx; simplify_eq end; cbn [fst];
    repeat match goal with Hx : live_session _ _ _ = _ |- _ => apply live_session_Ok in Hx as (-> & Hlive & ? & ?) end.
  - split; [by left|by left].
  - split; [right; eauto 10|by left].
  - split; [by left|by right].
  - split; [right; eauto 10|]. right. split; [done|]. subst.
    match goal with Hx : sessions_Touch _ _ _ = Ok _ |- _ => apply update_sessions_spec in Hx as [-> _] end. done.
Qed.

(** What a successful authentication with a host session token has checked. *)
Lemma host_token_facts now tok host st user groups sess st' :
  AuthenticateHostSessionToken hmac hashToken cfg now tok host st = (Ok (user, groups, sess), st') →
  ∃ k s, parseHostSessionToken hmac cfg now tok host = Some k ∧ sess = Some s ∧ u_Active user = true ∧
    sessions_GetByID st (h_SessionID k) = Ok s ∧ ss_UserID s = h_UserID k ∧ not_revoked s = true ∧ (now ≤ ss_ExpiresAt s)%Z ∧
    ((getCachedAuthResult (cacheTTL cfg) st now (hashToken tok)).1 = Some (user, groups) ∨
     users_GetByID st (h_UserID k) = Ok user ∧ groups = GetUserGroupIDs st (u_ID user)).
Proof.
  unfold AuthenticateHostSessionToken. destruct (parseHostSessionToken _ _ _ _ _) as [k|]; [|done]. intros Ha.
  apply auth_bind_Ok in Ha as (s & st0 & Hs & Ha). exists k, s. unfold hostSessionFor in Hs. auth_inv Hs.
  apply auth_bind_Ok in Ha as (r & st1 & Hr & Ha). apply cached_result_Ok in Hr as (hit & [= ->] & Hg & Hs & Hu & Hm).
  rewrite Hg. unfold users_GetByID, GetUserGroupIDs. rewrite <- Hu, <- Hm. destruct_bools.
  destruct hit as [[user' groups']|]; auth_inv Ha; simplify_eq; split_and!; try done;
    try (by apply N.eqb_eq); try (by apply Z.ltb_ge); [by left|by right].
Qed.

(** A revoked session answers none of its tokens. *)
Lemma revoked_refuses st s0 :
  sessions_ok st → revoked_session st s0 →
  (∀ now tok k, ParseToken cfg now tok = Some k → k_SessionID k ≠ 0%N → k_TokenID k = ss_TokenID s0 →
     is_ok (AuthenticateAccessToken hashToken cfg now tok st).1 = false) ∧
  (∀ now tok host k, parseHostSessionToken hmac cfg now tok host = Some k → h_SessionID k = ss_ID s0 →
     is_ok (AuthenticateHostSessionToken hmac hashToken cfg now tok host st).1 = false) ∧
  (∀ now rt meta tid nrt, hashToken rt = ss_RefreshTokenHash s0 →
     is_ok (RefreshSession hashToken cfg now rt meta tid nrt st).1 = false).
Proof.
  intros Hok (s & Hs & Hkey & Hr). destruct (session_lookups st s Hok Hs) as (Hid & Htid & Href).
  injection Hkey as Hki Hku Hkt Hkr. split_and!.
  - intros now tok k Hk Hne Ht. destruct (AuthenticateAccessToken _ _ _ _ st) as [[[[user groups] sess]|] st'] eqn:Ha; [|done].
    destruct (access_token_facts _ _ _ _ _ _ _ Ha) as (k' & Hk' & _ & [[? _]|(s' & _ & Hg & Hn & _)] & _); simplify_eq.
    rewrite Ht, <- Hkt, Htid in Hg. congruence.
  - intros now tok host k Hk Hi. destruct (AuthenticateHostSessionToken _ _ _ _ _ _ st) as [[[[user groups] sess]|] st'] eqn:Ha; [|done].
    destruct (host_token_facts _ _ _ _ _ _ _ _ Ha) as (k' & s' & Hk' & _ & _ & Hg & _ & Hn & _); simplify_eq.
    rewrite Hi, <- Hki, Hid in Hg. congruence.
  - intros now rt meta tid nrt Hh. destruct (RefreshSession _ _ _ _ _ _ _ st) as [[res|] st'] eqn:Ha; [|done].
    unfold RefreshSession in Ha. apply auth_bind_Ok in Ha as (s' & st0 & Hg & Ha). auth_inv Hg. rewrite Hh, <- Hkr, Href in Hg.
    apply auth_bind_Ok in Ha as (? & ? & Hn & _). auth_inv Hn. simplify_eq. congruence.
Qed.

Lemma find_session_In cond st s : find_session cond st = Ok s → s ∈ sessions st.
Proof.
  unfold find_session. destruct (List.find _ _) eqn:Hf; [|done]. intros [= ->]. by apply list_elem_of_In, (find_some _ _ Hf).
Qed.

Lemma history_ok {X} (c : auth X) `{!History c} st : sessions_ok st → sessions_ok (c st).2.
Proof. intros Hok. destruct (history st) as [ops ->]. by apply ok_run. Qed.

Lemma RevokeSession_revokes st now uid sid s0 st1 :
  sessions_GetByID st sid = Ok s0 → RevokeSession now uid sid st = (Ok tt, st1) → revoked_session st1 s0.
Proof.
  intros Hs0 Hrev. pose proof (find_session_In _ _ _ Hs0) as Hin. unfold RevokeSession in Hrev. auth_inv Hrev.
  match goal with Hx : sessions_Revoke _ _ _ = Ok _ |- _ => apply update_sessions_spec in Hx as [-> _] end.
  unfold sessions_GetByID, find_session in Hs0. destruct (List.find _ _) eqn:Hf; [|done]. injection Hs0 as ->.
  apply find_some in Hf as [_ Hid].
  set (g := λ s, if N.eqb (ss_ID s) sid && not_revoked s then set_revoked now s else s). exists (g s0).
  split; [cbn; by apply (list_elem_of_fmap_2 g)|]. unfold g. rewrite Hid. by destruct (not_revoked s0) eqn:Hr.
Qed.

(** C3 Revoking a session is final.  After [RevokeSession] succeeded, no later sequence of statements
    on the tables (hence no interleaving of any calls of the service) makes a token of the session
    valid again: its session token and its host session tokens are refused on every host, cached
    results included, and its refresh token cannot be redeemed. *)
Theorem revoked_session_never_authenticates st now uid sid s0 st1 ops :
  sessions_ok st → sessions_GetByID st sid = Ok s0 → RevokeSession now uid sid st = (Ok tt, st1) →
  (∀ t tok k, ParseToken cfg t tok = Some k → k_SessionID k ≠ 0%N → k_TokenID k = ss_TokenID s0 →
     is_ok (AuthenticateAccessToken hashToken cfg t tok (store_run st1 ops)).1 = false) ∧
  (∀ t tok host k, parseHostSessionToken hmac cfg t tok host = Some k → h_SessionID k = sid →
     is_ok (AuthenticateHostSessionToken hmac hashToken cfg t tok host (store_run st1 ops)).1 = false) ∧
  (∀ t rt meta tid nrt, hashToken rt = ss_RefreshTokenHash s0 →
     is_ok (RefreshSession hashToken cfg t rt meta tid nrt (store_run st1 ops)).1 = false).
Proof.
  intros Hok Hs0 Hrev. pose proof (RevokeSession_revokes _ _ _ _ _ _ Hs0 Hrev) as Hr.
  assert (sessions_ok st1) as Hok1 by (pose proof (history_ok (RevokeSession now uid sid) st Hok) as Hh; by rewrite Hrev in Hh).
  assert (ss_ID s0 = sid) as <-.
  { unfold sessions_GetByID, find_session in Hs0. destruct (List.find _ _) eqn:Hf; [|done]. simplify_eq.
    by apply N.eqb_eq, (find_some _ _ Hf). }
  apply revoked_refuses; [by apply ok_run|by apply revoked_run].
Qed.

(** What a successful refresh has done. *)
Lemma RefreshSession_facts now rt meta tid nrt st res st' :
  RefreshSession hashToken cfg now rt meta tid nrt st = (Ok res, st') →
  ∃ s item st1 user, sessions_GetByRefreshHash st (hashToken rt) = Ok s ∧ not_revoked s = true ∧
    sessions_Rotate st item (ss_RefreshTokenHash s) = Ok st1 ∧ st' = InvalidateUser st1 (u_ID user) ∧
    ss_ID item = ss_ID s ∧ ss_TokenID item = tid ∧ ss_RefreshTokenHash item = hashToken nrt ∧
    users_GetByID st (ss_UserID s) = Ok user ∧ u_Active user = true ∧
    res = {| lr_Token := issueToken cfg now user (Some item); lr_RefreshToken := nrt; lr_User := user;
             lr_Session := Some item; lr_MFARequired := false; lr_MFAToken := ""; lr_MFAExpiresAt := 0;
             lr_BootstrapRequired := false |}.
Proof.
  intros Ha. unfold RefreshSession in Ha. auth_inv Ha. simplify_eq.
  match goal with Hx : context [sessions_Rotate ?s ?i ?p] |- _ => destruct (sessions_Rotate s i p) as [st1|e] eqn:Hr; [|by destruct e] end.
  simplify_eq. eexists _, _, _, _. split_and!; done.
Qed.

Lemma find_session_eq {Y} (k : Session → Y) (eqb : Y → Y → bool) (eqb_eq : ∀ a b, eqb a b = true ↔ a = b) v st s :
  find_session (λ s, eqb (k s) v) st = Ok s → s ∈ sessions st ∧ k s = v.
Proof.
  unfold find_session. destruct (List.find _ _) eqn:Hf; [|done]. intros [= ->]. apply find_some in Hf as [Hi Hk].
  split; [by apply list_elem_of_In|]. by apply eqb_eq.
Qed.

Lemma refresh_spent_find st h : refresh_spent st h → sessions_GetByRefreshHash st h = Err ErrNotFound.
Proof.
  intros Hsp. unfold sessions_GetByRefreshHash. destruct (find_session _ _) as [s|e] eqn:Hf.
  - apply (find_session_eq ss_RefreshTokenHash String.eqb String.eqb_eq) in Hf as [Hs Heq]. by destruct (Hsp s Hs).
  - unfold find_session in Hf. destruct (List.find _ _); [done|]. by injection Hf as <-.
Qed.

Lemma refresh_spent_Rotate st h item : refresh_spent st h → is_ok (sessions_Rotate st item h) = false.
Proof.
  intros Hsp. destruct (sessions_Rotate st item h) eqn:Hr; [|done]. unfold sessions_Rotate in Hr.
  destruct (existsb _ (sessions st)) eqn:He in Hr; [done|]. apply update_sessions_spec in Hr as [_ Hex].
  apply existsb_exists_elem in Hex as (s & Hs & Hc). destruct_bools. exfalso. apply (Hsp s Hs). by apply String.eqb_eq.
Qed.

(** C5 A refresh token is redeemed once.  Among all statements that run after a state, interleaved in
    any way, at most one rotation of its hash finds the row, so of the calls of [RefreshSession] that
    read the same row at most one succeeds; and after one has succeeded every further call with the
    token answers [ErrInvalidToken] and every rotation still in flight fails, as long as no new token
    hashes to the same value. *)
Theorem refresh_token_single_use now rt meta tid nrt st res st1 :
  sessions_ok st → hashToken nrt ≠ hashToken rt →
  RefreshSession hashToken cfg now rt meta tid nrt st = (Ok res, st1) →
  (∀ ops, existsb (installs (hashToken rt)) ops = false → (rotations (hashToken rt) st ops ≤ 1)%nat) ∧
  ∀ ops, existsb (installs (hashToken rt)) ops = false →
    (∀ t meta' tid' nrt',
       (RefreshSession hashToken cfg t rt meta' tid' nrt' (store_run st1 ops)).1 = Err ErrInvalidToken) ∧
    ∀ item, is_ok (sessions_Rotate (store_run st1 ops) item (hashToken rt)) = false.
Proof.
  intros Hok Hne Ha. split; [intros ops; by apply rotations_once|].
  destruct (RefreshSession_facts _ _ _ _ _ _ _ _ Ha) as (s & item & st' & user & Hg & _ & Hrot & -> & _ & _ & Hh & _).
  apply (find_session_eq ss_RefreshTokenHash String.eqb String.eqb_eq) in Hg as [_ Hg]. rewrite Hg in Hrot.
  assert (refresh_spent (InvalidateUser st' (u_ID user)) (hashToken rt)) as Hsp.
  { intros x Hx. eapply Rotate_spends; [exact Hok|exact Hrot|congruence|exact Hx]. }
  intros ops Hops. pose proof (spent_run ops _ _ Hsp Hops) as Hspent. split.
  - intros t meta' tid' nrt'. unfold RefreshSession, auth_bind at 1, or_error, query.
    by rewrite (refresh_spent_find _ _ Hspent).
  - intros item'. by apply refresh_spent_Rotate.
Qed.

(** ** Credentials stay with the proxy *)

Lemma TrimPrefix_7 h : HasPrefix h "Bearer " = true → TrimPrefix h "Bearer " = drop_bytes 7 h ∧
  (String.length h <? 7)%nat = false ∧ String.substring 0 7 h = "Bearer ".
Proof.
  intros (t & ->)%HasPrefix_spec. rewrite TrimPrefix_app. cbn. split_and!; try done.
  by destruct t.
Qed.

Lemma bearer_agree h : non_empty (bearerTokenFromHeader h) = true → bearerToken h = bearerTokenFromHeader h.
Proof.
  unfold bearerTokenFromHeader, bearerToken. cbv zeta. destruct (HasPrefix (TrimSpace h) "Bearer ") eqn:Hp; [|done].
  destruct (TrimPrefix_7 _ Hp) as (-> & -> & ->). done.
Qed.

Lemma parse_payload key now aud req tok c : ParseWithClaims key now aud req tok = Some c → jwt_payload key tok = Some c.
Proof. unfold ParseWithClaims. destruct (jwt_payload key tok); [|done]. case_match; congruence. Qed.

Lemma accepted_is_credential now tok host st id st' :
  (AuthenticateHostSessionToken hmac hashToken cfg now tok host st = (Ok id, st') ∨
   AuthenticateAccessToken hashToken cfg now tok st = (Ok id, st')) →
  ∃ key c, key ∈ [jwtSigningSecret cfg; hostSessionSecret hmac cfg] ∧ jwt_payload key tok = Some c.
Proof.
  destruct id as [[user groups] sess]. intros [Ha|Ha].
  - apply host_token_facts in Ha as (k & _ & Hk & _). unfold parseHostSessionToken in Hk. cbv zeta in Hk.
    destruct (negb _); [done|]. destruct (ParseWithClaims _ _ _ _ _) eqn:Hp; [|done]. apply parse_payload in Hp.
    eexists _, _. split; [|exact Hp]. by right; left.
  - apply access_token_facts in Ha as (k & Hk & _). unfold ParseToken in Hk. apply fmap_Some in Hk as (c & Hc & _).
    apply parse_payload in Hc. eexists _, _. split; [|exact Hc]. by left.
Qed.

(** A credential the proxy accepted is not handed on: when a request was authenticated by its
    bearer token, the headers sent upstream have no Authorization field, and in any case no cookie of
    Portlyn's own is left in them. *)
Theorem accepted_credentials_stay_private now r host st id st' :
  authenticate_host_request hmac hashToken cfg now r host st = (Ok id, st') →
  let h := stripPortlynCredentials (is_portlyn_credential hmac cfg) (r_Header r) in
  (non_empty (bearerTokenFromHeader (HGet (r_Header r) "Authorization")) = true → h !! "Authorization" = None) ∧
  ∀ part, part ∈ cookie_parts (Values h "Cookie") → isPortlynCookieName (cookie_name part) = false.
Proof.
  intros Ha. cbv zeta. split.
  2: { intros part. unfold stripPortlynCredentials. cbv zeta. rewrite stripPortlynCookies_parts.
       by intros [Hp _]%list_elem_of_filter. }
  intros Hb. set (tok := bearerTokenFromHeader _) in *. assert (TrimSpace tok = tok) as Htrim.
  { unfold tok, bearerTokenFromHeader. cbv zeta. destruct (negb _); [done|]. apply TrimSpace_idem. }
  unfold stripPortlynCredentials. cbv zeta. rewrite (bearer_agree _ Hb). fold tok. rewrite Hb.
  assert (is_portlyn_credential hmac cfg tok = true) as ->.
  { unfold is_portlyn_credential. cbv zeta. rewrite Htrim, Hb. cbn [negb].
    destruct (LooksLikeAPIToken tok) eqn:Hapi; [done|]. apply existsb_exists_elem.
    unfold authenticate_host_request in Ha. cbv zeta in Ha. fold tok in Ha. rewrite Htrim, Hb, Hapi in Ha.
    assert (∃ key c, key ∈ [jwtSigningSecret cfg; hostSessionSecret hmac cfg] ∧ jwt_payload key tok = Some c) as (key & c & Hk & Hc).
    { destruct (AuthenticateHostSessionToken _ _ _ _ _ _ st) as [[id'|] st1] eqn:Hh.
      - eapply accepted_is_credential. by left.
      - eapply (accepted_is_credential now tok host). by right. }
    exists key. split; [done|]. by rewrite Hc. }
  cbn [andb]. rewrite stripPortlynCookies_other by done. apply lookup_delete_eq.
Qed.
End theorems.

(** * Witnesses *)

Definition sample_hash (s : string) : string := "r" +:+ s.

Definition signed_in : auth_state :=
  {| users := [cached_user]; memberships := {[7%N := [3%N]]}; sessions := [sample_session]; nextSession := 5;
     loginTokens := []; nextToken := 1; apiTokens := []; authCache := ∅; userTokens := ∅;
     limiter := NewLocalLimiter 0; settings := None; passkeys := ∅ |}.

Definition sample_token : string := issueToken sample_config 0 cached_user (Some sample_session).
Definition no_meta : RequestMetadata := {| m_RemoteAddr := "192.0.2.1:9"; m_UserAgent := "test" |}.

Lemma signed_in_ok : sessions_ok signed_in.
Proof.
  split; try apply NoDup_singleton. intros s ->%list_elem_of_singleton. by vm_compute.
Qed.

Lemma revoked_session_never_authenticates_witness :
  is_ok (AuthenticateAccessToken sample_hash sample_config Minute sample_token signed_in).1 = true ∧
  is_ok (AuthenticateAccessToken sample_hash sample_config (2 * Minute) sample_token
           (store_run (RevokeSession Minute 7 4 signed_in).2 [SessionTouch 4 Minute])).1 = false.
Proof.
  split; [vm_compute; reflexivity|].
  destruct (revoked_session_never_authenticates sample_hmac sample_hash sample_config signed_in Minute 7 4 sample_session
    (RevokeSession Minute 7 4 signed_in).2 [SessionTouch 4 Minute] signed_in_ok eq_refl eq_refl) as [Ha _].
  eapply Ha; [vm_compute; reflexivity|done|done].
Defined.

Lemma refresh_token_single_use_witness :
  is_ok (RefreshSession sample_hash sample_config Minute "h" no_meta "t2" "h2" signed_in).1 = true ∧
  (RefreshSession sample_hash sample_config Hour "h" no_meta "t3" "h3"
     (RefreshSession sample_hash sample_config Minute "h" no_meta "t2" "h2" signed_in).2).1 = Err ErrInvalidToken.
Proof.
  split; [vm_compute; reflexivity|].
  destruct (RefreshSession sample_hash sample_config Minute "h" no_meta "t2" "h2" signed_in) as [[res|e] st1] eqn:Hr;
    [|by vm_compute in Hr].
  destruct (refresh_token_single_use sample_hash sample_config Minute "h" no_meta "t2" "h2" signed_in res st1
    signed_in_ok ltac:(discriminate) Hr) as [_ Hafter].
  apply (Hafter [] eq_refl).
Defined.

Definition bearer_request : Request :=
  sample_request {["Authorization" := ["Bearer " +:+ sample_token]; "Cookie" := ["a=1; portlyn_session=x"]]}.

Lemma accepted_credentials_stay_private_witness :
  is_ok (authenticate_host_request sample_hmac sample_hash sample_config Minute bearer_request "app.example.com" signed_in).1 = true ∧
  stripPortlynCredentials (is_portlyn_credential sample_hmac sample_config) (r_Header bearer_request) !! "Authorization" = None.
Proof.
  split; [vm_compute; reflexivity|].
  destruct (authenticate_host_request sample_hmac sample_hash sample_config Minute bearer_request "app.example.com" signed_in)
    as [[id|e] st1] eqn:Hr; [|by vm_compute in Hr].
  apply (accepted_credentials_stay_private sample_hmac sample_hash sample_config Minute bearer_request "app.example.com"
           signed_in id st1 Hr). vm_compute. reflexivity.
Defined.
