(* ===== verification/LoginCodes.v ===== *)
(** One-time codes and links: internal/auth/magic_link.go, the e-mail codes of route_access.go, and
    the run-time settings they depend on (runtime.go).

    Sending mail is a parameter: whether the SMTP server took the message.  A code or link token drawn
    by [randomCode] is an argument. *)
From S2P Require Import Prelude GoStrings Utf8Json Netip Domain Hosts Routing Requests RateLimit Handler.
From S2P Require Import AuthStore AuthHistory AuthCache Tokens Sessions.

#[local] Open Scope string_scope.
#[local] Open Scope list_scope.
#[local] Open Scope auth_scope.

Record RouteEmailCodeResult := { ec_ExpiresAt : Z; ec_Code : string }.
Record MagicLinkIssueResult := { ml_Token : string; ml_ExpiresAt : Z }.

Section codes.
Variable hashToken : string → string.
(** [mail.Send] of a code to an address. *)
Variable mail_Send : string → string → bool.
Variable cfg : AuthConfig.

(** ** Settings *)

(** The stored settings, or the configuration the server was started with. *)
Definition runtimeSettings (st : auth_state) : AppSettings :=
  match settings st with
  | Some item => item
  | None =>
      {| as_FrontendBaseURL := fallbackFrontendBaseURL cfg; as_OIDCEnabled := fallbackOIDC_Enabled cfg;
         as_OIDCRedirectURL := fallbackOIDC_RedirectURL cfg; as_LocalLoginDisabled := false;
         as_OTPEnabled := otp_Enabled (fallbackOTP cfg); as_OTPTokenTTLSeconds := Z.quot (otp_TokenTTL (fallbackOTP cfg)) Second;
         as_OTPRequestLimit := otp_RequestLimit (fallbackOTP cfg);
         as_OTPRequestWindowSeconds := Z.quot (otp_RequestWindow (fallbackOTP cfg)) Second;
         as_RequireMFAForAdmins := false; as_SMTPEnabled := false |}
  end.

Definition currentOTPConfig (st : auth_state) : OTPConfig :=
  let s := runtimeSettings st in
  let tokenTTL := (as_OTPTokenTTLSeconds s * Second)%Z in
  let requestWindow := (as_OTPRequestWindowSeconds s * Second)%Z in
  {| otp_Enabled := as_OTPEnabled s;
     otp_TokenTTL := if (tokenTTL <=? 0)%Z then otp_TokenTTL (fallbackOTP cfg) else tokenTTL;
     otp_RequestLimit := if (as_OTPRequestLimit s <=? 0)%Z then otp_RequestLimit (fallbackOTP cfg) else as_OTPRequestLimit s;
     otp_RequestWindow := if (requestWindow <=? 0)%Z then otp_RequestWindow (fallbackOTP cfg) else requestWindow;
     otp_ResponseIncludesCode := allowInsecureDevMode cfg && otp_ResponseIncludesCode (fallbackOTP cfg) |}.

Definition currentFrontendBaseURL (st : auth_state) : string :=
  let value := TrimRight (TrimSpace (as_FrontendBaseURL (runtimeSettings st))) "/" in
  if non_empty value then value else fallbackFrontendBaseURL cfg.

Definition sendOTPEmail (email code : string) : auth unit := λ st,
  if negb (as_SMTPEnabled (runtimeSettings st)) then
    if otp_ResponseIncludesCode (currentOTPConfig st) then (Ok tt, st) else (Err ErrSMTPNotConfigured, st)
  else if mail_Send (ToLower (TrimSpace email)) code then (Ok tt, st)
  else (Err ErrSMTPDeliveryFailed, st).

(** ** Codes for a route *)

Definition new_token (now : Z) (item : LoginToken) : auth unit := write (λ st, loginTokens_Create st now item).

Definition RequestRouteEmailCode (now : Z) (serviceID : N) (email : string) (meta : RequestMetadata) (includeCode : bool)
    (code : string) : auth RouteEmailCodeResult :=
  let! otpCfg <- read currentOTPConfig;
  guard_auth (otp_Enabled otpCfg) ErrOTPDisabled ;;;
  let email := ToLower (TrimSpace email) in
  let! limited <- rate_limited cfg now ("route-email:" +:+ FormatUint serviceID +:+ ":" +:+ email);
  guard_auth (negb limited) ErrRateLimited ;;;
  let! requests <- read (λ st, loginTokens_CountRecentByEmailAndScope st email LoginTokenScopeRouteAccess (Some serviceID)
                                 (now - otp_RequestWindow otpCfg));
  guard_auth (requests <? otp_RequestLimit otpCfg)%Z ErrRateLimited ;;;
  let expires := (now + otp_TokenTTL otpCfg)%Z in
  new_token now
    {| lt_ID := 0; lt_UserID := None; lt_ServiceID := Some serviceID; lt_Email := email; lt_Token := hashToken code;
       lt_Scope := LoginTokenScopeRouteAccess; lt_ExpiresAt := expires; lt_UsedAt := None; lt_AttemptCount := 0;
       lt_RemoteAddr := m_RemoteAddr meta; lt_UserAgent := m_UserAgent meta; lt_CreatedAt := 0 |} ;;;
  sendOTPEmail email code ;;;
  done_with {| ec_ExpiresAt := expires; ec_Code := if includeCode then code else "" |}.

(** Reading a code and using it up: what the three kinds of code share. *)
Definition redeem (now : Z) (lookup : auth_state → result auth_error LoginToken) (missing used expired : auth_error) : auth LoginToken :=
  let! item <- or_error (query lookup) missing;
  guard_auth (unused item) used ;;;
  guard_auth (negb (lt_ExpiresAt item <? now)%Z) expired ;;;
  done_with item.

Definition VerifyRouteEmailCode (now : Z) (serviceID : N) (email code : string) : auth unit :=
  let email := ToLower (TrimSpace email) in
  let! item <- redeem now (λ st, loginTokens_GetValidTokenByScope hashToken st email code LoginTokenScopeRouteAccess (Some serviceID))
                 ErrInvalidCredentials ErrOTPUsed ErrOTPExpired;
  exec (λ st, loginTokens_MarkUsed st (lt_ID item) now).

(** ** Magic links *)

Definition IssueMagicLink (now : Z) (serviceID : N) (ttl : Z) (meta : RequestMetadata) (label token : string)
  : auth MagicLinkIssueResult :=
  guard_auth (negb (N.eqb serviceID 0)) ErrInvalidToken ;;;
  let expires := (now + if ttl <=? 0 then 2 * Hour else ttl)%Z in
  new_token now
    {| lt_ID := 0; lt_UserID := None; lt_ServiceID := Some serviceID; lt_Email := ToLower (TrimSpace label);
       lt_Token := hashToken token; lt_Scope := LoginTokenScopeMagicLink; lt_ExpiresAt := expires; lt_UsedAt := None;
       lt_AttemptCount := 0; lt_RemoteAddr := m_RemoteAddr meta; lt_UserAgent := m_UserAgent meta; lt_CreatedAt := 0 |} ;;;
  done_with {| ml_Token := token; ml_ExpiresAt := expires |}.

Definition consume_magic_link (now : Z) (serviceID : N) (token remoteAddr : string) : auth unit :=
  guard_auth (negb (N.eqb serviceID 0) && non_empty (TrimSpace token)) ErrInvalidToken ;;;
  let! limited <- rate_limited cfg now ("magic-consume:" +:+ rateLimitRemoteAddr remoteAddr);
  guard_auth (negb limited) ErrRateLimited ;;;
  let! item <- redeem now (λ st, loginTokens_GetMagicLink hashToken st serviceID token)
                 ErrInvalidToken ErrMagicLinkUsed ErrMagicLinkExpired;
  exec (λ st, loginTokens_MarkUsed st (lt_ID item) now).
End codes.

(** * Lemmas *)

Lemma rate_limited_Ok cfg now key st r st' :
  rate_limited cfg now key st = (r, st') → ∃ b l, r = Ok b ∧ st' = with_limiter st l.
Proof. unfold rate_limited. destruct (Allow _ _ _ _ _) as [a l]. intros [= <- <-]. eauto. Qed.

Lemma redeem_Ok now lookup e1 e2 e3 st item st' :
  redeem now lookup e1 e2 e3 st = (Ok item, st') →
  st' = st ∧ lookup st = Ok item ∧ unused item = true ∧ (now ≤ lt_ExpiresAt item)%Z.
Proof. intros Hr. unfold redeem in Hr. auth_inv Hr. destruct_bools. split_and!; try done. by apply Z.ltb_ge. Qed.

(** The conditions the codes are looked up by. *)
Definition scope_cond (hashToken : string → string) (email token scope : string) (serviceID : option N) (t : LoginToken) : bool :=
  String.eqb (lt_Scope t) (TrimSpace scope) && String.eqb (lt_Token t) (hashToken (TrimSpace token))
  && (negb (non_empty (TrimSpace email)) || String.eqb (ToLower (lt_Email t)) (ToLower (TrimSpace email)))
  && same_service serviceID t.
Definition magic_cond (hashToken : string → string) (serviceID : N) (token : string) (t : LoginToken) : bool :=
  String.eqb (lt_Scope t) LoginTokenScopeMagicLink && same_service (Some serviceID) t
  && String.eqb (lt_Token t) (hashToken (TrimSpace token)).

Lemma scope_cond_keyed h email token scope sid : keyed (scope_cond h email token scope sid).
Proof. intros t t' [= Hs Ht He Hi]. unfold scope_cond, same_service. by rewrite Hs, Ht, He, Hi. Qed.
Lemma magic_cond_keyed h sid token : keyed (magic_cond h sid token).
Proof. intros t t' [= Hs Ht He Hi]. unfold magic_cond, same_service. by rewrite Hs, Ht, Hi. Qed.

Lemma MarkUsed_latest cond st t at_ st' :
  keyed cond → latest_token cond st = Ok t → loginTokens_MarkUsed st (lt_ID t) at_ = Ok st' → latest_used cond st'.
Proof.
  intros Hk Ht [-> Hused]%MarkUsed_spec. apply latest_token_Some in Ht.
  set (g := λ x, if N.eqb (lt_ID x) (lt_ID t) && unused x then set_used at_ x else x).
  exists (g t). split.
  - apply latest_token_Some. cbn. unfold rewrite_rows. fold g.
    change (g <$> loginTokens st) with (List.map g (loginTokens st)). rewrite <- List.map_rev.
    change (List.map g) with (fmap (M := list) g). rewrite find_fmap; [by rewrite Ht|].
    intros x. unfold g. destruct (_ && _); [|done]. by apply Hk.
  - unfold g. rewrite N.eqb_refl. by destruct (unused t) eqn:Hu.
Qed.

(** A code that was used up stays refused. *)
Lemma redeem_used now cond e1 e2 e3 ops st :
  keyed cond → latest_used cond st → existsb (creates cond) ops = false →
  is_ok (redeem now (latest_token cond) e1 e2 e3 (store_run st ops)).1 = false.
Proof.
  intros Hk Hu Hc. destruct (latest_used_run cond ops st Hk Hu Hc) as (t & Ht & Hused).
  destruct (redeem _ _ _ _ _ _) as [[item|] st'] eqn:Hr; [|done]. apply redeem_Ok in Hr as (_ & Hi & Hun & _). congruence.
Qed.

Section theorems.
Context (hashToken : string → string) (cfg : AuthConfig).

Lemma consume_magic_link_facts now sid token addr st st1 :
  consume_magic_link hashToken cfg now sid token addr st = (Ok tt, st1) →
  ∃ t l, sid ≠ 0%N ∧ latest_token (magic_cond hashToken sid token) st = Ok t ∧ unused t = true ∧ (now ≤ lt_ExpiresAt t)%Z ∧
    loginTokens_MarkUsed (with_limiter st l) (lt_ID t) now = Ok st1.
Proof.
  unfold consume_magic_link. intros Ha. apply auth_bind_Ok in Ha as (? & st0 & Hg & Ha). auth_inv Hg. destruct_bools.
  apply auth_bind_Ok in Ha as (limited & st2 & Hl & Ha). apply rate_limited_Ok in Hl as (b & l & [= ->] & ->).
  apply auth_bind_Ok in Ha as (? & ? & Hg & Ha). auth_inv Hg.
  apply auth_bind_Ok in Ha as (t & ? & Hr & Ha). apply redeem_Ok in Hr as (-> & Ht & Hu & He). auth_inv Ha.
  exists t, l. split_and!; try done. by apply N.eqb_neq.
Qed.

Lemma route_code_facts now sid email code st st1 :
  VerifyRouteEmailCode hashToken now sid email code st = (Ok tt, st1) →
  ∃ t, latest_token (scope_cond hashToken (ToLower (TrimSpace email)) code LoginTokenScopeRouteAccess (Some sid)) st = Ok t ∧
    unused t = true ∧ (now ≤ lt_ExpiresAt t)%Z ∧ loginTokens_MarkUsed st (lt_ID t) now = Ok st1.
Proof.
  unfold VerifyRouteEmailCode. intros Ha.
  apply auth_bind_Ok in Ha as (t & ? & Hr & Ha). apply redeem_Ok in Hr as (-> & Ht & Hu & He). auth_inv Ha. by exists t.
Qed.

(** C11 A one-time code or link works once.  Of all attempts to use up one stored token, interleaved in
    any way, at most one succeeds.  After a magic link or a route code was redeemed, it is refused
    whatever happens in between, unless the same code is issued again. *)
Theorem one_time_codes_single_use :
  (∀ id st ops, (id < nextToken st)%N → (uses id st ops ≤ 1)%nat) ∧
  (∀ now sid token addr st st1 ops t addr',
     consume_magic_link hashToken cfg now sid token addr st = (Ok tt, st1) →
     existsb (creates (magic_cond hashToken sid token)) ops = false →
     is_ok (consume_magic_link hashToken cfg t sid token addr' (store_run st1 ops)).1 = false) ∧
  (∀ now sid email code st st1 ops t,
     VerifyRouteEmailCode hashToken now sid email code st = (Ok tt, st1) →
     existsb (creates (scope_cond hashToken (ToLower (TrimSpace email)) code LoginTokenScopeRouteAccess (Some sid))) ops = false →
     is_ok (VerifyRouteEmailCode hashToken t sid email code (store_run st1 ops)).1 = false).
Proof.
  split_and!.
  - intros id st ops. apply uses_once.
  - intros now sid token addr st st1 ops t addr' Ha Hc.
    apply consume_magic_link_facts in Ha as (it & l & _ & Ht & _ & _ & Hm).
    assert (latest_used (magic_cond hashToken sid token) st1) as Hu by (eapply (MarkUsed_latest _ (with_limiter st l)); [apply magic_cond_keyed|exact Ht|exact Hm]).
    destruct (latest_used_run _ ops st1 (magic_cond_keyed _ _ _) Hu Hc) as (it' & Ht' & Hused).
    destruct (consume_magic_link _ _ _ _ _ _ _) as [[[]|] st2] eqn:Hr; [|done].
    apply consume_magic_link_facts in Hr as (it2 & l2 & _ & Ht2 & Hu2 & _). congruence.
  - intros now sid email code st st1 ops t Ha Hc. apply route_code_facts in Ha as (it & Ht & _ & _ & Hm).
    assert (latest_used (scope_cond hashToken (ToLower (TrimSpace email)) code LoginTokenScopeRouteAccess (Some sid)) st1) as Hu
      by (eapply MarkUsed_latest; [apply scope_cond_keyed|exact Ht|exact Hm]).
    destruct (latest_used_run _ ops st1 (scope_cond_keyed _ _ _ _ _) Hu Hc) as (it' & Ht' & Hused).
    destruct (VerifyRouteEmailCode _ _ _ _ _ _) as [[[]|] st2] eqn:Hr; [|done].
    apply route_code_facts in Hr as (it2 & Ht2 & Hu2 & _). congruence.
Qed.

(** A magic link that was issued is accepted: presented up to its expiry and within the rate limit,
    the token opens the service it was issued for.  It expires after the lifetime asked for, two hours
    when that is not positive. *)
Theorem magic_link_roundtrip now sid ttl meta label token st res st1 t addr :
  sid ≠ 0%N → TrimSpace token = token → non_empty token = true →
  IssueMagicLink hashToken now sid ttl meta label token st = (Ok res, st1) →
  (t ≤ ml_ExpiresAt res)%Z →
  (rate_limited cfg t ("magic-consume:" +:+ rateLimitRemoteAddr addr) st1).1 = Ok false →
  is_ok (consume_magic_link hashToken cfg t sid (ml_Token res) addr st1).1 = true ∧
  ml_Token res = token ∧ ml_ExpiresAt res = (now + if ttl <=? 0 then 2 * Hour else ttl)%Z.
Proof.
  intros Hsid Htrim Hne Ha Hexp Hlim. unfold IssueMagicLink in Ha. rewrite (proj2 (N.eqb_neq _ _) Hsid) in Ha.
  injection Ha as <- <-. cbn [ml_Token ml_ExpiresAt] in *. split; [|done].
  unfold consume_magic_link. rewrite (proj2 (N.eqb_neq _ _) Hsid), Htrim, Hne. cbn [negb andb].
  unfold auth_bind at 1. cbn [guard_auth done_with]. unfold auth_bind at 1.
  destruct (rate_limited _ _ _ _) as [b st2] eqn:Hl. cbn [fst] in Hlim. subst b.
  apply rate_limited_Ok in Hl as (b & l & _ & ->). unfold auth_bind at 1. cbn [negb guard_auth done_with].
  unfold auth_bind at 1, redeem, auth_bind at 1, or_error, query, loginTokens_GetMagicLink, latest_token.
  cbn [with_limiter loginTokens loginTokens_Create with_tokens]. rewrite rev_app_distr. cbn [rev app List.find].
  rewrite Htrim. cbn [lt_Scope lt_ServiceID lt_Token same_service]. rewrite N.eqb_refl, !String.eqb_refl. cbn [andb].
  unfold auth_bind at 1. cbn [guard_auth unused lt_UsedAt done_with]. unfold auth_bind at 1. cbn [lt_ExpiresAt].
  rewrite (proj2 (Z.ltb_ge _ _) Hexp). cbn [negb guard_auth done_with]. unfold exec, loginTokens_MarkUsed, update_where.
  cbn [with_limiter loginTokens loginTokens_Create with_tokens]. rewrite existsb_app. cbn [existsb lt_ID unused lt_UsedAt].
  by rewrite N.eqb_refl, orb_true_r.
Qed.
End theorems.

Lemma magic_link_roundtrip_witness :
  ∃ res st1,
    IssueMagicLink sample_hash 0 9 0 no_meta "For Bob" "ABC" signed_in = (Ok res, st1) ∧
    is_ok (consume_magic_link sample_hash sample_config Hour 9 (ml_Token res) "192.0.2.1:9" st1).1 = true.
Proof.
  destruct (IssueMagicLink sample_hash 0 9 0 no_meta "For Bob" "ABC" signed_in) as [[res|] st1] eqn:Hi; [|done].
  exists res, st1. split; [done|].
  apply (magic_link_roundtrip sample_hash sample_config 0 9 0 no_meta "For Bob" "ABC" signed_in res st1 Hour "192.0.2.1:9");
    try done; vm_compute in Hi; injection Hi as <- <-; vm_compute; done.
Defined.
