(* ===== verification/Redirects.v ===== *)
(** Where a login sends the browser back to: the frontend URLs of internal/auth/route_access.go and the
    check on their return address.  [url.Parse], [URL.String], [URL.Hostname] and the encoding of a
    query are parameters. *)
From S2P Require Import Prelude GoStrings Domain Hosts Routing RateLimit AuthStore Tokens Sessions LoginCodes.

#[local] Open Scope string_scope.
#[local] Open Scope list_scope.

Definition apexDomain (host : string) : string :=
  let host := TrimSpace (ToLower host) in
  match rev (Split host ".") with
  | tld :: name :: _ => name +:+ "." +:+ tld
  | _ => host
  end.

Definition hostSharesApex (a b : string) : bool :=
  if negb (non_empty a) || negb (non_empty b) then false
  else non_empty (apexDomain a) && String.eqb (apexDomain a) (apexDomain b).

Section redirects.
Variable url_Parse : string → option URL.
Variable url_String : URL → string.
Variable url_Hostname : URL → string.
(** The query parameters set on a URL: [Parse], [Query().Set], [Encode], [String]. *)
Variable with_query : string → list (string * string) → string.
Variable cfg : AuthConfig.

Definition hostFromBase (base : string) : string :=
  let base := TrimSpace base in
  if negb (non_empty base) then ""
  else match url_Parse base with Some u => ToLower (url_Hostname u) | None => "" end.

Definition sanitizeReturnToForOrigin (st : auth_state) (value : string) : string :=
  let sanitized := sanitizeReturnTo url_Parse url_String value in
  if negb (non_empty sanitized) then ""
  else
    match url_Parse sanitized with
    | None => ""
    | Some parsed =>
        let candidate := ToLower (url_Hostname parsed) in
        if negb (non_empty candidate) then ""
        else
          let near host := non_empty host && (String.eqb candidate host || hostSharesApex candidate host) in
          if near (hostFromBase (currentFrontendBaseURL cfg st)) then sanitized
          else if near (hostFromBase (fallbackFrontendBaseURL cfg)) then sanitized
          else ""
    end.

Definition frontendBaseFromRedirect (redirectURL : string) : string :=
  match url_Parse (TrimSpace redirectURL) with
  | None => ""
  | Some parsed =>
      if negb (non_empty (u_Scheme parsed)) || negb (non_empty (u_Host parsed)) then ""
      else u_Scheme parsed +:+ "://" +:+ u_Host parsed
  end.

Definition oidcFrontendBase (st : auth_state) : string :=
  let s := runtimeSettings cfg st in
  if negb (as_OIDCEnabled s) then ""
  else TrimRight (frontendBaseFromRedirect (TrimSpace (as_OIDCRedirectURL s))) "/".

Definition buildRouteFrontendURL (st : auth_state) (path : string) (serviceID : N) (returnTo : string) : string :=
  let base := currentFrontendBaseURL cfg st in
  let base := if negb (non_empty base) then oidcFrontendBase st else base in
  let sanitized := sanitizeReturnToForOrigin st returnTo in
  with_query (base +:+ path)
    (("serviceId", FormatUint serviceID) :: if non_empty sanitized then [("returnTo", sanitized)] else []).

Definition route_login_url (st : auth_state) (serviceID : N) (returnTo : string) : string :=
  buildRouteFrontendURL st "/route-login" serviceID returnTo.
Definition route_forbidden_url (st : auth_state) (serviceID : N) (returnTo : string) : string :=
  buildRouteFrontendURL st "/route-forbidden" serviceID returnTo.

(** * Theorems *)

(** A login returns the browser only to an http(s) address whose host is the frontend's own or
    ends in the same last two labels as the frontend's, the configured or the fallback one. *)
Theorem return_address_near_frontend st value :
  sanitizeReturnToForOrigin st value ≠ "" →
  ∃ given parsed,
    url_Parse (TrimSpace value) = Some given ∧ u_Scheme given ∈ ["http"; "https"] ∧
    sanitizeReturnToForOrigin st value = url_String given ∧
    url_Parse (url_String given) = Some parsed ∧
    ∃ base, base ∈ [currentFrontendBaseURL cfg st; fallbackFrontendBaseURL cfg] ∧ hostFromBase base ≠ "" ∧
      (ToLower (url_Hostname parsed) = hostFromBase base ∨
       apexDomain (ToLower (url_Hostname parsed)) = apexDomain (hostFromBase base)).
Proof.
  unfold sanitizeReturnToForOrigin. cbv zeta. unfold sanitizeReturnTo. cbv zeta.
  destruct (non_empty (TrimSpace value)); cbn [negb]; [|done].
  destruct (url_Parse (TrimSpace value)) as [given|]; [|done].
  destruct (_ || _); [done|]. destruct (_ && _) eqn:Hscheme; [done|].
  destruct (non_empty (url_String given)) eqn:Hne; cbn [negb]; [|done].
  destruct (url_Parse (url_String given)) as [parsed|] eqn:Hparsed; [|done]. destruct (non_empty (ToLower _)); cbn [negb]; [|done].
  assert (u_Scheme given ∈ ["http"; "https"]) as Hs.
  { apply andb_false_iff in Hscheme as [->%negb_false_iff%String.eqb_eq| ->%negb_false_iff%String.eqb_eq];
      [by left|by right; left]. }
  assert (∀ base, non_empty (hostFromBase base) && (String.eqb (ToLower (url_Hostname parsed)) (hostFromBase base)
            || hostSharesApex (ToLower (url_Hostname parsed)) (hostFromBase base)) = true →
          hostFromBase base ≠ "" ∧ (ToLower (url_Hostname parsed) = hostFromBase base ∨
            apexDomain (ToLower (url_Hostname parsed)) = apexDomain (hostFromBase base))) as Hnear.
  { intros base [Hb Hor]%andb_true_iff. split; [by destruct (hostFromBase base)|].
    apply orb_true_iff in Hor as [->%String.eqb_eq|Hor]; [by left|]. right. unfold hostSharesApex in Hor.
    destruct (_ || _); [done|]. destruct_bools. by apply String.eqb_eq. }
  destruct (non_empty (hostFromBase (currentFrontendBaseURL cfg st)) && _) eqn:H1;
    [|destruct (non_empty (hostFromBase (fallbackFrontendBaseURL cfg)) && _) eqn:H2; [|done]]; intros _;
    exists given, parsed; (do 4 (split; [done|])).
  - exists (currentFrontendBaseURL cfg st). split; [by left|]. by apply Hnear.
  - exists (fallbackFrontendBaseURL cfg). split; [by right; left|]. by apply Hnear.
Qed.
End redirects.

(** The comparison of the last two labels takes a public suffix of two labels for a site: any two
    hosts directly below one such suffix pass for the same site, so that a return address on another
    customer's domain is accepted. *)
Theorem apex_ignores_public_suffixes a b second top :
  ContainsByte top "." = false → ContainsByte second "." = false → top ≠ "" →
  TrimSpace (ToLower (a +:+ "." +:+ second +:+ "." +:+ top)) = a +:+ "." +:+ second +:+ "." +:+ top →
  TrimSpace (ToLower (b +:+ "." +:+ second +:+ "." +:+ top)) = b +:+ "." +:+ second +:+ "." +:+ top →
  hostSharesApex (a +:+ "." +:+ second +:+ "." +:+ top) (b +:+ "." +:+ second +:+ "." +:+ top) = true.
Proof.
  intros Ht Hs Hne Ha Hb.
  assert (∀ x, TrimSpace (ToLower (x +:+ "." +:+ second +:+ "." +:+ top)) = x +:+ "." +:+ second +:+ "." +:+ top →
            apexDomain (x +:+ "." +:+ second +:+ "." +:+ top) = second +:+ "." +:+ top) as Hapex.
  { intros x Hx. unfold apexDomain. cbv zeta. rewrite Hx.
    change ("." +:+ second +:+ "." +:+ top) with (String "." (second +:+ String "." top)).
    rewrite Split_app, (Split_app second), (Split_none second), (Split_none top) by done. by rewrite !rev_app_distr. }
  unfold hostSharesApex. rewrite !Hapex by done.
  assert (∀ x, non_empty (x +:+ "." +:+ second +:+ "." +:+ top) = true) as Hnonempty by (by intros []).
  rewrite !Hnonempty. cbn [negb orb]. rewrite String.eqb_refl. by destruct second.
Qed.

Lemma apex_ignores_public_suffixes_witness :
  hostSharesApex "portal.co.uk" "attacker.co.uk" = true.
Proof. apply (apex_ignores_public_suffixes "portal" "attacker" "co" "uk"); try reflexivity; discriminate. Defined.

(** A parser for the witness: scheme, host, rest. *)
Definition sample_parse (s : string) : option URL :=
  if HasPrefix s "https://" then
    let '(host, rest, _) := Cut (drop_bytes 8 s) "/" in Some {| u_Scheme := "https"; u_Host := host; u_Rest := rest |}
  else None.
Definition sample_url_string (u : URL) : string := u_Scheme u +:+ "://" +:+ u_Host u +:+ "/" +:+ u_Rest u.

Lemma return_address_near_frontend_witness :
  sanitizeReturnToForOrigin sample_parse sample_url_string u_Host sample_config signed_in "https://app.example.com/x"
    = "https://app.example.com/x" ∧
  sanitizeReturnToForOrigin sample_parse sample_url_string u_Host sample_config signed_in "https://evil.net/x" = "" ∧
  ∃ base, base ∈ [currentFrontendBaseURL sample_config signed_in; fallbackFrontendBaseURL sample_config] ∧
    hostFromBase sample_parse u_Host base ≠ "".
Proof.
  split; [vm_compute; reflexivity|]. split; [vm_compute; reflexivity|].
  destruct (return_address_near_frontend sample_parse sample_url_string u_Host sample_config signed_in "https://app.example.com/x")
    as (_ & _ & _ & _ & _ & _ & base & Hb & Hh & _); [vm_compute; discriminate|].
  exists base. split; done.
Defined.
