(* ===== verification/Login.v ===== *)
(** Signing in: internal/auth/service.go (passwords, break glass, one-time codes, account setup) and
    mfa.go (second factor).

    bcrypt, HMAC-SHA1 and base32 are parameters, the secret box is SecretBox.v.  [keys] are the derived
    keys the process has memoised when a secret is opened.  The identifiers drawn at random (session
    token, refresh token, challenge, codes) are arguments.  The session of the request context, where an
    operation reads it, is an argument. *)
From S2P Require Import Prelude GoStrings Utf8Json Netip Domain Hosts Routing Requests RateLimit SecretBox.
From S2P Require Import Handler AuthStore AuthHistory AuthCache Tokens Sessions LoginCodes.

#[local] Open Scope string_scope.
#[local] Open Scope list_scope.
#[local] Open Scope auth_scope.

(** * Columns of a user *)

(** The columns [mfaColumns] lists. *)
Record mfa_columns := {
  mc_Enabled : bool; mc_Secret : string; mc_PendingSecret : string;
  mc_RecoveryCodes : list string; mc_PendingRecoveryCodes : list string; mc_LastTOTPCounter : Z;
}.

Definition mfa_of (u : User) : mfa_columns :=
  {| mc_Enabled := u_MFAEnabled u; mc_Secret := u_MFASecret u; mc_PendingSecret := u_MFAPendingSecret u;
     mc_RecoveryCodes := u_MFARecoveryCodes u; mc_PendingRecoveryCodes := u_MFAPendingRecoveryCodes u;
     mc_LastTOTPCounter := u_MFALastTOTPCounter u |}.

(** A row with the password columns, the MFA columns and the last login replaced. *)
Definition user_with (u : User) (email passwordHash : string) (mustChange : bool) (m : mfa_columns) (lastLogin : option Z) : User :=
  {| u_ID := u_ID u; u_Email := email; u_PasswordHash := passwordHash; u_Role := u_Role u; u_Active := u_Active u;
     u_MustChangePassword := mustChange; u_MFAEnabled := mc_Enabled m; u_MFASecret := mc_Secret m;
     u_MFAPendingSecret := mc_PendingSecret m; u_MFARecoveryCodes := mc_RecoveryCodes m;
     u_MFAPendingRecoveryCodes := mc_PendingRecoveryCodes m; u_MFALastTOTPCounter := mc_LastTOTPCounter m;
     u_AuthProvider := u_AuthProvider u; u_AuthProviderRef := u_AuthProviderRef u; u_AuthIssuer := u_AuthIssuer u;
     u_DisplayName := u_DisplayName u; u_Username := u_Username u; u_LastLoginAt := lastLogin |}.

Definition with_mfa (u : User) (m : mfa_columns) : User :=
  user_with u (u_Email u) (u_PasswordHash u) (u_MustChangePassword u) m (u_LastLoginAt u).

(** [UpdateFieldsIf] on the MFA columns: the guard over the row, the columns it writes. *)
Definition update_mfa (user : User) (guard : option (User → bool)) (write_ : mfa_columns → mfa_columns) : auth unit :=
  exec (λ st, users_UpdateFieldsIf st user guard (λ row, with_mfa row (write_ (mfa_of row)))).

Definition stale_is (c : auth unit) (e : auth_error) : auth unit := λ st,
  match c st with (Err ErrStale, st') => (Err e, st') | r => r end.

(** An error that is dropped. *)
Definition ignore_error {X} (c : auth X) : auth unit := λ st, (Ok tt, (c st).2).

Record MFAStatus := {
  ms_Enabled : bool; ms_PendingSetup : bool; ms_RecoveryCodeCount : Z; ms_Issuer : string;
  ms_RequireForAdmins : bool; ms_RequiredForCurrent : bool;
}.
Record MFASetup := { mu_Secret : string; mu_OtpAuthURL : string; mu_RecoveryCodes : list string }.
Record OTPRequestResult := { or_ExpiresAt : Z; or_Token : string }.

Definition mfaLoginScope := "mfa_login".
Definition maxMFAAttempts : Z := 5.

(** * Time-based codes *)

(** A byte string as numbers; 0 beyond its end. *)
Definition byte_at (s : string) (i : nat) : Z := match String.get i s with Some a => Z.of_N (N_of_ascii a) | None => 0%Z end.

(** [binary.BigEndian.PutUint64]. *)
Definition big_endian (n : Z) : string :=
  foldr (λ k s, String (ascii_of_N (Z.to_N (Z.land (Z.shiftr n k) 255))) s) "" [56; 48; 40; 32; 24; 16; 8; 0]%Z.

Definition pad_code (n : Z) : string :=
  let s := FormatUint (Z.to_N n) in String.append (foldr (λ _ z, String "0" z) "" (seq 0 (6 - String.length s))) s.

Definition totp_counter (now : Z) : Z := (Z.quot (now / Second) 30 mod 2 ^ 64)%Z.

(** The dynamic truncation of the digest. *)
Definition truncated (sum : string) : Z :=
  let offset := Z.to_nat (Z.land (byte_at sum (String.length sum - 1)) 15) in
  Z.lor (Z.lor (Z.lor (Z.shiftl (Z.land (byte_at sum offset) 127) 24) (Z.shiftl (byte_at sum (offset + 1)) 16))
           (Z.shiftl (byte_at sum (offset + 2)) 8)) (byte_at sum (offset + 3)).

Definition subtleEqualHash (left right : string) : bool := String.eqb (TrimSpace left) (TrimSpace right).

(** The stored hashes without the first that matches. *)
Fixpoint take_code (hash : string) (codes : list string) : bool * list string :=
  match codes with
  | [] => (false, [])
  | item :: rest =>
      if subtleEqualHash item hash then (true, rest)
      else let '(matched, remaining) := take_code hash rest in (matched, item :: remaining)
  end.

Section login.
Context `{JWT} `{Primitives}.
Variable hmac : string → string → string.
Variable hashToken : string → string.
(** HMAC-SHA1 of a key and a message, [base32.DecodeString], [bcrypt.CompareHashAndPassword] and
    [bcrypt.GenerateFromPassword]. *)
Variable hmac_sha1 : string → string → string.
Variable base32_Decode : string → option string.
Variable bcrypt_Compare : string → string → bool.
Variable bcrypt_Generate : string → option string.
(** [buildOTPAuthURL] of the issuer, the e-mail address and the secret. *)
Variable otpauth_url : string → string → string → string.
Variable mail_Send : string → string → bool.
Variable cfg : AuthConfig.
Variable mfaEncryptionSecret : string.
Variable keys : key_cache.

Definition generateTOTP (secret : string) (now : Z) : string :=
  match base32_Decode (ToUpper (TrimSpace secret)) with
  | None => ""
  | Some key => pad_code (truncated (hmac_sha1 key (big_endian (totp_counter now))) mod 1000000)%Z
  end.

(** The current step, then the one before. *)
Definition validateTOTP (secret code : string) (now : Z) : option Z :=
  if String.eqb (generateTOTP secret now) code then Some (totp_counter now)
  else
    let earlier := (now - 30 * Second)%Z in
    if String.eqb (generateTOTP secret earlier) code then Some (totp_counter earlier) else None.

Definition encryptSecret (value salt nonce : string) : string :=
  if negb (non_empty (TrimSpace value)) then "" else (EncryptStringV2 mfaEncryptionSecret value salt nonce keys).1.

(** [decryptSecretLegacy] is [DecryptString]. *)
Definition decryptSecret (value : string) : result box_error string :=
  if negb (non_empty (TrimSpace value)) then Ok ""
  else if IsEncryptedValueV2 value then (DecryptStringV2 mfaEncryptionSecret value keys).1
  else DecryptString mfaEncryptionSecret value.

Definition active_secret (value : string) : option string :=
  match decryptSecret value with Ok secret => if non_empty secret then Some secret else None | Err _ => None end.

(** [verifyMFAFactor]: whether the code is right, the recovery codes left and the counter to keep. *)
Definition verifyMFAFactor (now : Z) (user : User) (code : string) : bool * list string * Z :=
  let code := ToUpper (TrimSpace code) in
  let codes := u_MFARecoveryCodes user in
  let last := u_MFALastTOTPCounter user in
  if negb (non_empty code) then (false, codes, last)
  else
    match match active_secret (u_MFASecret user) with Some secret => validateTOTP secret code now | None => None end with
    | Some counter => if (counter <=? last)%Z then (false, codes, last) else (true, codes, counter)
    | None => let '(matched, remaining) := take_code (hashToken code) codes in (matched, remaining, last)
    end.

(** * Requirements on the account *)

Definition BootstrapRequired (st : auth_state) (user : User) : bool :=
  if u_MustChangePassword user then true
  else if u_MFAEnabled user then false
  else if negb (String.eqb (u_Role user) RoleAdmin) then false
  else
    match settings st with
    | None => false
    | Some s => if negb (as_RequireMFAForAdmins s) then false else negb (bool_decide (u_ID user ∈ passkeys st))
    end.

Definition MFARequiredForUser (st : auth_state) (user : User) : bool :=
  String.eqb (u_Role user) RoleAdmin && match settings st with Some s => as_RequireMFAForAdmins s | None => false end.

Definition bootstrapDismissAllowed (st : auth_state) (user : User) : bool :=
  if u_MustChangePassword user then true else negb (MFARequiredForUser st user).

Definition bootstrap_access_allowed (st : auth_state) (user : User) (session : option Session) : bool :=
  if negb (BootstrapRequired st user) then true
  else match session with
       | Some s => ss_BootstrapDismissed s && bootstrapDismissAllowed st user
       | None => false
       end.

Definition CheckPassword (hash password : string) : bool := non_empty hash && bcrypt_Compare hash password.

(** * Completing a login *)

Definition completeSuccessfulLogin (now : Z) (user : User) (meta : RequestMetadata) (tokenID refreshToken : string) : auth LoginResult :=
  write (λ st, users_UpdateLastLogin st (u_ID user) now) ;;;
  let user := user_with user (u_Email user) (u_PasswordHash user) (u_MustChangePassword user) (mfa_of user) (Some now) in
  let! session <- createSession hashToken cfg now user meta tokenID refreshToken;
  let token := issueToken cfg now user (Some session) in
  let! bootstrap <- read (λ st, BootstrapRequired st user);
  done_with {| lr_Token := token; lr_RefreshToken := refreshToken; lr_User := user; lr_Session := Some session;
               lr_MFARequired := false; lr_MFAToken := ""; lr_MFAExpiresAt := 0; lr_BootstrapRequired := bootstrap |}.

Definition beginMFAChallenge (now : Z) (user : User) (meta : RequestMetadata) (challengeToken : string) : auth LoginResult :=
  guard_auth (u_MFAEnabled user) ErrMFASetupRequired ;;;
  write (λ st, loginTokens_InvalidateOutstandingByUserScope st (u_ID user) mfaLoginScope now) ;;;
  let expires := (now + 10 * Minute)%Z in
  new_token now
    {| lt_ID := 0; lt_UserID := Some (u_ID user); lt_ServiceID := None; lt_Email := u_Email user;
       lt_Token := hashToken challengeToken; lt_Scope := mfaLoginScope; lt_ExpiresAt := expires; lt_UsedAt := None;
       lt_AttemptCount := 0; lt_RemoteAddr := m_RemoteAddr meta; lt_UserAgent := m_UserAgent meta; lt_CreatedAt := 0 |} ;;;
  done_with {| lr_Token := ""; lr_RefreshToken := ""; lr_User := user; lr_Session := None; lr_MFARequired := true;
               lr_MFAToken := challengeToken; lr_MFAExpiresAt := expires; lr_BootstrapRequired := false |}.

Definition completePrimaryLogin (now : Z) (user : User) (meta : RequestMetadata) (tokenID refreshToken challenge : string)
  : auth LoginResult :=
  if u_MFAEnabled user then beginMFAChallenge now user meta challenge
  else completeSuccessfulLogin now user meta tokenID refreshToken.

(** * Logins *)

(** [a || b]: the second key is only counted when the first is within its limit. *)
Definition rate_limited_any (now : Z) (key key' : string) : auth bool :=
  let! limited <- rate_limited cfg now key;
  if limited then done_with true else rate_limited cfg now key'.

Definition localLoginDisabled (st : auth_state) : bool :=
  match settings st with Some s => as_LocalLoginDisabled s | None => false end.

Definition Login (now : Z) (email password : string) (meta : RequestMetadata) (tokenID refreshToken challenge : string)
  : auth LoginResult :=
  let email := ToLower (TrimSpace email) in
  let! disabled <- read localLoginDisabled;
  guard_auth (negb disabled) ErrLocalLoginDisabled ;;;
  let! limited <- rate_limited_any now ("pwd:" +:+ email) ("pwd-ip:" +:+ rateLimitRemoteAddr (m_RemoteAddr meta));
  guard_auth (negb limited) ErrRateLimited ;;;
  let! user <- or_error (query (λ st, users_GetByEmail st email)) ErrInvalidCredentials;
  guard_auth (CheckPassword (u_PasswordHash user) password) ErrInvalidCredentials ;;;
  guard_auth (u_Active user) ErrInactiveUser ;;;
  completePrimaryLogin now user meta tokenID refreshToken challenge.

Definition LoginBreakGlass (now : Z) (email password : string) (meta : RequestMetadata) (tokenID refreshToken : string)
  : auth LoginResult :=
  let email := ToLower (TrimSpace email) in
  let! limited <- rate_limited_any now ("breakglass:" +:+ email) ("breakglass-ip:" +:+ rateLimitRemoteAddr (m_RemoteAddr meta));
  guard_auth (negb limited) ErrRateLimited ;;;
  let! user <- or_error (query (λ st, users_GetByEmail st email)) ErrInvalidCredentials;
  guard_auth (String.eqb (u_Role user) RoleAdmin && String.eqb (u_AuthProvider user) AuthProviderLocal) ErrBreakGlassRejected ;;;
  guard_auth (CheckPassword (u_PasswordHash user) password) ErrInvalidCredentials ;;;
  guard_auth (u_Active user) ErrInactiveUser ;;;
  completeSuccessfulLogin now user meta tokenID refreshToken.

Definition CompletePasskeyLogin (now : Z) (userID : N) (meta : RequestMetadata) (tokenID refreshToken : string) : auth LoginResult :=
  let! user <- query (λ st, users_GetByID st userID);
  guard_auth (u_Active user) ErrInactiveUser ;;;
  completeSuccessfulLogin now user meta tokenID refreshToken.

Definition RequestOTP (now : Z) (email : string) (meta : RequestMetadata) (token : string) : auth OTPRequestResult :=
  let! otpCfg <- read (currentOTPConfig cfg);
  guard_auth (otp_Enabled otpCfg) ErrOTPDisabled ;;;
  let email := ToLower (TrimSpace email) in
  let! limited <- rate_limited cfg now ("otp:" +:+ email);
  guard_auth (negb limited) ErrRateLimited ;;;
  let! user <- query (λ st, users_GetByEmail st email);
  guard_auth (u_Active user) ErrInactiveUser ;;;
  let! requests <- read (λ st, loginTokens_CountRecentByEmail st email (now - otp_RequestWindow otpCfg));
  guard_auth (requests <? otp_RequestLimit otpCfg)%Z ErrRateLimited ;;;
  let expires := (now + otp_TokenTTL otpCfg)%Z in
  new_token now
    {| lt_ID := 0; lt_UserID := Some (u_ID user); lt_ServiceID := None; lt_Email := email; lt_Token := hashToken token;
       lt_Scope := LoginTokenScopeAccountLogin; lt_ExpiresAt := expires; lt_UsedAt := None; lt_AttemptCount := 0;
       lt_RemoteAddr := m_RemoteAddr meta; lt_UserAgent := m_UserAgent meta; lt_CreatedAt := 0 |} ;;;
  sendOTPEmail mail_Send cfg email token ;;;
  done_with {| or_ExpiresAt := expires; or_Token := if otp_ResponseIncludesCode otpCfg then token else "" |}.

Definition VerifyOTP (now : Z) (email token : string) (meta : RequestMetadata) (tokenID refreshToken challenge : string)
  : auth LoginResult :=
  let! otpCfg <- read (currentOTPConfig cfg);
  guard_auth (otp_Enabled otpCfg) ErrOTPDisabled ;;;
  let email := ToLower (TrimSpace email) in
  let! limited <- rate_limited_any now ("otp-verify:" +:+ email) ("otp-verify-ip:" +:+ rateLimitRemoteAddr (m_RemoteAddr meta));
  guard_auth (negb limited) ErrRateLimited ;;;
  let! item <- redeem now (λ st, loginTokens_GetValidToken hashToken st email token) ErrInvalidCredentials ErrOTPUsed ErrOTPExpired;
  match lt_UserID item with
  | None => fail ErrInvalidCredentials
  | Some userID =>
      let! user <- query (λ st, users_GetByID st userID);
      guard_auth (u_Active user) ErrInactiveUser ;;;
      exec (λ st, loginTokens_MarkUsed st (lt_ID item) now) ;;;
      completePrimaryLogin now user meta tokenID refreshToken challenge
  end.

(** * The second factor *)

(** Everything up to the acceptance of the code: the challenge, the user and what the code leaves. *)
Definition mfa_check (now : Z) (mfaToken code : string) (meta : RequestMetadata) : auth (LoginToken * User * list string * Z) :=
  let! limited <- rate_limited cfg now ("mfa-ip:" +:+ rateLimitRemoteAddr (m_RemoteAddr meta));
  guard_auth (negb limited) ErrRateLimited ;;;
  let! item <- redeem now (λ st, loginTokens_GetValidTokenByScope hashToken st "" mfaToken mfaLoginScope None)
                 ErrInvalidToken ErrInvalidToken ErrInvalidToken;
  match lt_UserID item with
  | None => fail ErrInvalidToken
  | Some userID =>
      let! limited <- rate_limited cfg now ("mfa-user:" +:+ FormatUint userID);
      guard_auth (negb limited) ErrRateLimited ;;;
      (if (maxMFAAttempts <=? lt_AttemptCount item)%Z
       then ignore_error (exec (λ st, loginTokens_MarkUsed st (lt_ID item) now)) ;;; fail ErrRateLimited
       else done_with tt) ;;;
      let! user <- query (λ st, users_GetByID st userID);
      guard_auth (u_Active user) ErrInactiveUser ;;;
      let '(ok, remaining, counter) := verifyMFAFactor now user code in
      if ok then done_with (item, user, remaining, counter)
      else
        (λ st, match loginTokens_IncrementAttempts st (lt_ID item) with
               | Ok (attempts, st') =>
                   (Err ErrMFACodeInvalid,
                    if (maxMFAAttempts <=? attempts)%Z then or_same st' (loginTokens_MarkUsed st' (lt_ID item) now) else st')
               | Err _ => (Err ErrMFACodeInvalid, st)
               end)
  end.

(** The columns a login writes, guarded by the secret and the counter the code was checked against. *)
Definition mfa_commit (user : User) (remaining : list string) (counter : Z) : auth unit :=
  if negb (Nat.eqb (length remaining) (length (u_MFARecoveryCodes user))) || negb (counter =? u_MFALastTOTPCounter user)%Z
  then stale_is
         (update_mfa user
            (Some (λ row, u_MFAEnabled row && String.eqb (u_MFASecret row) (u_MFASecret user)
                          && (u_MFALastTOTPCounter row =? u_MFALastTOTPCounter user)%Z))
            (λ m, {| mc_Enabled := mc_Enabled m; mc_Secret := mc_Secret m; mc_PendingSecret := mc_PendingSecret m;
                     mc_RecoveryCodes := remaining; mc_PendingRecoveryCodes := mc_PendingRecoveryCodes m;
                     mc_LastTOTPCounter := counter |}))
         ErrMFACodeInvalid
  else done_with tt.

Definition CompleteMFA (now : Z) (mfaToken code : string) (meta : RequestMetadata) (tokenID refreshToken : string) : auth LoginResult :=
  let! checked <- mfa_check now mfaToken code meta;
  let '(item, user, remaining, counter) := checked in
  exec (λ st, loginTokens_MarkUsed st (lt_ID item) now) ;;;
  mfa_commit user remaining counter ;;;
  completeSuccessfulLogin now
    (with_mfa user {| mc_Enabled := u_MFAEnabled user; mc_Secret := u_MFASecret user; mc_PendingSecret := u_MFAPendingSecret user;
                      mc_RecoveryCodes := remaining; mc_PendingRecoveryCodes := u_MFAPendingRecoveryCodes user;
                      mc_LastTOTPCounter := counter |}) meta tokenID refreshToken.

(** * Managing the second factor *)

Definition MFAStatusForUser (userID : N) : auth MFAStatus :=
  let! user <- query (λ st, users_GetByID st userID);
  let! required <- read (λ st, match settings st with Some s => as_RequireMFAForAdmins s | None => false end);
  done_with {| ms_Enabled := u_MFAEnabled user; ms_PendingSetup := non_empty (TrimSpace (u_MFAPendingSecret user));
               ms_RecoveryCodeCount := Z.of_nat (length (u_MFARecoveryCodes user)); ms_Issuer := issuer cfg;
               ms_RequireForAdmins := required; ms_RequiredForCurrent := required && String.eqb (u_Role user) RoleAdmin |}.

(** Eight codes from the values drawn: five characters, a dash, five characters. *)
Definition recovery_code (value : string) : string := String.substring 0 5 value +:+ "-" +:+ String.substring 5 5 value.
Definition generateRecoveryCodes (values : list string) : list string * list string :=
  let plain := recovery_code <$> values in (plain, hashToken <$> plain).

Definition BeginTOTPSetup (userID : N) (secret : string) (values : list string) (salt nonce : string) : auth MFASetup :=
  let! user <- query (λ st, users_GetByID st userID);
  let '(plain, hashed) := generateRecoveryCodes values in
  let encryptedSecret := encryptSecret secret salt nonce in
  update_mfa user None
    (λ m, {| mc_Enabled := mc_Enabled m; mc_Secret := mc_Secret m; mc_PendingSecret := encryptedSecret;
             mc_RecoveryCodes := mc_RecoveryCodes m; mc_PendingRecoveryCodes := hashed;
             mc_LastTOTPCounter := mc_LastTOTPCounter m |}) ;;;
  done_with {| mu_Secret := secret; mu_OtpAuthURL := otpauth_url (issuer cfg) (u_Email user) secret; mu_RecoveryCodes := plain |}.

(** After a change of credentials the other sessions end. *)
Definition end_other_sessions (now : Z) (userID : N) (current : option Session) : auth unit :=
  write (λ st, InvalidateUser st userID) ;;;
  match current with
  | Some s => RevokeOtherUserSessions now userID (ss_ID s)
  | None => RevokeAllUserSessions now userID
  end.

Definition EnableTOTP (now : Z) (userID : N) (code : string) (current : option Session) : auth MFAStatus :=
  let! user <- query (λ st, users_GetByID st userID);
  match active_secret (u_MFAPendingSecret user) with
  | None => fail ErrInvalidToken
  | Some secret =>
      match validateTOTP secret code now with
      | None => fail ErrMFACodeInvalid
      | Some counter =>
          stale_is
            (update_mfa user (Some (λ row, String.eqb (u_MFAPendingSecret row) (u_MFAPendingSecret user)))
               (λ _, {| mc_Enabled := true; mc_Secret := u_MFAPendingSecret user; mc_PendingSecret := "";
                        mc_RecoveryCodes := u_MFAPendingRecoveryCodes user; mc_PendingRecoveryCodes := [];
                        mc_LastTOTPCounter := counter |}))
            ErrInvalidToken ;;;
          end_other_sessions now (u_ID user) current ;;;
          MFAStatusForUser userID
      end
  end.

Definition DisableMFA (now : Z) (userID : N) (code : string) : auth MFAStatus :=
  let! user <- query (λ st, users_GetByID st userID);
  if negb (u_MFAEnabled user) then MFAStatusForUser userID
  else
    let '(ok, remaining, counter) := verifyMFAFactor now user code in
    guard_auth ok ErrMFACodeInvalid ;;;
    (λ st,
      match update_mfa user (Some (λ row, String.eqb (u_MFASecret row) (u_MFASecret user) && u_MFAEnabled row))
              (λ _, {| mc_Enabled := false; mc_Secret := ""; mc_PendingSecret := ""; mc_RecoveryCodes := remaining;
                       mc_PendingRecoveryCodes := []; mc_LastTOTPCounter := counter |}) st with
      | (Ok _, st') => auth_bind (write (λ st, InvalidateUser st (u_ID user))) (λ _, MFAStatusForUser userID) st'
      | (Err ErrStale, st') => MFAStatusForUser userID st'
      | (Err e, st') => (Err e, st')
      end).

Definition RegenerateRecoveryCodes (now : Z) (userID : N) (code : string) (values : list string) : auth (list string) :=
  let! user <- query (λ st, users_GetByID st userID);
  let '(ok, _, counter) := verifyMFAFactor now user code in
  guard_auth ok ErrMFACodeInvalid ;;;
  let '(plain, hashed) := generateRecoveryCodes values in
  stale_is
    (update_mfa user
       (Some (λ row, u_MFAEnabled row && String.eqb (u_MFASecret row) (u_MFASecret user)
                     && (u_MFALastTOTPCounter row =? u_MFALastTOTPCounter user)%Z))
       (λ m, {| mc_Enabled := mc_Enabled m; mc_Secret := mc_Secret m; mc_PendingSecret := mc_PendingSecret m;
                mc_RecoveryCodes := hashed; mc_PendingRecoveryCodes := mc_PendingRecoveryCodes m;
                mc_LastTOTPCounter := counter |}))
    ErrMFACodeInvalid ;;;
  done_with plain.

Definition ResetUserMFA (now : Z) (userID : N) : auth unit :=
  let! user <- query (λ st, users_GetByID st userID);
  update_mfa user None
    (λ m, {| mc_Enabled := false; mc_Secret := ""; mc_PendingSecret := ""; mc_RecoveryCodes := [];
             mc_PendingRecoveryCodes := []; mc_LastTOTPCounter := mc_LastTOTPCounter m |}) ;;;
  write (λ st, InvalidateUser st (u_ID user)) ;;;
  RevokeAllUserSessions now (u_ID user).

(** * Accounts *)

Definition HashPassword (password : string) : auth string :=
  match bcrypt_Generate password with Some h => done_with h | None => fail ErrBcrypt end.

Definition CompleteAccountSetup (now : Z) (userID : N) (email password : string) (current : option Session) : auth User :=
  let! user <- query (λ st, users_GetByID st userID);
  guard_auth (u_MustChangePassword user) ErrAccountSetupDone ;;;
  let email := ToLower (TrimSpace email) in
  guard_auth (non_empty email) ErrInvalidCredentials ;;;
  let! taken <- read (λ st, match users_GetByEmail st email with Ok existing => negb (N.eqb (u_ID existing) (u_ID user)) | Err _ => false end);
  guard_auth (negb taken) ErrConflict ;;;
  let! hash <- HashPassword password;
  let updated := user_with user email hash false (mfa_of user) (u_LastLoginAt user) in
  stale_is
    (exec (λ st, users_UpdateFieldsIf st user (Some u_MustChangePassword)
                   (λ row, user_with row email hash false (mfa_of row) (u_LastLoginAt row))))
    ErrAccountSetupDone ;;;
  end_other_sessions now (u_ID user) current ;;;
  done_with updated.

Definition ChangeOwnPassword (now : Z) (userID : N) (currentPassword newPassword : string) (current : option Session) : auth unit :=
  let! user <- query (λ st, users_GetByID st userID);
  guard_auth (negb (non_empty (u_AuthProvider user) && negb (String.eqb (u_AuthProvider user) AuthProviderLocal)
                    && negb (non_empty (u_PasswordHash user)))) ErrInvalidCredentials ;;;
  guard_auth (CheckPassword (u_PasswordHash user) currentPassword) ErrInvalidCredentials ;;;
  let! hash <- HashPassword newPassword;
  stale_is
    (exec (λ st, users_UpdateFieldsIf st user (Some (λ row, String.eqb (u_PasswordHash row) (u_PasswordHash user)))
                   (λ row, user_with row (u_Email row) hash false (mfa_of row) (u_LastLoginAt row))))
    ErrInvalidCredentials ;;;
  end_other_sessions now (u_ID user) current.
End login.
