(* ===== verification/LoginSafety.v ===== *)
(** What signing in guarantees: which checks a login has passed, that a second factor cannot be
    skipped, that a session issued by a login authenticates, and how often a code can be used. *)
From S2P Require Import Prelude GoStrings Utf8Json Netip Domain Hosts Routing Requests RateLimit SecretBox.
From S2P Require Import Handler AuthStore AuthHistory AuthCache Tokens Sessions LoginCodes Login.

#[local] Open Scope string_scope.
#[local] Open Scope list_scope.
#[local] Open Scope auth_scope.

Lemma rate_limited_any_Ok cfg now k k' st r st' :
  rate_limited_any cfg now k k' st = (r, st') → ∃ b l, r = Ok b ∧ st' = with_limiter st l.
Proof.
  unfold rate_limited_any, auth_bind. destruct (rate_limited cfg now k st) as [r1 st1] eqn:H1.
  apply rate_limited_Ok in H1 as (b1 & l1 & -> & ->). destruct b1.
  - intros [= <- <-]. by exists true, l1.
  - intros H2. apply rate_limited_Ok in H2 as (b & l & -> & ->). by exists b, l.
Qed.

Section login.
Context `{JWT} `{Primitives} (hashToken : string → string) (hmac_sha1 : string → string → string)
        (base32_Decode : string → option string) (bcrypt_Compare : string → string → bool)
        (bcrypt_Generate : string → option string) (cfg : AuthConfig) (mfaEncryptionSecret : string) (keys : key_cache).

(** The row [createSession] stores. *)
Definition new_session (id : N) (now : Z) (user : User) (meta : RequestMetadata) (tokenID refreshToken : string) : Session :=
  {| ss_ID := id; ss_UserID := u_ID user; ss_TokenID := tokenID; ss_RefreshTokenHash := hashToken refreshToken;
     ss_UserAgent := TrimSpace (m_UserAgent meta); ss_RemoteAddr := rateLimitRemoteAddr (m_RemoteAddr meta);
     ss_LastSeenAt := Some now; ss_ExpiresAt := (now + refreshTokenTTL cfg)%Z; ss_RevokedAt := None;
     ss_BootstrapDismissed := false |}.

Lemma createSession_Ok now user meta tid rt st s st' :
  createSession hashToken cfg now user meta tid rt st = (Ok s, st') →
  s = new_session (nextSession st) now user meta tid rt ∧
  st' = with_sessions st (sessions st ++ [s]) (N.succ (nextSession st)).
Proof.
  unfold createSession. cbv zeta. unfold sessions_Create. destruct (existsb _ _); [done|]. by intros [= <- <-].
Qed.

Lemma completeSuccessfulLogin_Ok now user meta tid rt st res st' :
  completeSuccessfulLogin hashToken cfg now user meta tid rt st = (Ok res, st') →
  let s := new_session (nextSession st) now user meta tid rt in
  lr_Session res = Some s ∧ lr_Token res = issueToken cfg now user (Some s) ∧ lr_RefreshToken res = rt ∧
  lr_MFARequired res = false ∧ u_ID (lr_User res) = u_ID user ∧
  st' = with_sessions (users_UpdateLastLogin st (u_ID user) now) (sessions st ++ [s]) (N.succ (nextSession st)).
Proof.
  intros Ha. unfold completeSuccessfulLogin in Ha. cbv zeta in Ha. auth_inv Ha. simplify_eq.
  match goal with Hx : createSession _ _ _ _ _ _ _ _ = _ |- _ => apply createSession_Ok in Hx as [-> ->] end.
  by split_and!.
Qed.

(** A login that asks for the second factor creates no session. *)
Lemma beginMFAChallenge_Ok now user meta ch st res st' :
  beginMFAChallenge hashToken now user meta ch st = (Ok res, st') →
  lr_MFARequired res = true ∧ lr_Token res = "" ∧ lr_RefreshToken res = "" ∧ lr_Session res = None ∧ lr_User res = user ∧
  sessions st' = sessions st.
Proof. intros Ha. unfold beginMFAChallenge in Ha. cbv zeta in Ha. unfold new_token in Ha. auth_inv Ha. simplify_eq. by split_and!. Qed.

(** What a login by a first factor leads to. *)
Definition primary_outcome (now : Z) (user : User) (st : auth_state) (res : LoginResult) (st' : auth_state) : Prop :=
  u_ID (lr_User res) = u_ID user ∧
  if u_MFAEnabled user
  then lr_MFARequired res = true ∧ lr_Token res = "" ∧ lr_RefreshToken res = "" ∧ lr_Session res = None ∧ sessions st' = sessions st
  else ∃ s, lr_Session res = Some s ∧ ss_UserID s = u_ID user ∧ lr_Token res = issueToken cfg now user (Some s) ∧
            sessions st' = sessions st ++ [s].

Lemma completePrimaryLogin_Ok now user meta tid rt ch st res st' :
  completePrimaryLogin hashToken cfg now user meta tid rt ch st = (Ok res, st') → primary_outcome now user st res st'.
Proof.
  unfold completePrimaryLogin, primary_outcome. destruct (u_MFAEnabled user).
  - intros (H1 & H2 & H3 & H4 & -> & H5)%beginMFAChallenge_Ok. done.
  - intros Ha. apply completeSuccessfulLogin_Ok in Ha as (Hs & Ht & _ & _ & Hu & ->). split; [done|]. eauto 10.
Qed.

#[export] Instance last_login_history uid now : History (write (λ st, users_UpdateLastLogin st uid now)).
Proof. apply write_step. intros st. by eexists (UsersWrite _). Qed.

#[export] Instance completeSuccessfulLogin_history now user meta tid rt :
  History (completeSuccessfulLogin hashToken cfg now user meta tid rt).
Proof. unfold completeSuccessfulLogin. apply _. Qed.

#[export] Instance new_token_history now item : History (new_token now item).
Proof. apply write_step. intros st. by eexists (TokenCreate now item). Qed.

#[export] Instance invalidate_outstanding_history uid scope now :
  History (write (λ st, loginTokens_InvalidateOutstandingByUserScope st uid scope now)).
Proof. apply write_step. intros st. by eexists (TokenInvalidate _ _ _). Qed.

#[export] Instance completePrimaryLogin_history now user meta tid rt ch : History (completePrimaryLogin hashToken cfg now user meta tid rt ch).
Proof. unfold completePrimaryLogin, beginMFAChallenge. apply _. Qed.

(** A row that is used stays so in any history. *)
Lemma history_row_used {X} (c : auth X) `{!History c} id st : row_used id st → row_used id (c st).2.
Proof.
  destruct (history (c := c) st) as [ops ->]. revert st. induction ops as [|o ops IH]; intros st Hu; [done|]. by apply IH, row_used_apply.
Qed.

(** C9 Signing in with a password or a one-time code passes every check.  With a password: the local login is enabled, the account that has
    the address in the table is active, and the password matches its stored hash.  With a code: codes are enabled, the newest
    code of the table for the address and this text is for signing in to an account, unused and not expired; the account the table holds for it
    is active; and the code is marked as used in the table when the request is done.  In both cases, when the account of the table has
    a second factor the answer is a challenge and no session is created and no token is issued; otherwise one session is added, for
    this account. *)
Theorem login_checks now email password code meta tid rt ch st res st' :
  (Login hashToken bcrypt_Compare cfg now email password meta tid rt ch st = (Ok res, st') →
     ∃ user, localLoginDisabled st = false ∧ users_GetByEmail st (ToLower (TrimSpace email)) = Ok user ∧
       u_Active user = true ∧ u_PasswordHash user ≠ "" ∧ bcrypt_Compare (u_PasswordHash user) password = true ∧
       primary_outcome now user st res st') ∧
  (VerifyOTP hashToken cfg now email code meta tid rt ch st = (Ok res, st') →
     ∃ item uid user, otp_Enabled (currentOTPConfig cfg st) = true ∧
       latest_token (scope_cond hashToken (ToLower (TrimSpace email)) code LoginTokenScopeAccountLogin None) st = Ok item ∧
       unused item = true ∧ (now ≤ lt_ExpiresAt item)%Z ∧ lt_UserID item = Some uid ∧ users_GetByID st uid = Ok user ∧ u_Active user = true ∧
       ((lt_ID item < nextToken st)%N → ∀ t, t ∈ loginTokens st' → lt_ID t = lt_ID item → lt_UsedAt t ≠ None) ∧
       primary_outcome now user st res st').
Proof.
  split.
  - intros Ha. unfold Login in Ha. cbv zeta in Ha. apply auth_bind_Ok in Ha as (dis & ? & Hd & Ha). auth_inv Hd.
    apply auth_bind_Ok in Ha as (? & ? & Hd & Ha). auth_inv Hd. apply auth_bind_Ok in Ha as (lim & ? & Hl & Ha).
    apply rate_limited_any_Ok in Hl as (b & l & _ & ->). auth_inv Ha. destruct_bools.
    match goal with Hx : completePrimaryLogin _ _ _ _ _ _ _ _ _ = _ |- _ => apply completePrimaryLogin_Ok in Hx; rename Hx into Hout end.
    match goal with Hx : CheckPassword _ (u_PasswordHash ?u) _ = true |- _ =>
      exists u; unfold CheckPassword in Hx; apply andb_true_iff in Hx as [Hpw ?] end.
    split_and!; try done. by intros Heq; rewrite Heq in Hpw.
  - intros Ha. unfold VerifyOTP in Ha. cbv zeta in Ha. apply auth_bind_Ok in Ha as (oc & ? & Hd & Ha). auth_inv Hd.
    apply auth_bind_Ok in Ha as (? & ? & Hd & Ha). auth_inv Hd. apply auth_bind_Ok in Ha as (lim & ? & Hl & Ha).
    apply rate_limited_any_Ok in Hl as (b & l & _ & ->). apply auth_bind_Ok in Ha as (? & ? & Hd & Ha). auth_inv Hd.
    apply auth_bind_Ok in Ha as (item & ? & Hr & Ha). apply redeem_Ok in Hr as (-> & Hi & Hu & He).
    destruct (lt_UserID item) as [uid|] eqn:Huid; [|by apply fail_Ok in Ha]. auth_inv Ha.
    match goal with Hx : users_GetByID _ uid = Ok ?u |- _ => exists item, uid, u end.
    match goal with Hx : completePrimaryLogin _ _ _ ?u _ _ _ _ ?st0 = (Ok res, _) |- _ =>
      pose proof (history_row_used (completePrimaryLogin hashToken cfg now u meta tid rt ch) (lt_ID item) st0) as Hkeep;
      rewrite Hx in Hkeep; apply completePrimaryLogin_Ok in Hx; rename Hx into Hout end.
    match goal with Hx : loginTokens_MarkUsed _ _ _ = Ok _ |- _ => apply MarkUsed_spec in Hx as [-> Hused] end.
    split_and!; try done. intros Hid t Ht Hti. destruct Hkeep as [_ Hkeep]; [by split|]. specialize (Hkeep t Ht Hti).
    unfold unused in Hkeep. by destruct (lt_UsedAt t).
Qed.

(** ** A session issued by a login works *)

Lemma UpdateLastLogin_GetByID st id now row :
  users_GetByID st id = Ok row →
  ∃ row', users_GetByID (users_UpdateLastLogin st id now) id = Ok row' ∧ u_ID row' = id ∧ u_Active row' = u_Active row.
Proof.
  unfold users_GetByID. destruct (List.find _ (users st)) as [u|] eqn:Hf; [|done]. intros [= ->].
  unfold users_UpdateLastLogin, update_where. cbn [with_users users fst]. rewrite find_fmap.
  - rewrite Hf. apply find_some in Hf as [_ Hid]. cbn. rewrite Hid. eexists. split; [done|]. cbn. split; [by apply N.eqb_eq|done].
  - intros x. destruct (N.eqb (u_ID x) id) eqn:Hx; cbn; by rewrite Hx.
Qed.

Lemma ParseToken_issued `{!JWTLaws} now user s t :
  ValidString (issuer cfg) = true → ValidString (u_Role user) = true → ValidString (u_Email user) = true →
  ValidString (ss_TokenID s) = true → (t < NewNumericDate (now + tokenTTL cfg) * Second)%Z →
  ParseToken cfg t (issueToken cfg now user (Some s)) =
    Some {| k_UserID := u_ID user; k_SessionID := ss_ID s; k_TokenID := ss_TokenID s; k_Role := u_Role user;
            k_Email := u_Email user; k_ExpiresAt := Some (NewNumericDate (now + tokenTTL cfg)) |}.
Proof.
  intros Hi Hr He Ht Hlt. unfold ParseToken, issueToken. cbv zeta. rewrite parse_signed by text.
  cbn [cl_Registered ExpiresAt]. by rewrite (proj2 (Z.ltb_lt _ _) Hlt).
Qed.

(** The session token of a login authenticates: until the token expires, and while the session has
    not expired, the request is recognised as the user's, with the user's groups and the session the
    login created. *)
Theorem login_token_authenticates `{!JWTLaws} now user row meta tid rt st res st' t :
  sessions_ok st → nextSession st ≠ 0%N →
  completeSuccessfulLogin hashToken cfg now user meta tid rt st = (Ok res, st') →
  users_GetByID st (u_ID user) = Ok row → u_Active row = true →
  ValidString (issuer cfg) = true → ValidString (u_Role user) = true → ValidString (u_Email user) = true → ValidString tid = true →
  (t < NewNumericDate (now + tokenTTL cfg) * Second)%Z → (t ≤ now + refreshTokenTTL cfg)%Z →
  authCache st !! hashToken (lr_Token res) = None →
  ∃ u s st'', AuthenticateAccessToken hashToken cfg t (lr_Token res) st' = (Ok (u, GetUserGroupIDs st (u_ID user), Some s), st'') ∧
    u_ID u = u_ID user ∧ ss_ID s = nextSession st ∧ ss_UserID s = u_ID user.
Proof.
  intros Hok Hnext Ha Hrow Hact Hi Hr He Ht Hlt Hexp Hcache.
  pose proof (history_ok (completeSuccessfulLogin hashToken cfg now user meta tid rt) st Hok) as Hok'. rewrite Ha in Hok'. cbn [snd] in Hok'.
  apply completeSuccessfulLogin_Ok in Ha as (_ & Htok & _ & _ & _ & ->). rewrite Htok in *.
  set (s := new_session (nextSession st) now user meta tid rt) in *.
  destruct (session_lookups _ s Hok') as (_ & Hget & _); [cbn; apply elem_of_app; right; by apply list_elem_of_singleton|].
  destruct (UpdateLastLogin_GetByID st (u_ID user) now row Hrow) as (row' & Hrow' & Hid & Hact').
  unfold AuthenticateAccessToken. rewrite (ParseToken_issued now user s t) by done.
  unfold auth_bind at 1, cached_result, getCachedAuthResult. cbn [with_sessions users_UpdateLastLogin with_users authCache].
  rewrite Hcache. set (st1 := with_sessions _ _ _) in *.
  assert ((if (cacheTTL cfg <=? 0)%Z then (None, st1) else (None, st1)) = (None (A := User * list N), st1)) as -> by by destruct (_ <=? _)%Z.
  cbn [k_UserID k_SessionID k_TokenID k_ExpiresAt]. unfold auth_bind at 1, query.
  replace (users_GetByID st1 (u_ID user)) with (Ok (E := auth_error) row') by (symmetry; exact Hrow').
  unfold auth_bind at 1, guard_auth at 1. rewrite Hact', Hact. cbn [done_with].
  rewrite (proj2 (N.eqb_neq _ _)) by exact Hnext. cbn [negb]. unfold auth_bind at 1, auth_bind at 1.
  rewrite (proj2 (live_session_Ok t (ss_TokenID s) st1 s st1)) by (split_and!; [done|exact Hget|done|exact Hexp]).
  unfold auth_bind at 1, or_error, exec, sessions_Touch, update_sessions, update_where.
  rewrite (proj2 (existsb_exists_elem _ (sessions st1))).
  2: { exists s. split; [cbn; apply elem_of_app; right; by apply list_elem_of_singleton|]. by rewrite N.eqb_refl. }
  cbn [done_with]. unfold auth_bind, read, store_result, write, done_with. rewrite Hid. eexists _, _, _. done.
Qed.
End login.

(** * Codes of the second factor *)

Section mfa.
Context `{Primitives} (hashToken : string → string) (hmac_sha1 : string → string → string)
        (base32_Decode : string → option string) (mfaEncryptionSecret : string) (keys : key_cache).

Abbreviation verify := (verifyMFAFactor hashToken hmac_sha1 base32_Decode mfaEncryptionSecret keys).

Lemma verify_accepts now user code remaining counter :
  verify now user code = (true, remaining, counter) →
  (counter = u_MFALastTOTPCounter user ∧ take_code (hashToken (ToUpper (TrimSpace code))) (u_MFARecoveryCodes user) = (true, remaining)) ∨
  (u_MFALastTOTPCounter user < counter)%Z ∧ remaining = u_MFARecoveryCodes user.
Proof.
  unfold verifyMFAFactor. cbv zeta. destruct (negb _); [done|].
  destruct (match active_secret _ _ _ with Some secret => _ | None => None end) as [c|].
  - destruct (Z.leb_spec c (u_MFALastTOTPCounter user)); [done|]. intros [= <- <-]. by right.
  - destruct (take_code _ _) as [m r]. intros [= -> -> <-]. by left.
Qed.

(** What [mfa_commit] does to the table. *)
Definition commit_cond (user row : User) : bool :=
  N.eqb (u_ID row) (u_ID user) &&
  (u_MFAEnabled row && String.eqb (u_MFASecret row) (u_MFASecret user) && (u_MFALastTOTPCounter row =? u_MFALastTOTPCounter user)%Z).
Definition commit_row (remaining : list string) (counter : Z) (row : User) : User :=
  with_mfa row {| mc_Enabled := u_MFAEnabled row; mc_Secret := u_MFASecret row; mc_PendingSecret := u_MFAPendingSecret row;
                  mc_RecoveryCodes := remaining; mc_PendingRecoveryCodes := u_MFAPendingRecoveryCodes row;
                  mc_LastTOTPCounter := counter |}.

Lemma mfa_commit_run user remaining counter st :
  let needed := negb (Nat.eqb (length remaining) (length (u_MFARecoveryCodes user))) || negb (counter =? u_MFALastTOTPCounter user)%Z in
  mfa_commit user remaining counter st =
    if needed then
      if existsb (commit_cond user) (users st)
      then (Ok tt, with_users st (rewrite_rows (commit_cond user) (commit_row remaining counter) (users st)))
      else (Err ErrMFACodeInvalid, st)
    else (Ok tt, st).
Proof.
  cbv zeta. unfold mfa_commit. destruct (_ || _); [|done]. unfold stale_is, update_mfa, exec, users_UpdateFieldsIf, update_where.
  fold (commit_cond user). change (λ row, N.eqb (u_ID row) (u_ID user) && _ row) with (commit_cond user).
  by destruct (existsb (commit_cond user) (users st)).
Qed.

(** One login that reached its commit: the user it read, and what the code left. *)
Record commit := { cm_user : User; cm_remaining : list string; cm_counter : Z }.
Definition checked (c : commit) : Prop := ∃ now code, verify now (cm_user c) code = (true, cm_remaining c, cm_counter c).
Definition run_commit (st : auth_state) (c : commit) : result auth_error unit * auth_state :=
  mfa_commit (cm_user c) (cm_remaining c) (cm_counter c) st.

(** A login that presents a code: the account as it was read, the instant and the code. *)
Record attempt := { tr_user : User; tr_now : Z; tr_code : string }.

(** The time step whose code the login presents, if it is a code of the account's secret at all. *)
Definition presented_step (a : attempt) : option Z :=
  match active_secret mfaEncryptionSecret keys (u_MFASecret (tr_user a)) with
  | Some secret => validateTOTP hmac_sha1 base32_Decode secret (ToUpper (TrimSpace (tr_code a))) (tr_now a)
  | None => None
  end.

(** The check of the code against the account that was read, and the commit to the table. *)
Definition run_attempt (st : auth_state) (a : attempt) : result auth_error unit * auth_state :=
  let '(ok, remaining, counter) := verify (tr_now a) (tr_user a) (tr_code a) in
  if ok then run_commit st {| cm_user := tr_user a; cm_remaining := remaining; cm_counter := counter |} else (Err ErrMFACodeInvalid, st).

(** How many logins of the account that present the code of the time step [k] are accepted. *)
Fixpoint totp_accepts (uid : N) (k : Z) (st : auth_state) (attempts : list attempt) : nat :=
  match attempts with
  | [] => 0
  | a :: rest =>
      ((if N.eqb (u_ID (tr_user a)) uid && bool_decide (presented_step a = Some k) && is_ok (run_attempt st a).1 then 1 else 0)
       + totp_accepts uid k (run_attempt st a).2 rest)%nat
  end.

Definition counter_at_least (uid : N) (k : Z) (st : auth_state) : Prop :=
  ∀ u, u ∈ users st → u_ID u = uid → (k ≤ u_MFALastTOTPCounter u)%Z.

Lemma commit_users c st :
  users (run_commit st c).2 = users st ∨
  users (run_commit st c).2 = rewrite_rows (commit_cond (cm_user c)) (commit_row (cm_remaining c) (cm_counter c)) (users st).
Proof. unfold run_commit. rewrite mfa_commit_run. cbv zeta. destruct (_ || _); [|by left]. destruct (existsb _ _); [by right|by left]. Qed.

Lemma commit_keeps uid k c st : checked c → counter_at_least uid k st → counter_at_least uid k (run_commit st c).2.
Proof.
  intros (now & code & Hv) Hk. destruct (commit_users c st) as [Hu|Hu]; intros u; rewrite Hu; [by apply Hk|].
  intros (u0 & -> & H0)%list_elem_of_fmap. destruct (commit_cond (cm_user c) u0) eqn:Hc; [|by apply Hk].
  cbn. intros Hid. specialize (Hk u0 H0 Hid). unfold commit_cond in Hc. destruct_bools.
  apply verify_accepts in Hv. assert (u_MFALastTOTPCounter u0 = u_MFALastTOTPCounter (cm_user c)) by by apply Z.eqb_eq.
  destruct Hv as [[-> _]|[? _]]; lia.
Qed.

Lemma commit_ids c st : NoDup (u_ID <$> users st) → NoDup (u_ID <$> users (run_commit st c).2).
Proof. intros Hnd. destruct (commit_users c st) as [->| ->]; [done|]. by rewrite rewrite_rows_same. Qed.

Lemma commit_sets uid k c st :
  NoDup (u_ID <$> users st) → u_ID (cm_user c) = uid → cm_counter c = k → (u_MFALastTOTPCounter (cm_user c) < k)%Z →
  is_ok (run_commit st c).1 = true → counter_at_least uid k (run_commit st c).2.
Proof.
  intros Hnd Hid Hck Hlt. unfold run_commit. rewrite mfa_commit_run. cbv zeta.
  rewrite (proj2 (Z.eqb_neq (cm_counter c) (u_MFALastTOTPCounter (cm_user c)))) by lia. rewrite orb_true_r.
  destruct (existsb _ _) eqn:Hex; [|done]. intros _ u (u0 & -> & H0)%list_elem_of_fmap Hu.
  destruct (commit_cond (cm_user c) u0) eqn:Hcond; [cbn; lia|]. exfalso.
  apply existsb_exists_elem in Hex as (u1 & H1 & Hc1). assert (u_ID u1 = uid) as Hu1.
  { unfold commit_cond in Hc1. destruct_bools. rewrite <- Hid. by apply N.eqb_eq. }
  assert (u0 = u1) as ->; [|congruence]. apply list_elem_of_lookup in H0 as [i Hi], H1 as [j Hj]. assert (i = j) as ->; [|congruence].
  eapply (NoDup_lookup _ i j uid Hnd); rewrite list_lookup_fmap, ?Hi, ?Hj; simpl; congruence.
Qed.

(** A commit of a step the table is past is refused. *)
Lemma commit_refused uid k c st :
  counter_at_least uid k st → u_ID (cm_user c) = uid → cm_counter c = k → (u_MFALastTOTPCounter (cm_user c) < k)%Z →
  is_ok (run_commit st c).1 = false.
Proof.
  intros Hk Hid Hck Hlt. unfold run_commit. rewrite mfa_commit_run. cbv zeta.
  rewrite (proj2 (Z.eqb_neq (cm_counter c) (u_MFALastTOTPCounter (cm_user c)))) by lia. rewrite orb_true_r.
  destruct (existsb (commit_cond (cm_user c)) (users st)) eqn:Hex; [|done]. exfalso.
  apply existsb_exists_elem in Hex as (u & Hu & Hcond). unfold commit_cond in Hcond. destruct_bools.
  assert (u_ID u = uid) as Hu1 by (rewrite <- Hid; by apply N.eqb_eq). specialize (Hk u Hu Hu1).
  assert (u_MFALastTOTPCounter u = u_MFALastTOTPCounter (cm_user c)) by by apply Z.eqb_eq. lia.
Qed.

(** A login is refused without a trace, or commits what its code was checked for; a code of a time step that is
    accepted is past the last one of the account that was read, and is what the commit writes. *)
Lemma attempt_cases st a :
  run_attempt st a = (Err ErrMFACodeInvalid, st) ∨
  ∃ c, run_attempt st a = run_commit st c ∧ checked c ∧ u_ID (cm_user c) = u_ID (tr_user a) ∧
    ∀ k, presented_step a = Some k → cm_counter c = k ∧ (u_MFALastTOTPCounter (cm_user c) < k)%Z.
Proof.
  unfold run_attempt. destruct (verify _ _ _) as [[[] remaining] counter] eqn:Hv; [|by left]. right. eexists.
  split; [done|]. split; [by do 2 eexists|]. split; [done|]. intros k Hk. unfold presented_step in Hk. unfold verifyMFAFactor in Hv. cbv zeta in Hv.
  destruct (negb _); [done|]. rewrite Hk in Hv. destruct (Z.leb_spec k (u_MFALastTOTPCounter (tr_user a))); [done|].
  injection Hv as _ <-. cbn. split; [done|lia].
Qed.

Lemma totp_accepts_none uid k attempts st : counter_at_least uid k st → totp_accepts uid k st attempts = 0%nat.
Proof.
  revert st. induction attempts as [|a rest IH]; intros st Hk; [done|]. cbn [totp_accepts].
  destruct (attempt_cases st a) as [Hr|(c & Hr & Hch & Hid & Hstep)]; rewrite Hr.
  - cbn [fst snd is_ok]. rewrite andb_false_r. by apply IH.
  - rewrite IH by by apply commit_keeps. destruct (_ && _) eqn:Hall; [|done]. exfalso. destruct_bools.
    match goal with Hx : bool_decide _ = true |- _ => apply bool_decide_eq_true in Hx; apply Hstep in Hx as [? ?] end.
    rewrite (commit_refused uid k c st) in *; [done|done|rewrite Hid; by apply N.eqb_eq|done|done].
Qed.

(** C10 A time-based code signs in once.  Let any number of logins with second-factor codes run, each having read the account at
    some earlier moment, their commits in any order: for every account and time step at most one of the logins that present the code of that
    step is accepted, replays of the same code included. *)
Theorem totp_step_accepted_once uid k attempts st :
  NoDup (u_ID <$> users st) → (totp_accepts uid k st attempts ≤ 1)%nat.
Proof.
  revert st. induction attempts as [|a rest IH]; intros st Hnd; cbn [totp_accepts]; [lia|].
  destruct (attempt_cases st a) as [Hr|(c & Hr & Hch & Hid & Hstep)]; rewrite Hr.
  - cbn [fst snd is_ok]. rewrite andb_false_r. by apply IH.
  - pose proof (IH _ (commit_ids c st Hnd)) as Hle. destruct (_ && _) eqn:Hall; [|lia]. destruct_bools.
    match goal with Hx : bool_decide _ = true |- _ => apply bool_decide_eq_true in Hx; apply Hstep in Hx as [? ?] end.
    rewrite totp_accepts_none; [done|]. apply commit_sets; [done|rewrite Hid; by apply N.eqb_eq|done|done|done].
Qed.

(** Recovery codes are not protected in this way: the guard of the update compares the counter,
    which a recovery code does not change.  Two logins that read the account before either commits are
    both accepted, also when both use the same recovery code, and the list the second one writes
    stays, so that the code the first one spent is valid again. *)
Theorem recovery_code_race user remaining remaining' st :
  user ∈ users st → u_MFAEnabled user = true → NoDup (u_ID <$> users st) →
  length remaining ≠ length (u_MFARecoveryCodes user) → length remaining' ≠ length (u_MFARecoveryCodes user) →
  let first := run_commit st {| cm_user := user; cm_remaining := remaining; cm_counter := u_MFALastTOTPCounter user |} in
  let second := run_commit first.2 {| cm_user := user; cm_remaining := remaining'; cm_counter := u_MFALastTOTPCounter user |} in
  is_ok first.1 = true ∧ is_ok second.1 = true ∧
  ∃ row, users_GetByID second.2 (u_ID user) = Ok row ∧ u_MFARecoveryCodes row = remaining'.
Proof.
  intros Hu Hen Hnd Hl Hl' first second.
  assert (commit_cond user user = true) as Hself.
  { unfold commit_cond. by rewrite N.eqb_refl, Hen, String.eqb_refl, Z.eqb_refl. }
  assert (∀ row, commit_cond user row = true → commit_cond user (commit_row remaining (u_MFALastTOTPCounter user) row) = true) as Hkeep.
  { intros row. unfold commit_cond. cbn. intros Hc. destruct_bools. rewrite Z.eqb_refl. by rewrite !andb_true_iff. }
  set (g := λ row, if commit_cond user row then commit_row remaining (u_MFALastTOTPCounter user) row else row).
  assert (first = (Ok tt, with_users st (g <$> users st))) as Hfirst.
  { unfold first, run_commit. rewrite mfa_commit_run. cbn [cm_user cm_remaining cm_counter]. cbv zeta.
    rewrite (proj2 (Nat.eqb_neq _ _) Hl). cbn [negb orb]. by rewrite (proj2 (existsb_exists_elem _ _)) by eauto. }
  assert (g user ∈ g <$> users st) as Hgu by by apply list_elem_of_fmap_2.
  assert (commit_cond user (g user) = true) as Hgc by (unfold g; rewrite Hself; by apply Hkeep).
  assert (second = (Ok tt, with_users first.2 (rewrite_rows (commit_cond user) (commit_row remaining' (u_MFALastTOTPCounter user)) (g <$> users st)))) as Hsecond.
  { unfold second, run_commit. rewrite mfa_commit_run, Hfirst. cbn [cm_user cm_remaining cm_counter snd]. cbv zeta.
    rewrite (proj2 (Nat.eqb_neq _ _) Hl'). cbn [negb orb with_users users]. by rewrite (proj2 (existsb_exists_elem _ _)) by eauto. }
  split; [by rewrite Hfirst|]. split; [by rewrite Hsecond|]. rewrite Hsecond. cbn [snd].
  exists (commit_row remaining' (u_MFALastTOTPCounter user) (g user)). split; [|done].
  unfold users_GetByID. cbn [with_users users].
  assert (u_ID (commit_row remaining' (u_MFALastTOTPCounter user) (g user)) = u_ID user) as Hid by (unfold g; by rewrite Hself).
  set (rows := rewrite_rows _ _ _). set (row := commit_row _ _ (g user)) in *.
  assert (List.find (λ y, N.eqb (u_ID y) (u_ID row)) rows = Some row) as Hfind.
  { apply (find_unique u_ID N.eqb N.eqb_eq).
    - unfold rows. rewrite rewrite_rows_same by done.
      change (g <$> users st) with (rewrite_rows (commit_cond user) (commit_row remaining (u_MFALastTOTPCounter user)) (users st)).
      by rewrite rewrite_rows_same.
    - apply list_elem_of_fmap. exists (g user). by rewrite Hgc. }
  rewrite Hid in Hfind. by rewrite Hfind.
Qed.
End mfa.

(** ** The digits of a code *)

Lemma Z_land_bound a b n : (0 ≤ a)%Z → (0 ≤ b)%Z → (b < 2 ^ n)%Z → (0 ≤ n)%Z → (0 ≤ Z.land a b < 2 ^ n)%Z.
Proof.
  intros Ha Hb Hlt Hn. split; [apply Z.land_nonneg; lia|]. destruct (Z.eq_dec (Z.land a b) 0) as [->|Hne]; [lia|].
  assert (0 ≤ Z.land a b)%Z by (apply Z.land_nonneg; lia).
  apply Z.log2_lt_pow2; [lia|]. pose proof (Z.log2_land a b Ha Hb). destruct (Z.eq_dec b 0) as [->|Hb0]; [by rewrite Z.land_0_r in Hne|].
  assert (Z.log2 b < n)%Z by (apply Z.log2_lt_pow2; lia). lia.
Qed.

Lemma Z_lor_bound a b n : (0 ≤ a < 2 ^ n)%Z → (0 ≤ b < 2 ^ n)%Z → (0 ≤ n)%Z → (0 ≤ Z.lor a b < 2 ^ n)%Z.
Proof.
  intros [Ha Ha'] [Hb Hb'] Hn. split; [apply Z.lor_nonneg; lia|].
  destruct (Z.eq_dec (Z.lor a b) 0) as [->|Hne]; [lia|]. assert (0 ≤ Z.lor a b)%Z by (apply Z.lor_nonneg; lia).
  destruct (Z.eq_dec n 0) as [->|Hn0].
  { assert (a = 0%Z) as -> by lia. assert (b = 0%Z) as -> by lia. done. }
  assert (∀ x, (0 ≤ x < 2 ^ n)%Z → (Z.log2 x < n)%Z) as Hlog.
  { intros x Hx. destruct (Z.eq_dec x 0) as [->|]; [cbn; lia|]. apply Z.log2_lt_pow2; lia. }
  apply Z.log2_lt_pow2; [lia|]. rewrite Z.log2_lor by lia. apply Z.max_lub_lt; apply Hlog; lia.
Qed.

Lemma byte_at_bound s i : (0 ≤ byte_at s i < 256)%Z.
Proof.
  unfold byte_at. destruct (String.get i s) as [a|]; [|lia].
  by destruct a as [[] [] [] [] [] [] [] []]; vm_compute.
Qed.

Lemma truncated_bound sum : (0 ≤ truncated sum < 2 ^ 31)%Z.
Proof.
  unfold truncated. cbv zeta. set (o := Z.to_nat _).
  pose proof (byte_at_bound sum o). pose proof (byte_at_bound sum (o + 1)). pose proof (byte_at_bound sum (o + 2)).
  pose proof (byte_at_bound sum (o + 3)). pose proof (Z_land_bound (byte_at sum o) 127 7) as Hland.
  rewrite !Z.shiftl_mul_pow2 by lia. repeat apply Z_lor_bound; lia.
Qed.

Lemma pretty_length k x s : (x < 10 ^ N.of_nat k)%N → (String.length (pretty_N_go x s) ≤ k + String.length s)%nat.
Proof.
  revert x s. induction k as [|k IH]; intros x s Hx.
  { assert (x = 0%N) as -> by (cbn in Hx; lia). by rewrite pretty_N_go_0. }
  destruct (decide (x = 0%N)) as [->|Hne]; [rewrite pretty_N_go_0; lia|]. rewrite pretty_N_go_step by lia.
  etransitivity; [apply IH|cbn; lia]. rewrite Nat2N.inj_succ, N.pow_succ_r' in Hx. apply N.Div0.div_lt_upper_bound. lia.
Qed.

Lemma zeros_length n : String.length (foldr (λ _ z, String "0" z) "" (seq 0 n)) = n.
Proof. generalize 0. induction n as [|n IH]; intros i; [done|]. cbn. by rewrite IH. Qed.

Lemma pad_code_length n : (0 ≤ n < 1000000)%Z → String.length (pad_code n) = 6%nat.
Proof.
  intros Hn. unfold pad_code. rewrite string_app_length, zeros_length.
  assert (String.length (FormatUint (Z.to_N n)) ≤ 6)%nat; [|lia].
  unfold FormatUint, pretty, pretty_N. case_decide; [cbn; lia|].
  pose proof (pretty_length 6 (Z.to_N n) "") as Hp. cbn [String.length] in Hp. rewrite Nat.add_0_r in Hp. apply Hp.
  change (10 ^ N.of_nat 6)%N with 1000000%N. lia.
Qed.

(** The dynamic truncation stays inside the digest: for the twenty bytes of HMAC-SHA1 the four bytes
    it reads exist, so the indexing cannot fail, and a code always has six characters. *)
Theorem totp_code_shape hmac_sha1 base32_Decode secret key now :
  base32_Decode (ToUpper (TrimSpace secret)) = Some key →
  (∀ k m, String.length (hmac_sha1 k m) = 20%nat) →
  String.length (generateTOTP hmac_sha1 base32_Decode secret now) = 6%nat ∧
  let sum := hmac_sha1 key (big_endian (totp_counter now)) in
  let offset := Z.to_nat (Z.land (byte_at sum (String.length sum - 1)) 15) in
  (offset + 3 < String.length sum)%nat.
Proof.
  intros Hk Hlen. split.
  - unfold generateTOTP. rewrite Hk. apply pad_code_length, Z.mod_pos_bound. lia.
  - cbv zeta. rewrite Hlen. set (sum := hmac_sha1 _ _). pose proof (byte_at_bound sum (20 - 1)).
    pose proof (Z_land_bound (byte_at sum (20 - 1)) 15 4). lia.
Qed.

(** * Changing credentials *)

Lemma end_other_sessions_Ok now uid current st st' :
  end_other_sessions now uid current st = (Ok tt, st') →
  ∀ s, s ∈ sessions st' → ss_UserID s = uid → (∀ c, current = Some c → ss_ID s ≠ ss_ID c ∨ ss_ID c = 0%N) → not_revoked s = false.
Proof.
  unfold end_other_sessions. intros Ha. apply auth_bind_Ok in Ha as (? & ? & Hw & Ha). auth_inv Hw.
  destruct current as [c|]; [unfold RevokeOtherUserSessions in Ha|unfold RevokeAllUserSessions in Ha]; auth_inv Ha;
    cbn; intros s (s0 & -> & H0)%list_elem_of_fmap Hu Hex.
  - destruct (_ && _) eqn:Hc; [done|]. destruct (not_revoked s0) eqn:Hr; [|done]. exfalso.
    rewrite (proj2 (N.eqb_eq _ _)) in Hc by done. cbn in Hc.
    destruct (Hex c eq_refl) as [Hne|Hz]; [|by rewrite Hz in Hc].
    by rewrite (proj2 (N.eqb_neq _ _) Hne), orb_true_r in Hc.
  - destruct (_ && _) eqn:Hc; [done|]. destruct (not_revoked s0) eqn:Hr; [|done]. exfalso.
    by rewrite (proj2 (N.eqb_eq _ _)) in Hc by done.
Qed.

Section credentials.
Context `{Primitives} (hmac_sha1 : string → string → string) (base32_Decode : string → option string)
        (bcrypt_Compare : string → string → bool) (bcrypt_Generate : string → option string) (cfg : AuthConfig)
        (mfaEncryptionSecret : string) (keys : key_cache).

(** The sessions of the user other than the current one are revoked. *)
Definition others_ended (uid : N) (current : option Session) (st : auth_state) : Prop :=
  ∀ s, s ∈ sessions st → ss_UserID s = uid → (∀ c, current = Some c → ss_ID s ≠ ss_ID c ∨ ss_ID c = 0%N) → not_revoked s = false.

Lemma GetByID_id st id u : users_GetByID st id = Ok u → u_ID u = id.
Proof. unfold users_GetByID. destruct (List.find _ _) eqn:Hf; [|done]. intros [= ->]. by apply N.eqb_eq, (find_some _ _ Hf). Qed.

(** What a guarded update of the row that was read leaves in the table. *)
Lemma UpdateFieldsIf_row st user g copy st' :
  users_GetByID st (u_ID user) = Ok user → g user = true → (∀ r, u_ID (copy r) = u_ID r) →
  users_UpdateFieldsIf st user (Some g) copy = Ok st' → users_GetByID st' (u_ID user) = Ok (copy user).
Proof.
  intros Hu Hg Hid. unfold users_UpdateFieldsIf, update_where. destruct (existsb _ _); [|done]. intros [= <-]. unfold users_GetByID in *.
  cbn [with_users users]. rewrite find_fmap; [|intros x; by destruct (_ && _); rewrite ?Hid].
  destruct (List.find _ (users st)) as [x|]; [|done]. injection Hu as ->. cbn. by rewrite N.eqb_refl, Hg.
Qed.

Lemma stale_is_Ok c e st st' : stale_is c e st = (Ok tt, st') → c st = (Ok tt, st').
Proof. unfold stale_is. by destruct (c st) as [[[]|[]] ?]. Qed.

Lemma end_other_sessions_users now uid current st r st' : end_other_sessions now uid current st = (r, st') → users st' = users st.
Proof.
  assert (∀ s, users (InvalidateUser s uid) = users s) as Hi.
  { intros s. unfold InvalidateUser. by repeat case_match. }
  unfold end_other_sessions, RevokeOtherUserSessions, RevokeAllUserSessions, auth_bind, write, done_with.
  destruct current; cbn; intros [= <- <-]; by rewrite ?Hi; cbn; rewrite ?Hi.
Qed.

End credentials.

(** * Witnesses *)

Definition sample_bcrypt (hash password : string) : bool := String.eqb hash ("h:" +:+ password).
Definition no_mfa : mfa_columns :=
  {| mc_Enabled := false; mc_Secret := ""; mc_PendingSecret := ""; mc_RecoveryCodes := []; mc_PendingRecoveryCodes := [];
     mc_LastTOTPCounter := 0 |}.
Definition with_password : User := user_with cached_user "ada@example.com" "h:pw" false no_mfa None.

Definition with_user (u : User) : auth_state :=
  {| users := [u]; memberships := {[7%N := [3%N]]}; sessions := [sample_session]; nextSession := 5; loginTokens := [];
     nextToken := 1; apiTokens := []; authCache := ∅; userTokens := ∅; limiter := NewLocalLimiter 0; settings := None;
     passkeys := ∅ |}.

Lemma with_user_ok u : sessions_ok (with_user u).
Proof. split; try apply NoDup_singleton. intros s ->%list_elem_of_singleton. by vm_compute. Qed.

Lemma login_checks_witness :
  is_ok (Login sample_hash sample_bcrypt sample_config Second " Ada@Example.com" "pw" no_meta "t1" "r1" "c1" (with_user with_password)).1 = true ∧
  ∃ user, users_GetByEmail (with_user with_password) "ada@example.com" = Ok user ∧ sample_bcrypt (u_PasswordHash user) "pw" = true.
Proof.
  split; [vm_compute; reflexivity|].
  destruct (Login sample_hash sample_bcrypt sample_config Second " Ada@Example.com" "pw" no_meta "t1" "r1" "c1" (with_user with_password))
    as [[res|e] st'] eqn:Hl; [|by vm_compute in Hl].
  destruct (login_checks sample_hash sample_bcrypt sample_config Second " Ada@Example.com" "pw" "" no_meta "t1" "r1" "c1"
    (with_user with_password) res st') as [Hp _]. destruct (Hp Hl) as (user & _ & Hu & _ & _ & Hc & _). by exists user.
Defined.

Lemma login_token_authenticates_witness :
  ∃ res st' u s st'',
    completeSuccessfulLogin sample_hash sample_config Second with_password no_meta "t1" "r1" (with_user with_password) = (Ok res, st') ∧
    AuthenticateAccessToken sample_hash sample_config Minute (lr_Token res) st' = (Ok (u, [3%N], Some s), st'') ∧ u_ID u = 7%N.
Proof.
  destruct (completeSuccessfulLogin sample_hash sample_config Second with_password no_meta "t1" "r1" (with_user with_password))
    as [[res|e] st'] eqn:Hl; [|by vm_compute in Hl].
  destruct (login_token_authenticates sample_hash sample_config Second with_password with_password no_meta "t1" "r1"
    (with_user with_password) res st' Minute (with_user_ok _) ltac:(discriminate) Hl eq_refl eq_refl eq_refl eq_refl eq_refl eq_refl)
    as (u & s & st'' & Ha & Hu & _); [vm_compute; reflexivity|vm_compute; discriminate|apply lookup_empty|].
  exists res, st', u, s, st''. split; [reflexivity|]. split; [exact Ha|exact Hu].
Defined.

Definition with_codes : User :=
  user_with cached_user "ada@example.com" "h:pw" false
    {| mc_Enabled := true; mc_Secret := ""; mc_PendingSecret := ""; mc_RecoveryCodes := ["rA"; "rB"];
       mc_PendingRecoveryCodes := []; mc_LastTOTPCounter := 3 |} None.

Definition no_keys : key_cache := {| argon2KeyCache := ∅; argon2CacheCount := 0 |}.
Definition sample_sha1 (k m : string) : string := "01234567890123456789".

Definition spend (code : string) (remaining : list string) : commit :=
  {| cm_user := with_codes; cm_remaining := remaining; cm_counter := 3 |}.

(** A digest that gives the code of a time step its own number. *)
Definition counting_sha1 (k m : string) : string := String.substring 4 4 m +:+ "0000000000000000".
Definition with_totp : User :=
  user_with cached_user "ada@example.com" "h:pw" false
    {| mc_Enabled := true; mc_Secret := encryptSecret "mfa" no_keys "secret" "0123456789abcdef" "0123456789ab"; mc_PendingSecret := ""; mc_RecoveryCodes := [];
       mc_PendingRecoveryCodes := []; mc_LastTOTPCounter := 3 |} None.
Definition try_code (now : Z) (code : string) : attempt := {| tr_user := with_totp; tr_now := now; tr_code := code |}.
Abbreviation sample_accepts := (totp_accepts sample_hash counting_sha1 (λ s, Some s) "mfa" no_keys).

(** The code of step 5, presented in its own half minute and again in the next one; the code of step 3 was used before. *)
Lemma totp_step_accepted_once_witness :
  sample_accepts 7 5 (with_user with_totp) [try_code (155 * Second) "000005"; try_code (185 * Second) "000005"] = 1%nat ∧
  sample_accepts 7 3 (with_user with_totp) [try_code (95 * Second) "000003"] = 0%nat ∧
  (sample_accepts 7 5 (with_user with_totp) [try_code (155 * Second) "000005"; try_code (185 * Second) "000005"] ≤ 1)%nat.
Proof.
  split; [vm_compute; reflexivity|]. split; [vm_compute; reflexivity|].
  apply (totp_step_accepted_once sample_hash counting_sha1 (λ s, Some s) "mfa" no_keys). apply NoDup_singleton.
Defined.

Lemma recovery_code_race_witness :
  let first := run_commit (with_user with_codes) (spend "A" ["rB"]) in
  let second := run_commit first.2 (spend "A" ["rB"]) in
  verifyMFAFactor sample_hash sample_sha1 (λ s, Some s) "" no_keys 0 with_codes "a" = (true, ["rB"], 3%Z) ∧
  is_ok first.1 = true ∧ is_ok second.1 = true.
Proof.
  split; [vm_compute; reflexivity|].
  destruct (recovery_code_race with_codes ["rB"] ["rB"] (with_user with_codes)) as (H1 & H2 & _);
    [by left|done|apply NoDup_singleton|done|done|done].
Defined.

Lemma totp_code_shape_witness :
  String.length (generateTOTP sample_sha1 (λ s, Some s) "abc" Hour) = 6%nat.
Proof. apply (totp_code_shape sample_sha1 (λ s, Some s) "abc" "ABC" Hour); reflexivity. Defined.

