(* ===== verification/System.v ===== *)
(** The proxy with the authentication service: the service of Sessions.v, LoginCodes.v, Login.v and
    Redirects.v implements the interface the request handler was verified against, so that what the
    handler admits is traced to the tables of the service; and the middleware of internal/auth/
    middleware.go that guards the administration API. *)
From S2P Require Import Prelude GoStrings Utf8Json Netip Domain Paths Hosts AccessRules AccessPolicy Routing.
From S2P Require Import Requests RateLimit SecretBox Resilience Handler Proxy AuthStore AuthHistory AuthCache.
From S2P Require Import Tokens Sessions LoginCodes Redirects Login.

#[local] Open Scope string_scope.
#[local] Open Scope list_scope.

Definition to_option {X} (r : result auth_error X * auth_state) : option X * auth_state :=
  (match r.1 with Ok x => Some x | Err _ => None end, r.2).

(** [ConsumeBridgeToken] on the limiter [NewService] installs. *)
Definition consume_bridge (st : auth_state) (now : Z) (jti : string) : bool * auth_state :=
  if negb (non_empty (TrimSpace jti)) then (false, st)
  else
    let '(r, l) := Allow (limiter st) now ("bridge-jti:" +:+ jti) 1 (5 * Minute) in
    ((ConsumeBridgeToken (Some (Ok (allowed r))) None now jti).1, with_limiter st l).

Section system.
Context `{JWT}.
Variable hmac : string → string → string.
Variable hashToken : string → string.
Variable url_Parse : string → option URL.
Variable url_String : URL → string.
Variable url_Hostname : URL → string.
Variable with_query : string → list (string * string) → string.
Variable cfg : AuthConfig.

#[export] Instance portlyn_auth : AuthService auth_state := {|
  AuthenticateRequest st now r := to_option (authenticate_request hashToken cfg now r st);
  AuthenticateHostRequest st now r host := to_option (authenticate_host_request hmac hashToken cfg now r host st);
  BootstrapAccessAllowed := bootstrap_access_allowed;
  RouteAccessCookieClaims _ now r id := route_access_claims cfg now r id;
  ParseSessionBridgeToken _ now tok := parse_session_bridge cfg now tok;
  ParseRouteAccessBridgeToken _ now tok := parse_route_access_bridge cfg now tok;
  consume_bridge_token := consume_bridge;
  ConsumeMagicLink st now id token addr :=
    let '(r, st') := consume_magic_link hashToken cfg now id token addr st in (is_ok r, st');
  SetSessionCookieForHost _ := session_cookies_for_host cfg;
  SetRouteAccessCookie _ now id method email := Some (route_access_cookie cfg now id method email);
  BuildRouteLoginURL := route_login_url url_Parse url_String url_Hostname with_query cfg;
  BuildRouteForbiddenURL := route_forbidden_url url_Parse url_String url_Hostname with_query cfg;
  IsPortlynCredential _ := is_portlyn_credential hmac cfg;
|}.

(** The token a request presents: the bearer token, or else the session cookie. *)
Definition presented (r : Request) (token : string) : Prop :=
  token ≠ "" ∧
  (token = TrimSpace (bearerTokenFromHeader (HGet (r_Header r) "Authorization")) ∨
   ∃ v, RCookie (r_Header r) SessionCookieName = Some v ∧ token = TrimSpace v).

(** The identity of user [uid]: the row of the table, or the one that was cached for this very token and has not lapsed. *)
Definition known_user (st : auth_state) (now : Z) (token : string) (uid : N) (user : User) : Prop :=
  u_Active user = true ∧
  (users_GetByID st uid = Ok user ∨ ∃ groups, (getCachedAuthResult (cacheTTL cfg) st now (hashToken token)).1 = Some (user, groups)).

(** What stands behind an accepted token: an API token that is neither revoked nor expired, which acts for nobody but its creator and
    with the role it was given or the least one; or a session that is stored, not revoked and not expired, named by the signed
    content of the token, where a host session token names the host; or, for a signed token that names no session, its signature alone. *)
Inductive backed (st : auth_state) (now : Z) (host token : string) : User → Prop :=
| backed_api rec user :
    rec ∈ apiTokens st → hashToken token = at_TokenHash rec → at_RevokedAt rec = None →
    (∀ e, at_ExpiresAt rec = Some e → (now < e)%Z) → u_ID user = default 0%N (at_CreatedByID rec) →
    u_Role user = at_Role rec ∨ u_Role user = RoleViewer → backed st now host token user
| backed_host k s user :
    parseHostSessionToken hmac cfg now token host = Some k → s ∈ sessions st → ss_ID s = h_SessionID k →
    ss_UserID s = h_UserID k → not_revoked s = true → (now ≤ ss_ExpiresAt s)%Z → known_user st now token (h_UserID k) user →
    backed st now host token user
| backed_session k s user :
    ParseToken cfg now token = Some k → s ∈ sessions st → ss_TokenID s = k_TokenID k →
    not_revoked s = true → (now ≤ ss_ExpiresAt s)%Z → known_user st now token (k_UserID k) user → backed st now host token user
| backed_signed k user :
    ParseToken cfg now token = Some k → k_SessionID k = 0%N → known_user st now token (k_UserID k) user → backed st now host token user.

Lemma api_token_backed now token st host user groups sess st' :
  authenticateAPIToken hashToken now token st = (Ok (user, groups, sess), st') → backed st now host token user.
Proof.
  unfold authenticateAPIToken. destruct (apiTokenPrefix token) as [prefix|]; [|done]. intros Ha. auth_inv Ha. simplify_eq.
  match goal with Hx : apiTokens_FindActiveByPrefix _ _ = Ok ?rec |- _ => unfold apiTokens_FindActiveByPrefix in Hx;
    destruct (List.find _ _) eqn:Hf in Hx; [|done]; injection Hx as -> end.
  apply find_some in Hf as [Hin _]. destruct_bools. eapply (backed_api _ _ _ _ x); cbn.
  - by apply list_elem_of_In.
  - by apply String.eqb_eq.
  - by destruct (at_RevokedAt x).
  - intros e He. rewrite He in *. by apply Z.ltb_lt.
  - done.
  - destruct (_ || _); [by left|by right].
Qed.

Lemma access_backed now token st host user groups sess st' :
  AuthenticateAccessToken hashToken cfg now token st = (Ok (user, groups, sess), st') → backed st now host token user.
Proof.
  intros Ha. apply access_token_facts in Ha as (k & Hk & Hact & Hsess & Huser).
  assert (known_user st now token (k_UserID k) user) as Hknown by (split; [done|]; destruct Huser as [?|[? _]]; eauto).
  destruct Hsess as [[Hz _]|(s & _ & Hg & Hr & He & _)].
  - by eapply backed_signed.
  - apply (find_session_eq ss_TokenID String.eqb String.eqb_eq) in Hg as [Hs Ht]. by eapply backed_session.
Qed.

Lemma host_backed now token st host user groups sess st' :
  AuthenticateHostSessionToken hmac hashToken cfg now token host st = (Ok (user, groups, sess), st') → backed st now host token user.
Proof.
  intros Ha. apply host_token_facts in Ha as (k & s & Hk & _ & Hact & Hg & Hu & Hr & He & Huser).
  assert (known_user st now token (h_UserID k) user) as Hknown by (split; [done|]; destruct Huser as [?|[? _]]; eauto).
  apply (find_session_eq ss_ID N.eqb N.eqb_eq) in Hg as [Hs Hi]. by eapply backed_host.
Qed.

(** The same tables, and nothing cached that was not cached before. *)
Record same_tables (st st' : auth_state) : Prop := {
  same_sessions : sessions st' = sessions st;
  same_tokens : apiTokens st' = apiTokens st;
  same_users : users st' = users st;
  same_cache : ∀ ttl now key x, (getCachedAuthResult ttl st' now key).1 = Some x → (getCachedAuthResult ttl st now key).1 = Some x;
}.

Lemma same_tables_refl st : same_tables st st.
Proof. done. Qed.

Lemma get_tables ttl st now key : same_tables st (getCachedAuthResult ttl st now key).2.
Proof.
  unfold getCachedAuthResult. destruct (ttl <=? 0)%Z; [done|]. destruct (authCache st !! key) as [e|] eqn:He; [|done].
  destruct (ca_expiresAt e <? now)%Z; [|done]. constructor; try done. intros ttl' now' key' x. cbn [snd].
  unfold getCachedAuthResult. destruct (ttl' <=? 0)%Z; [done|]. cbn. destruct (decide (key' = key)) as [->|Hne]; [by rewrite lookup_delete_eq|].
  rewrite lookup_delete_ne by done. destruct (authCache st !! key') as [e'|]; [|done]. by destruct (ca_expiresAt e' <? now')%Z.
Qed.

(** A refused attempt with a host session token changes none of them. *)
Lemma host_attempt_tables now token host st e st' :
  AuthenticateHostSessionToken hmac hashToken cfg now token host st = (Err e, st') → same_tables st st'.
Proof.
  unfold AuthenticateHostSessionToken. destruct (parseHostSessionToken _ _ _ _ _) as [k|]; [|by intros [= _ <-]].
  unfold auth_bind at 1. assert (∀ st, (hostSessionFor now k st).2 = st) as Hfor.
  { intros st0. unfold hostSessionFor, auth_bind, guard_auth, or_error, query, done_with, fail. by repeat case_match; simplify_eq. }
  specialize (Hfor st). destruct (hostSessionFor now k st) as [[s|e0] st0]; cbn in Hfor; subst st0; [|by intros [= _ <-]].
  unfold auth_bind at 1, cached_result. pose proof (get_tables (cacheTTL cfg) st now (hashToken token)) as Hg.
  destruct (getCachedAuthResult _ _ _ _) as [[[u g]|] st1]; cbn [snd] in Hg.
  - unfold auth_bind, guard_auth, done_with, fail. destruct (u_Active u); [done|]. by intros [= _ <-].
  - unfold auth_bind, query, guard_auth, read, store_result, write, done_with, fail.
    destruct (users_GetByID st1 (h_UserID k)) as [u|]; [|by intros [= _ <-]]. destruct (u_Active u); [done|]. by intros [= _ <-].
Qed.

Lemma known_tables st st' now token uid user : same_tables st st' → known_user st' now token uid user → known_user st now token uid user.
Proof.
  intros Hsame [Hact Hu]. split; [done|]. destruct Hu as [Hu|[groups Hc]]; [left|right; exists groups; by apply (same_cache _ _ Hsame)].
  unfold users_GetByID in *. by rewrite <-(same_users _ _ Hsame).
Qed.

Lemma backed_tables st st' now host token user : same_tables st st' → backed st' now host token user → backed st now host token user.
Proof.
  intros Hsame [rec u Hin|k x u Hk Hin|k x u Hk Hin|k u]; rewrite ?(same_sessions _ _ Hsame), ?(same_tokens _ _ Hsame) in *.
  - by eapply backed_api.
  - eapply backed_host; eauto using known_tables.
  - eapply backed_session; eauto using known_tables.
  - eapply backed_signed; eauto using known_tables.
Qed.

Lemma authenticate_backed now r host (admin : bool) st user groups sess st' :
  (if admin then authenticate_request hashToken cfg now r st else authenticate_host_request hmac hashToken cfg now r host st)
    = (Ok (user, groups, sess), st') →
  ∃ token, presented r token ∧ backed st now host token user.
Proof.
  assert (∀ s, non_empty s = true → s ≠ "") as Hne by (by intros [] ?).
  destruct admin.
  - unfold authenticate_request. cbv zeta. set (b := TrimSpace _). set (token := if non_empty b then b else _).
    destruct (non_empty token) eqn:Ht; [|done]. intros Ha. exists token. split.
    + split; [by apply Hne|]. unfold token in *. destruct (non_empty b); [by left|]. right.
      destruct (RCookie _ _) as [v|]; [by eauto|done].
    + cbn [negb] in Ha. destruct (LooksLikeAPIToken token); [by eapply api_token_backed|by eapply access_backed].
  - unfold authenticate_host_request. cbv zeta. set (b := TrimSpace _). destruct (non_empty b) eqn:Hb.
    + intros Ha. exists b. split; [split; [by apply Hne|by left]|].
      destruct (LooksLikeAPIToken b); [by eapply api_token_backed|].
      destruct (AuthenticateHostSessionToken _ _ _ _ _ _ st) as [[[[u g] s]|e] st1] eqn:Hh.
      * simplify_eq. by eapply host_backed.
      * eapply backed_tables; [by eapply host_attempt_tables|]. by eapply access_backed.
    + destruct (RCookie _ _) as [v|] eqn:Hv; [|done]. destruct (non_empty (TrimSpace v)) eqn:Hv'; [|done]. intros Ha.
      exists (TrimSpace v). split; [split; [by apply Hne|by eauto]|]. by eapply host_backed.
Qed.

Lemma proxy_identity_backed m now r st user groups a' :
  authenticateProxyRequest m now r st = (Ok (user, groups), a') →
  ∃ token sess, presented r token ∧ backed st now (normalizeHost (r_Host r)) token user ∧
    bootstrap_access_allowed a' user sess = true.
Proof.
  unfold authenticateProxyRequest. cbv zeta. set (host := normalizeHost _).
  set (c := if isAdminHost m host then authenticate_request hashToken cfg now r st
            else authenticate_host_request hmac hashToken cfg now r host st).
  assert ((if isAdminHost m host then AuthenticateRequest st now r else AuthenticateHostRequest st now r host) = to_option c) as ->
    by (unfold c; by destruct (isAdminHost m host)).
  destruct c as [[[[u g] sess]|e] st1] eqn:Hc; cbn; [|done].
  destruct (bootstrap_access_allowed st1 u sess) eqn:Hb; cbn [negb]; [|done]. intros [= -> -> ->].
  destruct (authenticate_backed now r host (isAdminHost m host) st user groups sess a' Hc) as (token & Hp & Hk). eauto.
Qed.
End system.

(** * The whole path of a request *)

Section end_to_end.
Context `{JWT} (hmac : string → string → string) (hashToken : string → string) (with_query : string → list (string * string) → string)
  (cfg : AuthConfig).
Context (url_Parse : string → option URL) (url_String : URL → string) (url_Port url_Hostname : URL → string)
  (valid_pem : string → bool) (LoadLocation : string → option Location) (tunnelReady : bool)
  (order_by_path : list Service → list Service) (sort_routes : list Route → list Route)
  (order_perm : ∀ l, order_by_path l ≡ₚ l) (sort_perm : ∀ l, sort_routes l ≡ₚ l)
  (url_RequestURI : URL → string) (Sign : string → string → string) (m : Manager).

Local Instance the_router : Router proxy_state :=
  proxy_router url_Parse url_String url_Port url_Hostname valid_pem LoadLocation tunnelReady order_by_path sort_routes.
Local Instance the_auth : AuthService auth_state := portlyn_auth hmac hashToken url_Parse url_String url_Hostname with_query cfg.

End end_to_end.

(** * Witness *)

(** The signed-in user with the role the sample services ask for. *)
Definition system_user : User :=
  {| u_ID := 7; u_Email := "ada@example.com"; u_PasswordHash := ""; u_Role := RoleAdmin; u_Active := true;
     u_MustChangePassword := false; u_MFAEnabled := true; u_MFASecret := ""; u_MFAPendingSecret := "";
     u_MFARecoveryCodes := []; u_MFAPendingRecoveryCodes := []; u_MFALastTOTPCounter := 0; u_AuthProvider := "local";
     u_AuthProviderRef := ""; u_AuthIssuer := ""; u_DisplayName := ""; u_Username := ""; u_LastLoginAt := None |}.

Definition system_auth : auth_state :=
  {| users := [system_user]; memberships := {[7%N := [3%N]]}; sessions := [sample_session]; nextSession := 5;
     loginTokens := []; nextToken := 1; apiTokens := []; authCache := ∅; userTokens := ∅;
     limiter := NewLocalLimiter 0; settings := None; passkeys := ∅ |}.

Definition system_world : world (R := proxy_state) (A := auth_state) :=
  {| w_routes := initial_state sample_services 10 (30 * Second) true; w_auth := system_auth; w_breakers := ∅ |}.

(** The holder of the sample session calls the sample application with the session's access token. *)
Definition system_call : Request := sample_request (list_to_map [("Authorization", ["Bearer " +:+ issueToken sample_config 0 system_user (Some sample_session)])]).

Definition system_answer : reply * world :=
  @Handler proxy_state auth_state
    (proxy_router Routing.sample_parse u_Host u_Host u_Host (λ _, true) (λ _, None) false (λ l, l) sort_by_length)
    (portlyn_auth sample_hmac sample_hash Routing.sample_parse u_Host u_Host (λ b _, b) sample_config)
    Routing.sample_parse u_Host u_Host (λ _ _, "") sample_manager 0 system_call system_world.

