(* ===== verification/Csrf.v ===== *)
(** The CSRF protection of the administration API (internal/http/security.go): the signed cookie
    value, the double-submit check and the paths of node agents that are exempt from it.

    The value is [base64url(hex(random) "." expiry "." hex(hmac))]; the encodings of the standard
    library it goes through are modelled here.  The random bytes, HMAC-SHA256 and the path of a
    parsed URL are parameters.  Header maps are keyed by canonical names, so X-CSRF-Token is "X-Csrf-Token". *)
From S2P Require Import Prelude GoStrings Utf8Json Netip AuditChain Requests.

#[local] Open Scope string_scope.
#[local] Open Scope list_scope.

(** * base64.RawURLEncoding *)

(** A six-bit group, its most significant bit first. *)
Definition sextet : Type := bool * bool * bool * bool * bool * bool.

Definition sextet_value (x : sextet) : nat :=
  let '(b5, b4, b3, b2, b1, b0) := x in
  (32 * Nat.b2n b5 + 16 * Nat.b2n b4 + 8 * Nat.b2n b3 + 4 * Nat.b2n b2 + 2 * Nat.b2n b1 + Nat.b2n b0)%nat.

Definition sextet_of (n : nat) : sextet :=
  let b i := Nat.testbit n i in (b 5%nat, b 4%nat, b 3%nat, b 2%nat, b 1%nat, b 0%nat).

(** [encodeURL], the alphabet of RFC 4648 for URLs. *)
Definition alphabet : string := "ABCDEFGHIJKLMNOPQRSTUVWXYZabcdefghijklmnopqrstuvwxyz0123456789-_".

Definition encode6 (x : sextet) : ascii := default "A"%char (String.get (sextet_value x) alphabet).

Fixpoint index_of (c : ascii) (s : string) : option nat :=
  match s with
  | EmptyString => None
  | String a s' => if Ascii.eqb a c then Some 0%nat else S <$> index_of c s'
  end.

Definition decode6 (c : ascii) : option sextet := sextet_of <$> index_of c alphabet.

(** Three bytes are four groups; one or two bytes at the end are two or three, filled with zeros. *)
Fixpoint sextets (s : string) : list sextet :=
  match s with
  | EmptyString => []
  | String (Ascii a0 a1 a2 a3 a4 a5 a6 a7) EmptyString =>
      [(a7, a6, a5, a4, a3, a2); (a1, a0, false, false, false, false)]
  | String (Ascii a0 a1 a2 a3 a4 a5 a6 a7) (String (Ascii b0 b1 b2 b3 b4 b5 b6 b7) EmptyString) =>
      [(a7, a6, a5, a4, a3, a2); (a1, a0, b7, b6, b5, b4); (b3, b2, b1, b0, false, false)]
  | String (Ascii a0 a1 a2 a3 a4 a5 a6 a7) (String (Ascii b0 b1 b2 b3 b4 b5 b6 b7)
      (String (Ascii c0 c1 c2 c3 c4 c5 c6 c7) s')) =>
      (a7, a6, a5, a4, a3, a2) :: (a1, a0, b7, b6, b5, b4) :: (b3, b2, b1, b0, c7, c6) :: (c5, c4, c3, c2, c1, c0) :: sextets s'
  end.

(** The bytes of a list of groups: a single group left over is an error, the bits left over after the
    last byte are ignored (the encoding is not strict). *)
Fixpoint bytes_of (l : list sextet) : option string :=
  match l with
  | [] => Some ""
  | [_] => None
  | [(a7, a6, a5, a4, a3, a2); (a1, a0, _, _, _, _)] => Some (String (Ascii a0 a1 a2 a3 a4 a5 a6 a7) "")
  | [(a7, a6, a5, a4, a3, a2); (a1, a0, b7, b6, b5, b4); (b3, b2, b1, b0, _, _)] =>
      Some (String (Ascii a0 a1 a2 a3 a4 a5 a6 a7) (String (Ascii b0 b1 b2 b3 b4 b5 b6 b7) ""))
  | (a7, a6, a5, a4, a3, a2) :: (a1, a0, b7, b6, b5, b4) :: (b3, b2, b1, b0, c7, c6) :: (c5, c4, c3, c2, c1, c0) :: l' =>
      match bytes_of l' with
      | Some s => Some (String (Ascii a0 a1 a2 a3 a4 a5 a6 a7) (String (Ascii b0 b1 b2 b3 b4 b5 b6 b7)
                    (String (Ascii c0 c1 c2 c3 c4 c5 c6 c7) s)))
      | None => None
      end
  end.

Definition string_of_list (l : list ascii) : string := foldr String "" l.
Fixpoint list_of_string (s : string) : list ascii :=
  match s with EmptyString => [] | String a s' => a :: list_of_string s' end.

Definition base64_encode (s : string) : string := string_of_list (encode6 <$> sextets s).

(** Line ends are skipped wherever they stand. *)
Definition is_line_end (a : ascii) : bool := Ascii.eqb a "010" || Ascii.eqb a "013".

Definition base64_decode (s : string) : option string :=
  match mapM decode6 (List.filter (λ a, negb (is_line_end a)) (list_of_string s)) with
  | Some l => bytes_of l
  | None => None
  end.

(** * strconv.ParseInt(s, 10, 64) and instants *)

Definition ParseInt (s : string) : option Z :=
  match s with
  | EmptyString => None
  | String "-" rest => match ParseUint rest 10 with Some n => if (n <=? 2 ^ 63)%Z then Some (- n)%Z else None | None => None end
  | String "+" rest => match ParseUint rest 10 with Some n => if (n <? 2 ^ 63)%Z then Some n else None | None => None end
  | _ => match ParseUint s 10 with Some n => if (n <? 2 ^ 63)%Z then Some n else None | None => None end
  end.

Definition wrap64 (x : Z) : Z := ((x + 2 ^ 63) mod 2 ^ 64 - 2 ^ 63)%Z.

(** Seconds from the first of January of year 1 to 1970. *)
Definition unixToInternal : Z := 62135596800.

(** [time.Unix(sec, 0).Before(now)]: seconds are kept from year 1 in 64 bits. *)
Definition unix_before (sec now : Z) : bool := (wrap64 (sec + unixToInternal) * Second <? now + unixToInternal * Second)%Z.

(** [t.Unix()] *)
Definition Unix (t : Z) : Z := (t / Second)%Z.

(** [path.Clean] of a rooted path: empty and "." elements go, ".." takes the element before it along. *)
Fixpoint clean_segments (kept segments : list string) : list string :=
  match segments with
  | [] => reverse kept
  | s :: rest =>
      if String.eqb s "" || String.eqb s "." then clean_segments kept rest
      else if String.eqb s ".." then clean_segments (tail kept) rest
      else clean_segments (s :: kept) rest
  end.

Definition Clean_rooted (p : string) : string := "/" +:+ Join (clean_segments [] (Split p "/")) "/".

(** * The check *)

Section csrf.
Variable hmac_sha256 : string → string → string.
(** [url.Parse(s)] followed by [.Path], without a value when parsing fails. *)
Variable parsed_path : string → option string.
(** The configuration: [CSRFSecret] and [CSRFTokenTTL]. *)
Variable CSRFSecret : string.
Variable CSRFTokenTTL : Z.

Definition newCSRFCookieValue (random : string) (expiresAt : Z) : string :=
  let payload := hex_encode random +:+ "." +:+ FormatInt (Unix expiresAt) in
  let signature := hex_encode (hmac_sha256 CSRFSecret payload) in
  base64_encode (payload +:+ "." +:+ signature).

Definition validCSRFCookie (now : Z) (value : string) : bool :=
  match base64_decode (TrimSpace value) with
  | None => false
  | Some raw =>
      match Split raw "." with
      | [p0; p1; p2] =>
          match ParseInt p1 with
          | None => false
          | Some expiresAtUnix =>
              if unix_before expiresAtUnix now then false
              else String.eqb p2 (hex_encode (hmac_sha256 CSRFSecret (p0 +:+ "." +:+ p1)))
          end
      | _ => false
      end
  end.

(** The token of the request and the cookie set on the response, if any.  [random] is what
    [rand.Read] returns, without a value when it fails. *)
Definition ensureCSRFCookie (now : Z) (random : option string) (r : Request) : string * option string :=
  match match RCookie (r_Header r) CSRFCookieName with
        | Some v => let token := TrimSpace v in if validCSRFCookie now token then Some token else None
        | None => None
        end with
  | Some token => (token, None)
  | None =>
      match random with
      | None => ("", None)
      | Some bytes => let token := newCSRFCookieValue bytes (now + CSRFTokenTTL)%Z in (token, Some token)
      end
  end.

Definition isSafeMethod (method : string) : bool :=
  String.eqb method "GET" || String.eqb method "HEAD" || String.eqb method "OPTIONS".

Definition normalizeNodeAuthPath (raw : string) : string :=
  let trimmed := TrimSpace raw in
  if String.eqb trimmed "" then "/"
  else
    let trimmed := match parsed_path trimmed with
                   | Some p => if String.eqb p "" then trimmed else p
                   | None => trimmed
                   end in
    Clean_rooted ("/" +:+ TrimPrefix trimmed "/").

(** The single group of [^/api/v1/nodes/([0-9]+)/(heartbeat|wg-bootstrap|tunnel-targets)$]. *)
Definition nodeAuthPathPattern (p : string) : option string :=
  match Split p "/" with
  | [e; a; v; n; id; verb] =>
      if String.eqb e "" && String.eqb a "api" && String.eqb v "v1" && String.eqb n "nodes"
         && non_empty id && string_all is_digit id
         && (String.eqb verb "heartbeat" || String.eqb verb "wg-bootstrap" || String.eqb verb "tunnel-targets")
      then Some id else None
  | _ => None
  end.

Definition isNodeAuthPath (p : string) : bool :=
  let normalized := normalizeNodeAuthPath p in
  if String.eqb normalized "/api/v1/nodes/enroll" then true
  else match nodeAuthPathPattern normalized with
       | Some id => match ParseUint id 10 with Some _ => true | None => false end
       | None => false
       end.

(** What [csrfMiddleware] does with a request: pass it on or answer 403, and the cookie it sets. *)
Definition csrfMiddleware (now : Z) (random : option string) (r : Request) : bool * option string :=
  if isNodeAuthPath (r_Path r) then (true, None)
  else if HasPrefix (TrimSpace (HGet (r_Header r) "Authorization")) "Bearer " then (true, None)
  else
    let '(token, set_cookie) := ensureCSRFCookie now random r in
    if isSafeMethod (r_Method r) then (true, set_cookie)
    else
      let headerToken := TrimSpace (HGet (r_Header r) "X-Csrf-Token") in
      if String.eqb headerToken "" || String.eqb token "" || negb (String.eqb headerToken token)
         || negb (validCSRFCookie now token)
      then (false, set_cookie) else (true, set_cookie).
End csrf.

(** * Lemmas *)

Lemma encode6_facts x : decode6 (encode6 x) = Some x ∧ is_line_end (encode6 x) = false ∧ is_space (encode6 x) = false.
Proof. destruct x as [[[[[[] []] []] []] []] []]; by vm_compute. Qed.

Lemma list_of_string_of_list l : list_of_string (string_of_list l) = l.
Proof. induction l as [|a l IH]; [done|]. cbn. by f_equal. Qed.

Lemma decode6_encoded l :
  mapM decode6 (List.filter (λ a, negb (is_line_end a)) (encode6 <$> l)) = Some l.
Proof.
  induction l as [|x l IH]; [done|]. rewrite fmap_cons. cbn [List.filter].
  destruct (encode6_facts x) as (Hd & He & _). rewrite He. cbn [negb]. simpl. by rewrite Hd, IH.
Qed.

(** Induction on the bytes of a string, three at a time. *)
Lemma triples_ind (P : string → Prop) :
  P "" → (∀ a, P (String a "")) → (∀ a b, P (String a (String b ""))) →
  (∀ a b c s, P s → P (String a (String b (String c s)))) → ∀ s, P s.
Proof.
  intros H0 H1 H2 H3.
  assert (∀ s, P s ∧ (∀ a, P (String a s)) ∧ (∀ a b, P (String a (String b s)))) as Hall; [|intros s; apply Hall].
  induction s as [|c s (IH0 & IH1 & IH2)]; [by auto|]. split_and!; auto.
Qed.

Lemma bytes_of_sextets s : bytes_of (sextets s) = Some s.
Proof.
  induction s as [|[]|[] []|[] [] [] s IH] using triples_ind; [done..|]. cbn [sextets bytes_of]. by rewrite IH.
Qed.

Lemma base64_roundtrip s : base64_decode (base64_encode s) = Some s.
Proof.
  unfold base64_decode, base64_encode. by rewrite list_of_string_of_list, decode6_encoded, bytes_of_sextets.
Qed.

Lemma base64_no_space s : string_all (λ a, negb (is_space a)) (base64_encode s) = true.
Proof.
  unfold base64_encode. induction (sextets s) as [|x l IH]; [done|].
  cbn [fmap list_fmap string_of_list foldr string_all]. destruct (encode6_facts x) as (_ & _ & Hs). rewrite Hs. exact IH.
Qed.

Lemma ParseInt_FormatInt n : (0 ≤ n < 2 ^ 63)%Z → ParseInt (FormatInt n) = Some n.
Proof.
  intros Hn. assert (FormatInt n = FormatUint (Z.to_N n)) as Hf.
  { unfold FormatInt, FormatUint. destruct n; [done|done|lia]. }
  pose proof (FormatUint_digits (Z.to_N n)) as Hd. rewrite Hf.
  assert (ParseUint (FormatUint (Z.to_N n)) 10 = Some n) as Hp.
  { rewrite ParseUint_FormatUint, Z2N.id by lia. done. }
  assert ((n <? 2 ^ 63)%Z = true) as Hlt by (apply Z.ltb_lt; lia).
  unfold ParseInt. destruct (FormatUint (Z.to_N n)) as [|a s] eqn:Hs; [by apply FormatUint_nonempty in Hs|].
  cbn in Hd. apply andb_true_iff in Hd as [Ha _].
  destruct a as [[] [] [] [] [] [] [] []]; try (vm_compute in Ha; discriminate Ha); rewrite Hp, Hlt; reflexivity.
Qed.

Lemma hex_no_dot s : ContainsByte (hex_encode s) "." = false.
Proof.
  induction s as [|c s IH]; [done|]. cbn [hex_encode ContainsByte]. rewrite IH.
  assert (∀ a : ascii, (Ascii.eqb (hex_digit (byte a / 16)) "." || Ascii.eqb (hex_digit (byte a mod 16)) ".") = false) as Hc.
  { intros [[] [] [] [] [] [] [] []]; by vm_compute. }
  specialize (Hc c). apply orb_false_iff in Hc as [-> ->]. done.
Qed.

Lemma FormatInt_no_dot n : ContainsByte (FormatInt n) "." = false.
Proof.
  apply negb_true_iff. rewrite <-string_all_ContainsByte. apply (string_all_impl number_byte); [|apply FormatInt_bytes].
  intros a Ha. destruct (Ascii.eqb_spec a "."); [subst; by vm_compute in Ha|done].
Qed.

Lemma unix_before_spec sec now :
  (0 ≤ sec < 2 ^ 63 - unixToInternal)%Z → unix_before sec now = (sec * Second <? now)%Z.
Proof.
  intros Hs. unfold unix_before, wrap64. rewrite Z.mod_small by (unfold unixToInternal in *; lia).
  apply eq_true_iff_eq. rewrite !Z.ltb_lt. lia.
Qed.

Section csrf_theorems.
Context (hmac_sha256 : string → string → string) (parsed_path : string → option string) (CSRFSecret : string) (CSRFTokenTTL : Z).

(** The parts of a value the server made. *)
Lemma split_payload random (n : Z) sig :
  Split ((hex_encode random +:+ "." +:+ FormatInt n) +:+ "." +:+ hex_encode sig) "." = [hex_encode random; FormatInt n; hex_encode sig].
Proof.
  assert ((hex_encode random +:+ "." +:+ FormatInt n) +:+ "." +:+ hex_encode sig
    = hex_encode random +:+ String "." (FormatInt n +:+ String "." (hex_encode sig))) as -> by (by rewrite string_app_assoc).
  rewrite !Split_app. by rewrite !Split_none by auto using hex_no_dot, FormatInt_no_dot.
Qed.

(** A CSRF cookie the server issued is accepted until the second it expires in, and not after it:
    the value survives its encodings for every random string, key and life time. *)
Theorem csrf_cookie_roundtrip random expiresAt now :
  (0 ≤ expiresAt < (2 ^ 63 - unixToInternal) * Second)%Z →
  validCSRFCookie hmac_sha256 CSRFSecret now (newCSRFCookieValue hmac_sha256 CSRFSecret random expiresAt)
  = (now <=? Unix expiresAt * Second)%Z.
Proof.
  intros He. assert (0 ≤ Unix expiresAt < 2 ^ 63 - unixToInternal)%Z as Hu.
  { unfold Unix. split; [apply Z.div_pos; unfold Second, Millisecond in *; lia|].
    apply Z.div_lt_upper_bound; unfold Second, Millisecond in *; lia. }
  unfold validCSRFCookie, newCSRFCookieValue. cbv zeta. rewrite TrimSpace_none by apply base64_no_space.
  rewrite base64_roundtrip, split_payload. rewrite ParseInt_FormatInt by (unfold unixToInternal in *; lia).
  rewrite unix_before_spec by done. rewrite String.eqb_refl. rewrite Z.leb_antisym. by destruct (_ <? _)%Z.
Qed.

(** The double-submit check: a request whose method may change state passes exactly when its path
    is one of a node agent, it authenticates with a bearer header, or its X-CSRF-Token header is a valid signed
    value that is also the value of its cookie, or of the cookie this very answer hands out. *)
Theorem csrf_check now random r :
  isSafeMethod (r_Method r) = false →
  let header := TrimSpace (HGet (r_Header r) "X-Csrf-Token") in
  (csrfMiddleware hmac_sha256 parsed_path CSRFSecret CSRFTokenTTL now random r).1 = true ↔
  isNodeAuthPath parsed_path (r_Path r) = true ∨
  HasPrefix (TrimSpace (HGet (r_Header r) "Authorization")) "Bearer " = true ∨
  header ≠ "" ∧ validCSRFCookie hmac_sha256 CSRFSecret now header = true ∧
    (TrimSpace <$> RCookie (r_Header r) CSRFCookieName = Some header ∨
     (∀ v, RCookie (r_Header r) CSRFCookieName = Some v → validCSRFCookie hmac_sha256 CSRFSecret now (TrimSpace v) = false) ∧
     ∃ bytes, random = Some bytes ∧ header = newCSRFCookieValue hmac_sha256 CSRFSecret bytes (now + CSRFTokenTTL)).
Proof.
  intros Hm. cbv zeta. set (header := TrimSpace (HGet _ "X-Csrf-Token")).
  unfold csrfMiddleware. destruct (isNodeAuthPath _ _) eqn:Hn; [by split; auto|].
  destruct (HasPrefix _ "Bearer ") eqn:Hb; [by split; auto|]. fold header.
  unfold ensureCSRFCookie. set (valid := validCSRFCookie hmac_sha256 CSRFSecret now).
  assert (∀ token, (String.eqb header "" || String.eqb token "" || negb (String.eqb header token) || negb (valid token)) = false
    ↔ header ≠ "" ∧ valid header = true ∧ header = token) as Hcond.
  { intros token. rewrite !orb_false_iff, !negb_false_iff, String.eqb_eq, !String.eqb_neq. split; [intros [[[? ?] ?] ?]|intros (? & ? & ?)]; subst; split_and!; congruence. }
  assert (∀ token (c : option string), (if isSafeMethod (r_Method r) then (true, c)
     else if String.eqb header "" || String.eqb token "" || negb (String.eqb header token) || negb (valid token)
          then (false, c) else (true, c)).1 = true ↔ header ≠ "" ∧ valid header = true ∧ header = token) as Hpass.
  { intros token c. rewrite Hm, <-Hcond. by destruct (_ || _). }
  destruct (RCookie _ CSRFCookieName) as [v|] eqn:Hc; [cbv zeta; fold valid; destruct (valid (TrimSpace v)) eqn:Hv|];
    [|destruct random as [bytes|]..]; cbv zeta; rewrite Hpass;
    cbn [fmap option_fmap option_map]; clear Hpass Hcond; fold valid.
  all: split; [intros (Hne & Hok & Htok); right; right; split_and!; [done..|]
              |intros [?|[?|(Hne & Hok & Hcase)]]; [discriminate..|]; split_and!; [done..|]].
  all: clearbody header valid; try destruct Hcase as [Heq|(Hbad & b & Heq & Hh)]; try discriminate; try congruence.
  - left. congruence.
  - by rewrite (Hbad v eq_refl) in Hv.
  - right. split; [intros v' [= <-]; exact Hv|by exists bytes].
  - right. split; [done|by exists bytes].
Qed.
End csrf_theorems.

(** * Witnesses *)

Definition sample_mac (key msg : string) : string := key +:+ "|" +:+ msg.

Definition csrf_request : Request :=
  let token := newCSRFCookieValue sample_mac "secret" "abc" (3600 * Second) in
  {| r_Method := "POST"; r_Host := "portlyn.example.com"; r_Path := "/api/v1/users"; r_RawPath := "";
     r_RequestURI := "/api/v1/users"; r_Token := ""; r_RemoteAddr := "192.0.2.1:9"; r_TLS := true; r_ClientCert := "";
     r_Header := list_to_map [("X-Csrf-Token", [token]); ("Cookie", ["portlyn_csrf=" +:+ token])] |}.

Lemma csrf_cookie_roundtrip_witness :
  validCSRFCookie sample_mac "secret" (10 * Second) (newCSRFCookieValue sample_mac "secret" "abc" (3600 * Second)) = true.
Proof.
  rewrite (csrf_cookie_roundtrip sample_mac "secret" "abc" (3600 * Second) (10 * Second)).
  - reflexivity.
  - vm_compute. split; [discriminate|reflexivity].
Defined.

Lemma csrf_check_witness :
  isSafeMethod (r_Method csrf_request) = false ∧
  (csrfMiddleware sample_mac (λ _, None) "secret" 60 (10 * Second) None csrf_request).1 = true.
Proof.
  split; [reflexivity|]. apply (csrf_check sample_mac (λ _, None) "secret" 60 (10 * Second) None csrf_request).
  - reflexivity.
  - right. right. split_and!; [vm_compute; discriminate|vm_compute; reflexivity|left; vm_compute; reflexivity].
Defined.
