(* ===== verification/ApiGuard.v ===== *)
(** The guards of the administration API: the middleware of internal/auth/middleware.go with the
    request context of internal/auth/context.go, composed over the route table of internal/http/
    server.go behind the CSRF check of Csrf.v.  The router of the chi package, which picks the entry of
    the table, and the handlers behind the guards are parameters. *)
From S2P Require Import Prelude GoStrings Domain Requests AuthStore AuthHistory AuthCache Tokens Sessions.
From S2P Require Import Login Csrf System.

#[local] Open Scope string_scope.
#[local] Open Scope list_scope.

(** * The request context *)

Record api_context := {
  cx_User : option User; cx_GroupIDs : option (list N); cx_Session : option Session; cx_APITokenAuth : bool }.

Definition no_context : api_context := {| cx_User := None; cx_GroupIDs := None; cx_Session := None; cx_APITokenAuth := false |}.

Definition ContextWithUser (c : api_context) (u : User) : api_context :=
  {| cx_User := Some u; cx_GroupIDs := cx_GroupIDs c; cx_Session := cx_Session c; cx_APITokenAuth := cx_APITokenAuth c |}.
Definition ContextWithGroupIDs (c : api_context) (g : list N) : api_context :=
  {| cx_User := cx_User c; cx_GroupIDs := Some g; cx_Session := cx_Session c; cx_APITokenAuth := cx_APITokenAuth c |}.
Definition ContextWithSession (c : api_context) (s : Session) : api_context :=
  {| cx_User := cx_User c; cx_GroupIDs := cx_GroupIDs c; cx_Session := Some s; cx_APITokenAuth := cx_APITokenAuth c |}.
Definition ContextWithAPITokenAuth (c : api_context) : api_context :=
  {| cx_User := cx_User c; cx_GroupIDs := cx_GroupIDs c; cx_Session := cx_Session c; cx_APITokenAuth := true |}.

(** An error answer of the guards, or what a handler answers. *)
Inductive api_reply (X : Type) : Type :=
| ApiError (status : Z) (code message : string)
| Answer (x : X).
Arguments ApiError {X} status code message.
Arguments Answer {X} x.

Definition handler (X : Type) : Type := Request → api_context → auth_state → api_reply X * auth_state.

(** * Middleware *)

Definition bootstrapAllowedPaths : list string :=
  ["/api/v1/me"; "/api/v1/me/account-setup"; "/api/v1/me/password"; "/api/v1/me/mfa"; "/api/v1/me/mfa/setup";
   "/api/v1/me/mfa/enable"; "/api/v1/me/mfa/recovery-codes"; "/api/v1/me/passkeys";
   "/api/v1/me/passkeys/begin-registration"; "/api/v1/me/passkeys/finish-registration";
   "/api/v1/me/bootstrap/dismiss"; "/api/v1/auth/logout"].

Definition bootstrapPathAllowed (path : string) : bool := existsb (String.eqb path) bootstrapAllowedPaths.

Section guards.
Context `{JWT} {X : Type}.
Variable hashToken : string → string.
Variable cfg : AuthConfig.

Definition RequireAuth (now : Z) (next : handler X) : handler X := λ r ctx st,
  match authenticate_request hashToken cfg now r st with
  | (Err _, st') => (ApiError 401 "unauthorized" "missing or invalid session", st')
  | (Ok (user, groupIDs, session), st') =>
      let ctx := ContextWithGroupIDs (ContextWithUser ctx user) groupIDs in
      let ctx := match session with Some s => ContextWithSession ctx s | None => ctx end in
      let ctx := if LooksLikeAPIToken (bearerTokenFromHeader (HGet (r_Header r) "Authorization"))
                 then ContextWithAPITokenAuth ctx else ctx in
      next r ctx st'
  end.

Definition RequireBootstrapComplete (next : handler X) : handler X := λ r ctx st,
  match cx_User ctx with
  | None => (ApiError 401 "unauthorized" "missing auth context", st)
  | Some user =>
      if cx_APITokenAuth ctx then next r ctx st
      else if bootstrap_access_allowed st user (cx_Session ctx) then next r ctx st
      else if bootstrapPathAllowed (r_Path r) then next r ctx st
      else (ApiError 403 "bootstrap_required" "complete account setup or enroll mfa before accessing this endpoint", st)
  end.

Definition RejectAPIToken (next : handler X) : handler X := λ r ctx st,
  if cx_APITokenAuth ctx then (ApiError 403 "api_token_not_allowed" "api tokens cannot access this endpoint", st)
  else next r ctx st.

Definition RequireRole (roles : list string) (next : handler X) : handler X := λ r ctx st,
  match cx_User ctx with
  | None => (ApiError 401 "unauthorized" "missing auth context", st)
  | Some user =>
      if negb (existsb (String.eqb (u_Role user)) roles) then (ApiError 403 "forbidden" "insufficient permissions", st)
      else next r ctx st
  end.
End guards.

(** * The route table *)

(** The nested groups of [Router]: no guard, signed-in users, signed-in users without API tokens, and administrators. *)
Inductive route_group := Public | SignedIn | Personal | Admin.

#[global] Instance route_group_eq_dec : EqDecision route_group.
Proof. solve_decision. Defined.

Record api_route := ApiRoute { ar_Method : string; ar_Pattern : string; ar_Group : route_group; ar_Handler : string }.

(** The routes below "/api/v1", in the order of the source. *)
Definition api_routes : list api_route :=
  [ApiRoute "POST" "/auth/login" Public "handleLogin";
   ApiRoute "POST" "/auth/break-glass/login" Public "handleBreakGlassLogin";
   ApiRoute "POST" "/auth/request-otp" Public "handleRequestOTP";
   ApiRoute "POST" "/auth/verify-otp" Public "handleVerifyOTP";
   ApiRoute "POST" "/auth/verify-mfa" Public "handleVerifyMFA";
   ApiRoute "POST" "/auth/passkey/begin-login" Public "handleBeginPasskeyLogin";
   ApiRoute "POST" "/auth/passkey/finish-login" Public "handleFinishPasskeyLogin";
   ApiRoute "POST" "/auth/refresh" Public "handleRefreshSession";
   ApiRoute "POST" "/auth/logout" Public "handleLogoutSession";
   ApiRoute "GET" "/auth/oidc/start" Public "handleOIDCStart";
   ApiRoute "GET" "/auth/oidc/callback" Public "handleOIDCCallback";
   ApiRoute "GET" "/auth/config" Public "handleAuthConfig";
   ApiRoute "POST" "/nodes/enroll" Public "handleEnrollNode";
   ApiRoute "POST" "/nodes/{id}/heartbeat" Public "handleHeartbeatNode";
   ApiRoute "POST" "/nodes/{id}/wg-bootstrap" Public "handleNodeSelfBootstrap";
   ApiRoute "GET" "/nodes/{id}/tunnel-targets" Public "handleNodeTunnelTargets";
   ApiRoute "GET" "/route-auth/service/{id}" Public "handleGetRouteAuthService";
   ApiRoute "POST" "/route-auth/pin" Public "handleRoutePIN";
   ApiRoute "POST" "/route-auth/request-email-code" Public "handleRouteRequestEmailCode";
   ApiRoute "POST" "/route-auth/verify-email-code" Public "handleRouteVerifyEmailCode";
   ApiRoute "GET" "/me" SignedIn "handleMe";
   ApiRoute "POST" "/me/account-setup" Personal "handleCompleteAccountSetup";
   ApiRoute "POST" "/me/password" Personal "handleChangeOwnPassword";
   ApiRoute "GET" "/me/mfa" Personal "handleGetMyMFAStatus";
   ApiRoute "POST" "/me/mfa/setup" Personal "handleBeginMyMFASetup";
   ApiRoute "POST" "/me/mfa/enable" Personal "handleEnableMyMFA";
   ApiRoute "POST" "/me/mfa/disable" Personal "handleDisableMyMFA";
   ApiRoute "POST" "/me/mfa/recovery-codes" Personal "handleRegenerateMyRecoveryCodes";
   ApiRoute "POST" "/me/bootstrap/dismiss" Personal "handleDismissBootstrap";
   ApiRoute "GET" "/sessions" Personal "handleListMySessions";
   ApiRoute "DELETE" "/sessions/{id}" Personal "handleRevokeMySession";
   ApiRoute "POST" "/sessions/revoke-all" Personal "handleRevokeAllMySessions";
   ApiRoute "POST" "/route-auth/session-bridge-token" Personal "handleCreateSessionBridgeToken";
   ApiRoute "GET" "/me/passkeys" Personal "handleListPasskeys";
   ApiRoute "POST" "/me/passkeys/begin-registration" Personal "handleBeginPasskeyRegistration";
   ApiRoute "POST" "/me/passkeys/finish-registration" Personal "handleFinishPasskeyRegistration";
   ApiRoute "DELETE" "/me/passkeys/{id}" Personal "handleDeletePasskey";
   ApiRoute "GET" "/services" SignedIn "handleListServices";
   ApiRoute "GET" "/nodes" Admin "handleListNodes";
   ApiRoute "GET" "/nodes/{id}" Admin "handleGetNode";
   ApiRoute "GET" "/domains" Admin "handleListDomains";
   ApiRoute "GET" "/domains/{id}" Admin "handleGetDomain";
   ApiRoute "GET" "/certificates" Admin "handleListCertificates";
   ApiRoute "GET" "/certificates/{id}" Admin "handleGetCertificate";
   ApiRoute "GET" "/dns-providers" Admin "handleListDNSProviders";
   ApiRoute "GET" "/dns-providers/{id}" Admin "handleGetDNSProvider";
   ApiRoute "GET" "/services/{id}" Admin "handleGetService";
   ApiRoute "GET" "/services/{id}/last-denials" Admin "handleListServiceDenials";
   ApiRoute "POST" "/services/{id}/explain" Admin "handleExplainServiceAccess";
   ApiRoute "GET" "/access-logs" Admin "handleListAccessLogs";
   ApiRoute "GET" "/audit-logs" Admin "handleListAuditLogs";
   ApiRoute "GET" "/audit-logs/verify" Admin "handleVerifyAuditChain";
   ApiRoute "GET" "/settings/auth" Admin "handleGetAuthSettings";
   ApiRoute "PATCH" "/settings/auth" Admin "handleUpdateAuthSettings";
   ApiRoute "POST" "/settings/auth/test-email" Admin "handleSendTestEmail";
   ApiRoute "GET" "/settings/network" Admin "handleGetNetworkSettings";
   ApiRoute "PATCH" "/settings/network" Admin "handleUpdateNetworkSettings";
   ApiRoute "GET" "/system/overview" Admin "handleSystemOverview";
   ApiRoute "GET" "/system/update" Admin "handleUpdateStatus";
   ApiRoute "GET" "/system/security-alerts" Admin "handleSecurityAlerts";
   ApiRoute "GET" "/security/rotation/status" Admin "handleRotationStatus";
   ApiRoute "POST" "/security/rotation/data-key/reencrypt" Admin "handleReencryptDataKey";
   ApiRoute "GET" "/api-tokens" Admin "handleListAPITokens";
   ApiRoute "POST" "/api-tokens" Admin "handleCreateAPIToken";
   ApiRoute "DELETE" "/api-tokens/{id}" Admin "handleRevokeAPIToken";
   ApiRoute "GET" "/users" Admin "handleListUsers";
   ApiRoute "GET" "/users/{id}" Admin "handleGetUser";
   ApiRoute "POST" "/users" Admin "handleCreateUser";
   ApiRoute "PATCH" "/users/{id}" Admin "handleUpdateUser";
   ApiRoute "DELETE" "/users/{id}" Admin "handleDeleteUser";
   ApiRoute "POST" "/users/{id}/mfa/reset" Admin "handleResetUserMFA";
   ApiRoute "GET" "/users/{id}/sessions" Admin "handleListUserSessions";
   ApiRoute "DELETE" "/users/{id}/sessions/{sessionId}" Admin "handleRevokeUserSession";
   ApiRoute "POST" "/users/{id}/sessions/revoke-all" Admin "handleRevokeAllUserSessions";
   ApiRoute "GET" "/groups" Admin "handleListGroups";
   ApiRoute "GET" "/groups/{id}" Admin "handleGetGroup";
   ApiRoute "POST" "/groups" Admin "handleCreateGroup";
   ApiRoute "PATCH" "/groups/{id}" Admin "handleUpdateGroup";
   ApiRoute "DELETE" "/groups/{id}" Admin "handleDeleteGroup";
   ApiRoute "POST" "/groups/{id}/members" Admin "handleAddGroupMember";
   ApiRoute "DELETE" "/groups/{id}/members/{userId}" Admin "handleDeleteGroupMember";
   ApiRoute "GET" "/service-groups" Admin "handleListServiceGroups";
   ApiRoute "GET" "/service-groups/{id}" Admin "handleGetServiceGroup";
   ApiRoute "POST" "/service-groups" Admin "handleCreateServiceGroup";
   ApiRoute "PATCH" "/service-groups/{id}" Admin "handleUpdateServiceGroup";
   ApiRoute "DELETE" "/service-groups/{id}" Admin "handleDeleteServiceGroup";
   ApiRoute "POST" "/service-groups/{id}/services" Admin "handleAddServiceGroupService";
   ApiRoute "DELETE" "/service-groups/{id}/services/{serviceId}" Admin "handleDeleteServiceGroupService";
   ApiRoute "POST" "/nodes" Admin "handleCreateNode";
   ApiRoute "PATCH" "/nodes/{id}" Admin "handleUpdateNode";
   ApiRoute "DELETE" "/nodes/{id}" Admin "handleDeleteNode";
   ApiRoute "POST" "/domains" Admin "handleCreateDomain";
   ApiRoute "PUT" "/domains" Admin "handleUpsertDomain";
   ApiRoute "PATCH" "/domains/{id}" Admin "handleUpdateDomain";
   ApiRoute "DELETE" "/domains/{id}" Admin "handleDeleteDomain";
   ApiRoute "POST" "/certificates" Admin "handleCreateCertificate";
   ApiRoute "PATCH" "/certificates/{id}" Admin "handleUpdateCertificate";
   ApiRoute "DELETE" "/certificates/{id}" Admin "handleDeleteCertificate";
   ApiRoute "POST" "/certificates/{id}/retry" Admin "handleRetryCertificate";
   ApiRoute "POST" "/certificates/{id}/renew" Admin "handleRenewCertificate";
   ApiRoute "POST" "/certificates/{id}/sync-status" Admin "handleSyncCertificateStatus";
   ApiRoute "POST" "/certificates/{id}/import-pem" Admin "handleImportCertificatePEM";
   ApiRoute "POST" "/dns-providers" Admin "handleCreateDNSProvider";
   ApiRoute "PATCH" "/dns-providers/{id}" Admin "handleUpdateDNSProvider";
   ApiRoute "DELETE" "/dns-providers/{id}" Admin "handleDeleteDNSProvider";
   ApiRoute "POST" "/dns-providers/{id}/test" Admin "handleTestDNSProvider";
   ApiRoute "POST" "/services" Admin "handleCreateService";
   ApiRoute "PUT" "/services" Admin "handleUpsertService";
   ApiRoute "PATCH" "/services/{id}" Admin "handleUpdateService";
   ApiRoute "DELETE" "/services/{id}" Admin "handleDeleteService";
   ApiRoute "GET" "/node-enrollment-tokens" Admin "handleListNodeEnrollmentTokens";
   ApiRoute "POST" "/node-enrollment-tokens" Admin "handleCreateNodeEnrollmentToken";
   ApiRoute "DELETE" "/node-enrollment-tokens/{id}" Admin "handleDeleteNodeEnrollmentToken";
   ApiRoute "GET" "/tunnel/settings" Admin "handleGetTunnelSettings";
   ApiRoute "PATCH" "/tunnel/settings" Admin "handleUpdateTunnelSettings";
   ApiRoute "DELETE" "/nodes/{id}/wg-tunnel" Admin "handleRevokeNodeTunnel";
   ApiRoute "GET" "/clients" Admin "handleListClients";
   ApiRoute "POST" "/clients" Admin "handleCreateClient";
   ApiRoute "POST" "/clients/{id}/rotate" Admin "handleRotateClient";
   ApiRoute "DELETE" "/clients/{id}" Admin "handleDeleteClient";
   ApiRoute "POST" "/services/{id}/magic-link" Admin "handleIssueMagicLink";
   ApiRoute "GET" "/audit-webhooks" Admin "handleListAuditWebhooks";
   ApiRoute "POST" "/audit-webhooks" Admin "handleCreateAuditWebhook";
   ApiRoute "PATCH" "/audit-webhooks/{id}" Admin "handleUpdateAuditWebhook";
   ApiRoute "DELETE" "/audit-webhooks/{id}" Admin "handleDeleteAuditWebhook";
   ApiRoute "POST" "/audit-webhooks/{id}/test" Admin "handleTestAuditWebhook";
   ApiRoute "POST" "/audit-webhooks/{id}/rotate-secret" Admin "handleRotateAuditWebhookSecret";
   ApiRoute "GET" "/exposure-reports" Admin "handleListExposureReports";
   ApiRoute "GET" "/exposure-reports/{id}" Admin "handleGetExposureReport";
   ApiRoute "POST" "/services/{id}/exposure-scan" Admin "handleRunExposureScan";
   ApiRoute "POST" "/services/{id}/redeploy" Admin "handleRedeployService"].

Section api.
Context `{JWT} {X : Type}.
Variable hashToken : string → string.
Variable cfg : AuthConfig.
Variable hmac_sha256 : string → string → string.
Variable parsed_path : string → option string.
Variable CSRFSecret : string.
Variable CSRFTokenTTL : Z.
(** The entry chi picks for a request, and the handler of that name. *)
Variable chi_route : Request → option api_route.
Variable handle : string → handler X.

Definition guarded (now : Z) (g : route_group) (h : handler X) : handler X :=
  match g with
  | Public => h
  | SignedIn => RequireAuth hashToken cfg now (RequireBootstrapComplete h)
  | Personal => RequireAuth hashToken cfg now (RequireBootstrapComplete (RejectAPIToken h))
  | Admin => RequireAuth hashToken cfg now (RequireBootstrapComplete (RequireRole [RoleAdmin] h))
  end.

(** A request to the API, with the random bytes the CSRF check may draw. *)
Definition api (now : Z) (random : option string) (r : Request) (st : auth_state) : api_reply X * auth_state :=
  if negb (csrfMiddleware hmac_sha256 parsed_path CSRFSecret CSRFTokenTTL now random r).1
  then (ApiError 403 "csrf_failed" "csrf validation failed", st)
  else match chi_route r with
       | None => (ApiError 404 "" "404 page not found", st)
       | Some e => guarded now (ar_Group e) (handle (ar_Handler e)) r no_context st
       end.
End api.

(** * Lemmas *)

Section lemmas.
Context `{JWT} {X : Type} (hashToken : string → string) (cfg : AuthConfig).

Lemma api_identity_backed now r st user groups sess st' :
  authenticate_request hashToken cfg now r st = (Ok (user, groups, sess), st') →
  ∃ token, presented r token ∧ ∀ hmac host, backed hmac hashToken cfg st now host token user.
Proof.
  unfold authenticate_request. cbv zeta. set (b := TrimSpace _). set (token := if non_empty b then b else _).
  destruct (non_empty token) eqn:Ht; [|done]. intros Ha. exists token. split.
  - split; [by apply non_empty_true|]. unfold token in *. destruct (non_empty b); [by left|]. right.
    destruct (RCookie _ _) as [v|]; [by eauto|done].
  - intros hmac host. cbn [negb] in Ha. destruct (LooksLikeAPIToken token); [by eapply api_token_backed|by eapply access_backed].
Qed.

(** The context a handler behind [RequireAuth] runs in. *)
Definition signed_in_context (r : Request) (user : User) (groups : list N) (sess : option Session) : api_context :=
  {| cx_User := Some user; cx_GroupIDs := Some groups; cx_Session := sess;
     cx_APITokenAuth := LooksLikeAPIToken (bearerTokenFromHeader (HGet (r_Header r) "Authorization")) |}.

Lemma RequireAuth_eq now (next : handler X) r st :
  RequireAuth hashToken cfg now next r no_context st =
  match authenticate_request hashToken cfg now r st with
  | (Err _, st') => (ApiError 401 "unauthorized" "missing or invalid session", st')
  | (Ok (user, groups, sess), st') => next r (signed_in_context r user groups sess) st'
  end.
Proof.
  unfold RequireAuth, signed_in_context. destruct (authenticate_request _ _ _ _ _) as [[[[user groups] [s|]]|e] st']; [| |done];
    by destruct (LooksLikeAPIToken _).
Qed.

(** The account is set up: no password is to be changed, and an administrator who needs a second factor has one or a passkey; or the
    password is to be changed and the session has put it off. *)
Definition set_up (st : auth_state) (user : User) (sess : option Session) : Prop :=
  let needs_factor := u_Role user = RoleAdmin ∧ ∃ s, settings st = Some s ∧ as_RequireMFAForAdmins s = true in
  (u_MustChangePassword user = false ∧ (u_MFAEnabled user = true ∨ u_ID user ∈ passkeys st ∨ ¬ needs_factor)) ∨
  (u_MustChangePassword user = true ∧ ∃ s, sess = Some s ∧ ss_BootstrapDismissed s = true).

Lemma bootstrap_set_up st user sess : bootstrap_access_allowed st user sess = true → set_up st user sess.
Proof.
  unfold bootstrap_access_allowed, set_up, BootstrapRequired, bootstrapDismissAllowed, MFARequiredForUser. cbv zeta.
  destruct (u_MustChangePassword user); cbn [negb].
  { destruct sess as [s|]; [|done]. rewrite andb_true_r. intros Hd. right. eauto. }
  destruct (u_MFAEnabled user); cbn [negb]; [by auto|]. destruct (String.eqb_spec (u_Role user) RoleAdmin) as [Hr|Hr]; cbn [negb andb]; [|left; tauto].
  destruct (settings st) as [conf|]; [|left; split; [done|]; right; right; intros [_ (? & ? & _)]; done].
  destruct (as_RequireMFAForAdmins conf) eqn:Hm; cbn [negb]; [|left; split; [done|]; right; right; intros [_ (x & [= <-] & ?)]; congruence].
  case_bool_decide; cbn [negb]; [by auto|]. destruct sess as [s|]; [|done]. by rewrite andb_false_r.
Qed.

(** What the guards of a group establish before the handler runs. *)
Record guards_passed (now : Z) (g : route_group) (r : Request) (st : auth_state) (user : User) (groups : list N)
    (sess : option Session) (st1 : auth_state) : Prop := {
  gp_identity : authenticate_request hashToken cfg now r st = (Ok (user, groups, sess), st1);
  gp_bootstrap : LooksLikeAPIToken (bearerTokenFromHeader (HGet (r_Header r) "Authorization")) = true ∨
    set_up st1 user sess ∨ r_Path r ∈ bootstrapAllowedPaths;
  gp_admin : g = Admin → u_Role user = RoleAdmin;
  gp_personal : g = Personal → LooksLikeAPIToken (bearerTokenFromHeader (HGet (r_Header r) "Authorization")) = false }.

Lemma guarded_facts now g (h : handler X) r st x st' :
  guarded hashToken cfg now g h r no_context st = (Answer x, st') → g ≠ Public →
  ∃ user groups sess st1, guards_passed now g r st user groups sess st1 ∧
    h r (signed_in_context r user groups sess) st1 = (Answer x, st').
Proof.
  intros Hg Hp.
  assert (∃ next, guarded hashToken cfg now g h = RequireAuth hashToken cfg now (RequireBootstrapComplete next) ∧
    next = match g with Personal => RejectAPIToken h | Admin => RequireRole [RoleAdmin] h | _ => h end) as (next & Heq & Hn)
    by (destruct g; [done|eauto..]).
  rewrite Heq, RequireAuth_eq in Hg. destruct (authenticate_request _ _ _ _ _) as [[[[user groups] sess]|e] st1] eqn:Ha; [|done].
  set (ctx := signed_in_context r user groups sess) in *. unfold RequireBootstrapComplete in Hg. cbn [cx_User ctx signed_in_context] in Hg.
  assert (next r ctx st1 = (Answer x, st') ∧ (cx_APITokenAuth ctx = true ∨ set_up st1 user sess ∨
    r_Path r ∈ bootstrapAllowedPaths)) as [Hrun Hb].
  { fold ctx in Hg. destruct (cx_APITokenAuth ctx) eqn:Ht; [by auto|]. cbn [cx_Session ctx signed_in_context] in Hg.
    destruct (bootstrap_access_allowed _ _ _) eqn:Hba; [by auto using bootstrap_set_up|]. destruct (bootstrapPathAllowed _) eqn:Hbp; [|done].
    split; [done|]. right. right. unfold bootstrapPathAllowed in Hbp. apply existsb_exists_elem in Hbp as (p & Hin & ->%String.eqb_eq). done. }
  exists user, groups, sess, st1. clear Hg Heq.
  destruct g; [done| | |]; subst next.
  - split; [split; [done..|discriminate|discriminate]|done].
  - unfold RejectAPIToken in Hrun. destruct (cx_APITokenAuth ctx) eqn:Ht in Hrun; [done|]. split; [|done].
    split; [done..|discriminate|intros _; exact Ht].
  - unfold RequireRole in Hrun. cbn [cx_User ctx signed_in_context existsb] in Hrun. rewrite orb_false_r in Hrun.
    destruct (String.eqb_spec (u_Role user) RoleAdmin); [|done]. split; [|done].
    split; [done..|discriminate].
Qed.
End lemmas.

(** What lets a request through the CSRF check: its method is safe, its path is one of the node agents' (a test of the path and of
    nothing else), it names its credential in the Authorization header, or its X-CSRF-Token header is a signed value that has not
    lapsed and that is the value of its own CSRF cookie, or, when it has no valid cookie, the value this very answer sets. *)
Definition csrf_cleared (hmac_sha256 : string → string → string) (parsed_path : string → option string) (secret : string) (ttl now : Z)
    (random : option string) (r : Request) : Prop :=
  r_Method r ∈ ["GET"; "HEAD"; "OPTIONS"] ∨ isNodeAuthPath parsed_path (r_Path r) = true ∨
  HasPrefix (TrimSpace (HGet (r_Header r) "Authorization")) "Bearer " = true ∨
  let header := TrimSpace (HGet (r_Header r) "X-Csrf-Token") in
  header ≠ "" ∧ validCSRFCookie hmac_sha256 secret now header = true ∧
  (TrimSpace <$> RCookie (r_Header r) "portlyn_csrf" = Some header ∨
   (∀ v, RCookie (r_Header r) "portlyn_csrf" = Some v → validCSRFCookie hmac_sha256 secret now (TrimSpace v) = false) ∧
   ∃ bytes, random = Some bytes ∧ header = newCSRFCookieValue hmac_sha256 secret bytes (now + ttl)).

Lemma csrf_passed hmac_sha256 parsed_path secret ttl now random r :
  (csrfMiddleware hmac_sha256 parsed_path secret ttl now random r).1 = true →
  csrf_cleared hmac_sha256 parsed_path secret ttl now random r.
Proof.
  intros Hc. destruct (isSafeMethod (r_Method r)) eqn:Hs.
  - left. unfold isSafeMethod in Hs. rewrite !orb_true_iff, !String.eqb_eq in Hs. set_solver.
  - by right; apply (csrf_check hmac_sha256 parsed_path secret ttl now random r Hs).
Qed.

Lemma bearer_trimmed header : TrimSpace (bearerTokenFromHeader header) = bearerTokenFromHeader header.
Proof. unfold bearerTokenFromHeader. cbv zeta. destruct (negb _); [done|]. apply TrimSpace_idem. Qed.

(** * Theorems *)

Section theorems.
Context `{JWT} {X : Type} (hashToken : string → string) (cfg : AuthConfig) (hmac_sha256 : string → string → string)
  (parsed_path : string → option string) (CSRFSecret : string) (CSRFTokenTTL : Z)
  (chi_route : Request → option api_route) (chi_table : ∀ r e, chi_route r = Some e → e ∈ api_routes)
  (handle : string → handler X).


(** [RejectAPIToken] looks at the Authorization header alone.  An API token sent in that header is
    turned away from the personal routes with 403; the same token sent as the session cookie, which
    [AuthenticateRequest] accepts as well, reaches their handlers as the user who created it. *)
Theorem api_token_as_cookie_not_rejected now (h : handler X) r token st user groups sess st1 :
  LooksLikeAPIToken token = true → authenticateAPIToken hashToken now token st = (Ok (user, groups, sess), st1) →
  bootstrap_access_allowed st1 user sess = true →
  (bearerTokenFromHeader (HGet (r_Header r) "Authorization") = token →
   guarded hashToken cfg now Personal h r no_context st
   = (ApiError 403 "api_token_not_allowed" "api tokens cannot access this endpoint", st1)) ∧
  (HGet (r_Header r) "Authorization" = "" → TrimSpace <$> RCookie (r_Header r) SessionCookieName = Some token →
   guarded hashToken cfg now Personal h r no_context st
   = h r {| cx_User := Some user; cx_GroupIDs := Some groups; cx_Session := sess; cx_APITokenAuth := false |} st1).
Proof.
  intros Hl Ha Hb. assert (non_empty token = true) as Hne by (by destruct token).
  split; [intros Ht|intros Hauth Hc]; cbn [guarded]; rewrite RequireAuth_eq.
  - assert (authenticate_request hashToken cfg now r st = (Ok (user, groups, sess), st1)) as ->.
    { unfold authenticate_request. rewrite bearer_trimmed, Ht. cbv zeta. rewrite Hne, Hne. cbn [negb]. by rewrite Hl. }
    unfold RequireBootstrapComplete, RejectAPIToken, signed_in_context. cbn [cx_User cx_APITokenAuth]. by rewrite Ht, Hl.
  - assert (authenticate_request hashToken cfg now r st = (Ok (user, groups, sess), st1)) as ->.
    { unfold authenticate_request. rewrite bearer_trimmed, Hauth. destruct (RCookie _ _) as [v|]; [|done]. injection Hc as Hc.
      change (bearerTokenFromHeader "") with "". change (non_empty "") with false. cbv zeta iota. rewrite Hc, Hne. cbn [negb]. by rewrite Hl. }
    unfold RequireBootstrapComplete, RejectAPIToken, signed_in_context. rewrite Hauth.
    cbn [cx_User cx_APITokenAuth cx_Session]. change (LooksLikeAPIToken (bearerTokenFromHeader "")) with false. cbv iota. by rewrite Hb.
Qed.
End theorems.

(** * Witnesses *)

Definition sample_api_token : APIToken :=
  {| at_ID := 1; at_Name := "ci"; at_Prefix := "plyn_ab"; at_TokenHash := sample_hash "plyn_ab_secret"; at_Role := RoleAdmin;
     at_CreatedByID := Some 7%N; at_LastUsedAt := None; at_ExpiresAt := None; at_RevokedAt := None |}.

Definition api_state : auth_state :=
  {| users := [system_user]; memberships := ∅; sessions := []; nextSession := 1;
     loginTokens := []; nextToken := 1; apiTokens := [sample_api_token]; authCache := ∅; userTokens := ∅;
     limiter := RateLimit.NewLocalLimiter 0; settings := None; passkeys := ∅ |}.

Definition api_request (method path : string) (headers : list (string * list string)) : Request :=
  {| r_Method := method; r_Host := "portlyn.example.com"; r_Path := path; r_RawPath := ""; r_RequestURI := path; r_Token := "";
     r_RemoteAddr := "192.0.2.1:9"; r_TLS := true; r_ClientCert := ""; r_Header := list_to_map headers |}.

(** The router for requests without path parameters. *)
Definition exact_route (r : Request) : option api_route :=
  List.find (λ e, String.eqb (ar_Method e) (r_Method r) && String.eqb ("/api/v1" +:+ ar_Pattern e) (r_Path r)) api_routes.

Definition whoami : handler (option User) := λ _ ctx st, (Answer (cx_User ctx), st).


Lemma api_token_as_cookie_not_rejected_witness :
  ∃ user, (guarded sample_hash sample_config 0 Personal whoami
             (api_request "POST" "/api/v1/me/passkeys/begin-registration" [("Cookie", ["portlyn_session=plyn_ab_secret"])])
             no_context api_state).1 = Answer (Some user) ∧ u_ID user = 7%N.
Proof.
  destruct (authenticateAPIToken sample_hash 0 "plyn_ab_secret" api_state) as [[[[user groups] sess]|e] st1] eqn:Ha;
    [|vm_compute in Ha; discriminate Ha].
  exists user. split.
  - rewrite (proj2 (api_token_as_cookie_not_rejected sample_hash sample_config 0 whoami _ "plyn_ab_secret" api_state user groups sess st1
                      eq_refl Ha ltac:(vm_compute in Ha; injection Ha as <- <- <- <-; reflexivity))).
    + reflexivity.
    + vm_compute. reflexivity.
    + vm_compute. reflexivity.
  - vm_compute in Ha. injection Ha as <- _ _ _. reflexivity.
Defined.
