(* ===== verification/UserAdmin.v ===== *)
(** Administration of accounts and API tokens (internal/http/users.go, internal/http/api_tokens.go,
    auth.GenerateAPIToken): creating, updating and deleting users under the rule that protects the last
    active administrator, and the life of an API token from its creation to its revocation.

    Requests arrive validated.  A handler that reads a row, decides and writes is split where another
    request may come between.  The identifier and, for boolean columns with a default, the stored value
    of an inserted row are given by the database layer ([id], [gorm_bool]). *)
From S2P Require Import Prelude GoStrings Utf8Json Domain AuditChain RateLimit Requests AuthStore AuthHistory.
From S2P Require Import AuthCache Tokens Sessions Login Csrf System ApiGuard.

#[local] Open Scope string_scope.
#[local] Open Scope list_scope.

Record createUserRequest := { cu_Email : string; cu_Password : string; cu_Role : string; cu_Active : option bool }.
Record updateUserRequest := {
  uu_Email : option string; uu_Password : option string; uu_Role : option string; uu_Active : option bool }.
Record createAPITokenRequest := { ct_Name : string; ct_Role : string; ct_ExpiresInDays : Z }.

Section accounts.
Variable bcrypt_Generate : string → option string.
(** The value gorm stores for a boolean of the struct when the column has the given default. *)
Variable gorm_bool : bool → bool → bool.

Definition internalError {X} : api_reply X := ApiError 500 "internal_error" "an internal error occurred".
Definition not_found {X} : api_reply X := ApiError 404 "not_found" "resource not found".

(** ** Users *)

Definition is_active_admin (u : User) : bool := String.eqb (u_Role u) RoleAdmin && u_Active u.

Definition CountActiveAdmins (st : auth_state) (exclude : N) : nat :=
  length (List.filter (λ u, is_active_admin u && negb (N.eqb (u_ID u) exclude)) (users st)).

(** Without a value when removing the account is refused. *)
Definition preventRemovingLastActiveAdmin (st : auth_state) (userID : N) (originalRole : string) (originalActive : bool)
    (nextRole : string) (nextActive : bool) : option unit :=
  if negb (String.eqb originalRole RoleAdmin) || negb originalActive then Some tt
  else if String.eqb nextRole RoleAdmin && nextActive then Some tt
  else if (CountActiveAdmins st userID =? 0)%nat then None
  else Some tt.

(** Columns with a unique index: the identifier and the address. *)
Definition users_Create (st : auth_state) (user : User) : result auth_error auth_state :=
  if existsb (λ u, N.eqb (u_ID u) (u_ID user) || String.eqb (u_Email u) (u_Email user)) (users st) then Err ErrConflict
  else Ok (with_users st (users st ++ [user])).

Definition users_Delete (st : auth_state) (id : N) : result auth_error auth_state :=
  if existsb (λ u, N.eqb (u_ID u) id) (users st) then Ok (with_users st (List.filter (λ u, negb (N.eqb (u_ID u) id)) (users st)))
  else Err ErrNotFound.

Definition handleCreateUser (st : auth_state) (id : N) (req : createUserRequest) : api_reply User * auth_state :=
  match users_GetByEmail st (cu_Email req) with
  | Ok _ => (ApiError 409 "email_in_use" "email is already in use", st)
  | Err _ =>
      match bcrypt_Generate (cu_Password req) with
      | None => (internalError, st)
      | Some hash =>
          let active := match cu_Active req with Some a => a | None => true end in
          let user :=
            {| u_ID := id; u_Email := ToLower (TrimSpace (cu_Email req)); u_PasswordHash := hash; u_Role := cu_Role req;
               u_Active := gorm_bool active true; u_MustChangePassword := gorm_bool true false; u_MFAEnabled := gorm_bool false false;
               u_MFASecret := ""; u_MFAPendingSecret := ""; u_MFARecoveryCodes := []; u_MFAPendingRecoveryCodes := [];
               u_MFALastTOTPCounter := 0; u_AuthProvider := AuthProviderLocal; u_AuthProviderRef := ""; u_AuthIssuer := "";
               u_DisplayName := ""; u_Username := ""; u_LastLoginAt := None |} in
          match users_Create st user with
          | Err _ => (internalError, st)
          | Ok st' => (Answer user, InvalidateUser st' (u_ID user))
          end
      end
  end.

(** The columns an update writes: those the request names. *)
Record user_columns := { uc_Email : option string; uc_Role : option string; uc_Active : option bool; uc_PasswordHash : option string }.

Definition write_columns (c : user_columns) (u : User) : User :=
  {| u_ID := u_ID u; u_Email := default (u_Email u) (uc_Email c);
     u_PasswordHash := default (u_PasswordHash u) (uc_PasswordHash c); u_Role := default (u_Role u) (uc_Role c);
     u_Active := default (u_Active u) (uc_Active c);
     u_MustChangePassword := match uc_PasswordHash c with Some _ => true | None => u_MustChangePassword u end;
     u_MFAEnabled := u_MFAEnabled u; u_MFASecret := u_MFASecret u; u_MFAPendingSecret := u_MFAPendingSecret u;
     u_MFARecoveryCodes := u_MFARecoveryCodes u; u_MFAPendingRecoveryCodes := u_MFAPendingRecoveryCodes u;
     u_MFALastTOTPCounter := u_MFALastTOTPCounter u; u_AuthProvider := u_AuthProvider u; u_AuthProviderRef := u_AuthProviderRef u;
     u_AuthIssuer := u_AuthIssuer u; u_DisplayName := u_DisplayName u; u_Username := u_Username u; u_LastLoginAt := u_LastLoginAt u |}.

(** [handleUpdateUser] up to the write: the row read and the columns to write. *)
Definition update_prepare (st : auth_state) (id : N) (req : updateUserRequest) : api_reply (User * user_columns) :=
  match users_GetByID st id with
  | Err _ => not_found
  | Ok user =>
      let email := (λ e, ToLower (TrimSpace e)) <$> uu_Email req in
      if match email with
         | Some e => match users_GetByEmail st e with Ok existing => negb (N.eqb (u_ID existing) (u_ID user)) | Err _ => false end
         | None => false
         end
      then ApiError 409 "email_in_use" "email is already in use"
      else
        match preventRemovingLastActiveAdmin st (u_ID user) (u_Role user) (u_Active user)
                (default (u_Role user) (uu_Role req)) (default (u_Active user) (uu_Active req)) with
        | None => ApiError 409 "last_admin_protected" "the last active admin cannot be removed, deactivated, or demoted"
        | Some _ =>
            match uu_Password req with
            | Some p =>
                if negb (non_empty (TrimSpace p))
                then Answer (user, {| uc_Email := email; uc_Role := uu_Role req; uc_Active := uu_Active req; uc_PasswordHash := None |})
                else match bcrypt_Generate p with
                     | None => internalError
                     | Some hash => Answer (user, {| uc_Email := email; uc_Role := uu_Role req; uc_Active := uu_Active req;
                                                     uc_PasswordHash := Some hash |})
                     end
            | None => Answer (user, {| uc_Email := email; uc_Role := uu_Role req; uc_Active := uu_Active req; uc_PasswordHash := None |})
            end
        end
  end.

(** The write: an update of no column is not sent. *)
Definition update_commit (st : auth_state) (plan : User * user_columns) : api_reply User * auth_state :=
  let '(user, c) := plan in
  let written :=
    match c with
    | {| uc_Email := None; uc_Role := None; uc_Active := None; uc_PasswordHash := None |} => Ok st
    | _ => users_UpdateFieldsIf st user None (write_columns c)
    end in
  match written with
  | Err _ => (internalError, st)
  | Ok st' => (Answer (write_columns c user), InvalidateUser st' (u_ID user))
  end.

Definition handleUpdateUser (st : auth_state) (id : N) (req : updateUserRequest) : api_reply User * auth_state :=
  match update_prepare st id req with
  | ApiError s c m => (ApiError s c m, st)
  | Answer plan => update_commit st plan
  end.

Definition handleDeleteUser (st : auth_state) (id : N) : api_reply unit * auth_state :=
  match users_GetByID st id with
  | Err _ => (not_found, st)
  | Ok user =>
      match preventRemovingLastActiveAdmin st (u_ID user) (u_Role user) (u_Active user) "" false with
      | None => (ApiError 409 "last_admin_protected" "the last active admin cannot be removed, deactivated, or demoted", st)
      | Some _ =>
          match users_Delete st (u_ID user) with
          | Err _ => (not_found, st)
          | Ok st' => (Answer tt, InvalidateUser st' (u_ID user))
          end
      end
  end.
End accounts.

(** ** API tokens *)

Section tokens.
Variable sha256 : string → string.

Definition HashAPIToken (token : string) : string := hex_encode (sha256 token).

(** From the bytes [rand.Read] gave. *)
Definition GenerateAPIToken (idBytes secretBytes : string) : string * string * string :=
  let prefix := apiTokenScheme +:+ "_" +:+ hex_encode idBytes in
  let token := prefix +:+ "_" +:+ base64_encode secretBytes in
  (prefix, token, HashAPIToken token).

(** A unique index on the prefix. *)
Definition apiTokens_Create (st : auth_state) (item : APIToken) : result auth_error auth_state :=
  if existsb (λ t, N.eqb (at_ID t) (at_ID item) || String.eqb (at_Prefix t) (at_Prefix item)) (apiTokens st) then Err ErrConflict
  else Ok (with_api_tokens st (apiTokens st ++ [item])).

Definition handleCreateAPIToken (now : Z) (random : option (string * string)) (id : N) (current : option User)
    (req : createAPITokenRequest) (st : auth_state) : api_reply (APIToken * string) * auth_state :=
  let role := TrimSpace (ct_Role req) in
  let role := if negb (non_empty role) then RoleViewer else role in
  match random with
  | None => (internalError, st)
  | Some (idBytes, secretBytes) =>
      let '(prefix, token, hash) := GenerateAPIToken idBytes secretBytes in
      let item :=
        {| at_ID := id; at_Name := TrimSpace (ct_Name req); at_Prefix := prefix; at_TokenHash := hash; at_Role := role;
           at_CreatedByID := u_ID <$> current; at_LastUsedAt := None;
           at_ExpiresAt := if (0 <? ct_ExpiresInDays req)%Z then Some (now + ct_ExpiresInDays req * 24 * Hour)%Z else None;
           at_RevokedAt := None |} in
      match apiTokens_Create st item with
      | Err _ => (internalError, st)
      | Ok st' => (Answer (item, token), st')
      end
  end.

Definition handleRevokeAPIToken (now : Z) (id : N) (st : auth_state) : api_reply unit * auth_state :=
  match apiTokens_Revoke st id now with
  | Err _ => (not_found, st)
  | Ok st' => (Answer tt, st')
  end.
End tokens.

(** * Lemmas *)

Definition active_admins (st : auth_state) : list User := List.filter is_active_admin (users st).

(** One operation of the API on the table of users. *)
Inductive user_op :=
| OpCreateUser (id : N) (req : createUserRequest)
| OpUpdateUser (id : N) (req : updateUserRequest)
| OpDeleteUser (id : N).

Section account_lemmas.
Context (bcrypt_Generate : string → option string) (gorm_bool : bool → bool → bool).

Definition user_apply (st : auth_state) (o : user_op) : auth_state :=
  match o with
  | OpCreateUser id req => (handleCreateUser bcrypt_Generate gorm_bool st id req).2
  | OpUpdateUser id req => (handleUpdateUser bcrypt_Generate st id req).2
  | OpDeleteUser id => (handleDeleteUser st id).2
  end.

(** An active administrator is left, and identifiers are unique. *)
Definition governed (st : auth_state) : Prop :=
  (∃ u, u ∈ users st ∧ is_active_admin u = true) ∧ NoDup (u_ID <$> users st).

Lemma GetByID_row st id u : users_GetByID st id = Ok u → u ∈ users st ∧ u_ID u = id.
Proof.
  unfold users_GetByID. destruct (List.find _ _) as [v|] eqn:Hf; [|done]. intros [= ->].
  apply find_some in Hf as [Hin Hid]. split; [by apply list_elem_of_In|by apply N.eqb_eq].
Qed.

Lemma same_id_same_row st u v : NoDup (u_ID <$> users st) → u ∈ users st → v ∈ users st → u_ID u = u_ID v → u = v.
Proof.
  intros Hnd [i Hi]%list_elem_of_lookup [j Hj]%list_elem_of_lookup Heq.
  assert (i = j) as ->; [|congruence]. eapply (NoDup_lookup _ i j (u_ID u)); [exact Hnd|..]; rewrite list_lookup_fmap.
  - by rewrite Hi.
  - by rewrite Hj, Heq.
Qed.

Lemma CountActiveAdmins_pos st id :
  CountActiveAdmins st id ≠ 0%nat → ∃ u, u ∈ users st ∧ is_active_admin u = true ∧ u_ID u ≠ id.
Proof.
  unfold CountActiveAdmins. destruct (List.filter _ _) as [|u l] eqn:Hf; [done|]. intros _.
  assert (In u (List.filter (λ u, is_active_admin u && negb (N.eqb (u_ID u) id)) (users st))) as Hin by (rewrite Hf; by left).
  apply filter_In in Hin as [Hu Hc]. destruct_bools. exists u. split; [by apply list_elem_of_In|]. split; [done|]. by apply N.eqb_neq.
Qed.

(** What the check leaves: the account was none, stays one, or is not the only one. *)
Lemma prevent_spec st id role active role' active' x :
  preventRemovingLastActiveAdmin st id role active role' active' = Some x →
  (String.eqb role RoleAdmin && active = false) ∨ (String.eqb role' RoleAdmin && active' = true) ∨
  ∃ u, u ∈ users st ∧ is_active_admin u = true ∧ u_ID u ≠ id.
Proof.
  unfold preventRemovingLastActiveAdmin. destruct (String.eqb role RoleAdmin), active; cbn; auto.
  destruct (String.eqb role' RoleAdmin && active'); [by auto|].
  destruct (Nat.eqb_spec (CountActiveAdmins st id) 0); [done|]. intros _. right. right. by apply CountActiveAdmins_pos.
Qed.

Lemma write_columns_admin c u :
  is_active_admin (write_columns c u) = String.eqb (default (u_Role u) (uc_Role c)) RoleAdmin && default (u_Active u) (uc_Active c).
Proof. done. Qed.

(** The plan of an update: the row read, and either it is no active administrator, stays one or is not the only one. *)
Lemma prepare_spec st id req user c :
  update_prepare bcrypt_Generate st id req = Answer (user, c) →
  user ∈ users st ∧ u_ID user = id ∧
  (is_active_admin user = false ∨ is_active_admin (write_columns c user) = true ∨
   ∃ u, u ∈ users st ∧ is_active_admin u = true ∧ u_ID u ≠ id).
Proof.
  unfold update_prepare. destruct (users_GetByID st id) as [row|] eqn:Hg; [|done]. apply GetByID_row in Hg as [Hin Hid].
  destruct (match (λ e, ToLower (TrimSpace e)) <$> uu_Email req with Some _ => _ | None => _ end); [done|].
  destruct (preventRemovingLastActiveAdmin _ _ _ _ _ _) eqn:Hp; [|done]. apply prevent_spec in Hp. intros Hans.
  assert (row = user ∧ uc_Role c = uu_Role req ∧ uc_Active c = uu_Active req) as (-> & Hr & Ha).
  { destruct (uu_Password req) as [p|]; [destruct (non_empty _); cbn [negb] in Hans; [destruct (bcrypt_Generate p); [|done]|]|];
      injection Hans as -> <-; by split_and!. }
  split_and!; [done..|]. rewrite write_columns_admin, Hr, Ha, <-Hid. unfold is_active_admin. by destruct Hp as [?|[?|?]]; auto.
Qed.

Lemma commit_user_rows st user c :
  users (update_commit st (user, c)).2 = users st ∨
  users (update_commit st (user, c)).2 = (λ row, if N.eqb (u_ID row) (u_ID user) then write_columns c row else row) <$> users st.
Proof.
  unfold update_commit. destruct (match c with {| uc_Email := _ |} => _ end) as [st'|] eqn:Hw; cbn [snd]; [|by left].
  change (users (InvalidateUser st' (u_ID user))) with (users st').
  assert (Ok st' = Ok (E:=auth_error) st ∨ users_UpdateFieldsIf st user None (write_columns c) = Ok st') as [[= ->]|Hu]
    by (destruct c as [[] [] [] []]; auto).
  - by left.
  - right. unfold users_UpdateFieldsIf in Hu. cbv zeta in Hu. cbn [update_where] in Hu. destruct (existsb _ _); [|done].
    injection Hu as <-. cbn [users with_users]. apply list_fmap_ext. intros i row _. by rewrite andb_true_r.
Qed.

Lemma create_governed st id req : governed st → governed (handleCreateUser bcrypt_Generate gorm_bool st id req).2.
Proof.
  intros [(w & Hw & Hadm) Hnd]. unfold handleCreateUser. destruct (users_GetByEmail _ _); [by split; eauto|].
  destruct (bcrypt_Generate _) as [hash|]; [|by split; eauto]. cbv zeta. set (user := {| u_ID := id |}).
  unfold users_Create. destruct (existsb _ _) eqn:He; [by split; eauto|]. split; cbn [snd].
  - exists w. split; [|done]. change (w ∈ users st ++ [user]). apply elem_of_app. by left.
  - change (NoDup (u_ID <$> (users st ++ [user]))). rewrite fmap_app. apply NoDup_app. split; [done|]. split; [|apply NoDup_singleton].
    intros x (v & -> & Hv)%list_elem_of_fmap Heq%list_elem_of_singleton. cbn in Heq.
    rewrite existsb_false_elem in He. specialize (He v Hv). cbn in He. rewrite Heq, N.eqb_refl in He. done.
Qed.

Lemma update_governed st id req : governed st → governed (handleUpdateUser bcrypt_Generate st id req).2.
Proof.
  intros Hgov. unfold handleUpdateUser. destruct (update_prepare _ _ _ _) as [s c m|[user c]] eqn:Hp; [done|].
  apply prepare_spec in Hp as (Hin & Hid & Hcase). destruct Hgov as [(w & Hw & Hadm) Hnd]. unfold governed.
  destruct (commit_user_rows st user c) as [->| ->]; [by split; eauto|]. split.
  - assert (∀ v, v ∈ users st → u_ID v ≠ id → is_active_admin v = true → ∃ u,
      u ∈ ((λ row, if N.eqb (u_ID row) (u_ID user) then write_columns c row else row) <$> users st) ∧ is_active_admin u = true) as Hother.
    { intros v Hv Hne Hva. exists v. split; [|done]. apply list_elem_of_fmap. exists v. split; [|done].
      by rewrite Hid, (proj2 (N.eqb_neq _ _) Hne). }
    destruct (decide (u_ID w = id)) as [Heq|]; [|by eauto].
    assert (w = user) as -> by (eapply same_id_same_row; [done..|congruence]).
    destruct Hcase as [Hno|[Hyes|(v & Hv & Hva & Hne)]]; [congruence| |by eauto].
    exists (write_columns c user). split; [|done]. apply list_elem_of_fmap. exists user. by rewrite N.eqb_refl.
  - rewrite <-list_fmap_compose. erewrite list_fmap_ext; [exact Hnd|]. intros i row _. cbn. by destruct (N.eqb _ _).
Qed.

Lemma delete_governed st id : governed st → governed (handleDeleteUser st id).2.
Proof.
  intros [(w & Hw & Hadm) Hnd]. unfold handleDeleteUser. destruct (users_GetByID st id) as [user|] eqn:Hg; [|by split; eauto].
  destruct (preventRemovingLastActiveAdmin _ _ _ _ _ _) eqn:Hp; [|by split; eauto]. apply GetByID_row in Hg as [Hin <-].
  unfold users_Delete. destruct (existsb _ _); [|by split; eauto]. apply prevent_spec in Hp. split; cbn [snd].
  - assert (∃ v, v ∈ users st ∧ is_active_admin v = true ∧ u_ID v ≠ u_ID user) as (v & Hv & Hva & Hne).
    { destruct (decide (u_ID w = u_ID user)) as [Heq|]; [|by eauto].
      assert (w = user) as -> by (by eapply same_id_same_row). destruct Hp as [Hno|[Hyes|Hother]]; [|done|done].
      unfold is_active_admin in Hadm. congruence. }
    exists v. split; [|done]. change (v ∈ List.filter (λ u, negb (N.eqb (u_ID u) (u_ID user))) (users st)).
    apply list_elem_of_In, filter_In. split; [by apply list_elem_of_In|]. by apply negb_true_iff, N.eqb_neq.
  - change (NoDup (u_ID <$> List.filter (λ u, negb (N.eqb (u_ID u) (u_ID user))) (users st))).
    clear -Hnd. induction (users st) as [|u l IH]; [done|]. rewrite fmap_cons in Hnd. apply NoDup_cons in Hnd as [Hn Hd]. cbn.
    destruct (negb _); [|by apply IH]. rewrite fmap_cons. apply NoDup_cons. split; [|by apply IH].
    intros (v & Hv & Hvin)%list_elem_of_fmap. apply Hn, list_elem_of_fmap. exists v. split; [done|].
    apply list_elem_of_In. by apply list_elem_of_In, filter_In in Hvin as [? _].
Qed.
End account_lemmas.

(** * Theorems *)

Section account_theorems.
Context (bcrypt_Generate : string → option string) (gorm_bool : bool → bool → bool).

(** C13 Whatever accounts are created, changed and deleted through the API, one request after the
    other, an active administrator is left, and no two accounts share an identifier. *)
Theorem last_admin_kept st ops : governed st → governed (foldl (user_apply bcrypt_Generate gorm_bool) st ops).
Proof.
  revert st. induction ops as [|[id req|id req|id] ops IH]; intros st Hst; [done|..]; cbn [foldl]; apply IH.
  - by apply create_governed.
  - by apply update_governed.
  - by apply delete_governed.
Qed.

Definition demote : updateUserRequest := {| uu_Email := None; uu_Password := None; uu_Role := Some RoleViewer; uu_Active := None |}.
Definition demoted : user_columns := {| uc_Email := None; uc_Role := Some RoleViewer; uc_Active := None; uc_PasswordHash := None |}.

Lemma prepare_demote st a v u :
  users_GetByID st a = Ok v → u ∈ users st → is_active_admin u = true → u_ID u ≠ a →
  update_prepare bcrypt_Generate st a demote = Answer (v, demoted).
Proof.
  intros Hv Hu Hadm Hne. pose proof (GetByID_row _ _ _ Hv) as [_ Hid].
  unfold update_prepare. rewrite Hv. cbn [demote uu_Email uu_Role uu_Active uu_Password fmap option_fmap option_map default].
  cbn [from_option]. unfold preventRemovingLastActiveAdmin.
  assert ((CountActiveAdmins st (u_ID v) =? 0)%nat = false) as ->.
  { apply Nat.eqb_neq. unfold CountActiveAdmins. intros Hlen%length_zero_iff_nil.
    assert (In u []) as []; rewrite <-Hlen. apply filter_In. split; [by apply list_elem_of_In|].
    rewrite Hadm. cbn. by rewrite Hid, (proj2 (N.eqb_neq _ _) Hne). }
  by destruct (_ || _).
Qed.

(** The check is not atomic with the write: two requests that each demote one of the last two
    administrators, and that both count before either writes, both succeed and leave none. *)
Theorem last_admin_race st a b va vb :
  users_GetByID st a = Ok va → users_GetByID st b = Ok vb → a ≠ b → is_active_admin va = true → is_active_admin vb = true →
  (∀ u, u ∈ users st → is_active_admin u = true → u_ID u = a ∨ u_ID u = b) →
  ∃ p q, update_prepare bcrypt_Generate st a demote = Answer p ∧ update_prepare bcrypt_Generate st b demote = Answer q ∧
    ∀ u, u ∈ users (update_commit (update_commit st p).2 q).2 → is_active_admin u = false.
Proof.
  intros Ha Hb Hne Hva Hvb Hall. pose proof (GetByID_row _ _ _ Ha) as [Hia Hida]. pose proof (GetByID_row _ _ _ Hb) as [Hib Hidb].
  exists (va, demoted), (vb, demoted).
  split; [by eapply (prepare_demote st a va vb); [..|congruence]|]. split; [by eapply (prepare_demote st b vb va); [..|congruence]|].
  assert (∀ st v, v ∈ users st → users (update_commit st (v, demoted)).2
     = (λ row, if N.eqb (u_ID row) (u_ID v) then write_columns demoted row else row) <$> users st) as Hcommit.
  { intros st0 v Hv. unfold update_commit, demoted, users_UpdateFieldsIf. cbv zeta. cbn [update_where].
    assert (existsb (λ row, N.eqb (u_ID row) (u_ID v) && true) (users st0) = true) as ->.
    { apply existsb_exists_elem. exists v. by rewrite N.eqb_refl. }
    cbn [snd]. change (users (InvalidateUser ?s ?i)) with (users s). cbn [users with_users].
    apply list_fmap_ext. intros i row _. by rewrite andb_true_r. }
  intros u. rewrite Hcommit, Hcommit by (rewrite ?Hcommit by done; try done; apply list_elem_of_fmap; exists vb;
    rewrite Hida, Hidb, (proj2 (N.eqb_neq b a)) by done; done).
  intros (w & -> & (x & -> & Hx)%list_elem_of_fmap)%list_elem_of_fmap. rewrite Hida, Hidb.
  assert (∀ y, is_active_admin (write_columns demoted y) = false) as Hw by done.
  destruct (N.eqb_spec (u_ID x) a) as [|Hxa]; [by destruct (N.eqb _ b)|].
  destruct (N.eqb_spec (u_ID x) b) as [|Hxb]; [done|].
  destruct (is_active_admin x) eqn:Hadm; [|done]. by destruct (Hall x Hx Hadm).
Qed.

(** gorm leaves a field with its zero value to the default of the column, and the column of the flag
    defaults to true; so an account that the administrator creates deactivated is stored active. *)
Theorem created_inactive_is_active st id req hash :
  (∀ d, gorm_bool false d = d) → cu_Active req = Some false → bcrypt_Generate (cu_Password req) = Some hash →
  users_GetByEmail st (cu_Email req) = Err ErrNotFound →
  (∀ u, u ∈ users st → u_ID u ≠ id ∧ u_Email u ≠ ToLower (TrimSpace (cu_Email req))) →
  ∃ user, (handleCreateUser bcrypt_Generate gorm_bool st id req).1 = Answer user ∧
    user ∈ users (handleCreateUser bcrypt_Generate gorm_bool st id req).2 ∧ u_Active user = true.
Proof.
  intros Hg Hact Hh He Hfresh. unfold handleCreateUser. rewrite He, Hh, Hact. cbv zeta. set (user := {| u_ID := id |}).
  unfold users_Create. assert (existsb (λ u, N.eqb (u_ID u) (u_ID user) || String.eqb (u_Email u) (u_Email user)) (users st) = false) as ->.
  { apply existsb_false_elem. intros u Hu. destruct (Hfresh u Hu) as [H1 H2]. cbn [user u_ID u_Email].
    apply orb_false_iff. split; [by apply N.eqb_neq|by apply String.eqb_neq]. }
  exists user. split; [done|]. split; [|apply Hg]. change (user ∈ users st ++ [user]). apply elem_of_app. right. by left.
Qed.
End account_theorems.

Lemma hex_charset s : string_all (λ a, negb (is_space a) && negb (Ascii.eqb a "_")) (hex_encode s) = true.
Proof.
  induction s as [|c s IH]; [done|]. cbn [hex_encode string_all]. rewrite IH.
  assert (∀ a : ascii, let ok d := negb (is_space d) && negb (Ascii.eqb d "_") in
    ok (hex_digit (byte a / 16)) && (ok (hex_digit (byte a mod 16)) && true) = true) as Hc.
  { intros [[] [] [] [] [] [] [] []]; by vm_compute. }
  exact (Hc c).
Qed.

Lemma hex_no_underscore s : ContainsByte (hex_encode s) "_" = false.
Proof.
  apply negb_true_iff. rewrite <-string_all_ContainsByte. eapply string_all_impl, hex_charset.
  intros a Ha. by apply andb_true_iff in Ha as [_ ?].
Qed.

Lemma hex_no_space s : string_all (λ a, negb (is_space a)) (hex_encode s) = true.
Proof. eapply string_all_impl, hex_charset. intros a Ha. by apply andb_true_iff in Ha as [? _]. Qed.

Lemma encoded_nonempty s : s ≠ "" → non_empty (hex_encode s) = true ∧ non_empty (base64_encode s) = true.
Proof.
  destruct s as [|[] s]; [done|]. intros _. split; [done|]. unfold base64_encode. cbn [sextets].
  destruct s as [|[] [|[] s]]; done.
Qed.

Section token_theorems.
Context (sha256 : string → string).

(** The prefix is read back from a generated token, and blanks around a header do not matter to it. *)
Lemma generated_prefix idBytes secretBytes prefix token hash :
  GenerateAPIToken sha256 idBytes secretBytes = (prefix, token, hash) → idBytes ≠ "" → secretBytes ≠ "" →
  apiTokenPrefix token = Some prefix ∧ hash = HashAPIToken sha256 token.
Proof.
  unfold GenerateAPIToken. cbv zeta. intros [[<- <-]%pair_eq <-]%pair_eq [Hid _]%encoded_nonempty [_ Hsec]%encoded_nonempty. split; [|done].
  set (tok := (apiTokenScheme +:+ "_" +:+ hex_encode idBytes) +:+ "_" +:+ base64_encode secretBytes).
  set (rest := hex_encode idBytes +:+ String "_" (base64_encode secretBytes)).
  assert (tok = apiTokenScheme +:+ String "_" rest) as -> by (unfold tok; by rewrite string_app_assoc).
  assert (string_all (λ a, negb (is_space a)) (apiTokenScheme +:+ String "_" rest) = true) as Hsp.
  { unfold rest. rewrite string_all_app. cbn [string_all]. rewrite string_all_app. cbn [string_all].
    by rewrite hex_no_space, base64_no_space. }
  unfold apiTokenPrefix. rewrite (TrimSpace_none _ Hsp).
  rewrite (proj2 (Cut_found _ _ apiTokenScheme rest)) by done.
  rewrite (proj2 (Cut_found rest _ (hex_encode idBytes) (base64_encode secretBytes))) by (split; [done|apply hex_no_underscore]).
  by rewrite Hid, Hsec.
Qed.

Lemma created_token now random id current req st item token st' :
  handleCreateAPIToken sha256 now random id current req st = (Answer (item, token), st') →
  (∃ idBytes secretBytes, random = Some (idBytes, secretBytes) ∧
     GenerateAPIToken sha256 idBytes secretBytes = (at_Prefix item, token, at_TokenHash item)) ∧
  at_RevokedAt item = None ∧ at_CreatedByID item = u_ID <$> current ∧
  at_Role item = (if negb (non_empty (TrimSpace (ct_Role req))) then RoleViewer else TrimSpace (ct_Role req)) ∧
  apiTokens st' = apiTokens st ++ [item] ∧
  ∀ t, t ∈ apiTokens st → at_Prefix t ≠ at_Prefix item.
Proof.
  unfold handleCreateAPIToken. cbv zeta. destruct random as [[idBytes secretBytes]|]; [|done].
  destruct (GenerateAPIToken sha256 idBytes secretBytes) as [[prefix tok] hash] eqn:Hgen.
  unfold apiTokens_Create. destruct (existsb _ _) eqn:He; [done|]. intros Heq. apply pair_eq in Heq as [Hans <-].
  apply (f_equal (λ x, match x with Answer y => y | _ => (item, token) end)) in Hans. apply pair_eq in Hans as [<- <-].
  split; [by exists idBytes, secretBytes|]. split_and!; [done..|]. intros t Ht Hp.
  rewrite existsb_false_elem in He. specialize (He t Ht). apply orb_false_iff in He as [_ He%String.eqb_neq]. done.
Qed.

Lemma find_created (rows : list APIToken) (item : APIToken) (f : APIToken → APIToken) :
  (∀ t, t ∈ rows → at_Prefix t ≠ at_Prefix item) → (∀ t, at_Prefix (f t) = at_Prefix t) →
  List.find (λ t, String.eqb (at_Prefix t) (at_Prefix item) && match at_RevokedAt t with None => true | Some _ => false end)
    (f <$> (rows ++ [item]))
  = match at_RevokedAt (f item) with None => Some (f item) | Some _ => None end.
Proof.
  intros Hrows Hf. induction rows as [|t rows IH]; cbn.
  - rewrite Hf, String.eqb_refl. by destruct (at_RevokedAt (f item)).
  - rewrite Hf, (proj2 (String.eqb_neq _ _)) by (apply Hrows; by left). cbn. apply IH. intros u Hu. apply Hrows. by right.
Qed.

(** The identity an API token stands for. *)
Definition token_user (rec : APIToken) : User :=
  {| u_ID := default 0%N (at_CreatedByID rec); u_Email := "api-token:" +:+ at_Name rec; u_PasswordHash := "";
     u_Role := if String.eqb (at_Role rec) RoleAdmin || String.eqb (at_Role rec) RoleViewer then at_Role rec else RoleViewer;
     u_Active := true; u_MustChangePassword := false; u_MFAEnabled := false; u_MFASecret := "";
     u_MFAPendingSecret := ""; u_MFARecoveryCodes := []; u_MFAPendingRecoveryCodes := []; u_MFALastTOTPCounter := 0;
     u_AuthProvider := ""; u_AuthProviderRef := ""; u_AuthIssuer := ""; u_DisplayName := ""; u_Username := "";
     u_LastLoginAt := None |}.

(** An API token works as long as it should: the token handed out by [handleCreateAPIToken]
    authenticates, until its expiry if it has one, as the user who created it with the role it was created
    with; from its expiry on it does not; and once revoked it does not at any time. *)
Theorem api_token_lifecycle now idBytes secretBytes id current req st item token st' :
  handleCreateAPIToken sha256 now (Some (idBytes, secretBytes)) id current req st = (Answer (item, token), st') →
  idBytes ≠ "" → secretBytes ≠ "" → ct_Role req ∈ [""; RoleAdmin; RoleViewer] →
  (∀ now', (∀ e, at_ExpiresAt item = Some e → (now' < e)%Z) →
     ∃ user st'', authenticateAPIToken (HashAPIToken sha256) now' token st' = (Ok (user, [], None), st'') ∧
       u_ID user = default 0%N (u_ID <$> current) ∧ u_Role user = at_Role item) ∧
  (∀ now' e, at_ExpiresAt item = Some e → (e ≤ now')%Z →
     (authenticateAPIToken (HashAPIToken sha256) now' token st').1 = Err ErrInvalidToken) ∧
  (∀ at_ now', (authenticateAPIToken (HashAPIToken sha256) now' token (handleRevokeAPIToken at_ (at_ID item) st').2).1 = Err ErrInvalidToken).
Proof.
  intros Hc Hid Hsec Hrole. apply created_token in Hc as ((? & ? & [= <- <-] & Hgen) & Hrev & Hby & Hr & Hrows & Huniq).
  apply generated_prefix in Hgen as [Hpre Hhash]; [|done..].
  assert (apiTokens_FindActiveByPrefix st' (at_Prefix item) = Ok item) as Hfind.
  { unfold apiTokens_FindActiveByPrefix. rewrite Hrows, <-(list_fmap_id (apiTokens st ++ [item])).
    rewrite (find_created _ _ (λ x, x)) by done. by rewrite Hrev. }
  assert (∀ now', authenticateAPIToken (HashAPIToken sha256) now' token st' =
    if match at_ExpiresAt item with None => true | Some e => (now' <? e)%Z end
    then (Ok (token_user item, [], None), apiTokens_TouchLastUsed st' (at_ID item) now') else (Err ErrInvalidToken, st')) as Hauth.
  { intros now'. unfold authenticateAPIToken, auth_bind, or_error, query, guard_auth, write, done_with, fail.
    rewrite Hpre, Hfind, Hhash, String.eqb_refl, Hrev. cbn [andb]. destruct (at_ExpiresAt item) as [e|]; [destruct (now' <? e)%Z|]; reflexivity. }
  split_and!.
  - intros now' He. rewrite Hauth. assert (match at_ExpiresAt item with None => true | Some e => (now' <? e)%Z end = true) as ->.
    { destruct (at_ExpiresAt item) as [e|]; [|done]. by apply Z.ltb_lt, He. }
    do 2 eexists. split; [done|]. split; [by rewrite <-Hby|].
    enough (at_Role item = RoleAdmin ∨ at_Role item = RoleViewer) as [Hx|Hx] by (cbn; by rewrite Hx).
    rewrite Hr. clear -Hrole. rewrite !elem_of_cons, elem_of_nil in Hrole.
    destruct Hrole as [-> |[-> |[-> |[]]]]; cbn; auto.
  - intros now' e He Hle. by rewrite Hauth, He, (proj2 (Z.ltb_ge _ _)).
  - intros at_ now'. unfold handleRevokeAPIToken, apiTokens_Revoke. cbv zeta. cbn [update_where].
    assert (existsb (λ t, N.eqb (at_ID t) (at_ID item) && match at_RevokedAt t with None => true | Some _ => false end) (apiTokens st') = true) as ->.
    { apply existsb_exists_elem. exists item. rewrite Hrows, N.eqb_refl, Hrev. split; [|done]. apply elem_of_app. right. by left. }
    cbn [snd]. unfold authenticateAPIToken, auth_bind, or_error, query, fail, apiTokens_FindActiveByPrefix. rewrite Hpre.
    cbn [apiTokens with_api_tokens]. rewrite Hrows, find_created; [|done|by intros t; destruct (_ && _)].
    by rewrite N.eqb_refl, Hrev.
Qed.
End token_theorems.

(** * Witnesses *)

Definition admin (id : N) (email : string) : User :=
  {| u_ID := id; u_Email := email; u_PasswordHash := ""; u_Role := RoleAdmin; u_Active := true;
     u_MustChangePassword := false; u_MFAEnabled := false; u_MFASecret := ""; u_MFAPendingSecret := "";
     u_MFARecoveryCodes := []; u_MFAPendingRecoveryCodes := []; u_MFALastTOTPCounter := 0; u_AuthProvider := "local";
     u_AuthProviderRef := ""; u_AuthIssuer := ""; u_DisplayName := ""; u_Username := ""; u_LastLoginAt := None |}.

Definition two_admins : auth_state := with_users api_state [admin 1 "a@example.com"; admin 2 "b@example.com"].

Definition sample_new_user : createUserRequest :=
  {| cu_Email := "c@example.com"; cu_Password := "password"; cu_Role := RoleViewer; cu_Active := Some false |}.

Lemma two_admins_governed : governed two_admins.
Proof.
  split.
  - exists (admin 1 "a@example.com"). split; [by left|done].
  - apply (bool_decide_unpack _). by vm_compute.
Qed.

Lemma last_admin_kept_witness :
  governed (foldl (user_apply (λ p, Some p) (λ v d, v || d)) two_admins [OpDeleteUser 1; OpUpdateUser 2 demote; OpDeleteUser 2]) ∧
  length (users (foldl (user_apply (λ p, Some p) (λ v d, v || d)) two_admins [OpDeleteUser 1; OpUpdateUser 2 demote; OpDeleteUser 2])) = 1%nat.
Proof.
  split; [|vm_compute; reflexivity].
  apply (last_admin_kept (λ p, Some p) (λ v d, v || d) two_admins [OpDeleteUser 1; OpUpdateUser 2 demote; OpDeleteUser 2]).
  exact two_admins_governed.
Defined.

Lemma last_admin_race_witness :
  ∃ p q, update_prepare (λ p, Some p) two_admins 1 demote = Answer p ∧ update_prepare (λ p, Some p) two_admins 2 demote = Answer q ∧
    ∀ u, u ∈ users (update_commit (update_commit two_admins p).2 q).2 → is_active_admin u = false.
Proof.
  apply (last_admin_race (λ p, Some p) two_admins 1 2 (admin 1 "a@example.com") (admin 2 "b@example.com")).
  - reflexivity.
  - reflexivity.
  - discriminate.
  - reflexivity.
  - reflexivity.
  - intros u Hu _. cbn in Hu. apply elem_of_cons in Hu as [-> |Hu]; [left; reflexivity|].
    apply list_elem_of_singleton in Hu as ->. right. reflexivity.
Defined.

Lemma created_inactive_is_active_witness :
  ∃ user, (handleCreateUser (λ p, Some p) (λ v d, v || d) two_admins 3 sample_new_user).1 = Answer user ∧
    user ∈ users (handleCreateUser (λ p, Some p) (λ v d, v || d) two_admins 3 sample_new_user).2 ∧ u_Active user = true.
Proof.
  apply (created_inactive_is_active (λ p, Some p) (λ v d, v || d) two_admins 3 sample_new_user "password").
  - reflexivity.
  - reflexivity.
  - reflexivity.
  - reflexivity.
  - intros u Hu. cbn in Hu. apply elem_of_cons in Hu as [-> |Hu]; [split; discriminate|].
    apply list_elem_of_singleton in Hu as ->. split; discriminate.
Defined.

Definition sample_token_request : createAPITokenRequest := {| ct_Name := "ci"; ct_Role := RoleAdmin; ct_ExpiresInDays := 30 |}.

Lemma api_token_lifecycle_witness :
  ∃ item token st', handleCreateAPIToken (λ s, s) 0 (Some ("abcd", "0123456789")) 2 (Some system_user) sample_token_request api_state
      = (Answer (item, token), st') ∧
    (authenticateAPIToken (HashAPIToken (λ s, s)) 0 token (handleRevokeAPIToken 0 (at_ID item) st').2).1 = Err ErrInvalidToken.
Proof.
  destruct (handleCreateAPIToken (λ s, s) 0 (Some ("abcd", "0123456789")) 2 (Some system_user) sample_token_request api_state)
    as [[s c m|[item token]] st'] eqn:Hc; [vm_compute in Hc; discriminate Hc|].
  exists item, token, st'. split; [reflexivity|].
  apply (api_token_lifecycle (λ s, s) 0 "abcd" "0123456789" 2 (Some system_user) sample_token_request api_state item token st' Hc).
  - discriminate.
  - discriminate.
  - right. left.
Defined.
