(* ===== verification/Groups.v ===== *)
(** User groups and their members (http/groups.go over store/group_store.go), and what the cache of identities (AuthCache.v) knows of
    them.

    An authentication that misses the cache reads the groups of the user and stores them a moment later; the handlers change
    a membership and then drop what is cached for the user. Both are steps here, so that they interleave: [in_flight] holds what
    authentications have read and not yet stored. Whether the database lets a group with members go is an input. *)
From S2P Require Import Prelude GoStrings Domain RateLimit AuthStore AuthCache Sessions ApiGuard UserAdmin.

#[local] Open Scope string_scope.
#[local] Open Scope list_scope.

Record Group := { grp_ID : N; grp_Name : string; grp_Description : string; grp_IsSystemGroup : bool }.

Record createGroupRequest := { cg_Name : string; cg_Description : string }.
Record updateGroupRequest := { ug_Name : option string; ug_Description : option string }.

(** An authentication between reading the groups and storing the result. *)
Record flight := { fl_key : string; fl_user : User; fl_groups : list N; fl_expires : option Z }.

Record group_state := { gs_auth : auth_state; gs_groups : list Group; gs_next : N; in_flight : list flight }.

Definition set_auth (st : group_state) (a : auth_state) : group_state :=
  {| gs_auth := a; gs_groups := gs_groups st; gs_next := gs_next st; in_flight := in_flight st |}.
Definition set_groups (st : group_state) (l : list Group) (next : N) : group_state :=
  {| gs_auth := gs_auth st; gs_groups := l; gs_next := next; in_flight := in_flight st |}.
Definition with_memberships (a : auth_state) (m : gmap N (list N)) : auth_state :=
  {| users := users a; memberships := m; sessions := sessions a; nextSession := nextSession a; loginTokens := loginTokens a;
     nextToken := nextToken a; apiTokens := apiTokens a; authCache := authCache a; userTokens := userTokens a; limiter := limiter a;
     settings := settings a; passkeys := passkeys a |}.

(** ** The tables *)

Definition groups_GetByID (st : group_state) (id : N) : option Group := List.find (λ g, N.eqb (grp_ID g) id) (gs_groups st).
Definition groups_Create (st : group_state) (name description : string) : option (Group * group_state) :=
  if existsb (λ g, String.eqb (grp_Name g) name) (gs_groups st) then None
  else
    let g := {| grp_ID := gs_next st; grp_Name := name; grp_Description := description; grp_IsSystemGroup := false |} in
    Some (g, set_groups st (gs_groups st ++ [g]) (gs_next st + 1)).
Definition groups_Update (st : group_state) (g : Group) : option group_state :=
  if existsb (λ x, String.eqb (grp_Name x) (grp_Name g) && negb (N.eqb (grp_ID x) (grp_ID g))) (gs_groups st) then None
  else Some (set_groups st (map (λ x, if N.eqb (grp_ID x) (grp_ID g) then g else x) (gs_groups st)) (gs_next st)).
Definition groups_Delete (st : group_state) (id : N) : group_state :=
  set_groups st (List.filter (λ g, negb (N.eqb (grp_ID g) id)) (gs_groups st)) (gs_next st).

(** [FirstOrCreate]. *)
Definition AddMember (a : auth_state) (groupID userID : N) : auth_state :=
  let ids := GetUserGroupIDs a userID in
  if existsb (N.eqb groupID) ids then a else with_memberships a (<[userID := ids ++ [groupID]]> (memberships a)).
Definition RemoveMember (a : auth_state) (groupID userID : N) : option auth_state :=
  let ids := GetUserGroupIDs a userID in
  if existsb (N.eqb groupID) ids then Some (with_memberships a (<[userID := List.filter (λ g, negb (N.eqb g groupID)) ids]> (memberships a)))
  else None.

(** ** The handlers *)

Definition handleCreateGroup (req : createGroupRequest) (st : group_state) : api_reply Group * group_state :=
  match groups_Create st (cg_Name req) (cg_Description req) with
  | None => (internalError, st)
  | Some (g, st) => (Answer g, set_auth st (InvalidateAll (gs_auth st)))
  end.

Definition handleUpdateGroup (id : N) (req : updateGroupRequest) (st : group_state) : api_reply Group * group_state :=
  match groups_GetByID st id with
  | None => (not_found, st)
  | Some item =>
      let item := {| grp_ID := grp_ID item; grp_Name := default (grp_Name item) (ug_Name req);
                     grp_Description := default (grp_Description item) (ug_Description req); grp_IsSystemGroup := grp_IsSystemGroup item |} in
      match groups_Update st item with
      | None => (internalError, st)
      | Some st => (Answer item, set_auth st (InvalidateAll (gs_auth st)))
      end
  end.

Definition handleDeleteGroup (deletable : bool) (id : N) (st : group_state) : api_reply unit * group_state :=
  match groups_GetByID st id with
  | None => (not_found, st)
  | Some item =>
      if grp_IsSystemGroup item then (ApiError 409 "system_group_protected" "system groups cannot be deleted", st)
      else if negb deletable then (internalError, st)
      else let st := groups_Delete st id in (Answer tt, set_auth st (InvalidateAll (gs_auth st)))
  end.

(** The answer is the group with its members. *)
Definition handleGetGroup (id : N) (st : group_state) : api_reply (Group * list User) :=
  match groups_GetByID st id with
  | None => not_found
  | Some g => Answer (g, List.filter (λ u, existsb (N.eqb id) (GetUserGroupIDs (gs_auth st) (u_ID u))) (users (gs_auth st)))
  end.

Definition handleAddGroupMember (groupID userID : N) (st : group_state) : api_reply (Group * list User) * group_state :=
  match users_GetByID (gs_auth st) userID with
  | Err _ => (not_found, st)
  | Ok _ => let st := set_auth st (InvalidateUser (AddMember (gs_auth st) groupID userID) userID) in (handleGetGroup groupID st, st)
  end.

Definition handleDeleteGroupMember (groupID userID : N) (st : group_state) : api_reply unit * group_state :=
  match RemoveMember (gs_auth st) groupID userID with
  | None => (not_found, st)
  | Some a => (Answer tt, set_auth st (InvalidateUser a userID))
  end.

(** * What the cache knows *)

Definition flying (userID : N) (st : group_state) : bool := existsb (λ f, N.eqb (u_ID (fl_user f)) userID) (in_flight st).
Definition fly (st : group_state) (l : list flight) : group_state :=
  {| gs_auth := gs_auth st; gs_groups := gs_groups st; gs_next := gs_next st; in_flight := l |}.

Section cache.
Variable cacheTTL : Z.
Variable by_expiry : list (string * cachedAuthResult) → list (string * cachedAuthResult).

(** The users of whom a membership changed while an authentication of theirs was in flight. *)
Definition raced_by (userID : N) (st : group_state) (raced : gset N) : gset N := if flying userID st then {[userID]} ∪ raced else raced.

Inductive group_step : group_state * gset N → group_state * gset N → Prop :=
  | step_read key user id expires st raced : users_GetByID (gs_auth st) id = Ok user →
      group_step (st, raced) (fly st ({| fl_key := key; fl_user := user; fl_groups := GetUserGroupIDs (gs_auth st) (u_ID user); fl_expires := expires |} :: in_flight st), raced)
  | step_keep now f before after st raced : in_flight st = before ++ f :: after →
      group_step (st, raced) (fly (set_auth st (storeCachedAuthResult cacheTTL (gs_auth st) now (fl_key f) (fl_user f) (fl_groups f) (fl_expires f))) (before ++ after), raced)
  | step_cache now op st raced : (∀ k u g e, op ≠ OpStore k u g e) →
      group_step (st, raced) (set_auth st (cache_step by_expiry cacheTTL (gs_auth st) (now, op)), raced)
  | step_create_group req st raced : group_step (st, raced) ((handleCreateGroup req st).2, raced)
  | step_update_group id req st raced : group_step (st, raced) ((handleUpdateGroup id req st).2, raced)
  | step_delete_group deletable id st raced : group_step (st, raced) ((handleDeleteGroup deletable id st).2, raced)
  | step_add g u st raced : group_step (st, raced) ((handleAddGroupMember g u st).2, raced_by u st raced)
  | step_remove g u st raced : group_step (st, raced) ((handleDeleteGroupMember g u st).2, raced_by u st raced).

Record groups_inv (st : group_state) (raced : gset N) : Prop := {
  gi_index : cache_inv (gs_auth st);
  gi_cache : ∀ key e, authCache (gs_auth st) !! key = Some e → u_ID (ca_user e) ∉ raced →
    ca_groupIDs e = GetUserGroupIDs (gs_auth st) (u_ID (ca_user e));
  gi_flight : ∀ f, f ∈ in_flight st → u_ID (fl_user f) ∉ raced → fl_groups f = GetUserGroupIDs (gs_auth st) (u_ID (fl_user f));
}.

Lemma drop_entries_memberships l a : memberships (foldl drop_entry a l) = memberships a.
Proof. revert a. induction l as [|kv l IH]; intros a; [done|]. cbn [foldl]. by rewrite IH. Qed.

Lemma cache_step_memberships a o : memberships (cache_step by_expiry cacheTTL a o) = memberships a.
Proof.
  destruct o as [t []]; cbn [cache_step fst snd]; [| |done|done|].
  - unfold getCachedAuthResult. by repeat case_match.
  - unfold storeCachedAuthResult. by repeat case_match.
  - unfold sweepAuthCache. cbv zeta. destruct (_ <=? _)%nat; by rewrite !drop_entries_memberships.
Qed.

Lemma groups_of_same a a' u : memberships a' = memberships a → GetUserGroupIDs a' u = GetUserGroupIDs a u.
Proof. intros Hm. unfold GetUserGroupIDs. by rewrite Hm. Qed.

(** A step of the cache that brings nothing new into it. *)
Lemma shrink_inv st a raced :
  groups_inv st raced → cache_inv a → memberships a = memberships (gs_auth st) →
  (∀ key e, authCache a !! key = Some e → authCache (gs_auth st) !! key = Some e) → groups_inv (set_auth st a) raced.
Proof.
  intros [_ Hc Hf] Hi Hm Hsub. split; cbn; [done| |].
  - intros key e He Hr. rewrite (groups_of_same _ _ _ Hm). by apply (Hc key e); [apply Hsub|].
  - intros f Hin Hr. rewrite (groups_of_same _ _ _ Hm). by apply Hf.
Qed.

Lemma groups_flush_inv st raced : groups_inv st raced → groups_inv (set_auth st (InvalidateAll (gs_auth st))) raced.
Proof. intros Hi. apply shrink_inv; [done| |done|]; intros k e He; cbn in He; by rewrite lookup_empty in He. Qed.

Lemma set_groups_inv st l next raced : groups_inv st raced → groups_inv (set_groups st l next) raced.
Proof. by intros []. Qed.

(** A membership of one user changes and the user's identities are dropped. *)
Lemma member_inv st m u raced :
  groups_inv st raced → (∀ v, v ≠ u → m !! v = memberships (gs_auth st) !! v) →
  groups_inv (set_auth st (InvalidateUser (with_memberships (gs_auth st) m) u)) (raced_by u st raced).
Proof.
  intros [Hi Hc Hf] Hm. set (a := with_memberships (gs_auth st) m). assert (cache_inv a) as Ha by exact Hi.
  assert (∀ v, v ≠ u → GetUserGroupIDs (InvalidateUser a u) v = GetUserGroupIDs (gs_auth st) v) as Hsame.
  { intros v Hv. unfold GetUserGroupIDs. cbn. by rewrite Hm. }
  assert (∀ v, v ∉ raced_by u st raced → v ∉ raced) as Hsub by (intros v; unfold raced_by; destruct (flying u st); set_solver).
  split.
  - by apply InvalidateUser_inv.
  - intros key e He Hr. pose proof (InvalidateUser_none _ _ _ _ Ha He) as Hne. rewrite Hsame by done. apply Hsub in Hr. apply (Hc key e); [|done].
    cbn in He. by apply map_lookup_filter_Some in He as [He _].
  - intros f Hin Hr. cbn in Hin. assert (u_ID (fl_user f) ≠ u) as Hne.
    { intros He. unfold raced_by, flying in Hr. rewrite (proj2 (existsb_exists_elem _ _)) in Hr; [set_solver|].
      exists f. split; [done|]. by apply N.eqb_eq. }
    cbn [set_auth gs_auth]. rewrite Hsame by done. apply Hf; auto.
Qed.

Lemma same_memberships_inv st u raced :
  groups_inv st raced → groups_inv (set_auth st (InvalidateUser (gs_auth st) u)) (raced_by u st raced).
Proof. intros Hi. apply (member_inv st (memberships (gs_auth st)) u) in Hi; [|done]. by destruct (gs_auth st). Qed.

Lemma raced_mono st raced raced' : raced ⊆ raced' → groups_inv st raced → groups_inv st raced'.
Proof. intros Hsub [Hi Hc Hf]. split; [done| |]; [intros key e He Hr; apply (Hc key e He); set_solver|intros f Hin Hr; apply Hf; [done|set_solver]]. Qed.

Lemma raced_by_mono u st raced : raced ⊆ raced_by u st raced.
Proof. unfold raced_by. destruct (flying u st); set_solver. Qed.

Lemma group_step_inv p p' : group_step p p' → groups_inv p.1 p.2 → groups_inv p'.1 p'.2.
Proof.
  intros [key user id expires st raced _|now f before after st raced Hf|now op st raced Hop|req st raced|id req st raced|deletable id st raced|g u st raced|g u st raced] Hi;
    cbn [fst snd] in *.
  - destruct Hi as [Hi Hc Hl]. split; [done|done|]. intros f [->|Hin]%elem_of_cons Hr; [done|by apply Hl].
  - destruct Hi as [Hi Hc Hl]. split; cbn [fly set_auth gs_auth in_flight].
    + by apply store_inv.
    + intros key e He Hr. assert (GetUserGroupIDs (storeCachedAuthResult cacheTTL (gs_auth st) now (fl_key f) (fl_user f) (fl_groups f) (fl_expires f)) (u_ID (ca_user e)) =
        GetUserGroupIDs (gs_auth st) (u_ID (ca_user e))) as -> by (apply groups_of_same; exact (cache_step_memberships (gs_auth st) (now, OpStore _ _ _ _))).
      destruct (cache_step_lookup by_expiry cacheTTL _ now (OpStore (fl_key f) (fl_user f) (fl_groups f) (fl_expires f)) key e Hi He) as [[He' _]|(exp & [= Hk Hu Hg _] & _)].
      * by apply (Hc key e).
      * rewrite <-Hu in *. rewrite <-Hg. apply Hl; [rewrite Hf; apply elem_of_app; right; by left|done].
    + intros f' Hin Hr. assert (GetUserGroupIDs (storeCachedAuthResult cacheTTL (gs_auth st) now (fl_key f) (fl_user f) (fl_groups f) (fl_expires f)) (u_ID (fl_user f')) =
        GetUserGroupIDs (gs_auth st) (u_ID (fl_user f'))) as -> by (apply groups_of_same; exact (cache_step_memberships (gs_auth st) (now, OpStore _ _ _ _))).
      apply Hl; [|done]. rewrite Hf. apply elem_of_app in Hin as [?|?]; apply elem_of_app; [by left|right; by right].
  - apply shrink_inv; [done|by apply cache_step_inv, Hi|apply cache_step_memberships|].
    intros key e He. destruct (cache_step_lookup by_expiry cacheTTL _ _ _ key e (gi_index _ _ Hi) He) as [[? _]|(exp & -> & _)]; [done|]. by destruct (Hop key (ca_user e) (ca_groupIDs e) exp).
  - unfold handleCreateGroup, groups_Create. destruct (existsb _ _); [done|]. apply (groups_flush_inv (set_groups _ _ _)), set_groups_inv; done.
  - unfold handleUpdateGroup. destruct (groups_GetByID st id); [|done]. unfold groups_Update. cbv zeta. destruct (existsb _ _); [done|].
    apply (groups_flush_inv (set_groups _ _ _)), set_groups_inv; done.
  - unfold handleDeleteGroup. destruct (groups_GetByID st id) as [item|]; [|done]. destruct (grp_IsSystemGroup item); [done|]. destruct (negb deletable); [done|].
    apply (groups_flush_inv (set_groups _ _ _)), set_groups_inv; done.
  - unfold handleAddGroupMember. destruct (users_GetByID _ _); [|apply (raced_mono _ raced); [apply raced_by_mono|done]]. cbn [snd].
    unfold AddMember. cbv zeta. destruct (existsb _ _); [by apply same_memberships_inv|]. apply member_inv; [done|]. intros v Hv. by apply lookup_insert_ne.
  - unfold handleDeleteGroupMember, RemoveMember. cbv zeta. destruct (existsb _ _); [|apply (raced_mono _ raced); [apply raced_by_mono|done]].
    apply member_inv; [done|]. intros v Hv. by apply lookup_insert_ne.
Qed.

(** Whatever handlers, authentications and sweeps interleave, an identity the cache answers has the groups the user is in now, unless a
    membership of the user changed while an authentication of the user was between reading the groups and storing them. *)
Theorem cached_groups_current a groups next st raced now key user ids a' :
  authCache a = ∅ →
  rtc group_step ({| gs_auth := a; gs_groups := groups; gs_next := next; in_flight := [] |}, ∅) (st, raced) → u_ID user ∉ raced →
  getCachedAuthResult cacheTTL (gs_auth st) now key = (Some (user, ids), a') → ids = GetUserGroupIDs (gs_auth st) (u_ID user).
Proof.
  intros Ha Hsteps Hr Hg. assert (groups_inv (st, raced).1 (st, raced).2) as [_ Hc _].
  { revert Hsteps. generalize (st, raced). apply rtc_ind_r; [|intros ? ? _ Hs Hi; by eapply group_step_inv].
    split; cbn; [|intros key' e He; by rewrite Ha, lookup_empty in He|intros f Hf; by apply elem_of_nil in Hf].
    intros key' e He. by rewrite Ha, lookup_empty in He. }
  cbn [fst snd] in *. unfold getCachedAuthResult in Hg. destruct (cacheTTL <=? 0)%Z; [done|].
  destruct (authCache (gs_auth st) !! key) as [e|] eqn:He; [|done]. destruct (ca_expiresAt e <? now)%Z; [done|]. injection Hg as <- <- _. by apply (Hc key e).
Qed.
End cache.

(** * Histories *)

Definition group_start : group_state :=
  {| gs_auth := empty_auth; gs_groups := [{| grp_ID := 3; grp_Name := "ops"; grp_Description := ""; grp_IsSystemGroup := false |}]; gs_next := 4; in_flight := [] |}.
Definition read_groups (key : string) (st : group_state) : group_state :=
  fly st ({| fl_key := key; fl_user := cached_user; fl_groups := GetUserGroupIDs (gs_auth st) (u_ID cached_user); fl_expires := None |} :: in_flight st).
Definition keep_groups (now : Z) (st : group_state) : group_state :=
  match in_flight st with
  | f :: rest => fly (set_auth st (storeCachedAuthResult 30 (gs_auth st) now (fl_key f) (fl_user f) (fl_groups f) (fl_expires f))) rest
  | [] => st
  end.

Definition member_added : group_state := (handleAddGroupMember 3 7 group_start).2.
Definition identity_kept : group_state := keep_groups 0 (read_groups "k" member_added).

Lemma cached_groups_current_witness :
  ∃ a', getCachedAuthResult 30 (gs_auth identity_kept) 1 "k" = (Some (cached_user, [3%N]), a') ∧
    [3%N] = GetUserGroupIDs (gs_auth identity_kept) (u_ID cached_user).
Proof.
  destruct (getCachedAuthResult 30 (gs_auth identity_kept) 1 "k") as [r a'] eqn:Hg.
  assert (r = Some (cached_user, [3%N])) as -> by (apply (f_equal fst) in Hg; vm_compute in Hg; vm_compute; congruence).
  exists a'. split; [reflexivity|].
  apply (cached_groups_current 30 (λ l, l) empty_auth (gs_groups group_start) 4 identity_kept ∅ 1 "k" cached_user [3%N] a'); [reflexivity| |apply not_elem_of_empty|exact Hg].
  eapply rtc_l; [apply (step_add _ _ 3 7)|]. eapply rtc_l; [apply (step_read _ _ "k" cached_user 7 None); vm_compute; reflexivity|].
  eapply rtc_l; [eapply (step_keep _ _ 0 _ [] []); reflexivity|]. apply rtc_refl.
Defined.

(** A member who is removed between the two halves of an authentication keeps the group in the cache, after the handler has answered. *)
Theorem removed_member_kept :
  let st := keep_groups 0 (handleDeleteGroupMember 3 7 (read_groups "k" member_added)).2 in
  (handleDeleteGroupMember 3 7 (read_groups "k" member_added)).1 = Answer tt ∧ GetUserGroupIDs (gs_auth st) 7 = [] ∧
  (getCachedAuthResult 30 (gs_auth st) 29 "k").1 = Some (cached_user, [3%N]).
Proof. vm_compute. split_and!; reflexivity. Qed.
