(* ===== verification/Nodes.v ===== *)
(** Enrollment and heartbeats of node agents (internal/http/node_enrollment.go, node_security.go, the
    heartbeat of nodes.go, internal/clientcert, and the tables of store/node_store.go and store/
    node_enrollment_token_store.go).

    Requests arrive decoded and validated.  The handler of an enrollment looks the token up and claims it
    in a later transaction; the two are separate definitions, so that other requests can come between.
    Loads and bandwidths are numbers that are only copied. *)
From S2P Require Import Prelude GoStrings Utf8Json Netip Domain AuditChain RateLimit Requests Handler.
From S2P Require Import AuthStore System ApiGuard UserAdmin.

#[local] Open Scope string_scope.
#[local] Open Scope list_scope.

(** * Data *)

Record NodeEnrollmentToken := {
  et_ID : N; et_Name : string; et_Description : string; et_TokenHash : string; et_ExpiresAt : option Z;
  et_SingleUse : bool; et_Active : bool; et_UsedAt : option Z }.

(** The columns of [Node] (Domain.v has those of the tunnel). *)
Record NodeRow := {
  nr_ID : N; nr_Name : string; nr_Description : string; nr_EnrollmentTokenID : option N; nr_HeartbeatAuthMode : string;
  nr_HeartbeatEndpoint : string; nr_HeartbeatVersion : string; nr_LastHeartbeatIP : string; nr_LastHeartbeatCode : Z;
  nr_LastHeartbeatError : string; nr_HeartbeatFailedAt : option Z; nr_LastSeenAt : option Z; nr_LastHeartbeatAt : option Z;
  nr_Version : string; nr_Status : string; nr_Load : Z; nr_BandwidthInKbps : Z; nr_BandwidthOutKbps : Z;
  nr_HeartbeatTokenHash : string; nr_MTLSCertSHA256 : string; nr_WGPublicKey : string; nr_WGTunnelIP : string;
  nr_WGLastHandshake : option Z; nr_WGRxBytes : Z; nr_WGTxBytes : Z; nr_AdvertisedSubnets : string; nr_TunnelStatus : string }.

Record createNodeEnrollmentTokenRequest := {
  ce_Name : string; ce_Description : string; ce_TTLSeconds : option Z; ce_SingleUse : option bool }.
Record enrollNodeRequest := { en_Token : string; en_Name : string; en_Description : string; en_Version : string }.
Record heartbeatNodeRequest := {
  hb_Version : option string; hb_Status : option string; hb_Load : option Z; hb_BandwidthInKbps : option Z;
  hb_BandwidthOutKbps : option Z; hb_WGLastHandshake : option Z; hb_WGRxBytes : option Z; hb_WGTxBytes : option Z;
  hb_TunnelStatus : option string }.

(** The settings of config.Config the handlers read. *)
Record NodeConfig := {
  NodeRequireHTTPS : bool; AllowInsecureDevMode : bool; NodeTrustForwardedProto : bool; TrustedProxyCIDRs : list string;
  NodeEnrollRateLimit : Z; NodeEnrollRateWindow : Z; NodeHeartbeatAuthFailRateLimit : Z; NodeHeartbeatAuthFailRateWindow : Z;
  NodeAllowMTLSHeaderFallback : bool; SessionBridgeSecret : string; NodeOfflineAfter : Z }.

(** The two tables, whose identifiers are sequences, and the limiter, if one is configured. *)
Record node_state := {
  enrollmentTokens : list NodeEnrollmentToken; nextEnrollmentToken : N; nodes : list NodeRow; nextNode : N;
  nodeRateLimiter : option LocalLimiter }.

Definition with_enrollment (st : node_state) (l : list NodeEnrollmentToken) (next : N) : node_state :=
  {| enrollmentTokens := l; nextEnrollmentToken := next; nodes := nodes st; nextNode := nextNode st; nodeRateLimiter := nodeRateLimiter st |}.
Definition with_nodes (st : node_state) (l : list NodeRow) (next : N) : node_state :=
  {| enrollmentTokens := enrollmentTokens st; nextEnrollmentToken := nextEnrollmentToken st; nodes := l; nextNode := next;
     nodeRateLimiter := nodeRateLimiter st |}.
Definition with_node_limiter (st : node_state) (l : LocalLimiter) : node_state :=
  {| enrollmentTokens := enrollmentTokens st; nextEnrollmentToken := nextEnrollmentToken st; nodes := nodes st; nextNode := nextNode st;
     nodeRateLimiter := Some l |}.

(** * Tables *)

Definition enrollmentTokens_GetActiveByHash (st : node_state) (hash : string) (now : Z) : option NodeEnrollmentToken :=
  match List.find (λ t, String.eqb (et_TokenHash t) hash && et_Active t
                        && match et_ExpiresAt t with None => true | Some e => (now <? e)%Z end) (enrollmentTokens st) with
  | None => None
  | Some t => if et_SingleUse t && match et_UsedAt t with Some _ => true | None => false end then None else Some t
  end.

Definition enrollmentTokens_Delete (st : node_state) (id : N) : option node_state :=
  if existsb (λ t, N.eqb (et_ID t) id) (enrollmentTokens st)
  then Some (with_enrollment st (List.filter (λ t, negb (N.eqb (et_ID t) id)) (enrollmentTokens st)) (nextEnrollmentToken st))
  else None.

Definition claimable (id : N) (t : NodeEnrollmentToken) : bool :=
  N.eqb (et_ID t) id && et_Active t && match et_UsedAt t with None => true | Some _ => false end.

Definition claim (usedAt : Z) (t : NodeEnrollmentToken) : NodeEnrollmentToken :=
  {| et_ID := et_ID t; et_Name := et_Name t; et_Description := et_Description t; et_TokenHash := et_TokenHash t;
     et_ExpiresAt := et_ExpiresAt t; et_SingleUse := et_SingleUse t; et_Active := false; et_UsedAt := Some usedAt |}.

(** The transaction of [EnrollWithToken]: without a value when the token was claimed before (the
    transaction is rolled back).  [node] is given with the identifier of the inserted row. *)
Definition EnrollWithToken (st : node_state) (node : N → NodeRow) (tokenID : N) (singleUse : bool) (usedAt : Z) : option (NodeRow * node_state) :=
  let id := nextNode st in
  let insert st := Some (node id, with_nodes st (nodes st ++ [node id]) (id + 1)) in
  if singleUse then
    let '(rows, _) := update_where (claimable tokenID) (claim usedAt) (enrollmentTokens st) in
    if (length (List.filter (claimable tokenID) (enrollmentTokens st)) =? 1)%nat
    then insert (with_enrollment st rows (nextEnrollmentToken st))
    else None
  else insert st.

Definition nodes_GetByID (st : node_state) (id : N) : option NodeRow := List.find (λ n, N.eqb (nr_ID n) id) (nodes st).

Definition nodes_Delete (st : node_state) (id : N) : option node_state :=
  if existsb (λ n, N.eqb (nr_ID n) id) (nodes st)
  then Some (with_nodes st (List.filter (λ n, negb (N.eqb (nr_ID n) id)) (nodes st)) (nextNode st))
  else None.

Definition heartbeat_failure (ip : string) (code : Z) (reason : string) (at_ : Z) (n : NodeRow) : NodeRow :=
  {| nr_ID := nr_ID n; nr_Name := nr_Name n; nr_Description := nr_Description n; nr_EnrollmentTokenID := nr_EnrollmentTokenID n;
     nr_HeartbeatAuthMode := nr_HeartbeatAuthMode n; nr_HeartbeatEndpoint := nr_HeartbeatEndpoint n;
     nr_HeartbeatVersion := nr_HeartbeatVersion n; nr_LastHeartbeatIP := ip; nr_LastHeartbeatCode := code;
     nr_LastHeartbeatError := reason; nr_HeartbeatFailedAt := Some at_; nr_LastSeenAt := nr_LastSeenAt n;
     nr_LastHeartbeatAt := nr_LastHeartbeatAt n; nr_Version := nr_Version n; nr_Status := nr_Status n; nr_Load := nr_Load n;
     nr_BandwidthInKbps := nr_BandwidthInKbps n; nr_BandwidthOutKbps := nr_BandwidthOutKbps n;
     nr_HeartbeatTokenHash := nr_HeartbeatTokenHash n; nr_MTLSCertSHA256 := nr_MTLSCertSHA256 n; nr_WGPublicKey := nr_WGPublicKey n;
     nr_WGTunnelIP := nr_WGTunnelIP n; nr_WGLastHandshake := nr_WGLastHandshake n; nr_WGRxBytes := nr_WGRxBytes n;
     nr_WGTxBytes := nr_WGTxBytes n; nr_AdvertisedSubnets := nr_AdvertisedSubnets n; nr_TunnelStatus := nr_TunnelStatus n |}.

Definition RecordHeartbeatFailure (st : node_state) (id : N) (ip : string) (code : Z) (reason : string) (at_ : Z) : node_state :=
  with_nodes st (update_where (λ n, N.eqb (nr_ID n) id) (heartbeat_failure ip code reason at_) (nodes st)).1 (nextNode st).

(** The columns [UpdateHeartbeat] copies from the struct [node]. *)
Definition heartbeat_columns (node n : NodeRow) : NodeRow :=
  {| nr_ID := nr_ID n; nr_Name := nr_Name n; nr_Description := nr_Description n; nr_EnrollmentTokenID := nr_EnrollmentTokenID n;
     nr_HeartbeatAuthMode := nr_HeartbeatAuthMode n; nr_HeartbeatEndpoint := nr_HeartbeatEndpoint n;
     nr_HeartbeatVersion := nr_HeartbeatVersion node; nr_LastHeartbeatIP := nr_LastHeartbeatIP node;
     nr_LastHeartbeatCode := nr_LastHeartbeatCode node; nr_LastHeartbeatError := nr_LastHeartbeatError node;
     nr_HeartbeatFailedAt := nr_HeartbeatFailedAt node; nr_LastSeenAt := nr_LastSeenAt node;
     nr_LastHeartbeatAt := nr_LastHeartbeatAt node; nr_Version := nr_Version node; nr_Status := nr_Status node;
     nr_Load := nr_Load node; nr_BandwidthInKbps := nr_BandwidthInKbps node; nr_BandwidthOutKbps := nr_BandwidthOutKbps node;
     nr_HeartbeatTokenHash := nr_HeartbeatTokenHash n; nr_MTLSCertSHA256 := nr_MTLSCertSHA256 n; nr_WGPublicKey := nr_WGPublicKey n;
     nr_WGTunnelIP := nr_WGTunnelIP n; nr_WGLastHandshake := nr_WGLastHandshake node; nr_WGRxBytes := nr_WGRxBytes node;
     nr_WGTxBytes := nr_WGTxBytes node; nr_AdvertisedSubnets := nr_AdvertisedSubnets n; nr_TunnelStatus := nr_TunnelStatus node |}.

Definition UpdateHeartbeat (st : node_state) (node : NodeRow) : option node_state :=
  let '(rows, found) := update_where (λ n, N.eqb (nr_ID n) (nr_ID node)) (heartbeat_columns node) (nodes st) in
  if found then Some (with_nodes st rows (nextNode st)) else None.

(** * Credentials of a node *)

Section nodes.
Variable sha256 : string → string.
Variable hmac_sha256 : string → string → string.
Variable gorm_bool : bool → bool → bool.
Variable cfg : NodeConfig.

Definition hashOpaqueToken (value : string) : string := hex_encode (sha256 value).

Definition Sign (secret fingerprint : string) : string :=
  hex_encode (hmac_sha256 secret ("portlyn-client-cert-sha256:" +:+ ToLower (TrimSpace fingerprint))).

Definition Verify (secret fingerprint signature : string) : bool :=
  let fingerprint := TrimSpace fingerprint in
  let signature := ToLower (TrimSpace signature) in
  if negb (non_empty (TrimSpace secret)) || negb (non_empty fingerprint) || negb (non_empty signature) then false
  else String.eqb (Sign secret fingerprint) signature.

Definition verifyNodeMTLS (r : Request) (expectedFingerprint : string) (allowHeaderFallback : bool) (headerSecret : string) : bool :=
  let expected := ToLower (TrimSpace expectedFingerprint) in
  if negb (non_empty expected) then false
  else if r_TLS r && non_empty (r_ClientCert r) then String.eqb expected (r_ClientCert r)
  else if negb allowHeaderFallback then false
  else
    let forwarded := ToLower (TrimSpace (HGet (r_Header r) FingerprintHeader)) in
    if negb (non_empty forwarded) || negb (String.eqb forwarded expected) then false
    else match remoteAddrFromRequest r with
         | Some addr => if IsLoopback (Unmap addr) then Verify headerSecret forwarded (HGet (r_Header r) SignatureHeader) else true
         | None => Verify headerSecret forwarded (HGet (r_Header r) SignatureHeader)
         end.

Definition authorizeNodeHeartbeat (r : Request) (node : NodeRow) : bool :=
  if EqualFold (TrimSpace (nr_HeartbeatAuthMode node)) "mtls" then
    let headerFallback := NodeAllowMTLSHeaderFallback cfg && NodeTrustForwardedProto cfg && requestFromTrustedProxy (TrustedProxyCIDRs cfg) r in
    verifyNodeMTLS r (nr_MTLSCertSHA256 node) headerFallback (SessionBridgeSecret cfg)
  else
    let authHeader := TrimSpace (HGet (r_Header r) "Authorization") in
    if HasPrefix authHeader "Bearer " then
      let token := TrimSpace (TrimPrefix authHeader "Bearer ") in
      non_empty token && non_empty (nr_HeartbeatTokenHash node) && String.eqb (nr_HeartbeatTokenHash node) (hashOpaqueToken token)
    else false.

(** * Transport and rate *)

Definition forwardedProtoHeader (r : Request) : string :=
  let value := TrimSpace (HGet (r_Header r) "X-Forwarded-Proto") in
  if String.eqb value "" then "" else ToLower (TrimSpace (default "" (head (Split value ",")))).

Definition nodeTransportSecure (r : Request) : bool :=
  if r_TLS r then true
  else if negb (NodeTrustForwardedProto cfg) || negb (requestFromTrustedProxy (TrustedProxyCIDRs cfg) r) then false
  else EqualFold (forwardedProtoHeader r) "https".

Definition requireNodeSecureTransport (r : Request) : bool :=
  if negb (NodeRequireHTTPS cfg) || AllowInsecureDevMode cfg then true else nodeTransportSecure r.

Definition nodeRateLimitClientKey (r : Request) (trustForwarded : bool) : string :=
  match (if trustForwarded then clientIPFromForwardedChain (HGet (r_Header r) "X-Forwarded-For") (TrustedProxyCIDRs cfg) else None) with
  | Some addr => AddrString addr
  | None =>
      match SplitHostPort (TrimSpace (r_RemoteAddr r)) with
      | Some (host, _) => if non_empty host then host else TrimSpace (r_RemoteAddr r)
      | None => TrimSpace (r_RemoteAddr r)
      end
  end.

Definition enforceNodeRateLimit (now : Z) (r : Request) (bucket : string) (limit window : Z) (st : node_state) : bool * node_state :=
  match nodeRateLimiter st with
  | None => (true, st)
  | Some l =>
      if (limit <=? 0)%Z || (window <=? 0)%Z then (true, st)
      else
        let key := bucket +:+ ":" +:+ nodeRateLimitClientKey r (NodeTrustForwardedProto cfg && requestFromTrustedProxy (TrustedProxyCIDRs cfg) r) in
        let '(res, l') := Allow l now key limit window in (allowed res, with_node_limiter st l')
  end.

Definition nodeHeartbeatRateLimit : Z := 60.
Definition nodeHeartbeatRateWindow : Z := Minute.

(** * Handlers *)

(** The token is [rand.Read]'s bytes in upper-case hex. *)
Definition randomEnrollmentToken (bytes : string) : string := ToUpper (hex_encode bytes).

Definition handleCreateNodeEnrollmentToken (now : Z) (random : option string) (req : createNodeEnrollmentTokenRequest) (st : node_state)
  : api_reply (NodeEnrollmentToken * string) * node_state :=
  match random with
  | None => (internalError, st)
  | Some bytes =>
      let plainToken := randomEnrollmentToken bytes in
      let singleUse := match ce_SingleUse req with Some b => b | None => true end in
      let item :=
        {| et_ID := nextEnrollmentToken st; et_Name := TrimSpace (ce_Name req); et_Description := TrimSpace (ce_Description req);
           et_TokenHash := hashOpaqueToken plainToken;
           et_ExpiresAt := match ce_TTLSeconds req with Some ttl => if (0 <? ttl)%Z then Some (now + ttl * Second)%Z else None | None => None end;
           et_SingleUse := gorm_bool singleUse true; et_Active := gorm_bool true true; et_UsedAt := None |} in
      if existsb (λ t, String.eqb (et_TokenHash t) (et_TokenHash item)) (enrollmentTokens st) then (internalError, st)
      else (Answer (item, plainToken), with_enrollment st (enrollmentTokens st ++ [item]) (nextEnrollmentToken st + 1))
  end.

Definition handleDeleteNodeEnrollmentToken (id : N) (st : node_state) : api_reply unit * node_state :=
  match enrollmentTokens_Delete st id with Some st' => (Answer tt, st') | None => (not_found, st) end.

Definition heartbeat_path (id : N) : string := "/api/v1/nodes/" +:+ FormatUint id +:+ "/heartbeat".

(** [handleEnrollNode] up to the transaction.  [tunnel] is the answer of [ServerReady]: without a
    value when there is no tunnel manager, false for incomplete settings. *)
Definition enroll_lookup (now : Z) (r : Request) (req : enrollNodeRequest) (tunnel : option bool) (st : node_state)
  : api_reply NodeEnrollmentToken * node_state :=
  if negb (requireNodeSecureTransport r) then (ApiError 426 "insecure_transport" "node endpoints require https transport", st)
  else
    let '(ok, st) := enforceNodeRateLimit now r "node_enroll" (NodeEnrollRateLimit cfg) (NodeEnrollRateWindow cfg) st in
    if negb ok then (ApiError 429 "rate_limited" "too many requests", st)
    else match enrollmentTokens_GetActiveByHash st (hashOpaqueToken (en_Token req)) now with
         | None => (ApiError 401 "invalid_enrollment_token" "invalid or expired enrollment token", st)
         | Some token =>
             match tunnel with
             | Some false => (ApiError 412 "tunnel_not_configured"
                 "enable the tunnel in settings before enrolling nodes; the enrollment token was not used", st)
             | _ => (Answer token, st)
             end
         end.

Definition enrolled_node (now : Z) (r : Request) (req : enrollNodeRequest) (token : NodeEnrollmentToken) (heartbeatToken : string) (id : N) : NodeRow :=
  {| nr_ID := id; nr_Name := TrimSpace (en_Name req); nr_Description := TrimSpace (en_Description req);
     nr_EnrollmentTokenID := Some (et_ID token); nr_HeartbeatAuthMode := "token"; nr_HeartbeatEndpoint := heartbeat_path id;
     nr_HeartbeatVersion := TrimSpace (en_Version req); nr_LastHeartbeatIP := clientIPForRequest (TrustedProxyCIDRs cfg) r;
     nr_LastHeartbeatCode := 201; nr_LastHeartbeatError := ""; nr_HeartbeatFailedAt := None; nr_LastSeenAt := Some now;
     nr_LastHeartbeatAt := Some now; nr_Version := TrimSpace (en_Version req); nr_Status := NodeStatusOnline; nr_Load := 0;
     nr_BandwidthInKbps := 0; nr_BandwidthOutKbps := 0; nr_HeartbeatTokenHash := hashOpaqueToken heartbeatToken;
     nr_MTLSCertSHA256 := ""; nr_WGPublicKey := ""; nr_WGTunnelIP := ""; nr_WGLastHandshake := None; nr_WGRxBytes := 0;
     nr_WGTxBytes := 0; nr_AdvertisedSubnets := ""; nr_TunnelStatus := TunnelStatusInactive |}.

(** The rest of it, with the token row read before: the node and its heartbeat token. *)
Definition enroll_commit (now : Z) (r : Request) (req : enrollNodeRequest) (random : option string) (token : NodeEnrollmentToken) (st : node_state)
  : api_reply (NodeRow * string) * node_state :=
  match random with
  | None => (internalError, st)
  | Some bytes =>
      let heartbeatToken := randomEnrollmentToken bytes in
      match EnrollWithToken st (enrolled_node now r req token heartbeatToken) (et_ID token) (et_SingleUse token) now with
      | None => (ApiError 401 "invalid_enrollment_token" "invalid or expired enrollment token", st)
      | Some (node, st') => (Answer (node, heartbeatToken), st')
      end
  end.

Definition handleEnrollNode (now : Z) (r : Request) (req : enrollNodeRequest) (tunnel : option bool) (random : option string) (st : node_state)
  : api_reply (NodeRow * string) * node_state :=
  match enroll_lookup now r req tunnel st with
  | (ApiError s c m, st') => (ApiError s c m, st')
  | (Answer token, st') => enroll_commit now r req random token st'
  end.

(** The struct [handleHeartbeatNode] writes, from the row it loaded. *)
Definition beaten (now : Z) (ip : string) (req : heartbeatNodeRequest) (n : NodeRow) : NodeRow :=
  let handshake := match hb_WGLastHandshake req with Some t => Some t | None => nr_WGLastHandshake n end in
  {| nr_ID := nr_ID n; nr_Name := nr_Name n; nr_Description := nr_Description n; nr_EnrollmentTokenID := nr_EnrollmentTokenID n;
     nr_HeartbeatAuthMode := nr_HeartbeatAuthMode n; nr_HeartbeatEndpoint := nr_HeartbeatEndpoint n;
     nr_HeartbeatVersion := default (nr_Version n) (hb_Version req); nr_LastHeartbeatIP := ip; nr_LastHeartbeatCode := 200;
     nr_LastHeartbeatError := ""; nr_HeartbeatFailedAt := None; nr_LastSeenAt := Some now; nr_LastHeartbeatAt := Some now;
     nr_Version := default (nr_Version n) (hb_Version req); nr_Status := default NodeStatusOnline (hb_Status req);
     nr_Load := default (nr_Load n) (hb_Load req); nr_BandwidthInKbps := default (nr_BandwidthInKbps n) (hb_BandwidthInKbps req);
     nr_BandwidthOutKbps := default (nr_BandwidthOutKbps n) (hb_BandwidthOutKbps req);
     nr_HeartbeatTokenHash := nr_HeartbeatTokenHash n; nr_MTLSCertSHA256 := nr_MTLSCertSHA256 n; nr_WGPublicKey := nr_WGPublicKey n;
     nr_WGTunnelIP := nr_WGTunnelIP n; nr_WGLastHandshake := handshake; nr_WGRxBytes := default (nr_WGRxBytes n) (hb_WGRxBytes req);
     nr_WGTxBytes := default (nr_WGTxBytes n) (hb_WGTxBytes req); nr_AdvertisedSubnets := nr_AdvertisedSubnets n;
     nr_TunnelStatus :=
       match hb_TunnelStatus req with
       | Some s => s
       | None =>
           if match handshake with Some t => (now - t <? 3 * Minute)%Z | None => false end then TunnelStatusConnected
           else if non_empty (nr_WGPublicKey n) && negb (String.eqb (nr_TunnelStatus n) TunnelStatusProvisioned) then TunnelStatusStale
           else nr_TunnelStatus n
       end |}.

Definition handleHeartbeatNode (now : Z) (r : Request) (id : N) (req : heartbeatNodeRequest) (st : node_state) : api_reply NodeRow * node_state :=
  if negb (requireNodeSecureTransport r) then (ApiError 426 "insecure_transport" "node endpoints require https transport", st)
  else match nodes_GetByID st id with
       | None => (not_found, st)
       | Some node =>
           let ip := clientIPForRequest (TrustedProxyCIDRs cfg) r in
           if negb (authorizeNodeHeartbeat r node) then
             let '(ok, st) := enforceNodeRateLimit now r "node_heartbeat_auth_fail" (NodeHeartbeatAuthFailRateLimit cfg)
                                (NodeHeartbeatAuthFailRateWindow cfg) st in
             if negb ok then (ApiError 429 "rate_limited" "too many requests", st)
             else (ApiError 401 "unauthorized" "missing or invalid node token",
                   RecordHeartbeatFailure st (nr_ID node) ip 401 "invalid_token" now)
           else
             let '(ok, st) := enforceNodeRateLimit now r ("node_heartbeat:" +:+ FormatUint (nr_ID node)) nodeHeartbeatRateLimit
                                nodeHeartbeatRateWindow st in
             if negb ok then (ApiError 429 "rate_limited" "too many requests", st)
             else
               let node := beaten now ip req node in
               match UpdateHeartbeat st node with
               | None => (not_found, st)
               | Some st' => (Answer node, st')
               end
       end.

(** The status shown for a node. *)
Definition evaluateNodeStatus (now : Z) (n : NodeRow) : string :=
  match nr_LastHeartbeatAt n with
  | None => nr_Status n
  | Some t => if (NodeOfflineAfter cfg <=? 0)%Z then nr_Status n
              else if (NodeOfflineAfter cfg <? now - t)%Z then NodeStatusOffline else NodeStatusOnline
  end.
End nodes.

(** * Histories *)

(** What can happen to the tables; a commit carries the token row its lookup read, at whatever time that was. *)
Inductive node_op :=
| OpCreateToken (now : Z) (random : option string) (req : createNodeEnrollmentTokenRequest)
| OpDeleteToken (id : N)
| OpLookup (now : Z) (r : Request) (req : enrollNodeRequest) (tunnel : option bool)
| OpCommit (now : Z) (r : Request) (req : enrollNodeRequest) (random : option string) (token : NodeEnrollmentToken)
| OpHeartbeat (now : Z) (r : Request) (id : N) (req : heartbeatNodeRequest)
| OpDeleteNode (id : N).

Section histories.
Context (sha256 : string → string) (hmac_sha256 : string → string → string) (gorm_bool : bool → bool → bool) (cfg : NodeConfig).

Definition node_apply (st : node_state) (o : node_op) : node_state :=
  match o with
  | OpCreateToken now random req => (handleCreateNodeEnrollmentToken sha256 gorm_bool now random req st).2
  | OpDeleteToken id => (handleDeleteNodeEnrollmentToken id st).2
  | OpLookup now r req tunnel => (enroll_lookup sha256 cfg now r req tunnel st).2
  | OpCommit now r req random token => (enroll_commit sha256 cfg now r req random token st).2
  | OpHeartbeat now r id req => (handleHeartbeatNode sha256 hmac_sha256 cfg now r id req st).2
  | OpDeleteNode id => default st (nodes_Delete st id)
  end.

(** The single-use token a step enrolls a node with. *)
Definition enrolls (st : node_state) (o : node_op) : option N :=
  match o with
  | OpCommit now r req random token =>
      if et_SingleUse token then
        match (enroll_commit sha256 cfg now r req random token st).1 with Answer _ => Some (et_ID token) | ApiError _ _ _ => None end
      else None
  | _ => None
  end.

Fixpoint enrollments (st : node_state) (ops : list node_op) : list N :=
  match ops with
  | [] => []
  | o :: ops => match enrolls st o with Some id => id :: enrollments (node_apply st o) ops | None => enrollments (node_apply st o) ops end
  end.

(** Identifiers of tokens come from the sequence. *)
Definition sequenced (st : node_state) : Prop := ∀ t, t ∈ enrollmentTokens st → (et_ID t < nextEnrollmentToken st)%N.

(** A token that can never be claimed again. *)
Definition spent (id : N) (st : node_state) : Prop :=
  (id < nextEnrollmentToken st)%N ∧ ∀ t, t ∈ enrollmentTokens st → claimable id t = false.

Lemma limit_tables now r bucket limit window st :
  let st' := (enforceNodeRateLimit cfg now r bucket limit window st).2 in
  enrollmentTokens st' = enrollmentTokens st ∧ nextEnrollmentToken st' = nextEnrollmentToken st ∧ nodes st' = nodes st ∧ nextNode st' = nextNode st.
Proof.
  unfold enforceNodeRateLimit. destruct (nodeRateLimiter st); [|done]. destruct (_ || _); [done|]. cbv zeta. by destruct (Allow _ _ _ _ _).
Qed.

Lemma heartbeat_tokens now r id req st :
  let st' := (handleHeartbeatNode sha256 hmac_sha256 cfg now r id req st).2 in
  enrollmentTokens st' = enrollmentTokens st ∧ nextEnrollmentToken st' = nextEnrollmentToken st.
Proof.
  unfold handleHeartbeatNode. destruct (negb (requireNodeSecureTransport _ _)); [done|]. destruct (nodes_GetByID st id) as [node|]; [|done].
  cbv zeta. destruct (negb (authorizeNodeHeartbeat _ _ _ _ _)).
  - pose proof (limit_tables now r "node_heartbeat_auth_fail" (NodeHeartbeatAuthFailRateLimit cfg) (NodeHeartbeatAuthFailRateWindow cfg) st) as Hl.
    destruct (enforceNodeRateLimit _ _ _ _ _ _ _) as [ok st1]. cbn [snd] in Hl. destruct Hl as (H1 & H2 & _). by destruct ok.
  - match goal with |- context [enforceNodeRateLimit cfg now r ?b ?l ?w st] => pose proof (limit_tables now r b l w st) as Hl end.
    destruct (enforceNodeRateLimit _ _ _ _ _ _ _) as [ok st1]. cbn [snd] in Hl. destruct Hl as (H1 & H2 & _). destruct ok; cbn [negb]; [|done].
    unfold UpdateHeartbeat. cbn [update_where]. by destruct (existsb _ _).
Qed.

Lemma lookup_tokens now r req tunnel st :
  let st' := (enroll_lookup sha256 cfg now r req tunnel st).2 in
  enrollmentTokens st' = enrollmentTokens st ∧ nextEnrollmentToken st' = nextEnrollmentToken st.
Proof.
  unfold enroll_lookup. destruct (negb (requireNodeSecureTransport _ _)); [done|].
  pose proof (limit_tables now r "node_enroll" (NodeEnrollRateLimit cfg) (NodeEnrollRateWindow cfg) st) as Hl.
  destruct (enforceNodeRateLimit _ _ _ _ _ _ _) as [ok st1]. cbn [snd] in Hl. destruct Hl as (H1 & H2 & _). destruct ok; cbn [negb]; [|done].
  destruct (enrollmentTokens_GetActiveByHash _ _ _); [|done]. by destruct tunnel as [[]|].
Qed.

(** The table of tokens after a step: the rows of before, possibly claimed, and at most a new row of the sequence. *)
Inductive tokens_step (st st' : node_state) : Prop :=
| tokens_same : enrollmentTokens st' = enrollmentTokens st → nextEnrollmentToken st' = nextEnrollmentToken st → tokens_step st st'
| tokens_new t : enrollmentTokens st' = enrollmentTokens st ++ [t] → et_ID t = nextEnrollmentToken st →
    nextEnrollmentToken st' = (nextEnrollmentToken st + 1)%N → tokens_step st st'
| tokens_deleted id : enrollmentTokens st' = List.filter (λ t, negb (N.eqb (et_ID t) id)) (enrollmentTokens st) →
    nextEnrollmentToken st' = nextEnrollmentToken st → tokens_step st st'
| tokens_claimed id at_ : enrollmentTokens st' = (λ t, if claimable id t then claim at_ t else t) <$> enrollmentTokens st →
    nextEnrollmentToken st' = nextEnrollmentToken st → tokens_step st st'.

Lemma enroll_facts now r req random token st x st' :
  enroll_commit sha256 cfg now r req random token st = (Answer x, st') → et_SingleUse token = true →
  (∃ t, t ∈ enrollmentTokens st ∧ claimable (et_ID token) t = true) ∧
  enrollmentTokens st' = (λ t, if claimable (et_ID token) t then claim now t else t) <$> enrollmentTokens st ∧
  nextEnrollmentToken st' = nextEnrollmentToken st.
Proof.
  unfold enroll_commit. destruct random as [bytes|]; [|done]. cbv zeta. unfold EnrollWithToken. cbn [update_where]. intros He Hs.
  rewrite Hs in He. destruct (Nat.eqb_spec (length (List.filter (claimable (et_ID token)) (enrollmentTokens st))) 1) as [Hl|]; [|done].
  injection He as <- <-. cbn. split; [|done].
  destruct (List.filter (claimable (et_ID token)) (enrollmentTokens st)) as [|t l] eqn:Hf; [done|]. exists t.
  assert (In t (List.filter (claimable (et_ID token)) (enrollmentTokens st))) as Hin by (rewrite Hf; by left).
  apply filter_In in Hin as [? ?]. split; [by apply list_elem_of_In|done].
Qed.

Lemma node_apply_tokens st o : tokens_step st (node_apply st o).
Proof.
  destruct o as [now random req|id|now r req tunnel|now r req random token|now r id req|id]; cbn [node_apply].
  - unfold handleCreateNodeEnrollmentToken. destruct random as [bytes|]; [|by apply tokens_same]. cbv zeta.
    destruct (existsb _ _); [by apply tokens_same|]. by eapply tokens_new.
  - unfold handleDeleteNodeEnrollmentToken, enrollmentTokens_Delete. destruct (existsb _ _); [|by apply tokens_same].
    by apply (tokens_deleted _ _ id).
  - destruct (lookup_tokens now r req tunnel st). by apply tokens_same.
  - unfold enroll_commit. destruct random as [bytes|]; [|by apply tokens_same]. cbv zeta. unfold EnrollWithToken. cbn [update_where].
    destruct (et_SingleUse token); [|by apply tokens_same]. destruct (_ =? 1)%nat; [|by apply tokens_same].
    by apply (tokens_claimed _ _ (et_ID token) now).
  - destruct (heartbeat_tokens now r id req st). by apply tokens_same.
  - unfold nodes_Delete. destruct (existsb _ _); by apply tokens_same.
Qed.

Lemma claim_not_claimable id at_ t : claimable id (claim at_ t) = false.
Proof. unfold claimable, claim. cbn. by rewrite andb_false_r. Qed.

Lemma sequenced_step st st' : tokens_step st st' → sequenced st → sequenced st'.
Proof.
  intros Hstep Hs t. destruct Hstep as [Hr Hn|t' Hr Hid Hn|id Hr Hn|id at_ Hr Hn]; rewrite Hr, Hn.
  - apply Hs.
  - rewrite elem_of_app, list_elem_of_singleton. intros [Ht| ->]; [specialize (Hs t Ht)|]; lia.
  - intros Ht. apply Hs. apply list_elem_of_In. by apply list_elem_of_In, filter_In in Ht as [? _].
  - intros (x & -> & Hx)%list_elem_of_fmap. specialize (Hs x Hx). by destruct (claimable id x).
Qed.

Lemma spent_step id st st' : tokens_step st st' → spent id st → spent id st'.
Proof.
  intros Hstep [Hlt Hs]. unfold spent. destruct Hstep as [Hr Hn|t' Hr Hid Hn|id' Hr Hn|id' at_ Hr Hn]; rewrite Hr, Hn; (split; [lia|]); intros t.
  - apply Hs.
  - rewrite elem_of_app, list_elem_of_singleton. intros [Ht| ->]; [by apply Hs|].
    unfold claimable. rewrite (proj2 (N.eqb_neq _ _)) by lia. done.
  - intros Ht. apply Hs. apply list_elem_of_In. by apply list_elem_of_In, filter_In in Ht as [? _].
  - intros (x & -> & Hx)%list_elem_of_fmap. specialize (Hs x Hx). destruct (claimable id' x); [apply claim_not_claimable|done].
Qed.

Lemma enrolls_spends st o id : sequenced st → enrolls st o = Some id → spent id (node_apply st o) ∧ ¬ spent id st.
Proof.
  intros Hseq. destruct o as [| | |now r req random token| |]; try done. cbn [enrolls node_apply].
  destruct (et_SingleUse token) eqn:Hsu; [|done].
  destruct (enroll_commit _ _ _ _ _ _ _ _) as [[s c m|x] st'] eqn:He; [done|]. cbn [fst snd]. intros [= <-].
  destruct (enroll_facts _ _ _ _ _ _ _ _ He Hsu) as ((t & Ht & Hc) & Hrows & Hnext). split.
  - split.
    + rewrite Hnext. assert (et_ID t = et_ID token) as <-; [|by apply Hseq].
      unfold claimable in Hc. destruct_bools. by apply N.eqb_eq.
    + rewrite Hrows. intros u (y & -> & Hy)%list_elem_of_fmap. destruct (claimable _ y) eqn:Hcy; [apply claim_not_claimable|done].
  - intros [_ Hs]. by rewrite (Hs t Ht) in Hc.
Qed.

Lemma enrollments_fresh ops st id : sequenced st → spent id st → id ∉ enrollments st ops.
Proof.
  revert st. induction ops as [|o ops IH]; intros st Hseq Hsp; cbn [enrollments]; [by apply not_elem_of_nil|].
  pose proof (node_apply_tokens st o) as Hstep.
  assert (id ∉ enrollments (node_apply st o) ops) as Hrest by (apply IH; [by eapply sequenced_step|by eapply spent_step]).
  destruct (enrolls st o) as [id'|] eqn:He; [|done]. apply not_elem_of_cons. split; [|done].
  intros <-. by destruct (enrolls_spends st o id Hseq He).
Qed.

(** C12 A single-use enrollment token enrolls at most one node, over every history of enrollments whose
    lookups and claims are interleaved in any way (a claim may use a row read long before), heartbeats,
    and tokens and nodes created and deleted in between. *)
Theorem enrollment_token_single_use ops st : sequenced st → NoDup (enrollments st ops).
Proof.
  revert st. induction ops as [|o ops IH]; intros st Hseq; cbn [enrollments]; [constructor|].
  pose proof (sequenced_step _ _ (node_apply_tokens st o) Hseq) as Hseq'.
  destruct (enrolls st o) as [id|] eqn:He; [|by apply IH]. apply NoDup_cons. split; [|by apply IH].
  apply enrollments_fresh; [done|]. by apply enrolls_spends.
Qed.
End histories.

(** * Theorems on single requests *)

Section requests.
Context (sha256 : string → string) (hmac_sha256 : string → string → string) (cfg : NodeConfig).

Lemma lookup_facts now r req tunnel st token st1 :
  enroll_lookup sha256 cfg now r req tunnel st = (Answer token, st1) →
  requireNodeSecureTransport cfg r = true ∧ token ∈ enrollmentTokens st ∧
  et_TokenHash token = hashOpaqueToken sha256 (en_Token req) ∧ et_Active token = true ∧
  (∀ e, et_ExpiresAt token = Some e → (now < e)%Z) ∧ (et_SingleUse token = true → et_UsedAt token = None) ∧ tunnel ≠ Some false ∧
  enrollmentTokens st1 = enrollmentTokens st ∧ nodes st1 = nodes st ∧ nextNode st1 = nextNode st.
Proof.
  unfold enroll_lookup. destruct (requireNodeSecureTransport cfg r); cbn [negb]; [|done].
  pose proof (limit_tables cfg now r "node_enroll" (NodeEnrollRateLimit cfg) (NodeEnrollRateWindow cfg) st) as Hl.
  destruct (enforceNodeRateLimit _ _ _ _ _ _ _) as [ok st2]. cbn [snd] in Hl. destruct Hl as (H1 & _ & H3 & H4). destruct ok; cbn [negb]; [|done].
  unfold enrollmentTokens_GetActiveByHash. rewrite H1. destruct (List.find _ _) as [t|] eqn:Hf; [|done].
  destruct (et_SingleUse t && _) eqn:Hu; [done|]. intros Hans.
  assert (t = token ∧ st2 = st1 ∧ tunnel ≠ Some false) as (-> & -> & Htun) by (destruct tunnel as [[]|]; by simplify_eq).
  apply find_some in Hf as [Hin Hc]. destruct_bools. split_and!; try done.
  - by apply list_elem_of_In.
  - by apply String.eqb_eq.
  - intros e He. rewrite He in *. by apply Z.ltb_lt.
  - intros Hs. rewrite Hs in Hu. by destruct (et_UsedAt token).
Qed.

(** A node is enrolled only over a transport the configuration accepts, by a stored token whose hash
    is that of the token presented, that is active, unexpired and, if single-use, unused; the node is one new row
    that names the token, and a single-use token is inactive from then on. *)
Theorem enrollment_needs_token now r req tunnel random st node heartbeatToken st' :
  handleEnrollNode sha256 cfg now r req tunnel random st = (Answer (node, heartbeatToken), st') →
  requireNodeSecureTransport cfg r = true ∧
  ∃ token, token ∈ enrollmentTokens st ∧ et_TokenHash token = hashOpaqueToken sha256 (en_Token req) ∧ et_Active token = true ∧
    (∀ e, et_ExpiresAt token = Some e → (now < e)%Z) ∧ (et_SingleUse token = true → et_UsedAt token = None) ∧
    nodes st' = nodes st ++ [node] ∧ nr_EnrollmentTokenID node = Some (et_ID token) ∧
    nr_HeartbeatTokenHash node = hashOpaqueToken sha256 heartbeatToken ∧
    (et_SingleUse token = true → ∀ t, t ∈ enrollmentTokens st' → et_ID t = et_ID token → et_Active t = false ∨ et_UsedAt t ≠ None).
Proof.
  unfold handleEnrollNode. destruct (enroll_lookup _ _ _ _ _ _ _) as [[s c m|token] st1] eqn:Hl; [done|].
  apply lookup_facts in Hl as (Hsec & Hin & Hh & Hact & Hexp & Hunused & _ & Htok & Hnodes & Hnext). intros He. split; [done|].
  exists token. split_and!; try done.
  all: pose proof He as He'; unfold enroll_commit in He; destruct random as [bytes|]; [|done]; cbv zeta in He; unfold EnrollWithToken in He;
    cbn [update_where] in He.
  1-3: destruct (et_SingleUse token); [destruct (_ =? 1)%nat; [|done]|]; injection He as <- <- <-; cbn; by rewrite ?Hnodes.
  intros Hs t. destruct (enroll_facts sha256 cfg _ _ _ _ _ _ _ _ He' Hs) as (_ & Hrows & _). rewrite Hrows.
  intros (y & -> & Hy)%list_elem_of_fmap Hid. destruct (claimable (et_ID token) y) eqn:Hc; [by left|].
  unfold claimable in Hc. rewrite Hid, N.eqb_refl in Hc. cbn in Hc. destruct (et_Active y); [|by left]. right. by destruct (et_UsedAt y).
Qed.

(** What a heartbeat must not touch. *)
Definition credentials (n : NodeRow) : N * string * option N * string * string * string * string * string * string :=
  (nr_ID n, nr_Name n, nr_EnrollmentTokenID n, nr_HeartbeatAuthMode n, nr_HeartbeatTokenHash n, nr_MTLSCertSHA256 n,
   nr_WGPublicKey n, nr_WGTunnelIP n, nr_AdvertisedSubnets n).

Lemma update_credentials (cond : NodeRow → bool) f rows :
  (∀ n, credentials (f n) = credentials n) → credentials <$> (update_where cond f rows).1 = credentials <$> rows.
Proof. intros Hf. cbn. rewrite <-list_fmap_compose. apply list_fmap_ext. intros i n _. cbn. destruct (cond n); [apply Hf|done]. Qed.

(** A heartbeat is accepted only with the credential of the very node it is for, and whatever the
    request, accepted or not, it changes no node's name, credentials, keys, tunnel address or advertised networks. *)
Theorem heartbeat_safe now r id req st rep st' :
  handleHeartbeatNode sha256 hmac_sha256 cfg now r id req st = (rep, st') →
  credentials <$> nodes st' = credentials <$> nodes st ∧
  ∀ n, rep = Answer n → requireNodeSecureTransport cfg r = true ∧
    ∃ row, row ∈ nodes st ∧ nr_ID row = id ∧ authorizeNodeHeartbeat sha256 hmac_sha256 cfg r row = true.
Proof.
  unfold handleHeartbeatNode. destruct (requireNodeSecureTransport cfg r); cbn [negb]; [|by intros [= <- <-]].
  destruct (nodes_GetByID st id) as [node|] eqn:Hg; [|by intros [= <- <-]]. cbv zeta.
  destruct (authorizeNodeHeartbeat _ _ _ _ _) eqn:Ha; cbn [negb].
  - match goal with |- context [enforceNodeRateLimit cfg now r ?b ?l ?w st] => pose proof (limit_tables cfg now r b l w st) as Hl end.
    destruct (enforceNodeRateLimit _ _ _ _ _ _ _) as [ok st1]. cbn [snd] in Hl. destruct Hl as (_ & _ & Hn & _).
    destruct ok; cbn [negb]; [|intros [= <- <-]; by rewrite Hn].
    unfold UpdateHeartbeat. destruct (update_where _ _ _) as [rows found] eqn:Hu. destruct found; [|intros [= <- <-]; by rewrite Hn].
    intros [= <- <-]. cbn [nodes with_nodes]. split.
    + rewrite <-Hn. change rows with (rows, true).1. rewrite <-Hu. by apply update_credentials.
    + intros n _. split; [done|]. exists node. apply find_some in Hg as [Hin Hid]. split; [by apply list_elem_of_In|]. split; [by apply N.eqb_eq|done].
  - pose proof (limit_tables cfg now r "node_heartbeat_auth_fail" (NodeHeartbeatAuthFailRateLimit cfg) (NodeHeartbeatAuthFailRateWindow cfg) st) as Hl.
    destruct (enforceNodeRateLimit _ _ _ _ _ _ _) as [ok st1]. cbn [snd] in Hl. destruct Hl as (_ & _ & Hn & _).
    destruct ok; cbn [negb]; intros [= <- <-]; (split; [|done]); rewrite <-Hn; [|done].
    by apply update_credentials.
Qed.

Lemma upper_hex_no_space s : string_all (λ a, negb (is_space a)) (ToUpper (hex_encode s)) = true.
Proof.
  induction s as [|c s IH]; [done|]. cbn [hex_encode ToUpper string_map string_all]. fold (ToUpper (hex_encode s)). rewrite IH.
  assert (∀ a : ascii, negb (is_space (upper_ascii (hex_digit (byte a / 16)))) &&
    (negb (is_space (upper_ascii (hex_digit (byte a mod 16)))) && true) = true) as Hc.
  { intros [[] [] [] [] [] [] [] []]; by vm_compute. }
  exact (Hc c).
Qed.

Lemma bearer_accepted r token node :
  non_empty token = true → TrimSpace token = token → HGet (r_Header r) "Authorization" = "Bearer " +:+ token →
  EqualFold (TrimSpace (nr_HeartbeatAuthMode node)) "mtls" = false → nr_HeartbeatTokenHash node = hashOpaqueToken sha256 token →
  non_empty (hashOpaqueToken sha256 token) = true → authorizeNodeHeartbeat sha256 hmac_sha256 cfg r node = true.
Proof.
  intros Hne Htrim Hh Hm Hhash Hhne. unfold authorizeNodeHeartbeat. rewrite Hm, Hh. cbv zeta.
  assert (TrimSpace ("Bearer " +:+ token) = "Bearer " +:+ token) as ->.
  { exact (TrimSpace_app "Bearer" " " token eq_refl ltac:(done) Htrim (proj1 (non_empty_true _) Hne)). }
  rewrite (proj2 (HasPrefix_spec _ _)) by eauto. rewrite TrimPrefix_app, Htrim, Hne, Hhash, Hhne. cbn [andb]. by rewrite String.eqb_refl.
Qed.

(** Enrollment leads somewhere: a node that was enrolled is accepted when it sends its heartbeat with
    the token it was given, whatever the heartbeat says, over a transport the configuration accepts and within the rate. *)
Theorem enrolled_node_beats now r req tunnel bytes st node token st' now' r' hreq :
  handleEnrollNode sha256 cfg now r req tunnel (Some bytes) st = (Answer (node, token), st') →
  bytes ≠ "" → (∀ s, sha256 s ≠ "") → (∀ n, n ∈ nodes st → (nr_ID n < nextNode st)%N) →
  requireNodeSecureTransport cfg r' = true → HGet (r_Header r') "Authorization" = "Bearer " +:+ token →
  (enforceNodeRateLimit cfg now' r' ("node_heartbeat:" +:+ FormatUint (nr_ID node)) nodeHeartbeatRateLimit nodeHeartbeatRateWindow st').1 = true →
  ∃ n st'', handleHeartbeatNode sha256 hmac_sha256 cfg now' r' (nr_ID node) hreq st' = (Answer n, st'').
Proof.
  intros He Hb Hsha Hseq Hsec Hauth Hrate. unfold handleEnrollNode in He.
  destruct (enroll_lookup _ _ _ _ _ _ _) as [[s c m|t] st1] eqn:Hl; [done|].
  apply lookup_facts in Hl as (_ & _ & _ & _ & _ & _ & _ & _ & Hnodes & Hnext).
  assert (nodes st' = nodes st ++ [node] ∧ node = enrolled_node sha256 cfg now r req t token (nextNode st) ∧ token = randomEnrollmentToken bytes)
    as (Hn & Hnode & Htoken).
  { unfold enroll_commit, EnrollWithToken in He. cbn [update_where] in He.
    destruct (et_SingleUse t); [destruct (_ =? 1)%nat; [|done]|]; injection He as <- <- <-; cbn; by rewrite ?Hnodes, ?Hnext. }
  assert (nodes_GetByID st' (nr_ID node) = Some node) as Hg.
  { unfold nodes_GetByID. rewrite Hn, Hnode. cbn [nr_ID enrolled_node]. clear -Hseq. revert Hseq. generalize (nextNode st).
    induction (nodes st) as [|x l IH]; intros k Hk; cbn; [by rewrite N.eqb_refl|].
    rewrite (proj2 (N.eqb_neq _ _)) by (specialize (Hk x ltac:(by left)); lia). apply IH. intros y Hy. apply Hk. by right. }
  assert (authorizeNodeHeartbeat sha256 hmac_sha256 cfg r' node = true) as Hok.
  { apply (bearer_accepted r' token node); [| |done|by rewrite Hnode|by rewrite Hnode|].
    - rewrite Htoken. by destruct bytes.
    - rewrite Htoken. apply TrimSpace_none, upper_hex_no_space.
    - unfold hashOpaqueToken. by apply encoded_nonempty. }
  unfold handleHeartbeatNode. rewrite Hsec, Hg, Hok. cbn [negb]. cbv zeta.
  match goal with |- context [enforceNodeRateLimit cfg now' r' ?b ?l ?w st'] => pose proof (limit_tables cfg now' r' b l w st') as Hlt end.
  destruct (enforceNodeRateLimit _ _ _ _ _ _ _) as [ok st2]. cbn [fst] in Hrate. cbn [snd] in Hlt. subst ok. cbn [negb].
  destruct Hlt as (_ & _ & Hn2 & _). unfold UpdateHeartbeat. cbn [update_where].
  assert (existsb (λ n, N.eqb (nr_ID n) (nr_ID node)) (nodes st2) = true) as Hex.
  { apply existsb_exists_elem. exists node. rewrite Hn2, Hn, N.eqb_refl. split; [|done]. apply elem_of_app. right. by left. }
  change (nr_ID (beaten now' (clientIPForRequest (TrustedProxyCIDRs cfg) r') hreq node)) with (nr_ID node). rewrite Hex. by eauto.
Qed.
End requests.

(** * Witnesses *)

Definition node_config : NodeConfig :=
  {| NodeRequireHTTPS := true; AllowInsecureDevMode := false; NodeTrustForwardedProto := false; TrustedProxyCIDRs := [];
     NodeEnrollRateLimit := 10; NodeEnrollRateWindow := Minute; NodeHeartbeatAuthFailRateLimit := 10;
     NodeHeartbeatAuthFailRateWindow := Minute; NodeAllowMTLSHeaderFallback := false; SessionBridgeSecret := "bridge"; NodeOfflineAfter := Minute |}.

Definition sample_sha (s : string) : string := "s" +:+ s.

Definition enroll_request : enrollNodeRequest :=
  {| en_Token := "ENROLLME"; en_Name := "edge"; en_Description := ""; en_Version := "1" |}.

Definition no_beat : heartbeatNodeRequest :=
  {| hb_Version := None; hb_Status := None; hb_Load := None; hb_BandwidthInKbps := None; hb_BandwidthOutKbps := None;
     hb_WGLastHandshake := None; hb_WGRxBytes := None; hb_WGTxBytes := None; hb_TunnelStatus := None |}.

Definition enroll_token : NodeEnrollmentToken :=
  {| et_ID := 1; et_Name := "t"; et_Description := ""; et_TokenHash := hashOpaqueToken sample_sha "ENROLLME"; et_ExpiresAt := None;
     et_SingleUse := true; et_Active := true; et_UsedAt := None |}.

Definition enroll_state : node_state :=
  {| enrollmentTokens := [enroll_token]; nextEnrollmentToken := 2; nodes := []; nextNode := 1; nodeRateLimiter := Some (NewLocalLimiter 0) |}.

Definition node_request (auth : string) : Request := api_request "POST" "/api/v1/nodes/1/heartbeat" [("Authorization", [auth])].

(** Two requests look the token up before either claims it. *)
Definition race : list node_op :=
  [OpLookup 1 (node_request "") enroll_request None; OpLookup 1 (node_request "") enroll_request None;
   OpCommit 2 (node_request "") enroll_request (Some "ab") enroll_token; OpCommit 3 (node_request "") enroll_request (Some "cd") enroll_token].

Lemma enrollment_token_single_use_witness :
  enrollments sample_sha sample_mac (λ v d, v || d) node_config enroll_state race = [1%N] ∧
  NoDup (enrollments sample_sha sample_mac (λ v d, v || d) node_config enroll_state race).
Proof.
  split; [vm_compute; reflexivity|].
  apply (enrollment_token_single_use sample_sha sample_mac (λ v d, v || d) node_config race enroll_state).
  intros t Ht. apply list_elem_of_singleton in Ht as ->. reflexivity.
Defined.

Lemma enrollment_needs_token_witness :
  ∃ node token st', handleEnrollNode sample_sha node_config 1 (node_request "") enroll_request None (Some "ab") enroll_state
      = (Answer (node, token), st') ∧ nodes st' = [] ++ [node].
Proof.
  destruct (handleEnrollNode sample_sha node_config 1 (node_request "") enroll_request None (Some "ab") enroll_state)
    as [[s c m|[node token]] st'] eqn:He; [vm_compute in He; discriminate He|].
  exists node, token, st'. split; [reflexivity|].
  destruct (enrollment_needs_token sample_sha node_config 1 (node_request "") enroll_request None (Some "ab") enroll_state node token st' He)
    as (_ & t & _ & _ & _ & _ & _ & Hn & _). exact Hn.
Defined.

Definition beat_state : node_state :=
  (handleEnrollNode sample_sha node_config 1 (node_request "") enroll_request None (Some "ab") enroll_state).2.

Lemma heartbeat_safe_witness :
  credentials <$> nodes (handleHeartbeatNode sample_sha sample_mac node_config 1 (node_request "") 1 no_beat beat_state).2
  = credentials <$> nodes beat_state.
Proof.
  apply (heartbeat_safe sample_sha sample_mac node_config 1 (node_request "") 1 no_beat beat_state
           (handleHeartbeatNode sample_sha sample_mac node_config 1 (node_request "") 1 no_beat beat_state).1
           (handleHeartbeatNode sample_sha sample_mac node_config 1 (node_request "") 1 no_beat beat_state).2).
  apply surjective_pairing.
Defined.

Lemma enrolled_node_beats_witness :
  ∃ node token st' n st'', handleEnrollNode sample_sha node_config 1 (node_request "") enroll_request None (Some "ab") enroll_state
      = (Answer (node, token), st') ∧
    handleHeartbeatNode sample_sha sample_mac node_config 2 (node_request ("Bearer " +:+ token)) (nr_ID node) no_beat st' = (Answer n, st'').
Proof.
  destruct (handleEnrollNode sample_sha node_config 1 (node_request "") enroll_request None (Some "ab") enroll_state)
    as [[s c m|[node token]] st'] eqn:He; [vm_compute in He; discriminate He|]. exists node, token, st'.
  destruct (enrolled_node_beats sample_sha sample_mac node_config 1 (node_request "") enroll_request None "ab" enroll_state node token st' 2
              (node_request ("Bearer " +:+ token)) no_beat He) as (n & st'' & Hb).
  - discriminate.
  - intros s. discriminate.
  - intros n Hn. exfalso. exact (not_elem_of_nil _ Hn).
  - reflexivity.
  - reflexivity.
  - vm_compute in He. injection He as <- <- <-. vm_compute. reflexivity.
  - exists n, st''. split; [reflexivity|exact Hb].
Defined.
