(* ===== verification/RouteAuth.v ===== *)
(** Signing in to a single route (internal/http/route_auth.go): pins and e-mail codes, the bridge
    that carries the grant to the host of the service, and the hosts a browser session may be bridged
    to; with the configuration of access methods (internal/http/access_methods.go).

    The e-mail rule is written twice in the program, here when a code is asked for and redeemed and in
    the proxy (AccessPolicy.v) when the grant is used; they are compared below. *)
From S2P Require Import Prelude GoStrings Utf8Json Netip Domain Hosts AccessPolicy Routing Requests RateLimit Handler.
From S2P Require Import AuthStore AuthHistory AuthCache Tokens Sessions LoginCodes Login System ApiGuard UserAdmin Nodes.
From S2P Require Redirects LoginSafety.

#[local] Open Scope string_scope.
#[local] Open Scope list_scope.

(** * Access methods *)

Record accessMethodConfigRequest := { mc_PIN : string; mc_Hint : string; mc_AllowedEmailDomain : string; mc_AllowedEmails : list string }.

Definition stringValueFromAny (value : option Any) : string := match value with Some (AnyString s) => s | _ => "" end.

Definition stringSliceFromAny (value : option Any) : list string :=
  match value with
  | Some (AnyStrings l) => l
  | Some (AnySlice l) =>
      omap (λ item, let v := stringValueFromAny (Some item) in if non_empty (TrimSpace v) then Some v else None) l
  | _ => []
  end.

(** The loop of [normalizeAllowedEmails] with the set it has seen. *)
Fixpoint normalize_emails (seen : list string) (values : list string) : list string :=
  match values with
  | [] => []
  | v :: rest =>
      let normalized := ToLower (TrimSpace v) in
      if String.eqb normalized "" then normalize_emails seen rest
      else if existsb (String.eqb normalized) seen then normalize_emails seen rest
      else normalized :: normalize_emails (normalized :: seen) rest
  end.
Definition normalizeAllowedEmails (values : list string) : list string := normalize_emails [] values.

(** The effective method of a service that only names one. *)
Definition proxyMethod (value : string) : string := normalizedAccessMethod (TrimSpace value).

Definition set_or_delete (out : JSONObject) (key value : string) (stored : Any) : JSONObject :=
  if non_empty value then <[key := stored]> out else delete key out.

Section methods.
Variable bcrypt_Generate : string → option string.

Definition buildAccessMethodConfig (method : string) (req : accessMethodConfigRequest) (existing : JSONObject) : JSONObject :=
  let method := proxyMethod method in
  let out := cloneJSONObject existing in
  let hint := TrimSpace (mc_Hint req) in
  if String.eqb method AccessMethodPIN then
    let pin := TrimSpace (mc_PIN req) in
    let out := if non_empty pin
               then match bcrypt_Generate pin with Some hash => <["pin_hash" := AnyString hash]> out | None => out end
               else out in
    set_or_delete out "hint" hint (AnyString hint)
  else if String.eqb method AccessMethodEmailCode then
    let out := set_or_delete out "hint" hint (AnyString hint) in
    let allowed := TrimSpace (mc_AllowedEmailDomain req) in
    let out := set_or_delete out "allowed_email_domain" allowed (AnyString (TrimPrefix (ToLower allowed) "@")) in
    let emails := normalizeAllowedEmails (mc_AllowedEmails req) in
    if (0 <? length emails)%nat then <["allowed_emails" := AnyStrings emails]> out else delete "allowed_emails" out
  else ∅.
End methods.

Definition sanitizeAccessMethodConfig (method : string) (value : JSONObject) : JSONObject :=
  let method := proxyMethod method in
  let hint := TrimSpace (stringValueFromAny (value !! "hint")) in
  let with_hint (out : JSONObject) := if non_empty hint then <["hint" := AnyString hint]> out else out in
  if String.eqb method AccessMethodPIN then
    with_hint (if non_empty (TrimSpace (stringValueFromAny (value !! "pin_hash"))) then {["pin_configured" := AnyOther]} else ∅)
  else if String.eqb method AccessMethodEmailCode then
    let out := with_hint ∅ in
    let allowed := TrimSpace (stringValueFromAny (value !! "allowed_email_domain")) in
    let out := if non_empty allowed then <["allowed_email_domain" := AnyString (TrimPrefix (ToLower allowed) "@")]> out else out in
    let emails := stringSliceFromAny (value !! "allowed_emails") in
    if (0 <? length emails)%nat then <["allowed_emails" := AnyStrings (normalizeAllowedEmails emails)]> out else out
  else ∅.

Definition publicAccessMethodConfig (method : string) (value : JSONObject) : JSONObject :=
  let method := proxyMethod method in
  let hint := TrimSpace (stringValueFromAny (value !! "hint")) in
  let with_hint (out : JSONObject) := if non_empty hint then <["hint" := AnyString hint]> out else out in
  if String.eqb method AccessMethodPIN then
    with_hint (if non_empty (TrimSpace (stringValueFromAny (value !! "pin_hash"))) then {["pin_configured" := AnyOther]} else ∅)
  else if String.eqb method AccessMethodEmailCode then
    let out := with_hint ∅ in
    let out := if non_empty (TrimSpace (stringValueFromAny (value !! "allowed_email_domain")))
               then <["domain_restricted" := AnyOther]> out else out in
    if (0 <? length (stringSliceFromAny (value !! "allowed_emails")))%nat then <["email_restricted" := AnyOther]> out else out
  else ∅.

Definition validateRouteEmailDomain (email : string) (config : JSONObject) : bool :=
  let normalizedEmail := ToLower (TrimSpace email) in
  let allowedEmails := normalizeAllowedEmails (stringSliceFromAny (config !! "allowed_emails")) in
  if (0 <? length allowedEmails)%nat then existsb (String.eqb normalizedEmail) allowedEmails
  else
    let allowed := ToLower (TrimSpace (stringValueFromAny (config !! "allowed_email_domain"))) in
    if String.eqb allowed "" then true
    else match Split normalizedEmail "@" with
         | [_; dom] => String.eqb dom (TrimPrefix allowed "@")
         | _ => false
         end.

(** * Hosts for a browser session *)

Definition restrictedPolicyAllowsUser (user : option User) (groupIDs : list N) (policy : AccessPolicy) : bool :=
  match user with
  | None => false
  | Some user =>
      existsb (λ role, String.eqb role (u_Role user)) (ap_AllowedRoles policy)
      || existsb (λ groupID, bool_decide (groupID ∈ (list_to_set groupIDs : gset N))) (ap_AllowedGroups policy)
      || ((length (ap_AllowedRoles policy) =? 0)%nat && (length (ap_AllowedGroups policy) =? 0)%nat)
  end.

Definition viewerCanAccessService (user : option User) (groupIDs : list N) (item : Service) : bool :=
  match user with
  | None => false
  | Some u =>
      let '(policy, method, _, _) := EffectiveAccessForService item in
      if String.eqb method AccessMethodOIDCOnly && (negb (String.eqb (u_AuthProvider u) AuthProviderOIDC) || negb (u_Active u)) then false
      else if String.eqb (ap_AccessMode policy) "" || String.eqb (ap_AccessMode policy) AccessModePublic
              || String.eqb (ap_AccessMode policy) AccessModeAuthenticated then true
      else if String.eqb (ap_AccessMode policy) AccessModeRestricted then restrictedPolicyAllowsUser user groupIDs policy
      else false
  end.

Section bridge_host.
(** [url.Parse], with [URL.Host] in the struct, and [Hostname()]. *)
Variable url_Parse : string → option URL.
Variable url_Hostname : URL → string.
Variable FrontendBaseURL : string.

(** [normalizeBridgeHost] of this package (that of package auth is in Hosts.v). *)
Definition bridge_host (value : string) : string :=
  let trimmed := ToLower (TrimSpace value) in
  if String.eqb trimmed "" then ""
  else
    match url_Parse trimmed with
    | Some parsed =>
        if non_empty (u_Host parsed) then url_Hostname parsed
        else if ContainsByte trimmed ":" then match url_Parse ("http://" +:+ trimmed) with Some p => url_Hostname p | None => trimmed end
        else trimmed
    | None =>
        if ContainsByte trimmed ":" then match url_Parse ("http://" +:+ trimmed) with Some p => url_Hostname p | None => trimmed end
        else trimmed
    end.

(** One round of the loop over the services: the candidates so far, and whether one names the very host. *)
Definition bridge_candidate (host : string) (acc : list Service * bool) (item : Service) : list Service * bool :=
  let '(candidates, exact) := acc in
  let serviceHost := ToLower (ServiceHost item) in
  if negb (s_Enabled item) || negb (HostMatches serviceHost host) then (candidates, exact)
  else
    let '(candidates, exact) := if String.eqb serviceHost host && negb exact then ([], true) else (candidates, exact) in
    if exact && negb (String.eqb serviceHost host) then (candidates, exact)
    else (candidates ++ [item], exact).

Definition bridge_admits (user : option User) (groupIDs : list N) (host : string) (item : Service) : bool :=
  let '(policy, method, _, _) := EffectiveAccessForService item in
  LoginAllowedOnHost item host
  && (String.eqb method AccessMethodSession || String.eqb method AccessMethodOIDCOnly)
  && (String.eqb (ap_AccessMode policy) AccessModeAuthenticated || String.eqb (ap_AccessMode policy) AccessModeRestricted)
  && viewerCanAccessService user groupIDs item.

Definition sessionBridgeHostAllowed (services : list Service) (user : option User) (groupIDs : list N) (host : string) : bool :=
  let adminHost := bridge_host FrontendBaseURL in
  if non_empty adminHost && String.eqb adminHost host then false
  else existsb (bridge_admits user groupIDs host) (foldl (bridge_candidate host) ([], false) services).1.
End bridge_host.

(** * Grants for a route *)

Record routePINRequest := { rp_ServiceID : N; rp_PIN : string }.
Record routeVerifyEmailCodeRequest := { rv_ServiceID : N; rv_Email : string; rv_Code : string }.

Record route_state := { rs_auth : auth_state; rs_nodes : node_state }.

(** The address a grant is carried to. *)
Record route_grant := { rg_Host : string; rg_Token : string; rg_URL : string; rg_Cookie : Cookie }.

Inductive bridge_error := BridgeWildcardReturnTarget | BridgeInternal.

Section grants.
Context `{JWT}.
Variable hashToken : string → string.
Variable bcrypt_Compare : string → string → bool.
Variable url_Parse : string → option URL.
Variable url_String : URL → string.
Variable url_Hostname : URL → string.
(** [url.Values.Encode]. *)
Variable encode_values : list (string * string) → string.
(** [mail.Send] of a code to an address, and [crypto/hmac]. *)
Variable mail_Send : string → string → bool.
Variable hmac : string → string → string.
Variable cfg : AuthConfig.
Variable ncfg : NodeConfig.

Definition services_GetByID (services : list Service) (id : N) : option Service := List.find (λ s, N.eqb (s_ID s) id) services.

(** [query] is the returnTo parameter of the URL, [jti] the random identifier. *)
Definition buildRouteAccessBridgeURL (now : Z) (jti : option string) (r : Request) (query : string) (service : Service) (method email : string)
  : result bridge_error (string * string * string) :=
  let host := ServiceHost service in
  if negb (non_empty (TrimSpace host)) then Err BridgeInternal
  else
    let returnTo := let q := TrimSpace query in if non_empty q then q else TrimSpace (HGet (r_Header r) "X-Portlyn-Return-To") in
    match (if IsWildcardHost host then
             match url_Parse returnTo with
             | None => None
             | Some parsed =>
                 if negb (HostMatches host (url_Hostname parsed)) || negb (LoginAllowedOnHost service (url_Hostname parsed)) then None
                 else Some (ToLower (url_Hostname parsed))
             end
           else Some host) with
    | None => Err BridgeWildcardReturnTarget
    | Some host =>
        match jti with
        | None => Err BridgeInternal
        | Some jti =>
            match IssueRouteAccessBridgeToken url_Parse url_String cfg now (s_ID service) host method email returnTo jti with
            | None => Err BridgeInternal
            | Some token =>
                let scheme := if AllowInsecureDevMode ncfg then "http" else "https" in
                let values := ("token", token) :: (if non_empty returnTo then [("returnTo", returnTo)] else []) in
                Ok (host, token, scheme +:+ "://" +:+ host +:+ "/_portlyn/route-access?" +:+ encode_values values)
            end
        end
    end.

(** The end of both handlers. *)
Definition grant (now : Z) (jti : option string) (r : Request) (query : string) (service : Service) (method email : string)
  : api_reply route_grant :=
  match buildRouteAccessBridgeURL now jti r query service method email with
  | Err BridgeWildcardReturnTarget => ApiError 400 "invalid_return_target" "login is not enabled for this subdomain"
  | Err BridgeInternal => internalError
  | Ok (host, token, url) =>
      Answer {| rg_Host := host; rg_Token := token; rg_URL := url; rg_Cookie := route_access_cookie cfg now (s_ID service) method email |}
  end.

Definition with_rate (st : route_state) (n : node_state) : route_state := {| rs_auth := rs_auth st; rs_nodes := n |}.

Definition handleRoutePIN (now : Z) (jti : option string) (r : Request) (query : string) (req : routePINRequest) (services : list Service)
    (st : route_state) : api_reply route_grant * route_state :=
  match services_GetByID services (rp_ServiceID req) with
  | None => (not_found, st)
  | Some service =>
      let '(_, method, config, _) := EffectiveAccessForService service in
      if negb (String.eqb method AccessMethodPIN)
      then (ApiError 400 "invalid_access_method" "service is not protected by a route pin", st)
      else
        let pinHash := TrimSpace (stringValueFromAny (config !! "pin_hash")) in
        if String.eqb pinHash "" then (ApiError 409 "pin_not_configured" "route pin is not configured", st)
        else
          let '(ok, n) := enforceNodeRateLimit ncfg now r ("route_pin:" +:+ FormatUint (s_ID service))
                            (LoginAttempts (rateLimit cfg)) (Window (rateLimit cfg)) (rs_nodes st) in
          let st := with_rate st n in
          if negb ok then (ApiError 429 "rate_limited" "too many requests", st)
          else if negb (CheckPassword bcrypt_Compare pinHash (rp_PIN req)) then (ApiError 401 "invalid_pin" "invalid route pin", st)
          else (grant now jti r query service AccessMethodPIN "", st)
  end.

Definition verify_error (e : auth_error) : api_reply route_grant :=
  match e with
  | ErrOTPExpired => ApiError 401 "code_expired" "email code expired"
  | ErrOTPUsed => ApiError 401 "code_used" "email code was already used"
  | ErrInvalidCredentials => ApiError 401 "invalid_code" "invalid email or code"
  | _ => internalError
  end.

Definition handleRouteVerifyEmailCode (now : Z) (jti : option string) (r : Request) (query : string) (req : routeVerifyEmailCodeRequest)
    (services : list Service) (st : route_state) : api_reply route_grant * route_state :=
  match services_GetByID services (rv_ServiceID req) with
  | None => (not_found, st)
  | Some service =>
      let '(_, method, config, _) := EffectiveAccessForService service in
      if negb (String.eqb method AccessMethodEmailCode)
      then (ApiError 400 "invalid_access_method" "service is not protected by an email code", st)
      else if negb (validateRouteEmailDomain (rv_Email req) config)
      then (ApiError 403 "email_domain_not_allowed" "email domain is not allowed for this route", st)
      else
        let '(ok, n) := enforceNodeRateLimit ncfg now r ("route_email_verify:" +:+ FormatUint (s_ID service))
                          (LoginAttempts (rateLimit cfg)) (Window (rateLimit cfg)) (rs_nodes st) in
        let st := with_rate st n in
        if negb ok then (ApiError 429 "rate_limited" "too many requests", st)
        else
          let '(verdict, a) := VerifyRouteEmailCode hashToken now (s_ID service) (rv_Email req) (rv_Code req) (rs_auth st) in
          let st := {| rs_auth := a; rs_nodes := rs_nodes st |} in
          match verdict with
          | Err e => (verify_error e, st)
          | Ok _ => (grant now jti r query service AccessMethodEmailCode (rv_Email req), st)
          end
  end.
(** [OTPResponseIncludesCode] is [s.cfg.OTP.ResponseIncludesCode]; [code] the random code. *)
Definition handleRouteRequestEmailCode (OTPResponseIncludesCode : bool) (now : Z) (code : string) (r : Request) (serviceID : N) (email : string)
    (services : list Service) (st : route_state) : api_reply RouteEmailCodeResult * route_state :=
  match services_GetByID services serviceID with
  | None => (not_found, st)
  | Some service =>
      let '(_, method, config, _) := EffectiveAccessForService service in
      if negb (String.eqb method AccessMethodEmailCode)
      then (ApiError 400 "invalid_access_method" "service is not protected by an email code", st)
      else if negb (validateRouteEmailDomain email config)
      then (ApiError 403 "email_domain_not_allowed" "email domain is not allowed for this route", st)
      else
        let meta := {| m_RemoteAddr := clientIPForRequest (TrustedProxyCIDRs ncfg) r; m_UserAgent := HGet (r_Header r) "User-Agent" |} in
        let '(res, a) := RequestRouteEmailCode hashToken mail_Send cfg now (s_ID service) email meta
                           (AllowInsecureDevMode ncfg && OTPResponseIncludesCode) code (rs_auth st) in
        let st := {| rs_auth := a; rs_nodes := rs_nodes st |} in
        match res with
        | Ok result => (Answer result, st)
        | Err ErrRateLimited => (ApiError 429 "rate_limited" "too many code requests", st)
        | Err ErrOTPDisabled => (ApiError 404 "otp_disabled" "email code login is disabled", st)
        | Err ErrSMTPNotConfigured => (ApiError 409 "smtp_not_configured" "smtp is not configured for email delivery", st)
        | Err ErrSMTPDeliveryFailed => (ApiError 502 "smtp_delivery_failed" "route access email could not be delivered", st)
        | Err _ => (internalError, st)
        end
  end.

(** The context the guard leaves: the user, whether a token of the API authenticated it, its groups and session.
    [jtis] are the two random identifiers, drawn after the checks of [IssueSessionBridgeToken]. *)
Definition handleCreateSessionBridgeToken (FrontendBaseURL : string) (now : Z) (jtis : option (string * string)) (user : option User) (apiToken : bool)
    (groupIDs : list N) (session : option Session) (reqHost : string) (services : list Service) : api_reply string :=
  match user with
  | None => ApiError 401 "unauthorized" "missing session"
  | Some u =>
      if apiToken then ApiError 403 "forbidden" "session bridge requires a browser session"
      else
        let host := bridge_host url_Parse url_Hostname reqHost in
        if String.eqb host "" then ApiError 400 "validation_error" "invalid bridge host"
        else if negb (sessionBridgeHostAllowed url_Parse url_Hostname FrontendBaseURL services user groupIDs host)
        then ApiError 403 "forbidden" "bridge host is not a service you can access"
        else
          match IssueSessionBridgeToken hmac cfg now u session host (default "" (fst <$> jtis)) (default "" (snd <$> jtis)), jtis with
          | None, _ => ApiError 401 "unauthorized" "missing session"
          | Some _, None => internalError
          | Some bridgeToken, Some _ => Answer bridgeToken
          end
  end.
End grants.

(** * The two e-mail rules *)

Lemma elem_normalize e seen l :
  e ∈ normalize_emails seen l ↔ (e ≠ "") ∧ (e ∉ seen) ∧ (∃ v, v ∈ l ∧ ToLower (TrimSpace v) = e).
Proof.
  revert seen. induction l as [|v l IH]; intros seen; cbn [normalize_emails]; cbv zeta.
  { split; [inversion 1|]. intros (_ & _ & v & Hv & _). inversion Hv. }
  assert (∀ n, n = ToLower (TrimSpace v) → (∃ w, w ∈ v :: l ∧ ToLower (TrimSpace w) = e) ↔
                 e = n ∨ (∃ w, w ∈ l ∧ ToLower (TrimSpace w) = e)) as Hcons.
  { intros n ->. setoid_rewrite elem_of_cons. split; [intros (w & [->|Hw] & Hwe); eauto|]. intros [->|(w & Hw & Hwe)]; eauto. }
  specialize (Hcons _ eq_refl). rewrite Hcons. generalize (ToLower (TrimSpace v)) as n. clear Hcons. intros n.
  destruct (String.eqb_spec n "") as [->|Hn]; [rewrite IH; tauto|].
  destruct (existsb (String.eqb n) seen) eqn:Hx.
  - apply existsb_exists_elem in Hx as (y & Hy & Hyn). apply String.eqb_eq in Hyn as <-.
    rewrite IH. destruct (decide (e = n)) as [->|]; tauto.
  - assert (n ∉ seen) as Hns.
    { intros Hin. assert (existsb (String.eqb n) seen = true) as Ht; [|congruence].
      apply existsb_exists_elem. exists n. by rewrite String.eqb_refl. }
    rewrite elem_of_cons, IH, not_elem_of_cons. destruct (decide (e = n)) as [->|]; tauto.
Qed.

Lemma normalized_fixed l e : e ∈ normalizeAllowedEmails l → ToLower (TrimSpace e) = e ∧ TrimSpace e = e ∧ e ≠ "".
Proof.
  intros (He & _ & v & _ & <-)%elem_normalize.
  by rewrite TrimSpace_ToLower, TrimSpace_idem, ToLower_idem.
Qed.

(** [JSONObject.Scan] decodes a list of strings as a list of any. *)
Definition reload (v : Any) : Any := match v with AnyStrings l => AnySlice (map AnyString l) | _ => v end.

Lemma reload_strings l : (∀ e, e ∈ l → TrimSpace e ≠ "") → stringSliceFromAny (Some (reload (AnyStrings l))) = l.
Proof.
  cbn [reload stringSliceFromAny]. induction l as [|e l IH]; intros Hl; [done|]. cbn [map omap list_omap stringValueFromAny].
  assert (non_empty (TrimSpace e) = true) as ->.
  { specialize (Hl e ltac:(by constructor)). by destruct (TrimSpace e). }
  f_equal. apply IH. intros x Hx. apply Hl. by constructor.
Qed.

Lemma reload_allowed l :
  (∀ e, e ∈ l → ToLower (TrimSpace e) = e) →
  (∀ c, c !! "allowed_emails" = Some (AnyStrings l) → allowed_emails c = l) ∧
  (∀ c, c !! "allowed_emails" = Some (reload (AnyStrings l)) → allowed_emails c = l).
Proof.
  intros Hl. unfold allowed_emails, reload. split; intros c ->; induction l as [|e l IH]; try done; cbn [map omap list_omap];
    (f_equal; [apply Hl; constructor|]; apply IH; intros x Hx; apply Hl; by constructor).
Qed.

(** What a configuration of the e-mail code method says once it was built from a request, stored and read back. *)
Lemma built_config gen method req existing (c := buildAccessMethodConfig gen method req existing) :
  proxyMethod method = AccessMethodEmailCode →
  let emails := normalizeAllowedEmails (mc_AllowedEmails req) in
  c !! "allowed_emails" = (match emails with [] => None | _ => Some (AnyStrings emails) end) ∧
  c !! "allowed_email_domain" =
    (let allowed := TrimSpace (mc_AllowedEmailDomain req) in
     if non_empty allowed then Some (AnyString (TrimPrefix (ToLower allowed) "@")) else None).
Proof.
  intros Hm emails. subst c. unfold buildAccessMethodConfig. rewrite Hm. cbv zeta.
  change (String.eqb AccessMethodEmailCode AccessMethodPIN) with false. rewrite String.eqb_refl. cbv iota. fold emails.
  unfold set_or_delete.
  destruct emails as [|e l]; cbn [length Nat.ltb Nat.leb]; split; destruct (non_empty (TrimSpace (mc_AllowedEmailDomain req)));
    by simplify_map_eq.
Qed.

Lemma rules_on c email :
  (∀ e, e ∈ allowed_emails c → ToLower (TrimSpace e) = e ∧ e ≠ "") →
  stringSliceFromAny (c !! "allowed_emails") = allowed_emails c →
  let domain := ToLower (TrimSpace (stringValueFromAny (c !! "allowed_email_domain"))) in
  (validateRouteEmailDomain email c = true → routeEmailAllowed email c = true) ∧
  (domain ≠ "@" ∨ allowed_emails c ≠ [] → validateRouteEmailDomain email c = routeEmailAllowed email c).
Proof.
  intros Hl Hs domain. unfold validateRouteEmailDomain, routeEmailAllowed. rewrite Hs. fold domain.
  set (n := ToLower (TrimSpace email)).
  destruct (allowed_emails c) as [|e l] eqn:Ha.
  - cbn [normalizeAllowedEmails normalize_emails length Nat.ltb Nat.leb].
    destruct (c !! "allowed_email_domain") as [[raw| | |]|]; cbn [stringValueFromAny] in domain; subst domain; try done.
    set (d := ToLower (TrimSpace raw)). destruct (String.eqb_spec d "") as [->|Hd]; [done|].
    assert (TrimPrefix d "@" = "" → d = "@") as Hat.
    { unfold TrimPrefix. destruct (HasPrefix d "@") eqn:Hp; [|done]. apply HasPrefix_spec in Hp as [t ->]. cbn. by intros ->. }
    destruct (String.eqb_spec (TrimPrefix d "@") "") as [Hz|Hz]; [|done].
    split; [done|]. intros [Hne|Hne]; [|done]. by rewrite (Hat Hz) in Hne.
  - match goal with |- (?a = true → ?b = true) ∧ _ => enough (a = b) as -> by done end.
    assert ((0 <? length (normalizeAllowedEmails (e :: l)))%nat = true) as Hlen.
    { apply Nat.ltb_lt. destruct (normalizeAllowedEmails (e :: l)) as [|? ?] eqn:Hn; [|cbn; lia].
      exfalso. assert (e ∈ normalizeAllowedEmails (e :: l)) as Hin; [|rewrite Hn in Hin; inversion Hin].
      apply elem_normalize. destruct (Hl e) as [He He0]; [constructor|].
      split; [done|]. split; [apply not_elem_of_nil|]. exists e. split; [constructor|done]. }
    rewrite Hlen. cbn [length Nat.ltb Nat.leb]. apply eq_true_iff_eq. rewrite !existsb_exists_elem. split.
    + intros (x & (Hx0 & _ & v & Hv & Hvx)%elem_normalize & Hnx). apply String.eqb_eq in Hnx as ->.
      exists v. destruct (Hl v Hv) as [Hvf Hv0]. split; [done|]. rewrite <-Hvx, Hvf, String.eqb_refl.
      by rewrite (proj2 (String.eqb_neq _ _) Hv0).
    + intros (x & Hx & Hb). destruct (Hl x Hx) as [Hxf Hx0]. rewrite (proj2 (String.eqb_neq _ _) Hx0) in Hb.
      apply String.eqb_eq in Hb as <-. exists x. rewrite String.eqb_refl. split; [|done].
      apply elem_normalize. split; [done|]. split; [apply not_elem_of_nil|eauto].
Qed.

(** The e-mail rule of a route is written twice: the API applies it before it sends or accepts a code, the proxy when the
    grant is used. On every configuration the API builds, as it is built and as it is read back from the database, an
    address the API sends a code to is an address the proxy lets in, whatever the address; and the two rules are the same
    rule, with the one exception of a domain that is just "@", for which the API asks for an empty domain and the proxy for
    nothing. *)
Theorem email_rules_agree gen method req existing email :
  proxyMethod method = AccessMethodEmailCode →
  ∀ c, c = buildAccessMethodConfig gen method req existing ∨ c = reload <$> buildAccessMethodConfig gen method req existing →
  (validateRouteEmailDomain email c = true → routeEmailAllowed email c = true) ∧
  (ToLower (TrimSpace (stringValueFromAny (c !! "allowed_email_domain"))) ≠ "@" →
   validateRouteEmailDomain email c = routeEmailAllowed email c).
Proof.
  intros Hm c Hc. destruct (built_config gen method req existing Hm) as [He _].
  set (emails := normalizeAllowedEmails (mc_AllowedEmails req)) in *.
  assert (∀ e, e ∈ emails → ToLower (TrimSpace e) = e) as Hfix by (intros e Hx; by apply normalized_fixed in Hx as (? & _)).
  assert (allowed_emails c = emails ∧ stringSliceFromAny (c !! "allowed_emails") = emails) as [Ha Hs].
  { destruct (reload_allowed emails Hfix) as [H1 H2].
    destruct Hc as [->| ->]; rewrite ?lookup_fmap, He; destruct emails as [|e l] eqn:Hem.
    - unfold allowed_emails. by rewrite He.
    - by rewrite (H1 _ He).
    - unfold allowed_emails. by rewrite lookup_fmap, He.
    - rewrite H2 by (by rewrite lookup_fmap, He). split; [done|]. cbn [fmap option_fmap option_map].
      apply reload_strings. intros x Hx. rewrite <-Hem in Hx. apply normalized_fixed in Hx as (_ & -> & ?). done. }
  destruct (rules_on c email) as [H1 H2]; [|congruence|].
  - rewrite Ha. intros e Hx. apply normalized_fixed in Hx as (? & _ & ?). done.
  - split; [done|]. intros Hd. apply H2. by left.
Qed.

(** * Which hosts a session is bridged to *)

Section bridge_theorems.
Variable url_Parse : string → option URL.
Variable url_Hostname : URL → string.
Variable host : string.

Definition live (s : Service) : bool := s_Enabled s && HostMatches (ToLower (ServiceHost s)) host.
Definition names (s : Service) : bool := live s && String.eqb (ToLower (ServiceHost s)) host.

Lemma names_live s : names s = true → live s = true.
Proof. unfold names. by intros [? _]%andb_true_iff. Qed.

Lemma bridge_candidates services acc exact :
  (exact = true → Forall (λ s, names s = true) acc) →
  foldl (bridge_candidate host) (acc, exact) services =
    if exact || existsb names services
    then ((if exact then acc else []) ++ List.filter names services, true)
    else (acc ++ List.filter live services, false).
Proof.
  revert acc exact. induction services as [|s l IH]; intros acc exact Hacc; cbn [foldl existsb List.filter].
  { rewrite orb_false_r, !app_nil_r. by destruct exact. }
  assert (bridge_candidate host (acc, exact) s =
    if names s then ((if exact then acc else []) ++ [s], true)
    else if live s then (if exact then (acc, true) else (acc ++ [s], false)) else (acc, exact)) as ->.
  { unfold bridge_candidate, names, live. cbv zeta. destruct (s_Enabled s); cbn [negb orb andb]; [|done].
    destruct (HostMatches _ _); cbn [negb andb]; [|done]. by destruct (String.eqb _ _), exact. }
  destruct (names s) eqn:Hn.
  - rewrite (names_live s Hn), orb_true_r. rewrite IH.
    + cbn [orb]. by rewrite <-app_assoc.
    + intros _. apply Forall_app. split; [destruct exact; [by apply Hacc|constructor]|by constructor].
  - cbn [orb]. destruct (live s); [|by rewrite IH]. destruct exact.
    + rewrite IH by done. cbn [orb]. done.
    + rewrite IH by done. cbn [orb]. destruct (existsb names l); [done|]. by rewrite <-app_assoc.
Qed.

Lemma bridge_host_allowed services user groupIDs FrontendBaseURL :
  sessionBridgeHostAllowed url_Parse url_Hostname FrontendBaseURL services user groupIDs host = true ↔
  (bridge_host url_Parse url_Hostname FrontendBaseURL = "" ∨ bridge_host url_Parse url_Hostname FrontendBaseURL ≠ host) ∧
  ∃ s, s ∈ services ∧ live s = true ∧ (names s = true ∨ ∀ s', s' ∈ services → names s' = false) ∧
       bridge_admits user groupIDs host s = true.
Proof.
  unfold sessionBridgeHostAllowed. cbv zeta. generalize (bridge_host url_Parse url_Hostname FrontendBaseURL) as admin. intros admin.
  assert (non_empty admin && String.eqb admin host = false ↔ admin = "" ∨ admin ≠ host) as <-.
  { destruct admin as [|x admin]; cbn [non_empty andb]; [tauto|]. pose proof (String.eqb_neq (String x admin) host); split; [tauto|intros [?|?]; [done|tauto]]. }
  destruct (non_empty admin && String.eqb admin host); [split; [done|by intros [? _]]|].
  rewrite bridge_candidates by done. cbn [orb app fst].
  destruct (existsb names services) eqn:Hex; cbn [fst]; rewrite existsb_exists_elem; setoid_rewrite list_elem_of_In; setoid_rewrite filter_In.
  - apply existsb_exists in Hex as (s0 & Hs0 & Hn0). split.
    + intros (s & (Hs & Hn) & Ha). split; [done|]. exists s. auto using names_live.
    + intros (_ & s & Hs & Hl & [Hn|Hno] & Ha); [by exists s|]. rewrite Hno in Hn0; done.
  - assert (∀ s', In s' services → names s' = false) as Hno.
    { intros s' Hs'. apply not_true_is_false. intros Hn. rewrite (proj2 (existsb_exists _ _)) in Hex; eauto. done. }
    split.
    + intros (s & (Hs & Hl) & Ha). split; [done|]. exists s. auto.
    + intros (_ & s & Hs & Hl & _ & Ha). by exists s.
Qed.
End bridge_theorems.

(** The rule for restricted services is written twice, and the copy of the console, which decides what a viewer is shown and where
    a session may be bridged to, admits everyone the proxy admits and, when the policy names neither a role nor a group, every
    user, where the proxy admits none. *)
Theorem restricted_copies_differ user groupIDs policy :
  restrictedPolicyAllowsUser user groupIDs policy =
  isAllowedByRestrictedPolicy user groupIDs policy ||
  (bool_decide (is_Some user) && bool_decide (ap_AllowedRoles policy = []) && bool_decide (ap_AllowedGroups policy = [])).
Proof.
  unfold restrictedPolicyAllowsUser, isAllowedByRestrictedPolicy. destruct user as [u|]; [|by rewrite bool_decide_eq_false_2 by apply is_Some_None].
  rewrite (bool_decide_eq_true_2 (is_Some (Some u))) by done. cbn [andb]. cbv zeta. f_equal.
  f_equal; [by destruct (ap_AllowedRoles policy)|by destruct (ap_AllowedGroups policy)].
Qed.

(** When the session of a browser is handed to another host: exactly when a user with a session, not a token of the API,
    asks for a host that is not the console's own and that an enabled service serves, the services that name the very host
    hiding those that match it by a wildcard, and one of these services takes the login on that host, is protected by a
    session and admits the user. *)
Theorem session_bridge_spec `{JWT} url_Parse url_Hostname hmac cfg frontend now jtis user apiToken groupIDs session reqHost services :
  let host := bridge_host url_Parse url_Hostname reqHost in
  (∃ tok, handleCreateSessionBridgeToken url_Parse url_Hostname hmac cfg frontend now jtis user apiToken groupIDs session reqHost services = Answer tok) ↔
  (∃ u, user = Some u ∧ u_ID u ≠ 0%N) ∧ apiToken = false ∧ is_Some session ∧ is_Some jtis ∧
  host ≠ "" ∧ normalizeBridgeHost host ≠ "" ∧
  (bridge_host url_Parse url_Hostname frontend = "" ∨ bridge_host url_Parse url_Hostname frontend ≠ host) ∧
  ∃ s, s ∈ services ∧ live host s = true ∧ (names host s = true ∨ ∀ s', s' ∈ services → names host s' = false) ∧
       bridge_admits user groupIDs host s = true.
Proof.
  intros host. unfold handleCreateSessionBridgeToken. cbv zeta. fold host.
  rewrite <-(bridge_host_allowed url_Parse url_Hostname).
  destruct user as [u|]; [|split; [by intros [? ?]|by intros ((? & ? & _) & _)]].
  destruct apiToken; [split; [by intros [? ?]|by intros (_ & ? & _)]|].
  destruct (String.eqb_spec host "") as [Hh|Hh]; [split; [by intros [? ?]|by intros (_ & _ & _ & _ & ? & _)]|].
  destruct (sessionBridgeHostAllowed _ _ _ _ _ _ _); cbn [negb]; [|split; [by intros [? ?]|by intros (_ & _ & _ & _ & _ & _ & ?)]].
  unfold IssueSessionBridgeToken. cbv zeta.
  destruct (N.eqb_spec (u_ID u) 0) as [Hu|Hu]; cbn [orb].
  { split; [by intros [? ?]|]. intros ((? & [= <-] & ?) & _). done. }
  destruct (normalizeBridgeHost host) as [|? ?] eqn:Hn; cbn [non_empty negb].
  { split; [by intros [? ?]|]. by intros (_ & _ & _ & _ & _ & ? & _). }
  destruct session; [|split; [by intros [? ?]|by intros (_ & _ & [? ?] & _)]].
  destruct jtis; [|split; [by intros [? ?]|by intros (_ & _ & _ & [? ?] & _)]].
  split; [intros _; split_and!; eauto|]. intros _. by eexists.
Qed.

(** * What a grant is given for *)

Section grant_theorems.
Context `{JWT}.
Variable hashToken : string → string.
Variable bcrypt_Compare : string → string → bool.
Variable url_Parse : string → option URL.
Variable url_String : URL → string.
Variable url_Hostname : URL → string.
Variable encode_values : list (string * string) → string.
Variable cfg : AuthConfig.
Variable ncfg : NodeConfig.

(** A grant names one service, the method it is protected by and an address, and goes to a host of that service on which it
    takes logins. *)
Definition route_granted (now : Z) (service : Service) (method email : string) (g : route_grant) : Prop :=
  HostMatches (ServiceHost service) (rg_Host g) = true ∧ LoginAllowedOnHost service (rg_Host g) = true ∧
  rg_Cookie g = route_access_cookie cfg now (s_ID service) method email ∧
  ∃ returnTo jti, IssueRouteAccessBridgeToken url_Parse url_String cfg now (s_ID service) (rg_Host g) method email returnTo jti = Some (rg_Token g).

Lemma HostMatches_lower p h : HostMatches p (ToLower h) = HostMatches p h.
Proof. unfold HostMatches. by rewrite TrimSpace_ToLower, ToLower_idem. Qed.

Lemma LoginAllowedOnHost_lower s h : LoginAllowedOnHost s (ToLower h) = LoginAllowedOnHost s h.
Proof. unfold LoginAllowedOnHost. by rewrite TrimSpace_ToLower, ToLower_idem. Qed.

Lemma grant_granted now jti r query service method email g :
  grant url_Parse url_String url_Hostname encode_values cfg ncfg now jti r query service method email = Answer g →
  route_granted now service method email g.
Proof.
  pose proof (canonical_host_eq _ (ServiceHostname_canonical (d_Name (s_Domain service)) (s_Subdomain service))) as Hw.
  fold (ServiceHost service) in Hw. unfold grant, buildRouteAccessBridgeURL. cbv zeta. set (h := ServiceHost service) in *. set (returnTo := if non_empty _ then _ else _).
  destruct (non_empty (TrimSpace h)) eqn:Hne; cbn [negb]; [|done].
  match goal with |- context [match ?m with None => Err BridgeWildcardReturnTarget | _ => _ end] => destruct m as [host|] eqn:Hh; [|done] end.
  destruct jti as [jti|]; [|done].
  destruct (IssueRouteAccessBridgeToken _ _ _ _ _ _ _ _ _ _) as [token|] eqn:Htok; [|done].
  intros [= <-]. cbn [rg_Host rg_Token rg_Cookie]. unfold route_granted. cbn [rg_Host rg_Token rg_Cookie].
  assert (HostMatches h host = true ∧ LoginAllowedOnHost service host = true) as [H1 H2]; [|eauto 8].
  destruct (IsWildcardHost h) eqn:Hwild.
  - destruct (url_Parse returnTo) as [parsed|]; [|done].
    destruct (HostMatches h _) eqn:Hm; [|done]. destruct (LoginAllowedOnHost service _) eqn:Hl; [|done].
    cbn [negb orb] in Hh. injection Hh as <-. by rewrite HostMatches_lower, LoginAllowedOnHost_lower.
  - injection Hh as <-. split.
    + unfold HostMatches. rewrite Hw, Hwild, String.eqb_refl. cbn [negb].
      destruct (String.eqb_spec h "") as [He|]; [|done]. by rewrite He in Hne.
    + unfold LoginAllowedOnHost. fold h. by rewrite Hwild.
Qed.

(** C16 A route is opened only against its own proof. A PIN opens only a service whose effective method is a PIN, and only when
    it matches the hash stored for it; an e-mail code only a service whose effective method is the e-mail code, for an
    address its rule allows, and only against an unused, unexpired code that was stored for this service and this address
    and that is used up by it. What is handed out is a grant for that service, method and address, carried to a host of
    that service on which it takes logins; and neither handler touches anything but the code and the rate limiter. *)
Theorem route_grants_checked now jti r query services st :
  (∀ req g st',
     handleRoutePIN bcrypt_Compare url_Parse url_String url_Hostname encode_values cfg ncfg now jti r query req services st = (Answer g, st') →
     ∃ service policy config inherited raw,
       services_GetByID services (rp_ServiceID req) = Some service ∧
       EffectiveAccessForService service = (policy, AccessMethodPIN, config, inherited) ∧
       config !! "pin_hash" = Some (AnyString raw) ∧ bcrypt_Compare (TrimSpace raw) (rp_PIN req) = true ∧
       route_granted now service AccessMethodPIN "" g ∧ rs_auth st' = rs_auth st) ∧
  (∀ req g st',
     handleRouteVerifyEmailCode hashToken url_Parse url_String url_Hostname encode_values cfg ncfg now jti r query req services st = (Answer g, st') →
     ∃ service policy config inherited t,
       services_GetByID services (rv_ServiceID req) = Some service ∧
       EffectiveAccessForService service = (policy, AccessMethodEmailCode, config, inherited) ∧
       validateRouteEmailDomain (rv_Email req) config = true ∧
       latest_token (scope_cond hashToken (ToLower (TrimSpace (rv_Email req))) (rv_Code req) LoginTokenScopeRouteAccess (Some (s_ID service)))
         (rs_auth st) = Ok t ∧
       unused t = true ∧ (now ≤ lt_ExpiresAt t)%Z ∧ loginTokens_MarkUsed (rs_auth st) (lt_ID t) now = Ok (rs_auth st') ∧
       route_granted now service AccessMethodEmailCode (rv_Email req) g).
Proof.
  split.
  - intros req g st'. unfold handleRoutePIN. destruct (services_GetByID _ _) as [service|]; [|by intros [? _]%pair_eq].
    destruct (EffectiveAccessForService service) as [[[policy method] config] inherited] eqn:He.
    destruct (String.eqb_spec method AccessMethodPIN) as [->|]; cbn [negb]; [|by intros [? _]%pair_eq]. cbv zeta.
    destruct (String.eqb_spec (TrimSpace (stringValueFromAny (config !! "pin_hash"))) "") as [|Hpin]; [by intros [? _]%pair_eq|].
    destruct (enforceNodeRateLimit _ _ _ _ _ _ _) as [[] n]; cbn [negb]; [|by intros [? _]%pair_eq].
    destruct (CheckPassword _ _ _) eqn:Hc; cbn [negb]; [|by intros [? _]%pair_eq].
    intros [Hg <-]%pair_eq. apply grant_granted in Hg. cbn [with_rate rs_auth].
    destruct (config !! "pin_hash") as [[raw| | |]|] eqn:Hraw; try done.
    unfold CheckPassword in Hc. apply andb_true_iff in Hc as [_ Hc].
    exists service, policy, config, inherited, raw. by split_and!.
  - intros req g st'. unfold handleRouteVerifyEmailCode. destruct (services_GetByID _ _) as [service|]; [|by intros [? _]%pair_eq].
    destruct (EffectiveAccessForService service) as [[[policy method] config] inherited] eqn:He.
    destruct (String.eqb_spec method AccessMethodEmailCode) as [->|]; cbn [negb]; [|by intros [? _]%pair_eq]. cbv zeta.
    destruct (validateRouteEmailDomain _ _) eqn:Hv; cbn [negb]; [|by intros [? _]%pair_eq].
    destruct (enforceNodeRateLimit _ _ _ _ _ _ _) as [[] n]; cbn [negb]; [|by intros [? _]%pair_eq]. cbn [with_rate rs_auth].
    destruct (VerifyRouteEmailCode _ _ _ _ _ _) as [[[]|e] a] eqn:Hr; [|by destruct e; intros [? _]%pair_eq].
    intros [Hg <-]%pair_eq. apply grant_granted in Hg. apply route_code_facts in Hr as (t & Ht & Hu & Hexp & Hm).
    exists service, policy, config, inherited, t. by split_and!.
Qed.
End grant_theorems.

(** * Witnesses *)

Definition pin_service (method : string) (config : JSONObject) : Service :=
  let s := sample_service 4 "app" "/" in
  {| s_ID := s_ID s; s_Name := s_Name s; s_DomainID := s_DomainID s; s_Domain := s_Domain s; s_Subdomain := s_Subdomain s;
     s_Path := s_Path s; s_TargetURL := s_TargetURL s; s_TLSMode := s_TLSMode s; s_PassHostHeader := s_PassHostHeader s;
     s_UpstreamSkipVerify := s_UpstreamSkipVerify s; s_UpstreamCAPEM := s_UpstreamCAPEM s; s_UpstreamServerName := s_UpstreamServerName s;
     s_AuthPolicy := s_AuthPolicy s; s_AccessMode := AccessModeAuthenticated; s_AllowedRoles := s_AllowedRoles s;
     s_AllowedGroups := s_AllowedGroups s; s_AllowedServiceGroups := s_AllowedServiceGroups s; s_UseGroupPolicy := s_UseGroupPolicy s;
     s_AccessMethod := method; s_AccessMethodConfig := config; s_AccessMessage := s_AccessMessage s; s_IPAllowlist := s_IPAllowlist s;
     s_IPBlocklist := s_IPBlocklist s; s_AllowedCountries := s_AllowedCountries s; s_BlockedCountries := s_BlockedCountries s;
     s_AccessWindows := s_AccessWindows s; s_AccessRules := s_AccessRules s; s_LoginHosts := s_LoginHosts s;
     s_LastDeployedAt := s_LastDeployedAt s; s_DeploymentRevision := s_DeploymentRevision s; s_Enabled := true; s_NodeID := s_NodeID s;
     s_Node := s_Node s; s_ServiceGroups := s_ServiceGroups s |}.

Definition email_request : accessMethodConfigRequest :=
  {| mc_PIN := ""; mc_Hint := "ask"; mc_AllowedEmailDomain := " @Example.com"; mc_AllowedEmails := [] |}.
Definition pin_request : accessMethodConfigRequest :=
  {| mc_PIN := "4711"; mc_Hint := ""; mc_AllowedEmailDomain := ""; mc_AllowedEmails := [] |}.

Lemma email_rules_agree_witness :
  (let c := buildAccessMethodConfig (λ _, None) AccessMethodEmailCode email_request ∅ in
   validateRouteEmailDomain "Ann@example.com" c = true ∧ validateRouteEmailDomain "ann@example.org" c = false ∧
   validateRouteEmailDomain "ann@example.org" c = routeEmailAllowed "ann@example.org" c).
Proof.
  split; [vm_compute; reflexivity|]. split; [vm_compute; reflexivity|].
  eapply (email_rules_agree (λ _, None) AccessMethodEmailCode email_request ∅); [reflexivity|by left|vm_compute; discriminate].
Defined.

Definition pin_config : JSONObject := buildAccessMethodConfig (λ pin, Some ("h:" +:+ pin)) AccessMethodPIN pin_request ∅.
Definition route_sample : route_state := {| rs_auth := empty_auth; rs_nodes := enroll_state |}.
Definition try_pin (pin : string) : api_reply route_grant * route_state :=
  handleRoutePIN LoginSafety.sample_bcrypt Redirects.sample_parse Redirects.sample_url_string u_Host (λ _, "token=t") sample_config node_config
    0 (Some "j") (api_request "POST" "/api/v1/route-auth/pin" []) "" {| rp_ServiceID := 4; rp_PIN := pin |}
    [pin_service AccessMethodPIN pin_config] route_sample.

Lemma route_grants_checked_witness :
  (try_pin "4712").1 = ApiError 401 "invalid_pin" "invalid route pin" ∧
  ∃ g, (try_pin "4711").1 = Answer g ∧ rg_Host g = "app.example.com" ∧
    HostMatches "app.example.com" (rg_Host g) = true.
Proof.
  split; [vm_compute; reflexivity|].
  assert (match (try_pin "4711").1 with Answer g => String.eqb (rg_Host g) "app.example.com" | _ => false end = true) as Hh
    by (vm_compute; reflexivity).
  destruct (try_pin "4711") as [a st] eqn:Ht. destruct a as [|g]; cbn [fst] in Hh; [exfalso; discriminate Hh|]. apply String.eqb_eq in Hh.
  exists g. split; [done|]. split; [done|].
  destruct (route_grants_checked sample_hash LoginSafety.sample_bcrypt Redirects.sample_parse Redirects.sample_url_string u_Host (λ _, "token=t") sample_config
    node_config 0 (Some "j") (api_request "POST" "/api/v1/route-auth/pin" []) "" [pin_service AccessMethodPIN pin_config] route_sample) as [Hp _].
  destruct (Hp _ _ _ Ht) as (service & p & c & i & raw & Hs & _ & _ & _ & Hg & _).
  assert (service = pin_service AccessMethodPIN pin_config) as -> by (cbn in Hs; congruence).
  exact (proj1 Hg).
Defined.
