(* ===== verification/CrowdSec.v ===== *)
(** The reputation list: internal/security/crowdsec.go and the counters of crowdsec_metrics.go.

    A CrowdSec server streams decisions, new and withdrawn ones; Portlyn keeps them as a map from the text of an address and
    a list of prefixes, and the proxy asks it about every client. The server is a parameter: what it answers to a request.
    The list is related below to its history: an address is blocked when the last decision on it was not withdrawn. *)
From S2P Require Import Prelude GoStrings Netip Netguard Requests Handler.

#[local] Open Scope string_scope.
#[local] Open Scope list_scope.

(** * State *)

Record decisionEntry := { de_reason : string; de_origin : string }.
Record decisionPrefix := { dp_prefix : Prefix; dp_reason : string; dp_origin : string }.

Record Decision := {
  dec_ID : Z; dec_Duration : string; dec_Type : string; dec_Scope : string; dec_Value : string; dec_Origin : string; dec_Scenario : string;
}.

Record decisionsStream := { ds_New : list Decision; ds_Deleted : list Decision }.

Record CrowdSec := {
  cs_apiURL : string; cs_apiKey : string; cs_interval : Z; cs_startup : bool; cs_version : string; cs_startedAt : Z;
  cs_lastSuccess : Z; cs_synced : bool;
  ipDecisions : gmap string decisionEntry; prefixDecisions : list decisionPrefix;
  cs_processed : Z; cs_dropped : gmap string Z;
  cs_cancel : bool;                                  (* a loop is running *)
}.

Definition with_decisions (c : CrowdSec) (ips : gmap string decisionEntry) (prefixes : list decisionPrefix) : CrowdSec :=
  {| cs_apiURL := cs_apiURL c; cs_apiKey := cs_apiKey c; cs_interval := cs_interval c; cs_startup := cs_startup c;
     cs_version := cs_version c; cs_startedAt := cs_startedAt c; cs_lastSuccess := cs_lastSuccess c; cs_synced := cs_synced c;
     ipDecisions := ips; prefixDecisions := prefixes; cs_processed := cs_processed c; cs_dropped := cs_dropped c; cs_cancel := cs_cancel c |}.

Definition with_counters (c : CrowdSec) (processed : Z) (dropped : gmap string Z) : CrowdSec :=
  {| cs_apiURL := cs_apiURL c; cs_apiKey := cs_apiKey c; cs_interval := cs_interval c; cs_startup := cs_startup c;
     cs_version := cs_version c; cs_startedAt := cs_startedAt c; cs_lastSuccess := cs_lastSuccess c; cs_synced := cs_synced c;
     ipDecisions := ipDecisions c; prefixDecisions := prefixDecisions c; cs_processed := processed; cs_dropped := dropped;
     cs_cancel := cs_cancel c |}.

Definition with_sync (c : CrowdSec) (startup : bool) (lastSuccess : Z) (synced : bool) : CrowdSec :=
  {| cs_apiURL := cs_apiURL c; cs_apiKey := cs_apiKey c; cs_interval := cs_interval c; cs_startup := startup;
     cs_version := cs_version c; cs_startedAt := cs_startedAt c; cs_lastSuccess := lastSuccess; cs_synced := synced;
     ipDecisions := ipDecisions c; prefixDecisions := prefixDecisions c; cs_processed := cs_processed c; cs_dropped := cs_dropped c;
     cs_cancel := cs_cancel c |}.

Definition NewCrowdSec : CrowdSec :=
  {| cs_apiURL := ""; cs_apiKey := ""; cs_interval := 60 * Second; cs_startup := false; cs_version := ""; cs_startedAt := 0;
     cs_lastSuccess := 0; cs_synced := false; ipDecisions := ∅; prefixDecisions := []; cs_processed := 0; cs_dropped := ∅; cs_cancel := false |}.

(** The dialer's [Control]: the address a request of the client is connected to. *)
Definition crowdsec_Control (address : string) : bool :=
  match SplitHostPort address with
  | None => false
  | Some (host, _) => match ParseAddr host with None => false | Some addr => negb (IsBlockedAddr addr) end
  end.

Definition crowdsec_Configure (c : CrowdSec) (apiURL apiKey : string) (interval : Z) : CrowdSec :=
  {| cs_apiURL := TrimRight (TrimSpace apiURL) "/"; cs_apiKey := TrimSpace apiKey;
     cs_interval := if (0 <? interval)%Z then interval else cs_interval c; cs_startup := cs_startup c;
     cs_version := cs_version c; cs_startedAt := cs_startedAt c; cs_lastSuccess := cs_lastSuccess c; cs_synced := cs_synced c;
     ipDecisions := ipDecisions c; prefixDecisions := prefixDecisions c; cs_processed := cs_processed c; cs_dropped := cs_dropped c;
     cs_cancel := cs_cancel c |}.

Definition crowdsec_Enabled (c : CrowdSec) : bool := non_empty (cs_apiURL c) && non_empty (cs_apiKey c).

(** Whether the loops were started, and the state they start from. *)
Definition crowdsec_Start (now : Z) (c : CrowdSec) : bool * CrowdSec :=
  if cs_cancel c then (false, c)
  else if negb (non_empty (cs_apiURL c)) || negb (non_empty (cs_apiKey c)) then (false, c)
  else (true,
    {| cs_apiURL := cs_apiURL c; cs_apiKey := cs_apiKey c; cs_interval := cs_interval c; cs_startup := true;
       cs_version := cs_version c; cs_startedAt := now; cs_lastSuccess := cs_lastSuccess c; cs_synced := cs_synced c;
       ipDecisions := ipDecisions c; prefixDecisions := prefixDecisions c; cs_processed := cs_processed c; cs_dropped := cs_dropped c;
       cs_cancel := true |}).

Definition crowdsec_Stop (c : CrowdSec) : CrowdSec :=
  {| cs_apiURL := cs_apiURL c; cs_apiKey := cs_apiKey c; cs_interval := cs_interval c; cs_startup := cs_startup c;
     cs_version := cs_version c; cs_startedAt := cs_startedAt c; cs_lastSuccess := cs_lastSuccess c; cs_synced := cs_synced c;
     ipDecisions := ipDecisions c; prefixDecisions := prefixDecisions c; cs_processed := cs_processed c; cs_dropped := cs_dropped c;
     cs_cancel := false |}.

(** * Decisions *)

Definition decisionOrigin (dec : Decision) : string :=
  let origin := TrimSpace (dec_Origin dec) in
  if EqualFold origin "lists" && non_empty (dec_Scenario dec) then "lists:" +:+ dec_Scenario dec
  else if String.eqb origin "" then "unknown"
  else origin.

Definition addLocked (c : CrowdSec) (dec : Decision) : CrowdSec :=
  let value := TrimSpace (dec_Value dec) in
  if String.eqb value "" then c
  else
    let reason := if String.eqb (dec_Scenario dec) "" then dec_Origin dec else dec_Scenario dec in
    let origin := decisionOrigin dec in
    if EqualFold (dec_Scope dec) "ip" then
      with_decisions c (<[value := {| de_reason := reason; de_origin := origin |}]> (ipDecisions c)) (prefixDecisions c)
    else if EqualFold (dec_Scope dec) "range" then
      match ParsePrefix value with
      | None => c
      | Some prefix =>
          with_decisions c (ipDecisions c)
            (prefixDecisions c ++ [{| dp_prefix := Masked prefix; dp_reason := reason; dp_origin := origin |}])
      end
    else c.

Definition removeLocked (c : CrowdSec) (dec : Decision) : CrowdSec :=
  let value := TrimSpace (dec_Value dec) in
  if String.eqb value "" then c
  else if EqualFold (dec_Scope dec) "ip" then with_decisions c (delete value (ipDecisions c)) (prefixDecisions c)
  else if EqualFold (dec_Scope dec) "range" then
    match ParsePrefix value with
    | None => c
    | Some prefix =>
        let prefix := Masked prefix in
        with_decisions c (ipDecisions c) (List.filter (λ item, negb (bool_decide (dp_prefix item = prefix))) (prefixDecisions c))
    end
  else c.

(** [apply]. *)
Definition apply_stream (c : CrowdSec) (stream : decisionsStream) : CrowdSec :=
  foldl addLocked (foldl removeLocked c (ds_Deleted stream)) (ds_New stream).

Definition recordProcessed (c : CrowdSec) : CrowdSec := with_counters c (u64 (cs_processed c + 1)) (cs_dropped c).
Definition recordDropped (c : CrowdSec) (origin : string) : CrowdSec :=
  with_counters c (cs_processed c) (<[origin := u64 (default 0%Z (cs_dropped c !! origin) + 1)]> (cs_dropped c)).

(** The address of a [net.IP], which has no zone; its text is that of the unmapped address. *)
Definition ip_addr (ip : Addr) : Addr := Unmap (match ip with Addr6 n _ => Addr6 n "" | a => a end).

(** The entry that decides about an address. *)
Definition decision_for (c : CrowdSec) (addr : Addr) : option decisionEntry :=
  match ipDecisions c !! AddrString addr with
  | Some entry => Some entry
  | None =>
      (λ p, {| de_reason := dp_reason p; de_origin := dp_origin p |}) <$> List.find (λ p, PrefixContains (dp_prefix p) addr) (prefixDecisions c)
  end.

(** [None] is the nil [net.IP]. *)
Definition crowdsec_IsBlocked (c : CrowdSec) (ip : option Addr) : (bool * string) * CrowdSec :=
  match ip with
  | None | Some AddrZero => ((false, ""), c)
  | Some ip =>
      let addr := ip_addr ip in
      let c := recordProcessed c in
      match decision_for c addr with
      | None => ((false, ""), c)
      | Some entry => ((true, de_reason entry), recordDropped c (de_origin entry))
      end
  end.

Definition crowdsec_Stats (c : CrowdSec) : nat * nat := (size (ipDecisions c), length (prefixDecisions c)).

(** * Syncing *)

Section sync.
(** What the server answers to a request for a URL with a key: the decoded stream, or nothing when it cannot be reached,
    answers with a status of 400 or more, or its answer cannot be decoded. *)
Variable http_Do : string → string → option decisionsStream.

Definition stream_url (c : CrowdSec) (startup : bool) : string :=
  cs_apiURL c +:+ "/v1/decisions/stream" +:+ (if startup then "?startup=true" else "").

(** Whether the fetch succeeded. *)
Definition fetchOnce (now : Z) (startup : bool) (c : CrowdSec) : bool * CrowdSec :=
  if negb (non_empty (cs_apiURL c)) || negb (non_empty (cs_apiKey c)) then (false, c)
  else match http_Do (stream_url c startup) (cs_apiKey c) with
       | None => (false, c)
       | Some stream => let c := apply_stream c stream in (true, with_sync c (cs_startup c) now true)
       end.
End sync.

Definition staleAfter (c : CrowdSec) : Z := let d := (3 * cs_interval c)%Z in if (d <? Minute)%Z then Minute else d.
Definition crowdsec_Healthy (now : Z) (c : CrowdSec) : bool := cs_synced c && (now - cs_lastSuccess c <=? staleAfter c)%Z.

(** One round of [loop]: the first asks for everything, every tick after it for what changed. *)
Definition loop_first (http_Do : string → string → option decisionsStream) (now : Z) (c : CrowdSec) : CrowdSec :=
  let '(ok, c) := fetchOnce http_Do now true c in
  if ok then c else with_sync c false (cs_lastSuccess c) (cs_synced c).
Definition loop_tick (c : CrowdSec) (tick : Z * (string → string → option decisionsStream)) : CrowdSec :=
  (fetchOnce tick.2 tick.1 false c).2.
Definition crowdsec_loop (first : Z * (string → string → option decisionsStream)) (ticks : list (Z * (string → string → option decisionsStream)))
    (c : CrowdSec) : CrowdSec :=
  foldl loop_tick (loop_first first.2 first.1 c) ticks.

(** The interface the proxy asks. *)
Definition crowdsec_blocklist (now : Z) (c : CrowdSec) : ReputationBlocklist :=
  {| Enabled := crowdsec_Enabled c; Healthy := crowdsec_Healthy now c; IsBlocked ip := (crowdsec_IsBlocked c (Some ip)).1 |}.

(** * What the list promises

    A decision is about a key, the text of an address or a masked prefix; the last event on a key says whether it holds. *)

Inductive decision_key := KeyIP (value : string) | KeyRange (prefix : Prefix).

#[global] Instance decision_key_eq_dec : EqDecision decision_key.
Proof. solve_decision. Defined.

Definition key_of (dec : Decision) : option decision_key :=
  let value := TrimSpace (dec_Value dec) in
  if String.eqb value "" then None
  else if EqualFold (dec_Scope dec) "ip" then Some (KeyIP value)
  else if EqualFold (dec_Scope dec) "range" then (λ p, KeyRange (Masked p)) <$> ParsePrefix value
  else None.

(** An event is a decision, announced ([true]) or withdrawn. *)
Definition stream_events (s : decisionsStream) : list (bool * Decision) := map (pair false) (ds_Deleted s) ++ map (pair true) (ds_New s).
Definition last_event (k : decision_key) (events : list (bool * Decision)) : option (bool * Decision) :=
  List.find (λ e, bool_decide (key_of e.2 = Some k)) (rev events).

Definition covers_addr (k : decision_key) (addr : Addr) : Prop :=
  match k with KeyIP t => t = AddrString addr | KeyRange p => PrefixContains p addr = true end.

Definition decided_reason (dec : Decision) : string := if String.eqb (dec_Scenario dec) "" then dec_Origin dec else dec_Scenario dec.

Lemma last_event_snoc k events e :
  last_event k (events ++ [e]) = if bool_decide (key_of e.2 = Some k) then Some e else last_event k events.
Proof. unfold last_event. rewrite rev_app_distr. cbn [rev app List.find]. done. Qed.

(** The map and the list hold what the last events say. *)
Definition reflects (events : list (bool * Decision)) (c : CrowdSec) : Prop :=
  (∀ t, ipDecisions c !! t =
     match last_event (KeyIP t) events with
     | Some (true, dec) => Some {| de_reason := decided_reason dec; de_origin := decisionOrigin dec |}
     | _ => None
     end) ∧
  (∀ p, (∃ item, item ∈ prefixDecisions c ∧ dp_prefix item = p) ↔ (∃ dec, last_event (KeyRange p) events = Some (true, dec))).

Definition event_step (c : CrowdSec) (e : bool * Decision) : CrowdSec := if e.1 then addLocked c e.2 else removeLocked c e.2.

Lemma apply_stream_events c s : apply_stream c s = foldl event_step c (stream_events s).
Proof.
  unfold apply_stream, stream_events. rewrite foldl_app. generalize (ds_New s) (ds_Deleted s). intros new del.
  assert (∀ l c, foldl removeLocked c l = foldl event_step c (map (pair false) l)) as H1 by (induction l; intros; cbn; auto).
  assert (∀ l c, foldl addLocked c l = foldl event_step c (map (pair true) l)) as H2 by (induction l; intros; cbn; auto).
  by rewrite H1, H2.
Qed.

(** What one event does, by its key. *)
Lemma event_step_eq c e :
  event_step c e =
    match key_of e.2 with
    | None => c
    | Some (KeyIP t) =>
        with_decisions c (if e.1 then <[t := {| de_reason := decided_reason e.2; de_origin := decisionOrigin e.2 |}]> (ipDecisions c)
                          else delete t (ipDecisions c)) (prefixDecisions c)
    | Some (KeyRange p) =>
        with_decisions c (ipDecisions c)
          (if e.1 then prefixDecisions c ++ [{| dp_prefix := p; dp_reason := decided_reason e.2; dp_origin := decisionOrigin e.2 |}]
           else List.filter (λ item, negb (bool_decide (dp_prefix item = p))) (prefixDecisions c))
    end.
Proof.
  destruct e as [new dec]. unfold event_step, addLocked, removeLocked, key_of. cbn [fst snd]. cbv zeta.
  destruct (String.eqb (TrimSpace (dec_Value dec)) ""); [by destruct new|].
  destruct (EqualFold (dec_Scope dec) "ip"); [by destruct new|].
  destruct (EqualFold (dec_Scope dec) "range"); [|by destruct new].
  destruct (ParsePrefix _); by destruct new.
Qed.

Lemma event_step_reflects events c e : reflects events c → reflects (events ++ [e]) (event_step c e).
Proof.
  intros [Hip Hp]. rewrite event_step_eq. unfold reflects. setoid_rewrite last_event_snoc.
  destruct e as [new dec]. cbn [fst snd]. destruct (key_of dec) as [[t|p]|]; cbn [ipDecisions prefixDecisions with_decisions].
  - split; [|intros p; rewrite bool_decide_eq_false_2 by congruence; apply Hp].
    intros t'. destruct (decide (t = t')) as [->|Hne].
    + rewrite bool_decide_eq_true_2 by done. destruct new; by simplify_map_eq.
    + rewrite bool_decide_eq_false_2 by congruence. rewrite <-Hip. destruct new; by simplify_map_eq.
  - split; [intros t; rewrite bool_decide_eq_false_2 by congruence; apply Hip|].
    intros p'. destruct (decide (p = p')) as [->|Hne].
    + rewrite bool_decide_eq_true_2 by done. destruct new.
      * split; [eauto|]. intros _. eexists. split; [apply elem_of_app; right; by apply list_elem_of_singleton|done].
      * split; [|by intros [? [=]]]. intros (item & Hi & Heq). apply list_elem_of_In, filter_In in Hi as [_ Hi].
        rewrite bool_decide_eq_true_2 in Hi by done. done.
    + rewrite bool_decide_eq_false_2 by congruence. rewrite <-Hp. destruct new; split; intros (item & Hi & Heq).
      * apply elem_of_app in Hi as [Hi|Hi]; [eauto|]. apply list_elem_of_singleton in Hi as ->. cbn in Heq. congruence.
      * exists item. split; [by apply elem_of_app; left|done].
      * apply list_elem_of_In, filter_In in Hi as [Hi _]. apply list_elem_of_In in Hi. eauto.
      * exists item. split; [|done]. apply list_elem_of_In, filter_In. split; [by apply list_elem_of_In|].
        rewrite bool_decide_eq_false_2 by congruence. done.
  - split; intros k; rewrite bool_decide_eq_false_2 by congruence; auto.
Qed.

Lemma events_reflect events c : reflects [] c → reflects events (foldl event_step c events).
Proof.
  intros H0. induction events as [|e l IH] using rev_ind; [done|]. rewrite foldl_app. by apply event_step_reflects.
Qed.

(** The answers a loop got: to the first request, which asks for all decisions, and to those of the ticks. *)
Definition received (first : Z * (string → string → option decisionsStream)) (ticks : list (Z * (string → string → option decisionsStream)))
    (c : CrowdSec) : list decisionsStream :=
  omap id (first.2 (stream_url c true) (cs_apiKey c) :: map (λ t, t.2 (stream_url c false) (cs_apiKey c)) ticks).

Lemma fetchOnce_Enabled http_Do now startup c :
  crowdsec_Enabled c = true →
  fetchOnce http_Do now startup c =
    match http_Do (stream_url c startup) (cs_apiKey c) with
    | None => (false, c)
    | Some stream => (true, with_sync (apply_stream c stream) (cs_startup (apply_stream c stream)) now true)
    end.
Proof. unfold fetchOnce, crowdsec_Enabled. by intros [-> ->]%andb_true_iff. Qed.

(** A fetch leaves the address of the server alone. *)
Definition same_server (c c' : CrowdSec) : Prop :=
  cs_apiURL c' = cs_apiURL c ∧ cs_apiKey c' = cs_apiKey c ∧ cs_interval c' = cs_interval c.

Lemma same_server_enabled c c' : same_server c c' → crowdsec_Enabled c' = crowdsec_Enabled c.
Proof. intros (Hu & Hk & _). unfold crowdsec_Enabled. by rewrite Hu, Hk. Qed.

Lemma same_server_url c c' startup : same_server c c' → stream_url c' startup = stream_url c startup.
Proof. intros (Hu & _). unfold stream_url. by rewrite Hu. Qed.

Lemma event_step_server events c : same_server c (foldl event_step c events).
Proof.
  induction events as [|e l IH] using rev_ind; [done|]. rewrite foldl_app. cbn [foldl].
  revert IH. generalize (foldl event_step c l). intros c' IH. rewrite event_step_eq.
  destruct (key_of e.2) as [[]|]; exact IH.
Qed.

Lemma apply_stream_server c s : same_server c (apply_stream c s).
Proof. rewrite apply_stream_events. apply event_step_server. Qed.

Lemma apply_reflects events c s : reflects events c → reflects (events ++ stream_events s) (apply_stream c s).
Proof.
  intros Hr. rewrite apply_stream_events. generalize (stream_events s). intros l.
  induction l as [|e l IH] using rev_ind; [by rewrite app_nil_r|]. rewrite app_assoc, foldl_app. by apply event_step_reflects.
Qed.

(** One round: what was received is added to the history. *)
Lemma fetchOnce_reflects http_Do now startup events c :
  crowdsec_Enabled c = true → reflects events c →
  let c' := (fetchOnce http_Do now startup c).2 in
  same_server c c' ∧
  reflects (events ++ flat_map stream_events (omap id [http_Do (stream_url c startup) (cs_apiKey c)])) c' ∧
  (cs_synced c' = true → cs_synced c = true ∨ is_Some (http_Do (stream_url c startup) (cs_apiKey c))).
Proof.
  intros He Hr. rewrite fetchOnce_Enabled by done. destruct (http_Do _ _) as [s|]; cbn [snd omap list_omap id flat_map].
  - rewrite app_nil_r. split; [apply apply_stream_server|]. split; [by apply apply_reflects|]. eauto.
  - rewrite app_nil_r. split; [done|]. split; [done|]. auto.
Qed.

Lemma ticks_reflect c0 ticks events c :
  crowdsec_Enabled c0 = true → same_server c0 c → reflects events c →
  let c' := foldl loop_tick c ticks in
  same_server c0 c' ∧
  reflects (events ++ flat_map stream_events (omap id (map (λ t, t.2 (stream_url c0 false) (cs_apiKey c0)) ticks))) c'.
Proof.
  intros He. revert events c. induction ticks as [|[t do] l IH]; intros events c Hs Hr; cbn [foldl map omap list_omap flat_map].
  { by rewrite app_nil_r. }
  destruct (fetchOnce_reflects do t false events c) as (Hs' & Hr' & _); [by rewrite (same_server_enabled c0 c)|done|].
  rewrite (same_server_url c0 c), (proj1 (proj2 Hs)) in Hr' by done.
  assert (same_server c0 (loop_tick c (t, do))) as Hs0 by (unfold same_server in *; unfold loop_tick; cbn; intuition congruence).
  destruct (IH _ _ Hs0 Hr') as [H1 H2]. split; [done|]. cbn [snd].
  destruct (do _ _); cbn [omap list_omap id flat_map] in *; rewrite ?app_nil_r, ?app_assoc in *; done.
Qed.

Lemma loop_reflects first ticks c :
  crowdsec_Enabled c = true → reflects [] c →
  same_server c (crowdsec_loop first ticks c) ∧
  reflects (flat_map stream_events (received first ticks c)) (crowdsec_loop first ticks c).
Proof.
  intros He Hr. destruct first as [t do]. unfold crowdsec_loop, loop_first, received. cbn [fst snd].
  destruct (fetchOnce_reflects do t true [] c He Hr) as (Hs1 & Hr1 & _). cbn [app] in Hr1.
  destruct (fetchOnce do t true c) as [ok c1]. cbn [snd] in *.
  destruct (ticks_reflect c ticks (flat_map stream_events (omap id [do (stream_url c true) (cs_apiKey c)])) (if ok then c1 else with_sync c1 false (cs_lastSuccess c1) (cs_synced c1)) He) as [H1 H2];
    [by destruct ok|by destruct ok|].
  split; [done|]. cbn [omap list_omap]. destruct (do _ _); cbn [omap list_omap id flat_map] in *; rewrite ?app_nil_r in *; done.
Qed.

Lemma decision_for_reflects events c addr :
  reflects events c →
  (is_Some (decision_for c addr) ↔ ∃ k dec, last_event k events = Some (true, dec) ∧ covers_addr k addr) ∧
  (∀ dec, last_event (KeyIP (AddrString addr)) events = Some (true, dec) →
     decision_for c addr = Some {| de_reason := decided_reason dec; de_origin := decisionOrigin dec |}).
Proof.
  intros [Hip Hp]. unfold decision_for. rewrite Hip. split; [|by intros dec ->].
  assert (is_Some (List.find (λ p, PrefixContains (dp_prefix p) addr) (prefixDecisions c)) ↔
          ∃ p dec, last_event (KeyRange p) events = Some (true, dec) ∧ PrefixContains p addr = true) as Hf.
  { split.
    - intros [item [Hin Hc]%find_some]. exists (dp_prefix item).
      destruct (proj1 (Hp (dp_prefix item))) as [dec Hd]; [exists item; by rewrite list_elem_of_In|]. by exists dec.
    - intros (p & dec & Hd & Hc). destruct (proj2 (Hp p)) as (item & Hi & <-); [by exists dec|].
      destruct (List.find _ _) eqn:Hn; [done|]. apply list_elem_of_In in Hi. apply (find_none _ _ Hn) in Hi. cbn in Hi. congruence. }
  destruct (last_event (KeyIP (AddrString addr)) events) as [[[] dec]|] eqn:Hl.
  { split; [intros _; by exists (KeyIP (AddrString addr)), dec|done]. }
  all: rewrite fmap_is_Some, Hf; split; [intros (p & dec' & ? & ?); by exists (KeyRange p), dec'|];
       intros ([t|p] & dec' & Hd & Hc); cbn in Hc; [subst t; congruence|eauto].
Qed.

Lemma crowdsec_IsBlocked_eq c ip :
  IsValid ip = true →
  (crowdsec_IsBlocked c (Some ip)).1 = match decision_for c (ip_addr ip) with Some e => (true, de_reason e) | None => (false, "") end.
Proof.
  intros Hv. unfold crowdsec_IsBlocked. destruct ip; [done| |];
  match goal with |- context [decision_for (recordProcessed c) ?a] => change (decision_for (recordProcessed c) a) with (decision_for c a);
    destruct (decision_for c a); done end.
Qed.

(** C19 The reputation list blocks what was decided. After any number of syncs, some of which may have failed, an address is
    blocked exactly when some decision that covers it, the one on its own text or one on a prefix that contains it, was
    announced and not withdrawn since in what was received; the reason shown is that of the last decision on the address
    itself when there is one. The proxy lets an address through its reputation rule exactly when the list is fresh, or may
    be stale, and no such decision exists. *)
Theorem reputation_enforced first ticks c m now :
  crowdsec_Enabled c = true → ipDecisions c = ∅ → prefixDecisions c = [] →
  let c' := crowdsec_loop first ticks c in
  let events := flat_map stream_events (received first ticks c) in
  reputation m = Some (crowdsec_blocklist now c') →
  ∀ ip, IsValid ip = true →
  ((crowdsec_IsBlocked c' (Some ip)).1.1 = true ↔ ∃ k dec, last_event k events = Some (true, dec) ∧ covers_addr k (ip_addr ip)) ∧
  (∀ dec, last_event (KeyIP (AddrString (ip_addr ip))) events = Some (true, dec) →
     (crowdsec_IsBlocked c' (Some ip)).1 = (true, decided_reason dec)) ∧
  (check_reputation m ip = Ok tt ↔
     (crowdsec_Healthy now c' = true ∨ crowdSecFailOpen m = true) ∧
     ¬ ∃ k dec, last_event k events = Some (true, dec) ∧ covers_addr k (ip_addr ip)).
Proof.
  intros He Hi Hp c' events Hm ip Hv.
  assert (reflects [] c) as H0.
  { split; [intros t; by rewrite Hi, lookup_empty|]. intros p. rewrite Hp. split; [intros (? & Hin & _); inversion Hin|by intros [? ?]]. }
  destruct (loop_reflects first ticks c He H0) as [Hs Hr]. fold c' events in Hs, Hr.
  destruct (decision_for_reflects _ _ (ip_addr ip) Hr) as [Hd Hreason].
  unfold check_reputation. rewrite Hm. cbn [Enabled Healthy IsBlocked crowdsec_blocklist].
  rewrite (same_server_enabled c c') by done. rewrite He. cbn [negb].
  rewrite crowdsec_IsBlocked_eq by done. rewrite <-Hd. split_and!.
  - destruct (decision_for c' (ip_addr ip)); [split; [eauto|done]|]. split; [done|by intros [? ?]].
  - intros dec Hl. by rewrite (Hreason dec Hl).
  - destruct (crowdsec_Healthy now c'), (crowdSecFailOpen m); cbn [negb andb];
      destruct (decision_for c' (ip_addr ip)) as [e|]; split; try done;
      try (by intros _; split; [auto|intros [? ?]]); try (by intros [_ Hn]; destruct Hn; eauto);
      by intros [[?|?] ?].
Qed.

(** A server that holds decisions, of which none changes: it lists them to a request for everything, and answers that
    nothing changed to any other. *)
Definition lapi (c : CrowdSec) (all : list Decision) (url key : string) : option decisionsStream :=
  Some (if String.eqb url (stream_url c true) then {| ds_New := all; ds_Deleted := [] |} else {| ds_New := []; ds_Deleted := [] |}).

Lemma stream_url_differ c : stream_url c false ≠ stream_url c true.
Proof.
  unfold stream_url. intros H. apply (f_equal String.length) in H. rewrite !string_app_length in H.
  change (String.length "?startup=true") with 13%nat in H. change (String.length "") with 0%nat in H. lia.
Qed.

(** The first sync is not tried again. When the first request, the only one that asks for all decisions, fails, the
    requests of later ticks ask only for what changed: the list then counts as fresh and blocks none of the decisions the
    server held all along, whatever they are. *)
Theorem startup_sync_not_retried c all t0 ts t now :
  crowdsec_Enabled c = true → ipDecisions c = ∅ → prefixDecisions c = [] →
  (t ≤ now ≤ t + Minute)%Z →
  let c' := crowdsec_loop (t0, λ _ _, None) (map (λ t, (t, lapi c all)) (ts ++ [t])) c in
  crowdsec_Healthy now c' = true ∧ ∀ ip, (crowdsec_IsBlocked c' ip).1 = (false, "").
Proof.
  intros He Hi Hp Hnow c'.
  assert (∀ l c1, same_server c c1 → ipDecisions c1 = ∅ → prefixDecisions c1 = [] →
    let c2 := foldl loop_tick c1 (map (λ t, (t, lapi c all)) l) in
    same_server c c2 ∧ ipDecisions c2 = ∅ ∧ prefixDecisions c2 = [] ∧
    ∀ x l', l = l' ++ [x] → cs_synced c2 = true ∧ cs_lastSuccess c2 = x) as Hloop.
  { induction l as [|x l IH] using rev_ind; intros c1 Hs Hi1 Hp1; cbv zeta.
    { split_and!; try done. intros x l'. by destruct l'. }
    destruct (IH c1 Hs Hi1 Hp1) as (Hs2 & Hi2 & Hp2 & _). rewrite map_app, foldl_app. cbn [map foldl].
    revert Hs2 Hi2 Hp2. generalize (foldl loop_tick c1 (map (λ t, (t, lapi c all)) l)). intros c2 Hs2 Hi2 Hp2.
    unfold loop_tick. cbn [fst snd]. rewrite fetchOnce_Enabled by (by rewrite (same_server_enabled c c2)).
    unfold lapi. rewrite (same_server_url c c2) by done. rewrite (proj2 (String.eqb_neq _ _) (stream_url_differ c)).
    unfold apply_stream. cbn [ds_New ds_Deleted foldl snd]. split_and!; try done. intros x' l' [_ [= <-]]%app_inj_2; done. }
  unfold crowdsec_loop, loop_first in c'. cbn [fst snd] in c'.
  destruct (Hloop (ts ++ [t]) (with_sync c false (cs_lastSuccess c) (cs_synced c))) as (Hs & Hi2 & Hp2 & Hlast); [done..|].
  assert (fetchOnce (λ _ _, None) t0 true c = (false, c)) as H0 by (by rewrite fetchOnce_Enabled).
  subst c'. rewrite H0. cbv zeta. destruct (Hlast t ts eq_refl) as [Hsync Hl]. split.
  - unfold crowdsec_Healthy, staleAfter. rewrite Hsync, Hl. cbn [andb].
    destruct (Z.ltb_spec (3 * cs_interval (foldl loop_tick (with_sync c false (cs_lastSuccess c) (cs_synced c))
                 (map (λ t1, (t1, lapi c all)) (ts ++ [t])))) Minute); apply Z.leb_le; lia.
  - intros ip. unfold crowdsec_IsBlocked. destruct ip as [[| |]|]; try done;
      unfold decision_for; cbn [recordProcessed with_counters ipDecisions prefixDecisions];
      by rewrite Hi2, Hp2, lookup_empty.
Qed.

(** * Counters *)

Definition usage_window : Type := Z * gmap string Z.

Definition takeWindow (c : CrowdSec) : usage_window * CrowdSec := ((cs_processed c, cs_dropped c), with_counters c 0 ∅).

Definition restoreWindow (c : CrowdSec) (w : usage_window) : CrowdSec :=
  with_counters c (u64 (cs_processed c + w.1)) (union_with (λ a b, Some (u64 (a + b))) (cs_dropped c) w.2).

(** The end of [pushUsageMetrics]: the status of the answer, [None] when there was none. The first result says whether the
    server takes such reports. *)
Definition push_end (c : CrowdSec) (w : usage_window) (status : option Z) : bool * CrowdSec :=
  match status with
  | None => (true, restoreWindow c w)
  | Some status =>
      if (status =? 404)%Z || (status =? 405)%Z then (false, c)
      else if (400 <=? status)%Z then (true, restoreWindow c w)
      else (true, c)
  end.

Definition activeDecisions (c : CrowdSec) : gmap (string * string) nat :=
  let count (m : gmap (string * string) nat) (k : string * string) := <[k := S (default 0 (m !! k))]> m in
  let ips := foldl (λ m kv, count m (de_origin kv.2, if ContainsByte kv.1 ":" then "ipv6" else "ipv4")) ∅ (map_to_list (ipDecisions c)) in
  foldl (λ m item, count m (dp_origin item, if Is6 (p_addr (dp_prefix item)) then "ipv6" else "ipv4")) ips (prefixDecisions c).

(** A push takes the counters, then waits for the answer while clients go on being counted. *)
Inductive usage_op := Asked (ip : option Addr) | Synced (s : decisionsStream) | Pushed | Answered (status : option Z).

Record usage_state := {
  us_list : CrowdSec; us_flight : option usage_window; us_sent : list usage_window; us_gone : list usage_window;
}.

Definition usage_step (st : usage_state) (o : usage_op) : usage_state :=
  match o, us_flight st with
  | Asked ip, w => {| us_list := (crowdsec_IsBlocked (us_list st) ip).2; us_flight := w; us_sent := us_sent st; us_gone := us_gone st |}
  | Synced s, w => {| us_list := apply_stream (us_list st) s; us_flight := w; us_sent := us_sent st; us_gone := us_gone st |}
  | Pushed, None =>
      (* the loop ends at the first server that takes no reports *)
      if (0 <? length (us_gone st))%nat then st
      else let '(w, c) := takeWindow (us_list st) in
           {| us_list := c; us_flight := Some w; us_sent := us_sent st; us_gone := us_gone st |}
  | Answered status, Some w =>
      let '(supported, c) := push_end (us_list st) w status in
      {| us_list := c; us_flight := None;
         us_sent := if supported && match status with Some s => (s <? 400)%Z | None => false end then w :: us_sent st else us_sent st;
         us_gone := if supported then us_gone st else w :: us_gone st |}
  | _, _ => st
  end.

(** The counter of all requests, or that of one origin. *)
Definition tally (origin : option string) (w : usage_window) : Z :=
  match origin with None => w.1 | Some o => default 0%Z (w.2 !! o) end.
Definition tallies (origin : option string) (l : list usage_window) : Z := foldr (λ w acc, tally origin w + acc)%Z 0%Z l.

(** Whether a question counts. *)
Definition counts (origin : option string) (c : CrowdSec) (o : usage_op) : Z :=
  match o with
  | Asked (Some ip) =>
      if IsValid ip
      then match origin with
           | None => 1
           | Some o => match decision_for c (ip_addr ip) with Some e => if String.eqb (de_origin e) o then 1 else 0 | None => 0 end
           end
      else 0
  | _ => 0
  end%Z.

Fixpoint total (origin : option string) (st : usage_state) (ops : list usage_op) : Z :=
  match ops with
  | [] => 0
  | o :: rest => counts origin (us_list st) o + total origin (usage_step st o) rest
  end%Z.

Definition balance (origin : option string) (st : usage_state) : Z :=
  (tally origin (cs_processed (us_list st), cs_dropped (us_list st)) + match us_flight st with Some w => tally origin w | None => 0 end +
   tallies origin (us_sent st) + tallies origin (us_gone st))%Z.

(** Equality of counters of 64 bits. *)
Definition same_count (a b : Z) : Prop := ∃ k, (a = b + k * 2 ^ 64)%Z.

Lemma u64_same n : same_count (u64 n) n.
Proof. exists (- (n / 2 ^ 64))%Z. unfold u64. pose proof (Z_div_mod_eq_full n (2 ^ 64)). lia. Qed.

Lemma same_count_u64 a b : same_count a b → u64 a = u64 b.
Proof. intros [k ->]. unfold u64. apply Z_mod_plus_full. Qed.

Lemma tally_ask origin c ip (c' := (crowdsec_IsBlocked c ip).2) :
  same_count (tally origin (cs_processed c', cs_dropped c')) (tally origin (cs_processed c, cs_dropped c) + counts origin c (Asked ip)).
Proof.
  subst c'. assert (∀ x, same_count x (x + 0)) as Hrefl by (intros x; exists 0%Z; lia).
  destruct ip as [ip|]; [|apply Hrefl]. destruct (IsValid ip) eqn:Hv; [|destruct ip; [apply Hrefl|done|done]].
  unfold counts. rewrite Hv.
  assert ((crowdsec_IsBlocked c (Some ip)).2 =
    match decision_for c (ip_addr ip) with Some e => recordDropped (recordProcessed c) (de_origin e) | None => recordProcessed c end) as ->.
  { destruct ip; [done| |]; unfold crowdsec_IsBlocked;
      match goal with |- context [decision_for (recordProcessed c) ?a] => change (decision_for (recordProcessed c) a) with (decision_for c a) end;
      by destruct (decision_for c _). }
  destruct origin as [o|]; unfold tally; cbn [fst snd].
  - destruct (decision_for c (ip_addr ip)) as [e|]; [|apply Hrefl].
    cbn [recordDropped recordProcessed with_counters cs_dropped]. destruct (String.eqb_spec (de_origin e) o) as [->|Hne].
    + rewrite lookup_insert_eq. cbn [default]. apply u64_same.
    + rewrite lookup_insert_ne by done. apply Hrefl.
  - destruct (decision_for c (ip_addr ip)); cbn [recordDropped recordProcessed with_counters cs_processed]; apply u64_same.
Qed.

Lemma tally_restore origin c w (c' := restoreWindow c w) :
  same_count (tally origin (cs_processed c', cs_dropped c')) (tally origin (cs_processed c, cs_dropped c) + tally origin w).
Proof.
  subst c'. unfold restoreWindow, tally. destruct w as [p d]. cbn [fst snd with_counters cs_processed cs_dropped].
  destruct origin as [o|]; [|apply u64_same]. rewrite lookup_union_with.
  destruct (cs_dropped c !! o), (d !! o); cbn; try (exists 0%Z; lia). apply u64_same.
Qed.

Lemma event_step_counters events c :
  cs_processed (foldl event_step c events) = cs_processed c ∧ cs_dropped (foldl event_step c events) = cs_dropped c.
Proof.
  induction events as [|e l IH] using rev_ind; [done|]. rewrite foldl_app. cbn [foldl].
  revert IH. generalize (foldl event_step c l). intros c' IH. rewrite event_step_eq.
  destruct (key_of e.2) as [[]|]; exact IH.
Qed.

Lemma balance_step origin st o : same_count (balance origin (usage_step st o)) (balance origin st + counts origin (us_list st) o).
Proof.
  assert (∀ x, same_count x (x + 0)) as Hrefl by (intros x; exists 0%Z; lia).
  destruct st as [c w sent gone]. destruct o as [ip|s| |status]; cbn [usage_step us_flight us_list us_sent us_gone].
  - destruct (tally_ask origin c ip) as [k Hk]. exists k. unfold balance. cbn [us_flight us_list us_sent us_gone]. rewrite Hk. lia.
  - unfold balance. cbn [us_flight us_list us_sent us_gone]. rewrite apply_stream_events.
    destruct (event_step_counters (stream_events s) c) as [-> ->]. apply Hrefl.
  - destruct w as [w|]; [apply Hrefl|]. destruct (0 <? length gone)%nat; [apply Hrefl|]. exists 0%Z.
    unfold balance. cbn. destruct origin; cbn; rewrite ?lookup_empty; cbn; lia.
  - destruct w as [w|]; [|apply Hrefl]. unfold push_end. destruct status as [s|].
    + destruct ((s =? 404)%Z || (s =? 405)%Z) eqn:H4; cbn [andb].
      { exists 0%Z. unfold balance. cbn. lia. }
      destruct (Z.leb_spec 400 s) as [Hs|Hs].
      * rewrite (proj2 (Z.ltb_ge s 400)) by lia. destruct (tally_restore origin c w) as [k Hk]. exists k.
        unfold balance. cbn [us_flight us_list us_sent us_gone tallies foldr counts andb]. rewrite Hk. lia.
      * rewrite (proj2 (Z.ltb_lt s 400)) by lia. exists 0%Z. unfold balance. cbn. lia.
    + destruct (tally_restore origin c w) as [k Hk]. exists k.
      unfold balance. cbn [us_flight us_list us_sent us_gone tallies foldr counts andb]. rewrite Hk. lia.
Qed.

(** Every client that is asked about is reported once. Whatever the order of questions, syncs, pushes and answers, the
    number of questions, and the number of those an origin's decisions blocked, is modulo 2^64 the sum of what the accepted
    reports said, what is in flight, what is being counted, and what a server that takes no reports was sent; and a report
    in flight is settled by its answer. *)
Theorem usage_counted_once origin st ops :
  u64 (balance origin (foldl usage_step st ops)) = u64 (balance origin st + total origin st ops).
Proof.
  apply same_count_u64. revert st. induction ops as [|o l IH]; intros st; cbn [foldl total].
  - exists 0%Z. lia.
  - destruct (IH (usage_step st o)) as [k1 H1], (balance_step origin st o) as [k2 H2]. exists (k1 + k2)%Z. rewrite H1, H2. lia.
Qed.

(** * Witnesses *)

Definition sample_crowdsec : CrowdSec := crowdsec_Configure NewCrowdSec "http://lapi:8080/" "key" 0.
Definition ban (scope value : string) : Decision :=
  {| dec_ID := 1; dec_Duration := "4h"; dec_Type := "ban"; dec_Scope := scope; dec_Value := value; dec_Origin := "crowdsec"; dec_Scenario := "ssh-bf" |}.
Definition sample_first : Z * (string → string → option decisionsStream) :=
  (0%Z, λ _ _, Some {| ds_New := [ban "Ip" "192.0.2.7"; ban "Range" "198.51.100.9/24"]; ds_Deleted := [] |}).
Definition sample_tick : Z * (string → string → option decisionsStream) :=
  (Minute, λ _ _, Some {| ds_New := []; ds_Deleted := [ban "ip" "192.0.2.7"] |}).
Definition guarded_manager : Manager :=
  {| adminHost := ""; trustedProxyCIDRs := []; bootstrapAdminEnabled := false; bootstrapAdminAllowRemote := false; adminUI := false;
     adminAPI := false; countryLookup := None;
     reputation := Some (crowdsec_blocklist Minute (crowdsec_loop sample_first [sample_tick] sample_crowdsec)); geoIPFailOpen := false;
     crowdSecFailOpen := false; clientCertHeaderSecret := "" |}.

Lemma reputation_enforced_witness :
  (let c := crowdsec_loop sample_first [sample_tick] sample_crowdsec in
   (crowdsec_IsBlocked c (Some (Addr4 (198 * 2 ^ 24 + 51 * 2 ^ 16 + 100 * 2 ^ 8 + 20)))).1 = (true, "ssh-bf") ∧
   (crowdsec_IsBlocked c (Some (Addr4 (192 * 2 ^ 24 + 2 * 2 ^ 8 + 7)))).1.1 = false ∧
   check_reputation guarded_manager (Addr4 (192 * 2 ^ 24 + 2 * 2 ^ 8 + 7)) = Ok tt)%Z.
Proof.
  split; [vm_compute; reflexivity|]. split; [vm_compute; reflexivity|].
  destruct (reputation_enforced sample_first [sample_tick] sample_crowdsec guarded_manager Minute eq_refl eq_refl eq_refl eq_refl
              (Addr4 (192 * 2 ^ 24 + 2 * 2 ^ 8 + 7)) eq_refl) as (Hb & _ & Hc).
  apply Hc. split; [left; vm_compute; reflexivity|]. intros Hk. apply Hb in Hk. revert Hk. vm_compute. discriminate.
Defined.

Lemma startup_sync_not_retried_witness :
  (let all := [ban "Ip" "192.0.2.7"] in
   let c := crowdsec_loop (0, λ _ _, None) (map (λ t, (t, lapi sample_crowdsec all)) ([] ++ [Minute])) sample_crowdsec in
   crowdsec_Healthy (Minute + 1) c = true ∧ (crowdsec_IsBlocked c (Some (Addr4 (192 * 2 ^ 24 + 2 * 2 ^ 8 + 7)))).1 = (false, "") ∧
   (crowdsec_IsBlocked (crowdsec_loop (0, lapi sample_crowdsec all) [] sample_crowdsec) (Some (Addr4 (192 * 2 ^ 24 + 2 * 2 ^ 8 + 7)))).1
     = (true, "ssh-bf"))%Z.
Proof.
  cbv zeta. destruct (startup_sync_not_retried sample_crowdsec [ban "Ip" "192.0.2.7"] 0 [] Minute (Minute + 1)) as [Hh Hb];
    [reflexivity|reflexivity|reflexivity|split; vm_compute; discriminate|].
  split; [exact Hh|]. split; [apply Hb|]. vm_compute. reflexivity.
Defined.
