(* ===== verification/AuditSink.v ===== *)
(** How audit events reach the audit log: internal/audit/logger.go.

    Handlers write events to a bounded channel; one goroutine takes them out, collects them and writes them to the store in
    batches. What happens when the channel is full depends on the drop policy. Producers and the goroutine interleave: a
    producer between two of its channel operations is a pending producer of the state, and a history is any sequence of
    their steps. *)
From S2P Require Import Prelude GoStrings Requests AuditChain.

#[local] Open Scope string_scope.
#[local] Open Scope list_scope.

Definition DropNewest := "drop_newest".
Definition DropOldest := "drop_oldest".
Definition SyncFallback := "sync_fallback".
Definition BlockProducer := "block".

Section sink.
(** [Details any] with [json.Marshal]. *)
Variable D : Type.
Variable json_Marshal : D → option string.

Record AuditEvent := {
  ev_Timestamp : Z; ev_RequestID : string; ev_UserID : option Z; ev_Action : string; ev_ResourceType : string; ev_ResourceID : option Z;
  ev_Method : string; ev_Host : string; ev_Path : string; ev_StatusCode : Z; ev_LatencyMs : Z; ev_RemoteAddr : string;
  ev_UserAgent : string; ev_Details : option D;
}.

Definition toAuditLog (ev : AuditEvent) : AuditLog :=
  let details := match ev_Details ev with
                 | None => ""
                 | Some d => default "" (json_Marshal d)
                 end in
  {| ID := 0; Timestamp := ev_Timestamp ev; RequestID := ev_RequestID ev; UserID := ev_UserID ev; Action := ev_Action ev;
     ResourceType := ev_ResourceType ev; ResourceID := ev_ResourceID ev; Method := ev_Method ev; Host := ev_Host ev; Path := ev_Path ev;
     StatusCode := ev_StatusCode ev; LatencyMs := ev_LatencyMs ev; RemoteAddr := ev_RemoteAddr ev; UserAgent := ev_UserAgent ev;
     Details := details; PrevHash := ""; Hash := "" |}.

(** ** Events of the logger *)

(** [remoteAddr]: the resolver of the client's address, when one is set. *)
Definition logger_remoteAddr (clientIP : option (Request → string)) (r : Request) : string :=
  match clientIP with
  | Some resolve => let addr := resolve r in if non_empty addr then addr else r_RemoteAddr r
  | None => r_RemoteAddr r
  end.

Definition Log_event (now : Z) (userID : option Z) (action resourceType : string) (resourceID : option Z) (details : option D) : AuditEvent :=
  {| ev_Timestamp := now; ev_RequestID := ""; ev_UserID := userID; ev_Action := action; ev_ResourceType := resourceType;
     ev_ResourceID := resourceID; ev_Method := ""; ev_Host := ""; ev_Path := ""; ev_StatusCode := 0; ev_LatencyMs := 0; ev_RemoteAddr := "";
     ev_UserAgent := ""; ev_Details := details |}.

Definition LogRequest_event (clientIP : option (Request → string)) (now : Z) (r : Request) (userID : option Z) (action resourceType : string)
    (resourceID : option Z) (details : option D) : AuditEvent :=
  {| ev_Timestamp := now; ev_RequestID := ""; ev_UserID := userID; ev_Action := action; ev_ResourceType := resourceType;
     ev_ResourceID := resourceID; ev_Method := r_Method r; ev_Host := r_Host r; ev_Path := r_Path r; ev_StatusCode := 0; ev_LatencyMs := 0;
     ev_RemoteAddr := logger_remoteAddr clientIP r; ev_UserAgent := HGet (r_Header r) "User-Agent"; ev_Details := details |}.

Record HTTPAccessEvent := {
  ha_Request : option Request; ha_UserID : option Z; ha_Action : string; ha_ResourceType : string; ha_ResourceID : option Z;
  ha_StatusCode : Z; ha_Latency : Z; ha_Details : option D; ha_RequestID : string; ha_RemoteAddr : string; ha_UserAgent : string;
  ha_Method : string; ha_Host : string; ha_Path : string;
}.

(** [GetReqID] of chi's middleware reads the id from the request's context. *)
Definition LogHTTPAccess_event (GetReqID : Request → string) (clientIP : option (Request → string)) (now : Z) (e : HTTPAccessEvent) : AuditEvent :=
  let or (value : string) (f : Request → string) :=
    if String.eqb value "" then match ha_Request e with Some r => f r | None => value end else value in
  {| ev_Timestamp := now; ev_RequestID := or (ha_RequestID e) GetReqID; ev_UserID := ha_UserID e; ev_Action := ha_Action e;
     ev_ResourceType := ha_ResourceType e; ev_ResourceID := ha_ResourceID e; ev_Method := or (ha_Method e) r_Method;
     ev_Host := or (ha_Host e) r_Host; ev_Path := or (ha_Path e) r_Path; ev_StatusCode := ha_StatusCode e;
     ev_LatencyMs := Z.quot (ha_Latency e) 1000000; ev_RemoteAddr := or (ha_RemoteAddr e) (logger_remoteAddr clientIP);
     ev_UserAgent := or (ha_UserAgent e) (λ r, HGet (r_Header r) "User-Agent"); ev_Details := ha_Details e |}.

(** ** The sink *)

Record sink_config := { sk_bufferSize : nat; sk_batchSize : nat; sk_dropPolicy : string }.

(** [NewAsyncSink] (the flush interval only sets when the ticker fires). *)
Definition NewAsyncSink_config (bufferSize batchSize : Z) (dropPolicy : string) : sink_config :=
  {| sk_bufferSize := if (bufferSize <=? 0)%Z then 1024 else Z.to_nat bufferSize;
     sk_batchSize := if (batchSize <=? 0)%Z then 128 else Z.to_nat batchSize;
     sk_dropPolicy := if String.eqb dropPolicy "" then SyncFallback else dropPolicy |}.

(** A producer between two channel operations: waiting for room, about to take the oldest event out, about to try again. *)
Inductive producer := Waiting (ev : AuditEvent) | Evicting (ev : AuditEvent) | Retrying (ev : AuditEvent).
Definition produced (p : producer) : AuditEvent := match p with Waiting ev | Evicting ev | Retrying ev => ev end.

Inductive sink_mode := Running | Draining | Stopped.

(** The channel, the goroutine's buffer and mode, the pending producers, the audit log, and what became of the events: the rows
    handed to the store in the order they were committed, batches and single rows the store refused, events evicted, dropped with a log
    line, and events given up by a producer whose context ended. *)
Record sink_state := {
  sk_events : list AuditEvent; sk_buffer : list AuditLog; sk_mode : sink_mode; sk_pending : list producer;
  sk_db : AuditDB; sk_stored : list AuditLog; sk_failed : list AuditLog; sk_evicted : list AuditEvent; sk_logged : list AuditEvent; sk_refused : list AuditEvent;
}.

Definition new_sink (db : AuditDB) : sink_state :=
  {| sk_events := []; sk_buffer := []; sk_mode := Running; sk_pending := []; sk_db := db; sk_stored := []; sk_failed := []; sk_evicted := [];
     sk_logged := []; sk_refused := [] |}.

Section operations.
(** The audit log (AuditChain.v). *)
Variable hmac_sha256 : string → string → string.
Variable hmacKey : string.
Variable stored_time : Z → Z.
Variable cfg : sink_config.

Definition set_events (s : sink_state) (l : list AuditEvent) : sink_state :=
  {| sk_events := l; sk_buffer := sk_buffer s; sk_mode := sk_mode s; sk_pending := sk_pending s; sk_db := sk_db s; sk_stored := sk_stored s; sk_failed := sk_failed s;
     sk_evicted := sk_evicted s; sk_logged := sk_logged s; sk_refused := sk_refused s |}.
Definition set_pending (s : sink_state) (l : list producer) : sink_state :=
  {| sk_events := sk_events s; sk_buffer := sk_buffer s; sk_mode := sk_mode s; sk_pending := l; sk_db := sk_db s; sk_stored := sk_stored s; sk_failed := sk_failed s;
     sk_evicted := sk_evicted s; sk_logged := sk_logged s; sk_refused := sk_refused s |}.
Definition set_worker (s : sink_state) (l : list AuditEvent) (buffer : list AuditLog) (mode : sink_mode) : sink_state :=
  {| sk_events := l; sk_buffer := buffer; sk_mode := mode; sk_pending := sk_pending s; sk_db := sk_db s; sk_stored := sk_stored s; sk_failed := sk_failed s;
     sk_evicted := sk_evicted s; sk_logged := sk_logged s; sk_refused := sk_refused s |}.
Definition add_fate (s : sink_state) (evicted logged refused : list AuditEvent) : sink_state :=
  {| sk_events := sk_events s; sk_buffer := sk_buffer s; sk_mode := sk_mode s; sk_pending := sk_pending s; sk_db := sk_db s; sk_stored := sk_stored s;
     sk_failed := sk_failed s; sk_evicted := sk_evicted s ++ evicted; sk_logged := sk_logged s ++ logged; sk_refused := sk_refused s ++ refused |}.

(** The store takes the rows and is [db] then, or does not. *)
Definition store_rows (ok : bool) (db : AuditDB) (items : list AuditLog) (s : sink_state) : sink_state :=
  {| sk_events := sk_events s; sk_buffer := sk_buffer s; sk_mode := sk_mode s; sk_pending := sk_pending s;
     sk_db := if ok then db else sk_db s; sk_stored := if ok then sk_stored s ++ items else sk_stored s; sk_failed := if ok then sk_failed s else sk_failed s ++ items;
     sk_evicted := sk_evicted s; sk_logged := sk_logged s; sk_refused := sk_refused s |}.

(** A send that does not wait: [None] when the channel is full. *)
Definition try_send (ev : AuditEvent) (s : sink_state) : option sink_state :=
  if (length (sk_events s) <? sk_bufferSize cfg)%nat then Some (set_events s (sk_events s ++ [ev])) else None.

Definition add_pending (p : producer) (s : sink_state) : sink_state := set_pending s (sk_pending s ++ [p]).

(** [WriteEvent] up to its first wait; [ok] is what the store does with a row written at once. A blocking send is a
    producer that waits, be it for no time. *)
Definition WriteEvent (ok : bool) (ev : AuditEvent) (s : sink_state) : sink_state :=
  if String.eqb (sk_dropPolicy cfg) BlockProducer then add_pending (Waiting ev) s
  else
    match try_send ev s with
    | Some s' => s'
    | None =>
        if String.eqb (sk_dropPolicy cfg) DropNewest then add_fate s [] [ev] []
        else if String.eqb (sk_dropPolicy cfg) DropOldest then add_pending (Evicting ev) s
        else store_rows ok (Create hmac_sha256 hmacKey stored_time (sk_db s) (toAuditLog ev)) [toAuditLog ev] s
    end.

(** A pending producer goes on; [cancelled] is whether its context has ended and, when the channel has room too, the select
    took that case. *)
Definition producer_step (cancelled : bool) (p : producer) (s : sink_state) : sink_state :=
  match p with
  | Waiting ev =>
      if cancelled then add_fate s [] [] [ev]
      else match try_send ev s with Some s' => s' | None => add_pending p s end
  | Evicting ev =>
      match sk_events s with
      | [] => add_pending (Retrying ev) s
      | old :: rest => add_pending (Retrying ev) (add_fate (set_events s rest) [old] [] [])
      end
  | Retrying ev => match try_send ev s with Some s' => s' | None => add_fate s [] [ev] [] end
  end.

Definition Resume (i : nat) (cancelled : bool) (s : sink_state) : sink_state :=
  match sk_pending s !! i with
  | None => s
  | Some p => producer_step cancelled p (set_pending s (take i (sk_pending s) ++ drop (S i) (sk_pending s)))
  end.

Definition flush (ok : bool) (s : sink_state) : sink_state :=
  match sk_buffer s with
  | [] => s
  | batch => store_rows ok (CreateBatch hmac_sha256 hmacKey stored_time (sk_db s) batch) batch (set_worker s (sk_events s) [] (sk_mode s))
  end.

(** The cases of the select in [run]: an event, a tick, the end of the context; and one round of the drain. *)
Definition take_event (ok : bool) (s : sink_state) : sink_state :=
  match sk_mode s, sk_events s with
  | Running, ev :: rest =>
      let s := set_worker s rest (sk_buffer s ++ [toAuditLog ev]) Running in
      if (sk_batchSize cfg <=? length (sk_buffer s))%nat then flush ok s else s
  | _, _ => s
  end.
Definition tick (ok : bool) (s : sink_state) : sink_state := match sk_mode s with Running => flush ok s | _ => s end.
Definition cancel (s : sink_state) : sink_state :=
  match sk_mode s with Running => set_worker s (sk_events s) (sk_buffer s) Draining | _ => s end.
Definition drain (ok : bool) (s : sink_state) : sink_state :=
  match sk_mode s, sk_events s with
  | Draining, ev :: rest => set_worker s rest (sk_buffer s ++ [toAuditLog ev]) Draining
  | Draining, [] => let s := flush ok s in set_worker s (sk_events s) (sk_buffer s) Stopped
  | _, _ => s
  end.

Inductive sink_op :=
| OpWrite (ok : bool) (ev : AuditEvent) | OpResume (i : nat) (cancelled : bool)
| OpEvent (ok : bool) | OpTick (ok : bool) | OpCancel | OpDrain (ok : bool).

Definition sink_step (s : sink_state) (o : sink_op) : sink_state :=
  match o with
  | OpWrite ok ev => WriteEvent ok ev s
  | OpResume i cancelled => Resume i cancelled s
  | OpEvent ok => take_event ok s
  | OpTick ok => tick ok s
  | OpCancel => cancel s
  | OpDrain ok => drain ok s
  end.
Definition sink_run (s : sink_state) (ops : list sink_op) : sink_state := foldl sink_step s ops.

(** * Theorems *)

(** Where the events written are. *)
Definition written (ops : list sink_op) : list AuditEvent := omap (λ o, match o with OpWrite _ ev => Some ev | _ => None end) ops.
Definition accounted (s : sink_state) : list AuditLog :=
  sk_stored s ++ sk_failed s ++ sk_buffer s ++
  map toAuditLog (sk_events s) ++ map toAuditLog (map produced (sk_pending s)) ++
  map toAuditLog (sk_evicted s) ++ map toAuditLog (sk_logged s) ++ map toAuditLog (sk_refused s).

Ltac account :=
  unfold accounted; cbn [set_events set_pending set_worker add_fate store_rows add_pending sk_events sk_buffer sk_mode sk_pending
    sk_db sk_stored sk_failed sk_evicted sk_logged sk_refused]; rewrite ?map_app; cbn [map produced app]; rewrite ?app_nil_r; solve_Permutation.

Lemma flush_accounted ok s : accounted (flush ok s) ≡ₚ accounted s.
Proof.
  unfold flush. destruct (sk_buffer s) as [|b l] eqn:Hb; [done|]. destruct ok; unfold accounted; rewrite Hb; account.
Qed.

Lemma try_send_accounted ev s s' : try_send ev s = Some s' → accounted s' ≡ₚ accounted s ++ [toAuditLog ev].
Proof. unfold try_send. destruct (_ <? _)%nat; [|done]. intros [= <-]. account. Qed.

Lemma producer_accounted c p s : accounted (producer_step c p s) ≡ₚ accounted s ++ [toAuditLog (produced p)].
Proof.
  destruct p as [ev|ev|ev]; cbn [producer_step produced].
  - destruct c; [account|]. destruct (try_send ev s) eqn:Ht; [by apply try_send_accounted|account].
  - destruct (sk_events s) as [|old rest] eqn:He; [account|]. unfold accounted. rewrite He. account.
  - destruct (try_send ev s) eqn:Ht; [by apply try_send_accounted|]. account.
Qed.

Lemma Resume_accounted i c s : accounted (Resume i c s) ≡ₚ accounted s.
Proof.
  unfold Resume. destruct (sk_pending s !! i) as [p|] eqn:Hp; [|done].
  assert (map toAuditLog (map produced (sk_pending s)) =
    map toAuditLog (map produced (take i (sk_pending s))) ++ toAuditLog (produced p) :: map toAuditLog (map produced (drop (S i) (sk_pending s)))) as Hm.
  { rewrite <-(take_drop_middle _ _ _ Hp) at 1. by rewrite !map_app. }
  rewrite producer_accounted. unfold accounted. rewrite Hm. account.
Qed.

Lemma sink_step_accounted s o : accounted (sink_step s o) ≡ₚ accounted s ++ map toAuditLog (written [o]).
Proof.
  destruct o as [ok ev|i c|ok|ok| |ok]; cbn [sink_step written omap list_omap map]; rewrite ?app_nil_r.
  - unfold WriteEvent. destruct (String.eqb _ BlockProducer); [account|].
    destruct (try_send ev s) eqn:Ht; [by apply try_send_accounted|].
    repeat match goal with |- context [if String.eqb ?a ?b then _ else _] => destruct (String.eqb a b) end; try account.
    destruct ok; account.
  - apply Resume_accounted.
  - unfold take_event. destruct (sk_mode s); try done. destruct (sk_events s) as [|ev rest] eqn:He; [done|]. cbv zeta.
    transitivity (accounted (set_worker s rest (sk_buffer s ++ [toAuditLog ev]) Running)).
    + destruct (_ <=? _)%nat; [apply flush_accounted|done].
    + unfold accounted. rewrite He. account.
  - unfold tick. destruct (sk_mode s); try done. apply flush_accounted.
  - unfold cancel. by destruct (sk_mode s).
  - unfold drain. destruct (sk_mode s); try done. destruct (sk_events s) as [|ev rest] eqn:He; cbv zeta.
    + rewrite <-(flush_accounted ok s). account.
    + unfold accounted. rewrite He. account.
Qed.

Lemma sink_run_accounted s ops : accounted (sink_run s ops) ≡ₚ accounted s ++ map toAuditLog (written ops).
Proof.
  unfold sink_run. revert s. induction ops as [|o l IH]; intros s; cbn [foldl]; [by rewrite app_nil_r|].
  rewrite IH, sink_step_accounted, <-app_assoc, <-map_app. unfold written. cbn [omap list_omap]. by destruct o.
Qed.

(** What holds in every history: the channel and the buffer stay within their sizes, only the policies that say so lose
    events, and the log holds what was stored. *)
Record sink_inv (db : AuditDB) (s : sink_state) : Prop := {
  si_events : (length (sk_events s) ≤ sk_bufferSize cfg)%nat;
  si_buffer : sk_mode s = Running → (length (sk_buffer s) < sk_batchSize cfg)%nat;
  si_pending : Forall (λ p, sk_dropPolicy cfg = match p with Waiting _ => BlockProducer | _ => DropOldest end) (sk_pending s);
  si_evicted : sk_evicted s = [] ∨ sk_dropPolicy cfg = DropOldest;
  si_logged : sk_logged s = [] ∨ sk_dropPolicy cfg = DropNewest ∨ sk_dropPolicy cfg = DropOldest;
  si_refused : sk_refused s = [] ∨ sk_dropPolicy cfg = BlockProducer;
  si_db : sk_db s = foldl (Create hmac_sha256 hmacKey stored_time) db (sk_stored s);
}.

Ltac keep :=
  split; cbn; rewrite ?app_nil_r; auto; try (apply Forall_app; split; [done|by constructor]); try (cbn in *; lia).

Lemma new_sink_inv db : (0 < sk_batchSize cfg)%nat → sink_inv db (new_sink db).
Proof. intros Hb. split; cbn; auto; lia. Qed.

Lemma flush_inv ok db s : (0 < sk_batchSize cfg)%nat →
  (length (sk_events s) ≤ sk_bufferSize cfg)%nat →
  Forall (λ p, sk_dropPolicy cfg = match p with Waiting _ => BlockProducer | _ => DropOldest end) (sk_pending s) →
  sk_evicted s = [] ∨ sk_dropPolicy cfg = DropOldest →
  sk_logged s = [] ∨ sk_dropPolicy cfg = DropNewest ∨ sk_dropPolicy cfg = DropOldest →
  sk_refused s = [] ∨ sk_dropPolicy cfg = BlockProducer →
  sk_db s = foldl (Create hmac_sha256 hmacKey stored_time) db (sk_stored s) →
  sink_inv db (flush ok s).
Proof.
  intros Hb ? ? ? ? ? Hdb. unfold flush. destruct (sk_buffer s) as [|b l] eqn:Hbuf; [split; auto; rewrite Hbuf; auto|].
  destruct ok; split; cbn; auto. by rewrite foldl_app, <-CreateBatch_is_Create, Hdb.
Qed.

Lemma try_send_inv ev db s s' : sink_inv db s → try_send ev s = Some s' → sink_inv db s'.
Proof.
  intros [] . unfold try_send. destruct (Nat.ltb_spec (length (sk_events s)) (sk_bufferSize cfg)) as [Hl|]; [|done].
  intros [= <-]. split; cbn; auto. rewrite length_app. cbn. lia.
Qed.

Lemma producer_inv c p db s :
  sink_inv db s → sk_dropPolicy cfg = match p with Waiting _ => BlockProducer | _ => DropOldest end → sink_inv db (producer_step c p s).
Proof.
  intros Hi Hp. destruct p as [ev|ev|ev]; cbn [producer_step].
  - destruct c; [destruct Hi; keep|]. destruct (try_send ev s) eqn:Ht; [by eapply try_send_inv|]. destruct Hi; keep.
  - destruct Hi as [He]. destruct (sk_events s) as [|old rest] eqn:Hev; keep. by rewrite Hev.
  - destruct (try_send ev s) eqn:Ht; [by eapply try_send_inv|]. destruct Hi; keep.
Qed.

Lemma sink_step_inv db s o : (0 < sk_batchSize cfg)%nat → sink_inv db s → sink_inv db (sink_step s o).
Proof.
  intros Hb Hi. destruct o as [ok ev|i c|ok|ok| |ok]; cbn [sink_step].
  - unfold WriteEvent. destruct (String.eqb_spec (sk_dropPolicy cfg) BlockProducer); [destruct Hi; keep|].
    destruct (try_send ev s) eqn:Ht; [by eapply try_send_inv|].
    destruct (String.eqb_spec (sk_dropPolicy cfg) DropNewest); [|destruct (String.eqb_spec (sk_dropPolicy cfg) DropOldest)]; destruct Hi; keep.
    destruct ok; [|done]. rewrite foldl_app. cbn [foldl]. by rewrite si_db0.
  - unfold Resume. destruct (sk_pending s !! i) as [p|] eqn:Hp; [|done].
    apply producer_inv; [|by eapply (Forall_lookup_1 _ _ _ _ (si_pending _ _ Hi))].
    destruct Hi; split; cbn; auto. apply Forall_app. split; [by apply Forall_take|by apply Forall_drop].
  - unfold take_event. destruct (sk_mode s) eqn:Hm; try done. destruct (sk_events s) as [|ev rest] eqn:He; [done|]. cbv zeta.
    destruct Hi as [Hlen]. rewrite He in Hlen. cbn in Hlen.
    destruct (Nat.leb_spec (sk_batchSize cfg) (length (sk_buffer (set_worker s rest (sk_buffer s ++ [toAuditLog ev]) Running)))).
    + apply flush_inv; cbn; auto. lia.
    + split; cbn; auto; try lia.
  - unfold tick. destruct (sk_mode s); try done. destruct Hi. by apply flush_inv.
  - unfold cancel. destruct (sk_mode s); try done. destruct Hi. by split.
  - unfold drain. destruct (sk_mode s) eqn:Hm; try done. destruct (sk_events s) as [|ev rest] eqn:He; cbv zeta.
    + assert (sink_inv db (flush ok s)) as [] by (destruct Hi; by apply flush_inv). by split.
    + destruct Hi as [Hlen]. rewrite He in Hlen. cbn in Hlen. split; cbn; auto; [lia|done].
Qed.

Lemma sink_run_inv db s ops : (0 < sk_batchSize cfg)%nat → sink_inv db s → sink_inv db (sink_run s ops).
Proof. intros Hb. revert s. induction ops as [|o l IH]; intros s Hi; [done|]. apply IH. by apply sink_step_inv. Qed.

(** The store takes what it is given; no producer gives up. *)
Definition op_ok (o : sink_op) : bool :=
  match o with OpWrite ok _ | OpEvent ok | OpTick ok | OpDrain ok => ok | _ => true end.

Lemma flush_failed s : sk_failed (flush true s) = sk_failed s.
Proof. unfold flush. by destruct (sk_buffer s). Qed.

Lemma step_failed s o : op_ok o = true → sk_failed (sink_step s o) = sk_failed s.
Proof.
  assert (∀ ev s s', try_send ev s = Some s' → sk_failed s' = sk_failed s) as Hs.
  { intros ev s0 s'. unfold try_send. destruct (_ <? _)%nat; [|done]. by intros [= <-]. }
  destruct o as [ok ev|i c|ok|ok| |ok]; cbn [op_ok sink_step]; intros Hok; try subst ok.
  - unfold WriteEvent. destruct (String.eqb _ BlockProducer); [done|]. destruct (try_send ev s) eqn:Ht; [by eapply Hs|].
    by repeat match goal with |- context [if String.eqb ?a ?b then _ else _] => destruct (String.eqb a b) end.
  - unfold Resume. destruct (sk_pending s !! i) as [[ev|ev|ev]|]; [..|done]; cbn [producer_step].
    + destruct c; [done|]. destruct (try_send ev _) eqn:Ht; [by rewrite (Hs _ _ _ Ht)|done].
    + cbn [set_pending sk_events]. by destruct (sk_events s).
    + destruct (try_send ev _) eqn:Ht; [by rewrite (Hs _ _ _ Ht)|done].
  - unfold take_event. destruct (sk_mode s), (sk_events s); try done. cbv zeta. destruct (_ <=? _)%nat; [|done]. by rewrite flush_failed.
  - unfold tick. destruct (sk_mode s); try done. apply flush_failed.
  - unfold cancel. by destruct (sk_mode s).
  - unfold drain. destruct (sk_mode s), (sk_events s); try done. cbv zeta. cbn [set_worker sk_failed]. apply flush_failed.
Qed.

Lemma run_failed s ops : forallb op_ok ops = true → sk_failed (sink_run s ops) = sk_failed s.
Proof.
  revert s. induction ops as [|o l IH]; intros s; [done|]. cbn [forallb sink_run foldl]. intros [Ho Hl]%andb_true_iff.
  fold (sink_run (sink_step s o) l). by rewrite IH, step_failed.
Qed.

(** Once its context has ended the goroutine stops after as many rounds as there are events in the channel, and one. *)
Lemma drain_stops n s :
  sk_mode s = Draining → (length (sk_events s) < n)%nat →
  let s' := sink_run s (repeat (OpDrain true) n) in
  sk_mode s' = Stopped ∧ sk_events s' = [] ∧ sk_buffer s' = [] ∧ sk_pending s' = sk_pending s ∧ sk_refused s' = sk_refused s.
Proof.
  assert (∀ n s, sk_mode s = Stopped → sink_run s (repeat (OpDrain true) n) = s) as Hstop.
  { clear n s. induction n as [|n IH]; intros s Hm; [done|]. cbn [repeat sink_run foldl sink_step]. unfold drain. rewrite Hm. by apply IH. }
  revert s. induction n as [|n IH]; intros s Hm Hl; [lia|]. cbn [repeat sink_run foldl sink_step].
  unfold drain. rewrite Hm. destruct (sk_events s) as [|ev rest] eqn:He; cbv zeta.
  - fold (sink_run (set_worker (flush true s) (sk_events (flush true s)) (sk_buffer (flush true s)) Stopped) (repeat (OpDrain true) n)).
    rewrite Hstop by done. unfold flush. destruct (sk_buffer s) as [|b l] eqn:Hb; cbn; by rewrite ?Hb, He.
  - apply (IH (set_worker s rest (sk_buffer s ++ [toAuditLog ev]) Draining)); [done|]. cbn in *. lia.
Qed.

(** No audit event goes missing unaccounted. In every history of producers, of the goroutine and of the store, the events
    written are, each once, in the log, in the goroutine's buffer, in the channel, with a producer that still waits, or lost
    for a reason the configuration allows: a batch the store refused, an event evicted under "drop_oldest", dropped with a
    log line under that policy or "drop_newest", or given up by a producer whose request ended under "block". Channel and
    buffer stay within their sizes, and the log is the one that writing the stored rows one by one gives. *)
Theorem audit_events_accounted db ops :
  (0 < sk_batchSize cfg)%nat →
  let s := sink_run (new_sink db) ops in
  accounted s ≡ₚ map toAuditLog (written ops) ∧ sink_inv db s ∧ (forallb op_ok ops = true → sk_failed s = []).
Proof.
  intros Hb s. split_and!.
  - subst s. by rewrite sink_run_accounted.
  - by apply sink_run_inv, new_sink_inv.
  - intros Hok. subst s. by rewrite run_failed.
Qed.

(** C18 Closing the sink delivers everything. When the sink is closed under any policy but the two that drop, with a store that
    takes its rows, the goroutine stops after at most one round more than there are events in the channel, and then the log
    holds every event written before, each once, but for those of producers that still wait or gave up, which the policy
    "block" alone has. *)
Theorem audit_delivery db ops n :
  (0 < sk_batchSize cfg)%nat →
  sk_dropPolicy cfg ≠ DropNewest → sk_dropPolicy cfg ≠ DropOldest → forallb op_ok ops = true →
  sk_mode (sink_run (new_sink db) ops) = Running → (length (sk_events (sink_run (new_sink db) ops)) < n)%nat →
  let s := sink_run (new_sink db) (ops ++ OpCancel :: repeat (OpDrain true) n) in
  sk_mode s = Stopped ∧ sk_db s = foldl (Create hmac_sha256 hmacKey stored_time) db (sk_stored s) ∧
  sk_stored s ++ map toAuditLog (map produced (sk_pending s)) ++ map toAuditLog (sk_refused s) ≡ₚ map toAuditLog (written ops) ∧
  (sk_dropPolicy cfg ≠ BlockProducer → sk_stored s ≡ₚ map toAuditLog (written ops)).
Proof.
  intros Hb Hn Ho Hok Hm Hlen s.
  assert (accounted s ≡ₚ map toAuditLog (written ops)) as Hacc.
  { subst s. rewrite sink_run_accounted. assert (written (repeat (OpDrain true) n) = []) as Hw by (clear; by induction n).
    assert (written (ops ++ OpCancel :: repeat (OpDrain true) n) = written ops) as ->; [|done].
    unfold written in *. rewrite omap_app. cbn [omap list_omap]. by rewrite Hw, app_nil_r. }
  assert (sink_inv db s) as [_ _ Hpend Hev Hlog Href Hdb] by (by apply sink_run_inv, new_sink_inv).
  assert (sk_failed s = []) as Hf.
  { subst s. rewrite run_failed; [done|]. rewrite forallb_app, Hok. cbn. clear. by induction n. }
  assert (sk_mode s = Stopped ∧ sk_events s = [] ∧ sk_buffer s = []) as (Hmode & Hq & Hbuf).
  { subst s. unfold sink_run. rewrite foldl_app. cbn [foldl sink_step]. fold (sink_run (new_sink db) ops). unfold cancel. rewrite Hm.
    match goal with |- context [foldl sink_step ?s0 _] => destruct (drain_stops n s0) as (? & ? & ? & _); [done|done|] end. done. }
  destruct Hev as [Hev|]; [|done]. destruct Hlog as [Hlog|[|]]; [|done..].
  unfold accounted in Hacc. rewrite Hf, Hq, Hbuf, Hev, Hlog in Hacc. cbn [map app] in Hacc.
  split_and!; [done|done|done|]. intros Hblock. destruct Href as [Href|]; [|done].
  assert (sk_pending s = []) as Hp; [|by rewrite Hp, Href, !app_nil_r in Hacc].
  destruct (sk_pending s) as [|p l]; [done|]. inversion_clear Hpend as [|? ? Hp _]. by destruct p.
Qed.

(** After the goroutine has stopped nothing leaves the channel any more. *)
Lemma stopped_step s o :
  sk_mode s = Stopped → sk_dropPolicy cfg ≠ DropOldest → Forall (λ p, ∃ ev, p = Waiting ev) (sk_pending s) →
  let s' := sink_step s o in
  sk_mode s' = Stopped ∧ Forall (λ p, ∃ ev, p = Waiting ev) (sk_pending s') ∧ ∃ l, sk_events s' = sk_events s ++ l.
Proof.
  intros Hm Hp Hf.
  assert (∀ ev s1 s2, sk_mode s1 = Stopped → Forall (λ p, ∃ ev, p = Waiting ev) (sk_pending s1) → try_send ev s1 = Some s2 →
    sk_mode s2 = Stopped ∧ Forall (λ p, ∃ ev, p = Waiting ev) (sk_pending s2) ∧ ∃ l, sk_events s2 = sk_events s1 ++ l) as Hsend.
  { intros ev s1 s2 ? ?. unfold try_send. destruct (_ <? _)%nat; [|done]. intros [= <-]. cbn. eauto. }
  assert (∀ s1, sk_events s1 = sk_events s → ∃ l, sk_events s1 = sk_events s ++ l) as Hsame by (intros s1 ->; exists []; by rewrite app_nil_r).
  destruct o as [ok ev|i c|ok|ok| |ok]; cbn [sink_step].
  - unfold WriteEvent. destruct (String.eqb _ BlockProducer);
      [cbn; split_and!; auto; apply Forall_app; split; [done|]; constructor; eauto|].
    destruct (try_send ev s) eqn:Ht; [by eapply Hsend|].
    destruct (String.eqb_spec (sk_dropPolicy cfg) DropNewest); [|destruct (String.eqb_spec (sk_dropPolicy cfg) DropOldest); [done|]];
      cbn; split_and!; auto.
  - unfold Resume. destruct (sk_pending s !! i) as [p|] eqn:Hi; [|auto].
    destruct (Forall_lookup_1 _ _ _ _ Hf Hi) as [ev ->]. cbn [producer_step].
    assert (Forall (λ p, ∃ ev, p = Waiting ev) (take i (sk_pending s) ++ drop (S i) (sk_pending s))) as Hf'
      by (apply Forall_app; split; [by apply Forall_take|by apply Forall_drop]).
    destruct c; [cbn; split_and!; auto|]. destruct (try_send ev _) eqn:Ht; [apply Hsend in Ht; [done|done|done]|]. cbn; split_and!; auto.
    apply Forall_app. split; [done|]. constructor; eauto.
  - unfold take_event. rewrite Hm. auto.
  - unfold tick. rewrite Hm. auto.
  - unfold cancel. rewrite Hm. auto.
  - unfold drain. rewrite Hm. auto.
Qed.

(** An event written after the sink is closed, while the channel has room, is lost without a trace: it stays in the channel
    whatever happens next, under the policies that neither block nor evict. *)
Theorem written_after_close_lost s ok ev ops :
  sk_mode s = Stopped → sk_pending s = [] → sk_dropPolicy cfg ≠ DropOldest → sk_dropPolicy cfg ≠ BlockProducer → (length (sk_events s) < sk_bufferSize cfg)%nat →
  ev ∈ sk_events (sink_run s (OpWrite ok ev :: ops)).
Proof.
  intros Hm Hpend Hp Hblock Hroom. cbn [sink_run foldl sink_step].
  assert (WriteEvent ok ev s = set_events s (sk_events s ++ [ev])) as ->.
  { unfold WriteEvent, try_send. rewrite (proj2 (String.eqb_neq _ _) Hblock). by rewrite (proj2 (Nat.ltb_lt _ _) Hroom). }
  assert (∀ ops s, sk_mode s = Stopped → Forall (λ p, ∃ ev, p = Waiting ev) (sk_pending s) → ev ∈ sk_events s →
            ev ∈ sk_events (sink_run s ops)) as Hrun.
  { clear s ops Hm Hpend Hroom Hblock. induction ops as [|o l IH]; intros s Hm Hf Hin; [done|]. cbn [sink_run foldl].
    destruct (stopped_step s o Hm Hp Hf) as (Hm' & Hf' & k & Hk). apply IH; [done|done|]. rewrite Hk. apply elem_of_app. by left. }
  apply Hrun; cbn; [done|by rewrite Hpend|]. apply elem_of_app. right. by apply list_elem_of_singleton.
Qed.
End operations.
End sink.

(** * Witnesses *)

Definition small_sink : sink_config := NewAsyncSink_config 1 2 "".
Definition sample_event (action : string) : AuditEvent unit := Log_event unit 0 (Some 7%Z) action "session" None None.
Definition sample_sink_ops : list (sink_op unit) :=
  [OpWrite unit true (sample_event "login"); OpWrite unit true (sample_event "refresh"); OpEvent unit true; OpWrite unit true (sample_event "logout")].

(** A channel of one event: the second is written at once, overtaking the first. *)
Lemma audit_delivery_witness :
  map Action (sk_stored unit (sink_run unit (λ _, None) sample_mac "k" (λ t, t) small_sink (new_sink unit emptyAuditDB)
    (sample_sink_ops ++ OpCancel unit :: repeat (OpDrain unit true) 2))) = ["refresh"; "login"; "logout"] ∧
  sk_stored unit (sink_run unit (λ _, None) sample_mac "k" (λ t, t) small_sink (new_sink unit emptyAuditDB)
    (sample_sink_ops ++ OpCancel unit :: repeat (OpDrain unit true) 2)) ≡ₚ map (toAuditLog unit (λ _, None)) (written unit sample_sink_ops).
Proof.
  split; [vm_compute; reflexivity|].
  destruct (audit_delivery unit (λ _, None) sample_mac "k" (λ t, t) small_sink emptyAuditDB sample_sink_ops 2) as (_ & _ & _ & H);
    [vm_compute; lia|discriminate|discriminate|reflexivity|vm_compute; reflexivity|vm_compute; lia|].
  apply H. discriminate.
Defined.

Lemma audit_events_accounted_witness :
  accounted unit (λ _, None) (sink_run unit (λ _, None) sample_mac "k" (λ t, t) small_sink (new_sink unit emptyAuditDB) sample_sink_ops)
    ≡ₚ map (toAuditLog unit (λ _, None)) (written unit sample_sink_ops) ∧
  length (written unit sample_sink_ops) = 3%nat.
Proof.
  split; [|reflexivity]. apply (audit_events_accounted unit (λ _, None) sample_mac "k" (λ t, t) small_sink emptyAuditDB sample_sink_ops). vm_compute. lia.
Defined.

Definition closed_sink : sink_state unit := sink_run unit (λ _, None) sample_mac "k" (λ t, t) small_sink (new_sink unit emptyAuditDB) [OpCancel unit; OpDrain unit true].

Lemma written_after_close_lost_witness :
  sk_mode unit closed_sink = Stopped ∧
  sample_event "logout" ∈ sk_events unit (sink_run unit (λ _, None) sample_mac "k" (λ t, t) small_sink closed_sink
    [OpWrite unit true (sample_event "logout"); OpTick unit true; OpDrain unit true]).
Proof.
  split; [vm_compute; reflexivity|].
  apply (written_after_close_lost unit (λ _, None) sample_mac "k" (λ t, t) small_sink closed_sink true (sample_event "logout") [OpTick unit true; OpDrain unit true]);
    [vm_compute; reflexivity|vm_compute; reflexivity|discriminate|discriminate|vm_compute; lia].
Defined.
