(* ===== verification/Webhooks.v ===== *)
(** Audit webhooks: internal/audit/webhook.go (which hooks an event goes to, what is sent and how it is signed, and how a delivery
    is recorded), internal/store/audit_webhook_store.go (the table, with its secrets sealed as in SecretBox.v) and the handlers of
    internal/http/audit_webhooks.go.

    Parameters stand for gorm (the value it stores for a boolean with a default, and whether [Save] inserts a row that is gone,
    which it documents), for JSON and HMAC, and for the server a delivery is posted to. *)
From S2P Require Import Prelude GoStrings Netip Netguard Domain AuditChain SecretBox ApiGuard UserAdmin.

#[local] Open Scope string_scope.
#[local] Open Scope list_scope.

Record AuditWebhook := {
  wh_ID : N; wh_Name : string; wh_URL : string; wh_Format : string; wh_SecretEncrypted : string; wh_SecretPreview : string;
  wh_EventTypes : list string; wh_Active : bool; wh_LastFiredAt : option Z; wh_LastStatus : Z; wh_LastError : string;
}.

Record hook_state := { hooks : list AuditWebhook; nextHook : N; hook_keys : key_cache }.

Definition with_secret (h : AuditWebhook) (secret : string) : AuditWebhook :=
  {| wh_ID := wh_ID h; wh_Name := wh_Name h; wh_URL := wh_URL h; wh_Format := wh_Format h; wh_SecretEncrypted := secret;
     wh_SecretPreview := wh_SecretPreview h; wh_EventTypes := wh_EventTypes h; wh_Active := wh_Active h; wh_LastFiredAt := wh_LastFiredAt h;
     wh_LastStatus := wh_LastStatus h; wh_LastError := wh_LastError h |}.

Definition DefaultWebhookEvents : gset string :=
  list_to_set ["login_succeeded"; "login_failed"; "mfa_verify_succeeded"; "mfa_verify_failed"; "create"; "update"; "delete"; "enroll";
    "magic_link_issued"; "tunnel_bootstrap"; "tunnel_revoke"; "passkey_registered"; "passkey_deleted"; "node_heartbeat_rejected";
    "route_pin_failed"; "route_email_code_verify_failed"; "security_alert"; "break_glass_login"].

(** [SetDataEncryptionSecrets]. *)
Definition usable_secrets (values : list string) : list string :=
  omap (λ v, let trimmed := TrimSpace v in if non_empty trimmed then Some trimmed else None) values.

Section webhooks.
Context `{Primitives}.
Variable gorm_bool : bool → bool → bool.
Variable save_inserts : bool.
(** [dataEncryptionBytes]. *)
Variable secrets : list string.

(** ** The table *)

Definition hooks_encryptSecret (salt nonce : string) (item : AuditWebhook) (c : key_cache) : AuditWebhook * key_cache :=
  match secrets with
  | [] => (item, c)
  | secret :: _ =>
      if String.eqb (TrimSpace (wh_SecretEncrypted item)) "" then (item, c)
      else if IsEncryptedValue (wh_SecretEncrypted item) then (item, c)
      else let '(encrypted, c) := EncryptStringV2 secret (wh_SecretEncrypted item) salt nonce c in (with_secret item encrypted, c)
  end.

Definition hooks_decryptSecret (item : AuditWebhook) (c : key_cache) : AuditWebhook * key_cache :=
  if String.eqb (TrimSpace (wh_SecretEncrypted item)) "" || negb (IsEncryptedValue (wh_SecretEncrypted item)) then (item, c)
  else match DecryptStringAuto secrets (wh_SecretEncrypted item) c with
       | (Ok plain, c) => (with_secret item plain, c)
       | (Err _, c) => (item, c)
       end.

Definition with_keys (st : hook_state) (c : key_cache) : hook_state := {| hooks := hooks st; nextHook := nextHook st; hook_keys := c |}.

Definition hook_matches (action : string) (item : AuditWebhook) : bool :=
  match wh_EventTypes item with
  | [] => bool_decide (action ∈ DefaultWebhookEvents)
  | l => existsb (λ allowed, String.eqb allowed action || String.eqb allowed "*") l
  end.

(** The loop of [ActiveByEvent] over the active rows. *)
Fixpoint open_matching (action : string) (items : list AuditWebhook) (c : key_cache) : list AuditWebhook * key_cache :=
  match items with
  | [] => ([], c)
  | item :: rest =>
      if hook_matches action item then
        let '(item, c) := hooks_decryptSecret item c in
        let '(out, c) := open_matching action rest c in (item :: out, c)
      else open_matching action rest c
  end.

Definition ActiveByEvent (st : hook_state) (action : string) : list AuditWebhook * hook_state :=
  let '(out, c) := open_matching action (List.filter wh_Active (hooks st)) (hook_keys st) in (out, with_keys st c).

Definition hook_by_id (st : hook_state) (id : N) : option AuditWebhook := List.find (λ h, N.eqb (wh_ID h) id) (hooks st).

Definition hooks_GetByID (st : hook_state) (id : N) : option AuditWebhook * hook_state :=
  match hook_by_id st id with
  | None => (None, st)
  | Some item => let '(item, c) := hooks_decryptSecret item (hook_keys st) in (Some item, with_keys st c)
  end.

(** A row as INSERT stores it. *)
Definition inserted (id : N) (item : AuditWebhook) : AuditWebhook :=
  {| wh_ID := id; wh_Name := wh_Name item; wh_URL := wh_URL item; wh_Format := wh_Format item; wh_SecretEncrypted := wh_SecretEncrypted item;
     wh_SecretPreview := wh_SecretPreview item; wh_EventTypes := wh_EventTypes item; wh_Active := gorm_bool (wh_Active item) true;
     wh_LastFiredAt := wh_LastFiredAt item; wh_LastStatus := wh_LastStatus item; wh_LastError := wh_LastError item |}.

Definition hooks_Create (salt nonce : string) (st : hook_state) (item : AuditWebhook) : N * hook_state :=
  let '(encrypted, c) := hooks_encryptSecret salt nonce item (hook_keys st) in
  (nextHook st, {| hooks := hooks st ++ [inserted (nextHook st) encrypted]; nextHook := nextHook st + 1; hook_keys := c |}).

(** [Save]: every column of the row is written. *)
Definition hooks_Update (salt nonce : string) (st : hook_state) (item : AuditWebhook) : hook_state :=
  let '(encrypted, c) := hooks_encryptSecret salt nonce item (hook_keys st) in
  if existsb (λ h, N.eqb (wh_ID h) (wh_ID item)) (hooks st)
  then {| hooks := map (λ h, if N.eqb (wh_ID h) (wh_ID item) then encrypted else h) (hooks st); nextHook := nextHook st; hook_keys := c |}
  else if save_inserts
  then {| hooks := hooks st ++ [inserted (wh_ID item) encrypted]; nextHook := nextHook st; hook_keys := c |}
  else with_keys st c.

Definition hooks_Delete (st : hook_state) (id : N) : option hook_state :=
  if existsb (λ h, N.eqb (wh_ID h) id) (hooks st)
  then Some {| hooks := List.filter (λ h, negb (N.eqb (wh_ID h) id)) (hooks st); nextHook := nextHook st; hook_keys := hook_keys st |}
  else None.

(** ** Handlers *)

Record createAuditWebhookRequest := { cw_Name : string; cw_URL : string; cw_Format : string; cw_EventTypes : list string; cw_Active : option bool }.
Record updateAuditWebhookRequest := {
  uw_Name : option string; uw_URL : option string; uw_Format : option string; uw_EventTypes : option (list string); uw_Active : option bool;
  uw_Secret : option string;
}.

(** [validateOutboundURL] (Netguard.v), and 24 random bytes in hexadecimal. *)
Variable outbound_ok : string → bool.
Variable salt nonce : string.

Definition handleCreateAuditWebhook (secret : option string) (req : createAuditWebhookRequest) (st : hook_state)
  : api_reply (AuditWebhook * string) * hook_state :=
  if negb (outbound_ok (cw_URL req)) then (ApiError 400 "invalid_webhook_url" "", st)
  else match secret with
       | None => (internalError, st)
       | Some secret =>
           let format := TrimSpace (cw_Format req) in
           let item := {| wh_ID := 0; wh_Name := cw_Name req; wh_URL := cw_URL req; wh_Format := if String.eqb format "" then "generic" else format;
                          wh_SecretEncrypted := secret; wh_SecretPreview := String.substring 0 8 secret; wh_EventTypes := cw_EventTypes req;
                          wh_Active := default true (cw_Active req); wh_LastFiredAt := None; wh_LastStatus := 0; wh_LastError := "" |} in
           let '(id, st) := hooks_Create salt nonce st item in
           (Answer ({| wh_ID := id; wh_Name := wh_Name item; wh_URL := wh_URL item; wh_Format := wh_Format item; wh_SecretEncrypted := secret;
                       wh_SecretPreview := wh_SecretPreview item; wh_EventTypes := wh_EventTypes item; wh_Active := wh_Active item;
                       wh_LastFiredAt := None; wh_LastStatus := 0; wh_LastError := "" |}, secret), st)
       end.

Definition handleUpdateAuditWebhook (id : N) (req : updateAuditWebhookRequest) (st : hook_state) : api_reply AuditWebhook * hook_state :=
  let '(found, st) := hooks_GetByID st id in
  match found with
  | None => (not_found, st)
  | Some item =>
      if match uw_URL req with Some url => negb (outbound_ok url) | None => false end then (ApiError 400 "invalid_webhook_url" "", st)
      else
        let secret := TrimSpace <$> uw_Secret req in
        if match secret with Some s => (String.length s <? 16)%nat | None => false end
        then (ApiError 400 "weak_webhook_secret" "webhook secret must be at least 16 characters", st)
        else
          let item := {| wh_ID := wh_ID item; wh_Name := default (wh_Name item) (uw_Name req); wh_URL := default (wh_URL item) (uw_URL req);
                         wh_Format := default (wh_Format item) (uw_Format req); wh_SecretEncrypted := default (wh_SecretEncrypted item) secret;
                         wh_SecretPreview := match secret with Some s => String.substring 0 4 s | None => wh_SecretPreview item end;
                         wh_EventTypes := default (wh_EventTypes item) (uw_EventTypes req); wh_Active := default (wh_Active item) (uw_Active req);
                         wh_LastFiredAt := wh_LastFiredAt item; wh_LastStatus := wh_LastStatus item; wh_LastError := wh_LastError item |} in
          (Answer item, hooks_Update salt nonce st item)
  end.

Definition handleDeleteAuditWebhook (id : N) (st : hook_state) : api_reply unit * hook_state :=
  match hooks_Delete st id with None => (not_found, st) | Some st => (Answer tt, st) end.

Definition handleRotateAuditWebhookSecret (id : N) (secret : option string) (st : hook_state) : api_reply string * hook_state :=
  let '(found, st) := hooks_GetByID st id in
  match found with
  | None => (not_found, st)
  | Some item =>
      match secret with
      | None => (internalError, st)
      | Some secret =>
          let item := {| wh_ID := wh_ID item; wh_Name := wh_Name item; wh_URL := wh_URL item; wh_Format := wh_Format item;
                         wh_SecretEncrypted := secret; wh_SecretPreview := String.substring 0 8 secret; wh_EventTypes := wh_EventTypes item;
                         wh_Active := wh_Active item; wh_LastFiredAt := wh_LastFiredAt item; wh_LastStatus := wh_LastStatus item;
                         wh_LastError := wh_LastError item |} in
          (Answer secret, hooks_Update salt nonce st item)
      end
  end.

(** ** Deliveries *)

Record webhookPayload := {
  wp_Event : string; wp_Action : string; wp_ResourceType : string; wp_ResourceID : option Z; wp_UserID : option Z; wp_Timestamp : Z;
  wp_Details : option string; wp_RequestID : string; wp_StatusCode : Z; wp_Host : string; wp_Path : string; wp_Method : string;
  wp_RemoteAddr : string;
}.

(** The values the formats marshal. *)
Inductive webhook_json :=
| SlackJSON (text : string) (timestamp : Z) (fields : list (string * string))
| DiscordJSON (title description timestamp : string)
| GenericJSON (payload : webhookPayload).

(** [json.Marshal], [fmt.Sprintf] of a number, [crypto/hmac] with SHA-256, and [time.RFC3339]. *)
Variable json_Marshal : webhook_json → option string.
Variable json_error : string.
Variable hmac_sha256 : string → string → string.
Variable RFC3339 : Z → string.

Definition renderWebhookBody (format : string) (p : webhookPayload) : option string :=
  let format := ToLower (TrimSpace format) in
  if String.eqb format "slack" then
    let text := "*" +:+ wp_Event p +:+ "* — " +:+ wp_ResourceType p +:+
                match wp_UserID p with Some u => " (user #" +:+ pretty u +:+ ")" | None => "" end in
    json_Marshal (SlackJSON text (wp_Timestamp p / Second)
      [("Action", wp_Action p); ("Resource", wp_ResourceType p); ("Host", wp_Host p); ("Status", pretty (wp_StatusCode p))])
  else if String.eqb format "discord" then
    json_Marshal (DiscordJSON (wp_Event p)
      ("**Resource:** " +:+ wp_ResourceType p +:+ String "010" "**Host:** " +:+ wp_Host p +:+ String "010" "**Status:** " +:+ pretty (wp_StatusCode p))
      (RFC3339 (wp_Timestamp p)))
  else if String.eqb format "ntfy" then Some (wp_Event p +:+ " on " +:+ wp_Host p +:+ " (" +:+ wp_ResourceType p +:+ ")")
  else json_Marshal (GenericJSON p).

Definition contentTypeFor (format : string) : string :=
  if String.eqb (ToLower (TrimSpace format)) "ntfy" then "text/plain" else "application/json".

Definition signBody (secret body : string) : string := "sha256=" +:+ hex_encode (hmac_sha256 secret body).

Record delivery := { dl_URL : string; dl_ContentType : string; dl_Body : string; dl_Signature : option string }.

Definition delivery_for (hook : AuditWebhook) (p : webhookPayload) : option delivery :=
  (λ body, {| dl_URL := wh_URL hook; dl_ContentType := contentTypeFor (wh_Format hook); dl_Body := body;
              dl_Signature := if non_empty (TrimSpace (wh_SecretEncrypted hook)) then Some (signBody (wh_SecretEncrypted hook) body) else None |})
    <$> renderWebhookBody (wh_Format hook) p.

Definition payload_of (entry : AuditLog) (details : option string) : webhookPayload :=
  {| wp_Event := Action entry; wp_Action := Action entry; wp_ResourceType := ResourceType entry; wp_ResourceID := ResourceID entry;
     wp_UserID := UserID entry; wp_Timestamp := Timestamp entry; wp_Details := details; wp_RequestID := RequestID entry;
     wp_StatusCode := StatusCode entry; wp_Host := Host entry; wp_Path := Path entry; wp_Method := Method entry; wp_RemoteAddr := RemoteAddr entry |}.

(** [Dispatch]: the hooks, as they were read, that are fired, each in a goroutine of its own. *)
Definition Dispatch (st : hook_state) (entry : AuditLog) (details : option string) : list (AuditWebhook * webhookPayload) * hook_state :=
  let '(found, st) := ActiveByEvent st (Action entry) in (map (λ h, (h, payload_of entry details)) found, st).

Definition recordResult (now : Z) (hook : AuditWebhook) (status : Z) (errMessage : string) (st : hook_state) : hook_state :=
  hooks_Update salt nonce st
    {| wh_ID := wh_ID hook; wh_Name := wh_Name hook; wh_URL := wh_URL hook; wh_Format := wh_Format hook; wh_SecretEncrypted := wh_SecretEncrypted hook;
       wh_SecretPreview := wh_SecretPreview hook; wh_EventTypes := wh_EventTypes hook; wh_Active := wh_Active hook; wh_LastFiredAt := Some now;
       wh_LastStatus := status; wh_LastError := errMessage |}.

(** What posting a delivery gives: a status, or the text of an error. *)
Variable post : delivery → Z + string.

(** [fire] up to the answer, and its end; between the two the table may change. *)
Definition fire_result (hook : AuditWebhook) (p : webhookPayload) : Z * string :=
  match delivery_for hook p with
  | None => (0%Z, json_error)
  | Some d => match post d with
              | inr e => (0%Z, e)
              | inl status => (status, if (400 <=? status)%Z then "upstream " +:+ pretty status else "")
              end
  end.
Definition fire_end (now : Z) (hook : AuditWebhook) (p : webhookPayload) (st : hook_state) : hook_state :=
  let '(status, e) := fire_result hook p in recordResult now hook status e st.
End webhooks.

(** * Theorems *)

Section theorems.
Context `{PrimitivesLaws}.
Variable gorm_bool : bool → bool → bool.
Variable save_inserts : bool.
Variable secrets : list string.
Variable salt nonce : string.
Hypothesis secrets_usable : Forall (λ s, s ≠ "") secrets.
Hypothesis salt_length : String.length salt = argon2SaltLen.
Hypothesis nonce_length : String.length nonce = nonceSize.

(** A secret that was never sealed: it does not look like a sealed one. *)
Definition plain (h : AuditWebhook) : Prop := IsEncryptedValue (wh_SecretEncrypted h) = false.

Lemma seal_open h c :
  plain h → cache_ok c →
  cache_ok (hooks_encryptSecret secrets salt nonce h c).2 ∧
  (∀ c', cache_ok c' → (hooks_decryptSecret secrets (hooks_encryptSecret secrets salt nonce h c).1 c').1 = h) ∧
  (∃ sealed, (hooks_encryptSecret secrets salt nonce h c).1 = with_secret h sealed ∧
     (secrets ≠ [] → TrimSpace (wh_SecretEncrypted h) ≠ "" → IsEncryptedValue sealed = true)).
Proof.
  intros Hp Hc. unfold hooks_encryptSecret.
  assert (with_secret h (wh_SecretEncrypted h) = h) as Hh by by destruct h.
  assert (∀ c', (hooks_decryptSecret secrets h c').1 = h) as Hd.
  { intros c'. unfold hooks_decryptSecret. unfold plain in Hp. rewrite Hp. cbn [negb]. by rewrite orb_true_r. }
  destruct secrets as [|s rest] eqn:Hs; [split_and!; [done|auto|exists (wh_SecretEncrypted h); by rewrite Hh]|].
  destruct (String.eqb_spec (TrimSpace (wh_SecretEncrypted h)) "") as [Hb|Hb].
  { split_and!; [done|auto|]. exists (wh_SecretEncrypted h). by rewrite Hh. }
  unfold plain in Hp. rewrite Hp.
  inversion_clear secrets_usable as [|? ? Hne _].
  assert (∀ c', cache_ok c' → (DecryptStringAuto (s :: rest) (EncryptStringV2 s (wh_SecretEncrypted h) salt nonce c).1 c').1 = Ok (wh_SecretEncrypted h) ∧
     IsEncryptedValue (EncryptStringV2 s (wh_SecretEncrypted h) salt nonce c).1 = true ∧
     cache_ok (EncryptStringV2 s (wh_SecretEncrypted h) salt nonce c).2) as Hbox
    by (intros c' Hc'; apply sealed_v2_opens; [by constructor|done..]).
  destruct (EncryptStringV2 s (wh_SecretEncrypted h) salt nonce c) as [sealed c1]. cbn [fst snd] in *.
  split_and!; [by eapply Hbox| |exists sealed; split; [done|intros; by eapply Hbox]].
  intros c' Hc'. destruct (Hbox c' Hc') as (Hopen & Henc & _). unfold hooks_decryptSecret. cbn [with_secret wh_SecretEncrypted].
  assert (String.eqb (TrimSpace sealed) "" = false) as ->.
  { apply String.eqb_neq. intros Ht. unfold IsEncryptedValue, IsEncryptedValueV1, IsEncryptedValueV2 in Henc. by rewrite Ht in Henc. }
  rewrite Henc. cbn [orb negb]. destruct (DecryptStringAuto _ _ _) as [[plain|] c2]; [|done]. cbn [fst] in *. by injection Hopen as ->; destruct h.
Qed.

Lemma decryptSecret_row h c : ∃ s, (hooks_decryptSecret secrets h c).1 = with_secret h s.
Proof.
  assert (with_secret h (wh_SecretEncrypted h) = h) as Hh by by destruct h.
  unfold hooks_decryptSecret. destruct (_ || _); [exists (wh_SecretEncrypted h); by rewrite Hh|].
  destruct (DecryptStringAuto _ _ _) as [[plain|] c2]; [by eexists|]. exists (wh_SecretEncrypted h). by rewrite Hh.
Qed.

(** [ActiveByEvent] keeps the rows, in their order, and opens their secrets. *)
Lemma open_matching_rows action rows c :
  Forall2 (λ row h, ∃ s, h = with_secret row s) (List.filter (hook_matches action) rows) (open_matching secrets action rows c).1.
Proof.
  revert c. induction rows as [|row rows IH]; intros c; cbn [open_matching List.filter]; [constructor|].
  destruct (hook_matches action row); [|apply IH]. destruct (decryptSecret_row row c) as [s Hs].
  destruct (hooks_decryptSecret secrets row c) as [h c1]. cbn [fst] in Hs. specialize (IH c1).
  destruct (open_matching secrets action rows c1) as [out c2]. cbn [fst] in *. constructor; [eauto|done].
Qed.

Lemma ActiveByEvent_rows st action :
  Forall2 (λ row h, ∃ s, h = with_secret row s) (List.filter (hook_matches action) (List.filter wh_Active (hooks st))) (ActiveByEvent secrets st action).1.
Proof.
  unfold ActiveByEvent. pose proof (open_matching_rows action (List.filter wh_Active (hooks st)) (hook_keys st)) as Hr.
  by destruct (open_matching secrets action (List.filter wh_Active (hooks st)) (hook_keys st)).
Qed.

Lemma find_app_none {A} (f : A → bool) l x : existsb f l = false → f x = true → List.find f (l ++ [x]) = Some x.
Proof. intros Hl Hx. induction l as [|a l IH]; cbn in *; [by rewrite Hx|]. apply orb_false_iff in Hl as [-> Hl]. auto. Qed.

(** A row that is saved is read back as it was given. *)
Lemma update_read st item :
  plain item → cache_ok (hook_keys st) →
  existsb (λ h, N.eqb (wh_ID h) (wh_ID item)) (hooks st) = true ∨ save_inserts = true ∧ gorm_bool (wh_Active item) true = wh_Active item →
  (hooks_GetByID secrets (hooks_Update gorm_bool save_inserts secrets salt nonce st item) (wh_ID item)).1 = Some item.
Proof.
  intros Hp Hc Hex. unfold hooks_Update. destruct (seal_open item (hook_keys st) Hp Hc) as (Hc1 & Hopen & sealed & Hseal & _).
  destruct (hooks_encryptSecret secrets salt nonce item (hook_keys st)) as [row c1]. cbn [fst snd] in *.
  assert (wh_ID row = wh_ID item) as Hid by by rewrite Hseal.
  assert (∀ l n, List.find (λ h, N.eqb (wh_ID h) (wh_ID item)) l = Some row →
    (hooks_GetByID secrets {| hooks := l; nextHook := n; hook_keys := c1 |} (wh_ID item)).1 = Some item) as Hget.
  { intros l n Hf. unfold hooks_GetByID, hook_by_id. cbn [hooks hook_keys]. rewrite Hf. specialize (Hopen c1 Hc1).
    destruct (hooks_decryptSecret secrets row c1). cbn [fst] in *. by rewrite Hopen. }
  destruct (existsb _ (hooks st)) eqn:He.
  - apply Hget. clear Hex. induction (hooks st) as [|h l IH]; [done|]. cbn [existsb map List.find] in *.
    destruct (N.eqb (wh_ID h) (wh_ID item)) eqn:Hh; [by rewrite Hid, N.eqb_refl|]. rewrite Hh. by apply IH.
  - destruct Hex as [|[-> Hg]]; [done|]. apply Hget.
    assert (inserted gorm_bool (wh_ID item) row = row) as ->.
    { rewrite Hseal. unfold inserted, with_secret. cbn. by rewrite Hg; destruct item. }
    apply find_app_none; [done|]. by rewrite Hid, N.eqb_refl.
Qed.

(** What becomes of a row whose delivery is recorded. *)
Definition with_result (h : AuditWebhook) (now status : Z) (e : string) : AuditWebhook :=
  {| wh_ID := wh_ID h; wh_Name := wh_Name h; wh_URL := wh_URL h; wh_Format := wh_Format h; wh_SecretEncrypted := wh_SecretEncrypted h;
     wh_SecretPreview := wh_SecretPreview h; wh_EventTypes := wh_EventTypes h; wh_Active := wh_Active h; wh_LastFiredAt := Some now;
     wh_LastStatus := status; wh_LastError := e |}.

(** The end of a delivery undoes what was changed while it ran. A delivery writes the whole row back as it was when the event
    was dispatched: whatever the table holds by then, the hook is active again, with the address, the events and the secret it
    had, although it may have been deactivated, changed, given a new secret or deleted in between. *)
Theorem stale_delivery_overwrites st action h st2 now status e :
  h ∈ (ActiveByEvent secrets st action).1 → plain h → cache_ok (hook_keys st2) → save_inserts = true → gorm_bool true true = true →
  (hooks_GetByID secrets (recordResult gorm_bool save_inserts secrets salt nonce now h status e st2) (wh_ID h)).1
    = Some (with_result h now status e) ∧ wh_Active h = true.
Proof.
  intros Hin Hp Hc Hs Hg.
  assert (wh_Active h = true) as Ha.
  { apply list_elem_of_lookup in Hin as [i Hi]. destruct (Forall2_lookup_r _ _ _ _ _ (ActiveByEvent_rows st action) Hi) as (row & Hrow & s & ->).
    apply list_elem_of_lookup_2, list_elem_of_In, filter_In in Hrow as [Hrow _]. by apply filter_In in Hrow as [_ ?]. }
  split; [|done]. apply (update_read st2 (with_result h now status e)); [done|done|]. right. split; [done|]. cbn. by rewrite Ha.
Qed.

(** A new hook keeps its secret sealed and signs with it. The handler refuses addresses the guard refuses; the secret it shows
    once is, wherever a key is configured, not what the table holds, and it is what every later read of the row gives. *)
Theorem created_webhook_sealed outbound_ok secret req st item shown st' :
  handleCreateAuditWebhook gorm_bool secrets outbound_ok salt nonce secret req st = (Answer (item, shown), st') →
  IsEncryptedValue shown = false → TrimSpace shown ≠ "" → cache_ok (hook_keys st) → Forall (λ h, (wh_ID h < nextHook st)%N) (hooks st) →
  outbound_ok (cw_URL req) = true ∧ secret = Some shown ∧
  (∃ row, hook_by_id st' (wh_ID item) = Some row ∧ (secrets ≠ [] → IsEncryptedValue (wh_SecretEncrypted row) = true)) ∧
  (∃ h, (hooks_GetByID secrets st' (wh_ID item)).1 = Some h ∧ wh_SecretEncrypted h = shown ∧ wh_URL h = cw_URL req).
Proof.
  unfold handleCreateAuditWebhook. destruct (outbound_ok (cw_URL req)); cbn [negb]; [|by intros [? _]%pair_eq].
  destruct secret as [secret|]; [|by intros [? _]%pair_eq]. cbv zeta. unfold hooks_Create.
  match goal with |- context [hooks_encryptSecret secrets salt nonce ?it _] => set (new := it) end.
  destruct (hooks_encryptSecret secrets salt nonce new (hook_keys st)) as [row c1] eqn:He.
  intros [[= <- <-] <-]%pair_eq Hp Hb Hc Hids.
  destruct (seal_open new (hook_keys st) Hp Hc) as (Hc1 & Hopen & sealed & Hseal & Henc). rewrite He in *. cbn [fst snd] in *.
  cbn [wh_ID hooks]. split; [done|]. split; [done|].
  assert (hook_by_id {| hooks := hooks st ++ [inserted gorm_bool (nextHook st) row]; nextHook := nextHook st + 1; hook_keys := c1 |} (nextHook st)
          = Some (inserted gorm_bool (nextHook st) row)) as Hrow.
  { unfold hook_by_id. cbn [hooks]. apply find_app_none; [|by apply N.eqb_refl]. clear -Hids.
    induction Hids as [|h l Hh _ IH]; cbn; [done|]. rewrite IH, orb_false_r. apply N.eqb_neq. lia. }
  split.
  - eexists. split; [exact Hrow|]. intros Hne. cbn [inserted wh_SecretEncrypted]. rewrite Hseal. by apply Henc.
  - unfold hooks_GetByID. rewrite Hrow. cbn [hook_keys].
    specialize (Hopen c1 Hc1). revert Hopen. unfold hooks_decryptSecret. cbn [inserted wh_SecretEncrypted].
    destruct (_ || _); [cbn; intros ->; by eexists|].
    destruct (DecryptStringAuto _ _ _) as [[pl|] c2]; cbn [fst]; intros Heq; eexists; (split; [reflexivity|]).
    + apply (f_equal wh_SecretEncrypted) in Heq. cbn in *. split; [done|]. by rewrite Hseal.
    + cbn. by rewrite Heq.
Qed.

(** An event goes to the active hooks that ask for it, and to no other: those without a list of events for the default events,
    the others for the events they list, or all for "*"; each delivery goes to the hook's own address and carries a signature
    under the hook's secret exactly when it has one. *)
Theorem webhook_dispatch_spec json_Marshal hmac_sha256 RFC3339 st entry details :
  Forall2 (λ row hp, wh_ID hp.1 = wh_ID row ∧ wh_URL hp.1 = wh_URL row ∧ hp.2 = payload_of entry details ∧
             ∀ d, delivery_for json_Marshal hmac_sha256 RFC3339 hp.1 hp.2 = Some d →
               dl_URL d = wh_URL row ∧
               (dl_Signature d = if non_empty (TrimSpace (wh_SecretEncrypted hp.1)) then Some (signBody hmac_sha256 (wh_SecretEncrypted hp.1) (dl_Body d)) else None))
    (List.filter (λ h, wh_Active h &&
        match wh_EventTypes h with
        | [] => bool_decide (Action entry ∈ DefaultWebhookEvents)
        | l => bool_decide (Action entry ∈ l) || bool_decide ("*" ∈ l)
        end) (hooks st))
    (Dispatch secrets st entry details).1.
Proof.
  unfold Dispatch. pose proof (ActiveByEvent_rows st (Action entry)) as Hr. destruct (ActiveByEvent secrets st (Action entry)) as [found st'].
  cbn [fst] in *. match goal with |- Forall2 _ ?l _ => assert (l = List.filter (hook_matches (Action entry)) (List.filter wh_Active (hooks st))) as -> end.
  { clear. induction (hooks st) as [|h l IH]; [done|]. cbn [List.filter]. destruct (wh_Active h); cbn [andb]; [|done]. cbn [List.filter].
    rewrite IH. assert (∀ b1 b2 : bool, b1 = b2 → ∀ x y : list AuditWebhook, (if b1 then x else y) = (if b2 then x else y)) as Hif by by intros ? ? ->.
    apply Hif. unfold hook_matches. destruct (wh_EventTypes h) as [|t ts]; [done|]. apply eq_true_iff_eq.
    rewrite orb_true_iff, !bool_decide_eq_true, existsb_exists_elem. split.
    - intros [Hin|Hin]; eexists; (split; [exact Hin|]); rewrite String.eqb_refl; [done|apply orb_true_r].
    - intros (x & Hx & [->%String.eqb_eq| ->%String.eqb_eq]%orb_true_iff); auto. }
  apply Forall2_fmap_r. eapply Forall2_impl; [exact Hr|]. intros row h [s ->]. cbn. split_and!; try done.
  intros d Hd. unfold delivery_for in Hd. destruct (renderWebhookBody _ _ _ _); [|done]. injection Hd as <-. done.
Qed.
End theorems.

(** * Witnesses *)

Definition sample_salt : string := "0123456789abcdef".
Definition sample_nonce : string := "0123456789ab".
Definition no_hooks : hook_state := {| hooks := []; nextHook := 1; hook_keys := {| argon2KeyCache := ∅; argon2CacheCount := 0 |} |}.
Definition hook_request : createAuditWebhookRequest :=
  {| cw_Name := "siem"; cw_URL := "https://siem.example.com/in"; cw_Format := ""; cw_EventTypes := ["*"]; cw_Active := None |}.
Definition keep_bool (value column_default : bool) : bool := value || column_default.
Definition created_hook := handleCreateAuditWebhook keep_bool ["data-key"] (λ _, true) sample_salt sample_nonce (Some "0123456789abcdef0123") hook_request no_hooks.
Definition hooked : hook_state := created_hook.2.
Definition dispatched : option AuditWebhook := head (ActiveByEvent ["data-key"] hooked "login_failed").1.

Lemma created_webhook_sealed_witness :
  ∃ item row, created_hook.1 = Answer (item, "0123456789abcdef0123") ∧ hook_by_id hooked (wh_ID item) = Some row ∧
    IsEncryptedValue (wh_SecretEncrypted row) = true.
Proof.
  destruct created_hook as [a st'] eqn:Hc. destruct a as [|[item shown]] eqn:Ha; [exfalso; revert Hc; vm_compute; discriminate|].
  destruct (created_webhook_sealed keep_bool ["data-key"] sample_salt sample_nonce ltac:(by repeat constructor) eq_refl eq_refl
              (λ _, true) (Some "0123456789abcdef0123") hook_request no_hooks item shown st') as (_ & Hs & (row & Hrow & Henc) & _).
  - exact Hc.
  - assert (shown = "0123456789abcdef0123") as -> by (apply (f_equal fst) in Hc; revert Hc; vm_compute; congruence). vm_compute. reflexivity.
  - assert (shown = "0123456789abcdef0123") as -> by (apply (f_equal fst) in Hc; revert Hc; vm_compute; congruence). vm_compute. discriminate.
  - apply cache_empty_ok.
  - constructor.
  - exists item, row. injection Hs as <-. split; [done|]. unfold hooked. rewrite Hc. split; [exact Hrow|]. by apply Henc.
Defined.

(** A deleted hook comes back with the delivery that was under way. *)
Definition deleted : hook_state := with_keys (handleDeleteAuditWebhook 1 hooked).2 (hook_keys no_hooks).

Lemma stale_delivery_overwrites_witness :
  hooks deleted = [] ∧
  ∃ h, (hooks_GetByID ["data-key"] (recordResult keep_bool true ["data-key"] sample_salt sample_nonce 5 h 200 "" deleted) (wh_ID h)).1
         = Some (with_result h 5 200 "") ∧ wh_SecretEncrypted h = "0123456789abcdef0123".
Proof.
  split; [vm_compute; reflexivity|].
  assert (wh_SecretEncrypted <$> dispatched = Some "0123456789abcdef0123") as Hs by (vm_compute; reflexivity).
  destruct dispatched as [h|] eqn:Hd; [|discriminate Hs]. injection Hs as Hs. exists h. split; [|exact Hs].
  apply (stale_delivery_overwrites keep_bool true ["data-key"] sample_salt sample_nonce ltac:(by repeat constructor) eq_refl eq_refl hooked "login_failed").
  - unfold dispatched in Hd. destruct (ActiveByEvent _ _ _).1 as [|h' l]; [done|]. cbn in Hd. injection Hd as ->. by left.
  - unfold plain. rewrite Hs. vm_compute. reflexivity.
  - apply cache_empty_ok.
  - reflexivity.
  - reflexivity.
Defined.
