(* ===== verification/Oidc.v ===== *)
(** Single sign-on: internal/auth/oidc.go and oidc_login.go.

    The identity provider, its tokens and the library that verifies them are parameters: what an exchange of a code returns
    and what the verifier says of a token. Modelled are the state that ties an answer to the login it was asked for, the
    reading of claims, and the rules by which an identity is linked to an account. *)
From S2P Require Import Prelude GoStrings Netip Domain Requests Routing RateLimit Handler.
From S2P Require Import AuthStore AuthHistory AuthCache Tokens Sessions LoginCodes Login LoginSafety UserAdmin Csrf.

#[local] Open Scope string_scope.
#[local] Open Scope list_scope.

Record OIDCConfig := {
  oc_Enabled : bool; oc_IssuerURL : string; oc_ClientID : string; oc_AllowedEmailDomains : list string; oc_AdminRoleClaimPath : string;
  oc_AdminRoleValue : string; oc_AllowEmailLinking : bool; oc_RequireVerifiedEmail : bool; oc_ManageRoles : bool;
}.

(** A decoded JSON value: what [any] holds in a claim. *)
Inductive claim :=
| ClaimString (s : string) | ClaimBool (b : bool) | ClaimList (l : list claim) | ClaimStrings (l : list string)
| ClaimObject (fields : list (string * claim)) | ClaimOther.

Definition claims_map : Type := list (string * claim).
Definition claim_get (claims : claims_map) (key : string) : option claim := snd <$> List.find (λ kv, String.eqb kv.1 key) claims.

Definition stringValue (value : option claim) : string := match value with Some (ClaimString s) => s | _ => "" end.
Definition boolValue (value : option claim) : bool := match value with Some (ClaimBool b) => b | _ => false end.

(** [firstNonEmpty] of this package. *)
Fixpoint first_trimmed (values : list string) : string :=
  match values with
  | [] => ""
  | v :: rest => if non_empty (TrimSpace v) then TrimSpace v else first_trimmed rest
  end.

Fixpoint claim_walk (current : claim) (parts : list string) : option claim :=
  match parts with
  | [] => Some current
  | part :: rest =>
      match current with
      | ClaimObject fields => match claim_get fields part with Some v => claim_walk v rest | None => None end
      | _ => None
      end
  end.

Definition extractClaimPathValues (claims : claims_map) (path : string) : list string :=
  if String.eqb path "" then []
  else match claim_walk (ClaimObject claims) (Split path ".") with
       | None => []
       | Some (ClaimList l) => List.filter non_empty (map (λ item, stringValue (Some item)) l)
       | Some (ClaimStrings l) => l
       | Some v => let value := stringValue (Some v) in if non_empty value then [value] else []
       end.

Record OIDCIdentity := {
  id_Subject : string; id_Email : string; id_EmailVerified : bool; id_Name : string; id_PreferredUsername : string;
  id_Claims : claims_map; id_AccessClaims : claims_map;
}.

Section oidc.
Variable cfg : OIDCConfig.

(** [None] when the address is allowed is an error. *)
Definition ValidateAllowedEmailDomain (email : string) : bool :=
  if (length (oc_AllowedEmailDomains cfg) =? 0)%nat || String.eqb email "" then true
  else match cut_last email "@" with
       | None => false
       | Some (_, tail) =>
           let domain := ToLower (TrimSpace tail) in
           existsb (λ allowed, EqualFold domain (TrimSpace allowed)) (oc_AllowedEmailDomains cfg)
       end.

Definition IsAdmin (claimSets : list claims_map) : bool :=
  if String.eqb (TrimSpace (oc_AdminRoleValue cfg)) "" then false
  else existsb (λ claims, existsb (String.eqb (oc_AdminRoleValue cfg)) (extractClaimPathValues claims (oc_AdminRoleClaimPath cfg))) claimSets.

(** ** The state of a login *)

(** [url.Parse], with its error, and whether the URL has a scheme, a host or a user. *)
Variable url_has_origin : string → option bool.

Definition next_byte_bad (a : ascii) : bool :=
  let n := nat_of_ascii a in (n <=? 32)%nat || (n =? 127)%nat || Ascii.eqb a "\".

Definition sanitizeNext (value : string) : string :=
  let value := TrimSpace value in
  if String.eqb value "" then "/services"
  else if negb (HasPrefix value "/") || HasPrefix value "//" then "/services"
  else if negb (string_all (λ a, negb (next_byte_bad a)) value) then "/services"
  else match url_has_origin value with
       | Some false => value
       | _ => "/services"
       end.

Record oidcStateClaims := { os_Nonce : string; os_Next : string; os_ExpiresAt : Z }.

(** HS256 under the state secret: signing, and the claims of a token whose signature holds. *)
Variable jwt_Sign : oidcStateClaims → string.
Variable jwt_Verify : string → option oidcStateClaims.
(** [hmac] with the state secret, SHA-256. *)
Variable state_hmac : string → string.
Variable sha256 : string → string.

Definition signState (now : Z) (next nonce : string) : string :=
  let next := if String.eqb next "" then "/services" else next in
  jwt_Sign {| os_Nonce := nonce; os_Next := sanitizeNext next; os_ExpiresAt := NewNumericDate (now + 10 * Minute) |}.

Definition parseState (now : Z) (state : string) : option oidcStateClaims :=
  match jwt_Verify state with
  | None => None
  | Some c => if (now <? os_ExpiresAt c * Second)%Z then Some c else None
  end.

Definition pkceVerifier (nonce : string) : string := base64_encode (state_hmac ("pkce:" +:+ nonce)).
Definition pkceChallenge (verifier : string) : string := base64_encode (sha256 verifier).

(** The parameters of the address a login is sent to. *)
Record auth_request := { ar_State : string; ar_Nonce : string; ar_Challenge : string }.
Definition StartURL (now : Z) (next nonce : string) : auth_request :=
  {| ar_State := signState now next nonce; ar_Nonce := nonce; ar_Challenge := pkceChallenge (pkceVerifier nonce) |}.

(** ** The exchange *)

Inductive oidc_error := OIDCDisabled | OIDCExchange | OIDCInvalidToken | OIDCEmailUnverified | OIDCEmailBlocked | OIDCLinkDenied | OIDCAuth (e : auth_error).

(** The token endpoint, for a code and a verifier: the id token, when there is one, and the access token. *)
Variable oauth_Exchange : string → string → option (option string * string).
(** The verifier of id tokens (issuer, audience, signature, expiry): nonce and claims. *)
Variable verify_id : string → option (string * claims_map).
(** The verifier that does not look at the audience: subject, audience and claims. *)
Variable verify_access : string → option (string * list string * claims_map).

Definition accessTokenClaims (raw subject : string) : claims_map :=
  if negb (CountByte raw "." =? 2)%nat || String.eqb subject "" then []
  else match verify_access raw with
       | None => []
       | Some (sub, audience, claims) =>
           if negb (String.eqb sub subject) then []
           else if negb (String.eqb (stringValue (claim_get claims "azp")) (oc_ClientID cfg)) && negb (existsb (String.eqb (oc_ClientID cfg)) audience)
           then [] else claims
       end.

Definition Exchange (now : Z) (code state : string) : result oidc_error (OIDCIdentity * string) :=
  match parseState now state with
  | None => Err OIDCInvalidToken
  | Some st =>
      match oauth_Exchange code (pkceVerifier (os_Nonce st)) with
      | None | Some (None, _) => Err OIDCExchange
      | Some (Some raw, access) =>
          if negb (non_empty (TrimSpace raw)) then Err OIDCExchange
          else match verify_id raw with
               | None => Err OIDCExchange
               | Some (nonce, claims) =>
                   if negb (String.eqb nonce (os_Nonce st)) then Err OIDCInvalidToken
                   else
                     let get key := stringValue (claim_get claims key) in
                     Ok ({| id_AccessClaims := accessTokenClaims access (get "sub"); id_Subject := get "sub"; id_Email := get "email";
                            id_EmailVerified := boolValue (claim_get claims "email_verified"); id_Name := first_trimmed [get "name"; get "given_name"];
                            id_PreferredUsername := first_trimmed [get "preferred_username"; get "nickname"]; id_Claims := claims |}, os_Next st)
               end
      end
  end.

(** ** Linking *)

Definition oidcDisplayName (c : OIDCIdentity) : string :=
  if non_empty (TrimSpace (id_Name c)) then TrimSpace (id_Name c)
  else if non_empty (TrimSpace (id_PreferredUsername c)) then TrimSpace (id_PreferredUsername c)
  else
    let email := TrimSpace (id_Email c) in
    let '(local, _, at_) := Cut email "@" in
    if at_ && non_empty local then local else email.

Definition users_GetByProviderRef (st : auth_state) (provider ref : string) : option User :=
  List.find (λ u, String.eqb (u_AuthProvider u) provider && String.eqb (u_AuthProviderRef u) (TrimSpace ref)) (users st).

(** The columns a login through the provider writes. *)
Definition linked_user (u : User) (email role provider ref issuer display username : string) : User :=
  {| u_ID := u_ID u; u_Email := email; u_PasswordHash := u_PasswordHash u; u_Role := role; u_Active := u_Active u;
     u_MustChangePassword := u_MustChangePassword u; u_MFAEnabled := u_MFAEnabled u; u_MFASecret := u_MFASecret u;
     u_MFAPendingSecret := u_MFAPendingSecret u; u_MFARecoveryCodes := u_MFARecoveryCodes u;
     u_MFAPendingRecoveryCodes := u_MFAPendingRecoveryCodes u; u_MFALastTOTPCounter := u_MFALastTOTPCounter u; u_AuthProvider := provider;
     u_AuthProviderRef := ref; u_AuthIssuer := issuer; u_DisplayName := display; u_Username := username; u_LastLoginAt := u_LastLoginAt u |}.

(** UPDATE of those columns of one row; the addresses are unique. *)
Definition users_UpdateColumns (st : auth_state) (u : User) : result auth_error auth_state :=
  if existsb (λ x, negb (N.eqb (u_ID x) (u_ID u)) && String.eqb (u_Email x) (u_Email u)) (users st) && existsb (λ x, N.eqb (u_ID x) (u_ID u)) (users st)
  then Err ErrConflict
  else Ok (with_users st (update_where (λ x, N.eqb (u_ID x) (u_ID u))
         (λ x, linked_user x (u_Email u) (u_Role u) (u_AuthProvider u) (u_AuthProviderRef u) (u_AuthIssuer u) (u_DisplayName u) (u_Username u)) (users st)).1).

(** [newID] is the identifier the database gives a new row. *)
Definition findOrCreateOIDCUser (newID : N) (claims : OIDCIdentity) (st : auth_state) : result oidc_error User * auth_state :=
  let ref := TrimSpace (id_Subject claims) in
  if String.eqb ref "" then (Err OIDCLinkDenied, st)
  else
    let email := ToLower (TrimSpace (id_Email claims)) in
    let role := if IsAdmin [id_Claims claims; id_AccessClaims claims] then RoleAdmin else RoleViewer in
    let save (u : User) :=
      match users_UpdateColumns st u with Err e => (Err (OIDCAuth e), st) | Ok st => (Ok u, st) end in
    match users_GetByProviderRef st AuthProviderOIDC ref with
    | Some user =>
        save (linked_user user email (if oc_ManageRoles cfg then role else u_Role user) AuthProviderOIDC ref (oc_IssuerURL cfg)
                (oidcDisplayName claims) (id_PreferredUsername claims))
    | None =>
        match (if non_empty email then users_GetByEmail st email else Err ErrNotFound) with
        | Ok user =>
            if negb (id_EmailVerified claims) then (Err OIDCLinkDenied, st)
            else if String.eqb (u_AuthProvider user) AuthProviderLocal && negb (oc_AllowEmailLinking cfg) then (Err OIDCLinkDenied, st)
            else if String.eqb (u_AuthProvider user) AuthProviderOIDC && non_empty (u_AuthProviderRef user) && negb (String.eqb (u_AuthProviderRef user) ref)
            then (Err OIDCLinkDenied, st)
            else
              let relink := String.eqb (u_AuthProvider user) "" || String.eqb (u_AuthProvider user) AuthProviderLocal in
              save (linked_user user (u_Email user) (if oc_ManageRoles cfg then role else u_Role user)
                      (if relink then AuthProviderOIDC else u_AuthProvider user) (if relink then ref else u_AuthProviderRef user)
                      (oc_IssuerURL cfg) (oidcDisplayName claims) (id_PreferredUsername claims))
        | Err _ =>
            let user := {| u_ID := newID; u_Email := email; u_PasswordHash := ""; u_Role := role; u_Active := true; u_MustChangePassword := false;
                           u_MFAEnabled := false; u_MFASecret := ""; u_MFAPendingSecret := ""; u_MFARecoveryCodes := [];
                           u_MFAPendingRecoveryCodes := []; u_MFALastTOTPCounter := 0; u_AuthProvider := AuthProviderOIDC; u_AuthProviderRef := ref;
                           u_AuthIssuer := oc_IssuerURL cfg; u_DisplayName := oidcDisplayName claims; u_Username := id_PreferredUsername claims;
                           u_LastLoginAt := None |} in
            match users_Create st user with Err e => (Err (OIDCAuth e), st) | Ok st => (Ok user, st) end
        end
    end.

(** [CompleteOIDC] without what it reports about the login. [acfg] and the hash are those of the authentication service;
    the identifiers, the refresh token and the challenge are drawn at random. *)
Variable hashToken : string → string.
Variable acfg : AuthConfig.

Definition CompleteOIDC `{JWT} (now : Z) (code state : string) (newID : N) (tokenID refreshToken challenge : string) (st : auth_state)
  : result oidc_error (LoginResult * string) * auth_state :=
  if negb (oc_Enabled cfg) then (Err OIDCDisabled, st)
  else match Exchange now code state with
       | Err e => (Err e, st)
       | Ok (claims, next) =>
           let email := ToLower (TrimSpace (id_Email claims)) in
           if oc_RequireVerifiedEmail cfg && negb (id_EmailVerified claims) then (Err OIDCEmailUnverified, st)
           else if negb (ValidateAllowedEmailDomain email) then (Err OIDCEmailBlocked, st)
           else match findOrCreateOIDCUser newID claims st with
                | (Err e, st) => (Err e, st)
                | (Ok user, st) =>
                    if negb (u_Active user) then (Err (OIDCAuth ErrInactiveUser), st)
                    else match completePrimaryLogin hashToken acfg now user {| m_RemoteAddr := ""; m_UserAgent := "" |} tokenID refreshToken challenge st with
                         | (Ok result, st) => (Ok (result, next), st)
                         | (Err e, st) => (Err (OIDCAuth e), st)
                         end
                end
       end.
End oidc.

(** * Theorems *)

Lemma find_elem {A} (f : A → bool) l x : List.find f l = Some x → x ∈ l ∧ f x = true.
Proof. intros [Hin Hf]%find_some. by rewrite list_elem_of_In. Qed.

(** Where a local address leads: a path of this site. *)
Definition local_path (s : string) : Prop :=
  HasPrefix s "/" = true ∧ HasPrefix s "//" = false ∧ string_all (λ a, negb (next_byte_bad a)) s = true.

Lemma sanitizeNext_local url_has_origin value : local_path (sanitizeNext url_has_origin value).
Proof.
  unfold sanitizeNext, local_path. cbv zeta.
  destruct (String.eqb _ _); [done|]. destruct (HasPrefix (TrimSpace value) "/") eqn:H1; [|done].
  destruct (HasPrefix (TrimSpace value) "//") eqn:H2; [done|]. cbn [negb orb].
  destruct (string_all _ (TrimSpace value)) eqn:H3; [|done]. cbn [negb]. destruct (url_has_origin _) as [[]|]; done.
Qed.

Section theorems.
Variable cfg : OIDCConfig.

(** By which right an identity is linked to an account that exists. *)
Definition may_link (c : OIDCIdentity) (u : User) : Prop :=
  let ref := TrimSpace (id_Subject c) in
  (u_AuthProvider u = AuthProviderOIDC ∧ u_AuthProviderRef u = ref) ∨
  (ToLower (u_Email u) = ToLower (TrimSpace (id_Email c)) ∧ ToLower (TrimSpace (id_Email c)) ≠ "" ∧ id_EmailVerified c = true ∧
   (u_AuthProvider u = AuthProviderLocal → oc_AllowEmailLinking cfg = true) ∧
   (u_AuthProvider u = AuthProviderOIDC → u_AuthProviderRef u = "" ∨ u_AuthProviderRef u = ref)).

Definition admin_claimed (c : OIDCIdentity) : bool := IsAdmin cfg [id_Claims c; id_AccessClaims c].

Record oidc_linked (newID : N) (c : OIDCIdentity) (st : auth_state) (u : User) : Prop := {
  ol_subject : TrimSpace (id_Subject c) ≠ "";
  ol_account :
    (∃ u0, u0 ∈ users st ∧ may_link c u0 ∧ u_ID u = u_ID u0 ∧ u_PasswordHash u = u_PasswordHash u0 ∧ u_Active u = u_Active u0 ∧
       mfa_of u = mfa_of u0 ∧
       u_Role u = (if oc_ManageRoles cfg then if admin_claimed c then RoleAdmin else RoleViewer else u_Role u0)) ∨
    (u_ID u = newID ∧ u_Role u = (if admin_claimed c then RoleAdmin else RoleViewer) ∧
     (∀ x, x ∈ users st → u_AuthProvider x = AuthProviderOIDC → u_AuthProviderRef x ≠ TrimSpace (id_Subject c)) ∧
     (ToLower (TrimSpace (id_Email c)) ≠ "" → ∀ x, x ∈ users st → ToLower (u_Email x) ≠ ToLower (TrimSpace (id_Email c))));
}.

(** The account is in the table as it was returned, and the other accounts are as they were. *)
Definition stored_alone (st : auth_state) (u : User) (st' : auth_state) : Prop :=
  u ∈ users st' ∧ sessions st' = sessions st ∧ ∀ x, x ∈ users st → u_ID x ≠ u_ID u → x ∈ users st'.

Lemma UpdateColumns_stored st u0 email role provider ref iss display username st' :
  let u := linked_user u0 email role provider ref iss display username in
  u0 ∈ users st → users_UpdateColumns st u = Ok st' → stored_alone st u st'.
Proof.
  cbv zeta. intros Hin. unfold users_UpdateColumns. destruct (_ && _); [done|]. intros [= <-]. cbn [with_users users update_where fst].
  split; [|split; [done|]].
  - apply list_elem_of_fmap. exists u0. cbn [u_ID linked_user]. by rewrite N.eqb_refl.
  - intros x Hx Hne. apply list_elem_of_fmap. exists x. cbn in *. by rewrite (proj2 (N.eqb_neq _ _) Hne).
Qed.

Lemma find_none_elem {A} (f : A → bool) l x : List.find f l = None → x ∈ l → f x = false.
Proof. intros Hf Hx. apply (find_none _ _ Hf). by apply list_elem_of_In. Qed.

Lemma findOrCreate_linked newID c st u st' :
  findOrCreateOIDCUser cfg newID c st = (Ok u, st') → oidc_linked newID c st u ∧ stored_alone st u st'.
Proof.
  unfold findOrCreateOIDCUser. cbv zeta. set (ref := TrimSpace (id_Subject c)). set (email := ToLower (TrimSpace (id_Email c))).
  destruct (String.eqb_spec ref "") as [|Hr]; [by intros [? _]%pair_eq|].
  destruct (users_GetByProviderRef st AuthProviderOIDC ref) as [u0|] eqn:Hu.
  - apply find_elem in Hu as [Hin Hu]. apply andb_true_iff in Hu as [Hp Hrf]. apply String.eqb_eq in Hp, Hrf.
    destruct (users_UpdateColumns st _) as [st1|] eqn:Hup; [|by intros [? _]%pair_eq]. intros [[= <-] <-]%pair_eq.
    split; [|by eapply UpdateColumns_stored]. split; [done|]. left. exists u0. cbn.
    split_and!; try done. left. split; [done|]. by rewrite Hrf; unfold ref; rewrite TrimSpace_idem.
  - destruct (if non_empty email then users_GetByEmail st email else Err ErrNotFound) as [u0|] eqn:He.
    + destruct (non_empty email) eqn:Hne; [|done]. unfold users_GetByEmail in He.
      destruct (List.find _ _) as [u1|] eqn:Hf; [|done]. injection He as ->. apply find_elem in Hf as [Hin Hm]. apply String.eqb_eq in Hm.
      destruct (id_EmailVerified c) eqn:Hv; cbn [negb]; [|by intros [? _]%pair_eq].
      destruct (String.eqb_spec (u_AuthProvider u0) AuthProviderLocal) as [Hl|Hl]; cbn [andb].
      1: destruct (oc_AllowEmailLinking cfg) eqn:Hal; cbn [negb]; [|by intros [? _]%pair_eq].
      all: destruct (String.eqb_spec (u_AuthProvider u0) AuthProviderOIDC) as [Ho|Ho]; cbn [andb].
      all: try (destruct (non_empty (u_AuthProviderRef u0)) eqn:Hn0; cbn [andb];
                [destruct (String.eqb_spec (u_AuthProviderRef u0) ref) as [Hq|Hq]; cbn [negb]; [|by intros [? _]%pair_eq]|]).
      all: destruct (users_UpdateColumns st _) as [st1|] eqn:Hup; [|by intros [? _]%pair_eq]; intros [[= <-] <-]%pair_eq.
      all: split; [split; [done|]|by eapply UpdateColumns_stored]; left; exists u0; cbn; split_and!; try done; right.
      all: split_and!; try done; try (by intros Hz; unfold email in *; rewrite Hz in Hne); try (by rewrite Hm; unfold email; apply ToLower_idem); auto.
      all: intros _; left; by destruct (u_AuthProviderRef u0).
    + unfold users_Create. destruct (existsb _ (users st)); [by intros [? _]%pair_eq|]. intros [[= <-] <-]%pair_eq.
      split; [split; [done|]|split; [cbn; set_solver|split; [done|cbn; set_solver]]]. right. cbn [u_ID u_Role users with_users]. split_and!; try done.
      * intros x Hx Hp Hq. pose proof (find_none_elem _ _ _ Hu Hx) as Hf. cbn in Hf. rewrite Hp, Hq in Hf. unfold ref in Hf.
        by rewrite TrimSpace_idem, !String.eqb_refl in Hf.
      * intros Hne x Hx Hq. rewrite (proj2 (non_empty_true email) Hne) in He. unfold users_GetByEmail in He.
        destruct (List.find _ _) eqn:Hf; [done|]. pose proof (find_none_elem _ _ _ Hf Hx) as Hx'. cbn in Hx'. rewrite Hq in Hx'.
        unfold email in Hx'. by rewrite ToLower_idem, String.eqb_refl in Hx'.
Qed.

Section login.
Context `{JWT}.
Variable url_has_origin : string → option bool.
Variable jwt_Sign : oidcStateClaims → string.
Variable jwt_Verify : string → option oidcStateClaims.
Variable state_hmac sha256 : string → string.
Variable oauth_Exchange : string → string → option (option string * string).
Variable verify_id : string → option (string * claims_map).
Variable verify_access : string → option (string * list string * claims_map).
Variable hashToken : string → string.
Variable acfg : AuthConfig.

(** The row is the account, but for the instant of its last login. *)
Definition same_account (u row : User) : Prop :=
  row = user_with u (u_Email u) (u_PasswordHash u) (u_MustChangePassword u) (mfa_of u) (u_LastLoginAt row).

(** Completing a login touches nothing of the table but the instant of the last login of the account. *)
Lemma primary_login_stored now u meta tid rt ch st res st' st0 :
  completePrimaryLogin hashToken acfg now u meta tid rt ch st = (Ok res, st') → stored_alone st0 u st →
  (∃ row, row ∈ users st' ∧ same_account u row) ∧ (∀ x, x ∈ users st0 → u_ID x ≠ u_ID u → x ∈ users st').
Proof.
  intros Hl (Hu & _ & Hothers). unfold completePrimaryLogin in Hl. destruct (u_MFAEnabled u).
  - assert (users st' = users st) as ->.
    { unfold beginMFAChallenge in Hl. cbv zeta in Hl. unfold new_token in Hl. auth_inv Hl. simplify_eq. done. }
    split; [|done]. exists u. split; [done|]. by destruct u.
  - apply completeSuccessfulLogin_Ok in Hl as (_ & _ & _ & _ & _ & ->). cbn [with_sessions users users_UpdateLastLogin with_users update_where fst].
    split.
    + eexists. split; [apply list_elem_of_fmap; exists u; split; [reflexivity|done]|]. by rewrite N.eqb_refl.
    + intros x Hx Hne. apply list_elem_of_fmap. exists x. rewrite (proj2 (N.eqb_neq _ _) Hne). auto.
Qed.

Lemma cut_last_None s c : cut_last s c = None → ContainsByte s c = false.
Proof.
  induction s as [|a s IH]; [done|]. cbn. destruct (cut_last s c) as [[? ?]|]; [done|]. destruct (Ascii.eqb a c) eqn:Ha; [done|]. intros _.
  by rewrite IH.
Qed.

Lemma cut_last_Some s c a b : cut_last s c = Some (a, b) → s = a +:+ String c b ∧ ContainsByte b c = false.
Proof.
  revert a b. induction s as [|x s IH]; intros a b; [done|]. cbn. destruct (cut_last s c) as [[a' b']|] eqn:Hc.
  - intros [= <- <-]. destruct (IH a' b' eq_refl) as [-> ?]. done.
  - destruct (Ascii.eqb_spec x c) as [->|]; [|done]. intros [= <- <-]. split; [done|by apply cut_last_None].
Qed.

(** The address is in one of the domains, when there are any and there is an address. *)
Definition in_allowed_domain (email : string) : Prop :=
  oc_AllowedEmailDomains cfg = [] ∨ email = "" ∨
  ∃ local domain allowed, email = local +:+ String "@" domain ∧ ContainsByte domain "@" = false ∧ allowed ∈ oc_AllowedEmailDomains cfg ∧
    EqualFold (ToLower (TrimSpace domain)) (TrimSpace allowed) = true.

Lemma domain_allowed email : ValidateAllowedEmailDomain cfg email = true → in_allowed_domain email.
Proof.
  unfold ValidateAllowedEmailDomain, in_allowed_domain. destruct (oc_AllowedEmailDomains cfg) as [|d l]; [by left|].
  destruct (String.eqb_spec email "") as [|Hne]; [by right; left|]. rewrite orb_false_r. cbn [length Nat.eqb].
  destruct (cut_last email "@") as [[local domain]|] eqn:Hc; [|done]. intros (allowed & Hin & Hf)%existsb_exists_elem.
  apply cut_last_Some in Hc as [-> Hnone]. right. right. by exists local, domain, allowed.
Qed.

(** C17 Whom a login through the provider signs in.  It succeeds only while single sign-on is enabled, for a state this server signed that
    has not expired, whose nonce gives the verifier of the exchange and is the nonce of the id token that the exchange
    returned and the verifier accepted.  All claims below are those of this token: its email_verified claim is the boolean true where a
    verified address is asked for, and its address, when it has one, is in an allowed domain where domains are configured.  The account
    is the one of the table bound to the token's subject (the issuer is not compared, see [oidc_issuer_not_compared]); or one with
    the token's verified address, a local account only where linking is allowed and an account of the provider only when it is not
    bound to another subject; or a new one when there is none of these.  It is active; its password, second factor and, unless roles
    are managed, its role stay as they were.  This is what the table holds in the end, no other account changes, and an
    account with a second factor gets a challenge and no session. *)
Theorem oidc_login_checks now code state newID tokenID refreshToken challenge st res next st' :
  CompleteOIDC cfg jwt_Verify state_hmac oauth_Exchange verify_id verify_access hashToken acfg now code state newID tokenID refreshToken challenge st
    = (Ok (res, next), st') →
  ∃ sc raw access claims who u,
    oc_Enabled cfg = true ∧
    jwt_Verify state = Some sc ∧ (now < os_ExpiresAt sc * Second)%Z ∧ next = os_Next sc ∧
    oauth_Exchange code (pkceVerifier state_hmac (os_Nonce sc)) = Some (Some raw, access) ∧
    verify_id raw = Some (os_Nonce sc, claims) ∧
    id_Claims who = claims ∧ id_Subject who = stringValue (claim_get claims "sub") ∧ id_Email who = stringValue (claim_get claims "email") ∧
    (id_EmailVerified who = true ↔ claim_get claims "email_verified" = Some (ClaimBool true)) ∧
    (oc_RequireVerifiedEmail cfg = true → id_EmailVerified who = true) ∧ in_allowed_domain (ToLower (TrimSpace (id_Email who))) ∧
    oidc_linked newID who st u ∧ u_Active u = true ∧
    (∃ row, row ∈ users st' ∧ same_account u row) ∧ (∀ x, x ∈ users st → u_ID x ≠ u_ID u → x ∈ users st') ∧
    primary_outcome acfg now u st res st'.
Proof.
  unfold CompleteOIDC. destruct (oc_Enabled cfg) eqn:He; cbn [negb]; [|by intros [? _]%pair_eq].
  destruct (Exchange _ _ _ _ _ _ _ _ _) as [[who nx]|] eqn:Hx; [|by intros [? _]%pair_eq]. cbv zeta.
  destruct (oc_RequireVerifiedEmail cfg && negb (id_EmailVerified who)) eqn:Hv; [by intros [? _]%pair_eq|].
  destruct (ValidateAllowedEmailDomain cfg _) eqn:Hd; cbn [negb]; [|by intros [? _]%pair_eq].
  destruct (findOrCreateOIDCUser cfg newID who st) as [[u|] st1] eqn:Hf; [|by intros [? _]%pair_eq].
  destruct (u_Active u) eqn:Ha; cbn [negb]; [|by intros [? _]%pair_eq].
  destruct (completePrimaryLogin _ _ _ _ _ _ _ _ _) as [[r|] st2] eqn:Hl; [|by intros [? _]%pair_eq]. intros [[= <- <-] <-]%pair_eq.
  unfold Exchange, parseState in Hx. destruct (jwt_Verify state) as [sc|] eqn:Hjwt; [|done].
  destruct (Z.ltb_spec now (os_ExpiresAt sc * Second)); [|done].
  destruct (oauth_Exchange _ _) as [[[raw|] access]|] eqn:Ho; [|done..]. destruct (non_empty (TrimSpace raw)); cbn [negb] in Hx; [|done].
  destruct (verify_id raw) as [[nonce claims]|] eqn:Hid; [|done].
  destruct (String.eqb_spec nonce (os_Nonce sc)) as [->|]; cbn [negb] in Hx; [|done].
  apply findOrCreate_linked in Hf as [Hlink Hstored]. pose proof (primary_login_stored _ _ _ _ _ _ _ _ _ st Hl Hstored) as [Hrow Hothers].
  apply completePrimaryLogin_Ok in Hl. unfold primary_outcome in *. rewrite (proj1 (proj2 Hstored)) in Hl.
  exists sc, raw, access, claims, who, u. split_and!; try done; try (by injection Hx as <- <-).
  - injection Hx as <- <-. cbn. destruct (claim_get claims "email_verified") as [[| [] | | | |]|]; by split.
  - intros Hreq. rewrite Hreq in Hv. cbn in Hv. by apply negb_false_iff in Hv.
  - by apply domain_allowed.
  - apply Hl.
  - apply Hl.
Qed.

(** A login comes back to where it started. The state a login is sent off with is accepted for ten minutes and yields its nonce
    and a path of this site, whatever was asked for; the verifier shown at the exchange is the one the challenge was made of. *)
Theorem oidc_state_roundtrip now next nonce later :
  (∀ c, jwt_Verify (jwt_Sign c) = Some c) →
  (later < NewNumericDate (now + 10 * Minute) * Second)%Z →
  let start := StartURL url_has_origin jwt_Sign state_hmac sha256 now next nonce in
  ∃ sc, parseState jwt_Verify later (ar_State start) = Some sc ∧ os_Nonce sc = ar_Nonce start ∧ local_path (os_Next sc) ∧
    pkceChallenge sha256 (pkceVerifier state_hmac (os_Nonce sc)) = ar_Challenge start.
Proof.
  intros Hjwt Hl start. unfold start, StartURL, signState, parseState. cbn [ar_State ar_Nonce ar_Challenge]. rewrite Hjwt.
  cbn [os_ExpiresAt]. rewrite (proj2 (Z.ltb_lt _ _) Hl). eexists. split; [reflexivity|]. cbn [os_Nonce os_Next]. split; [done|].
  split; [|done]. apply sanitizeNext_local.
Qed.
End login.

(** The issuer is recorded and not compared. An account bound to a subject of one provider is handed to whoever has the same
    subject at the provider configured now: a subject is unique only within its issuer. *)
Theorem oidc_issuer_not_compared newID c st u :
  List.find (λ u, String.eqb (u_AuthProvider u) AuthProviderOIDC && String.eqb (u_AuthProviderRef u) (TrimSpace (id_Subject c))) (users st) = Some u →
  TrimSpace (id_Subject c) ≠ "" → u_AuthIssuer u ≠ oc_IssuerURL cfg →
  existsb (λ x, negb (N.eqb (u_ID x) (u_ID u)) && String.eqb (u_Email x) (ToLower (TrimSpace (id_Email c)))) (users st) = false →
  ∃ u' st', findOrCreateOIDCUser cfg newID c st = (Ok u', st') ∧ u_ID u' = u_ID u ∧ u_AuthIssuer u' = oc_IssuerURL cfg.
Proof.
  intros Hf Hr Hi Hc. unfold findOrCreateOIDCUser. cbv zeta. rewrite (proj2 (String.eqb_neq _ _) Hr).
  unfold users_GetByProviderRef. rewrite TrimSpace_idem, Hf. unfold users_UpdateColumns. cbn [linked_user u_ID u_Email]. rewrite Hc.
  cbn [andb]. by eexists _, _.
Qed.
End theorems.

(** * Witnesses *)

Definition oidc_config : OIDCConfig :=
  {| oc_Enabled := true; oc_IssuerURL := "https://idp.example.com"; oc_ClientID := "portlyn"; oc_AllowedEmailDomains := ["example.com"];
     oc_AdminRoleClaimPath := "realm_access.roles"; oc_AdminRoleValue := "admin"; oc_AllowEmailLinking := false; oc_RequireVerifiedEmail := true;
     oc_ManageRoles := true |}.

Definition oidc_claims : claims_map :=
  [("sub", ClaimString "s-1"); ("email", ClaimString "Ann@Example.com"); ("email_verified", ClaimBool true);
   ("realm_access", ClaimObject [("roles", ClaimList [ClaimString "user"; ClaimString "admin"])])].

(** A token that is its claims: the state as "nonce|next", with a fixed expiry. *)
Definition sample_state_verify (s : string) : option oidcStateClaims :=
  let '(nonce, next, ok) := Cut s "|" in if ok then Some {| os_Nonce := nonce; os_Next := next; os_ExpiresAt := 600 |} else None.

Definition sample_complete : result oidc_error (LoginResult * string) * auth_state :=
  CompleteOIDC oidc_config sample_state_verify (λ s, s) (λ code _, if String.eqb code "c" then Some (Some "id", "opaque") else None)
    (λ _, Some ("n1", oidc_claims)) (λ _, None) sample_hash sample_config 0 "c" "n1|/services" 9 "t" "r" "ch" empty_auth.

Lemma oidc_login_checks_witness :
  ∃ res st', sample_complete = (Ok (res, "/services"), st') ∧ u_Role (lr_User res) = RoleAdmin ∧
    map (λ u, (u_Role u, u_AuthProviderRef u)) (users st') = [(RoleViewer, ""); (RoleAdmin, "s-1")] ∧ ∃ row, row ∈ users st' ∧ u_Active row = true.
Proof.
  assert (match sample_complete.1 with Ok (res, next) => String.eqb next "/services" && String.eqb (u_Role (lr_User res)) RoleAdmin | _ => false end = true)
    as Hok by (vm_compute; reflexivity).
  assert (map (λ u, (u_Role u, u_AuthProviderRef u)) (users sample_complete.2) = [(RoleViewer, ""); (RoleAdmin, "s-1")]) as Husers by (vm_compute; reflexivity).
  destruct sample_complete as [r st'] eqn:Hs. destruct r as [[res next]|]; cbn [fst snd] in *; [|discriminate Hok].
  apply andb_true_iff in Hok as [Hn Hr]. apply String.eqb_eq in Hn as ->. apply String.eqb_eq in Hr.
  exists res, st'. split; [done|]. split; [done|]. split; [exact Husers|].
  destruct (oidc_login_checks oidc_config sample_state_verify (λ s, s) (λ code _, if String.eqb code "c" then Some (Some "id", "opaque") else None)
    (λ _, Some ("n1", oidc_claims)) (λ _, None) sample_hash sample_config 0 "c" "n1|/services" 9 "t" "r" "ch" empty_auth res "/services" st' Hs)
    as (sc & raw & access & claims & who & u & _ & _ & _ & _ & _ & _ & _ & _ & _ & _ & _ & _ & _ & Hact & (row & Hin & Hrow) & _).
  exists row. split; [done|]. by rewrite Hrow.
Defined.

Definition sample_state_sign (c : oidcStateClaims) : string := binary (encode (os_Nonce c, os_Next c, os_ExpiresAt c)).
Definition sample_state_open (s : string) : option oidcStateClaims :=
  unbinary s ≫= λ p, (λ x : string * string * Z, {| os_Nonce := x.1.1; os_Next := x.1.2; os_ExpiresAt := x.2 |}) <$> decode p.

Lemma sample_state_law c : sample_state_open (sample_state_sign c) = Some c.
Proof. unfold sample_state_open, sample_state_sign. rewrite unbinary_binary. cbn [mbind option_bind]. rewrite decode_encode. by destruct c. Qed.

Lemma oidc_state_roundtrip_witness :
  ∃ sc, parseState sample_state_open Minute
          (ar_State (StartURL (λ _, Some false) sample_state_sign (λ s, s) (λ s, s) 0 "//evil.example" "n1")) = Some sc ∧
    os_Nonce sc = "n1" ∧ local_path (os_Next sc).
Proof.
  destruct (oidc_state_roundtrip (λ _, Some false) sample_state_sign sample_state_open (λ s, s) (λ s, s) 0 "//evil.example" "n1" Minute)
    as (sc & Hp & Hn & Hl & _); [exact sample_state_law|vm_compute; reflexivity|].
  exists sc. by split_and!.
Defined.

(** An account bound to the subject by another provider. *)
Definition foreign_user : User :=
  linked_user cached_user "ada@example.com" RoleViewer AuthProviderOIDC "s-1" "https://old.example.com" "" "".
Definition oidc_identity : OIDCIdentity :=
  {| id_Subject := "s-1"; id_Email := "ann@example.com"; id_EmailVerified := true; id_Name := ""; id_PreferredUsername := ""; id_Claims := oidc_claims;
     id_AccessClaims := [] |}.

Lemma oidc_issuer_not_compared_witness :
  ∃ u' st', findOrCreateOIDCUser oidc_config 9 oidc_identity (with_users empty_auth [foreign_user]) = (Ok u', st') ∧ u_ID u' = 7%N ∧
    u_AuthIssuer foreign_user = "https://old.example.com".
Proof.
  destruct (oidc_issuer_not_compared oidc_config 9 oidc_identity (with_users empty_auth [foreign_user]) foreign_user) as (u' & st' & Hf & Hid & _);
    [reflexivity|discriminate|discriminate|reflexivity|].
  exists u', st'. by split_and!.
Defined.
