(* ===== verification/Catalog.v ===== *)
(** The catalogue of domains, services and service groups, and the requests that change it (internal/http/resources.go,
    upsert.go, groups.go, domains_certificates.go, exposure.go over internal/store/service_store.go, domain_store.go and
    service_group_store.go; ApplyServiceChange of internal/proxy/manager.go).

    The tables are lists of rows; a service is read with its domain, its node and its groups, as gorm preloads them, and the list of
    all services so read is what the routing of Routing.v resolves hosts from. A change is followed by the invalidation of
    hosts the handler chooses; the theorems show that it chooses enough of them. Requests arrive validated, a handler runs from
    start to end, and identifiers are never reused. Whether a row of another table keeps the database from deleting a row
    is an input ([deletable]); a domain is kept by its services. The text of validation errors, the audit
    entries and the certificate that a new domain may order are not modelled. *)
From S2P Require Import Prelude GoStrings Netip Domain Hosts AccessRules AccessPolicy LRU Routing Netguard ApiGuard UserAdmin RouteAuth.

#[local] Open Scope string_scope.
#[local] Open Scope list_scope.
#[local] Open Scope go_scope.

(** * Tables *)

Record catalogue := {
  cat_domains : list DomainRow; cat_services : list Service; cat_groups : list ServiceGroup; cat_members : list (N * N);
  cat_nodes : list Node; nextDomain : N; nextService : N; nextGroup : N;
}.

Definition set_domains (c : catalogue) (l : list DomainRow) (next : N) : catalogue :=
  {| cat_domains := l; cat_services := cat_services c; cat_groups := cat_groups c; cat_members := cat_members c; cat_nodes := cat_nodes c;
     nextDomain := next; nextService := nextService c; nextGroup := nextGroup c |}.
Definition set_services (c : catalogue) (l : list Service) (members : list (N * N)) (next : N) : catalogue :=
  {| cat_domains := cat_domains c; cat_services := l; cat_groups := cat_groups c; cat_members := members; cat_nodes := cat_nodes c;
     nextDomain := nextDomain c; nextService := next; nextGroup := nextGroup c |}.
Definition set_groups (c : catalogue) (l : list ServiceGroup) (members : list (N * N)) (next : N) : catalogue :=
  {| cat_domains := cat_domains c; cat_services := cat_services c; cat_groups := l; cat_members := members; cat_nodes := cat_nodes c;
     nextDomain := nextDomain c; nextService := nextService c; nextGroup := next |}.

Definition zeroDomain : DomainRow :=
  {| d_ID := 0; d_Name := ""; d_Type := ""; d_Provider := ""; d_Notes := ""; d_IPAllowlist := []; d_IPBlocklist := [] |}.

Definition with_relations (s : Service) (d : DomainRow) (n : option Node) (gs : list ServiceGroup) : Service :=
  {| s_ID := s_ID s; s_Name := s_Name s; s_DomainID := s_DomainID s; s_Domain := d; s_Subdomain := s_Subdomain s;
     s_Path := s_Path s; s_TargetURL := s_TargetURL s; s_TLSMode := s_TLSMode s; s_PassHostHeader := s_PassHostHeader s;
     s_UpstreamSkipVerify := s_UpstreamSkipVerify s; s_UpstreamCAPEM := s_UpstreamCAPEM s;
     s_UpstreamServerName := s_UpstreamServerName s; s_AuthPolicy := s_AuthPolicy s; s_AccessMode := s_AccessMode s;
     s_AllowedRoles := s_AllowedRoles s; s_AllowedGroups := s_AllowedGroups s;
     s_AllowedServiceGroups := s_AllowedServiceGroups s; s_UseGroupPolicy := s_UseGroupPolicy s;
     s_AccessMethod := s_AccessMethod s; s_AccessMethodConfig := s_AccessMethodConfig s; s_AccessMessage := s_AccessMessage s;
     s_IPAllowlist := s_IPAllowlist s; s_IPBlocklist := s_IPBlocklist s; s_AllowedCountries := s_AllowedCountries s;
     s_BlockedCountries := s_BlockedCountries s; s_AccessWindows := s_AccessWindows s; s_AccessRules := s_AccessRules s;
     s_LoginHosts := s_LoginHosts s; s_LastDeployedAt := s_LastDeployedAt s; s_DeploymentRevision := s_DeploymentRevision s;
     s_Enabled := s_Enabled s; s_NodeID := s_NodeID s; s_Node := n; s_ServiceGroups := gs |}.
Definition with_deployment (s : Service) (lastDeployedAt : option Z) (revision : Z) : Service :=
  {| s_ID := s_ID s; s_Name := s_Name s; s_DomainID := s_DomainID s; s_Domain := s_Domain s; s_Subdomain := s_Subdomain s;
     s_Path := s_Path s; s_TargetURL := s_TargetURL s; s_TLSMode := s_TLSMode s; s_PassHostHeader := s_PassHostHeader s;
     s_UpstreamSkipVerify := s_UpstreamSkipVerify s; s_UpstreamCAPEM := s_UpstreamCAPEM s;
     s_UpstreamServerName := s_UpstreamServerName s; s_AuthPolicy := s_AuthPolicy s; s_AccessMode := s_AccessMode s;
     s_AllowedRoles := s_AllowedRoles s; s_AllowedGroups := s_AllowedGroups s;
     s_AllowedServiceGroups := s_AllowedServiceGroups s; s_UseGroupPolicy := s_UseGroupPolicy s;
     s_AccessMethod := s_AccessMethod s; s_AccessMethodConfig := s_AccessMethodConfig s; s_AccessMessage := s_AccessMessage s;
     s_IPAllowlist := s_IPAllowlist s; s_IPBlocklist := s_IPBlocklist s; s_AllowedCountries := s_AllowedCountries s;
     s_BlockedCountries := s_BlockedCountries s; s_AccessWindows := s_AccessWindows s; s_AccessRules := s_AccessRules s;
     s_LoginHosts := s_LoginHosts s; s_LastDeployedAt := lastDeployedAt; s_DeploymentRevision := revision;
     s_Enabled := s_Enabled s; s_NodeID := s_NodeID s; s_Node := s_Node s; s_ServiceGroups := s_ServiceGroups s |}.
Definition with_login_hosts (s : Service) (hosts : list string) (node : option N) : Service :=
  {| s_ID := s_ID s; s_Name := s_Name s; s_DomainID := s_DomainID s; s_Domain := s_Domain s; s_Subdomain := s_Subdomain s;
     s_Path := s_Path s; s_TargetURL := s_TargetURL s; s_TLSMode := s_TLSMode s; s_PassHostHeader := s_PassHostHeader s;
     s_UpstreamSkipVerify := s_UpstreamSkipVerify s; s_UpstreamCAPEM := s_UpstreamCAPEM s;
     s_UpstreamServerName := s_UpstreamServerName s; s_AuthPolicy := s_AuthPolicy s; s_AccessMode := s_AccessMode s;
     s_AllowedRoles := s_AllowedRoles s; s_AllowedGroups := s_AllowedGroups s;
     s_AllowedServiceGroups := s_AllowedServiceGroups s; s_UseGroupPolicy := s_UseGroupPolicy s;
     s_AccessMethod := s_AccessMethod s; s_AccessMethodConfig := s_AccessMethodConfig s; s_AccessMessage := s_AccessMessage s;
     s_IPAllowlist := s_IPAllowlist s; s_IPBlocklist := s_IPBlocklist s; s_AllowedCountries := s_AllowedCountries s;
     s_BlockedCountries := s_BlockedCountries s; s_AccessWindows := s_AccessWindows s; s_AccessRules := s_AccessRules s;
     s_LoginHosts := hosts; s_LastDeployedAt := s_LastDeployedAt s; s_DeploymentRevision := s_DeploymentRevision s;
     s_Enabled := s_Enabled s; s_NodeID := node; s_Node := s_Node s; s_ServiceGroups := s_ServiceGroups s |}.
(** The columns an upsert keeps of the row it replaces. *)
Definition with_identity (s : Service) (id : N) (lastDeployedAt : option Z) (revision : Z) (enabled : bool) : Service :=
  {| s_ID := id; s_Name := s_Name s; s_DomainID := s_DomainID s; s_Domain := s_Domain s; s_Subdomain := s_Subdomain s;
     s_Path := s_Path s; s_TargetURL := s_TargetURL s; s_TLSMode := s_TLSMode s; s_PassHostHeader := s_PassHostHeader s;
     s_UpstreamSkipVerify := s_UpstreamSkipVerify s; s_UpstreamCAPEM := s_UpstreamCAPEM s;
     s_UpstreamServerName := s_UpstreamServerName s; s_AuthPolicy := s_AuthPolicy s; s_AccessMode := s_AccessMode s;
     s_AllowedRoles := s_AllowedRoles s; s_AllowedGroups := s_AllowedGroups s;
     s_AllowedServiceGroups := s_AllowedServiceGroups s; s_UseGroupPolicy := s_UseGroupPolicy s;
     s_AccessMethod := s_AccessMethod s; s_AccessMethodConfig := s_AccessMethodConfig s; s_AccessMessage := s_AccessMessage s;
     s_IPAllowlist := s_IPAllowlist s; s_IPBlocklist := s_IPBlocklist s; s_AllowedCountries := s_AllowedCountries s;
     s_BlockedCountries := s_BlockedCountries s; s_AccessWindows := s_AccessWindows s; s_AccessRules := s_AccessRules s;
     s_LoginHosts := s_LoginHosts s; s_LastDeployedAt := lastDeployedAt; s_DeploymentRevision := revision;
     s_Enabled := enabled; s_NodeID := s_NodeID s; s_Node := s_Node s; s_ServiceGroups := s_ServiceGroups s |}.
(** A row as INSERT stores it: gorm gives the default of a column to a string that is empty. *)
Definition inserted_service (gorm_string : string → string → string) (id : N) (s : Service) : Service :=
  {| s_ID := id; s_Name := s_Name s; s_DomainID := s_DomainID s; s_Domain := s_Domain s; s_Subdomain := s_Subdomain s;
     s_Path := gorm_string (s_Path s) "/"; s_TargetURL := s_TargetURL s; s_TLSMode := s_TLSMode s;
     s_PassHostHeader := s_PassHostHeader s; s_UpstreamSkipVerify := s_UpstreamSkipVerify s;
     s_UpstreamCAPEM := s_UpstreamCAPEM s; s_UpstreamServerName := s_UpstreamServerName s;
     s_AuthPolicy := gorm_string (s_AuthPolicy s) "authenticated";
     s_AccessMode := gorm_string (s_AccessMode s) "authenticated"; s_AllowedRoles := s_AllowedRoles s;
     s_AllowedGroups := s_AllowedGroups s; s_AllowedServiceGroups := s_AllowedServiceGroups s;
     s_UseGroupPolicy := s_UseGroupPolicy s; s_AccessMethod := s_AccessMethod s;
     s_AccessMethodConfig := s_AccessMethodConfig s; s_AccessMessage := s_AccessMessage s; s_IPAllowlist := s_IPAllowlist s;
     s_IPBlocklist := s_IPBlocklist s; s_AllowedCountries := s_AllowedCountries s; s_BlockedCountries := s_BlockedCountries s;
     s_AccessWindows := s_AccessWindows s; s_AccessRules := s_AccessRules s; s_LoginHosts := s_LoginHosts s;
     s_LastDeployedAt := s_LastDeployedAt s; s_DeploymentRevision := s_DeploymentRevision s; s_Enabled := s_Enabled s;
     s_NodeID := s_NodeID s; s_Node := s_Node s; s_ServiceGroups := s_ServiceGroups s |}.

(** ** Reading *)

Definition member (c : catalogue) (group service : N) : bool := bool_decide ((group, service) ∈ cat_members c).
Definition domains_GetByID (c : catalogue) (id : N) : option DomainRow := List.find (λ d, N.eqb (d_ID d) id) (cat_domains c).
Definition domains_GetByName (c : catalogue) (name : string) : option DomainRow := List.find (λ d, String.eqb (d_Name d) name) (cat_domains c).
Definition node_row (c : catalogue) (id : N) : option Node := List.find (λ n, N.eqb (n_ID n) id) (cat_nodes c).

(** Preload of Domain, Node and ServiceGroups. *)
Definition preload (c : catalogue) (s : Service) : Service :=
  with_relations s (default zeroDomain (domains_GetByID c (s_DomainID s))) (s_NodeID s ≫= node_row c)
    (List.filter (λ g, member c (sg_ID g) (s_ID s)) (cat_groups c)).

Definition joined (c : catalogue) : list Service := map (preload c) (cat_services c).

Definition services_FindByRoute (c : catalogue) (domainID : N) (subdomain path : string) : option Service :=
  List.find (λ s, N.eqb (s_DomainID s) domainID && String.eqb (s_Subdomain s) subdomain && String.eqb (s_Path s) path) (joined c).
Definition services_ListByDomainID (c : catalogue) (domainID : N) : list Service := List.filter (λ s, N.eqb (s_DomainID s) domainID) (joined c).

(** A group with its services. *)
Definition serviceGroups_GetByID (c : catalogue) (id : N) : option (ServiceGroup * list Service) :=
  (λ g, (g, List.filter (λ s, member c (sg_ID g) (s_ID s)) (joined c))) <$> List.find (λ g, N.eqb (sg_ID g) id) (cat_groups c).

(** [FindByName] of the nodes, as [resolveNodeName] uses it: an error of validation unless exactly one node has the name. *)
Definition resolveNodeName (c : catalogue) (name : string) : option (option N) :=
  let trimmed := TrimSpace name in
  if String.eqb trimmed "" then Some None
  else match List.filter (λ n, String.eqb (n_Name n) trimmed) (cat_nodes c) with
       | [n] => Some (Some (n_ID n))
       | _ => None
       end.

(** ** Writing *)

Section catalog.
Variable bcrypt_Generate : string → option string.
Variable gorm_string : string → string → string.
(** [validateServiceTargetURL] of Netguard.v asks these. *)
Variable target_Parse : string → option (string * string).
Variable resolveTargetHost : string → option (list Addr).
(** [AppendCertsFromPEM]. *)
Variable valid_pem : string → bool.

Definition services_Create (c : catalogue) (item : Service) : N * catalogue :=
  (nextService c, set_services c (cat_services c ++ [inserted_service gorm_string (nextService c) item]) (cat_members c) (nextService c + 1)).

(** [Save] without the domain and the node; the groups the row was read with are associated again. *)
Definition services_Update (c : catalogue) (item : Service) : catalogue :=
  set_services c (map (λ s, if N.eqb (s_ID s) (s_ID item) then item else s) (cat_services c))
    (cat_members c ++ List.filter (λ m, negb (member c m.1 m.2)) (map (λ g, (sg_ID g, s_ID item)) (s_ServiceGroups item))) (nextService c).

Definition services_Delete (c : catalogue) (id : N) : catalogue :=
  set_services c (List.filter (λ s, negb (N.eqb (s_ID s) id)) (cat_services c)) (cat_members c) (nextService c).

Definition ReplaceServiceGroups (c : catalogue) (serviceID : N) (groupIDs : list N) : catalogue :=
  set_services c (cat_services c) (List.filter (λ m, negb (N.eqb m.2 serviceID)) (cat_members c) ++ map (λ g, (g, serviceID)) groupIDs) (nextService c).

(** The names of domains are unique. *)
Definition domains_Create (c : catalogue) (item : DomainRow) : option (DomainRow * catalogue) :=
  if existsb (λ d, String.eqb (d_Name d) (d_Name item)) (cat_domains c) then None
  else
    let item := {| d_ID := nextDomain c; d_Name := d_Name item; d_Type := d_Type item; d_Provider := d_Provider item; d_Notes := d_Notes item;
                   d_IPAllowlist := d_IPAllowlist item; d_IPBlocklist := d_IPBlocklist item |} in
    Some (item, set_domains c (cat_domains c ++ [item]) (nextDomain c + 1)).
Definition domains_Update (c : catalogue) (item : DomainRow) : option catalogue :=
  if existsb (λ d, String.eqb (d_Name d) (d_Name item) && negb (N.eqb (d_ID d) (d_ID item))) (cat_domains c) then None
  else Some (set_domains c (map (λ d, if N.eqb (d_ID d) (d_ID item) then item else d) (cat_domains c)) (nextDomain c)).
Definition domains_Delete (c : catalogue) (deletable : bool) (id : N) : option catalogue :=
  if existsb (λ s, N.eqb (s_DomainID s) id) (cat_services c) || negb deletable then None
  else Some (set_domains c (List.filter (λ d, negb (N.eqb (d_ID d) id)) (cat_domains c)) (nextDomain c)).

Definition group_with_id (g : ServiceGroup) (id : N) : ServiceGroup :=
  {| sg_ID := id; sg_Name := sg_Name g; sg_Description := sg_Description g; sg_DefaultAccessPolicy := sg_DefaultAccessPolicy g;
     sg_AccessMethod := sg_AccessMethod g; sg_AccessMethodConfig := sg_AccessMethodConfig g |}.
Definition serviceGroups_Create (c : catalogue) (g : ServiceGroup) : option (N * catalogue) :=
  if existsb (λ x, String.eqb (sg_Name x) (sg_Name g)) (cat_groups c) then None
  else Some (nextGroup c, set_groups c (cat_groups c ++ [group_with_id g (nextGroup c)]) (cat_members c) (nextGroup c + 1)).
(** [Save]; the services the row was read with are associated again. *)
Definition serviceGroups_Update (c : catalogue) (g : ServiceGroup) (services : list Service) : option catalogue :=
  if existsb (λ x, String.eqb (sg_Name x) (sg_Name g) && negb (N.eqb (sg_ID x) (sg_ID g))) (cat_groups c) then None
  else Some (set_groups c (map (λ x, if N.eqb (sg_ID x) (sg_ID g) then g else x) (cat_groups c))
    (cat_members c ++ List.filter (λ m, negb (member c m.1 m.2)) (map (λ s, (sg_ID g, s_ID s)) services)) (nextGroup c)).
Definition serviceGroups_Delete (c : catalogue) (deletable : bool) (id : N) : option catalogue :=
  if deletable then Some (set_groups c (List.filter (λ x, negb (N.eqb (sg_ID x) id)) (cat_groups c)) (cat_members c) (nextGroup c)) else None.
Definition ReplaceServices (c : catalogue) (groupID : N) (serviceIDs : list N) : catalogue :=
  set_groups c (cat_groups c) (List.filter (λ m, negb (N.eqb m.1 groupID)) (cat_members c) ++ map (λ s, (groupID, s)) serviceIDs) (nextGroup c).
Definition AddService (c : catalogue) (groupID serviceID : N) : catalogue :=
  set_groups c (cat_groups c) (cat_members c ++ [(groupID, serviceID)]) (nextGroup c).
Definition RemoveService (c : catalogue) (groupID serviceID : N) : catalogue :=
  set_groups c (cat_groups c) (List.filter (λ m, negb (N.eqb m.1 groupID && N.eqb m.2 serviceID)) (cat_members c)) (nextGroup c).

(** * The catalogue and the proxy *)

Record admin_state := { ad_cat : catalogue; ad_proxy : proxy_state }.

(** The catalogue changes, and with it what the proxy finds in the store. *)
Definition set_cat (st : admin_state) (c : catalogue) : admin_state :=
  {| ad_cat := c; ad_proxy := with_services (ad_proxy st) (joined c) |}.
Definition invalidate (st : admin_state) (host : string) : admin_state := {| ad_cat := ad_cat st; ad_proxy := InvalidateHost (ad_proxy st) host |}.

(** [None] is an error; the proxy is configured with the store of services. *)
Definition ApplyServiceChange (now : Z) (serviceID : N) (st : admin_state) : option (Service * admin_state) :=
  match services_GetByID (joined (ad_cat st)) serviceID with
  | None => None
  | Some service =>
      match toRouteConfig service with
      | None => None
      | Some config =>
          let st := set_cat st (services_Update (ad_cat st) (with_deployment service (Some now) (u64 (s_DeploymentRevision service + 1)))) in
          let st := invalidate st (rc_Host config) in
          Some (default service (services_GetByID (joined (ad_cat st)) serviceID), st)
      end
  end.

(** [now] is when each service is deployed; [false] when the loop ends with an error. *)
Fixpoint refresh_services (now : N → Z) (seen : list N) (serviceIDs : list N) (st : admin_state) : bool * admin_state :=
  match serviceIDs with
  | [] => (true, st)
  | id :: rest =>
      if N.eqb id 0 || existsb (N.eqb id) seen then refresh_services now seen rest st
      else match ApplyServiceChange (now id) id st with
           | None => (false, st)
           | Some (_, st) => refresh_services now (id :: seen) rest st
           end
  end.
Definition refreshServices (now : N → Z) (serviceIDs : list N) (st : admin_state) : bool * admin_state := refresh_services now [] serviceIDs st.

Definition normalizeHostname (value : string) : string := ToLower (TrimSpace value).

(** The map of hosts is ranged over in no particular order. *)
Definition domain_hosts (previous current : string) (services : list Service) : list string :=
  elements (list_to_set (List.filter non_empty (map normalizeHostname
    (previous :: current :: flat_map (λ s, [ServiceHostname previous (s_Subdomain s); ServiceHostname current (s_Subdomain s)]) services))) : gset string).
Definition invalidateServiceHostsForDomain (previous current : string) (services : list Service) (st : admin_state) : admin_state :=
  foldl invalidate st (domain_hosts previous current services).

(** * Requests *)

Record createServiceRequest := {
  sr_Name : string; sr_DomainID : N; sr_Subdomain : string; sr_Path : string; sr_TargetURL : string; sr_TLSMode : string;
  sr_PassHostHeader : bool; sr_UpstreamSkipVerify : bool; sr_UpstreamCAPEM : string; sr_UpstreamServerName : string; sr_AuthPolicy : string;
  sr_AccessPolicy : AccessPolicy; sr_UseGroupPolicy : bool; sr_AccessMethod : string; sr_AccessMethodConfig : accessMethodConfigRequest;
  sr_AccessMessage : string; sr_ServiceGroupIDs : list N; sr_IPAllowlist : list string; sr_IPBlocklist : list string;
  sr_AllowedCountries : list string; sr_BlockedCountries : list string; sr_AccessWindows : list AccessWindow; sr_AccessRules : list AccessRule;
  sr_LoginHosts : list string; sr_NodeID : option N; sr_Node : string;
}.

Record updateServiceRequest := {
  su_Name : option string; su_Enabled : option bool; su_DomainID : option N; su_Subdomain : option string; su_Path : option string;
  su_TargetURL : option string; su_TLSMode : option string; su_PassHostHeader : option bool; su_UpstreamSkipVerify : option bool;
  su_UpstreamCAPEM : option string; su_UpstreamServerName : option string; su_AuthPolicy : option string; su_AccessPolicy : option AccessPolicy;
  su_UseGroupPolicy : option bool; su_AccessMethod : option string; su_AccessMethodConfig : option accessMethodConfigRequest;
  su_AccessMessage : option string; su_ServiceGroupIDs : option (list N); su_IPAllowlist : option (list string);
  su_IPBlocklist : option (list string); su_AllowedCountries : option (list string); su_BlockedCountries : option (list string);
  su_AccessWindows : option (list AccessWindow); su_AccessRules : option (list AccessRule); su_LoginHosts : option (list string);
  su_NodeID : option N; su_Node : option string; su_ClearNodeID : option bool;
}.

Record createDomainRequest := { dr_Name : string; dr_Type : string; dr_Provider : string; dr_Notes : string; dr_IPAllowlist : list string; dr_IPBlocklist : list string }.
Record updateDomainRequest := {
  du_Name : option string; du_Type : option string; du_Provider : option string; du_Notes : option string; du_IPAllowlist : option (list string);
  du_IPBlocklist : option (list string);
}.
Record createServiceGroupRequest := {
  gr_Name : string; gr_Description : string; gr_DefaultAccessPolicy : AccessPolicy; gr_AccessMethod : string;
  gr_AccessMethodConfig : accessMethodConfigRequest; gr_ServiceIDs : list N;
}.
Record updateServiceGroupRequest := {
  gu_Name : option string; gu_Description : option string; gu_DefaultAccessPolicy : option AccessPolicy; gu_AccessMethod : option string;
  gu_AccessMethodConfig : option accessMethodConfigRequest; gu_ServiceIDs : option (list N);
}.

Definition domainString (value : string) : string := TrimSpace value.
Definition normalizeStringList (values : list string) : list string := List.filter non_empty (map domainString values).

Fixpoint normalize_countries (seen : list string) (values : list string) : list string :=
  match values with
  | [] => []
  | v :: rest =>
      let trimmed := ToUpper (TrimSpace v) in
      if String.eqb trimmed "" || existsb (String.eqb trimmed) seen then normalize_countries seen rest
      else trimmed :: normalize_countries (trimmed :: seen) rest
  end.
Definition NormalizeCountryList (values : list string) : list string := normalize_countries [] values.

Definition toAccessWindows (values : list AccessWindow) : list AccessWindow :=
  map (λ v, {| aw_Name := domainString (aw_Name v); aw_DaysOfWeek := normalizeStringList (aw_DaysOfWeek v);
               aw_StartTime := domainString (aw_StartTime v); aw_EndTime := domainString (aw_EndTime v);
               aw_Timezone := domainString (aw_Timezone v) |}) values.
Definition toAccessRules (values : list AccessRule) : list AccessRule :=
  map (λ v, {| ar_Name := domainString (ar_Name v); ar_Action := ToLower (domainString (ar_Action v));
               ar_Sources := normalizeStringList (ar_Sources v); ar_Paths := normalizeStringList (ar_Paths v) |}) values.

Definition bad_rule_path (path : string) : bool :=
  (512 <? String.length path)%nat || negb (string_all (λ a, negb (ContainsByte " ?#" a || Ascii.eqb a "009")) path).
Definition validateAccessRules (rules : list AccessRule) : bool :=
  forallb (λ rule, is_ok (ParseAccessRuleSources (ar_Sources rule)) && forallb (λ path, negb (bad_rule_path path)) (ar_Paths rule)) rules.
Definition validateUpstreamCAPEM (pem : string) : bool := if String.eqb (TrimSpace pem) "" then true else valid_pem pem.

Definition normalizeOptionalAccessMethod (value : string) : string :=
  let value := TrimSpace value in
  if existsb (String.eqb value) [""; AccessMethodSession; AccessMethodOIDCOnly; AccessMethodPIN; AccessMethodEmailCode] then value else "".
Definition derefAccessMethodConfig (value : option accessMethodConfigRequest) : accessMethodConfigRequest :=
  default {| mc_PIN := ""; mc_Hint := ""; mc_AllowedEmailDomain := ""; mc_AllowedEmails := [] |} value.

Definition buildServiceFromCreateRequest (req : createServiceRequest) (subdomain : string) (existingConfig : JSONObject) : Service :=
  {| s_ID := 0%N; s_Name := sr_Name req; s_DomainID := sr_DomainID req; s_Domain := zeroDomain; s_Subdomain := subdomain;
     s_Path := sr_Path req; s_TargetURL := sr_TargetURL req; s_TLSMode := sr_TLSMode req;
     s_PassHostHeader := sr_PassHostHeader req; s_UpstreamSkipVerify := sr_UpstreamSkipVerify req;
     s_UpstreamCAPEM := TrimSpace (sr_UpstreamCAPEM req); s_UpstreamServerName := TrimSpace (sr_UpstreamServerName req);
     s_AuthPolicy := sr_AuthPolicy req; s_AccessMode := ap_AccessMode (sr_AccessPolicy req);
     s_AllowedRoles := normalizeStringList (ap_AllowedRoles (sr_AccessPolicy req));
     s_AllowedGroups := ap_AllowedGroups (sr_AccessPolicy req);
     s_AllowedServiceGroups := ap_AllowedServiceGroups (sr_AccessPolicy req); s_UseGroupPolicy := sr_UseGroupPolicy req;
     s_AccessMethod := normalizeOptionalAccessMethod (sr_AccessMethod req);
     s_AccessMethodConfig := buildAccessMethodConfig bcrypt_Generate (sr_AccessMethod req) (sr_AccessMethodConfig req) existingConfig;
     s_AccessMessage := TrimSpace (sr_AccessMessage req); s_IPAllowlist := normalizeStringList (sr_IPAllowlist req);
     s_IPBlocklist := normalizeStringList (sr_IPBlocklist req);
     s_AllowedCountries := NormalizeCountryList (sr_AllowedCountries req);
     s_BlockedCountries := NormalizeCountryList (sr_BlockedCountries req);
     s_AccessWindows := toAccessWindows (sr_AccessWindows req); s_AccessRules := toAccessRules (sr_AccessRules req);
     s_LoginHosts := sr_LoginHosts req; s_LastDeployedAt := None; s_DeploymentRevision := 0%Z; s_Enabled := true;
     s_NodeID := sr_NodeID req; s_Node := None; s_ServiceGroups := [] |}.

Definition validation_error {X} : api_reply X := ApiError 400 "validation_error" "".
Definition need {X} (ok : bool) : result (api_reply X) unit := if ok then Ok tt else Err validation_error.
Definition target_ok (raw : string) : bool := is_ok (validateServiceTargetURL target_Parse resolveTargetHost raw).
Definition need_ok {X E A} (m : result E A) : result (api_reply X) A := match m with Ok a => Ok a | Err _ => Err validation_error end.

(** What both handlers that take a whole service check, up to the row they write. *)
Definition checked_service (c : catalogue) (req : createServiceRequest) (item : Service) : result (api_reply Service) Service :=
  try node <- match s_NodeID item with
              | Some n => Ok (Some n)
              | None => match resolveNodeName c (sr_Node req) with Some n => Ok n | None => Err validation_error end
              end ;
  try _ <- need (target_ok (s_TargetURL item)) ;
  try _ <- need (validateUpstreamCAPEM (s_UpstreamCAPEM item)) ;
  try _ <- need (validateAccessRules (s_AccessRules item)) ;
  try hosts <- need_ok (NormalizeLoginHosts (s_LoginHosts item)) ;
  Ok (with_login_hosts item hosts node).

(** Groups, deployment and answer, which the handlers share. *)
Definition deploy (now : N → Z) (id : N) (groups : option (list N)) (st : admin_state) : option (Service * admin_state) :=
  let st := match groups with Some ids => set_cat st (ReplaceServiceGroups (ad_cat st) id ids) | None => st end in
  ApplyServiceChange (now id) id st.

Definition handleCreateService (now : N → Z) (req : createServiceRequest) (st : admin_state) : api_reply Service * admin_state :=
  let c := ad_cat st in
  match domains_GetByID c (sr_DomainID req) with
  | None => (not_found, st)
  | Some _ =>
      match (try subdomain <- need_ok (NormalizeSubdomain (sr_Subdomain req)) ;
             checked_service c req (buildServiceFromCreateRequest req subdomain ∅)) with
      | Err reply => (reply, st)
      | Ok item =>
          let '(id, c) := services_Create c item in
          let st := set_cat st c in
          match deploy now id (Some (sr_ServiceGroupIDs req)) st with
          | None => (internalError, set_cat st (ReplaceServiceGroups c id (sr_ServiceGroupIDs req)))
          | Some (deployed, st) => (Answer deployed, st)
          end
      end
  end.

Definition handleUpsertService (now : N → Z) (req : createServiceRequest) (st : admin_state) : api_reply Service * admin_state :=
  let c := ad_cat st in
  match domains_GetByID c (sr_DomainID req) with
  | None => (not_found, st)
  | Some _ =>
      match (try subdomain <- need_ok (NormalizeSubdomain (sr_Subdomain req)) ;
             let existing := services_FindByRoute c (sr_DomainID req) subdomain (sr_Path req) in
             let config := match existing with Some e => s_AccessMethodConfig e | None => ∅ end in
             try item <- checked_service c req (buildServiceFromCreateRequest req subdomain config) ;
             Ok (existing, item)) with
      | Err reply => (reply, st)
      | Ok (existing, item) =>
          let '(id, c) :=
            match existing with
            | Some e => (s_ID e, services_Update c (with_identity item (s_ID e) (s_LastDeployedAt e) (s_DeploymentRevision e) (s_Enabled e)))
            | None => services_Create c item
            end in
          let st := set_cat st c in
          match deploy now id (Some (sr_ServiceGroupIDs req)) st with
          | None => (internalError, set_cat st (ReplaceServiceGroups c id (sr_ServiceGroupIDs req)))
          | Some (deployed, st) => (Answer deployed, st)
          end
      end
  end.

(** The row an update writes. *)
Definition updated_service (c : catalogue) (req : updateServiceRequest) (s : Service) : result (api_reply Service) Service :=
  try domainID <- match su_DomainID req with
                  | None => Ok (s_DomainID s)
                  | Some d => match domains_GetByID c d with Some _ => Ok d | None => Err not_found end
                  end ;
  try subdomain <- match su_Subdomain req with None => Ok (s_Subdomain s) | Some v => need_ok (NormalizeSubdomain v) end ;
  try _ <- need (match su_TargetURL req with None => true | Some v => target_ok v end) ;
  try _ <- need (match su_UpstreamCAPEM req with None => true | Some v => validateUpstreamCAPEM (TrimSpace v) end) ;
  try _ <- need (match su_AccessRules req with None => true | Some v => validateAccessRules (toAccessRules v) end) ;
  try hosts <- match su_LoginHosts req with None => Ok (s_LoginHosts s) | Some v => need_ok (NormalizeLoginHosts v) end ;
  try node <- match su_ClearNodeID req, su_NodeID req, su_Node req with
              | Some true, _, _ => Ok None
              | _, Some n, _ => Ok (Some n)
              | _, None, Some name => match resolveNodeName c name with Some n => Ok n | None => Err validation_error end
              | _, None, None => Ok (s_NodeID s)
              end ;
  let method := match su_AccessMethod req with Some m => normalizeOptionalAccessMethod m | None => s_AccessMethod s end in
  let config := match su_AccessMethodConfig req, su_AccessMethod req with
                | None, None => s_AccessMethodConfig s
                | given, named => buildAccessMethodConfig bcrypt_Generate (default method named) (derefAccessMethodConfig given) (s_AccessMethodConfig s)
                end in
  Ok
    {| s_ID := s_ID s; s_Name := default (s_Name s) (su_Name req); s_DomainID := domainID; s_Domain := s_Domain s;
       s_Subdomain := subdomain; s_Path := default (s_Path s) (su_Path req);
       s_TargetURL := default (s_TargetURL s) (su_TargetURL req); s_TLSMode := default (s_TLSMode s) (su_TLSMode req);
       s_PassHostHeader := default (s_PassHostHeader s) (su_PassHostHeader req);
       s_UpstreamSkipVerify := default (s_UpstreamSkipVerify s) (su_UpstreamSkipVerify req);
       s_UpstreamCAPEM := match su_UpstreamCAPEM req with Some v => TrimSpace v | None => s_UpstreamCAPEM s end;
       s_UpstreamServerName := match su_UpstreamServerName req with Some v => TrimSpace v | None => s_UpstreamServerName s end;
       s_AuthPolicy := default (s_AuthPolicy s) (su_AuthPolicy req);
       s_AccessMode := match su_AccessPolicy req with Some p => ap_AccessMode p | None => s_AccessMode s end;
       s_AllowedRoles := match su_AccessPolicy req with Some p => normalizeStringList (ap_AllowedRoles p) | None => s_AllowedRoles s end;
       s_AllowedGroups := match su_AccessPolicy req with Some p => ap_AllowedGroups p | None => s_AllowedGroups s end;
       s_AllowedServiceGroups := match su_AccessPolicy req with Some p => ap_AllowedServiceGroups p | None => s_AllowedServiceGroups s end;
       s_UseGroupPolicy := default (s_UseGroupPolicy s) (su_UseGroupPolicy req); s_AccessMethod := method;
       s_AccessMethodConfig := config;
       s_AccessMessage := match su_AccessMessage req with Some v => TrimSpace v | None => s_AccessMessage s end;
       s_IPAllowlist := match su_IPAllowlist req with Some v => normalizeStringList v | None => s_IPAllowlist s end;
       s_IPBlocklist := match su_IPBlocklist req with Some v => normalizeStringList v | None => s_IPBlocklist s end;
       s_AllowedCountries := match su_AllowedCountries req with Some v => NormalizeCountryList v | None => s_AllowedCountries s end;
       s_BlockedCountries := match su_BlockedCountries req with Some v => NormalizeCountryList v | None => s_BlockedCountries s end;
       s_AccessWindows := match su_AccessWindows req with Some v => toAccessWindows v | None => s_AccessWindows s end;
       s_AccessRules := match su_AccessRules req with Some v => toAccessRules v | None => s_AccessRules s end;
       s_LoginHosts := hosts; s_LastDeployedAt := s_LastDeployedAt s; s_DeploymentRevision := s_DeploymentRevision s;
       s_Enabled := default (s_Enabled s) (su_Enabled req); s_NodeID := node; s_Node := s_Node s;
       s_ServiceGroups := s_ServiceGroups s |}.

Definition handleUpdateService (now : N → Z) (id : N) (req : updateServiceRequest) (st : admin_state) : api_reply Service * admin_state :=
  match services_GetByID (joined (ad_cat st)) id with
  | None => (not_found, st)
  | Some item =>
      let previousHost := ServiceHost item in
      match updated_service (ad_cat st) req item with
      | Err reply => (reply, st)
      | Ok item =>
          let st := set_cat st (services_Update (ad_cat st) item) in
          match deploy now (s_ID item) (su_ServiceGroupIDs req) st with
          | None => (internalError, match su_ServiceGroupIDs req with
                                    | Some ids => set_cat st (ReplaceServiceGroups (ad_cat st) (s_ID item) ids)
                                    | None => st
                                    end)
          | Some (deployed, st) =>
              (Answer deployed,
               if non_empty previousHost && negb (String.eqb (ServiceHost deployed) previousHost) then invalidate st previousHost else st)
          end
      end
  end.

Definition handleDeleteService (deletable : bool) (id : N) (st : admin_state) : api_reply unit * admin_state :=
  match services_GetByID (joined (ad_cat st)) id with
  | None => (not_found, st)
  | Some item =>
      if negb deletable then (internalError, st)
      else (Answer tt, invalidate (set_cat st (services_Delete (ad_cat st) (s_ID item))) (ServiceHost item))
  end.

Definition handleRedeployService (now : N → Z) (id : N) (st : admin_state) : api_reply Service * admin_state :=
  match ApplyServiceChange (now id) id st with None => (not_found, st) | Some (deployed, st) => (Answer deployed, st) end.

(** ** Domains *)

Definition handleCreateDomain (req : createDomainRequest) (st : admin_state) : api_reply DomainRow * admin_state :=
  match domains_Create (ad_cat st)
          {| d_ID := 0; d_Name := normalizeHostname (dr_Name req); d_Type := dr_Type req; d_Provider := dr_Provider req; d_Notes := dr_Notes req;
             d_IPAllowlist := normalizeStringList (dr_IPAllowlist req); d_IPBlocklist := normalizeStringList (dr_IPBlocklist req) |} with
  | None => (internalError, st)
  | Some (item, c) => (Answer item, set_cat st c)
  end.

(** The end of both handlers that change a domain. *)
Definition save_domain (previous : string) (services : list Service) (item : DomainRow) (st : admin_state) : api_reply DomainRow * admin_state :=
  match domains_Update (ad_cat st) item with
  | None => (internalError, st)
  | Some c => (Answer item, invalidateServiceHostsForDomain previous (d_Name item) services (set_cat st c))
  end.

Definition handleUpdateDomain (id : N) (req : updateDomainRequest) (st : admin_state) : api_reply DomainRow * admin_state :=
  match domains_GetByID (ad_cat st) id with
  | None => (not_found, st)
  | Some item =>
      save_domain (normalizeHostname (d_Name item)) (services_ListByDomainID (ad_cat st) (d_ID item))
        {| d_ID := d_ID item; d_Name := match du_Name req with Some v => normalizeHostname v | None => d_Name item end;
           d_Type := default (d_Type item) (du_Type req); d_Provider := default (d_Provider item) (du_Provider req);
           d_Notes := default (d_Notes item) (du_Notes req);
           d_IPAllowlist := match du_IPAllowlist req with Some v => normalizeStringList v | None => d_IPAllowlist item end;
           d_IPBlocklist := match du_IPBlocklist req with Some v => normalizeStringList v | None => d_IPBlocklist item end |} st
  end.

Definition handleUpsertDomain (req : createDomainRequest) (st : admin_state) : api_reply DomainRow * admin_state :=
  let name := normalizeHostname (dr_Name req) in
  match domains_GetByName (ad_cat st) name with
  | None => handleCreateDomain req st
  | Some existing =>
      save_domain name (services_ListByDomainID (ad_cat st) (d_ID existing))
        {| d_ID := d_ID existing; d_Name := d_Name existing; d_Type := dr_Type req; d_Provider := dr_Provider req; d_Notes := dr_Notes req;
           d_IPAllowlist := normalizeStringList (dr_IPAllowlist req); d_IPBlocklist := normalizeStringList (dr_IPBlocklist req) |} st
  end.

Definition handleDeleteDomain (deletable : bool) (id : N) (st : admin_state) : api_reply unit * admin_state :=
  match domains_GetByID (ad_cat st) id with
  | None => (not_found, st)
  | Some item =>
      let affected := services_ListByDomainID (ad_cat st) (d_ID item) in
      match domains_Delete (ad_cat st) deletable (d_ID item) with
      | None => (internalError, st)
      | Some c => (Answer tt, invalidateServiceHostsForDomain (normalizeHostname (d_Name item)) "" affected (set_cat st c))
      end
  end.

(** ** Service groups *)

Definition normalized_policy (p : AccessPolicy) : AccessPolicy :=
  {| ap_AccessMode := ap_AccessMode p; ap_AllowedRoles := normalizeStringList (ap_AllowedRoles p); ap_AllowedGroups := ap_AllowedGroups p;
     ap_AllowedServiceGroups := ap_AllowedServiceGroups p |}.

Definition refreshed {X} (x : X) (r : bool * admin_state) : api_reply X * admin_state := (if r.1 then Answer x else internalError, r.2).

Definition handleCreateServiceGroup (now : N → Z) (req : createServiceGroupRequest) (st : admin_state) : api_reply N * admin_state :=
  match serviceGroups_Create (ad_cat st)
          {| sg_ID := 0; sg_Name := gr_Name req; sg_Description := gr_Description req; sg_DefaultAccessPolicy := normalized_policy (gr_DefaultAccessPolicy req);
             sg_AccessMethod := normalizeOptionalAccessMethod (gr_AccessMethod req);
             sg_AccessMethodConfig := buildAccessMethodConfig bcrypt_Generate (gr_AccessMethod req) (gr_AccessMethodConfig req) ∅ |} with
  | None => (internalError, st)
  | Some (id, c) =>
      let c := ReplaceServices c id (gr_ServiceIDs req) in
      let st := set_cat st c in
      match serviceGroups_GetByID c id with
      | None => (internalError, st)
      | Some (_, members) => refreshed id (refreshServices now (map s_ID members) st)
      end
  end.

Definition handleUpdateServiceGroup (now : N → Z) (id : N) (req : updateServiceGroupRequest) (st : admin_state) : api_reply N * admin_state :=
  match serviceGroups_GetByID (ad_cat st) id with
  | None => (not_found, st)
  | Some (item, before) =>
      let method := match gu_AccessMethod req with Some m => normalizeOptionalAccessMethod m | None => sg_AccessMethod item end in
      let config := match gu_AccessMethodConfig req, gu_AccessMethod req with
                    | None, None => sg_AccessMethodConfig item
                    | given, named => buildAccessMethodConfig bcrypt_Generate (default method named) (derefAccessMethodConfig given) (sg_AccessMethodConfig item)
                    end in
      match serviceGroups_Update (ad_cat st)
              {| sg_ID := sg_ID item; sg_Name := default (sg_Name item) (gu_Name req); sg_Description := default (sg_Description item) (gu_Description req);
                 sg_DefaultAccessPolicy := match gu_DefaultAccessPolicy req with Some p => normalized_policy p | None => sg_DefaultAccessPolicy item end;
                 sg_AccessMethod := method; sg_AccessMethodConfig := config |} before with
      | None => (internalError, st)
      | Some c =>
          let c := match gu_ServiceIDs req with Some ids => ReplaceServices c (sg_ID item) ids | None => c end in
          let st := set_cat st c in
          match serviceGroups_GetByID c (sg_ID item) with
          | None => (internalError, st)
          | Some (_, after) => refreshed (sg_ID item) (refreshServices now (map s_ID before ++ map s_ID after) st)
          end
      end
  end.

Definition handleDeleteServiceGroup (now : N → Z) (deletable : bool) (id : N) (st : admin_state) : api_reply unit * admin_state :=
  match serviceGroups_GetByID (ad_cat st) id with
  | None => (not_found, st)
  | Some (item, members) =>
      match serviceGroups_Delete (ad_cat st) deletable id with
      | None => (internalError, st)
      | Some c => refreshed tt (refreshServices now (map s_ID members) (set_cat st c))
      end
  end.

Definition handleAddServiceGroupService (now : N → Z) (id serviceID : N) (st : admin_state) : api_reply unit * admin_state :=
  match services_GetByID (joined (ad_cat st)) serviceID with
  | None => (not_found, st)
  | Some _ =>
      let c := AddService (ad_cat st) id serviceID in
      let st := set_cat st c in
      match serviceGroups_GetByID c id with
      | None => (internalError, st)
      | Some _ => refreshed tt (refreshServices now [serviceID] st)
      end
  end.

Definition handleDeleteServiceGroupService (now : N → Z) (id serviceID : N) (st : admin_state) : api_reply unit * admin_state :=
  refreshed tt (refreshServices now [serviceID] (set_cat st (RemoveService (ad_cat st) id serviceID))).
End catalog.
