(* ===== verification/CatalogRoutes.v ===== *)
(** The catalogue and the caches of the proxy: after every history of administrative requests and of lookups, a host resolves to the
    routes of the services the catalogue holds, and every service in it is one the API accepts.

    A change makes the cached routes of some hosts stale, those of the services it touches before or after; [same_but] says
    which, and a handler is correct when the hosts it invalidates cover them. *)
From S2P Require Import Prelude GoStrings Netip Domain Paths Hosts AccessRules AccessPolicy LRU Routing Netguard ApiGuard UserAdmin RouteAuth Catalog.

#[local] Open Scope string_scope.
#[local] Open Scope list_scope.
#[local] Open Scope go_scope.

(** * Which cached hosts a change makes stale *)

Definition concerned (key : string) (s : Service) : bool :=
  IsWildcardHost (normalizeHost (ServiceHost s)) || String.eqb (normalizeHost (ServiceHost s)) key.

Lemma concerned_false key s : concerned key s = false ↔ ¬ concerns key s.
Proof.
  unfold concerned, concerns. destruct (IsWildcardHost _); cbn [orb]; [split; [done|intros []; by left]|].
  rewrite String.eqb_neq. split; [intros ? [?|?]; done|auto].
Qed.

Section relevant.
Variable order_by_path : list Service → list Service.
Hypothesis order_perm : ∀ l, order_by_path l ≡ₚ l.

Lemma filter_relevant (p : RouteConfig → bool) key l :
  is_key key → (∀ r, p r = true → exact_for key r = true ∨ wildcard_for key r = true) →
  List.filter p (toRouteConfigs (List.filter (selected (domainCandidatesForHost key)) l)) =
  List.filter p (toRouteConfigs (List.filter (selected (domainCandidatesForHost key)) (List.filter (concerned key) l))).
Proof.
  intros [Hc Hk] Hp. unfold toRouteConfigs. induction l as [|s l IH]; [done|]. cbn [List.filter].
  destruct (concerned key s) eqn:Hcon; cbn [List.filter]; destruct (selected _ s); cbn [omap list_omap]; [|exact IH| |exact IH].
  - destruct (toRouteConfig s); [|exact IH]. cbn [List.filter]. case_match; [f_equal|]; exact IH.
  - destruct (toRouteConfig s) as [r|] eqn:Hr; [|exact IH]. cbn [List.filter]. apply concerned_false in Hcon.
    destruct (unconcerned_dropped key s r Hc Hk Hcon Hr) as [He Hw].
    destruct (p r) eqn:Hpr; [|exact IH]. by destruct (Hp r Hpr) as [?|?]; congruence.
Qed.

(** A host resolves from the services that concern it alone. *)
Lemma stored_relevant key l l' :
  is_key key → List.filter (concerned key) l = List.filter (concerned key) l' →
  GetRoutesForHost order_by_path l key ≡ₚ GetRoutesForHost order_by_path l' key.
Proof.
  intros Hkey Heq. destruct (decide (key = "")) as [->|Hne]; [done|]. destruct Hkey as [Hc Hk].
  unfold GetRoutesForHost. rewrite Hc. destruct (domainCandidatesForHost key) as [|c cs] eqn:Hcand; [done|]. rewrite <-Hcand.
  assert (∀ p, (∀ r, p r = true → exact_for key r = true ∨ wildcard_for key r = true) →
    List.filter p (toRouteConfigs (order_by_path (List.filter (selected (domainCandidatesForHost key)) l))) ≡ₚ
    List.filter p (toRouteConfigs (order_by_path (List.filter (selected (domainCandidatesForHost key)) l')))) as Hp.
  { intros p Hp. etrans; [apply List_filter_perm, toRouteConfigs_perm, order_perm|]. symmetry.
    etrans; [apply List_filter_perm, toRouteConfigs_perm, order_perm|]. rewrite (filter_relevant p key l), (filter_relevant p key l') by done.
    by rewrite Heq. }
  apply filterRoutesByHost_perm; [done|done|apply Hp; auto|apply Hp; auto].
Qed.
End relevant.

(** The services that concern a key not covered by the hosts are the same. *)
Definition same_but (hosts : list string) (l l' : list Service) : Prop :=
  ∀ key, is_key key → ¬ covered hosts key → List.filter (concerned key) l = List.filter (concerned key) l'.

Lemma covered_host hosts h key s : h ∈ hosts → ServiceHost s = h → ¬ covered hosts key → concerned key s = false.
Proof. intros Hin Hh Hn. apply concerned_false. intros Hc. apply Hn. exists h. split; [done|]. unfold concerns in Hc. by rewrite Hh in Hc. Qed.

(** Rows that are read differently, each with both its hosts among the given ones. *)
Lemma same_but_map hosts (f g : Service → Service) rows :
  (∀ r, r ∈ rows → f r = g r ∨ (ServiceHost (f r) ∈ hosts ∧ ServiceHost (g r) ∈ hosts)) → same_but hosts (map f rows) (map g rows).
Proof.
  intros Hr key _ Hn. induction rows as [|r l IH]; [done|]. cbn [map List.filter]. rewrite <-IH by (intros; apply Hr; by right).
  destruct (Hr r) as [->|[Hf Hg]]; [by left|done|]. by rewrite (covered_host hosts _ key (f r) Hf), (covered_host hosts _ key (g r) Hg).
Qed.

Lemma same_but_snoc hosts l s : ServiceHost s ∈ hosts → same_but hosts l (l ++ [s]).
Proof.
  intros Hs key _ Hn. rewrite List_filter_app. cbn [List.filter]. rewrite (covered_host hosts _ key s Hs) by done. by rewrite app_nil_r.
Qed.

Lemma same_but_remove hosts (p : Service → bool) l :
  (∀ s, s ∈ l → p s = false → ServiceHost s ∈ hosts) → same_but hosts l (List.filter p l).
Proof.
  intros Hp key _ Hn. induction l as [|s l IH]; [done|]. cbn [List.filter].
  assert (List.filter (concerned key) l = List.filter (concerned key) (List.filter p l)) as Hl by (apply IH; intros; apply Hp; [by right|done]).
  destruct (p s) eqn:Hps; cbn [List.filter]; rewrite Hl; [done|].
  by rewrite (covered_host hosts _ key s (Hp s ltac:(by left) Hps)) by done.
Qed.

Lemma same_but_trans hosts l1 l2 l3 : same_but hosts l1 l2 → same_but hosts l2 l3 → same_but hosts l1 l3.
Proof. intros H1 H2 key Hk Hn. rewrite H1 by done. by apply H2. Qed.

Lemma same_but_refl hosts l : same_but hosts l l.
Proof. by intros key. Qed.

Section catalog_routes.
Variable url_Parse : string → option URL.
Variable url_String : URL → string.
Variable url_Port url_Hostname : URL → string.
Variable valid_pem : string → bool.
Variable LoadLocation : string → option Location.
Variable tunnelReady : bool.
Variable order_by_path : list Service → list Service.
Variable sort_routes : list Route → list Route.
Hypothesis order_perm : ∀ l, order_by_path l ≡ₚ l.
Hypothesis sort_perm : ∀ l, sort_routes l ≡ₚ l.
Variable bcrypt_Generate : string → option string.
Variable gorm_string : string → string → string.
Variable target_Parse : string → option (string * string).
Variable resolveTargetHost : string → option (list Addr).

Abbreviation resolve := (resolveRoutesForHost url_Parse url_String url_Port url_Hostname valid_pem LoadLocation
  tunnelReady order_by_path sort_routes).
Abbreviation coherent_but := (coherent_except url_Parse url_String url_Port url_Hostname valid_pem LoadLocation tunnelReady order_by_path).

(** * The state after a change *)

(** The proxy finds the catalogue in its store, and only the routes cached for hosts the list covers may be stale. *)
Definition stale_only (hosts : list string) (st : admin_state) : Prop :=
  services (ad_proxy st) = joined (ad_cat st) ∧ coherent_but (covered hosts) (ad_proxy st).

Lemma covered_mono hosts hosts' key : (∀ h, h ∈ hosts → h ∈ hosts') → covered hosts key → covered hosts' key.
Proof. intros Hs (h & Hin & Hc). exists h. auto. Qed.

Lemma stale_weaken hosts hosts' st : (∀ h, h ∈ hosts → h ∈ hosts') → stale_only hosts st → stale_only hosts' st.
Proof. intros Hs [Hsv Hco]. split; [done|]. eapply coherent_except_weaken; [|exact Hco]. intros k. by apply covered_mono. Qed.

Lemma set_cat_stale hosts st c : stale_only hosts st → same_but hosts (joined (ad_cat st)) (joined c) → stale_only hosts (set_cat st c).
Proof.
  intros [Hsv [Hlru Hloc Hsh]] Hsame. rewrite <-Hsv in Hsame. split; [done|]. split; cbn; [done| |].
  - intros e He. destruct (Hloc e He) as [Hk Hf]. split; [done|]. intros Hn.
    destruct (Hf Hn) as (rev & configs & rev' & compiled & Hcf & Hcm & Hp). exists rev, configs, rev', compiled. split; [|done].
    etrans; [exact Hcf|]. apply stored_relevant; auto.
  - intros m h entry Hm Hl. destruct (Hsh m h entry Hm Hl) as [Hk Hf]. split; [done|]. intros Hn. etrans; [by apply Hf|].
    apply stored_relevant; auto.
Qed.

Lemma invalidate_stale h hosts st : stale_only (h :: hosts) st → stale_only hosts (invalidate st h).
Proof. intros [Hsv Hco]. split; [exact Hsv|]. by apply invalidate_except. Qed.

Lemma invalidate_list hosts rest st : stale_only (hosts ++ rest) st → stale_only rest (foldl invalidate st hosts).
Proof. revert st. induction hosts as [|h l IH]; intros st; [done|]. cbn [foldl app]. intros Hst. by apply IH, invalidate_stale. Qed.

Lemma invalidate_cat hosts st : ad_cat (foldl invalidate st hosts) = ad_cat st.
Proof. revert st. induction hosts as [|h l IH]; intros st; [done|]. cbn [foldl]. by rewrite IH. Qed.

(** ** Tables *)

Record catalog_wf (c : catalogue) : Prop := {
  wf_names : ∀ d, d ∈ cat_domains c → TrimSpace (d_Name d) ≠ "";
  wf_domain_ids : NoDup (map d_ID (cat_domains c));
  wf_domain_next : ∀ d, d ∈ cat_domains c → (d_ID d < nextDomain c)%N;
  wf_service_ids : NoDup (map s_ID (cat_services c));
  wf_service_next : ∀ s, s ∈ cat_services c → (0 < s_ID s < nextService c)%N;
  wf_service_domain : ∀ s, s ∈ cat_services c → is_Some (domains_GetByID c (s_DomainID s));
  wf_group_next : ∀ g, g ∈ cat_groups c → (sg_ID g < nextGroup c)%N;
  wf_next : (0 < nextService c)%N;
}.

Lemma preload_id c s : s_ID (preload c s) = s_ID s.
Proof. done. Qed.

Lemma joined_elem c s : s ∈ joined c ↔ ∃ r, r ∈ cat_services c ∧ s = preload c r.
Proof. unfold joined. rewrite list_elem_of_fmap. split; intros (r & ? & ?); eauto. Qed.

Lemma GetByID_found c id s : services_GetByID (joined c) id = Some s → ∃ r, r ∈ cat_services c ∧ s = preload c r ∧ s_ID r = id.
Proof.
  unfold services_GetByID. intros [Hin Hid]%List.find_some. apply list_elem_of_In, joined_elem in Hin as (r & Hr & ->).
  exists r. split_and!; [done|done|]. by apply N.eqb_eq in Hid.
Qed.

Lemma service_by_id c r : catalog_wf c → r ∈ cat_services c → services_GetByID (joined c) (s_ID r) = Some (preload c r).
Proof.
  intros Hwf Hr. destruct (services_GetByID (joined c) (s_ID r)) as [s|] eqn:Hf.
  - apply GetByID_found in Hf as (r' & Hr' & -> & Hid). f_equal. f_equal.
    assert (∀ l : list Service, NoDup (map s_ID l) → ∀ x y, x ∈ l → y ∈ l → s_ID x = s_ID y → x = y) as Hinj; [|by eapply Hinj; eauto using wf_service_ids].
    clear. induction l as [|a l IH]; intros Hnd x y Hx Hy Heq; [by apply elem_of_nil in Hx|]. apply NoDup_cons in Hnd as [Hni Hnd].
    apply elem_of_cons in Hx as [->|Hx]; apply elem_of_cons in Hy as [->|Hy]; [done| | |by apply IH].
    + destruct Hni. rewrite Heq. by apply list_elem_of_fmap_2.
    + destruct Hni. rewrite <-Heq. by apply list_elem_of_fmap_2.
  - unfold services_GetByID in Hf. exfalso.
    assert (List.In (preload c r) (joined c)) as Hin by (apply list_elem_of_In, joined_elem; eauto).
    apply (List.find_none _ _ Hf) in Hin. by rewrite preload_id, N.eqb_refl in Hin.
Qed.

Lemma domain_name c r : catalog_wf c → r ∈ cat_services c →
  ∃ d, domains_GetByID c (s_DomainID r) = Some d ∧ s_Domain (preload c r) = d ∧ TrimSpace (d_Name d) ≠ "".
Proof.
  intros Hwf Hr. destruct (wf_service_domain c Hwf r Hr) as [d Hd]. exists d. split; [done|]. split.
  - unfold preload. cbn. by rewrite Hd.
  - apply (wf_names c Hwf). unfold domains_GetByID in Hd. apply List.find_some in Hd as [Hd _]. by apply list_elem_of_In.
Qed.

(** ** A row is replaced *)

Definition put_row (c : catalogue) (item : Service) : catalogue :=
  set_services c (map (λ s, if N.eqb (s_ID s) (s_ID item) then item else s) (cat_services c)) (cat_members c) (nextService c).

Lemma services_Update_row c item :
  (∀ g, g ∈ s_ServiceGroups item → member c (sg_ID g) (s_ID item) = true) → services_Update c item = put_row c item.
Proof.
  intros Hg. unfold services_Update, put_row. f_equal. rewrite <-(app_nil_r (cat_members c)) at 2. f_equal.
  induction (s_ServiceGroups item) as [|g l IH]; [done|]. cbn [map List.filter fst snd]. rewrite Hg by (by left). cbn [negb].
  apply IH. intros g' Hg'. apply Hg. by right.
Qed.

Lemma preload_groups c r g : g ∈ s_ServiceGroups (preload c r) → member c (sg_ID g) (s_ID r) = true.
Proof. cbn. intros Hg. apply list_elem_of_In, List.filter_In in Hg as [_ Hg]. done. Qed.

Lemma row_unique c r r' : catalog_wf c → r ∈ cat_services c → r' ∈ cat_services c → s_ID r = s_ID r' → preload c r = preload c r'.
Proof. intros Hwf Hr Hr' Hid. pose proof (service_by_id c r Hwf Hr) as H1. rewrite Hid, (service_by_id c r' Hwf Hr') in H1. congruence. Qed.

Lemma put_row_same c item hosts r :
  catalog_wf c → r ∈ cat_services c → s_ID r = s_ID item → ServiceHost (preload c r) ∈ hosts → ServiceHost (preload c item) ∈ hosts →
  same_but hosts (joined c) (joined (put_row c item)).
Proof.
  intros Hwf Hr Hid Hold Hnew. unfold joined, put_row. cbn [set_services cat_services]. rewrite map_map. apply same_but_map.
  intros x Hx. destruct (N.eqb_spec (s_ID x) (s_ID item)) as [He|]; [right|by left]. split; [|exact Hnew].
  by rewrite (row_unique c x r) by congruence.
Qed.

Lemma put_row_ids c item : map s_ID (cat_services (put_row c item)) = map s_ID (cat_services c).
Proof.
  cbn. rewrite map_map. apply map_ext. intros x. by destruct (N.eqb_spec (s_ID x) (s_ID item)).
Qed.

Lemma put_row_elem c item x : x ∈ cat_services (put_row c item) → x ∈ cat_services c ∨ x = item.
Proof.
  cbn. intros (y & -> & Hy)%list_elem_of_fmap. destruct (N.eqb _ _); auto.
Qed.

Lemma put_row_wf c item r :
  catalog_wf c → r ∈ cat_services c → s_ID r = s_ID item → is_Some (domains_GetByID c (s_DomainID item)) → catalog_wf (put_row c item).
Proof.
  intros Hwf Hr Hid Hd. pose proof (put_row_ids c item) as Hids. destruct Hwf. split; try done; [by rewrite Hids| |].
  - intros x [Hx| ->]%put_row_elem; [by apply wf_service_next0|]. rewrite <-Hid. by apply wf_service_next0.
  - intros x [Hx| ->]%put_row_elem; [by apply wf_service_domain0|done].
Qed.

Lemma put_row_kept c item r : r ∈ cat_services c → (if N.eqb (s_ID r) (s_ID item) then item else r) ∈ cat_services (put_row c item).
Proof. intros Hr. cbn. apply (list_elem_of_fmap_2 (λ s, if N.eqb (s_ID s) (s_ID item) then item else s)). done. Qed.

(** The same services under the same hosts. *)
Definition same_hosts (c c' : catalogue) : Prop :=
  ∀ r, r ∈ cat_services c → ∃ r', r' ∈ cat_services c' ∧ s_ID r' = s_ID r ∧ ServiceHost (preload c' r') = ServiceHost (preload c r).

Lemma same_hosts_trans c1 c2 c3 : same_hosts c1 c2 → same_hosts c2 c3 → same_hosts c1 c3.
Proof.
  intros H1 H2 r Hr. destruct (H1 r Hr) as (r' & Hr' & Hid & Hh). destruct (H2 r' Hr') as (r'' & Hr'' & Hid' & Hh').
  exists r''. split_and!; [done|congruence|congruence].
Qed.

(** Deploying a service clears the routes cached for its host. *)
Lemma apply_step now hosts st r :
  catalog_wf (ad_cat st) → r ∈ cat_services (ad_cat st) → stale_only (ServiceHost (preload (ad_cat st) r) :: hosts) st →
  ∃ s st', ApplyServiceChange now (s_ID r) st = Some (s, st') ∧ stale_only hosts st' ∧ catalog_wf (ad_cat st') ∧
    same_hosts (ad_cat st) (ad_cat st') ∧ ServiceHost s = ServiceHost (preload (ad_cat st) r) ∧
    ∃ item, ad_cat st' = put_row (ad_cat st) (with_deployment (preload (ad_cat st) r) (Some now) item).
Proof.
  set (c := ad_cat st). intros Hwf Hr Hst. unfold ApplyServiceChange. fold c. rewrite (service_by_id c r Hwf Hr).
  destruct (domain_name c r Hwf Hr) as (d & Hd & Hdom & Hname).
  destruct (toRouteConfig (preload c r)) as [config|] eqn:Hcfg.
  2: { exfalso. unfold toRouteConfig in Hcfg. rewrite Hdom, (proj2 (non_empty_true _) Hname) in Hcfg. cbn [negb] in Hcfg.
       by destruct (EffectiveAccessForService (preload c r)) as [[[? ?] ?] ?]. }
  apply toRouteConfig_host in Hcfg as (Hhost & _ & _). rewrite Hhost.
  set (rev := u64 (s_DeploymentRevision (preload c r) + 1)). set (item := with_deployment (preload c r) (Some now) rev).
  rewrite services_Update_row by apply (preload_groups c r).
  assert (ServiceHost (preload c item) = ServiceHost (preload c r)) as Hsame by done.
  assert (catalog_wf (put_row c item)) as Hwf' by (apply (put_row_wf c item r); [done|done|done|by exists d]).
  cbn zeta. eexists _, _. split; [reflexivity|]. split_and!.
  - apply invalidate_stale, set_cat_stale; [done|]. fold c. apply (put_row_same c item _ r); [done|done|done|by left|by left].
  - exact Hwf'.
  - intros x Hx. exists (if N.eqb (s_ID x) (s_ID item) then item else x). split; [by apply put_row_kept|].
    destruct (N.eqb_spec (s_ID x) (s_ID item)) as [He|]; [|done]. split; [done|]. by rewrite (row_unique c x r).
  - cbn [ad_cat set_cat invalidate]. pose proof (put_row_kept c item r Hr) as Hk.
    destruct (N.eqb_spec (s_ID r) (s_ID item)) as [_|Hne]; [|by destruct Hne].
    by rewrite (service_by_id _ item Hwf' Hk : services_GetByID (joined (put_row c item)) (s_ID r) = _).
  - by exists rev.
Qed.

(** ** Refreshing the services of a group *)

(** A service of the catalogue under a host. *)
Definition hosted (c : catalogue) (id : N) (h : string) : Prop := ∃ r, r ∈ cat_services c ∧ s_ID r = id ∧ ServiceHost (preload c r) = h.

Lemma hosted_same c c' id h : same_hosts c c' → hosted c id h → hosted c' id h.
Proof. intros Hs (r & Hr & Hid & Hh). destruct (Hs r Hr) as (r' & ? & ? & ?). exists r'. split_and!; [done|congruence|congruence]. Qed.

Lemma hosted_fun c id h h' : catalog_wf c → hosted c id h → hosted c id h' → h = h'.
Proof. intros Hwf (r & Hr & Hid & <-) (r' & Hr' & Hid' & <-). by rewrite (row_unique c r r') by congruence. Qed.

Lemma refresh_step now seen ids st rest :
  catalog_wf (ad_cat st) → (∀ id, id ∈ ids → ∃ h, hosted (ad_cat st) id h) →
  (∃ hosts, stale_only hosts st ∧ ∀ h, h ∈ hosts → h ∈ rest ∨ ∃ id, id ∈ ids ∧ id ∉ seen ∧ hosted (ad_cat st) id h) →
  ∃ st', refresh_services now seen ids st = (true, st') ∧ stale_only rest st' ∧ catalog_wf (ad_cat st') ∧ same_hosts (ad_cat st) (ad_cat st').
Proof.
  revert seen st. induction ids as [|id ids IH]; intros seen st Hwf Hknown (hosts & Hst & Hcov); cbn [refresh_services].
  { exists st. split_and!; [done| |done|intros r Hr; by exists r]. eapply stale_weaken; [|exact Hst].
    intros h Hh. destruct (Hcov h Hh) as [|(id & Hid & _)]; [done|by apply elem_of_nil in Hid]. }
  destruct (Hknown id ltac:(by left)) as (h & r & Hr & Hid & Hh).
  assert ((id =? 0)%N = false) as -> by (apply N.eqb_neq; destruct (wf_service_next _ Hwf r Hr); lia). cbn [orb].
  destruct (existsb (N.eqb id) seen) eqn:Hseen.
  - apply IH; [done|intros i Hi; apply Hknown; by right|]. exists hosts. split; [done|]. intros h' Hh'.
    destruct (Hcov h' Hh') as [|(i & [->|Hi]%elem_of_cons & Hns & Hhi)]; [by left| |right; eauto].
    destruct Hns. apply existsb_exists in Hseen as (x & Hx & He). apply N.eqb_eq in He as ->. by apply list_elem_of_In.
  - assert (stale_only (h :: List.filter (λ x, negb (String.eqb x h)) hosts) st) as Hst'.
    { eapply stale_weaken; [|exact Hst]. intros x Hx. destruct (String.eqb_spec x h) as [->|Hne]; [by left|right].
      apply list_elem_of_In, List.filter_In. split; [by apply list_elem_of_In|]. by rewrite (proj2 (String.eqb_neq x h) Hne). }
    rewrite <-Hh in Hst' at 1. destruct (apply_step (now id) _ st r Hwf Hr Hst') as (s & st1 & Happ & Hst1 & Hwf1 & Hsame & _).
    rewrite Hid in Happ. rewrite Happ. destruct (IH (id :: seen) st1 Hwf1) as (st2 & ? & ? & ? & ?).
    + intros i Hi. destruct (Hknown i ltac:(by right)) as [hi Hhi]. exists hi. by eapply hosted_same.
    + eexists. split; [exact Hst1|]. intros x Hx. apply list_elem_of_In, List.filter_In in Hx as [Hx Hne].
      apply list_elem_of_In in Hx. destruct (Hcov x Hx) as [|(i & Hi & Hns & Hhi)]; [by left|right].
      apply negb_true_iff, String.eqb_neq in Hne. exists i. assert (i ≠ id) as Hii.
      { intros ->. destruct Hne. eapply hosted_fun; [exact Hwf|exact Hhi|]. by exists r. }
      apply elem_of_cons in Hi as [->|Hi]; [done|]. split_and!; [done| |by eapply hosted_same].
      intros [->|?]%elem_of_cons; done.
    + exists st2. split_and!; [done|done|done|by eapply same_hosts_trans].
Qed.

(** After a change of what some services are read with, refreshing them makes everything current. *)
Lemma refresh_all now ids st c :
  stale_only [] st → same_but (omap (λ id, ServiceHost <$> services_GetByID (joined c) id) ids) (joined (ad_cat st)) (joined c) →
  catalog_wf c → (∀ id, id ∈ ids → ∃ h, hosted c id h) →
  ∃ st', refreshServices now ids (set_cat st c) = (true, st') ∧ stale_only [] st' ∧ catalog_wf (ad_cat st').
Proof.
  intros Hst Hsame Hwf Hknown. set (hosts := omap _ ids) in Hsame.
  destruct (refresh_step now [] ids (set_cat st c) []) as (st' & ? & ? & ? & _); [done|done| |by exists st'].
  exists hosts. split; [apply set_cat_stale; [|done]; eapply stale_weaken; [|exact Hst]; intros h Hh; by apply elem_of_nil in Hh|].
  intros h Hh. right. unfold hosts in Hh. apply list_elem_of_omap in Hh as (id & Hid & Hh).
  destruct (services_GetByID (joined c) id) as [s|] eqn:Hg; [|done]. cbn in Hh. injection Hh as <-.
  apply GetByID_found in Hg as (r & Hr & -> & Hrid). exists id. split; [done|]. split; [apply not_elem_of_nil|]. by exists r.
Qed.

(** * Services *)

Definition current (st : admin_state) : Prop := stale_only [] st ∧ catalog_wf (ad_cat st).

Lemma ServiceHost_nonempty c r : catalog_wf c → r ∈ cat_services c → ServiceHost (preload c r) ≠ "".
Proof.
  intros Hwf Hr. destruct (domain_name c r Hwf Hr) as (d & _ & Hd & Hn). unfold ServiceHost. rewrite Hd.
  pose proof (ServiceHostname_suffix (d_Name d) (s_Subdomain (preload c r))) as Hs. cbv zeta in Hs.
  assert (ToLower (TrimSpace (d_Name d)) ≠ "") as Hne by (by rewrite ToLower_empty).
  destruct (Hs Hne) as [->|[prefix ->]]; [done|]. destruct prefix; done.
Qed.

Lemma member_replace c id gids g sid : sid ≠ id → member (ReplaceServiceGroups c id gids) g sid = member c g sid.
Proof.
  intros Hne. unfold member. apply bool_decide_ext. cbn. rewrite elem_of_app, list_elem_of_In, List.filter_In, <-list_elem_of_In. split.
  - intros [[? _]|(x & [= <- <-] & _)%list_elem_of_fmap]; done.
  - intros Hm. left. split; [done|]. cbn. by rewrite (proj2 (N.eqb_neq sid id) Hne).
Qed.

Lemma filter_ext_List {A} (p q : A → bool) l : (∀ x, p x = q x) → List.filter p l = List.filter q l.
Proof. intros Hpq. induction l as [|x l IH]; [done|]. cbn [List.filter]. by rewrite Hpq, IH. Qed.

Lemma preload_replace c id gids r : s_ID r ≠ id → preload (ReplaceServiceGroups c id gids) r = preload c r.
Proof.
  intros Hne. unfold preload. f_equal. cbn [ReplaceServiceGroups set_services cat_groups]. apply filter_ext_List. intros g. by apply member_replace.
Qed.

Lemma replace_same c id gids h :
  (∀ r, r ∈ cat_services c → s_ID r = id → ServiceHost (preload c r) = h) →
  same_but [h] (joined c) (joined (ReplaceServiceGroups c id gids)).
Proof.
  intros Hh. apply same_but_map. intros r Hr. destruct (decide (s_ID r = id)) as [He|Hne]; [right|left; by rewrite preload_replace].
  split; apply list_elem_of_singleton; by apply Hh.
Qed.

Lemma replace_wf c id gids : catalog_wf c → catalog_wf (ReplaceServiceGroups c id gids).
Proof. intros []. by split. Qed.

(** The groups and the deployment of a row that was just written. *)
Lemma deploy_step now groups hosts st r :
  catalog_wf (ad_cat st) → r ∈ cat_services (ad_cat st) → stale_only (ServiceHost (preload (ad_cat st) r) :: hosts) st →
  ∃ s st', deploy now (s_ID r) groups st = Some (s, st') ∧ stale_only hosts st' ∧ catalog_wf (ad_cat st') ∧
    ServiceHost s = ServiceHost (preload (ad_cat st) r).
Proof.
  intros Hwf Hr Hst. unfold deploy. destruct groups as [ids|]; cbv zeta.
  2: { destruct (apply_step (now (s_ID r)) hosts st r Hwf Hr Hst) as (s & st' & ? & ? & ? & _ & ? & _). eauto 10. }
  set (c := ad_cat st) in *. set (h := ServiceHost (preload c r)) in *. set (c2 := ReplaceServiceGroups c (s_ID r) ids).
  assert (ServiceHost (preload c2 r) = h) as Hh by done.
  destruct (apply_step (now (s_ID r)) hosts (set_cat st c2) r) as (s & st' & ? & ? & ? & _ & ? & _); [by apply replace_wf|done| |by exists s, st'].
  cbn [ad_cat set_cat]. rewrite Hh. apply set_cat_stale; [done|].
  assert (same_but [h] (joined c) (joined c2)) as Hsame.
  { apply replace_same. intros x Hx Hid. unfold h. by rewrite (row_unique c x r). }
  intros key Hk Hn. apply Hsame; [done|]. intros Hc. apply Hn. eapply covered_mono; [|exact Hc]. intros x ->%list_elem_of_singleton. by left.
Qed.

(** Writing a row and deploying it leaves at most the host it had before. *)
Lemma put_step now groups st r item :
  current st → r ∈ cat_services (ad_cat st) → s_ID r = s_ID item → is_Some (domains_GetByID (ad_cat st) (s_DomainID item)) →
  ∃ s st', deploy now (s_ID item) groups (set_cat st (put_row (ad_cat st) item)) = Some (s, st') ∧ catalog_wf (ad_cat st') ∧
    ServiceHost s = ServiceHost (preload (ad_cat st) item) ∧ stale_only [ServiceHost (preload (ad_cat st) r)] st' ∧
    (ServiceHost (preload (ad_cat st) r) = ServiceHost (preload (ad_cat st) item) → stale_only [] st').
Proof.
  intros [Hst Hwf] Hr Hid Hd. set (c := ad_cat st) in *. set (old := ServiceHost (preload c r)). set (new := ServiceHost (preload c item)).
  pose proof (put_row_wf c item r Hwf Hr Hid Hd) as Hwf1. pose proof (put_row_kept c item r Hr) as Hk.
  destruct (N.eqb_spec (s_ID r) (s_ID item)) as [_|]; [|done].
  assert (∀ hosts, old ∈ new :: hosts → ∃ s st', deploy now (s_ID item) groups (set_cat st (put_row c item)) = Some (s, st') ∧
            stale_only hosts st' ∧ catalog_wf (ad_cat st') ∧ ServiceHost s = new) as Hgo.
  { intros hosts Hold. destruct (deploy_step now groups hosts (set_cat st (put_row c item)) item) as (s & st' & ? & ? & ? & ?); [done|done| |by exists s, st'].
    cbn [ad_cat set_cat]. apply set_cat_stale; [eapply stale_weaken; [|exact Hst]; intros h Hh; by apply elem_of_nil in Hh|].
    apply (put_row_same c item _ r); [done|done|done|done|by left]. }
  destruct (Hgo [old] ltac:(right; by left)) as (s & st' & Hd' & Hst' & Hwf' & Hh). exists s, st'. split_and!; try done.
  intros Heq. destruct (Hgo [] ltac:(rewrite Heq; by left)) as (s2 & st2 & Hd2 & Hst2 & _). rewrite Hd' in Hd2. by injection Hd2 as -> ->.
Qed.

(** ** The handlers *)

Abbreviation create_service := (handleCreateService bcrypt_Generate gorm_string target_Parse resolveTargetHost valid_pem).
Abbreviation upsert_service := (handleUpsertService bcrypt_Generate gorm_string target_Parse resolveTargetHost valid_pem).
Abbreviation update_service := (handleUpdateService bcrypt_Generate target_Parse resolveTargetHost valid_pem).
Abbreviation checked := (checked_service target_Parse resolveTargetHost valid_pem).

Lemma need_ok_Ok {X E A} (m : result E A) a : need_ok (X := X) m = Ok a → m = Ok a.
Proof. unfold need_ok. destruct m; by intros [= ->]. Qed.

Lemma need_true {X} b u : need (X := X) b = Ok u → b = true.
Proof. by destruct b. Qed.

(** What a checked service is. *)
Lemma checked_service_Ok c req item out :
  checked c req item = Ok out →
  ∃ node hosts, out = with_login_hosts item hosts node ∧ NormalizeLoginHosts (s_LoginHosts item) = Ok hosts ∧
    target_ok target_Parse resolveTargetHost (s_TargetURL item) = true ∧ validateUpstreamCAPEM valid_pem (s_UpstreamCAPEM item) = true ∧
    validateAccessRules (s_AccessRules item) = true.
Proof.
  unfold checked_service. destruct (match s_NodeID item with Some n => Ok (Some n) | None => _ end) as [node|]; [|done]. cbn [result_bind].
  destruct (need (target_ok _ _ _)) as [[]|] eqn:Ht; [|done]. cbn [result_bind].
  destruct (need (validateUpstreamCAPEM _ _)) as [[]|] eqn:Hp; [|done]. cbn [result_bind].
  destruct (need (validateAccessRules _)) as [[]|] eqn:Hr; [|done]. cbn [result_bind].
  destruct (need_ok (NormalizeLoginHosts _)) as [hosts|] eqn:Hh; [|done]. cbn [result_bind]. intros [= <-].
  exists node, hosts. split_and!; [done|by eapply need_ok_Ok|by eapply need_true..].
Qed.

Lemma create_row_same c item gids :
  catalog_wf c → is_Some (domains_GetByID c (s_DomainID item)) →
  let id := nextService c in let c1 := (services_Create gorm_string c item).2 in let c2 := ReplaceServiceGroups c1 id gids in
  let row := inserted_service gorm_string id item in
  catalog_wf c1 ∧ row ∈ cat_services c1 ∧ same_but [ServiceHost (preload c2 row)] (joined c) (joined c2).
Proof.
  intros Hwf Hd id c1 c2 row. split_and!.
  - destruct Hwf. split; try done; cbn [c1 services_Create snd set_services cat_services cat_domains nextService].
    + rewrite map_app. cbn [map]. apply NoDup_app. split_and!; [done| |apply NoDup_singleton].
      intros x (r & -> & Hr)%list_elem_of_fmap He%list_elem_of_singleton. destruct (wf_service_next0 r Hr). cbn in He. lia.
    + intros s [Hs|Hs]%elem_of_app; [destruct (wf_service_next0 s Hs); lia|]. apply list_elem_of_singleton in Hs as ->. cbn. lia.
    + intros s [Hs|Hs]%elem_of_app; [by apply wf_service_domain0|]. apply list_elem_of_singleton in Hs as ->. exact Hd.
    + lia.
  - cbn. apply elem_of_app. right. by apply list_elem_of_singleton.
  - unfold joined at 2. cbn [c2 c1 services_Create ReplaceServiceGroups snd set_services cat_services]. rewrite map_app. cbn [map].
    assert (map (preload c2) (cat_services c) = joined c) as ->; [|apply same_but_snoc; by apply list_elem_of_singleton].
    apply map_ext_in. intros r Hr%list_elem_of_In. transitivity (preload c1 r); [|done]. apply preload_replace.
    destruct (wf_service_next c Hwf r Hr). unfold id. lia.
Qed.

(** A new service. *)
Lemma create_step now gids st item :
  current st → is_Some (domains_GetByID (ad_cat st) (s_DomainID item)) →
  let '(id, c) := services_Create gorm_string (ad_cat st) item in
  ∃ s st', deploy now id (Some gids) (set_cat st c) = Some (s, st') ∧ current st'.
Proof.
  intros [Hst Hwf] Hd. unfold services_Create.
  destruct (create_row_same (ad_cat st) item gids Hwf Hd) as (Hwf1 & Hrow & Hsame). cbv zeta in *.
  set (c1 := (services_Create gorm_string (ad_cat st) item).2) in *. set (id := nextService (ad_cat st)) in *.
  set (row := inserted_service gorm_string id item) in *. set (c2 := ReplaceServiceGroups c1 id gids) in *.
  change (set_services (ad_cat st) (cat_services (ad_cat st) ++ [row]) (cat_members (ad_cat st)) (id + 1)) with c1.
  unfold deploy. cbv zeta. change (ad_cat (set_cat st c1)) with c1. fold c2.
  destruct (apply_step (now id) [] (set_cat (set_cat st c1) c2) row) as (s & st' & Ha & Hst' & Hwf' & _); [by apply replace_wf|done| |].
  { change (set_cat (set_cat st c1) c2) with (set_cat st c2). cbn [ad_cat set_cat]. apply set_cat_stale; [|done].
    eapply stale_weaken; [|exact Hst]. intros h Hh. by apply elem_of_nil in Hh. }
  exists s, st'. by split.
Qed.

Lemma create_service_current now req st : current st → current (create_service now req st).2.
Proof.
  intros Hcur. unfold handleCreateService. cbv zeta. destruct (domains_GetByID (ad_cat st) (sr_DomainID req)) as [d|] eqn:Hd; [|done].
  destruct (try subdomain <- need_ok (NormalizeSubdomain (sr_Subdomain req)) ; _) as [item|] eqn:Hi; [|done].
  assert (s_DomainID item = sr_DomainID req) as Hdom.
  { destruct (need_ok (NormalizeSubdomain (sr_Subdomain req))); [|done]. by apply checked_service_Ok in Hi as (? & ? & -> & _). }
  assert (is_Some (domains_GetByID (ad_cat st) (s_DomainID item))) as Hsome by (rewrite Hdom; by exists d).
  pose proof (create_step now (sr_ServiceGroupIDs req) st item Hcur Hsome) as Hs.
  destruct (services_Create gorm_string (ad_cat st) item) as [id c]. destruct Hs as (s & st' & Hdep & Hcur'). by rewrite Hdep.
Qed.

Lemma update_service_current now id req st : current st → current (update_service now id req st).2.
Proof.
  intros Hcur. unfold handleUpdateService. destruct (services_GetByID (joined (ad_cat st)) id) as [loaded|] eqn:Hg; [|done].
  apply GetByID_found in Hg as (r & Hr & -> & Hid). cbv zeta.
  destruct (updated_service _ _ _ _ _ _ _) as [item|] eqn:Hu; [|done].
  assert (s_ID item = s_ID r ∧ s_ServiceGroups item = s_ServiceGroups (preload (ad_cat st) r) ∧ is_Some (domains_GetByID (ad_cat st) (s_DomainID item)))
    as (Hsid & Hgroups & Hdom).
  { unfold updated_service in Hu.
    destruct (match su_DomainID req with None => _ | Some d => _ end) as [domainID|] eqn:Hd; [|done]. cbn [result_bind] in Hu.
    assert (is_Some (domains_GetByID (ad_cat st) domainID)) as Hsome.
    { destruct (su_DomainID req) as [d|]; [destruct (domains_GetByID (ad_cat st) d) eqn:Hx; [|done]; injection Hd as <-; by rewrite Hx|].
      injection Hd as <-. by apply (wf_service_domain _ (proj2 Hcur)). }
    repeat match type of Hu with result_bind ?m _ = _ => destruct m; [|done]; cbn [result_bind] in Hu end.
    injection Hu as <-. done. }
  rewrite services_Update_row by (intros g Hgr; rewrite Hsid; rewrite Hgroups in Hgr; by apply preload_groups).
  destruct (put_step now (su_ServiceGroupIDs req) st r item Hcur Hr (eq_sym Hsid) Hdom) as (s & st' & Hdep & Hwf' & Hh & Hst' & Hsame).
  rewrite Hdep. cbn [snd]. rewrite (proj2 (non_empty_true _) (ServiceHost_nonempty _ r (proj2 Hcur) Hr)). cbn [andb].
  rewrite Hh. destruct (String.eqb_spec (ServiceHost (preload (ad_cat st) item)) (ServiceHost (preload (ad_cat st) r))) as [He|Hne]; cbn [negb].
  - split; [by apply Hsame|done].
  - split; [by apply invalidate_stale|done].
Qed.

Lemma upsert_service_current now req st : current st → current (upsert_service now req st).2.
Proof.
  intros Hcur. unfold handleUpsertService. cbv zeta. destruct (domains_GetByID (ad_cat st) (sr_DomainID req)) as [d|] eqn:Hd; [|done].
  destruct (need_ok (NormalizeSubdomain (sr_Subdomain req))) as [subdomain|]; [|done]. cbn [result_bind].
  destruct (services_FindByRoute (ad_cat st) (sr_DomainID req) subdomain (sr_Path req)) as [e|] eqn:He.
  - destruct (checked _ _ _) as [item|] eqn:Hi; [|done]. cbn [result_bind]. apply checked_service_Ok in Hi as (node & hosts & -> & _).
    unfold services_FindByRoute in He. apply List.find_some in He as [Hin Hroute]. apply list_elem_of_In, joined_elem in Hin as (r & Hr & ->).
    rewrite !andb_true_iff, !N.eqb_eq, !String.eqb_eq in Hroute. destruct Hroute as [[Hdom Hsub] _].
    match goal with |- context [services_Update _ ?i] => set (item := i) end.
    rewrite services_Update_row by (intros g Hg; by apply elem_of_nil in Hg).
    destruct (put_step now (Some (sr_ServiceGroupIDs req)) st r item Hcur Hr) as (s & st' & Hdep & Hwf' & _ & _ & Hst'); [done|by exists d|].
    change (s_ID (preload (ad_cat st) r)) with (s_ID item). rewrite Hdep. split; [|done]. apply Hst'.
    unfold ServiceHost, preload. cbn. by rewrite <-Hdom, <-Hsub.
  - destruct (checked _ _ _) as [item|] eqn:Hi; [|done]. cbn [result_bind]. apply checked_service_Ok in Hi as (node & hosts & -> & _).
    match goal with |- context [services_Create gorm_string (ad_cat st) ?i] => pose proof (create_step now (sr_ServiceGroupIDs req) st i Hcur) as Hs;
      destruct (services_Create gorm_string (ad_cat st) i) as [id c] end.
    destruct Hs as (s & st' & Hdep & Hcur'); [by exists d|]. by rewrite Hdep.
Qed.

Lemma delete_service_current deletable id st : current st → current (handleDeleteService deletable id st).2.
Proof.
  intros [Hst Hwf]. unfold handleDeleteService. destruct (services_GetByID (joined (ad_cat st)) id) as [loaded|] eqn:Hg; [|done].
  apply GetByID_found in Hg as (r & Hr & -> & Hid). destruct deletable; cbn [negb snd]; [|done].
  set (c := ad_cat st) in *. rewrite preload_id. split.
  - apply invalidate_stale, set_cat_stale; [eapply stale_weaken; [|exact Hst]; intros h Hh; by apply elem_of_nil in Hh|]. fold c.
    assert (joined (services_Delete c (s_ID r)) = List.filter (λ s, negb (N.eqb (s_ID s) (s_ID r))) (joined c)) as ->.
    { unfold joined. change (preload (services_Delete c (s_ID r))) with (preload c). cbn [services_Delete set_services cat_services].
      generalize (cat_services c) as l. clear. induction l as [|x l IH]; [done|]. cbn [List.filter map].
      rewrite preload_id. destruct (negb _); cbn [map]; by rewrite IH. }
    apply same_but_remove. intros s (x & Hx & ->)%joined_elem Hne%negb_false_iff%N.eqb_eq. apply list_elem_of_singleton.
    by rewrite (row_unique c x r).
  - destruct Hwf. assert (∀ s, s ∈ cat_services (services_Delete c (s_ID r)) → s ∈ cat_services c) as Hsub.
    { intros s Hs. cbn in Hs. apply list_elem_of_In, List.filter_In in Hs as [Hs _]. by apply list_elem_of_In. }
    split; try done; [|intros s Hs; apply (wf_service_next0 s), Hsub, Hs|intros s Hs; apply (wf_service_domain0 s), Hsub, Hs].
    cbn. clear -wf_service_ids0. induction (cat_services c) as [|x l IH]; [done|]. cbn [map] in *.
    apply NoDup_cons in wf_service_ids0 as [Hni Hnd]. cbn [List.filter]. destruct (negb _); cbn [map]; [|by apply IH].
    apply NoDup_cons. split; [|by apply IH]. intros (y & He & Hy)%list_elem_of_fmap. apply Hni. rewrite He.
    apply list_elem_of_fmap_2. apply list_elem_of_In, List.filter_In in Hy as [Hy _]. by apply list_elem_of_In.
Qed.

Lemma redeploy_current now id st : current st → current (handleRedeployService now id st).2.
Proof.
  intros [Hst Hwf]. unfold handleRedeployService. destruct (services_GetByID (joined (ad_cat st)) id) as [s|] eqn:Hg.
  - apply GetByID_found in Hg as (r & Hr & -> & <-).
    destruct (apply_step (now (s_ID r)) [] st r Hwf Hr) as (s' & st' & -> & Hst' & Hwf' & _); [|done].
    eapply stale_weaken; [|exact Hst]. intros h Hh. by apply elem_of_nil in Hh.
  - unfold ApplyServiceChange. by rewrite Hg.
Qed.

(** * Domains *)

Lemma find_snoc_none {A} (p : A → bool) l x : p x = false → List.find p (l ++ [x]) = List.find p l.
Proof. intros Hx. induction l as [|y l IH]; cbn; [by rewrite Hx|]. by rewrite IH. Qed.

Lemma create_domain_current req st :
  TrimSpace (dr_Name req) ≠ "" → current st → current (handleCreateDomain req st).2.
Proof.
  intros Hname [Hst Hwf]. unfold handleCreateDomain, domains_Create. destruct (existsb _ _); [done|]. cbn [snd]. set (c := ad_cat st) in *.
  match goal with |- current (set_cat st ?x) => set (c' := x) end.
  assert (∀ id, (id < nextDomain c)%N → domains_GetByID c' id = domains_GetByID c id) as Hget.
  { intros id Hid. apply find_snoc_none. cbn. apply N.eqb_neq. lia. }
  assert (∀ r, r ∈ cat_services c → domains_GetByID c' (s_DomainID r) = domains_GetByID c (s_DomainID r)) as Hrow.
  { intros r Hr. destruct (wf_service_domain c Hwf r Hr) as [d Hd]. apply Hget. unfold domains_GetByID in Hd. apply List.find_some in Hd as [Hin He].
    apply N.eqb_eq in He as <-. apply (wf_domain_next c Hwf). by apply list_elem_of_In. }
  split.
  - apply set_cat_stale; [done|]. apply same_but_map. intros r Hr. left. unfold preload. fold c. by rewrite Hrow.
  - destruct Hwf. split; try done; cbn [c' set_cat ad_cat set_domains cat_domains cat_services nextDomain].
    + intros d [Hd|Hd]%elem_of_app; [by apply wf_names0|]. apply list_elem_of_singleton in Hd as ->. cbn [d_Name].
      unfold normalizeHostname. rewrite TrimSpace_ToLower, TrimSpace_idem, ToLower_empty. exact Hname.
    + rewrite map_app. apply NoDup_app. split_and!; [done| |apply NoDup_singleton].
      intros x (d & -> & Hd)%list_elem_of_fmap Hx%list_elem_of_singleton. specialize (wf_domain_next0 d Hd). cbn in Hx. fold c in wf_domain_next0. lia.
    + intros d [Hd|Hd]%elem_of_app; [specialize (wf_domain_next0 d Hd); lia|]. apply list_elem_of_singleton in Hd as ->. cbn. fold c. lia.
    + intros s Hs. rewrite Hrow by done. by apply wf_service_domain0.
Qed.

Lemma ServiceHostname_normal name sub : ServiceHostname (normalizeHostname name) sub = ServiceHostname name sub.
Proof. unfold ServiceHostname, normalizeHostname. by rewrite TrimSpace_ToLower, TrimSpace_idem, ToLower_idem. Qed.

Lemma domain_hosts_elem previous current services s h :
  s ∈ services → h ≠ "" → h = ServiceHostname previous (s_Subdomain s) ∨ h = ServiceHostname current (s_Subdomain s) →
  h ∈ domain_hosts previous current services.
Proof.
  intros Hs Hne Hh. unfold domain_hosts. apply elem_of_elements, elem_of_list_to_set, list_elem_of_In, List.filter_In.
  split; [|by apply non_empty_true]. apply list_elem_of_In.
  assert (normalizeHostname h = h) as <- by (destruct Hh as [->| ->]; apply ServiceHostname_canonical).
  apply list_elem_of_fmap_2, elem_of_cons. right. apply elem_of_cons. right. apply list_elem_of_In, List.in_flat_map. exists s.
  split; [by apply list_elem_of_In|]. cbn. destruct Hh; auto.
Qed.

Lemma find_replaced (item : DomainRow) id l :
  (id = d_ID item → is_Some (List.find (λ d, N.eqb (d_ID d) id) l)) →
  List.find (λ d, N.eqb (d_ID d) id) (map (λ d, if N.eqb (d_ID d) (d_ID item) then item else d) l) =
  if N.eqb id (d_ID item) then Some item else List.find (λ d, N.eqb (d_ID d) id) l.
Proof.
  intros Hsome. induction l as [|d l IH]; cbn [map List.find] in *; [destruct (N.eqb_spec id (d_ID item)); [by destruct Hsome|done]|].
  destruct (N.eqb_spec (d_ID d) (d_ID item)) as [He|Hne].
  - rewrite He in *. destruct (N.eqb_spec (d_ID item) id) as [->|Hn]; [by rewrite N.eqb_refl|]. by apply IH.
  - destruct (N.eqb_spec (d_ID d) id) as [<-|]; [by rewrite (proj2 (N.eqb_neq _ _) Hne)|]. by apply IH.
Qed.

(** The end of the handlers that change a domain: [old] is the row they read. *)
Lemma save_domain_current previous old item st :
  current st → domains_GetByID (ad_cat st) (d_ID item) = Some old → normalizeHostname previous = normalizeHostname (d_Name old) →
  TrimSpace (d_Name item) ≠ "" →
  current (save_domain previous (services_ListByDomainID (ad_cat st) (d_ID item)) item st).2.
Proof.
  intros [Hst Hwf] Hold Hprev Hname. unfold save_domain, domains_Update. destruct (existsb _ _); [done|]. cbn [snd]. set (c := ad_cat st) in *.
  set (c' := set_domains c _ _).
  assert (∀ id, domains_GetByID c' id = if N.eqb id (d_ID item) then Some item else domains_GetByID c id) as Hget.
  { intros id. apply find_replaced. intros ->. by exists old. }
  assert (catalog_wf c') as Hwf'.
  { assert (∀ d, d ∈ cat_domains c' → (d = item) ∨ d ∈ cat_domains c) as Hel.
    { cbn. intros d (x & -> & Hx)%list_elem_of_fmap. destruct (N.eqb _ _); auto. }
    assert (d_ID item = d_ID old ∧ old ∈ cat_domains c) as [Hido Hin].
    { unfold domains_GetByID in Hold. apply List.find_some in Hold as [Hin He]. apply N.eqb_eq in He. split; [done|by apply list_elem_of_In]. }
    destruct Hwf. split; try done.
    - intros d [->|Hd]%Hel; [done|by apply wf_names0].
    - cbn. rewrite map_map. erewrite map_ext; [exact wf_domain_ids0|]. intros d. by destruct (N.eqb_spec (d_ID d) (d_ID item)).
    - intros d [->|Hd]%Hel; [rewrite Hido|]; by apply wf_domain_next0.
    - intros s Hs. rewrite Hget. destruct (N.eqb _ _); [done|]. by apply wf_service_domain0. }
  unfold invalidateServiceHostsForDomain. split; [|by rewrite invalidate_cat]. apply invalidate_list. rewrite app_nil_r.
  apply set_cat_stale; [eapply stale_weaken; [|exact Hst]; intros h Hh; by apply elem_of_nil in Hh|]. fold c.
  apply same_but_map. intros r Hr. destruct (N.eqb_spec (s_DomainID r) (d_ID item)) as [He|Hne];
    [right|left; unfold preload; by rewrite Hget, (proj2 (N.eqb_neq _ _) Hne)].
  assert (preload c r ∈ services_ListByDomainID c (d_ID item)) as Hin.
  { apply list_elem_of_In, List.filter_In. split; [apply list_elem_of_In, joined_elem; eauto|]. cbn. by apply N.eqb_eq. }
  assert (ServiceHost (preload c r) = ServiceHostname previous (s_Subdomain (preload c r))) as Hh1.
  { unfold ServiceHost, preload. cbn. rewrite He, Hold. cbn. by rewrite <-ServiceHostname_normal, <-Hprev, ServiceHostname_normal. }
  assert (ServiceHost (preload c' r) = ServiceHostname (d_Name item) (s_Subdomain (preload c r))) as Hh2.
  { unfold ServiceHost, preload. cbn -[domains_GetByID]. by rewrite Hget, He, N.eqb_refl. }
  split; apply (domain_hosts_elem _ _ _ _ _ Hin); [by apply ServiceHost_nonempty|by left|by apply ServiceHost_nonempty|by right].
Qed.

Lemma domain_by_id c d : catalog_wf c → d ∈ cat_domains c → domains_GetByID c (d_ID d) = Some d.
Proof.
  intros Hwf. pose proof (wf_domain_ids c Hwf) as Hnd. unfold domains_GetByID. revert Hnd. generalize (cat_domains c) as l. clear.
  induction l as [|x l IH]; intros Hnd Hd; [by apply elem_of_nil in Hd|]. cbn [map List.find] in *. apply NoDup_cons in Hnd as [Hni Hnd].
  apply elem_of_cons in Hd as [->|Hd]; [by rewrite N.eqb_refl|].
  destruct (N.eqb_spec (d_ID x) (d_ID d)) as [He|]; [|by apply IH]. destruct Hni. rewrite He. by apply list_elem_of_fmap_2.
Qed.

Lemma normalizeHostname_idem v : normalizeHostname (normalizeHostname v) = normalizeHostname v.
Proof. apply canonical_host_intro. Qed.

Lemma update_domain_current id req st :
  match du_Name req with Some v => TrimSpace v ≠ "" | None => True end → current st → current (handleUpdateDomain id req st).2.
Proof.
  intros Hv Hcur. unfold handleUpdateDomain. destruct (domains_GetByID (ad_cat st) id) as [d|] eqn:Hd; [|done].
  pose proof Hd as [Hin He]%List.find_some. apply N.eqb_eq in He. apply list_elem_of_In in Hin.
  match goal with |- current (save_domain _ _ ?i _).2 => set (item := i) end. change (d_ID d) with (d_ID item).
  apply (save_domain_current _ d); [done| |by rewrite normalizeHostname_idem|].
  - change (d_ID item) with (d_ID d). by rewrite He.
  - unfold item. cbn [d_Name]. destruct (du_Name req) as [v|]; [|by apply (wf_names _ (proj2 Hcur))].
    unfold normalizeHostname. by rewrite TrimSpace_ToLower, TrimSpace_idem, ToLower_empty.
Qed.

Lemma upsert_domain_current req st : TrimSpace (dr_Name req) ≠ "" → current st → current (handleUpsertDomain req st).2.
Proof.
  intros Hv Hcur. unfold handleUpsertDomain. cbv zeta. destruct (domains_GetByName (ad_cat st) _) as [d|] eqn:Hd; [|by apply create_domain_current].
  pose proof Hd as [Hin He]%List.find_some. apply String.eqb_eq in He. apply list_elem_of_In in Hin.
  match goal with |- current (save_domain _ _ ?i _).2 => set (item := i) end. change (d_ID d) with (d_ID item).
  apply (save_domain_current _ d); [done| | |].
  - change (d_ID item) with (d_ID d). apply domain_by_id; [apply Hcur|done].
  - by rewrite He.
  - change (d_Name item) with (d_Name d). by apply (wf_names _ (proj2 Hcur)).
Qed.

Lemma find_removed id x l : x ≠ id →
  List.find (λ d, N.eqb (d_ID d) x) (List.filter (λ d, negb (N.eqb (d_ID d) id)) l) = List.find (λ d, N.eqb (d_ID d) x) l.
Proof.
  intros Hne. induction l as [|d l IH]; [done|]. cbn [List.filter List.find]. destruct (N.eqb_spec (d_ID d) id) as [He|]; cbn [negb List.find].
  - rewrite IH, He. by rewrite (proj2 (N.eqb_neq id x)) by done.
  - by rewrite IH.
Qed.

Lemma delete_domain_current deletable id st : current st → current (handleDeleteDomain deletable id st).2.
Proof.
  intros [Hst Hwf]. unfold handleDeleteDomain. destruct (domains_GetByID (ad_cat st) id) as [d|]; [|done]. cbv zeta.
  unfold domains_Delete. destruct (existsb (λ s, N.eqb (s_DomainID s) (d_ID d)) (cat_services (ad_cat st))) eqn:Hno; [done|].
  destruct deletable; cbn [orb negb]; [|done]. cbn [snd]. set (c := ad_cat st) in *. set (c' := set_domains c _ _).
  assert (∀ r, r ∈ cat_services c → domains_GetByID c' (s_DomainID r) = domains_GetByID c (s_DomainID r)) as Hget.
  { intros r Hr. apply find_removed. intros He. apply (proj1 (existsb_false_elem _ _) Hno) in Hr. by rewrite He, N.eqb_refl in Hr. }
  unfold invalidateServiceHostsForDomain. split; [|rewrite invalidate_cat].
  - apply invalidate_list. rewrite app_nil_r. apply set_cat_stale; [eapply stale_weaken; [|exact Hst]; intros h Hh; by apply elem_of_nil in Hh|].
    fold c. apply same_but_map. intros r Hr. left. unfold preload. by rewrite Hget.
  - cbn [ad_cat set_cat]. assert (∀ x, x ∈ cat_domains c' → x ∈ cat_domains c) as Hsub.
    { intros x Hx. apply list_elem_of_In, List.filter_In in Hx as [Hx _]. by apply list_elem_of_In. }
    destruct Hwf. split; try done.
    + intros x Hx. by apply wf_names0, Hsub.
    + cbn. clear -wf_domain_ids0. induction (cat_domains c) as [|x l IH]; [done|]. cbn [map] in *.
      apply NoDup_cons in wf_domain_ids0 as [Hni Hnd]. cbn [List.filter]. destruct (negb _); cbn [map]; [|by apply IH].
      apply NoDup_cons. split; [|by apply IH]. intros (y & He & Hy)%list_elem_of_fmap. apply Hni. rewrite He.
      apply list_elem_of_fmap_2. apply list_elem_of_In, List.filter_In in Hy as [Hy _]. by apply list_elem_of_In.
    + intros x Hx. by apply wf_domain_next0, Hsub.
    + intros s Hs. rewrite Hget by done. by apply wf_service_domain0.
Qed.

(** * Service groups *)

(** A change of the groups alone. *)
Definition regrouped (c c' : catalogue) : Prop :=
  cat_services c' = cat_services c ∧ cat_domains c' = cat_domains c ∧ cat_nodes c' = cat_nodes c ∧ nextDomain c' = nextDomain c ∧
  nextService c' = nextService c ∧ ∀ g, g ∈ cat_groups c' → (sg_ID g < nextGroup c')%N.

Definition groups_of (c : catalogue) (id : N) : list ServiceGroup := List.filter (λ g, member c (sg_ID g) id) (cat_groups c).

Lemma regrouped_wf c c' : regrouped c c' → catalog_wf c → catalog_wf c'.
Proof.
  intros (Hs & Hd & Hn & Hnd & Hns & Hg) [].
  split; [rewrite Hd|rewrite Hd|rewrite Hd, Hnd|rewrite Hs|rewrite Hs, Hns| |exact Hg|rewrite Hns]; try done.
  rewrite Hs. unfold domains_GetByID in *. by rewrite Hd.
Qed.

Lemma regrouped_preload c c' r : regrouped c c' → groups_of c (s_ID r) = groups_of c' (s_ID r) → preload c r = preload c' r.
Proof.
  intros (_ & Hd & Hn & _) Hg. unfold preload, domains_GetByID. unfold groups_of in Hg. rewrite Hg, Hd. f_equal.
  destruct (s_NodeID r) as [n|]; [|done]. unfold node_row. cbn. by rewrite Hn.
Qed.

Lemma regrouped_host c c' r : regrouped c c' → ServiceHost (preload c' r) = ServiceHost (preload c r).
Proof. intros (_ & Hd & _). unfold ServiceHost, preload, domains_GetByID. cbn. by rewrite Hd. Qed.

(** Refreshing the services whose groups changed makes every cached route current. *)
Lemma group_change now ids st c :
  current st → regrouped (ad_cat st) c →
  (∀ r, r ∈ cat_services c → groups_of (ad_cat st) (s_ID r) = groups_of c (s_ID r) ∨ s_ID r ∈ ids) →
  (∀ id, id ∈ ids → ∃ r, r ∈ cat_services c ∧ s_ID r = id) →
  current (refreshServices now ids (set_cat st c)).2.
Proof.
  intros [Hst Hwf] Hre Hgr Hids. pose proof (regrouped_wf _ _ Hre Hwf) as Hwf'.
  destruct (refresh_all now ids st c Hst) as (st' & -> & ? & ?); [|done| |by split].
  - unfold joined. rewrite <-(proj1 Hre). apply same_but_map. intros r Hr. destruct (Hgr r Hr) as [Heq|Hin]; [left; by apply regrouped_preload|right].
    rewrite <-(regrouped_host _ _ r Hre).
    assert (ServiceHost (preload c r) ∈ omap (λ id, ServiceHost <$> services_GetByID (joined c) id) ids) as Hh; [|by split].
    apply list_elem_of_omap. exists (s_ID r). split; [done|]. fold (joined c). by rewrite service_by_id.
  - intros id Hid. destruct (Hids id Hid) as (r & Hr & He). eexists _, r. by split_and!.
Qed.

(** The groups changed, but those of no stored service. *)
Lemma group_silent st c :
  current st → regrouped (ad_cat st) c → (∀ r, r ∈ cat_services c → groups_of (ad_cat st) (s_ID r) = groups_of c (s_ID r)) → current (set_cat st c).
Proof.
  intros Hcur Hre Hgr. apply (group_change (λ _, 0%Z) []); [done|done|intros; left; auto|]. intros id Hid. by apply elem_of_nil in Hid.
Qed.

Lemma group_members c id g ms :
  serviceGroups_GetByID c id = Some (g, ms) →
  g ∈ cat_groups c ∧ sg_ID g = id ∧ ∀ r, r ∈ cat_services c → (s_ID r ∈ map s_ID ms ↔ member c id (s_ID r) = true).
Proof.
  unfold serviceGroups_GetByID. destruct (List.find _ _) as [x|] eqn:Hf; [|done]. cbn. intros [= -> <-].
  apply List.find_some in Hf as [Hin He%N.eqb_eq]. split_and!; [by apply list_elem_of_In|done|]. intros r Hr. rewrite He. split.
  - intros (s & Hid & Hs)%list_elem_of_fmap. apply list_elem_of_In, List.filter_In in Hs as [_ Hm]. by rewrite Hid.
  - intros Hm. apply list_elem_of_fmap. exists (preload c r). split; [done|]. apply list_elem_of_In, List.filter_In.
    split; [|done]. apply list_elem_of_In, joined_elem. eauto.
Qed.

Lemma members_rows c id g ms i : serviceGroups_GetByID c id = Some (g, ms) → i ∈ map s_ID ms → ∃ r, r ∈ cat_services c ∧ s_ID r = i.
Proof.
  unfold serviceGroups_GetByID. destruct (List.find _ _) as [x|]; [|done]. cbn. intros [= -> <-] (s & -> & Hs)%list_elem_of_fmap.
  apply list_elem_of_In, List.filter_In in Hs as [Hs _]. apply list_elem_of_In, joined_elem in Hs as (r & Hr & ->). eauto.
Qed.

(** ** What the writes of the join table change *)

Lemma member_ReplaceServices c id ids g sid : g ≠ id → member (ReplaceServices c id ids) g sid = member c g sid.
Proof.
  intros Hne. unfold member. apply bool_decide_ext. cbn. rewrite elem_of_app, list_elem_of_In, List.filter_In, <-list_elem_of_In. split.
  - intros [[? _]|(x & [= <- <-] & _)%list_elem_of_fmap]; done.
  - intros Hm. left. split; [done|]. cbn. by rewrite (proj2 (N.eqb_neq g id) Hne).
Qed.

Lemma member_AddService c id sid g s : (g, s) ≠ (id, sid) → member (AddService c id sid) g s = member c g s.
Proof. intros Hne. unfold member. apply bool_decide_ext. cbn. rewrite elem_of_app, list_elem_of_singleton. tauto. Qed.

Lemma member_RemoveService c id sid g s : (g, s) ≠ (id, sid) → member (RemoveService c id sid) g s = member c g s.
Proof.
  intros Hne. unfold member. apply bool_decide_ext. cbn. rewrite list_elem_of_In, List.filter_In, <-list_elem_of_In. cbn.
  split; [by intros [? _]|]. intros Hm. split; [done|]. apply negb_true_iff, andb_false_iff.
  destruct (N.eqb_spec g id) as [->|]; [|by left]. right. apply N.eqb_neq. by intros ->.
Qed.

Lemma filter_ext_elem {A} (p q : A → bool) l : (∀ x, x ∈ l → p x = q x) → List.filter p l = List.filter q l.
Proof.
  induction l as [|x l IH]; intros Hpq; [done|]. cbn [List.filter]. rewrite IH by (intros; apply Hpq; by right). by rewrite Hpq by (by left).
Qed.

Lemma filter_removed {A} (p q : A → bool) l : (∀ x, q x = false → p x = false) → List.filter p (List.filter q l) = List.filter p l.
Proof.
  intros Hq. induction l as [|x l IH]; [done|]. cbn [List.filter]. destruct (q x) eqn:Hx; cbn [List.filter]; [by rewrite IH|]. by rewrite (Hq x Hx).
Qed.

Lemma groups_of_ext c c' sid :
  cat_groups c' = cat_groups c → (∀ g, g ∈ cat_groups c → member c' (sg_ID g) sid = member c (sg_ID g) sid) → groups_of c sid = groups_of c' sid.
Proof. intros Hg Hm. unfold groups_of. rewrite Hg. apply filter_ext_elem. intros g Hin. by rewrite Hm. Qed.

(** ** The handlers of groups *)

Lemma add_service_current now id sid st : current st → current (handleAddServiceGroupService now id sid st).2.
Proof.
  intros Hcur. unfold handleAddServiceGroupService. destruct (services_GetByID (joined (ad_cat st)) sid) as [s|] eqn:Hs; [|done]. cbv zeta.
  set (c := ad_cat st). assert (regrouped c (AddService c id sid)) as Hre by (destruct Hcur as [_ []]; by split_and!).
  destruct (serviceGroups_GetByID (AddService c id sid) id) eqn:Hg; cbn [snd refreshed].
  - apply group_change; [done|done| |].
    + intros r _. destruct (decide (s_ID r = sid)) as [->|Hne]; [right; by left|left]. apply groups_of_ext; [done|].
      intros g _. apply member_AddService. congruence.
    + intros i ->%list_elem_of_singleton. apply GetByID_found in Hs as (r & Hr & _ & He). by exists r.
  - apply group_silent; [done|done|]. intros r _. apply groups_of_ext; [done|]. intros g Hin. apply member_AddService. intros [= He _].
    unfold serviceGroups_GetByID in Hg. destruct (List.find _ _) eqn:Hf; [done|].
    apply list_elem_of_In, (List.find_none _ _ Hf) in Hin. by rewrite He, N.eqb_refl in Hin.
Qed.

Lemma refresh_none now id st : services_GetByID (joined (ad_cat st)) id = None → (refreshServices now [id] st).2 = st.
Proof.
  intros Hn. unfold refreshServices. cbn [refresh_services existsb]. destruct (_ || _); [done|]. unfold ApplyServiceChange. by rewrite Hn.
Qed.

Lemma remove_service_current now id sid st : current st → current (handleDeleteServiceGroupService now id sid st).2.
Proof.
  intros Hcur. unfold handleDeleteServiceGroupService. cbn [refreshed snd]. set (c := ad_cat st).
  assert (regrouped c (RemoveService c id sid)) as Hre by (destruct Hcur as [_ []]; by split_and!).
  assert (∀ r, s_ID r ≠ sid → groups_of c (s_ID r) = groups_of (RemoveService c id sid) (s_ID r)) as Hgr.
  { intros r Hne. apply groups_of_ext; [done|]. intros g _. apply member_RemoveService. congruence. }
  destruct (services_GetByID (joined (RemoveService c id sid)) sid) as [s|] eqn:Hs.
  - apply group_change; [done|done| |].
    + intros r _. destruct (decide (s_ID r = sid)) as [->|Hne]; [right; by left|left; auto].
    + intros i ->%list_elem_of_singleton. apply GetByID_found in Hs as (r & Hr & _ & He). by exists r.
  - rewrite refresh_none by exact Hs. apply group_silent; [done|done|]. intros r Hr. apply Hgr. intros He.
    pose proof (service_by_id _ r (regrouped_wf _ _ Hre (proj2 Hcur)) Hr) as Hrow. rewrite He in Hrow. congruence.
Qed.

Lemma delete_group_current now deletable id st : current st → current (handleDeleteServiceGroup now deletable id st).2.
Proof.
  intros Hcur. unfold handleDeleteServiceGroup. destruct (serviceGroups_GetByID (ad_cat st) id) as [[g ms]|] eqn:Hg; [|done].
  unfold serviceGroups_Delete. destruct deletable; [|done]. cbn [refreshed snd]. set (c := ad_cat st) in *.
  match goal with |- context [set_cat st ?x] => set (c' := x) end.
  assert (regrouped c c') as Hre.
  { split_and!; try done. intros x Hx. apply list_elem_of_In, List.filter_In in Hx as [Hx _]. apply list_elem_of_In in Hx.
    by apply (wf_group_next _ (proj2 Hcur)). }
  pose proof (group_members _ _ _ _ Hg) as (_ & _ & Hm).
  apply group_change; [done|done| |intros i Hi; exact (members_rows _ _ _ _ i Hg Hi)].
  intros r Hr. destruct (member c id (s_ID r)) eqn:Hmem; [right; by apply Hm|left].
  symmetry. apply (filter_removed _ (λ x, negb (N.eqb (sg_ID x) id)) (cat_groups c)). intros x Hx%negb_false_iff%N.eqb_eq. by rewrite Hx.
Qed.

Lemma find_snoc_some {A} (p : A → bool) l x : p x = true → List.find p (l ++ [x]) ≠ None.
Proof. intros Hx. induction l as [|y l IH]; cbn; [by rewrite Hx|]. by destruct (p y). Qed.

Lemma create_group_current now req st : current st → current (handleCreateServiceGroup bcrypt_Generate now req st).2.
Proof.
  intros Hcur. unfold handleCreateServiceGroup, serviceGroups_Create. destruct (existsb _ _); [done|]. cbv zeta. set (c := ad_cat st).
  match goal with |- context [ReplaceServices ?x _ _] => set (c1 := x) end. set (id := nextGroup c). set (c' := ReplaceServices c1 id _).
  assert (∀ g, g ∈ cat_groups c → (sg_ID g < id)%N) as Hnext by apply (wf_group_next _ (proj2 Hcur)).
  assert (regrouped c c') as Hre.
  { split_and!; try done. intros x Hx. apply elem_of_app in Hx as [Hx|Hx]; cbn; fold id.
    - pose proof (Hnext x Hx). lia.
    - apply list_elem_of_singleton in Hx as ->. cbn. fold id. lia. }
  assert (∀ r, member c' id (s_ID r) = false → groups_of c (s_ID r) = groups_of c' (s_ID r)) as Hgr.
  { intros r Hm. unfold groups_of. change (cat_groups c') with (cat_groups c1). unfold c1 at 1. cbn [set_groups cat_groups].
    rewrite List_filter_app. cbn [List.filter group_with_id sg_ID]. fold id. rewrite Hm, app_nil_r.
    apply filter_ext_elem. intros g Hg. symmetry. apply (member_ReplaceServices c1). pose proof (Hnext g Hg). lia. }
  destruct (serviceGroups_GetByID c' id) as [[g ms]|] eqn:Hg; cbn [refreshed snd].
  - pose proof (group_members _ _ _ _ Hg) as (_ & _ & Hm).
    apply group_change; [done|done| |intros i Hi; exact (members_rows _ _ _ _ i Hg Hi)].
    intros r Hr. destruct (member c' id (s_ID r)) eqn:Hmem; [right; by apply Hm|left; auto].
  - exfalso. unfold serviceGroups_GetByID in Hg. destruct (List.find _ _) eqn:Hf; [done|]. revert Hf. apply find_snoc_some.
    cbn. apply N.eqb_refl.
Qed.

Lemma serviceGroups_Update_members c g ms id x :
  serviceGroups_GetByID c id = Some (x, ms) → sg_ID g = id →
  List.filter (λ m, negb (member c m.1 m.2)) (map (λ s, (sg_ID g, s_ID s)) ms) = [].
Proof.
  intros Hg Hid. unfold serviceGroups_GetByID in Hg. destruct (List.find _ _) as [y|] eqn:Hf; [|done]. cbn in Hg. injection Hg as -> <-.
  apply List.find_some in Hf as [_ He%N.eqb_eq]. rewrite Hid, <-He. induction (joined c) as [|s l IH]; [done|]. cbn [List.filter].
  destruct (member c (sg_ID x) (s_ID s)) eqn:Hm; [|exact IH]. cbn [map List.filter fst snd]. by rewrite Hm.
Qed.

Lemma filter_mapped {A} (p q : A → bool) (f : A → A) l :
  (∀ x, x ∈ l → (f x = x ∧ p x = q x) ∨ (p x = false ∧ q (f x) = false)) → List.filter p l = List.filter q (map f l).
Proof.
  induction l as [|x l IH]; intros Hx; [done|]. cbn [List.filter map]. rewrite IH by (intros; apply Hx; by right).
  destruct (Hx x ltac:(by left)) as [[-> ->]|[-> ->]]; done.
Qed.

Lemma update_group_current now id req st : current st → current (handleUpdateServiceGroup bcrypt_Generate now id req st).2.
Proof.
  intros Hcur. unfold handleUpdateServiceGroup. destruct (serviceGroups_GetByID (ad_cat st) id) as [[g before]|] eqn:Hg; [|done].
  pose proof (group_members _ _ _ _ Hg) as (Hin & Hid & Hbefore). cbv zeta. unfold serviceGroups_Update.
  match goal with |- context [existsb _ _] => destruct (existsb _ _); [done|] end.
  rewrite (serviceGroups_Update_members _ _ _ id g Hg) by exact Hid. rewrite app_nil_r. cbn [sg_ID]. set (c := ad_cat st) in *.
  match goal with |- context [set_groups c (map ?x _) _ _] => set (f := x) end. set (c1 := set_groups c _ _ _).
  set (c' := match gu_ServiceIDs req with Some ids => _ | None => c1 end).
  assert (cat_groups c' = map f (cat_groups c)) as Hgs by (unfold c'; by destruct (gu_ServiceIDs req)).
  assert (∀ x, sg_ID (f x) = sg_ID x) as Hf by (intros x; unfold f; by destruct (N.eqb_spec (sg_ID x) (sg_ID g))).
  assert (regrouped c c') as Hre.
  { assert (nextGroup c' = nextGroup c) as Hn by (unfold c'; by destruct (gu_ServiceIDs req)).
    unfold regrouped. rewrite Hgs, Hn. split_and!; try (unfold c'; by destruct (gu_ServiceIDs req)).
    intros x (y & -> & Hy)%list_elem_of_fmap. rewrite Hf. by apply (wf_group_next _ (proj2 Hcur)). }
  assert (∀ x s, sg_ID x ≠ id → member c' (sg_ID x) s = member c (sg_ID x) s) as Hmem.
  { intros x s Hne. unfold c'. destruct (gu_ServiceIDs req); [|done]. apply (member_ReplaceServices c1). by rewrite Hid. }
  assert (∀ r, member c id (s_ID r) = false → member c' id (s_ID r) = false → groups_of c (s_ID r) = groups_of c' (s_ID r)) as Hgr.
  { intros r H1 H2. unfold groups_of. rewrite Hgs. apply filter_mapped. intros x _. rewrite Hf.
    destruct (decide (sg_ID x = id)) as [->|Hne]; [by right|left]. rewrite Hmem by done. split; [|done].
    unfold f. by rewrite (proj2 (N.eqb_neq (sg_ID x) (sg_ID g))) by congruence. }
  rewrite Hid. destruct (serviceGroups_GetByID c' id) as [[g' after]|] eqn:Hg'; cbn [refreshed snd].
  - pose proof (group_members _ _ _ _ Hg') as (_ & _ & Hafter). assert (cat_services c' = cat_services c) as Hrows by apply Hre.
    apply group_change; [done|done| |].
    + intros r Hr. rewrite elem_of_app, Hafter by done. rewrite Hbefore by (by rewrite <-Hrows).
      destruct (member c id (s_ID r)) eqn:?; [auto|]. destruct (member c' id (s_ID r)) eqn:?; auto.
    + intros i [Hi|Hi]%elem_of_app; [rewrite Hrows; exact (members_rows _ _ _ _ i Hg Hi)|exact (members_rows _ _ _ _ i Hg' Hi)].
  - exfalso. unfold serviceGroups_GetByID in Hg'. destruct (List.find _ _) eqn:Hn; [done|].
    assert (f g ∈ cat_groups c') as Hfg by (rewrite Hgs; by apply list_elem_of_fmap_2).
    apply list_elem_of_In, (List.find_none _ _ Hn) in Hfg. by rewrite Hf, Hid, N.eqb_refl in Hfg.
Qed.
End catalog_routes.
