(* ===== verification/CatalogHistory.v ===== *)
(** Histories of administrative requests and of lookups: a host always resolves to the routes of the services the catalogue holds
    (with the lemmas of CatalogRoutes.v), and every service stored is one the proxy can serve as far as the API checks it.

    A request runs with its own answers of the resolver and of bcrypt, and is one the validator of the API lets through; the groups
    and services it names exist, as the foreign keys of the join table demand. *)
From S2P Require Import Prelude GoStrings Netip Domain Tunnel Paths Hosts AccessRules AccessPolicy LRU Routing Netguard ApiGuard UserAdmin RouteAuth Catalog CatalogRoutes.

#[local] Open Scope string_scope.
#[local] Open Scope list_scope.
#[local] Open Scope go_scope.

(** * Requests *)

Inductive admin_op :=
  | CreateService (req : createServiceRequest)
  | UpsertService (req : createServiceRequest)
  | UpdateService (id : N) (req : updateServiceRequest)
  | DeleteService (id : N)
  | RedeployService (id : N)
  | CreateDomain (req : createDomainRequest)
  | UpsertDomain (req : createDomainRequest)
  | UpdateDomain (id : N) (req : updateDomainRequest)
  | DeleteDomain (id : N)
  | CreateServiceGroup (req : createServiceGroupRequest)
  | UpdateServiceGroup (id : N) (req : updateServiceGroupRequest)
  | DeleteServiceGroup (id : N)
  | AddServiceGroupService (id serviceID : N)
  | DeleteServiceGroupService (id serviceID : N).

(** What the world answers while a request runs. *)
Record request_env := {
  rq_now : N → Z; rq_bcrypt : string → option string; rq_resolve : string → option (list Addr); rq_deletable : bool;
}.

(** The tags of the request structures the theorems need: [hostname_rfc1123] admits no blank name, [oneof] the three actions. *)
Definition known_actions (rules : list AccessRule) : bool :=
  forallb (λ r, existsb (String.eqb (ar_Action r)) [AccessRuleAllow; AccessRuleAuthenticate; AccessRuleDeny]) rules.
Definition group_exists (c : catalogue) (id : N) : bool := existsb (λ g, N.eqb (sg_ID g) id) (cat_groups c).
Definition service_exists (c : catalogue) (id : N) : bool := existsb (λ s, N.eqb (s_ID s) id) (cat_services c).
Definition opt_all {A} (p : A → bool) (o : option A) : bool := match o with Some a => p a | None => true end.

Definition valid_op (c : catalogue) (op : admin_op) : bool :=
  match op with
  | CreateService req | UpsertService req => known_actions (sr_AccessRules req) && forallb (group_exists c) (sr_ServiceGroupIDs req)
  | UpdateService _ req => opt_all known_actions (su_AccessRules req) && opt_all (forallb (group_exists c)) (su_ServiceGroupIDs req)
  | CreateDomain req | UpsertDomain req => non_empty (TrimSpace (dr_Name req))
  | UpdateDomain _ req => opt_all (λ v, non_empty (TrimSpace v)) (du_Name req)
  | CreateServiceGroup req => forallb (service_exists c) (gr_ServiceIDs req)
  | UpdateServiceGroup _ req => opt_all (forallb (service_exists c)) (gu_ServiceIDs req)
  | AddServiceGroupService id serviceID => group_exists c id
  | DeleteService _ | RedeployService _ | DeleteDomain _ | DeleteServiceGroup _ | DeleteServiceGroupService _ _ => true
  end.

Section history.
Variable gorm_string : string → string → string.
Variable target_Parse : string → option (string * string).
Variable valid_pem : string → bool.

Definition run_op (env : request_env) (op : admin_op) (st : admin_state) : admin_state :=
  let now := rq_now env in
  let bcrypt := rq_bcrypt env in
  let dns := rq_resolve env in
  match op with
  | CreateService req => (handleCreateService bcrypt gorm_string target_Parse dns valid_pem now req st).2
  | UpsertService req => (handleUpsertService bcrypt gorm_string target_Parse dns valid_pem now req st).2
  | UpdateService id req => (handleUpdateService bcrypt target_Parse dns valid_pem now id req st).2
  | DeleteService id => (handleDeleteService (rq_deletable env) id st).2
  | RedeployService id => (handleRedeployService now id st).2
  | CreateDomain req => (handleCreateDomain req st).2
  | UpsertDomain req => (handleUpsertDomain req st).2
  | UpdateDomain id req => (handleUpdateDomain id req st).2
  | DeleteDomain id => (handleDeleteDomain (rq_deletable env) id st).2
  | CreateServiceGroup req => (handleCreateServiceGroup bcrypt now req st).2
  | UpdateServiceGroup id req => (handleUpdateServiceGroup bcrypt now id req st).2
  | DeleteServiceGroup id => (handleDeleteServiceGroup now (rq_deletable env) id st).2
  | AddServiceGroupService id serviceID => (handleAddServiceGroupService now id serviceID st).2
  | DeleteServiceGroupService id serviceID => (handleDeleteServiceGroupService now id serviceID st).2
  end.

(** A new installation with its nodes. *)
Definition empty_catalogue (nodes : list Node) : catalogue :=
  {| cat_domains := []; cat_services := []; cat_groups := []; cat_members := []; cat_nodes := nodes; nextDomain := 1; nextService := 1; nextGroup := 1 |}.
Definition start (nodes : list Node) (cap ttl : Z) (shared : bool) : admin_state :=
  {| ad_cat := empty_catalogue nodes; ad_proxy := initial_state [] cap ttl shared |}.

Variable url_Parse : string → option URL.
Variable url_String : URL → string.
Variable url_Port url_Hostname : URL → string.
Variable LoadLocation : string → option Location.
Variable tunnelReady : bool.
Variable order_by_path : list Service → list Service.
Variable sort_routes : list Route → list Route.

Abbreviation resolve := (resolveRoutesForHost url_Parse url_String url_Port url_Hostname valid_pem LoadLocation
  tunnelReady order_by_path sort_routes).

Inductive admin_step : admin_state → admin_state → Prop :=
  | step_request env op st : valid_op (ad_cat st) op = true → admin_step st (run_op env op st)
  | step_lookup now host res proxy st :
      clean_host host → resolve (ad_proxy st) now host = (res, proxy) → admin_step st {| ad_cat := ad_cat st; ad_proxy := proxy |}.

Section current.
Hypothesis order_perm : ∀ l, order_by_path l ≡ₚ l.
Hypothesis sort_perm : ∀ l, sort_routes l ≡ₚ l.
Abbreviation current := (current url_Parse url_String url_Port url_Hostname valid_pem LoadLocation tunnelReady order_by_path).

Lemma run_op_current env op st : valid_op (ad_cat st) op = true → current st → current (run_op env op st).
Proof.
  intros Hv Hcur. destruct op; cbn [run_op valid_op] in *.
  - by apply create_service_current.
  - by apply upsert_service_current.
  - by apply update_service_current.
  - by apply delete_service_current.
  - by apply redeploy_current.
  - apply create_domain_current; [done|by apply non_empty_true|done].
  - apply upsert_domain_current; [done|by apply non_empty_true|done].
  - apply update_domain_current; [done| |done]. destruct (du_Name req); [by apply non_empty_true|done].
  - by apply delete_domain_current.
  - by apply create_group_current.
  - by apply update_group_current.
  - by apply delete_group_current.
  - by apply add_service_current.
  - by apply remove_service_current.
Qed.

Lemma current_coherent st : current st → coherent url_Parse url_String url_Port url_Hostname valid_pem LoadLocation tunnelReady order_by_path (ad_proxy st).
Proof. intros [[_ Hco] _]. eapply coherent_except_weaken; [|exact Hco]. intros k (h & Hh & _). by apply elem_of_nil in Hh. Qed.

Lemma step_current st st' : admin_step st st' → current st → current st'.
Proof.
  intros [env op s Hv|now host res proxy s Hc Hr] Hcur; [by apply run_op_current|].
  destruct (resolve_coherent _ _ _ _ _ _ _ _ _ sort_perm _ _ _ _ _ (current_coherent _ Hcur) Hc Hr) as (Hco & Hs & _).
  destruct Hcur as [[Hsv _] Hwf]. split; [|exact Hwf]. split; cbn; [by rewrite Hs|].
  eapply coherent_except_weaken; [|exact Hco]. done.
Qed.

Lemma start_current nodes cap ttl shared : current (start nodes cap ttl shared).
Proof.
  split; [split; [done|]|].
  - eapply coherent_except_weaken; [|apply initial_coherent]. done.
  - split; cbn; try (intros ? Hx; by apply elem_of_nil in Hx); [apply NoDup_nil_2|apply NoDup_nil_2|lia].
Qed.

Lemma history_current nodes cap ttl shared st : rtc admin_step (start nodes cap ttl shared) st → current st.
Proof. revert st. apply rtc_ind_r; [apply start_current|eauto using step_current]. Qed.

(** C7 Starting from an empty catalogue with a fixed set of nodes, after any sequence of requests to the service, domain and service
    group API and of lookups, each finished before the next begins, a host that resolves does so to the routes of the services the
    catalogue holds now: each handler invalidates every cached host its change touches.  Not covered, and different: a
    change of a node ([revoked_tunnel_still_used]) and a lookup during which a change is made ([lookup_overtakes_invalidation]). *)
Theorem catalogue_routes_current nodes cap ttl shared st now host routes proxy :
  rtc admin_step (start nodes cap ttl shared) st → clean_host host → resolve (ad_proxy st) now host = (Ok routes, proxy) →
  fresh_routes url_Parse url_String url_Port url_Hostname valid_pem LoadLocation tunnelReady order_by_path
    (joined (ad_cat st)) (normalizeHost host) routes.
Proof.
  intros Hsteps Hc Hr. pose proof (history_current _ _ _ _ _ Hsteps) as Hcur.
  destruct (resolve_coherent _ _ _ _ _ _ _ _ _ sort_perm _ _ _ _ _ (current_coherent _ Hcur) Hc Hr) as (_ & _ & Hf).
  destruct Hcur as [[<- _] _]. by apply Hf.
Qed.
End current.

(** * What is stored *)

(** Every check a stored service passed: the target under some answer of the resolver, the certificates, the rules (which the
    proxy can compile), the subdomain and the hosts that hand a login over. *)
Record admissible (s : Service) : Prop := {
  adm_target : ∃ dns, target_ok target_Parse dns (s_TargetURL s) = true;
  adm_pem : validateUpstreamCAPEM valid_pem (s_UpstreamCAPEM s) = true;
  adm_rules : is_ok (compileAccessRules (s_AccessRules s)) = true;
  adm_paths : validateAccessRules (s_AccessRules s) = true;
  adm_subdomain : NormalizeSubdomain (s_Subdomain s) = Ok (s_Subdomain s);
  adm_hosts : ∀ h, h ∈ s_LoginHosts s → NormalizeSubdomain h = Ok h ∧ ContainsByte h "." = false ∧ ContainsByte h "*" = false;
}.

Lemma subdomain_normal v s : NormalizeSubdomain v = Ok s → NormalizeSubdomain s = Ok s.
Proof.
  intros Hs. pose proof (NormalizeSubdomain_result _ _ Hs) as ->. unfold NormalizeSubdomain in *. by rewrite canonical_host_intro.
Qed.

Lemma rules_compile i rules :
  known_actions rules = true → validateAccessRules (toAccessRules rules) = true → is_ok (compileAccessRules_from i (toAccessRules rules)) = true.
Proof.
  revert i. induction rules as [|r l IH]; intros i; [done|]. cbn [known_actions validateAccessRules toAccessRules forallb map].
  intros [Ha Hk]%andb_true_iff [[Hsrc Hp]%andb_true_iff Hv]%andb_true_iff. cbn [compileAccessRules_from]. unfold compileAccessRule.
  cbn [ar_Action ar_Sources existsb] in *. rewrite orb_false_r in Ha.
  assert (ToLower (TrimSpace (ToLower (domainString (ar_Action r)))) = ar_Action r) as ->.
  { apply orb_true_iff in Ha as [->%String.eqb_eq|[->%String.eqb_eq| ->%String.eqb_eq]%orb_true_iff]; reflexivity. }
  rewrite <-orb_assoc, Ha. cbn [negb]. destruct (ParseAccessRuleSources _) as [[? ?]|]; [|done].
  specialize (IH (S i) Hk Hv). unfold toAccessRules in IH. by destruct (compileAccessRules_from (S i) _).
Qed.

Definition all_admissible (c : catalogue) : Prop := ∀ s, s ∈ cat_services c → admissible s.

Lemma admissible_read c s : admissible s → admissible (preload c s).
Proof. by intros []. Qed.

Lemma GetByID_admissible c id s : all_admissible c → services_GetByID (joined c) id = Some s → admissible s.
Proof. intros Hall (r & Hr & -> & _)%GetByID_found. by apply admissible_read, Hall. Qed.

Lemma services_Update_admissible c item : all_admissible c → admissible item → all_admissible (services_Update c item).
Proof. intros Hall Hi s Hs. cbn in Hs. apply list_elem_of_fmap in Hs as (x & -> & Hx). destruct (N.eqb _ _); auto. Qed.

Lemma apply_admissible now id st s st' :
  all_admissible (ad_cat st) → ApplyServiceChange now id st = Some (s, st') → all_admissible (ad_cat st').
Proof.
  intros Hall. unfold ApplyServiceChange. destruct (services_GetByID _ _) as [x|] eqn:Hx; [|done]. destruct (toRouteConfig x); [|done].
  intros [= _ <-]. cbn [ad_cat invalidate set_cat]. apply services_Update_admissible; [done|].
  pose proof (GetByID_admissible _ _ _ Hall Hx) as []. by split.
Qed.

Lemma refresh_admissible now seen ids st : all_admissible (ad_cat st) → all_admissible (ad_cat (refresh_services now seen ids st).2).
Proof.
  revert seen st. induction ids as [|id l IH]; intros seen st Hall; cbn [refresh_services]; [done|]. destruct (_ || _); [by apply IH|].
  destruct (ApplyServiceChange _ _ _) as [[s st']|] eqn:Ha; [|done]. eapply IH, apply_admissible; eauto.
Qed.

Lemma deploy_admissible now id groups st s st' :
  all_admissible (ad_cat st) → deploy now id groups st = Some (s, st') → all_admissible (ad_cat st').
Proof. unfold deploy. destruct groups; intros Hall; by apply apply_admissible. Qed.

Lemma create_admissible c item : all_admissible c → admissible item → all_admissible (services_Create gorm_string c item).2.
Proof.
  intros Hall [] s Hs. cbn in Hs. apply elem_of_app in Hs as [Hs|Hs]; [by apply Hall|]. apply list_elem_of_singleton in Hs as ->. by split.
Qed.

(** What the two handlers that take a whole service write. *)
Lemma checked_admissible bcrypt dns c req subdomain config item :
  known_actions (sr_AccessRules req) = true → NormalizeSubdomain (sr_Subdomain req) = Ok subdomain →
  checked_service target_Parse dns valid_pem c req (buildServiceFromCreateRequest bcrypt req subdomain config) = Ok item → admissible item.
Proof.
  intros Hk Hsub (node & hosts & -> & Hh & Ht & Hp & Hr)%checked_service_Ok. split; cbn; [by exists dns|done|by apply rules_compile|done| |].
  - by eapply subdomain_normal.
  - destruct (login_hosts_loop_spec _ _ _ _ Hh) as (_ & Hok & _); [done|constructor|by intros x Hx%not_elem_of_nil|].
    intros h Hin. destruct (Hok h Hin) as (? & ? & ? & _). done.
Qed.

Lemma login_hosts_admissible values hosts h :
  NormalizeLoginHosts values = Ok hosts → h ∈ hosts → NormalizeSubdomain h = Ok h ∧ ContainsByte h "." = false ∧ ContainsByte h "*" = false.
Proof.
  intros Hn Hin. destruct (login_hosts_loop_spec _ _ _ _ Hn) as (_ & Hok & _); [done|constructor|by intros x Hx%not_elem_of_nil|].
  destruct (Hok h Hin) as (? & ? & ? & _). done.
Qed.

Lemma updated_admissible bcrypt dns c req s item :
  opt_all known_actions (su_AccessRules req) = true → admissible s →
  updated_service bcrypt target_Parse dns valid_pem c req s = Ok item → admissible item.
Proof.
  intros Hk [Ht Hp Hr Hv Hsub Hh] Hu. unfold updated_service in Hu.
  destruct (match su_DomainID req with None => _ | Some d => _ end); [|done]. cbn [result_bind] in Hu.
  destruct (match su_Subdomain req with None => _ | Some v => _ end) as [subdomain|] eqn:Hs; [|done]. cbn [result_bind] in Hu.
  destruct (need (match su_TargetURL req with None => _ | Some v => _ end)) as [[]|] eqn:Htu; [|done]. apply need_true in Htu. cbn [result_bind] in Hu.
  destruct (need (match su_UpstreamCAPEM req with None => _ | Some v => _ end)) as [[]|] eqn:Hpu; [|done]. apply need_true in Hpu. cbn [result_bind] in Hu.
  destruct (need (match su_AccessRules req with None => _ | Some v => _ end)) as [[]|] eqn:Hru; [|done]. apply need_true in Hru. cbn [result_bind] in Hu.
  destruct (match su_LoginHosts req with None => _ | Some v => _ end) as [hosts|] eqn:Hhu; [|done]. cbn [result_bind] in Hu.
  destruct (match su_ClearNodeID req with Some true => _ | _ => _ end); [|done]. injection Hu as <-. split; cbn.
  - destruct (su_TargetURL req); [by exists dns|done].
  - destruct (su_UpstreamCAPEM req); done.
  - destruct (su_AccessRules req); [by apply rules_compile|done].
  - destruct (su_AccessRules req); done.
  - destruct (su_Subdomain req); [apply need_ok_Ok in Hs; by eapply subdomain_normal|by injection Hs as <-].
  - intros h Hin. destruct (su_LoginHosts req); [apply need_ok_Ok in Hhu; by eapply login_hosts_admissible|injection Hhu as <-; auto].
Qed.

Lemma invalidate_hosts_admissible previous now services st :
  all_admissible (ad_cat st) → all_admissible (ad_cat (invalidateServiceHostsForDomain previous now services st)).
Proof. unfold invalidateServiceHostsForDomain. by rewrite invalidate_cat. Qed.

Lemma save_domain_admissible previous services item st :
  all_admissible (ad_cat st) → all_admissible (ad_cat (save_domain previous services item st).2).
Proof.
  intros Hall. unfold save_domain, domains_Update. destruct (existsb _ _); [done|]. by apply invalidate_hosts_admissible.
Qed.

Lemma create_domain_admissible req st : all_admissible (ad_cat st) → all_admissible (ad_cat (handleCreateDomain req st).2).
Proof. intros Hall. unfold handleCreateDomain, domains_Create. by destruct (existsb _ _). Qed.

Lemma service_op_admissible env op st :
  match op with CreateService _ | UpsertService _ | UpdateService _ _ | DeleteService _ | RedeployService _ => True | _ => False end →
  valid_op (ad_cat st) op = true → all_admissible (ad_cat st) → all_admissible (ad_cat (run_op env op st)).
Proof.
  intros Hop Hv Hall. destruct op as [req|req|id req|id|id| | | | | | | | |]; try done; cbn [run_op valid_op] in *;
    try apply andb_true_iff in Hv as [Hv _].
  - unfold handleCreateService. cbv zeta. destruct (domains_GetByID _ _); [|done].
    destruct (need_ok (NormalizeSubdomain _)) as [sub|] eqn:Hs; [|done]. apply need_ok_Ok in Hs. cbn [result_bind].
    destruct (checked_service _ _ _ _ _ _) as [item|] eqn:Hi; [|done].
    pose proof (create_admissible _ _ Hall (checked_admissible _ _ _ _ _ _ _ Hv Hs Hi)) as Hc.
    destruct (services_Create _ _ _) as [id c]. destruct (deploy _ _ _ _) as [[s st']|] eqn:Hd; [|exact Hc].
    by eapply deploy_admissible in Hd.
  - unfold handleUpsertService. cbv zeta. destruct (domains_GetByID _ _); [|done].
    destruct (need_ok (NormalizeSubdomain _)) as [sub|] eqn:Hs; [|done]. apply need_ok_Ok in Hs. cbn [result_bind].
    destruct (checked_service _ _ _ _ _ _) as [item|] eqn:Hi; [|done]. cbn [result_bind].
    pose proof (checked_admissible _ _ _ _ _ _ _ Hv Hs Hi) as Hadm. destruct (services_FindByRoute _ _ _ _) as [e|].
    + destruct (deploy _ _ _ _) as [[s st']|] eqn:Hd.
      * eapply deploy_admissible in Hd; [done|]. apply services_Update_admissible; [done|]. destruct Hadm. by split.
      * apply services_Update_admissible; [done|]. destruct Hadm. by split.
    + pose proof (create_admissible _ _ Hall Hadm) as Hc. destruct (services_Create _ _ _) as [id c].
      destruct (deploy _ _ _ _) as [[s st']|] eqn:Hd; [|exact Hc]. by eapply deploy_admissible in Hd.
  - unfold handleUpdateService. destruct (services_GetByID _ _) as [x|] eqn:Hx; [|done].
    pose proof (GetByID_admissible _ _ _ Hall Hx) as Hadm. cbv zeta. destruct (updated_service _ _ _ _ _ _ _) as [item|] eqn:Hu; [|done].
    pose proof (services_Update_admissible _ _ Hall (updated_admissible _ _ _ _ _ _ Hv Hadm Hu)) as Hc.
    destruct (deploy _ _ _ _) as [[s st']|] eqn:Hd; cbn [snd].
    + eapply deploy_admissible in Hd; [|done]. by destruct (_ && _).
    + by destruct (su_ServiceGroupIDs req).
  - unfold handleDeleteService. destruct (services_GetByID _ _); [|done]. destruct (rq_deletable env); cbn; [|done].
    intros x Hx. apply list_elem_of_In, List.filter_In in Hx as [Hx _]. by apply Hall, list_elem_of_In.
  - unfold handleRedeployService. destruct (ApplyServiceChange _ _ _) as [[s st']|] eqn:Ha; [|done]. by eapply apply_admissible in Ha.
Qed.

Lemma run_op_admissible env op st : valid_op (ad_cat st) op = true → all_admissible (ad_cat st) → all_admissible (ad_cat (run_op env op st)).
Proof.
  intros Hv Hall. destruct op; try (by apply service_op_admissible); cbn [run_op].
  - by apply create_domain_admissible.
  - unfold handleUpsertDomain. cbv zeta. destruct (domains_GetByName _ _); [by apply save_domain_admissible|by apply create_domain_admissible].
  - unfold handleUpdateDomain. destruct (domains_GetByID _ _); [by apply save_domain_admissible|done].
  - unfold handleDeleteDomain. destruct (domains_GetByID _ _); [|done]. cbv zeta. unfold domains_Delete.
    destruct (_ || _); [done|]. by apply invalidate_hosts_admissible.
  - unfold handleCreateServiceGroup, serviceGroups_Create. destruct (existsb _ _); [done|]. cbv zeta.
    destruct (serviceGroups_GetByID _ _) as [[g ms]|]; [by apply refresh_admissible|done].
  - unfold handleUpdateServiceGroup. destruct (serviceGroups_GetByID (ad_cat st) id) as [[g before]|]; [|done]. cbv zeta.
    unfold serviceGroups_Update. match goal with |- context [existsb _ _] => destruct (existsb _ _); [done|] end.
    destruct (serviceGroups_GetByID _ _) as [[g' after]|].
    + apply refresh_admissible. by destruct (gu_ServiceIDs req).
    + by destruct (gu_ServiceIDs req).
  - unfold handleDeleteServiceGroup. destruct (serviceGroups_GetByID _ _) as [[g ms]|]; [|done]. unfold serviceGroups_Delete.
    destruct (rq_deletable env); [by apply refresh_admissible|done].
  - unfold handleAddServiceGroupService. destruct (services_GetByID _ _); [|done]. cbv zeta.
    destruct (serviceGroups_GetByID _ _); [by apply refresh_admissible|done].
  - by apply refresh_admissible.
Qed.

Lemma history_admissible nodes cap ttl shared st : rtc admin_step (start nodes cap ttl shared) st → all_admissible (ad_cat st).
Proof.
  revert st. apply rtc_ind_r; [intros s Hs; by apply elem_of_nil in Hs|].
  intros ? ? _ [env op x Hv|now host res proxy x _ _] Hall; [by apply run_op_admissible|done].
Qed.

(** * Which hosts resolve *)

(** What compiling a route still needs of a stored service: the target parses (after it was rewritten for the tunnel), the address
    lists and the windows compile. *)
Definition servable (config : RouteConfig) : bool :=
  bool_decide (is_Some (url_Parse (rewriteTargetForTunnel url_Parse url_String url_Port (rc_TargetURL config) (rc_Service config)).1)) &&
  is_ok (compileCIDRs (rc_AllowCIDRs config)) && is_ok (compileCIDRs (rc_BlockCIDRs config)) &&
  is_ok (compileAccessWindows LoadLocation (rc_AccessWindows config)).

Abbreviation route_of := (routeFromConfig url_Parse url_String url_Port url_Hostname valid_pem LoadLocation tunnelReady).
Abbreviation compile := (compile_routes url_Parse url_String url_Port url_Hostname valid_pem LoadLocation tunnelReady).
Abbreviation stored := (GetRoutesForHost order_by_path).

Lemma routeFromConfig_ok rev config :
  is_ok (route_of rev config).1 = servable config && is_ok (compileAccessRules (rc_AccessRules config)).
Proof.
  unfold routeFromConfig, servable. destruct (rewriteTargetForTunnel _ _ _ _ _) as [target via]. cbn [fst].
  destruct (url_Parse target) as [u|]; [|by rewrite bool_decide_false by (by intros [])].
  rewrite bool_decide_true by done. cbn [andb]. unfold with_error.
  destruct (compileCIDRs (rc_AllowCIDRs config)); [|done]. cbn [result_bind is_ok andb].
  destruct (compileCIDRs (rc_BlockCIDRs config)); [|done]. cbn [result_bind is_ok andb].
  destruct (compileAccessWindows _ _); [|done]. cbn [result_bind is_ok andb].
  by destruct (compileAccessRules (rc_AccessRules config)).
Qed.

Lemma compile_ok rev configs :
  is_ok (compile rev configs).1 = forallb (λ c, servable c && is_ok (compileAccessRules (rc_AccessRules c))) configs.
Proof.
  revert rev. induction configs as [|c l IH]; intros rev; [done|]. cbn [compile_routes forallb]. pose proof (routeFromConfig_ok rev c) as <-.
  destruct (route_of rev c) as [[r|e] rev']; [|done]. cbn [fst is_ok andb]. rewrite <-(IH rev'). by destruct (compile rev' l) as [[?|?] ?].
Qed.

Lemma forallb_perm {A} (p : A → bool) l k : l ≡ₚ k → forallb p l = forallb p k.
Proof. induction 1; cbn; [done|by f_equal|by rewrite !andb_assoc, (andb_comm (p _))|congruence]. Qed.

(** The routes of a host belong to stored services. *)
Lemma stored_elem l key r : (∀ x, order_by_path x ≡ₚ x) → r ∈ stored l key → ∃ s, s ∈ l ∧ toRouteConfig s = Some r.
Proof.
  intros Hperm. unfold GetRoutesForHost. destruct (domainCandidatesForHost _) as [|c cs]; [intros Hr; by apply elem_of_nil in Hr|].
  intros Hr. assert (r ∈ toRouteConfigs (order_by_path (List.filter (selected (c :: cs)) l))) as Hin.
  { unfold filterRoutesByHost in Hr. cbv zeta in Hr. destruct (String.eqb _ "") in Hr; [done|].
    match type of Hr with r ∈ match ?e with _ => _ end => destruct e as [|x xs] eqn:He end; apply list_elem_of_In in Hr.
    - apply List.filter_In in Hr as [Hr _]. by apply list_elem_of_In.
    - rewrite <-He in Hr. apply List.filter_In in Hr as [Hr _]. by apply list_elem_of_In. }
  apply list_elem_of_omap in Hin as (s & Hs & Hr'). exists s. split; [|done]. rewrite (Hperm _) in Hs.
  apply list_elem_of_In, List.filter_In in Hs as [Hs _]. by apply list_elem_of_In.
Qed.

Lemma toRouteConfig_rules s r : toRouteConfig s = Some r → rc_AccessRules r = s_AccessRules s.
Proof.
  unfold toRouteConfig. destruct (negb _); [done|]. destruct (EffectiveAccessForService s) as [[[? ?] ?] ?]. by intros [= <-].
Qed.

Section resolution.
Hypothesis order_perm : ∀ l, order_by_path l ≡ₚ l.
Hypothesis sort_perm : ∀ l, sort_routes l ≡ₚ l.

(** A lookup fails only on routes of the store that do not compile. *)
Lemma resolve_error st now host e st' :
  coherent url_Parse url_String url_Port url_Hostname valid_pem LoadLocation tunnelReady order_by_path st →
  clean_host host → validRouteHost (normalizeHost host) = true → resolve st now host = (Err e, st') →
  ∃ rev configs, configs ≡ₚ stored (services st) (normalizeHost host) ∧ is_ok (compile rev configs).1 = false.
Proof.
  intros [_ _ Hsh] Hclean Hv Hres. destruct (normalizeHost_key host Hclean) as (_ & _ & Hidem).
  rewrite resolveRoutesForHost_eq in Hres. cbv zeta in Hres. rewrite Hv in Hres. cbn [negb] in Hres. set (key := normalizeHost host) in *.
  destruct (Get (localCache st) now key) as [[cached|] local]; [done|].
  destruct (match sharedCache st with None => (None, None) | Some c => _ end) as [hit shared] eqn:Hhit.
  set (configs := match hit with Some configs => configs | None => _ end) in Hres.
  assert (configs ≡ₚ stored (services st) key) as Hconf.
  { unfold configs. destruct hit as [l|]; [|done]. destruct (sharedCache st) as [c|]; [|done]. unfold cache_get in Hhit. rewrite Hidem in Hhit.
    destruct (c !! key) as [entry|] eqn:He; [|done]. destruct (me_expiresAt entry <? now)%Z; [done|]. injection Hhit as <- _.
    destruct (Hsh c key entry eq_refl He) as [_ Hf]. apply Hf. auto. }
  exists (revision st), configs. split; [done|]. by destruct (compile (revision st) configs) as [[?|?] ?].
Qed.

(** C33 After every history, a well-formed host resolves exactly when the target, the address lists and the windows of each of its
    stored routes compile; nothing else the API stores can make a host fail, and one route that does not compile takes all of
    its host with it. *)
Theorem host_resolves_iff nodes cap ttl shared st now host :
  rtc admin_step (start nodes cap ttl shared) st → clean_host host → validRouteHost (normalizeHost host) = true →
  is_ok (resolve (ad_proxy st) now host).1 = forallb servable (stored (joined (ad_cat st)) (normalizeHost host)).
Proof.
  intros Hsteps Hc Hv. pose proof (history_current order_perm sort_perm _ _ _ _ _ Hsteps) as Hcur.
  assert (∀ r, r ∈ stored (joined (ad_cat st)) (normalizeHost host) → is_ok (compileAccessRules (rc_AccessRules r)) = true) as Hrules.
  { intros r (s & (x & Hx & ->)%joined_elem & Hr)%stored_elem; [|done]. rewrite (toRouteConfig_rules _ _ Hr).
    by apply (adm_rules x), (history_admissible _ _ _ _ _ Hsteps). }
  assert (∀ rev configs, configs ≡ₚ stored (joined (ad_cat st)) (normalizeHost host) →
    is_ok (compile rev configs).1 = forallb servable (stored (joined (ad_cat st)) (normalizeHost host))) as Hcompile.
  { intros rev configs Hp. rewrite compile_ok, (forallb_perm _ _ _ Hp). revert Hrules. generalize (stored (joined (ad_cat st)) (normalizeHost host)).
    clear. induction l as [|r l IH]; [done|]. intros Hr. cbn [forallb]. rewrite IH by (intros; apply Hr; by right).
    by rewrite (Hr r), andb_true_r by (by left). }
  pose proof (current_coherent st Hcur) as Hco. destruct Hcur as [[Hs _] _]. destruct (resolve (ad_proxy st) now host) as [[routes|e] proxy] eqn:Hr; cbn.
  - destruct (resolve_coherent _ _ _ _ _ _ _ _ _ sort_perm _ _ _ _ _ Hco Hc Hr) as (_ & _ & Hf). rewrite Hs in Hf.
    destruct (Hf routes eq_refl) as (rev & configs & rev' & compiled & Hp & Hcm & _). by rewrite <-(Hcompile rev configs Hp), Hcm.
  - destruct (resolve_error _ _ _ _ _ Hco Hc Hv Hr) as (rev & configs & Hp & He). rewrite Hs in Hp. by rewrite <-(Hcompile rev configs Hp).
Qed.

(** C34 Every service the catalogue ever holds has passed all the checks of the API, whichever handler wrote it, and belongs to
    a stored domain with a name. *)
Theorem stored_services_admissible nodes cap ttl shared st s :
  rtc admin_step (start nodes cap ttl shared) st → s ∈ cat_services (ad_cat st) →
  admissible s ∧ ∃ d, domains_GetByID (ad_cat st) (s_DomainID s) = Some d ∧ TrimSpace (d_Name d) ≠ "".
Proof.
  intros Hsteps Hs. split; [by apply (history_admissible _ _ _ _ _ Hsteps)|].
  destruct (history_current order_perm sort_perm _ _ _ _ _ Hsteps) as [_ Hwf].
  destruct (domain_name _ s Hwf Hs) as (d & ? & _ & ?). by exists d.
Qed.
End resolution.
End history.

(** * A history *)

Definition sample_env : request_env :=
  {| rq_now := λ _, 0%Z; rq_bcrypt := λ _, None; rq_resolve := λ _, Some []; rq_deletable := true |}.

Definition sample_request (sub path : string) (allow : list string) : createServiceRequest :=
  {| sr_Name := "svc"; sr_DomainID := 1; sr_Subdomain := sub; sr_Path := path; sr_TargetURL := "http://10.0.0.5:8080"; sr_TLSMode := "none";
     sr_PassHostHeader := false; sr_UpstreamSkipVerify := false; sr_UpstreamCAPEM := ""; sr_UpstreamServerName := ""; sr_AuthPolicy := "authenticated";
     sr_AccessPolicy := {| ap_AccessMode := "authenticated"; ap_AllowedRoles := []; ap_AllowedGroups := []; ap_AllowedServiceGroups := [] |};
     sr_UseGroupPolicy := false; sr_AccessMethod := "session"; sr_AccessMethodConfig := derefAccessMethodConfig None; sr_AccessMessage := "";
     sr_ServiceGroupIDs := []; sr_IPAllowlist := allow; sr_IPBlocklist := []; sr_AllowedCountries := [" de"; "DE"]; sr_BlockedCountries := [];
     sr_AccessWindows := [];
     sr_AccessRules := [{| ar_Name := "ops"; ar_Action := "deny"; ar_Sources := ["192.0.2.0/24"]; ar_Paths := ["/admin"] |}];
     sr_LoginHosts := [" Login "; "login"]; sr_NodeID := None; sr_Node := "" |}.

Definition moved (sub : string) : updateServiceRequest :=
  {| su_Name := None; su_Enabled := None; su_DomainID := None; su_Subdomain := Some sub; su_Path := None; su_TargetURL := None; su_TLSMode := None;
     su_PassHostHeader := None; su_UpstreamSkipVerify := None; su_UpstreamCAPEM := None; su_UpstreamServerName := None; su_AuthPolicy := None;
     su_AccessPolicy := None; su_UseGroupPolicy := None; su_AccessMethod := None; su_AccessMethodConfig := None; su_AccessMessage := None;
     su_ServiceGroupIDs := None; su_IPAllowlist := None; su_IPBlocklist := None; su_AllowedCountries := None; su_BlockedCountries := None;
     su_AccessWindows := None; su_AccessRules := None; su_LoginHosts := None; su_NodeID := None; su_Node := None; su_ClearNodeID := None |}.

Definition sample_target (raw : string) : option (string * string) := Some ("http", "10.0.0.5").
Definition gorm_default (v d : string) : string := if String.eqb v "" then d else v.
Definition sample_run := run_op gorm_default sample_target (λ _, true) sample_env.
Abbreviation sample_lookup host st :=
  (resolveRoutesForHost sample_parse u_Host u_Host u_Host (λ _, true) (λ _, None) false (λ l, l) sort_by_length (ad_proxy st) 1 host).
Definition looked_up (host : string) (st : admin_state) : admin_state := {| ad_cat := ad_cat st; ad_proxy := (sample_lookup host st).2 |}.
Abbreviation sample_step :=
  (admin_step gorm_default sample_target (λ _, true) sample_parse u_Host u_Host u_Host (λ _, None) false (λ l, l) sort_by_length).

Definition sample_start : admin_state := start [] 10 (30 * Second) true.
Definition sample_domain_op : admin_op :=
  CreateDomain {| dr_Name := "Example.com"; dr_Type := "root"; dr_Provider := ""; dr_Notes := ""; dr_IPAllowlist := []; dr_IPBlocklist := [] |}.
Definition with_service : admin_state := sample_run (CreateService (sample_request " App" "/" ["10.0.0.0/8"])) (sample_run sample_domain_op sample_start).

Lemma request_reached op st : valid_op (ad_cat st) op = true → rtc sample_step sample_start st → rtc sample_step sample_start (sample_run op st).
Proof. intros Hv Hst. eapply rtc_r; [exact Hst|]. by apply step_request. Qed.

Lemma lookup_reached host st : clean_host host → rtc sample_step sample_start st → rtc sample_step sample_start (looked_up host st).
Proof.
  intros Hc Hst. eapply rtc_r; [exact Hst|]. eapply (step_lookup _ _ _ _ _ _ _ _ _ _ _ 1 host (sample_lookup host st).1); [done|].
  by destruct (resolveRoutesForHost _ _ _ _ _ _ _ _ _ _ _ _).
Qed.

Lemma with_service_reached : rtc sample_step sample_start with_service.
Proof. apply request_reached; [vm_compute; reflexivity|]. apply request_reached; [vm_compute; reflexivity|apply rtc_refl]. Qed.

(** The service moves to another host after its routes were cached. *)
Definition moved_service : admin_state := sample_run (UpdateService 1 (moved "www")) (looked_up "app.example.com" with_service).

Lemma moved_service_reached : rtc sample_step sample_start moved_service.
Proof. apply request_reached; [vm_compute; reflexivity|]. apply lookup_reached; [reflexivity|apply with_service_reached]. Qed.

Lemma catalogue_routes_current_witness :
  is_ok (sample_lookup "app.example.com" with_service).1 = true ∧
  (sample_lookup "app.example.com" moved_service).1 = Ok [] ∧
  ∃ routes proxy, sample_lookup "www.example.com" moved_service = (Ok routes, proxy) ∧ length routes = 1%nat ∧
    fresh_routes sample_parse u_Host u_Host u_Host (λ _, true) (λ _, None) false (λ l, l) (joined (ad_cat moved_service))
      (normalizeHost "www.example.com") routes.
Proof.
  split; [vm_compute; reflexivity|]. split; [vm_compute; reflexivity|].
  destruct (sample_lookup "www.example.com" moved_service) as [[routes|e] proxy] eqn:Hr; [|vm_compute in Hr; discriminate Hr].
  exists routes, proxy. split; [reflexivity|]. split; [vm_compute in Hr; injection Hr as <- _; reflexivity|].
  apply (catalogue_routes_current gorm_default sample_target (λ _, true) sample_parse u_Host u_Host u_Host (λ _, None) false (λ l, l) sort_by_length
    (λ l, ltac:(reflexivity)) (λ l, proj1 (sort_by_length_spec l)) [] 10 (30 * Second) true moved_service 1 "www.example.com" routes proxy);
    [exact moved_service_reached|reflexivity|exact Hr].
Defined.

(** An entry that is no prefix is stored in an address list, and takes a host with all its services down. *)
Definition with_bad_list : admin_state := sample_run (CreateService (sample_request "app" "/api" ["10.0.0.0/33"])) with_service.

Lemma with_bad_list_reached : rtc sample_step sample_start with_bad_list.
Proof. apply request_reached; [vm_compute; reflexivity|apply with_service_reached]. Qed.

Lemma host_resolves_iff_witness :
  is_ok (sample_lookup "app.example.com" with_service).1 = true ∧
  is_ok (sample_lookup "app.example.com" with_bad_list).1 = false ∧
  is_ok (sample_lookup "app.example.com" with_bad_list).1 =
    forallb (servable sample_parse u_Host u_Host (λ _, None)) (GetRoutesForHost (λ l, l) (joined (ad_cat with_bad_list)) "app.example.com").
Proof.
  split; [vm_compute; reflexivity|]. split; [vm_compute; reflexivity|].
  apply (host_resolves_iff gorm_default sample_target (λ _, true) sample_parse u_Host u_Host u_Host (λ _, None) false (λ l, l) sort_by_length
    (λ l, ltac:(reflexivity)) (λ l, proj1 (sort_by_length_spec l)) [] 10 (30 * Second) true with_bad_list 1 "app.example.com");
    [exact with_bad_list_reached|reflexivity|vm_compute; reflexivity].
Defined.

Lemma stored_services_admissible_witness :
  ∃ s, s ∈ cat_services (ad_cat moved_service) ∧ s_LoginHosts s = ["login"] ∧ s_Subdomain s = "www" ∧ s_AllowedCountries s = ["DE"] ∧
    admissible sample_target (λ _, true) s.
Proof.
  destruct (cat_services (ad_cat moved_service)) as [|s l] eqn:Hs; [vm_compute in Hs; discriminate Hs|]. exists s. split; [by left|].
  assert (s ∈ cat_services (ad_cat moved_service)) as Hin by (rewrite Hs; by left).
  pose proof Hs as Hs'. vm_compute in Hs'. injection Hs' as <- _. do 3 (split; [reflexivity|]).
  exact (proj1 (stored_services_admissible gorm_default sample_target (λ _, true) sample_parse u_Host u_Host u_Host (λ _, None) false (λ l, l) sort_by_length
    (λ l, ltac:(reflexivity)) (λ l, proj1 (sort_by_length_spec l)) [] 10 (30 * Second) true moved_service _ moved_service_reached Hin)).
Defined.

(** * Nodes *)

(** [RevokeNode] of the tunnel manager writes the row of the node and tells the proxy nothing. *)
Definition set_nodes (c : catalogue) (l : list Node) : catalogue :=
  {| cat_domains := cat_domains c; cat_services := cat_services c; cat_groups := cat_groups c; cat_members := cat_members c; cat_nodes := l;
     nextDomain := nextDomain c; nextService := nextService c; nextGroup := nextGroup c |}.
Definition revoke_node (id : N) (st : admin_state) : admin_state :=
  match node_row (ad_cat st) id with
  | None => st
  | Some node => set_cat st (set_nodes (ad_cat st) (save_node (cat_nodes (ad_cat st)) (revoked node)))
  end.

Definition edge_node : Node :=
  {| n_ID := 1; n_Name := "edge"; n_WGPublicKey := "A"; n_WGPresharedKey := "psk"; n_WGEndpoint := ""; n_WGAllowedIPs := "10.42.0.2/32";
     n_WGTunnelIP := "10.42.0.2"; n_WGLastHandshake := None; n_AdvertisedSubnets := ""; n_TunnelStatus := "active" |}.
Definition node_request : createServiceRequest :=
  let r := sample_request "app" "/" [] in
  {| sr_Name := sr_Name r; sr_DomainID := 1; sr_Subdomain := "app"; sr_Path := "/"; sr_TargetURL := sr_TargetURL r; sr_TLSMode := "none";
     sr_PassHostHeader := false; sr_UpstreamSkipVerify := false; sr_UpstreamCAPEM := ""; sr_UpstreamServerName := ""; sr_AuthPolicy := "authenticated";
     sr_AccessPolicy := sr_AccessPolicy r; sr_UseGroupPolicy := false; sr_AccessMethod := "session"; sr_AccessMethodConfig := sr_AccessMethodConfig r;
     sr_AccessMessage := ""; sr_ServiceGroupIDs := []; sr_IPAllowlist := []; sr_IPBlocklist := []; sr_AllowedCountries := []; sr_BlockedCountries := [];
     sr_AccessWindows := []; sr_AccessRules := []; sr_LoginHosts := []; sr_NodeID := None; sr_Node := " edge " |}.
Definition node_parse (s : string) : option URL := Some {| u_Scheme := "http"; u_Host := TrimPrefix s "http://"; u_Rest := "" |}.
Definition node_lookup (now : Z) (st : admin_state) :=
  resolveRoutesForHost node_parse (λ u, "http://" +:+ u_Host u) (λ _, "8080") u_Host (λ _, true) (λ _, None) true (λ l, l) sort_by_length (ad_proxy st) now "app.example.com".
Definition targets (r : result route_error (list Route)) : list (string * bool) :=
  match r with Ok routes => map (λ x, (TargetURL x, via_tunnel (proxyTransport x))) routes | Err _ => [] end.
Definition node_service : admin_state := sample_run (CreateService node_request) (sample_run sample_domain_op (start [edge_node] 10 (30 * Second) true)).
Definition node_cached : admin_state := {| ad_cat := ad_cat node_service; ad_proxy := (node_lookup 1 node_service).2 |}.

(** A service reached through a node whose tunnel was revoked is still sent to the address the node had, until the cached routes
    expire; the address is free to be given to another peer at once. *)
Theorem revoked_tunnel_still_used :
  targets (node_lookup 2 (revoke_node 1 node_cached)).1 = [("http://10.42.0.2:8080", true)] ∧
  targets (node_lookup 2 (revoke_node 1 node_service)).1 = [("http://10.0.0.5:8080", false)].
Proof. vm_compute. split; reflexivity. Qed.

(** * A lookup that a change overtakes *)

Abbreviation sample_read host st :=
  (resolve_read (λ l, l) (ad_proxy st) 1 host).
Abbreviation sample_finish p st :=
  (resolve_finish sample_parse u_Host u_Host u_Host (λ _, true) (λ _, None) false sort_by_length (ad_proxy st) 1 p).
Definition set_proxy (st : admin_state) (proxy : proxy_state) : admin_state := {| ad_cat := ad_cat st; ad_proxy := proxy |}.

(** A lookup reads the routes of a host; the service moves to another host, which invalidates the first; the lookup then stores what
    it read.  The second host resolves to the service, and so does the first, which the catalogue gives no service any more, until both
    caches have let go of the entry. *)
Theorem lookup_overtakes_invalidation :
  ∃ p st, sample_read "app.example.com" with_service = (inr p, st) ∧
    let changed := sample_run (UpdateService 1 (moved "www")) (set_proxy with_service st) in
    let stored := set_proxy changed (sample_finish p changed).2 in
    GetRoutesForHost (λ l, l) (joined (ad_cat stored)) "app.example.com" = [] ∧
    targets (sample_lookup "app.example.com" changed).1 = [] ∧ length (targets (sample_lookup "app.example.com" stored).1) = 1%nat ∧
    length (targets (sample_lookup "www.example.com" stored).1) = 1%nat.
Proof.
  destruct (sample_read "app.example.com" with_service) as [[r|p] st] eqn:Hr; [vm_compute in Hr; discriminate Hr|].
  exists p, st. split; [reflexivity|]. vm_compute in Hr. injection Hr as <- <-. split_and!; vm_compute; reflexivity.
Qed.
