(* ===== verification/CertStore.v ===== *)
(** The certificates the server presents (internal/acme/certificate_store.go) and the cache in front of the table
    (internal/acme/certificate_cache.go).

    Handshakes read the cache; a miss starts a load, which all handshakes for the name share ([singleflight]). Loads, writes and
    invalidations run in goroutines of their own, so each is split where the mutex is released: a load reads the generation, then
    the table, then stores what it found; a write changes the table, then empties the cache, then makes [singleflight] forget the
    load. The theorems hold for every interleaving. The generation, a [uint64], does not wrap. X.509 and PEM are parameters. *)
From S2P Require Import Prelude GoStrings SecretBox.

#[local] Open Scope string_scope.
#[local] Open Scope list_scope.

Definition certificateCacheFreshFor : Z := Minute.
Definition certificateCacheMissFor : Z := 30 * Second.
Definition maxCachedCertificateMiss : nat := 4096.

Record x509Leaf := { lf_NotBefore : Z; lf_NotAfter : Z }.
Record tlsCertificate := { tl_Certificate : list string; tl_PrivateKey : string; tl_Leaf : option x509Leaf }.

Record StoredTLSCertificate := {
  tc_ID : N; tc_Domain : string; tc_IssuerKey : string; tc_Certificate : string; tc_PrivateKey : string; tc_MetadataJSON : string;
  tc_NotBefore : Z; tc_NotAfter : Z;
}.

(** [gorm.ErrRecordNotFound] and every other error. *)
Inductive load_error := ErrRecordNotFound | ErrLoad.

Record cachedCertificate := { cc_cert : tlsCertificate; cc_loadedAt : Z }.

(** A load that runs: the generation it read and what the table gave it, once it got there. *)
Record call := { cl_name : string; cl_gen : option N; cl_result : option (result load_error tlsCertificate) }.

(** [unflushed] and [unforgotten] are the writers that have changed the table and not yet emptied the cache, and those that have not
    yet reached [Forget]. *)
Record cert_state := {
  tls_rows : list StoredTLSCertificate; next_row : N; argon_keys : key_cache;
  hits : gmap string cachedCertificate; misses : gmap string Z; gen : N;
  calls : gmap N call; group : gmap string N; next_call : N; unflushed : list string; unforgotten : list string;
}.

Definition with_table (st : cert_state) (rows : list StoredTLSCertificate) (next : N) (keys : key_cache) : cert_state :=
  {| tls_rows := rows; next_row := next; argon_keys := keys; hits := hits st; misses := misses st; gen := gen st; calls := calls st;
     group := group st; next_call := next_call st; unflushed := unflushed st; unforgotten := unforgotten st |}.
Definition with_cache (st : cert_state) (h : gmap string cachedCertificate) (m : gmap string Z) (g : N) : cert_state :=
  {| tls_rows := tls_rows st; next_row := next_row st; argon_keys := argon_keys st; hits := h; misses := m; gen := g; calls := calls st;
     group := group st; next_call := next_call st; unflushed := unflushed st; unforgotten := unforgotten st |}.
Definition with_calls (st : cert_state) (cs : gmap N call) (g : gmap string N) (next : N) : cert_state :=
  {| tls_rows := tls_rows st; next_row := next_row st; argon_keys := argon_keys st; hits := hits st; misses := misses st; gen := gen st;
     calls := cs; group := g; next_call := next; unflushed := unflushed st; unforgotten := unforgotten st |}.
Definition with_writers (st : cert_state) (a b : list string) : cert_state :=
  {| tls_rows := tls_rows st; next_row := next_row st; argon_keys := argon_keys st; hits := hits st; misses := misses st; gen := gen st;
     calls := calls st; group := group st; next_call := next_call st; unflushed := a; unforgotten := b |}.

Definition normalizeDomain (value : string) : string := ToLower (TrimSpace value).

(** ** The cache *)

Inductive answer := Served (cert : tlsCertificate) | NotStored | Waits (id : N).

(** [DoChan]: the call registered under the name, or a new one. *)
Definition DoChan (name : string) (st : cert_state) : N * cert_state :=
  match group st !! name with
  | Some id => (id, st)
  | None =>
      let id := next_call st in
      (id, with_calls st (<[id := {| cl_name := name; cl_gen := None; cl_result := None |}]> (calls st)) (<[name := id]> (group st)) (id + 1))
  end.

(** [get] up to its [select]. *)
Definition cache_lookup (now : Z) (name : string) (st : cert_state) : answer * cert_state :=
  match hits st !! name with
  | Some entry => (Served (cc_cert entry), if (certificateCacheFreshFor <=? now - cc_loadedAt entry)%Z then (DoChan name st).2 else st)
  | None =>
      let fresh_miss := match misses st !! name with Some at_ => (now - at_ <? certificateCacheMissFor)%Z | None => false end in
      if fresh_miss then (NotStored, st) else let '(id, st) := DoChan name st in (Waits id, st)
  end.

Definition GetCertificate (now : Z) (domainName : string) (st : cert_state) : answer * cert_state := cache_lookup now (normalizeDomain domainName) st.

(** The first section of [refresh]. *)
Definition refresh_begin (id : N) (st : cert_state) : cert_state :=
  match calls st !! id with
  | Some c => with_calls st (<[id := {| cl_name := cl_name c; cl_gen := Some (gen st); cl_result := cl_result c |}]> (calls st)) (group st) (next_call st)
  | None => st
  end.

(** Its last one, and the end of the call: what it found is what everyone waiting on it gets. *)
Definition refresh_store (now : Z) (c : call) (r : result load_error tlsCertificate) (st : cert_state) : cert_state :=
  if negb (bool_decide (cl_gen c = Some (gen st))) then st
  else match r with
       | Ok cert => with_cache st (<[cl_name c := {| cc_cert := cert; cc_loadedAt := now |}]> (hits st)) (delete (cl_name c) (misses st)) (gen st)
       | Err ErrRecordNotFound =>
           let m := if (maxCachedCertificateMiss <=? size (misses st))%nat then ∅ else misses st in
           with_cache st (delete (cl_name c) (hits st)) (<[cl_name c := now]> m) (gen st)
       | Err ErrLoad =>
           match hits st !! cl_name c with
           | Some entry => with_cache st (<[cl_name c := {| cc_cert := cc_cert entry; cc_loadedAt := now |}]> (hits st)) (misses st) (gen st)
           | None => st
           end
       end.
Definition refresh_end (now : Z) (id : N) (st : cert_state) : option (result load_error tlsCertificate * cert_state) :=
  match calls st !! id with
  | Some c =>
      match cl_result c with
      | Some r =>
          let st := refresh_store now c r st in
          Some (r, with_calls st (delete id (calls st)) (if bool_decide (group st !! cl_name c = Some id) then delete (cl_name c) (group st) else group st)
                     (next_call st))
      | None => None
      end
  | None => None
  end.

Definition invalidate_locked (name : string) (st : cert_state) : cert_state :=
  with_cache st (delete name (hits st)) (delete name (misses st)) (gen st + 1).
Definition Forget (name : string) (st : cert_state) : cert_state := with_calls st (calls st) (delete name (group st)) (next_call st).
Definition invalidateAll (st : cert_state) : cert_state := with_cache st ∅ ∅ (gen st + 1).

(** ** The table *)

(** The secrets [NewDBCertificateStore] keeps. *)
Definition normalized_secrets (dataSecrets : list string) : list string := List.filter non_empty (map TrimSpace dataSecrets).

Section store.
Context `{Primitives}.
Variable X509KeyPair : string → string → option tlsCertificate.
Variable ParseCertificate : string → option x509Leaf.
Variable MarshalPKCS8PrivateKey : string → option string.
Variable pem_Encode : string → string → string.
Variable dataSecrets : list string.

Definition with_leaf (cert : tlsCertificate) : tlsCertificate :=
  match tl_Certificate cert with
  | der :: _ =>
      match ParseCertificate der with
      | Some leaf => {| tl_Certificate := tl_Certificate cert; tl_PrivateKey := tl_PrivateKey cert; tl_Leaf := Some leaf |}
      | None => cert
      end
  | [] => cert
  end.

Definition LoadCertificate (rows : list StoredTLSCertificate) (domainName : string) (keys : key_cache)
  : result load_error tlsCertificate * key_cache :=
  match List.find (λ r, String.eqb (tc_Domain r) (normalizeDomain domainName)) rows with
  | None => (Err ErrRecordNotFound, keys)
  | Some item =>
      let '(privateKey, keys) :=
        if IsEncryptedValue (tc_PrivateKey item) then DecryptStringAuto dataSecrets (tc_PrivateKey item) keys else (Ok (tc_PrivateKey item), keys) in
      match privateKey with
      | Err _ => (Err ErrLoad, keys)
      | Ok key =>
          match X509KeyPair (tc_Certificate item) key with
          | None => (Err ErrLoad, keys)
          | Some loaded => (Ok (with_leaf loaded), keys)
          end
      end
  end.

(** The database answers, or it does not. *)
Definition refresh_load (answered : bool) (id : N) (st : cert_state) : cert_state :=
  match calls st !! id with
  | Some c =>
      let '(r, keys) := if answered then LoadCertificate (tls_rows st) (cl_name c) (argon_keys st) else (Err ErrLoad, argon_keys st) in
      with_calls (with_table st (tls_rows st) (next_row st) keys)
        (<[id := {| cl_name := cl_name c; cl_gen := cl_gen c; cl_result := Some r |}]> (calls st)) (group st) (next_call st)
  | None => st
  end.

Definition seal_key (keyPEM salt nonce : string) (keys : key_cache) : string * key_cache :=
  match dataSecrets with
  | secret :: _ => if IsEncryptedValue keyPEM then (keyPEM, keys) else EncryptStringV2 secret keyPEM salt nonce keys
  | [] => (keyPEM, keys)
  end.

Definition marshalCertificate (cert : tlsCertificate) : option (string * string * x509Leaf) :=
  match tl_Certificate cert with
  | [] => None
  | der :: _ =>
      keyBytes ← MarshalPKCS8PrivateKey (tl_PrivateKey cert);
      leaf ← match tl_Leaf cert with Some leaf => Some leaf | None => ParseCertificate der end;
      Some (foldr (λ d rest, pem_Encode "CERTIFICATE" d +:+ rest) "" (tl_Certificate cert), pem_Encode "PRIVATE KEY" keyBytes, leaf)
  end.

Definition with_pair (r : StoredTLSCertificate) (certPEM keyPEM : string) (leaf : x509Leaf) : StoredTLSCertificate :=
  {| tc_ID := tc_ID r; tc_Domain := tc_Domain r; tc_IssuerKey := tc_IssuerKey r; tc_Certificate := certPEM; tc_PrivateKey := keyPEM;
     tc_MetadataJSON := tc_MetadataJSON r; tc_NotBefore := lf_NotBefore leaf; tc_NotAfter := lf_NotAfter leaf |}.

(** The writes, up to the invalidation they defer; [false] is an error before it is deferred. *)
Definition StoreCertificate (domainName : string) (cert : tlsCertificate) (salt nonce : string) (st : cert_state) : bool * cert_state :=
  match marshalCertificate cert with
  | None => (false, st)
  | Some (certPEM, keyPEM, leaf) =>
      let name := normalizeDomain domainName in
      let '(keyPEM, keys) := seal_key keyPEM salt nonce (argon_keys st) in
      (true,
       match List.find (λ r, String.eqb (tc_Domain r) name) (tls_rows st) with
       | None =>
           with_table st (tls_rows st ++ [{| tc_ID := next_row st; tc_Domain := name; tc_IssuerKey := ""; tc_Certificate := certPEM; tc_PrivateKey := keyPEM;
             tc_MetadataJSON := ""; tc_NotBefore := lf_NotBefore leaf; tc_NotAfter := lf_NotAfter leaf |}]) (next_row st + 1) keys
       | Some existing =>
           with_table st (map (λ r, if N.eqb (tc_ID r) (tc_ID existing) then with_pair existing certPEM keyPEM leaf else r) (tls_rows st)) (next_row st) keys
       end)
  end.

Definition StorePEM (domainName issuerKey certPEM keyPEM metadata salt nonce : string) (st : cert_state) : bool * cert_state :=
  let '(storedKey, keys) := seal_key keyPEM salt nonce (argon_keys st) in
  let failed := (false, with_table st (tls_rows st) (next_row st) keys) in
  match X509KeyPair certPEM keyPEM with
  | None => failed
  | Some loaded =>
      match tl_Certificate loaded with
      | [] => failed
      | der :: _ =>
          match ParseCertificate der with
          | None => failed
          | Some leaf =>
              let name := normalizeDomain domainName in
              (true, with_table st (List.filter (λ r, negb (String.eqb (tc_Domain r) name)) (tls_rows st) ++
                [{| tc_ID := next_row st; tc_Domain := name; tc_IssuerKey := issuerKey; tc_Certificate := certPEM; tc_PrivateKey := storedKey;
                    tc_MetadataJSON := metadata; tc_NotBefore := lf_NotBefore leaf; tc_NotAfter := lf_NotAfter leaf |}]) (next_row st + 1) keys)
          end
      end
  end.

Definition DeleteCertificate (domainName : string) (st : cert_state) : cert_state :=
  with_table st (List.filter (λ r, negb (String.eqb (tc_Domain r) (normalizeDomain domainName))) (tls_rows st)) (next_row st) (argon_keys st).

(** Private keys stored before encryption was configured; the salts and nonces are drawn in the order of the rows. The source reads
    the rows and updates them one by one; it is called once, at start, and is one step here, without a failing update. *)
Fixpoint migrate_rows (secret : string) (rows : list StoredTLSCertificate) (random : list (string * string)) (keys : key_cache)
  : list StoredTLSCertificate * nat * key_cache :=
  match rows with
  | [] => ([], 0%nat, keys)
  | row :: rest =>
      if IsEncryptedValue (tc_PrivateKey row) || negb (non_empty (tc_PrivateKey row))
      then let '(rest, n, keys) := migrate_rows secret rest random keys in (row :: rest, n, keys)
      else
        let '(salt, nonce) := default ("", "") (head random) in
        let '(sealed, keys) := EncryptStringV2 secret (tc_PrivateKey row) salt nonce keys in
        let row := {| tc_ID := tc_ID row; tc_Domain := tc_Domain row; tc_IssuerKey := tc_IssuerKey row; tc_Certificate := tc_Certificate row;
                      tc_PrivateKey := sealed; tc_MetadataJSON := tc_MetadataJSON row; tc_NotBefore := tc_NotBefore row; tc_NotAfter := tc_NotAfter row |} in
        let '(rest, n, keys) := migrate_rows secret rest (tail random) keys in (row :: rest, S n, keys)
  end.
Definition MigrateStoredPrivateKeys (random : list (string * string)) (st : cert_state) : nat * cert_state :=
  match dataSecrets with
  | [] => (0%nat, st)
  | secret :: _ =>
      let '(rows, n, keys) := migrate_rows secret (tls_rows st) random (argon_keys st) in
      let st := with_table st rows (next_row st) keys in
      (n, if (n =? 0)%nat then st else invalidateAll st)
  end.

(** ** Goroutines *)

Definition random_ok (salt nonce : string) : Prop := String.length salt = argon2SaltLen ∧ String.length nonce = nonceSize.

(** Removing one writer that has gone on. *)
Fixpoint remove_one (name : string) (l : list string) : list string :=
  match l with [] => [] | x :: rest => if String.eqb x name then rest else x :: remove_one name rest end.

Inductive cert_step : cert_state → cert_state → Prop :=
  | step_get now name st : cert_step st (GetCertificate now name st).2
  | step_begin id c st : calls st !! id = Some c → cl_gen c = None → cert_step st (refresh_begin id st)
  | step_load answered id c st : calls st !! id = Some c → is_Some (cl_gen c) → cl_result c = None → cert_step st (refresh_load answered id st)
  | step_end now id r st st' : refresh_end now id st = Some (r, st') → cert_step st st'
  | step_store name cert salt nonce st st' : random_ok salt nonce → StoreCertificate name cert salt nonce st = (true, st') →
      cert_step st (with_writers st' (normalizeDomain name :: unflushed st') (unforgotten st'))
  | step_pem name issuer certPEM keyPEM metadata salt nonce done st st' :
      random_ok salt nonce → StorePEM name issuer certPEM keyPEM metadata salt nonce st = (done, st') →
      cert_step st (if done then with_writers st' (normalizeDomain name :: unflushed st') (unforgotten st') else st')
  | step_delete name st :
      cert_step st (with_writers (DeleteCertificate name st) (normalizeDomain name :: unflushed st) (unforgotten st))
  | step_failed name st : cert_step st (with_writers st (normalizeDomain name :: unflushed st) (unforgotten st))
  | step_invalidate name st : name ∈ unflushed st →
      cert_step st (with_writers (invalidate_locked name st) (remove_one name (unflushed st)) (name :: unforgotten st))
  | step_forget name st : name ∈ unforgotten st →
      cert_step st (with_writers (Forget name st) (unflushed st) (remove_one name (unforgotten st)))
  | step_migrate random st : Forall (λ r, random_ok r.1 r.2) random → (length (tls_rows st) ≤ length random)%nat →
      cert_step st (MigrateStoredPrivateKeys random st).2.

Definition no_keys : key_cache := {| argon2KeyCache := ∅; argon2CacheCount := 0 |}.
Definition cert_start (rows : list StoredTLSCertificate) (next : N) : cert_state :=
  {| tls_rows := rows; next_row := next; argon_keys := no_keys; hits := ∅; misses := ∅; gen := 0; calls := ∅; group := ∅; next_call := 0;
     unflushed := []; unforgotten := [] |}.

(** No write to the name is on its way to the cache. *)
Definition quiet (name : string) (st : cert_state) : Prop := name ∉ unflushed st ∧ name ∉ unforgotten st.

(** What the table holds. *)
Definition stored (st : cert_state) (name : string) : result load_error tlsCertificate := (LoadCertificate (tls_rows st) name no_keys).1.
End store.

(** * Keys that are memoised change no answer *)

Section keys.
Context `{PrimitivesLaws}.

Lemma substring_length n s : (n ≤ String.length s)%nat → String.length (String.substring 0 n s) = n.
Proof. revert n. induction s as [|a s IH]; intros [|n] Hn; cbn in *; [done|lia|done|]. rewrite IH by lia. done. Qed.

Lemma DecryptStringV2_keys secret value c c' :
  cache_ok c → cache_ok c' →
  (DecryptStringV2 secret value c).1 = (DecryptStringV2 secret value c').1 ∧ cache_ok (DecryptStringV2 secret value c).2.
Proof.
  intros Hc Hc'. unfold DecryptStringV2. destruct (negb _); [done|]. destruct (b64_Decode _) as [raw|]; [|done].
  destruct (String.length raw <? argon2SaltLen + 12)%nat eqn:Hl; [done|]. apply Nat.ltb_ge in Hl.
  assert (String.length (String.substring 0 argon2SaltLen raw) = argon2SaltLen) as Hs by (apply substring_length; lia).
  destruct (derive_ok secret _ c Hs Hc) as [Hk Hok]. destruct (derive_ok secret _ c' Hs Hc') as [Hk' _].
  destruct (deriveArgon2Key secret _ c) as [k c1], (deriveArgon2Key secret _ c') as [k' c2]. cbn in *. by subst.
Qed.

Lemma try_secrets_keys value secrets e c c' :
  cache_ok c → cache_ok c' →
  (try_secrets (λ secret, DecryptStringV2 secret value) secrets e c).1 = (try_secrets (λ secret, DecryptStringV2 secret value) secrets e c').1 ∧
  cache_ok (try_secrets (λ secret, DecryptStringV2 secret value) secrets e c).2.
Proof.
  revert e c c'. induction secrets as [|secret rest IH]; intros e c c' Hc Hc'; cbn [try_secrets]; [done|]. destruct (negb _); [by apply IH|].
  destruct (DecryptStringV2_keys secret value c c' Hc Hc') as [Heq Hok]. destruct (DecryptStringV2_keys secret value c' c Hc' Hc) as [_ Hok'].
  destruct (DecryptStringV2 secret value c) as [[out|x] c1], (DecryptStringV2 secret value c') as [[out'|x'] c2]; cbn in *; simplify_eq; [done|]. by apply IH.
Qed.

Lemma DecryptStringAuto_keys secrets value c c' :
  cache_ok c → cache_ok c' →
  (DecryptStringAuto secrets value c).1 = (DecryptStringAuto secrets value c').1 ∧ cache_ok (DecryptStringAuto secrets value c).2.
Proof.
  intros Hc Hc'. unfold DecryptStringAuto. destruct (IsEncryptedValueV2 _); [by apply try_secrets_keys|]. by destruct (IsEncryptedValueV1 _).
Qed.
End keys.

(** * Coherence *)

Section coherence.
Context `{PrimitivesLaws}.
Variable X509KeyPair : string → string → option tlsCertificate.
Variable ParseCertificate : string → option x509Leaf.
Variable MarshalPKCS8PrivateKey : string → option string.
Variable pem_Encode : string → string → string.
Variable secrets : list string.

Abbreviation dataSecrets := (normalized_secrets secrets).
Abbreviation load rows name := (LoadCertificate X509KeyPair ParseCertificate dataSecrets rows name no_keys).1.
Abbreviation stored := (stored X509KeyPair ParseCertificate dataSecrets).
Abbreviation cert_step := (cert_step X509KeyPair ParseCertificate MarshalPKCS8PrivateKey pem_Encode dataSecrets).

Definition normal (name : string) : Prop := normalizeDomain name = name.

Lemma normalizeDomain_normal v : normal (normalizeDomain v).
Proof. unfold normal, normalizeDomain. by rewrite TrimSpace_ToLower, TrimSpace_idem, ToLower_idem. Qed.

Lemma LoadCertificate_keys rows name c :
  cache_ok c →
  (LoadCertificate X509KeyPair ParseCertificate dataSecrets rows name c).1 = load rows name ∧
  cache_ok (LoadCertificate X509KeyPair ParseCertificate dataSecrets rows name c).2.
Proof.
  intros Hc. unfold LoadCertificate. destruct (List.find _ _) as [item|]; [|done]. destruct (IsEncryptedValue _).
  - destruct (DecryptStringAuto_keys dataSecrets (tc_PrivateKey item) c no_keys Hc cache_empty_ok) as [Heq Hok].
    destruct (DecryptStringAuto _ _ c) as [k c1], (DecryptStringAuto _ _ no_keys) as [k' c2]. cbn in *. subst k'. destruct k; [|done].
    by destruct (X509KeyPair _ _).
  - by destruct (X509KeyPair _ _).
Qed.

Record cert_inv (st : cert_state) : Prop := {
  ci_ids : NoDup (map tc_ID (tls_rows st));
  ci_next : ∀ r, r ∈ tls_rows st → (tc_ID r < next_row st)%N;
  ci_keys : cache_ok (argon_keys st);
  ci_hits : ∀ name e, hits st !! name = Some e → normal name ∧ (name ∈ unflushed st ∨ stored st name = Ok (cc_cert e));
  ci_misses : ∀ name t, misses st !! name = Some t → normal name ∧ (name ∈ unflushed st ∨ stored st name = Err ErrRecordNotFound);
  ci_calls : ∀ id c, calls st !! id = Some c → normal (cl_name c) ∧ (id < next_call st)%N ∧
    (∀ g, cl_gen c = Some g → (g ≤ gen st)%N) ∧ (cl_gen c = None → cl_result c = None) ∧
    (∀ r, cl_result c = Some r → cl_gen c = Some (gen st) → r = Err ErrLoad ∨ cl_name c ∈ unflushed st ∨ stored st (cl_name c) = r);
  ci_group : ∀ name id, group st !! name = Some id → ∃ c, calls st !! id = Some c ∧ cl_name c = name ∧
    ∀ r, cl_result c = Some r → r = Err ErrLoad ∨ name ∈ unflushed st ∨ name ∈ unforgotten st ∨ stored st name = r;
}.

Lemma remove_one_other name x l : x ≠ name → x ∈ l → x ∈ remove_one name l.
Proof.
  intros Hne. induction l as [|y l IH]; [done|]. intros [->|Hx]%elem_of_cons; cbn [remove_one].
  - rewrite (proj2 (String.eqb_neq y name) Hne). by left.
  - destruct (String.eqb y name); [done|right; auto].
Qed.

(** ** The cache *)

Lemma DoChan_inv name st : normal name → cert_inv st → cert_inv (DoChan name st).2.
Proof.
  intros Hn [Hids Hnext Hkeys Hhits Hmiss Hcalls Hgroup]. unfold DoChan. destruct (group st !! name) as [id|] eqn:Hg; [by split|].
  split; cbn; try done.
  - intros id c [[<- <-]|[Hne Hc]]%lookup_insert_Some; cbn; [split_and!; [done|lia|done|done|done]|].
    destruct (Hcalls id c Hc) as (? & ? & ? & ? & ?). split_and!; [done|lia|done|done|done].
  - intros n id [[<- <-]|[Hne Hi]]%lookup_insert_Some.
    + eexists. split; [apply lookup_insert_eq|]. by split.
    + destruct (Hgroup n id Hi) as (c & Hc & ?). exists c. split; [|done]. rewrite lookup_insert_ne; [done|].
      destruct (Hcalls id c Hc) as (_ & ? & _). lia.
Qed.

Lemma get_inv now name st : cert_inv st → cert_inv (GetCertificate now name st).2.
Proof.
  intros Hi. unfold GetCertificate, cache_lookup. set (n := normalizeDomain name). pose proof (normalizeDomain_normal name) as Hn. fold n in Hn.
  pose proof (DoChan_inv n st Hn Hi) as Hd. destruct (hits st !! n) as [e|]; [by destruct (_ <=? _)%Z|].
  destruct (match misses st !! n with Some at_ => _ | None => false end); [done|]. by destruct (DoChan n st).
Qed.

Lemma begin_inv id c st : calls st !! id = Some c → cl_gen c = None → cert_inv st → cert_inv (refresh_begin id st).
Proof.
  intros Hc Hg [Hids Hnext Hkeys Hhits Hmiss Hcalls Hgroup]. unfold refresh_begin. rewrite Hc.
  destruct (Hcalls id c Hc) as (Hn & Hid & _ & Hres & _). specialize (Hres Hg). split; cbn; try done.
  - intros i x [[<- <-]|[Hne Hx]]%lookup_insert_Some; cbn; [|by apply Hcalls]. rewrite Hres. split_and!; [done|done| |done|done].
    intros g [= <-]. lia.
  - intros n i Hi. destruct (Hgroup n i Hi) as (x & Hx & Hname & Hr). destruct (decide (i = id)) as [->|Hne].
    + rewrite Hc in Hx. injection Hx as <-. eexists. split; [apply lookup_insert_eq|]. cbn. rewrite Hres. by split.
    + exists x. by rewrite lookup_insert_ne.
Qed.

Lemma load_inv answered id c st :
  calls st !! id = Some c → is_Some (cl_gen c) → cert_inv st → cert_inv (refresh_load X509KeyPair ParseCertificate dataSecrets answered id st).
Proof.
  intros Hc Hg [Hids Hnext Hkeys Hhits Hmiss Hcalls Hgroup]. unfold refresh_load. rewrite Hc.
  destruct (Hcalls id c Hc) as (Hn & Hid & Hle & Hres & _).
  assert (∃ r keys, (if answered then LoadCertificate X509KeyPair ParseCertificate dataSecrets (tls_rows st) (cl_name c) (argon_keys st)
                     else (Err ErrLoad, argon_keys st)) = (r, keys) ∧ cache_ok keys ∧ (r = Err ErrLoad ∨ stored st (cl_name c) = r)) as (r & keys & -> & Hok & Hr).
  { destruct answered; [|eexists _, _; by split_and!; [|auto|left]].
    destruct (LoadCertificate_keys (tls_rows st) (cl_name c) (argon_keys st) Hkeys) as [Heq Hok].
    eexists _, _. split; [apply surjective_pairing|]. split; [done|]. right. by rewrite Heq. }
  split; cbn; try done.
  - intros i x [[<- <-]|[Hne Hx]]%lookup_insert_Some; cbn; [|by apply Hcalls]. split_and!; [done|done|done| |].
    + intros He. by destruct Hg as [g Hg]; rewrite Hg in He.
    + intros r' [= <-] _. destruct Hr; auto.
  - intros n i Hi. destruct (Hgroup n i Hi) as (x & Hx & Hname & Hold). destruct (decide (i = id)) as [->|Hne].
    + rewrite Hc in Hx. injection Hx as <-. eexists. split; [apply lookup_insert_eq|]. cbn. split; [done|]. intros r' [= <-].
      destruct Hr as [?|Hr]; [auto|]. rewrite <-Hname. auto.
    + exists x. by rewrite lookup_insert_ne.
Qed.

Lemma refresh_store_inv now id c r st :
  calls st !! id = Some c → cl_result c = Some r → cert_inv st → cert_inv (refresh_store now c r st).
Proof.
  intros Hc Hr [Hids Hnext Hkeys Hhits Hmiss Hcalls Hgroup]. unfold refresh_store. case_bool_decide as Hg; cbn [negb]; [|by split].
  destruct (Hcalls id c Hc) as (Hn & _ & _ & _ & Hcur). specialize (Hcur r Hr Hg). destruct r as [cert|[|]].
  - destruct Hcur as [?|Hcur]; [done|]. split; cbn; try done.
    + intros n e [[<- <-]|[_ He]]%lookup_insert_Some; [by split|by apply Hhits].
    + intros n t [_ He]%lookup_delete_Some. by apply (Hmiss n t).
  - destruct Hcur as [?|Hcur]; [done|]. split; cbn; try done.
    + intros n e [_ He]%lookup_delete_Some. by apply Hhits.
    + intros n t [[<- <-]|[_ He]]%lookup_insert_Some; [by split|]. match type of He with (if ?b then _ else _) !! _ = _ => destruct b end; [by rewrite lookup_empty in He|]. by apply (Hmiss n t).
  - destruct (hits st !! cl_name c) as [e|] eqn:He; [|by split]. split; cbn; try done.
    intros n e' [[<- <-]|[_ He']]%lookup_insert_Some; [|by apply Hhits]. exact (Hhits _ _ He).
Qed.

Lemma end_inv now id r st st' : refresh_end now id st = Some (r, st') → cert_inv st → cert_inv st'.
Proof.
  unfold refresh_end. destruct (calls st !! id) as [c|] eqn:Hc; [|done]. destruct (cl_result c) as [r'|] eqn:Hr; [|done].
  intros [= <- <-] Hi. pose proof (refresh_store_inv now id c r' st Hc Hr Hi) as Hi'. set (s := refresh_store now c r' st) in *.
  assert (calls s = calls st ∧ group s = group st) as [Hcs Hgs].
  { unfold s, refresh_store. destruct (negb _); [done|]. destruct r' as [?|[]]; [done|done|]. by destruct (hits st !! _). }
  destruct Hi' as [Hids Hnext Hkeys Hhits Hmiss Hcalls Hgroup]. split; cbn; try done.
  - intros i x [_ Hx]%lookup_delete_Some. by apply Hcalls.
  - intros n i Hn. assert (group s !! n = Some i ∧ i ≠ id) as [Hg Hne].
    { case_bool_decide as Hd; [apply lookup_delete_Some in Hn as [Hne Hn]|].
      - split; [done|]. intros ->. destruct (Hgroup n id Hn) as (x & Hx & Hname & _). rewrite Hcs, Hc in Hx. injection Hx as <-. done.
      - split; [done|]. intros ->. destruct (Hgroup n id Hn) as (x & Hx & Hname & _). rewrite Hcs, Hc in Hx. injection Hx as <-. by subst n. }
    destruct (Hgroup n i Hg) as (x & Hx & ?). exists x. by rewrite lookup_delete_ne.
Qed.

(** ** Invalidation *)

Lemma invalidate_inv name st :
  cert_inv st → cert_inv (with_writers (invalidate_locked name st) (remove_one name (unflushed st)) (name :: unforgotten st)).
Proof.
  intros [Hids Hnext Hkeys Hhits Hmiss Hcalls Hgroup]. split; cbn; try done.
  - intros n e [Hne He]%lookup_delete_Some. destruct (Hhits n e He) as [? [?|?]]; [|auto]. auto using remove_one_other.
  - intros n t [Hne He]%lookup_delete_Some. destruct (Hmiss n t He) as [? [?|?]]; [|auto]. auto using remove_one_other.
  - intros id c Hc. destruct (Hcalls id c Hc) as (? & ? & Hle & ? & _). split_and!; [done|done| |done|].
    + intros g Hg. specialize (Hle g Hg). lia.
    + intros r _ Hg. specialize (Hle _ Hg). lia.
  - intros n id Hi. destruct (Hgroup n id Hi) as (c & Hc & Hname & Hr). exists c. split; [done|]. split; [done|]. intros r Hcr.
    destruct (decide (n = name)) as [->|Hne]; [right; right; left; by left|].
    destruct (Hr r Hcr) as [?|[?|[?|?]]]; [auto|auto using remove_one_other|right; right; left; by right|auto].
Qed.

Lemma forget_inv name st : cert_inv st → cert_inv (with_writers (Forget name st) (unflushed st) (remove_one name (unforgotten st))).
Proof.
  intros [Hids Hnext Hkeys Hhits Hmiss Hcalls Hgroup]. split; cbn; try done.
  intros n id [Hne Hi]%lookup_delete_Some. destruct (Hgroup n id Hi) as (c & Hc & Hname & Hr). exists c. split; [done|]. split; [done|].
  intros r Hcr. destruct (Hr r Hcr) as [?|[?|[?|?]]]; auto using remove_one_other.
Qed.

(** ** Writes *)

(** The table changes for one name, and the write is on its way to the cache. *)
Lemma write_inv n rows next keys st :
  cert_inv st → NoDup (map tc_ID rows) → (∀ r, r ∈ rows → (tc_ID r < next)%N) → cache_ok keys →
  (∀ m, normal m → m ≠ n → load rows m = stored st m) →
  cert_inv (with_writers (with_table st rows next keys) (n :: unflushed st) (unforgotten st)).
Proof.
  intros [_ _ _ Hhits Hmiss Hcalls Hgroup] Hids Hnext Hkeys Hsame.
  assert (∀ m r, normal m → m ∈ unflushed st ∨ stored st m = r → m ∈ n :: unflushed st ∨ load rows m = r) as Hgo.
  { intros m r Hm Hor. destruct (decide (m = n)) as [->|Hne]; [left; by left|]. rewrite Hsame by done.
    destruct Hor; [left; by right|by right]. }
  split; cbn; try done.
  - intros m e He. destruct (Hhits m e He) as [Hm Hor]. split; [done|]. by apply Hgo.
  - intros m t He. destruct (Hmiss m t He) as [Hm Hor]. split; [done|]. by apply Hgo.
  - intros id c Hc. destruct (Hcalls id c Hc) as (Hm & ? & ? & ? & Hr). split_and!; try done.
    intros r Hcr Hg. destruct (Hr r Hcr Hg) as [?|Hor]; [by left|right]. by apply Hgo.
  - intros m id Hi. destruct (Hgroup m id Hi) as (c & Hc & Hname & Hr). exists c. split; [done|]. split; [done|].
    destruct (Hcalls id c Hc) as (Hm & _). rewrite Hname in Hm.
    intros r Hcr. destruct (Hr r Hcr) as [?|[Hor|[?|Hor]]]; [by left| |right; right; by left|].
    + destruct (Hgo m r Hm (or_introl Hor)); auto.
    + destruct (Hgo m r Hm (or_intror Hor)); auto.
Qed.

Lemma load_same rows rows' m :
  List.find (λ r, String.eqb (tc_Domain r) (normalizeDomain m)) rows' = List.find (λ r, String.eqb (tc_Domain r) (normalizeDomain m)) rows →
  load rows' m = load rows m.
Proof. intros Hf. unfold LoadCertificate. by rewrite Hf. Qed.

Lemma find_filtered {A} (p q : A → bool) l : (∀ x, p x = true → q x = true) → List.find p (List.filter q l) = List.find p l.
Proof.
  intros Hpq. induction l as [|x l IH]; [done|]. cbn [List.filter List.find]. destruct (q x) eqn:Hq; cbn [List.find]; [by rewrite IH|].
  destruct (p x) eqn:Hp; [by rewrite (Hpq x Hp) in Hq|done].
Qed.

Lemma find_last {A} (p : A → bool) l x : p x = false → List.find p (l ++ [x]) = List.find p l.
Proof. intros Hx. induction l as [|y l IH]; cbn; [by rewrite Hx|]. by rewrite IH. Qed.

Lemma other_domain d m n : d = n → normal m → m ≠ n → String.eqb d (normalizeDomain m) = false.
Proof. intros -> Hm Hne. rewrite Hm. apply String.eqb_neq. congruence. Qed.

Lemma filter_ids (q : StoredTLSCertificate → bool) rows : NoDup (map tc_ID rows) → NoDup (map tc_ID (List.filter q rows)).
Proof.
  induction rows as [|r l IH]; [done|]. cbn [map List.filter]. intros [Hni Hnd]%NoDup_cons. destruct (q r); [|by apply IH]. cbn [map].
  apply NoDup_cons. split; [|by apply IH]. intros (x & He & Hx)%list_elem_of_fmap. apply Hni. rewrite He. apply list_elem_of_fmap_2.
  apply list_elem_of_In, List.filter_In in Hx as [Hx _]. by apply list_elem_of_In.
Qed.

Lemma delete_inv name st :
  cert_inv st → cert_inv (with_writers (DeleteCertificate name st) (normalizeDomain name :: unflushed st) (unforgotten st)).
Proof.
  intros Hi. apply write_inv; [done| | |apply Hi|].
  - apply filter_ids, Hi.
  - intros r Hr. apply list_elem_of_In, List.filter_In in Hr as [Hr _]. by apply (ci_next _ Hi), list_elem_of_In.
  - intros m Hm Hne. apply load_same. apply find_filtered. intros r Hr%String.eqb_eq. rewrite Hr, Hm. by apply negb_true_iff, String.eqb_neq.
Qed.

Lemma seal_ok keyPEM salt nonce keys : random_ok salt nonce → cache_ok keys → cache_ok (seal_key dataSecrets keyPEM salt nonce keys).2.
Proof.
  intros [Hs _] Hk. unfold seal_key. destruct dataSecrets as [|secret l]; [done|]. destruct (IsEncryptedValue keyPEM); [done|].
  unfold EncryptStringV2. destruct (derive_ok secret salt keys Hs Hk) as [_ Hok]. by destruct (deriveArgon2Key secret salt keys).
Qed.

Lemma snoc_ids rows (r : StoredTLSCertificate) next :
  NoDup (map tc_ID rows) → (∀ x, x ∈ rows → (tc_ID x < next)%N) → tc_ID r = next →
  NoDup (map tc_ID (rows ++ [r])) ∧ ∀ x, x ∈ rows ++ [r] → (tc_ID x < next + 1)%N.
Proof.
  intros Hnd Hlt Hr. split.
  - rewrite map_app. apply NoDup_app. split_and!; [done| |apply NoDup_singleton].
    intros x (y & -> & Hy)%list_elem_of_fmap He%list_elem_of_singleton. specialize (Hlt y Hy). lia.
  - intros x [Hx|Hx]%elem_of_app; [specialize (Hlt x Hx); lia|]. apply list_elem_of_singleton in Hx as ->. lia.
Qed.

Lemma pem_inv name issuer certPEM keyPEM metadata salt nonce done st st' :
  random_ok salt nonce → StorePEM X509KeyPair ParseCertificate dataSecrets name issuer certPEM keyPEM metadata salt nonce st = (done, st') → cert_inv st →
  cert_inv (if done then with_writers st' (normalizeDomain name :: unflushed st') (unforgotten st') else st').
Proof.
  intros Hrand Hs Hi. unfold StorePEM in Hs. pose proof (seal_ok keyPEM salt nonce (argon_keys st) Hrand (ci_keys _ Hi)) as Hkeys.
  destruct (seal_key dataSecrets keyPEM salt nonce (argon_keys st)) as [storedKey keys]. cbn [snd] in Hkeys. cbv zeta in Hs.
  assert (cert_inv (with_table st (tls_rows st) (next_row st) keys)) as Hfail by (destruct Hi; by split).
  destruct (X509KeyPair certPEM keyPEM) as [cert|]; [|by injection Hs as <- <-]. destruct (tl_Certificate cert); [by injection Hs as <- <-|].
  destruct (ParseCertificate _); [|by injection Hs as <- <-]. injection Hs as <- <-. cbn [unflushed unforgotten with_table].
  destruct (snoc_ids (List.filter (λ r, negb (String.eqb (tc_Domain r) (normalizeDomain name))) (tls_rows st))
    {| tc_ID := next_row st; tc_Domain := normalizeDomain name; tc_IssuerKey := issuer; tc_Certificate := certPEM; tc_PrivateKey := storedKey;
       tc_MetadataJSON := metadata; tc_NotBefore := lf_NotBefore x; tc_NotAfter := lf_NotAfter x |} (next_row st)) as [Hnd Hlt]; [apply filter_ids, Hi| |done|].
  { intros r Hr. apply list_elem_of_In, List.filter_In in Hr as [Hr _]. by apply (ci_next _ Hi), list_elem_of_In. }
  apply write_inv; [done|exact Hnd|exact Hlt|done|]. intros m Hm Hne. apply load_same. rewrite find_last by (by eapply other_domain).
  apply find_filtered. intros r Hr%String.eqb_eq. rewrite Hr, Hm. by apply negb_true_iff, String.eqb_neq.
Qed.

Lemma find_mapped {A} (p : A → bool) (f : A → A) l :
  (∀ x, x ∈ l → f x = x ∨ (p x = false ∧ p (f x) = false)) → List.find p (map f l) = List.find p l.
Proof.
  induction l as [|x l IH]; intros Hx; [done|]. cbn [map List.find]. rewrite IH by (intros; apply Hx; by right).
  destruct (Hx x ltac:(by left)) as [->|[-> ->]]; done.
Qed.

Lemma row_by_id rows r r' : NoDup (map tc_ID rows) → r ∈ rows → r' ∈ rows → tc_ID r = tc_ID r' → r = r'.
Proof.
  induction rows as [|x l IH]; intros Hnd Hr Hr' He; [by apply elem_of_nil in Hr|]. cbn [map] in Hnd. apply NoDup_cons in Hnd as [Hni Hnd].
  apply elem_of_cons in Hr as [->|Hr]; apply elem_of_cons in Hr' as [->|Hr']; [done| | |by apply IH].
  - destruct Hni. rewrite He. by apply list_elem_of_fmap_2.
  - destruct Hni. rewrite <-He. by apply list_elem_of_fmap_2.
Qed.

Lemma store_cert_inv name cert salt nonce st st' :
  random_ok salt nonce →
  StoreCertificate ParseCertificate MarshalPKCS8PrivateKey pem_Encode dataSecrets name cert salt nonce st = (true, st') → cert_inv st →
  cert_inv (with_writers st' (normalizeDomain name :: unflushed st') (unforgotten st')).
Proof.
  intros Hrand Hs Hi. unfold StoreCertificate in Hs. destruct (marshalCertificate _ _ _ _) as [[[certPEM keyPEM] leaf]|]; [|done].
  pose proof (seal_ok keyPEM salt nonce (argon_keys st) Hrand (ci_keys _ Hi)) as Hkeys. cbv zeta in Hs.
  destruct (seal_key dataSecrets keyPEM salt nonce (argon_keys st)) as [storedKey keys]. cbn [snd] in Hkeys. injection Hs as <-.
  destruct (List.find _ _) as [existing|] eqn:Hf; cbn [unflushed unforgotten with_table].
  - apply List.find_some in Hf as [Hin Hd]. apply list_elem_of_In in Hin. apply String.eqb_eq in Hd.
    apply write_inv; [done| | |done|].
    + rewrite map_map. erewrite map_ext; [apply Hi|]. intros r. destruct (N.eqb_spec (tc_ID r) (tc_ID existing)); [by cbn|done].
    + intros r (x & -> & Hx)%list_elem_of_fmap. destruct (N.eqb _ _); [by apply (ci_next _ Hi existing)|by apply (ci_next _ Hi)].
    + intros m Hm Hne. apply load_same. apply find_mapped. intros x Hx. destruct (N.eqb_spec (tc_ID x) (tc_ID existing)) as [He|]; [right|by left].
      rewrite (row_by_id _ x existing (ci_ids _ Hi) Hx Hin He). cbn [with_pair tc_Domain]. by split; eapply other_domain.
  - destruct (snoc_ids (tls_rows st) {| tc_ID := next_row st; tc_Domain := normalizeDomain name; tc_IssuerKey := ""; tc_Certificate := certPEM;
      tc_PrivateKey := storedKey; tc_MetadataJSON := ""; tc_NotBefore := lf_NotBefore leaf; tc_NotAfter := lf_NotAfter leaf |} (next_row st)) as [Hnd Hlt];
      [apply Hi|apply Hi|done|].
    apply write_inv; [done|exact Hnd|exact Hlt|done|]. intros m Hm Hne. apply load_same. apply find_last. by eapply other_domain.
Qed.

(** ** Migration *)

Lemma secrets_usable secret : secret ∈ dataSecrets → secret ≠ "".
Proof. intros Hin. apply list_elem_of_In, List.filter_In in Hin as [_ Hne]. by apply non_empty_true. Qed.

(** Sealing the stored keys changes nothing anyone can load. *)
Lemma migrate_rows_spec secret rows random keys :
  secret ∈ dataSecrets → Forall (λ r, random_ok r.1 r.2) random → (length rows ≤ length random)%nat → cache_ok keys →
  let '(rows', n, keys') := migrate_rows secret rows random keys in
  cache_ok keys' ∧ map tc_ID rows' = map tc_ID rows ∧ (∀ m, load rows' m = load rows m) ∧
  Forall (λ r, IsEncryptedValue (tc_PrivateKey r) = true ∨ tc_PrivateKey r = "") rows'.
Proof.
  intros Hin. revert random keys. induction rows as [|row rest IH]; intros random keys Hrand Hlen Hok; [done|]. cbn [migrate_rows].
  destruct (IsEncryptedValue (tc_PrivateKey row) || negb (non_empty (tc_PrivateKey row))) eqn:Hskip.
  - specialize (IH random keys Hrand ltac:(cbn in Hlen; lia) Hok). destruct (migrate_rows secret rest random keys) as [[rest' n] keys'].
    destruct IH as (? & Hids & Hload & Hall). split_and!; [done|cbn; by rewrite Hids| |].
    + intros m. unfold LoadCertificate in *. cbn [List.find]. destruct (String.eqb _ _); [done|apply Hload].
    + constructor; [|done]. apply orb_true_iff in Hskip as [?|He]; [by left|right]. apply negb_true_iff in He. by destruct (tc_PrivateKey row).
  - destruct random as [|[salt nonce] random]; [cbn in Hlen; lia|]. apply Forall_cons in Hrand as [[Hs Hn] Hrand]. change (default ("", "") (head ((salt, nonce) :: random))) with (salt, nonce).
    cbn [fst snd] in Hs, Hn. apply orb_false_iff in Hskip as [Hplain _].
    destruct (sealed_v2_opens dataSecrets secret (tc_PrivateKey row) salt nonce keys no_keys Hin (secrets_usable _ Hin) Hs Hn Hok cache_empty_ok) as (Hopen & Henc & Hok1).
    destruct (EncryptStringV2 secret (tc_PrivateKey row) salt nonce keys) as [sealed keys1]. cbn [fst snd] in *.
    specialize (IH random keys1 Hrand ltac:(cbn in Hlen; lia) Hok1). cbv beta iota zeta. cbn [tail]. destruct (migrate_rows secret rest random keys1) as [[rest' n] keys'].
    destruct IH as (? & Hids & Hload & Hall). split_and!; [done|cbn; by rewrite Hids| |constructor; [by left|done]].
    intros m. unfold LoadCertificate in *. cbn [List.find tc_Domain]. destruct (String.eqb _ _); [|apply Hload]. cbn [tc_PrivateKey tc_Certificate].
    rewrite Henc, Hplain. destruct (DecryptStringAuto dataSecrets sealed no_keys) as [k ks]. cbn in Hopen. subst k. by destruct (X509KeyPair _ _).
Qed.

Lemma table_same_inv rows keys st :
  cert_inv st → map tc_ID rows = map tc_ID (tls_rows st) → cache_ok keys → (∀ m, load rows m = stored st m) → cert_inv (with_table st rows (next_row st) keys).
Proof.
  intros [Hids Hnext _ Hhits Hmiss Hcalls Hgroup] Hmap Hkeys Hsame.
  assert (∀ m, stored (with_table st rows (next_row st) keys) m = stored st m) as Hst by exact Hsame. split; try done.
  - cbn. by rewrite Hmap.
  - cbn. intros r Hr. assert (tc_ID r ∈ map tc_ID (tls_rows st)) as Hin by (rewrite <-Hmap; by apply list_elem_of_fmap_2).
    apply list_elem_of_fmap in Hin as (x & -> & Hx). by apply Hnext.
  - intros n e. rewrite Hst. apply Hhits.
  - intros n t. rewrite Hst. apply Hmiss.
  - intros id c. rewrite Hst. apply Hcalls.
  - intros n id. setoid_rewrite Hst. apply Hgroup.
Qed.

Lemma invalidateAll_inv st : cert_inv st → cert_inv (invalidateAll st).
Proof.
  intros [Hids Hnext Hkeys Hhits Hmiss Hcalls Hgroup]. split; try done; cbn [invalidateAll with_cache gen calls next_call].
  intros id c Hc. destruct (Hcalls id c Hc) as (? & ? & Hle & ? & _). split_and!; [done|done| |done|].
  - intros g Hg. specialize (Hle g Hg). lia.
  - intros r _ Hg. specialize (Hle _ Hg). lia.
Qed.

Lemma migrate_inv random st :
  Forall (λ r, random_ok r.1 r.2) random → (length (tls_rows st) ≤ length random)%nat → cert_inv st →
  cert_inv (MigrateStoredPrivateKeys dataSecrets random st).2.
Proof.
  intros Hrand Hlen Hi. unfold MigrateStoredPrivateKeys. destruct dataSecrets as [|secret l] eqn:Hsec; [done|].
  pose proof (migrate_rows_spec secret (tls_rows st) random (argon_keys st) ltac:(rewrite Hsec; by left) Hrand Hlen (ci_keys _ Hi)) as Hm.
  destruct (migrate_rows secret (tls_rows st) random (argon_keys st)) as [[rows n] keys]. destruct Hm as (? & ? & ? & _).
  assert (cert_inv (with_table st rows (next_row st) keys)) as Hi' by (by apply table_same_inv).
  cbn [snd]. destruct (n =? 0)%nat; [done|by apply invalidateAll_inv].
Qed.

Lemma cert_step_inv st st' : cert_step st st' → cert_inv st → cert_inv st'.
Proof.
  intros Hstep Hi. destruct Hstep.
  - by apply get_inv.
  - by eapply begin_inv.
  - by eapply load_inv.
  - by eapply end_inv.
  - by eapply store_cert_inv.
  - by eapply pem_inv.
  - by apply delete_inv.
  - destruct Hi as [Hids Hnext Hkeys Hhits Hmiss Hcalls Hgroup]. by apply (write_inv _ (tls_rows st) (next_row st) (argon_keys st)).
  - by apply invalidate_inv.
  - by apply forget_inv.
  - by apply migrate_inv.
Qed.

(** * Theorems *)

Definition table_wf (rows : list StoredTLSCertificate) (next : N) : Prop := NoDup (map tc_ID rows) ∧ ∀ r, r ∈ rows → (tc_ID r < next)%N.

Lemma start_inv rows next : table_wf rows next → cert_inv (cert_start rows next).
Proof. intros [Hnd Hlt]. split; cbn; by try apply cache_empty_ok. Qed.

Lemma reachable_inv rows next st : table_wf rows next → rtc cert_step (cert_start rows next) st → cert_inv st.
Proof. intros Hwf. revert st. apply rtc_ind_r; [by apply start_inv|eauto using cert_step_inv]. Qed.

(** Steps while no write to the name is on its way. *)
Definition calm_step (name : string) (st st' : cert_state) : Prop := cert_step st st' ∧ quiet name st ∧ quiet name st'.

(** The call runs for the name and is the one handshakes join, or has ended. *)
Definition registered (name : string) (id : N) (st : cert_state) : Prop :=
  (id < next_call st)%N ∧ ∀ c, calls st !! id = Some c → cl_name c = name ∧ group st !! name = Some id.

Lemma registered_calls name id st st' :
  registered name id st → next_call st' = next_call st → group st' = group st →
  (∀ c, calls st' !! id = Some c → ∃ c0, calls st !! id = Some c0 ∧ cl_name c0 = cl_name c) → registered name id st'.
Proof.
  intros [Hlt Hr] Hn Hg Hc. split; [by rewrite Hn|]. intros c Hcc. destruct (Hc c Hcc) as (c0 & Hc0 & <-). rewrite Hg. by apply Hr.
Qed.

Lemma registered_get now m name id st : registered name id st → registered name id (GetCertificate now m st).2.
Proof.
  intros Hreg. assert (∀ n, registered name id (DoChan n st).2) as Hd.
  { intros n. unfold DoChan. destruct (group st !! n) as [i|] eqn:Hg; [done|]. destruct Hreg as [Hlt Hr]. split; cbn; [lia|].
    intros c [[<- <-]|[Hne Hc]]%lookup_insert_Some; [lia|]. destruct (Hr c Hc) as [? Hgr]. split; [done|]. rewrite lookup_insert_ne; [done|].
    intros ->. by rewrite Hg in Hgr. }
  unfold GetCertificate, cache_lookup. specialize (Hd (normalizeDomain m)). destruct (hits st !! _); [by destruct (_ <=? _)%Z|].
  destruct (match misses st !! _ with Some at_ => _ | None => false end); [done|]. by destruct (DoChan _ st).
Qed.

Lemma registered_end now id' r name id st st' : refresh_end now id' st = Some (r, st') → registered name id st → registered name id st'.
Proof.
  unfold refresh_end. destruct (calls st !! id') as [c|] eqn:Hc; [|done]. destruct (cl_result c) as [r'|]; [|done]. intros [= <- <-] [Hlt Hr].
  set (s := refresh_store now c r' st) in *.
  assert (calls s = calls st ∧ group s = group st ∧ next_call s = next_call st) as (Hcs & Hgs & Hns).
  { unfold s, refresh_store. destruct (negb _); [done|]. destruct r' as [?|[]]; [done|done|]. by destruct (hits st !! _). }
  split; cbn; [by rewrite Hns|]. rewrite Hcs, Hgs. intros x [Hne Hx]%lookup_delete_Some. destruct (Hr x Hx) as [Hname Hg]. split; [done|].
  case_bool_decide as Hd; [|done]. rewrite lookup_delete_ne; [done|]. intros He. rewrite He, Hg in Hd. congruence.
Qed.

Lemma registered_step name id st st' : calm_step name st st' → registered name id st → registered name id st'.
Proof.
  intros (Hstep & [_ Hq] & _) Hreg. destruct Hstep as [|id' c st Hc _|answered id' c st Hc _ _| | | | | | |n st Hn|random st _ _].
  - by apply registered_get.
  - unfold refresh_begin. rewrite Hc. eapply registered_calls; [exact Hreg|done|done|]. cbn.
    intros x [[-> <-]|[_ Hx]]%lookup_insert_Some; [by exists c|by exists x].
  - unfold refresh_load. rewrite Hc. destruct (if answered then _ else _) as [r keys]. eapply registered_calls; [exact Hreg|done|done|]. cbn.
    intros x [[-> <-]|[_ Hx]]%lookup_insert_Some; [by exists c|by exists x].
  - by eapply registered_end.
  - unfold StoreCertificate in *. destruct (marshalCertificate _ _ _ _) as [[[? ?] ?]|]; [|done]. cbv zeta in *.
    destruct (seal_key _ _ _ _ _). simplify_eq. destruct (List.find _ _); exact Hreg.
  - unfold StorePEM in *. destruct (seal_key _ _ _ _ _). cbv zeta in *. repeat case_match; simplify_eq; exact Hreg.
  - exact Hreg.
  - exact Hreg.
  - exact Hreg.
  - destruct Hreg as [Hlt Hr]. split; [done|]. intros c Hcc. destruct (Hr c Hcc) as [? Hg]. split; [done|]. cbn. rewrite lookup_delete_ne; [done|].
    intros ->. done.
  - unfold MigrateStoredPrivateKeys. destruct dataSecrets; [done|]. destruct (migrate_rows _ _ _ _) as [[? n] ?]. cbn [snd]. by destruct (n =? 0)%nat.
Qed.

Lemma DoChan_registered name id st st0 : cert_inv st → DoChan name st = (id, st0) → registered name id st0.
Proof.
  intros Hi Hd. unfold DoChan in Hd. destruct (group st !! name) as [i|] eqn:Hg; injection Hd as <- <-.
  - destruct (ci_group _ Hi name i Hg) as (c & Hc & Hcn & _). split; [by apply (ci_calls _ Hi i c)|].
    intros x Hx. rewrite Hc in Hx. by injection Hx as <-.
  - split; cbn; [lia|]. intros x Hx. rewrite lookup_insert_eq in Hx. injection Hx as <-. by rewrite lookup_insert_eq.
Qed.

(** What a load gives those who wait for it. *)
Lemma wait_current name id st0 st1 st2 now r :
  cert_inv st0 → registered name id st0 → quiet name st0 → rtc (calm_step name) st0 st1 → refresh_end now id st1 = Some (r, st2) →
  r = Err ErrLoad ∨ r = stored st1 name.
Proof.
  intros Hi Hreg Hq Hrun Hend. assert (cert_inv st1 ∧ registered name id st1 ∧ quiet name st1) as (Hi1 & Hreg1 & Hq1).
  { clear Hend. induction Hrun as [|a b c Hab _ IH]; [done|].
    apply IH; [eapply cert_step_inv; [apply Hab|done]|by eapply registered_step|apply Hab]. }
  unfold refresh_end in Hend. destruct (calls st1 !! id) as [c|] eqn:Hc; [|done]. destruct (cl_result c) as [r'|] eqn:Hr; [|done]. injection Hend as -> _.
  destruct (proj2 Hreg1 c Hc) as [_ Hg1]. destruct (ci_group _ Hi1 name id Hg1) as (c' & Hc' & _ & Hcur). rewrite Hc in Hc'. injection Hc' as <-.
  destruct (Hcur r Hr) as [?|[?|[?|?]]]; [auto|by destruct (proj1 Hq1)|by destruct (proj2 Hq1)|auto].
Qed.

(** C32 Whatever handshakes, loads, writes and invalidations interleave, a handshake that begins while no write to the name is on its
    way to the cache gets the certificate the table holds, or learns that there is none; if it waits for a load, also one that began
    earlier, and no write to the name comes in between, the load gives it what the table holds, or fails. *)
Theorem certificate_cache_current rows next st now domainName :
  table_wf rows next → rtc cert_step (cert_start rows next) st → quiet (normalizeDomain domainName) st →
  match GetCertificate now domainName st with
  | (Served cert, _) => stored st domainName = Ok cert
  | (NotStored, _) => stored st domainName = Err ErrRecordNotFound
  | (Waits id, st0) => ∀ st1 st2 now' r, rtc (calm_step (normalizeDomain domainName)) st0 st1 → refresh_end now' id st1 = Some (r, st2) →
      r = Err ErrLoad ∨ r = stored st1 domainName
  end.
Proof.
  intros Hwf Hsteps Hq. pose proof (reachable_inv _ _ _ Hwf Hsteps) as Hi. pose proof (get_inv now domainName st Hi) as Hi0.
  assert (∀ s, stored s domainName = stored s (normalizeDomain domainName)) as Hname.
  { intros s. unfold CertStore.stored, LoadCertificate. by rewrite (normalizeDomain_normal domainName). }
  set (name := normalizeDomain domainName) in *. rewrite Hname. unfold GetCertificate, cache_lookup in *. fold name in Hi0 |- *. destruct (hits st !! name) as [e|] eqn:He.
  { destruct (ci_hits _ Hi name e He) as [_ [Hu|Hs]]; [by destruct (proj1 Hq)|]. done. }
  destruct (match misses st !! name with Some at_ => _ | None => false end) eqn:Hm.
  { destruct (misses st !! name) as [t|] eqn:Ht; [|done]. destruct (ci_misses _ Hi name t Ht) as [_ [Hu|Hs]]; [by destruct (proj1 Hq)|done]. }
  destruct (DoChan name st) as [id st0] eqn:Hd. intros st1 st2 now' r. rewrite Hname. apply wait_current.
  - exact Hi0.
  - exact (DoChan_registered name id st st0 Hi Hd).
  - unfold DoChan in Hd. by destruct (group st !! name); injection Hd as <- <-.
Qed.

(** Sealing the private keys that were stored in the clear leaves every certificate as it was and no key in the clear. *)
Theorem migrated_keys_sealed rows next st random :
  table_wf rows next → rtc cert_step (cert_start rows next) st → dataSecrets ≠ [] →
  Forall (λ r, random_ok r.1 r.2) random → (length (tls_rows st) ≤ length random)%nat →
  let st' := (MigrateStoredPrivateKeys dataSecrets random st).2 in
  (∀ name, stored st' name = stored st name) ∧ Forall (λ r, IsEncryptedValue (tc_PrivateKey r) = true ∨ tc_PrivateKey r = "") (tls_rows st').
Proof.
  intros Hwf Hsteps Hne Hrand Hlen. pose proof (reachable_inv _ _ _ Hwf Hsteps) as Hi. unfold MigrateStoredPrivateKeys.
  destruct dataSecrets as [|secret l] eqn:Hsec; [done|]. cbv zeta.
  pose proof (migrate_rows_spec secret (tls_rows st) random (argon_keys st) ltac:(rewrite Hsec; by left) Hrand Hlen (ci_keys _ Hi)) as Hm.
  destruct (migrate_rows secret (tls_rows st) random (argon_keys st)) as [[rows' n] keys]. destruct Hm as (_ & _ & Hload & Hall). rewrite <-Hsec.
  cbn [snd]. destruct (n =? 0)%nat; by split.
Qed.
End coherence.

(** * A history: a load that is overtaken by a write *)

Definition sample_pair (cert key : string) : option tlsCertificate := Some {| tl_Certificate := [cert]; tl_PrivateKey := key; tl_Leaf := None |}.
Definition sample_leaf (der : string) : option x509Leaf := Some {| lf_NotBefore := 0; lf_NotAfter := Hour |}.
Definition sample_tls (cert key : string) : tlsCertificate := {| tl_Certificate := [cert]; tl_PrivateKey := key; tl_Leaf := sample_leaf cert |}.
Definition sample_row : StoredTLSCertificate :=
  {| tc_ID := 1; tc_Domain := "app.example.com"; tc_IssuerKey := ""; tc_Certificate := "old"; tc_PrivateKey := "k1"; tc_MetadataJSON := "";
     tc_NotBefore := 0; tc_NotAfter := 0 |}.
Abbreviation sample_cert_step := (cert_step sample_pair sample_leaf Some (λ _ b, b) (normalized_secrets [" s "; ""])).
Abbreviation sample_load id st := (refresh_load sample_pair sample_leaf (normalized_secrets [" s "; ""]) true id st).

Definition loading : cert_state := sample_load 0 (refresh_begin 0 (GetCertificate 0 "App.example.com" (cert_start [sample_row] 2)).2).
Definition rewritten : cert_state :=
  let st := (StorePEM sample_pair sample_leaf (normalized_secrets [" s "; ""]) "app.example.com" "acme" "new" "k2" "" "0123456789abcdef" "nonce-nonce-" loading).2 in
  with_writers st ["app.example.com"] [].
(** The load that began before the write ends after it, and is thrown away with the rest. *)
Definition overtaken : cert_state := default rewritten (snd <$> refresh_end 1 0 rewritten).
Definition settled : cert_state :=
  let flushed := with_writers (invalidate_locked "app.example.com" overtaken) [] ["app.example.com"] in with_writers (Forget "app.example.com" flushed) [] [].

Lemma sample_wf : table_wf [sample_row] 2.
Proof. split; [apply NoDup_singleton|]. intros x Hx. apply list_elem_of_singleton in Hx as ->. reflexivity. Qed.

Lemma settled_reached : rtc sample_cert_step (cert_start [sample_row] 2) settled.
Proof.
  eapply rtc_l; [apply (step_get _ _ _ _ _ 0 "App.example.com")|]. eapply rtc_l; [eapply (step_begin _ _ _ _ _ 0); [vm_compute; reflexivity|reflexivity]|].
  eapply rtc_l; [eapply (step_load _ _ _ _ _ true 0); [vm_compute; reflexivity|by eexists|reflexivity]|].
  change (refresh_load _ _ _ _ _ _) with loading.
  eapply (rtc_l _ _ rewritten); [apply (step_pem _ _ _ _ _ "app.example.com" "acme" "new" "k2" "" "0123456789abcdef" "nonce-nonce-" true loading); [by split|apply surjective_pairing]|].
  eapply (rtc_l _ _ overtaken); [eapply (step_end _ _ _ _ _ 1 0 (Ok (sample_tls "old" "k1"))); vm_compute; reflexivity|].
  eapply rtc_l; [apply (step_invalidate _ _ _ _ _ "app.example.com"); vm_compute; by left|].
  eapply rtc_l; [apply (step_forget _ _ _ _ _ "app.example.com"); vm_compute; by left|]. apply rtc_refl.
Qed.

(** The next load, to its end. *)
Definition reloading : cert_state := sample_load 1 (refresh_begin 1 (GetCertificate 2 "app.example.com" settled).2).

Lemma certificate_cache_current_witness :
  (cc_cert <$> hits overtaken !! "app.example.com") = Some (sample_tls "old" "k1") ∧ (GetCertificate 2 "app.example.com" settled).1 = Waits 1 ∧
  ∀ r st2, refresh_end 3 1 reloading = Some (r, st2) →
    r = Err ErrLoad ∨ r = stored sample_pair sample_leaf (normalized_secrets [" s "; ""]) reloading "app.example.com".
Proof.
  split; [vm_compute; reflexivity|]. split; [vm_compute; reflexivity|]. intros r st2 Hend.
  pose proof (certificate_cache_current sample_pair sample_leaf Some (λ _ b, b) [" s "; ""] [sample_row] 2 settled 2 "app.example.com"
    sample_wf settled_reached (conj (not_elem_of_nil _) (not_elem_of_nil _))) as Hcur.
  destruct (GetCertificate 2 "app.example.com" settled) as [a st0] eqn:Hg.
  assert (a = Waits 1) as -> by (apply (f_equal fst) in Hg; vm_compute in Hg; congruence).
  apply (Hcur reloading st2 3%Z); [|exact Hend]. unfold reloading. rewrite Hg. cbn [snd].
  assert (st0 = (GetCertificate 2 "app.example.com" settled).2) as -> by (by rewrite Hg).
  eapply rtc_l; [split_and!; [eapply (step_begin _ _ _ _ _ 1); [vm_compute; reflexivity|reflexivity]|by vm_compute; split; apply not_elem_of_nil..]|].
  eapply rtc_l; [split_and!; [eapply (step_load _ _ _ _ _ true 1); [vm_compute; reflexivity|by eexists|reflexivity]|by vm_compute; split; apply not_elem_of_nil..]|].
  apply rtc_refl.
Defined.

Lemma migrated_keys_sealed_witness :
  let st := (MigrateStoredPrivateKeys (normalized_secrets [" s "; ""]) [("0123456789abcdef", "nonce-nonce-")] (cert_start [sample_row] 2)).2 in
  stored sample_pair sample_leaf (normalized_secrets [" s "; ""]) st "app.example.com" = Ok (sample_tls "old" "k1").
Proof.
  destruct (migrated_keys_sealed sample_pair sample_leaf Some (λ _ b, b) [" s "; ""] [sample_row] 2 (cert_start [sample_row] 2) [("0123456789abcdef", "nonce-nonce-")])
    as [Hl _].
  - exact sample_wf.
  - apply rtc_refl.
  - discriminate.
  - repeat constructor.
  - cbn. lia.
  - cbv zeta. rewrite Hl. vm_compute. reflexivity.
Defined.
