(* ===== verification/CertStorage.v ===== *)
(** The storage certmagic keeps its keys, certificates and locks in (internal/acme/certmagic_storage.go).

    Values are rows of a key-value table; what looks like a private key is sealed. Locks are rows with an owner and an end, which the
    owner's ticker moves on; several processes and several goroutines of each use them, so [Module Locks] states what holds whatever
    they do in any order. [LIKE] folds ASCII case on SQLite and does not on PostgreSQL: [fold] says which. *)
From S2P Require Import Prelude GoStrings SecretBox CertStore.

#[local] Open Scope string_scope.
#[local] Open Scope list_scope.

Record DistributedKV := { kv_Bucket : string; kv_Key : string; kv_Value : string; kv_ModifiedAt : Z }.

Definition cleanKey (key : string) : string := Trim (ReplaceByte key "\" "/") "/".

Definition isCertMagicPrivateKeyPath (key : string) : bool :=
  let key := ToLower (TrimSpace key) in
  HasSuffix key ".key" || Contains key "/private/" || Contains key "siteprivatekey" || Contains key "site_private_key".

(** SQL [LIKE]: [%] is any string, [_] any byte. *)
Fixpoint like (fold : bool) (pattern s : string) {struct pattern} : bool :=
  match pattern with
  | "" => String.eqb s ""
  | String p pattern' =>
      if Ascii.eqb p "%" then
        (fix any (s : string) : bool := like fold pattern' s || match s with "" => false | String _ s' => any s' end) s
      else match s with
           | "" => false
           | String a s' =>
               (Ascii.eqb p "_" || Ascii.eqb p a || (fold && Ascii.eqb (lower_ascii p) (lower_ascii a))) && like fold pattern' s'
           end
  end.

(** [path.Join] of two elements: lexical cleaning of a path. *)
Definition clean_push (rooted : bool) (stack : list string) (segment : string) : list string :=
  if String.eqb segment "" || String.eqb segment "." then stack
  else if String.eqb segment ".." then
    match stack with
    | top :: rest => if String.eqb top ".." then segment :: stack else rest
    | [] => if rooted then [] else [segment]
    end
  else segment :: stack.
Definition path_Clean (path : string) : string :=
  let rooted := HasPrefix path "/" in
  let body := Join (rev (foldl (clean_push rooted) [] (Split path "/"))) "/" in
  if rooted then "/" +:+ body else if String.eqb body "" then "." else body.
Definition path_Join (a b : string) : string :=
  match List.filter non_empty [a; b] with
  | [] => ""
  | parts => path_Clean (Join parts "/")
  end.

Record KeyInfo := { ki_Key : string; ki_Modified : Z; ki_Size : nat; ki_IsTerminal : bool }.
Inductive storage_error := ErrNotExist | ErrSecret (e : box_error).

Section kv.
Context `{Primitives}.
Variable fold : bool.
(** [ORDER BY key]. *)
Variable order_by_key : list DistributedKV → list DistributedKV.
Variable dataSecrets : list string.

Definition in_bucket (r : DistributedKV) : bool := String.eqb (kv_Bucket r) "certmagic".
Definition at_key (key : string) (r : DistributedKV) : bool := in_bucket r && String.eqb (kv_Key r) key.
Definition at_or_under (key : string) (r : DistributedKV) : bool := in_bucket r && (String.eqb (kv_Key r) key || like fold (key +:+ "/%") (kv_Key r)).

Definition storage_Store (now : Z) (key value salt nonce : string) (rows : list DistributedKV) (keys : key_cache) : list DistributedKV * key_cache :=
  let key := cleanKey key in
  let '(storedValue, keys) := if isCertMagicPrivateKeyPath key then seal_key dataSecrets value salt nonce keys else (value, keys) in
  (List.filter (λ r, negb (at_key key r)) rows ++ [{| kv_Bucket := "certmagic"; kv_Key := key; kv_Value := storedValue; kv_ModifiedAt := now |}], keys).

Definition storage_Load (key : string) (rows : list DistributedKV) (keys : key_cache) : result storage_error string * key_cache :=
  let key := cleanKey key in
  match List.find (at_key key) rows with
  | None => (Err ErrNotExist, keys)
  | Some item =>
      if isCertMagicPrivateKeyPath key && IsEncryptedValue (kv_Value item) then
        match DecryptStringAuto dataSecrets (kv_Value item) keys with
        | (Ok plaintext, keys) => (Ok plaintext, keys)
        | (Err e, keys) => (Err (ErrSecret e), keys)
        end
      else (Ok (kv_Value item), keys)
  end.

Definition storage_Delete (key : string) (rows : list DistributedKV) : list DistributedKV := List.filter (λ r, negb (at_or_under (cleanKey key) r)) rows.
Definition storage_Exists (key : string) (rows : list DistributedKV) : bool := existsb (at_or_under (cleanKey key)) rows.

Fixpoint list_heads (prefix : string) (seen : list string) (rows : list DistributedKV) : list string :=
  match rows with
  | [] => []
  | row :: rest =>
      let relative := TrimPrefix (TrimPrefix (kv_Key row) prefix) "/" in
      if String.eqb relative "" then kv_Key row :: list_heads prefix seen rest
      else
        let head_ := default "" (head (Split relative "/")) in
        let candidate := if non_empty head_ then path_Join prefix head_ else prefix in
        if existsb (String.eqb candidate) seen then list_heads prefix seen rest else candidate :: list_heads prefix (candidate :: seen) rest
  end.
Definition storage_List (prefix : string) (recursive : bool) (rows : list DistributedKV) : result storage_error (list string) :=
  let prefix := cleanKey prefix in
  let found := order_by_key (List.filter (at_or_under prefix) rows) in
  match (if recursive then map kv_Key found else list_heads prefix [] found) with
  | [] => Err ErrNotExist
  | keys => Ok keys
  end.

Definition storage_Stat (key : string) (rows : list DistributedKV) : result storage_error KeyInfo :=
  let key := cleanKey key in
  match List.find (at_key key) rows with
  | Some exact => Ok {| ki_Key := key; ki_Modified := kv_ModifiedAt exact; ki_Size := String.length (kv_Value exact); ki_IsTerminal := true |}
  | None => if storage_Exists key rows then Ok {| ki_Key := key; ki_Modified := 0; ki_Size := 0; ki_IsTerminal := false |} else Err ErrNotExist
  end.

(** [strings.ReplaceAll] of an asterisk. *)
Fixpoint replace_star (s : string) : string :=
  match s with
  | "" => ""
  | String a s' => if Ascii.eqb a "*" then "wildcard_" +:+ replace_star s' else String a (replace_star s')
  end.
Definition safeCertFolder (name : string) : string := replace_star (ToLower (TrimSpace name)).

(** The folders of the domain in a key: every prefix of its parts that ends in the folder. *)
Fixpoint folder_prefixes (folder : string) (before parts : list string) : list string :=
  match parts with
  | [] => []
  | part :: rest =>
      let upto := before ++ [part] in
      if String.eqb (ToLower part) folder then Join upto "/" :: folder_prefixes folder upto rest else folder_prefixes folder upto rest
  end.
(** The map of prefixes is ranged over in no particular order. *)
Definition DeleteCertificatesForDomain (domainName : string) (rows : list DistributedKV) : result storage_error (list DistributedKV) :=
  let folder := safeCertFolder domainName in
  if String.eqb folder "" then Ok rows
  else
    match storage_List "certificates" true rows with
    | Err e => Err e
    | Ok keys =>
        let prefixes : gset string := list_to_set (flat_map (λ key, folder_prefixes folder [] (Split key "/")) keys) in
        Ok (foldl (λ rows prefix, storage_Delete prefix rows) rows (elements prefixes))
    end.

Fixpoint migrate_values (now : Z) (secret : string) (rows : list DistributedKV) (random : list (string * string)) (keys : key_cache)
  : list DistributedKV * nat * key_cache :=
  match rows with
  | [] => ([], 0%nat, keys)
  | row :: rest =>
      if negb (in_bucket row) || negb (isCertMagicPrivateKeyPath (kv_Key row)) || IsEncryptedValue (kv_Value row)
      then let '(rest, n, keys) := migrate_values now secret rest random keys in (row :: rest, n, keys)
      else
        let '(salt, nonce) := default ("", "") (head random) in
        let '(sealed, keys) := EncryptStringV2 secret (kv_Value row) salt nonce keys in
        let '(rest, n, keys) := migrate_values now secret rest (tail random) keys in
        ({| kv_Bucket := kv_Bucket row; kv_Key := kv_Key row; kv_Value := sealed; kv_ModifiedAt := now |} :: rest, S n, keys)
  end.
Definition MigrateSensitiveValues (now : Z) (random : list (string * string)) (rows : list DistributedKV) (keys : key_cache)
  : nat * list DistributedKV * key_cache :=
  match dataSecrets with
  | [] => (0%nat, rows, keys)
  | secret :: _ => let '(rows, n, keys) := migrate_values now secret rows random keys in (n, rows, keys)
  end.
End kv.

(** * Values *)

Lemma ReplaceByte_twice s a b : ReplaceByte (ReplaceByte s a b) a b = ReplaceByte s a b.
Proof.
  unfold ReplaceByte. induction s as [|c s IH]; [done|]. cbn [string_map]. rewrite IH. f_equal. destruct (Ascii.eqb_spec c a) as [->|Hne].
  - destruct (Ascii.eqb_spec b a); congruence.
  - by rewrite (proj2 (Ascii.eqb_neq c a) Hne).
Qed.

Section values.
Context `{PrimitivesLaws}.
Variable fold : bool.
Variable secrets : list string.
Abbreviation dataSecrets := (normalized_secrets secrets).

Lemma storage_Load_keys key rows c c' :
  cache_ok c → cache_ok c' → (storage_Load dataSecrets key rows c).1 = (storage_Load dataSecrets key rows c').1.
Proof.
  intros Hc Hc'. unfold storage_Load. destruct (List.find _ _) as [item|]; [|done]. destruct (_ && _); [|done].
  destruct (DecryptStringAuto_keys dataSecrets (kv_Value item) c c' Hc Hc') as [Heq _].
  destruct (DecryptStringAuto _ _ c) as [[?|?] ?], (DecryptStringAuto _ _ c') as [[?|?] ?]; cbn in *; congruence.
Qed.

(** What is sealed is read back, and what is not a private key is left alone. *)
Lemma seal_key_opens value salt nonce keys c :
  random_ok salt nonce → IsEncryptedValue value = false → cache_ok keys → cache_ok c →
  let sealed := (seal_key dataSecrets value salt nonce keys).1 in
  (if IsEncryptedValue sealed then (DecryptStringAuto dataSecrets sealed c).1 else Ok sealed) = Ok value.
Proof.
  intros [Hs Hn] Hplain Hk Hc. unfold seal_key. destruct dataSecrets as [|secret l] eqn:Hsec; [cbn; by rewrite Hplain|]. rewrite Hplain.
  assert (secret ∈ dataSecrets) as Hin by (rewrite Hsec; by left).
  destruct (sealed_v2_opens dataSecrets secret value salt nonce keys c Hin (secrets_usable _ _ Hin) Hs Hn Hk Hc) as (Hopen & Henc & _).
  rewrite <-Hsec. cbv zeta. by rewrite Henc.
Qed.

Lemma find_store key row rows :
  at_key key row = true → List.find (at_key key) (List.filter (λ r, negb (at_key key r)) rows ++ [row]) = Some row.
Proof.
  intros Hrow. induction rows as [|r l IH]; cbn [List.filter app List.find]; [by rewrite Hrow|].
  destruct (at_key key r) eqn:Hr; cbn [negb app List.find]; [done|]. by rewrite Hr.
Qed.

Lemma find_store_other key key' row rows :
  key ≠ key' → kv_Key row = key' → List.find (at_key key) (List.filter (λ r, negb (at_key key' r)) rows ++ [row]) = List.find (at_key key) rows.
Proof.
  intros Hne Hrow. rewrite find_last.
  - apply find_filtered. unfold at_key. intros r [Hb Hk%String.eqb_eq]%andb_true_iff. rewrite Hk, Hb. cbn. by apply negb_true_iff, String.eqb_neq.
  - unfold at_key. rewrite Hrow, andb_comm. by rewrite (proj2 (String.eqb_neq key' key)) by done.
Qed.

(** What is stored under a key is read back from every spelling of it, sealed in between if it is a private key, and nothing else
    that can be read changes. *)
Theorem storage_roundtrip now key value salt nonce rows keys k c :
  random_ok salt nonce → cache_ok keys → cache_ok c → (isCertMagicPrivateKeyPath (cleanKey key) = true → IsEncryptedValue value = false) →
  let rows' := (storage_Store dataSecrets now key value salt nonce rows keys).1 in
  (storage_Load dataSecrets k rows' c).1 =
  if String.eqb (cleanKey k) (cleanKey key) then Ok value else (storage_Load dataSecrets k rows c).1.
Proof.
  intros Hr Hk Hc Hplain. unfold storage_Store. cbv zeta.
  destruct (if isCertMagicPrivateKeyPath (cleanKey key) then _ else _) as [sealed keys'] eqn:Hs. cbn [fst].
  destruct (String.eqb_spec (cleanKey k) (cleanKey key)) as [He|Hne]; unfold storage_Load.
  - rewrite He, find_store by (unfold at_key; cbn; by rewrite String.eqb_refl). cbn [kv_Value].
    destruct (isCertMagicPrivateKeyPath (cleanKey key)); [|by injection Hs as <- _]. cbn [andb].
    pose proof (seal_key_opens value salt nonce keys c Hr (Hplain eq_refl) Hk Hc) as Ho. rewrite Hs in Ho. cbn in Ho.
    destruct (IsEncryptedValue sealed); [|by injection Ho as ->]. by destruct (DecryptStringAuto _ _ _) as [[?|?] ?]; cbn in Ho; simplify_eq.
  - rewrite (find_store_other _ (cleanKey key)) by done. done.
Qed.

(** ** Private keys are sealed *)

(** Where certmagic keeps private keys, by the path it asks for, its letters folded. *)
Definition private_key_path (key : string) : Prop :=
  ∃ front back, ToLower (TrimSpace key) = front +:+ ".key" ∨ ToLower (TrimSpace key) = front +:+ "/private/" +:+ back ∨
    ToLower (TrimSpace key) = front +:+ "siteprivatekey" +:+ back ∨ ToLower (TrimSpace key) = front +:+ "site_private_key" +:+ back.

(** What is stored for a value that was handed in: sealed under the first secret, or as it is if it begins like a sealed one. *)
Definition kept_sealed (value stored : string) : Prop :=
  match dataSecrets with
  | [] => False
  | secret :: _ => (IsEncryptedValue value = false ∧ sealed_text secret value stored) ∨ (IsEncryptedValue value = true ∧ stored = value)
  end.

(** [handed key value] says which values were handed in under a key. *)
Definition sealed_row (handed : string → string → Prop) (r : DistributedKV) : Prop :=
  kv_Bucket r = "certmagic" → private_key_path (kv_Key r) → ∃ value, handed (kv_Key r) value ∧ kept_sealed value (kv_Value r).

Inductive storage_op :=
  | OpStore (now : Z) (key value salt nonce : string)
  | OpDelete (key : string)
  | OpPurge (domainName : string) (order : list DistributedKV → list DistributedKV)
  | OpMigrate (now : Z) (random : list (string * string)).

Definition op_ok (rows : list DistributedKV) (op : storage_op) : Prop :=
  match op with
  | OpStore _ _ _ salt nonce => random_ok salt nonce
  | OpMigrate _ random => Forall (λ r, random_ok r.1 r.2) random ∧ (length rows ≤ length random)%nat
  | _ => True
  end.

Definition run_storage (op : storage_op) (st : list DistributedKV * key_cache) : list DistributedKV * key_cache :=
  let '(rows, keys) := st in
  match op with
  | OpStore now key value salt nonce => storage_Store dataSecrets now key value salt nonce rows keys
  | OpDelete key => (storage_Delete fold key rows, keys)
  | OpPurge domainName order => (match DeleteCertificatesForDomain fold order domainName rows with Ok rows => rows | Err _ => rows end, keys)
  | OpMigrate now random => let '(_, rows, keys) := MigrateSensitiveValues dataSecrets now random rows keys in (rows, keys)
  end.

Fixpoint storage_history (ops : list storage_op) (st : list DistributedKV * key_cache) : Prop :=
  match ops with [] => True | op :: rest => op_ok st.1 op ∧ storage_history rest (run_storage op st) end.

Lemma Contains_app front sub back : Contains (front +:+ sub +:+ back) sub = true.
Proof.
  induction front as [|a front IH].
  - cbn [String.append]. destruct (sub +:+ back) eqn:Hs; cbn [Contains]; rewrite <-Hs, (proj2 (HasPrefix_spec _ _)); eauto.
  - cbn [String.append Contains]. by rewrite IH, orb_true_r.
Qed.

Lemma private_key_path_found key : private_key_path key → isCertMagicPrivateKeyPath key = true.
Proof.
  intros (front & back & Hk). unfold isCertMagicPrivateKeyPath. cbv zeta. rewrite !orb_true_iff.
  destruct Hk as [->|[->|[->| ->]]]; rewrite ?Contains_app; [|tauto..].
  left. left. left. unfold HasSuffix. rewrite string_rev_app_app. cbn. by destruct (string_rev_app front "").
Qed.

Lemma seal_key_sealed value salt nonce keys :
  dataSecrets ≠ [] → random_ok salt nonce → cache_ok keys →
  kept_sealed value (seal_key dataSecrets value salt nonce keys).1 ∧ cache_ok (seal_key dataSecrets value salt nonce keys).2.
Proof.
  intros Hne [Hs Hn] Hk. unfold seal_key, kept_sealed. destruct dataSecrets as [|secret l] eqn:Hsec; [done|]. destruct (IsEncryptedValue value) eqn:Hv; [auto|].
  destruct (EncryptStringV2_text secret value salt nonce keys Hs Hn Hk). auto.
Qed.

Lemma filter_sealed handed (p : DistributedKV → bool) rows : Forall (sealed_row handed) rows → Forall (sealed_row handed) (List.filter p rows).
Proof.
  rewrite !Forall_forall. intros Hall r Hr. apply list_elem_of_In, List.filter_In in Hr as [Hr _]. by apply Hall, list_elem_of_In.
Qed.

(** A migration seals what was handed in before; what is sealed already it leaves. *)
Definition unsealed_row (handed : string → string → Prop) (r : DistributedKV) : Prop := sealed_row handed r ∨ handed (kv_Key r) (kv_Value r).

Lemma unsealed_skipped handed row :
  dataSecrets ≠ [] → unsealed_row handed row →
  negb (in_bucket row) || negb (isCertMagicPrivateKeyPath (kv_Key row)) || IsEncryptedValue (kv_Value row) = true → sealed_row handed row.
Proof.
  intros Hne [?|Hrow] Hskip; [done|]. intros Hb Hp. unfold in_bucket in Hskip. rewrite Hb, (private_key_path_found _ Hp) in Hskip. cbn in Hskip.
  exists (kv_Value row). split; [done|]. unfold kept_sealed. destruct dataSecrets; [done|]. auto.
Qed.

Lemma marked_once handed row : sealed_row handed row → kv_Bucket row = "certmagic" → private_key_path (kv_Key row) → IsEncryptedValue (kv_Value row) = true.
Proof.
  intros Hrow Hb Hp. destruct (Hrow Hb Hp) as (value & _ & Hk). unfold kept_sealed in Hk. destruct dataSecrets; [done|].
  destruct Hk as [[_ Ht]|[? ->]]; [by eapply sealed_text_marked|done].
Qed.

Lemma migrate_values_sealed handed now secret l rows random keys :
  dataSecrets = secret :: l → Forall (λ r, random_ok r.1 r.2) random → (length rows ≤ length random)%nat → cache_ok keys →
  Forall (unsealed_row handed) rows →
  let '(rows', _, keys') := migrate_values now secret rows random keys in Forall (sealed_row handed) rows' ∧ cache_ok keys'.
Proof.
  intros Hsec. assert (dataSecrets ≠ []) as Hne by (by rewrite Hsec). revert random keys.
  induction rows as [|row rest IH]; intros random keys Hrand Hlen Hok Hrows; [done|]. cbn [migrate_values]. apply Forall_cons in Hrows as [Hrow Hrows].
  destruct (negb (in_bucket row) || negb (isCertMagicPrivateKeyPath (kv_Key row)) || IsEncryptedValue (kv_Value row)) eqn:Hskip.
  - specialize (IH random keys Hrand ltac:(cbn in Hlen; lia) Hok Hrows). destruct (migrate_values now secret rest random keys) as [[rest' n] keys'].
    destruct IH as [Hall ?]. split; [|done]. constructor; [|done]. by apply unsealed_skipped.
  - destruct random as [|[salt nonce] random]; [cbn in Hlen; lia|]. apply Forall_cons in Hrand as [[Hs Hn] Hrand].
    change (default ("", "") (head ((salt, nonce) :: random))) with (salt, nonce). cbn [fst snd] in Hs, Hn.
    destruct (EncryptStringV2_text secret (kv_Value row) salt nonce keys Hs Hn Hok) as [Henc Hok1].
    destruct (EncryptStringV2 secret (kv_Value row) salt nonce keys) as [sealed keys1]. cbn [fst snd] in *. cbv beta iota zeta. cbn [tail].
    specialize (IH random keys1 Hrand ltac:(cbn in Hlen; lia) Hok1 Hrows). destruct (migrate_values now secret rest random keys1) as [[rest' n] keys'].
    destruct IH as [Hall ?]. split; [|done]. constructor; [|done]. intros Hb Hp. cbn [kv_Bucket kv_Key kv_Value] in *.
    apply orb_false_iff in Hskip as [_ Hplain]. destruct Hrow as [Hrow|Hrow]; [by rewrite (marked_once _ _ Hrow Hb Hp) in Hplain|].
    exists (kv_Value row). split; [done|]. unfold kept_sealed. rewrite Hsec. auto.
Qed.

Lemma migration_sealed handed now random rows keys :
  dataSecrets ≠ [] → Forall (λ r, random_ok r.1 r.2) random → (length rows ≤ length random)%nat → cache_ok keys → Forall (unsealed_row handed) rows →
  Forall (sealed_row handed) (run_storage (OpMigrate now random) (rows, keys)).1 ∧ cache_ok (run_storage (OpMigrate now random) (rows, keys)).2.
Proof.
  intros Hne Hrand Hlen Hk Hrows. cbn [run_storage]. unfold MigrateSensitiveValues. destruct dataSecrets as [|secret l] eqn:Hsec; [done|].
  pose proof (migrate_values_sealed handed now secret l rows random keys Hsec Hrand Hlen Hk Hrows) as Hm.
  by destruct (migrate_values now secret rows random keys) as [[rows' n] keys'].
Qed.

Lemma store_sealed handed now key value salt nonce rows keys :
  dataSecrets ≠ [] → random_ok salt nonce → handed (cleanKey key) value → Forall (sealed_row handed) rows → cache_ok keys →
  Forall (sealed_row handed) (storage_Store dataSecrets now key value salt nonce rows keys).1 ∧
  cache_ok (storage_Store dataSecrets now key value salt nonce rows keys).2.
Proof.
  intros Hne Hr Hh Hall Hk. unfold storage_Store. cbv zeta. destruct (seal_key_sealed value salt nonce keys Hne Hr Hk) as [Henc Hok].
  destruct (isCertMagicPrivateKeyPath (cleanKey key)) eqn:Hp.
  - destruct (seal_key dataSecrets value salt nonce keys) as [sealed keys']. cbn in *. split; [|done]. apply Forall_app. split; [by apply filter_sealed|].
    constructor; [intros _ _; by exists value|constructor].
  - split; [|done]. cbn. apply Forall_app. split; [by apply filter_sealed|].
    constructor; [intros _ Hp'%private_key_path_found; cbn in Hp'; congruence|constructor].
Qed.

Lemma purge_sealed handed order domainName rows :
  Forall (sealed_row handed) rows →
  Forall (sealed_row handed) match DeleteCertificatesForDomain fold order domainName rows with Ok rows => rows | Err _ => rows end.
Proof.
  intros Hall. unfold DeleteCertificatesForDomain. destruct (String.eqb _ _); [done|]. destruct (storage_List _ _ _ _ _) as [ks|]; [|done]. cbv zeta.
  match goal with |- Forall _ (foldl _ _ ?l) => generalize l end. intros l. revert rows Hall. induction l as [|x l IH]; intros rows Hall; [done|].
  apply IH. by apply filter_sealed.
Qed.

(** What an operation hands in. *)
Definition op_handed (op : storage_op) (key value : string) : Prop :=
  match op with OpStore _ k v _ _ => key = cleanKey k ∧ value = v | _ => False end.

Lemma run_storage_sealed (handed : string → string → Prop) op st :
  dataSecrets ≠ [] → op_ok st.1 op → (∀ key value, op_handed op key value → handed key value) →
  Forall (sealed_row handed) st.1 ∧ cache_ok st.2 → Forall (sealed_row handed) (run_storage op st).1 ∧ cache_ok (run_storage op st).2.
Proof.
  destruct st as [rows keys]. intros Hne Hop Hh [Hall Hk]. destruct op as [now key value salt nonce|key|domainName order|now random]; cbn [op_ok fst snd] in *.
  - apply store_sealed; [done|done|by apply Hh|done|done].
  - split; [by apply filter_sealed|done].
  - split; [by apply purge_sealed|done].
  - destruct Hop. apply migration_sealed; [done..|]. eapply Forall_impl; [done|]. by left.
Qed.

(** C28 From any table, once it was migrated under a configured secret, after every sequence of writes, deletions and migrations, each
    row of certmagic's whose path ends in ".key" or contains "/private/", "siteprivatekey" or "site_private_key" (letters folded)
    holds the AES-GCM sealing, under the key Argon2 derives from the first secret, of a value that the table had or a write handed
    in under that path; the one exception is a value that itself begins with "enc:v1:" or "enc:v2:", which is stored as it is.  A
    migration reads and updates the rows without another write in between, as it does at start. *)
Theorem private_keys_sealed ops rows before now random :
  dataSecrets ≠ [] → Forall (λ r, String.length r.2 = 16%nat) before → Forall (λ r, random_ok r.1 r.2) random → (length rows ≤ length random)%nat →
  let st := run_storage (OpMigrate now random) (rows, memoised before) in
  let handed key value := (∃ r, r ∈ rows ∧ kv_Key r = key ∧ kv_Value r = value) ∨ (∃ op, op ∈ ops ∧ op_handed op key value) in
  storage_history ops st → Forall (sealed_row handed) (foldl (λ st op, run_storage op st) st ops).1.
Proof.
  intros Hne Hk%memoised_ok Hrand Hlen. cbv zeta.
  assert (∀ handed : string → string → Prop, (∀ op, op ∈ ops → ∀ key value, op_handed op key value → handed key value) →
    ∀ st, Forall (sealed_row handed) st.1 ∧ cache_ok st.2 → storage_history ops st → Forall (sealed_row handed) (foldl (λ st op, run_storage op st) st ops).1) as Hind.
  { intros handed. clear Hk Hrand Hlen. induction ops as [|op rest IH]; intros Hh st Hst; [by destruct Hst|]. cbn [storage_history foldl].
    intros [Hop Hrest]. apply IH; [by intros; eapply Hh; [right|]| |done]. apply run_storage_sealed; [done|done| |done]. apply Hh. by left. }
  apply Hind; [by eauto|]. apply migration_sealed; [done..|]. apply Forall_forall. intros r Hr. right. left. eauto.
Qed.
End values.

(** * Deleting *)

Definition literal (s : string) : bool := string_all (λ a, negb (Ascii.eqb a "%" || Ascii.eqb a "_")) s.

Lemma like_any s : like false "%" s = true.
Proof. induction s as [|a s IH]; [done|]. exact IH. Qed.

Lemma like_literal p s : literal p = true → like false (p +:+ "%") s = HasPrefix s p.
Proof.
  revert s. induction p as [|a p IH]; intros s Hl; [apply like_any|]. cbn [literal string_all] in Hl. apply andb_true_iff in Hl as [Ha Hl].
  apply negb_true_iff, orb_false_iff in Ha as [H1 H2]. change (String a p +:+ "%") with (String a (p +:+ "%")). cbn [like]. rewrite H1, H2.
  destruct s as [|b s]; [done|]. cbn [orb andb]. rewrite orb_false_r, (IH s Hl). cbn [HasPrefix].
  destruct (Ascii.eqb_spec a b) as [->|Hne]; [by rewrite Ascii.eqb_refl|]. by rewrite (proj2 (Ascii.eqb_neq b a)) by done.
Qed.

(** Where the key has no byte that [LIKE] reads as a pattern and case matters, what is deleted is the key and what is under it. *)
Theorem delete_subtree key rows r :
  literal (cleanKey key) = true →
  r ∈ storage_Delete false key rows ↔ r ∈ rows ∧ ¬ (in_bucket r = true ∧ (kv_Key r = cleanKey key ∨ HasPrefix (kv_Key r) (cleanKey key +:+ "/") = true)).
Proof.
  intros Hl. unfold storage_Delete. rewrite list_elem_of_In, List.filter_In, <-list_elem_of_In. apply and_iff_compat_l.
  rewrite negb_true_iff, <-not_true_iff_false. apply not_iff_compat. unfold at_or_under. rewrite andb_true_iff, orb_true_iff, String.eqb_eq.
  change (cleanKey key +:+ "/%") with (cleanKey key +:+ ("/" +:+ "%")). rewrite <-string_app_assoc, like_literal; [done|].
  unfold literal. rewrite string_all_app. unfold literal in Hl. by rewrite Hl.
Qed.

Definition kv_row (key : string) : DistributedKV := {| kv_Bucket := "certmagic"; kv_Key := key; kv_Value := ""; kv_ModifiedAt := 0 |}.

(** The certificates of a wildcard live in a folder whose name has an underscore, which [LIKE] takes for any byte: deleting them deletes
    those of another host. *)
Theorem wildcard_purge_deletes_others :
  let rows := [kv_row "certificates/acme/wildcard_.example.com/a.crt"; kv_row "certificates/acme/wildcards.example.com/a.crt"] in
  ∀ fold, DeleteCertificatesForDomain fold (λ l, l) "*.example.com" rows = Ok [].
Proof. intros rows []; vm_compute; reflexivity. Qed.

Lemma storage_roundtrip_witness :
  (storage_Load (normalized_secrets ["s"]) "acme/users/private/k.key"
    (storage_Store (normalized_secrets ["s"]) 5 "\acme/users/private/k.key/" "PEM" "0123456789abcdef" "nonce-nonce-" [] no_keys).1 no_keys).1 = Ok "PEM".
Proof.
  rewrite (storage_roundtrip ["s"] 5 "\acme/users/private/k.key/" "PEM" "0123456789abcdef" "nonce-nonce-" [] no_keys "acme/users/private/k.key" no_keys);
    [reflexivity|by split|apply cache_empty_ok|apply cache_empty_ok|reflexivity].
Defined.

Lemma private_keys_sealed_witness :
  let st := run_storage false ["s"] (OpMigrate 0 [("0123456789abcdef", "nonce-nonce-")])
    ([{| kv_Bucket := "certmagic"; kv_Key := "site.key"; kv_Value := "PEM"; kv_ModifiedAt := 0 |}], memoised [("s", "fedcba9876543210")]) in
  let rows := (run_storage false ["s"] (OpStore 1 "b.key" "PEM2" "0123456789abcdef" "nonce-nonce-") st).1 in
  (∀ r, r ∈ rows → kv_Key r = "b.key" → sealed_text "s" "PEM2" (kv_Value r)) ∧ map kv_Key rows = ["site.key"; "b.key"].
Proof.
  cbv zeta. split; [|vm_compute; reflexivity]. intros r Hr Hkey.
  assert (Hall := private_keys_sealed false ["s"] [OpStore 1 "b.key" "PEM2" "0123456789abcdef" "nonce-nonce-"]
    [{| kv_Bucket := "certmagic"; kv_Key := "site.key"; kv_Value := "PEM"; kv_ModifiedAt := 0 |}] [("s", "fedcba9876543210")] 0 [("0123456789abcdef", "nonce-nonce-")]
    ltac:(discriminate) ltac:(repeat constructor) ltac:(repeat constructor) ltac:(reflexivity) ltac:(by split; [split|])).
  cbn [foldl] in Hall. rewrite Forall_forall in Hall. specialize (Hall r Hr).
  assert (kv_Bucket r = "certmagic") as Hb.
  { clear Hall Hkey. revert r Hr. rewrite <-Forall_forall. vm_compute. repeat constructor. }
  destruct (Hall Hb) as (value & Hh & Hk); [rewrite Hkey; exists "b", ""; by left|].
  assert (value = "PEM2") as -> by (rewrite Hkey in Hh; destruct Hh as [(r0 & H0%list_elem_of_singleton & H1 & _)|(op & ->%list_elem_of_singleton & _ & ?)]; [by subst r0|done]).
  destruct Hk as [[_ Ht]|[Hf _]]; [exact Ht|discriminate Hf].
Defined.

(** * Locks *)

Module Locks.

Record DistributedLock := { dl_Name : string; dl_Owner : string; dl_ExpiresAt : Z }.

(** A process: the owner it holds each name as, and the tickers that run. *)
Record process := { owners : gmap string string; leases : list (string * string) }.

Record lock_state := { lock_rows : list DistributedLock; processes : gmap nat process }.

Definition idle : process := {| owners := ∅; leases := [] |}.
Definition the_process (st : lock_state) (i : nat) : process := default idle (processes st !! i).
Definition set_process (st : lock_state) (i : nat) (p : process) (rows : list DistributedLock) : lock_state :=
  {| lock_rows := rows; processes := <[i := p]> (processes st) |}.

Section locks.
Variable lockTTL : Z.

Definition startLease (name owner : string) (p : process) : process :=
  {| owners := <[name := owner]> (owners p); leases := (name, owner) :: List.filter (λ l, negb (String.eqb l.1 name)) (leases p) |}.

(** The transaction and, if it inserted the row, the lease. *)
Definition tryAcquire (now : Z) (i : nat) (name owner : string) (st : lock_state) : bool * lock_state :=
  let rows := List.filter (λ l, negb (dl_ExpiresAt l <=? now)%Z) (lock_rows st) in
  if existsb (λ l, String.eqb (dl_Name l) name) rows then (false, {| lock_rows := rows; processes := processes st |})
  else (true, set_process st i (startLease name owner (the_process st i))
                (rows ++ [{| dl_Name := name; dl_Owner := owner; dl_ExpiresAt := now + lockTTL |}])).

Definition owned (name owner : string) (l : DistributedLock) : bool := String.eqb (dl_Name l) name && String.eqb (dl_Owner l) owner.
Definition extended (name owner : string) (until : Z) (rows : list DistributedLock) : list DistributedLock :=
  map (λ l, if owned name owner l then {| dl_Name := dl_Name l; dl_Owner := dl_Owner l; dl_ExpiresAt := until |} else l) rows.

Definition Unlock (i : nat) (name : string) (st : lock_state) : lock_state :=
  let p := the_process st i in
  let owner := default "" (owners p !! name) in
  let p := {| owners := delete name (owners p); leases := List.filter (λ l, negb (String.eqb l.1 name)) (leases p) |} in
  set_process st i p (if non_empty owner then List.filter (λ l, negb (owned name owner l)) (lock_rows st) else lock_rows st).

Definition RenewLockLease (now : Z) (i : nat) (name : string) (leaseDuration : Z) (st : lock_state) : lock_state :=
  let owner := default "" (owners (the_process st i) !! name) in
  if negb (non_empty owner) then st
  else {| lock_rows := extended name owner (now + if (leaseDuration <=? 0)%Z then lockTTL else leaseDuration) (lock_rows st); processes := processes st |}.

(** A ticker of [startLease]. *)
Definition lease_tick (now : Z) (name owner : string) (st : lock_state) : lock_state :=
  {| lock_rows := extended name owner (now + lockTTL) (lock_rows st); processes := processes st |}.

Inductive lock_op :=
  | TryAcquire (i : nat) (name owner : string)
  | DoUnlock (i : nat) (name : string)
  | Renew (i : nat) (name : string) (leaseDuration : Z)
  | Tick (i : nat) (name owner : string).

(** Whether a lock was given, and the state. *)
Definition run_lock (now : Z) (op : lock_op) (st : lock_state) : bool * lock_state :=
  match op with
  | TryAcquire i name owner => tryAcquire now i (cleanKey name) owner st
  | DoUnlock i name => (false, Unlock i (cleanKey name) st)
  | Renew i name d => (false, RenewLockLease now i (cleanKey name) d st)
  | Tick i name owner => (false, if bool_decide ((name, owner) ∈ leases (the_process st i)) then lease_tick now name owner st else st)
  end.
End locks.

(** ** A lock that is renewed in time *)

Section exclusion.
Variable lockTTL : Z.
Abbreviation run := (run_lock lockTTL).

(** One row per name, as the unique index demands. *)
Definition locks_wf (st : lock_state) : Prop := NoDup (map dl_Name (lock_rows st)).

Lemma filter_names (p : DistributedLock → bool) rows : NoDup (map dl_Name rows) → NoDup (map dl_Name (List.filter p rows)).
Proof.
  induction rows as [|r l IH]; [done|]. cbn [map List.filter]. intros [Hni Hnd]%NoDup_cons. destruct (p r); [|by apply IH]. cbn [map].
  apply NoDup_cons. split; [|by apply IH]. intros (x & He & Hx)%list_elem_of_fmap. apply Hni. rewrite He. apply list_elem_of_fmap_2.
  apply list_elem_of_In, List.filter_In in Hx as [Hx _]. by apply list_elem_of_In.
Qed.

Lemma extended_names name owner until rows : map dl_Name (extended name owner until rows) = map dl_Name rows.
Proof. unfold extended. rewrite map_map. apply map_ext. intros l. by destruct (owned name owner l). Qed.

Lemma run_wf now op st : locks_wf st → locks_wf (run now op st).2.
Proof.
  unfold locks_wf. intros Hwf. destruct op as [i name owner|i name|i name d|i name owner]; cbn [run_lock].
  - unfold tryAcquire. cbv zeta. set (rows := List.filter _ (lock_rows st)). assert (NoDup (map dl_Name rows)) as Hnd by (by apply filter_names).
    destruct (existsb _ rows) eqn:He; cbn; [done|]. rewrite map_app. apply NoDup_app. split_and!; [done| |apply NoDup_singleton].
    intros x (l & -> & Hl)%list_elem_of_fmap Hx%list_elem_of_singleton. apply (proj1 (existsb_false_elem _ _) He) in Hl. cbn in Hx.
    by rewrite Hx, String.eqb_refl in Hl.
  - unfold Unlock. cbn. destruct (non_empty _); [by apply filter_names|done].
  - unfold RenewLockLease. cbv zeta. destruct (negb _); [done|]. cbn. by rewrite extended_names.
  - cbn. case_bool_decide; [|done]. cbn. by rewrite extended_names.
Qed.

(** The process holds the lock until the given instant. *)
Record holding (i : nat) (name owner : string) (until : Z) (st : lock_state) : Prop := {
  ho_row : {| dl_Name := name; dl_Owner := owner; dl_ExpiresAt := until |} ∈ lock_rows st;
  ho_wf : locks_wf st;
  ho_owner : owners (the_process st i) !! name = Some owner;
  ho_lease : (name, owner) ∈ leases (the_process st i);
  ho_alone : ∀ j, j ≠ i → owners (the_process st j) !! name ≠ Some owner;
}.

(** Until when the lock is held after an operation. *)
Definition lease_after (i : nat) (name owner : string) (until now : Z) (op : lock_op) : Z :=
  match op with
  | Tick j n o => if bool_decide (j = i ∧ n = name ∧ o = owner) then now + lockTTL else until
  | Renew j n d => if bool_decide (j = i ∧ cleanKey n = name) then now + (if (d <=? 0)%Z then lockTTL else d) else until
  | _ => until
  end.

(** Operations that leave the lock alone: they do not come after its end, the holder does not unlock it, and the holder's owner is its
    own (it is drawn at random). *)
Definition leaves_alone (i : nat) (name owner : string) (until now : Z) (op : lock_op) : Prop :=
  (now < until)%Z ∧
  match op with
  | TryAcquire _ _ o => o ≠ owner
  | DoUnlock j n => ¬ (j = i ∧ cleanKey n = name)
  | Tick j n o => n = name → o = owner → j = i
  | Renew _ _ _ => True
  end.

Lemma the_process_set st i p rows j : the_process (set_process st i p rows) j = if decide (i = j) then p else the_process st j.
Proof. unfold the_process. cbn. destruct (decide (i = j)) as [->|Hne]; [by rewrite lookup_insert_eq|by rewrite lookup_insert_ne]. Qed.

Lemma extended_row name owner until rows l :
  l ∈ rows → (if owned name owner l then {| dl_Name := dl_Name l; dl_Owner := dl_Owner l; dl_ExpiresAt := until |} else l) ∈ extended name owner until rows.
Proof. intros Hl. unfold extended. apply list_elem_of_fmap. by exists l. Qed.

Lemma owned_row name owner until n o :
  owned n o {| dl_Name := name; dl_Owner := owner; dl_ExpiresAt := until |} = bool_decide (n = name ∧ o = owner).
Proof. unfold owned. cbn. destruct (String.eqb_spec name n) as [->|]; destruct (String.eqb_spec owner o) as [->|]; cbn; symmetry; case_bool_decide; naive_solver. Qed.

Lemma lease_filter (n name owner : string) l : (name, owner) ∈ l → n ≠ name → (name, owner) ∈ List.filter (λ l, negb (String.eqb l.1 n)) l.
Proof.
  intros Hl Hne. apply list_elem_of_In, List.filter_In. split; [by apply list_elem_of_In|]. cbn. by apply negb_true_iff, String.eqb_neq.
Qed.

Lemma acquire_kept i name owner until now j n o st :
  holding i name owner until st → (now < until)%Z → o ≠ owner →
  holding i name owner until (tryAcquire lockTTL now j n o st).2 ∧ (n = name → (tryAcquire lockTTL now j n o st).1 = false).
Proof.
  intros [Hrow Hwf How Hl Hal] Hlt Ho.
  unfold tryAcquire. cbv zeta. set (rows := List.filter _ (lock_rows st)).
  assert ({| dl_Name := name; dl_Owner := owner; dl_ExpiresAt := until |} ∈ rows) as Hin.
  { apply list_elem_of_In, List.filter_In. split; [by apply list_elem_of_In|]. cbn. apply negb_true_iff, Z.leb_gt. lia. }
  assert (NoDup (map dl_Name rows)) as Hnd by (by apply filter_names).
  destruct (existsb (λ l, String.eqb (dl_Name l) n) rows) eqn:He; cbn [fst snd]; [split; [by split|done]|].
  assert (n ≠ name) as Hne.
  { intros ->. apply (proj1 (existsb_false_elem _ _) He) in Hin. cbn in Hin. by rewrite String.eqb_refl in Hin. }
  split; [|done]. split.
  - cbn. apply elem_of_app. by left.
  - unfold locks_wf. cbn. rewrite map_app. apply NoDup_app. split_and!; [done| |apply NoDup_singleton].
    intros x (l & -> & Hl')%list_elem_of_fmap Hx%list_elem_of_singleton. apply (proj1 (existsb_false_elem _ _) He) in Hl'. cbn in Hx.
    by rewrite Hx, String.eqb_refl in Hl'.
  - rewrite the_process_set. destruct (decide (j = i)) as [->|]; [|done]. cbn. by rewrite lookup_insert_ne.
  - rewrite the_process_set. destruct (decide (j = i)) as [->|]; [|done]. cbn. apply elem_of_cons. right. by apply lease_filter.
  - intros k Hk. rewrite the_process_set. destruct (decide (j = k)) as [->|]; [|by apply Hal]. cbn. rewrite lookup_insert_ne by done. by apply Hal.
Qed.

Lemma unlock_kept i name owner until j n st :
  holding i name owner until st → ¬ (j = i ∧ n = name) → holding i name owner until (Unlock j n st).
Proof.
  intros [Hrow Hwf How Hl Hal] Hne. assert (locks_wf (Unlock j n st)) as Hwf'.
  { unfold locks_wf, Unlock. cbn. destruct (non_empty _); [by apply filter_names|done]. }
  split; [|done|..].
  - unfold Unlock. cbn. destruct (non_empty _) eqn:Hno; [|done]. apply list_elem_of_In, List.filter_In. split; [by apply list_elem_of_In|].
    rewrite owned_row. apply negb_true_iff, bool_decide_eq_false. intros [-> Ho]. destruct (decide (j = i)) as [->|Hj]; [naive_solver|].
    destruct (owners (the_process st j) !! name) as [x|] eqn:Hx; [|done]. cbn in Ho. subst x. by apply (Hal j Hj).
  - unfold Unlock. rewrite the_process_set. destruct (decide (j = i)) as [->|]; [|done]. cbn. rewrite lookup_delete_ne; [done|]. intros ->. naive_solver.
  - unfold Unlock. rewrite the_process_set. destruct (decide (j = i)) as [->|]; [|done]. cbn. apply lease_filter; [done|]. intros ->. naive_solver.
  - intros k Hk. unfold Unlock. rewrite the_process_set. destruct (decide (j = k)) as [->|]; [|by apply Hal]. cbn.
    intros [_ Hx]%lookup_delete_Some. by apply (Hal k Hk).
Qed.

Lemma extend_kept i name owner until n o until' st :
  holding i name owner until st →
  holding i name owner (if bool_decide (n = name ∧ o = owner) then until' else until) {| lock_rows := extended n o until' (lock_rows st); processes := processes st |}.
Proof.
  intros [Hrow Hwf How Hl Hal]. split; [|unfold locks_wf; cbn; by rewrite extended_names|done..]. cbn.
  pose proof (extended_row n o until' _ _ Hrow) as He. rewrite owned_row in He. by case_bool_decide.
Qed.

Lemma holding_kept i name owner until now op st :
  holding i name owner until st → leaves_alone i name owner until now op → owner ≠ "" →
  holding i name owner (lease_after i name owner until now op) (run now op st).2 ∧
  (∀ j n o, op = TryAcquire j n o → cleanKey n = name → (run now op st).1 = false).
Proof.
  intros Hh [Hlt Hop] Hown. destruct op as [j n o|j n|j n d|j n o]; cbn [run_lock lease_after snd fst] in *.
  - destruct (acquire_kept i name owner until now j (cleanKey n) o st Hh Hlt Hop) as [? Hf]. split; [done|]. by intros ? ? ? [= <- <- <-].
  - split; [by apply unlock_kept|done].
  - split; [|done]. unfold RenewLockLease. cbv zeta. set (x := default "" (owners (the_process st j) !! cleanKey n)).
    assert (bool_decide (j = i ∧ cleanKey n = name) = bool_decide (cleanKey n = name ∧ x = owner)) as ->.
    { apply bool_decide_ext. split; [intros [-> He]|intros [He Hx]]; split; try done.
      - unfold x. by rewrite He, (ho_owner _ _ _ _ _ Hh).
      - destruct (decide (j = i)) as [|Hj]; [done|]. unfold x in Hx. rewrite He in Hx.
        destruct (owners (the_process st j) !! name) as [y|] eqn:Hy; cbn in Hx; [subst y; by destruct (ho_alone _ _ _ _ _ Hh j Hj)|by subst owner]. }
    destruct (non_empty x) eqn:Hx; cbn [negb]; [by apply extend_kept|].
    case_bool_decide as Hb; [|done]. destruct Hb as [_ ->]. by destruct owner.
  - split; [|done]. case_bool_decide as Hb.
    + destruct Hb as (-> & -> & ->). rewrite bool_decide_true by apply (ho_lease _ _ _ _ _ Hh).
      pose proof (extend_kept i name owner until name owner (now + lockTTL) st Hh) as He. by rewrite bool_decide_true in He.
    + case_bool_decide; [|done]. pose proof (extend_kept i name owner until n o (now + lockTTL) st Hh) as He.
      rewrite bool_decide_false in He; [done|]. intros [-> ->]. naive_solver.
Qed.

(** ** Histories *)

(** The operations happen at the given instants, each before the lease ends, and no other than the holder unlocks. *)
Fixpoint in_time (i : nat) (name owner : string) (until : Z) (ops : list (Z * lock_op)) : Prop :=
  match ops with
  | [] => True
  | (now, op) :: rest => leaves_alone i name owner until now op ∧ in_time i name owner (lease_after i name owner until now op) rest
  end.

(** Whether any operation of the history was given the lock. *)
Fixpoint given (name : string) (ops : list (Z * lock_op)) (st : lock_state) : bool :=
  match ops with
  | [] => false
  | (now, op) :: rest =>
      let '(ok, st) := run now op st in
      ok && match op with TryAcquire _ n _ => String.eqb (cleanKey n) name | _ => false end || given name rest st
  end.

Inductive lock_step : lock_state → lock_state → Prop :=
  | a_lock_step now op st : lock_step st (run now op st).2.

Definition no_locks : lock_state := {| lock_rows := []; processes := ∅ |}.

(** Nobody has drawn this owner before. *)
Definition fresh_owner (owner : string) (st : lock_state) : Prop := owner ≠ "" ∧ ∀ j n, owners (the_process st j) !! n ≠ Some owner.

Lemma reachable_wf st : rtc lock_step no_locks st → locks_wf st.
Proof. revert st. apply rtc_ind_r; [apply NoDup_nil_2|]. intros ? ? _ [now op s] Hwf. by apply run_wf. Qed.

Lemma held_until_lapse i name owner until ops st : holding i name owner until st → owner ≠ "" → in_time i name owner until ops → given name ops st = false.
Proof.
  revert until st. induction ops as [|[now op] rest IH]; intros e st Hh Hown; [done|]. cbn [in_time given]. intros [Hal Hrest].
  destruct (holding_kept i name owner e now op st Hh Hal Hown) as [Hh' Hf]. destruct (run now op st) as [ok st'] eqn:Hr. cbn [fst snd] in *.
  apply orb_false_iff. split; [|by eapply IH]. destruct op as [j n o| | |]; [|by rewrite andb_false_r..].
  destruct (String.eqb_spec (cleanKey n) name) as [He|]; [|by rewrite andb_false_r]. by rewrite (Hf j n o eq_refl He).
Qed.

(** A lock excludes everyone: after a process was given it, and for as long as every operation comes before the end of its lease
    (which its ticker and renewals move on), nobody is given it again, in this process or another, whatever they try to acquire, renew
    or unlock; and a lock whose row is gone or past its end is given. *)
Theorem lock_exclusive st now i name owner :
  rtc lock_step no_locks st → fresh_owner owner st →
  let '(ok, st') := run now (TryAcquire i name owner) st in
  (ok = false ↔ ∃ l, l ∈ lock_rows st ∧ dl_Name l = cleanKey name ∧ (now < dl_ExpiresAt l)%Z) ∧
  (ok = true → ∀ ops, in_time i (cleanKey name) owner (now + lockTTL) ops → given (cleanKey name) ops st' = false).
Proof.
  intros Hst%reachable_wf [Hown Hfresh]. pose proof (run_wf now (TryAcquire i name owner) st Hst) as Hwf'. cbn [run_lock] in *. unfold tryAcquire in *. cbv zeta in *.
  set (rows := List.filter _ (lock_rows st)) in *. destruct (existsb (λ l, String.eqb (dl_Name l) (cleanKey name)) rows) eqn:He; cbn [fst snd] in *.
  - split; [|done]. split; [intros _|done]. apply existsb_exists_elem in He as (l & Hl & Hn). apply list_elem_of_In, List.filter_In in Hl as [Hl Hx].
    exists l. apply String.eqb_eq in Hn. apply negb_true_iff, Z.leb_gt in Hx. split_and!; [by apply list_elem_of_In|done|lia].
  - split.
    + split; [done|]. intros (l & Hl & Hn & Hx). assert (l ∈ rows) as Hin.
      { apply list_elem_of_In, List.filter_In. split; [by apply list_elem_of_In|]. apply negb_true_iff, Z.leb_gt. lia. }
      apply (proj1 (existsb_false_elem _ _) He) in Hin. by rewrite Hn, String.eqb_refl in Hin.
    + intros _ ops Hops. eapply held_until_lapse; [|exact Hown|exact Hops]. split; [|done|..].
      * cbn. apply elem_of_app. right. by apply list_elem_of_singleton.
      * rewrite the_process_set, decide_True by done. cbn. apply lookup_insert_eq.
      * rewrite the_process_set, decide_True by done. cbn. by left.
      * intros j Hj. rewrite the_process_set, decide_False by done. apply Hfresh.
Qed.
End exclusion.

Definition sample_ops : list (Z * lock_op) :=
  [(5, TryAcquire 2 "issue" "b"); (10, Tick 1 "issue" "a"); (35, TryAcquire 1 "/issue/" "c"); (36, DoUnlock 2 "issue"); (37, TryAcquire 3 "issue" "d")]%Z.

Lemma lock_exclusive_witness :
  (run_lock 30 0 (TryAcquire 1 "issue" "a") no_locks).1 = true ∧ given 30 "issue" sample_ops (run_lock 30 0 (TryAcquire 1 "issue" "a") no_locks).2 = false.
Proof.
  split; [reflexivity|].
  pose proof (lock_exclusive 30 no_locks 0 1 "issue" "a" (rtc_refl _ _)) as Hex. destruct (run_lock 30 0 (TryAcquire 1 "issue" "a") no_locks) as [ok st] eqn:Hr.
  destruct Hex as [_ Hex]; [split; [discriminate|intros j n; done]|].
  apply Hex; [by apply (f_equal fst) in Hr|]. cbn. unfold leaves_alone. split_and!; try lia; try done; naive_solver.
Defined.

(** A holder whose lease lapsed unlocks by name, and so takes the lock from another holder in the same process: the lock is then given to
    a third while the second believes to hold it. *)
Theorem lapsed_holder_unlocks_next :
  let '(a, st) := run_lock 30 0 (TryAcquire 1 "issue" "a") no_locks in
  let '(b, st) := run_lock 30 31 (TryAcquire 1 "issue" "b") st in
  let st := (run_lock 30 32 (DoUnlock 1 "issue") st).2 in
  let '(c, st) := run_lock 30 33 (TryAcquire 2 "issue" "c") st in
  a = true ∧ b = true ∧ c = true.
Proof. vm_compute. split_and!; reflexivity. Qed.
End Locks.
