(* ===== verification/DnsProviders.v ===== *)
(** The DNS providers certificates are validated with (internal/http/certificates_dns.go over internal/store/dns_provider_store.go),
    the rotation of the key their configurations are sealed with, and the alerts on the audit log (internal/http/security_rotation.go,
    data_crypto.go).

    A configuration is stored sealed under the active secret; the legacy secrets only open what was sealed before. The theorems show that
    re-encryption makes the legacy secrets dispensable, that what the dry run and the status page announce is what re-encryption does, and
    that no reply carries a configured value. Requests arrive validated; the salt and the nonce drawn for a row, whether the
    database takes a write ([written]) and the order of [ORDER BY name] are inputs. *)
From S2P Require Import Prelude GoStrings SecretBox AuditChain ApiGuard UserAdmin Config CertStore CertStorage.

#[local] Open Scope string_scope.
#[local] Open Scope list_scope.

Record DNSProvider := {
  dp_ID : N; dp_Name : string; dp_Type : string; dp_ConfigEncrypted : string; dp_ConfigHint : string; dp_IsActive : bool;
  dp_LastTestedAt : option Z; dp_LastTestStatus : string; dp_LastTestError : string; dp_HasStoredSecret : bool;
  dp_MaskedConfig : option (gmap string string); dp_SupportedChallenges : list string;
}.

(** The entries of a configuration are in the order a loop over the map visits them. *)
Record createDNSProviderRequest := { cp_Name : string; cp_Type : string; cp_Config : list (string * string); cp_Active : option bool }.
Record updateDNSProviderRequest := {
  up_Name : option string; up_Type : option string; up_Config : option (list (string * string)); up_Active : option bool;
}.

Record dns_state := { dns_rows : list DNSProvider; dns_next : N; dns_keys : key_cache }.

Definition with_keys (st : dns_state) (keys : key_cache) : dns_state := {| dns_rows := dns_rows st; dns_next := dns_next st; dns_keys := keys |}.
Definition with_rows (st : dns_state) (rows : list DNSProvider) : dns_state := {| dns_rows := rows; dns_next := dns_next st; dns_keys := dns_keys st |}.

Definition with_config (p : DNSProvider) (encrypted : string) (stored : bool) : DNSProvider :=
  {| dp_ID := dp_ID p; dp_Name := dp_Name p; dp_Type := dp_Type p; dp_ConfigEncrypted := encrypted; dp_ConfigHint := dp_ConfigHint p;
     dp_IsActive := dp_IsActive p; dp_LastTestedAt := dp_LastTestedAt p; dp_LastTestStatus := dp_LastTestStatus p;
     dp_LastTestError := dp_LastTestError p; dp_HasStoredSecret := stored; dp_MaskedConfig := dp_MaskedConfig p;
     dp_SupportedChallenges := dp_SupportedChallenges p |}.
Definition with_test (p : DNSProvider) (now : Z) (status err : string) : DNSProvider :=
  {| dp_ID := dp_ID p; dp_Name := dp_Name p; dp_Type := dp_Type p; dp_ConfigEncrypted := dp_ConfigEncrypted p; dp_ConfigHint := dp_ConfigHint p;
     dp_IsActive := dp_IsActive p; dp_LastTestedAt := Some now; dp_LastTestStatus := status; dp_LastTestError := err;
     dp_HasStoredSecret := dp_HasStoredSecret p; dp_MaskedConfig := dp_MaskedConfig p; dp_SupportedChallenges := dp_SupportedChallenges p |}.

(** ** The table; names are unique *)

Definition dnsProviders_GetByID (st : dns_state) (id : N) : option DNSProvider := List.find (λ p, N.eqb (dp_ID p) id) (dns_rows st).

Definition name_taken (rows : list DNSProvider) (item : DNSProvider) : bool :=
  existsb (λ p, String.eqb (dp_Name p) (dp_Name item) && negb (N.eqb (dp_ID p) (dp_ID item))) rows.
Definition replace_row (item : DNSProvider) (rows : list DNSProvider) : list DNSProvider :=
  map (λ p, if N.eqb (dp_ID p) (dp_ID item) then item else p) rows.
Definition dnsProviders_Update (written : bool) (item : DNSProvider) (st : dns_state) : option dns_state :=
  if negb written || name_taken (dns_rows st) item then None else Some (with_rows st (replace_row item (dns_rows st))).

Definition dnsProviders_Delete (id : N) (st : dns_state) : option dns_state :=
  if existsb (λ p, N.eqb (dp_ID p) id) (dns_rows st)
  then Some (with_rows st (List.filter (λ p, negb (N.eqb (dp_ID p) id)) (dns_rows st)))
  else None.

(** ** Configurations *)

Definition DNSProviderTypeCloudflare := "cloudflare".
Definition DNSProviderTypeHetzner := "hetzner".
Definition DNSProviderTypeRoute53 := "route53".
Definition DNSProviderTypeDO := "digitalocean".
Definition CertificateChallengeDNS01 := "dns-01".

Definition providerConfigHint (providerType : string) : string :=
  if String.eqb providerType DNSProviderTypeCloudflare then "Requires api_token with Zone DNS edit permission."
  else if String.eqb providerType DNSProviderTypeHetzner then "Requires dns_api_token for the target zone."
  else if String.eqb providerType DNSProviderTypeRoute53 then
    "Supports AWS env-chain auth or explicit keys. For explicit credentials use access_key_id, secret_access_key, optional session_token, and optional region/hosted_zone_id/profile."
  else if String.eqb providerType DNSProviderTypeDO then "Requires api_token for DigitalOcean DNS."
  else "".

Definition requiredProviderKeys (providerType : string) : list string :=
  if String.eqb providerType DNSProviderTypeCloudflare then ["api_token"]
  else if String.eqb providerType DNSProviderTypeHetzner then ["dns_api_token"]
  else if String.eqb providerType DNSProviderTypeRoute53 then []
  else if String.eqb providerType DNSProviderTypeDO then ["api_token"]
  else [].

Definition normalizeProviderConfig (input : list (string * string)) : gmap string string :=
  foldl (λ out e, let key := TrimSpace e.1 in if non_empty key then <[key := TrimSpace e.2]> out else out) ∅ input.

(** [%q] of a plain name. *)
Definition quoted (s : string) : string := String "034" (s +:+ String "034" "").

Fixpoint validate_keys (keys : list string) (config : gmap string string) : result string unit :=
  match keys with
  | [] => Ok tt
  | key :: rest =>
      if non_empty (TrimSpace (default "" (config !! key))) then validate_keys rest config
      else Err ("provider config field " +:+ quoted key +:+ " is required")
  end.
Definition validateProviderConfig (providerType : string) (config : gmap string string) : result string unit :=
  validate_keys (requiredProviderKeys providerType) config.

Definition IsEncryptedJSONLatest (value : string) : bool := IsEncryptedValueV2 value.

(** What re-encryption reports. *)
Record reencrypt_report := {
  re_DryRun : bool; re_processed : nat; re_updated : nat; re_skipped : nat; re_failures : nat; re_failedIDs : list N;
}.
Definition count_skipped (r : reencrypt_report) (processed : nat) : reencrypt_report :=
  {| re_DryRun := re_DryRun r; re_processed := re_processed r + processed; re_updated := re_updated r; re_skipped := re_skipped r + 1;
     re_failures := re_failures r; re_failedIDs := re_failedIDs r |}.
Definition count_updated (r : reencrypt_report) : reencrypt_report :=
  {| re_DryRun := re_DryRun r; re_processed := re_processed r + 1; re_updated := re_updated r + 1; re_skipped := re_skipped r;
     re_failures := re_failures r; re_failedIDs := re_failedIDs r |}.
Definition count_failed (r : reencrypt_report) (id : N) : reencrypt_report :=
  {| re_DryRun := re_DryRun r; re_processed := re_processed r + 1; re_updated := re_updated r; re_skipped := re_skipped r;
     re_failures := re_failures r + 1; re_failedIDs := re_failedIDs r ++ [id] |}.

Record rotation_status := { ro_legacyKeys : nat; ro_total : nat; ro_candidates : nat; ro_failures : nat; ro_activeSafe : bool }.

Section dns.
Context `{Primitives}.
Variable json_Marshal : gmap string string → string.
Variable json_Unmarshal : string → option (gmap string string).
Variable gorm_bool : bool → bool → bool.
Variable order_by_name : list DNSProvider → list DNSProvider.
Variable cfg : Config.

Definition dnsProviders_List (st : dns_state) : list DNSProvider := order_by_name (dns_rows st).

Definition dnsProviders_Create (item : DNSProvider) (st : dns_state) : option (DNSProvider * dns_state) :=
  let item :=
    {| dp_ID := dns_next st; dp_Name := dp_Name item; dp_Type := dp_Type item; dp_ConfigEncrypted := dp_ConfigEncrypted item;
       dp_ConfigHint := dp_ConfigHint item; dp_IsActive := gorm_bool (dp_IsActive item) true; dp_LastTestedAt := dp_LastTestedAt item;
       dp_LastTestStatus := dp_LastTestStatus item; dp_LastTestError := dp_LastTestError item;
       dp_HasStoredSecret := gorm_bool (dp_HasStoredSecret item) false; dp_MaskedConfig := dp_MaskedConfig item;
       dp_SupportedChallenges := dp_SupportedChallenges item |} in
  if name_taken (dns_rows st) item then None
  else Some (item, {| dns_rows := dns_rows st ++ [item]; dns_next := dns_next st + 1; dns_keys := dns_keys st |}).

(** ** Sealing under the configured secrets *)

Definition dataSecrets : list string := DataEncryptionSecrets cfg.
Definition dataEncryptJSON (value : gmap string string) (salt nonce : string) (keys : key_cache) : string * key_cache :=
  EncryptJSONV2 json_Marshal (cf_DataEncryptionSecret cfg) value salt nonce keys.
Definition dataDecryptJSON (value : string) (keys : key_cache) : result box_error (gmap string string) * key_cache :=
  DecryptJSONAuto json_Unmarshal dataSecrets value keys.
Definition dataDecryptJSONWithActiveKey (value : string) (keys : key_cache) : result box_error (gmap string string) * key_cache :=
  DecryptJSONAuto json_Unmarshal [cf_DataEncryptionSecret cfg] value keys.

(** ** Replies *)

Definition sanitizeDNSProvider (item : DNSProvider) (keys : key_cache) : DNSProvider * key_cache :=
  let '(config, keys) := DecryptJSONAuto json_Unmarshal dataSecrets (dp_ConfigEncrypted item) keys in
  ({| dp_ID := dp_ID item; dp_Name := dp_Name item; dp_Type := dp_Type item; dp_ConfigEncrypted := ""; dp_ConfigHint := dp_ConfigHint item;
      dp_IsActive := dp_IsActive item; dp_LastTestedAt := dp_LastTestedAt item; dp_LastTestStatus := dp_LastTestStatus item;
      dp_LastTestError := dp_LastTestError item; dp_HasStoredSecret := dp_HasStoredSecret item;
      dp_MaskedConfig := match config with Ok config => Some (MaskConfig config) | Err _ => dp_MaskedConfig item end;
      dp_SupportedChallenges := dp_SupportedChallenges item |}, keys).
Fixpoint sanitizeDNSProviders (items : list DNSProvider) (keys : key_cache) : list DNSProvider * key_cache :=
  match items with
  | [] => ([], keys)
  | item :: rest =>
      let '(item, keys) := sanitizeDNSProvider item keys in
      let '(rest, keys) := sanitizeDNSProviders rest keys in (item :: rest, keys)
  end.

Definition reply_with (item : DNSProvider) (st : dns_state) : api_reply DNSProvider * dns_state :=
  let '(item, keys) := sanitizeDNSProvider item (dns_keys st) in (Answer item, with_keys st keys).

(** ** The handlers *)

Definition validation_failed {X} (message : string) : api_reply X := ApiError 400 "validation_error" message.

Definition handleListDNSProviders (st : dns_state) : api_reply (list DNSProvider) * dns_state :=
  let '(items, keys) := sanitizeDNSProviders (dnsProviders_List st) (dns_keys st) in (Answer items, with_keys st keys).

Definition handleGetDNSProvider (id : N) (st : dns_state) : api_reply DNSProvider * dns_state :=
  match dnsProviders_GetByID st id with None => (not_found, st) | Some item => reply_with item st end.

Definition handleCreateDNSProvider (salt nonce : string) (req : createDNSProviderRequest) (st : dns_state) : api_reply DNSProvider * dns_state :=
  let config := normalizeProviderConfig (cp_Config req) in
  match validateProviderConfig (cp_Type req) config with
  | Err message => (validation_failed message, st)
  | Ok _ =>
      let '(encrypted, keys) := dataEncryptJSON config salt nonce (dns_keys st) in
      let st := with_keys st keys in
      let item :=
        {| dp_ID := 0; dp_Name := TrimSpace (cp_Name req); dp_Type := cp_Type req; dp_ConfigEncrypted := encrypted;
           dp_ConfigHint := providerConfigHint (cp_Type req); dp_IsActive := default true (cp_Active req); dp_LastTestedAt := None;
           dp_LastTestStatus := ""; dp_LastTestError := ""; dp_HasStoredSecret := (0 <? size config)%nat; dp_MaskedConfig := None;
           dp_SupportedChallenges := [CertificateChallengeDNS01] |} in
      match dnsProviders_Create item st with
      | None => (internalError, st)
      | Some (item, st) => reply_with item st
      end
  end.

Definition handleUpdateDNSProvider (written : bool) (salt nonce : string) (id : N) (req : updateDNSProviderRequest) (st : dns_state)
  : api_reply DNSProvider * dns_state :=
  match dnsProviders_GetByID st id with
  | None => (not_found, st)
  | Some p =>
      let item :=
        {| dp_ID := dp_ID p; dp_Name := match up_Name req with Some name => TrimSpace name | None => dp_Name p end;
           dp_Type := default (dp_Type p) (up_Type req); dp_ConfigEncrypted := dp_ConfigEncrypted p;
           dp_ConfigHint := match up_Type req with Some ty => providerConfigHint ty | None => dp_ConfigHint p end;
           dp_IsActive := default (dp_IsActive p) (up_Active req); dp_LastTestedAt := dp_LastTestedAt p;
           dp_LastTestStatus := dp_LastTestStatus p; dp_LastTestError := dp_LastTestError p; dp_HasStoredSecret := dp_HasStoredSecret p;
           dp_MaskedConfig := dp_MaskedConfig p; dp_SupportedChallenges := dp_SupportedChallenges p |} in
      let '(checked, keys) :=
        match up_Config req with
        | Some entries =>
            let config := normalizeProviderConfig entries in
            match validateProviderConfig (dp_Type item) config with
            | Err message => (Err (validation_failed message), dns_keys st)
            | Ok _ =>
                let '(encrypted, keys) := dataEncryptJSON config salt nonce (dns_keys st) in
                (Ok (with_config item encrypted (0 <? size config)%nat), keys)
            end
        | None =>
            if non_empty (dp_ConfigEncrypted item) then
              let '(config, keys) := dataDecryptJSON (dp_ConfigEncrypted item) (dns_keys st) in
              (match config with
               | Err _ => Err internalError
               | Ok config => match validateProviderConfig (dp_Type item) config with Err message => Err (validation_failed message) | Ok _ => Ok item end
               end, keys)
            else (Ok item, dns_keys st)
        end in
      let st := with_keys st keys in
      match checked with
      | Err reply => (reply, st)
      | Ok item =>
          match dnsProviders_Update written item st with
          | None => (internalError, st)
          | Some st => reply_with item st
          end
      end
  end.

Definition handleDeleteDNSProvider (deletable : bool) (id : N) (st : dns_state) : api_reply unit * dns_state :=
  match dnsProviders_Delete id st with
  | None => (not_found, st)
  | Some st' => if deletable then (Answer tt, st') else (internalError, st)
  end.

(** The answer is the status, the time, the name and the type. *)
Definition handleTestDNSProvider (written : bool) (now : Z) (id : N) (st : dns_state) : api_reply (string * Z * string * string) * dns_state :=
  match dnsProviders_GetByID st id with
  | None => (not_found, st)
  | Some item =>
      let '(config, keys) := dataDecryptJSON (dp_ConfigEncrypted item) (dns_keys st) in
      let st := with_keys st keys in
      match config with
      | Err _ => (internalError, st)
      | Ok config =>
          let testErr := validateProviderConfig (dp_Type item) config in
          let item := match testErr with Err message => with_test item now "failed" message | Ok _ => with_test item now "ok" "" end in
          match dnsProviders_Update written item st with
          | None => (internalError, st)
          | Some st =>
              (match testErr with
               | Err message => validation_failed message
               | Ok _ => Answer (dp_LastTestStatus item, now, dp_Name item, dp_Type item)
               end, st)
          end
      end
  end.

(** ** Rotation *)

(** Whether the row is sealed in the current format under the active secret. *)
Definition is_current (item : DNSProvider) (keys : key_cache) : bool * key_cache :=
  if IsEncryptedJSONLatest (dp_ConfigEncrypted item)
  then let '(r, keys) := dataDecryptJSONWithActiveKey (dp_ConfigEncrypted item) keys in (is_ok r, keys)
  else (false, keys).

Definition reencrypt_item (dryRun : bool) (written : N → bool) (random : N → string * string)
    (acc : reencrypt_report * dns_state) (item : DNSProvider) : reencrypt_report * dns_state :=
  let '(rep, st) := acc in
  if negb (non_empty (TrimSpace (dp_ConfigEncrypted item))) then (count_skipped rep 0, st)
  else
    let '(current, keys) := is_current item (dns_keys st) in
    if current then (count_skipped rep 1, with_keys st keys)
    else
      let '(config, keys) := dataDecryptJSON (dp_ConfigEncrypted item) keys in
      match config with
      | Err _ => (count_failed rep (dp_ID item), with_keys st keys)
      | Ok config =>
          if dryRun then (count_updated rep, with_keys st keys)
          else
            let '(salt, nonce) := random (dp_ID item) in
            let '(encrypted, keys) := dataEncryptJSON config salt nonce keys in
            let st := with_keys st keys in
            match dnsProviders_Update (written (dp_ID item)) (with_config item encrypted (dp_HasStoredSecret item)) st with
            | None => (count_failed rep (dp_ID item), st)
            | Some st => (count_updated rep, st)
            end
      end.

(** The query parameter, when there is one, decides. *)
Definition dry_run_of (body : bool) (query : string) : bool :=
  let q := TrimSpace query in if non_empty q then EqualFold q "true" || String.eqb q "1" else body.

Definition handleReencryptDataKey (body : bool) (query : string) (written : N → bool) (random : N → string * string) (st : dns_state)
  : reencrypt_report * dns_state :=
  let dryRun := dry_run_of body query in
  let '(rep, st) := foldl (reencrypt_item dryRun written random)
    ({| re_DryRun := dryRun; re_processed := 0; re_updated := 0; re_skipped := 0; re_failures := 0; re_failedIDs := [] |}, st)
    (dnsProviders_List st) in
  ({| re_DryRun := re_DryRun rep; re_processed := re_processed rep; re_updated := re_updated rep; re_skipped := re_skipped rep;
      re_failures := re_failures rep; re_failedIDs := take 20 (re_failedIDs rep) |}, st).

Definition status_item (acc : nat * nat * key_cache) (item : DNSProvider) : nat * nat * key_cache :=
  let '(candidates, failures, keys) := acc in
  if negb (non_empty (TrimSpace (dp_ConfigEncrypted item))) then acc
  else
    let '(current, keys) := is_current item keys in
    if current then (candidates, failures, keys)
    else
      let '(config, keys) := dataDecryptJSON (dp_ConfigEncrypted item) keys in
      if is_ok config then (S candidates, failures, keys) else (candidates, S failures, keys).

Definition handleRotationStatus (st : dns_state) : rotation_status * dns_state :=
  let items := dnsProviders_List st in
  let '(candidates, failures, keys) := foldl status_item (0, 0, dns_keys st)%nat items in
  ({| ro_legacyKeys := length dataSecrets - 1; ro_total := length items; ro_candidates := candidates; ro_failures := failures;
      ro_activeSafe := true |}, with_keys st keys).

(** At start: what is in an older format is sealed again; [None] stops at a write the database refuses. *)
Fixpoint migrate_providers (written : N → bool) (random : N → string * string) (items : list DNSProvider) (updated : nat) (st : dns_state)
  : nat * bool * dns_state :=
  match items with
  | [] => (updated, true, st)
  | item :: rest =>
      if negb (non_empty (TrimSpace (dp_ConfigEncrypted item))) || IsEncryptedJSONLatest (dp_ConfigEncrypted item)
      then migrate_providers written random rest updated st
      else
        let '(config, keys) := dataDecryptJSON (dp_ConfigEncrypted item) (dns_keys st) in
        match config with
        | Err _ => migrate_providers written random rest updated (with_keys st keys)
        | Ok config =>
            let '(salt, nonce) := random (dp_ID item) in
            let '(encrypted, keys) := dataEncryptJSON config salt nonce keys in
            let st := with_keys st keys in
            match dnsProviders_Update (written (dp_ID item)) (with_config item encrypted (dp_HasStoredSecret item)) st with
            | None => (updated, false, st)
            | Some st => migrate_providers written random rest (S updated) st
            end
        end
  end.
Definition MigrateDNSProviderSecrets (written : N → bool) (random : N → string * string) (st : dns_state) : nat * bool * dns_state :=
  migrate_providers written random (dnsProviders_List st) 0 st.
End dns.

(** ** Alerts *)

Definition CountByActionLikeSince (fold : bool) (rows : list AuditLog) (actionLike : string) (since : Z) : Z :=
  Z.of_nat (length (List.filter (λ r, like fold actionLike (Action r) && (since <=? Timestamp r)%Z) rows)).

Record security_alert := { al_code : string; al_severity : string; al_value : Z; al_threshold : Z }.

(** The alerts, and the three counts they are decided on. *)
Definition handleSecurityAlerts (fold : bool) (cfg : Config) (now : Z) (rows : list AuditLog) : list security_alert * (Z * Z * Z) :=
  let windowStart := (now - cf_AlertWindow cfg)%Z in
  let count pattern := CountByActionLikeSince fold rows pattern windowStart in
  let totalLoginFails := (count "%login_failed%" + count "%otp_login_failed%" + count "%sso_login_failed%")%Z in
  let nodeHeartbeatFails := count "node_heartbeat_rejected" in
  let auditAnomalies := (count "%mfa_reset%" + count "%role_change%")%Z in
  ((if (cf_AlertLoginFailSpikeThreshold cfg <=? totalLoginFails)%Z
    then [{| al_code := "login_fail_spike"; al_severity := "high"; al_value := totalLoginFails; al_threshold := cf_AlertLoginFailSpikeThreshold cfg |}] else []) ++
   (if (cf_AlertNodeHeartbeatFailThreshold cfg <=? nodeHeartbeatFails)%Z
    then [{| al_code := "node_heartbeat_auth_fail_spike"; al_severity := "high"; al_value := nodeHeartbeatFails; al_threshold := cf_AlertNodeHeartbeatFailThreshold cfg |}] else []) ++
   (if (cf_AlertAuditAnomalyThreshold cfg <=? auditAnomalies)%Z
    then [{| al_code := "audit_anomaly_burst"; al_severity := "medium"; al_value := auditAnomalies; al_threshold := cf_AlertAuditAnomalyThreshold cfg |}] else []),
   (totalLoginFails, nodeHeartbeatFails, auditAnomalies)).

(** * Re-encryption *)

Lemma sealed_is_v2 `{PrimitivesLaws} secret value salt nonce c : IsEncryptedValueV2 (EncryptStringV2 secret value salt nonce c).1 = true.
Proof.
  unfold EncryptStringV2. destruct (deriveArgon2Key secret salt c) as [key c']. cbn [fst]. unfold IsEncryptedValueV2.
  rewrite text_trim by done. apply HasPrefix_spec. eauto.
Qed.

(** The names and the identifiers of the rows are theirs alone. *)
Record dns_wf `{Primitives} (st : dns_state) : Prop := {
  wf_ids : NoDup (map dp_ID (dns_rows st));
  wf_names : NoDup (map dp_Name (dns_rows st));
  wf_keys : cache_ok (dns_keys st);
}.

Inductive outcome := Blank | Current | Unreadable | Candidate (config : gmap string string).

Section rotation.
Context `{PrimitivesLaws}.
Variable json_Marshal : gmap string string → string.
Variable json_Unmarshal : string → option (gmap string string).
Variable order_by_name : list DNSProvider → list DNSProvider.
Variable cfg : Config.

Abbreviation active := (cf_DataEncryptionSecret cfg).
Abbreviation secrets := (dataSecrets cfg).

(** What a stored text says under the given secrets. *)
Definition opened (l : list string) (value : string) : result box_error (gmap string string) := (DecryptJSONAuto json_Unmarshal l value no_keys).1.

Lemma DecryptJSONAuto_keys l value c :
  cache_ok c → (DecryptJSONAuto json_Unmarshal l value c).1 = opened l value ∧ cache_ok (DecryptJSONAuto json_Unmarshal l value c).2.
Proof.
  intros Hc. unfold opened, DecryptJSONAuto. cbv zeta. destruct (negb _); [done|]. destruct (IsEncryptedValueV2 _); [|done].
  unfold decryptStringV2WithSecrets.
  destruct (try_secrets_keys (TrimSpace value) l ErrNoSecrets c no_keys Hc cache_empty_ok) as [Heq Hok].
  destruct (try_secrets _ l ErrNoSecrets c) as [r c1], (try_secrets _ l ErrNoSecrets no_keys) as [r' c2]. cbn in *. by subst.
Qed.

Lemma opened_v2 l value :
  IsEncryptedValueV2 value = true → opened l value = result_bind (DecryptStringAuto l value no_keys).1 (unmarshal json_Unmarshal).
Proof.
  intros Hv. unfold opened, DecryptJSONAuto, DecryptStringAuto. cbv zeta.
  assert (IsEncryptedValueV2 (TrimSpace value) = true) as Hv' by (unfold IsEncryptedValueV2 in *; by rewrite TrimSpace_idem).
  rewrite Hv'. assert (non_empty (TrimSpace value) = true) as ->.
  { unfold IsEncryptedValueV2 in Hv. by destruct (TrimSpace value). }
  cbn [negb]. by destruct (decryptStringV2WithSecrets _ _ _).
Qed.

Hypothesis active_set : active ≠ "" ∧ TrimSpace active = active.

Lemma secrets_active : ∃ legacy, secrets = active :: legacy.
Proof.
  unfold dataSecrets, DataEncryptionSecrets. destruct active_set as [Hne ->]. apply non_empty_true in Hne. rewrite Hne. by eexists.
Qed.

(** What the active secret opens is what all of them open. *)
Lemma opened_active value config : IsEncryptedValueV2 value = true → opened [active] value = Ok config → opened secrets value = Ok config.
Proof.
  intros Hv. rewrite !opened_v2 by done. destruct secrets_active as [legacy ->].
  assert (IsEncryptedValueV2 (TrimSpace value) = true) as Hv' by (unfold IsEncryptedValueV2 in *; by rewrite TrimSpace_idem).
  unfold DecryptStringAuto, decryptStringV2WithSecrets. cbv zeta. rewrite Hv'. cbn [try_secrets].
  destruct active_set as [Hne%non_empty_true _]. rewrite Hne. cbn [negb]. by destruct (DecryptStringV2 _ _ _) as [[?|?] ?].
Qed.

(** ** What the code makes of a row *)

Definition blank (item : DNSProvider) : bool := negb (non_empty (TrimSpace (dp_ConfigEncrypted item))).

Definition classify (item : DNSProvider) : outcome :=
  if blank item then Blank
  else if IsEncryptedJSONLatest (dp_ConfigEncrypted item) && is_ok (opened [active] (dp_ConfigEncrypted item)) then Current
  else match opened secrets (dp_ConfigEncrypted item) with Err _ => Unreadable | Ok config => Candidate config end.

Hypothesis json_round : ∀ text m, json_Unmarshal text = Some m → json_Unmarshal (json_Marshal m) = Some m.
Variable random : N → string * string.
Hypothesis random_good : ∀ id, random_ok (random id).1 (random id).2.

Definition resealed (item : DNSProvider) (config : gmap string string) : DNSProvider :=
  with_config item (dataEncryptJSON json_Marshal cfg config (random (dp_ID item)).1 (random (dp_ID item)).2 no_keys).1 (dp_HasStoredSecret item).

Lemma dataEncryptJSON_keys config salt nonce c :
  random_ok salt nonce → cache_ok c →
  (dataEncryptJSON json_Marshal cfg config salt nonce c).1 = (dataEncryptJSON json_Marshal cfg config salt nonce no_keys).1 ∧
  cache_ok (dataEncryptJSON json_Marshal cfg config salt nonce c).2.
Proof.
  intros [Hs Hn] Hc. unfold dataEncryptJSON, EncryptJSONV2, EncryptStringV2. destruct (derive_ok active salt c Hs Hc) as [Hk Hok].
  destruct (derive_ok active salt no_keys Hs cache_empty_ok) as [Hk' _].
  destruct (deriveArgon2Key active salt c) as [k c1], (deriveArgon2Key active salt no_keys) as [k' c2]. cbn in *. by subst.
Qed.

Lemma encrypted_opens l config salt nonce :
  random_ok salt nonce → active ∈ l → json_Unmarshal (json_Marshal config) = Some config →
  opened l (dataEncryptJSON json_Marshal cfg config salt nonce no_keys).1 = Ok config.
Proof.
  intros [Hs Hn] Hin Hj. unfold dataEncryptJSON, EncryptJSONV2. rewrite opened_v2 by apply sealed_is_v2.
  destruct (sealed_v2_opens l active (json_Marshal config) salt nonce no_keys no_keys Hin (proj1 active_set) Hs Hn cache_empty_ok cache_empty_ok) as [-> _].
  cbn. unfold unmarshal. by rewrite Hj.
Qed.

(** A candidate that is sealed again opens to what it opened to. *)
Lemma resealed_opens item config l :
  classify item = Candidate config → active ∈ l → opened l (dp_ConfigEncrypted (resealed item config)) = Ok config.
Proof.
  unfold classify. destruct (blank item) eqn:Hb; [done|]. destruct (_ && _); [done|].
  destruct (opened secrets (dp_ConfigEncrypted item)) as [m|] eqn:Ho; [|done]. intros [= ->] Hin. cbn. apply encrypted_opens; [apply random_good|done|].
  unfold opened, DecryptJSONAuto in Ho. cbv zeta in Ho. unfold blank in Hb. rewrite Hb in Ho.
  destruct (if IsEncryptedValueV2 _ then _ else _) as [[text|?] ?]; cbn in Ho; [|done]. unfold unmarshal in Ho.
  destruct (json_Unmarshal text) eqn:Ht; [|done]. injection Ho as ->. eauto.
Qed.

(** ** One row *)

Lemma is_current_spec item c :
  cache_ok c →
  (is_current json_Unmarshal cfg item c).1 = IsEncryptedJSONLatest (dp_ConfigEncrypted item) && is_ok (opened [active] (dp_ConfigEncrypted item)) ∧
  cache_ok (is_current json_Unmarshal cfg item c).2.
Proof.
  intros Hc. unfold is_current, dataDecryptJSONWithActiveKey. destruct (IsEncryptedJSONLatest _); [|done].
  destruct (DecryptJSONAuto_keys [active] (dp_ConfigEncrypted item) c Hc) as [<- Hok]. by destruct (DecryptJSONAuto _ _ _ _).
Qed.

Abbreviation reencrypt := (reencrypt_item json_Marshal json_Unmarshal cfg).

Lemma reencrypt_item_spec dry written rep st item :
  cache_ok (dns_keys st) → ∃ keys, cache_ok keys ∧
  reencrypt dry written random (rep, st) item =
  match classify item with
  | Blank => (count_skipped rep 0, with_keys st keys)
  | Current => (count_skipped rep 1, with_keys st keys)
  | Unreadable => (count_failed rep (dp_ID item), with_keys st keys)
  | Candidate config =>
      if dry then (count_updated rep, with_keys st keys)
      else match dnsProviders_Update (written (dp_ID item)) (resealed item config) (with_keys st keys) with
           | None => (count_failed rep (dp_ID item), with_keys st keys)
           | Some st => (count_updated rep, st)
           end
  end.
Proof.
  intros Hc. unfold reencrypt_item, classify, blank. destruct (negb (non_empty _)).
  { exists (dns_keys st). by destruct st. }
  destruct (is_current_spec item (dns_keys st) Hc) as [Hcur Hc1]. destruct (is_current _ _ item (dns_keys st)) as [current c1].
  cbn [fst snd] in Hcur, Hc1. subst current. destruct (_ && _); [by exists c1|].
  unfold dataDecryptJSON. destruct (DecryptJSONAuto_keys secrets (dp_ConfigEncrypted item) c1 Hc1) as [Hd Hc2].
  destruct (DecryptJSONAuto _ secrets _ c1) as [config c2]. cbn [fst snd] in Hd, Hc2. rewrite <- Hd. destruct config as [config|e]; [|by exists c2].
  destruct dry; [by exists c2|]. pose proof (random_good (dp_ID item)) as Hr.
  destruct (dataEncryptJSON_keys config _ _ c2 Hr Hc2) as [He Hc3]. unfold resealed. destruct (random (dp_ID item)) as [salt nonce]. cbn [fst snd] in *.
  destruct (dataEncryptJSON _ _ config salt nonce c2) as [text c3]. cbn [fst snd] in *. exists c3. split; [done|]. by rewrite He.
Qed.

(** ** All rows *)

(** What becomes of a row, and of the report. *)
Definition after (dry : bool) (written : N → bool) (item : DNSProvider) : DNSProvider :=
  match classify item with
  | Candidate config => if dry || negb (written (dp_ID item)) then item else resealed item config
  | _ => item
  end.
Definition tally (dry : bool) (written : N → bool) (rep : reencrypt_report) (item : DNSProvider) : reencrypt_report :=
  match classify item with
  | Blank => count_skipped rep 0
  | Current => count_skipped rep 1
  | Unreadable => count_failed rep (dp_ID item)
  | Candidate _ => if dry || written (dp_ID item) then count_updated rep else count_failed rep (dp_ID item)
  end.

Lemma after_same dry written item : dp_ID (after dry written item) = dp_ID item ∧ dp_Name (after dry written item) = dp_Name item.
Proof. unfold after. destruct (classify item); try done. by destruct (_ || _). Qed.

(** The rows are those of the list that is walked, each its own. *)
Definition walked (rows items : list DNSProvider) : Prop :=
  NoDup (map dp_ID items) ∧ (∀ p item, p ∈ rows → item ∈ items → dp_Name p = dp_Name item → dp_ID p = dp_ID item) ∧
  ∀ p item, p ∈ rows → item ∈ items → dp_ID p = dp_ID item → p = item.

Lemma walked_tail rows item items f :
  walked rows (item :: items) → (∀ p, dp_ID (f p) = dp_ID p ∧ dp_Name (f p) = dp_Name p) → 
  walked (map (λ p, if N.eqb (dp_ID p) (dp_ID item) then f p else p) rows) items.
Proof.
  intros ([Hni Hnd]%NoDup_cons & Hname & Hid) Hf. split_and!; [done|..]; intros p x Hp Hx;
    apply list_elem_of_fmap in Hp as (q & -> & Hq); destruct (N.eqb_spec (dp_ID q) (dp_ID item)) as [He|He].
  - rewrite (proj1 (Hf q)), (proj2 (Hf q)). intros Hn. apply (Hname q x); [done|by right|done].
  - intros Hn. apply (Hname q x); [done|by right|done].
  - rewrite (proj1 (Hf q)), He. intros Hi. destruct Hni. apply list_elem_of_fmap. eauto.
  - intros Hi. apply (Hid q x); [done|by right|done].
Qed.

Lemma replace_row_map item f rows :
  (∀ p, p ∈ rows → dp_ID p = dp_ID item → p = item) → dp_ID (f item) = dp_ID item →
  replace_row (f item) rows = map (λ p, if N.eqb (dp_ID p) (dp_ID item) then f p else p) rows.
Proof.
  intros Heq Hf. unfold replace_row. rewrite Hf. apply map_ext_in. intros p Hp%list_elem_of_In.
  destruct (N.eqb_spec (dp_ID p) (dp_ID item)) as [He|]; [|done]. by rewrite (Heq p Hp He).
Qed.

(** One row, as a change of the report and of the table. *)
Lemma reencrypt_item_rows dry written rep st item :
  cache_ok (dns_keys st) → (∀ p, p ∈ dns_rows st → dp_Name p = dp_Name item → dp_ID p = dp_ID item) →
  (∀ p, p ∈ dns_rows st → dp_ID p = dp_ID item → p = item) → ∃ keys, cache_ok keys ∧
  reencrypt dry written random (rep, st) item =
  (tally dry written rep item,
   {| dns_rows := map (λ p, if N.eqb (dp_ID p) (dp_ID item) then after dry written p else p) (dns_rows st); dns_next := dns_next st; dns_keys := keys |}).
Proof.
  intros Hc Hname Hid. destruct (reencrypt_item_spec dry written rep st item Hc) as (keys & Hk & ->). exists keys. split; [done|].
  assert (∀ (Hsame : after dry written item = item), map (λ p, if N.eqb (dp_ID p) (dp_ID item) then after dry written p else p) (dns_rows st) = dns_rows st) as Hkeep.
  { intros Hsame. rewrite <- (map_id (dns_rows st)) at 2. apply map_ext_in. intros p Hp%list_elem_of_In.
    destruct (N.eqb_spec (dp_ID p) (dp_ID item)) as [He|]; [|done]. by rewrite (Hid p Hp He), Hsame. }
  unfold tally. destruct (classify item) as [| | |config] eqn:Hcl; [rewrite Hkeep by (unfold after; by rewrite Hcl); by destruct st..|].
  assert (after dry written item = if dry || negb (written (dp_ID item)) then item else resealed item config) as Ha by (unfold after; by rewrite Hcl).
  destruct dry; cbn [orb] in Ha |- *; [by rewrite Hkeep|]. unfold dnsProviders_Update.
  assert (name_taken (dns_rows (with_keys st keys)) (resealed item config) = false) as ->.
  { apply existsb_false_elem. intros p Hp. cbn. apply andb_false_iff. destruct (String.eqb_spec (dp_Name p) (dp_Name item)) as [He|]; [right|by left].
    apply negb_false_iff, N.eqb_eq. by apply Hname. }
  rewrite orb_false_r. destruct (written (dp_ID item)); cbn [negb] in Ha |- *; [|by rewrite Hkeep].
  unfold with_rows. cbn [dns_rows with_keys dns_next dns_keys]. rewrite <- Ha. rewrite (replace_row_map item (after false written)); [done|done|apply after_same].
Qed.

Lemma reencrypt_items dry written items : ∀ rep st,
  cache_ok (dns_keys st) → walked (dns_rows st) items → ∃ keys, cache_ok keys ∧
  foldl (reencrypt dry written random) (rep, st) items =
  (foldl (tally dry written) rep items,
   {| dns_rows := map (λ p, if bool_decide (dp_ID p ∈ map dp_ID items) then after dry written p else p) (dns_rows st); dns_next := dns_next st; dns_keys := keys |}).
Proof.
  induction items as [|item items IH]; intros rep st Hc Hw; cbn [foldl].
  { exists (dns_keys st). split; [done|]. f_equal. destruct st as [rows next keys]. cbn. f_equal. rewrite <- (map_id rows) at 1. apply map_ext.
    intros p. by rewrite bool_decide_eq_false_2 by apply not_elem_of_nil. }
  pose proof Hw as ([Hni _]%NoDup_cons & Hname & Hid).
  destruct (reencrypt_item_rows dry written rep st item Hc) as (keys & Hk & ->);
    [intros p Hp; apply Hname; [done|by left]|intros p Hp; apply Hid; [done|by left]|].
  destruct (IH (tally dry written rep item) {| dns_rows := map (λ p, if N.eqb (dp_ID p) (dp_ID item) then after dry written p else p) (dns_rows st);
                                              dns_next := dns_next st; dns_keys := keys |}) as (keys' & Hk' & ->); [done| |].
  { apply walked_tail; [done|]. apply after_same. }
  exists keys'. split; [done|]. do 2 f_equal. cbn [dns_rows]. rewrite map_map. apply map_ext. intros p.
  destruct (N.eqb_spec (dp_ID p) (dp_ID item)) as [He|He].
  - rewrite (proj1 (after_same dry written p)), He. rewrite bool_decide_eq_false_2 by done. rewrite bool_decide_eq_true_2; [done|]. cbn. by left.
  - destruct (bool_decide (dp_ID p ∈ map dp_ID items)) eqn:Hb.
    + apply bool_decide_eq_true in Hb. rewrite bool_decide_eq_true_2; [done|]. by right.
    + apply bool_decide_eq_false in Hb. rewrite bool_decide_eq_false_2; [done|]. cbn. rewrite elem_of_cons. naive_solver.
Qed.

Hypothesis order_perm : ∀ rows, order_by_name rows ≡ₚ rows.

Lemma listed_walked st : dns_wf st → walked (dns_rows st) (dnsProviders_List order_by_name st).
Proof.
  intros [Hids Hnames _]. unfold dnsProviders_List. split_and!.
  - by rewrite (order_perm (dns_rows st)).
  - intros p item Hp Hi He. rewrite (order_perm (dns_rows st)) in Hi.
    apply list_elem_of_lookup in Hp as [i Hp], Hi as [j Hi]. assert (i = j) as ->; [|congruence].
    apply (NoDup_lookup _ i j (dp_Name p) Hnames); rewrite list_lookup_fmap; [by rewrite Hp|by rewrite Hi, He].
  - intros p item Hp Hi He. rewrite (order_perm (dns_rows st)) in Hi.
    apply list_elem_of_lookup in Hp as [i Hp], Hi as [j Hi]. assert (i = j) as ->; [|congruence].
    apply (NoDup_lookup _ i j (dp_ID p) Hids); rewrite list_lookup_fmap; [by rewrite Hp|by rewrite Hi, He].
Qed.

Abbreviation reencrypt_all := (handleReencryptDataKey json_Marshal json_Unmarshal order_by_name cfg).

Definition no_report (dry : bool) : reencrypt_report :=
  {| re_DryRun := dry; re_processed := 0; re_updated := 0; re_skipped := 0; re_failures := 0; re_failedIDs := [] |}.
Definition shown (rep : reencrypt_report) : reencrypt_report :=
  {| re_DryRun := re_DryRun rep; re_processed := re_processed rep; re_updated := re_updated rep; re_skipped := re_skipped rep;
     re_failures := re_failures rep; re_failedIDs := take 20 (re_failedIDs rep) |}.

(** The handler, as what it makes of each row. *)
Lemma reencrypt_all_spec body query written st :
  dns_wf st → let dry := dry_run_of body query in
  ∃ keys, cache_ok keys ∧ reencrypt_all body query written random st =
  (shown (foldl (tally dry written) (no_report dry) (order_by_name (dns_rows st))),
   {| dns_rows := map (after dry written) (dns_rows st); dns_next := dns_next st; dns_keys := keys |}).
Proof.
  intros Hwf dry. unfold handleReencryptDataKey. fold dry.
  destruct (reencrypt_items dry written (dnsProviders_List order_by_name st) (no_report dry) st (wf_keys st Hwf) (listed_walked st Hwf)) as (keys & Hk & Heq).
  unfold no_report in Heq. rewrite Heq. exists keys. split; [done|]. do 2 f_equal. apply map_ext_in. intros p Hp%list_elem_of_In.
  rewrite bool_decide_eq_true_2; [done|]. apply list_elem_of_fmap. exists p. split; [done|]. unfold dnsProviders_List. by rewrite (order_perm (dns_rows st)).
Qed.

(** How a row opens before and after. *)
Lemma after_opens dry written item :
  opened secrets (dp_ConfigEncrypted (after dry written item)) = opened secrets (dp_ConfigEncrypted item).
Proof.
  unfold after. destruct (classify item) as [| | |config] eqn:Hc; try done. destruct (_ || _); [done|].
  destruct secrets_active as [legacy Hl]. rewrite (resealed_opens item config) by (try done; rewrite Hl; by left).
  unfold classify in Hc. destruct (blank item); [done|]. destruct (_ && _); [done|].
  destruct (opened secrets _) eqn:Ho; [by injection Hc as ->|done].
Qed.

Lemma after_active written item :
  written (dp_ID item) = true → classify item ≠ Unreadable →
  ∃ config, opened secrets (dp_ConfigEncrypted item) = Ok config ∧ opened [active] (dp_ConfigEncrypted (after false written item)) = Ok config.
Proof.
  intros Hw Hu. unfold after. destruct (classify item) as [| | |config] eqn:Hc; [..|done|].
  - exists ∅. unfold classify in Hc. destruct (blank item) eqn:Hb; [|destruct (_ && _); [done|by destruct (opened secrets _)]].
    unfold blank in Hb. unfold opened, DecryptJSONAuto. cbv zeta. by rewrite Hb.
  - unfold classify in Hc. destruct (blank item); [done|]. destruct (_ && _) eqn:Hcur; [|by destruct (opened secrets _)].
    apply andb_true_iff in Hcur as [Hv Ho]. destruct (opened [active] _) as [config|] eqn:Hop; [|done]. exists config. split; [|done].
    by apply opened_active.
  - exists config. rewrite Hw. cbn. split; [|apply resealed_opens; [done|by left]].
    unfold classify in Hc. destruct (blank item); [done|]. destruct (_ && _); [done|]. destruct (opened secrets _) eqn:Ho; [by injection Hc as ->|done].
Qed.

Definition fails (dry : bool) (written : N → bool) (item : DNSProvider) : bool :=
  match classify item with Unreadable => true | Candidate _ => negb (dry || written (dp_ID item)) | _ => false end.

Lemma tally_failures dry written items rep :
  re_failures (foldl (tally dry written) rep items) = (re_failures rep + length (List.filter (fails dry written) items))%nat.
Proof.
  revert rep. induction items as [|item items IH]; intros rep; cbn; [lia|]. rewrite IH. unfold tally at 1, fails at 2.
  destruct (classify item); cbn; try lia. destruct (dry || written (dp_ID item)); cbn; lia.
Qed.

(** C35 Re-encryption of the stored DNS provider configurations: whatever rows the database refuses, no configuration and no other column
    changes what it says; and when the report counts no failure, every DNS provider configuration opens under the active secret alone,
    to what it was, so that for them the legacy secrets are no longer needed.  The request is taken without other writes in between, and
    it touches DNS providers only: the secrets of the settings, webhooks and certificates stay under whatever secret sealed them. *)
Theorem reencryption_retires_legacy_secrets body query written st :
  dns_wf st → dry_run_of body query = false →
  let '(rep, st') := reencrypt_all body query written random st in
  Forall2 (λ p p', p' = with_config p (dp_ConfigEncrypted p') (dp_HasStoredSecret p) ∧
    opened secrets (dp_ConfigEncrypted p') = opened secrets (dp_ConfigEncrypted p)) (dns_rows st) (dns_rows st') ∧
  (re_failures rep = 0%nat → Forall2 (λ p p', ∃ config, opened secrets (dp_ConfigEncrypted p) = Ok config ∧
    opened [active] (dp_ConfigEncrypted p') = Ok config) (dns_rows st) (dns_rows st')).
Proof.
  intros Hwf Hdry. destruct (reencrypt_all_spec body query written st Hwf) as (keys & _ & ->). rewrite Hdry. cbn [dns_rows]. split.
  - apply Forall2_fmap_r, Forall_Forall2_diag, Forall_forall. intros p Hp. split.
    + unfold after. destruct (classify p); [by destruct p..|]. destruct (_ || _); [by destruct p|done].
    + apply after_opens.
  - cbn [shown re_failures]. rewrite tally_failures. cbn [no_report re_failures]. intros Hf.
    apply Forall2_fmap_r, Forall_Forall2_diag, Forall_forall. intros p Hp. rewrite <- (order_perm (dns_rows st)) in Hp.
    assert (fails false written p = false) as Hno.
    { destruct (fails false written p) eqn:Hm; [|done]. exfalso. apply list_elem_of_In in Hp.
      pose proof (proj2 (filter_In (fails false written) p _) (conj Hp Hm)) as Hin. destruct (List.filter _ _); [done|]. cbn in Hf. lia. }
    unfold fails in Hno.
    destruct (classify p) as [| | |config] eqn:Hc.
    1, 2: destruct (after_active (λ _, true) p eq_refl ltac:(by rewrite Hc)) as (config & ? & Ho); exists config; split; [done|];
      unfold after in *; by rewrite Hc in *.
    { done. }
    apply negb_false_iff in Hno. apply after_active; [done|by rewrite Hc].
Qed.

Lemma status_items items : ∀ candidates failures c,
  cache_ok c → ∃ keys, cache_ok keys ∧
  foldl (status_item json_Unmarshal cfg) (candidates, failures, c) items =
  (candidates + length (List.filter (λ i, match classify i with Candidate _ => true | _ => false end) items),
   failures + length (List.filter (λ i, match classify i with Unreadable => true | _ => false end) items), keys)%nat.
Proof.
  induction items as [|item items IH]; intros candidates failures c Hc; cbn [foldl].
  { exists c. cbn. split; [done|]. do 2 f_equal; lia. }
  assert (∃ keys, cache_ok keys ∧ status_item json_Unmarshal cfg (candidates, failures, c) item =
    match classify item with Candidate _ => (S candidates, failures, keys) | Unreadable => (candidates, S failures, keys) | _ => (candidates, failures, keys) end)
    as (keys & Hk & ->).
  { unfold status_item, classify, blank. destruct (negb (non_empty _)); [by exists c|].
    destruct (is_current_spec item c Hc) as [Hcur Hc1]. destruct (is_current _ _ item c) as [current c1]. cbn [fst snd] in Hcur, Hc1. subst current.
    destruct (_ && _); [by exists c1|]. unfold dataDecryptJSON. destruct (DecryptJSONAuto_keys secrets (dp_ConfigEncrypted item) c1 Hc1) as [Hd Hc2].
    destruct (DecryptJSONAuto _ secrets _ c1) as [config c2]. cbn [fst snd] in Hd, Hc2. rewrite <- Hd. exists c2. by destruct config. }
  cbn [List.filter]. destruct (classify item);
    match goal with |- context [foldl _ (?a, ?b, keys) items] => destruct (IH a b keys Hk) as (keys' & Hk' & ->) end;
    exists keys'; (split; [done|]); cbn; do 2 f_equal; lia.
Qed.

(** A dry run and a run that fails no write count alike. *)
Definition announces (a r : reencrypt_report) : Prop :=
  a = {| re_DryRun := true; re_processed := re_processed r; re_updated := re_updated r; re_skipped := re_skipped r; re_failures := re_failures r;
         re_failedIDs := re_failedIDs r |}.

Lemma tally_announced items : ∀ r1 r2, announces r1 r2 →
  let a := foldl (tally true (λ _, false)) r1 items in let r := foldl (tally false (λ _, true)) r2 items in
  announces a r ∧
  re_updated r = (re_updated r2 + length (List.filter (λ i, match classify i with Candidate _ => true | _ => false end) items))%nat ∧
  re_failures r = (re_failures r2 + length (List.filter (λ i, match classify i with Unreadable => true | _ => false end) items))%nat ∧
  (re_updated r2 + re_skipped r2 + re_failures r2 + length items = re_updated r + re_skipped r + re_failures r)%nat.
Proof.
  induction items as [|item items IH]; intros r1 r2 Heq; cbn [foldl List.filter length]; [split_and!; by try lia|].
  destruct (IH (tally true (λ _, false) r1 item) (tally false (λ _, true) r2 item)) as (Ha & Hu & Hf & Ht).
  { rewrite Heq. unfold tally, announces. by destruct (classify item). }
  split; [exact Ha|]. set (r := foldl (tally false _) _ items) in *. clearbody r. rewrite Hu, Hf in *. clear Ha Hu Hf. unfold tally in *.
  destruct (classify item); cbn in *; lia.
Qed.

(** What the dry run and the status page announce is what re-encryption does: the dry run changes no row, its report is the one a run
    gives when the database takes every write, and the status page counts as candidates and failures what the run updates and fails. *)
Theorem rotation_announced body query body' query' st :
  dns_wf st → dry_run_of body query = true → dry_run_of body' query' = false →
  let '(announced, st1) := reencrypt_all body query (λ _, false) random st in
  let '(rep, _) := reencrypt_all body' query' (λ _, true) random st in
  let '(status, st2) := handleRotationStatus json_Unmarshal order_by_name cfg st in
  dns_rows st1 = dns_rows st ∧ dns_rows st2 = dns_rows st ∧
  announced = {| re_DryRun := true; re_processed := re_processed rep; re_updated := re_updated rep; re_skipped := re_skipped rep;
                 re_failures := re_failures rep; re_failedIDs := re_failedIDs rep |} ∧
  ro_candidates status = re_updated rep ∧ ro_failures status = re_failures rep ∧ ro_total status = (re_updated rep + re_skipped rep + re_failures rep)%nat.
Proof.
  intros Hwf Hdry Hrun. destruct (reencrypt_all_spec body query (λ _, false) st Hwf) as (k1 & _ & ->). rewrite Hdry.
  destruct (reencrypt_all_spec body' query' (λ _, true) st Hwf) as (k2 & _ & ->). rewrite Hrun.
  unfold handleRotationStatus. destruct (status_items (dnsProviders_List order_by_name st) 0 0 (dns_keys st) (wf_keys st Hwf)) as (k3 & _ & ->).
  unfold dnsProviders_List. set (items := order_by_name (dns_rows st)). cbn [dns_rows with_keys ro_candidates ro_failures ro_total shown re_processed re_updated re_skipped re_failures re_failedIDs].
  destruct (tally_announced items (no_report true) (no_report false) eq_refl) as (-> & Hu & Hf & Ht). cbn [no_report re_updated re_skipped re_failures] in Hu, Hf, Ht.
  split_and!; [|done|done|lia|lia|lia]. rewrite <- (map_id (dns_rows st)) at 2. apply map_ext. intros p. unfold after. by destruct (classify p).
Qed.
End rotation.

(** * What is stored and what is shown *)

Lemma sanitize_keys `{PrimitivesLaws} json_Unmarshal cfg p c :
  cache_ok c → (sanitizeDNSProvider json_Unmarshal cfg p c).1 = (sanitizeDNSProvider json_Unmarshal cfg p no_keys).1.
Proof.
  intros Hc. unfold sanitizeDNSProvider. destruct (DecryptJSONAuto_keys json_Unmarshal (dataSecrets cfg) (dp_ConfigEncrypted p) c Hc) as [Hd _].
  unfold opened in Hd. destruct (DecryptJSONAuto _ _ _ c), (DecryptJSONAuto _ _ _ no_keys). cbn in *. by subst.
Qed.

Section shown.
Context `{PrimitivesLaws}.
Variable json_Marshal : gmap string string → string.
Variable json_Unmarshal : string → option (gmap string string).
Variable gorm_bool : bool → bool → bool.
Variable cfg : Config.
Hypothesis active_set : cf_DataEncryptionSecret cfg ≠ "" ∧ TrimSpace (cf_DataEncryptionSecret cfg) = cf_DataEncryptionSecret cfg.

(** A provider that is created is stored under a new identifier with the trimmed configuration, which opens; the reply shows the keys of the
    configuration and of their values only which ones are set. *)
Theorem created_provider salt nonce req st p st' :
  cache_ok (dns_keys st) → random_ok salt nonce →
  json_Unmarshal (json_Marshal (normalizeProviderConfig (cp_Config req))) = Some (normalizeProviderConfig (cp_Config req)) →
  handleCreateDNSProvider json_Marshal json_Unmarshal gorm_bool cfg salt nonce req st = (Answer p, st') →
  ∃ row, dns_rows st' = dns_rows st ++ [row] ∧ dp_ID row = dns_next st ∧
    opened json_Unmarshal (dataSecrets cfg) (dp_ConfigEncrypted row) = Ok (normalizeProviderConfig (cp_Config req)) ∧
    dp_ConfigEncrypted p = "" ∧ dp_MaskedConfig p = Some (MaskConfig (normalizeProviderConfig (cp_Config req))).
Proof.
  intros Hc Hr Hj. unfold handleCreateDNSProvider. cbv zeta. set (config := normalizeProviderConfig (cp_Config req)) in *.
  destruct (validateProviderConfig _ config); [|done]. destruct (dataEncryptJSON_keys json_Marshal cfg config salt nonce (dns_keys st) Hr Hc) as [He Hok].
  destruct (dataEncryptJSON _ _ config salt nonce (dns_keys st)) as [encrypted keys]. cbn [fst snd] in He, Hok.
  unfold dnsProviders_Create. destruct (name_taken _ _); [done|]. unfold reply_with.
  match goal with |- context [sanitizeDNSProvider _ _ ?i _] => set (row := i) end.
  assert (opened json_Unmarshal (dataSecrets cfg) (dp_ConfigEncrypted row) = Ok config) as Ho.
  { unfold row. cbn [dp_ConfigEncrypted]. rewrite He. apply encrypted_opens; [done|done| |done].
    destruct (secrets_active cfg active_set) as [l ->]. by left. }
  unfold sanitizeDNSProvider. cbn [dns_keys with_keys].
  destruct (DecryptJSONAuto_keys json_Unmarshal (dataSecrets cfg) (dp_ConfigEncrypted row) keys Hok) as [Hd _]. rewrite Ho in Hd.
  destruct (DecryptJSONAuto _ _ _ keys) as [r keys']. cbn [fst] in Hd. subst r. intros [= <- <-]. exists row. done.
Qed.

(** Two tables that differ in the secret values of one provider look alike to the administrator who lists them. *)
Theorem listed_providers_hide_values before after p text1 text2 m1 m2 next keys :
  cache_ok keys →
  opened json_Unmarshal (dataSecrets cfg) text1 = Ok m1 → opened json_Unmarshal (dataSecrets cfg) text2 = Ok m2 →
  MaskConfig m1 = MaskConfig m2 →
  let table text := {| dns_rows := before ++ with_config p text (dp_HasStoredSecret p) :: after; dns_next := next; dns_keys := keys |} in
  (handleListDNSProviders json_Unmarshal (λ l, l) cfg (table text1)).1 = (handleListDNSProviders json_Unmarshal (λ l, l) cfg (table text2)).1.
Proof.
  intros Hk H1 H2 Hm. cbv zeta. unfold handleListDNSProviders, dnsProviders_List. cbn [dns_rows dns_keys].
  assert (∀ items c, cache_ok c → (sanitizeDNSProviders json_Unmarshal cfg items c).1 = map (λ i, (sanitizeDNSProvider json_Unmarshal cfg i no_keys).1) items) as Hs.
  { induction items as [|i items IH]; intros c Hc; cbn [sanitizeDNSProviders map]; [done|]. pose proof (sanitize_keys json_Unmarshal cfg i c Hc) as <-.
    assert (cache_ok (sanitizeDNSProvider json_Unmarshal cfg i c).2) as Hc'.
    { unfold sanitizeDNSProvider. pose proof (proj2 (DecryptJSONAuto_keys json_Unmarshal (dataSecrets cfg) (dp_ConfigEncrypted i) c Hc)). by destruct (DecryptJSONAuto _ _ _ c). }
    destruct (sanitizeDNSProvider _ _ i c) as [i' c']. cbn [snd] in Hc'. rewrite <- (IH c' Hc'). by destruct (sanitizeDNSProviders _ _ items c'). }
  pose proof (Hs (before ++ with_config p text1 (dp_HasStoredSecret p) :: after) keys Hk) as Ha.
  pose proof (Hs (before ++ with_config p text2 (dp_HasStoredSecret p) :: after) keys Hk) as Hb.
  destruct (sanitizeDNSProviders _ _ (_ ++ with_config p text1 _ :: _) keys), (sanitizeDNSProviders _ _ (_ ++ with_config p text2 _ :: _) keys).
  cbn [fst] in *. f_equal. rewrite Ha, Hb, !map_app. cbn [map]. do 2 f_equal. unfold sanitizeDNSProvider. cbn [dp_ConfigEncrypted with_config].
  unfold opened in H1, H2. destruct (DecryptJSONAuto _ _ text1 no_keys) as [r1 c1], (DecryptJSONAuto _ _ text2 no_keys) as [r2 c2]. cbn in *. subst. by rewrite Hm.
Qed.
End shown.

(** * Alerts *)

(** A failed one-time code or a failed single sign-on is counted twice among the failed logins, so the alert fires at half its threshold. *)
Theorem otp_failures_counted_twice fold cfg now (row : AuditLog) (n : nat) :
  Action row = "otp_login_failed" ∨ Action row = "sso_login_failed" → (now - cf_AlertWindow cfg ≤ Timestamp row)%Z →
  (handleSecurityAlerts fold cfg now (replicate n row)).2.1.1 = (2 * Z.of_nat n)%Z ∧
  ((cf_AlertLoginFailSpikeThreshold cfg ≤ 2 * Z.of_nat n)%Z → (handleSecurityAlerts fold cfg now (replicate n row)).1 ≠ []).
Proof.
  intros Ha Ht. assert (∀ pattern, CountByActionLikeSince fold (replicate n row) pattern (now - cf_AlertWindow cfg) =
    if like fold pattern (Action row) then Z.of_nat n else 0%Z) as Hcount.
  { intros pattern. unfold CountByActionLikeSince.
    assert (length (List.filter (λ r, like fold pattern (Action r) && (now - cf_AlertWindow cfg <=? Timestamp r)%Z) (replicate n row)) =
      if like fold pattern (Action row) then n else 0%nat) as ->; [|by destruct (like _ _ _)].
    induction n as [|m IH]; cbn [replicate List.filter]; [by destruct (like _ _ _)|]. rewrite (proj2 (Z.leb_le _ _) Ht), andb_true_r.
    destruct (like fold pattern (Action row)); cbn; by rewrite IH. }
  unfold handleSecurityAlerts. cbv zeta. rewrite !Hcount.
  assert (like fold "%login_failed%" (Action row) = true ∧
    xorb (like fold "%otp_login_failed%" (Action row)) (like fold "%sso_login_failed%" (Action row)) = true) as [-> Hx]
    by (destruct Ha as [-> | ->], fold; vm_compute; done).
  assert ((Z.of_nat n + (if like fold "%otp_login_failed%" (Action row) then Z.of_nat n else 0) +
    (if like fold "%sso_login_failed%" (Action row) then Z.of_nat n else 0))%Z = (2 * Z.of_nat n)%Z) as ->
    by (destruct (like _ "%otp_login_failed%" _), (like _ "%sso_login_failed%" _); try done; lia).
  split; [done|]. intros Hle. cbn [fst]. rewrite (proj2 (Z.leb_le _ _) Hle). done.
Qed.

(** * A rotation: one row under the old secret, one under the new, one blank *)

Definition sample_marshal (m : gmap string string) : string := default "" (m !! "api_token").
Definition sample_unmarshal (text : string) : option (gmap string string) := if String.eqb text "" then Some ∅ else Some {["api_token" := text]}.
Definition sample_rotation_env (key : string) : option string := if String.eqb key "DATA_ENCRYPTION_LEGACY_SECRETS" then Some "old" else sample_env key.
Definition sample_rotation_cfg : Config := Load_config sample_rotation_env (λ _, None) (λ _, "").
Definition sample_random (id : N) : string * string := ("0123456789abcdef", "nonce-nonce-").
Definition sample_provider (id : N) (name text : string) : DNSProvider :=
  {| dp_ID := id; dp_Name := name; dp_Type := "cloudflare"; dp_ConfigEncrypted := text; dp_ConfigHint := ""; dp_IsActive := true; dp_LastTestedAt := None;
     dp_LastTestStatus := ""; dp_LastTestError := ""; dp_HasStoredSecret := true; dp_MaskedConfig := None; dp_SupportedChallenges := [] |}.
Definition sample_dns : dns_state :=
  {| dns_rows := [sample_provider 1 "a" (EncryptStringV2 "old" "tok-1" "0123456789abcdef" "nonce-nonce-" no_keys).1;
                  sample_provider 2 "b" (EncryptStringV2 (cf_DataEncryptionSecret sample_rotation_cfg) "tok-2" "0123456789abcdef" "nonce-nonce-" no_keys).1;
                  sample_provider 3 "c" ""];
     dns_next := 4; dns_keys := no_keys |}.

Lemma sample_json text m : sample_unmarshal text = Some m → sample_unmarshal (sample_marshal m) = Some m.
Proof.
  unfold sample_unmarshal. destruct (String.eqb_spec text "") as [->|Hne]; intros [= <-]; [done|]. unfold sample_marshal. rewrite lookup_singleton_eq. cbn.
  by destruct (String.eqb_spec text "").
Qed.

Lemma sample_active : cf_DataEncryptionSecret sample_rotation_cfg ≠ "" ∧ TrimSpace (cf_DataEncryptionSecret sample_rotation_cfg) = cf_DataEncryptionSecret sample_rotation_cfg.
Proof. split; vm_compute; done. Qed.

Lemma sample_dns_wf : dns_wf sample_dns.
Proof. split; [by apply (bool_decide_unpack _); vm_compute|by apply (bool_decide_unpack _); vm_compute|apply cache_empty_ok]. Qed.

Lemma reencryption_retires_legacy_secrets_witness :
  let st' := (handleReencryptDataKey sample_marshal sample_unmarshal (λ l, l) sample_rotation_cfg false "" (λ _, true) sample_random sample_dns).2 in
  (∃ p, head (dns_rows st') = Some p ∧ opened sample_unmarshal [cf_DataEncryptionSecret sample_rotation_cfg] (dp_ConfigEncrypted p) = Ok {["api_token" := "tok-1"]}) ∧
  is_ok (opened sample_unmarshal [cf_DataEncryptionSecret sample_rotation_cfg] (dp_ConfigEncrypted (sample_provider 1 "a"
    (EncryptStringV2 "old" "tok-1" "0123456789abcdef" "nonce-nonce-" no_keys).1))) = false.
Proof.
  pose proof (reencryption_retires_legacy_secrets sample_marshal sample_unmarshal (λ l, l) sample_rotation_cfg sample_active sample_json sample_random
    (λ _, conj eq_refl eq_refl) (λ l, Permutation_refl l) false "" (λ _, true) sample_dns sample_dns_wf eq_refl) as Hr.
  destruct (handleReencryptDataKey _ _ _ _ _ _ _ _ _) as [rep st'] eqn:Hrun. destruct Hr as [_ Hall].
  assert (re_failures rep = 0%nat) as Hf by (change rep with (rep, st').1; rewrite <- Hrun; vm_compute; reflexivity).
  specialize (Hall Hf). cbn [snd]. split; [|vm_compute; reflexivity]. inversion Hall as [|p p' l l' (config & Ho & Ha) _ Hp Hrows]; subst.
  exists p'. split; [done|]. rewrite Ha, <- Ho. vm_compute. reflexivity.
Defined.

Lemma rotation_announced_witness :
  (handleRotationStatus sample_unmarshal (λ l, l) sample_rotation_cfg sample_dns).1 =
  {| ro_legacyKeys := 1; ro_total := 3; ro_candidates := 1; ro_failures := 0; ro_activeSafe := true |}.
Proof.
  pose proof (rotation_announced sample_marshal sample_unmarshal (λ l, l) sample_rotation_cfg sample_active sample_random
    (λ _, conj eq_refl eq_refl) (λ l, Permutation_refl l) false "True" true "0" sample_dns sample_dns_wf eq_refl eq_refl) as Hr.
  destruct (handleReencryptDataKey _ _ _ _ false _ _ _ _) as [a st1], (handleReencryptDataKey _ _ _ _ true _ _ _ _) as [rep st2] eqn:Hrun.
  destruct (handleRotationStatus _ _ _ _) as [status st3] eqn:Hstatus. destruct Hr as (_ & _ & _ & Hc & Hf & Ht).
  assert (re_updated rep = 1%nat ∧ re_failures rep = 0%nat ∧ re_skipped rep = 2%nat) as (Hu & Hz & Hs).
  { change rep with (rep, st2).1. rewrite <- Hrun. vm_compute. split_and!; reflexivity. }
  assert (ro_legacyKeys status = 1%nat ∧ ro_activeSafe status = true) as [Hl Hsafe].
  { change status with (status, st3).1. rewrite <- Hstatus. vm_compute. split_and!; reflexivity. }
  destruct status. cbn in *. by subst; rewrite Hu, Hz, Hs.
Defined.

Lemma otp_failures_counted_twice_witness :
  let row := {| ID := 1; Timestamp := 0; RequestID := ""; UserID := None; Action := "otp_login_failed"; ResourceType := "auth"; ResourceID := None; Method := "";
    Host := ""; Path := ""; StatusCode := 0; LatencyMs := 0; RemoteAddr := ""; UserAgent := ""; Details := ""; PrevHash := ""; Hash := "" |} in
  (handleSecurityAlerts false sample_rotation_cfg 0 (replicate 5 row)).2.1.1 = 10%Z.
Proof.
  intros row. apply (otp_failures_counted_twice false sample_rotation_cfg 0 row 5); [by left|]. vm_compute. discriminate.
Defined.
