(* ===== verification/Certificates.v ===== *)
(** The certificates an administrator orders and the worker that obtains and renews them (internal/http/certificates_dns.go,
    domains_certificates.go, certificate_ops.go, auto_cert.go; internal/acme/manager.go, retry.go, worker.go; internal/store/certificate_store.go).

    A certificate row says which names are wanted; the tables of CertStore.v and CertStorage.v hold what was obtained. [SyncCertificate]
    brings the first to the second through certmagic, whose [ManageSync], storage keys and issuer keys are parameters, and decides
    when it is tried again. Handlers and syncs run from start to end; the key cache of CertStore.v is the one of the process. Rows are kept in the
    order of their identifiers. Whether the database takes a write is an input; what a reply shows of a DNS provider is in DnsProviders.v. *)
From S2P Require Import Prelude GoStrings Domain Hosts SecretBox ApiGuard UserAdmin Config Catalog CertStore CertStorage DnsProviders.

#[local] Open Scope string_scope.
#[local] Open Scope list_scope.
#[local] Open Scope go_scope.

(** * Data *)

Record CertificateRow := {
  ce_ID : N; ce_DomainID : N; ce_Domain : string; ce_PrimaryDomain : string; ce_Type : string; ce_Status : string; ce_LastError : string;
  ce_ChallengeType : string; ce_Issuer : string; ce_IssuedAt : option Z; ce_ExpiresAt : Z; ce_LastCheckedAt : option Z;
  ce_NextRenewalAt : option Z; ce_RenewalWindowDays : Z; ce_IsAutoRenew : bool; ce_FailureCount : Z; ce_NextAttemptAt : option Z;
  ce_DNSProviderID : option N; ce_SANs : list string;
}.

Definition CertificateTypeSingle := "single".
Definition CertificateTypeWildcard := "wildcard".
Definition CertificateTypeMultiSAN := "multi_san".
Definition CertificateStatusPending := "pending".
Definition CertificateStatusIssued := "issued".
Definition CertificateStatusFailed := "failed".
Definition CertificateStatusExpiringSoon := "expiring_soon".
Definition CertificateChallengeHTTP01 := "http-01".
Definition CertificateIssuerLetsEncryptProd := "letsencrypt_prod".
Definition CertificateIssuerLetsEncryptStaging := "letsencrypt_staging".

(** [time.Time{}]. *)
Definition no_time : Z := -62135596800 * Second.

Record createCertificateRequest := {
  cc_DomainID : N; cc_Type : string; cc_ChallengeType : string; cc_Issuer : string; cc_SANs : list string; cc_ExpiresAt : option Z;
  cc_IsAutoRenew : bool; cc_RenewalWindowDays : Z; cc_DNSProviderID : option N; cc_PrimaryDomain : string; cc_DNSProviderConfig : nat;
}.
Record updateCertificateRequest := {
  uc_DomainID : option N; uc_Type : option string; uc_ChallengeType : option string; uc_Issuer : option string; uc_SANs : option (list string);
  uc_ExpiresAt : option Z; uc_IsAutoRenew : option bool; uc_RenewalWindowDays : option Z; uc_DNSProviderID : option N;
  uc_PrimaryDomain : option string; uc_DNSProviderConfig : nat;
}.

(** The columns of a row that a step changes. *)
Definition with_names (c : CertificateRow) (primary : string) (sans : list string) (ty : string) : CertificateRow :=
  {| ce_ID := ce_ID c; ce_DomainID := ce_DomainID c; ce_Domain := ce_Domain c; ce_PrimaryDomain := primary; ce_Type := ty; ce_Status := ce_Status c;
     ce_LastError := ce_LastError c; ce_ChallengeType := ce_ChallengeType c; ce_Issuer := ce_Issuer c; ce_IssuedAt := ce_IssuedAt c;
     ce_ExpiresAt := ce_ExpiresAt c; ce_LastCheckedAt := ce_LastCheckedAt c; ce_NextRenewalAt := ce_NextRenewalAt c;
     ce_RenewalWindowDays := ce_RenewalWindowDays c; ce_IsAutoRenew := ce_IsAutoRenew c; ce_FailureCount := ce_FailureCount c;
     ce_NextAttemptAt := ce_NextAttemptAt c; ce_DNSProviderID := ce_DNSProviderID c; ce_SANs := sans |}.
Definition with_domain (c : CertificateRow) (name : string) : CertificateRow :=
  {| ce_ID := ce_ID c; ce_DomainID := ce_DomainID c; ce_Domain := name; ce_PrimaryDomain := ce_PrimaryDomain c; ce_Type := ce_Type c; ce_Status := ce_Status c;
     ce_LastError := ce_LastError c; ce_ChallengeType := ce_ChallengeType c; ce_Issuer := ce_Issuer c; ce_IssuedAt := ce_IssuedAt c;
     ce_ExpiresAt := ce_ExpiresAt c; ce_LastCheckedAt := ce_LastCheckedAt c; ce_NextRenewalAt := ce_NextRenewalAt c;
     ce_RenewalWindowDays := ce_RenewalWindowDays c; ce_IsAutoRenew := ce_IsAutoRenew c; ce_FailureCount := ce_FailureCount c;
     ce_NextAttemptAt := ce_NextAttemptAt c; ce_DNSProviderID := ce_DNSProviderID c; ce_SANs := ce_SANs c |}.
Definition with_status (c : CertificateRow) (status err : string) (checked : option Z) : CertificateRow :=
  {| ce_ID := ce_ID c; ce_DomainID := ce_DomainID c; ce_Domain := ce_Domain c; ce_PrimaryDomain := ce_PrimaryDomain c; ce_Type := ce_Type c; ce_Status := status;
     ce_LastError := err; ce_ChallengeType := ce_ChallengeType c; ce_Issuer := ce_Issuer c; ce_IssuedAt := ce_IssuedAt c;
     ce_ExpiresAt := ce_ExpiresAt c; ce_LastCheckedAt := checked; ce_NextRenewalAt := ce_NextRenewalAt c;
     ce_RenewalWindowDays := ce_RenewalWindowDays c; ce_IsAutoRenew := ce_IsAutoRenew c; ce_FailureCount := ce_FailureCount c;
     ce_NextAttemptAt := ce_NextAttemptAt c; ce_DNSProviderID := ce_DNSProviderID c; ce_SANs := ce_SANs c |}.
Definition with_validity (c : CertificateRow) (issued : option Z) (expires : Z) (renewal : option Z) (days : Z) : CertificateRow :=
  {| ce_ID := ce_ID c; ce_DomainID := ce_DomainID c; ce_Domain := ce_Domain c; ce_PrimaryDomain := ce_PrimaryDomain c; ce_Type := ce_Type c; ce_Status := ce_Status c;
     ce_LastError := ce_LastError c; ce_ChallengeType := ce_ChallengeType c; ce_Issuer := ce_Issuer c; ce_IssuedAt := issued;
     ce_ExpiresAt := expires; ce_LastCheckedAt := ce_LastCheckedAt c; ce_NextRenewalAt := renewal;
     ce_RenewalWindowDays := days; ce_IsAutoRenew := ce_IsAutoRenew c; ce_FailureCount := ce_FailureCount c;
     ce_NextAttemptAt := ce_NextAttemptAt c; ce_DNSProviderID := ce_DNSProviderID c; ce_SANs := ce_SANs c |}.
Definition with_retry (c : CertificateRow) (failures : Z) (next : option Z) : CertificateRow :=
  {| ce_ID := ce_ID c; ce_DomainID := ce_DomainID c; ce_Domain := ce_Domain c; ce_PrimaryDomain := ce_PrimaryDomain c; ce_Type := ce_Type c; ce_Status := ce_Status c;
     ce_LastError := ce_LastError c; ce_ChallengeType := ce_ChallengeType c; ce_Issuer := ce_Issuer c; ce_IssuedAt := ce_IssuedAt c;
     ce_ExpiresAt := ce_ExpiresAt c; ce_LastCheckedAt := ce_LastCheckedAt c; ce_NextRenewalAt := ce_NextRenewalAt c;
     ce_RenewalWindowDays := ce_RenewalWindowDays c; ce_IsAutoRenew := ce_IsAutoRenew c; ce_FailureCount := failures;
     ce_NextAttemptAt := next; ce_DNSProviderID := ce_DNSProviderID c; ce_SANs := ce_SANs c |}.

(** * Names *)

Definition valid_label (label : string) : bool :=
  non_empty label && (String.length label <=? 63)%nat && negb (HasPrefix label "-") && negb (HasSuffix label "-") &&
  string_all (λ ch, (Ascii.leb "a" ch && Ascii.leb ch "z") || is_digit ch || Ascii.eqb ch "-") label.
Definition isValidCertificateDNSName (value : string) : bool :=
  let value := TrimPrefix value "*." in
  non_empty value && (String.length value <=? 253)%nat && negb (Contains value "..") &&
  (2 <=? length (Split value "."))%nat && forallb valid_label (Split value ".").

Definition hasWildcardName (primary : string) (sans : list string) : bool := HasPrefix primary "*." || existsb (λ s, HasPrefix s "*.") sans.

Inductive cert_error := ErrMissing | ErrInvalid (message : string).

Fixpoint normalize_names (seen : list string) (candidates : list string) : result cert_error (list string) :=
  match candidates with
  | [] => match seen with [] => Err (ErrInvalid "at least one valid certificate domain is required") | _ => Ok seen end
  | candidate :: rest =>
      let name := normalizeHostname candidate in
      if negb (non_empty name) then normalize_names seen rest
      else if negb (isValidCertificateDNSName name) then Err (ErrInvalid ("invalid certificate domain " +:+ quoted candidate))
      else if existsb (String.eqb name) seen then Err (ErrInvalid ("duplicate certificate domain " +:+ quoted candidate))
      else normalize_names (seen ++ [name]) rest
  end.
Definition normalizeCertificateNames (primary : string) (sans : list string) : result cert_error (list string) :=
  normalize_names [] (primary :: sans).

(** The certificate names as HostCoveredByCertificates of Hosts.v takes them. *)
Definition names_of (c : CertificateRow) : Certificate := {| c_PrimaryDomain := ce_PrimaryDomain c; c_SANs := ce_SANs c |}.

Definition certificateNames (c : CertificateRow) : list string :=
  (if non_empty (TrimSpace (ce_PrimaryDomain c)) then [ce_PrimaryDomain c]
   else if non_empty (TrimSpace (ce_Domain c)) then [ce_Domain c] else []) ++
  List.filter non_empty (map TrimSpace (ce_SANs c)).
Definition firstCertificateName (c : CertificateRow) : string := default "" (head (certificateNames c)).
(** The same names, trimmed. *)
Definition certificateDomainNames (c : CertificateRow) : list string :=
  (if non_empty (TrimSpace (ce_PrimaryDomain c)) then [TrimSpace (ce_PrimaryDomain c)]
   else if non_empty (TrimSpace (ce_Domain c)) then [TrimSpace (ce_Domain c)] else []) ++
  List.filter non_empty (map TrimSpace (ce_SANs c)).

(** * When to try again *)

Definition retryBaseDelay : Z := 5 * Minute.
Definition retryMaxDelay : Z := 24 * Hour.
Definition renewedRecheckWait : Z := Hour.

(** [n] turns of the loop are left. *)
Fixpoint retry_loop (n : nat) (delay : Z) : Z :=
  match n with
  | O => delay
  | S n => let delay := (delay * 2)%Z in if (retryMaxDelay <=? delay)%Z then retryMaxDelay else retry_loop n delay
  end.
Definition retryDelay (failures : Z) : Z := retry_loop (Z.to_nat (failures - 1)) retryBaseDelay.

Definition nextRetryState (item : CertificateRow) (now renewWithin : Z) : Z * option Z :=
  if String.eqb (ce_Status item) CertificateStatusFailed then
    let failures := (ce_FailureCount item + 1)%Z in (failures, Some (now + retryDelay failures)%Z)
  else if negb (ce_ExpiresAt item =? no_time)%Z && (ce_ExpiresAt item <? now + renewWithin)%Z then (0%Z, Some (now + renewedRecheckWait)%Z)
  else (0%Z, None).

Definition renewalTime (expiresAt renewalWindowDays : Z) : option Z :=
  if (expiresAt =? no_time)%Z || (renewalWindowDays <=? 0)%Z then None else Some (expiresAt - renewalWindowDays * 24 * Hour)%Z.

Definition derivedCertificateStatus (item : CertificateRow) (now : Z) : string :=
  if non_empty (TrimSpace (ce_LastError item)) then CertificateStatusFailed
  else if negb (ce_ExpiresAt item =? no_time)%Z && (ce_ExpiresAt item - ce_RenewalWindowDays item * 24 * Hour <=? now)%Z
  then CertificateStatusExpiringSoon
  else CertificateStatusIssued.

(** * State *)

Record cert_admin := {
  ca_certs : list CertificateRow; ca_next : N; ca_domains : list DomainRow; ca_dns : list DNSProvider;
  ca_tls : cert_state; ca_kv : list DistributedKV; ca_lastError : string;
}.
Definition set_certs (st : cert_admin) (l : list CertificateRow) : cert_admin :=
  {| ca_certs := l; ca_next := ca_next st; ca_domains := ca_domains st; ca_dns := ca_dns st; ca_tls := ca_tls st; ca_kv := ca_kv st; ca_lastError := ca_lastError st |}.
Definition set_tls (st : cert_admin) (tls : cert_state) : cert_admin :=
  {| ca_certs := ca_certs st; ca_next := ca_next st; ca_domains := ca_domains st; ca_dns := ca_dns st; ca_tls := tls; ca_kv := ca_kv st; ca_lastError := ca_lastError st |}.
Definition set_kv (st : cert_admin) (kv : list DistributedKV) : cert_admin :=
  {| ca_certs := ca_certs st; ca_next := ca_next st; ca_domains := ca_domains st; ca_dns := ca_dns st; ca_tls := ca_tls st; ca_kv := kv; ca_lastError := ca_lastError st |}.
Definition recordSync (st : cert_admin) (errMessage : string) : cert_admin :=
  {| ca_certs := ca_certs st; ca_next := ca_next st; ca_domains := ca_domains st; ca_dns := ca_dns st; ca_tls := ca_tls st; ca_kv := ca_kv st;
     ca_lastError := TrimSpace errMessage |}.
Definition with_argon (tls : cert_state) (keys : key_cache) : cert_state := with_table tls (tls_rows tls) (next_row tls) keys.

Definition cert_domain (st : cert_admin) (id : N) : option DomainRow := List.find (λ d, N.eqb (d_ID d) id) (ca_domains st).
Definition cert_provider (st : cert_admin) (id : N) : option DNSProvider := List.find (λ p, N.eqb (dp_ID p) id) (ca_dns st).

(** The row with its domain. *)
Definition joined_cert (st : cert_admin) (c : CertificateRow) : CertificateRow :=
  with_domain c (match cert_domain st (ce_DomainID c) with Some d => d_Name d | None => "" end).
Definition certificates_GetByID (st : cert_admin) (id : N) : option CertificateRow :=
  joined_cert st <$> List.find (λ c, N.eqb (ce_ID c) id) (ca_certs st).
Definition certificates_List (st : cert_admin) : list CertificateRow := map (joined_cert st) (ca_certs st).
Definition certificates_Update (item : CertificateRow) (st : cert_admin) : cert_admin :=
  set_certs st (map (λ c, if N.eqb (ce_ID c) (ce_ID item) then item else c) (ca_certs st)).
Definition certificates_Delete (id : N) (st : cert_admin) : option cert_admin :=
  if existsb (λ c, N.eqb (ce_ID c) id) (ca_certs st) then Some (set_certs st (List.filter (λ c, negb (N.eqb (ce_ID c) id)) (ca_certs st))) else None.
Definition UpdateRetryState (id : N) (failures : Z) (next : option Z) (st : cert_admin) : cert_admin :=
  set_certs st (map (λ c, if N.eqb (ce_ID c) id then with_retry c failures next else c) (ca_certs st)).

Definition due (dueBy : Z) (c : CertificateRow) : bool := match ce_NextAttemptAt c with None => true | Some t => (t <=? dueBy)%Z end.
Definition ListPending (dueBy : Z) (limit : Z) (st : cert_admin) : list CertificateRow :=
  take (Z.to_nat (if (limit <=? 0)%Z then 10 else limit))
    (List.filter (λ c, String.eqb (ce_Status c) CertificateStatusPending && due dueBy c) (certificates_List st)).

(** * Orders *)

Definition need_cert (ok : bool) (message : string) : result cert_error unit := if ok then Ok tt else Err (ErrInvalid message).

(** The wildcard a certificate of that type is for, with the name itself first among the others. *)
Definition wildcard_names (primary : string) (sans : list string) : string * list string :=
  ("*." +:+ primary,
   primary :: List.filter (λ san, let name := normalizeHostname san in negb (String.eqb name primary) && negb (String.eqb name ("*." +:+ primary))) sans).

Definition challenge_provider (item : CertificateRow) (st : cert_admin) : result cert_error (option N) :=
  if String.eqb (ce_ChallengeType item) CertificateChallengeDNS01 then
    match ce_DNSProviderID item with
    | None | Some 0%N => Err (ErrInvalid "dns-01 challenge requires an active DNS provider")
    | Some id =>
        match cert_provider st id with
        | None => Err ErrMissing
        | Some provider => if dp_IsActive provider then Ok (Some id) else Err (ErrInvalid "selected DNS provider is not active")
        end
    end
  else Ok None.

Definition validateAndHydrateCertificate (item : CertificateRow) (st : cert_admin) : result cert_error CertificateRow :=
  match cert_domain st (ce_DomainID item) with
  | None => Err ErrMissing
  | Some baseDomain =>
      let primary := normalizeHostname (if String.eqb (ce_PrimaryDomain item) "" then d_Name baseDomain else ce_PrimaryDomain item) in
      let '(primary, sans) := if String.eqb (ce_Type item) CertificateTypeWildcard && negb (HasPrefix primary "*.")
                              then wildcard_names primary (ce_SANs item) else (primary, ce_SANs item) in
      try names <- normalizeCertificateNames primary sans ;
      let primary := default "" (head names) in
      let sans := tail names in
      let ty := if String.eqb (ce_Type item) "" then (if (0 <? length sans)%nat then CertificateTypeMultiSAN else CertificateTypeSingle) else ce_Type item in
      let wildcard := String.eqb ty CertificateTypeWildcard in
      try _ <- need_cert (wildcard || negb (HasPrefix primary "*.")) "wildcard primary domains require certificate type wildcard" ;
      try _ <- need_cert (negb wildcard || String.eqb (ce_ChallengeType item) CertificateChallengeDNS01) "wildcard certificates require dns-01 challenge" ;
      try _ <- need_cert (negb (String.eqb (ce_ChallengeType item) CertificateChallengeHTTP01 && hasWildcardName primary sans))
                 "http-01 challenge does not support wildcard names" ;
      try provider <- challenge_provider item st ;
      Ok {| ce_ID := ce_ID item; ce_DomainID := ce_DomainID item; ce_Domain := d_Name baseDomain; ce_PrimaryDomain := primary; ce_Type := ty;
            ce_Status := if String.eqb (ce_Status item) "" then CertificateStatusPending else ce_Status item; ce_LastError := ce_LastError item;
            ce_ChallengeType := ce_ChallengeType item; ce_Issuer := if String.eqb (ce_Issuer item) "" then CertificateIssuerLetsEncryptProd else ce_Issuer item;
            ce_IssuedAt := ce_IssuedAt item; ce_ExpiresAt := ce_ExpiresAt item; ce_LastCheckedAt := ce_LastCheckedAt item;
            ce_NextRenewalAt := ce_NextRenewalAt item; ce_RenewalWindowDays := if (ce_RenewalWindowDays item =? 0)%Z then 30%Z else ce_RenewalWindowDays item;
            ce_IsAutoRenew := ce_IsAutoRenew item; ce_FailureCount := ce_FailureCount item; ce_NextAttemptAt := ce_NextAttemptAt item;
            ce_DNSProviderID := provider; ce_SANs := sans |}
  end.

Definition certificateAuthorityURL (issuer override : string) : string :=
  if String.eqb issuer CertificateIssuerLetsEncryptStaging then "https://acme-staging-v02.api.letsencrypt.org/directory"
  else if non_empty (TrimSpace override) then TrimSpace override
  else "https://acme-v02.api.letsencrypt.org/directory".

(** ** The client of the DNS provider *)

Inductive dns_client :=
  | Cloudflare (apiToken : string)
  | Hetzner (apiToken : string)
  | Route53 (region profile accessKeyId secretAccessKey sessionToken hostedZoneID : string)
  | DigitalOcean (apiToken : string).

(** [strings.Trim] of both quotation marks. *)
Definition is_quote (a : ascii) : bool := Ascii.eqb a "034" || Ascii.eqb a "'".
Definition normalizeAPIToken (raw : string) : string :=
  let token := TrimRightFunc is_quote (TrimLeftFunc is_quote (TrimSpace raw)) in
  let token := if (7 <? String.length token)%nat && EqualFold (String.substring 0 7 token) "bearer " then drop_bytes 7 token else token in
  TrimSpace token.

(** What a sync asks certmagic for: the directory, the account and how names are validated. *)
Record acme_config := { ac_CA : string; ac_Email : string; ac_DNS : option dns_client }.

(** What a sync meets: the instants it reads the clock at, whether the database takes the row and the retry state, and what [StorePEM] draws. *)
Record sync_env := { se_now : Z; se_later : Z; se_written : bool; se_recorded : bool; se_random : string → string * string }.

Section acme.
Context `{Primitives}.
Variable json_Unmarshal : string → option (gmap string string).
Variable X509KeyPair : string → string → option tlsCertificate.
Variable ParseCertificate : string → option x509Leaf.
(** certmagic: the sync of names, which reads and writes the storage, and the keys it stores under. *)
Variable ManageSync : acme_config → list string → list DistributedKV → key_cache → option string * list DistributedKV * key_cache.
Variable IssuerKey : string → string.
Variable SiteCert SitePrivateKey SiteMeta : string → string → string.
(** The texts of errors. *)
Variable box_text : box_error → string.
Variable storage_text : storage_error → string.
Variable load_text : load_error → string.
Variable pem_text : string.
Variable cfg : Config.
(** The certificate loaded from files, and whether ACME is on ([httpMagic]). *)
Variable static : option x509Leaf.

Abbreviation secrets := (DataEncryptionSecrets cfg).
Abbreviation tls_secrets := (normalized_secrets (DataEncryptionSecrets cfg)).

Definition buildDNSProvider (item : DNSProvider) (keys : key_cache) : result string dns_client * key_cache :=
  let '(config, keys) := DecryptJSONAuto json_Unmarshal (List.filter (λ s, non_empty (TrimSpace s)) secrets) (dp_ConfigEncrypted item) keys in
  (match config with
   | Err e => Err (box_text e)
   | Ok config =>
       let value key := TrimSpace (default "" (config !! key)) in
       if String.eqb (dp_Type item) DNSProviderTypeCloudflare then
         let token := normalizeAPIToken (default "" (config !! "api_token")) in
         if String.eqb token "" then Err "cloudflare api token is empty" else Ok (Cloudflare token)
       else if String.eqb (dp_Type item) DNSProviderTypeHetzner then Ok (Hetzner (value "dns_api_token"))
       else if String.eqb (dp_Type item) DNSProviderTypeRoute53 then
         Ok (Route53 (value "region") (value "profile") (value "access_key_id") (value "secret_access_key") (value "session_token") (value "hosted_zone_id"))
       else if String.eqb (dp_Type item) DNSProviderTypeDO then Ok (DigitalOcean (value "api_token"))
       else Err ("unsupported dns provider type " +:+ quoted (dp_Type item))
   end, keys).

Definition configForCertificate (item : CertificateRow) (st : cert_admin) : result string (acme_config * list string) * cert_admin :=
  let conf dns := {| ac_CA := certificateAuthorityURL (ce_Issuer item) (cf_ACMECAURL cfg); ac_Email := cf_ACMEEmail cfg; ac_DNS := dns |} in
  if String.eqb (ce_ChallengeType item) CertificateChallengeDNS01 then
    match ce_DNSProviderID item with
    | None | Some 0%N => (Err "dns-01 requires a dns provider", st)
    | Some id =>
        match cert_provider st id with
        | None => (Err "resource not found", st)
        | Some provider =>
            let '(client, keys) := buildDNSProvider provider (argon_keys (ca_tls st)) in
            (match client with Err e => Err e | Ok client => Ok (conf (Some client), certificateNames item) end, set_tls st (with_argon (ca_tls st) keys))
        end
    end
  else (Ok (conf None, certificateNames item), st).

(** ** Storing what was obtained *)

(** [StorePEM] to its end: the cache is emptied and the load forgotten. *)
Definition store_pem (name issuerKey certPEM keyPEM metadata : string) (random : string * string) (tls : cert_state) : bool * cert_state :=
  let '(done, tls) := StorePEM X509KeyPair ParseCertificate tls_secrets name issuerKey certPEM keyPEM metadata random.1 random.2 tls in
  (done, if done then Forget (normalizeDomain name) (invalidate_locked (normalizeDomain name) tls) else tls).

Fixpoint persistManagedCertificate (random : string → string * string) (issuerKey : string) (names : list string) (st : cert_admin) : result string unit * cert_admin :=
  match names with
  | [] => (Ok tt, st)
  | name :: rest =>
      let name := normalizeDomain name in
      let load key keys := storage_Load tls_secrets key (ca_kv st) keys in
      let '(certPEM, keys) := load (SiteCert issuerKey name) (argon_keys (ca_tls st)) in
      match certPEM with
      | Err e => (Err (storage_text e), set_tls st (with_argon (ca_tls st) keys))
      | Ok certPEM =>
          let '(keyPEM, keys) := load (SitePrivateKey issuerKey name) keys in
          match keyPEM with
          | Err e => (Err (storage_text e), set_tls st (with_argon (ca_tls st) keys))
          | Ok keyPEM =>
              let '(meta, keys) := load (SiteMeta issuerKey name) keys in
              let meta := match meta with Ok meta => meta | Err _ => "" end in
              let '(done, tls) := store_pem name issuerKey certPEM keyPEM meta (random name) (with_argon (ca_tls st) keys) in
              let st := set_tls st tls in
              if done then persistManagedCertificate random issuerKey rest st else (Err pem_text, st)
          end
      end
  end.

Definition lookupStoredCertificateExpiry (serverName : string) (st : cert_admin) : result string Z * cert_admin :=
  let '(loaded, keys) := LoadCertificate X509KeyPair ParseCertificate tls_secrets (tls_rows (ca_tls st)) serverName (argon_keys (ca_tls st)) in
  (match loaded with
   | Err e => Err (load_text e)
   | Ok cert =>
       match tl_Leaf cert with
       | Some leaf => Ok (lf_NotAfter leaf)
       | None =>
           match tl_Certificate cert with
           | [] => Err "certificate chain is empty"
           | der :: _ => match ParseCertificate der with Some leaf => Ok (lf_NotAfter leaf) | None => Err pem_text end
           end
       end
   end, set_tls st (with_argon (ca_tls st) keys)).

(** ** [SyncCertificate] *)

Definition save_row (written : bool) (item : CertificateRow) (message : string) (st : cert_admin) : bool * CertificateRow * cert_admin :=
  if written then (true, item, recordSync (certificates_Update item st) message) else (false, item, st).
Definition save_failed (env : sync_env) (item : CertificateRow) (message : string) (st : cert_admin) : bool * CertificateRow * cert_admin :=
  save_row (se_written env) (with_status item CertificateStatusFailed message (ce_LastCheckedAt item)) message st.

(** Up to the deferred calls: whether it succeeded, the row as the caller's pointer sees it, and the state. *)
Definition sync_body (env : sync_env) (item : CertificateRow) (st : cert_admin) : bool * CertificateRow * cert_admin :=
  let now := se_now env in
  let item := with_status item (ce_Status item) (ce_LastError item) (Some now) in
  match (if String.eqb (ce_Domain item) "" then d_Name <$> cert_domain st (ce_DomainID item) else Some (ce_Domain item)) with
  | None => (false, item, st)
  | Some domainName =>
      let item := with_domain item domainName in
      if negb (cf_ACMEEnabled cfg) then
        match static with
        | Some leaf =>
            save_row (se_written env) (with_validity (with_status item CertificateStatusIssued "" (Some now)) (Some now) (lf_NotAfter leaf)
              (renewalTime (lf_NotAfter leaf) (ce_RenewalWindowDays item)) (ce_RenewalWindowDays item)) "" st
        | None => save_failed env item "acme and static tls are not configured" st
        end
      else
        match configForCertificate item st with
        | (Err e, st) => save_failed env item e st
        | (Ok (conf, names), st) =>
            match ManageSync conf names (ca_kv st) (argon_keys (ca_tls st)) with
            | (Some e, kv, keys) => save_failed env item e (set_tls (set_kv st kv) (with_argon (ca_tls st) keys))
            | (None, kv, keys) =>
                let st := set_tls (set_kv st kv) (with_argon (ca_tls st) keys) in
                match persistManagedCertificate (se_random env) (IssuerKey (ac_CA conf)) (certificateNames item) st with
                | (Err e, st) => save_failed env item e st
                | (Ok _, st) =>
                    match lookupStoredCertificateExpiry (firstCertificateName item) st with
                    | (Err e, st) => save_failed env item e st
                    | (Ok expiresAt, st) =>
                        let item := with_status item CertificateStatusIssued "" (Some now) in
                        let item := with_validity item (Some (default now (ce_IssuedAt item))) expiresAt (renewalTime expiresAt (ce_RenewalWindowDays item)) (ce_RenewalWindowDays item) in
                        let item := with_status item (derivedCertificateStatus item now) "" (Some now) in
                        save_row (se_written env) item "" st
                    end
                end
            end
        end
  end.

Definition recordRetryState (env : sync_env) (item : CertificateRow) (st : cert_admin) : CertificateRow * cert_admin :=
  if N.eqb (ce_ID item) 0 then (item, st)
  else
    let '(failures, next) := nextRetryState item (se_later env) (cf_ACMERenewWithin cfg) in
    if se_recorded env then (with_retry item failures next, UpdateRetryState (ce_ID item) failures next st) else (item, st).

Definition SyncCertificate (env : sync_env) (item : CertificateRow) (st : cert_admin) : bool * CertificateRow * cert_admin :=
  let '(ok, item, st) := sync_body env item st in
  let '(item, st) := recordRetryState env item st in (ok, item, st).

Definition ImportPEMCertificate (random : string → string * string) (now : Z) (written : bool) (item : CertificateRow) (certPEM keyPEM issuerKey : string) (st : cert_admin)
  : result string CertificateRow * cert_admin :=
  match certificateNames item with
  | [] => (Err "certificate has no domain names", st)
  | names =>
      let issuer := if non_empty (TrimSpace issuerKey) then TrimSpace issuerKey else "manual_import" in
      let certBytes := TrimSpace certPEM in
      let keyBytes := TrimSpace keyPEM in
      if String.eqb certBytes "" || String.eqb keyBytes "" then (Err "certificate_pem and private_key_pem are required", st)
      else
        let '(stored, tls) :=
          foldl (λ acc name, let '(ok, tls) := acc in
                 if ok : bool then store_pem (normalizeDomain name) issuer certBytes keyBytes "" (random name) tls else (ok, tls))
            (true, ca_tls st) names in
        let st := set_tls st tls in
        if negb stored then (Err pem_text, st)
        else
          match X509KeyPair certBytes keyBytes with
          | None => (Err pem_text, st)
          | Some parsed =>
              match tl_Certificate parsed with
              | [] => (Err "certificate chain is empty", st)
              | der :: _ =>
                  match ParseCertificate der with
                  | None => (Err pem_text, st)
                  | Some leaf =>
                      let days := if (ce_RenewalWindowDays item =? 0)%Z then 30%Z else ce_RenewalWindowDays item in
                      let item := with_validity (with_status item (ce_Status item) "" (Some now)) (Some now) (lf_NotAfter leaf) (renewalTime (lf_NotAfter leaf) days) days in
                      let item := with_status item (derivedCertificateStatus item now) "" (Some now) in
                      if written then (Ok item, certificates_Update item st) else (Err "database", st)
                  end
              end
          end
  end.

(** ** The worker *)

Variable order_by_expiry : list CertificateRow → list CertificateRow.

Definition ListExpiringBefore (before dueBy : Z) (st : cert_admin) : list CertificateRow :=
  order_by_expiry (List.filter (λ c, (ce_ExpiresAt c <=? before)%Z && due dueBy c) (certificates_List st)).

(** [renewWithin] of the worker. *)
Definition worker_renewWithin : Z := if (cf_ACMERenewWithin cfg <=? 0)%Z then (30 * 24 * Hour)%Z else cf_ACMERenewWithin cfg.

(** What each sync meets, by the identifier of the certificate: first for those that are pending, then for those that expire. *)
Definition sync_all (envs : N → sync_env) (items : list CertificateRow) (st : cert_admin) : cert_admin :=
  foldl (λ st item, (SyncCertificate (envs (ce_ID item)) item st).2) st items.

Definition runOnce (now : Z) (pending expiring : N → sync_env) (st : cert_admin) : cert_admin :=
  let st := sync_all pending (ListPending now 32 st) st in
  sync_all expiring (List.filter ce_IsAutoRenew (ListExpiringBefore (now + worker_renewWithin) now st)) st.

(** ** The handlers *)

Variable gorm_string : string → string → string.
Variable gorm_bool : bool → bool → bool.
Variable gorm_int : Z → Z → Z.

(** INSERT, with the defaults of the columns. *)
Definition certificates_Create (item : CertificateRow) (st : cert_admin) : CertificateRow * cert_admin :=
  let item :=
    {| ce_ID := ca_next st; ce_DomainID := ce_DomainID item; ce_Domain := ce_Domain item; ce_PrimaryDomain := ce_PrimaryDomain item; ce_Type := ce_Type item;
       ce_Status := gorm_string (ce_Status item) CertificateStatusPending; ce_LastError := ce_LastError item;
       ce_ChallengeType := gorm_string (ce_ChallengeType item) CertificateChallengeHTTP01;
       ce_Issuer := gorm_string (ce_Issuer item) CertificateIssuerLetsEncryptProd; ce_IssuedAt := ce_IssuedAt item; ce_ExpiresAt := ce_ExpiresAt item;
       ce_LastCheckedAt := ce_LastCheckedAt item; ce_NextRenewalAt := ce_NextRenewalAt item; ce_RenewalWindowDays := gorm_int (ce_RenewalWindowDays item) 30;
       ce_IsAutoRenew := gorm_bool (ce_IsAutoRenew item) true; ce_FailureCount := gorm_int (ce_FailureCount item) 0; ce_NextAttemptAt := ce_NextAttemptAt item;
       ce_DNSProviderID := ce_DNSProviderID item; ce_SANs := ce_SANs item |} in
  (item, {| ca_certs := ca_certs st ++ [item]; ca_next := ca_next st + 1; ca_domains := ca_domains st; ca_dns := ca_dns st; ca_tls := ca_tls st;
            ca_kv := ca_kv st; ca_lastError := ca_lastError st |}).

Definition certificate_error {X} (e : cert_error) : api_reply X := match e with ErrMissing => not_found | ErrInvalid message => validation_failed message end.
Definition reloaded (id : N) (st : cert_admin) : api_reply CertificateRow :=
  match certificates_GetByID st id with Some item => Answer item | None => internalError end.

Definition parseBoolQuery (value : string) : bool := existsb (String.eqb (ToLower (TrimSpace value))) ["1"; "true"; "yes"; "wait"].

Definition handleCreateCertificate (sync : string) (env : sync_env) (req : createCertificateRequest) (st : cert_admin) : api_reply CertificateRow * cert_admin :=
  match cert_domain st (cc_DomainID req) with
  | None => (not_found, st)
  | Some _ =>
      if (0 <? cc_DNSProviderConfig req)%nat
      then (validation_failed "inline dns_provider_config is not supported; create a DNS provider resource and reference it", st)
      else
        let item :=
          {| ce_ID := 0; ce_DomainID := cc_DomainID req; ce_Domain := ""; ce_PrimaryDomain := cc_PrimaryDomain req; ce_Type := cc_Type req;
             ce_Status := CertificateStatusPending; ce_LastError := ""; ce_ChallengeType := cc_ChallengeType req; ce_Issuer := cc_Issuer req;
             ce_IssuedAt := None; ce_ExpiresAt := default no_time (cc_ExpiresAt req); ce_LastCheckedAt := None; ce_NextRenewalAt := None;
             ce_RenewalWindowDays := cc_RenewalWindowDays req; ce_IsAutoRenew := cc_IsAutoRenew req; ce_FailureCount := 0; ce_NextAttemptAt := None;
             ce_DNSProviderID := cc_DNSProviderID req; ce_SANs := cc_SANs req |} in
        match validateAndHydrateCertificate item st with
        | Err e => (certificate_error e, st)
        | Ok item =>
            let '(item, st) := certificates_Create item st in
            let st := certificates_Update item st in
            let '(ok, item, st) := if parseBoolQuery sync then SyncCertificate env item st else (true, item, st) in
            if ok then (reloaded (ce_ID item) st, st) else (internalError, st)
        end
  end.

Definition handleUpdateCertificate (written : bool) (id : N) (req : updateCertificateRequest) (st : cert_admin) : api_reply CertificateRow * cert_admin :=
  match certificates_GetByID st id with
  | None => (not_found, st)
  | Some c =>
      if (0 <? uc_DNSProviderConfig req)%nat
      then (validation_failed "inline dns_provider_config is not supported; create or update a DNS provider resource instead", st)
      else if match uc_DomainID req with Some d => negb (bool_decide (is_Some (cert_domain st d))) | None => false end then (not_found, st)
      else
        let item :=
          {| ce_ID := ce_ID c; ce_DomainID := default (ce_DomainID c) (uc_DomainID req); ce_Domain := ce_Domain c;
             ce_PrimaryDomain := default (ce_PrimaryDomain c) (uc_PrimaryDomain req); ce_Type := default (ce_Type c) (uc_Type req); ce_Status := ce_Status c;
             ce_LastError := ce_LastError c; ce_ChallengeType := default (ce_ChallengeType c) (uc_ChallengeType req);
             ce_Issuer := default (ce_Issuer c) (uc_Issuer req); ce_IssuedAt := ce_IssuedAt c; ce_ExpiresAt := default (ce_ExpiresAt c) (uc_ExpiresAt req);
             ce_LastCheckedAt := ce_LastCheckedAt c; ce_NextRenewalAt := ce_NextRenewalAt c;
             ce_RenewalWindowDays := default (ce_RenewalWindowDays c) (uc_RenewalWindowDays req);
             ce_IsAutoRenew := default (ce_IsAutoRenew c) (uc_IsAutoRenew req); ce_FailureCount := ce_FailureCount c; ce_NextAttemptAt := ce_NextAttemptAt c;
             ce_DNSProviderID := match uc_DNSProviderID req with Some p => Some p | None => ce_DNSProviderID c end;
             ce_SANs := default (ce_SANs c) (uc_SANs req) |} in
        match validateAndHydrateCertificate item st with
        | Err e => (certificate_error e, st)
        | Ok item =>
            if written then let st := certificates_Update (with_retry item 0 None) st in (reloaded (ce_ID item) st, st) else (internalError, st)
        end
  end.

(** What is stored for the names goes too; a failure there is only logged. *)
Fixpoint PurgeCertificateData (fold : bool) (order_by_key : list DistributedKV → list DistributedKV) (names : list string) (st : cert_admin) : cert_admin :=
  match names with
  | [] => st
  | raw :: rest =>
      let name := normalizeDomain raw in
      if String.eqb name "" then PurgeCertificateData fold order_by_key rest st
      else
        let tls := Forget name (invalidate_locked name (DeleteCertificate name (ca_tls st))) in
        let kv := match DeleteCertificatesForDomain fold order_by_key name (ca_kv st) with Ok kv => kv | Err _ => ca_kv st end in
        PurgeCertificateData fold order_by_key rest (set_kv (set_tls st tls) kv)
  end.

Definition handleDeleteCertificate (fold : bool) (order_by_key : list DistributedKV → list DistributedKV) (id : N) (st : cert_admin) : api_reply unit * cert_admin :=
  match certificates_GetByID st id with
  | None => (not_found, st)
  | Some item =>
      match certificates_Delete id st with
      | None => (not_found, st)
      | Some st => (Answer tt, PurgeCertificateData fold order_by_key (certificateDomainNames item) st)
      end
  end.

(** [handleRetryCertificate] and [handleRenewCertificate] forget the failures before they sync, [handleSyncCertificateStatus] does not. *)
Definition sync_handler (forget : bool) (env : sync_env) (id : N) (st : cert_admin) : api_reply CertificateRow * cert_admin :=
  match certificates_GetByID st id with
  | None => (not_found, st)
  | Some item =>
      let item := if forget then with_retry item 0 (ce_NextAttemptAt item) else item in
      let '(ok, item, st) := SyncCertificate env item st in (if ok then Answer item else internalError, st)
  end.
Definition handleRetryCertificate := sync_handler true.
Definition handleRenewCertificate := sync_handler true.
Definition handleSyncCertificateStatus := sync_handler false.

Definition handleImportCertificatePEM (random : string → string * string) (now : Z) (written : bool) (id : N) (certPEM keyPEM issuerKey : string) (st : cert_admin)
  : api_reply CertificateRow * cert_admin :=
  match certificates_GetByID st id with
  | None => (not_found, st)
  | Some item =>
      match ImportPEMCertificate random now written item certPEM keyPEM issuerKey st with
      | (Err e, st) => (ApiError 400 "invalid_certificate" e, st)
      | (Ok item, st) => (Answer item, st)
      end
  end.

(** ** Certificates nobody ordered by hand *)

Variable order_by_name : list DNSProvider → list DNSProvider.

Definition pickAutoCertProvider (explicitProviderID : option N) (st : cert_admin) : option DNSProvider :=
  let providers := order_by_name (ca_dns st) in
  match explicitProviderID with
  | Some id => List.find (λ p, N.eqb (dp_ID p) id && dp_IsActive p) providers
  | None => match List.filter dp_IsActive providers with [p] => Some p | _ => None end
  end.

Definition ordered_certificate (domainID : N) (host ty challenge : string) (provider : option N) (days : Z) : CertificateRow :=
  {| ce_ID := 0; ce_DomainID := domainID; ce_Domain := ""; ce_PrimaryDomain := host; ce_Type := ty; ce_Status := CertificateStatusPending; ce_LastError := "";
     ce_ChallengeType := challenge; ce_Issuer := CertificateIssuerLetsEncryptProd; ce_IssuedAt := None; ce_ExpiresAt := no_time; ce_LastCheckedAt := None;
     ce_NextRenewalAt := None; ce_RenewalWindowDays := days; ce_IsAutoRenew := true; ce_FailureCount := 0; ce_NextAttemptAt := None;
     ce_DNSProviderID := provider; ce_SANs := [] |}.

(** The sync it starts runs later, as [background_sync]. *)
Definition autoIssueCertificateForDomain (dom : DomainRow) (explicitProviderID : option N) (enabled : bool) (st : cert_admin) : option CertificateRow * cert_admin :=
  if negb enabled || negb (cf_ACMEEnabled cfg) then (None, st)
  else if HostCoveredByCertificates (d_Name dom) (map names_of (certificates_List st)) then (None, st)
  else
    match pickAutoCertProvider explicitProviderID st with
    | None => (None, st)
    | Some provider =>
        let '(cert, st) := certificates_Create (ordered_certificate (d_ID dom) (d_Name dom) CertificateTypeSingle CertificateChallengeDNS01 (Some (dp_ID provider)) 30) st in
        (Some cert, st)
    end.
Definition background_sync (env : sync_env) (certID : N) (st : cert_admin) : cert_admin :=
  match certificates_GetByID st certID with None => st | Some item => (SyncCertificate env item st).2 end.

Definition skippableCertHost (host : string) : bool := String.eqb host "" || String.eqb host "localhost" || HasPrefix host "127.".

Definition activeCertChallenge (st : cert_admin) : string * option N :=
  match List.find dp_IsActive (order_by_name (ca_dns st)) with
  | Some p => (CertificateChallengeDNS01, Some (dp_ID p))
  | None => (CertificateChallengeHTTP01, None)
  end.

Definition enqueuePendingCertificate (domainID : N) (host challengeType : string) (dnsProviderID : option N) (st : cert_admin) : cert_admin :=
  let certType := if IsWildcardHost host then CertificateTypeWildcard else CertificateTypeSingle in
  (certificates_Create (ordered_certificate domainID host certType challengeType dnsProviderID 0) st).2.

(** One service of the list; the names enqueued so far count as covered. *)
Definition ensure_service (challengeType : string) (dnsProviderID : option N) (acc : list Certificate * cert_admin) (service : Service) : list Certificate * cert_admin :=
  let '(certs, st) := acc in
  if negb (String.eqb (s_TLSMode service) "offload") then acc
  else
    let host := ToLower (TrimSpace (ServiceHost service)) in
    if skippableCertHost host || N.eqb (s_DomainID service) 0 then acc
    else if HostCoveredByCertificates host certs then acc
    else if IsWildcardHost host && negb (String.eqb challengeType CertificateChallengeDNS01) then acc
    else (certs ++ [{| c_PrimaryDomain := host; c_SANs := [] |}], enqueuePendingCertificate (s_DomainID service) host challengeType dnsProviderID st).
Definition ensureServiceCertificates (services : list Service) (st : cert_admin) : cert_admin :=
  if negb (cf_ACMEEnabled cfg) then st
  else
    let '(challengeType, dnsProviderID) := activeCertChallenge st in
    (foldl (ensure_service challengeType dnsProviderID) (map names_of (certificates_List st), st) services).2.
End acme.

(** * The delay between attempts *)

Lemma retry_loop_min n delay :
  (0 < delay < retryMaxDelay)%Z → retry_loop n delay = Z.min (delay * 2 ^ Z.of_nat n) retryMaxDelay.
Proof.
  revert delay. induction n as [|n IH]; intros delay Hd; cbn [retry_loop]; [rewrite Z.pow_0_r; lia|].
  rewrite Nat2Z.inj_succ, Z.pow_succ_r by lia. pose proof (Z.pow_pos_nonneg 2 (Z.of_nat n) ltac:(lia) ltac:(lia)).
  destruct (Z.leb_spec retryMaxDelay (delay * 2)); [nia|]. rewrite IH by lia. f_equal. ring.
Qed.

(** The delay doubles from five minutes with each failure and stops at a day, whatever the count. *)
Theorem retry_delay_doubles failures : retryDelay failures = Z.min (5 * Minute * 2 ^ Z.max 0 (failures - 1)) (24 * Hour).
Proof.
  unfold retryDelay. rewrite retry_loop_min by (cbv; split; reflexivity). unfold retryBaseDelay, retryMaxDelay. do 3 f_equal. lia.
Qed.

(** * Names that are ordered *)

Lemma star_dot_lower a : Ascii.eqb (lower_ascii a) "*" = Ascii.eqb a "*" ∧ Ascii.eqb (lower_ascii a) "." = Ascii.eqb a ".".
Proof. by destruct a as [[] [] [] [] [] [] [] []]. Qed.

Lemma star_prefix_lower s : HasPrefix (ToLower s) "*." = HasPrefix s "*.".
Proof.
  destruct s as [|a [|b s]]; [done|..]; cbn [ToLower string_map HasPrefix]; rewrite (proj1 (star_dot_lower a)); [done|]. by rewrite (proj2 (star_dot_lower b)).
Qed.

Lemma star_prefix_trim s : HasPrefix s "*." = true → HasPrefix (TrimSpace s) "*." = true.
Proof.
  intros [t ->]%HasPrefix_spec. unfold TrimSpace. cbn. by destruct (TrimRightFunc is_space t).
Qed.

Lemma normal_name_idem s : normalizeHostname (normalizeHostname s) = normalizeHostname s.
Proof. unfold normalizeHostname. by rewrite TrimSpace_ToLower, TrimSpace_idem, ToLower_idem. Qed.

(** The names come out in the order given, normalised, each one valid and none twice. *)
Definition well_named (names : list string) : Prop :=
  names ≠ [] ∧ NoDup names ∧ Forall (λ n, isValidCertificateDNSName n = true ∧ normalizeHostname n = n) names.

Lemma normalize_names_ok candidates : ∀ seen names,
  NoDup seen → Forall (λ n, isValidCertificateDNSName n = true ∧ normalizeHostname n = n) seen → normalize_names seen candidates = Ok names →
  well_named names ∧ names = seen ++ List.filter non_empty (map normalizeHostname candidates).
Proof.
  induction candidates as [|x rest IH]; intros seen names Hnd Hall; cbn [normalize_names map List.filter].
  { destruct seen as [|y seen]; [done|]. intros [= <-]. by rewrite app_nil_r. }
  destruct (non_empty (normalizeHostname x)) eqn:Hne; cbn [negb]; [|by apply IH].
  destruct (isValidCertificateDNSName (normalizeHostname x)) eqn:Hv; cbn [negb]; [|done].
  destruct (existsb (String.eqb (normalizeHostname x)) seen) eqn:Hdup; [done|]. intros Hn.
  rewrite existsb_false_elem in Hdup. destruct (IH (seen ++ [normalizeHostname x]) names) as [Hw ->]; [| |done|].
  - apply NoDup_app. split_and!; [done| |apply NoDup_singleton]. intros y Hy ->%list_elem_of_singleton. specialize (Hdup _ Hy). by rewrite String.eqb_refl in Hdup.
  - apply Forall_app. split; [done|]. apply Forall_singleton. split; [done|apply normal_name_idem].
  - split; [done|]. by rewrite <- app_assoc.
Qed.

(** What an order that passed the checks is. *)
Record admissible_certificate (st : cert_admin) (c : CertificateRow) : Prop := {
  ad_domain : is_Some (cert_domain st (ce_DomainID c));
  ad_names : well_named (ce_PrimaryDomain c :: ce_SANs c);
  ad_type : ce_Type c = CertificateTypeWildcard ↔ HasPrefix (ce_PrimaryDomain c) "*." = true;
  ad_wildcard : hasWildcardName (ce_PrimaryDomain c) (ce_SANs c) = true → ce_ChallengeType c ≠ CertificateChallengeHTTP01;
  ad_wildcard_type : ce_Type c = CertificateTypeWildcard → ce_ChallengeType c = CertificateChallengeDNS01;
  ad_provider : ∀ id, ce_DNSProviderID c = Some id →
    ce_ChallengeType c = CertificateChallengeDNS01 ∧ ∃ p, cert_provider st id = Some p ∧ dp_IsActive p = true;
  ad_dns : ce_ChallengeType c = CertificateChallengeDNS01 → is_Some (ce_DNSProviderID c);
  ad_window : ce_RenewalWindowDays c ≠ 0%Z;
}.

Lemma challenge_provider_ok item st provider :
  challenge_provider item st = Ok provider →
  match provider with
  | Some id => ce_ChallengeType item = CertificateChallengeDNS01 ∧ ∃ p, cert_provider st id = Some p ∧ dp_IsActive p = true
  | None => ce_ChallengeType item ≠ CertificateChallengeDNS01
  end.
Proof.
  unfold challenge_provider. destruct (String.eqb_spec (ce_ChallengeType item) CertificateChallengeDNS01); [|by intros [= <-]].
  destruct (ce_DNSProviderID item) as [[|id]|]; [done| |done]. destruct (cert_provider st _) as [p|] eqn:Hp; [|done].
  destruct (dp_IsActive p) eqn:Ha; [|done]. intros [= <-]. eauto.
Qed.

Lemma need_cert_ok ok message u : need_cert ok message = Ok u → ok = true.
Proof. unfold need_cert. by destruct ok. Qed.

(** The first name is the primary domain, as soon as there is one. *)
Lemma names_head primary sans names :
  normalizeCertificateNames primary sans = Ok names → normalizeHostname primary ≠ "" → head names = Some (normalizeHostname primary).
Proof.
  intros Hn Hne. destruct (normalize_names_ok (primary :: sans) [] names) as [_ ->]; [apply NoDup_nil_2|by constructor|done|].
  cbn. by rewrite (proj2 (non_empty_true _) Hne).
Qed.

Lemma star_app_normal s : HasPrefix (normalizeHostname ("*." +:+ s)) "*." = true.
Proof. unfold normalizeHostname. rewrite star_prefix_lower. apply star_prefix_trim. done. Qed.

(** A wildcard order is for a wildcard. *)
Lemma wildcard_first ty primary sans names :
  (let '(p, l) := if String.eqb ty CertificateTypeWildcard && negb (HasPrefix primary "*.") then wildcard_names primary sans else (primary, sans) in
   normalizeCertificateNames p l) = Ok names → ty = CertificateTypeWildcard → HasPrefix (default "" (head names)) "*." = true.
Proof.
  intros Hn ->. cbn [String.eqb andb] in Hn. assert (String.eqb CertificateTypeWildcard CertificateTypeWildcard = true) as Ht by done. rewrite Ht in Hn. cbn [andb] in Hn.
  destruct (HasPrefix primary "*.") eqn:Hp; cbn [negb] in Hn.
  - assert (HasPrefix (normalizeHostname primary) "*." = true) as Hs by (unfold normalizeHostname; rewrite star_prefix_lower; by apply star_prefix_trim).
    rewrite (names_head primary sans names Hn); [done|]. intros He. by rewrite He in Hs.
  - unfold wildcard_names in Hn. pose proof (star_app_normal primary) as Hs. rewrite (names_head _ _ names Hn); [done|]. intros He. by rewrite He in Hs.
Qed.

Lemma validate_keeps item st c :
  validateAndHydrateCertificate item st = Ok c →
  ce_ID c = ce_ID item ∧ ce_ExpiresAt c = ce_ExpiresAt item ∧ (ce_Status item ≠ "" → ce_Status c = ce_Status item).
Proof.
  unfold validateAndHydrateCertificate. destruct (cert_domain st _); [|done]. cbv zeta. destruct (if String.eqb _ _ && _ then _ else _) as [p l]. intros Hok.
  repeat match type of Hok with result_bind ?m _ = _ => destruct m; cbn [result_bind] in Hok; [|done] end.
  injection Hok as <-. cbn. split_and!; [done|done|]. by destruct (String.eqb_spec (ce_Status item) "").
Qed.

(** What the checks let through: a certificate has distinct, valid, normalised names, a wildcard as its first name exactly when it is of that
    type, wildcards are never left to the HTTP challenge, and the DNS challenge comes with a provider that exists and is active. *)
Theorem validated_certificate item st c :
  validateAndHydrateCertificate item st = Ok c → admissible_certificate st c ∧ ce_ID c = ce_ID item ∧ ce_Status c ≠ "".
Proof.
  unfold validateAndHydrateCertificate. destruct (cert_domain st (ce_DomainID item)) as [base|] eqn:Hd; [|done]. cbv zeta.
  set (primary := normalizeHostname _). intros Hok.
  assert (∃ names, (let '(p, l) := if String.eqb (ce_Type item) CertificateTypeWildcard && negb (HasPrefix primary "*.")
      then wildcard_names primary (ce_SANs item) else (primary, ce_SANs item) in normalizeCertificateNames p l) = Ok names) as [names Hn].
  { destruct (if String.eqb _ _ && _ then _ else _) as [p l]. destruct (normalizeCertificateNames p l); [eauto|done]. }
  pose proof (wildcard_first _ _ _ _ Hn) as Hwild. destruct (if String.eqb _ _ && _ then _ else _) as [p l]. rewrite Hn in Hok. cbn [result_bind] in Hok.
  unfold normalizeCertificateNames in Hn. destruct (normalize_names_ok _ [] names (NoDup_nil_2) (Forall_nil_2 _) Hn) as [Hw _].
  destruct names as [|first rest]; [by destruct Hw|]. cbn [default head tail] in Hok, Hwild. cbn [from_option id] in *.
  set (ty := if String.eqb (ce_Type item) "" then _ else _) in Hok.
  destruct (need_cert _ _) as [[]|] eqn:H1 in Hok; cbn [result_bind] in Hok; [|done]. apply need_cert_ok in H1.
  destruct (need_cert _ _) as [[]|] eqn:H2 in Hok; cbn [result_bind] in Hok; [|done]. apply need_cert_ok in H2.
  destruct (need_cert _ _) as [[]|] eqn:H3 in Hok; cbn [result_bind] in Hok; [|done]. apply need_cert_ok in H3.
  destruct (challenge_provider item st) as [provider|] eqn:Hp; cbn [result_bind] in Hok; [|done]. apply challenge_provider_ok in Hp. injection Hok as <-.
  assert (ty = CertificateTypeWildcard → ce_Type item = CertificateTypeWildcard) as Hty.
  { unfold ty. destruct (String.eqb_spec (ce_Type item) ""); [|done]. by destruct (0 <? length rest)%nat. }
  split; [split; cbn [ce_DomainID ce_PrimaryDomain ce_SANs ce_Type ce_ChallengeType ce_DNSProviderID ce_RenewalWindowDays]|
    split; [done|cbn; by destruct (String.eqb_spec (ce_Status item) "")]].
  - by rewrite Hd.
  - done.
  - split; [intros He; apply Hwild; by apply Hty|]. intros Hs. rewrite Hs, orb_false_r in H1. by apply String.eqb_eq.
  - intros Hs. rewrite Hs, andb_true_r in H3. apply negb_true_iff in H3. by apply String.eqb_neq.
  - intros He. rewrite (proj2 (String.eqb_eq _ _) He) in H2. cbn [negb orb] in H2. by apply String.eqb_eq.
  - intros id ->. exact Hp.
  - intros He. by destruct provider.
  - by destruct (Z.eqb_spec (ce_RenewalWindowDays item) 0).
Qed.

(** * Certificates for the services *)

Section ensure.
Variable cfg : Config.
Variable gorm_string : string → string → string.
Variable gorm_bool : bool → bool → bool.
Variable gorm_int : Z → Z → Z.
Variable order_by_name : list DNSProvider → list DNSProvider.

Abbreviation ensure := (ensureServiceCertificates cfg gorm_string gorm_bool gorm_int order_by_name).
Abbreviation step ch p := (ensure_service gorm_string gorm_bool gorm_int ch p).

Definition certificate_host (s : Service) : string := ToLower (TrimSpace (ServiceHost s)).
Definition table_names (st : cert_admin) : list Certificate := map names_of (ca_certs st).
Definition host_covered (st : cert_admin) (host : string) : bool := HostCoveredByCertificates host (table_names st).

(** The services a certificate is ordered for: terminated here, with a public name, and a wildcard only when it can be validated. *)
Definition wanted (ch : string) (s : Service) : bool :=
  String.eqb (s_TLSMode s) "offload" && negb (skippableCertHost (certificate_host s) || N.eqb (s_DomainID s) 0) &&
  negb (IsWildcardHost (certificate_host s) && negb (String.eqb ch CertificateChallengeDNS01)).

Lemma listed_names st : map names_of (certificates_List st) = table_names st.
Proof. unfold certificates_List, table_names. by rewrite map_map. Qed.

Lemma covers_itself host certs : host = ToLower (TrimSpace host) → HostCoveredByCertificates host (certs ++ [{| c_PrimaryDomain := host; c_SANs := [] |}]) = true.
Proof.
  intros Hh. unfold HostCoveredByCertificates. rewrite existsb_app. cbn [existsb c_PrimaryDomain c_SANs]. rewrite String.eqb_refl. cbn. apply orb_true_r.
Qed.

Lemma covered_app host certs more : HostCoveredByCertificates host certs = true → HostCoveredByCertificates host (certs ++ more) = true.
Proof. unfold HostCoveredByCertificates. rewrite existsb_app. by intros ->. Qed.

Lemma certificate_host_normal s : certificate_host s = ToLower (TrimSpace (certificate_host s)).
Proof. unfold certificate_host. by rewrite TrimSpace_ToLower, TrimSpace_idem, ToLower_idem. Qed.

(** What one service adds. *)
Definition adds (ch : string) (st : cert_admin) (s : Service) : bool := wanted ch s && negb (host_covered st (certificate_host s)).

Lemma ensure_step ch p st s :
  let '(certs, st') := step ch p (table_names st, st) s in
  certs = table_names st' ∧ ca_dns st' = ca_dns st ∧
  if adds ch st s then ∃ row, ca_certs st' = ca_certs st ++ [row] ∧ names_of row = {| c_PrimaryDomain := certificate_host s; c_SANs := [] |} else st' = st.
Proof.
  unfold ensure_service, adds, wanted, host_covered, certificate_host. destruct (String.eqb (s_TLSMode s) "offload"); cbn [negb andb]; [|done].
  destruct (skippableCertHost _ || _); cbn [negb andb]; [done|]. destruct (HostCoveredByCertificates _ _); [by rewrite andb_false_r|]. rewrite andb_true_r.
  destruct (IsWildcardHost _ && _); cbn [negb]; [done|]. unfold enqueuePendingCertificate, certificates_Create, ordered_certificate. cbn [snd ca_dns ca_certs].
  unfold table_names. cbn [ca_certs]. rewrite map_app. split_and!; [done|done|]. by eexists.
Qed.

(** The additions of a list of services to a table: each is for one of them, which nothing in the table or before it covered. *)
Fixpoint grown (ch : string) (services : list Service) (certs added : list Certificate) : Prop :=
  match added with
  | [] => True
  | c :: rest => (∃ s, s ∈ services ∧ wanted ch s = true ∧ c = {| c_PrimaryDomain := certificate_host s; c_SANs := [] |}) ∧
      HostCoveredByCertificates (c_PrimaryDomain c) certs = false ∧ grown ch services (certs ++ [c]) rest
  end.

Lemma grown_mono ch s services added : ∀ certs, grown ch services certs added → grown ch (s :: services) certs added.
Proof. induction added as [|c added IH]; intros certs; cbn; [done|]. intros ((x & ? & ? & ?) & ? & ?). split_and!; [exists x; by split_and!; [right|..]|done|by apply IH]. Qed.

Lemma ensure_fold ch p services : ∀ st,
  let '(certs, st') := foldl (step ch p) (table_names st, st) services in
  certs = table_names st' ∧ ca_dns st' = ca_dns st ∧ (∀ s, s ∈ services → wanted ch s = true → host_covered st' (certificate_host s) = true) ∧
  ∃ added, table_names st' = table_names st ++ added ∧ take (length (ca_certs st)) (ca_certs st') = ca_certs st ∧ grown ch services (table_names st) added.
Proof.
  induction services as [|s services IH]; intros st; cbn [foldl].
  { split_and!; [done|done|by intros ? ?%not_elem_of_nil|]. exists []. split_and!; [by rewrite app_nil_r|by rewrite firstn_all|done]. }
  pose proof (ensure_step ch p st s) as Hs. destruct (step ch p (table_names st, st) s) as [certs st1]. destruct Hs as (-> & Hdns & Hadd).
  specialize (IH st1). destruct (foldl (step ch p) (table_names st1, st1) services) as [certs2 st2]. destruct IH as (-> & Hdns2 & Hcov & added & Hadded & Hkeep & Hgrown).
  assert (wanted ch s = true → host_covered st1 (certificate_host s) = true) as Hhere.
  { intros Hw. unfold adds in Hadd. rewrite Hw in Hadd. cbn [andb] in Hadd. destruct (host_covered st (certificate_host s)) eqn:Hc; cbn [negb] in Hadd; [by subst|].
    destruct Hadd as (row & Hrow & Hname). unfold host_covered, table_names. rewrite Hrow, map_app. cbn [map]. rewrite Hname. apply covers_itself, certificate_host_normal. }
  split_and!; [done|by rewrite Hdns2| |].
  { intros x [->|Hx]%elem_of_cons Hw; [|by apply Hcov]. unfold host_covered. rewrite Hadded. by apply covered_app, Hhere. }
  destruct (adds ch st s) eqn:Ha; [|subst st1; exists added; by split_and!; [..|apply grown_mono]].
  destruct Hadd as (row & Hrow & Hname). exists (names_of row :: added). unfold table_names in Hadded at 2. rewrite Hrow, map_app, <- app_assoc in Hadded.
  split_and!; [done| |].
  - rewrite Hrow, length_app in Hkeep. apply (f_equal (take (length (ca_certs st)))) in Hkeep. rewrite take_take, take_app_length in Hkeep.
    by rewrite Nat.min_l in Hkeep by lia.
  - apply andb_true_iff in Ha as [Hw Hc%negb_true_iff]. cbn [grown]. rewrite Hname. split_and!; [exists s; by split_and!; [left|..]|exact Hc|].
    apply grown_mono. unfold table_names in Hgrown at 1. rewrite Hrow, map_app in Hgrown. cbn [map] in Hgrown. by rewrite Hname in Hgrown.
Qed.

Lemma covered_fixpoint ch p services st :
  (∀ s, s ∈ services → wanted ch s = true → host_covered st (certificate_host s) = true) → foldl (step ch p) (table_names st, st) services = (table_names st, st).
Proof.
  induction services as [|s services IH]; intros Hcov; [done|]. cbn [foldl]. pose proof (ensure_step ch p st s) as Hs.
  destruct (step ch p (table_names st, st) s) as [certs st1]. destruct Hs as (-> & _ & Hadd). unfold adds in Hadd.
  assert (st1 = st) as ->.
  { destruct (wanted ch s) eqn:Hw; cbn [andb] in Hadd; [|done]. by rewrite (Hcov s ltac:(left) Hw) in Hadd. }
  apply IH. intros x Hx. apply Hcov. by right.
Qed.

(** Starting the server orders what is missing and nothing twice: afterwards every service that is terminated here is covered by a
    certificate of the table, what was in the table stays, each new certificate is for the host of a service which neither the table nor an
    earlier new one covered, and starting again orders nothing. *)
Theorem service_certificates_ensured services st :
  cf_ACMEEnabled cfg = true →
  let ch := (activeCertChallenge order_by_name st).1 in let st' := ensure services st in
  (∀ s, s ∈ services → wanted ch s = true → host_covered st' (certificate_host s) = true) ∧
  (∃ added, table_names st' = table_names st ++ added ∧ take (length (ca_certs st)) (ca_certs st') = ca_certs st ∧ grown ch services (table_names st) added) ∧
  ensure services st' = st'.
Proof.
  intros Hacme. cbv zeta. unfold ensureServiceCertificates. rewrite Hacme. cbn [negb]. rewrite !listed_names.
  destruct (activeCertChallenge order_by_name st) as [ch p] eqn:Hch. cbn [fst].
  pose proof (ensure_fold ch p services st) as Hf. destruct (foldl (step ch p) (table_names st, st) services) as [certs st']. cbn [snd].
  destruct Hf as (-> & Hdns & Hcov & Hadded). assert (activeCertChallenge order_by_name st' = (ch, p)) as ->
    by (rewrite <- Hch; unfold activeCertChallenge; by rewrite Hdns).
  split_and!; [done|done|]. by rewrite covered_fixpoint.
Qed.
End ensure.

(** * An order for a wildcard, and two services on one host *)

Definition sample_acme_env (key : string) : option string := if String.eqb key "ACME_ENABLED" then Some "true" else sample_rotation_env key.
Definition sample_acme_cfg : Config := Load_config sample_acme_env (λ _, None) (λ _, "").
Definition sample_cert_domain : DomainRow :=
  {| d_ID := 1; d_Name := "example.com"; d_Type := "single"; d_Provider := ""; d_Notes := ""; d_IPAllowlist := []; d_IPBlocklist := [] |}.
Definition sample_cert_admin : cert_admin :=
  {| ca_certs := []; ca_next := 1; ca_domains := [sample_cert_domain]; ca_dns := [sample_provider 1 "a" ""]; ca_tls := cert_start [] 1; ca_kv := []; ca_lastError := "" |}.
Definition sample_order (ty challenge primary : string) (provider : option N) : CertificateRow :=
  {| ce_ID := 0; ce_DomainID := 1; ce_Domain := ""; ce_PrimaryDomain := primary; ce_Type := ty; ce_Status := ""; ce_LastError := ""; ce_ChallengeType := challenge;
     ce_Issuer := ""; ce_IssuedAt := None; ce_ExpiresAt := no_time; ce_LastCheckedAt := None; ce_NextRenewalAt := None; ce_RenewalWindowDays := 0;
     ce_IsAutoRenew := true; ce_FailureCount := 0; ce_NextAttemptAt := None; ce_DNSProviderID := provider; ce_SANs := ["www.Example.com "] |}.

Lemma validated_certificate_witness :
  ∃ c, validateAndHydrateCertificate (sample_order "wildcard" "dns-01" "" (Some 1%N)) sample_cert_admin = Ok c ∧
    ce_PrimaryDomain c = "*.example.com" ∧ ce_SANs c = ["example.com"; "www.example.com"] ∧ admissible_certificate sample_cert_admin c.
Proof.
  destruct (validateAndHydrateCertificate (sample_order "wildcard" "dns-01" "" (Some 1%N)) sample_cert_admin) as [c|] eqn:Hc; [|vm_compute in Hc; discriminate].
  exists c. destruct (validated_certificate _ _ _ Hc) as [Ha _]. vm_compute in Hc. injection Hc as <-. split_and!; [reflexivity..|exact Ha].
Defined.

Definition sample_offload (id : N) (sub : string) : Service :=
  {| s_ID := id; s_Name := "svc"; s_DomainID := 1; s_Domain := sample_cert_domain; s_Subdomain := sub; s_Path := "/"; s_TargetURL := "http://10.0.0.5:8080";
     s_TLSMode := "offload"; s_PassHostHeader := false; s_UpstreamSkipVerify := false; s_UpstreamCAPEM := ""; s_UpstreamServerName := "";
     s_AuthPolicy := ""; s_AccessMode := ""; s_AllowedRoles := []; s_AllowedGroups := []; s_AllowedServiceGroups := []; s_UseGroupPolicy := false;
     s_AccessMethod := ""; s_AccessMethodConfig := ∅; s_AccessMessage := ""; s_IPAllowlist := []; s_IPBlocklist := []; s_AllowedCountries := [];
     s_BlockedCountries := []; s_AccessWindows := []; s_AccessRules := []; s_LoginHosts := []; s_LastDeployedAt := None; s_DeploymentRevision := 0;
     s_Enabled := true; s_NodeID := None; s_Node := None; s_ServiceGroups := [] |}.
Definition sample_ensured : cert_admin :=
  ensureServiceCertificates sample_acme_cfg (λ v d, if String.eqb v "" then d else v) orb (λ v d, if (v =? 0)%Z then d else v) (λ l, l)
    [sample_offload 1 "App"; sample_offload 2 "app"; sample_offload 3 "api"] sample_cert_admin.

Lemma service_certificates_ensured_witness :
  map ce_PrimaryDomain (ca_certs sample_ensured) = ["app.example.com"; "api.example.com"] ∧
  ensureServiceCertificates sample_acme_cfg (λ v d, if String.eqb v "" then d else v) orb (λ v d, if (v =? 0)%Z then d else v) (λ l, l)
    [sample_offload 1 "App"; sample_offload 2 "app"; sample_offload 3 "api"] sample_ensured = sample_ensured.
Proof.
  split; [vm_compute; reflexivity|].
  exact (proj2 (proj2 (service_certificates_ensured sample_acme_cfg (λ v d, if String.eqb v "" then d else v) orb (λ v d, if (v =? 0)%Z then d else v) (λ l, l)
    [sample_offload 1 "App"; sample_offload 2 "app"; sample_offload 3 "api"] sample_cert_admin ltac:(vm_compute; reflexivity)))).
Defined.
