(* ===== verification/CertIssuance.v ===== *)
(** What [SyncCertificate] and the worker (Certificates.v) do to the tables: a sync changes the row of its certificate only, a certificate
    that failed is left alone until its delay is over, and one that is said to be issued is stored for every name. *)
From S2P Require Import Prelude GoStrings Domain Hosts SecretBox ApiGuard UserAdmin Config Catalog CertStore CertStorage DnsProviders Certificates.

#[local] Open Scope string_scope.
#[local] Open Scope list_scope.

(** * What a sync touches *)

(** Only the row with the identifier differs, and it keeps the identifier. *)
Definition only_row (id : N) (st st' : cert_admin) : Prop :=
  (∃ f : CertificateRow → CertificateRow, (∀ c, ce_ID c = id → ce_ID (f c) = id) ∧
    ca_certs st' = map (λ c, if N.eqb (ce_ID c) id then f c else c) (ca_certs st)) ∧
  ca_domains st' = ca_domains st ∧ ca_dns st' = ca_dns st ∧ ca_next st' = ca_next st.

#[export] Instance only_row_preorder id : PreOrder (only_row id).
Proof.
  split.
  - intros st. split; [|done]. exists (λ c, c). split; [done|]. rewrite <- (map_id (ca_certs st)) at 1. apply map_ext. intros c. by destruct (N.eqb _ _).
  - intros st1 st2 st3 [(f & Hf & Hc) (? & ? & ?)] [(g & Hg & Hc') (? & ? & ?)]. split; [|by split_and!; etrans]. exists (λ c, g (f c)). split.
    + intros c Hid. by apply Hg, Hf.
    + rewrite Hc', Hc, map_map. apply map_ext. intros c. destruct (N.eqb_spec (ce_ID c) id) as [He|Hne].
      * by rewrite (Hf c He), N.eqb_refl.
      * by rewrite (proj2 (N.eqb_neq _ _) Hne).
Qed.

(** The table of certificates is not read or written while names are obtained. *)
Definition same_rows (st st' : cert_admin) : Prop :=
  ca_certs st' = ca_certs st ∧ ca_domains st' = ca_domains st ∧ ca_dns st' = ca_dns st ∧ ca_next st' = ca_next st.

#[export] Instance same_rows_preorder : PreOrder same_rows.
Proof. split; [done|]. intros ??? (? & ? & ? & ?) (? & ? & ? & ?). split_and!; by etrans. Qed.

Lemma same_only_row id st st' : same_rows st st' → only_row id st st'.
Proof. intros (Hc & ? & ? & ?). split; [|done]. rewrite Hc. exact (proj1 (reflexivity (R := only_row id) st)). Qed.

Lemma only_row_update item st : only_row (ce_ID item) st (certificates_Update item st).
Proof. split; [|done]. by exists (λ _, item). Qed.

Lemma only_row_retry id failures next st : only_row id st (UpdateRetryState id failures next st).
Proof. split; [|done]. by exists (λ c, with_retry c failures next). Qed.

Lemma only_row_keeps id st st' c : only_row id st st' → ce_ID c ≠ id → c ∈ ca_certs st → c ∈ ca_certs st'.
Proof.
  intros [(f & _ & ->) _] Hne Hin. apply list_elem_of_fmap. exists c. split; [|done]. by rewrite (proj2 (N.eqb_neq _ _) Hne).
Qed.

Lemma only_row_ids id st st' : only_row id st st' → map ce_ID (ca_certs st') = map ce_ID (ca_certs st).
Proof.
  intros [(f & Hf & ->) _]. rewrite map_map. apply map_ext. intros c. destruct (N.eqb_spec (ce_ID c) id) as [He|]; [|done]. by rewrite Hf.
Qed.

#[export] Hint Resolve same_only_row only_row_update only_row_retry : portlyn.

Section sync.
Context `{PrimitivesLaws}.
Variable json_Unmarshal : string → option (gmap string string).
Variable X509KeyPair : string → string → option tlsCertificate.
Variable ParseCertificate : string → option x509Leaf.
Variable ManageSync : acme_config → list string → list DistributedKV → key_cache → option string * list DistributedKV * key_cache.
Variable IssuerKey : string → string.
Variable SiteCert SitePrivateKey SiteMeta : string → string → string.
Variable box_text : box_error → string.
Variable storage_text : storage_error → string.
Variable load_text : load_error → string.
Variable pem_text : string.
Variable cfg : Config.
Variable static : option x509Leaf.

Abbreviation tls_secrets := (normalized_secrets (DataEncryptionSecrets cfg)).
Abbreviation body := (sync_body json_Unmarshal X509KeyPair ParseCertificate ManageSync IssuerKey SiteCert SitePrivateKey SiteMeta box_text storage_text load_text pem_text cfg static).
Abbreviation sync := (SyncCertificate json_Unmarshal X509KeyPair ParseCertificate ManageSync IssuerKey SiteCert SitePrivateKey SiteMeta box_text storage_text load_text pem_text cfg static).
Abbreviation persist := (persistManagedCertificate X509KeyPair ParseCertificate SiteCert SitePrivateKey SiteMeta storage_text pem_text cfg).
Abbreviation config_for := (configForCertificate json_Unmarshal box_text cfg).
Abbreviation expiry := (lookupStoredCertificateExpiry X509KeyPair ParseCertificate load_text pem_text cfg).

Lemma config_same item st : same_rows st (config_for item st).2.
Proof.
  unfold configForCertificate. cbv zeta. destruct (String.eqb _ _); [|done]. destruct (ce_DNSProviderID item) as [[|id]|]; [done| |done].
  destruct (cert_provider st _); [|done]. by destruct (buildDNSProvider _ _ _ _ _).
Qed.

Lemma persist_same random key names : ∀ st, same_rows st (persist random key names st).2.
Proof.
  induction names as [|name names IH]; intros st; cbn [persistManagedCertificate]; [done|]. cbv zeta.
  destruct (storage_Load _ (SiteCert _ _) _ _) as [[?|?] ?]; [|done]. destruct (storage_Load _ (SitePrivateKey _ _) _ _) as [[?|?] ?]; [|done].
  destruct (storage_Load _ (SiteMeta _ _) _ _) as [? ?]. destruct (store_pem _ _ _ _ _ _ _ _ _ _) as [[] tls]; [|done].
  destruct (IH (set_tls st tls)) as (? & ? & ? & ?). by split_and!.
Qed.

Lemma expiry_same name st : same_rows st (expiry name st).2.
Proof. unfold lookupStoredCertificateExpiry. by destruct (LoadCertificate _ _ _ _ _ _). Qed.

Lemma save_only written item item0 message st0 st :
  same_rows st0 st → ce_ID item = ce_ID item0 → only_row (ce_ID item0) st0 (save_row written item message st).2.
Proof.
  intros Hs Hid. etrans; [by apply same_only_row|]. unfold save_row. destruct written; [|done]. rewrite <- Hid. etrans; [apply only_row_update|by apply same_only_row].
Qed.

(** The row the caller holds keeps its identifier, the failures counted so far and its names. *)
Lemma save_row_item written item message st : (save_row written item message st).1.2 = item.
Proof. unfold save_row. by destruct written. Qed.

Lemma body_item env item st :
  let item' := (body env item st).1.2 in
  ce_ID item' = ce_ID item ∧ ce_FailureCount item' = ce_FailureCount item ∧ ce_PrimaryDomain item' = ce_PrimaryDomain item ∧ ce_SANs item' = ce_SANs item.
Proof.
  unfold sync_body, save_failed. cbv zeta.
  repeat (case_match; try rewrite save_row_item; try done).
Qed.

Lemma body_only env item st : only_row (ce_ID item) st (body env item st).2.
Proof.
  unfold sync_body, save_failed. cbv zeta. destruct (if String.eqb _ _ then _ else _) as [name|]; [|done].
  destruct (negb (cf_ACMEEnabled cfg)); [destruct static; by apply save_only|].
  match goal with |- context [config_for ?i st] => pose proof (config_same i st) as Hc; destruct (config_for i st) as [[[conf names]|e] st1] end;
    cbn [snd] in Hc; [|by apply save_only].
  destruct (ManageSync conf names (ca_kv st1) (argon_keys (ca_tls st1))) as [[[e|] kv] keys]; [by apply save_only|].
  match goal with |- context [persist ?r ?k ?n ?s] =>
    assert (same_rows st (persist r k n s).2) as Hp by (etrans; [exact Hc|apply (persist_same r k n s)]); destruct (persist r k n s) as [[[]|e] st2] end;
    cbn [snd] in Hp; [|by apply save_only].
  match goal with |- context [expiry ?n ?s] =>
    assert (same_rows st (expiry n s).2) as He by (etrans; [exact Hp|apply expiry_same]); destruct (expiry n s) as [[t|e] st3] end; by apply save_only.
Qed.

Lemma sync_only env item st : only_row (ce_ID item) st (sync env item st).2.
Proof.
  unfold SyncCertificate. pose proof (body_only env item st) as Hb. pose proof (body_item env item st) as (Hid & _).
  destruct (body env item st) as [[ok item'] st1]. cbn [fst snd] in *. unfold recordRetryState. destruct (N.eqb (ce_ID item') 0); [done|].
  destruct (nextRetryState _ _ _). destruct (se_recorded env); [|done]. cbn [snd]. etrans; [exact Hb|]. rewrite Hid. apply only_row_retry.
Qed.

(** ** The worker *)

Variable order_by_expiry : list CertificateRow → list CertificateRow.
Hypothesis order_perm : ∀ l, order_by_expiry l ≡ₚ l.

Abbreviation all := (sync_all json_Unmarshal X509KeyPair ParseCertificate ManageSync IssuerKey SiteCert SitePrivateKey SiteMeta box_text storage_text load_text pem_text cfg static).
Abbreviation run := (runOnce json_Unmarshal X509KeyPair ParseCertificate ManageSync IssuerKey SiteCert SitePrivateKey SiteMeta box_text storage_text load_text pem_text cfg static order_by_expiry).

(** Runs of the worker, each with its time and what happens during its syncs. *)
Definition worker_runs (runs : list (Z * ((N → sync_env) * (N → sync_env)))) (st : cert_admin) : cert_admin :=
  foldl (λ st r, run r.1 r.2.1 r.2.2 st) st runs.

Lemma sync_all_keeps envs items c : ∀ st,
  (∀ item, item ∈ items → ce_ID item ≠ ce_ID c) → c ∈ ca_certs st →
  c ∈ ca_certs (all envs items st) ∧ map ce_ID (ca_certs (all envs items st)) = map ce_ID (ca_certs st).
Proof.
  induction items as [|item items IH]; intros st Hne Hin; [done|]. unfold sync_all. cbn [foldl]. fold (all envs items (sync (envs (ce_ID item)) item st).2).
  pose proof (sync_only (envs (ce_ID item)) item st) as Ho. destruct (IH (sync (envs (ce_ID item)) item st).2) as [Hc Hids].
  - intros x Hx. apply Hne. by right.
  - eapply only_row_keeps; [exact Ho| |done]. intros He. by apply (Hne item); [left|].
  - split; [done|]. rewrite Hids. by eapply only_row_ids.
Qed.

(** A query returns rows of the table with their domain: a row the condition leaves out is not among them, under any name. *)
Lemma left_out (sel : CertificateRow → bool) st c (l : list CertificateRow) :
  (∀ x name, sel (with_domain x name) = sel x) → NoDup (map ce_ID (ca_certs st)) → c ∈ ca_certs st → sel c = false →
  l ⊆ List.filter sel (certificates_List st) → ∀ item, item ∈ l → ce_ID item ≠ ce_ID c.
Proof.
  intros Hsel Hnd Hc Hout Hl item Hi He. apply Hl, list_elem_of_In, filter_In in Hi as [Hin Hs]. apply list_elem_of_In, list_elem_of_fmap in Hin as (r & -> & Hr).
  unfold joined_cert in Hs. rewrite Hsel in Hs. assert (r = c) as ->; [|congruence].
  apply list_elem_of_lookup in Hr as [i Hr], Hc as [j Hc]. assert (i = j) as ->; [|congruence].
  apply (NoDup_lookup _ i j (ce_ID r) Hnd); rewrite list_lookup_fmap; [by rewrite Hr|rewrite Hc; cbn in *; congruence].
Qed.

Lemma ListPending_selects now limit st : ListPending now limit st ⊆ List.filter (λ c, String.eqb (ce_Status c) CertificateStatusPending && due now c) (certificates_List st).
Proof. apply subseteq_take. Qed.

Lemma ListExpiring_selects before now st : ListExpiringBefore order_by_expiry before now st ⊆ List.filter (λ c, (ce_ExpiresAt c <=? before)%Z && due now c) (certificates_List st).
Proof. intros x Hx. unfold ListExpiringBefore in Hx. by rewrite (order_perm _) in Hx. Qed.

(** A run of the worker leaves the row of a certificate alone that is not pending and due, nor expiring and due. *)
Lemma run_leaves now pending expiring st c :
  NoDup (map ce_ID (ca_certs st)) → c ∈ ca_certs st → String.eqb (ce_Status c) CertificateStatusPending && due now c = false →
  (ce_ExpiresAt c <=? now + worker_renewWithin cfg)%Z && due now c = false →
  c ∈ ca_certs (run now pending expiring st) ∧ map ce_ID (ca_certs (run now pending expiring st)) = map ce_ID (ca_certs st).
Proof.
  intros Hnd Hc Hp He. unfold runOnce. cbv zeta. destruct (sync_all_keeps pending (ListPending now 32 st) c st) as [Hc1 Hids1]; [|done|].
  { apply (left_out (λ c, String.eqb (ce_Status c) CertificateStatusPending && due now c) st c); [done|done|done|done|apply ListPending_selects]. }
  set (st1 := all pending _ st) in *.
  destruct (sync_all_keeps expiring (List.filter ce_IsAutoRenew (ListExpiringBefore order_by_expiry (now + worker_renewWithin cfg) now st1)) c st1) as [Hc2 Hids2]; [|done|by rewrite Hids2].
  apply (left_out (λ c, (ce_ExpiresAt c <=? now + worker_renewWithin cfg)%Z && due now c) st1 c); [done|by rewrite Hids1|done|done|].
  intros x Hx. apply list_elem_of_In, filter_In in Hx as [Hx _]. apply list_elem_of_In in Hx. by apply ListExpiring_selects.
Qed.

Lemma run_keeps now pending expiring st c :
  NoDup (map ce_ID (ca_certs st)) → c ∈ ca_certs st → due now c = false →
  c ∈ ca_certs (run now pending expiring st) ∧ map ce_ID (ca_certs (run now pending expiring st)) = map ce_ID (ca_certs st).
Proof. intros Hnd Hc Hd. apply run_leaves; [done|done|by rewrite Hd, andb_false_r..]. Qed.

(** C38 A certificate that could not be obtained is left alone until its delay is over: after a failed sync whose retry state was recorded, runs of
    the worker before the next attempt, however many and whatever else they do, do not touch its row; after the first failure the next attempt is
    five minutes away, and every further one doubles that up to a day. A certificate that is synced by a request is not held back. *)
Theorem failed_certificate_backs_off env id item ok item' st st' runs :
  NoDup (map ce_ID (ca_certs st)) → certificates_GetByID st id = Some item → ce_ID item ≠ 0%N → se_recorded env = true →
  SyncCertificate json_Unmarshal X509KeyPair ParseCertificate ManageSync IssuerKey SiteCert SitePrivateKey SiteMeta box_text storage_text load_text pem_text cfg static
    env item st = (ok, item', st') →
  ce_Status item' = CertificateStatusFailed →
  let next := (se_later env + Z.min (5 * Minute * 2 ^ Z.max 0 (ce_FailureCount item)) (24 * Hour))%Z in
  Forall (λ r, (r.1 < next)%Z) runs →
  ∃ row, ce_ID row = ce_ID item ∧ ce_NextAttemptAt row = Some next ∧ ce_FailureCount row = (ce_FailureCount item + 1)%Z ∧
    row ∈ ca_certs st' ∧ row ∈ ca_certs (worker_runs runs st').
Proof.
  intros Hnd Hget Hid0 Hrec Hsync Hfailed. cbv zeta.
  replace (Z.min (5 * Minute * 2 ^ Z.max 0 (ce_FailureCount item)) (24 * Hour)) with (retryDelay (ce_FailureCount item + 1))
    by (rewrite retry_delay_doubles; do 3 f_equal; lia).
  set (next := (se_later env + retryDelay (ce_FailureCount item + 1))%Z). intros Hruns. pose proof (sync_only env item st) as Honly. rewrite Hsync in Honly. cbn [snd] in Honly.
  assert (NoDup (map ce_ID (ca_certs st'))) as Hnd' by by rewrite (only_row_ids _ _ _ Honly).
  unfold SyncCertificate in Hsync. pose proof (body_item env item st) as (Hid & Hfc & _). pose proof (body_only env item st) as Hbody.
  destruct (body env item st) as [[ok1 item1] st1]. cbn [fst snd] in Hid, Hfc, Hbody. unfold recordRetryState in Hsync.
  rewrite (proj2 (N.eqb_neq _ _)) in Hsync by (by rewrite Hid). unfold nextRetryState in Hsync.
  assert (ce_Status item1 = CertificateStatusFailed) as Hf1.
  { destruct (String.eqb_spec (ce_Status item1) CertificateStatusFailed) as [?|Hne]; [done|].
    destruct (_ && _); rewrite Hrec in Hsync; injection Hsync as _ <- _; done. }
  rewrite (proj2 (String.eqb_eq _ _) Hf1), Hrec in Hsync. injection Hsync as _ Hitem Hst. rewrite Hfc in Hst.
  unfold certificates_GetByID in Hget. destruct (List.find _ (ca_certs st)) as [c|] eqn:Hfind; [|done]. injection Hget as <-.
  apply find_some in Hfind as [Hin Hcid]. apply list_elem_of_In in Hin. change (ce_ID (joined_cert st c)) with (ce_ID c) in *.
  assert (∃ c1, c1 ∈ ca_certs st1 ∧ ce_ID c1 = ce_ID c) as (c1 & Hc1 & Hc1id).
  { assert (ce_ID c ∈ map ce_ID (ca_certs st1)) as Hm by (rewrite (only_row_ids _ _ _ Hbody); by apply list_elem_of_fmap_2).
    apply list_elem_of_fmap in Hm as (x & ? & ?). eauto. }
  set (row := with_retry c1 (ce_FailureCount (joined_cert st c) + 1) (Some next)).
  assert (row ∈ ca_certs st') as Hrow.
  { rewrite <- Hst. cbn [UpdateRetryState set_certs ca_certs]. apply list_elem_of_fmap. exists c1. split; [|done]. by rewrite Hc1id, Hid, N.eqb_refl. }
  exists row. split_and!; [done|done|done|done|]. clear -Hnd' Hruns Hrow order_perm. revert st' Hnd' Hrow.
  induction Hruns as [|r runs Hr _ IH]; intros st' Hnd Hrow; [done|]. unfold worker_runs. cbn [foldl].
  destruct (run_keeps r.1 r.2.1 r.2.2 st' row Hnd Hrow) as [Hk Hids]; [cbn; by apply Z.leb_gt|]. apply IH; [by rewrite Hids|done].
Qed.

(** An order whose names are changed keeps its status: the worker, which looks for what is pending or about to expire, does not obtain the new
    names before the old certificate is due. *)
Theorem renamed_certificate_waits now pending expiring id req c c' st st' :
  NoDup (map ce_ID (ca_certs st)) → certificates_GetByID st id = Some c → ce_Status c = CertificateStatusIssued → uc_ExpiresAt req = None →
  (now + worker_renewWithin cfg < ce_ExpiresAt c)%Z → handleUpdateCertificate true id req st = (Answer c', st') →
  ∃ row, row ∈ ca_certs st' ∧ names_of row = names_of c' ∧ ce_Status row = CertificateStatusIssued ∧ row ∈ ca_certs (run now pending expiring st').
Proof.
  intros Hnd Hget Hst Hexp Hlater. unfold handleUpdateCertificate. rewrite Hget. destruct (0 <? uc_DNSProviderConfig req)%nat; [done|].
  destruct (match uc_DomainID req with Some d => _ | None => false end); [done|]. cbv zeta.
  match goal with |- context [validateAndHydrateCertificate ?i st] => destruct (validateAndHydrateCertificate i st) as [item|e] eqn:Hv; [|by destruct e] end.
  assert (ce_ID item = ce_ID c ∧ ce_Status item = CertificateStatusIssued ∧ ce_ExpiresAt item = ce_ExpiresAt c) as (Hid & Hs & He).
  { destruct (validate_keeps _ _ _ Hv) as (? & Hx & Hs). cbn in Hs. rewrite Hst in Hs. cbn in Hx. rewrite Hexp in Hx. split_and!; [done|apply Hs; discriminate|done]. }
  set (row := with_retry item 0 None). unfold certificates_GetByID in Hget. destruct (List.find _ (ca_certs st)) as [r|] eqn:Hf; [|done]. injection Hget as <-.
  apply find_some in Hf as [Hin Hrid]. apply list_elem_of_In in Hin. apply N.eqb_eq in Hrid. change (ce_ID (joined_cert st r)) with (ce_ID r) in Hid.
  assert (row ∈ ca_certs (certificates_Update row st)) as Hrow.
  { cbn. apply list_elem_of_fmap. exists r. split; [|done]. change (ce_ID row) with (ce_ID item). by rewrite Hid, N.eqb_refl. }
  assert (map ce_ID (ca_certs (certificates_Update row st)) = map ce_ID (ca_certs st)) as Hids by apply (only_row_ids _ _ _ (only_row_update row st)).
  unfold reloaded. destruct (certificates_GetByID (certificates_Update row st) (ce_ID item)) as [x|] eqn:Hx; [|done]. intros [= <- <-]. exists row.
  assert (names_of row = names_of x) as Hnames.
  { unfold certificates_GetByID in Hx. destruct (List.find _ (ca_certs (certificates_Update row st))) as [y|] eqn:Hy; [|done]. injection Hx as <-.
    cbn [certificates_Update set_certs ca_certs] in Hy. apply find_some in Hy as [Hy Hyid]. apply in_map_iff in Hy as (z & <- & _). apply N.eqb_eq in Hyid.
    destruct (N.eqb_spec (ce_ID z) (ce_ID row)) as [_|Hne]; [done|]. by destruct Hne. }
  split_and!; [done|done|done|]. apply run_leaves; [by rewrite Hids|done|by cbn; rewrite Hs|]. cbn [row with_retry ce_ExpiresAt]. by rewrite He, (proj2 (Z.leb_gt _ _) Hlater).
Qed.

(** ** What is said to be issued is stored *)

Definition of_domain (name : string) (r : StoredTLSCertificate) : bool := String.eqb (tc_Domain r) name.

(** The table holds a key pair for the name that was accepted when it was stored, with the end of its validity; and unless the key itself looks
    sealed, it is what a handshake loads. *)
Definition holds_pair (tls : cert_state) (name : string) : Prop :=
  ∃ row keyPEM loaded der chain leaf,
    List.find (of_domain (normalizeDomain name)) (tls_rows tls) = Some row ∧ X509KeyPair (tc_Certificate row) keyPEM = Some loaded ∧
    tl_Certificate loaded = der :: chain ∧ ParseCertificate der = Some leaf ∧ tc_NotAfter row = lf_NotAfter leaf ∧
    (IsEncryptedValue keyPEM = false → stored X509KeyPair ParseCertificate tls_secrets tls name = Ok (with_leaf ParseCertificate loaded)).

Lemma find_after_replace {A} (p : A → bool) l x : p x = true → List.find p (List.filter (λ r, negb (p r)) l ++ [x]) = Some x.
Proof. intros Hx. induction l as [|a l IH]; cbn; [by rewrite Hx|]. destruct (p a) eqn:Ha; cbn; [done|]. by rewrite Ha. Qed.

Lemma find_replaced_other name name' (row : StoredTLSCertificate) l :
  name ≠ name' → tc_Domain row = name → List.find (of_domain name') (List.filter (λ r, negb (of_domain name r)) l ++ [row]) = List.find (of_domain name') l.
Proof.
  intros Hne Hd. rewrite find_last by (unfold of_domain; rewrite Hd; by apply String.eqb_neq). apply find_filtered.
  intros r Hr%String.eqb_eq. unfold of_domain. rewrite Hr. by apply negb_true_iff, String.eqb_neq.
Qed.

Abbreviation stored_in := (stored X509KeyPair ParseCertificate tls_secrets).

(** What a handshake loads, by the row of the name. *)
Lemma stored_found tls name row :
  List.find (of_domain (normalizeDomain name)) (tls_rows tls) = Some row →
  stored_in tls name =
  match (if IsEncryptedValue (tc_PrivateKey row) then (DecryptStringAuto tls_secrets (tc_PrivateKey row) no_keys).1 else Ok (tc_PrivateKey row)) with
  | Err _ => Err ErrLoad
  | Ok key => match X509KeyPair (tc_Certificate row) key with None => Err ErrLoad | Some loaded => Ok (with_leaf ParseCertificate loaded) end
  end.
Proof.
  unfold of_domain, stored, LoadCertificate. intros ->. destruct (IsEncryptedValue _); [destruct (DecryptStringAuto _ _ _) as [[?|?] ?]|]; cbn; try done; by destruct (X509KeyPair _ _).
Qed.

Lemma stored_same tls tls' name :
  List.find (of_domain (normalizeDomain name)) (tls_rows tls') = List.find (of_domain (normalizeDomain name)) (tls_rows tls) → stored_in tls' name = stored_in tls name.
Proof. unfold of_domain, stored, LoadCertificate. by intros ->. Qed.

Lemma holds_rows tls tls' name : tls_rows tls' = tls_rows tls → holds_pair tls name → holds_pair tls' name.
Proof. intros Hr. unfold holds_pair, stored. by rewrite Hr. Qed.

Lemma store_pem_holds name issuer certPEM keyPEM metadata random tls tls' :
  random_ok random.1 random.2 → cache_ok (argon_keys tls) →
  store_pem X509KeyPair ParseCertificate cfg name issuer certPEM keyPEM metadata random tls = (true, tls') →
  holds_pair tls' name ∧ (∀ other, holds_pair tls other → holds_pair tls' other) ∧ cache_ok (argon_keys tls').
Proof.
  intros Hrand Hkeys. unfold store_pem, StorePEM. pose proof (seal_ok _ keyPEM _ _ _ Hrand Hkeys : cache_ok (seal_key tls_secrets keyPEM _ _ _).2) as Hok.
  pose proof (λ Hp, seal_key_opens (DataEncryptionSecrets cfg) keyPEM _ _ _ no_keys Hrand Hp Hkeys cache_empty_ok) as Hopen.
  destruct (seal_key tls_secrets keyPEM random.1 random.2 (argon_keys tls)) as [storedKey keys]. cbn [snd fst] in Hok, Hopen. cbv zeta.
  destruct (X509KeyPair certPEM keyPEM) as [loaded|] eqn:Hx; [|done]. destruct (tl_Certificate loaded) as [|der chain] eqn:Hc; [done|].
  destruct (ParseCertificate der) as [leaf|] eqn:Hl; [|done]. intros [= <-].
  set (row := {| tc_ID := next_row tls; tc_Domain := normalizeDomain name; tc_IssuerKey := issuer; tc_Certificate := certPEM; tc_PrivateKey := storedKey;
                 tc_MetadataJSON := metadata; tc_NotBefore := lf_NotBefore leaf; tc_NotAfter := lf_NotAfter leaf |}).
  assert (∀ n, normalizeDomain n = normalizeDomain name →
    holds_pair (Forget (normalizeDomain name) (invalidate_locked (normalizeDomain name) (with_table tls
      (List.filter (λ r, negb (of_domain (normalizeDomain name) r)) (tls_rows tls) ++ [row]) (next_row tls + 1) keys))) n) as Hhere.
  { intros n Hn. exists row, keyPEM, loaded, der, chain, leaf. cbn [Forget invalidate_locked with_cache with_calls with_table tls_rows]. rewrite Hn.
    assert (List.find (of_domain (normalizeDomain name)) (List.filter (λ r, negb (of_domain (normalizeDomain name) r)) (tls_rows tls) ++ [row]) = Some row) as Hfind
      by (apply find_after_replace; apply String.eqb_refl).
    split_and!; try done. intros Hp. rewrite (stored_found _ n row) by (cbn [Forget invalidate_locked with_cache with_calls with_table tls_rows]; by rewrite Hn).
    cbn [tc_PrivateKey tc_Certificate row]. rewrite (Hopen Hp). by rewrite Hx. }
  split_and!; [by apply Hhere| |done]. intros other Hother. destruct (decide (normalizeDomain other = normalizeDomain name)) as [He|Hne]; [by apply Hhere|].
  destruct Hother as (r & k & ld & d & ch & lf & Hf & ? & ? & ? & ? & Hload). exists r, k, ld, d, ch, lf.
  cbn [Forget invalidate_locked with_cache with_calls with_table tls_rows].
  assert (List.find (of_domain (normalizeDomain other)) (List.filter (λ r, negb (of_domain (normalizeDomain name) r)) (tls_rows tls) ++ [row]) =
    List.find (of_domain (normalizeDomain other)) (tls_rows tls)) as Hsame by (apply find_replaced_other; [congruence|done]).
  split_and!; try done; [by etrans|]. intros Hp. rewrite <- (Hload Hp). by apply stored_same.
Qed.

Lemma storage_Load_ok key rows c : cache_ok c → cache_ok (storage_Load tls_secrets key rows c).2.
Proof.
  intros Hc. unfold storage_Load. destruct (List.find _ _) as [item|]; [|done]. destruct (_ && _); [|done].
  destruct (DecryptStringAuto_keys tls_secrets (kv_Value item) c c Hc Hc) as [_ Hok]. by destruct (DecryptStringAuto _ _ c) as [[?|?] ?].
Qed.

Lemma persist_holds random key names : (∀ name, random_ok (random name).1 (random name).2) → ∀ st st',
  cache_ok (argon_keys (ca_tls st)) → persist random key names st = (Ok tt, st') →
  (∀ name, name ∈ names → holds_pair (ca_tls st') name) ∧ (∀ name, holds_pair (ca_tls st) name → holds_pair (ca_tls st') name) ∧ cache_ok (argon_keys (ca_tls st')).
Proof.
  intros Hrand. induction names as [|name names IH]; intros st st' Hk; cbn [persistManagedCertificate].
  { intros [= <-]. split_and!; [by intros ? ?%not_elem_of_nil|done|done]. }
  cbv zeta. pose proof (storage_Load_ok (SiteCert key (normalizeDomain name)) (ca_kv st) _ Hk) as Hk1.
  destruct (storage_Load _ (SiteCert _ _) _ _) as [[certPEM|?] k1]; [|done]. cbn [snd] in Hk1.
  pose proof (storage_Load_ok (SitePrivateKey key (normalizeDomain name)) (ca_kv st) _ Hk1) as Hk2.
  destruct (storage_Load _ (SitePrivateKey _ _) _ _) as [[keyPEM|?] k2]; [|done]. cbn [snd] in Hk2.
  pose proof (storage_Load_ok (SiteMeta key (normalizeDomain name)) (ca_kv st) _ Hk2) as Hk3.
  destruct (storage_Load _ (SiteMeta _ _) _ _) as [meta k3]. cbn [snd] in Hk3.
  destruct (store_pem _ _ _ _ _ _ _ _ _ _) as [[] tls] eqn:Hs; [|done].
  destruct (store_pem_holds _ _ _ _ _ _ (with_argon (ca_tls st) k3) _ (Hrand _) Hk3 Hs) as (Hhere & Hkeep & Hk4). intros Hp.
  destruct (IH (set_tls st tls) st' Hk4 Hp) as (Hall & Hrest & Hk5).
  assert (∀ n, holds_pair tls n → holds_pair (ca_tls st') n) as Hlater by exact Hrest.
  split_and!; [|intros n Hn; apply Hlater, Hkeep; by eapply holds_rows|done].
  intros n [->|Hn]%elem_of_cons; [|by apply Hall]. apply Hlater. destruct Hhere as (r & Hr). exists r. unfold stored, LoadCertificate in *. by rewrite normalizeDomain_normal in Hr.
Qed.

(** ** Deletion *)

Lemma filter_true {A} (l : list A) : List.filter (λ _, true) l = l.
Proof. induction l as [|x l IH]; cbn; [done|]. by rewrite IH. Qed.

Lemma filter_twice {A} (p q : A → bool) l : List.filter p (List.filter q l) = List.filter (λ x, q x && p x) l.
Proof. induction l as [|x l IH]; cbn; [done|]. destruct (q x); cbn; by rewrite IH. Qed.

Section purge.
Variable fold : bool.
Variable order_by_key : list DistributedKV → list DistributedKV.
Abbreviation purge := (PurgeCertificateData fold order_by_key).

Definition purged (names : list string) (r : StoredTLSCertificate) : bool :=
  existsb (λ raw, non_empty (normalizeDomain raw) && of_domain (normalizeDomain raw) r) names.

Lemma purge_rows names : ∀ st, tls_rows (ca_tls (purge names st)) = List.filter (λ r, negb (purged names r)) (tls_rows (ca_tls st)) ∧ ca_certs (purge names st) = ca_certs st.
Proof.
  induction names as [|raw names IH]; intros st; cbn [PurgeCertificateData].
  { split; [|done]. symmetry. apply filter_true. }
  cbv zeta. destruct (String.eqb_spec (normalizeDomain raw) "") as [He|Hne].
  { destruct (IH st) as [-> ->]. split; [|done]. apply filter_ext. intros r. unfold purged. cbn [existsb]. by rewrite He. }
  match goal with |- context [purge names ?s] => destruct (IH s) as [-> ->] end. split; [|done].
  cbn [ca_tls set_kv set_tls Forget invalidate_locked with_cache with_calls DeleteCertificate with_table tls_rows].
  rewrite filter_twice. apply filter_ext. intros r. unfold purged. cbn [existsb]. rewrite (proj2 (non_empty_true _) Hne), normalizeDomain_normal.
  unfold of_domain. by rewrite negb_orb.
Qed.

(** Deleting an order removes what is stored for its names, so that no handshake loads it any more; nothing else that is stored changes. The other
    orders stay as they are, also those that share a name. *)
Theorem deleted_certificate_purged id item st st' :
  certificates_GetByID st id = Some item → handleDeleteCertificate fold order_by_key id st = (Answer tt, st') →
  (∀ name, name ∈ certificateDomainNames item → stored_in (ca_tls st') name = Err ErrRecordNotFound) ∧
  (∀ name, normalizeDomain name ∉ map normalizeDomain (certificateDomainNames item) → stored_in (ca_tls st') name = stored_in (ca_tls st) name) ∧
  (∀ c, c ∈ ca_certs st → ce_ID c ≠ id → c ∈ ca_certs st').
Proof.
  intros Hget. unfold handleDeleteCertificate. rewrite Hget. unfold certificates_Delete. destruct (existsb _ _); [|done]. intros [= <-].
  set (names := certificateDomainNames item). match goal with |- context [purge names ?s] => destruct (purge_rows names s) as [Hrows Hcerts] end.
  cbn [ca_tls set_certs ca_certs] in Hrows, Hcerts. assert (∀ name, name ∈ names → normalizeDomain name ≠ "") as Hne.
  { intros name Hname. unfold names, certificateDomainNames in Hname. intros He. apply (proj1 (ToLower_empty _)) in He.
    assert (TrimSpace name ≠ "") as Ht; [|by apply Ht]. apply elem_of_app in Hname as [Hn|Hn].
    - destruct (non_empty (TrimSpace (ce_PrimaryDomain item))) eqn:Hp; [|destruct (non_empty (TrimSpace (ce_Domain item))) eqn:Hd; [|by apply not_elem_of_nil in Hn]];
        apply list_elem_of_singleton in Hn as ->; rewrite TrimSpace_idem; by apply non_empty_true.
    - apply list_elem_of_In, filter_In in Hn as [Hn Hx]. apply in_map_iff in Hn as (y & <- & _). rewrite TrimSpace_idem. by apply non_empty_true. }
  split_and!.
  - intros name Hname. unfold stored, LoadCertificate. rewrite Hrows. destruct (List.find _ _) as [r|] eqn:Hf; [|done]. exfalso.
    apply find_some in Hf as [Hin Hd]. apply filter_In in Hin as [_ Hp]. apply negb_true_iff in Hp. unfold purged in Hp.
    rewrite existsb_false_elem in Hp. specialize (Hp name Hname). rewrite (proj2 (non_empty_true _) (Hne name Hname)) in Hp. cbn [andb] in Hp.
    unfold of_domain in Hp. congruence.
  - intros name Hname. apply stored_same. rewrite Hrows. apply find_filtered. intros r Hr%String.eqb_eq. apply negb_true_iff, existsb_false_elem. intros raw Hraw.
    apply andb_false_iff. right. unfold of_domain. rewrite Hr. apply String.eqb_neq. intros He. apply Hname. apply list_elem_of_fmap. eauto.
  - intros c Hc Hid. rewrite Hcerts. apply list_elem_of_In, filter_In. split; [by apply list_elem_of_In|]. by apply negb_true_iff, N.eqb_neq.
Qed.
End purge.

(** certmagic derives keys through the storage only. *)
Hypothesis ManageSync_keys : ∀ conf names kv keys, cache_ok keys → cache_ok (ManageSync conf names kv keys).2.

Lemma config_keys item st : cache_ok (argon_keys (ca_tls st)) → cache_ok (argon_keys (ca_tls (config_for item st).2)).
Proof.
  intros Hk. unfold configForCertificate. cbv zeta. destruct (String.eqb _ _); [|done]. destruct (ce_DNSProviderID item) as [[|id]|]; [done| |done].
  destruct (cert_provider st _) as [p|]; [|done]. unfold buildDNSProvider.
  match goal with |- context [DecryptJSONAuto _ ?l ?v ?c] => pose proof (proj2 (DecryptJSONAuto_keys json_Unmarshal l v c Hk)) as Hok; by destruct (DecryptJSONAuto _ l v c) end.
Qed.

(** A branch that saves a failure does not end in another status. *)
Ltac sync_failed env := destruct (se_written env); [intros Hf; injection Hf as <- _; by cbn|done].

(** The only way to a certificate that did not fail. *)
Lemma body_issued env item st item' st' :
  cf_ACMEEnabled cfg = true → cache_ok (argon_keys (ca_tls st)) → (∀ name, random_ok (se_random env name).1 (se_random env name).2) →
  body env item st = (true, item', st') → ce_Status item' ≠ CertificateStatusFailed →
  (∀ name, name ∈ certificateNames item' → holds_pair (ca_tls st') name) ∧ ce_Status item' = derivedCertificateStatus item' (se_now env) ∧ ce_LastError item' = "" ∧
  ∃ cert, stored_in (ca_tls st') (firstCertificateName item') = Ok cert ∧ ∀ leaf, tl_Leaf cert = Some leaf → ce_ExpiresAt item' = lf_NotAfter leaf.
Proof.
  intros Hacme Hk Hrand. unfold sync_body, save_failed, save_row. cbv zeta. destruct (if String.eqb _ _ then _ else _) as [name|]; [|done]. rewrite Hacme. cbn [negb].
  match goal with |- context [config_for ?i st] => set (item0 := i); pose proof (config_keys item0 st Hk) as Hk1; destruct (config_for item0 st) as [[[conf names]|e] st1] end.
  2: { sync_failed env. }
  cbn [snd] in Hk1. pose proof (ManageSync_keys conf names (ca_kv st1) _ Hk1) as Hk2.
  destruct (ManageSync conf names (ca_kv st1) (argon_keys (ca_tls st1))) as [[[e|] kv] keys]; [sync_failed env|].
  cbn [snd] in Hk2. match goal with |- context [persist ?r ?k ?n ?s] => destruct (persist r k n s) as [[[]|e] st2] eqn:Hp end.
  2: { sync_failed env. }
  apply persist_holds in Hp as (Hall & _ & Hk3); [|done|done]. unfold lookupStoredCertificateExpiry.
  destruct (LoadCertificate_keys X509KeyPair ParseCertificate (DataEncryptionSecrets cfg) (tls_rows (ca_tls st2)) (firstCertificateName item0) (argon_keys (ca_tls st2)) Hk3) as [Hload _].
  destruct (LoadCertificate _ _ _ _ _ _) as [loaded k4]. cbn [fst] in Hload.
  match goal with |- context [match ?m with Ok _ => _ | Err _ => _ end] => destruct m as [expiresAt|e] eqn:Hexp end.
  2: { sync_failed env. }
  destruct (se_written env); [|done]. intros [= <- <-] _. split_and!; [exact Hall|done|done|].
  destruct loaded as [cert|]; [|done]. exists cert. split; [exact (eq_sym Hload)|]. intros leaf Hl. cbn in Hexp |- *. rewrite Hl in Hexp. by injection Hexp as ->.
Qed.

(** A certificate that is said to be issued is stored: when a sync through ACME ends and the status is not failed, the table holds an accepted
    key pair for every name, handshakes for the first name load it, its end is the one the row shows, and the row says that it
    expires soon exactly when the renewal window has begun. *)
Theorem issued_certificate_stored env item st item' st' :
  cf_ACMEEnabled cfg = true → cache_ok (argon_keys (ca_tls st)) → (∀ name, random_ok (se_random env name).1 (se_random env name).2) →
  sync env item st = (true, item', st') → ce_Status item' ≠ CertificateStatusFailed →
  (∀ name, name ∈ certificateNames item' → holds_pair (ca_tls st') name) ∧
  (∃ cert, stored_in (ca_tls st') (firstCertificateName item') = Ok cert ∧ ∀ leaf, tl_Leaf cert = Some leaf → ce_ExpiresAt item' = lf_NotAfter leaf) ∧
  (ce_Status item' = CertificateStatusExpiringSoon ↔
    ce_ExpiresAt item' ≠ no_time ∧ (ce_ExpiresAt item' - ce_RenewalWindowDays item' * 24 * Hour ≤ se_now env)%Z).
Proof.
  intros Hacme Hk Hrand Hsync Hst. unfold SyncCertificate in Hsync. destruct (body env item st) as [[ok item1] st1] eqn:Hbody.
  assert (∃ failures next, (item', ca_tls st') = (with_retry item1 failures next, ca_tls st1) ∨ (item', ca_tls st') = (item1, ca_tls st1)) as (failures & next & Hitem).
  { unfold recordRetryState in Hsync. destruct (N.eqb _ 0); [injection Hsync as _ <- <-; exists 0%Z, None; by right|]. destruct (nextRetryState _ _ _) as [f n].
    exists f, n. destruct (se_recorded env); injection Hsync as _ <- <-; [by left|by right]. }
  assert (ok = true) as -> by (destruct (recordRetryState _ _ _ _); congruence).
  assert (ce_Status item1 ≠ CertificateStatusFailed) as Hst1 by (destruct Hitem as [[= -> _]|[= -> _]]; done).
  destruct (body_issued env item st item1 st1 Hacme Hk Hrand Hbody Hst1) as (Hall & Hstatus & Herr & Hcert).
  assert (ce_Status item1 = CertificateStatusExpiringSoon ↔
    ce_ExpiresAt item1 ≠ no_time ∧ (ce_ExpiresAt item1 - ce_RenewalWindowDays item1 * 24 * Hour ≤ se_now env)%Z) as Hiff.
  { rewrite Hstatus. unfold derivedCertificateStatus. rewrite Herr. cbn [non_empty TrimSpace]. change (non_empty (TrimSpace "")) with false. cbn iota.
    destruct (Z.eqb_spec (ce_ExpiresAt item1) no_time); cbn [negb andb]; [split; [done|by intros []]|].
    destruct (Z.leb_spec (ce_ExpiresAt item1 - ce_RenewalWindowDays item1 * 24 * Hour) (se_now env)); split; try done. intros []. lia. }
  destruct Hitem as [[= -> ->]|[= -> ->]]; by split_and!.
Qed.
End sync.

(** * A sync that succeeds, and one that fails *)

Definition sample_row_of (key value : string) : DistributedKV := {| kv_Bucket := "certmagic"; kv_Key := key; kv_Value := value; kv_ModifiedAt := 0 |}.
Definition sample_site (suffix issuer name : string) : string := "certificates/" +:+ issuer +:+ "/" +:+ name +:+ "/" +:+ name +:+ suffix.
(** certmagic obtains every name, or none. *)
Definition sample_manage (works : bool) (conf : acme_config) (names : list string) (kv : list DistributedKV) (keys : key_cache)
  : option string * list DistributedKV * key_cache :=
  if works then (None, kv ++ flat_map (λ n, [sample_row_of (sample_site ".crt" "acme" n) ("cert-" +:+ n); sample_row_of (sample_site ".key" "acme" n) ("key-" +:+ n)]) names, keys)
  else (Some "rate limited", kv, keys).
Definition sample_certificate : CertificateRow :=
  {| ce_ID := 1; ce_DomainID := 1; ce_Domain := ""; ce_PrimaryDomain := "app.example.com"; ce_Type := "multi_san"; ce_Status := "pending"; ce_LastError := "";
     ce_ChallengeType := "http-01"; ce_Issuer := "letsencrypt_prod"; ce_IssuedAt := None; ce_ExpiresAt := no_time; ce_LastCheckedAt := None; ce_NextRenewalAt := None;
     ce_RenewalWindowDays := 30; ce_IsAutoRenew := true; ce_FailureCount := 2; ce_NextAttemptAt := None; ce_DNSProviderID := None; ce_SANs := ["www.example.com"] |}.
Definition sample_issuing : cert_admin :=
  {| ca_certs := [sample_certificate]; ca_next := 2; ca_domains := [sample_cert_domain]; ca_dns := []; ca_tls := cert_start [] 1; ca_kv := []; ca_lastError := "" |}.
Definition sample_sync_env : sync_env :=
  {| se_now := 0; se_later := Second; se_written := true; se_recorded := true; se_random := λ _, ("0123456789abcdef", "nonce-nonce-") |}.
Abbreviation sample_sync works := (SyncCertificate sample_unmarshal sample_pair sample_leaf (sample_manage works) (λ _, "acme") (sample_site ".crt") (sample_site ".key")
  (sample_site ".json") (λ _, "sealed") (λ _, "missing") (λ _, "not loaded") "bad pem" sample_acme_cfg None).
Definition sample_loaded : CertificateRow := with_domain sample_certificate "example.com".

Lemma issued_certificate_stored_witness :
  ∃ item' st', sample_sync true sample_sync_env sample_loaded sample_issuing = (true, item', st') ∧ ce_Status item' = CertificateStatusExpiringSoon ∧
    stored sample_pair sample_leaf (normalized_secrets (DataEncryptionSecrets sample_acme_cfg)) (ca_tls st') "www.example.com" =
      Ok (with_leaf sample_leaf {| tl_Certificate := ["cert-www.example.com"]; tl_PrivateKey := "key-www.example.com"; tl_Leaf := None |}) ∧
    ∃ cert, stored sample_pair sample_leaf (normalized_secrets (DataEncryptionSecrets sample_acme_cfg)) (ca_tls st') (firstCertificateName item') = Ok cert.
Proof.
  destruct (sample_sync true sample_sync_env sample_loaded sample_issuing) as [[ok item'] st'] eqn:Hs.
  assert (ok = true ∧ ce_Status item' = CertificateStatusExpiringSoon) as [-> Hstatus].
  { change ok with (ok, item', st').1.1. change item' with (ok, item', st').1.2 at 2. rewrite <- Hs. vm_compute. split; reflexivity. }
  destruct (issued_certificate_stored sample_unmarshal sample_pair sample_leaf (sample_manage true) (λ _, "acme") (sample_site ".crt") (sample_site ".key")
    (sample_site ".json") (λ _, "sealed") (λ _, "missing") (λ _, "not loaded") "bad pem" sample_acme_cfg None (λ _ _ _ _ H, H)
    sample_sync_env sample_loaded sample_issuing item' st') as (_ & (cert & Hcert & _) & _);
    [vm_compute; reflexivity|apply cache_empty_ok|intros; split; reflexivity|exact Hs|rewrite Hstatus; discriminate|].
  exists item', st'. split_and!; [reflexivity|exact Hstatus| |eauto].
  change st' with (true, item', st').2. rewrite <- Hs. vm_compute. reflexivity.
Defined.

Lemma failed_certificate_backs_off_witness :
  ∃ item' st', sample_sync false sample_sync_env sample_loaded sample_issuing = (true, item', st') ∧
    ∃ row, ce_NextAttemptAt row = Some (Second + 20 * Minute)%Z ∧
      row ∈ ca_certs (runOnce sample_unmarshal sample_pair sample_leaf (sample_manage true) (λ _, "acme") (sample_site ".crt") (sample_site ".key")
        (sample_site ".json") (λ _, "sealed") (λ _, "missing") (λ _, "not loaded") "bad pem" sample_acme_cfg None (λ l, l) (19 * Minute) (λ _, sample_sync_env) (λ _, sample_sync_env) st').
Proof.
  destruct (sample_sync false sample_sync_env sample_loaded sample_issuing) as [[ok item'] st'] eqn:Hs.
  assert (ok = true ∧ ce_Status item' = CertificateStatusFailed) as [-> Hstatus].
  { change ok with (ok, item', st').1.1. change item' with (ok, item', st').1.2 at 2. rewrite <- Hs. vm_compute. split; reflexivity. }
  exists item', st'. split; [reflexivity|].
  destruct (failed_certificate_backs_off sample_unmarshal sample_pair sample_leaf (sample_manage false) (λ _, "acme") (sample_site ".crt") (sample_site ".key")
    (sample_site ".json") (λ _, "sealed") (λ _, "missing") (λ _, "not loaded") "bad pem" sample_acme_cfg None (λ l, l) (λ l, Permutation_refl l)
    sample_sync_env 1 sample_loaded true item' sample_issuing st' []) as (row & _ & Hnext & _ & Hrow & _);
    [apply NoDup_singleton|vm_compute; reflexivity|discriminate|reflexivity|exact Hs|exact Hstatus|constructor|].
  exists row. assert (ce_NextAttemptAt row = Some (Second + 20 * Minute)%Z) as Hn by (rewrite Hnext; vm_compute; reflexivity). split; [exact Hn|].
  assert (NoDup (map ce_ID (ca_certs st'))) as Hnd by (change st' with (true, item', st').2; rewrite <- Hs; vm_compute; apply NoDup_singleton).
  apply (run_keeps sample_unmarshal sample_pair sample_leaf (sample_manage true) (λ _, "acme") (sample_site ".crt") (sample_site ".key")
    (sample_site ".json") (λ _, "sealed") (λ _, "missing") (λ _, "not loaded") "bad pem" sample_acme_cfg None (λ l, l) (λ l, Permutation_refl l)); [exact Hnd|exact Hrow|].
  unfold due. rewrite Hn. reflexivity.
Defined.
