(* ===== verification/Handshake.v ===== *)
(** The certificate of a handshake: [GetCertificate], the self-signed certificates it falls back to and [Status] (internal/acme/manager.go,
    selfsigned.go).

    A handshake asks the store for the name and for the wildcard of its parent, then certmagic, then takes the certificate loaded from files, and
    at last signs one for itself. What the store and certmagic answer in time are arguments; CertStore.v says what the store answers. Creating a
    certificate is a parameter. The cache of self-signed certificates is shared by the handshakes, which release its lock while they sign. *)
From S2P Require Import Prelude GoStrings Netip Netguard Domain Hosts SecretBox Routing Config CertStore CertStorage DnsProviders Certificates CertIssuance.

#[local] Open Scope string_scope.
#[local] Open Scope list_scope.

Definition selfSignedRenewBefore : Z := Hour.
Definition maxSelfSignedCacheEntries : nat := 256.

(** [hello.Conn.LocalAddr().String()], when there is a connection. *)
Record ClientHello := { ch_ServerName : string; ch_LocalAddr : option string }.

Record x509Template := { xt_CommonName : string; xt_NotBefore : Z; xt_NotAfter : Z; xt_IPAddresses : list string; xt_DNSNames : list string }.

Definition wildcardDomainForHost (host : string) : string :=
  let normalized := normalizeDomain host in
  if String.eqb normalized "" || HasPrefix normalized "*." then ""
  else
    let labels := Split normalized "." in
    if (length labels <? 3)%nat then "" else "*." +:+ Join (drop 1 labels) ".".

Definition selfSignedCertFresh (cert : tlsCertificate) (now : Z) : bool :=
  match tl_Leaf cert with Some leaf => (now <? lf_NotAfter leaf - selfSignedRenewBefore)%Z | None => false end.

Definition localIPFromHello (hello : ClientHello) : string :=
  match ch_LocalAddr hello with
  | None => ""
  | Some address =>
      match SplitHostPort address with
      | None => ""
      | Some (host, _) =>
          match ParseAddr host with
          | None => ""
          | Some addr => if IsLoopback addr || IsUnspecified addr then "" else host
          end
      end
  end.

Abbreviation boot_cache := (gmap string tlsCertificate).

Section handshake.
Variable ParseCertificate : string → option x509Leaf.
(** A key, a serial number and a signature, all of fresh random bytes, and [net.ParseIP]. *)
Variable CreateCertificate : string → x509Template → option (string * string).
Variable is_ip : string → bool.
(** [url.Parse] with [Hostname]. *)
Variable url_host : string → option string.

Definition generateSelfSignedCert (now : Z) (random : string) (hostname : string) : option tlsCertificate :=
  let notBefore := (now - Hour)%Z in
  let tmpl := {| xt_CommonName := hostname; xt_NotBefore := notBefore; xt_NotAfter := (notBefore + 24 * Hour)%Z;
                 xt_IPAddresses := if is_ip hostname then [hostname] else [];
                 xt_DNSNames := if is_ip hostname then [] else if non_empty hostname then [hostname] else [] |} in
  '(der, priv) ← CreateCertificate random tmpl;
  leaf ← ParseCertificate der;
  Some {| tl_Certificate := [der]; tl_PrivateKey := priv; tl_Leaf := Some leaf |}.

(** ** The cache of self-signed certificates *)

(** Under the read lock. *)
Definition boot_lookup (now : Z) (hostname : string) (cache : boot_cache) : option tlsCertificate :=
  match cache !! hostname with Some cert => if selfSignedCertFresh cert now then Some cert else None | None => None end.
(** Under the write lock, after signing. *)
Definition boot_store (now : Z) (hostname : string) (cert : tlsCertificate) (cache : boot_cache) : tlsCertificate * boot_cache :=
  match boot_lookup now hostname cache with
  | Some existing => (existing, cache)
  | None => (cert, <[hostname := cert]> (if (maxSelfSignedCacheEntries <=? size cache)%nat then ∅ else cache))
  end.
(** With nobody in between; [now] is read at the start and [signed] while signing. *)
Definition bootstrapCertFor (now signed : Z) (random hostname : string) (cache : boot_cache) : option tlsCertificate * boot_cache :=
  match boot_lookup now hostname cache with
  | Some cert => (Some cert, cache)
  | None =>
      match generateSelfSignedCert signed random hostname with
      | None => (None, cache)
      | Some cert => let '(cert, cache) := boot_store now hostname cert cache in (Some cert, cache)
      end
  end.

Definition bootstrapFallbackHost (cfg : Config) : string :=
  match url_host (TrimSpace (cf_FrontendBaseURL cfg)) with
  | Some host => if non_empty host then normalizeDomain host else "localhost"
  | None => "localhost"
  end.

(** ** [GetCertificate] *)

(** Where the certificate came from. *)
Inductive cert_source := Managed (name : string) | ByCertMagic | Static | Bootstrap (name : string).

Definition bootstrap_name (cfg : Config) (hello : ClientHello) : string :=
  let serverName := normalizeDomain (ch_ServerName hello) in
  if non_empty serverName then serverName
  else let ip := localIPFromHello hello in if non_empty ip then ip else bootstrapFallbackHost cfg.

Definition manager_GetCertificate (cfg : Config) (tls_get : string → option tlsCertificate) (magic static : option tlsCertificate) (now signed : Z) (random : string)
    (hello : ClientHello) (cache : boot_cache) : option (cert_source * tlsCertificate) * boot_cache :=
  let serverName := normalizeDomain (ch_ServerName hello) in
  let wildcardName := wildcardDomainForHost serverName in
  let managed :=
    if non_empty serverName then
      match tls_get serverName with
      | Some cert => Some (Managed serverName, cert)
      | None => if non_empty wildcardName then (λ cert, (Managed wildcardName, cert)) <$> tls_get wildcardName else None
      end
    else None in
  let obtained := if cf_ACMEEnabled cfg && non_empty serverName then (λ cert, (ByCertMagic, cert)) <$> magic else None in
  match managed with
  | Some answer => (Some answer, cache)
  | None =>
      match obtained with
      | Some answer => (Some answer, cache)
      | None =>
          match static with
          | Some cert => (Some (Static, cert), cache)
          | None =>
              let name := bootstrap_name cfg hello in
              if non_empty name then let '(cert, cache) := bootstrapCertFor now signed random name cache in ((λ cert, (Bootstrap name, cert)) <$> cert, cache)
              else (None, cache)
          end
      end
  end.

(** ** [Status] *)

Record acme_status := { as_Level : string; as_Summary : string; as_Reason : string }.
Definition manager_Status (cfg : Config) (static : bool) (lastError : string) : acme_status :=
  if negb (cf_ACMEEnabled cfg) && negb static then {| as_Level := "warn"; as_Summary := "TLS is disabled or ACME is not configured"; as_Reason := "tls_disabled" |}
  else if non_empty lastError then {| as_Level := "warn"; as_Summary := lastError; as_Reason := "acme_last_error" |}
  else if cf_ACMEEnabled cfg then {| as_Level := "ok"; as_Summary := "ACME manager ready"; as_Reason := "acme_ready" |}
  else {| as_Level := "ok"; as_Summary := "Static TLS certificate loaded"; as_Reason := "static_tls" |}.
End handshake.

(** * Proofs *)

Lemma wildcard_same host : normalizeDomain host ≠ "" → HasPrefix (normalizeDomain host) "*." = false → wildcardDomainForHost host = WildcardForHost (normalizeDomain host).
Proof.
  intros Hne Hp. unfold wildcardDomainForHost, WildcardForHost. cbv zeta. rewrite (proj2 (String.eqb_neq _ _) Hne), Hp. done.
Qed.

Section served.
Variable ParseCertificate : string → option x509Leaf.
Variable CreateCertificate : string → x509Template → option (string * string).
Variable is_ip : string → bool.
Variable url_host : string → option string.
Variable cfg : Config.

Abbreviation generate := (generateSelfSignedCert ParseCertificate CreateCertificate is_ip).
Abbreviation boot := (bootstrapCertFor ParseCertificate CreateCertificate is_ip).
Abbreviation handshake := (manager_GetCertificate ParseCertificate CreateCertificate is_ip url_host cfg).

(** A host that counts as covered is served from the store: when every name of the certificates has a stored pair, a handshake for a host they
    cover gets the pair of the host or of the wildcard of its parent, whatever else is configured, and signs nothing for itself. *)
Theorem covered_host_served certs tls_get magic static now signed random hello cache :
  let name := normalizeDomain (ch_ServerName hello) in
  name ≠ "" → HasPrefix name "*." = false → HostCoveredByCertificates (ch_ServerName hello) (map names_of certs) = true →
  (∀ c n, c ∈ certs → n = ce_PrimaryDomain c ∨ n ∈ ce_SANs c → is_Some (tls_get (normalizeDomain n))) →
  ∃ n cert, manager_GetCertificate ParseCertificate CreateCertificate is_ip url_host cfg tls_get magic static now signed random hello cache = (Some (Managed n, cert), cache) ∧
    tls_get n = Some cert ∧
    (n = name ∨ n = WildcardForHost name).
Proof.
  intros name Hne Hp Hcov Hstored. unfold manager_GetCertificate. cbv zeta. fold name. rewrite (proj2 (non_empty_true _) Hne).
  assert (wildcardDomainForHost name = WildcardForHost name) as Hw.
  { assert (normalizeDomain name = name) as Hn by apply normalizeDomain_normal. rewrite <- Hn at 2. apply wildcard_same; by rewrite Hn. }
  rewrite Hw. destruct (tls_get name) as [cert|] eqn:Hexact; [exists name, cert; by split_and!; [..|left]|].
  assert (∃ n, is_Some (tls_get (normalizeDomain n)) ∧ (normalizeDomain n = name ∨ (WildcardForHost name ≠ "" ∧ normalizeDomain n = WildcardForHost name)))
    as (n & [cert Hcert] & [Hn|[Hwne Hn]]).
  { unfold HostCoveredByCertificates in Hcov. cbv zeta in Hcov. apply existsb_exists_elem in Hcov as (c & Hc & Hcov). apply list_elem_of_fmap in Hc as (row & -> & Hrow).
    assert (∀ n, String.eqb (ToLower (TrimSpace n)) name || (negb (String.eqb (WildcardForHost name) "") && String.eqb (ToLower (TrimSpace n)) (WildcardForHost name)) = true →
      normalizeDomain n = name ∨ (WildcardForHost name ≠ "" ∧ normalizeDomain n = WildcardForHost name)) as Hname.
    { intros n [?%String.eqb_eq|[Hx Hy%String.eqb_eq]%andb_true_iff]%orb_true_iff; [by left|]. right. split; [|done]. by apply negb_true_iff, String.eqb_neq in Hx. }
    apply orb_true_iff in Hcov as [Hc|Hc].
    - exists (ce_PrimaryDomain row). split; [by apply (Hstored row); [|left]|by apply Hname].
    - apply existsb_exists_elem in Hc as (n & Hn & Hc). exists n. split; [by apply (Hstored row); [|right]|by apply Hname]. }
  { rewrite Hn in Hcert. congruence. }
  rewrite (proj2 (non_empty_true _) Hwne). rewrite Hn in Hcert. rewrite Hcert. cbn. exists (WildcardForHost name), cert. by split_and!; [..|right].
Qed.

(** ** Self-signed certificates *)

(** Signed for a name: a certificate for it and nothing else, which is over 23 hours after it was made. *)
Definition made_for (hostname : string) (cert : tlsCertificate) : Prop :=
  ∃ random now tmpl der, CreateCertificate random tmpl = Some (der, tl_PrivateKey cert) ∧ tl_Certificate cert = [der] ∧ xt_CommonName tmpl = hostname ∧
    xt_IPAddresses tmpl ++ xt_DNSNames tmpl = (if String.eqb hostname "" && negb (is_ip hostname) then [] else [hostname]) ∧
    xt_NotAfter tmpl = (now + 23 * Hour)%Z.

(** Handshakes look with the read lock, sign without a lock and store with the write lock. A call is one that found nothing, with the time it
    read at its start and, once it has signed, its certificate; [bw_served] is what handshakes were given, in order. *)
Record boot_call := { bc_host : string; bc_now : Z; bc_cert : option tlsCertificate }.
Record boot_world := { bw_cache : boot_cache; bw_calls : list boot_call; bw_served : list (string * Z * tlsCertificate) }.

Inductive boot_step : boot_world → boot_world → Prop :=
  | boot_hit now hostname cert cache calls served :
      boot_lookup now hostname cache = Some cert →
      boot_step {| bw_cache := cache; bw_calls := calls; bw_served := served |}
        {| bw_cache := cache; bw_calls := calls; bw_served := served ++ [(hostname, now, cert)] |}
  | boot_miss now hostname cache calls served :
      boot_lookup now hostname cache = None →
      boot_step {| bw_cache := cache; bw_calls := calls; bw_served := served |}
        {| bw_cache := cache; bw_calls := {| bc_host := hostname; bc_now := now; bc_cert := None |} :: calls; bw_served := served |}
  | boot_sign signed random hostname now cert cache before after served :
      generate signed random hostname = Some cert →
      boot_step {| bw_cache := cache; bw_calls := before ++ {| bc_host := hostname; bc_now := now; bc_cert := None |} :: after; bw_served := served |}
        {| bw_cache := cache; bw_calls := before ++ {| bc_host := hostname; bc_now := now; bc_cert := Some cert |} :: after; bw_served := served |}
  | boot_fail signed random hostname now cache before after served :
      generate signed random hostname = None →
      boot_step {| bw_cache := cache; bw_calls := before ++ {| bc_host := hostname; bc_now := now; bc_cert := None |} :: after; bw_served := served |}
        {| bw_cache := cache; bw_calls := before ++ after; bw_served := served |}
  | boot_end hostname now cert cache before after served given cache' :
      boot_store now hostname cert cache = (given, cache') →
      boot_step {| bw_cache := cache; bw_calls := before ++ {| bc_host := hostname; bc_now := now; bc_cert := Some cert |} :: after; bw_served := served |}
        {| bw_cache := cache'; bw_calls := before ++ after; bw_served := served ++ [(hostname, now, given)] |}.

Definition no_handshakes : boot_world := {| bw_cache := ∅; bw_calls := []; bw_served := [] |}.

Lemma generate_made signed random hostname cert : generate signed random hostname = Some cert → made_for hostname cert.
Proof.
  unfold generateSelfSignedCert. cbv zeta. set (tmpl := {| xt_CommonName := _ |}). destruct (CreateCertificate random tmpl) as [[der priv]|] eqn:Hc; [|done]. cbn.
  destruct (ParseCertificate der) as [leaf|]; [|done]. intros [= <-]. exists random, signed, tmpl, der. split_and!; [done..| |unfold tmpl; cbn; lia].
  unfold tmpl, non_empty. cbn. destruct (is_ip hostname), (String.eqb hostname ""); done.
Qed.

Lemma boot_store_size now hostname cert cache :
  (size cache ≤ maxSelfSignedCacheEntries)%nat → (size (boot_store now hostname cert cache).2 ≤ maxSelfSignedCacheEntries)%nat.
Proof.
  intros Hs. unfold boot_store. destruct (boot_lookup _ _ _); [done|]. cbn [snd]. destruct (Nat.leb_spec maxSelfSignedCacheEntries (size cache)).
  - rewrite map_size_insert_None by apply lookup_empty. rewrite map_size_empty. unfold maxSelfSignedCacheEntries. lia.
  - destruct (cache !! hostname) as [c|] eqn:Hc; [rewrite map_size_insert_Some by (by eexists); lia|rewrite map_size_insert_None by done; lia].
Qed.

(** What is given is what the cache then holds under the name. *)
Lemma boot_store_spec now hostname cert cache given cache' :
  boot_store now hostname cert cache = (given, cache') → made_for hostname cert → (∀ h c, cache !! h = Some c → made_for h c) →
  cache' !! hostname = Some given ∧ (selfSignedCertFresh given now = true ∨ given = cert) ∧ (∀ h c, cache' !! h = Some c → made_for h c).
Proof.
  intros Hb Hm Hall. unfold boot_store, boot_lookup in Hb.
  assert (∀ base : boot_cache, base = ∅ ∨ base = cache → ∀ h c, <[hostname := cert]> base !! h = Some c → made_for h c) as Hins.
  { intros base Hbase h c [[<- <-]|[_ Hc]]%lookup_insert_Some; [done|]. destruct Hbase as [->| ->]; [by rewrite lookup_empty in Hc|by apply Hall]. }
  destruct (cache !! hostname) as [e|] eqn:He; [destruct (selfSignedCertFresh e now) eqn:Hf|]; injection Hb as <- <-; [by auto|..];
    (split; [apply lookup_insert_eq|]; split; [by right|]; apply Hins; case_match; by auto).
Qed.

Lemma boot_lookup_spec now hostname cache cert : boot_lookup now hostname cache = Some cert → cache !! hostname = Some cert ∧ selfSignedCertFresh cert now = true.
Proof. unfold boot_lookup. destruct (cache !! hostname) as [e|]; [|done]. destruct (selfSignedCertFresh e now) eqn:Hf; [|done]. by intros [= <-]. Qed.

Record boot_ok (w : boot_world) : Prop := {
  bo_size : (size (bw_cache w) ≤ maxSelfSignedCacheEntries)%nat;
  bo_cache : ∀ h c, bw_cache w !! h = Some c → made_for h c;
  bo_calls : Forall (λ call, ∀ c, bc_cert call = Some c → made_for (bc_host call) c) (bw_calls w);
}.

Lemma boot_step_ok w w' : boot_ok w → boot_step w w' → boot_ok w'.
Proof.
  intros [Hsize Hcache Hcalls] Hs.
  destruct Hs as [| |signed random h now cert cache p q served Hg| |h now cert cache p q served given cache' Hb]; cbn in *; [done|..]; [constructor; cbn; [done..|by constructor]| | |].
  - apply Forall_app in Hcalls as [? [_ ?]%Forall_cons]. constructor; cbn; [done..|]. apply Forall_app. split; [done|]. constructor; [|done]. cbn.
    intros c [= <-]. by eapply generate_made.
  - apply Forall_app in Hcalls as [? [_ ?]%Forall_cons]. constructor; cbn; [done..|]. by apply Forall_app.
  - apply Forall_app in Hcalls as [? [Hc ?]%Forall_cons]. specialize (Hc cert eq_refl). pose proof (boot_store_size now h cert cache Hsize) as Hs. rewrite Hb in Hs.
    destruct (boot_store_spec _ _ _ _ _ _ Hb Hc Hcache) as (_ & _ & ?). constructor; cbn; [done..|]. by apply Forall_app.
Qed.

Lemma boot_step_serves w w' : boot_ok w → boot_step w w' →
  bw_served w' = bw_served w ∨ ∃ h now c, bw_served w' = bw_served w ++ [(h, now, c)] ∧ bw_cache w' !! h = Some c ∧ made_for h c ∧
    (selfSignedCertFresh c now = true ∨ {| bc_host := h; bc_now := now; bc_cert := Some c |} ∈ bw_calls w).
Proof.
  intros [Hsize Hcache Hcalls] Hs. destruct Hs as [now h cert cache calls served Hl| | | |h now cert cache p q served given cache' Hb]; cbn in *; [right|by left..|right].
  - apply boot_lookup_spec in Hl as [Hl Hf]. exists h, now, cert. by auto.
  - apply Forall_app in Hcalls as [_ [Hc _]%Forall_cons]. destruct (boot_store_spec _ _ _ _ _ _ Hb (Hc cert eq_refl) Hcache) as (Hg & Hf & Hall).
    exists h, now, given. split_and!; [done|done|by apply Hall|]. destruct Hf as [?| ->]; [by left|right]. apply elem_of_app. right. by left.
Qed.

(** C40 However many handshakes with whatever names ask for self-signed certificates at once, each looking, signing and storing in between those of the
    others, the cache never holds more than 256, and every certificate in it was signed for the name it is kept under. What a handshake is given, also when
    another one stored first, is what the cache holds at that moment under its own name, and is fresh (an hour before its end at least) at the time the
    handshake read at its start, or the one the handshake signed itself. A handshake that nobody interrupts is one such sequence of steps. *)
Theorem bootstrap_cache_bounded w :
  rtc boot_step no_handshakes w →
  (size (bw_cache w) ≤ 256)%nat ∧ (∀ h c, bw_cache w !! h = Some c → made_for h c) ∧
  (∀ w', boot_step w w' → bw_served w' = bw_served w ∨ ∃ h now c, bw_served w' = bw_served w ++ [(h, now, c)] ∧ bw_cache w' !! h = Some c ∧ made_for h c ∧
    (selfSignedCertFresh c now = true ∨ {| bc_host := h; bc_now := now; bc_cert := Some c |} ∈ bw_calls w)) ∧
  (∀ now signed random h c cache', bootstrapCertFor ParseCertificate CreateCertificate is_ip now signed random h (bw_cache w) = (Some c, cache') →
    rtc boot_step w {| bw_cache := cache'; bw_calls := bw_calls w; bw_served := bw_served w ++ [(h, now, c)] |}).
Proof.
  intros Hrun. assert (boot_ok w) as Hok.
  { revert w Hrun. apply rtc_ind_r; [|by eauto using boot_step_ok]. constructor; cbn; [rewrite map_size_empty; lia|intros h c; by rewrite lookup_empty|done]. }
  split; [apply Hok|]. split; [apply Hok|]. split; [intros w'; by apply boot_step_serves|]. intros now signed random h c cache' Hb. unfold bootstrapCertFor in Hb.
  destruct w as [cache calls served]. cbn in *. destruct (boot_lookup now h cache) as [cert|] eqn:Hl; [injection Hb as <- <-; by apply rtc_once, boot_hit|].
  destruct (generate signed random h) as [cert|] eqn:Hg; [|done]. destruct (boot_store now h cert cache) as [given cache1] eqn:Hs. injection Hb as <- <-.
  eapply rtc_l; [by apply (boot_miss now h)|]. eapply rtc_l; [by apply (boot_sign signed random h now cert cache [] calls)|]. apply rtc_once.
  by apply (boot_end h now cert cache [] calls).
Qed.

(** A self-signed certificate is the last resort: then nothing was stored for the name or its wildcard and no certificate was loaded from files. *)
Theorem self_signed_last tls_get magic static now signed random hello cache cache' n cert :
  handshake tls_get magic static now signed random hello cache = (Some (Bootstrap n, cert), cache') →
  let name := normalizeDomain (ch_ServerName hello) in
  n = bootstrap_name url_host cfg hello ∧ static = None ∧ (name ≠ "" → tls_get name = None) ∧
  (name ≠ "" → wildcardDomainForHost name ≠ "" → tls_get (wildcardDomainForHost name) = None).
Proof.
  unfold manager_GetCertificate. cbv zeta. set (name := normalizeDomain (ch_ServerName hello)).
  destruct (non_empty name) eqn:Hne.
  - destruct (tls_get name) as [c|] eqn:Hget; [done|]. destruct (non_empty (wildcardDomainForHost name)) eqn:Hw.
    + destruct (tls_get (wildcardDomainForHost name)) as [c|] eqn:Hget'; [done|]. cbn [fmap option_fmap option_map]. destruct (if _ && _ then _ else _) as [[s c]|] eqn:Hm.
      { destruct (cf_ACMEEnabled cfg && true); [|done]. destruct magic; [|done]. by injection Hm as <- <-. }
      destruct static; [done|]. destruct (non_empty (bootstrap_name url_host cfg hello)); [|done]. destruct (boot _ _ _ _ _) as [[c|] ?]; [|done]. by intros [= <- <- <-].
    + destruct (if _ && _ then _ else _) as [[s c]|] eqn:Hm.
      { destruct (cf_ACMEEnabled cfg && true); [|done]. destruct magic; [|done]. by injection Hm as <- <-. }
      destruct static; [done|]. destruct (non_empty (bootstrap_name url_host cfg hello)); [|done]. destruct (boot _ _ _ _ _) as [[c|] ?]; [|done]. intros [= <- <- <-].
      split_and!; [done..|]. intros _ Hx. by apply non_empty_true in Hx; rewrite Hw in Hx.
  - rewrite andb_false_r. destruct static; [done|]. destruct (non_empty (bootstrap_name url_host cfg hello)); [|done]. destruct (boot _ _ _ _ _) as [[c|] ?]; [|done].
    intros [= <- <- <-]. split_and!; [done|done|..]; intros Hx%non_empty_true; congruence.
Qed.
End served.

(** * A handshake for a host under a wildcard, and one with nothing stored *)

Definition sample_create (random : string) (tmpl : x509Template) : option (string * string) := Some ("der:" +:+ xt_CommonName tmpl +:+ random, "key" +:+ random).
Definition sample_wildcard : CertificateRow := with_names sample_certificate "*.Example.com" ["example.com"] "wildcard".
Definition sample_store (name : string) : option tlsCertificate :=
  if String.eqb name "*.example.com" || String.eqb name "example.com" then Some (sample_tls "cert" "key") else None.

Lemma covered_host_served_witness :
  ∃ n cert, manager_GetCertificate sample_leaf sample_create (λ _, false) (λ _, None) sample_acme_cfg sample_store None None 0 0 "r"
    {| ch_ServerName := "App.example.com"; ch_LocalAddr := None |} ∅ = (Some (Managed n, cert), ∅) ∧ sample_store n = Some cert ∧
    (n = "app.example.com" ∨ n = "*.example.com").
Proof.
  apply (covered_host_served sample_leaf sample_create (λ _, false) (λ _, None) sample_acme_cfg [sample_wildcard] sample_store None None 0 0 "r"
    {| ch_ServerName := "App.example.com"; ch_LocalAddr := None |} ∅); [discriminate|reflexivity|reflexivity|].
  intros c n Hc%list_elem_of_singleton. subst c. intros [->|Hn]; [by eexists|]. apply list_elem_of_singleton in Hn as ->. by eexists.
Defined.

(** Two handshakes for one name that both found nothing: the second to store is given what the first has stored. *)
Definition day_leaf (der : string) : option x509Leaf := Some {| lf_NotBefore := - Hour; lf_NotAfter := 23 * Hour |}.
Definition sample_self (random : string) : tlsCertificate :=
  {| tl_Certificate := ["der:b" +:+ random]; tl_PrivateKey := "key" +:+ random; tl_Leaf := day_leaf random |}.
Definition sample_call (cert : option tlsCertificate) : boot_call := {| bc_host := "b"; bc_now := 0; bc_cert := cert |}.
Definition contended : boot_world :=
  {| bw_cache := <["b" := sample_self "1"]> ∅; bw_calls := [sample_call (Some (sample_self "2"))]; bw_served := [("b", 0%Z, sample_self "1")] |}.
Definition contended_after : boot_world :=
  {| bw_cache := <["b" := sample_self "1"]> ∅; bw_calls := []; bw_served := [("b", 0%Z, sample_self "1"); ("b", 0%Z, sample_self "1")] |}.

Lemma contended_reached : rtc (boot_step day_leaf sample_create (λ _, false)) no_handshakes contended.
Proof.
  eapply rtc_l; [by apply (boot_miss _ _ _ 0 "b" ∅ [])|]. eapply rtc_l; [by apply (boot_miss _ _ _ 0 "b" ∅ [sample_call None])|].
  eapply rtc_l; [by apply (boot_sign _ _ _ 0 "1" "b" 0 (sample_self "1") ∅ [] [sample_call None])|].
  eapply rtc_l; [by apply (boot_sign _ _ _ 0 "2" "b" 0 (sample_self "2") ∅ [sample_call (Some (sample_self "1"))] [])|].
  apply rtc_once. by apply (boot_end _ _ _ "b" 0 (sample_self "1") ∅ [] [sample_call (Some (sample_self "2"))] []).
Qed.

Lemma bootstrap_cache_bounded_witness :
  boot_step day_leaf sample_create (λ _, false) contended contended_after ∧
  ∃ h now c, bw_served contended_after = bw_served contended ++ [(h, now, c)] ∧ bw_cache contended_after !! h = Some c ∧ made_for sample_create (λ _, false) h c.
Proof.
  assert (boot_step day_leaf sample_create (λ _, false) contended contended_after) as Hstep.
  { apply (boot_end _ _ _ "b" 0 (sample_self "2") (bw_cache contended) [] [] [("b", 0%Z, sample_self "1")]). vm_compute. reflexivity. }
  split; [exact Hstep|].
  destruct (bootstrap_cache_bounded day_leaf sample_create (λ _, false) contended contended_reached) as (_ & _ & Hserved & _).
  destruct (Hserved contended_after Hstep) as [Hsame|(h & now & c & H1 & H2 & H3 & _)]; [discriminate Hsame|]. exists h, now, c. split_and!; [exact H1|exact H2|exact H3].
Defined.
