(* ===== verification/Explain.v ===== *)
(** The access explanation of a service, internal/http/diagnostics.go: [handleExplainServiceAccess] answers,
    for a user, a client address, a time and a path, whether the service would be served and why, and
    [handleListServiceDenials] lists the latest refusals of the audit log.

    The explanation is a second implementation of the decision the proxy takes on a compiled route (Routing,
    Handler): it reads the service row and interprets address lists, windows and restricted policies itself.
    The theorems say on which services the two agree.

    [time.Parse] and [Format] with [time.RFC3339], the zone database and the error text of the group query are
    parameters; so is [json.Unmarshal] of the details of an audit row. *)
From S2P Require Import Prelude GoStrings Netip Domain Paths Hosts AccessRules AccessPolicy Routing Requests AuditChain Resilience Handler Proxy AuthStore AuthCache Sessions RouteAuth ApiGuard CertStorage Catalog DnsProviders.

#[local] Open Scope string_scope.
#[local] Open Scope list_scope.

(** * Definitions *)

Record explainRequest := {
  er_UserEmail : string; er_ClientIP : string; er_Time : string; er_Method : string; er_Path : string;
}.

Record explainStep := { es_Name : string; es_Status : string; es_Message : string }.

Record explainResponse := {
  ex_ServiceID : N; ex_Allowed : bool; ex_Decision : string; ex_Steps : list explainStep;
}.

Definition statusForBool (ok : bool) : string := if ok then "ok" else "fail".
Definition ifThenElse (cond : bool) (a b : string) : string := if cond then a else b.

(** ** Address lists *)

Definition cidr_entry_matches (addr : Addr) (raw : string) : bool :=
  let trimmed := TrimSpace raw in
  if String.eqb trimmed "" then false
  else if ContainsByte trimmed "/" then
    match ParsePrefix trimmed with Some prefix => PrefixContains prefix addr | None => false end
  else
    match ParseAddr trimmed with Some other => bool_decide (other = addr) | None => false end.

Definition matchesCIDRList (addr : Addr) (values : list string) : bool := existsb (cidr_entry_matches addr) values.

(** ** Windows *)

(** [time.Weekday.String], in lower case. *)
Definition weekday_name (d : Z) : string :=
  if (d =? 0)%Z then "sunday" else if (d =? 1)%Z then "monday" else if (d =? 2)%Z then "tuesday"
  else if (d =? 3)%Z then "wednesday" else if (d =? 4)%Z then "thursday" else if (d =? 5)%Z then "friday" else "saturday".

Definition window_matches_at (LoadLocation : string → option Location) (at_ : Z) (window : AccessWindow) : bool :=
  let location :=
    if negb (String.eqb (TrimSpace (aw_Timezone window)) "")
    then default UTC (LoadLocation (aw_Timezone window)) else UTC in
  let weekday := weekday_name (local_weekday location at_) in
  if (0 <? length (aw_DaysOfWeek window))%nat
     && negb (existsb (λ day, String.eqb (ToLower (TrimSpace day)) weekday) (aw_DaysOfWeek window))
  then false
  else
    match parseClock (aw_StartTime window), parseClock (aw_EndTime window) with
    | Some startMin, Some endMin =>
        let cur := local_minutes location at_ in
        if (startMin <=? endMin)%Z then (startMin <=? cur)%Z && (cur <=? endMin)%Z
        else (startMin <=? cur)%Z || (cur <=? endMin)%Z
    | _, _ => false
    end.

Definition windowMatchesAt (LoadLocation : string → option Location) (windows : list AccessWindow) (at_ : Z) : bool :=
  existsb (window_matches_at LoadLocation at_) windows.

(** ** Messages *)

Definition digits : string := "0123456789".

(** The loop of [formatUint]: each round writes one byte in front of the ones written, in a buffer of
    twenty; a round without room would panic, [None]. *)
Fixpoint format_loop (room : nat) (value : N) (buf : string) : option string :=
  if (value =? 0)%N then Some buf
  else match room with
       | O => None
       | S room =>
           match String.get (N.to_nat (value mod 10)) digits with
           | Some c => format_loop room (value / 10)%N (String c buf)
           | None => None
           end
       end.

Definition formatUint (value : N) : option string :=
  if (value =? 0)%N then Some "0" else format_loop 20 value "".

Definition restrictedExplanation (user : User) (item : Service) (roleHit groupHit openPolicy : bool) : string :=
  if openPolicy then "Restricted policy has no explicit role/group filters — every authenticated user passes."
  else if roleHit then "User role '" +:+ u_Role user +:+ "' matches an allowed role."
  else if groupHit then "User is in a group allowed for this service."
  else
    let roles := if (0 <? length (s_AllowedRoles item))%nat then ["roles=" +:+ Join (s_AllowedRoles item) ","] else [] in
    let groups := if (0 <? length (s_AllowedGroups item))%nat
                  then ["groups=" +:+ Join (map (λ gid, default "" (formatUint gid)) (s_AllowedGroups item)) ","] else [] in
    "User does not match restricted policy (" +:+ Join (roles ++ groups) "; " +:+ ").".

(** ** The explanation

    The three locals the handler updates. *)
Record verdict := { v_steps : list explainStep; v_allowed : bool; v_decision : string }.

Definition add_step (name status message : string) (v : verdict) : verdict :=
  {| v_steps := v_steps v ++ [{| es_Name := name; es_Status := status; es_Message := message |}];
     v_allowed := v_allowed v; v_decision := v_decision v |}.
(** [allowed = false; decision = d]. *)
Definition deny_with (d : string) (v : verdict) : verdict :=
  {| v_steps := v_steps v; v_allowed := false; v_decision := d |}.
(** The decision is only set when nothing refused before. *)
Definition deny_first (d : string) (v : verdict) : verdict :=
  {| v_steps := v_steps v; v_allowed := false;
     v_decision := if String.eqb (v_decision v) "allowed" then d else v_decision v |}.

Section explain.
Context (LoadLocation : string → option Location).
Context (RFC3339 : Z → string) (parse_RFC3339 : string → option Z).
(** The error text of the group query, when the database fails. *)
Context (lookup_error : option string).

Definition statusMessageDeployed (item : Service) : string :=
  match s_LastDeployedAt item with
  | None => "Service has never been deployed — no traffic will be served yet."
  | Some t => "Service deployed at " +:+ RFC3339 t +:+ "."
  end.

Definition explain_deployed (item : Service) (v : verdict) : verdict :=
  let v := add_step "service_deployed" (statusForBool (bool_decide (is_Some (s_LastDeployedAt item)))) (statusMessageDeployed item) v in
  match s_LastDeployedAt item with None => deny_with "deny_not_deployed" v | Some _ => v end.

Definition explain_blocklist (item : Service) (client : option Addr) (v : verdict) : verdict :=
  if (0 <? length (s_IPBlocklist item))%nat then
    let blockHit := match client with Some addr => matchesCIDRList addr (s_IPBlocklist item) | None => false end in
    let v := add_step "ip_blocklist" (statusForBool (negb blockHit))
               (ifThenElse blockHit "Client IP is on blocklist." "Client IP is not on blocklist.") v in
    if blockHit then deny_with "deny_blocklist" v else v
  else v.

Definition explain_allowlist (item : Service) (client : option Addr) (v : verdict) : verdict :=
  if (0 <? length (s_IPAllowlist item))%nat then
    let allowed_ip := match client with Some addr => matchesCIDRList addr (s_IPAllowlist item) | None => false end in
    let v := add_step "ip_allowlist" (statusForBool allowed_ip)
               (ifThenElse allowed_ip "Client IP matches allowlist." "Client IP does not match allowlist.") v in
    if negb allowed_ip then deny_first "deny_allowlist" v else v
  else v.

(** The [ruleAction] of the first matching rule, empty without one. *)
Definition explain_rules (item : Service) (client : option Addr) (reqPath : string) (v : verdict) : string * verdict :=
  if (0 <? length (s_AccessRules item))%nat then
    match client with
    | None => ("", add_step "access_rules" "info" "Enter a client IP to evaluate the access rules." v)
    | Some addr =>
        let path := TrimSpace reqPath in
        let path := if String.eqb path "" then "/" else path in
        match FirstMatchingAccessRule (s_AccessRules item) addr path with
        | None => ("", add_step "access_rules" "info" "No access rule matches; the access mode decides." v)
        | Some index =>
            match s_AccessRules item !! (index - 1)%nat with
            | None => ("", v)                                      (* an index out of range would panic *)
            | Some rule =>
                let label := "Rule #" +:+ pretty index in
                let label := if negb (String.eqb (ar_Name rule) "") then label +:+ " (" +:+ ar_Name rule +:+ ")" else label in
                (ar_Action rule,
                 if String.eqb (ar_Action rule) AccessRuleDeny
                 then deny_first "deny_access_rule" (add_step "access_rules" "fail" (label +:+ " denies the request.") v)
                 else if String.eqb (ar_Action rule) AccessRuleAllow
                 then add_step "access_rules" "ok" (label +:+ " allows the request without login.") v
                 else add_step "access_rules" "info" (label +:+ " requires login.") v)
            end
        end
    end
  else ("", v).

Definition explain_windows (item : Service) (checkAt : Z) (v : verdict) : verdict :=
  if (0 <? length (s_AccessWindows item))%nat then
    let window_hit := windowMatchesAt LoadLocation (s_AccessWindows item) checkAt in
    let v := add_step "access_window" (statusForBool window_hit)
               (ifThenElse window_hit "Current time falls inside an access window." "No access window matches the requested time.") v in
    if negb window_hit then deny_first "deny_access_window" v else v
  else v.

(** The access mode the explanation evaluates. *)
Definition explained_mode (item : Service) (ruleAction : string) : string :=
  let mode := TrimSpace (s_AccessMode item) in
  let mode := if String.eqb mode "" then "authenticated" else mode in
  let mode := if String.eqb ruleAction AccessRuleAuthenticate && String.eqb mode "public" then "authenticated" else mode in
  if String.eqb ruleAction AccessRuleAllow || String.eqb ruleAction AccessRuleDeny then "rule" else mode.

Definition explain_restricted (st : auth_state) (item : Service) (user : User) (v : verdict) : verdict :=
  match lookup_error with
  | Some e => deny_with "deny_group_lookup" (add_step "group_lookup" "fail" ("Group lookup failed: " +:+ e) v)
  | None =>
      let groupSet : gset N := list_to_set (GetUserGroupIDs st (u_ID user)) in
      let roleHit := existsb (λ role, String.eqb role (u_Role user)) (s_AllowedRoles item) in
      let groupHit := existsb (λ gid, bool_decide (gid ∈ groupSet)) (s_AllowedGroups item) in
      let openPolicy := (length (s_AllowedRoles item) =? 0)%nat && (length (s_AllowedGroups item) =? 0)%nat in
      let pass := roleHit || groupHit || openPolicy in
      let v := add_step "restricted_policy" (statusForBool pass) (restrictedExplanation user item roleHit groupHit openPolicy) v in
      if negb pass then deny_with "deny_restricted_policy" v else v
  end.

Definition resolve_user (st : auth_state) (reqEmail : string) : option User :=
  let email := TrimSpace reqEmail in
  if negb (String.eqb email "") then match users_GetByEmail st email with Ok user => Some user | Err _ => None end else None.

Definition explain_mode (st : auth_state) (item : Service) (mode : string) (reqEmail : string) (v : verdict) : verdict :=
  if String.eqb mode "rule" then v
  else if String.eqb mode "public" then add_step "access_mode" "ok" "Access mode is public — no user authentication required." v
  else
    let v := add_step "access_mode" "info" ("Access mode is " +:+ mode +:+ " — user authentication required.") v in
    match resolve_user st reqEmail with
    | None => deny_first "deny_unauthenticated" (add_step "user_resolved" "fail" "Provide a user_email to evaluate authenticated access." v)
    | Some user =>
        let v := add_step "user_resolved" "ok" ("User found: " +:+ u_Email user +:+ " (role=" +:+ u_Role user +:+ ")") v in
        if negb (u_Active user) then deny_with "deny_inactive_user" (add_step "user_active" "fail" "User account is inactive." v)
        else if String.eqb mode "restricted" then explain_restricted st item user v
        else v
    end.

(** The time and the address of the request: an unreadable time is the present, an unreadable address none. *)
Definition check_time (now : Z) (req : explainRequest) : Z :=
  if negb (String.eqb (TrimSpace (er_Time req)) "") then default now (parse_RFC3339 (TrimSpace (er_Time req))) else now.
Definition explain_addr (req : explainRequest) : option Addr :=
  let trimmed := TrimSpace (er_ClientIP req) in
  if negb (String.eqb trimmed "") then ParseAddr trimmed else None.

(** The handler after [loadService] and the decoding of the request. *)
Definition explain (st : auth_state) (now : Z) (item : Service) (req : explainRequest) : explainResponse :=
  let client := explain_addr req in
  let v := {| v_steps := []; v_allowed := true; v_decision := "allowed" |} in
  let v := explain_deployed item v in
  let v := explain_blocklist item client v in
  let v := explain_allowlist item client v in
  let '(ruleAction, v) := explain_rules item client (er_Path req) v in
  let v := explain_windows item (check_time now req) v in
  let v := explain_mode st item (explained_mode item ruleAction) (er_UserEmail req) v in
  {| ex_ServiceID := s_ID item; ex_Allowed := v_allowed v;
     ex_Decision := if v_allowed v then "allowed" else v_decision v; ex_Steps := v_steps v |}.

(** The refusal of [decodeAndValidate] is the error of the request: a code and a message. *)
Definition handleExplainServiceAccess (services : list Service) (st : auth_state) (now : Z) (id : N) (req : result (string * string) explainRequest)
    : api_reply explainResponse :=
  match services_GetByID services id with
  | None => ApiError 404 "not_found" "resource not found"
  | Some item =>
      match req with
      | Err (code, message) => ApiError 400 code message
      | Ok req => Answer (explain st now item req)
      end
  end.
End explain.

(** ** Denials *)

Record AuditListParams := {
  lp_Limit : Z; lp_Offset : Z; lp_UserID : option Z; lp_ResourceType : string; lp_ResourceID : option Z; lp_ActionLike : string;
  lp_RequestID : string; lp_Method : string; lp_StatusCode : option Z; lp_Host : string; lp_From : option Z; lp_To : option Z;
}.

(** A filter that is not set keeps every row. *)
Definition if_set (value : string) (keep : bool) : bool := String.eqb value "" || keep.
Definition if_some {X} (value : option X) (keep : X → bool) : bool := match value with Some x => keep x | None => true end.

Definition list_selects (fold : bool) (p : AuditListParams) (r : AuditLog) : bool :=
  if_some (lp_UserID p) (λ id, bool_decide (UserID r = Some id))
  && if_set (lp_ResourceType p) (String.eqb (ResourceType r) (lp_ResourceType p))
  && if_some (lp_ResourceID p) (λ id, bool_decide (ResourceID r = Some id))
  && if_set (lp_ActionLike p) (like fold (lp_ActionLike p) (Action r))
  && if_set (lp_RequestID p) (String.eqb (RequestID r) (lp_RequestID p))
  && if_set (lp_Method p) (String.eqb (Method r) (lp_Method p))
  && if_some (lp_StatusCode p) (Z.eqb (StatusCode r))
  && if_set (lp_Host p) (String.eqb (AuditChain.Host r) (lp_Host p))
  && if_some (lp_From p) (λ t, (t <=? Timestamp r)%Z)
  && if_some (lp_To p) (λ t, (Timestamp r <=? t)%Z).

Record denialEvent := {
  de_ID : Z; de_Timestamp : Z; de_RequestID : string; de_Method : string; de_Host : string; de_Path : string; de_StatusCode : Z;
  de_LatencyMs : Z; de_RemoteAddr : string; de_UserAgent : string; de_Outcome : string; de_Reason : string; de_UserID : option Z;
}.

Section denials.
(** LIKE folds the case of letters, or not; ORDER BY timestamp DESC leaves the order of ties open; what
    [json.Unmarshal] leaves in the map. *)
Context (fold : bool) (by_timestamp_desc : list AuditLog → list AuditLog) (unmarshal_object : string → JSONObject).

Definition audit_List (rows : list AuditLog) (p : AuditListParams) : list AuditLog * Z :=
  let found := List.filter (list_selects fold p) rows in
  let limit := if (lp_Limit p <=? 0)%Z || (200 <? lp_Limit p)%Z then 50%Z else lp_Limit p in
  let offset := if (lp_Offset p <? 0)%Z then 0%Z else lp_Offset p in
  (take (Z.to_nat limit) (drop (Z.to_nat offset) (by_timestamp_desc found)), Z.of_nat (length found)).

Definition parseDetailString (raw : string) : JSONObject :=
  if String.eqb (TrimSpace raw) "" then ∅ else unmarshal_object raw.

Definition stringFromMap (m : JSONObject) (key : string) : string :=
  match m !! key with Some (AnyString v) => v | _ => "" end.

Definition denial_outcome (log : AuditLog) : string := stringFromMap (parseDetailString (Details log)) "outcome".
Definition is_denial (log : AuditLog) : bool :=
  String.eqb (denial_outcome log) "denied" || String.eqb (denial_outcome log) "not_found".

Definition denial_of (log : AuditLog) : denialEvent :=
  {| de_ID := ID log; de_Timestamp := Timestamp log; de_RequestID := RequestID log; de_Method := Method log; de_Host := AuditChain.Host log;
     de_Path := AuditChain.Path log; de_StatusCode := StatusCode log; de_LatencyMs := LatencyMs log; de_RemoteAddr := RemoteAddr log;
     de_UserAgent := UserAgent log; de_Outcome := denial_outcome log;
     de_Reason := stringFromMap (parseDetailString (Details log)) "reason"; de_UserID := UserID log |}.

(** The loop: [out] is what has been collected. *)
Fixpoint collect_denials (limit : nat) (logs : list AuditLog) (out : list denialEvent) : list denialEvent :=
  match logs with
  | [] => out
  | log :: logs =>
      if (limit <=? length out)%nat then out
      else if negb (String.eqb (denial_outcome log) "denied") && negb (String.eqb (denial_outcome log) "not_found")
      then collect_denials limit logs out
      else collect_denials limit logs (out ++ [denial_of log])
  end.

(** [limitParam] is the number [parseIntQuery] reads. *)
Definition handleListServiceDenials (services : list Service) (rows : list AuditLog) (id : N) (limitParam : Z)
    : api_reply (list denialEvent * Z) :=
  match services_GetByID services id with
  | None => ApiError 404 "not_found" "resource not found"
  | Some item =>
      let limit := if (limitParam <=? 0)%Z || (100 <? limitParam)%Z then 20%Z else limitParam in
      let items := (audit_List rows {| lp_Limit := 200; lp_Offset := 0; lp_UserID := None; lp_ResourceType := "service";
                      lp_ResourceID := Some (Z.of_N (s_ID item)); lp_ActionLike := "proxy_access"; lp_RequestID := "";
                      lp_Method := ""; lp_StatusCode := None; lp_Host := ""; lp_From := None; lp_To := None |}).1 in
      Answer (collect_denials (Z.to_nat limit) items [], limit)
  end.
End denials.

(** * Lemmas *)

Lemma ParseAddr_valid s a : ParseAddr s = Some a → IsValid a = true.
Proof.
  unfold ParseAddr. intros H. assert (∀ t whole, parse_addr_kind t whole = Some a → IsValid a = true) as Hk; [|by eapply Hk].
  clear H. induction t as [|c t IH]; intros whole; [done|]. cbn.
  destruct c as [[] [] [] [] [] [] [] []]; try apply IH; try done; unfold parseIPv6; intros; repeat case_match; simplify_eq; done.
Qed.

Lemma PrefixContains_Masked p ip : PrefixContains (Masked p) ip = PrefixContains p ip.
Proof.
  unfold Masked. destruct (prefix_valid p) eqn:Hv; [|unfold PrefixContains; by rewrite Hv].
  assert (∀ w b n, (0 ≤ w - b)%Z → Z.shiftr (mask_num w b n) (w - b) = Z.shiftr n (w - b)) as Hm.
  { intros w b n Hb. unfold mask_num. by rewrite Z.shiftr_shiftl_l, Z.sub_diag, Z.shiftl_0_r by lia. }
  unfold PrefixContains. rewrite Hv. unfold prefix_valid in *. destruct p as [[|n|n z] b]; cbn in *; [done|..];
    apply andb_prop in Hv as [Hb1 Hb2]; rewrite Hb1, Hb2; cbn; apply Z.leb_le in Hb2;
    destruct ip as [|m|m z']; cbn; rewrite ?andb_false_r; try done; by rewrite Hm by lia.
Qed.

Lemma PrefixContains_single other ip :
  IsValid ip = true → hasZone ip = false → hasZone other = false →
  PrefixContains (PrefixFrom other (BitLen other)) ip = bool_decide (other = ip).
Proof.
  intros Hv Hz Ho. destruct other as [|n|n [|]], ip as [|m|m [|]]; try done;
    unfold PrefixContains, PrefixFrom, prefix_valid; cbn; try (symmetry; apply bool_decide_eq_false; congruence).
  all: rewrite Z.sub_diag, !Z.shiftr_0_r.
  all: destruct (Z.eqb_spec n m) as [->|Hne]; symmetry; [by apply bool_decide_eq_true | apply bool_decide_eq_false; congruence].
Qed.

(** An entry both readers understand alike: it is not blank, and no address with a zone. *)
Definition entry_plain (value : string) : Prop :=
  TrimSpace value ≠ "" ∧ ∀ a, ParseAddr (TrimSpace value) = Some a → hasZone a = false.

Lemma compileCIDRs_agree values prefixes ip :
  Forall entry_plain values → compileCIDRs values = Ok prefixes → IsValid ip = true → hasZone ip = false →
  matchesCIDRList ip values = matchesAnyPrefix ip prefixes ∧ length prefixes = length values.
Proof.
  intros Hp. revert prefixes. induction Hp as [|v vs [Hne Hz] _ IH]; intros prefixes Hc Hv Hip; cbn in Hc; [by simplify_eq|].
  unfold matchesCIDRList, matchesAnyPrefix, compileCIDR in *. cbn. apply String.eqb_neq in Hne. rewrite Hne in *.
  assert (∃ p ps, prefixes = p :: ps ∧ compileCIDRs vs = Ok ps ∧ cidr_entry_matches ip v = PrefixContains p ip) as (p & ps & -> & Hps & Hm).
  { unfold cidr_entry_matches. rewrite Hne. destruct (ContainsByte _ _).
    - destruct (ParsePrefix _) as [q|]; [|done]. destruct (compileCIDRs vs); simplify_eq. eexists _, _. split_and!; [done..|].
      by rewrite PrefixContains_Masked.
    - destruct (ParseAddr _) as [q|]; [|done]. destruct (compileCIDRs vs); simplify_eq. eexists _, _. split_and!; [done..|].
      rewrite PrefixContains_single; auto. }
  destruct (IH ps Hps Hv Hip) as [IH1 IH2]. cbn. by rewrite <-IH1, <-IH2, <-Hm.
Qed.

(** A list of days names at least one day of the week. *)
Definition window_plain (window : AccessWindow) : Prop :=
  aw_DaysOfWeek window = [] ∨ omap parseWeekday (aw_DaysOfWeek window) ≠ [].

Lemma weekday_name_parse d day :
  (0 ≤ d < 7)%Z → String.eqb (ToLower (TrimSpace day)) (weekday_name d) = bool_decide (parseWeekday day = Some d).
Proof.
  intros Hd. unfold parseWeekday. cbv zeta. set (v := ToLower (TrimSpace day)).
  assert (d = 0 ∨ d = 1 ∨ d = 2 ∨ d = 3 ∨ d = 4 ∨ d = 5 ∨ d = 6)%Z as Hc by lia.
  destruct Hc as [-> | [-> | [-> | [-> | [-> | [-> | ->]]]]]]; cbn [weekday_name Z.eqb Pos.eqb];
    repeat (match goal with |- context [String.eqb v ?s] => destruct (String.eqb_spec v s) as [->|] end; [reflexivity|]); reflexivity.
Qed.

Lemma local_weekday_bound loc t : (0 ≤ local_weekday loc t < 7)%Z.
Proof. unfold local_weekday. apply Z.mod_pos_bound. lia. Qed.

Lemma weekday_listed d days :
  (0 ≤ d < 7)%Z →
  existsb (λ day, String.eqb (ToLower (TrimSpace day)) (weekday_name d)) days = existsb (Z.eqb d) (omap parseWeekday days).
Proof.
  intros Hd. induction days as [|day days IH]; [done|]. cbn. rewrite weekday_name_parse, IH by done.
  destruct (parseWeekday day) as [d'|]; cbn; [|by rewrite bool_decide_eq_false_2].
  f_equal. destruct (Z.eqb_spec d d') as [->|]; [by apply bool_decide_eq_true | apply bool_decide_eq_false; congruence].
Qed.

Lemma window_agree LoadLocation window compiled t :
  window_plain window → compileAccessWindow LoadLocation window = Ok compiled →
  window_matches_at LoadLocation t window = accessWindowMatches compiled t.
Proof.
  intros Hp. unfold compileAccessWindow, window_matches_at, accessWindowMatches.
  destruct (parseClock (aw_StartTime window)) as [start|]; [|done]. destruct (parseClock (aw_EndTime window)) as [end_|]; [|done].
  assert (∀ l, (if negb (String.eqb (TrimSpace (aw_Timezone window)) "") then LoadLocation (aw_Timezone window) else Some UTC) = Some l →
    (if negb (String.eqb (TrimSpace (aw_Timezone window)) "") then default UTC (LoadLocation (aw_Timezone window)) else UTC) = l) as Hl.
  { intros l. destruct (negb _); [by intros -> | by intros [= <-]]. }
  destruct (if negb _ then LoadLocation _ else Some UTC) as [l|]; [|done]. rewrite (Hl l eq_refl).
  intros [= <-]. cbn [cw_Weekdays cw_StartMinutes cw_EndMinutes cw_Location]. rewrite weekday_listed by apply local_weekday_bound.
  assert ((0 <? length (aw_DaysOfWeek window))%nat = (0 <? length (omap parseWeekday (aw_DaysOfWeek window)))%nat) as ->; [|done].
  destruct Hp as [-> | Hp]; [done|]. destruct (omap parseWeekday (aw_DaysOfWeek window)) eqn:Ho; [done|].
  by destruct (aw_DaysOfWeek window).
Qed.

Lemma windows_agree LoadLocation windows compiled t :
  Forall window_plain windows → compileAccessWindows LoadLocation windows = Ok compiled →
  ((0 <? length windows)%nat = false ∨ windowMatchesAt LoadLocation windows t = true) ↔ withinAccessWindows compiled t = true.
Proof.
  intros Hp Hc%result_mapM_Ok_Forall2.
  assert (windowMatchesAt LoadLocation windows t = existsb (λ w, accessWindowMatches w t) compiled) as He.
  { unfold windowMatchesAt. induction Hc as [|w c ws cs Hwc _ IH]; [done|]. inversion_clear Hp. cbn. by rewrite (window_agree _ w c), IH. }
  rewrite He. destruct Hc; cbn; [by split; auto|]. split; [by intros [|]; [done|] | by right].
Qed.

Lemma compileAccessRules_from_lookup i rules compiled k c :
  compileAccessRules_from i rules = Ok compiled → compiled !! k = Some c →
  ∃ r, rules !! k = Some r ∧ compileAccessRule (i + k) r = Ok c.
Proof.
  revert i compiled k. induction rules as [|r rules IH]; intros i compiled k Hc Hk; cbn in Hc; [by simplify_eq|].
  destruct (compileAccessRule i r) as [c0|] eqn:Hr; [|done].
  destruct (compileAccessRules_from (S i) rules) as [cs|] eqn:Hcs; [|done]. simplify_eq.
  destruct k as [|k]; cbn in Hk; simplify_eq; [exists r; by rewrite Nat.add_0_r|].
  destruct (IH _ _ _ Hcs Hk) as (r' & Hr' & Hc'). exists r'. split; [done|]. by rewrite Nat.add_succ_r.
Qed.

Lemma first_rule_agree rules compiled ip path :
  compileAccessRules rules = Ok compiled →
  match matchAccessRule compiled ip path with
  | None => FirstMatchingAccessRule rules ip path = None
  | Some c => FirstMatchingAccessRule rules ip path = Some (cr_Index c) ∧
      ∃ r, rules !! (cr_Index c - 1)%nat = Some r ∧ cr_Action c = ToLower (TrimSpace (ar_Action r))
  end.
Proof.
  intros Hc. unfold FirstMatchingAccessRule. rewrite Hc. destruct (matchAccessRule compiled ip path) as [c|] eqn:Hm; [|done].
  split; [done|]. apply find_first in Hm as (k & Hk & _). eapply compileAccessRules_from_lookup in Hc as (r & Hr & Hcr); [|done].
  unfold compileAccessRule in Hcr. destruct (negb _); [done|]. destruct (ParseAccessRuleSources _) as [[]|]; [|done].
  simplify_eq. cbn. exists r. split; [|done]. by replace (k + 1 - 1)%nat with k by lia.
Qed.

(** ** What each step does to the verdict *)

Lemma explain_deployed_allowed RFC3339 item v :
  v_allowed (explain_deployed RFC3339 item v) = v_allowed v && bool_decide (is_Some (s_LastDeployedAt item)).
Proof. unfold explain_deployed. destruct (s_LastDeployedAt item); cbn; [by rewrite andb_true_r | by rewrite andb_false_r]. Qed.

Lemma explain_blocklist_allowed item client v :
  v_allowed (explain_blocklist item client v) =
  v_allowed v && negb match client with Some addr => matchesCIDRList addr (s_IPBlocklist item) | None => false end.
Proof.
  unfold explain_blocklist. destruct (s_IPBlocklist item) as [|x l]; [destruct client; cbn; by rewrite andb_true_r|].
  cbn [length Nat.ltb Nat.leb]. by destruct client as [addr|], (v_allowed v) eqn:Hv; [destruct (matchesCIDRList _ _)..| |]; cbn; rewrite ?Hv.
Qed.

Lemma explain_allowlist_allowed item client v :
  v_allowed (explain_allowlist item client v) =
  v_allowed v && ((length (s_IPAllowlist item) =? 0)%nat ||
    match client with Some addr => matchesCIDRList addr (s_IPAllowlist item) | None => false end).
Proof.
  unfold explain_allowlist. destruct (s_IPAllowlist item) as [|x l]; [cbn; by rewrite andb_true_r|].
  cbn [length Nat.ltb Nat.leb Nat.eqb orb]. by destruct client as [addr|], (v_allowed v) eqn:Hv; [destruct (matchesCIDRList _ _)..| |]; cbn; rewrite ?Hv.
Qed.

Lemma explain_windows_allowed LoadLocation item t v :
  v_allowed (explain_windows LoadLocation item t v) =
  v_allowed v && (negb (0 <? length (s_AccessWindows item))%nat || windowMatchesAt LoadLocation (s_AccessWindows item) t).
Proof.
  unfold explain_windows. destruct (0 <? length (s_AccessWindows item))%nat; cbn; [|by rewrite andb_true_r].
  destruct (windowMatchesAt _ _ _); cbn; [by rewrite andb_true_r | by rewrite andb_false_r].
Qed.

(** Where an action is stored as the compiler normalises it, the explanation finds the rule the proxy applies. *)
Lemma explain_rules_agree item compiled ip reqPath v :
  compileAccessRules (s_AccessRules item) = Ok compiled →
  Forall (λ r, ToLower (TrimSpace (ar_Action r)) = ar_Action r) (s_AccessRules item) →
  let path := if String.eqb (TrimSpace reqPath) "" then "/" else TrimSpace reqPath in
  let rule := matchAccessRule compiled ip path in
  (explain_rules item (Some ip) reqPath v).1 = match rule with Some c => cr_Action c | None => "" end ∧
  v_allowed (explain_rules item (Some ip) reqPath v).2 = v_allowed v && negb (rule_is AccessRuleDeny rule).
Proof.
  intros Hc Hn path rule. unfold explain_rules. fold path. pose proof (first_rule_agree _ _ ip path Hc) as Hf. fold rule in Hf.
  destruct (s_AccessRules item) as [|r0 rs] eqn:Hrs.
  { cbn in Hc. simplify_eq. cbn. by rewrite andb_true_r. }
  rewrite <-Hrs in *. assert ((0 <? length (s_AccessRules item))%nat = true) as -> by (by rewrite Hrs).
  destruct rule as [c|]; [|rewrite Hf; cbn; by rewrite andb_true_r].
  destruct Hf as (-> & r & Hr & Ha). rewrite (Forall_lookup_1 _ _ _ _ Hn Hr) in Ha. rewrite Hr.
  cbn. rewrite Ha. split; [done|]. destruct (String.eqb (ar_Action r) AccessRuleDeny); cbn; [by rewrite andb_false_r|].
  by destruct (String.eqb (ar_Action r) AccessRuleAllow); cbn; rewrite andb_true_r.
Qed.

(** The part of an access mode that depends on the user. *)
Definition mode_passes (st : auth_state) (item : Service) (mode reqEmail : string) : bool :=
  String.eqb mode "rule" || String.eqb mode "public" ||
  match resolve_user st reqEmail with
  | None => false
  | Some user =>
      u_Active user && (negb (String.eqb mode "restricted") ||
        (existsb (λ role, String.eqb role (u_Role user)) (s_AllowedRoles item)
         || existsb (λ gid, bool_decide (gid ∈ (list_to_set (GetUserGroupIDs st (u_ID user)) : gset N))) (s_AllowedGroups item)
         || ((length (s_AllowedRoles item) =? 0)%nat && (length (s_AllowedGroups item) =? 0)%nat)))
  end.

Lemma explain_mode_allowed st item mode reqEmail v :
  v_allowed (explain_mode None st item mode reqEmail v) = v_allowed v && mode_passes st item mode reqEmail.
Proof.
  unfold explain_mode, mode_passes. destruct (String.eqb mode "rule"); cbn; [by rewrite andb_true_r|].
  destruct (String.eqb mode "public"); cbn; [by rewrite andb_true_r|].
  destruct (resolve_user st reqEmail) as [user|]; cbn; [|by rewrite andb_false_r].
  destruct (u_Active user); cbn; [|by rewrite andb_false_r].
  destruct (String.eqb mode "restricted"); cbn; [|by rewrite andb_true_r].
  destruct (_ || _); cbn; [by rewrite andb_true_r | by rewrite andb_false_r].
Qed.

(** A service the explanation reads as the proxy does. *)
Record explainable (item : Service) : Prop := {
  xp_deployed : is_Some (s_LastDeployedAt item);
  xp_domain : d_IPAllowlist (s_Domain item) = [] ∧ d_IPBlocklist (s_Domain item) = [];
  xp_entries : Forall entry_plain (s_IPAllowlist item ++ s_IPBlocklist item);
  xp_windows : Forall window_plain (s_AccessWindows item);
  xp_actions : Forall (λ r, ToLower (TrimSpace (ar_Action r)) = ar_Action r) (s_AccessRules item);
  xp_own_policy : s_UseGroupPolicy item = false;
  xp_mode : s_AccessMode item ∈ [AccessModePublic; AccessModeAuthenticated; AccessModeRestricted];
  xp_named : s_AccessMode item = AccessModeRestricted → s_AllowedRoles item ≠ [] ∨ s_AllowedGroups item ≠ [];
}.

Definition explained_path (req : explainRequest) : string := if String.eqb (TrimSpace (er_Path req)) "" then "/" else TrimSpace (er_Path req).

(** What [explain] decides, in terms of the compiled route; [admits_iff_clears] below shows it to be what the proxy's own steps decide. *)
Record route_admits (route : Route) (ip : Addr) (path : string) (now : Z) (user : option User) (groupIDs : list N) : Prop := {
  rd_block : matchesAnyPrefix ip (BlockPrefixes route) = false;
  rd_allow : AllowPrefixes route = [] ∨ matchesAnyPrefix ip (AllowPrefixes route) = true;
  rd_rule : rule_is AccessRuleDeny (matchAccessRule (RAccessRules route) ip path) = false;
  rd_window : withinAccessWindows (CompiledWindows route) now = true;
  rd_access :
    let rule := matchAccessRule (RAccessRules route) ip path in
    let mode := mode_after rule (ap_AccessMode (EffectivePolicy route)) in
    rule_is AccessRuleAllow rule = true ∨ mode = AccessModePublic ∨
    ∃ u, user = Some u ∧ u_Active u = true ∧
      (mode = AccessModeRestricted → isAllowedByRestrictedPolicy user groupIDs (EffectivePolicy route) = true);
}.

Lemma explainable_policy item :
  explainable item →
  (EffectiveAccessForService item).1.1.1 =
  {| ap_AccessMode := s_AccessMode item; ap_AllowedRoles := s_AllowedRoles item; ap_AllowedGroups := s_AllowedGroups item;
     ap_AllowedServiceGroups := s_AllowedServiceGroups item |}.
Proof.
  intros Hx. unfold EffectiveAccessForService. rewrite (xp_own_policy _ Hx). cbn. unfold normalizedPolicy. cbn.
  pose proof (xp_mode _ Hx) as Hm. rewrite !elem_of_cons, elem_of_nil in Hm. by destruct Hm as [-> | [-> | [-> | []]]].
Qed.

(** The user part of the two decisions, rule by rule. *)
Lemma explained_mode_agree st item (rule : option compiledAccessRule) reqEmail :
  explainable item →
  rule_is AccessRuleDeny rule = false →
  (∀ c, rule = Some c → cr_Action c ∈ [AccessRuleAllow; AccessRuleAuthenticate; AccessRuleDeny]) →
  let policy := (EffectiveAccessForService item).1.1.1 in
  let user := resolve_user st reqEmail in
  let groupIDs := match user with Some u => GetUserGroupIDs st (u_ID u) | None => [] end in
  let mode := mode_after rule (ap_AccessMode policy) in
  mode_passes st item (explained_mode item (match rule with Some c => cr_Action c | None => "" end)) reqEmail = true ↔
  (rule_is AccessRuleAllow rule = true ∨ mode = AccessModePublic ∨
   ∃ u, user = Some u ∧ u_Active u = true ∧
     (mode = AccessModeRestricted → isAllowedByRestrictedPolicy user groupIDs policy = true)).
Proof.
  intros Hx Hd Ha policy user groupIDs mode. unfold mode, policy. rewrite explainable_policy by done. cbn [ap_AccessMode].
  assert (∀ m, m ∈ [AccessModePublic; AccessModeAuthenticated; AccessModeRestricted] → m = s_AccessMode item ∨ m ≠ AccessModeRestricted →
    mode_passes st item m reqEmail = true ↔ (m = AccessModePublic ∨ ∃ u, user = Some u ∧ u_Active u = true ∧
     (m = AccessModeRestricted → isAllowedByRestrictedPolicy user groupIDs
        {| ap_AccessMode := s_AccessMode item; ap_AllowedRoles := s_AllowedRoles item; ap_AllowedGroups := s_AllowedGroups item;
           ap_AllowedServiceGroups := s_AllowedServiceGroups item |} = true))) as Hbase.
  { intros m Hm Hr. unfold groupIDs, mode_passes. fold user. clearbody user. rewrite !elem_of_cons, elem_of_nil in Hm.
    destruct Hm as [-> | [-> | [-> | []]]]; cbn [String.eqb Ascii.eqb Bool.eqb orb negb andb AccessModePublic AccessModeAuthenticated AccessModeRestricted]; [by split; auto|..].
    - destruct user as [u|]; [|split; [done | by intros [? | (? & ? & _)]]]. rewrite andb_true_r.
      split; [intros Hu; right; by exists u | by intros [? | (? & [= ->] & ? & _)]].
    - destruct user as [u|]; [|split; [done | by intros [? | (? & ? & _)]]].
      assert ((length (s_AllowedRoles item) =? 0)%nat && (length (s_AllowedGroups item) =? 0)%nat = false) as ->.
      { destruct Hr as [Hr|]; [|done]. destruct (xp_named _ Hx (eq_sym Hr)); [destruct (s_AllowedRoles item) | destruct (s_AllowedGroups item)]; try done.
        apply andb_false_r. }
      rewrite orb_false_r, andb_true_iff. split.
      + intros [Hu Hp]. right. exists u. split_and!; [done..|]. by intros _.
      + intros [|(u' & [= <-] & Hu & Hp)]; [done|]. split; [done|]. by apply Hp. }
  pose proof (xp_mode _ Hx) as Hin. assert (∀ s, s ∈ [AccessModePublic; AccessModeAuthenticated; AccessModeRestricted] → TrimSpace s = s ∧ s ≠ "") as Hts.
  { intros s Hs. rewrite !elem_of_cons, elem_of_nil in Hs. by destruct Hs as [-> | [-> | [-> | []]]]. }
  destruct (Hts _ Hin) as [Ht Hne]. unfold explained_mode. rewrite Ht. apply String.eqb_neq in Hne. rewrite Hne.
  destruct rule as [c|]; cbn [rule_is] in Hd |- *.
  2: { cbn. rewrite Hbase by auto. clear. naive_solver. }
  specialize (Ha c eq_refl). unfold mode_after. cbn [rule_is]. rewrite !elem_of_cons, elem_of_nil in Ha.
  destruct Ha as [-> | [-> | [Hc | []]]]; [by cbn; split; auto | | by rewrite Hc in Hd].
  rewrite Hne. cbn. change (String.eqb (s_AccessMode item) "public") with (String.eqb (s_AccessMode item) AccessModePublic).
  destruct (String.eqb_spec (s_AccessMode item) AccessModePublic) as [Hp|Hp].
  - rewrite Hbase; [clear; naive_solver | by right; left | by right].
  - rewrite Hbase; [clear; naive_solver | done | by left].
Qed.

Lemma rules_action rules compiled ip path c :
  compileAccessRules rules = Ok compiled → matchAccessRule compiled ip path = Some c →
  cr_Action c ∈ [AccessRuleAllow; AccessRuleAuthenticate; AccessRuleDeny].
Proof.
  intros Hc Hm. apply find_first in Hm as (k & Hk & _). eapply compileAccessRules_from_lookup in Hc as (r & _ & Hr); [|done].
  unfold compileAccessRule in Hr. destruct (negb _) eqn:Ha; [done|]. destruct (ParseAccessRuleSources _) as [[]|]; [|done]. simplify_eq. cbn.
  apply negb_false_iff in Ha. rewrite !orb_true_iff, !String.eqb_eq in Ha. set_solver.
Qed.

(** A refusal always leaves a reason. *)
Definition reasoned (v : verdict) : Prop := v_allowed v = false → v_decision v ≠ "allowed".

Lemma reasoned_add name status message v : reasoned v → reasoned (add_step name status message v).
Proof. done. Qed.
Lemma reasoned_with d v : d ≠ "allowed" → reasoned (deny_with d v).
Proof. by intros ? _. Qed.
Lemma reasoned_first d v : d ≠ "allowed" → reasoned (deny_first d v).
Proof. intros ? _. cbn. by destruct (String.eqb_spec (v_decision v) "allowed"). Qed.
#[local] Hint Resolve reasoned_add reasoned_with reasoned_first : core.

Lemma explain_reasoned LoadLocation RFC3339 parse_RFC3339 lookup_error st now item req :
  let answer := explain LoadLocation RFC3339 parse_RFC3339 lookup_error st now item req in
  ex_Decision answer = "allowed" ↔ ex_Allowed answer = true.
Proof.
  assert (∀ v, reasoned v → reasoned (explain_deployed RFC3339 item v)) as H1.
  { intros v Hv. unfold explain_deployed. destruct (s_LastDeployedAt item); auto. }
  assert (∀ c v, reasoned v → reasoned (explain_blocklist item c v)) as H2.
  { intros c v Hv. unfold explain_blocklist. cbv zeta. repeat case_match; auto. }
  assert (∀ c v, reasoned v → reasoned (explain_allowlist item c v)) as H3.
  { intros c v Hv. unfold explain_allowlist. cbv zeta. repeat case_match; auto. }
  assert (∀ c p v, reasoned v → reasoned (explain_rules item c p v).2) as H4.
  { intros c p v Hv. unfold explain_rules. cbv zeta. repeat case_match; cbn; auto. }
  assert (∀ t v, reasoned v → reasoned (explain_windows LoadLocation item t v)) as H5.
  { intros t v Hv. unfold explain_windows. cbv zeta. repeat case_match; auto. }
  assert (∀ m e v, reasoned v → reasoned (explain_mode lookup_error st item m e v)) as H6.
  { intros m e v Hv. unfold explain_mode, explain_restricted. cbv zeta. repeat case_match; auto. }
  unfold explain. cbv zeta. destruct (explain_rules item _ _ _) as [action v] eqn:Hrules. cbn.
  set (w := explain_mode _ _ _ _ _ _). assert (reasoned w) as Hw.
  { apply H6, H5. change v with ((action, v).2). rewrite <-Hrules. by apply H4, H3, H2, H1. }
  destruct (v_allowed w) eqn:Ha; [done|]. split; [by intros ?%Hw | done].
Qed.

Lemma explain_admits url_Parse url_String url_Port url_Hostname valid_pem LoadLocation tunnelReady
    RFC3339 parse_RFC3339 (st : auth_state) now item config revision route revision' req ip :
  explainable item → toRouteConfig item = Some config →
  routeFromConfig url_Parse url_String url_Port url_Hostname valid_pem LoadLocation tunnelReady revision config = (Ok route, revision') →
  explain_addr req = Some ip → hasZone ip = false →
  let path := explained_path req in
  let user := resolve_user st (er_UserEmail req) in
  let groupIDs := match user with Some u => GetUserGroupIDs st (u_ID u) | None => [] end in
  ex_Allowed (explain LoadLocation RFC3339 parse_RFC3339 None st now item req) = true ↔
  route_admits route ip path (check_time parse_RFC3339 now req) user groupIDs.
Proof.
  intros Hx Hc Hr Hip Hz path user groupIDs.
  pose proof (routeFromConfig_service _ _ _ _ _ _ _ _ _ _ _ _ Hc Hr) as Hrs.
  destruct (xp_domain _ Hx) as [Hda Hdb]. pose proof (xp_entries _ Hx) as [Hea Heb]%Forall_app.
  destruct Hrs as [_ _ Hpol _ Hal Hbl Hwi Hru _ _]. rewrite Hda in Hal. rewrite Hdb in Hbl. cbn in Hal, Hbl.
  assert (IsValid ip = true) as Hv.
  { unfold explain_addr in Hip. destruct (negb _); [by eapply ParseAddr_valid | done]. }
  destruct (compileCIDRs_agree _ _ ip Hea Hal Hv Hz) as [Hma Hla]. destruct (compileCIDRs_agree _ _ ip Heb Hbl Hv Hz) as [Hmb _].
  pose proof (windows_agree _ _ _ (check_time parse_RFC3339 now req) (xp_windows _ Hx) Hwi) as Hw.
  pose proof (λ v, explain_rules_agree item _ ip (er_Path req) v Hru (xp_actions _ Hx)) as Hrules. cbv zeta in Hrules.
  fold path in Hrules. set (rule := matchAccessRule (RAccessRules route) ip path) in *.
  unfold explain. rewrite Hip. cbv zeta. set (v0 := explain_allowlist _ _ _). specialize (Hrules v0).
  destruct (explain_rules item (Some ip) (er_Path req) v0) as [action v1]. cbn in Hrules. destruct Hrules as [-> Hv1]. cbn [ex_Allowed].
  rewrite explain_mode_allowed, explain_windows_allowed, Hv1. unfold v0.
  rewrite explain_allowlist_allowed, explain_blocklist_allowed, explain_deployed_allowed. cbn [v_allowed andb].
  rewrite bool_decide_eq_true_2 by apply Hx. rewrite Hma, Hmb, <-Hla. cbn [andb].
  pose proof (λ Hd, explained_mode_agree st item rule (er_UserEmail req) Hx Hd (λ c, rules_action _ _ ip path c Hru)) as Hmode.
  cbv zeta in Hmode. rewrite <-Hpol in Hmode. fold user groupIDs in Hmode.
  rewrite !andb_true_iff, !orb_true_iff, !negb_true_iff, Hw, Nat.eqb_eq, length_zero_iff_nil. clear Hw.
  split.
  - intros ((((? & ?) & Hd) & ?) & Hm). constructor; try done. fold rule. by apply Hmode.
  - intros [? ? Hd ? Hacc]. fold rule in Hd, Hacc. split_and!; try done. by apply Hmode.
Qed.

(** ** The steps of the proxy *)

Section proxy_steps.
Context {R A : Type} `{AuthService A} (m : Manager).

(** What [Handler_steps] decides between finding the route and forwarding: the network rules, the access rule, the authorization. *)
Definition proxy_clears (now : Z) (r : Request) (route : Route) (w : @world R A) : Prop :=
  let rule := matched_rule m r route (normalizePath (r_Path r)) in
  enforceNetworkRules m r route = Ok tt ∧ rule_is AccessRuleDeny rule = false ∧ is_ok (authorize m now r route rule w).1 = true.

(** The request is authenticated as the user, or as nobody when there is no such user or the user is inactive. *)
Definition authenticated_as (now : Z) (r : Request) (a : A) (user : option User) (groupIDs : list N) : Prop :=
  match user with
  | Some u => if u_Active u then (authenticateProxyRequest m now r a).1 = Ok (u, groupIDs) else is_ok (authenticateProxyRequest m now r a).1 = false
  | None => is_ok (authenticateProxyRequest m now r a).1 = false
  end.

(** Authorization for a service that asks for a session and has one of the three access modes. *)
Lemma authorize_session now r route rule (w : @world R A) :
  let mode := mode_after rule (ap_AccessMode (EffectivePolicy route)) in
  normalizedAccessMethod (EffectiveMethod route) = AccessMethodSession →
  mode ∈ [AccessModePublic; AccessModeAuthenticated; AccessModeRestricted] →
  is_ok (authorize m now r route rule w).1 = true ↔
  withinAccessWindows (CompiledWindows route) now = true ∧
  (rule_is AccessRuleAllow rule = true ∨ mode = AccessModePublic ∨
   ∃ u g, (authenticateProxyRequest m now r (w_auth w)).1 = Ok (u, g) ∧
     (mode = AccessModeRestricted → isAllowedByRestrictedPolicy (Some u) g (EffectivePolicy route) = true)).
Proof.
  intros mode Hmethod Hmode. unfold authorize. fold mode. unfold bind, ret, on_auth, finish, stop, ask.
  destruct (rule_is AccessRuleAllow rule) eqn:Hal.
  { cbn [negb andb]. rewrite andb_false_r. destruct (withinAccessWindows _ _); cbn; [tauto|]. by split; [|intros []]. }
  unfold authorizeRequest, enforceAccessMethod. rewrite Hmethod. cbn [String.eqb Ascii.eqb Bool.eqb AccessMethodSession AccessMethodPIN AccessMethodEmailCode AccessMethodOIDCOnly orb].
  rewrite !elem_of_cons, elem_of_nil in Hmode. destruct Hmode as [Hm|[Hm|[Hm|[]]]]; rewrite Hm; cbn -[isAllowedByRestrictedPolicy withinAccessWindows authenticateProxyRequest expectsTokenAuth].
  - destruct (withinAccessWindows _ _); cbn; [by split; auto|]. by split; [|intros []].
  - destruct (authenticateProxyRequest m now r (w_auth w)) as [[[u g]|e] a']; cbn -[withinAccessWindows expectsTokenAuth].
    + destruct (withinAccessWindows _ _); cbn; [|by split; [|intros []]]. split; [|done]. intros _. split; [done|]. right. right. by exists u, g.
    + destruct (expectsTokenAuth r); cbn; (split; [done|by intros (_ & [?|[?|(? & ? & ? & _)]])]).
  - destruct (authenticateProxyRequest m now r (w_auth w)) as [[[u g]|e] a']; cbn -[isAllowedByRestrictedPolicy withinAccessWindows expectsTokenAuth].
    + destruct (withinAccessWindows _ _); cbn -[isAllowedByRestrictedPolicy]; [|by split; [|intros []]].
      destruct (isAllowedByRestrictedPolicy (Some u) g _) eqn:Hp; cbn [negb fst is_ok andb].
      * split; [|done]. intros _. split; [done|]. right. right. by exists u, g.
      * split; [done|]. intros (_ & [?|[?|(u' & g' & [= <- <-] & Hr)]]); [done..|]. by rewrite Hr in Hp.
    + destruct (expectsTokenAuth r); cbn; (split; [done|by intros (_ & [?|[?|(? & ? & ? & _)]])]).
Qed.

Definition reputation_clear (ip : Addr) : Prop :=
  ∀ list, reputation m = Some list → Enabled list = true → (Healthy list = true ∨ crowdSecFailOpen m = true) ∧ (IsBlocked list ip).1 = false.

Lemma matched_rule_eq r route path ip :
  realClientIP (trustedProxyCIDRs m) r = Some ip → matched_rule m r route path = matchAccessRule (RAccessRules route) ip path.
Proof. intros Hip. unfold matched_rule. rewrite Hip. by destruct (RAccessRules route). Qed.

Lemma admits_iff_clears now r route (w : @world R A) ip user groupIDs :
  realClientIP (trustedProxyCIDRs m) r = Some ip → reputation_clear ip → AllowedCountries route = [] → BlockedCountries route = [] →
  normalizedAccessMethod (EffectiveMethod route) = AccessMethodSession →
  ap_AccessMode (EffectivePolicy route) ∈ [AccessModePublic; AccessModeAuthenticated; AccessModeRestricted] →
  authenticated_as now r (w_auth w) user groupIDs →
  route_admits route ip (normalizePath (r_Path r)) now user groupIDs ↔ proxy_clears now r route w.
Proof.
  intros Hip Hrep Hac Hbc Hmethod Hmode Hauth. unfold proxy_clears. cbv zeta. rewrite (matched_rule_eq r route _ ip Hip).
  set (rule := matchAccessRule _ _ _).
  assert (mode_after rule (ap_AccessMode (EffectivePolicy route)) ∈ [AccessModePublic; AccessModeAuthenticated; AccessModeRestricted]) as Hma.
  { unfold mode_after. destruct (_ && _); [set_solver|done]. }
  rewrite (enforceNetworkRules_spec (λ _, None) (λ _ _, "")), (authorize_session now r route rule w Hmethod Hma).
  assert ((∃ u, user = Some u ∧ u_Active u = true ∧ (mode_after rule (ap_AccessMode (EffectivePolicy route)) = AccessModeRestricted →
              isAllowedByRestrictedPolicy user groupIDs (EffectivePolicy route) = true)) ↔
          ∃ u g, (authenticateProxyRequest m now r (w_auth w)).1 = Ok (u, g) ∧ (mode_after rule (ap_AccessMode (EffectivePolicy route)) = AccessModeRestricted →
              isAllowedByRestrictedPolicy (Some u) g (EffectivePolicy route) = true)) as Huser.
  { unfold authenticated_as in Hauth. destruct user as [u|]; [destruct (u_Active u) eqn:Hact|].
    - rewrite Hauth. split; [intros (? & [= <-] & _ & ?); by exists u, groupIDs|]. intros (? & ? & [= <- <-] & ?). by exists u.
    - split; [intros (? & [= <-] & ? & _); congruence|]. intros (? & ? & Heq & _). by rewrite Heq in Hauth.
    - split; [by intros (? & ? & _)|]. intros (? & ? & Heq & _). by rewrite Heq in Hauth. }
  split.
  - intros [Hb Ha Hd Hw Hacc]. cbv zeta in Hacc. fold rule in Hacc, Hd. rewrite Huser in Hacc. split_and!; try done.
    exists ip. split; [done|]. split; try done. by left.
  - intros ((ip' & Hip' & [Hb Ha _ _]) & Hd & Hw & Hacc). simplify_eq. rewrite <-Huser in Hacc. by split.
Qed.
End proxy_steps.

(** * Theorems *)

(** C22 The access explanation agrees with the proxy, for the services and requests both look at in the same way.  The service is deployed, has
    its own policy with one of the three access modes, asks for a session (the explanation knows nothing of pins, e-mail codes and
    single-sign-on-only services, see [pin_service_explained_as_allowed]), has no country lists, and its domain adds no address
    list; its entries, windows and rule actions are well formed, and a restricted policy names someone.  A request comes from the
    explained address, which the reputation list does not block, for the explained path at the explained time, and is
    authenticated as the explained user, with the account set up, or as nobody when there is no active user with that e-mail.
    Then the explanation says "allowed" exactly when the steps of the proxy for the compiled route (network rules, access rule,
    authorization) let the request through, and its decision is "allowed" exactly then. *)
Theorem explanation_agrees_with_proxy {R A} `{AuthService A} url_Parse url_String url_Port url_Hostname valid_pem LoadLocation tunnelReady
    RFC3339 parse_RFC3339 (st : auth_state) now item config revision route revision' req ip (m : Manager) r (w : @world R A) :
  explainable item → normalizedAccessMethod (s_AccessMethod item) = AccessMethodSession → toRouteConfig item = Some config →
  routeFromConfig url_Parse url_String url_Port url_Hostname valid_pem LoadLocation tunnelReady revision config = (Ok route, revision') →
  AllowedCountries route = [] → BlockedCountries route = [] →
  explain_addr req = Some ip → hasZone ip = false →
  realClientIP (trustedProxyCIDRs m) r = Some ip → reputation_clear m ip → normalizePath (r_Path r) = explained_path req →
  let t := check_time parse_RFC3339 now req in
  let user := resolve_user st (er_UserEmail req) in
  authenticated_as m t r (w_auth w) user (match user with Some u => GetUserGroupIDs st (u_ID u) | None => [] end) →
  let answer := explain LoadLocation RFC3339 parse_RFC3339 None st now item req in
  (ex_Allowed answer = true ↔ proxy_clears m t r route w) ∧ (ex_Decision answer = "allowed" ↔ ex_Allowed answer = true).
Proof.
  intros Hx Hm Hc Hr Hac Hbc Hip Hz Hreal Hrep Hpath t user Hauth answer. split; [|apply explain_reasoned].
  pose proof (routeFromConfig_service _ _ _ _ _ _ _ _ _ _ _ _ Hc Hr) as Hrs.
  assert (normalizedAccessMethod (EffectiveMethod route) = AccessMethodSession) as Hmethod.
  { rewrite (rs_method _ _ _ _ _ _ Hrs). unfold EffectiveAccessForService. rewrite (xp_own_policy _ Hx). cbn [negb fst snd].
    assert (normalizedAccessMethod (TrimSpace (s_AccessMethod item)) = AccessMethodSession) as ->; [|done].
    unfold normalizedAccessMethod in *. by rewrite TrimSpace_idem. }
  assert (ap_AccessMode (EffectivePolicy route) ∈ [AccessModePublic; AccessModeAuthenticated; AccessModeRestricted]) as Hmode.
  { rewrite (rs_policy _ _ _ _ _ _ Hrs), (explainable_policy item Hx). apply Hx. }
  pose proof (admits_iff_clears m t r route w ip user _ Hreal Hrep Hac Hbc Hmethod Hmode Hauth) as <-.
  rewrite Hpath. by eapply explain_admits.
Qed.

(** A restricted service with an allow list, a deny rule and a window on weekdays. *)
Definition explained_service : Service :=
  {| s_ID := 1; s_Name := "app"; s_DomainID := 1;
     s_Domain := {| d_ID := 1; d_Name := "example.com"; d_Type := ""; d_Provider := ""; d_Notes := ""; d_IPAllowlist := []; d_IPBlocklist := [] |};
     s_Subdomain := "app"; s_Path := "/"; s_TargetURL := "http://10.0.0.2"; s_TLSMode := ""; s_PassHostHeader := false;
     s_UpstreamSkipVerify := false; s_UpstreamCAPEM := ""; s_UpstreamServerName := ""; s_AuthPolicy := "";
     s_AccessMode := AccessModeRestricted; s_AllowedRoles := [RoleAdmin]; s_AllowedGroups := []; s_AllowedServiceGroups := [];
     s_UseGroupPolicy := false; s_AccessMethod := ""; s_AccessMethodConfig := ∅; s_AccessMessage := "";
     s_IPAllowlist := ["10.0.0.0/8"]; s_IPBlocklist := ["10.9.9.9"]; s_AllowedCountries := []; s_BlockedCountries := [];
     s_AccessWindows := [{| aw_Name := "work"; aw_DaysOfWeek := ["Thursday"]; aw_StartTime := "00:00"; aw_EndTime := "23:59"; aw_Timezone := "" |}];
     s_AccessRules := [{| ar_Name := "admin"; ar_Action := AccessRuleDeny; ar_Sources := []; ar_Paths := ["/admin"] |}];
     s_LoginHosts := []; s_LastDeployedAt := Some 0%Z; s_DeploymentRevision := 1; s_Enabled := true; s_NodeID := None; s_Node := None;
     s_ServiceGroups := [] |}.

Definition explained_route : result route_error Route * Z :=
  match toRouteConfig explained_service with
  | Some config => routeFromConfig sample_parse u_Host u_Host u_Host (λ _, true) (λ _, None) false 1 config
  | None => (Err ErrTargetURL, 0%Z)
  end.

Definition explain_request (path : string) : explainRequest :=
  {| er_UserEmail := "ada@example.com"; er_ClientIP := "10.1.2.3"; er_Time := ""; er_Method := "GET"; er_Path := path |}.
Definition explain_state : auth_state := with_users empty_auth [sample_user RoleAdmin].

Lemma explained_service_explainable : explainable explained_service.
Proof.
  constructor; cbn.
  - by eexists.
  - done.
  - assert (∀ v, TrimSpace v ≠ "" → match ParseAddr (TrimSpace v) with Some a => hasZone a | None => false end = false → entry_plain v) as He.
    { intros v Hv Hz. split; [done|]. intros a Ha. by rewrite Ha in Hz. }
    repeat constructor; (apply He; [done | by vm_compute]).
  - constructor; [by right | constructor].
  - by repeat constructor.
  - done.
  - by do 2 right; left.
  - by left.
Qed.

(** A request of the administrator from the explained address. *)
Definition explained_call (path : string) : Request :=
  {| r_Method := "GET"; r_Host := "app.example.com"; r_Path := path; r_RawPath := ""; r_RequestURI := path; r_Token := "";
     r_RemoteAddr := "10.1.2.3:5000"; r_TLS := true; r_ClientCert := ""; r_Header := list_to_map [("Authorization", ["Bearer secret"])] |}.

Lemma explanation_agrees_with_proxy_witness :
  ∃ route, explained_route.1 = Ok route ∧ proxy_clears sample_manager 0 (explained_call "/app") route sample_world ∧
  ¬ proxy_clears sample_manager 0 (explained_call "/admin/x") route sample_world.
Proof.
  destruct explained_route as [[route|] rev] eqn:Hr; [|vm_compute in Hr; discriminate Hr]. exists route. split; [reflexivity|].
  assert (AllowedCountries route = [] ∧ BlockedCountries route = []) as [Hac Hbc].
  { vm_compute in Hr. injection Hr as <- _. split; reflexivity. }
  pose proof (λ path, explanation_agrees_with_proxy sample_parse u_Host u_Host u_Host (λ _, true) (λ _, None) false (λ _, "") (λ _, None)
    explain_state 0 explained_service _ 1 route rev (explain_request path) (Addr4 167838211) sample_manager (explained_call path) sample_world
    explained_service_explainable eq_refl eq_refl Hr Hac Hbc) as H.
  assert (reputation_clear sample_manager (Addr4 167838211)) as Hrep by discriminate.
  split.
  - apply (H "/app" eq_refl eq_refl eq_refl Hrep eq_refl eq_refl). vm_compute. reflexivity.
  - intros Hn. apply (H "/admin/x" eq_refl eq_refl eq_refl Hrep eq_refl eq_refl) in Hn. vm_compute in Hn. discriminate Hn.
Defined.

Definition pin_service : Service :=
  let s := explained_service in
  {| s_ID := s_ID s; s_Name := s_Name s; s_DomainID := s_DomainID s; s_Domain := s_Domain s; s_Subdomain := s_Subdomain s; s_Path := s_Path s;
     s_TargetURL := s_TargetURL s; s_TLSMode := s_TLSMode s; s_PassHostHeader := s_PassHostHeader s; s_UpstreamSkipVerify := s_UpstreamSkipVerify s;
     s_UpstreamCAPEM := s_UpstreamCAPEM s; s_UpstreamServerName := s_UpstreamServerName s; s_AuthPolicy := s_AuthPolicy s;
     s_AccessMode := s_AccessMode s; s_AllowedRoles := s_AllowedRoles s; s_AllowedGroups := s_AllowedGroups s;
     s_AllowedServiceGroups := s_AllowedServiceGroups s; s_UseGroupPolicy := false; s_AccessMethod := AccessMethodPIN;
     s_AccessMethodConfig := s_AccessMethodConfig s; s_AccessMessage := ""; s_IPAllowlist := s_IPAllowlist s; s_IPBlocklist := s_IPBlocklist s;
     s_AllowedCountries := []; s_BlockedCountries := []; s_AccessWindows := s_AccessWindows s; s_AccessRules := s_AccessRules s;
     s_LoginHosts := []; s_LastDeployedAt := s_LastDeployedAt s; s_DeploymentRevision := 1; s_Enabled := true; s_NodeID := None; s_Node := None;
     s_ServiceGroups := [] |}.

(** The access method is not part of the explanation: the same request to the same service, but for a pin, is explained as allowed, and the proxy
    sends it to the pin page. *)
Theorem pin_service_explained_as_allowed :
  ex_Allowed (explain (λ _, None) (λ _, "") (λ _, None) None explain_state 0 pin_service (explain_request "/app")) = true ∧
  ∃ config route rev, toRouteConfig pin_service = Some config ∧
    routeFromConfig sample_parse u_Host u_Host u_Host (λ _, true) (λ _, None) false 1 config = (Ok route, rev) ∧
    ¬ proxy_clears sample_manager 0 (explained_call "/app") route sample_world.
Proof.
  split; [vm_compute; reflexivity|]. destruct (toRouteConfig pin_service) as [config|] eqn:Hc; [|vm_compute in Hc; discriminate Hc].
  destruct (routeFromConfig sample_parse u_Host u_Host u_Host (λ _, true) (λ _, None) false 1 config) as [[route|] rev] eqn:Hr;
    [|vm_compute in Hc; injection Hc as <-; vm_compute in Hr; discriminate Hr].
  exists config, route, rev. split; [reflexivity|]. split; [exact Hr|]. vm_compute in Hc. injection Hc as <-. vm_compute in Hr. injection Hr as <- _.
  intros (_ & _ & Ha). vm_compute in Ha. discriminate Ha.
Qed.

(** ** Numbers *)

Lemma format_loop_pretty room value buf :
  (value < 10 ^ N.of_nat room)%N → format_loop room value buf = Some (pretty_N_go value buf).
Proof.
  revert value buf. induction room as [|room IH]; intros value buf Hv; cbn [format_loop].
  - assert (value = 0)%N as -> by (cbn in Hv; lia). by rewrite pretty_N_go_0.
  - destruct (N.eqb_spec value 0) as [->|Hne]; [by rewrite pretty_N_go_0|]. rewrite (pretty_N_go_step value) by lia.
    assert (String.get (N.to_nat (value mod 10)) digits = Some (pretty_N_char (value mod 10))) as ->.
    { pose proof (N.mod_lt value 10 ltac:(lia)) as Hlt. remember (value mod 10)%N as d eqn:Hd. clear Hd.
      assert (d = 0 ∨ d = 1 ∨ d = 2 ∨ d = 3 ∨ d = 4 ∨ d = 5 ∨ d = 6 ∨ d = 7 ∨ d = 8 ∨ d = 9)%N as Hc by lia.
      repeat (destruct Hc as [-> | Hc]; [reflexivity|]). by rewrite Hc. }
    apply IH. rewrite Nat2N.inj_succ, N.pow_succ_r' in Hv. apply N.Div0.div_lt_upper_bound. lia.
Qed.

(** The twenty bytes of the buffer hold every 64-bit number: [formatUint] never runs out of room and prints the decimal digits. *)
Theorem formatUint_decimal value : (value < 2 ^ 64)%N → formatUint value = Some (FormatUint value).
Proof.
  intros Hv. unfold formatUint, FormatUint, pretty, pretty_N. destruct (N.eqb_spec value 0) as [->|Hne]; [done|].
  rewrite decide_False by done. apply format_loop_pretty. eapply N.lt_trans; [exact Hv|]. reflexivity.
Qed.

Lemma formatUint_decimal_witness : formatUint 18446744073709551615 = Some "18446744073709551615".
Proof. apply (formatUint_decimal 18446744073709551615). reflexivity. Defined.

(** ** Where the two decisions part *)

(** A restricted policy that names nobody: the explanation lets every active user pass, the proxy nobody. *)
Theorem open_restricted_policy_explained_open st item reqEmail user groupIDs policy :
  resolve_user st reqEmail = Some user → u_Active user = true →
  s_AllowedRoles item = [] → s_AllowedGroups item = [] → ap_AllowedRoles policy = [] → ap_AllowedGroups policy = [] →
  mode_passes st item AccessModeRestricted reqEmail = true ∧ isAllowedByRestrictedPolicy (Some user) groupIDs policy = false.
Proof. intros Hu Ha Hr Hg Hpr Hpg. unfold mode_passes, isAllowedByRestrictedPolicy. by rewrite Hu, Ha, Hr, Hg, Hpr, Hpg. Qed.

Lemma open_restricted_policy_explained_open_witness :
  mode_passes explain_state (sample_grouped_service) AccessModeRestricted "ada@example.com" = true ∧
  isAllowedByRestrictedPolicy (Some (sample_user RoleAdmin)) [] emptyPolicy = false.
Proof. apply open_restricted_policy_explained_open; reflexivity. Defined.

(** The row of a service with another domain and other groups. *)
Definition with_other_domain (item : Service) (dom : DomainRow) (groups : list ServiceGroup) : Service :=
  with_relations item dom (s_Node item) groups.

(** The explanation reads neither the address lists of the domain nor the policies of the groups. *)
Theorem explanation_ignores_domain_and_groups LoadLocation RFC3339 parse_RFC3339 lookup_error st now item req dom groups :
  explain LoadLocation RFC3339 parse_RFC3339 lookup_error st now (with_other_domain item dom groups) req =
  explain LoadLocation RFC3339 parse_RFC3339 lookup_error st now item req.
Proof. reflexivity. Qed.

(** ** Denials *)

Lemma collect_denials_spec unmarshal_object limit logs out :
  (length out ≤ limit)%nat →
  collect_denials unmarshal_object limit logs out =
  out ++ take (limit - length out) (denial_of unmarshal_object <$> List.filter (is_denial unmarshal_object) logs).
Proof.
  revert out. induction logs as [|log logs IH]; intros out Hl; cbn [collect_denials List.filter].
  - cbn. by rewrite take_nil, app_nil_r.
  - destruct (Nat.leb_spec limit (length out)) as [Hge|Hlt].
    + replace (limit - length out)%nat with 0%nat by lia. by rewrite take_0, app_nil_r.
    + rewrite <-negb_orb. fold (is_denial unmarshal_object log). destruct (is_denial unmarshal_object log); cbn [negb]; [|by apply IH].
      rewrite IH by (rewrite length_app; cbn; lia). rewrite length_app, <-app_assoc. cbn.
      replace (limit - length out)%nat with (S (limit - (length out + 1)))%nat by lia. done.
Qed.

(** The refusals listed for a service are those, in order, among its two hundred latest proxy rows, cut after at most a hundred. *)
Theorem denials_listed fold by_timestamp_desc unmarshal_object services rows id limitParam item events limit :
  services_GetByID services id = Some item →
  handleListServiceDenials fold by_timestamp_desc unmarshal_object services rows id limitParam = Answer (events, limit) →
  let mine r := String.eqb (ResourceType r) "service" && bool_decide (ResourceID r = Some (Z.of_N (s_ID item))) && like fold "proxy_access" (Action r) in
  (1 ≤ limit ≤ 100)%Z ∧
  events = take (Z.to_nat limit) (denial_of unmarshal_object <$>
    List.filter (is_denial unmarshal_object) (take 200 (by_timestamp_desc (List.filter mine rows)))).
Proof.
  intros Hi Hh mine. unfold handleListServiceDenials in Hh. rewrite Hi in Hh. injection Hh as <- <-. split.
  { destruct (Z.leb_spec limitParam 0); cbn; [lia|]. destruct (Z.ltb_spec 100 limitParam); cbn; lia. }
  rewrite collect_denials_spec by (cbn; lia). cbn [length app]. rewrite Nat.sub_0_r. do 3 f_equal. unfold audit_List. cbn [fst lp_Limit lp_Offset].
  cbn [Z.leb Z.ltb Z.compare Pos.compare orb Pos.compare_cont]. rewrite drop_0. do 2 f_equal. apply List.filter_ext.
  intros r. unfold list_selects, mine, if_set, if_some. cbn. by rewrite !andb_true_r.
Qed.

Definition denied_row : AuditLog :=
  {| ID := 5; Timestamp := 9; RequestID := "r"; UserID := None; Action := "proxy_access"; ResourceType := "service"; ResourceID := Some 1%Z;
     Method := "GET"; AuditChain.Host := "app.example.com"; AuditChain.Path := "/"; StatusCode := 403; LatencyMs := 1; RemoteAddr := "10.1.2.3";
     UserAgent := ""; Details := "{}"; PrevHash := ""; Hash := "" |}.
Definition denied_details (raw : string) : JSONObject := <["outcome" := AnyString "denied"]> ∅.

Lemma denials_listed_witness :
  ∃ event, handleListServiceDenials false (λ l, l) denied_details [explained_service] [denied_row; denied_row] 1 1 = Answer ([event], 1%Z) ∧
    [event] = take 1 (denial_of denied_details <$> List.filter (is_denial denied_details) (take 200 [denied_row; denied_row])).
Proof.
  eexists. split; [vm_compute; reflexivity|].
  exact (proj2 (denials_listed false (λ l, l) denied_details [explained_service] [denied_row; denied_row] 1 1 explained_service _ 1%Z
    eq_refl eq_refl)).
Defined.
