(* ===== verification/SelfUpdate.v ===== *)
(** Self update: internal/selfupdate (versions, releases, downloads, checksums, signatures, the swap of the binary),
    the commands that use it (cmd/server/update.go and verify_release.go, whose copies in cmd/nodeagent differ in three
    constants) and the check for new releases (internal/updatecheck).

    The file system is a map from paths to files.  Every call that changes it is one step and may fail; the states it
    goes through are recorded, so that a crash between two calls is a prefix of the record.  HTTP, JSON, SHA-256 and
    the sigstore verifier are parameters. *)
From S2P Require Import Prelude GoStrings Netip Domain AuditChain.

#[local] Open Scope string_scope.
#[local] Open Scope list_scope.

(** * Definitions *)

(** ** Versions *)

(** [strconv.Atoi] on a 64-bit platform. *)
Definition Atoi (s : string) : option Z :=
  let '(neg, body) := match s with
                      | String "-" rest => (true, rest)
                      | String "+" rest => (false, rest)
                      | _ => (false, s)
                      end in
  if non_empty body then
    match digits_val 10 0 body with
    | Some v =>
        let v := if neg : bool then (- v)%Z else v in
        if ((- 2 ^ 63 <=? v) && (v <? 2 ^ 63))%Z then Some v else None
    | None => None
    end
  else None.

(** What stands before the first of '-' and '+'. *)
Fixpoint before_suffix (v : string) : string :=
  match v with
  | "" => ""
  | String a v' => if Ascii.eqb a "-" || Ascii.eqb a "+" then "" else String a (before_suffix v')
  end.

Fixpoint semver_parts (parts : list string) : option (list Z) :=
  match parts with
  | [] => Some []
  | part :: parts =>
      match Atoi part with
      | Some n => if (n <? 0)%Z then None
                  else match semver_parts parts with Some out => Some (n :: out) | None => None end
      | None => None
      end
  end.

(** The array is zero where the version has no part. *)
Definition parseSemver (v : string) : option (Z * Z * Z) :=
  let v := TrimPrefix (TrimSpace v) "v" in
  if String.eqb v "" then None
  else
    let parts := Split (before_suffix v) "." in
    if (3 <? length parts)%nat then None
    else match semver_parts parts with
         | Some out => Some (nth 0 out 0%Z, nth 1 out 0%Z, nth 2 out 0%Z)
         | None => None
         end.

(** One round of the loop over the three numbers; [next] is the rest. *)
Definition compare_part (x y next : Z) : Z :=
  if negb (x =? y)%Z then (if (x <? y)%Z then (-1)%Z else 1%Z) else next.

(** [None] when a version does not parse. *)
Definition CompareVersions (a b : string) : option Z :=
  match parseSemver a, parseSemver b with
  | Some (a1, a2, a3), Some (b1, b2, b3) =>
      Some (compare_part a1 b1 (compare_part a2 b2 (compare_part a3 b3 0%Z)))
  | _, _ => None
  end.

(** ** Releases *)

Record ReleaseInfo := { rl_Tag : string; rl_AssetBaseURL : string }.

(** The answer of a server: its status and its body; [complete] when the body could be read to its end. *)
Record http_answer := { ha_status : Z; ha_body : string; ha_complete : bool }.

Inductive update_error :=
  | ErrEmptyTag | ErrRequest (url : string) | ErrNoRelease (url : string) | ErrStatus (status : Z) | ErrDecode | ErrNoTagName
  | ErrCopy (url : string) | ErrDowngrade (tag : string) | ErrExecutable | ErrNotWritable
  | ErrNoChecksum (asset : string) | ErrChecksum (asset : string)
  | ErrEmptyBundle | ErrBundleJSON | ErrLegacyBundle | ErrBundleParse | ErrTrustedRoot | ErrIdentity | ErrSignature
  | ErrStat | ErrCreateTemp | ErrWriteBinary | ErrCloseBinary | ErrChmodBinary | ErrBackup | ErrRename
  | ErrFlags | ErrReadFile (path : string).

Section release.
(** [http.Client.Do], [None] without an answer; the tag_name of a release in JSON. *)
Context (http_get : string → option http_answer) (decode_tag : string → option string).

Definition githubAPIBase : string := "https://api.github.com".

Definition fetchRelease (url repo : string) : result update_error ReleaseInfo :=
  match http_get url with
  | None => Err (ErrRequest url)
  | Some resp =>
      if (ha_status resp =? 404)%Z then Err (ErrNoRelease url)
      else if (300 <=? ha_status resp)%Z then Err (ErrStatus (ha_status resp))
      else match decode_tag (ha_body resp) with
           | None => Err ErrDecode
           | Some tagName =>
               if String.eqb (TrimSpace tagName) "" then Err ErrNoTagName
               else Ok {| rl_Tag := tagName;
                          rl_AssetBaseURL := "https://github.com/" +:+ repo +:+ "/releases/download/" +:+ tagName |}
           end
  end.

Definition ResolveLatest (repo : string) : result update_error ReleaseInfo :=
  fetchRelease (githubAPIBase +:+ "/repos/" +:+ repo +:+ "/releases/latest") repo.

Definition ResolveByTag (repo tag : string) : result update_error ReleaseInfo :=
  let tag := TrimSpace tag in
  if String.eqb tag "" then Err ErrEmptyTag
  else fetchRelease (githubAPIBase +:+ "/repos/" +:+ repo +:+ "/releases/tags/" +:+ tag) repo.

(** What [DownloadAsset] writes to its destination. *)
Definition DownloadAsset (baseURL name : string) : result update_error string :=
  let url := TrimRight baseURL "/" +:+ "/" +:+ name in
  match http_get url with
  | None => Err (ErrRequest url)
  | Some resp =>
      if negb (ha_status resp =? 200)%Z then Err (ErrStatus (ha_status resp))
      else if negb (ha_complete resp) then Err (ErrCopy url)
      else Ok (ha_body resp)
  end.
Definition DownloadString (baseURL name : string) : result update_error string := DownloadAsset baseURL name.
End release.

(** ** Checksums and signatures *)

(** [strings.Fields]. *)
Definition Fields (s : string) : list string :=
  FieldsByte (string_map (λ a, if is_space a then " "%char else a) s) " ".

Definition newline : ascii := ascii_of_nat 10.

Fixpoint lookup_lines (lines : list string) (assetName : string) : result update_error string :=
  match lines with
  | [] => Err (ErrNoChecksum assetName)
  | line :: lines =>
      match Fields line with
      | sum :: name :: _ =>
          if String.eqb name assetName || String.eqb (TrimPrefix name "*") assetName then Ok sum
          else lookup_lines lines assetName
      | _ => lookup_lines lines assetName
      end
  end.
Definition lookupChecksum (checksumsTxt assetName : string) : result update_error string :=
  lookup_lines (Split checksumsTxt newline) assetName.

Record CosignIdentity := {
  ci_SANRegex : string; ci_OIDCIssuer : string; ci_SourceRepositoryURI : string; ci_Trigger : string; ci_SourceRef : string;
}.

Definition ReleaseOIDCIssuer : string := "https://token.actions.githubusercontent.com".
Definition ReleaseRepositoryURI : string := "https://github.com/Portlyn/Portlyn".
Definition ReleaseSANRegex : string :=
  "^https://github\.com/Portlyn/Portlyn/\.github/workflows/release\.yml@refs/tags/v[0-9]+\.[0-9]+\.[0-9]+(-[0-9A-Za-z.-]+)?$".
Definition ReleaseTrigger : string := "push".

Definition ReleaseIdentity (tag : string) : CosignIdentity :=
  let tag := TrimSpace tag in
  {| ci_SANRegex := ReleaseSANRegex; ci_OIDCIssuer := ReleaseOIDCIssuer; ci_SourceRepositoryURI := ReleaseRepositoryURI;
     ci_Trigger := ReleaseTrigger; ci_SourceRef := if negb (String.eqb tag "") then "refs/tags/" +:+ tag else "" |}.

Section verify.
Context (sha256 : string → string).
(** [json.Valid]; reading a bundle; reading the embedded trusted root; building the matchers of an identity; building
    a verifier and [Verify] of a payload with one certificate timestamp, one log entry and one observed timestamp,
    for a certificate with that identity. *)
Context (json_Valid bundle_parses : string → bool) (trusted_root : bool) (identity_matchers : CosignIdentity → bool).
Context (sigstore_Verify : string → string → CosignIdentity → bool).

Definition ChecksumHex (payload : string) : string := hex_encode (sha256 payload).

Definition VerifySHA256 (payload checksumsTxt assetName : string) : result update_error unit :=
  match lookupChecksum checksumsTxt assetName with
  | Err e => Err e
  | Ok expected => if negb (String.eqb expected (ChecksumHex payload)) then Err (ErrChecksum assetName) else Ok tt
  end.

Definition quote : ascii := ascii_of_nat 34.
Definition legacy_marker : string := String quote ("base64Signature" +:+ String quote "").

Definition VerifyCosignBundle (payload bundleJSON : string) (identity : CosignIdentity) : result update_error unit :=
  if String.eqb (TrimSpace bundleJSON) "" then Err ErrEmptyBundle
  else if negb (json_Valid bundleJSON) then Err ErrBundleJSON
  else if Contains bundleJSON legacy_marker then Err ErrLegacyBundle
  else if negb (bundle_parses bundleJSON) then Err ErrBundleParse
  else if negb trusted_root then Err ErrTrustedRoot
  else if String.eqb (ci_SANRegex identity) "" || String.eqb (ci_OIDCIssuer identity) ""
          || String.eqb (ci_SourceRepositoryURI identity) "" || String.eqb (ci_Trigger identity) "" then Err ErrIdentity
  else if negb (identity_matchers identity) then Err ErrIdentity
  else if negb (sigstore_Verify bundleJSON payload identity) then Err ErrSignature
  else Ok tt.
End verify.

(** ** The swap of the binary *)

Record file := { fl_content : string; fl_mode : Z }.
Abbreviation files := (gmap string file).

(** The calls that may fail. *)
Inductive fs_op :=
  | OpProbe | OpExecutable | OpStatExe | OpCreate | OpWrite | OpClose | OpChmod | OpStat | OpBackup | OpInstall | OpRestore
  | OpChmodBackup | OpRemove.

(** The state and the states gone through, oldest first. *)
Definition io (X : Type) : Type := files * list files → result update_error X * (files * list files).
Definition io_ret {X} (x : X) : io X := λ s, (Ok x, s).
Definition io_fail {X} (e : update_error) : io X := λ s, (Err e, s).
Definition io_bind {X Y} (c : io X) (k : X → io Y) : io Y := λ s,
  match c s with (Ok x, s') => k x s' | (Err e, s') => (Err e, s') end.
Definition io_get : io files := λ s, (Ok s.1, s).
(** One call that changes the file system. *)
Definition io_put (fs : files) : io unit := λ '(_, seen), (Ok tt, (fs, seen ++ [fs])).
(** [defer]: [d] runs whatever [c] answers. *)
Definition io_defer {X} (c : io X) (d : io unit) : io X := λ s, let '(r, s') := c s in (r, (d s').2).
#[local] Notation "'do' x <- c ; k" := (io_bind c (λ x, k)) (at level 200, x name, c at level 100, k at level 200).

(** [os.Rename]: atomic, it replaces the target. *)
Definition rename (src dst : string) (fs : files) : option files :=
  match fs !! src with Some f => Some (<[dst := f]> (delete src fs)) | None => None end.

Definition prefix_bytes (n : nat) (s : string) : string := String.substring 0 n s.

Section swap.
Context (fails : fs_op → bool).
(** How much of the payload a crash or an error during the copy leaves in the file. *)
Context (partial : nat).
(** [os.CreateTemp] takes a suffix that makes the name a new one. *)
Context (suffix : files → string).

(** For an absolute path, the directory of [path] joined with its last element and ".new-*". *)
Definition tmp_path (currentPath : string) (fs : files) : string := currentPath +:+ ".new-" +:+ suffix fs.

Definition remove (path : string) : io unit :=
  do fs <- io_get;
  if fails OpRemove then io_ret tt
  else match fs !! path with Some _ => io_put (delete path fs) | None => io_ret tt end.

Definition chmod (op : fs_op) (path : string) (mode : Z) (e : update_error) : io unit :=
  do fs <- io_get;
  match fs !! path with
  | Some f => if fails op then io_fail e else io_put (<[path := {| fl_content := fl_content f; fl_mode := mode |}]> fs)
  | None => io_fail e
  end.

Definition move (op : fs_op) (src dst : string) (e : update_error) : io unit :=
  do fs <- io_get;
  match rename src dst fs with
  | Some fs' => if fails op then io_fail e else io_put fs'
  | None => io_fail e
  end.

(** An ignored error. *)
Definition io_ignore (c : io unit) : io unit := λ s, (Ok tt, (c s).2).
Definition io_or_else {X} (c : io X) (handler : update_error → io X) : io X := λ s,
  match c s with (Ok x, s') => (Ok x, s') | (Err e, s') => handler e s' end.

(** [io.Copy] into the new file: the bytes arrive one after the other. *)
Definition copy_payload (tmpPath payload : string) : io unit :=
  do fs <- io_get;
  do _ <- io_put (<[tmpPath := {| fl_content := prefix_bytes partial payload; fl_mode := 384 |}]> fs);
  if fails OpWrite then io_fail ErrWriteBinary
  else io_put (<[tmpPath := {| fl_content := payload; fl_mode := 384 |}]> fs).

Definition AtomicSwap (currentPath payload : string) (mode : Z) : io string :=
  do fs <- io_get;
  let tmpPath := tmp_path currentPath fs in
  let backupPath := currentPath +:+ ".bak" in
  do _ <- (if fails OpCreate then io_fail ErrCreateTemp else io_put (<[tmpPath := {| fl_content := ""; fl_mode := 384 |}]> fs));
  io_defer
    (do _ <- copy_payload tmpPath payload;
     do _ <- (if fails OpClose then io_fail ErrCloseBinary else io_ret tt);
     do _ <- chmod OpChmod tmpPath mode ErrChmodBinary;
     do fs <- io_get;
     do _ <- (match fs !! currentPath with
              | Some _ => if fails OpStat then io_ret tt else move OpBackup currentPath backupPath ErrBackup
              | None => io_ret tt
              end);
     do _ <- io_or_else (move OpInstall tmpPath currentPath ErrRename)
               (λ e, do _ <- io_ignore (move OpRestore backupPath currentPath ErrRename); io_fail e);
     do _ <- io_ignore (chmod OpChmodBackup backupPath 384 ErrChmodBinary);
     io_ret backupPath)
    (remove tmpPath).

(** [filepath.Dir] of an absolute path, with its last slash. *)
Definition dir_of (path : string) : string := match cut_last path "/" with Some (dir, _) => dir +:+ "/" | None => "./" end.

Definition RequireWritable (path : string) : io unit :=
  let probe := dir_of path +:+ ".portlyn-writable-probe" in
  do fs <- io_get;
  if fails OpProbe then io_fail ErrNotWritable
  else
    do _ <- io_put (<[probe := {| fl_content := ""; fl_mode := match fs !! probe with Some f => fl_mode f | None => 384 end |}]> fs);
    remove probe.
End swap.

(** ** The commands *)

Definition AssetName (GOOS GOARCH prefix : string) : string :=
  let ext := if String.eqb GOOS "windows" then ".exe" else "" in
  prefix +:+ "-" +:+ GOOS +:+ "-" +:+ GOARCH +:+ ext.

Record updateConfig := {
  uc_assetPrefix : string; uc_repo : string; uc_unit : string; uc_currentVer : string; uc_checkOnly : bool;
  uc_targetVersion : string; uc_noRestart : bool; uc_allowDowngrade : bool;
}.

(** What the command prints in the end. *)
Inductive update_report :=
  | UpToDate | Available (tag : string)
  | Installed (tag backup : string) (restarted : option bool).   (* [None]: the restart was skipped *)

(** Everything outside the program: the network, sigstore, the platform and systemd. *)
Record update_env := {
  ue_http : string → option http_answer;
  ue_decode_tag : string → option string;
  ue_sha256 : string → string;
  ue_json_Valid : string → bool;
  ue_bundle_parses : string → bool;
  ue_trusted_root : bool;
  ue_identity_matchers : CosignIdentity → bool;
  ue_sigstore_Verify : string → string → CosignIdentity → bool;
  ue_GOOS : string;
  ue_GOARCH : string;
  ue_exe : string;                       (* [os.Executable] *)
  ue_fails : fs_op → bool;
  ue_partial : nat;
  ue_suffix : files → string;
  ue_restart : string → bool;            (* [systemctl restart] of a unit succeeds *)
}.

Definition io_lift {X} (r : result update_error X) : io X := λ s, (r, s).

Section commands.
Context (env : update_env).

Definition verify_sha256 := VerifySHA256 (ue_sha256 env).
Definition verify_bundle :=
  VerifyCosignBundle (ue_json_Valid env) (ue_bundle_parses env) (ue_trusted_root env) (ue_identity_matchers env) (ue_sigstore_Verify env).
Definition download := DownloadString (ue_http env).

(** From the release to the new binary. *)
Definition install_release (cfg : updateConfig) (rel : ReleaseInfo) : io update_report :=
  do _ <- (if negb (uc_allowDowngrade cfg) then
             match CompareVersions (rl_Tag rel) (uc_currentVer cfg) with
             | Some cmp => if (cmp <? 0)%Z then io_fail (ErrDowngrade (rl_Tag rel)) else io_ret tt
             | None => io_ret tt
             end
           else io_ret tt);
  do exe <- (if ue_fails env OpExecutable then io_fail ErrExecutable else io_ret (ue_exe env));
  do _ <- RequireWritable (ue_fails env) exe;
  let asset := AssetName (ue_GOOS env) (ue_GOARCH env) (uc_assetPrefix cfg) in
  do binary <- io_lift (DownloadAsset (ue_http env) (rl_AssetBaseURL rel) asset);
  do checksums <- io_lift (download (rl_AssetBaseURL rel) "checksums.txt");
  do _ <- io_lift (verify_sha256 binary checksums asset);
  do bundleJSON <- io_lift (download (rl_AssetBaseURL rel) "checksums.txt.bundle.json");
  do _ <- io_lift (verify_bundle checksums bundleJSON (ReleaseIdentity (rl_Tag rel)));
  do fs <- io_get;
  do info <- (match fs !! exe with
              | Some f => if ue_fails env OpStatExe then io_fail ErrStat else io_ret (fl_mode f)
              | None => io_fail ErrStat
              end);
  do backup <- AtomicSwap (ue_fails env) (ue_partial env) (ue_suffix env) exe binary info;
  io_ret (Installed (rl_Tag rel) backup (if uc_noRestart cfg then None else Some (ue_restart env (uc_unit cfg)))).

Definition runSelfUpdate (cfg : updateConfig) : io update_report :=
  do rel <- io_lift (if negb (String.eqb (uc_targetVersion cfg) "")
                     then ResolveByTag (ue_http env) (ue_decode_tag env) (uc_repo cfg) (uc_targetVersion cfg)
                     else ResolveLatest (ue_http env) (ue_decode_tag env) (uc_repo cfg));
  if uc_checkOnly cfg then
    io_ret (if String.eqb (rl_Tag rel) (uc_currentVer cfg) then UpToDate else Available (rl_Tag rel))
  else if String.eqb (rl_Tag rel) (uc_currentVer cfg) && String.eqb (uc_targetVersion cfg) "" then io_ret UpToDate
  else install_release cfg rel.

(** The flags of the update command. *)
Record update_flags := {
  uf_check : bool; uf_version : string; uf_noRestart : bool; uf_unit : option string; uf_allowDowngrade : bool;
}.

Definition updateRepo : string := "portlyn/Portlyn".
Definition update_config (prefix defaultUnit version : string) (flags : update_flags) : updateConfig :=
  {| uc_assetPrefix := prefix; uc_repo := updateRepo; uc_unit := default defaultUnit (uf_unit flags); uc_currentVer := version;
     uc_checkOnly := uf_check flags; uc_targetVersion := TrimSpace (uf_version flags); uc_noRestart := uf_noRestart flags;
     uc_allowDowngrade := uf_allowDowngrade flags |}.

Definition runUpdate (version : string) (flags : update_flags) : io update_report :=
  runSelfUpdate (update_config "portlyn" "portlyn.service" version flags).
Definition nodeagent_runUpdate (version : string) (flags : update_flags) : io update_report :=
  runSelfUpdate (update_config "portlyn-nodeagent" "portlyn-nodeagent.service" version flags).

(** verify-release: the files of a release that were downloaded by hand. *)
Record verify_flags := { vf_checksums : string; vf_bundle : string; vf_asset : string; vf_tag : string; vf_assetName : string }.

Definition base_of (path : string) : string := match cut_last path "/" with Some (_, name) => name | None => path end.

(** Whether the asset was checked too. *)
Definition runVerifyRelease (read : string → option string) (flags : verify_flags) : result update_error bool :=
  if String.eqb (vf_checksums flags) "" || String.eqb (vf_bundle flags) "" then Err ErrFlags
  else match read (vf_checksums flags) with
       | None => Err (ErrReadFile (vf_checksums flags))
       | Some checksumsData =>
       match read (vf_bundle flags) with
       | None => Err (ErrReadFile (vf_bundle flags))
       | Some bundleData =>
       match verify_bundle checksumsData bundleData (ReleaseIdentity (vf_tag flags)) with
       | Err e => Err e
       | Ok _ =>
           if negb (String.eqb (vf_asset flags) "") then
             let name := if String.eqb (vf_assetName flags) "" then base_of (vf_asset flags) else vf_assetName flags in
             match read (vf_asset flags) with
             | None => Err (ErrReadFile (vf_asset flags))
             | Some assetData => match verify_sha256 assetData checksumsData name with Err e => Err e | Ok _ => Ok true end
             end
           else Ok false
       end end end.
End commands.

(** ** The check for new releases *)

Record Status := {
  us_Enabled : bool; us_CurrentVersion : string; us_LatestVersion : string; us_UpdateAvailable : bool; us_ReleaseURL : string;
  us_CheckedAt : option Z; us_InstallMethod : string;
}.

Record Checker := { ch_repo : string; ch_currentVersion : string; ch_interval : Z; ch_installMethod : string; ch_latest : string; ch_checkedAt : Z }.

Definition detectInstallMethod (dockerenv : bool) : string := if dockerenv then "docker" else "binary".
Definition newChecker (repo currentVersion : string) (interval : Z) (dockerenv : bool) : Checker :=
  {| ch_repo := repo; ch_currentVersion := currentVersion; ch_interval := if (interval <=? 0)%Z then (12 * Hour)%Z else interval;
     ch_installMethod := detectInstallMethod dockerenv; ch_latest := ""; ch_checkedAt := 0 |}.

(** The checker starts when its own version parses. *)
Definition checker_starts (c : Checker) : bool := bool_decide (is_Some (CompareVersions (ch_currentVersion c) (ch_currentVersion c))).

(** [resolve] is the answer of [opts.Resolve]. *)
Definition CheckNow (enabled : bool) (resolve : string → option string) (now : Z) (c : Checker) : Checker :=
  if negb enabled then c
  else match resolve (ch_repo c) with
       | None => c
       | Some tag => {| ch_repo := ch_repo c; ch_currentVersion := ch_currentVersion c; ch_interval := ch_interval c;
                        ch_installMethod := ch_installMethod c; ch_latest := tag; ch_checkedAt := now |}
       end.

Definition checker_Status (enabled : bool) (c : Checker) : Status :=
  let status := {| us_Enabled := enabled; us_CurrentVersion := ch_currentVersion c; us_LatestVersion := ""; us_UpdateAvailable := false;
                   us_ReleaseURL := ""; us_CheckedAt := None; us_InstallMethod := ch_installMethod c |} in
  if negb enabled then status
  else if String.eqb (ch_latest c) "" then status
  else {| us_Enabled := enabled; us_CurrentVersion := ch_currentVersion c; us_LatestVersion := ch_latest c;
          us_UpdateAvailable := match CompareVersions (ch_latest c) (ch_currentVersion c) with Some cmp => (0 <? cmp)%Z | None => false end;
          us_ReleaseURL := "https://github.com/" +:+ ch_repo c +:+ "/releases/tag/" +:+ ch_latest c;
          us_CheckedAt := Some (ch_checkedAt c); us_InstallMethod := ch_installMethod c |}.

(** * Lemmas *)

(** ** The swap *)

Lemma path_suffix_inj p x y : p +:+ x = p +:+ y → x = y.
Proof. induction p as [|a p IH]; cbn; [done|]. intros [= H]. by apply IH. Qed.

Lemma path_suffix_ne p x : x ≠ "" → p +:+ x ≠ p.
Proof. intros Hx H. apply Hx. apply (path_suffix_inj p). by rewrite H, string_app_nil_r. Qed.

Section swap_facts.
Context (fails : fs_op → bool) (partial : nat) (suffix : files → string) (cur payload : string) (mode : Z).
Let bak := cur +:+ ".bak".
Let new := {| fl_content := payload; fl_mode := mode |}.

(** A whole binary is at its place, or the old one is at the place of the backup. *)
Definition binary_kept (old : file) (fs : files) : Prop :=
  fs !! cur = Some old ∨ (fs !! cur = None ∧ fs !! bak = Some old) ∨ fs !! cur = Some new.

Lemma swap_paths fs : tmp_path suffix cur fs ≠ cur ∧ bak ≠ cur ∧ tmp_path suffix cur fs ≠ bak.
Proof.
  unfold tmp_path, bak. split_and!; [by apply path_suffix_ne.. |]. intros H%path_suffix_inj. done.
Qed.
End swap_facts.

Ltac fs_step :=
  repeat first
    [ progress cbn
    | rewrite lookup_insert_eq
    | rewrite lookup_insert_ne by done
    | rewrite lookup_delete_eq
    | rewrite lookup_delete_ne by done ].

Ltac kept_tac :=
  first [ by left; fs_step | by right; left; split; fs_step | by right; right; fs_step ].

Ltac swap_done :=
  fs_step; (split; [|split; [|split]]);
  [ intros Hs; repeat first [exact Hs | apply Forall_nil_2 | apply Forall_cons_2 | apply Forall_app_2]; cbv beta; kept_tac
  | first [ by left; fs_step | by right; split_and!; fs_step
          | split_and!; [done | by fs_step | intros ?; first [done | eexists; by fs_step]] ]
  | intros p ???; by fs_step
  | first [done | by intros _; fs_step] ].

Lemma swap_spec fails partial suffix cur payload mode old fs0 seen0 :
  fs0 !! cur = Some old → fs0 !! tmp_path suffix cur fs0 = None →
  (fails OpStat = false ∨ fs0 !! (cur +:+ ".bak") = None) →
  let kept := binary_kept cur payload mode old in
  let '(r, (fs, seen)) := AtomicSwap fails partial suffix cur payload mode (fs0, seen0) in
  (Forall kept seen0 → Forall kept seen) ∧
  match r with
  | Ok backup => backup = cur +:+ ".bak" ∧ fs !! cur = Some {| fl_content := payload; fl_mode := mode |} ∧
      (fails OpStat = false → ∃ m, fs !! backup = Some {| fl_content := fl_content old; fl_mode := m |})
  | Err _ => fs !! cur = Some old ∨
      (fails OpInstall = true ∧ fails OpRestore = true ∧ fs !! cur = None ∧ fs !! (cur +:+ ".bak") = Some old)
  end ∧
  (∀ p, p ≠ cur → p ≠ cur +:+ ".bak" → p ≠ tmp_path suffix cur fs0 → fs !! p = fs0 !! p) ∧
  (fails OpRemove = false → fs !! tmp_path suffix cur fs0 = None).
Proof.
  destruct old as [oc om]. intros Hold Htmp Hstat kept. destruct (swap_paths suffix cur fs0) as (Htc & Hbc & Htb).
  unfold AtomicSwap, io_bind, io_get. cbn [fst]. set (tmp := tmp_path suffix cur fs0) in *.
  unfold kept, binary_kept. set (bak := cur +:+ ".bak") in *. clearbody tmp bak.
  destruct (fails OpCreate); cbn; [by split_and!; auto|].
  unfold io_defer, copy_payload, chmod, move, io_or_else, io_ignore, rename, remove, io_bind, io_get, io_put, io_ret, io_fail. fs_step.
  destruct (fails OpWrite) eqn:Hw; fs_step. { destruct (fails OpRemove) eqn:Hrm; swap_done. }
  destruct (fails OpClose) eqn:Hcl; fs_step. { destruct (fails OpRemove) eqn:Hrm; swap_done. }
  destruct (fails OpChmod) eqn:Hcm; fs_step. { destruct (fails OpRemove) eqn:Hrm; swap_done. }
  rewrite Hold. fs_step. destruct (fails OpStat) eqn:Hst; fs_step.
  - destruct Hstat as [|Hnb]; [done|]. destruct (fails OpInstall) eqn:Hin; fs_step; rewrite ?Hnb; fs_step.
    + destruct (fails OpRemove) eqn:Hrm; swap_done.
    + destruct (fails OpRemove) eqn:Hrm; swap_done.
  - rewrite Hold. destruct (fails OpBackup) eqn:Hbk; fs_step. { destruct (fails OpRemove) eqn:Hrm; swap_done. }
    destruct (fails OpInstall) eqn:Hin; fs_step.
    + destruct (fails OpRestore) eqn:Hrs; fs_step; destruct (fails OpRemove) eqn:Hrm; swap_done.
    + destruct (fails OpChmodBackup) eqn:Hcb; fs_step; destruct (fails OpRemove) eqn:Hrm; swap_done.
Qed.

(** When the [Stat] of the swap fails although the executable is there, no backup is made, and an earlier backup [b] takes the place of the
    old binary when the new one cannot be moved in. *)
Lemma swap_spec_stale fails partial suffix cur payload mode old b fs0 seen0 :
  fs0 !! cur = Some old → fs0 !! tmp_path suffix cur fs0 = None → fails OpStat = true → fs0 !! (cur +:+ ".bak") = Some b →
  let kept (s : files) := s !! cur = Some old ∨ s !! cur = Some {| fl_content := payload; fl_mode := mode |} ∨
    (fails OpInstall = true ∧ s !! cur = Some b) in
  let '(r, (fs, seen)) := AtomicSwap fails partial suffix cur payload mode (fs0, seen0) in
  (Forall kept seen0 → Forall kept seen) ∧
  match r with
  | Ok backup => fs !! cur = Some {| fl_content := payload; fl_mode := mode |}
  | Err _ => fs !! cur = Some old ∨ (fails OpInstall = true ∧ fs !! cur = Some b)
  end.
Proof.
  destruct old as [oc om]. intros Hold Htmp Hst Hb kept. destruct (swap_paths suffix cur fs0) as (Htc & Hbc & Htb).
  unfold AtomicSwap, io_bind, io_get. cbn [fst]. set (tmp := tmp_path suffix cur fs0) in *.
  unfold kept. set (bak := cur +:+ ".bak") in *. clearbody tmp bak.
  destruct (fails OpCreate); cbn; [by split; auto|].
  unfold io_defer, copy_payload, chmod, move, io_or_else, io_ignore, rename, remove, io_bind, io_get, io_put, io_ret, io_fail. fs_step.
  destruct (fails OpWrite) eqn:Hw; fs_step; [|destruct (fails OpClose) eqn:Hcl; fs_step; [|destruct (fails OpChmod) eqn:Hcm; fs_step]].
  4: rewrite Hold; fs_step; rewrite Hst; fs_step; destruct (fails OpInstall) eqn:Hin; fs_step;
    [rewrite Hb; destruct (fails OpRestore) eqn:Hrs; fs_step|rewrite ?Hb; destruct (fails OpChmodBackup) eqn:Hcb; fs_step].
  all: destruct (fails OpRemove) eqn:Hrm; fs_step; (split; [|by auto]).
  all: intros Hs; repeat first [exact Hs | apply Forall_nil_2 | apply Forall_cons_2 | apply Forall_app_2]; cbv beta; fs_step; by auto.
Qed.

(** ** The commands *)

Lemma suffix_eq a b s t : s +:+ a = t +:+ b → String.length a = String.length b → a = b.
Proof.
  revert t. induction s as [|c s IH]; intros [|d t] Heq Hlen; cbn in Heq; [done| | |].
  - apply (f_equal String.length) in Heq. cbn in Heq. rewrite string_app_length in Heq. lia.
  - apply (f_equal String.length) in Heq. cbn in Heq. rewrite string_app_length in Heq. lia.
  - injection Heq as _ Heq. by eapply IH.
Qed.

Lemma backup_no_probe path dir : path +:+ ".bak" ≠ dir +:+ ".portlyn-writable-probe".
Proof. change ".portlyn-writable-probe" with (".portlyn-writable-p" +:+ "robe"). rewrite <-string_app_assoc. by intros Heq%suffix_eq. Qed.

Lemma RequireWritable_spec fails path old fs0 seen0 :
  fs0 !! path = Some old → dir_of path +:+ ".portlyn-writable-probe" ≠ path →
  let '(r, (fs, seen)) := RequireWritable fails path (fs0, seen0) in
  (fs !! path = Some old ∧ fs !! (path +:+ ".bak") = fs0 !! (path +:+ ".bak")) ∧
  (Forall (λ fs, fs !! path = Some old) seen0 → Forall (λ fs, fs !! path = Some old) seen).
Proof.
  intros Hold Hne. pose proof (backup_no_probe path (dir_of path)) as Hb. apply not_eq_sym in Hb.
  unfold RequireWritable, io_bind, io_get, remove, io_bind, io_put, io_ret, io_fail. cbn.
  destruct (fails OpProbe); cbn; [done|]. destruct (fails OpRemove); fs_step.
  - split; [done|]. intros Hs. apply Forall_app_2, Forall_cons_2; [done | by fs_step | apply Forall_nil_2].
  - split; [done|]. intros Hs.
    repeat first [exact Hs | apply Forall_nil_2 | apply Forall_cons_2 | apply Forall_app_2]; by fs_step.
Qed.

(** What is known of a binary that is installed as release [tag]: a list of checksums names it, the release workflow
    signed that list for that tag, and it is not older than the version that runs, unless this was asked for. *)
Definition verified (env : update_env) (cfg : updateConfig) (tag binary : string) : Prop :=
  (∃ checksums bundleJSON,
     lookupChecksum checksums (AssetName (ue_GOOS env) (ue_GOARCH env) (uc_assetPrefix cfg)) = Ok (ChecksumHex (ue_sha256 env) binary) ∧
     ue_sigstore_Verify env bundleJSON checksums
       {| ci_SANRegex := ReleaseSANRegex; ci_OIDCIssuer := ReleaseOIDCIssuer; ci_SourceRepositoryURI := ReleaseRepositoryURI;
          ci_Trigger := ReleaseTrigger; ci_SourceRef := "refs/tags/" +:+ TrimSpace tag |} = true) ∧
  (uc_allowDowngrade cfg = false → ∀ c, CompareVersions tag (uc_currentVer cfg) = Some c → (0 ≤ c)%Z).

Lemma resolved_tag http decode cfg rel :
  (if negb (String.eqb (uc_targetVersion cfg) "") then ResolveByTag http decode (uc_repo cfg) (uc_targetVersion cfg)
   else ResolveLatest http decode (uc_repo cfg)) = Ok rel → TrimSpace (rl_Tag rel) ≠ "".
Proof.
  assert (∀ url repo, fetchRelease http decode url repo = Ok rel → TrimSpace (rl_Tag rel) ≠ "") as Hf.
  { intros url repo. unfold fetchRelease. destruct (http url) as [a|]; [|done]. repeat (destruct (_ : bool); [done|]).
    destruct (decode _) as [t|]; [|done]. destruct (String.eqb_spec (TrimSpace t) "") as [|Hne]; [done|]. by intros [= <-]. }
  destruct (negb _); [|apply Hf]. unfold ResolveByTag. destruct (String.eqb _ _); [done | apply Hf].
Qed.

Lemma verify_sha256_Ok env binary checksums asset :
  verify_sha256 env binary checksums asset = Ok tt → lookupChecksum checksums asset = Ok (ChecksumHex (ue_sha256 env) binary).
Proof.
  unfold verify_sha256, VerifySHA256. destruct (lookupChecksum checksums asset) as [sum|]; [|done].
  destruct (String.eqb_spec sum (ChecksumHex (ue_sha256 env) binary)) as [->|]; done.
Qed.

Lemma verify_bundle_Ok env payload bundleJSON identity :
  verify_bundle env payload bundleJSON identity = Ok tt → ue_sigstore_Verify env bundleJSON payload identity = true.
Proof.
  unfold verify_bundle, VerifyCosignBundle. intros H. repeat case_match; try done. by apply negb_false_iff.
Qed.

(** The place of the executable holds the backup of an earlier update: the [Stat] of the swap failed although the file is there, so
    that no backup was made, and moving the new binary in failed as well. *)
Definition earlier_backup (env : update_env) (fs0 s : files) : Prop :=
  ue_fails env OpStat = true ∧ ue_fails env OpInstall = true ∧
  ∃ b, fs0 !! (ue_exe env +:+ ".bak") = Some b ∧ s !! ue_exe env = Some b.

(** The states an installation goes through and ends with. *)
Definition install_done (env : update_env) (cfg : updateConfig) (tag : string) (old : file) (fs0 : files) (r : result update_error update_report)
    (fs : files) (seen : list files) : Prop :=
  Forall (λ s, s !! ue_exe env = Some old ∨ (s !! ue_exe env = None ∧ s !! (ue_exe env +:+ ".bak") = Some old) ∨
    (∃ binary, s !! ue_exe env = Some {| fl_content := binary; fl_mode := fl_mode old |} ∧ verified env cfg tag binary) ∨
    earlier_backup env fs0 s) seen ∧
  match r with
  | Ok (Installed tag' backup _) => tag' = tag ∧
      (∃ binary, fs !! ue_exe env = Some {| fl_content := binary; fl_mode := fl_mode old |} ∧ verified env cfg tag binary) ∧
      (ue_fails env OpStat = false → ∃ m, fs !! backup = Some {| fl_content := fl_content old; fl_mode := m |})
  | Ok _ => fs !! ue_exe env = Some old
  | Err _ => fs !! ue_exe env = Some old ∨
      (ue_fails env OpInstall = true ∧ ue_fails env OpRestore = true ∧ fs !! ue_exe env = None ∧ fs !! (ue_exe env +:+ ".bak") = Some old) ∨
      earlier_backup env fs0 fs
  end.

(** The swap as part of an installation of a verified binary. *)
Lemma swap_installs env cfg tag binary old fs0 seen0 :
  fs0 !! ue_exe env = Some old → fs0 !! tmp_path (ue_suffix env) (ue_exe env) fs0 = None → verified env cfg tag binary →
  let good s := s !! ue_exe env = Some old ∨ (s !! ue_exe env = None ∧ s !! (ue_exe env +:+ ".bak") = Some old) ∨
    (∃ binary, s !! ue_exe env = Some {| fl_content := binary; fl_mode := fl_mode old |} ∧ verified env cfg tag binary) ∨ earlier_backup env fs0 s in
  let '(r, (fs, seen)) := AtomicSwap (ue_fails env) (ue_partial env) (ue_suffix env) (ue_exe env) binary (fl_mode old) (fs0, seen0) in
  (Forall (λ s, s !! ue_exe env = Some old) seen0 → Forall good seen) ∧
  match r with
  | Ok backup => fs !! ue_exe env = Some {| fl_content := binary; fl_mode := fl_mode old |} ∧
      (ue_fails env OpStat = false → ∃ m, fs !! backup = Some {| fl_content := fl_content old; fl_mode := m |})
  | Err _ => fs !! ue_exe env = Some old ∨
      (ue_fails env OpInstall = true ∧ ue_fails env OpRestore = true ∧ fs !! ue_exe env = None ∧ fs !! (ue_exe env +:+ ".bak") = Some old) ∨
      earlier_backup env fs0 fs
  end.
Proof.
  intros Hold Htmp Hver good. unfold good, earlier_backup.
  destruct (decide (ue_fails env OpStat = false ∨ fs0 !! (ue_exe env +:+ ".bak") = None)) as [Hs|Hs].
  - pose proof (swap_spec (ue_fails env) (ue_partial env) (ue_suffix env) (ue_exe env) binary (fl_mode old) old fs0 seen0 Hold Htmp Hs) as Hsw.
    cbv zeta in Hsw. destruct (AtomicSwap _ _ _ _ _ _ _) as [r [fs seen]]. destruct Hsw as (Hseen & Hr & _). split.
    + intros H0. eapply Forall_impl; [apply Hseen; eapply Forall_impl; [exact H0|]; by left|]. intros s [Hs'|[Hs'|Hs']].
      * by left.
      * by right; left.
      * right. right. left. by exists binary.
    + destruct r as [backup|e]; [|tauto]. by destruct Hr as (_ & ? & ?).
  - assert (ue_fails env OpStat = true) as Hst by (destruct (ue_fails env OpStat); [done|destruct Hs; by left]).
    destruct (fs0 !! (ue_exe env +:+ ".bak")) as [b|] eqn:Hb; [|destruct Hs; by right].
    pose proof (swap_spec_stale (ue_fails env) (ue_partial env) (ue_suffix env) (ue_exe env) binary (fl_mode old) old b fs0 seen0 Hold Htmp Hst Hb) as Hsw.
    cbv zeta in Hsw. destruct (AtomicSwap _ _ _ _ _ _ _) as [r [fs seen]]. destruct Hsw as (Hseen & Hr). split.
    + intros H0. eapply Forall_impl; [apply Hseen; eapply Forall_impl; [exact H0|]; by left|]. intros s [Hs'|[Hs'|[Hi Hs']]].
      * by left.
      * right. right. left. by exists binary.
      * do 3 right. split; [done|]. split; [done|]. by exists b.
    + destruct r as [backup|e]; [split; [done|congruence]|]. destruct Hr as [?|[Hi Hc]]; [by left|]. right. right. split; [done|]. split; [done|]. by exists b.
Qed.

Lemma install_release_spec env cfg rel old fs0 :
  fs0 !! ue_exe env = Some old → dir_of (ue_exe env) +:+ ".portlyn-writable-probe" ≠ ue_exe env →
  (∀ fs, fs !! tmp_path (ue_suffix env) (ue_exe env) fs = None) → TrimSpace (rl_Tag rel) ≠ "" →
  let '(r, (fs, seen)) := install_release env cfg rel (fs0, []) in install_done env cfg (rl_Tag rel) old fs0 r fs seen.
Proof.
  intros Hold Hprobe Hfresh Htag. unfold install_release. set (tag := rl_Tag rel) in *.
  assert (∀ fs seen e, fs !! ue_exe env = Some old → Forall (λ fs, fs !! ue_exe env = Some old) seen →
    install_done env cfg tag old fs0 (Err e) fs seen) as Herr.
  { intros fs seen e Hf Hs. split; [|by left]. eapply Forall_impl; [exact Hs|]. by left. }
  set (guard := if negb (uc_allowDowngrade cfg) then _ else _).
  assert ((∃ e, guard (fs0, []) = (Err e, (fs0, []))) ∨ (guard (fs0, []) = (Ok tt, (fs0, [])) ∧
    (uc_allowDowngrade cfg = false → ∀ c, CompareVersions tag (uc_currentVer cfg) = Some c → (0 ≤ c)%Z))) as [[e Hg] | [Hg Hdown]].
  { unfold guard. destruct (uc_allowDowngrade cfg); cbn; [by right|]. destruct (CompareVersions tag _) as [c|]; [|by right].
    destruct (Z.ltb_spec c 0); [left; by eexists | right]. split; [done|]. intros _ ? [= <-]. done. }
  { unfold io_bind at 1. rewrite Hg. by apply Herr. }
  unfold io_bind at 1. rewrite Hg. clear guard Hg.
  unfold io_bind at 1. destruct (ue_fails env OpExecutable); cbn; [by apply Herr|].
  unfold io_bind at 1. pose proof (RequireWritable_spec (ue_fails env) _ old fs0 [] Hold Hprobe) as Hrw.
  destruct (RequireWritable _ _ _) as [[[]|e] [fs1 seen1]]; destruct Hrw as [[Hf1 Hb1] Hs1]; specialize (Hs1 (Forall_nil_2 _)); [|by apply Herr].
  unfold io_bind at 1, io_lift. destruct (DownloadAsset _ _ _) as [binary|]; [|by apply Herr].
  unfold io_bind at 1. destruct (download env _ "checksums.txt") as [checksums|]; [|by apply Herr].
  unfold io_bind at 1. destruct (verify_sha256 env _ _ _) as [[]|] eqn:Hsum; [|by apply Herr]. apply verify_sha256_Ok in Hsum.
  unfold io_bind at 1. destruct (download env _ "checksums.txt.bundle.json") as [bundleJSON|]; [|by apply Herr].
  unfold io_bind at 1. destruct (verify_bundle env _ _ _) as [[]|] eqn:Hsig; [|by apply Herr]. apply verify_bundle_Ok in Hsig.
  unfold io_bind at 1, io_get. cbn [fst]. unfold io_bind at 1. rewrite Hf1. destruct (ue_fails env OpStatExe); [by apply Herr|]. unfold io_ret at 1.
  assert (verified env cfg tag binary) as Hver.
  { split; [|done]. exists checksums, bundleJSON. split; [done|]. unfold ReleaseIdentity in Hsig. apply String.eqb_neq in Htag. by rewrite Htag in Hsig. }
  unfold io_bind at 1. pose proof (swap_installs env cfg tag binary old fs1 seen1 Hf1 (Hfresh fs1) Hver) as Hsw. cbv zeta in Hsw.
  destruct (AtomicSwap _ _ _ _ _ _ _) as [r [fs2 seen2]]. unfold earlier_backup in Hsw. rewrite Hb1 in Hsw. destruct Hsw as (Hseen & Hr).
  specialize (Hseen Hs1). destruct r as [backup|e]; cbn; (split; [done|]); [|done]. destruct Hr as [Hnew Hbak]. split_and!; eauto.
Qed.

(** * Theorems *)


(** A platform whose network serves one signed release. *)
Definition sample_suffix (fs : files) : string := foldr (λ kv acc, kv.1 +:+ acc) "" (map_to_list fs).

Lemma string_length_app s t : String.length (s +:+ t) = (String.length s + String.length t)%nat.
Proof. induction s as [|a s IH]; cbn; [done|]. by rewrite IH. Qed.

Lemma sample_suffix_fresh cur fs : fs !! tmp_path sample_suffix cur fs = None.
Proof.
  destruct (fs !! tmp_path sample_suffix cur fs) as [f|] eqn:Hf; [|done]. exfalso.
  assert (∀ (l : list (string * file)) k g, (k, g) ∈ l → (String.length k ≤ String.length (foldr (λ kv acc, kv.1 +:+ acc) "" l))%nat) as Hl.
  { intros l k g. induction l as [|[k' g'] l IH]; [by intros ?%elem_of_nil|]. cbn. rewrite string_length_app.
    intros [[= -> ->]|Hin]%elem_of_cons; [lia|]. apply IH in Hin. lia. }
  apply elem_of_map_to_list, Hl in Hf. fold (sample_suffix fs) in Hf. unfold tmp_path in Hf. rewrite !string_length_app in Hf. cbn in Hf. lia.
Qed.

Definition sample_asset : string := "portlyn-linux-amd64".
Definition sample_http (url : string) : option http_answer :=
  let answer body := Some {| ha_status := 200; ha_body := body; ha_complete := true |} in
  if String.eqb url "https://api.github.com/repos/portlyn/Portlyn/releases/latest" then answer "v1.5.0"
  else if String.eqb url "https://github.com/portlyn/Portlyn/releases/download/v1.5.0/portlyn-linux-amd64" then answer "new"
  else if String.eqb url "https://github.com/portlyn/Portlyn/releases/download/v1.5.0/checksums.txt" then answer (hex_encode "new" +:+ "  *" +:+ sample_asset)
  else if String.eqb url "https://github.com/portlyn/Portlyn/releases/download/v1.5.0/checksums.txt.bundle.json" then answer "{}"
  else Some {| ha_status := 404; ha_body := ""; ha_complete := true |}.

Definition sample_env (fails : fs_op → bool) : update_env :=
  {| ue_http := sample_http; ue_decode_tag := Some; ue_sha256 := λ s, s; ue_json_Valid := λ _, true; ue_bundle_parses := λ _, true;
     ue_trusted_root := true; ue_identity_matchers := λ _, true;
     ue_sigstore_Verify := λ bundle payload identity, String.eqb (ci_SourceRef identity) "refs/tags/v1.5.0";
     ue_GOOS := "linux"; ue_GOARCH := "amd64"; ue_exe := "/usr/local/bin/portlyn"; ue_fails := fails; ue_partial := 1;
     ue_suffix := sample_suffix; ue_restart := λ _, true |}.

Definition sample_config : updateConfig :=
  update_config "portlyn" "portlyn.service" "v1.4.0"
    {| uf_check := false; uf_version := ""; uf_noRestart := false; uf_unit := None; uf_allowDowngrade := false |}.
Definition sample_files : files := {["/usr/local/bin/portlyn" := {| fl_content := "old"; fl_mode := 493 |}]}.


(** The swap survives a crash: with the executable in place, no file of the new name and a [Stat] that tells whether
    the executable is there, a whole binary (the old one or the new one) is at its place at every moment, or the old one at that of the
    backup; no other file changes. *)
Theorem swap_keeps_a_binary fails partial suffix cur payload mode old fs0 :
  fs0 !! cur = Some old → fs0 !! tmp_path suffix cur fs0 = None → fails OpStat = false →
  let '(r, (fs, seen)) := AtomicSwap fails partial suffix cur payload mode (fs0, []) in
  Forall (binary_kept cur payload mode old) seen ∧
  ∀ p, p ≠ cur → p ≠ cur +:+ ".bak" → p ≠ tmp_path suffix cur fs0 → fs !! p = fs0 !! p.
Proof.
  intros Hold Htmp Hstat. pose proof (swap_spec fails partial suffix cur payload mode old fs0 [] Hold Htmp (or_introl Hstat)) as H.
  cbv zeta in H. destruct (AtomicSwap _ _ _ _ _ _ _) as [r [fs seen]]. destruct H as (Hk & _ & Ho & _). split; [by apply Hk | exact Ho].
Qed.

Lemma swap_keeps_a_binary_witness :
  Forall (binary_kept "/bin/p" "new" 493 {| fl_content := "old"; fl_mode := 493 |})
    (AtomicSwap (λ op, match op with OpInstall => true | _ => false end) 1 sample_suffix "/bin/p" "new" 493
       ({["/bin/p" := {| fl_content := "old"; fl_mode := 493 |}]}, [])).2.2.
Proof.
  pose proof (swap_keeps_a_binary (λ op, match op with OpInstall => true | _ => false end) 1 sample_suffix "/bin/p" "new" 493
    {| fl_content := "old"; fl_mode := 493 |} {["/bin/p" := {| fl_content := "old"; fl_mode := 493 |}]} eq_refl (sample_suffix_fresh _ _) eq_refl) as H.
  destruct (AtomicSwap _ _ _ _ _ _ _) as [r [fs seen]]. exact (proj1 H).
Defined.

(** A [Stat] that fails is taken for an executable that is not there: no backup is made, and when the new binary then cannot be moved in,
    the backup of an earlier update takes the place of the binary that runs. *)
Theorem failed_stat_restores_stale_backup :
  let fs := (AtomicSwap (λ op, match op with OpStat | OpInstall => true | _ => false end) 1 sample_suffix "/bin/p" "new" 493
    (list_to_map [("/bin/p", {| fl_content := "v2"; fl_mode := 493 |}); ("/bin/p.bak", {| fl_content := "v1"; fl_mode := 384 |})], [])).2.1 in
  fs !! "/bin/p" = Some {| fl_content := "v1"; fl_mode := 384 |} ∧ fs !! "/bin/p.bak" = None.
Proof. vm_compute. split; reflexivity. Qed.

(** Between the two renames there is no executable: a crash there leaves only the backup. *)
Theorem swap_leaves_a_gap :
  existsb (λ fs : files, match fs !! "/bin/p" with Some _ => false | None => true end)
    (AtomicSwap (λ _, false) 1 sample_suffix "/bin/p" "new" 493 ({["/bin/p" := {| fl_content := "old"; fl_mode := 493 |}]}, [])).2.2 = true.
Proof. vm_compute. reflexivity. Qed.

(** ** Versions *)

Lemma compare_part_anti x y next : compare_part y x (- next) = (- compare_part x y next)%Z.
Proof. unfold compare_part. destruct (Z.eqb_spec x y), (Z.eqb_spec y x), (Z.ltb_spec x y), (Z.ltb_spec y x); cbn; lia. Qed.

Lemma compare_part_zero x y next : compare_part x y next = 0%Z ↔ x = y ∧ next = 0%Z.
Proof. unfold compare_part. destruct (Z.eqb_spec x y), (Z.ltb_spec x y); cbn; lia. Qed.

Lemma compare_part_trans x y z r s t :
  ((r ≤ 0)%Z → (s ≤ 0)%Z → (t ≤ 0)%Z ∧ ((r < 0)%Z ∨ (s < 0)%Z → (t < 0)%Z)) →
  (compare_part x y r ≤ 0)%Z → (compare_part y z s ≤ 0)%Z →
  (compare_part x z t ≤ 0)%Z ∧ ((compare_part x y r < 0)%Z ∨ (compare_part y z s < 0)%Z → (compare_part x z t < 0)%Z).
Proof.
  unfold compare_part.
  destruct (Z.eqb_spec x y), (Z.eqb_spec y z), (Z.eqb_spec x z), (Z.ltb_spec x y), (Z.ltb_spec y z), (Z.ltb_spec x z); cbn; lia.
Qed.

(** Versions that parse are in lexicographic order: comparing is antisymmetric and transitive, and zero exactly when the three numbers agree. *)
Theorem version_order a b c :
  (∀ r, CompareVersions a b = Some r → CompareVersions b a = Some (- r)%Z ∧ (r = 0%Z ↔ parseSemver a = parseSemver b)) ∧
  (∀ r s, CompareVersions a b = Some r → CompareVersions b c = Some s → (r ≤ 0)%Z → (s ≤ 0)%Z →
    ∃ t, CompareVersions a c = Some t ∧ (t ≤ 0)%Z ∧ ((r < 0)%Z ∨ (s < 0)%Z → (t < 0)%Z)).
Proof.
  unfold CompareVersions. destruct (parseSemver a) as [[[a1 a2] a3]|], (parseSemver b) as [[[b1 b2] b3]|]; try (split; by intros).
  split.
  - intros r [= <-]. split; [|rewrite !compare_part_zero; naive_solver].
    by rewrite <-!compare_part_anti.
  - intros r s [= <-]. destruct (parseSemver c) as [[[c1 c2] c3]|]; [|done]. intros [= <-] Hr Hs. eexists. split; [done|].
    revert Hr Hs. do 3 apply compare_part_trans. lia.
Qed.

(** What follows a '-' is not compared: the release candidate of the running version is no downgrade. *)
Theorem candidate_is_no_downgrade : CompareVersions "v1.4.0-rc1" "v1.4.0" = Some 0%Z.
Proof. reflexivity. Qed.

(** ** The check for new releases *)

(** A new release is announced exactly when the check is enabled and the release found last compares above the
    version that runs: never for that version itself, nor for a version that does not parse. *)
Theorem announced_updates enabled c :
  us_UpdateAvailable (checker_Status enabled c) = true ↔
  enabled = true ∧ ch_latest c ≠ "" ∧ ∃ r, CompareVersions (ch_latest c) (ch_currentVersion c) = Some r ∧ (0 < r)%Z.
Proof.
  unfold checker_Status. destruct enabled; cbn; [|by split; [|intros []]].
  destruct (String.eqb_spec (ch_latest c) "") as [|Hne]; cbn; [by split; [|intros (_ & ? & _)]|].
  destruct (CompareVersions _ _) as [r|]; cbn; [|by split; [|intros (_ & _ & ? & ? & _)]].
  rewrite Z.ltb_lt. split; [eauto 6 | by intros (_ & _ & ? & [= <-] & ?)].
Qed.
