(* ===== verification/Settings.v ===== *)
(** The application settings: store/app_settings_store.go with the handlers that change the row (http/settings.go,
    http/network_settings.go, the settings of http/tunnel.go) and the keys of the tunnel server (EnsureServerKey of
    tunnel/manager.go).

    There is one row. Every change reads it, opens its secrets, changes columns and writes the whole row with the secrets sealed again,
    so that requests interleave between the read and the write.  The random salt and nonce of each secret column are arguments, as are
    the validators of a URL and of an e-mail address and what gorm stores of a row it inserts. *)
From S2P Require Import Prelude GoStrings Netip Netguard Domain SecretBox Config ApiGuard CertStore Catalog.

#[local] Open Scope string_scope.
#[local] Open Scope list_scope.

(** * Definitions *)

Definition appSettingsSingletonID : Z := 1.

(** The row of application settings. Its identifier is always 1; the two timestamps gorm keeps are left out. *)
Record SettingsRow := {
  sr_FrontendBaseURL : string; sr_AuthBrandName : string; sr_AuthLogoURL : string; sr_AuthBackgroundColor : string;
  sr_AuthBackgroundAccent : string; sr_AuthPanelColor : string; sr_AuthButtonColor : string; sr_AuthTextColor : string;
  sr_AuthMutedTextColor : string; sr_AuthLoginTitle : string; sr_AuthLoginSubtitle : string;
  sr_AuthRouteLoginTitle : string; sr_AuthRouteLoginSubtitle : string; sr_AuthForbiddenTitle : string;
  sr_AuthForbiddenSubtitle : string; sr_AuthLoginPasswordLabel : string; sr_AuthLoginOIDCLabel : string;
  sr_AuthLoginOTPRequestLabel : string; sr_AuthLoginOTPVerifyLabel : string; sr_AuthRouteContinueLabel : string;
  sr_AuthRouteOIDCLabel : string; sr_AuthRoutePINLabel : string; sr_AuthRouteEmailSendLabel : string;
  sr_AuthRouteEmailVerifyLabel : string; sr_AuthForbiddenRetryLabel : string; sr_OIDCEnabled : bool;
  sr_OIDCIssuerURL : string; sr_OIDCClientID : string; sr_OIDCClientSecret : string; sr_OIDCRedirectURL : string;
  sr_OIDCAllowedEmailDomains : list string; sr_OIDCAdminRoleClaimPath : string; sr_OIDCAdminRoleValue : string;
  sr_OIDCProviderLabel : string; sr_OIDCAllowEmailLinking : bool; sr_OIDCRequireVerifiedEmail : bool;
  sr_LocalLoginDisabled : bool; sr_OTPEnabled : bool; sr_OTPTokenTTLSeconds : Z; sr_OTPRequestLimit : Z;
  sr_OTPRequestWindowSeconds : Z; sr_RequireMFAForAdmins : bool; sr_SMTPEnabled : bool; sr_SMTPHost : string;
  sr_SMTPPort : Z; sr_SMTPUsername : string; sr_SMTPPassword : string; sr_SMTPFromEmail : string; sr_SMTPFromName : string;
  sr_SMTPEncryption : string; sr_SMTPInsecureSkipVerify : bool; sr_TunnelEnabled : bool; sr_TunnelServerPrivateKey : string;
  sr_TunnelServerPublicKey : string; sr_TunnelServerEndpoint : string; sr_TunnelListenPort : Z; sr_TunnelCIDR : string;
  sr_TunnelServerTunnelIP : string; sr_TunnelConfigPath : string; sr_GeoIPDBPath : string; sr_CrowdSecEnabled : bool;
  sr_CrowdSecAPIURL : string; sr_CrowdSecAPIKeyEncrypted : string; sr_CrowdSecPollIntervalSecs : Z;
  sr_UpdateCheckDisabled : bool;
}.

(** The columns that hold secrets, with other values. *)
Definition with_secrets (item : SettingsRow) (oidc smtp tunnel crowdsec : string) : SettingsRow :=
  {| sr_FrontendBaseURL := sr_FrontendBaseURL item; sr_AuthBrandName := sr_AuthBrandName item;
     sr_AuthLogoURL := sr_AuthLogoURL item; sr_AuthBackgroundColor := sr_AuthBackgroundColor item;
     sr_AuthBackgroundAccent := sr_AuthBackgroundAccent item; sr_AuthPanelColor := sr_AuthPanelColor item;
     sr_AuthButtonColor := sr_AuthButtonColor item; sr_AuthTextColor := sr_AuthTextColor item;
     sr_AuthMutedTextColor := sr_AuthMutedTextColor item; sr_AuthLoginTitle := sr_AuthLoginTitle item;
     sr_AuthLoginSubtitle := sr_AuthLoginSubtitle item; sr_AuthRouteLoginTitle := sr_AuthRouteLoginTitle item;
     sr_AuthRouteLoginSubtitle := sr_AuthRouteLoginSubtitle item; sr_AuthForbiddenTitle := sr_AuthForbiddenTitle item;
     sr_AuthForbiddenSubtitle := sr_AuthForbiddenSubtitle item; sr_AuthLoginPasswordLabel := sr_AuthLoginPasswordLabel item;
     sr_AuthLoginOIDCLabel := sr_AuthLoginOIDCLabel item; sr_AuthLoginOTPRequestLabel := sr_AuthLoginOTPRequestLabel item;
     sr_AuthLoginOTPVerifyLabel := sr_AuthLoginOTPVerifyLabel item; sr_AuthRouteContinueLabel := sr_AuthRouteContinueLabel item;
     sr_AuthRouteOIDCLabel := sr_AuthRouteOIDCLabel item; sr_AuthRoutePINLabel := sr_AuthRoutePINLabel item;
     sr_AuthRouteEmailSendLabel := sr_AuthRouteEmailSendLabel item;
     sr_AuthRouteEmailVerifyLabel := sr_AuthRouteEmailVerifyLabel item;
     sr_AuthForbiddenRetryLabel := sr_AuthForbiddenRetryLabel item; sr_OIDCEnabled := sr_OIDCEnabled item;
     sr_OIDCIssuerURL := sr_OIDCIssuerURL item; sr_OIDCClientID := sr_OIDCClientID item; sr_OIDCClientSecret := oidc;
     sr_OIDCRedirectURL := sr_OIDCRedirectURL item; sr_OIDCAllowedEmailDomains := sr_OIDCAllowedEmailDomains item;
     sr_OIDCAdminRoleClaimPath := sr_OIDCAdminRoleClaimPath item; sr_OIDCAdminRoleValue := sr_OIDCAdminRoleValue item;
     sr_OIDCProviderLabel := sr_OIDCProviderLabel item; sr_OIDCAllowEmailLinking := sr_OIDCAllowEmailLinking item;
     sr_OIDCRequireVerifiedEmail := sr_OIDCRequireVerifiedEmail item; sr_LocalLoginDisabled := sr_LocalLoginDisabled item;
     sr_OTPEnabled := sr_OTPEnabled item; sr_OTPTokenTTLSeconds := sr_OTPTokenTTLSeconds item;
     sr_OTPRequestLimit := sr_OTPRequestLimit item; sr_OTPRequestWindowSeconds := sr_OTPRequestWindowSeconds item;
     sr_RequireMFAForAdmins := sr_RequireMFAForAdmins item; sr_SMTPEnabled := sr_SMTPEnabled item;
     sr_SMTPHost := sr_SMTPHost item; sr_SMTPPort := sr_SMTPPort item; sr_SMTPUsername := sr_SMTPUsername item;
     sr_SMTPPassword := smtp; sr_SMTPFromEmail := sr_SMTPFromEmail item; sr_SMTPFromName := sr_SMTPFromName item;
     sr_SMTPEncryption := sr_SMTPEncryption item; sr_SMTPInsecureSkipVerify := sr_SMTPInsecureSkipVerify item;
     sr_TunnelEnabled := sr_TunnelEnabled item; sr_TunnelServerPrivateKey := tunnel;
     sr_TunnelServerPublicKey := sr_TunnelServerPublicKey item; sr_TunnelServerEndpoint := sr_TunnelServerEndpoint item;
     sr_TunnelListenPort := sr_TunnelListenPort item; sr_TunnelCIDR := sr_TunnelCIDR item;
     sr_TunnelServerTunnelIP := sr_TunnelServerTunnelIP item; sr_TunnelConfigPath := sr_TunnelConfigPath item;
     sr_GeoIPDBPath := sr_GeoIPDBPath item; sr_CrowdSecEnabled := sr_CrowdSecEnabled item;
     sr_CrowdSecAPIURL := sr_CrowdSecAPIURL item; sr_CrowdSecAPIKeyEncrypted := crowdsec;
     sr_CrowdSecPollIntervalSecs := sr_CrowdSecPollIntervalSecs item; sr_UpdateCheckDisabled := sr_UpdateCheckDisabled item |}.

(** A field that is absent keeps the column. *)
Record updateAuthSettingsRequest := {
  ua_FrontendBaseURL : option string; ua_UpdateCheckEnabled : option bool; ua_AuthBrandName : option string;
  ua_AuthLogoURL : option string; ua_AuthBackgroundColor : option string; ua_AuthBackgroundAccent : option string;
  ua_AuthPanelColor : option string; ua_AuthButtonColor : option string; ua_AuthTextColor : option string;
  ua_AuthMutedTextColor : option string; ua_AuthLoginTitle : option string; ua_AuthLoginSubtitle : option string;
  ua_AuthRouteLoginTitle : option string; ua_AuthRouteLoginSubtitle : option string; ua_AuthForbiddenTitle : option string;
  ua_AuthForbiddenSubtitle : option string; ua_AuthLoginPasswordLabel : option string;
  ua_AuthLoginOIDCLabel : option string; ua_AuthLoginOTPRequestLabel : option string;
  ua_AuthLoginOTPVerifyLabel : option string; ua_AuthRouteContinueLabel : option string;
  ua_AuthRouteOIDCLabel : option string; ua_AuthRoutePINLabel : option string; ua_AuthRouteEmailSendLabel : option string;
  ua_AuthRouteEmailVerifyLabel : option string; ua_AuthForbiddenRetryLabel : option string; ua_OIDCEnabled : option bool;
  ua_OIDCIssuerURL : option string; ua_OIDCClientID : option string; ua_OIDCClientSecret : option string;
  ua_OIDCRedirectURL : option string; ua_OIDCAllowedEmailDomains : option (list string);
  ua_OIDCAdminRoleClaimPath : option string; ua_OIDCAdminRoleValue : option string; ua_OIDCProviderLabel : option string;
  ua_OIDCAllowEmailLinking : option bool; ua_OIDCRequireVerifiedEmail : option bool; ua_LocalLoginDisabled : option bool;
  ua_OTPEnabled : option bool; ua_OTPTokenTTLSeconds : option Z; ua_OTPRequestLimit : option Z;
  ua_OTPRequestWindowSeconds : option Z; ua_RequireMFAForAdmins : option bool; ua_SMTPEnabled : option bool;
  ua_SMTPHost : option string; ua_SMTPPort : option Z; ua_SMTPUsername : option string; ua_SMTPPassword : option string;
  ua_SMTPFromEmail : option string; ua_SMTPFromName : option string; ua_SMTPEncryption : option string;
  ua_SMTPInsecureSkipVerify : option bool;
}.

Definition set_trim (req : option string) (old : string) : string := match req with Some v => TrimSpace v | None => old end.
Definition set_list (req : option (list string)) (old : list string) : list string :=
  match req with Some v => normalizeStringList v | None => old end.
(** A blank secret keeps the one that is stored. *)
Definition set_secret (req : option string) (old : string) : string :=
  match req with Some v => if negb (String.eqb (TrimSpace v) "") then v else old | None => old end.

Definition set_trimmed_secret (req : option string) (old : string) : string :=
  match req with Some v => if negb (String.eqb (TrimSpace v) "") then TrimSpace v else old | None => old end.

Definition apply_auth (req : updateAuthSettingsRequest) (item : SettingsRow) : SettingsRow :=
  {| sr_FrontendBaseURL := set_trim (ua_FrontendBaseURL req) (sr_FrontendBaseURL item);
     sr_AuthBrandName := set_trim (ua_AuthBrandName req) (sr_AuthBrandName item);
     sr_AuthLogoURL := set_trim (ua_AuthLogoURL req) (sr_AuthLogoURL item);
     sr_AuthBackgroundColor := set_trim (ua_AuthBackgroundColor req) (sr_AuthBackgroundColor item);
     sr_AuthBackgroundAccent := set_trim (ua_AuthBackgroundAccent req) (sr_AuthBackgroundAccent item);
     sr_AuthPanelColor := set_trim (ua_AuthPanelColor req) (sr_AuthPanelColor item);
     sr_AuthButtonColor := set_trim (ua_AuthButtonColor req) (sr_AuthButtonColor item);
     sr_AuthTextColor := set_trim (ua_AuthTextColor req) (sr_AuthTextColor item);
     sr_AuthMutedTextColor := set_trim (ua_AuthMutedTextColor req) (sr_AuthMutedTextColor item);
     sr_AuthLoginTitle := set_trim (ua_AuthLoginTitle req) (sr_AuthLoginTitle item);
     sr_AuthLoginSubtitle := set_trim (ua_AuthLoginSubtitle req) (sr_AuthLoginSubtitle item);
     sr_AuthRouteLoginTitle := set_trim (ua_AuthRouteLoginTitle req) (sr_AuthRouteLoginTitle item);
     sr_AuthRouteLoginSubtitle := set_trim (ua_AuthRouteLoginSubtitle req) (sr_AuthRouteLoginSubtitle item);
     sr_AuthForbiddenTitle := set_trim (ua_AuthForbiddenTitle req) (sr_AuthForbiddenTitle item);
     sr_AuthForbiddenSubtitle := set_trim (ua_AuthForbiddenSubtitle req) (sr_AuthForbiddenSubtitle item);
     sr_AuthLoginPasswordLabel := set_trim (ua_AuthLoginPasswordLabel req) (sr_AuthLoginPasswordLabel item);
     sr_AuthLoginOIDCLabel := set_trim (ua_AuthLoginOIDCLabel req) (sr_AuthLoginOIDCLabel item);
     sr_AuthLoginOTPRequestLabel := set_trim (ua_AuthLoginOTPRequestLabel req) (sr_AuthLoginOTPRequestLabel item);
     sr_AuthLoginOTPVerifyLabel := set_trim (ua_AuthLoginOTPVerifyLabel req) (sr_AuthLoginOTPVerifyLabel item);
     sr_AuthRouteContinueLabel := set_trim (ua_AuthRouteContinueLabel req) (sr_AuthRouteContinueLabel item);
     sr_AuthRouteOIDCLabel := set_trim (ua_AuthRouteOIDCLabel req) (sr_AuthRouteOIDCLabel item);
     sr_AuthRoutePINLabel := set_trim (ua_AuthRoutePINLabel req) (sr_AuthRoutePINLabel item);
     sr_AuthRouteEmailSendLabel := set_trim (ua_AuthRouteEmailSendLabel req) (sr_AuthRouteEmailSendLabel item);
     sr_AuthRouteEmailVerifyLabel := set_trim (ua_AuthRouteEmailVerifyLabel req) (sr_AuthRouteEmailVerifyLabel item);
     sr_AuthForbiddenRetryLabel := set_trim (ua_AuthForbiddenRetryLabel req) (sr_AuthForbiddenRetryLabel item);
     sr_OIDCEnabled := default (sr_OIDCEnabled item) (ua_OIDCEnabled req);
     sr_OIDCIssuerURL := set_trim (ua_OIDCIssuerURL req) (sr_OIDCIssuerURL item);
     sr_OIDCClientID := set_trim (ua_OIDCClientID req) (sr_OIDCClientID item);
     sr_OIDCClientSecret := set_secret (ua_OIDCClientSecret req) (sr_OIDCClientSecret item);
     sr_OIDCRedirectURL := set_trim (ua_OIDCRedirectURL req) (sr_OIDCRedirectURL item);
     sr_OIDCAllowedEmailDomains := set_list (ua_OIDCAllowedEmailDomains req) (sr_OIDCAllowedEmailDomains item);
     sr_OIDCAdminRoleClaimPath := set_trim (ua_OIDCAdminRoleClaimPath req) (sr_OIDCAdminRoleClaimPath item);
     sr_OIDCAdminRoleValue := set_trim (ua_OIDCAdminRoleValue req) (sr_OIDCAdminRoleValue item);
     sr_OIDCProviderLabel := set_trim (ua_OIDCProviderLabel req) (sr_OIDCProviderLabel item);
     sr_OIDCAllowEmailLinking := default (sr_OIDCAllowEmailLinking item) (ua_OIDCAllowEmailLinking req);
     sr_OIDCRequireVerifiedEmail := default (sr_OIDCRequireVerifiedEmail item) (ua_OIDCRequireVerifiedEmail req);
     sr_LocalLoginDisabled := default (sr_LocalLoginDisabled item) (ua_LocalLoginDisabled req);
     sr_OTPEnabled := default (sr_OTPEnabled item) (ua_OTPEnabled req);
     sr_OTPTokenTTLSeconds := default (sr_OTPTokenTTLSeconds item) (ua_OTPTokenTTLSeconds req);
     sr_OTPRequestLimit := default (sr_OTPRequestLimit item) (ua_OTPRequestLimit req);
     sr_OTPRequestWindowSeconds := default (sr_OTPRequestWindowSeconds item) (ua_OTPRequestWindowSeconds req);
     sr_RequireMFAForAdmins := default (sr_RequireMFAForAdmins item) (ua_RequireMFAForAdmins req);
     sr_SMTPEnabled := default (sr_SMTPEnabled item) (ua_SMTPEnabled req);
     sr_SMTPHost := set_trim (ua_SMTPHost req) (sr_SMTPHost item); sr_SMTPPort := default (sr_SMTPPort item) (ua_SMTPPort req);
     sr_SMTPUsername := set_trim (ua_SMTPUsername req) (sr_SMTPUsername item);
     sr_SMTPPassword := set_secret (ua_SMTPPassword req) (sr_SMTPPassword item);
     sr_SMTPFromEmail := set_trim (ua_SMTPFromEmail req) (sr_SMTPFromEmail item);
     sr_SMTPFromName := set_trim (ua_SMTPFromName req) (sr_SMTPFromName item);
     sr_SMTPEncryption := set_trim (ua_SMTPEncryption req) (sr_SMTPEncryption item);
     sr_SMTPInsecureSkipVerify := default (sr_SMTPInsecureSkipVerify item) (ua_SMTPInsecureSkipVerify req);
     sr_TunnelEnabled := sr_TunnelEnabled item; sr_TunnelServerPrivateKey := sr_TunnelServerPrivateKey item;
     sr_TunnelServerPublicKey := sr_TunnelServerPublicKey item; sr_TunnelServerEndpoint := sr_TunnelServerEndpoint item;
     sr_TunnelListenPort := sr_TunnelListenPort item; sr_TunnelCIDR := sr_TunnelCIDR item;
     sr_TunnelServerTunnelIP := sr_TunnelServerTunnelIP item; sr_TunnelConfigPath := sr_TunnelConfigPath item;
     sr_GeoIPDBPath := sr_GeoIPDBPath item; sr_CrowdSecEnabled := sr_CrowdSecEnabled item;
     sr_CrowdSecAPIURL := sr_CrowdSecAPIURL item; sr_CrowdSecAPIKeyEncrypted := sr_CrowdSecAPIKeyEncrypted item;
     sr_CrowdSecPollIntervalSecs := sr_CrowdSecPollIntervalSecs item;
     sr_UpdateCheckDisabled := match ua_UpdateCheckEnabled req with Some b => negb b | None => sr_UpdateCheckDisabled item end |}.

Record updateNetworkSettingsRequest := {
  un_GeoIPDBPath : option string; un_CrowdSecEnabled : option bool; un_CrowdSecAPIURL : option string; un_CrowdSecAPIKey : option string;
  un_CrowdSecPollSeconds : option Z;
}.

Definition apply_network (req : updateNetworkSettingsRequest) (item : SettingsRow) : SettingsRow :=
  let poll := default (sr_CrowdSecPollIntervalSecs item) (un_CrowdSecPollSeconds req) in
  {| sr_FrontendBaseURL := sr_FrontendBaseURL item; sr_AuthBrandName := sr_AuthBrandName item;
     sr_AuthLogoURL := sr_AuthLogoURL item; sr_AuthBackgroundColor := sr_AuthBackgroundColor item;
     sr_AuthBackgroundAccent := sr_AuthBackgroundAccent item; sr_AuthPanelColor := sr_AuthPanelColor item;
     sr_AuthButtonColor := sr_AuthButtonColor item; sr_AuthTextColor := sr_AuthTextColor item;
     sr_AuthMutedTextColor := sr_AuthMutedTextColor item; sr_AuthLoginTitle := sr_AuthLoginTitle item;
     sr_AuthLoginSubtitle := sr_AuthLoginSubtitle item; sr_AuthRouteLoginTitle := sr_AuthRouteLoginTitle item;
     sr_AuthRouteLoginSubtitle := sr_AuthRouteLoginSubtitle item; sr_AuthForbiddenTitle := sr_AuthForbiddenTitle item;
     sr_AuthForbiddenSubtitle := sr_AuthForbiddenSubtitle item; sr_AuthLoginPasswordLabel := sr_AuthLoginPasswordLabel item;
     sr_AuthLoginOIDCLabel := sr_AuthLoginOIDCLabel item; sr_AuthLoginOTPRequestLabel := sr_AuthLoginOTPRequestLabel item;
     sr_AuthLoginOTPVerifyLabel := sr_AuthLoginOTPVerifyLabel item; sr_AuthRouteContinueLabel := sr_AuthRouteContinueLabel item;
     sr_AuthRouteOIDCLabel := sr_AuthRouteOIDCLabel item; sr_AuthRoutePINLabel := sr_AuthRoutePINLabel item;
     sr_AuthRouteEmailSendLabel := sr_AuthRouteEmailSendLabel item;
     sr_AuthRouteEmailVerifyLabel := sr_AuthRouteEmailVerifyLabel item;
     sr_AuthForbiddenRetryLabel := sr_AuthForbiddenRetryLabel item; sr_OIDCEnabled := sr_OIDCEnabled item;
     sr_OIDCIssuerURL := sr_OIDCIssuerURL item; sr_OIDCClientID := sr_OIDCClientID item;
     sr_OIDCClientSecret := sr_OIDCClientSecret item; sr_OIDCRedirectURL := sr_OIDCRedirectURL item;
     sr_OIDCAllowedEmailDomains := sr_OIDCAllowedEmailDomains item; sr_OIDCAdminRoleClaimPath := sr_OIDCAdminRoleClaimPath item;
     sr_OIDCAdminRoleValue := sr_OIDCAdminRoleValue item; sr_OIDCProviderLabel := sr_OIDCProviderLabel item;
     sr_OIDCAllowEmailLinking := sr_OIDCAllowEmailLinking item; sr_OIDCRequireVerifiedEmail := sr_OIDCRequireVerifiedEmail item;
     sr_LocalLoginDisabled := sr_LocalLoginDisabled item; sr_OTPEnabled := sr_OTPEnabled item;
     sr_OTPTokenTTLSeconds := sr_OTPTokenTTLSeconds item; sr_OTPRequestLimit := sr_OTPRequestLimit item;
     sr_OTPRequestWindowSeconds := sr_OTPRequestWindowSeconds item; sr_RequireMFAForAdmins := sr_RequireMFAForAdmins item;
     sr_SMTPEnabled := sr_SMTPEnabled item; sr_SMTPHost := sr_SMTPHost item; sr_SMTPPort := sr_SMTPPort item;
     sr_SMTPUsername := sr_SMTPUsername item; sr_SMTPPassword := sr_SMTPPassword item; sr_SMTPFromEmail := sr_SMTPFromEmail item;
     sr_SMTPFromName := sr_SMTPFromName item; sr_SMTPEncryption := sr_SMTPEncryption item;
     sr_SMTPInsecureSkipVerify := sr_SMTPInsecureSkipVerify item; sr_TunnelEnabled := sr_TunnelEnabled item;
     sr_TunnelServerPrivateKey := sr_TunnelServerPrivateKey item; sr_TunnelServerPublicKey := sr_TunnelServerPublicKey item;
     sr_TunnelServerEndpoint := sr_TunnelServerEndpoint item; sr_TunnelListenPort := sr_TunnelListenPort item;
     sr_TunnelCIDR := sr_TunnelCIDR item; sr_TunnelServerTunnelIP := sr_TunnelServerTunnelIP item;
     sr_TunnelConfigPath := sr_TunnelConfigPath item; sr_GeoIPDBPath := set_trim (un_GeoIPDBPath req) (sr_GeoIPDBPath item);
     sr_CrowdSecEnabled := default (sr_CrowdSecEnabled item) (un_CrowdSecEnabled req);
     sr_CrowdSecAPIURL := set_trim (un_CrowdSecAPIURL req) (sr_CrowdSecAPIURL item);
     sr_CrowdSecAPIKeyEncrypted := set_trimmed_secret (un_CrowdSecAPIKey req) (sr_CrowdSecAPIKeyEncrypted item);
     sr_CrowdSecPollIntervalSecs := if (poll <=? 0)%Z then 60%Z else poll;
     sr_UpdateCheckDisabled := sr_UpdateCheckDisabled item |}.

Record updateTunnelSettingsRequest := {
  ut_Enabled : option bool; ut_ServerEndpoint : option string; ut_ListenPort : option Z; ut_CIDR : option string;
  ut_ServerTunnelIP : option string; ut_ConfigPath : option string;
}.

Definition apply_tunnel (req : updateTunnelSettingsRequest) (item : SettingsRow) : SettingsRow :=
  {| sr_FrontendBaseURL := sr_FrontendBaseURL item; sr_AuthBrandName := sr_AuthBrandName item;
     sr_AuthLogoURL := sr_AuthLogoURL item; sr_AuthBackgroundColor := sr_AuthBackgroundColor item;
     sr_AuthBackgroundAccent := sr_AuthBackgroundAccent item; sr_AuthPanelColor := sr_AuthPanelColor item;
     sr_AuthButtonColor := sr_AuthButtonColor item; sr_AuthTextColor := sr_AuthTextColor item;
     sr_AuthMutedTextColor := sr_AuthMutedTextColor item; sr_AuthLoginTitle := sr_AuthLoginTitle item;
     sr_AuthLoginSubtitle := sr_AuthLoginSubtitle item; sr_AuthRouteLoginTitle := sr_AuthRouteLoginTitle item;
     sr_AuthRouteLoginSubtitle := sr_AuthRouteLoginSubtitle item; sr_AuthForbiddenTitle := sr_AuthForbiddenTitle item;
     sr_AuthForbiddenSubtitle := sr_AuthForbiddenSubtitle item; sr_AuthLoginPasswordLabel := sr_AuthLoginPasswordLabel item;
     sr_AuthLoginOIDCLabel := sr_AuthLoginOIDCLabel item; sr_AuthLoginOTPRequestLabel := sr_AuthLoginOTPRequestLabel item;
     sr_AuthLoginOTPVerifyLabel := sr_AuthLoginOTPVerifyLabel item; sr_AuthRouteContinueLabel := sr_AuthRouteContinueLabel item;
     sr_AuthRouteOIDCLabel := sr_AuthRouteOIDCLabel item; sr_AuthRoutePINLabel := sr_AuthRoutePINLabel item;
     sr_AuthRouteEmailSendLabel := sr_AuthRouteEmailSendLabel item;
     sr_AuthRouteEmailVerifyLabel := sr_AuthRouteEmailVerifyLabel item;
     sr_AuthForbiddenRetryLabel := sr_AuthForbiddenRetryLabel item; sr_OIDCEnabled := sr_OIDCEnabled item;
     sr_OIDCIssuerURL := sr_OIDCIssuerURL item; sr_OIDCClientID := sr_OIDCClientID item;
     sr_OIDCClientSecret := sr_OIDCClientSecret item; sr_OIDCRedirectURL := sr_OIDCRedirectURL item;
     sr_OIDCAllowedEmailDomains := sr_OIDCAllowedEmailDomains item; sr_OIDCAdminRoleClaimPath := sr_OIDCAdminRoleClaimPath item;
     sr_OIDCAdminRoleValue := sr_OIDCAdminRoleValue item; sr_OIDCProviderLabel := sr_OIDCProviderLabel item;
     sr_OIDCAllowEmailLinking := sr_OIDCAllowEmailLinking item; sr_OIDCRequireVerifiedEmail := sr_OIDCRequireVerifiedEmail item;
     sr_LocalLoginDisabled := sr_LocalLoginDisabled item; sr_OTPEnabled := sr_OTPEnabled item;
     sr_OTPTokenTTLSeconds := sr_OTPTokenTTLSeconds item; sr_OTPRequestLimit := sr_OTPRequestLimit item;
     sr_OTPRequestWindowSeconds := sr_OTPRequestWindowSeconds item; sr_RequireMFAForAdmins := sr_RequireMFAForAdmins item;
     sr_SMTPEnabled := sr_SMTPEnabled item; sr_SMTPHost := sr_SMTPHost item; sr_SMTPPort := sr_SMTPPort item;
     sr_SMTPUsername := sr_SMTPUsername item; sr_SMTPPassword := sr_SMTPPassword item; sr_SMTPFromEmail := sr_SMTPFromEmail item;
     sr_SMTPFromName := sr_SMTPFromName item; sr_SMTPEncryption := sr_SMTPEncryption item;
     sr_SMTPInsecureSkipVerify := sr_SMTPInsecureSkipVerify item;
     sr_TunnelEnabled := default (sr_TunnelEnabled item) (ut_Enabled req);
     sr_TunnelServerPrivateKey := sr_TunnelServerPrivateKey item; sr_TunnelServerPublicKey := sr_TunnelServerPublicKey item;
     sr_TunnelServerEndpoint := set_trim (ut_ServerEndpoint req) (sr_TunnelServerEndpoint item);
     sr_TunnelListenPort := default (sr_TunnelListenPort item) (ut_ListenPort req);
     sr_TunnelCIDR := set_trim (ut_CIDR req) (sr_TunnelCIDR item);
     sr_TunnelServerTunnelIP := set_trim (ut_ServerTunnelIP req) (sr_TunnelServerTunnelIP item);
     sr_TunnelConfigPath := set_trim (ut_ConfigPath req) (sr_TunnelConfigPath item); sr_GeoIPDBPath := sr_GeoIPDBPath item;
     sr_CrowdSecEnabled := sr_CrowdSecEnabled item; sr_CrowdSecAPIURL := sr_CrowdSecAPIURL item;
     sr_CrowdSecAPIKeyEncrypted := sr_CrowdSecAPIKeyEncrypted item;
     sr_CrowdSecPollIntervalSecs := sr_CrowdSecPollIntervalSecs item; sr_UpdateCheckDisabled := sr_UpdateCheckDisabled item |}.

(** The keys of the tunnel server, with the defaults that go with them. *)
Definition apply_server_key (privateKey publicKey : string) (item : SettingsRow) : SettingsRow :=
  {| sr_FrontendBaseURL := sr_FrontendBaseURL item; sr_AuthBrandName := sr_AuthBrandName item;
     sr_AuthLogoURL := sr_AuthLogoURL item; sr_AuthBackgroundColor := sr_AuthBackgroundColor item;
     sr_AuthBackgroundAccent := sr_AuthBackgroundAccent item; sr_AuthPanelColor := sr_AuthPanelColor item;
     sr_AuthButtonColor := sr_AuthButtonColor item; sr_AuthTextColor := sr_AuthTextColor item;
     sr_AuthMutedTextColor := sr_AuthMutedTextColor item; sr_AuthLoginTitle := sr_AuthLoginTitle item;
     sr_AuthLoginSubtitle := sr_AuthLoginSubtitle item; sr_AuthRouteLoginTitle := sr_AuthRouteLoginTitle item;
     sr_AuthRouteLoginSubtitle := sr_AuthRouteLoginSubtitle item; sr_AuthForbiddenTitle := sr_AuthForbiddenTitle item;
     sr_AuthForbiddenSubtitle := sr_AuthForbiddenSubtitle item; sr_AuthLoginPasswordLabel := sr_AuthLoginPasswordLabel item;
     sr_AuthLoginOIDCLabel := sr_AuthLoginOIDCLabel item; sr_AuthLoginOTPRequestLabel := sr_AuthLoginOTPRequestLabel item;
     sr_AuthLoginOTPVerifyLabel := sr_AuthLoginOTPVerifyLabel item; sr_AuthRouteContinueLabel := sr_AuthRouteContinueLabel item;
     sr_AuthRouteOIDCLabel := sr_AuthRouteOIDCLabel item; sr_AuthRoutePINLabel := sr_AuthRoutePINLabel item;
     sr_AuthRouteEmailSendLabel := sr_AuthRouteEmailSendLabel item;
     sr_AuthRouteEmailVerifyLabel := sr_AuthRouteEmailVerifyLabel item;
     sr_AuthForbiddenRetryLabel := sr_AuthForbiddenRetryLabel item; sr_OIDCEnabled := sr_OIDCEnabled item;
     sr_OIDCIssuerURL := sr_OIDCIssuerURL item; sr_OIDCClientID := sr_OIDCClientID item;
     sr_OIDCClientSecret := sr_OIDCClientSecret item; sr_OIDCRedirectURL := sr_OIDCRedirectURL item;
     sr_OIDCAllowedEmailDomains := sr_OIDCAllowedEmailDomains item; sr_OIDCAdminRoleClaimPath := sr_OIDCAdminRoleClaimPath item;
     sr_OIDCAdminRoleValue := sr_OIDCAdminRoleValue item; sr_OIDCProviderLabel := sr_OIDCProviderLabel item;
     sr_OIDCAllowEmailLinking := sr_OIDCAllowEmailLinking item; sr_OIDCRequireVerifiedEmail := sr_OIDCRequireVerifiedEmail item;
     sr_LocalLoginDisabled := sr_LocalLoginDisabled item; sr_OTPEnabled := sr_OTPEnabled item;
     sr_OTPTokenTTLSeconds := sr_OTPTokenTTLSeconds item; sr_OTPRequestLimit := sr_OTPRequestLimit item;
     sr_OTPRequestWindowSeconds := sr_OTPRequestWindowSeconds item; sr_RequireMFAForAdmins := sr_RequireMFAForAdmins item;
     sr_SMTPEnabled := sr_SMTPEnabled item; sr_SMTPHost := sr_SMTPHost item; sr_SMTPPort := sr_SMTPPort item;
     sr_SMTPUsername := sr_SMTPUsername item; sr_SMTPPassword := sr_SMTPPassword item; sr_SMTPFromEmail := sr_SMTPFromEmail item;
     sr_SMTPFromName := sr_SMTPFromName item; sr_SMTPEncryption := sr_SMTPEncryption item;
     sr_SMTPInsecureSkipVerify := sr_SMTPInsecureSkipVerify item; sr_TunnelEnabled := sr_TunnelEnabled item;
     sr_TunnelServerPrivateKey := privateKey; sr_TunnelServerPublicKey := publicKey;
     sr_TunnelServerEndpoint := sr_TunnelServerEndpoint item;
     sr_TunnelListenPort := if (sr_TunnelListenPort item <=? 0)%Z then 51820%Z else sr_TunnelListenPort item;
     sr_TunnelCIDR := if String.eqb (TrimSpace (sr_TunnelCIDR item)) "" then "10.42.0.0/16" else sr_TunnelCIDR item;
     sr_TunnelServerTunnelIP := if String.eqb (TrimSpace (sr_TunnelServerTunnelIP item)) "" then "10.42.0.1" else sr_TunnelServerTunnelIP item;
     sr_TunnelConfigPath := sr_TunnelConfigPath item; sr_GeoIPDBPath := sr_GeoIPDBPath item;
     sr_CrowdSecEnabled := sr_CrowdSecEnabled item; sr_CrowdSecAPIURL := sr_CrowdSecAPIURL item;
     sr_CrowdSecAPIKeyEncrypted := sr_CrowdSecAPIKeyEncrypted item;
     sr_CrowdSecPollIntervalSecs := sr_CrowdSecPollIntervalSecs item; sr_UpdateCheckDisabled := sr_UpdateCheckDisabled item |}.

Definition apply_env (cfg : Config) (item : SettingsRow) : SettingsRow :=
  {|
     sr_FrontendBaseURL := if negb (String.eqb (TrimSpace (cf_FrontendBaseURL cfg)) "") then cf_FrontendBaseURL cfg else sr_FrontendBaseURL item;
     sr_AuthBrandName := sr_AuthBrandName item; sr_AuthLogoURL := sr_AuthLogoURL item;
     sr_AuthBackgroundColor := sr_AuthBackgroundColor item; sr_AuthBackgroundAccent := sr_AuthBackgroundAccent item;
     sr_AuthPanelColor := sr_AuthPanelColor item; sr_AuthButtonColor := sr_AuthButtonColor item;
     sr_AuthTextColor := sr_AuthTextColor item; sr_AuthMutedTextColor := sr_AuthMutedTextColor item;
     sr_AuthLoginTitle := sr_AuthLoginTitle item; sr_AuthLoginSubtitle := sr_AuthLoginSubtitle item;
     sr_AuthRouteLoginTitle := sr_AuthRouteLoginTitle item; sr_AuthRouteLoginSubtitle := sr_AuthRouteLoginSubtitle item;
     sr_AuthForbiddenTitle := sr_AuthForbiddenTitle item; sr_AuthForbiddenSubtitle := sr_AuthForbiddenSubtitle item;
     sr_AuthLoginPasswordLabel := sr_AuthLoginPasswordLabel item; sr_AuthLoginOIDCLabel := sr_AuthLoginOIDCLabel item;
     sr_AuthLoginOTPRequestLabel := sr_AuthLoginOTPRequestLabel item;
     sr_AuthLoginOTPVerifyLabel := sr_AuthLoginOTPVerifyLabel item; sr_AuthRouteContinueLabel := sr_AuthRouteContinueLabel item;
     sr_AuthRouteOIDCLabel := sr_AuthRouteOIDCLabel item; sr_AuthRoutePINLabel := sr_AuthRoutePINLabel item;
     sr_AuthRouteEmailSendLabel := sr_AuthRouteEmailSendLabel item;
     sr_AuthRouteEmailVerifyLabel := sr_AuthRouteEmailVerifyLabel item;
     sr_AuthForbiddenRetryLabel := sr_AuthForbiddenRetryLabel item; sr_OIDCEnabled := sr_OIDCEnabled item;
     sr_OIDCIssuerURL := sr_OIDCIssuerURL item; sr_OIDCClientID := sr_OIDCClientID item;
     sr_OIDCClientSecret := sr_OIDCClientSecret item; sr_OIDCRedirectURL := sr_OIDCRedirectURL item;
     sr_OIDCAllowedEmailDomains := sr_OIDCAllowedEmailDomains item; sr_OIDCAdminRoleClaimPath := sr_OIDCAdminRoleClaimPath item;
     sr_OIDCAdminRoleValue := sr_OIDCAdminRoleValue item; sr_OIDCProviderLabel := sr_OIDCProviderLabel item;
     sr_OIDCAllowEmailLinking := sr_OIDCAllowEmailLinking item; sr_OIDCRequireVerifiedEmail := sr_OIDCRequireVerifiedEmail item;
     sr_LocalLoginDisabled := sr_LocalLoginDisabled item; sr_OTPEnabled := sr_OTPEnabled item;
     sr_OTPTokenTTLSeconds := sr_OTPTokenTTLSeconds item; sr_OTPRequestLimit := sr_OTPRequestLimit item;
     sr_OTPRequestWindowSeconds := sr_OTPRequestWindowSeconds item; sr_RequireMFAForAdmins := cf_RequireMFAForAdmins cfg;
     sr_SMTPEnabled := sr_SMTPEnabled item; sr_SMTPHost := sr_SMTPHost item; sr_SMTPPort := sr_SMTPPort item;
     sr_SMTPUsername := sr_SMTPUsername item; sr_SMTPPassword := sr_SMTPPassword item; sr_SMTPFromEmail := sr_SMTPFromEmail item;
     sr_SMTPFromName := sr_SMTPFromName item; sr_SMTPEncryption := sr_SMTPEncryption item;
     sr_SMTPInsecureSkipVerify := sr_SMTPInsecureSkipVerify item; sr_TunnelEnabled := sr_TunnelEnabled item;
     sr_TunnelServerPrivateKey := sr_TunnelServerPrivateKey item; sr_TunnelServerPublicKey := sr_TunnelServerPublicKey item;
     sr_TunnelServerEndpoint := sr_TunnelServerEndpoint item; sr_TunnelListenPort := sr_TunnelListenPort item;
     sr_TunnelCIDR := sr_TunnelCIDR item; sr_TunnelServerTunnelIP := sr_TunnelServerTunnelIP item;
     sr_TunnelConfigPath := sr_TunnelConfigPath item; sr_GeoIPDBPath := sr_GeoIPDBPath item;
     sr_CrowdSecEnabled := sr_CrowdSecEnabled item; sr_CrowdSecAPIURL := sr_CrowdSecAPIURL item;
     sr_CrowdSecAPIKeyEncrypted := sr_CrowdSecAPIKeyEncrypted item;
     sr_CrowdSecPollIntervalSecs := sr_CrowdSecPollIntervalSecs item; sr_UpdateCheckDisabled := sr_UpdateCheckDisabled item |}.

(** The row the server starts with. *)
Definition seed_row (cfg : Config) : SettingsRow :=
  {| sr_FrontendBaseURL := cf_FrontendBaseURL cfg; sr_AuthBrandName := "Portlyn"; sr_AuthLogoURL := "";
     sr_AuthBackgroundColor := "#0a0d14"; sr_AuthBackgroundAccent := "#162033"; sr_AuthPanelColor := "#111826";
     sr_AuthButtonColor := "#2f6fed"; sr_AuthTextColor := "#f8fafc"; sr_AuthMutedTextColor := "#94a3b8";
     sr_AuthLoginTitle := "Login"; sr_AuthLoginSubtitle := ""; sr_AuthRouteLoginTitle := "Login";
     sr_AuthRouteLoginSubtitle := ""; sr_AuthForbiddenTitle := "Access denied"; sr_AuthForbiddenSubtitle := "";
     sr_AuthLoginPasswordLabel := "Login"; sr_AuthLoginOIDCLabel := "Continue with SSO";
     sr_AuthLoginOTPRequestLabel := "Request code"; sr_AuthLoginOTPVerifyLabel := "Verify code";
     sr_AuthRouteContinueLabel := "Continue"; sr_AuthRouteOIDCLabel := "Continue with SSO"; sr_AuthRoutePINLabel := "Unlock";
     sr_AuthRouteEmailSendLabel := "Send code"; sr_AuthRouteEmailVerifyLabel := "Verify code";
     sr_AuthForbiddenRetryLabel := "Try again"; sr_OIDCEnabled := oi_Enabled (cf_OIDC cfg);
     sr_OIDCIssuerURL := oi_IssuerURL (cf_OIDC cfg); sr_OIDCClientID := oi_ClientID (cf_OIDC cfg);
     sr_OIDCClientSecret := oi_ClientSecret (cf_OIDC cfg); sr_OIDCRedirectURL := oi_RedirectURL (cf_OIDC cfg);
     sr_OIDCAllowedEmailDomains := oi_AllowedEmailDomains (cf_OIDC cfg);
     sr_OIDCAdminRoleClaimPath := oi_AdminRoleClaimPath (cf_OIDC cfg); sr_OIDCAdminRoleValue := oi_AdminRoleValue (cf_OIDC cfg);
     sr_OIDCProviderLabel := oi_DefaultProviderLabel (cf_OIDC cfg);
     sr_OIDCAllowEmailLinking := oi_AllowEmailLinking (cf_OIDC cfg);
     sr_OIDCRequireVerifiedEmail := oi_RequireVerifiedEmail (cf_OIDC cfg); sr_LocalLoginDisabled := false;
     sr_OTPEnabled := ot_Enabled (cf_OTP cfg); sr_OTPTokenTTLSeconds := (ot_TokenTTL (cf_OTP cfg) / Second)%Z;
     sr_OTPRequestLimit := ot_RequestLimit (cf_OTP cfg);
     sr_OTPRequestWindowSeconds := (ot_RequestWindow (cf_OTP cfg) / Second)%Z;
     sr_RequireMFAForAdmins := cf_RequireMFAForAdmins cfg; sr_SMTPEnabled := false; sr_SMTPHost := ""; sr_SMTPPort := 587%Z;
     sr_SMTPUsername := ""; sr_SMTPPassword := ""; sr_SMTPFromEmail := ""; sr_SMTPFromName := "";
     sr_SMTPEncryption := "starttls"; sr_SMTPInsecureSkipVerify := false; sr_TunnelEnabled := false;
     sr_TunnelServerPrivateKey := ""; sr_TunnelServerPublicKey := ""; sr_TunnelServerEndpoint := ""; sr_TunnelListenPort := 0%Z;
     sr_TunnelCIDR := ""; sr_TunnelServerTunnelIP := ""; sr_TunnelConfigPath := ""; sr_GeoIPDBPath := "";
     sr_CrowdSecEnabled := false; sr_CrowdSecAPIURL := ""; sr_CrowdSecAPIKeyEncrypted := ""; sr_CrowdSecPollIntervalSecs := 0%Z;
     sr_UpdateCheckDisabled := false |}.

(** What INSERT stores of a new row: a column with a default gets it when the value is the zero of its type. *)
Definition inserted_settings (item : SettingsRow) : SettingsRow :=
  {| sr_FrontendBaseURL := sr_FrontendBaseURL item; sr_AuthBrandName := sr_AuthBrandName item;
     sr_AuthLogoURL := sr_AuthLogoURL item; sr_AuthBackgroundColor := sr_AuthBackgroundColor item;
     sr_AuthBackgroundAccent := sr_AuthBackgroundAccent item; sr_AuthPanelColor := sr_AuthPanelColor item;
     sr_AuthButtonColor := sr_AuthButtonColor item; sr_AuthTextColor := sr_AuthTextColor item;
     sr_AuthMutedTextColor := sr_AuthMutedTextColor item; sr_AuthLoginTitle := sr_AuthLoginTitle item;
     sr_AuthLoginSubtitle := sr_AuthLoginSubtitle item; sr_AuthRouteLoginTitle := sr_AuthRouteLoginTitle item;
     sr_AuthRouteLoginSubtitle := sr_AuthRouteLoginSubtitle item; sr_AuthForbiddenTitle := sr_AuthForbiddenTitle item;
     sr_AuthForbiddenSubtitle := sr_AuthForbiddenSubtitle item; sr_AuthLoginPasswordLabel := sr_AuthLoginPasswordLabel item;
     sr_AuthLoginOIDCLabel := sr_AuthLoginOIDCLabel item; sr_AuthLoginOTPRequestLabel := sr_AuthLoginOTPRequestLabel item;
     sr_AuthLoginOTPVerifyLabel := sr_AuthLoginOTPVerifyLabel item; sr_AuthRouteContinueLabel := sr_AuthRouteContinueLabel item;
     sr_AuthRouteOIDCLabel := sr_AuthRouteOIDCLabel item; sr_AuthRoutePINLabel := sr_AuthRoutePINLabel item;
     sr_AuthRouteEmailSendLabel := sr_AuthRouteEmailSendLabel item;
     sr_AuthRouteEmailVerifyLabel := sr_AuthRouteEmailVerifyLabel item;
     sr_AuthForbiddenRetryLabel := sr_AuthForbiddenRetryLabel item; sr_OIDCEnabled := sr_OIDCEnabled item;
     sr_OIDCIssuerURL := sr_OIDCIssuerURL item; sr_OIDCClientID := sr_OIDCClientID item;
     sr_OIDCClientSecret := sr_OIDCClientSecret item; sr_OIDCRedirectURL := sr_OIDCRedirectURL item;
     sr_OIDCAllowedEmailDomains := sr_OIDCAllowedEmailDomains item; sr_OIDCAdminRoleClaimPath := sr_OIDCAdminRoleClaimPath item;
     sr_OIDCAdminRoleValue := sr_OIDCAdminRoleValue item; sr_OIDCProviderLabel := sr_OIDCProviderLabel item;
     sr_OIDCAllowEmailLinking := sr_OIDCAllowEmailLinking item; sr_OIDCRequireVerifiedEmail := true;
     sr_LocalLoginDisabled := sr_LocalLoginDisabled item; sr_OTPEnabled := true;
     sr_OTPTokenTTLSeconds := if (sr_OTPTokenTTLSeconds item =? 0)%Z then 600%Z else sr_OTPTokenTTLSeconds item;
     sr_OTPRequestLimit := if (sr_OTPRequestLimit item =? 0)%Z then 5%Z else sr_OTPRequestLimit item;
     sr_OTPRequestWindowSeconds := if (sr_OTPRequestWindowSeconds item =? 0)%Z then 900%Z else sr_OTPRequestWindowSeconds item;
     sr_RequireMFAForAdmins := sr_RequireMFAForAdmins item; sr_SMTPEnabled := sr_SMTPEnabled item;
     sr_SMTPHost := sr_SMTPHost item; sr_SMTPPort := if (sr_SMTPPort item =? 0)%Z then 587%Z else sr_SMTPPort item;
     sr_SMTPUsername := sr_SMTPUsername item; sr_SMTPPassword := sr_SMTPPassword item; sr_SMTPFromEmail := sr_SMTPFromEmail item;
     sr_SMTPFromName := sr_SMTPFromName item;
     sr_SMTPEncryption := if String.eqb (sr_SMTPEncryption item) "" then "starttls" else sr_SMTPEncryption item;
     sr_SMTPInsecureSkipVerify := sr_SMTPInsecureSkipVerify item; sr_TunnelEnabled := sr_TunnelEnabled item;
     sr_TunnelServerPrivateKey := sr_TunnelServerPrivateKey item; sr_TunnelServerPublicKey := sr_TunnelServerPublicKey item;
     sr_TunnelServerEndpoint := sr_TunnelServerEndpoint item;
     sr_TunnelListenPort := if (sr_TunnelListenPort item =? 0)%Z then 51820%Z else sr_TunnelListenPort item;
     sr_TunnelCIDR := if String.eqb (sr_TunnelCIDR item) "" then "10.42.0.0/16" else sr_TunnelCIDR item;
     sr_TunnelServerTunnelIP := if String.eqb (sr_TunnelServerTunnelIP item) "" then "10.42.0.1" else sr_TunnelServerTunnelIP item;
     sr_TunnelConfigPath := sr_TunnelConfigPath item; sr_GeoIPDBPath := sr_GeoIPDBPath item;
     sr_CrowdSecEnabled := sr_CrowdSecEnabled item; sr_CrowdSecAPIURL := sr_CrowdSecAPIURL item;
     sr_CrowdSecAPIKeyEncrypted := sr_CrowdSecAPIKeyEncrypted item;
     sr_CrowdSecPollIntervalSecs := if (sr_CrowdSecPollIntervalSecs item =? 0)%Z then 60%Z else sr_CrowdSecPollIntervalSecs item;
     sr_UpdateCheckDisabled := sr_UpdateCheckDisabled item |}.

(** The values of the answer. *)
Inductive json_value := JString (s : string) | JBool (b : bool) | JInt (n : Z) | JStrings (l : list string).

Definition authSettingsResponse (cfg : Config) (item : SettingsRow) : list (string * json_value) :=
  [("id", JInt appSettingsSingletonID); ("frontend_base_url", JString (sr_FrontendBaseURL item));
   ("update_check_enabled", JBool (negb (sr_UpdateCheckDisabled item)));
   ("update_check_env_disabled", JBool (negb (cf_UpdateCheck cfg))); ("auth_brand_name", JString (sr_AuthBrandName item));
   ("auth_logo_url", JString (sr_AuthLogoURL item)); ("auth_background_color", JString (sr_AuthBackgroundColor item));
   ("auth_background_accent", JString (sr_AuthBackgroundAccent item)); ("auth_panel_color", JString (sr_AuthPanelColor item));
   ("auth_button_color", JString (sr_AuthButtonColor item)); ("auth_text_color", JString (sr_AuthTextColor item));
   ("auth_muted_text_color", JString (sr_AuthMutedTextColor item)); ("auth_login_title", JString (sr_AuthLoginTitle item));
   ("auth_login_subtitle", JString (sr_AuthLoginSubtitle item));
   ("auth_route_login_title", JString (sr_AuthRouteLoginTitle item));
   ("auth_route_login_subtitle", JString (sr_AuthRouteLoginSubtitle item));
   ("auth_forbidden_title", JString (sr_AuthForbiddenTitle item));
   ("auth_forbidden_subtitle", JString (sr_AuthForbiddenSubtitle item));
   ("auth_login_password_label", JString (sr_AuthLoginPasswordLabel item));
   ("auth_login_oidc_label", JString (sr_AuthLoginOIDCLabel item));
   ("auth_login_otp_request_label", JString (sr_AuthLoginOTPRequestLabel item));
   ("auth_login_otp_verify_label", JString (sr_AuthLoginOTPVerifyLabel item));
   ("auth_route_continue_label", JString (sr_AuthRouteContinueLabel item));
   ("auth_route_oidc_label", JString (sr_AuthRouteOIDCLabel item));
   ("auth_route_pin_label", JString (sr_AuthRoutePINLabel item));
   ("auth_route_email_send_label", JString (sr_AuthRouteEmailSendLabel item));
   ("auth_route_email_verify_label", JString (sr_AuthRouteEmailVerifyLabel item));
   ("auth_forbidden_retry_label", JString (sr_AuthForbiddenRetryLabel item)); ("oidc_enabled", JBool (sr_OIDCEnabled item));
   ("oidc_issuer_url", JString (sr_OIDCIssuerURL item)); ("oidc_client_id", JString (sr_OIDCClientID item));
   ("oidc_client_secret_configured", JBool (negb (String.eqb (TrimSpace (sr_OIDCClientSecret item)) "")));
   ("oidc_redirect_url", JString (sr_OIDCRedirectURL item));
   ("oidc_allowed_email_domains", JStrings (sr_OIDCAllowedEmailDomains item));
   ("oidc_admin_role_claim_path", JString (sr_OIDCAdminRoleClaimPath item));
   ("oidc_admin_role_value", JString (sr_OIDCAdminRoleValue item)); ("oidc_provider_label", JString (sr_OIDCProviderLabel item));
   ("oidc_allow_email_linking", JBool (sr_OIDCAllowEmailLinking item));
   ("oidc_require_verified_email", JBool (sr_OIDCRequireVerifiedEmail item));
   ("local_login_disabled", JBool (sr_LocalLoginDisabled item)); ("otp_enabled", JBool (sr_OTPEnabled item));
   ("otp_token_ttl_seconds", JInt (sr_OTPTokenTTLSeconds item)); ("otp_request_limit", JInt (sr_OTPRequestLimit item));
   ("otp_request_window_seconds", JInt (sr_OTPRequestWindowSeconds item));
   ("require_mfa_for_admins", JBool (sr_RequireMFAForAdmins item)); ("smtp_enabled", JBool (sr_SMTPEnabled item));
   ("smtp_host", JString (sr_SMTPHost item)); ("smtp_port", JInt (sr_SMTPPort item));
   ("smtp_username", JString (sr_SMTPUsername item));
   ("smtp_password_configured", JBool (negb (String.eqb (TrimSpace (sr_SMTPPassword item)) "")));
   ("smtp_from_email", JString (sr_SMTPFromEmail item)); ("smtp_from_name", JString (sr_SMTPFromName item));
   ("smtp_encryption", JString (sr_SMTPEncryption item)); ("smtp_insecure_skip_verify", JBool (sr_SMTPInsecureSkipVerify item));
   ("jwt_ttl_seconds", JInt (cf_TokenTTL cfg / Second)); ("refresh_token_ttl_seconds", JInt (cf_RefreshTokenTTL cfg / Second));
   ("auth_rate_limit_attempts", JInt (rl_LoginAttempts (cf_AuthRateLimit cfg)));
   ("auth_rate_limit_window_seconds", JInt (rl_Window (cf_AuthRateLimit cfg) / Second)); ("csrf_enabled", JBool true);
   ("cookie_secure", JBool (negb (cf_AllowInsecureDevMode cfg))); ("cookie_http_only", JBool true);
   ("cookie_same_site_session", JString "Lax"); ("cookie_same_site_refresh", JString "Strict")].

(** [firstNonEmpty] of this package. *)
Fixpoint ui_firstNonEmpty (values : list string) : string :=
  match values with
  | [] => ""
  | value :: values => if negb (String.eqb (TrimSpace value) "") then TrimSpace value else ui_firstNonEmpty values
  end.

(** What the login pages show, without signing in. *)
Definition authUIResponse (item : SettingsRow) : list (string * string) :=
  [("brand_name", ui_firstNonEmpty [TrimSpace (sr_AuthBrandName item); "Portlyn"]);
   ("logo_url", TrimSpace (sr_AuthLogoURL item));
   ("background_color", ui_firstNonEmpty [TrimSpace (sr_AuthBackgroundColor item); "#0a0d14"]);
   ("background_accent", ui_firstNonEmpty [TrimSpace (sr_AuthBackgroundAccent item); "#162033"]);
   ("panel_color", ui_firstNonEmpty [TrimSpace (sr_AuthPanelColor item); "#111826"]);
   ("button_color", ui_firstNonEmpty [TrimSpace (sr_AuthButtonColor item); "#2f6fed"]);
   ("text_color", ui_firstNonEmpty [TrimSpace (sr_AuthTextColor item); "#f8fafc"]);
   ("muted_text_color", ui_firstNonEmpty [TrimSpace (sr_AuthMutedTextColor item); "#94a3b8"]);
   ("login_title", ui_firstNonEmpty [TrimSpace (sr_AuthLoginTitle item); "Login"]);
   ("login_subtitle", TrimSpace (sr_AuthLoginSubtitle item));
   ("route_login_title", ui_firstNonEmpty [TrimSpace (sr_AuthRouteLoginTitle item); "Login"]);
   ("route_login_subtitle", TrimSpace (sr_AuthRouteLoginSubtitle item));
   ("forbidden_title", ui_firstNonEmpty [TrimSpace (sr_AuthForbiddenTitle item); "Access denied"]);
   ("forbidden_subtitle", ui_firstNonEmpty [TrimSpace (sr_AuthForbiddenSubtitle item); "You do not have permission to access this route."]);
   ("login_password_label", ui_firstNonEmpty [TrimSpace (sr_AuthLoginPasswordLabel item); "Login"]);
   ("login_oidc_label", ui_firstNonEmpty [TrimSpace (sr_AuthLoginOIDCLabel item); "Continue with SSO"]);
   ("login_otp_request_label", ui_firstNonEmpty [TrimSpace (sr_AuthLoginOTPRequestLabel item); "Request code"]);
   ("login_otp_verify_label", ui_firstNonEmpty [TrimSpace (sr_AuthLoginOTPVerifyLabel item); "Verify code"]);
   ("route_continue_label", ui_firstNonEmpty [TrimSpace (sr_AuthRouteContinueLabel item); "Continue"]);
   ("route_oidc_label", ui_firstNonEmpty [TrimSpace (sr_AuthRouteOIDCLabel item); "Continue with SSO"]);
   ("route_pin_label", ui_firstNonEmpty [TrimSpace (sr_AuthRoutePINLabel item); "Unlock"]);
   ("route_email_send_label", ui_firstNonEmpty [TrimSpace (sr_AuthRouteEmailSendLabel item); "Send code"]);
   ("route_email_verify_label", ui_firstNonEmpty [TrimSpace (sr_AuthRouteEmailVerifyLabel item); "Verify code"]);
   ("forbidden_retry_label", ui_firstNonEmpty [TrimSpace (sr_AuthForbiddenRetryLabel item); "Try again"])].

(** ** The store *)

Record settings_state := { st_row : option SettingsRow; st_keys : key_cache }.
Inductive settings_error := SettingsNotFound | SettingsUnreadable (e : box_error).

(** The salt and the nonce of each secret column, in the order of the struct. *)
Record seals := { seal_oidc : string * string; seal_smtp : string * string; seal_tunnel : string * string; seal_crowdsec : string * string }.

Section store.
Context `{Primitives}.
(** [dataEncryptionBytes] after [SetDataEncryptionSecrets]. *)
Context (secrets : list string).
(** What INSERT stores of a new row. *)
Context (gorm_insert : SettingsRow → SettingsRow).

Definition seal_field (value : string) (random : string * string) (keys : key_cache) : string * key_cache :=
  match secrets with
  | [] => (value, keys)
  | secret :: _ =>
      if negb (String.eqb (TrimSpace value) "") && negb (IsEncryptedValue value)
      then EncryptStringV2 secret value random.1 random.2 keys else (value, keys)
  end.

Definition encryptSecretFields (item : SettingsRow) (r : seals) (keys : key_cache) : SettingsRow * key_cache :=
  let '(oidc, keys) := seal_field (sr_OIDCClientSecret item) (seal_oidc r) keys in
  let '(smtp, keys) := seal_field (sr_SMTPPassword item) (seal_smtp r) keys in
  let '(tunnel, keys) := seal_field (sr_TunnelServerPrivateKey item) (seal_tunnel r) keys in
  let '(crowdsec, keys) := seal_field (sr_CrowdSecAPIKeyEncrypted item) (seal_crowdsec r) keys in
  (with_secrets item oidc smtp tunnel crowdsec, keys).

Definition open_field (value : string) (keys : key_cache) : result box_error string * key_cache :=
  if negb (String.eqb (TrimSpace value) "") && IsEncryptedValue value then DecryptStringAuto secrets value keys else (Ok value, keys).

Definition decryptSecretFields (item : SettingsRow) (keys : key_cache) : result box_error SettingsRow * key_cache :=
  match open_field (sr_OIDCClientSecret item) keys with
  | (Err e, keys) => (Err e, keys)
  | (Ok oidc, keys) =>
  match open_field (sr_SMTPPassword item) keys with
  | (Err e, keys) => (Err e, keys)
  | (Ok smtp, keys) =>
  match open_field (sr_TunnelServerPrivateKey item) keys with
  | (Err e, keys) => (Err e, keys)
  | (Ok tunnel, keys) =>
  match open_field (sr_CrowdSecAPIKeyEncrypted item) keys with
  | (Err e, keys) => (Err e, keys)
  | (Ok crowdsec, keys) => (Ok (with_secrets item oidc smtp tunnel crowdsec), keys)
  end end end end.

Definition settings_Get (st : settings_state) : result settings_error SettingsRow * settings_state :=
  match st_row st with
  | None => (Err SettingsNotFound, st)
  | Some item =>
      let '(r, keys) := decryptSecretFields item (st_keys st) in
      (match r with Ok item => Ok item | Err e => Err (SettingsUnreadable e) end, {| st_row := st_row st; st_keys := keys |})
  end.

Definition settings_Upsert (item : SettingsRow) (r : seals) (st : settings_state) : settings_state :=
  let '(encrypted, keys) := encryptSecretFields item r (st_keys st) in
  {| st_row := Some (match st_row st with Some _ => encrypted | None => gorm_insert encrypted end); st_keys := keys |}.

Record EnvDrift := { ed_Field : string; ed_EnvValue : string; ed_DBValue : string }.
Definition boolToString (b : bool) : string := if b then "true" else "false".

Definition env_drifts (cfg : Config) (current : SettingsRow) : list EnvDrift :=
  (if negb (Bool.eqb (sr_RequireMFAForAdmins current) (cf_RequireMFAForAdmins cfg))
   then [{| ed_Field := "REQUIRE_MFA_FOR_ADMINS"; ed_EnvValue := boolToString (cf_RequireMFAForAdmins cfg);
            ed_DBValue := boolToString (sr_RequireMFAForAdmins current) |}] else []) ++
  (if negb (String.eqb (TrimSpace (cf_FrontendBaseURL cfg)) "") && negb (String.eqb (sr_FrontendBaseURL current) (cf_FrontendBaseURL cfg))
   then [{| ed_Field := "FRONTEND_BASE_URL"; ed_EnvValue := cf_FrontendBaseURL cfg; ed_DBValue := sr_FrontendBaseURL current |}] else []).

Definition DetectEnvDrift (cfg : Config) (st : settings_state) : result settings_error (list EnvDrift) * settings_state :=
  match settings_Get st with
  | (Err e, st) => (Err e, st)
  | (Ok current, st) => (Ok (env_drifts cfg current), st)
  end.

Definition SyncFromEnv (cfg : Config) (r : seals) (st : settings_state) : result settings_error (list EnvDrift) * settings_state :=
  match DetectEnvDrift cfg st with
  | (Err e, st) => (Err e, st)
  | (Ok [], st) => (Ok [], st)
  | (Ok drifts, st) =>
      match settings_Get st with
      | (Err e, st) => (Err e, st)
      | (Ok current, st) => (Ok drifts, settings_Upsert (apply_env cfg current) r st)
      end
  end.

(** An unreadable row is an error, not a reason to seed. *)
Definition SeedDefaults (cfg : Config) (r : seals) (st : settings_state) : result settings_error unit * settings_state :=
  match settings_Get st with
  | (Ok _, st) => (Ok tt, st)
  | (Err SettingsNotFound, st) => (Ok tt, settings_Upsert (seed_row cfg) r st)
  | (Err e, st) => (Err e, st)
  end.

(** The number of columns that were sealed: the first two alone. *)
Definition MigrateStoredSecrets (r : seals) (st : settings_state) : nat * settings_state :=
  match secrets, st_row st with
  | [], _ | _, None => (0%nat, st)
  | _, Some item =>
      let pending value := negb (String.eqb (TrimSpace value) "") && negb (IsEncryptedValue value) in
      let updated := (Nat.b2n (pending (sr_OIDCClientSecret item)) + Nat.b2n (pending (sr_SMTPPassword item)))%nat in
      if (updated =? 0)%nat then (0%nat, st)
      else
        let '(oidc, keys) := seal_field (sr_OIDCClientSecret item) (seal_oidc r) (st_keys st) in
        let '(smtp, keys) := seal_field (sr_SMTPPassword item) (seal_smtp r) keys in
        (updated, {| st_row := Some (with_secrets item oidc smtp (sr_TunnelServerPrivateKey item) (sr_CrowdSecAPIKeyEncrypted item)); st_keys := keys |})
  end.

(** [EnsureServerKey], with the pair [GenerateKeyPair] would make. *)
Definition has_server_key (current : SettingsRow) : bool :=
  negb (String.eqb (TrimSpace (sr_TunnelServerPrivateKey current)) "") && negb (String.eqb (TrimSpace (sr_TunnelServerPublicKey current)) "").
Definition EnsureServerKey (keyPair : string * string) (r : seals) (st : settings_state) : result settings_error SettingsRow * settings_state :=
  match settings_Get st with
  | (Err e, st) => (Err e, st)
  | (Ok current, st) =>
      if has_server_key current then (Ok current, st)
      else let current := apply_server_key keyPair.1 keyPair.2 current in (Ok current, settings_Upsert current r st)
  end.

(** ** The handlers *)

(** [validate.Var(from, "email")]; [validateOutboundURL] and [validateServiceTargetURL] with the resolver of the server. *)
Context (valid_email : string → bool) (outbound_url : string → bool → bool) (target_url : string → bool).

Definition oidcCallbackSuggestion (frontendBase : string) : string :=
  let base := TrimRight (TrimSpace frontendBase) "/" in
  if String.eqb base "" then "https://your-domain/oidc/callback" else base +:+ "/oidc/callback".

(** The message, empty when the settings are accepted; the reason a URL is refused for is left out of it. *)
Definition validateAuthSettings (cfg : Config) (item : SettingsRow) : string :=
  let smtp :=
    let from := TrimSpace (sr_SMTPFromEmail item) in
    if negb (String.eqb from "") && negb (valid_email from) then "smtp from email is not a valid email address"
    else if sr_SMTPEnabled item && (String.eqb (TrimSpace (sr_SMTPHost item)) "" || (sr_SMTPPort item <=? 0)%Z || String.eqb from "")
    then "enabled smtp requires host, port and from email" else "" in
  if sr_LocalLoginDisabled item && negb (sr_OIDCEnabled item)
  then "local login can only be disabled while OIDC is enabled, otherwise nobody could sign in (break-glass still works)"
  else if sr_OIDCEnabled item then
    if String.eqb (TrimSpace (sr_OIDCIssuerURL item)) "" || String.eqb (TrimSpace (sr_OIDCClientID item)) ""
       || String.eqb (TrimSpace (sr_OIDCClientSecret item)) "" || String.eqb (TrimSpace (sr_OIDCRedirectURL item)) ""
    then "enabled oidc requires issuer url, client id, client secret and redirect url"
    else if Contains (ToLower (sr_OIDCRedirectURL item)) "/api/"
    then "oidc redirect url points at an API path; use the dashboard callback instead, e.g. " +:+ oidcCallbackSuggestion (cf_FrontendBaseURL cfg)
    else if negb (cf_AllowInsecureDevMode cfg) && negb (HasPrefix (ToLower (TrimSpace (sr_OIDCIssuerURL item))) "https://")
    then "oidc issuer url must use https"
    else if negb (cf_AllowInsecureDevMode cfg) && negb (outbound_url (sr_OIDCIssuerURL item) (oi_AllowPrivateIssuer (cf_OIDC cfg)))
    then "oidc issuer url is not allowed"
    else smtp
  else smtp.

Definition internal_error {X} : api_reply X := ApiError 500 "internal_error" "an internal error occurred".
Definition store_error {X} (e : settings_error) : api_reply X :=
  match e with SettingsNotFound => ApiError 404 "not_found" "resource not found" | SettingsUnreadable _ => internal_error end.

(** What a handler asks of other parts of the server. *)
Inductive settings_event :=
  | CheckForUpdates
  | LoadGeoIP (path : string) | StopCrowdSec | StartCrowdSec (url key : string) (interval : Z)
  | StartTunnel (item : SettingsRow) | StopTunnel.

Definition enabling_update_check (req : updateAuthSettingsRequest) (item : SettingsRow) : bool :=
  match ua_UpdateCheckEnabled req with Some b => b && sr_UpdateCheckDisabled item | None => false end.

(** Reading, and what is to be written. *)
Definition auth_item (cfg : Config) (req : updateAuthSettingsRequest) (item : SettingsRow) : result string SettingsRow :=
  let item := apply_auth req item in
  let message := validateAuthSettings cfg item in
  if negb (String.eqb message "") then Err message else Ok item.

Definition handleUpdateAuthSettings (cfg : Config) (req : result (string * string) updateAuthSettingsRequest) (r : seals) (st : settings_state)
    : api_reply (list (string * json_value)) * list settings_event * settings_state :=
  match settings_Get st with
  | (Err e, st) => (store_error e, [], st)
  | (Ok old, st) =>
      match req with
      | Err (code, message) => (ApiError 400 code message, [], st)
      | Ok req =>
          match auth_item cfg req old with
          | Err message => (ApiError 400 "validation_error" message, [], st)
          | Ok item =>
              (Answer (authSettingsResponse cfg item), if enabling_update_check req old then [CheckForUpdates] else [],
               settings_Upsert item r st)
          end
      end
  end.

Definition network_item (req : updateNetworkSettingsRequest) (item : SettingsRow) : option SettingsRow :=
  let bad := match un_CrowdSecAPIURL req with
             | Some url => negb (String.eqb (TrimSpace url) "") && negb (target_url (TrimSpace url))
             | None => false
             end in
  if bad then None else Some (apply_network req item).

Definition applyNetworkSecurity (item : SettingsRow) : list settings_event :=
  [LoadGeoIP (TrimSpace (sr_GeoIPDBPath item)); StopCrowdSec] ++
  (if sr_CrowdSecEnabled item && negb (String.eqb (TrimSpace (sr_CrowdSecAPIURL item)) "")
      && negb (String.eqb (TrimSpace (sr_CrowdSecAPIKeyEncrypted item)) "")
   then [StartCrowdSec (sr_CrowdSecAPIURL item) (sr_CrowdSecAPIKeyEncrypted item) (sr_CrowdSecPollIntervalSecs item * Second)%Z] else []).

(** The columns of the answer that come from the row. *)
Record networkSettingsResponse := {
  nr_GeoIPDBPath : string; nr_CrowdSecEnabled : bool; nr_CrowdSecAPIURL : string; nr_CrowdSecKeyConfigured : bool; nr_CrowdSecPollSeconds : Z;
}.
Definition networkSettingsPayload (st : settings_state) : result settings_error networkSettingsResponse * settings_state :=
  match settings_Get st with
  | (Err e, st) => (Err e, st)
  | (Ok item, st) =>
      (Ok {| nr_GeoIPDBPath := sr_GeoIPDBPath item; nr_CrowdSecEnabled := sr_CrowdSecEnabled item; nr_CrowdSecAPIURL := sr_CrowdSecAPIURL item;
             nr_CrowdSecKeyConfigured := negb (String.eqb (TrimSpace (sr_CrowdSecAPIKeyEncrypted item)) "");
             nr_CrowdSecPollSeconds := sr_CrowdSecPollIntervalSecs item |}, st)
  end.

Definition handleUpdateNetworkSettings (req : result (string * string) updateNetworkSettingsRequest) (r : seals) (st : settings_state)
    : api_reply networkSettingsResponse * list settings_event * settings_state :=
  match req with
  | Err (code, message) => (ApiError 400 code message, [], st)
  | Ok req =>
      match settings_Get st with
      | (Err _, st) => (internal_error, [], st)
      | (Ok item, st) =>
          match network_item req item with
          | None => (ApiError 400 "invalid_crowdsec_url" "crowdsec_api_url is not a valid or permitted URL", [], st)
          | Some item =>
              let st := settings_Upsert item r st in
              match settings_Get st with
              | (Err _, st) => (internal_error, [], st)
              | (Ok reloaded, st) =>
                  let '(payload, st) := networkSettingsPayload st in
                  (match payload with Ok resp => Answer resp | Err _ => internal_error end, applyNetworkSecurity reloaded, st)
              end
          end
      end
  end.

Record tunnelStatusResponse := {
  ts_Enabled : bool; ts_Configured : bool; ts_ServerPublicKey : string; ts_ServerEndpoint : string; ts_ListenPort : Z; ts_CIDR : string;
  ts_ServerTunnelIP : string; ts_ConfigPath : string;
}.
Definition tunnelStatusFromSettings (item : SettingsRow) : tunnelStatusResponse :=
  {| ts_Enabled := sr_TunnelEnabled item;
     ts_Configured := negb (String.eqb (TrimSpace (sr_TunnelServerPublicKey item)) "") && negb (String.eqb (TrimSpace (sr_TunnelServerEndpoint item)) "");
     ts_ServerPublicKey := sr_TunnelServerPublicKey item; ts_ServerEndpoint := sr_TunnelServerEndpoint item; ts_ListenPort := sr_TunnelListenPort item;
     ts_CIDR := sr_TunnelCIDR item; ts_ServerTunnelIP := sr_TunnelServerTunnelIP item; ts_ConfigPath := sr_TunnelConfigPath item |}.

(** [started] tells whether the tunnel server runs; writing the text of its configuration is left out. *)
Definition handleUpdateTunnelSettings (started : bool) (keyPair : string * string) (req : result (string * string) updateTunnelSettingsRequest)
    (r r' : seals) (st : settings_state) : api_reply tunnelStatusResponse * list settings_event * settings_state :=
  match req with
  | Err (code, message) => (ApiError 400 code message, [], st)
  | Ok req =>
      match settings_Get st with
      | (Err _, st) => (internal_error, [], st)
      | (Ok item, st) =>
          let item := apply_tunnel req item in
          let st := settings_Upsert item r st in
          let '(failed, events, st) :=
            if sr_TunnelEnabled item then
              match EnsureServerKey keyPair r' st with
              | (Err _, st) => (true, [], st)
              | (Ok _, st) =>
                  if negb started then
                    match settings_Get st with (Ok refreshed, st) => (false, [StartTunnel refreshed], st) | (Err _, st) => (false, [], st) end
                  else (false, [], st)
              end
            else (false, if started then [StopTunnel] else [], st) in
          if failed : bool then (internal_error, events, st)
          else match settings_Get st with
               | (Err _, st) => (internal_error, events, st)
               | (Ok item, st) => (Answer (tunnelStatusFromSettings item), events, st)
               end
      end
  end.
End store.

(** * Histories

    A request reads the row and later writes what it made of it; in between others run. *)
Record settings_world := {
  sw_state : settings_state;
  sw_pending : list SettingsRow;
  sw_written : option SettingsRow;     (* the row of the last write, as the writer handed it to the store *)
}.

Section history.
Context `{PrimitivesLaws}.
Context (secrets : list string) (gorm_insert : SettingsRow → SettingsRow).
Context (valid_email : string → bool) (outbound_url : string → bool → bool) (target_url : string → bool) (cfg : Config).
Abbreviation get := (settings_Get secrets).
Abbreviation upsert := (settings_Upsert secrets gorm_insert).

(** What one of the writers makes of the row it read. *)
Inductive drafted (old : SettingsRow) : SettingsRow → Prop :=
  | draft_auth req item : auth_item valid_email outbound_url cfg req old = Ok item → drafted old item
  | draft_network req item : network_item target_url req old = Some item → drafted old item
  | draft_tunnel req : drafted old (apply_tunnel req old)
  | draft_key privateKey publicKey : has_server_key old = false → drafted old (apply_server_key privateKey publicKey old)
  | draft_env : env_drifts cfg old ≠ [] → drafted old (apply_env cfg old).

(** The random bytes the store draws have the lengths it asks for. *)
Definition seals_ok (r : seals) : Prop :=
  Forall (λ p : string * string, random_ok p.1 p.2) [seal_oidc r; seal_smtp r; seal_tunnel r; seal_crowdsec r].

Definition reading (w : settings_world) (st : settings_state) (pending : list SettingsRow) : settings_world :=
  {| sw_state := st; sw_pending := pending; sw_written := sw_written w |}.

Inductive settings_step : settings_world → settings_world → Prop :=
  | step_read w st' old item :
      get (sw_state w) = (Ok old, st') → drafted old item → settings_step w (reading w st' (item :: sw_pending w))
  | step_look w r st' : get (sw_state w) = (r, st') → settings_step w (reading w st' (sw_pending w))
  | step_seed w st' :
      get (sw_state w) = (Err SettingsNotFound, st') → settings_step w (reading w st' (seed_row cfg :: sw_pending w))
  | step_write w pending pending' item r :
      sw_pending w = pending ++ item :: pending' → seals_ok r →
      settings_step w {| sw_state := upsert item r (sw_state w); sw_pending := pending ++ pending'; sw_written := Some item |}
  | step_migrate w n st' r :
      MigrateStoredSecrets secrets r (sw_state w) = (n, st') → seals_ok r → settings_step w (reading w st' (sw_pending w))
  | step_restart w :
      settings_step w (reading w {| st_row := st_row (sw_state w); st_keys := memoised [] |} []).

(** Somebody can sign in: local login is off only while single sign-on is on and configured. *)
Definition no_lockout (item : SettingsRow) : Prop :=
  sr_LocalLoginDisabled item = true →
  sr_OIDCEnabled item = true ∧ TrimSpace (sr_OIDCIssuerURL item) ≠ "" ∧ TrimSpace (sr_OIDCClientID item) ≠ "" ∧ TrimSpace (sr_OIDCRedirectURL item) ≠ "".

Definition secret_columns (item : SettingsRow) : list string :=
  [sr_OIDCClientSecret item; sr_SMTPPassword item; sr_TunnelServerPrivateKey item; sr_CrowdSecAPIKeyEncrypted item].
(** What the store keeps of a secret that was handed to it. *)
Definition stored_as (value stored : string) : Prop :=
  match secrets with
  | [] => stored = value
  | secret :: _ =>
      if decide (TrimSpace value = "") then stored = value
      else if IsEncryptedValue value then stored = value else sealed_text secret value stored
  end.
Definition stored_sealed (item row : SettingsRow) : Prop := Forall2 stored_as (secret_columns item) (secret_columns row).

(** What gorm keeps of a row it inserts: every column without a default, and those whose default is the zero value. *)
Definition insert_keeps (f : SettingsRow → SettingsRow) : Prop :=
  ∀ item, secret_columns (f item) = secret_columns item ∧ sr_LocalLoginDisabled (f item) = sr_LocalLoginDisabled item ∧
    sr_OIDCEnabled (f item) = sr_OIDCEnabled item ∧ sr_OIDCIssuerURL (f item) = sr_OIDCIssuerURL item ∧
    sr_OIDCClientID (f item) = sr_OIDCClientID item ∧ sr_OIDCRedirectURL (f item) = sr_OIDCRedirectURL item.

Lemma seal_field_stored value random keys :
  random_ok random.1 random.2 → cache_ok keys →
  stored_as value (seal_field secrets value random keys).1 ∧ cache_ok (seal_field secrets value random keys).2.
Proof.
  intros [Hs Hn] Hk. unfold seal_field, stored_as. destruct secrets as [|secret l]; [done|].
  destruct (String.eqb_spec (TrimSpace value) ""); cbn; [by rewrite decide_True|]. rewrite decide_False by done.
  destruct (IsEncryptedValue value) eqn:He; [done|]. by apply EncryptStringV2_text.
Qed.

(** Sealing twice seals once. *)
Lemma seal_field_again value stored random keys : stored_as value stored → seal_field secrets stored random keys = (stored, keys).
Proof.
  unfold seal_field, stored_as. destruct secrets as [|secret l]; [done|]. destruct (decide (TrimSpace value = "")) as [Hb|Hb].
  - intros ->. by rewrite Hb.
  - destruct (IsEncryptedValue value) eqn:He; [intros ->; by rewrite He, andb_false_r|]. intros ->%sealed_text_marked. by rewrite andb_false_r.
Qed.

(** Sealing touches the secrets alone. *)
Lemma encryptSecretFields_spec item r keys :
  seals_ok r → cache_ok keys →
  ∃ oidc smtp tunnel crowdsec, (encryptSecretFields secrets item r keys).1 = with_secrets item oidc smtp tunnel crowdsec ∧
    Forall2 stored_as (secret_columns item) [oidc; smtp; tunnel; crowdsec] ∧ cache_ok (encryptSecretFields secrets item r keys).2.
Proof.
  unfold seals_ok. rewrite !Forall_cons. intros (R1 & R2 & R3 & R4 & _) K. unfold encryptSecretFields.
  destruct (seal_field_stored (sr_OIDCClientSecret item) _ _ R1 K) as [H1 K1]. destruct (seal_field _ _ _ keys) as [oidc k1]. cbn [fst snd] in *.
  destruct (seal_field_stored (sr_SMTPPassword item) _ _ R2 K1) as [H2 K2]. destruct (seal_field _ _ _ k1) as [smtp k2]. cbn [fst snd] in *.
  destruct (seal_field_stored (sr_TunnelServerPrivateKey item) _ _ R3 K2) as [H3 K3]. destruct (seal_field _ _ _ k2) as [tunnel k3]. cbn [fst snd] in *.
  destruct (seal_field_stored (sr_CrowdSecAPIKeyEncrypted item) _ _ R4 K3) as [H4 K4]. destruct (seal_field _ _ _ k3) as [crowdsec k4]. cbn [fst snd] in *.
  exists oidc, smtp, tunnel, crowdsec. split; [done|]. split; [|done]. repeat apply Forall2_cons_2; done.
Qed.

Lemma open_field_keys value keys : cache_ok keys → cache_ok (open_field secrets value keys).2.
Proof. intros Hk. unfold open_field. destruct (_ && _); [|done]. by apply (DecryptStringAuto_keys secrets value keys keys). Qed.

Lemma get_keys st : cache_ok (st_keys st) → cache_ok (st_keys (get st).2).
Proof.
  intros Hk. unfold settings_Get. destruct (st_row st) as [item|]; [|done]. unfold decryptSecretFields.
  repeat match goal with
  | K : cache_ok ?k |- context [open_field secrets ?v ?k] =>
      let K' := fresh in pose proof (open_field_keys v k K) as K'; clear K; destruct (open_field secrets v k) as [[?|?] ?]; cbn [snd] in K'; [|exact K']
  end.
  done.
Qed.

Lemma get_row st r st' : get st = (r, st') → st_row st' = st_row st.
Proof. unfold settings_Get. destruct (st_row st) eqn:Hr; [|by intros [= <- <-]]. destruct (decryptSecretFields _ _ _). by intros [= <- <-]. Qed.

Lemma decrypt_columns item item' keys keys' :
  decryptSecretFields secrets item keys = (Ok item', keys') → ∃ oidc smtp tunnel crowdsec, item' = with_secrets item oidc smtp tunnel crowdsec.
Proof.
  unfold decryptSecretFields. repeat (destruct (open_field _ _ _) as [[?|] ?]; [|done]). intros [= <- <-]. eauto.
Qed.

Lemma get_no_lockout st old st' row : get st = (Ok old, st') → st_row st = Some row → no_lockout row → no_lockout old.
Proof.
  unfold settings_Get. intros Hg Hr Hrow. rewrite Hr in Hg. destruct (decryptSecretFields secrets row (st_keys st)) as [[item|] keys] eqn:Hd; [|done].
  simplify_eq. apply decrypt_columns in Hd as (? & ? & ? & ? & ->). exact Hrow.
Qed.

Lemma auth_item_no_lockout req old item : auth_item valid_email outbound_url cfg req old = Ok item → no_lockout item.
Proof.
  unfold auth_item. cbv zeta. set (new := apply_auth req old). destruct (String.eqb_spec (validateAuthSettings valid_email outbound_url cfg new) "") as [Hv|]; [|done].
  cbn [negb]. intros [= <-] Hl. unfold validateAuthSettings in Hv. cbv zeta in Hv. rewrite Hl in Hv. cbn [andb] in Hv.
  destruct (sr_OIDCEnabled new); [|done]. cbn [negb] in Hv.
  rewrite <-!String.eqb_neq.
  destruct (String.eqb (TrimSpace (sr_OIDCIssuerURL new)) ""), (String.eqb (TrimSpace (sr_OIDCClientID new)) ""),
    (String.eqb (TrimSpace (sr_OIDCClientSecret new)) ""), (String.eqb (TrimSpace (sr_OIDCRedirectURL new)) ""); done.
Qed.

Lemma drafted_no_lockout old item : no_lockout old → drafted old item → no_lockout item.
Proof.
  intros Ho Hd. destruct Hd as [req item Hi | req item Hi | req | pk pub _ | _]; [by eapply auth_item_no_lockout | | exact Ho..].
  unfold network_item in Hi. cbv zeta in Hi. repeat case_match; simplify_eq; exact Ho.
Qed.

Record world_ok (w : settings_world) : Prop := {
  wo_row : ∀ row, st_row (sw_state w) = Some row → no_lockout row ∧ ∃ item, sw_written w = Some item ∧ stored_sealed item row;
  wo_pending : Forall no_lockout (sw_pending w);
  wo_keys : cache_ok (st_keys (sw_state w));
}.

Lemma upsert_row_ok item r st row :
  insert_keeps gorm_insert → seals_ok r → cache_ok (st_keys st) → no_lockout item → st_row (upsert item r st) = Some row →
  no_lockout row ∧ stored_sealed item row.
Proof.
  intros Hins Hr Hk Hn. unfold settings_Upsert. destruct (encryptSecretFields_spec item r (st_keys st) Hr Hk) as (a & b & c & d & He & Hp & _).
  destruct (encryptSecretFields _ _ _ _) as [enc keys]. cbn [fst] in He. subst enc. cbn [st_row]. intros [= <-].
  destruct (st_row st); [by split; [exact Hn | exact Hp]|]. destruct (Hins (with_secrets item a b c d)) as (Hs & Hl & He & Hi & Hc & Hrd).
  split; [unfold no_lockout; rewrite Hl, He, Hi, Hc, Hrd; exact Hn|]. unfold stored_sealed. by rewrite Hs.
Qed.

Lemma upsert_keys item r st : seals_ok r → cache_ok (st_keys st) → cache_ok (st_keys (upsert item r st)).
Proof.
  intros Hr Hk. unfold settings_Upsert. destruct (encryptSecretFields_spec item r (st_keys st) Hr Hk) as (? & ? & ? & ? & _ & _ & Hk').
  by destruct (encryptSecretFields _ _ _ _).
Qed.

(** A migration finds nothing to do in what this store wrote. *)
Lemma migrate_nothing r st n st' :
  (∀ row, st_row st = Some row → ∃ item, stored_sealed item row) → MigrateStoredSecrets secrets r st = (n, st') → st' = st.
Proof.
  intros Hrow. unfold MigrateStoredSecrets. destruct secrets as [|s0 l] eqn:Hsec; [by intros [= _ <-]|]. rewrite <-Hsec.
  destruct (st_row st) as [item|] eqn:Hr; [|by intros [= _ <-]]. destruct (_ =? 0)%nat; [by intros [= _ <-]|].
  destruct (Hrow item eq_refl) as [old Hs]. unfold stored_sealed, secret_columns in Hs. rewrite !Forall2_cons in Hs. destruct Hs as (H1 & H2 & _).
  rewrite (seal_field_again _ _ _ _ H1), (seal_field_again _ _ _ _ H2). intros [= _ <-]. destruct st as [row keys]; cbn in *. subst row. by destruct item.
Qed.

Lemma reading_ok w st' pending :
  world_ok w → st_row st' = st_row (sw_state w) → cache_ok (st_keys st') → Forall no_lockout pending → world_ok (reading w st' pending).
Proof. intros [Hrow _ _] Hr Hk Hp. constructor; cbn; [by rewrite Hr|done|done]. Qed.

Lemma settings_step_ok w w' : insert_keeps gorm_insert → world_ok w → settings_step w w' → world_ok w'.
Proof.
  intros Hins Hw Hs. pose proof Hw as [Hrow Hpend Hk].
  destruct Hs as [w st' old item Hg Hd | w r st' Hg | w st' Hg | w p p' item r Hp Hr | w n st' r Hm Hr | w].
  - pose proof (get_row _ _ _ Hg) as Hr. pose proof (get_keys _ Hk) as Hk'. rewrite Hg in Hk'. apply reading_ok; [done..|]. constructor; [|done].
    destruct (st_row (sw_state w)) as [row|] eqn:Hrow'; [|unfold settings_Get in Hg; by rewrite Hrow' in Hg].
    eapply drafted_no_lockout; [|done]. eapply get_no_lockout; [done..|]. by apply Hrow.
  - pose proof (get_keys _ Hk) as Hk'. rewrite Hg in Hk'. apply reading_ok; [done|by eapply get_row|done..].
  - pose proof (get_keys _ Hk) as Hk'. rewrite Hg in Hk'. apply reading_ok; [done|by eapply get_row|done|]. by constructor.
  - rewrite Hp in Hpend. apply Forall_app in Hpend as [Hp1 Hp2]. apply Forall_cons in Hp2 as [Hi Hp3].
    constructor; cbn [sw_state sw_pending sw_written]; [|by apply Forall_app|by apply upsert_keys].
    intros row Hst. destruct (upsert_row_ok item r (sw_state w) row) as [? ?]; [done..|]. eauto.
  - apply migrate_nothing in Hm as ->; [by apply reading_ok|]. intros row Hst. destruct (Hrow row Hst) as [_ (item & _ & ?)]. eauto.
  - apply reading_ok; [done|done|by apply memoised_ok|done].
Qed.

(** Two writers that read the same row. *)
Lemma both_write st st1 st2 old a b r written :
  get st = (Ok old, st1) → get st1 = (Ok old, st2) → drafted old a → drafted old b → seals_ok r →
  rtc settings_step {| sw_state := st; sw_pending := []; sw_written := written |}
    {| sw_state := upsert b r (upsert a r st2); sw_pending := []; sw_written := Some b |}.
Proof.
  intros Hg Hg' Ha Hb Hr. eapply rtc_l; [by apply (step_read _ st1 old a)|]. eapply rtc_l; [apply (step_read _ st2 old b); [exact Hg'|exact Hb]|].
  eapply rtc_l; [by apply (step_write _ [b] [] a r)|]. apply rtc_once. by apply (step_write {| sw_state := upsert a r st2; sw_pending := [b]; sw_written := Some a |} [] [] b r).
Qed.

(** ** Round trip *)

Lemma field_opens value random keys keys' :
  secrets = [] ∨ Forall (λ s, s ≠ "") secrets → random_ok random.1 random.2 → IsEncryptedValue value = false → cache_ok keys → cache_ok keys' →
  (open_field secrets (seal_field secrets value random keys).1 keys').1 = Ok value ∧
  cache_ok (open_field secrets (seal_field secrets value random keys).1 keys').2 ∧ cache_ok (seal_field secrets value random keys).2.
Proof.
  intros Hsec [Hs Hn] Hplain Hk Hk'. unfold seal_field. destruct secrets as [|secret l] eqn:Hse.
  { unfold open_field. cbn [fst]. rewrite Hplain, andb_false_r. done. }
  destruct Hsec as [|Hne]; [done|]. rewrite <-Hse in *. rewrite Hplain. cbn [negb]. rewrite andb_true_r. destruct (String.eqb_spec (TrimSpace value) "") as [Hb|Hb]; cbn [negb].
  { unfold open_field. cbn [fst]. by rewrite Hb, String.eqb_refl. }
  assert (secret ∈ secrets) as Hin by (rewrite Hse; by left). pose proof (proj1 (Forall_forall _ _) Hne _ Hin) as Hsn.
  destruct (sealed_v2_opens secrets secret value random.1 random.2 keys keys' Hin Hsn Hs Hn Hk Hk') as (Hopen & Henc & Hok).
  unfold open_field. rewrite Henc, andb_true_r. destruct (String.eqb_spec (TrimSpace (EncryptStringV2 secret value random.1 random.2 keys).1) "") as [He|He].
  { unfold IsEncryptedValue, IsEncryptedValueV1, IsEncryptedValueV2 in Henc. by rewrite He in Henc. }
  cbn [negb]. split; [done|]. split; [|done]. exact (proj2 (DecryptStringAuto_keys _ _ keys' keys' Hk' Hk')). 
Qed.

(** The settings that were written are read back, secrets included, as long as no secret looks like a sealed one. *)
Theorem settings_roundtrip item r st :
  secrets = [] ∨ Forall (λ s, s ≠ "") secrets → seals_ok r → cache_ok (st_keys st) → is_Some (st_row st) →
  Forall (λ v, IsEncryptedValue v = false) (secret_columns item) →
  (get (upsert item r st)).1 = Ok item.
Proof.
  intros Hsec Hr Hk [row Hrow] Hplain. unfold seals_ok in Hr. rewrite !Forall_cons in Hr. destruct Hr as (R1 & R2 & R3 & R4 & _).
  unfold secret_columns in Hplain. rewrite !Forall_cons in Hplain. destruct Hplain as (P1 & P2 & P3 & P4 & _).
  unfold settings_Upsert, encryptSecretFields.
  pose proof (λ c, field_opens _ _ _ c Hsec R1 P1 Hk) as F1. destruct (field_opens _ _ _ _ Hsec R1 P1 Hk Hk) as (_ & _ & K1).
  destruct (seal_field _ _ _ (st_keys st)) as [oidc k1]. cbn [fst snd] in *.
  pose proof (λ c, field_opens _ _ _ c Hsec R2 P2 K1) as F2. destruct (field_opens _ _ _ _ Hsec R2 P2 K1 K1) as (_ & _ & K2).
  destruct (seal_field _ _ _ k1) as [smtp k2]. cbn [fst snd] in *.
  pose proof (λ c, field_opens _ _ _ c Hsec R3 P3 K2) as F3. destruct (field_opens _ _ _ _ Hsec R3 P3 K2 K2) as (_ & _ & K3).
  destruct (seal_field _ _ _ k2) as [tunnel k3]. cbn [fst snd] in *.
  pose proof (λ c, field_opens _ _ _ c Hsec R4 P4 K3) as F4. destruct (field_opens _ _ _ _ Hsec R4 P4 K3 K3) as (_ & _ & K4).
  destruct (seal_field _ _ _ k3) as [crowdsec k4]. cbn [fst snd] in *.
  rewrite Hrow. unfold settings_Get. cbn [st_row st_keys]. unfold decryptSecretFields. cbn.
  destruct (F1 k4 K4) as (E1 & C1 & _). destruct (open_field secrets oidc k4) as [r1 c1]. cbn in E1, C1. subst r1.
  destruct (F2 c1 C1) as (E2 & C2 & _). destruct (open_field secrets smtp c1) as [r2 c2]. cbn in E2, C2. subst r2.
  destruct (F3 c2 C2) as (E3 & C3 & _). destruct (open_field secrets tunnel c2) as [r3 c3]. cbn in E3, C3. subst r3.
  destruct (F4 c3 C3) as (E4 & C4 & _). destruct (open_field secrets crowdsec c3) as [r4 c4]. cbn in E4, C4. subst r4.
  by destruct item.
Qed.

(** * Theorems *)

(** C37 From an empty table on, under the same configured secrets, however requests to change the settings interleave (each reads the
    row and later writes the whole row), together with the seeding, the synchronisation with the environment, the migration and
    restarts, no stored row turns local login off without single sign-on that is on and has an issuer, a client and a redirect
    address; and the stored OIDC secret, mail password, tunnel key and CrowdSec key are those of the last write, each one in the
    AES-GCM sealing under the first secret.  Left as they are: a blank one, one that itself begins with "enc:v1:" or "enc:v2:"
    ([prefixed_secret_blocks_settings] shows what comes of that), and all of them while no secret is configured.  A table from before
    secrets were configured is not covered ([migration_skips_tunnel_key]). *)
Theorem settings_history_safe before w row :
  insert_keeps gorm_insert → Forall (λ r, String.length r.2 = 16%nat) before →
  rtc settings_step {| sw_state := {| st_row := None; st_keys := memoised before |}; sw_pending := []; sw_written := None |} w →
  st_row (sw_state w) = Some row → no_lockout row ∧ ∃ item, sw_written w = Some item ∧ stored_sealed item row.
Proof.
  intros Hins Hb Hsteps. cut (world_ok w); [intros [Hrow _ _]; apply Hrow|].
  assert (∀ w1 w2, rtc settings_step w1 w2 → world_ok w1 → world_ok w2) as Hind.
  { induction 1 as [|w1 w2 w3 Hstep _ IH]; [done|]. intros Hw. apply IH. by eapply settings_step_ok. }
  eapply Hind; [exact Hsteps|]. constructor; cbn; [done..|by apply memoised_ok].
Qed.

End history.

(** The answer to a request for the settings does not depend on the secrets, except for whether there are any. *)
Theorem settings_reply_hides_secrets cfg item oidc smtp tunnel crowdsec :
  (TrimSpace oidc = "" ↔ TrimSpace (sr_OIDCClientSecret item) = "") → (TrimSpace smtp = "" ↔ TrimSpace (sr_SMTPPassword item) = "") →
  authSettingsResponse cfg (with_secrets item oidc smtp tunnel crowdsec) = authSettingsResponse cfg item ∧
  authUIResponse (with_secrets item oidc smtp tunnel crowdsec) = authUIResponse item.
Proof.
  intros Ho Hs. split; [|reflexivity].
  assert (∀ a b, (TrimSpace a = "" ↔ TrimSpace b = "") → String.eqb (TrimSpace a) "" = String.eqb (TrimSpace b) "") as He.
  { intros a b Hab. destruct (String.eqb_spec (TrimSpace a) ""), (String.eqb_spec (TrimSpace b) ""); naive_solver. }
  unfold authSettingsResponse. cbn [with_secrets sr_OIDCClientSecret sr_SMTPPassword]. rewrite (He _ _ Ho), (He _ _ Hs). reflexivity.
Qed.

(** * An example *)

Definition sample_seals : seals :=
  {| seal_oidc := ("0123456789abcdef", "0123456789ab"); seal_smtp := ("0123456789abcdef", "0123456789ab");
     seal_tunnel := ("0123456789abcdef", "0123456789ab"); seal_crowdsec := ("0123456789abcdef", "0123456789ab") |}.
Definition no_cached_keys : key_cache := {| argon2KeyCache := ∅; argon2CacheCount := 0 |}.
Definition seeded_settings : settings_state :=
  (SeedDefaults ["key"] inserted_settings (Load_config (λ _, None) (λ _, None) (λ _, "")) sample_seals {| st_row := None; st_keys := no_cached_keys |}).2.

Lemma inserted_settings_keeps : insert_keeps inserted_settings.
Proof. intros item. repeat split. Qed.
(** A request that touches the sign-in settings alone. *)
Definition sign_in_request (enabled disabled otp : option bool) (issuer client secret redirect : option string) : updateAuthSettingsRequest :=
  {| ua_FrontendBaseURL := None; ua_UpdateCheckEnabled := None; ua_AuthBrandName := None; ua_AuthLogoURL := None;
     ua_AuthBackgroundColor := None; ua_AuthBackgroundAccent := None; ua_AuthPanelColor := None; ua_AuthButtonColor := None;
     ua_AuthTextColor := None; ua_AuthMutedTextColor := None; ua_AuthLoginTitle := None; ua_AuthLoginSubtitle := None;
     ua_AuthRouteLoginTitle := None; ua_AuthRouteLoginSubtitle := None; ua_AuthForbiddenTitle := None;
     ua_AuthForbiddenSubtitle := None; ua_AuthLoginPasswordLabel := None; ua_AuthLoginOIDCLabel := None;
     ua_AuthLoginOTPRequestLabel := None; ua_AuthLoginOTPVerifyLabel := None; ua_AuthRouteContinueLabel := None;
     ua_AuthRouteOIDCLabel := None; ua_AuthRoutePINLabel := None; ua_AuthRouteEmailSendLabel := None;
     ua_AuthRouteEmailVerifyLabel := None; ua_AuthForbiddenRetryLabel := None; ua_OIDCEnabled := enabled;
     ua_OIDCIssuerURL := issuer; ua_OIDCClientID := client; ua_OIDCClientSecret := secret; ua_OIDCRedirectURL := redirect;
     ua_OIDCAllowedEmailDomains := None; ua_OIDCAdminRoleClaimPath := None; ua_OIDCAdminRoleValue := None;
     ua_OIDCProviderLabel := None; ua_OIDCAllowEmailLinking := None; ua_OIDCRequireVerifiedEmail := None;
     ua_LocalLoginDisabled := disabled; ua_OTPEnabled := otp; ua_OTPTokenTTLSeconds := None; ua_OTPRequestLimit := None;
     ua_OTPRequestWindowSeconds := None; ua_RequireMFAForAdmins := None; ua_SMTPEnabled := None; ua_SMTPHost := None;
     ua_SMTPPort := None; ua_SMTPUsername := None; ua_SMTPPassword := None; ua_SMTPFromEmail := None; ua_SMTPFromName := None;
     ua_SMTPEncryption := None; ua_SMTPInsecureSkipVerify := None |}.

Definition sso_request : updateAuthSettingsRequest :=
  sign_in_request (Some true) (Some true) None (Some "https://id.example.com") (Some "portlyn") (Some "s3cret") (Some "https://portlyn.example.com/oidc/callback").
Definition settings_cfg : Config := Load_config (λ _, None) (λ _, None) (λ _, "").
Abbreviation sample_get := (settings_Get ["key"]).
Abbreviation sample_upsert := (settings_Upsert ["key"] inserted_settings).
Abbreviation sample_step := (settings_step ["key"] inserted_settings (λ _, true) (λ _ _, true) (λ _, true) settings_cfg).

Definition sample_draft (req : updateAuthSettingsRequest) (st : settings_state) : SettingsRow :=
  match (sample_get st).1 with
  | Ok old => match auth_item (λ _, true) (λ _ _, true) settings_cfg req old with Ok item => item | Err _ => seed_row settings_cfg end
  | Err _ => seed_row settings_cfg
  end.
Definition sso_settings : settings_state := sample_upsert (sample_draft sso_request seeded_settings) sample_seals (sample_get seeded_settings).2.

Lemma settings_history_safe_witness :
  ∃ row, st_row sso_settings = Some row ∧ sr_LocalLoginDisabled row = true ∧ sr_OIDCEnabled row = true ∧ sealed_text "key" "s3cret" (sr_OIDCClientSecret row).
Proof.
  destruct (st_row sso_settings) as [row|] eqn:Hrow; [|vm_compute in Hrow; discriminate Hrow]. exists row. split; [reflexivity|].
  assert (sr_LocalLoginDisabled row = true) as Hl by (vm_compute in Hrow; injection Hrow as <-; reflexivity). split; [exact Hl|].
  destruct (settings_history_safe ["key"] inserted_settings (λ _, true) (λ _ _, true) (λ _, true) settings_cfg []
    {| sw_state := sso_settings; sw_pending := []; sw_written := Some (sample_draft sso_request seeded_settings) |} row inserted_settings_keeps (Forall_nil_2 _))
    as [Hno (item & Hi & Hs)]; [|exact Hrow|].
  - eapply rtc_l; [eapply step_seed; vm_compute; reflexivity|].
    eapply rtc_l; [eapply (step_write _ _ _ _ _ _ _ [] [] _ sample_seals); [reflexivity|repeat constructor]|].
    eapply rtc_l.
    { apply (step_read _ _ _ _ _ _ _ (sample_get seeded_settings).2 (match (sample_get seeded_settings).1 with Ok old => old | Err _ => seed_row settings_cfg end)
        (sample_draft sso_request seeded_settings)); [vm_compute; reflexivity|]. apply (draft_auth _ _ _ _ _ sso_request). vm_compute. reflexivity. }
    apply rtc_once. unfold sso_settings.
    apply (step_write ["key"] inserted_settings (λ _, true) (λ _ _, true) (λ _, true) settings_cfg (reading _ (sample_get seeded_settings).2 _) [] [] (sample_draft sso_request seeded_settings) sample_seals); [reflexivity|repeat constructor].
  - split; [by apply Hno|]. change (Some (sample_draft sso_request seeded_settings) = Some item) in Hi. apply (inj Some) in Hi. subst item. apply Forall2_cons in Hs as [Hs _].
    assert (sr_OIDCClientSecret (sample_draft sso_request seeded_settings) = "s3cret") as Hsec by (vm_compute; reflexivity). rewrite Hsec in Hs. exact Hs.
Defined.

Lemma settings_roundtrip_witness :
  (sample_get (sample_upsert (sample_draft sso_request seeded_settings) sample_seals seeded_settings)).1 = Ok (sample_draft sso_request seeded_settings).
Proof.
  apply (settings_roundtrip ["key"] inserted_settings (sample_draft sso_request seeded_settings) sample_seals seeded_settings).
  - right. by repeat constructor.
  - repeat constructor.
  - exact cache_empty_ok.
  - vm_compute. eexists. reflexivity.
  - vm_compute. repeat constructor.
Defined.

(** ** Behaviour that is not intended *)

(** A secret that begins like a sealed one is accepted and stored as it is; from then on the settings cannot be read, and no
    request through the API changes them any more. *)
Theorem prefixed_secret_blocks_settings :
  let request := sign_in_request (Some true) None None (Some "https://id.example.com") (Some "portlyn") (Some "enc:v1:") (Some "https://portlyn.example.com/cb") in
  let '(reply, _, st) := handleUpdateAuthSettings ["key"] inserted_settings (λ _, true) (λ _ _, true) settings_cfg (Ok request) sample_seals seeded_settings in
  match reply with Answer _ => True | ApiError _ _ _ => False end ∧
  ∀ req r, let '(reply', _, st') := handleUpdateAuthSettings ["key"] inserted_settings (λ _, true) (λ _ _, true) settings_cfg req r st in
    reply' = internal_error ∧ st_row st' = st_row st.
Proof.
  cbv zeta. set (run := handleUpdateAuthSettings _ _ _ _ _ _ _ _).
  assert (sample_get run.2 = (Err (SettingsUnreadable ErrTooShort), run.2)) as Hg by (vm_compute; reflexivity).
  assert (match run.1.1 with Answer _ => True | ApiError _ _ _ => False end) as Ha by (vm_compute; exact I).
  destruct run as [[reply events] st]. cbn [fst snd] in Hg, Ha. split; [exact Ha|]. intros req r. unfold handleUpdateAuthSettings. by rewrite Hg.
Qed.

(** Two requests that read the same row: the one that writes last undoes the other. *)
Definition crowdsec_draft : SettingsRow :=
  apply_network {| un_GeoIPDBPath := None; un_CrowdSecEnabled := Some true; un_CrowdSecAPIURL := None; un_CrowdSecAPIKey := None; un_CrowdSecPollSeconds := None |}
    (match (sample_get seeded_settings).1 with Ok old => old | Err _ => seed_row settings_cfg end).

Definition after_both : settings_state :=
  sample_upsert crowdsec_draft sample_seals (sample_upsert (sample_draft sso_request seeded_settings) sample_seals (sample_get seeded_settings).2).

Theorem settings_update_lost :
  rtc sample_step {| sw_state := seeded_settings; sw_pending := []; sw_written := Some (seed_row settings_cfg) |}
    {| sw_state := after_both; sw_pending := []; sw_written := Some crowdsec_draft |} ∧
  sr_OIDCEnabled (sample_draft sso_request seeded_settings) = true ∧
  option_map (λ row, (sr_CrowdSecEnabled row, sr_OIDCEnabled row)) (st_row after_both) = Some (true, false).
Proof.
  split; [|vm_compute; by split].
  apply (both_write ["key"] inserted_settings (λ _, true) (λ _ _, true) (λ _, true) settings_cfg seeded_settings (sample_get seeded_settings).2 (sample_get seeded_settings).2
    (match (sample_get seeded_settings).1 with Ok old => old | Err _ => seed_row settings_cfg end)); [vm_compute; reflexivity|vm_compute; reflexivity| | |repeat constructor].
  - apply (draft_auth _ _ _ _ _ sso_request). vm_compute. reflexivity.
  - eapply (draft_network _ _ _ _ _ {| un_GeoIPDBPath := None; un_CrowdSecEnabled := Some true; un_CrowdSecAPIURL := None; un_CrowdSecAPIKey := None; un_CrowdSecPollSeconds := None |}).
    reflexivity.
Qed.

(** The migration at start leaves the key of the tunnel server in the clear. *)
Theorem migration_skips_tunnel_key :
  ∃ st, st_row st ≠ None ∧ (MigrateStoredSecrets ["key"] sample_seals st).1 = 2%nat ∧
    match st_row (MigrateStoredSecrets ["key"] sample_seals st).2 with
    | Some row => sr_TunnelServerPrivateKey row = "private" ∧ IsEncryptedValue (sr_SMTPPassword row) = true
    | None => False
    end.
Proof.
  exists {| st_row := Some (with_secrets (seed_row settings_cfg) "s3cret" "pw" "private" "key"); st_keys := no_cached_keys |}.
  vm_compute. repeat split; discriminate.
Qed.

(** One-time codes that are switched off in the environment are stored as switched on. *)
Theorem seeded_codes_enabled cfg : sr_OTPEnabled (inserted_settings (seed_row cfg)) = true.
Proof. reflexivity. Qed.
