(* ===== verification/AccessLog.v ===== *)
(** The access log, internal/accesslog: the ring of the latest entries that the console lists, the bounded queue to
    the writer, and the file that is rotated by size.

    The ring is an array with a cursor; its abstract specification is the list of all entries recorded so far.  Files are lists of
    lines under the suffix of their name, 0 for the file that is written and [n] for [path.n]. *)
From S2P Require Import Prelude GoStrings Netip Domain Hosts AccessRules Routing Requests SelfUpdate Explain.

#[local] Open Scope string_scope.
#[local] Open Scope list_scope.

(** * Definitions *)

(** The zero [time.Time], in nanoseconds of Unix time. *)
Definition zero_time : Z := -62135596800000000000.
Definition time_IsZero (t : Z) : bool := (t =? zero_time)%Z.

Record Entry := {
  en_Time : Z; en_RequestID : string; en_Method : string; en_Host : string; en_Path : string; en_Status : Z; en_LatencyMs : Z;
  en_Bytes : Z; en_RemoteAddr : string; en_PeerAddr : string; en_UserAgent : string; en_Referer : string; en_Outcome : string;
  en_Reason : string; en_ServiceID : N; en_ServiceName : string; en_UserID : option N; en_UserEmail : string; en_AccessRule : string;
}.
Definition zeroEntry : Entry :=
  {| en_Time := zero_time; en_RequestID := ""; en_Method := ""; en_Host := ""; en_Path := ""; en_Status := 0; en_LatencyMs := 0; en_Bytes := 0;
     en_RemoteAddr := ""; en_PeerAddr := ""; en_UserAgent := ""; en_Referer := ""; en_Outcome := ""; en_Reason := ""; en_ServiceID := 0;
     en_ServiceName := ""; en_UserID := None; en_UserEmail := ""; en_AccessRule := "" |}.

Record Filter := {
  fi_Host : string; fi_ServiceID : N; fi_Status : string; fi_IP : string; fi_Query : string; fi_Outcome : string; fi_Before : Z;
}.

(** ** Filters *)

Definition statusMatches (filter : string) (status : Z) : bool :=
  let filter := ToLower (TrimSpace filter) in
  let exact := match Atoi filter with Some value => (value =? status)%Z | None => false end in
  match filter with
  | String d (String "x" (String "x" EmptyString)) =>
      let v := (Z.of_nat (nat_of_ascii d) - 48)%Z in
      if (1 <=? v)%Z && (v <=? 5)%Z then (Z.quot status 100 =? v)%Z else exact
  | _ => exact
  end.

Definition filter_matches (f : Filter) (entry : Entry) : bool :=
  if time_IsZero (en_Time entry) then false
  else if negb (time_IsZero (fi_Before f)) && negb (en_Time entry <? fi_Before f)%Z then false
  else if negb (N.eqb (fi_ServiceID f) 0) && negb (N.eqb (en_ServiceID entry) (fi_ServiceID f)) then false
  else if negb (String.eqb (fi_Host f) "") && negb (Contains (en_Host entry) (ToLower (fi_Host f))) then false
  else if negb (String.eqb (fi_IP f) "") && negb (HasPrefix (en_RemoteAddr entry) (fi_IP f)) then false
  else if negb (String.eqb (fi_Outcome f) "") && negb (String.eqb (en_Outcome entry) (fi_Outcome f)) then false
  else if negb (String.eqb (fi_Status f) "") && negb (statusMatches (fi_Status f) (en_Status entry)) then false
  else if negb (String.eqb (fi_Query f) "") then
    let query := ToLower (fi_Query f) in
    Contains (ToLower (en_Path entry)) query || Contains (ToLower (en_UserAgent entry)) query || Contains (ToLower (en_UserEmail entry)) query
  else true.

(** ** The recorder *)

Definition queueCapacity : nat := 4096.

Record Recorder := {
  rc_entries : list Entry; rc_next : nat; rc_full : bool;
  rc_queue : option (list Entry);             (* [None] without a file *)
  rc_dropped : N;
}.

(** [New] of a capacity and whether there is a file. *)
Definition newRecorder (capacity : Z) (withFile : bool) : Recorder :=
  let capacity := if (capacity <=? 0)%Z then 2000%Z else capacity in
  {| rc_entries := replicate (Z.to_nat capacity) zeroEntry; rc_next := 0; rc_full := false;
     rc_queue := if withFile then Some [] else None; rc_dropped := 0 |}.

(** [Record]. *)
Definition record (entry : Entry) (r : Recorder) : Recorder :=
  let next := ((rc_next r + 1) mod length (rc_entries r))%nat in
  let '(queue, dropped) :=
    match rc_queue r with
    | None => (None, rc_dropped r)
    | Some q => if (length q <? queueCapacity)%nat then (Some (q ++ [entry]), rc_dropped r) else (Some q, (rc_dropped r + 1)%N)
    end in
  {| rc_entries := <[rc_next r := entry]> (rc_entries r); rc_next := next; rc_full := (next =? 0)%nat || rc_full r;
     rc_queue := queue; rc_dropped := dropped |}.

(** The loop of [List]: [fuel] is [size - i]. *)
Fixpoint list_loop (r : Recorder) (f : Filter) (limit i fuel : nat) (out : list Entry) : list Entry :=
  match fuel with
  | O => out
  | S fuel =>
      if (limit <=? length out)%nat then out
      else
        let index := ((rc_next r + length (rc_entries r) - 1 - i) mod length (rc_entries r))%nat in
        let entry := default zeroEntry (rc_entries r !! index) in
        list_loop r f limit (S i) fuel (if filter_matches f entry then out ++ [entry] else out)
  end.

Definition list_limit (limit : Z) : nat := Z.to_nat (if (limit <=? 0)%Z || (1000 <? limit)%Z then 200%Z else limit).

Definition recorder_List (r : Recorder) (f : Filter) (limit : Z) : list Entry :=
  let size := if rc_full r then length (rc_entries r) else rc_next r in
  list_loop r f (list_limit limit) 0 size [].

(** A round of [writeLoop]: an entry leaves the queue and the count of dropped ones is reported. *)
Definition write_round (r : Recorder) : option (Entry * N * Recorder) :=
  match rc_queue r with
  | Some (entry :: q) =>
      Some (entry, rc_dropped r, {| rc_entries := rc_entries r; rc_next := rc_next r; rc_full := rc_full r; rc_queue := Some q; rc_dropped := 0 |})
  | _ => None
  end.

(** ** The file *)

Abbreviation log_files := (gmap nat (list string)).

Record rotatingFile := { rf_maxBytes : Z; rf_maxFiles : nat; rf_open : bool; rf_size : Z; rf_files : log_files }.

Definition line_size (line : string) : Z := (Z.of_nat (String.length line) + 1)%Z.
Definition text_size (lines : list string) : Z := foldr (λ line n, (line_size line + n)%Z) 0%Z lines.
Definition file_at (files : log_files) (n : nat) : list string := default [] (files !! n).

(** [open]: the file is created when it is missing. *)
Definition open_log (f : rotatingFile) : rotatingFile :=
  {| rf_maxBytes := rf_maxBytes f; rf_maxFiles := rf_maxFiles f; rf_open := true; rf_size := text_size (file_at (rf_files f) 0);
     rf_files := <[0%nat := file_at (rf_files f) 0]> (rf_files f) |}.

Definition openRotatingFile (maxBytes maxFiles : Z) (files : log_files) : rotatingFile :=
  let maxBytes := if (maxBytes <=? 0)%Z then (100 * 2 ^ 20)%Z else maxBytes in
  let maxFiles := if (maxFiles <? 1)%Z then 5%Z else maxFiles in
  open_log {| rf_maxBytes := maxBytes; rf_maxFiles := Z.to_nat maxFiles; rf_open := false; rf_size := 0; rf_files := files |}.

(** [os.Rename] whose error is ignored. *)
Definition rename_log (src dst : nat) (files : log_files) : log_files :=
  match files !! src with Some text => <[dst := text]> (delete src files) | None => files end.

(** for i := maxFiles - 1; i >= 1; i-- *)
Fixpoint shift_logs (i : nat) (files : log_files) : log_files :=
  match i with O => files | S j => shift_logs j (rename_log i (S i) files) end.

(** What the disk answers: renaming the file that is written succeeds, opening it does, writing to it does.  A failed write
    writes nothing. *)
Record disk := { renames : bool; opens : bool; writes : bool }.

Definition rotate (d : disk) (f : rotatingFile) : bool * rotatingFile :=
  if negb (rf_open f) then (false, f)                        (* Close of a closed file *)
  else
    let files := shift_logs (rf_maxFiles f - 1) (delete (rf_maxFiles f) (rf_files f)) in
    let closed files := {| rf_maxBytes := rf_maxBytes f; rf_maxFiles := rf_maxFiles f; rf_open := false; rf_size := rf_size f; rf_files := files |} in
    if negb (renames d) then (false, closed files)
    else
      let f := closed (rename_log 0 1 files) in
      if opens d then (true, open_log f) else (false, f).

Definition write_open (d : disk) (line : string) (f : rotatingFile) : bool * rotatingFile :=
  if negb (rf_open f && writes d) then (false, f)
  else (true, {| rf_maxBytes := rf_maxBytes f; rf_maxFiles := rf_maxFiles f; rf_open := true; rf_size := (rf_size f + line_size line)%Z;
                 rf_files := <[0%nat := file_at (rf_files f) 0 ++ [line]]> (rf_files f) |}).

Definition WriteLine (d : disk) (line : string) (f : rotatingFile) : bool * rotatingFile :=
  if (0 <? rf_size f)%Z && (rf_maxBytes f <? rf_size f + line_size line)%Z then
    match rotate d f with
    | (true, f) => write_open d line f
    | (false, f) => (false, f)
    end
  else write_open d line f.

(** ** The entry of a proxied request *)

(** The part of [logAccess] that fills the access log: [status] and [bytes] are what the response writer reports, [latency] the
    milliseconds since the request began. *)
Definition access_entry (trusted : list string) (r : Request) (requestID : string) (startedAt status latency bytes : Z) (route : option Route)
    (rule : option compiledAccessRule) (user : option User) (outcome reason : string) : Entry :=
  let statusCode := if (status =? 0)%Z then 200%Z else status in
  let remoteAddr := authoritativeClientIP trusted r in
  let remoteAddr := if non_empty remoteAddr then remoteAddr else r_RemoteAddr r in
  let peerAddr := match parseClientIP (r_RemoteAddr r) with Some peer => AddrString peer | None => r_RemoteAddr r end in
  {| en_Time := startedAt; en_RequestID := requestID; en_Method := r_Method r; en_Host := normalizeHost (r_Host r); en_Path := r_Path r;
     en_Status := statusCode; en_LatencyMs := latency; en_Bytes := bytes; en_RemoteAddr := remoteAddr; en_PeerAddr := peerAddr;
     en_UserAgent := HGet (r_Header r) "User-Agent"; en_Referer := HGet (r_Header r) "Referer"; en_Outcome := outcome; en_Reason := reason;
     en_ServiceID := from_option ServiceID 0%N route; en_ServiceName := from_option ServiceName "" route;
     en_UserID := u_ID <$> user; en_UserEmail := from_option u_Email "" user;
     en_AccessRule := match rule with
                      | None => ""
                      | Some rule => "#" +:+ FormatUint (N.of_nat (cr_Index rule)) +:+ (if non_empty (cr_Name rule) then " " +:+ cr_Name rule else "")
                      end |}.

Definition log_access (entry : Entry) (rec : option Recorder) : option Recorder :=
  match rec with
  | Some r => if negb (String.eqb (en_Outcome entry) "admin") then Some (record entry r) else rec
  | None => None
  end.

(** ** The console's listing *)

(** [parseIntQuery] of the raw value of the parameter. *)
Definition parseIntQuery (raw : string) (fallback : Z) : Z :=
  if non_empty raw then default fallback (Atoi raw) else fallback.

Section listing.
(** [time.Parse] with [time.RFC3339Nano]. *)
Context (parse_RFC3339Nano : string → option Z).

Definition query_filter (query : string → string) : Filter :=
  let get key := TrimSpace (query key) in
  {| fi_Host := get "host"; fi_Status := get "status"; fi_IP := get "ip"; fi_Query := get "q"; fi_Outcome := get "outcome";
     fi_ServiceID := if non_empty (get "service_id") then from_option Z.to_N 0%N (ParseUint (get "service_id") 10) else 0%N;
     fi_Before := if non_empty (get "before") then default zero_time (parse_RFC3339Nano (get "before")) else zero_time |}.

(** The items and whether there is an access log. *)
Definition handleListAccessLogs (rec : option Recorder) (query : string → string) : list Entry * bool :=
  match rec with
  | None => ([], false)
  | Some r => (recorder_List r (query_filter query) (parseIntQuery (query "limit") 200), true)
  end.
End listing.

(** * The ring *)

Record ring_rep (r : Recorder) (es : list Entry) : Prop := {
  rr_cap : (0 < length (rc_entries r))%nat;
  rr_next : rc_next r = (length es mod length (rc_entries r))%nat;
  rr_full : rc_full r = (length (rc_entries r) <=? length es)%nat;
  rr_at : ∀ k, (k < length es)%nat → (length es ≤ k + length (rc_entries r))%nat →
    rc_entries r !! (k mod length (rc_entries r))%nat = es !! k;
}.

Lemma mod_ne cap k n : (k < n)%nat → (n < k + cap)%nat → (k mod cap ≠ n mod cap)%nat.
Proof.
  intros Hk Hn Heq. assert (cap ≠ 0)%nat as Hc by lia. pose proof (Nat.div_mod_eq k cap). pose proof (Nat.div_mod_eq n cap).
  assert (n / cap = k / cap ∨ k / cap < n / cap)%nat as [Hd|Hd] by (pose proof (Nat.Div0.div_le_mono k n cap); lia); nia.
Qed.

Lemma new_ring capacity withFile : ring_rep (newRecorder capacity withFile) [].
Proof.
  unfold newRecorder. constructor; cbn; rewrite ?length_replicate; [destruct (Z.leb_spec capacity 0); lia| |destruct (Z.to_nat _) eqn:Hz; [destruct (Z.leb_spec capacity 0); lia|done]|lia].
  by rewrite Nat.Div0.mod_0_l.
Qed.

Lemma record_fields e r :
  rc_entries (record e r) = <[rc_next r := e]> (rc_entries r) ∧ rc_next (record e r) = ((rc_next r + 1) mod length (rc_entries r))%nat ∧
  rc_full (record e r) = ((rc_next r + 1) mod length (rc_entries r) =? 0)%nat || rc_full r.
Proof. unfold record. by destruct (rc_queue r) as [q|]; [destruct (length q <? queueCapacity)%nat|]. Qed.

Lemma record_ring r es e : ring_rep r es → ring_rep (record e r) (es ++ [e]).
Proof.
  intros [Hc Hn Hf Ha]. destruct (record_fields e r) as (He & Hnx & Hfl).
  constructor; rewrite ?He, ?Hnx, ?Hfl, ?length_insert, ?length_app; cbn [length]; [done|..].
  - rewrite Hn. by rewrite Nat.Div0.add_mod_idemp_l.
  - rewrite Hn, Hf, Nat.Div0.add_mod_idemp_l. set (cap := length (rc_entries r)) in *. set (n := length es).
    destruct (Nat.eqb_spec ((n + 1) mod cap) 0) as [H0|H0], (Nat.leb_spec cap n), (Nat.leb_spec cap (n + 1)); cbn; try lia; try done.
    + rewrite Nat.mod_small in H0 by lia. lia.
    + assert (n + 1 = cap)%nat as Heq by lia. rewrite Heq, Nat.Div0.mod_same in H0. lia.
  - intros k Hk Hl. rewrite Hn. destruct (decide (k = length es)) as [->|Hne].
    + rewrite list_lookup_insert_eq by (apply Nat.mod_upper_bound; lia). by rewrite lookup_app_r, Nat.sub_diag by lia.
    + rewrite list_lookup_insert_ne by (intros Heq; eapply (mod_ne (length (rc_entries r)) k (length es)); lia).
      rewrite lookup_app_l by lia. apply Ha; lia.
Qed.

Lemma records_ring r es l : ring_rep r es → ring_rep (foldl (λ r e, record e r) r l) (es ++ l).
Proof.
  revert r es. induction l as [|e l IH]; intros r es Hr; cbn; [by rewrite app_nil_r|].
  replace (es ++ e :: l) with ((es ++ [e]) ++ l) by (by rewrite <-app_assoc). by apply IH, record_ring.
Qed.

(** The entry the loop looks at in round [i] is the one recorded [i] entries before the last. *)
Lemma ring_index r es i :
  ring_rep r es → (i < length es)%nat → (i < length (rc_entries r))%nat →
  rc_entries r !! ((rc_next r + length (rc_entries r) - 1 - i) mod length (rc_entries r))%nat = reverse es !! i.
Proof.
  intros [Hc Hn Hf Ha] Hi Hcap. set (cap := length (rc_entries r)) in *. rewrite reverse_lookup by done.
  rewrite <-(Ha (length es - S i)%nat) by lia. f_equal. rewrite Hn. pose proof (Nat.div_mod_eq (length es) cap) as Hd.
  destruct (length es / cap)%nat as [|q] eqn:Hq.
  - assert (length es mod cap = length es)%nat as -> by lia.
    replace (length es + cap - 1 - i)%nat with (length es - S i + 1 * cap)%nat by lia. by rewrite Nat.Div0.mod_add.
  - replace (length es - S i)%nat with (length es mod cap + cap - 1 - i + q * cap)%nat by (pose proof (Nat.mod_upper_bound (length es) cap); nia).
    by rewrite Nat.Div0.mod_add.
Qed.

Lemma list_loop_spec r es f limit fuel i out :
  ring_rep r es → (i + fuel ≤ length es)%nat → (i + fuel ≤ length (rc_entries r))%nat → (length out ≤ limit)%nat →
  list_loop r f limit i fuel out = out ++ take (limit - length out) (List.filter (filter_matches f) (take fuel (drop i (reverse es)))).
Proof.
  intros Hr. revert i out. induction fuel as [|fuel IH]; intros i out H1 H2 Ho; cbn [list_loop].
  { rewrite take_0. cbn [List.filter]. by rewrite take_nil, app_nil_r. }
  destruct (Nat.leb_spec limit (length out)) as [Hge|Hlt].
  { replace (limit - length out)%nat with 0%nat by lia. by rewrite take_0, app_nil_r. }
  cbv zeta. rewrite (ring_index r es i Hr ltac:(lia) ltac:(lia)).
  destruct (reverse es !! i) as [e|] eqn:He; [|apply lookup_ge_None in He; rewrite length_reverse in He; lia].
  change (default zeroEntry (Some e)) with e. rewrite (drop_S _ _ _ He). cbn [take List.filter]. destruct (filter_matches f e).
  - rewrite IH by (rewrite ?length_app; cbn [length]; lia). rewrite length_app, <-app_assoc. cbn [length app].
    replace (limit - length out)%nat with (S (limit - (length out + 1)))%nat by lia. done.
  - by rewrite IH by lia.
Qed.

Lemma recorded_listed capacity withFile es f limit :
  let cap := Z.to_nat (if (capacity <=? 0)%Z then 2000%Z else capacity) in
  recorder_List (foldl (λ r e, record e r) (newRecorder capacity withFile) es) f limit =
  take (list_limit limit) (List.filter (filter_matches f) (take cap (reverse es))).
Proof.
  intros cap. pose proof (records_ring _ _ es (new_ring capacity withFile)) as Hr. cbn [app] in Hr.
  set (r := foldl _ _ es) in *.
  assert (length (rc_entries r) = cap) as Hcap.
  { unfold r. assert (∀ l r0, length (rc_entries (foldl (λ r e, record e r) r0 l)) = length (rc_entries r0)) as Hl.
    { induction l as [|e l IH]; intros r0; cbn; [done|]. rewrite IH. rewrite (proj1 (record_fields e r0)). apply length_insert. }
    rewrite Hl. cbn. apply length_replicate. }
  clearbody cap r. unfold recorder_List. pose proof (rr_full _ _ Hr) as Hf. pose proof (rr_next _ _ Hr) as Hn. rewrite Hcap in Hf, Hn. rewrite Hf.
  pose proof (rr_cap _ _ Hr) as Hpos. rewrite Hcap in Hpos.
  destruct (Nat.leb_spec cap (length es)) as [Hge|Hlt].
  - rewrite Hcap, (list_loop_spec r es f _ _ _ _ Hr) by (rewrite ?Hcap; cbn [length]; lia). cbn [length app]. by rewrite Nat.sub_0_r, drop_0.
  - rewrite Hn, Nat.mod_small by lia. rewrite (list_loop_spec r es f _ _ _ _ Hr) by (rewrite ?Hcap; cbn [length]; lia). cbn [length app]. rewrite Nat.sub_0_r, drop_0.
    rewrite (take_ge (reverse es) cap), (take_ge (reverse es) (length es)) by (rewrite length_reverse; lia). done.
Qed.

Lemma filter_all_matching {A} (p : A → bool) l : Forall (λ x, p x = true) l → List.filter p l = l.
Proof. induction 1 as [|x l Hx _ IH]; [done|]. cbn. by rewrite Hx, IH. Qed.

(** * The queue to the writer *)

Inductive log_event := Recorded (entry : Entry) | Taken.

(** A run of the recorder, with the entries the writer took and the sum of the drops it reported. *)
Definition log_event_step (s : Recorder * list Entry * N) (e : log_event) : Recorder * list Entry * N :=
  let '(r, taken, reported) := s in
  match e with
  | Recorded entry => (record entry r, taken, reported)
  | Taken => match write_round r with Some (entry, n, r) => (r, taken ++ [entry], (reported + n)%N) | None => s end
  end.

Definition recorded_of (events : list log_event) : list Entry := omap (λ e, match e with Recorded entry => Some entry | Taken => None end) events.

Definition entries_accounted (s : Recorder * list Entry * N) (es : list Entry) : Prop :=
  let '(r, taken, reported) := s in
  ∃ q, rc_queue r = Some q ∧ (length q ≤ queueCapacity)%nat ∧ sublist (taken ++ q) es ∧
       (N.of_nat (length es) = N.of_nat (length taken) + N.of_nat (length q) + rc_dropped r + reported)%N.

Lemma recorded_accounted s es entry : entries_accounted s es → entries_accounted (log_event_step s (Recorded entry)) (es ++ [entry]).
Proof.
  destruct s as [[r taken] reported]. intros (q & Hq & Hle & Hs & Hn). unfold entries_accounted, log_event_step, record. rewrite Hq.
  destruct (Nat.ltb_spec (length q) queueCapacity); cbn [rc_queue rc_dropped]; (eexists; split; [done|]); rewrite ?length_app; cbn [length].
  - split_and!; [lia| |lia]. rewrite app_assoc. by apply sublist_app.
  - split_and!; [done| |lia]. by apply sublist_inserts_r.
Qed.

Lemma taken_accounted s es : entries_accounted s es → entries_accounted (log_event_step s Taken) es.
Proof.
  destruct s as [[r taken] reported]. intros (q & Hq & Hle & Hs & Hn). unfold log_event_step, write_round. rewrite Hq.
  destruct q as [|e q]; [by exists []|]. exists q. cbn [rc_queue rc_dropped length] in *. rewrite <-app_assoc, length_app. cbn [length app].
  split_and!; [done|lia|done|lia].
Qed.

(** No entry is lost without being counted: at every moment the entries recorded are those the writer took, those that
    wait in the queue, never more than 4096, and those counted as dropped; the taken ones come in the order of recording. *)
Theorem dropped_entries_counted capacity events :
  entries_accounted (foldl log_event_step (newRecorder capacity true, [], 0%N) events) (recorded_of events).
Proof.
  assert (∀ s es, entries_accounted s es → entries_accounted (foldl log_event_step s events) (es ++ recorded_of events)) as Hrun.
  { induction events as [|[entry|] events IH]; intros s es Hs; cbn [foldl recorded_of omap list_omap]; [by rewrite app_nil_r| |].
    - specialize (IH _ _ (recorded_accounted s es entry Hs)). by rewrite <-app_assoc in IH.
    - exact (IH _ _ (taken_accounted s es Hs)). }
  apply (Hrun _ []). exists []. cbn. split_and!; [done|unfold queueCapacity; lia|done|done].
Qed.

(** * Rotation *)

(** What the files hold, the oldest line first. *)
Definition kept_text (f : rotatingFile) : list string := concat (map (file_at (rf_files f)) (rev (seq 0 (S (rf_maxFiles f))))).

(** A file within the limit, or of a single line that is over it. *)
Definition file_fits (maxBytes : Z) (lines : list string) : Prop := (text_size lines ≤ maxBytes)%Z ∨ length lines = 1%nat.

Record log_ok (f : rotatingFile) : Prop := {
  lo_open : rf_open f = true;
  lo_files : (1 ≤ rf_maxFiles f)%nat;
  lo_bytes : (0 < rf_maxBytes f)%Z;
  lo_size : rf_size f = text_size (file_at (rf_files f) 0);
  lo_fits : ∀ n, file_fits (rf_maxBytes f) (file_at (rf_files f) n);
  lo_names : ∀ n, (rf_maxFiles f < n)%nat → rf_files f !! n = None;
}.

Lemma text_size_app a b : text_size (a ++ b) = (text_size a + text_size b)%Z.
Proof. unfold text_size. induction a as [|x a IH]; cbn [app foldr]; [done|]. rewrite IH. lia. Qed.

Lemma text_size_nonneg lines : (0 ≤ text_size lines)%Z.
Proof. unfold text_size. induction lines as [|x l IH]; cbn [foldr]; [lia|]. change (0 ≤ line_size x + text_size l)%Z. change (0 ≤ text_size l)%Z in IH. unfold line_size. lia. Qed.

Lemma rename_log_lookup src dst files n :
  src ≠ dst → files !! dst = None →
  rename_log src dst files !! n = if decide (n = dst) then files !! src else if decide (n = src) then None else files !! n.
Proof.
  intros Hne Hd. unfold rename_log. destruct (files !! src) as [t|] eqn:Hs; repeat case_decide; subst; simplify_map_eq; done.
Qed.

Lemma shift_logs_lookup i files n :
  files !! S i = None →
  shift_logs i files !! n =
    if decide (n = 0)%nat then files !! 0%nat else if decide (S i < n)%nat then files !! n else if decide (n = 1)%nat then None else files !! (n - 1)%nat.
Proof.
  revert files. induction i as [|i IH]; intros files Hi; cbn [shift_logs].
  { repeat case_decide; subst; try done. exfalso. lia. }
  rewrite IH by (rewrite rename_log_lookup by (lia || done); repeat case_decide; lia || done).
  rewrite !rename_log_lookup by (lia || done).
  repeat case_decide; subst; try done; try lia; try (f_equal; lia).
Qed.

Definition rotated_files (f : rotatingFile) : log_files :=
  rename_log 0 1 (shift_logs (rf_maxFiles f - 1) (delete (rf_maxFiles f) (rf_files f))).

Lemma rotated_lookup f n :
  (1 ≤ rf_maxFiles f)%nat →
  rotated_files f !! n = if decide (n = 0)%nat then None else if decide (rf_maxFiles f < n)%nat then rf_files f !! n else rf_files f !! (n - 1)%nat.
Proof.
  intros Hm. unfold rotated_files. assert (delete (rf_maxFiles f) (rf_files f) !! S (rf_maxFiles f - 1) = None) as Hd.
  { replace (S (rf_maxFiles f - 1)) with (rf_maxFiles f) by lia. apply lookup_delete_eq. }
  rewrite rename_log_lookup; [|lia|].
  - rewrite !(shift_logs_lookup _ _ _ Hd). repeat case_decide; subst; try done; try lia; rewrite lookup_delete_ne by lia; try done.
  - rewrite (shift_logs_lookup _ _ _ Hd). repeat case_decide; lia || done.
Qed.

Lemma file_at_rotated f n :
  log_ok f → file_at (rotated_files f) n = if decide (n = 0 ∨ rf_maxFiles f < n)%nat then [] else file_at (rf_files f) (n - 1).
Proof.
  intros Hf. unfold file_at. rewrite rotated_lookup by apply Hf. repeat case_decide; try done; try lia; try tauto.
  by rewrite (lo_names f Hf) by lia.
Qed.

Lemma file_at_eq (files : log_files) n text : file_at (<[n := text]> files) n = text.
Proof. unfold file_at. by rewrite lookup_insert_eq. Qed.

Lemma file_at_ne (files : log_files) n k text : n ≠ k → file_at (<[k := text]> files) n = file_at files n.
Proof. intros Hn. unfold file_at. by rewrite lookup_insert_ne. Qed.

Lemma kept_parts g m : concat (map g (rev (seq 0 (S m)))) = concat (map g (rev (seq 1 m))) ++ g 0%nat :> list string.
Proof. cbn [seq rev]. rewrite map_app, concat_app. cbn [map concat]. by rewrite app_nil_r. Qed.

(** Rotation drops the oldest file and nothing else. *)
Lemma rotation_drops_oldest f :
  log_ok f → kept_text f = file_at (rf_files f) (rf_maxFiles f) ++ concat (map (file_at (rotated_files f)) (rev (seq 0 (S (rf_maxFiles f))))).
Proof.
  intros Hf. unfold kept_text. rewrite (kept_parts (file_at (rotated_files f))), (file_at_rotated f 0 Hf), decide_True by (by left). rewrite app_nil_r.
  rewrite <-(seq_shift (rf_maxFiles f) 0). rewrite <-map_rev, map_map.
  rewrite (map_ext_in (λ n, file_at (rotated_files f) (S n)) (file_at (rf_files f))).
  - rewrite seq_S, rev_app_distr. cbn [rev app map concat]. done.
  - intros n Hn. apply in_rev, in_seq in Hn. rewrite (file_at_rotated f (S n) Hf). rewrite decide_False by lia. f_equal. lia.
Qed.

Lemma appended_text (files : log_files) line m :
  concat (map (file_at (<[0%nat := file_at files 0 ++ [line]]> files)) (rev (seq 0 (S m)))) = concat (map (file_at files) (rev (seq 0 (S m)))) ++ [line].
Proof.
  rewrite !kept_parts, file_at_eq, app_assoc. do 2 f_equal. f_equal. apply map_ext_in. intros n Hn. apply in_rev, in_seq in Hn. by rewrite file_at_ne by lia.
Qed.

Definition working_disk : disk := {| renames := true; opens := true; writes := true |}.

Lemma write_open_ok line f :
  log_ok f → file_fits (rf_maxBytes f) (file_at (rf_files f) 0 ++ [line]) →
  ∃ f', write_open working_disk line f = (true, f') ∧ log_ok f' ∧ rf_maxBytes f' = rf_maxBytes f ∧ rf_maxFiles f' = rf_maxFiles f ∧
    kept_text f' = kept_text f ++ [line] ∧ last (file_at (rf_files f') 0) = Some line.
Proof.
  intros Hf Hfit. unfold write_open. rewrite (lo_open f Hf). eexists. split; [done|]. split_and!; [|done|done|apply appended_text|].
  - constructor; cbn [rf_open rf_maxFiles rf_maxBytes rf_size rf_files]; [done|apply Hf|apply Hf| | |].
    + rewrite file_at_eq, text_size_app, (lo_size f Hf). cbn. lia.
    + intros n. destruct (decide (n = 0)%nat) as [->|Hn]; [by rewrite file_at_eq|]. rewrite file_at_ne by done. apply (lo_fits f Hf).
    + intros n Hn. rewrite lookup_insert_ne by lia. by apply (lo_names f Hf).
  - cbn [rf_files]. rewrite file_at_eq. apply last_snoc.
Qed.

Lemma open_rotated f :
  log_ok f →
  let f' := open_log {| rf_maxBytes := rf_maxBytes f; rf_maxFiles := rf_maxFiles f; rf_open := false; rf_size := rf_size f; rf_files := rotated_files f |} in
  log_ok f' ∧ file_at (rf_files f') 0 = [] ∧ kept_text f = file_at (rf_files f) (rf_maxFiles f) ++ kept_text f'.
Proof.
  intros Hf f'. assert (file_at (rotated_files f) 0 = []) as H0 by (rewrite (file_at_rotated f 0 Hf); by rewrite decide_True by (by left)).
  assert (∀ n, file_at (rf_files f') n = file_at (rotated_files f) n) as Hsame.
  { intros n. cbn. destruct (decide (n = 0)%nat) as [->|Hn]; [by rewrite file_at_eq|by rewrite file_at_ne]. }
  split_and!; [|by rewrite Hsame|].
  - constructor; [done|apply Hf|apply Hf|by cbn; rewrite file_at_eq|..].
    + intros n. rewrite Hsame, (file_at_rotated f n Hf). case_decide; [|apply (lo_fits f Hf)]. left. pose proof (lo_bytes f Hf). cbn. lia.
    + intros n Hn. cbn in Hn |- *. rewrite lookup_insert_ne by lia. rewrite rotated_lookup by apply Hf. repeat case_decide; try lia. by apply (lo_names f Hf).
  - rewrite (rotation_drops_oldest f Hf). f_equal. unfold kept_text. f_equal. symmetry. apply map_ext. exact Hsame.
Qed.

Lemma WriteLine_ok line f :
  log_ok f →
  ∃ f' gone, WriteLine working_disk line f = (true, f') ∧ log_ok f' ∧ rf_maxBytes f' = rf_maxBytes f ∧ rf_maxFiles f' = rf_maxFiles f ∧
    kept_text f ++ [line] = gone ++ kept_text f' ∧ last (file_at (rf_files f') 0) = Some line.
Proof.
  intros Hf. unfold WriteLine. destruct ((0 <? rf_size f)%Z && _) eqn:Hover.
  - unfold rotate. rewrite (lo_open f Hf). cbn [negb renames opens working_disk]. fold (rotated_files f).
    destruct (open_rotated f Hf) as (Hok & H0 & Htext). set (g := open_log _) in *.
    destruct (write_open_ok line g Hok) as (f' & Hw & Hok' & Hb & Hm & Ht & Hl); [by right; rewrite H0|].
    exists f', (file_at (rf_files f) (rf_maxFiles f)). split_and!; [done|done|by rewrite Hb|by rewrite Hm| |done]. by rewrite Htext, Ht, app_assoc.
  - destruct (write_open_ok line f Hf) as (f' & Hw & Hok' & Hb & Hm & Ht & Hl).
    + apply andb_false_iff in Hover as [H|H]; [right|left].
      * apply Z.ltb_ge in H. rewrite (lo_size f Hf) in H. destruct (file_at (rf_files f) 0) as [|x l]; [done|].
        exfalso. change (line_size x + text_size l ≤ 0)%Z in H. pose proof (text_size_nonneg l). unfold line_size in H. lia.
      * apply Z.ltb_ge in H. rewrite (lo_size f Hf) in H. rewrite text_size_app. cbn. lia.
    + exists f', []. by split_and!.
Qed.

(** The writes of a list of lines, and whether all of them succeeded. *)
Definition write_lines (d : disk) (lines : list string) (f : rotatingFile) : bool * rotatingFile :=
  foldl (λ '(ok, f) line, let '(wrote, f) := WriteLine d line f in (ok && wrote, f)) (true, f) lines.

Lemma opened_ok maxBytes maxFiles : log_ok (openRotatingFile maxBytes maxFiles ∅) ∧ kept_text (openRotatingFile maxBytes maxFiles ∅) = [].
Proof.
  set (f := openRotatingFile _ _ _). assert (∀ n, file_at (rf_files f) n = []) as He.
  { intros n. unfold f, openRotatingFile, open_log. cbn [rf_files]. destruct (decide (n = 0)%nat) as [->|Hn]; [by rewrite file_at_eq|by rewrite file_at_ne]. }
  assert (0 < rf_maxBytes f)%Z as Hb by (unfold f, openRotatingFile; cbn [rf_maxBytes open_log]; destruct (Z.leb_spec maxBytes 0); lia).
  split.
  - constructor; [done|unfold f; cbn; destruct (Z.ltb_spec maxFiles 1); lia|done|by rewrite He| |].
    + intros n. rewrite He. left. change (0 ≤ rf_maxBytes f)%Z. lia.
    + intros n Hn. unfold f, openRotatingFile, open_log. cbn [rf_files]. by rewrite lookup_insert_ne by lia.
  - unfold kept_text. apply concat_nil_Forall, Forall_map, Forall_true, He.
Qed.

(** On a disk that works every line is written; what the files hold is an end of the text written, with the last line in it; no
    file is over the limit unless it is a single line; and there are never more than [maxFiles] rotated files. *)
Theorem access_log_keeps_latest maxBytes maxFiles lines :
  let f0 := openRotatingFile maxBytes maxFiles ∅ in
  ∃ f, write_lines working_disk lines f0 = (true, f) ∧ kept_text f `suffix_of` lines ∧
    (∀ line, last lines = Some line → last (file_at (rf_files f) 0) = Some line) ∧
    (∀ n, file_fits (rf_maxBytes f0) (file_at (rf_files f) n)) ∧ (∀ n, (rf_maxFiles f0 < n)%nat → rf_files f !! n = None).
Proof.
  intros f0. destruct (opened_ok maxBytes maxFiles) as [Hok0 Ht0]. fold f0 in Hok0, Ht0.
  assert (∃ f, write_lines working_disk lines f0 = (true, f) ∧ log_ok f ∧ rf_maxBytes f = rf_maxBytes f0 ∧ rf_maxFiles f = rf_maxFiles f0 ∧
    kept_text f `suffix_of` lines ∧ ∀ line, last lines = Some line → last (file_at (rf_files f) 0) = Some line)
    as (f & Hw & Hok & Hb & Hm & Hs & Hl).
  { clearbody f0. induction lines as [|line lines IH] using rev_ind; [exists f0; rewrite Ht0; by split_and!|].
    destruct IH as (f & Hw & Hok & Hb & Hm & [pre Hs] & _). destruct (WriteLine_ok line f Hok) as (f' & gone & Hw' & Hok' & Hb' & Hm' & Ht' & Hl').
    exists f'. unfold write_lines in *. rewrite foldl_app, Hw. cbn [foldl]. rewrite Hw'. split_and!; [done|done|congruence|congruence| |].
    - exists (pre ++ gone). by rewrite Hs, <-!app_assoc, Ht'.
    - intros x. rewrite last_snoc. by intros [= ->]. }
  exists f. split_and!; [done|done|done|rewrite <-Hb; apply Hok|rewrite <-Hm; apply Hok].
Qed.

(** Once a rotation has failed, for a rename or an open that failed, nothing is written any more, however well the disk works
    afterwards: the file stays closed and closing it again is an error. *)
Theorem failed_rotation_is_final d f f' d' lines :
  rotate d f = (false, f') → lines ≠ [] → write_lines d' lines f' = (false, f').
Proof.
  intros Hr Hne. assert (rf_open f' = false) as Hc.
  { unfold rotate in Hr. destruct (rf_open f) eqn:Ho; cbn [negb] in Hr; [|by simplify_eq]. destruct (renames d), (opens d); by simplify_eq/=. }
  assert (∀ line, WriteLine d' line f' = (false, f')) as Hw.
  { intros line. unfold WriteLine, rotate, write_open. rewrite Hc. cbn [negb andb]. by destruct (_ && _). }
  unfold write_lines. destruct lines as [|line lines]; [done|]. cbn [foldl]. rewrite Hw. cbn [andb].
  clear Hne. induction lines as [|x l IH]; [done|]. cbn [foldl]. by rewrite Hw.
Qed.

Definition sample_log_file : rotatingFile := openRotatingFile 2 1 {[0%nat := ["a"]]}.
Definition failing_disk : disk := {| renames := false; opens := true; writes := true |}.

Lemma failed_rotation_is_final_witness :
  write_lines working_disk ["b"; "c"] (rotate failing_disk sample_log_file).2 = (false, (rotate failing_disk sample_log_file).2).
Proof. apply (failed_rotation_is_final failing_disk sample_log_file); [vm_compute; reflexivity|discriminate]. Defined.

(** * The log of proxied requests *)

Lemma record_none e rec : String.eqb (en_Outcome e) "admin" = true → log_access e rec = rec.
Proof. intros H. unfold log_access. rewrite H. by destruct rec. Qed.

Lemma logged_records (entries : list Entry) r :
  foldl (λ rec e, log_access e rec) (Some r) entries = Some (foldl (λ r e, record e r) r (List.filter (λ e, negb (String.eqb (en_Outcome e) "admin")) entries)).
Proof.
  revert r. induction entries as [|e l IH]; intros r; [done|]. cbn [foldl List.filter].
  destruct (String.eqb (en_Outcome e) "admin") eqn:He; cbn [negb].
  - rewrite record_none by done. apply IH.
  - unfold log_access at 2. rewrite He. cbn [negb]. apply IH.
Qed.

Lemma empty_filter_matches parse (query : string → string) e :
  (∀ key, key ≠ "limit" → TrimSpace (query key) = "") → en_Time e ≠ zero_time → filter_matches (query_filter parse query) e = true.
Proof.
  intros Hq Ht. unfold filter_matches, query_filter, time_IsZero. cbn [fi_Host fi_Status fi_IP fi_Query fi_Outcome fi_ServiceID fi_Before].
  rewrite !Hq by discriminate. cbn [non_empty String.eqb negb andb N.eqb]. rewrite Z.eqb_refl. cbn [negb andb].
  by rewrite (proj2 (Z.eqb_neq _ _) Ht).
Qed.

(** C36 The access log refines the list of everything logged: whatever the parameters, the console lists, newest first, the entries
    that match them among the last as many as the ring holds, cut at the limit (200 unless it is between 1 and 1000); what the console itself
    answered is not logged. *)
Theorem access_log_refines_history parse capacity withFile entries query :
  let cap := Z.to_nat (if (capacity <=? 0)%Z then 2000%Z else capacity) in
  let logged := List.filter (λ e, negb (String.eqb (en_Outcome e) "admin")) entries in
  handleListAccessLogs parse (foldl (λ rec e, log_access e rec) (Some (newRecorder capacity withFile)) entries) query =
  (take (list_limit (parseIntQuery (query "limit") 200)) (List.filter (filter_matches (query_filter parse query)) (take cap (reverse logged))), true).
Proof. intros cap logged. rewrite logged_records. unfold handleListAccessLogs. f_equal. apply recorded_listed. Qed.

(** The console lists the proxied requests of the log newest first: without parameters, the latest 200 at most, or fewer when the ring
    is smaller, of those that were not answered by the console itself. *)
Theorem console_lists_latest_requests parse capacity withFile entries query :
  (∀ key, TrimSpace (query key) = "") → query "limit" = "" → Forall (λ e, en_Time e ≠ zero_time) entries →
  let cap := Z.to_nat (if (capacity <=? 0)%Z then 2000%Z else capacity) in
  handleListAccessLogs parse (foldl (λ rec e, log_access e rec) (Some (newRecorder capacity withFile)) entries) query =
  (take (min 200 cap) (reverse (List.filter (λ e, negb (String.eqb (en_Outcome e) "admin")) entries)), true).
Proof.
  intros Hq Hl Ht cap. rewrite logged_records. unfold handleListAccessLogs. f_equal. rewrite Hl. rewrite recorded_listed.
  fold cap. rewrite filter_all_matching.
  - by rewrite take_take.
  - apply Forall_take, Forall_reverse. rewrite Forall_forall in Ht |- *. intros e He. apply empty_filter_matches; [by intros|].
    apply Ht. apply list_elem_of_In, filter_In in He as [He _]. by apply list_elem_of_In.
Qed.

Definition sample_entry (host outcome : string) : Entry :=
  {| en_Time := 0; en_RequestID := ""; en_Method := "GET"; en_Host := host; en_Path := "/"; en_Status := 200; en_LatencyMs := 1; en_Bytes := 0;
     en_RemoteAddr := "192.0.2.1"; en_PeerAddr := "192.0.2.1"; en_UserAgent := ""; en_Referer := ""; en_Outcome := outcome; en_Reason := "";
     en_ServiceID := 1; en_ServiceName := ""; en_UserID := None; en_UserEmail := ""; en_AccessRule := "" |}.

Lemma console_lists_latest_requests_witness :
  handleListAccessLogs (λ _, None) (foldl (λ rec e, log_access e rec) (Some (newRecorder 2 false))
    [sample_entry "a" "success"; sample_entry "b" "success"; sample_entry "console" "admin"; sample_entry "c" "denied"]) (λ _, "") =
  ([sample_entry "c" "denied"; sample_entry "b" "success"], true).
Proof.
  apply (console_lists_latest_requests (λ _, None) 2 false
    [sample_entry "a" "success"; sample_entry "b" "success"; sample_entry "console" "admin"; sample_entry "c" "denied"] (λ _, ""));
    [reflexivity|reflexivity|repeat constructor; discriminate].
Defined.

(** ** The address of an entry *)

Lemma non_empty_right a b : non_empty b = true → non_empty (a +:+ b) = true.
Proof. by destruct a. Qed.

Lemma non_empty_left a b : non_empty a = true → non_empty (a +:+ b) = true.
Proof. by destruct a. Qed.

Lemma AddrString_non_empty a : non_empty (AddrString a) = true.
Proof.
  assert (∀ n, non_empty (string4 n) = true) as H4 by (intros n; by apply non_empty_right).
  destruct a as [|n|n zone]; [done|apply H4|]. unfold AddrString. apply non_empty_left. destruct (Is4In6 _); [done|].
  unfold string6. destruct (longest_run _ _ _) as [start len]. destruct (len =? 0)%nat; by apply non_empty_right.
Qed.

(** The address an entry shows for a peer that is no trusted proxy is the address of the connection, whatever headers the request
    carries; the two columns differ only for requests that came through a trusted proxy. *)
Theorem logged_address_of_untrusted_peer trusted r requestID startedAt status latency bytes route rule user outcome reason :
  requestFromTrustedProxy trusted r = false →
  let entry := access_entry trusted r requestID startedAt status latency bytes route rule user outcome reason in
  en_RemoteAddr entry = en_PeerAddr entry.
Proof.
  intros Hu entry. unfold entry, access_entry. cbn [en_RemoteAddr en_PeerAddr]. unfold authoritativeClientIP, realClientIP. rewrite Hu.
  destruct (parseClientIP (r_RemoteAddr r)) as [a|] eqn:Ha; [|done].
  assert (IsValid a = true) as -> by (unfold parseClientIP in Ha; destruct (SplitHostPort _) as [[host port]|]; by eapply ParseAddr_valid).
  by rewrite AddrString_non_empty.
Qed.

Lemma logged_address_of_untrusted_peer_witness :
  let entry := access_entry ["10.0.0.0/8"] (sample_request {["X-Forwarded-For" := ["10.1.2.3"]]}) "" 0 200 1 0 None None None "success" "" in
  en_RemoteAddr entry = en_PeerAddr entry.
Proof. apply logged_address_of_untrusted_peer. vm_compute. reflexivity. Defined.
