(* ===== verification/Exposure.v ===== *)
(** Exposure of the services: the report on forwarding headers from untrusted peers (proxy/forwarders.go) and the scanner that
    probes the services from outside (internal/scanner, store/exposure_store.go, http/exposure.go).

    The detector keeps two bounded tables of counts; its abstract specification is the list of the observations of the window.
    Shares are compared as fractions: for fewer than 2^50 requests in a window the comparison of the source in floating point gives
    the same answer.  The network, the verification of a chain of certificates and the clock are parameters of a scan. *)
From stdpp Require Import gmap.
From Stdlib Require Import QArith.
From S2P Require Import Prelude GoStrings Netip Netguard Domain Hosts Requests Routing.

#[local] Open Scope string_scope.
#[local] Open Scope list_scope.
#[local] Open Scope Z_scope.

(** * Definitions *)

#[global] Instance Addr_countable : Countable Addr.
Proof.
  refine (inj_countable' (λ a, match a with AddrZero => None | Addr4 n => Some (n, None) | Addr6 n z => Some (n, Some z) end)
    (λ x, match x with None => AddrZero | Some (n, None) => Addr4 n | Some (n, Some z) => Addr6 n z end) _); by intros [].
Defined.

#[global] Instance Prefix_countable : Countable Prefix.
Proof. refine (inj_countable' (λ p, (p_addr p, p_bits p)) (λ '(a, b), mkPrefix a b) _); by intros []. Defined.

(** ** Forwarding headers *)

Definition forwarderWindow : Z := 10 * Minute.
Definition forwarderMinRequests : Z := 20.
Definition forwarderMaxKeys : nat := 4096.

Definition forwardingHeaders : list string := ["X-Forwarded-For"; "X-Real-Ip"; "Forwarded"; "Cf-Connecting-Ip"; "True-Client-Ip"].

Record ForwarderFinding := { ff_Host : string; ff_Prefix : string; ff_Header : string; ff_Requests : Z; ff_Total : Z; ff_Percent : Q }.
Record ForwarderReport := { fr_CheckedAt : Z; fr_Window : Z; fr_Findings : list ForwarderFinding }.

Abbreviation forwarderKey := (string * Prefix)%type.

Record forwarderDetector := {
  fd_windowStart : Z; fd_totals : gmap string Z; fd_hits : gmap forwarderKey Z; fd_headers : gmap forwarderKey string;
  fd_report : option ForwarderReport;                        (* [None] for the zero report *)
}.

Definition reset (now : Z) (d : forwarderDetector) : forwarderDetector :=
  {| fd_windowStart := now; fd_totals := ∅; fd_hits := ∅; fd_headers := ∅; fd_report := fd_report d |}.

Definition newForwarderDetector (now : Z) : forwarderDetector :=
  reset now {| fd_windowStart := 0; fd_totals := ∅; fd_hits := ∅; fd_headers := ∅; fd_report := None |}.

Definition forwardingHeader (r : Request) : string :=
  default "" (List.find (λ name, non_empty (HGet (r_Header r) name)) forwardingHeaders).

Definition forwarderPrefix (addr : Addr) : Prefix :=
  let addr := Unmap addr in
  let bits := if Is6 addr then 48 else 24 in
  Masked (PrefixFrom addr bits).

Definition observe (host : string) (peer : Addr) (trusted : bool) (header : string) (d : forwarderDetector) : forwarderDetector :=
  if negb (non_empty host) then d
  else if negb (bool_decide (is_Some (fd_totals d !! host))) && (forwarderMaxKeys <=? size (fd_totals d))%nat then d
  else
    let totals := <[host := default 0 (fd_totals d !! host) + 1]> (fd_totals d) in
    let counted hits headers :=
      {| fd_windowStart := fd_windowStart d; fd_totals := totals; fd_hits := hits; fd_headers := headers; fd_report := fd_report d |} in
    if trusted || negb (non_empty header) || negb (IsValid peer) then counted (fd_hits d) (fd_headers d)
    else
      let key := (host, forwarderPrefix peer) in
      match fd_hits d !! key with
      | None =>
          if (forwarderMaxKeys <=? size (fd_hits d))%nat then counted (fd_hits d) (fd_headers d)
          else counted (<[key := 1]> (fd_hits d)) (<[key := header]> (fd_headers d))
      | Some n => counted (<[key := n + 1]> (fd_hits d)) (fd_headers d)
      end.

Definition observeForwarder (trusted : list string) (r : Request) (d : option forwarderDetector) : option forwarderDetector :=
  match d with
  | None => None
  | Some d =>
      match parseClientIP (r_RemoteAddr r) with
      | None => Some d
      | Some peer => Some (observe (normalizeHost (r_Host r)) peer (requestFromTrustedProxy trusted r) (forwardingHeader r) d)
      end
  end.

(** What the loop of [rotate] does with a key. *)
Definition finding_of (d : forwarderDetector) (entry : forwarderKey * Z) : option ForwarderFinding :=
  let '(key, count) := entry in
  let total := default 0 (fd_totals d !! key.1) in
  if (count <? forwarderMinRequests) || (total =? 0) then None
  else if 5 * count <? total then None                       (* share < 0.2 *)
  else Some {| ff_Host := key.1; ff_Prefix := PrefixString key.2; ff_Header := default "" (fd_headers d !! key);
               ff_Requests := count; ff_Total := total; ff_Percent := Qmake (100 * count) (Z.to_pos total) |}.

Section rotation.
(** [sort.Slice] by host, then by falling number of requests, of the findings in the order in which the map is walked. *)
Context (order : list ForwarderFinding → list ForwarderFinding).

Definition rotate_window (now : Z) (d : forwarderDetector) : ForwarderReport * forwarderDetector :=
  let findings := order (omap (finding_of d) (map_to_list (fd_hits d))) in
  let report := {| fr_CheckedAt := now; fr_Window := forwarderWindow; fr_Findings := findings |} in
  (report, reset now {| fd_windowStart := fd_windowStart d; fd_totals := fd_totals d; fd_hits := fd_hits d; fd_headers := fd_headers d; fd_report := Some report |}).
End rotation.

Definition current_report (d : option forwarderDetector) : ForwarderReport :=
  default {| fr_CheckedAt := 0; fr_Window := 0; fr_Findings := [] |} (d ≫= fd_report).

(** ** The scanner *)

Record ServiceExposureReport := {
  er_ID : N; er_ServiceID : N; er_Score : Z; er_CheckedAt : Z; er_DNSResolvable : bool; er_HTTPSValid : bool; er_HTTPSExpiresIn : Z;
  er_HTTPSRedirect : bool; er_HSTSPresent : bool; er_CSPPresent : bool; er_XFrameOptions : bool; er_AuthEnforced : bool;
  er_GeoIPConfigured : bool; er_Findings : list string; er_LastError : string; er_CreatedAt : Z; er_UpdatedAt : Z;
}.

(** The control of the scanner's dialer. *)
Definition scan_control (address : string) : result dial_error unit := dial_control IsBlockedAddr address.

Definition untrustedForwarder (report : option ForwarderReport) (host : string) : bool :=
  match report with
  | None => false
  | Some report => let host := ToLower (TrimSpace host) in existsb (λ f, String.eqb (ff_Host f) host) (fr_Findings report)
  end.

Definition computeScore (dns https auth hsts csp xfo redirect : bool) (expires : Z) : Z :=
  let minus (n : Z) (missing : bool) := if missing then n else 0 in
  let score := 100 - minus 40 (negb dns) - minus 30 (negb https) - minus 25 (negb auth) - minus 5 (negb hsts) - minus 5 (negb csp)
               - minus 3 (negb xfo) - minus 8 (negb redirect) - minus 10 ((0 <? expires) && (expires <? 14)) in
  if score <? 0 then 0 else score.

(** An answer of a probe: the certificates of the connection by the end of their validity. *)
Record probe_response := { pr_Status : Z; pr_Header : string → string; pr_PeerCertificates : list Z }.

(** The statuses that count as a request to sign in. *)
Definition redirect_codes : list Z := [401; 403; 302; 301; 307; 303].
Definition sign_in_status (status : Z) : bool := existsb (Z.eqb status) redirect_codes.
#[global] Arguments sign_in_status : simpl never.

Section scanning.
(** Whether a name resolves; the answer to a request, or the text of the error; whether the chain verifies for a name. *)
Context (LookupHost : string → bool) (fetch : string → string → result string probe_response) (Verify : string → Z → list Z → bool).

Definition verifyTLSChain (host : string) (certs : list Z) : bool :=
  match certs with
  | [] => false
  | cert :: rest => Verify (match SplitHostPort host with Some (h, _) => h | None => host end) cert rest
  end.

Definition scan_do (method url : string) : result string probe_response :=
  if negb (non_empty (TrimSpace url)) then Err "empty url" else fetch method url.

(** [now] is the time of the check, [later] the one the remaining validity is counted from. *)
Definition ScanService (now later : Z) (forwarders : option ForwarderReport) (service : Service) : option ServiceExposureReport :=
  let host := ServiceHost service in
  if negb (non_empty (TrimSpace host)) || IsWildcardHost host then None
  else
    let public := String.eqb (s_AccessMode service) AccessModePublic in
    let resolvable := LookupHost host in
    let redirect :=
      match scan_do "HEAD" ("http://" +:+ host +:+ s_Path service) with
      | Ok resp => (300 <=? pr_Status resp) && (pr_Status resp <? 400) && HasPrefix (ToLower (pr_Header resp "Location")) "https://"
      | Err _ => false
      end in
    let '(valid, days, hsts, csp, xfo, auth, https_findings, lastError) :=
      match scan_do "GET" ("https://" +:+ host +:+ s_Path service) with
      | Ok resp =>
          let present name := non_empty (TrimSpace (pr_Header resp name)) in
          let valid := verifyTLSChain host (pr_PeerCertificates resp) in
          let days := if valid then Z.max 0 (Z.quot (default 0 (head (pr_PeerCertificates resp)) - later) (24 * Hour)) else 0 in
          let auth := public || sign_in_status (pr_Status resp) in
          (valid, days, present "Strict-Transport-Security", present "Content-Security-Policy", present "X-Frame-Options", auth,
           (if valid then if days <? 14 then ["https_expiring_soon"] else [] else ["https_invalid"]) ++ (if auth then [] else ["auth_not_enforced"]), "")
      | Err e => (false, 0, false, false, false, false, ["https_unreachable"], e)
      end in
    let findings :=
      (if resolvable then [] else ["dns_not_resolvable"]) ++ https_findings ++
      (if negb hsts && negb public then ["hsts_missing"] else []) ++ (if csp then [] else ["csp_missing"]) ++
      (if xfo then [] else ["x_frame_options_missing"]) ++ (if redirect then [] else ["http_not_redirecting_https"]) ++
      (if public then ["service_is_public"] else []) ++ (if untrustedForwarder forwarders host then ["untrusted_forwarder"] else []) in
    Some {| er_ID := 0; er_ServiceID := s_ID service; er_Score := computeScore resolvable valid auth hsts csp xfo redirect days;
            er_CheckedAt := now; er_DNSResolvable := resolvable; er_HTTPSValid := valid; er_HTTPSExpiresIn := days; er_HTTPSRedirect := redirect;
            er_HSTSPresent := hsts; er_CSPPresent := csp; er_XFrameOptions := xfo; er_AuthEnforced := auth;
            er_GeoIPConfigured := (0 <? length (s_AllowedCountries service))%nat || (0 <? length (s_BlockedCountries service))%nat;
            er_Findings := findings; er_LastError := lastError; er_CreatedAt := 0; er_UpdatedAt := 0 |}.
End scanning.

(** ** The reports *)

Record exposure_store := { es_next : N; es_rows : list ServiceExposureReport }.

Definition stamped (id : N) (created updated : Z) (report : ServiceExposureReport) : ServiceExposureReport :=
  {| er_ID := id; er_ServiceID := er_ServiceID report; er_Score := er_Score report; er_CheckedAt := er_CheckedAt report;
     er_DNSResolvable := er_DNSResolvable report; er_HTTPSValid := er_HTTPSValid report; er_HTTPSExpiresIn := er_HTTPSExpiresIn report;
     er_HTTPSRedirect := er_HTTPSRedirect report; er_HSTSPresent := er_HSTSPresent report; er_CSPPresent := er_CSPPresent report;
     er_XFrameOptions := er_XFrameOptions report; er_AuthEnforced := er_AuthEnforced report; er_GeoIPConfigured := er_GeoIPConfigured report;
     er_Findings := er_Findings report; er_LastError := er_LastError report; er_CreatedAt := created; er_UpdatedAt := updated |}.

Definition reports_GetByServiceID (st : exposure_store) (serviceID : N) : option ServiceExposureReport :=
  List.find (λ row, N.eqb (er_ServiceID row) serviceID) (es_rows st).

(** [works]: the statements succeed. *)
Definition reports_Upsert (works : bool) (now : Z) (report : ServiceExposureReport) (st : exposure_store) :
    option ServiceExposureReport * exposure_store :=
  if negb works then (None, st)
  else
    match reports_GetByServiceID st (er_ServiceID report) with
    | Some existing =>
        let row := stamped (er_ID existing) (er_CreatedAt existing) now report in
        (Some row, {| es_next := es_next st; es_rows := map (λ r, if N.eqb (er_ID r) (er_ID existing) then row else r) (es_rows st) |})
    | None =>
        let row := stamped (es_next st) now now report in
        (Some row, {| es_next := (es_next st + 1)%N; es_rows := es_rows st ++ [row] |})
    end.

Definition reports_DeleteByServiceID (serviceID : N) (st : exposure_store) : exposure_store :=
  {| es_next := es_next st; es_rows := List.filter (λ row, negb (N.eqb (er_ServiceID row) serviceID)) (es_rows st) |}.

(** [RunOnce] over the services it could list, with what each scan gives and whether its report is written. *)
Definition scanner_RunOnce (now : Z) (scan : Service → option ServiceExposureReport) (works : N → bool) (services : option (list Service))
    (st : exposure_store) : exposure_store :=
  match services with
  | None => st
  | Some services =>
      foldl (λ st service, match scan service with None => st | Some report => (reports_Upsert (works (s_ID service)) now report st).2 end) st services
  end.

Inductive scan_reply := ScannerUnavailable | ScanNotFound | ScanFailed | ScanInternalError | Scanned (report : ServiceExposureReport).

(** [scan] is absent without a scanner; the store is when it is not configured. *)
Definition handleRunExposureScan (works : bool) (now : Z) (scan : option (Service → option ServiceExposureReport)) (service : option Service)
    (st : option exposure_store) : scan_reply * option exposure_store :=
  match scan with
  | None => (ScannerUnavailable, st)
  | Some scan =>
      match service with
      | None => (ScanNotFound, st)
      | Some service =>
          match scan service with
          | None => (ScanFailed, st)
          | Some report =>
              match st with
              | None => (Scanned report, None)
              | Some db =>
                  match reports_Upsert works now report db with
                  | (Some report, db) => (Scanned report, Some db)
                  | (None, db) => (ScanInternalError, Some db)
                  end
              end
          end
      end
  end.

(** * The detector against the list of observations *)

Record observation := { ob_host : string; ob_peer : Addr; ob_trusted : bool; ob_header : string }.

Definition observe_one (d : forwarderDetector) (o : observation) : forwarderDetector := observe (ob_host o) (ob_peer o) (ob_trusted o) (ob_header o) d.

Definition of_host (host : string) (o : observation) : bool := String.eqb (ob_host o) host.
Definition suspicious (o : observation) : bool := negb (ob_trusted o || negb (non_empty (ob_header o)) || negb (IsValid (ob_peer o))).
Definition key_of (o : observation) : forwarderKey := (ob_host o, forwarderPrefix (ob_peer o)).
Definition of_key (key : forwarderKey) (o : observation) : bool := suspicious o && bool_decide (key_of o = key).

Definition counted {A} (p : A → bool) (l : list A) : Z := Z.of_nat (length (List.filter p l)).

Lemma counted_snoc {A} (p : A → bool) l x : counted p (l ++ [x]) = counted p l + (if p x then 1 else 0).
Proof. unfold counted. rewrite List.filter_app, length_app. cbn. destruct (p x); cbn; lia. Qed.

Lemma counted_zero {A} (p : A → bool) l : counted p l = 0 ↔ ∀ x, x ∈ l → p x = false.
Proof.
  unfold counted. split.
  - intros H x Hx. destruct (p x) eqn:Hp; [|done]. assert (x ∈ List.filter p l) as Hf by (apply list_elem_of_In, filter_In; split; [by apply list_elem_of_In|done]).
    destruct (List.filter p l); [by apply not_elem_of_nil in Hf|done].
  - induction l as [|x l IH]; [done|]. intros H. cbn. rewrite (H x) by apply list_elem_of_here. apply IH. intros y Hy. apply H. by apply list_elem_of_further.
Qed.

Lemma find_snoc {A} (p : A → bool) l x : List.find p (l ++ [x]) = match List.find p l with Some y => Some y | None => if p x then Some x else None end.
Proof. induction l as [|y l IH]; cbn; [done|]. by destruct (p y). Qed.

Lemma counted_find {A} (p : A → bool) l : counted p l = 0 ↔ List.find p l = None.
Proof.
  rewrite counted_zero. split; [|intros H x Hx; eapply find_none; [exact H|by apply list_elem_of_In]].
  intros H. destruct (List.find p l) as [x|] eqn:Hf; [|done]. apply find_some in Hf as [Hx Hp]. apply list_elem_of_In in Hx. by rewrite (H x Hx) in Hp.
Qed.

(** ** A bounded table of counts

    Every count is exact: a key that is kept out of the table for want of space is kept out from its first observation on. *)
Section counts.
Context {K} `{Countable K} (p : K → observation → bool).

Record counts (ok : K → Prop) (m : gmap K Z) (os : list observation) : Prop := {
  ct_in : ∀ k n, m !! k = Some n → n = counted (p k) os ∧ 0 < n;
  ct_out : ∀ k, m !! k = None → ok k → counted (p k) os = 0 ∨ size m = forwarderMaxKeys;
  ct_size : (size m ≤ forwarderMaxKeys)%nat;
}.

Lemma counts_empty ok : counts ok ∅ [].
Proof. constructor; intros; rewrite ?lookup_empty, ?map_size_empty in *; [done|by left|unfold forwarderMaxKeys; lia]. Qed.

Lemma counts_refused ok m os o :
  counts ok m os → (∀ k, p k o = true → m !! k = None ∧ (ok k → size m = forwarderMaxKeys)) → counts ok m (os ++ [o]).
Proof.
  intros [Hin Hout Hsize] Hno. constructor; [| |done]; intros k; [intros n|]; intros Hk; rewrite counted_snoc; destruct (p k o) eqn:Hp; rewrite ?Z.add_0_r;
    try by auto. - destruct (Hno k Hp) as [? _]. congruence. - intros Hok. right. by apply (Hno k Hp).
Qed.

Lemma counts_step ok m os o k :
  counts ok m os → ok k → p k o = true → (∀ k', p k' o = true → k' = k) → (m !! k = None → (size m < forwarderMaxKeys)%nat) →
  counts ok (<[k := default 0 (m !! k) + 1]> m) (os ++ [o]).
Proof.
  intros [Hin Hout Hsize] Hok Hp Hothers Hroom. set (m' := <[k := _]> m).
  assert (size m' = size m ∨ m !! k = None ∧ size m' = S (size m)) as Hs by (unfold m'; rewrite map_size_insert; destruct (m !! k); cbn; auto).
  assert (∀ k', k' ≠ k → p k' o = false) as Hne by (intros k' Hk'; destruct (p k' o) eqn:Hpk; [by apply Hothers in Hpk|done]).
  constructor.
  - intros k' n. unfold m'. rewrite counted_snoc. destruct (decide (k' = k)) as [->|Hk'].
    + rewrite lookup_insert_eq, Hp. intros [= <-]. destruct (m !! k) as [c|] eqn:Hk; cbn; [destruct (Hin _ _ Hk); lia|].
      specialize (Hroom eq_refl). destruct (Hout _ Hk Hok); lia.
    + rewrite lookup_insert_ne by done. rewrite (Hne k' Hk'), Z.add_0_r. apply Hin.
  - intros k'. unfold m' at 1. rewrite lookup_insert_None. intros [Hk' Hkk] Hok'. rewrite counted_snoc, (Hne k'), Z.add_0_r by done.
    destruct (Hout _ Hk' Hok') as [?|Hf]; [by left|right]. destruct Hs as [Hs|[Hs1 Hs]]; [lia|]. specialize (Hroom Hs1). lia.
  - destruct Hs as [Hs|[Hs1 Hs]]; [lia|]. specialize (Hroom Hs1). lia.
Qed.

Lemma counts_more (ok ok' : K → Prop) m os :
  counts ok m os → (∀ k, ok' k → ok k ∨ counted (p k) os = 0) → counts ok' m os.
Proof. intros [Hin Hout Hsize] Hok. constructor; [done| |done]. intros k Hk Hk'. destruct (Hok k Hk') as [?|?]; [by apply Hout|by left]. Qed.
End counts.

Record detected (d : forwarderDetector) (os : list observation) : Prop := {
  de_totals : counts of_host (λ host, host ≠ "") (fd_totals d) os;
  de_no_host : fd_totals d !! "" = None;
  de_hits : counts of_key (λ key, is_Some (fd_totals d !! key.1)) (fd_hits d) os;
  de_hosts : ∀ key n, fd_hits d !! key = Some n → is_Some (fd_totals d !! key.1);
  de_header : ∀ key n, fd_hits d !! key = Some n → ∃ o, List.find (of_key key) os = Some o ∧ fd_headers d !! key = Some (ob_header o);
}.

Lemma reset_detected now d : detected (reset now d) [].
Proof. constructor; cbn; [apply counts_empty|done|apply counts_empty|done|done]. Qed.

Lemma of_key_host key o : of_key key o = true → ob_host o = key.1 ∧ suspicious o = true ∧ key = key_of o.
Proof. unfold of_key. intros [Hs Hk]%andb_true_iff. apply bool_decide_eq_true in Hk as <-. done. Qed.

Lemma counted_key_host os key : counted (of_host key.1) os = 0 → counted (of_key key) os = 0.
Proof.
  rewrite !counted_zero. intros H o Ho. specialize (H o Ho). destruct (of_key key o) eqn:Hk; [|done].
  apply of_key_host in Hk as [Hh _]. unfold of_host in H. by rewrite Hh, String.eqb_refl in H.
Qed.

(** An observation that is not counted. *)
Lemma refused_detected d os o :
  detected d os → (ob_host o = "" ∨ fd_totals d !! ob_host o = None ∧ (forwarderMaxKeys ≤ size (fd_totals d))%nat) → detected d (os ++ [o]).
Proof.
  intros [Ht Hnh Hh Hhost Hhd] Hr. assert (fd_totals d !! ob_host o = None) as Hnone by (destruct Hr as [->|[? _]]; done).
  constructor; [|done| |done|].
  - apply counts_refused; [done|]. intros k Hk%String.eqb_eq. subst k. split; [done|]. intros Hne. destruct Hr as [?|[_ Hf]]; [done|].
    pose proof (ct_size _ _ _ _ Ht). lia.
  - apply counts_refused; [done|]. intros k (Hk & _ & _)%of_key_host. split.
    + destruct (fd_hits d !! k) as [n|] eqn:Hn; [|done]. apply Hhost in Hn as [? Hn]. congruence.
    + intros [? Hn]. congruence.
  - intros key n Hn. destruct (Hhd key n Hn) as (o' & Hf & Ho'). exists o'. by rewrite find_snoc, Hf.
Qed.

Lemma find_kept {A} (p : A → bool) l x y : List.find p l = Some y → List.find p (l ++ [x]) = Some y.
Proof. intros H. by rewrite find_snoc, H. Qed.

(** What counting an observation does to the totals, before the hits are updated. *)
Lemma totals_after d os o :
  detected d os → ob_host o ≠ "" → (fd_totals d !! ob_host o = None → (size (fd_totals d) < forwarderMaxKeys)%nat) →
  let totals := <[ob_host o := default 0 (fd_totals d !! ob_host o) + 1]> (fd_totals d) in
  counts of_host (λ host, host ≠ "") totals (os ++ [o]) ∧ totals !! "" = None ∧
  (∀ host, is_Some (fd_totals d !! host) → is_Some (totals !! host)) ∧ counts of_key (λ key, is_Some (totals !! key.1)) (fd_hits d) os.
Proof.
  intros [Ht Hnh Hh Hhost Hhd] Hne Hroom totals. split_and!.
  - apply counts_step; [done|done|apply String.eqb_refl|by intros k Hk%String.eqb_eq|done].
  - unfold totals. by rewrite lookup_insert_ne.
  - intros host Hk. unfold totals. destruct (decide (host = ob_host o)) as [->|]; [rewrite lookup_insert_eq|rewrite lookup_insert_ne by done]; done.
  - apply (counts_more _ _ _ _ _ Hh). intros k Hk. destruct (fd_totals d !! k.1) as [c|] eqn:Hc; [by left|right].
    apply counted_key_host. assert (k.1 = ob_host o) as Heq.
    { destruct (decide (k.1 = ob_host o)) as [|Hd]; [done|]. unfold totals in Hk. rewrite lookup_insert_ne, Hc in Hk by done. by destruct Hk. }
    destruct (ct_out _ _ _ _ Ht k.1 Hc) as [?|Hf]; [by rewrite Heq|done|]. rewrite Heq in Hc. specialize (Hroom Hc). lia.
Qed.

Lemma key_of_only o k : of_key k o = true → k = key_of o.
Proof. intros Hk. by apply of_key_host in Hk as (_ & _ & ->). Qed.

(** One that is counted. *)
Lemma counted_detected d os o :
  detected d os → ob_host o ≠ "" → (fd_totals d !! ob_host o = None → (size (fd_totals d) < forwarderMaxKeys)%nat) →
  detected (observe_one d o) (os ++ [o]).
Proof.
  intros Hd Hne Hroom. destruct (totals_after d os o Hd Hne Hroom) as (Ht' & Hnh' & Hmono & Hh'). destruct Hd as [Ht Hnh Hh Hhost Hhd].
  assert (∀ key n, fd_hits d !! key = Some n → ∃ o', List.find (of_key key) (os ++ [o]) = Some o' ∧ fd_headers d !! key = Some (ob_header o')) as Hkept.
  { intros key n Hn. destruct (Hhd key n Hn) as (o' & Hf & Ho'). exists o'. split; [by apply find_kept|done]. }
  unfold observe_one, observe. rewrite (proj2 (non_empty_true _) Hne). cbn [negb].
  replace (_ && _) with false by (destruct (fd_totals d !! ob_host o) eqn:Hk; [by rewrite bool_decide_true by done|];
    rewrite bool_decide_false by (by intros []); symmetry; apply Nat.leb_gt, Hroom; done).
  set (totals := <[ob_host o := _]> (fd_totals d)) in *. assert (is_Some (totals !! ob_host o)) as Hself by (unfold totals; by rewrite lookup_insert_eq).
  destruct (ob_trusted o || _ || _) eqn:Hs.
  { constructor; cbn; [done|done| |by intros key n Hn; eapply Hmono, Hhost|done]. apply counts_refused; [done|]. intros k. unfold of_key, suspicious. by rewrite Hs. }
  assert (of_key (key_of o) o = true) as Hko by (unfold of_key, suspicious; rewrite Hs; by rewrite bool_decide_true).
  pose proof (counts_step of_key _ _ _ o (key_of o) Hh' Hself Hko (key_of_only o)) as Hstep.
  fold (key_of o). destruct (fd_hits d !! key_of o) as [c|] eqn:Hc; [|destruct (Nat.leb_spec forwarderMaxKeys (size (fd_hits d)))].
  - constructor; cbn; [done|done|by apply Hstep| |]; intros key n; (destruct (decide (key = key_of o)) as [->|Hk]; [|rewrite lookup_insert_ne by done]); eauto.
  - constructor; cbn; [done|done| |by intros key n Hn; eapply Hmono, Hhost|done].
    apply counts_refused; [done|]. intros k Hk. apply key_of_only in Hk as ->. split; [done|]. intros _. pose proof (ct_size _ _ _ _ Hh). lia.
  - constructor; cbn; [done|done|by apply Hstep| |]; intros key n; (destruct (decide (key = key_of o)) as [->|Hk]; [|rewrite !lookup_insert_ne by done]); eauto.
    intros _. exists o. rewrite lookup_insert_eq, find_snoc, Hko. split; [|done].
    destruct (ct_out _ _ _ _ Hh' (key_of o) Hc Hself) as [Hz|?]; [|lia]. by rewrite (proj1 (counted_find _ _) Hz).
Qed.

Lemma observe_detected d os o : detected d os → detected (observe_one d o) (os ++ [o]).
Proof.
  intros Hd. destruct (decide (ob_host o = "")) as [He|Hne].
  { unfold observe_one, observe. rewrite He. cbn [non_empty negb]. apply refused_detected; [done|by left]. }
  destruct (fd_totals d !! ob_host o) as [n|] eqn:Hn; [apply counted_detected; [done|done|congruence]|].
  destruct (Nat.leb_spec forwarderMaxKeys (size (fd_totals d))) as [Hfull|Hroom]; [|by apply counted_detected].
  unfold observe_one, observe. rewrite (proj2 (non_empty_true _) Hne), Hn. cbn [negb].
  rewrite bool_decide_false by (by intros []). rewrite (proj2 (Nat.leb_le _ _) Hfull). cbn. apply refused_detected; [done|by right].
Qed.

Lemma observed_detected d os l : detected d os → detected (foldl observe_one d l) (os ++ l).
Proof.
  revert d os. induction l as [|o l IH]; intros d os Hd; cbn; [by rewrite app_nil_r|].
  replace (os ++ o :: l) with ((os ++ [o]) ++ l) by (by rewrite <-app_assoc). by apply IH, observe_detected.
Qed.

(** The distinct hosts and keys of a window. *)
Definition hosts_of (os : list observation) : gset string := list_to_set (ob_host <$> os).
Definition keys_of (os : list observation) : gset forwarderKey := list_to_set (key_of <$> List.filter suspicious os).

Lemma table_has_room {K} `{Countable K} (p : K → observation → bool) ok (m : gmap K Z) os (seen : gset K) k :
  counts p ok m os → (∀ k o, o ∈ os → p k o = true → k ∈ seen) → (size seen ≤ forwarderMaxKeys)%nat → ok k → counted (p k) os ≠ 0 → is_Some (m !! k).
Proof.
  intros Hc Hseen Hsize Hok Hn. destruct (m !! k) as [n|] eqn:Hk; [by eexists|]. destruct (ct_out _ _ _ _ Hc k Hk Hok) as [?|Hfull]; [done|].
  assert (∀ k', counted (p k') os ≠ 0 → k' ∈ seen) as Hin.
  { intros k' Hk'. destruct (List.find (p k') os) as [o|] eqn:Hf; [|by apply counted_find in Hf]. apply find_some in Hf as [Ho Hp].
    eapply Hseen; [by apply list_elem_of_In|done]. }
  assert (size (dom m ∪ {[k]}) ≤ size seen)%nat as Hle.
  { apply subseteq_size. intros k' [Hk'|Hk']%elem_of_union; [|apply elem_of_singleton in Hk' as ->; auto].
    apply elem_of_dom in Hk' as [n' Hk']. destruct (ct_in _ _ _ _ Hc _ _ Hk'). apply Hin. lia. }
  rewrite size_union, size_singleton, size_dom in Hle by (apply disjoint_singleton_r; by apply not_elem_of_dom). lia.
Qed.

Lemma finding_of_some d os key n f :
  detected d os → fd_hits d !! key = Some n → finding_of d (key, n) = Some f →
  ff_Host f = key.1 ∧ ff_Prefix f = PrefixString key.2 ∧ ff_Requests f = counted (of_key key) os ∧ ff_Total f = counted (of_host key.1) os ∧
  forwarderMinRequests ≤ ff_Requests f ∧ ff_Total f ≤ 5 * ff_Requests f ∧ (∃ o, List.find (of_key key) os = Some o ∧ ff_Header f = ob_header o).
Proof.
  intros Hd Hn. destruct (ct_in _ _ _ _ (de_hits d os Hd) _ _ Hn) as [-> _]. destruct (de_hosts d os Hd _ _ Hn) as [t Ht].
  destruct (ct_in _ _ _ _ (de_totals d os Hd) _ _ Ht) as [-> _]. destruct (de_header d os Hd _ _ Hn) as (o & Hf & Ho).
  unfold finding_of. rewrite Ht, Ho. cbn [default from_option id].
  destruct (_ || _) eqn:Hmin; [done|]. apply orb_false_iff in Hmin as [Hmin _]. apply Z.ltb_ge in Hmin.
  destruct (Z.ltb_spec (5 * counted (of_key key) os) (counted (of_host key.1) os)); [done|]. intros [= <-]. cbn. split_and!; eauto.
Qed.

(** The report on forwarding headers is exact.  Every finding names a host and a prefix with the true numbers of the window: the
    requests to the host that came from the prefix with a forwarding header and through no trusted proxy, at least 20 and at least a fifth of all requests to the host.
    And nothing of that kind is missing while the hosts and the pairs of host and prefix fit the tables of 4096. *)
Theorem forwarder_report_exact order start now d0 os :
  (∀ l, order l ≡ₚ l) →
  let d := foldl observe_one (reset start d0) os in
  let report := (rotate_window order now d).1 in
  (∀ f, f ∈ fr_Findings report → ∃ p,
     ff_Prefix f = PrefixString p ∧ ff_Requests f = counted (of_key (ff_Host f, p)) os ∧ ff_Total f = counted (of_host (ff_Host f)) os ∧
     forwarderMinRequests ≤ ff_Requests f ∧ ff_Total f ≤ 5 * ff_Requests f ∧ ∃ o, List.find (of_key (ff_Host f, p)) os = Some o ∧ ff_Header f = ob_header o) ∧
  ((size (hosts_of os) ≤ forwarderMaxKeys)%nat → (size (keys_of os) ≤ forwarderMaxKeys)%nat → ∀ host p,
     host ≠ "" → forwarderMinRequests ≤ counted (of_key (host, p)) os → counted (of_host host) os ≤ 5 * counted (of_key (host, p)) os →
     ∃ f, f ∈ fr_Findings report ∧ ff_Host f = host ∧ ff_Prefix f = PrefixString p).
Proof.
  intros Horder d report. assert (detected d os) as Hd by apply (observed_detected _ [] os), reset_detected.
  assert (∀ f, f ∈ fr_Findings report ↔ ∃ key n, fd_hits d !! key = Some n ∧ finding_of d (key, n) = Some f) as Hin.
  { intros f. unfold report. cbn. rewrite Horder, list_elem_of_omap. split.
    - intros ([key n] & Hm & Hf). apply elem_of_map_to_list in Hm. eauto.
    - intros (key & n & Hm & Hf). exists (key, n). by rewrite elem_of_map_to_list. }
  split.
  - intros f ([host p] & n & Hn & Hf)%Hin. destruct (finding_of_some d os _ _ _ Hd Hn Hf) as (-> & ? & ? & ? & ? & ? & ?). by exists p.
  - intros Hhosts Hkeys host p Hne Hmin Hshare.
    assert (counted (of_key (host, p)) os ≠ 0) as Hk0 by (unfold forwarderMinRequests in Hmin; lia).
    assert (counted (of_host host) os ≠ 0) as Hh0 by (intros Hz; by apply Hk0, (counted_key_host os (host, p))).
    assert (is_Some (fd_totals d !! host)) as [t Ht].
    { refine (table_has_room _ _ _ _ (hosts_of os) host (de_totals d os Hd) _ Hhosts Hne Hh0). intros k o Ho Hk%String.eqb_eq.
      apply elem_of_list_to_set, list_elem_of_fmap. eauto. }
    assert (is_Some (fd_hits d !! (host, p))) as [n Hn].
    { refine (table_has_room _ _ _ _ (keys_of os) (host, p) (de_hits d os Hd) _ Hkeys _ Hk0); [|cbn; rewrite Ht; eauto].
      intros k o Ho (_ & Hs & ->)%of_key_host. apply elem_of_list_to_set, list_elem_of_fmap. exists o. split; [done|].
      apply list_elem_of_In, filter_In. split; [by apply list_elem_of_In|done]. }
    destruct (ct_in _ _ _ _ (de_hits d os Hd) _ _ Hn) as [Hc _]. destruct (ct_in _ _ _ _ (de_totals d os Hd) _ _ Ht) as [Hct _].
    destruct (finding_of d ((host, p), n)) as [f|] eqn:Hf.
    + destruct (finding_of_some d os _ _ _ Hd Hn Hf) as (? & ? & _). exists f. split; [apply Hin; eauto|done].
    + exfalso. unfold finding_of in Hf. cbn [fst snd] in Hf. rewrite Ht, Hc, Hct in Hf. cbn [default from_option id] in Hf.
      rewrite (proj2 (Z.ltb_ge _ _) Hmin), (proj2 (Z.eqb_neq _ _) Hh0) in Hf. cbn in Hf. by rewrite (proj2 (Z.ltb_ge _ _)) in Hf by lia.
Qed.

(** * Scans *)

(** The control of the scanner refuses every address the server must not reach. *)
Theorem scanner_dials_no_blocked_address address :
  scan_control address = Ok tt → ∃ host port addr, SplitHostPort address = Some (host, port) ∧ ParseAddr host = Some addr ∧ IsBlockedAddr addr = false.
Proof.
  unfold scan_control, dial_control. destruct (SplitHostPort address) as [[host port]|]; [|done]. destruct (ParseAddr host) as [addr|] eqn:Ha; [|done].
  destruct (IsBlockedAddr addr) eqn:Hb; [done|]. intros _. by exists host, port, addr.
Qed.

Lemma computeScore_bounds dns https auth hsts csp xfo redirect expires : 0 ≤ computeScore dns https auth hsts csp xfo redirect expires ≤ 100.
Proof. unfold computeScore. destruct dns, https, auth, hsts, csp, xfo, redirect, (0 <? expires), (expires <? 14); split; vm_compute; discriminate. Qed.

Section scan_theorems.
Context (LookupHost : string → bool) (fetch : string → string → result string probe_response) (Verify : string → Z → list Z → bool).
Context (now later : Z) (forwarders : option ForwarderReport).

Abbreviation scan := (ScanService LookupHost fetch Verify now later forwarders).

Lemma scan_fields service report :
  scan service = Some report →
  er_Score report = computeScore (er_DNSResolvable report) (er_HTTPSValid report) (er_AuthEnforced report) (er_HSTSPresent report) (er_CSPPresent report)
    (er_XFrameOptions report) (er_HTTPSRedirect report) (er_HTTPSExpiresIn report) ∧
  er_ServiceID report = s_ID service ∧ er_ID report = 0%N ∧ 0 ≤ er_HTTPSExpiresIn report.
Proof.
  unfold ScanService. destruct (_ || _); [done|]. cbv zeta. destruct (scan_do _ "GET" _) as [resp|e]; intros [= <-]; cbn; split_and!; try done; try lia.
  destruct (verifyTLSChain _ _ _); lia.
Qed.

(** The score of a scan is between 0 and 100, and 100 only for a service that resolves, redirects to https, has a valid certificate,
    sends the three headers and asks for a sign-in where it must. *)
Theorem scan_score service report :
  scan service = Some report →
  0 ≤ er_Score report ≤ 100 ∧
  (er_Score report = 100 → er_DNSResolvable report = true ∧ er_HTTPSValid report = true ∧ er_AuthEnforced report = true ∧ er_HSTSPresent report = true ∧
     er_CSPPresent report = true ∧ er_XFrameOptions report = true ∧ er_HTTPSRedirect report = true).
Proof.
  intros (-> & _)%scan_fields. split; [apply computeScore_bounds|]. unfold computeScore.
  destruct (er_DNSResolvable report), (er_HTTPSValid report), (er_AuthEnforced report), (er_HSTSPresent report), (er_CSPPresent report), (er_XFrameOptions report),
    (er_HTTPSRedirect report), (0 <? er_HTTPSExpiresIn report), (er_HTTPSExpiresIn report <? 14); vm_compute; done.
Qed.

Definition listed (x : string) (l : list string) : bool := existsb (String.eqb x) l.

Lemma listed_spec x l : x ∈ l ↔ listed x l = true.
Proof. unfold listed. rewrite existsb_exists. setoid_rewrite String.eqb_eq. rewrite list_elem_of_In. naive_solver. Qed.

Lemma listed_app x l k : listed x (l ++ k) = listed x l || listed x k.
Proof. apply existsb_app. Qed.

Lemma listed_if x (b : bool) y : listed x (if b then [y] else []) = b && String.eqb x y.
Proof. unfold listed. destruct b; cbn; [by rewrite orb_false_r|done]. Qed.

Lemma listed_if_not x (b : bool) y : listed x (if b then [] else [y]) = negb b && String.eqb x y.
Proof. unfold listed. destruct b; cbn; [done|by rewrite orb_false_r]. Qed.

Lemma listed_cons x y l : listed x (y :: l) = String.eqb x y || listed x l.
Proof. done. Qed.

Lemma listed_nil x : listed x [] = false.
Proof. done. Qed.

(** Reduces whether a name is in a list of conditional findings to the conditions. *)
Ltac listed_simpl :=
  repeat (rewrite ?listed_app, ?listed_cons, ?listed_if, ?listed_if_not, ?listed_nil);
  repeat match goal with
    | |- context [String.eqb (String ?a ?s) (String ?b ?t)] =>
        let v := eval vm_compute in (String.eqb (String a s) (String b t)) in change (String.eqb (String a s) (String b t)) with v
    end; rewrite ?andb_false_r, ?andb_true_r, ?orb_false_r; cbn [orb andb negb].

(** A scan says that sign-in is not enforced exactly for a service that is not public and answered with a status other than those of a
    refusal or a redirect; and that a forwarder is not trusted exactly when the current report has a finding for the host. *)
Theorem scan_findings service report :
  scan service = Some report →
  ("auth_not_enforced" ∈ er_Findings report ↔ s_AccessMode service ≠ AccessModePublic ∧
     ∃ resp, scan_do fetch "GET" ("https://" +:+ ServiceHost service +:+ s_Path service) = Ok resp ∧ sign_in_status (pr_Status resp) = false) ∧
  ("untrusted_forwarder" ∈ er_Findings report ↔ ∃ r f, forwarders = Some r ∧ f ∈ fr_Findings r ∧ ff_Host f = ToLower (TrimSpace (ServiceHost service))).
Proof.
  intros Hs. assert (untrustedForwarder forwarders (ServiceHost service) = true ↔
    ∃ r f, forwarders = Some r ∧ f ∈ fr_Findings r ∧ ff_Host f = ToLower (TrimSpace (ServiceHost service))) as Hu.
  { unfold untrustedForwarder. destruct forwarders as [r|]; [|naive_solver]. rewrite existsb_exists. setoid_rewrite String.eqb_eq.
    setoid_rewrite <-list_elem_of_In. naive_solver. }
  rewrite <-Hu, !listed_spec. clear Hu. revert Hs. unfold ScanService. destruct (_ || _); [done|]. cbv zeta.

  destruct (String.eqb_spec (s_AccessMode service) AccessModePublic) as [Hp|Hp]; (destruct (scan_do fetch "GET" _) as [resp|e]; intros [= <-]; cbn [er_Findings]).
  all: try destruct (sign_in_status (pr_Status resp)) eqn:Hc; try destruct (verifyTLSChain _ _ _); try destruct (_ <? 14); cbn [orb].
  all: listed_simpl; (split; [|tauto]).
  all: (split; [first [done|by intros _; split; [|exists resp]]|intros (? & r & ? & ?)]); first [done|congruence].
Qed.
End scan_theorems.

(** * The stored reports *)

Record reports_ok (st : exposure_store) : Prop := {
  ro_services : NoDup (er_ServiceID <$> es_rows st);
  ro_ids : NoDup (er_ID <$> es_rows st);
  ro_next : Forall (λ row, (er_ID row < es_next st)%N) (es_rows st);
}.

Lemma find_report st id row : reports_GetByServiceID st id = Some row → row ∈ es_rows st ∧ er_ServiceID row = id.
Proof. intros [Hin Hid%N.eqb_eq]%find_some. split; [by apply list_elem_of_In|done]. Qed.

(** A row of the table that has the service's id or the row's id is the row itself. *)
Lemma same_row {B} (f : ServiceExposureReport → B) rows r1 r2 : NoDup (f <$> rows) → r1 ∈ rows → r2 ∈ rows → f r1 = f r2 → r1 = r2.
Proof.
  induction rows as [|r rows IH]; [by intros _ ?%not_elem_of_nil|]. cbn. intros [Hn Hnd]%NoDup_cons. rewrite !elem_of_cons.
  intros [->|H1] [->|H2] Hf; [done| | |by apply IH].
  - exfalso. apply Hn. rewrite Hf. by apply list_elem_of_fmap_2.
  - exfalso. apply Hn. rewrite <-Hf. by apply list_elem_of_fmap_2.
Qed.

Lemma Upsert_ok works now report st : reports_ok st → reports_ok (reports_Upsert works now report st).2.
Proof.
  intros [Hs Hi Hn]. unfold reports_Upsert. destruct works; [|done]. cbn [negb].
  destruct (reports_GetByServiceID st (er_ServiceID report)) as [old|] eqn:Hold; cbn [snd].
  - apply find_report in Hold as [Hin Hid]. set (row := stamped _ _ _ _).
    assert (∀ {B} (f : ServiceExposureReport → B), f row = f old → f <$> (map (λ r, if N.eqb (er_ID r) (er_ID old) then row else r) (es_rows st)) = f <$> es_rows st) as Hmap.
    { intros B f Hf. setoid_rewrite map_map. apply map_ext_in. intros r Hr%list_elem_of_In.
      destruct (N.eqb_spec (er_ID r) (er_ID old)) as [He|]; [|done]. by rewrite (same_row er_ID _ r old Hi Hr Hin He). }
    constructor; cbn [es_rows es_next]; rewrite ?(Hmap _ er_ServiceID), ?(Hmap _ er_ID) by (done || by rewrite Hid); [done|done|].
    apply Forall_map. eapply Forall_impl; [exact Hn|]. intros r Hr. cbn. destruct (N.eqb_spec (er_ID r) (er_ID old)) as [He|]; [|done]. cbn. by rewrite <-He.
  - constructor; cbn [es_rows es_next]; rewrite ?fmap_app; cbn.
    + apply NoDup_app. split_and!; [done| |apply NoDup_singleton]. intros x Hx ->%list_elem_of_singleton. apply list_elem_of_fmap in Hx as (r & Hr & Hin).
      unfold reports_GetByServiceID in Hold. eapply find_none in Hold; [|by apply list_elem_of_In]. cbn in Hold. by rewrite Hr, N.eqb_refl in Hold.
    + apply NoDup_app. split_and!; [done| |apply NoDup_singleton]. intros x Hx ->%list_elem_of_singleton. apply list_elem_of_fmap in Hx as (r & Hr & Hin).
      rewrite Forall_forall in Hn. specialize (Hn r Hin). lia.
    + apply Forall_app. split; [eapply Forall_impl; [exact Hn|]; cbn; lia|]. apply Forall_singleton. cbn. lia.
Qed.

Lemma filter_fmap_NoDup {B} (f : ServiceExposureReport → B) p rows : NoDup (f <$> rows) → NoDup (f <$> List.filter p rows).
Proof.
  induction rows as [|r rows IH]; [done|]. cbn. intros [Hn Hnd]%NoDup_cons. destruct (p r); [|by apply IH]. cbn. apply NoDup_cons. split; [|by apply IH].
  intros (x & Hx & Hin)%list_elem_of_fmap. apply Hn, list_elem_of_fmap. exists x. split; [done|]. apply list_elem_of_In, filter_In in Hin as [Hin _]. by apply list_elem_of_In.
Qed.

Lemma Delete_ok id st : reports_ok st → reports_ok (reports_DeleteByServiceID id st).
Proof.
  intros [Hs Hi Hn]. constructor; cbn; [by apply filter_fmap_NoDup|by apply filter_fmap_NoDup|]. rewrite Forall_forall in Hn |- *.
  intros r Hr. apply Hn. apply list_elem_of_In, filter_In in Hr as [Hr _]. by apply list_elem_of_In.
Qed.

Lemma get_report st row : reports_ok st → row ∈ es_rows st → reports_GetByServiceID st (er_ServiceID row) = Some row.
Proof.
  intros [Hs _ _] Hin. destruct (reports_GetByServiceID st (er_ServiceID row)) as [r|] eqn:Hf.
  - apply find_report in Hf as [Hr Hid]. f_equal. by eapply (same_row er_ServiceID).
  - eapply find_none in Hf; [|by apply list_elem_of_In]. cbn in Hf. by rewrite N.eqb_refl in Hf.
Qed.

Lemma get_report_same st st' id :
  reports_ok st → reports_ok st' → (∀ row, er_ServiceID row = id → row ∈ es_rows st' ↔ row ∈ es_rows st) →
  reports_GetByServiceID st' id = reports_GetByServiceID st id.
Proof.
  intros Hok Hok' Hsame. destruct (reports_GetByServiceID st id) as [row|] eqn:Hf.
  - apply find_report in Hf as [Hin <-]. apply get_report; [done|]. by apply Hsame.
  - destruct (reports_GetByServiceID st' id) as [row|] eqn:Hf'; [|done]. apply find_report in Hf' as [Hin Hid]. apply Hsame in Hin; [|done].
    apply (get_report st row Hok) in Hin. congruence.
Qed.

Lemma Upsert_rows now report st r :
  reports_ok st → er_ServiceID r ≠ er_ServiceID report → r ∈ es_rows (reports_Upsert true now report st).2 ↔ r ∈ es_rows st.
Proof.
  intros [Hs Hi Hn] Hne. unfold reports_Upsert. cbn [negb]. destruct (reports_GetByServiceID _ _) as [old|] eqn:Hold; cbn [snd es_rows].
  - apply find_report in Hold as [Hin Hid]. setoid_rewrite list_elem_of_fmap. split.
    + intros (x & Hx & Hxin). destruct (N.eqb_spec (er_ID x) (er_ID old)); [|by subst]. subst r. by cbn in Hne.
    + intros Hr. exists r. split; [|done]. destruct (N.eqb_spec (er_ID r) (er_ID old)) as [He|]; [|done].
      exfalso. apply Hne. by rewrite (same_row er_ID _ r old Hi Hr Hin He).
  - rewrite elem_of_app, list_elem_of_singleton. split; [intros [?| ->]; [done|by cbn in Hne]|by left].
Qed.

Lemma Upsert_row now report st : ∃ row, (reports_Upsert true now report st).1 = Some row ∧ row ∈ es_rows (reports_Upsert true now report st).2 ∧ 
  er_ServiceID row = er_ServiceID report ∧ er_Score row = er_Score report ∧ er_Findings row = er_Findings report.
Proof.
  unfold reports_Upsert. cbn [negb]. destruct (reports_GetByServiceID _ _) as [old|] eqn:Hold; cbn [fst snd es_rows].
  - apply find_report in Hold as [Hin Hid]. eexists. split; [done|]. split_and!; [|done..]. setoid_rewrite list_elem_of_fmap. exists old. by rewrite N.eqb_refl.
  - eexists. split; [done|]. split_and!; [|done..]. apply elem_of_app. right. by apply list_elem_of_singleton.
Qed.

(** The table has one report for a service however scans and deletions come; storing a report makes it the one of its service and
    leaves the others alone. *)
Theorem stored_report_is_latest now report st id :
  reports_ok st →
  let '(stored, st') := reports_Upsert true now report st in
  reports_ok st' ∧ (∀ works, reports_ok (reports_Upsert works now report st).2) ∧ reports_ok (reports_DeleteByServiceID id st) ∧
  (∃ row, stored = Some row ∧ reports_GetByServiceID st' (er_ServiceID report) = Some row ∧ er_Score row = er_Score report ∧ er_Findings row = er_Findings report) ∧
  (id ≠ er_ServiceID report → reports_GetByServiceID st' id = reports_GetByServiceID st id).
Proof.
  intros Hok. pose proof (Upsert_ok true now report st Hok) as Hok'. destruct (Upsert_row now report st) as (row & Hrow & Hin & Hid & Hsc & Hf).
  pose proof (λ r, Upsert_rows now report st r Hok) as Hrows. destruct (reports_Upsert true now report st) as [stored st'] eqn:Hu. cbn [fst snd] in *.
  split_and!; [done|by intros works; apply Upsert_ok|by apply Delete_ok| |].
  - exists row. split_and!; [done| |done|done]. rewrite <-Hid. by apply get_report.
  - intros Hne. apply get_report_same; [done|done|]. intros r Hr. apply Hrows. by rewrite Hr.
Qed.

(** A round of the scanner keeps the table in order. *)
Theorem scan_round_keeps_reports now scan works services st : reports_ok st → reports_ok (scanner_RunOnce now scan works services st).
Proof.
  intros Hok. unfold scanner_RunOnce. destruct services as [services|]; [|done]. revert st Hok. induction services as [|s l IH]; intros st Hok; [done|]. cbn [foldl].
  apply IH. destruct (scan s) as [report|]; [by apply Upsert_ok|done].
Qed.

(** A round that listed a service before it was deleted stores a report for it again, which nothing deletes. *)
Theorem deleted_service_reported now scan service report st :
  scan service = Some report → er_ServiceID report = s_ID service → reports_ok st →
  is_Some (reports_GetByServiceID (scanner_RunOnce now scan (λ _, true) (Some [service]) (reports_DeleteByServiceID (s_ID service) st)) (s_ID service)).
Proof.
  intros Hscan Hid Hok. unfold scanner_RunOnce. cbn [foldl]. rewrite Hscan. set (st1 := reports_DeleteByServiceID (s_ID service) st). assert (reports_ok st1) as Hok1 by by apply Delete_ok.
  destruct (Upsert_row now report st1) as (row & _ & Hin & Hrow & _). rewrite <-Hid, <-Hrow. exists row. apply get_report; [by apply Upsert_ok|done].
Qed.

(** * Witnesses *)

Definition sample_probe (left : Z) : string → string → result string probe_response := λ method _,
  if String.eqb method "HEAD"
  then Ok {| pr_Status := 301; pr_Header := λ name, if String.eqb name "Location" then "https://app.example.com/" else ""; pr_PeerCertificates := [] |}
  else Ok {| pr_Status := 302; pr_Header := λ _, "set"; pr_PeerCertificates := [left] |}.

Definition sample_scan (left : Z) : option ServiceExposureReport :=
  ScanService (λ _, true) (sample_probe left) (λ _ _ _, true) 0 0 None (sample_service 1 "app" "/").

(** A certificate with less than a day left costs nothing, one with a day or more costs ten points. *)
Theorem last_day_scores_full :
  (er_Score <$> sample_scan (23 * Hour)) = Some 100 ∧ (er_Findings <$> sample_scan (23 * Hour)) = Some ["https_expiring_soon"] ∧
  (er_Score <$> sample_scan (25 * Hour)) = Some 90.
Proof. vm_compute. done. Qed.

Lemma scan_score_witness :
  ∃ report, sample_scan (40 * 24 * Hour) = Some report ∧ 0 ≤ er_Score report ≤ 100 ∧
    (er_Score report = 100 → er_DNSResolvable report = true ∧ er_HTTPSValid report = true ∧ er_AuthEnforced report = true ∧ er_HSTSPresent report = true ∧
       er_CSPPresent report = true ∧ er_XFrameOptions report = true ∧ er_HTTPSRedirect report = true).
Proof.
  destruct (sample_scan (40 * 24 * Hour)) as [report|] eqn:Hs; [|vm_compute in Hs; discriminate Hs]. exists report. split; [reflexivity|].
  exact (scan_score _ _ _ _ _ _ _ _ Hs).
Defined.

Definition sample_observation (peer : Z) (header : string) : observation :=
  {| ob_host := "app.example.com"; ob_peer := Addr4 peer; ob_trusted := false; ob_header := header |}.

(** Twenty requests with the header from one network among a hundred. *)
Definition sample_window : list observation :=
  replicate 20 (sample_observation 3221225985 "X-Forwarded-For") ++ replicate 80 (sample_observation 3325256704 "").

Lemma forwarder_report_exact_witness :
  ∃ f, f ∈ fr_Findings (rotate_window (λ l, l) 10 (foldl observe_one (reset 0 (newForwarderDetector 0)) sample_window)).1 ∧
    ff_Host f = "app.example.com" ∧ ff_Prefix f = "192.0.2.0/24".
Proof.
  apply (proj2 (forwarder_report_exact (λ l, l) 0 10 (newForwarderDetector 0) sample_window (λ l, Permutation_refl l))
    ltac:(apply Nat.leb_le; vm_compute; reflexivity) ltac:(apply Nat.leb_le; vm_compute; reflexivity) "app.example.com" (mkPrefix (Addr4 3221225984) 24)); vm_compute; discriminate.
Defined.

Lemma deleted_service_reported_witness :
  is_Some (reports_GetByServiceID (scanner_RunOnce 0 (λ _, sample_scan Hour) (λ _, true) (Some [sample_service 1 "app" "/"])
    (reports_DeleteByServiceID 1 {| es_next := 1; es_rows := [] |})) 1).
Proof.
  destruct (sample_scan Hour) as [report|] eqn:Hs; [|vm_compute in Hs; discriminate Hs].
  apply (deleted_service_reported 0 (λ _, Some report) (sample_service 1 "app" "/") report {| es_next := 1; es_rows := [] |}); [reflexivity| |].
  - vm_compute in Hs. injection Hs as <-. reflexivity.
  - constructor; constructor.
Defined.
