(* ===== verification/SignIn.v ===== *)
(** The handlers of the console that sign people in and out (http/auth.go, http/break_glass.go, http/mfa.go, http/sessions.go,
    http/magic_link.go and handleLogin of http/server.go), over the authentication service of Sessions.v and Login.v.

    A handler answers with a reply, the cookies it sets and the state it leaves; what it writes to the audit log is left out.
    Requests arrive decoded and validated.  The handler of break-glass logins checks its token in one critical section and marks it used in
    another, with the login between them: [validateBreakGlassRequest] and [break_glass_finish]. *)
From S2P Require Import Prelude GoStrings Utf8Json Netip Domain Hosts Routing Requests RateLimit SecretBox.
From S2P Require Import Handler AuthStore AuthHistory AuthCache Tokens Sessions LoginCodes Login LoginSafety ApiGuard UserAdmin Explain.

#[local] Open Scope string_scope.
#[local] Open Scope list_scope.

(** * Definitions *)

(** What the handlers read of the server's configuration. *)
Record server_config := {
  sv_TrustedProxyCIDRs : list string; sv_ExposeAuthTokens : bool; sv_AllowInsecureDevMode : bool; sv_BreakGlassAllowCIDRs : list string;
}.

(** The random values of a request. *)
Record random_values := { rv_TokenID : string; rv_Refresh : string; rv_Challenge : string; rv_Code : string }.

Inductive login_body :=
| LoginBody (token : string) (user : User) (bootstrap : bool)
| MFABody (mfaToken : string) (expiresAt : Z) (user : User).

Inductive otp_body := OTPIssued (result : OTPRequestResult) | OTPMaybe (message : string).

Record breakGlassState := { bg_enabled : bool; bg_token : string; bg_expiresAt : Z; bg_used : bool }.
Record breakGlassLoginRequest := { bl_Email : string; bl_Password : string; bl_Token : string }.

Abbreviation answered X := (api_reply X * list Cookie * auth_state)%type.

Definition auth_store_error {X} (e : auth_error) : api_reply X := match e with ErrNotFound => not_found | _ => internalError end.

Section handlers.
Context `{JWT} `{Primitives}.
Variable hashToken : string → string.
Variable hmac_sha1 : string → string → string.
Variable base32_Decode : string → option string.
Variable bcrypt_Compare : string → string → bool.
Variable otpauth_url : string → string → string → string.
Variable mail_Send : string → string → bool.
Variable Sum256 : string → string.
Variable cfg : AuthConfig.
Variable mfaEncryptionSecret : string.
Variable keys : key_cache.
Variable srv : server_config.

Definition requestMeta (r : Request) : RequestMetadata :=
  {| m_RemoteAddr := clientIPForRequest (sv_TrustedProxyCIDRs srv) r; m_UserAgent := HGet (r_Header r) "User-Agent" |}.

Definition secure_request (r : Request) : bool := requestSecure (sv_TrustedProxyCIDRs srv) r.

(** ** Cookies *)

Definition SetSessionCookie (token : string) (secure : bool) : Cookie :=
  {| ck_Name := SessionCookieName; ck_Value := token; ck_Domain := ""; ck_Secure := secure; ck_MaxAge := max_age (tokenTTL cfg) |}.

Definition SetRefreshCookie (token : string) (secure : bool) : list Cookie :=
  if negb (non_empty (TrimSpace token)) then []
  else [{| ck_Name := RefreshCookieName; ck_Value := token; ck_Domain := ""; ck_Secure := secure; ck_MaxAge := max_age (refreshTokenTTL cfg) |}].

Definition ClearSessionCookie (secure : bool) : Cookie :=
  {| ck_Name := SessionCookieName; ck_Value := ""; ck_Domain := ""; ck_Secure := secure; ck_MaxAge := -1 |}.
Definition ClearRefreshCookie (secure : bool) : Cookie :=
  {| ck_Name := RefreshCookieName; ck_Value := ""; ck_Domain := ""; ck_Secure := secure; ck_MaxAge := -1 |}.

Definition signed_in_cookies (r : Request) (result : LoginResult) : list Cookie :=
  SetSessionCookie (lr_Token result) (secure_request r) :: SetRefreshCookie (lr_RefreshToken result) (secure_request r).

Definition cleared_cookies (r : Request) : list Cookie := [ClearSessionCookie (secure_request r); ClearRefreshCookie (secure_request r)].

Definition SessionTokenFromRequest (r : Request) : string :=
  match RCookie (r_Header r) SessionCookieName with
  | Some v => if non_empty (TrimSpace v) then TrimSpace v else TrimSpace (bearerTokenFromHeader (HGet (r_Header r) "Authorization"))
  | None => TrimSpace (bearerTokenFromHeader (HGet (r_Header r) "Authorization"))
  end.

Definition RefreshTokenFromRequest (r : Request) : string :=
  match RCookie (r_Header r) RefreshCookieName with
  | Some v => if non_empty (TrimSpace v) then TrimSpace v else TrimSpace (bearerTokenFromHeader (HGet (r_Header r) "X-Refresh-Token"))
  | None => TrimSpace (bearerTokenFromHeader (HGet (r_Header r) "X-Refresh-Token"))
  end.

(** ** Logins *)

Definition responseAuthToken (token : string) : string :=
  if sv_ExposeAuthTokens srv || sv_AllowInsecureDevMode srv then token else "".

Definition writeLoginResult (r : Request) (result : LoginResult) : api_reply login_body * list Cookie :=
  if lr_MFARequired result then (Answer (MFABody (lr_MFAToken result) (lr_MFAExpiresAt result) (lr_User result)), [])
  else (Answer (LoginBody (responseAuthToken (lr_Token result)) (lr_User result) (lr_BootstrapRequired result)), signed_in_cookies r result).

(** A login of the service and what its errors are answered with. *)
Definition login_handler (r : Request) (login : auth LoginResult) (refused : auth_error → api_reply login_body) (st : auth_state) : answered login_body :=
  match login st with
  | (Ok result, st) => (writeLoginResult r result, st)
  | (Err e, st) => (refused e, [], st)
  end.

Definition login_errors (e : auth_error) : api_reply login_body :=
  match e with
  | ErrInvalidCredentials => ApiError 401 "invalid_credentials" "invalid email or password"
  | ErrLocalLoginDisabled => ApiError 403 "local_login_disabled" "password login is disabled; sign in with SSO"
  | ErrRateLimited => ApiError 429 "rate_limited" "too many login attempts"
  | ErrInactiveUser => ApiError 403 "inactive_user" "user account is inactive"
  | ErrMFASetupRequired => ApiError 403 "mfa_setup_required" "admin mfa is required before this account can sign in"
  | _ => internalError
  end.

Definition handleLogin (now : Z) (v : random_values) (email password : string) (r : Request) (st : auth_state) : answered login_body :=
  login_handler r (Login hashToken bcrypt_Compare cfg now email password (requestMeta r) (rv_TokenID v) (rv_Refresh v) (rv_Challenge v)) login_errors st.

Definition verify_otp_errors (e : auth_error) : api_reply login_body :=
  match e with
  | ErrOTPDisabled => ApiError 404 "otp_disabled" "otp login is disabled"
  | ErrRateLimited => ApiError 429 "rate_limited" "too many verification attempts"
  | ErrOTPExpired => ApiError 401 "otp_expired" "otp code expired"
  | ErrOTPUsed => ApiError 401 "otp_used" "otp code was already used"
  | ErrInactiveUser => ApiError 403 "inactive_user" "user account is inactive"
  | ErrMFASetupRequired => ApiError 403 "mfa_setup_required" "admin mfa is required before this account can sign in"
  | ErrInvalidCredentials => ApiError 401 "invalid_otp" "invalid email or otp code"
  | _ => internalError
  end.

Definition handleVerifyOTP (now : Z) (v : random_values) (email token : string) (r : Request) (st : auth_state) : answered login_body :=
  login_handler r (VerifyOTP hashToken cfg now email token (requestMeta r) (rv_TokenID v) (rv_Refresh v) (rv_Challenge v)) verify_otp_errors st.

Definition verify_mfa_errors (e : auth_error) : api_reply login_body :=
  match e with
  | ErrInvalidToken => ApiError 401 "invalid_mfa_token" "mfa challenge is invalid or expired"
  | ErrMFACodeInvalid => ApiError 401 "invalid_mfa_code" "invalid authenticator or recovery code"
  | ErrRateLimited => ApiError 429 "rate_limited" "too many attempts, please start a new login"
  | ErrInactiveUser => ApiError 401 "invalid_mfa_token" "mfa challenge is invalid or expired"
  | _ => internalError
  end.

Definition handleVerifyMFA (now : Z) (v : random_values) (mfaToken code : string) (r : Request) (st : auth_state) : answered login_body :=
  login_handler r (CompleteMFA hashToken hmac_sha1 base32_Decode cfg mfaEncryptionSecret keys now mfaToken code (requestMeta r) (rv_TokenID v) (rv_Refresh v))
    verify_mfa_errors st.

Definition handleRequestOTP (now : Z) (v : random_values) (email : string) (r : Request) (st : auth_state) : api_reply otp_body * auth_state :=
  match RequestOTP hashToken mail_Send cfg now email (requestMeta r) (rv_Code v) st with
  | (Ok result, st) => (Answer (OTPIssued result), st)
  | (Err e, st) =>
      (match e with
       | ErrOTPDisabled => ApiError 404 "otp_disabled" "otp login is disabled"
       | ErrSMTPNotConfigured => ApiError 409 "smtp_not_configured" "smtp is not configured for otp delivery"
       | ErrSMTPDeliveryFailed => ApiError 502 "smtp_delivery_failed" "otp email could not be delivered"
       | ErrNotFound | ErrInactiveUser | ErrRateLimited => Answer (OTPMaybe "if the account exists, a code has been issued")
       | _ => internalError
       end, st)
  end.

Definition refresh_errors (e : auth_error) : api_reply login_body :=
  match e with
  | ErrSessionRevoked | ErrRefreshExpired | ErrInvalidToken => ApiError 401 "invalid_refresh_token" "refresh token is invalid or expired"
  | _ => internalError
  end.

Definition handleRefreshSession (now : Z) (v : random_values) (r : Request) (st : auth_state) : answered login_body :=
  let refreshToken := RefreshTokenFromRequest r in
  if negb (non_empty refreshToken) then (ApiError 401 "unauthorized" "missing refresh token", [], st)
  else
    match RefreshSession hashToken cfg now refreshToken (requestMeta r) (rv_TokenID v) (rv_Refresh v) st with
    | (Ok result, st) => (Answer (LoginBody (responseAuthToken (lr_Token result)) (lr_User result) false), signed_in_cookies r result, st)
    | (Err e, st) => (refresh_errors e, [], st)
    end.

Definition handleLogoutSession (now : Z) (r : Request) (st : auth_state) : answered unit :=
  let token := SessionTokenFromRequest r in
  let st :=
    if non_empty token then
      match ParseToken cfg now token with
      | Some claims => if negb (N.eqb (k_SessionID claims) 0) then (RevokeSession now (k_UserID claims) (k_SessionID claims) st).2 else st
      | None => st
      end
    else st in
  (Answer tt, cleared_cookies r, st).

(** ** Break-glass logins *)

(** [time.Time{}]. *)
Definition no_expiry : Z := (-62135596800 * Second)%Z.

Definition newBreakGlassState (now : Z) (enabled : bool) (token : string) (ttl : Z) : breakGlassState :=
  {| bg_enabled := enabled; bg_token := TrimSpace token; bg_expiresAt := (now + ttl)%Z; bg_used := false |}.

Definition breakGlassAllowedSource (r : Request) : bool :=
  if negb (requestFromTrustedProxy (sv_TrustedProxyCIDRs srv) r) &&
     (non_empty (TrimSpace (HGet (r_Header r) "X-Forwarded-For")) || non_empty (TrimSpace (HGet (r_Header r) "X-Real-Ip"))) then false
  else
    match ParseAddr (clientIPForRequest (sv_TrustedProxyCIDRs srv) r) with
    | None => false
    | Some addr => existsb (λ raw, match ParsePrefix (TrimSpace raw) with Some prefix => PrefixContains prefix addr | None => false end) (sv_BreakGlassAllowCIDRs srv)
    end.

Definition breakGlassValidToken (now : Z) (token : string) (bg : breakGlassState) : bool :=
  if negb (bg_enabled bg) || bg_used bg || negb (non_empty (TrimSpace (bg_token bg))) then false
  else if negb (bg_expiresAt bg =? no_expiry)%Z && (bg_expiresAt bg <? now)%Z then false
  else String.eqb (Sum256 (TrimSpace token)) (Sum256 (TrimSpace (bg_token bg))).

Definition validateBreakGlassRequest (now : Z) (r : Request) (token : string) (bg : breakGlassState) : option (api_reply login_body) :=
  if negb (bg_enabled bg) then Some (ApiError 404 "break_glass_disabled" "break-glass login is disabled")
  else if negb (breakGlassAllowedSource r) then Some (ApiError 403 "break_glass_forbidden_source" "break-glass login is not allowed from this source")
  else if negb (secure_request r) && negb (sv_AllowInsecureDevMode srv) then Some (ApiError 426 "insecure_transport" "break-glass login requires secure transport")
  else if negb (breakGlassValidToken now token bg) then Some (ApiError 401 "invalid_break_glass_token" "break-glass token is invalid or expired")
  else None.

Definition consumeBreakGlassToken (bg : breakGlassState) : breakGlassState :=
  {| bg_enabled := bg_enabled bg; bg_token := ""; bg_expiresAt := bg_expiresAt bg; bg_used := true |}.

Definition break_glass_errors (e : auth_error) : api_reply login_body :=
  match e with
  | ErrRateLimited => ApiError 429 "rate_limited" "too many break-glass attempts"
  | ErrInactiveUser => ApiError 403 "inactive_user" "user account is inactive"
  | ErrBreakGlassRejected => ApiError 403 "break_glass_rejected" "break-glass is restricted to local admin accounts"
  | ErrInvalidCredentials => ApiError 401 "invalid_credentials" "invalid email or password"
  | _ => internalError
  end.

Definition break_glass_finish (now : Z) (v : random_values) (req : breakGlassLoginRequest) (r : Request) (bg : breakGlassState) (st : auth_state)
    : api_reply login_body * list Cookie * breakGlassState * auth_state :=
  match LoginBreakGlass hashToken bcrypt_Compare cfg now (bl_Email req) (bl_Password req) (requestMeta r) (rv_TokenID v) (rv_Refresh v) st with
  | (Ok result, st) => (writeLoginResult r result, consumeBreakGlassToken bg, st)
  | (Err e, st) => (break_glass_errors e, [], bg, st)
  end.

Definition handleBreakGlassLogin (now : Z) (v : random_values) (req : breakGlassLoginRequest) (r : Request) (bg : breakGlassState) (st : auth_state)
    : api_reply login_body * list Cookie * breakGlassState * auth_state :=
  match validateBreakGlassRequest now r (bl_Token req) bg with
  | Some refusal => (refusal, [], bg, st)
  | None => break_glass_finish now v req r bg st
  end.

(** ** Sessions *)

(** Of the signed-in user; [sessionID] from the path. *)
Definition handleRevokeMySession (now : Z) (user : User) (sessionID : N) (r : Request) (st : auth_state) : answered Z :=
  match RevokeSession now (u_ID user) sessionID st with
  | (Err e, st) => (auth_store_error e, [], st)
  | (Ok _, st) =>
      let own := match ParseToken cfg now (SessionTokenFromRequest r) with Some claims => N.eqb (k_SessionID claims) sessionID | None => false end in
      (Answer now, if own then cleared_cookies r else [], st)
  end.

Definition handleRevokeAllMySessions (now : Z) (user : User) (r : Request) (st : auth_state) : answered unit :=
  match RevokeAllUserSessions now (u_ID user) st with
  | (Err _, st) => (internalError, [], st)
  | (Ok _, st) => (Answer tt, cleared_cookies r, st)
  end.

Definition handleRevokeUserSession (now : Z) (userID sessionID : N) (st : auth_state) : answered unit :=
  match RevokeSession now userID sessionID st with
  | (Err e, st) => (auth_store_error e, [], st)
  | (Ok _, st) => (Answer tt, [], st)
  end.

Definition handleRevokeAllUserSessions (now : Z) (userID : N) (st : auth_state) : answered unit :=
  match RevokeAllUserSessions now userID st with
  | (Err _, st) => (internalError, [], st)
  | (Ok _, st) => (Answer tt, [], st)
  end.

(** ** The second factor of the signed-in user *)

Definition mfa_errors {X} (message : string) (e : auth_error) : api_reply X :=
  match e with ErrMFACodeInvalid => ApiError 401 "invalid_mfa_code" message | _ => internalError end.

Definition mfa_handler {X} (message : string) (op : auth X) (st : auth_state) : answered X :=
  match op st with
  | (Ok x, st) => (Answer x, [], st)
  | (Err e, st) => (mfa_errors message e, [], st)
  end.

Definition handleEnableMyMFA (now : Z) (user : User) (current : option Session) (code : string) : auth_state → answered MFAStatus :=
  mfa_handler "invalid authenticator code" (EnableTOTP hmac_sha1 base32_Decode cfg mfaEncryptionSecret keys now (u_ID user) code current).

Definition handleDisableMyMFA (now : Z) (user : User) (code : string) : auth_state → answered MFAStatus :=
  mfa_handler "invalid authenticator or recovery code" (DisableMFA hashToken hmac_sha1 base32_Decode cfg mfaEncryptionSecret keys now (u_ID user) code).

Definition handleRegenerateMyRecoveryCodes (now : Z) (user : User) (code : string) (values : list string) : auth_state → answered (list string) :=
  mfa_handler "invalid authenticator or recovery code"
    (RegenerateRecoveryCodes hashToken hmac_sha1 base32_Decode mfaEncryptionSecret keys now (u_ID user) code values).

Definition handleBeginMyMFASetup (user : User) (secret : string) (values : list string) (salt nonce : string) (st : auth_state) : answered MFASetup :=
  match BeginTOTPSetup hashToken otpauth_url cfg mfaEncryptionSecret keys (u_ID user) secret values salt nonce st with
  | (Ok x, st) => (Answer x, [], st)
  | (Err _, st) => (internalError, [], st)
  end.

Definition handleResetUserMFA (now : Z) (userID : N) (st : auth_state) : answered unit :=
  match users_GetByID st userID with
  | Err e => (auth_store_error e, [], st)
  | Ok user =>
      match ResetUserMFA now (u_ID user) st with
      | (Err _, st) => (internalError, [], st)
      | (Ok _, st) => (Answer tt, [], st)
      end
  end.

(** ** Magic links *)

Record issueMagicLinkRequest := { im_TTLSeconds : option Z; im_Label : option string }.
Record issueMagicLinkResponse := { ir_URL : string; ir_Token : string; ir_ExpiresAt : Z }.

(** [intToString] of a number that is not negative. *)
Definition intToString (v : N) : option string := if (v =? 0)%N then Some "0" else format_loop 20 v "".

(** [service] is what the store has under the id of the path; a body that does not decode counts as empty. *)
Definition handleIssueMagicLink (now : Z) (service : option Service) (req : issueMagicLinkRequest) (token : string) (r : Request) (st : auth_state)
    : api_reply issueMagicLinkResponse * auth_state :=
  match service with
  | None => (auth_store_error ErrNotFound, st)
  | Some service =>
      if IsWildcardHost (ServiceHost service) then (ApiError 400 "wildcard_service" "magic links need a service with a fixed hostname", st)
      else
        let ttl := match im_TTLSeconds req with Some n => if (0 <? n)%Z then (n * Second)%Z else (2 * Hour)%Z | None => (2 * Hour)%Z end in
        match IssueMagicLink hashToken now (s_ID service) ttl (requestMeta r) (default "" (im_Label req)) token st with
        | (Err _, st) => (internalError, st)
        | (Ok result, st) =>
            let scheme := if sv_AllowInsecureDevMode srv then "http" else "https" in
            (Answer {| ir_URL := scheme +:+ "://" +:+ ServiceHost service +:+ "/_portlyn/magic/" +:+ ml_Token result +:+ "?service=" +:+ default "" (intToString (s_ID service));
                       ir_Token := ml_Token result; ir_ExpiresAt := ml_ExpiresAt result |}, st)
        end
  end.
End handlers.

(** * Theorems *)

Section theorems.
Context `{JWT} `{Primitives} (hashToken : string → string) (hmac_sha1 : string → string → string) (base32_Decode : string → option string)
  (bcrypt_Compare : string → string → bool) (mail_Send : string → string → bool) (Sum256 : string → string) (cfg : AuthConfig)
  (mfaEncryptionSecret : string) (keys : key_cache) (srv : server_config).

Lemma LoginBreakGlass_checks now email password meta tid rt st res st' :
  LoginBreakGlass hashToken bcrypt_Compare cfg now email password meta tid rt st = (Ok res, st') →
  ∃ user l, users_GetByEmail st (ToLower (TrimSpace email)) = Ok user ∧ u_Role user = RoleAdmin ∧ u_AuthProvider user = AuthProviderLocal ∧
    u_Active user = true ∧ bcrypt_Compare (u_PasswordHash user) password = true ∧
    completeSuccessfulLogin hashToken cfg now user meta tid rt (with_limiter st l) = (Ok res, st').
Proof.
  intros Ha. unfold LoginBreakGlass in Ha. cbv zeta in Ha. apply auth_bind_Ok in Ha as (lim & ? & Hl & Ha).
  apply rate_limited_any_Ok in Hl as (b & l & _ & ->). auth_inv Ha. destruct_bools.
  match goal with Hx : CheckPassword _ (u_PasswordHash ?u) _ = true |- _ => exists u, l; unfold CheckPassword in Hx; apply andb_true_iff in Hx as [_ Hx] end.
  match goal with Hx : String.eqb (u_Role _) _ = true |- _ => apply String.eqb_eq in Hx end.
  match goal with Hx : String.eqb (u_AuthProvider _) _ = true |- _ => apply String.eqb_eq in Hx end.
  by split_and!.
Qed.

Lemma allowed_source r :
  breakGlassAllowedSource srv r = true →
  (∃ addr raw prefix, ParseAddr (clientIPForRequest (sv_TrustedProxyCIDRs srv) r) = Some addr ∧ raw ∈ sv_BreakGlassAllowCIDRs srv ∧
     ParsePrefix (TrimSpace raw) = Some prefix ∧ PrefixContains prefix addr = true) ∧
  (requestFromTrustedProxy (sv_TrustedProxyCIDRs srv) r = false →
     TrimSpace (HGet (r_Header r) "X-Forwarded-For") = "" ∧ TrimSpace (HGet (r_Header r) "X-Real-Ip") = "").
Proof.
  unfold breakGlassAllowedSource. intros Hs. split.
  - destruct (_ && _); [done|]. destruct (ParseAddr _) as [addr|]; [|done]. apply existsb_exists in Hs as (raw & Hraw & Hs). apply list_elem_of_In in Hraw.
    destruct (ParsePrefix (TrimSpace raw)) as [prefix|] eqn:Hp; [|done]. by exists addr, raw, prefix.
  - intros Ht. rewrite Ht in Hs. cbn [negb andb] in Hs. destruct (non_empty _ || non_empty _) eqn:Hh; [done|]. apply orb_false_iff in Hh as [H1 H2].
    split; [by destruct (TrimSpace (HGet _ "X-Forwarded-For"))|by destruct (TrimSpace (HGet _ "X-Real-Ip"))].
Qed.

Lemma refusal_error now r token bg refusal :
  validateBreakGlassRequest Sum256 srv now r token bg = Some refusal → ∃ status code message, refusal = ApiError status code message.
Proof.
  unfold validateBreakGlassRequest. intros Hv.
  repeat match type of Hv with (if ?b then _ else _) = _ => destruct b; [injection Hv as <-; by eauto|] end. done.
Qed.

Abbreviation break_glass := (handleBreakGlassLogin hashToken bcrypt_Compare Sum256 cfg srv).

Lemma used_token_refused now v req r bg st : bg_used bg = true → ∃ status code message, break_glass now v req r bg st = (ApiError status code message, [], bg, st).
Proof.
  intros Hu. unfold handleBreakGlassLogin. destruct (validateBreakGlassRequest _ _ _ _ _ _) as [refusal|] eqn:Hv.
  - apply refusal_error in Hv as (status & code & message & ->). by exists status, code, message.
  - exfalso. unfold validateBreakGlassRequest in Hv. assert (breakGlassValidToken Sum256 now (bl_Token req) bg = false) as Ht.
    { unfold breakGlassValidToken. by rewrite Hu, orb_true_r. }
    rewrite Ht in Hv. cbn [negb] in Hv. repeat match type of Hv with (if ?b then _ else _) = _ => destruct b; [done|] end. done.
Qed.


(** ** Cookies and bodies *)

(** The handlers set a session cookie only for a login that needs no second factor, and then the one of the session it created; the
    body repeats the token only where the configuration asks for it. *)
Theorem login_reply_tokens r login refused st reply cookies st' :
  (∀ e, ∃ status code message, refused e = ApiError status code message) →
  login_handler cfg srv r login refused st = (reply, cookies, st') →
  (cookies ≠ [] → ∃ result, login st = (Ok result, st') ∧ lr_MFARequired result = false ∧ cookies = signed_in_cookies cfg srv r result) ∧
  (∀ token user bootstrap, reply = Answer (LoginBody token user bootstrap) → sv_ExposeAuthTokens srv = false → sv_AllowInsecureDevMode srv = false → token = "").
Proof.
  intros Href. unfold login_handler, writeLoginResult. destruct (login st) as [[result|e] st1].
  - destruct (lr_MFARequired result) eqn:Hm; intros [= <- <- <-]; (split; [intros Hc; try done; by exists result|]); intros token user bootstrap; [done|].
    intros [= <- _ _] H1 H2. unfold responseAuthToken. by rewrite H1, H2.
  - destruct (Href e) as (status & code & message & ->). intros [= <- <- <-]. split; [done|]. intros token user bootstrap. done.
Qed.

(** ** One-time codes *)

(** An answer that a code was issued is only given for an active account. *)
Theorem otp_issued_for_accounts now v email r st result st' :
  handleRequestOTP hashToken mail_Send cfg srv now v email r st = (Answer (OTPIssued result), st') →
  ∃ user, users_GetByEmail st (ToLower (TrimSpace email)) = Ok user ∧ u_Active user = true.
Proof.
  unfold handleRequestOTP. destruct (RequestOTP _ _ _ _ _ _ _ st) as [[res|e] st1] eqn:Hr; [|by destruct e]. intros _.
  unfold RequestOTP in Hr. cbv zeta in Hr. apply auth_bind_Ok in Hr as (oc & ? & Hd & Hr). auth_inv Hd. apply auth_bind_Ok in Hr as (? & ? & Hd & Hr). auth_inv Hd.
  apply auth_bind_Ok in Hr as (lim & ? & Hl & Hr). apply rate_limited_Ok in Hl as (b & l & _ & ->). apply auth_bind_Ok in Hr as (? & ? & Hd & Hr). auth_inv Hd.
  apply auth_bind_Ok in Hr as (user & ? & Hq & Hr). auth_inv Hq. apply auth_bind_Ok in Hr as (? & ? & Hd & _). auth_inv Hd. by exists user.
Qed.

(** ** Signing out *)

Lemma RevokeSession_ends st now uid sid s0 : sessions_GetByID st sid = Ok s0 → ss_UserID s0 = uid → revoked_session (RevokeSession now uid sid st).2 s0.
Proof.
  intros Hs0 Hu. destruct (RevokeSession now uid sid st) as [[[]|e] st1] eqn:Hr; cbn [snd]; [by eapply RevokeSession_revokes|].
  pose proof (find_session_In _ _ _ Hs0) as Hin. unfold RevokeSession, auth_bind, query, guard_auth, exec, write, done_with, fail in Hr. rewrite Hs0, Hu, N.eqb_refl in Hr.
  destruct (sessions_Revoke st sid now) as [st2|e2] eqn:Hrev; [done|]. injection Hr as _ <-.
  unfold sessions_Revoke, update_sessions, update_where in Hrev. destruct (existsb _ (sessions st)) eqn:Hex; [done|]. exists s0. split_and!; [done|done|].
  destruct (not_revoked s0) eqn:Hn; [|done]. rewrite <-Hex. symmetry. apply existsb_exists. exists s0. split; [by apply list_elem_of_In|].
  unfold sessions_GetByID, find_session in Hs0. destruct (List.find _ _) eqn:Hf in Hs0; [|done]. injection Hs0 as ->. apply find_some in Hf as [_ Hid]. by rewrite Hid.
Qed.

(** Signing out with a token that is still valid ends its session: neither its access token nor its refresh token is accepted afterwards. *)
Theorem logout_ends_session now r st claims s0 :
  sessions_ok st → SessionTokenFromRequest r ≠ "" → ParseToken cfg now (SessionTokenFromRequest r) = Some claims → k_SessionID claims ≠ 0%N →
  sessions_GetByID st (k_SessionID claims) = Ok s0 → ss_UserID s0 = k_UserID claims →
  let st' := (handleLogoutSession cfg srv now r st).2 in
  (∀ later tok k, ParseToken cfg later tok = Some k → k_SessionID k ≠ 0%N → k_TokenID k = ss_TokenID s0 → is_ok (AuthenticateAccessToken hashToken cfg later tok st').1 = false) ∧
  (∀ later rt meta tid nrt, hashToken rt = ss_RefreshTokenHash s0 → is_ok (RefreshSession hashToken cfg later rt meta tid nrt st').1 = false).
Proof.
  intros Hok Hne Hp Hsid Hs0 Hu st'. assert (st' = (RevokeSession now (k_UserID claims) (k_SessionID claims) st).2) as Hst.
  { unfold st', handleLogoutSession. by rewrite (proj2 (non_empty_true _) Hne), Hp, (proj2 (N.eqb_neq _ _) Hsid). }
  assert (revoked_session st' s0) as Hrev by (rewrite Hst; by apply RevokeSession_ends).
  assert (sessions_ok st') as Hok' by (rewrite Hst; by apply (history_ok _)).
  destruct (revoked_refuses (λ _ _, "") hashToken cfg st' s0 Hok' Hrev) as (Ha & _ & Hr). done.
Qed.

(** Signing out without a valid access token, in particular after it has expired, clears the cookies of the browser and nothing else. *)
Theorem logout_without_token_keeps_session now r st :
  SessionTokenFromRequest r = "" ∨ ParseToken cfg now (SessionTokenFromRequest r) = None →
  handleLogoutSession cfg srv now r st = (Answer tt, cleared_cookies srv r, st).
Proof. unfold handleLogoutSession. intros [->|Hp]; [done|]. rewrite Hp. by destruct (non_empty _). Qed.

(** Nobody ends a session of somebody else: the request is answered as if there were no such session. *)
Theorem foreign_session_not_revoked now user sid r st s0 :
  sessions_GetByID st sid = Ok s0 → ss_UserID s0 ≠ u_ID user →
  handleRevokeMySession cfg srv now user sid r st = (ApiError 404 "not_found" "resource not found", [], st).
Proof.
  intros Hs0 Hu. unfold handleRevokeMySession, RevokeSession, auth_bind, query, guard_auth, fail. by rewrite Hs0, (proj2 (N.eqb_neq _ _) Hu).
Qed.
End theorems.

(** The digits of a magic link are those of the service. *)
Theorem intToString_decimal v : (v < 2 ^ 63)%N → intToString v = Some (FormatUint v).
Proof.
  intros Hv. unfold intToString, FormatUint, pretty, pretty_N. destruct (N.eqb_spec v 0) as [->|Hne]; [done|].
  rewrite decide_False by done. apply format_loop_pretty. eapply N.lt_trans; [exact Hv|]. reflexivity.
Qed.

(** * Witnesses *)

Definition sample_admin : User :=
  {| u_ID := 7; u_Email := "ada@example.com"; u_PasswordHash := "h:pw"; u_Role := RoleAdmin; u_Active := true; u_MustChangePassword := false;
     u_MFAEnabled := false; u_MFASecret := ""; u_MFAPendingSecret := ""; u_MFARecoveryCodes := []; u_MFAPendingRecoveryCodes := []; u_MFALastTOTPCounter := 0;
     u_AuthProvider := AuthProviderLocal; u_AuthProviderRef := ""; u_AuthIssuer := ""; u_DisplayName := ""; u_Username := ""; u_LastLoginAt := None |}.

Definition user_with_id (id : N) : User :=
  {| u_ID := id; u_Email := "bob@example.com"; u_PasswordHash := ""; u_Role := RoleViewer; u_Active := true; u_MustChangePassword := false;
     u_MFAEnabled := false; u_MFASecret := ""; u_MFAPendingSecret := ""; u_MFARecoveryCodes := []; u_MFAPendingRecoveryCodes := []; u_MFALastTOTPCounter := 0;
     u_AuthProvider := AuthProviderLocal; u_AuthProviderRef := ""; u_AuthIssuer := ""; u_DisplayName := ""; u_Username := ""; u_LastLoginAt := None |}.

Definition sample_server : server_config :=
  {| sv_TrustedProxyCIDRs := []; sv_ExposeAuthTokens := false; sv_AllowInsecureDevMode := false; sv_BreakGlassAllowCIDRs := ["127.0.0.1/32"] |}.
Definition local_request (h : Header) : Request :=
  {| r_Method := "POST"; r_Host := "localhost"; r_Path := "/api/v1/auth/break-glass/login"; r_RawPath := ""; r_RequestURI := ""; r_Token := "";
     r_Header := h; r_RemoteAddr := "127.0.0.1:4242"; r_TLS := true; r_ClientCert := "" |}.
Definition sample_values (n : string) : random_values := {| rv_TokenID := "t" +:+ n; rv_Refresh := "f" +:+ n; rv_Challenge := "c" +:+ n; rv_Code := n |}.
Definition sample_break_glass : breakGlassState := newBreakGlassState 0 true "one-time-secret-token" (15 * Minute)%Z.
Definition sample_recovery : breakGlassLoginRequest := {| bl_Email := "ada@example.com"; bl_Password := "pw"; bl_Token := "one-time-secret-token" |}.

Abbreviation sample_handle := (handleBreakGlassLogin sample_hash sample_bcrypt (λ s, s) sample_config sample_server Second).


(** Two requests that were both admitted before either had finished both get a session for the one token. *)
Theorem break_glass_token_race :
  let admitted := validateBreakGlassRequest (λ s, s) sample_server Second (local_request ∅) (bl_Token sample_recovery) sample_break_glass in
  let finish v := break_glass_finish sample_hash sample_bcrypt sample_config sample_server Second (sample_values v) sample_recovery (local_request ∅) in
  let '(reply1, _, bg1, st1) := finish "1" sample_break_glass (with_user sample_admin) in
  let '(reply2, _, bg2, st2) := finish "2" bg1 st1 in
  admitted = None ∧ (∃ body1 body2, reply1 = Answer body1 ∧ reply2 = Answer body2) ∧ bg_used bg1 = true ∧ length (sessions st2) = 3%nat.
Proof. vm_compute. split_and!; [done|by eexists _, _|done|done]. Qed.

Definition mail_settings : AppSettings :=
  {| as_FrontendBaseURL := ""; as_OIDCEnabled := false; as_OIDCRedirectURL := ""; as_LocalLoginDisabled := false; as_OTPEnabled := true;
     as_OTPTokenTTLSeconds := 600; as_OTPRequestLimit := 5; as_OTPRequestWindowSeconds := 900; as_RequireMFAForAdmins := false; as_SMTPEnabled := true |}.
Definition otp_state : auth_state :=
  {| users := [sample_admin]; memberships := ∅; sessions := []; nextSession := 1; loginTokens := []; nextToken := 1; apiTokens := []; authCache := ∅;
     userTokens := ∅; limiter := NewLocalLimiter 0; settings := Some mail_settings; passkeys := ∅ |}.

(** The reply to a request for a code tells an address with an account from one without. *)
Theorem otp_request_reveals_accounts :
  let ask email := (handleRequestOTP sample_hash (λ _ _, true) sample_config sample_server Second (sample_values "123456") email (local_request ∅) otp_state).1 in
  (∃ result, ask "ada@example.com" = Answer (OTPIssued result)) ∧ ask "nobody@example.com" = Answer (OTPMaybe "if the account exists, a code has been issued").
Proof. vm_compute. split; [by eexists|done]. Qed.

(** After its access token has expired a user signs out, and the refresh token goes on working. *)
Theorem logout_after_expiry_keeps_refresh_token :
  let r := local_request {["Cookie" := ["portlyn_refresh=h"]]} in
  let '(_, _, st) := handleLogoutSession sample_config sample_server Hour r signed_in in
  RefreshTokenFromRequest r = "h" ∧ is_ok (RefreshSession sample_hash sample_config Hour (RefreshTokenFromRequest r) no_meta "t2" "r2" st).1 = true.
Proof. vm_compute. done. Qed.

Lemma login_reply_tokens_witness :
  let '(reply, cookies, st') := handleLogin sample_hash sample_bcrypt sample_config sample_server Second (sample_values "1") "ada@example.com" "pw" (local_request ∅) (with_user sample_admin) in
  ∀ token user bootstrap, reply = Answer (LoginBody token user bootstrap) → token = "".
Proof.
  destruct (handleLogin sample_hash sample_bcrypt sample_config sample_server Second (sample_values "1") "ada@example.com" "pw" (local_request ∅) (with_user sample_admin))
    as [[reply cookies] st'] eqn:Hh. intros token user bootstrap Hr.
  exact (proj2 (login_reply_tokens sample_config sample_server _ _ login_errors _ _ _ _ ltac:(intros []; do 3 eexists; reflexivity) Hh) token user bootstrap Hr eq_refl eq_refl).
Defined.

Lemma otp_issued_for_accounts_witness : ∃ user, users_GetByEmail otp_state "ada@example.com" = Ok user ∧ u_Active user = true.
Proof.
  destruct (handleRequestOTP sample_hash (λ _ _, true) sample_config sample_server Second (sample_values "123456") "ada@example.com" (local_request ∅) otp_state)
    as [[status code message|[result|message]] st'] eqn:Hh; [vm_compute in Hh; discriminate Hh| |vm_compute in Hh; discriminate Hh].
  exact (otp_issued_for_accounts _ _ _ _ _ _ _ _ _ _ _ Hh).
Defined.

Definition token_request : Request := local_request {["Authorization" := ["Bearer " +:+ sample_token]]}.

Lemma logout_ends_session_witness :
  is_ok (RefreshSession sample_hash sample_config Hour "h" no_meta "t2" "r2" (handleLogoutSession sample_config sample_server Second token_request signed_in).2).1 = false.
Proof.
  destruct (ParseToken sample_config Second (SessionTokenFromRequest token_request)) as [claims|] eqn:Hp; [|vm_compute in Hp; discriminate Hp].
  refine (proj2 (logout_ends_session sample_hash sample_config sample_server Second token_request signed_in claims sample_session signed_in_ok _ Hp _ _ _) Hour "h" no_meta "t2" "r2" eq_refl);
    vm_compute in Hp; injection Hp as <-; vm_compute; first [reflexivity|discriminate].
Defined.

Lemma logout_without_token_keeps_session_witness :
  handleLogoutSession sample_config sample_server Hour (local_request ∅) signed_in = (Answer tt, cleared_cookies sample_server (local_request ∅), signed_in).
Proof. apply logout_without_token_keeps_session. left. vm_compute. reflexivity. Defined.

Lemma foreign_session_not_revoked_witness :
  handleRevokeMySession sample_config sample_server Second (user_with_id 8) 4 (local_request ∅) signed_in = (ApiError 404 "not_found" "resource not found", [], signed_in).
Proof. apply (foreign_session_not_revoked sample_config sample_server Second (user_with_id 8) 4 (local_request ∅) signed_in sample_session); [reflexivity|discriminate]. Defined.

Lemma intToString_decimal_witness : intToString 42 = Some "42".
Proof. apply (intToString_decimal 42). reflexivity. Defined.
